(* ===== verification/_CoqProject ===== *)
-Q . S2P
Prelude.v
PyDict.v
LRU.v
Heapq.v
KarmarkarKarp.v
GreedyPartition.v
MicroBatch.v
MessageQueue.v
LoadBalancer.v
Protocol.v
Dispatch.v
KVCacheConfig.v
PrefixMetrics.v
FreeBlockQueue.v
Request.v
BlockHash.v
BlockPool.v
SpecializedManager.v
KVCacheManager.v
KVCacheLink.v
BlockOwners.v
MMInputCache.v
EncoderCache.v
NgramProposer.v
Scheduler.v
SchedulerSpec.v
SchedulerLifecycle.v
SchedulerUpdate.v
SchedulerProperties.v
SchedulerSafety.v
SchedulerCalls.v
SchedulerOutputs.v
Engine.v
EngineProgress.v
StopChecker.v
Detokenizer.v
Logprobs.v
RequestStats.v
RequestOutputs.v
OutputProcessor.v
OutputProcessorSpec.v
Numbers.v
NumPy.v
BlockTable.v
InputBatch.v
InputBatchSpec.v
ModelRunner.v
ModelRunnerSpec.v
ModelRunnerProperties.v
ModelRunnerInputs.v
ModelRunnerExecute.v
ModelRunnerTheorems.v
Sampler.v
SamplerSpec.v
SamplerTheorems.v
SamplerModel.v
SamplerRequests.v
RejectionSampler.v
RejectionSpec.v
RejectionTheorems.v
SpeculativeDecoding.v
SpeculativeRuns.v
TorchFunctional.v
Advantages.v
AdvantageGroups.v
GroupAdvantages.v
AdvantageReturns.v
PolicyLoss.v
PolicyLossTheorems.v
TrainingTheorems.v
TrainingRuns.v
WorkerSync.v
WorkerStep.v
System.v
