(* ===== verification/Prelude.v ===== *)
(** * Verification of the rollout benchmark: verl's batch handling and the vLLM V1 engine

    The repository couples two programs.  [src/task/verl] is a trainer for
    language models by reinforcement learning: it sends prompts to rollout
    servers, moves batches of samples between a controller and its workers,
    balances sequences of different lengths over workers and micro-batches, and
    passes samples from rollouters to trainers through a queue.
    [src/task/vllm-src] is the inference engine that produces the rollouts: a
    scheduler decides in each step which requests get how many tokens, a block
    manager gives them the memory of the KV cache and reuses cached prefixes, the
    worker turns the scheduler's decision into the arrays of the model, and the
    front end turns the sampled tokens into text.  The rest of the repository
    (benchmark scripts, kernels, models, configuration) drives these parts or
    runs them.  This library models the parts that decide - data structures,
    schedulers, allocators, batch bookkeeping, the choice of tokens, speculative
    decoding, advantages and losses - as executable functions and proves them
    correct.

    ** Conventions

    A Python function that may raise is a function into [result]; the exception
    classes are [exn].  Objects that are mutated through several names live in a
    store: KV-cache blocks in a [store] indexed by block id
    ([FreeBlockQueue.v]), requests in a [heap] of references ([Scheduler.v]).
    Integers are [Z] (or [nat] for positions and counts that Python code never
    makes negative); where the width matters, workloads in numpy and torch
    integers, the wrap-around is written out ([MicroBatch.wrap]).  A [while] loop
    takes fuel and returns [option]: [None] means that the fuel ran out, and a
    theorem says that it does not.  Loops over a list that only shrinks at one
    end recurse on that list.  A Python [dict] is a [gmap], or the insertion
    ordered dictionary of [PyDict.v] where the order is observable; a [set] whose
    iteration order is observable is visited by a function that lists it in some
    order.  Floating-point numbers are exact rationals, with -inf, inf and nan as
    values of their own where the code relies on them ([Numbers.v]); rounding is
    not modelled.  The programs of a Triton grid run one after the other, in any
    order.

    ** The parts

    Shared: [Prelude.v] (this file: [result], automation, generic lemmas),
    [PyDict.v] (ordered dictionaries), [LRU.v] (the cache of [cachetools] both
    programs use, as a class with laws), [Heapq.v] (Python's [heapq]
    as an interface with laws, and an instance), [NumPy.v] ([np.repeat] and
    [np.cumsum] as an interface with laws, and an instance), [Numbers.v] (floats,
    sums of rationals, lists of rationals up to [==]).

    verl ([src/task/verl/verl]).

    - [utils/seqlen_balancing.py].  [KarmarkarKarp.v]: the classes [Set] and
      [State], [karmarkar_karp] and [get_seqlen_balanced_partitions].
      [GreedyPartition.v]: [greedy_partition].  [MicroBatch.v]: workloads,
      [ceildiv], the number of micro-batches, [rearrange_micro_batches],
      [restore_dynamic_batch], [get_reverse_idx], grouping by uid.
    - [experimental/fully_async_policy/message_queue.py].  [MessageQueue.v]: the
      actor's methods and a step relation in which consumers wait and are
      notified.
    - [workers/rollout/llm_server.py].  [LoadBalancer.v]: least-loaded and sticky
      choice of a server, the in-flight counts, adding and removing servers.
    - [protocol.py].  [Protocol.v]: [DataProto] with its row operations, chunk,
      concat, padding.  [single_controller/base/decorator.py] and
      [ray/base.py].  [Dispatch.v]: the dispatch and collect functions and the
      call of a worker group that they surround.
    - [trainer/ppo/core_algos.py] with [utils/torch_functional.py] and
      [utils/groupwise.py].  [TorchFunctional.v]: masked and group statistics.
      [Advantages.v]: the advantage estimators; [AdvantageGroups.v] what their
      loops over groups compute, [GroupAdvantages.v] GRPO and RLOO,
      [AdvantageReturns.v] GAE and returns.  [PolicyLoss.v]: aggregation, policy and
      value losses, KL penalty and controllers, [apply_kl_penalty] of
      [trainer/ppo/ray_trainer.py]; [PolicyLossTheorems.v] their lemmas.
      [TrainingTheorems.v] has the theorems, [TrainingRuns.v] an instance of the
      functions of torch and runs.

    vLLM ([src/task/vllm-src/vllm]).

    - [v1/kv_cache_interface.py], second half of [v1/core/kv_cache_utils.py].
      [KVCacheConfig.v].  [PrefixCachingMetrics].  [PrefixMetrics.v].
    - Blocks, [v1/core/kv_cache_utils.py], [block_pool.py],
      [specialized_manager.py], [kv_cache_manager.py].  [FreeBlockQueue.v]: the
      doubly linked free list over the shared blocks, refined to a plain list.
      [BlockHash.v]: extra keys and the hash chain; the hash function is a
      parameter, collision-freeness a class.  [BlockPool.v]: the pool with its
      prefix cache.  [SpecializedManager.v]: full and sliding-window attention.
      [KVCacheManager.v]: look-up, allocation and freeing per request.
      [KVCacheLink.v]: the lemmas on it that the scheduler's theorems use;
      [BlockOwners.v]: no block that is still written belongs to two requests.
    - Requests, [v1/request.py], [v1/core/sched/utils.py], the fields of
      [sampling_params.py] that are used.  [Request.v].
    - [v1/core/encoder_cache_manager.py].  [EncoderCache.v].
      [v1/spec_decode/ngram_proposer.py].  [NgramProposer.v].
    - Scheduler, [v1/core/sched/scheduler.py] with [sched/output.py].
      [Scheduler.v] has the state, [schedule] in the pieces of its source (the
      loop over running requests with preemption, the loop over waiting ones,
      the output), [update_from_output], [add_request], [finish_requests];
      [SchedulerSpec.v], [SchedulerLifecycle.v] and [SchedulerUpdate.v] have the
      invariants and lemmas, [SchedulerProperties.v] the theorems.
      [SchedulerSafety.v] and [SchedulerCalls.v] show that every call the
      scheduler makes to the managers meets its preconditions.
      [SchedulerOutputs.v]: what a step hands to the worker.
    - Engine core, [v1/engine/core.py], [mm_input_cache.py].  [Engine.v]: adding,
      aborting and stepping, and a session of such calls; [EngineProgress.v]:
      what a step achieves.  [MMInputCache.v]: the mirrored input caches of the
      front end and the core.
    - Front end, [v1/engine/output_processor.py], [detokenizer.py],
      [logprobs.py], [parallel_sampling.py], [v1/metrics/stats.py],
      [outputs.py], [engine/output_processor/stop_checker.py],
      [transformers_utils/detokenizer_utils.py].  [StopChecker.v],
      [Detokenizer.v], [Logprobs.v], [RequestStats.v], [RequestOutputs.v] (the
      collector and parallel sampling) are the parts; [OutputProcessor.v] the
      loop over a step's outputs, [OutputProcessorSpec.v] its theorems.
    - Worker, [v1/worker/gpu_model_runner.py], [gpu_input_batch.py],
      [block_table.py] and the reordering of [v1/attention/backends/mla].
      [BlockTable.v], [InputBatch.v]: the persistent batch, its rows and swaps;
      [InputBatchSpec.v]: its invariant.  [ModelRunner.v]: [_update_states],
      [_prepare_inputs], speculative-decoding metadata, sampling metadata, drafts;
      [ModelRunnerExecute.v]: [execute_model]; [ModelRunnerSpec.v],
      [ModelRunnerProperties.v] and [ModelRunnerInputs.v] the lemmas,
      [ModelRunnerTheorems.v] the theorems.
    - Sampler, [v1/sample/sampler.py], [sample/ops], [model_executor/layers/utils.py].
      [Sampler.v]: masks, penalties, temperature, filters, the draw, log
      probabilities; [SamplerSpec.v] and [SamplerTheorems.v] its lemmas and theorems,
      [SamplerModel.v] an instance of torch's functions, [SamplerRequests.v] the
      sampler on the batch of a runner.
    - Speculative decoding, [v1/sample/rejection_sampler.py].  [RejectionSampler.v]:
      the functions and their kernels, and the part of [execute_model] from the
      logits to the tokens; [RejectionSpec.v] and [RejectionTheorems.v] the lemmas;
      [SpeculativeDecoding.v] the theorems, [SpeculativeRuns.v] an instance and runs.
    - Scheduler and worker together.  [WorkerSync.v] relates their states,
      [WorkerStep.v] takes a step of both, [System.v] is the engine core with a model
      runner as its executor.

    In the engine the calls go downwards: engine core, scheduler, KV-cache manager
    and encoder cache, pool and attention-specific part, free queue; all read
    requests.  The scheduler's output goes to the worker, the worker's sampled
    tokens back to [update_from_output], and the engine's outputs to the front
    end.  The state of each part is a [Record] with the fields of the Python
    class, and each method is a [Definition] with its name.

    ** What the theorems show

    - Partitioning: every index lands in exactly one partition, sizes are as
      asked, the spread of the Karmarkar-Karp partitions is at most the largest
      length; micro-batches hold each row once and are restored in order.
    - Queue, balancer, batches: samples come out first in, first out and every
      one is accounted for; the balancer's counts are at most the leases that are
      open, and equal to them as long as no server is added again while its requests
      are in flight; a batch's rows are cut, selected and repeated as asked;
      chunk and concat, pad and unpad are inverse; a dispatched call on a padded
      batch is the call on the whole batch, for one-dimensional and
      mesh-dispatched groups.
    - Free queue: the linked list behaves as a list (refinement).  Pool and
      manager: an invariant ties reference counts, hashes, free queue and the
      requests' blocks together ([pool_ok], [kv_ok]); every operation preserves
      it and does what its caller relies on; the lookup finds the longest hit, and a
      prefix hit really is a prefix, in
      the sense of equal hashes exactly for equal prefixes.
    - Configuration: the memory check is exact, the binary search finds the
      largest model length, workers agree on the smallest number of blocks.
    - Scheduler: an invariant on queues, statuses, ids and token counters
      ([sched_ok]) is kept by all entry points; a step ends, respects the token
      and request limits, serves the queues in order, never schedules a token
      whose encoder input is missing; [update_from_output] and
      [finish_requests] do not raise and keep the caches' invariants too.
    - Engine core: a session of adding, aborting and stepping never raises, and a
      step schedules something when the first running request is text with tokens
      left, or nothing runs, only text requests wait and one is not waiting for its
      grammar ([can_progress]; the pool must hold a request of the longest length).
    - System: from the start and through good calls ([good_call], see the limits) the
      engine core and its worker stay in sync, none of these calls fails, the model
      computes on the tokens that the scheduler means, and no
      two of them are written to the same place ([engine_and_worker_in_sync],
      [model_computes_scheduled_tokens]).
    - Front end: the text is that of the tokens, for tokenizers that decode locally
      (see the limits), deltas concatenate to the
      cumulative text, stop strings cut where they are first found, each request
      gets its own outputs only, an aborted parent aborts its children.
    - Worker: the persistent batch stays dense, holds exactly the scheduled
      requests and what the scheduler said of each; the model's inputs are, row
      by row, the tokens, positions, slots and sequence lengths of the scheduled
      pieces; a row's sampling parameters are its request's.
    - Sampler: a token that is returned is allowed for its request, no end of a bad
      word, no stop token too early, and passes the request's own filters; the
      filters keep the best tokens and the smallest likely part; the log
      probabilities returned are those of the unprocessed logits.
    - Speculative decoding: greedy steps with drafts, without masks, biases and
      penalties, give the tokens of greedy decoding; a random step gives every token
      as often as the target's probability says; the answer of the kernels is the verdict on every request's drafts.
    - Training: GAE is the textbook estimate on the model's own tokens; GRPO and RLOO
      are relative to the group and sum to zero in groups of two or more (alone, a
      response keeps its score), and agree with their vectorized
      versions; losses do not depend on how a batch is spread over ranks; the clipped
      loss is the dual clip; the KL estimates are not negative and the controller's
      factor is bounded ([kl_forward_ok], [kl_update_ok]).
    - Places where the code does not do what it says are theorems about concrete
      runs: [metric_call_drops_workers], [readding_resets_count],
      [mirror_broken_by_error], [future_keeps_padding],
      [same_batch_twice_fails], [full_length_request_starves],
      [early_sample_finishes], [allocate_slots_assertions],
      [hybrid_check_gap], [generated_block_key_boundary],
      [max_token_len_not_a_bound], [encoder_cache_overcommitted],
      [logit_bias_inherited], [swapped_masks_agree], [moved_prompt_truncated],
      [preempted_request_repeats_token], [preempted_request_fails_assertion],
      [tpu_filters_differ], [zero_number_accepts_excluded_token],
      [drafts_escape_masks], [rloo_versions_differ], [reinforce_plus_plus_forgets].

    ** Fuel

    [bsearch] gets the length of the interval it halves; [lps_loop] and
    [find_loop] twice the length of pattern and text; [running_loop] the number
    of running requests; [padding_protos] the number of rows still to be added;
    [op_abort] one more than the number of parent requests.  [bsearch_ok],
    [lps_loop_ok], [find_loop_ok], [running_loop_ok], [padding_protos_ok] and
    [abort_requests_ends] show that this is enough.

    ** Parameters

    Not under [src/]: [heapq], hash functions, clocks, numpy and torch
    operations, tokenizers, the eviction order of the cache library, Ray.
    Interfaces with several implementations in the engine, taken as the class
    [Scheduler.Env]: the KV connector, the grammar bitmask and the
    log-probability arrays, which the scheduler only passes on.  The model
    executor is an argument of the engine's step.

    ** Limits of the theorems

    The engine's theorems ([Engine.v], [EngineProgress.v]) are for a model
    without draft tokens, lookahead slots and a limit on adapters, with a sliding
    window wider than a block and EAGLE only with full attention.
    [requests_do_not_interfere] is for requests without parents, collectors and
    log probabilities; the statistics theorem is without adapters.
    [step_inputs_correct] is for steps without drafts (their metadata has its own
    theorem, and [SpeculativeDecoding.v] has the sampling of such steps), and
    swapping rows assumes that no row has an allowed-token mask
    ([swapped_masks_agree] shows why).  Ids, positions and slots are taken to fit into
    32 bits.  M-RoPE positions, [is_embed] masks of multi-modal inputs and the
    offsets of random generators are left out of the worker's state.  The theorems of
    [System.v] are for steps in which no chunk of a prefill ends among a request's
    output tokens ([whole_prefills]): a preempted request gets these back in one
    piece.  The runs at the end of that file show what happens otherwise.
    The slow detokenizer's theorem assumes of the tokenizer ([StreamingDecode]) not
    that decoding is a concatenation, but that it is local: a window of tokens that
    anchors the text fixes how the tokens after it read, and what has been decoded
    to a longer finished text anchors in its turn.  Batches are concatenated under
    the premise that the values of their meta information compare equal to
    themselves, which a NaN or an array does not ([plain_meta]).
    [speculative_token_law] speaks of a list of equally likely outcomes of the random
    numbers, with the laws that are documented for them as premises.
    The rejection sampler is proved for drafts without probabilities, as the engine
    calls it.

    ** Not modelled

    Models, attention and kernels, optimizers and gradients (tensor computation);
    processes, RPC and HTTP (I/O); asyncio and Ray orchestration; the V0 engine,
    which the rollout does not use; grammar compilation and KV connectors, which are
    behind interfaces; configuration files, benchmark and evaluation scripts, tests.
    Of the estimators and losses the optimal token baselines, the resampling of
    [pf_ppo], the covariance losses and the REINFORCE bypass are left out.  Of
    [execute_model] the transfer of KV caches, the padding of inputs and pipeline
    ranks other than the last are left out. *)

From Stdlib Require Export Lia ZArith.
From stdpp Require Export prelude gmap strings sorting.

Set Default Proof Using "Type".

(** ** Python's exceptions and fallible code

    A Python function that may raise is a function into [result]; the
    exceptions are the classes the modelled code raises or lets escape. *)

Inductive exn : Type :=
  | AssertionError
  | ValueError
  | IndexError
  | KeyError
  | RuntimeError
  | TypeError
  | ZeroDivisionError
  | NotImplementedError
  | AttributeError
  | EngineDeadError.

#[export] Instance exn_eq_dec : EqDecision exn.
Proof. solve_decision. Defined.

Inductive result (A : Type) : Type :=
  | Ok (a : A)
  | Err (e : exn).
Arguments Ok {A} a.
Arguments Err {A} e.

#[export] Instance result_ret : MRet result := fun A a => Ok a.
#[export] Instance result_bind : MBind result := fun A B f r =>
  match r with Ok a => f a | Err e => Err e end.
#[export] Instance result_fmap : FMap result := fun A B f r =>
  match r with Ok a => Ok (f a) | Err e => Err e end.

#[export] Instance result_eq_dec `{EqDecision A} : EqDecision (result A).
Proof. solve_decision. Defined.

(** Python's [assert]. *)
Definition py_assert (b : bool) : result unit :=
  if b then Ok tt else Err AssertionError.

(** [o] is the outcome of an operation that raises [e] when it has none. *)
Definition of_option {A} (e : exn) (o : option A) : result A :=
  match o with Some a => Ok a | None => Err e end.

Definition is_ok {A} (r : result A) : bool :=
  match r with Ok _ => true | Err _ => false end.

Lemma bind_ok {A B} (r : result A) (f : A -> result B) (b : B) :
  r ≫= f = Ok b <-> exists a, r = Ok a /\ f a = Ok b.
Proof.
  destruct r as [a|e]; cbn; split.
  - intros H; eauto.
  - intros (a' & [= <-] & H); done.
  - done.
  - intros (a' & [=] & _).
Qed.

Lemma py_assert_ok (b : bool) (u : unit) : py_assert b = Ok u <-> b = true.
Proof. destruct b, u; cbn; split; congruence. Qed.

Lemma of_option_ok {A} e (o : option A) a : of_option e o = Ok a <-> o = Some a.
Proof. destruct o; cbn; split; congruence. Qed.

(** [invert_ok H] opens a successful run [H : (x <- e; k x) = Ok r]. *)
Ltac invert_ok_step :=
  match goal with
  | H : (_ ≫= _) = Ok _ |- _ => apply bind_ok in H as (? & ? & ?)
  | H : py_assert _ = Ok _ |- _ => apply py_assert_ok in H
  | H : of_option _ _ = Ok _ |- _ => apply of_option_ok in H
  | H : Ok _ = Ok _ |- _ => injection H as H; try subst
  | H : mret _ = Ok _ |- _ => injection H as H; try subst
  | H : Err _ = Ok _ |- _ => discriminate H
  end.
Ltac invert_ok := repeat invert_ok_step.

(** [map] in the error monad: the first failure wins, as in a Python loop. *)
Fixpoint mapM_ok {A B} (f : A -> result B) (l : list A) : result (list B) :=
  match l with
  | [] => Ok []
  | x :: l' => y ← f x; ys ← mapM_ok f l'; Ok (y :: ys)
  end.

Fixpoint foldM {A S} (f : S -> A -> result S) (s : S) (l : list A) : result S :=
  match l with
  | [] => Ok s
  | x :: l' => s' ← f s x; foldM f s' l'
  end.

Lemma mapM_ok_Forall2 {A B} (f : A -> result B) l k :
  mapM_ok f l = Ok k <-> Forall2 (fun x y => f x = Ok y) l k.
Proof.
  revert k. induction l as [|x l IH]; intros k; cbn; split.
  - intros [= <-]. constructor.
  - intros H; inversion H; done.
  - intros H. invert_ok. constructor; [done|]. by apply IH.
  - intros H. inversion H as [|? y ? k' Hx Hl]; subst.
    rewrite Hx; cbn. apply IH in Hl. by rewrite Hl.
Qed.

Lemma mapM_ok_total {A B} (f : A -> result B) (g : A -> B) l :
  (forall x, x ∈ l -> f x = Ok (g x)) -> mapM_ok f l = Ok (g <$> l).
Proof.
  intros H. apply mapM_ok_Forall2. induction l as [|x l IH]; cbn; constructor.
  - apply H. by left.
  - apply IH. intros y Hy. apply H. by right.
Qed.

Lemma foldM_app {A S} (f : S -> A -> result S) s l1 l2 :
  foldM f s (l1 ++ l2) = s' ← foldM f s l1; foldM f s' l2.
Proof.
  revert s. induction l1 as [|x l1 IH]; intros s; cbn; [done|].
  destruct (f s x); cbn; [apply IH|done].
Qed.

(** An invariant of the loop body is one of the loop. *)
Lemma foldM_inv {A S} (P : S -> Prop) (f : S -> A -> result S) s l s' :
  P s -> (forall x s1 s2, x ∈ l -> P s1 -> f s1 x = Ok s2 -> P s2) ->
  foldM f s l = Ok s' -> P s'.
Proof.
  revert s. induction l as [|x l IH]; intros s Hs Hf; cbn.
  - intros [= <-]; done.
  - intros H. invert_ok. eapply (IH x0); [by eapply Hf; [left| |]| |done].
    intros y s1 s2 Hy. apply Hf. by right.
Qed.

(** ** Sums of integer lists *)

Definition zsum (l : list Z) : Z := foldr Z.add 0%Z l.

Lemma zsum_nil : zsum [] = 0%Z.
Proof. done. Qed.
Lemma zsum_cons x l : zsum (x :: l) = (x + zsum l)%Z.
Proof. done. Qed.
Lemma zsum_app l k : zsum (l ++ k) = (zsum l + zsum k)%Z.
Proof. induction l as [|x l IH]; cbn -[zsum]; rewrite ?zsum_cons, ?zsum_nil; lia. Qed.

#[export] Instance zsum_perm : Proper ((≡ₚ) ==> (=)) zsum.
Proof. intros l k H. induction H; rewrite ?zsum_cons in *; lia. Qed.

Lemma zsum_nonneg l : Forall (fun x => 0 <= x)%Z l -> (0 <= zsum l)%Z.
Proof. induction 1; rewrite ?zsum_cons, ?zsum_nil; lia. Qed.

Lemma zsum_elem_le x l : Forall (fun x => 0 <= x)%Z l -> x ∈ l -> (x <= zsum l)%Z.
Proof.
  intros Hl Hx. induction Hl as [|y l Hy Hl IH]; [set_solver|].
  rewrite zsum_cons. pose proof (zsum_nonneg l Hl).
  apply elem_of_cons in Hx as [->|Hx]; [lia|]. specialize (IH Hx). lia.
Qed.

(** ** List lemmas shared by the components *)

Lemma Forall_zip_with {A B C} (f : A -> B -> C) (P : A -> Prop) (Q : B -> Prop) (R : C -> Prop) l k :
  (forall x y, P x -> Q y -> R (f x y)) ->
  Forall P l -> Forall Q k -> Forall R (zip_with f l k).
Proof.
  intros Hf Hl. revert k. induction Hl as [|x l Hx Hl IH]; intros [|y k] Hk; cbn; try constructor.
  - apply Hf; [done|]. by inversion Hk.
  - apply IH. by inversion Hk.
Qed.

Lemma fmap_zip_with {A B C D} (f : A -> B -> C) (g : C -> D) (h : A -> B -> D) l k :
  (forall x y, g (f x y) = h x y) -> g <$> zip_with f l k = zip_with h l k.
Proof.
  intros H. revert k. induction l as [|x l IH]; intros [|y k]; cbn; try done.
  by rewrite H, IH.
Qed.

#[export] Instance concat_perm {A} : Proper ((≡ₚ) ==> (≡ₚ)) (@concat A).
Proof.
  intros l k H. induction H; cbn; [done|by f_equiv| |by etransitivity].
  rewrite !app_assoc. f_equiv. apply Permutation_app_comm.
Qed.

Lemma StronglySorted_lookup {A} (R : relation A) l i j x y :
  StronglySorted R l -> (i < j)%nat -> l !! i = Some x -> l !! j = Some y -> R x y.
Proof.
  intros Hl. revert i j. induction Hl as [|z l Hl IH Hz]; intros [|i] [|j] Hij Hx Hy;
    cbn in *; try done; try lia.
  - injection Hx as <-. eapply Forall_lookup_1; eauto.
  - eapply (IH i j); eauto. lia.
Qed.

Create HintDb pydb.
Create Rewrite HintDb pyrw.
#[export] Hint Rewrite zsum_nil zsum_cons zsum_app : pyrw.
#[export] Hint Resolve zsum_nonneg : pydb.

(** ** Python's stable sort

    [isort before l] sorts [l] so that an element comes before another one when
    [before] says so, and keeps the order of [l] otherwise: [sorted(l)] is
    [isort lt l], [sorted(l, reverse=True)] is [isort (flip lt) l]. *)

Section Isort.
Context {A : Type} (before : A -> A -> bool).

Fixpoint insert_by (x : A) (l : list A) : list A :=
  match l with
  | [] => [x]
  | y :: l' => if before y x then y :: insert_by x l' else x :: y :: l'
  end.

Definition isort (l : list A) : list A := foldr insert_by [] l.

Lemma insert_by_perm x l : insert_by x l ≡ₚ x :: l.
Proof.
  induction l as [|y l IH]; cbn; [done|].
  destruct (before y x); [|done]. rewrite IH. constructor.
Qed.

Lemma isort_perm l : isort l ≡ₚ l.
Proof. induction l as [|x l IH]; cbn; [done|]. by rewrite insert_by_perm, IH. Qed.

Lemma isort_length l : length (isort l) = length l.
Proof. by rewrite isort_perm. Qed.

Context (P : A -> Prop) (R : relation A).
Hypothesis before_true : forall x y, P x -> P y -> before y x = true -> R y x.
Hypothesis before_false : forall x y, P x -> P y -> before y x = false -> R x y.

Lemma insert_by_sorted x l :
  P x -> Forall P l -> Sorted R l -> Sorted R (insert_by x l).
Proof using before_true before_false.
  intros Hx Hl Hs. induction Hs as [|y l Hs IH Hd]; cbn; [by repeat constructor|].
  inversion Hl as [|? ? Hy Hl']; subst. destruct (before y x) eqn:E.
  - constructor; [by apply IH|]. destruct l as [|z l]; cbn; [by constructor; auto|].
    destruct (before z x); constructor; [by inversion Hd|by auto].
  - constructor; [by constructor|constructor; by auto].
Qed.

Lemma isort_sorted l : Forall P l -> Sorted R (isort l).
Proof using before_true before_false.
  induction 1 as [|x l Hx Hl IH]; cbn; [constructor|].
  apply insert_by_sorted; [done| |done]. by rewrite isort_perm.
Qed.
End Isort.

(** Ascending order on indices: [sorted(l)] on a list of ints. *)
Definition sort_nat (l : list nat) : list nat := isort Nat.ltb l.

Lemma sort_nat_perm l : sort_nat l ≡ₚ l.
Proof. apply isort_perm. Qed.

Lemma sort_nat_sorted l : StronglySorted le (sort_nat l).
Proof.
  apply Sorted_StronglySorted; [intros ???; lia|].
  apply (isort_sorted Nat.ltb (fun _ => True)).
  - intros x y _ _ H%Nat.ltb_lt. lia.
  - intros x y _ _ H%Nat.ltb_ge. lia.
  - by apply Forall_true.
Qed.

(** ** Filters that keep everything, or one element fewer *)

Lemma list_filter_all {A} (P : A -> Prop) `{forall x, Decision (P x)} (l : list A) :
  (forall x, x ∈ l -> P x) -> filter P l = l.
Proof.
  induction l as [|x l IH]; intros H'; [done|].
  rewrite filter_cons_True by (apply H'; by left). f_equal. apply IH. intros y Hy. apply H'. by right.
Qed.

Lemma list_filter_one `{EqDecision A} (l1 l2 : list A) b :
  NoDup (l1 ++ b :: l2) -> filter (fun x => x <> b) (l1 ++ b :: l2) = l1 ++ l2.
Proof.
  intros H. rewrite <-Permutation_middle in H. apply NoDup_cons in H as [Hb _].
  rewrite filter_app, filter_cons_False by (intros E; by apply E).
  rewrite <-filter_app. apply list_filter_all. intros x Hx ->. done.
Qed.

(** ** Python's indexing and slicing, with negative positions *)

(** A slice bound, clipped to the list. *)
Definition py_bound (n : nat) (i : Z) : nat :=
  if (i <? 0)%Z then Z.to_nat (Z.max 0 (Z.of_nat n + i)) else Nat.min (Z.to_nat i) n.

Definition py_slice {A} (i j : Z) (l : list A) : list A :=
  let a := py_bound (length l) i in
  let b := py_bound (length l) j in
  take (b - a) (drop a l).

Definition py_slice_from {A} (i : Z) (l : list A) : list A := drop (py_bound (length l) i) l.

Definition py_index {A} (l : list A) (i : Z) : result A :=
  let i := if (i <? 0)%Z then (i + Z.of_nat (length l))%Z else i in
  if (i <? 0)%Z then Err IndexError else of_option IndexError (l !! Z.to_nat i).

Lemma py_slice_nat {A} (i j : nat) (l : list A) :
  j <= length l -> py_slice (Z.of_nat i) (Z.of_nat j) l = take (j - i) (drop i l).
Proof.
  intros Hj. unfold py_slice, py_bound.
  destruct (Z.ltb_spec (Z.of_nat i) 0), (Z.ltb_spec (Z.of_nat j) 0); try lia.
  rewrite !Nat2Z.id, (Nat.min_l j) by done. destruct (decide (i <= length l)).
  - by rewrite Nat.min_l.
  - replace (j - i) with 0 by lia. by replace (j - i `min` length l) with 0 by lia.
Qed.

Lemma py_slice_from_nat {A} (i : nat) (l : list A) : py_slice_from (Z.of_nat i) l = drop i l.
Proof.
  unfold py_slice_from, py_bound. destruct (Z.ltb_spec (Z.of_nat i) 0); [lia|]. rewrite Nat2Z.id.
  destruct (decide (i <= length l)); [by rewrite Nat.min_l|].
  rewrite Nat.min_r by lia. by rewrite !drop_ge by lia.
Qed.

Lemma py_index_nat {A} (l : list A) (i : nat) : py_index l (Z.of_nat i) = of_option IndexError (l !! i).
Proof.
  unfold py_index. destruct (Z.ltb_spec (Z.of_nat i) 0); [lia|].
  destruct (Z.ltb_spec (Z.of_nat i) 0); [lia|]. by rewrite Nat2Z.id.
Qed.

(** ** Integer division *)

(** Python's [a // b] rounds down, as [Z.div] does; zero raises. *)
Definition py_floordiv (a b : Z) : result Z :=
  if (b =? 0)%Z then Err ZeroDivisionError else Ok (a / b)%Z.

(** [cdiv] of [vllm/utils.py]: [-(a // -b)]. *)
Definition cdiv (a b : Z) : result Z := q ← py_floordiv a (- b); Ok (- q)%Z.

Lemma py_floordiv_ok a b : b <> 0%Z -> py_floordiv a b = Ok (a / b)%Z.
Proof. intros H. unfold py_floordiv. by rewrite (proj2 (Z.eqb_neq _ _) H). Qed.

Lemma cdiv_ok a b : (0 < b)%Z -> cdiv a b = Ok ((a + b - 1) / b)%Z.
Proof.
  intros Hb. unfold cdiv. rewrite py_floordiv_ok by lia. cbn. f_equal.
  pose proof (Z.div_mod a (- b) ltac:(lia)) as H1. pose proof (Z.mod_neg_bound a (- b) ltac:(lia)) as H2.
  apply (Z.div_unique_pos _ _ _ (a mod (- b) + b - 1)); [lia|].
  generalize dependent (a mod (- b))%Z. generalize (a / (- b))%Z. intros q r ? ?. lia.
Qed.

(** The least multiple count: [cdiv a b <= q] iff [a <= q * b]. *)
Lemma cdiv_le a b q : (0 < b)%Z -> ((a + b - 1) / b <= q <-> a <= q * b)%Z.
Proof.
  intros Hb. split.
  - intros H. pose proof (Z.div_mod (a + b - 1) b ltac:(lia)). pose proof (Z.mod_pos_bound (a + b - 1) b Hb). nia.
  - intros H. apply Z.lt_succ_r. apply Z.div_lt_upper_bound; nia.
Qed.

Lemma cdiv_mono a a' b : (0 < b -> a <= a' -> (a + b - 1) / b <= (a' + b - 1) / b)%Z.
Proof. intros. apply Z.div_le_mono; lia. Qed.

(** The minimum of a non-empty list. *)
Lemma foldr_min_spec (z : Z) (l : list Z) :
  Forall (fun x => foldr Z.min z l <= x)%Z (z :: l) /\ foldr Z.min z l ∈ z :: l.
Proof.
  induction l as [|x l [IH1 IH2]]; cbn; [split; [repeat constructor; lia|by left]|].
  apply Forall_cons in IH1 as [H1 H2]. split.
  - constructor; [lia|]. constructor; [lia|]. eapply Forall_impl; [exact H2|]. cbn. intros. lia.
  - destruct (Z.min_spec x (foldr Z.min z l)) as [[_ ->]|[_ ->]]; [right; by left|].
    apply elem_of_cons in IH2 as [->|]; [by left|right; by right].
Qed.
