(* ===== verification/PyDict.v ===== *)
(** * Python dicts with their order

    A [dict] whose iteration order the code observes: an association list with
    distinct keys, in the order of insertion.  An assignment to a key that is
    there keeps its place. *)

From S2P Require Import Prelude.

Definition dict (V : Type) : Type := list (string * V).

Section Dict.
Context {V : Type}.

Definition keys (d : dict V) : list string := d.*1.

Fixpoint dict_get (d : dict V) (k : string) : option V :=
  match d with
  | [] => None
  | (k', v) :: d => if decide (k' = k) then Some v else dict_get d k
  end.

Fixpoint dict_set (k : string) (v : V) (d : dict V) : dict V :=
  match d with
  | [] => [(k, v)]
  | (k', v') :: d => if decide (k' = k) then (k, v) :: d else (k', v') :: dict_set k v d
  end.

(** [d.pop(k, None)] *)
Fixpoint dict_pop (k : string) (d : dict V) : dict V :=
  match d with
  | [] => []
  | (k', v) :: d => if decide (k' = k) then dict_pop k d else (k', v) :: dict_pop k d
  end.

Definition dict_mem (d : dict V) (k : string) : bool := bool_decide (k ∈ keys d).

Lemma dict_get_some d k v : dict_get d k = Some v -> (k, v) ∈ d.
Proof.
  induction d as [|[k' v'] d IH]; cbn; [done|]. destruct (decide (k' = k)) as [->|]; [intros [= ->]; by left|].
  intros H. right. by apply IH.
Qed.

Lemma dict_get_is_Some d k : is_Some (dict_get d k) <-> k ∈ keys d.
Proof.
  induction d as [|[k' v'] d IH]; cbn.
  - split; [by intros []|by intros ?%elem_of_nil].
  - rewrite elem_of_cons, <-IH. destruct (decide (k' = k)) as [->|Hne]; split; try by eauto.
    intros [E|]; [congruence|done].
Qed.

Lemma dict_get_none d k : dict_get d k = None <-> k ∉ keys d.
Proof. rewrite <-dict_get_is_Some, eq_None_not_Some. done. Qed.

Lemma dict_get_in d k v : NoDup (keys d) -> (k, v) ∈ d -> dict_get d k = Some v.
Proof.
  induction d as [|[k' v'] d IH]; cbn; [by intros _ ?%elem_of_nil|]. intros [Hk Hnd]%NoDup_cons Hin.
  apply elem_of_cons in Hin as [[= -> ->]|Hin]; [by rewrite decide_True|]. rewrite decide_False; [by apply IH|].
  intros ->. apply Hk. apply list_elem_of_fmap. by exists (k, v).
Qed.

Lemma dict_get_set d k v k' : dict_get (dict_set k v d) k' = if decide (k' = k) then Some v else dict_get d k'.
Proof.
  induction d as [|[k1 v1] d IH]; cbn.
  - destruct (decide (k = k')), (decide (k' = k)); congruence.
  - destruct (decide (k1 = k)) as [->|]; cbn.
    + destruct (decide (k = k')), (decide (k' = k)); congruence.
    + destruct (decide (k1 = k')) as [->|]; [by rewrite decide_False|done].
Qed.

(** The keys and their order after an assignment. *)
Lemma keys_set d k v : keys (dict_set k v d) = if decide (k ∈ keys d) then keys d else keys d ++ [k].
Proof.
  induction d as [|[k1 v1] d IH]; cbn; [done|]. destruct (decide (k1 = k)) as [->|Hne]; cbn.
  - rewrite decide_True; [done|by left].
  - unfold keys in IH. rewrite IH. destruct (decide (k ∈ d.*1)) as [Hin|Hin].
    + rewrite decide_True; [done|by right].
    + rewrite decide_False; [done|]. by intros [|]%elem_of_cons.
Qed.

Lemma keys_set_nodup d k v : NoDup (keys d) -> NoDup (keys (dict_set k v d)).
Proof.
  rewrite keys_set. case_decide as E; [done|]. intros Hd. apply NoDup_app. split; [done|].
  split; [|apply NoDup_singleton]. intros x Hx ->%list_elem_of_singleton. done.
Qed.

Lemma keys_pop d k : keys (dict_pop k d) = filter (fun x => x <> k) (keys d).
Proof.
  unfold keys. induction d as [|[k1 v1] d IH]; [done|]. cbn [dict_pop fmap list_fmap fst].
  destruct (decide (k1 = k)) as [->|Hne].
  - rewrite filter_cons_False by (by intros []). exact IH.
  - rewrite filter_cons_True by done. cbn. f_equal. exact IH.
Qed.

Lemma dict_get_pop d k k' : dict_get (dict_pop k d) k' = if decide (k' = k) then None else dict_get d k'.
Proof.
  induction d as [|[k1 v1] d IH]; cbn; [by case_decide|].
  destruct (decide (k1 = k)) as [->|Hne]; cbn; rewrite IH.
  - destruct (decide (k' = k)), (decide (k = k')); congruence.
  - destruct (decide (k1 = k')) as [->|]; [by rewrite decide_False|done].
Qed.

End Dict.
