(* ===== verification/LRU.v ===== *)
(** * The LRU cache of cachetools

    [cachetools.LRUCache] is third-party code that both halves of the program
    use; here it is a class with its documented behaviour, and an instance that
    shows the laws can hold. *)

From S2P Require Import Prelude.

(** Its entries, the effect of a successful read on the order, the write, which
    evicts and may refuse a value, and the deletion of a key that is there. *)
Class BaseLRU (V : Type) := {
  lru : Type;
  lru_data : lru -> gmap string V;
  lru_touch : lru -> string -> lru;
  lru_set : lru -> string -> V -> lru * result unit;
  lru_del : lru -> string -> lru;
}.
Arguments lru V {_}.

Class BaseLRULaws (V : Type) `{BaseLRU V} : Prop := {
  touch_data : forall (c : lru V) k, lru_data (lru_touch c k) = lru_data c;
  set_data : forall (c c' : lru V) k v, lru_set c k v = (c', Ok tt) ->
    lru_data c' !! k = Some v /\
    forall k' v', k' <> k -> lru_data c' !! k' = Some v' -> lru_data c !! k' = Some v';
  del_data : forall (c : lru V) k, lru_data (lru_del c k) = delete k (lru_data c);
}.

(** A cache of the sizes of [cachetools]: the newest entry first; a value larger
    than the cache is refused. *)
Module Sized.
Section Sized.
Context {V : Type} (getsizeof : V -> nat) (maxsize : nat).

Fixpoint evict (room : nat) (l : list (string * V)) : list (string * V) :=
  match l with
  | [] => []
  | (k, n) :: l => if getsizeof n <=? room then (k, n) :: evict (room - getsizeof n) l else []
  end.

Definition forget (k : string) (l : list (string * V)) : list (string * V) := filter (fun x => x.1 <> k) l.

Definition as_map (l : list (string * V)) : gmap string V := list_to_map l.

#[export] Instance sized_lru : BaseLRU V := {|
  lru := list (string * V);
  lru_data := as_map;
  lru_touch := fun l k => match as_map l !! k with Some n => (k, n) :: forget k l | None => l end;
  lru_set := fun l k n => if getsizeof n <=? maxsize then ((k, n) :: evict (maxsize - getsizeof n) (forget k l), Ok tt) else (l, Err ValueError);
  lru_del := fun l k => forget k l;
  |}.

Lemma forget_data k k' l : k' <> k -> as_map (forget k l) !! k' = as_map l !! k'.
Proof.
  intros Hne. induction l as [|[k1 n] l IH]; [done|]. unfold forget. rewrite filter_cons. cbn [fst].
  destruct (decide (k1 <> k)) as [H1|H1]; cbn; [|apply dec_stable in H1; subst k1; by rewrite lookup_insert_ne].
  destruct (decide (k1 = k')) as [->|]; [by rewrite !lookup_insert_eq|by rewrite !lookup_insert_ne].
Qed.

Lemma evict_data room l k n : as_map (evict room l) !! k = Some n -> as_map l !! k = Some n.
Proof.
  revert room. induction l as [|[k1 n1] l IH]; intros room; [done|]. cbn. destruct (getsizeof n1 <=? room); [|by cbn; rewrite lookup_empty].
  cbn. destruct (decide (k1 = k)) as [->|]; [by rewrite !lookup_insert_eq|rewrite !lookup_insert_ne by done; apply IH].
Qed.

#[export] Instance sized_laws : BaseLRULaws V.
Proof.
  split.
  - intros l k. cbn. destruct (as_map l !! k) as [n|] eqn:E; [|done]. apply map_eq. intros k'. cbn.
    destruct (decide (k' = k)) as [->|Hne]; [by rewrite lookup_insert_eq|]. rewrite lookup_insert_ne by done. by apply forget_data.
  - intros l l' k n. cbn. destruct (getsizeof n <=? maxsize); [|done]. intros [= <-]. cbn. split; [by rewrite lookup_insert_eq|].
    intros k' n' Hne. rewrite lookup_insert_ne by done. intros H%evict_data. by rewrite forget_data in H.
  - intros l k. cbn. apply map_eq. intros k'. destruct (decide (k' = k)) as [->|Hne].
    + rewrite lookup_delete_eq. induction l as [|[k1 n] l IH]; [done|]. unfold forget. rewrite filter_cons. cbn [fst].
      case_decide; [|done]. cbn. by rewrite lookup_insert_ne.
    + rewrite lookup_delete_ne by done. by apply forget_data.
Qed.
End Sized.
End Sized.
