(* ===== verification/Heapq.v ===== *)
(** * The contract of Python's [heapq]

    The partitioner of [verl/utils/seqlen_balancing.py] keeps its states in a
    [heapq] list.  Its correctness uses three facts about that module: pushing
    adds one element, popping removes one, and the popped element is least for
    the elements' [__lt__].  [Heapq] states them; the partitioner is proved
    against the class, and [heapq_list] shows the class is inhabited. *)

From S2P Require Import Prelude.

Class Heapq (A : Type) (lt : A -> A -> bool) : Type := {
  heap : Type;
  heap_empty : heap;
  heap_elems : heap -> list A;
  heappush : heap -> A -> heap;
  heappop : heap -> option (A * heap);
  heap_empty_elems : heap_elems heap_empty = [];
  heappush_elems h x : heap_elems (heappush h x) ≡ₚ x :: heap_elems h;
  heappop_None h : heappop h = None -> heap_elems h = [];
  heappop_Some h x h' : heappop h = Some (x, h') -> heap_elems h ≡ₚ x :: heap_elems h';
  (** The popped element is least for every preorder [R] that [lt] decides. *)
  heappop_least (R : relation A) h x h' :
    Transitive R ->
    (forall y z, lt z y = true -> R z y) -> (forall y z, lt z y = false -> R y z) ->
    heappop h = Some (x, h') -> Forall (R x) (heap_elems h');
}.
Arguments heap {A} lt {_}.
Arguments heap_empty {A lt _}.
Arguments heap_elems {A lt _} h.
Arguments heappush {A lt _} h x.
Arguments heappop {A lt _} h.

(** ** An implementation: a list from which the first least element is taken *)

Section ListHeap.
Context {A : Type} (lt : A -> A -> bool).

(** [extract_least x l] is the least element of [x :: l] and the others. *)
Fixpoint extract_least (x : A) (l : list A) : A * list A :=
  match l with
  | [] => (x, [])
  | y :: l' =>
      if lt y x then let '(m, r) := extract_least y l' in (m, x :: r)
      else let '(m, r) := extract_least x l' in (m, y :: r)
  end.

Definition list_heappop (l : list A) : option (A * list A) :=
  match l with [] => None | x :: l' => Some (extract_least x l') end.

Lemma extract_least_perm x l m r :
  extract_least x l = (m, r) -> x :: l ≡ₚ m :: r.
Proof.
  revert x m r. induction l as [|y l IH]; intros x m r; cbn.
  - by intros [= -> <-].
  - destruct (lt y x), (extract_least _ l) as [m' r'] eqn:E;
      intros [= -> <-]; apply IH in E.
    + by rewrite E, Permutation_swap.
    + by rewrite Permutation_swap, E, Permutation_swap.
Qed.

Context (R : relation A) `{!Transitive R}.
Hypothesis lt_true : forall y z, lt z y = true -> R z y.
Hypothesis lt_false : forall y z, lt z y = false -> R y z.

Lemma extract_least_le x l m r :
  extract_least x l = (m, r) -> Forall (R m) r /\ (m = x \/ R m x).
Proof using All.
  revert x m r. induction l as [|y l IH]; intros x m r; cbn.
  - intros [= <- <-]. by split; [constructor|left].
  - destruct (lt y x) eqn:Hlt, (extract_least _ l) as [m' r'] eqn:E;
      intros [= -> <-]; apply IH in E as [Hr Hm].
    + assert (R m x) by (destruct Hm as [->|Hm]; [|etransitivity]; eauto).
      split; [by constructor|by right].
    + assert (R m y) by (destruct Hm as [->|Hm]; [|etransitivity]; eauto).
      split; [by constructor|done].
Qed.
End ListHeap.

#[export, refine] Instance heapq_list {A} (lt : A -> A -> bool) : Heapq A lt := {|
    heap := list A;
    heap_empty := [];
    heap_elems h := h;
    heappush h x := h ++ [x];
    heappop := list_heappop lt;
  |}.
Proof.
  - done.
  - intros h x. by rewrite Permutation_app_comm.
  - by intros [|x h].
  - intros [|y h] x h' E; [done|]. injection E as E. by apply extract_least_perm in E.
  - intros R [|y h] x h' HR Ht Hf E; [done|]. injection E as E.
    by eapply extract_least_le in E as [? _].
Defined.
