(* ===== verification/KarmarkarKarp.v ===== *)
(** * Balanced partitioning of sequence lengths

    The partitioners of [verl/utils/seqlen_balancing.py]: the
    Karmarkar-Karp differencing method, the greedy one, and the checked entry
    point [get_seqlen_balanced_partitions].  Indices and partition counts are
    naturals, lengths and workloads are integers (Python's are unbounded). *)

From S2P Require Import Prelude Heapq.
Open Scope Z_scope.

(** ** The local class [Set] of [karmarkar_karp] *)

Record KSet := mkSet { set_sum : Z; set_items : list (nat * Z) }.

Definition Set_init : KSet := mkSet 0 [].

Definition Set_add (s : KSet) (idx : nat) (val : Z) : KSet :=
  mkSet (set_sum s + val) (set_items s ++ [(idx, val)]).

Definition Set_merge (s other : KSet) : KSet :=
  foldl (fun acc '(idx, val) => Set_add acc idx val) s (set_items other).

(** Python's order on [(idx, val)] tuples and on lists of them. *)
Definition item_lt (x y : nat * Z) : bool :=
  if (x.1 =? y.1)%nat then x.2 <? y.2 else (x.1 <? y.1)%nat.

Fixpoint items_lt (l k : list (nat * Z)) : bool :=
  match l, k with
  | _, [] => false
  | [], _ :: _ => true
  | x :: l', y :: k' => if bool_decide (x = y) then items_lt l' k' else item_lt x y
  end.

Definition Set_lt (s other : KSet) : bool :=
  if negb (set_sum s =? set_sum other) then set_sum s <? set_sum other
  else if negb (length (set_items s) =? length (set_items other))%nat
  then (length (set_items s) <? length (set_items other))%nat
  else items_lt (set_items s) (set_items other).

(** ** The local class [State] *)

Record KState := mkState { st_k : nat; st_sets : list KSet }.

(** [sorted(sets, reverse=True)] *)
Definition sort_sets (sets : list KSet) : list KSet := isort (fun y x => Set_lt x y) sets.

Definition State_init (items : list (nat * Z)) (k : nat) : result KState :=
  py_assert ((length items =? 1)%nat || (length items =? k)%nat);;
  sets ← foldM (fun sets '(i, (idx, seqlen)) =>
                  s ← of_option IndexError (sets !! i);
                  Ok (<[i := Set_add s idx seqlen]> sets))
               (replicate k Set_init) (imap pair items);
  Ok (mkState k (sort_sets sets)).

Definition State_get_partitions (s : KState) : list (list nat) :=
  (fun set => (set_items set).*1) <$> st_sets s.

(** [self.sets[i].merge(other.sets[self.k - 1 - i])] for every [i]: all states
    of one run have [k] sets. *)
Definition State_merge (s other : KState) : KState :=
  mkState (st_k s) (sort_sets (zip_with Set_merge (st_sets s) (reverse (st_sets other)))).

Definition State_spread (s : KState) : Z :=
  set_sum (default Set_init (head (st_sets s))) - set_sum (default Set_init (list.last (st_sets s))).

Definition State_lt (s other : KState) : bool :=
  if negb (State_spread s =? State_spread other) then State_spread other <? State_spread s
  else Set_lt (default Set_init (head (st_sets other))) (default Set_init (head (st_sets s))).

(** ** [karmarkar_karp] *)

(** The order on [(seqlen, i)] tuples used by [sorted]. *)
Definition seqlen_lt (x y : Z * nat) : bool :=
  if x.1 =? y.1 then (x.2 <? y.2)%nat else x.1 <? y.1.

Definition sorted_seqlen_list (seqlen_list : list Z) : list (Z * nat) :=
  isort seqlen_lt (imap (fun i seqlen => (seqlen, i)) seqlen_list).

Section KK.
Context `{!Heapq KState State_lt}.

(** [range(0, n, k)] for [k > 0] *)
Definition range_step (n k : nat) : list nat :=
  (fun j => j * k)%nat <$> seq 0 ((n + k - 1) / k).

Definition push_state (pq : heap State_lt) (items : list (nat * Z)) (k : nat) :
    result (heap State_lt) :=
  st ← State_init items k; Ok (heappush pq st).

Definition init_states (sorted : list (Z * nat)) (n k : nat) (equal_size : bool) :
    result (heap State_lt) :=
  if equal_size then
    if (k =? 0)%nat then Err ZeroDivisionError else
    py_assert (n mod k =? 0)%nat;;
    foldM (fun pq offset =>
             items ← mapM_ok (fun i => '(seqlen, idx) ← of_option IndexError (sorted !! (offset + i)%nat);
                                       Ok (idx, seqlen)) (seq 0 k);
             push_state pq items k)
          heap_empty (range_step (length sorted) k)
  else
    foldM (fun pq '(seqlen, idx) => push_state pq [(idx, seqlen)] k) heap_empty sorted.

(** The [while] loop; a run has one iteration per state less one. *)
Fixpoint merge_states (fuel : nat) (pq : heap State_lt) : heap State_lt :=
  match fuel with
  | O => pq
  | S fuel =>
      if (1 <? length (heap_elems pq))%nat then
        match heappop pq with
        | None => pq
        | Some (state0, pq1) =>
            match heappop pq1 with
            | None => pq
            | Some (state1, pq2) => merge_states fuel (heappush pq2 (State_merge state0 state1))
            end
        end
      else pq
  end.

Definition karmarkar_karp (seqlen_list : list Z) (k_partitions : nat) (equal_size : bool) :
    result (list (list nat)) :=
  pq ← init_states (sorted_seqlen_list seqlen_list) (length seqlen_list) k_partitions equal_size;
  let states_pq := merge_states (length (heap_elems pq)) pq in
  final_state ← of_option IndexError (head (heap_elems states_pq));
  let partitions := State_get_partitions final_state in
  (if equal_size then
     py_assert (forallb (fun p => length p * k_partitions =? length seqlen_list)%nat partitions)
   else Ok tt);;
  Ok partitions.

(** [_check_and_sort_partitions] *)
Definition check_and_sort_partitions (n k_partitions : nat) (partitions : list (list nat)) :
    result (list (list nat)) :=
  py_assert (length partitions =? k_partitions)%nat;;
  sorted_partitions ←
    mapM_ok (fun p => py_assert (0 <? length p)%nat;; Ok (sort_nat p)) partitions;
  py_assert (bool_decide (list_to_set (concat partitions) =@{gset nat} list_to_set (seq 0 n)));;
  Ok sorted_partitions.

Definition get_seqlen_balanced_partitions (seqlen_list : list Z) (k_partitions : nat)
    (equal_size : bool) : result (list (list nat)) :=
  py_assert (k_partitions <=? length seqlen_list)%nat;;
  partitions ← karmarkar_karp seqlen_list k_partitions equal_size;
  check_and_sort_partitions (length seqlen_list) k_partitions partitions.
End KK.

(** ** The invariants of states

    [set_ok] relates a set's cached sum to its items; [by_rel R] is the order a
    sort with [Set_lt] establishes for every relation it decides. *)

Definition set_ok (s : KSet) : Prop := set_sum s = zsum (set_items s).*2.

Definition items_of (s : KState) : list (nat * Z) := concat (set_items <$> st_sets s).

#[global] Arguments items_of : simpl never.
#[global] Arguments State_merge : simpl never.
#[global] Arguments State_init : simpl never.

Definition sum_ge (x y : KSet) : Prop := set_sum y <= set_sum x.

Record state_ok (k : nat) (s : KState) : Prop := {
  state_ok_k : st_k s = k;
  state_ok_len : length (st_sets s) = k;
  state_ok_sets : Forall set_ok (st_sets s);
  state_ok_sorted : Sorted sum_ge (st_sets s);
}.

Lemma Set_merge_items s t : set_items (Set_merge s t) = set_items s ++ set_items t.
Proof.
  unfold Set_merge. generalize (set_items t) as l. intros l. revert s.
  induction l as [|[i v] l IH]; intros s; cbn; [by rewrite app_nil_r|].
  rewrite IH. cbn. by rewrite <- app_assoc.
Qed.

Lemma Set_merge_sum s t : set_sum (Set_merge s t) = set_sum s + zsum (set_items t).*2.
Proof.
  unfold Set_merge. generalize (set_items t) as l. intros l. revert s.
  induction l as [|[i v] l IH]; intros s; cbn -[zsum]; autorewrite with pyrw; [lia|].
  rewrite IH. cbn. lia.
Qed.

Lemma Set_merge_ok s t : set_ok s -> set_ok t -> set_ok (Set_merge s t).
Proof.
  unfold set_ok. intros Hs Ht.
  rewrite Set_merge_sum, Set_merge_items, fmap_app, zsum_app. lia.
Qed.

Lemma Set_add_ok s i v : set_ok s -> set_ok (Set_add s i v).
Proof.
  unfold set_ok. intros Hs. cbn -[zsum]. rewrite fmap_app, zsum_app, Hs. cbn. lia.
Qed.

Lemma Set_lt_sum x y : Set_lt x y = true -> set_sum x <= set_sum y.
Proof. unfold Set_lt. destruct (Z.eqb_spec (set_sum x) (set_sum y)); cbn; lia. Qed.

Lemma Set_nlt_sum x y : Set_lt x y = false -> set_sum y <= set_sum x.
Proof. unfold Set_lt. destruct (Z.eqb_spec (set_sum x) (set_sum y)); cbn; lia. Qed.

#[export] Hint Resolve Set_merge_ok Set_add_ok Set_lt_sum Set_nlt_sum : pydb.

Lemma sort_sets_perm l : sort_sets l ≡ₚ l.
Proof. apply isort_perm. Qed.

Lemma sort_sets_length l : length (sort_sets l) = length l.
Proof. apply isort_length. Qed.

Lemma sort_sets_sorted l : Sorted sum_ge (sort_sets l).
Proof.
  apply (isort_sorted _ (fun _ => True)); unfold sum_ge; auto with pydb.
  by apply Forall_true.
Qed.

Lemma concat_zip_merge a b :
  length a = length b ->
  concat (set_items <$> zip_with Set_merge a b)
    ≡ₚ concat (set_items <$> a) ++ concat (set_items <$> b).
Proof.
  revert b. induction a as [|x a IH]; intros [|y b]; cbn; try done.
  intros [= H]. rewrite Set_merge_items, (IH b H). solve_Permutation.
Qed.

(** Merging two states keeps their items. *)
Lemma State_merge_items k s t :
  state_ok k s -> state_ok k t -> items_of (State_merge s t) ≡ₚ items_of s ++ items_of t.
Proof.
  intros Hs Ht. unfold items_of, State_merge. cbn. rewrite sort_sets_perm, concat_zip_merge.
  - f_equiv. by rewrite reverse_Permutation.
  - by rewrite length_reverse, (state_ok_len _ _ Hs), (state_ok_len _ _ Ht).
Qed.

Lemma State_merge_ok k s t : state_ok k s -> state_ok k t -> state_ok k (State_merge s t).
Proof.
  intros [Hks Hls Hos _] [Hkt Hlt Hot _]. unfold State_merge. constructor; cbn.
  - done.
  - rewrite sort_sets_length, length_zip_with, length_reverse. lia.
  - rewrite sort_sets_perm. eapply (Forall_zip_with _ set_ok set_ok); auto with pydb.
    by rewrite reverse_Permutation.
  - apply sort_sets_sorted.
Qed.

(** ** Initial states *)

Definition single (p : nat * Z) : KSet := Set_add Set_init p.1 p.2.

(** What [State(items, k)] is: it holds [items], one per set. *)
Record init_state (k : nat) (items : list (nat * Z)) (s : KState) : Prop := {
  init_state_ok : state_ok k s;
  init_state_items : items_of s ≡ₚ items;
  init_state_sorted :
    st_sets s = sort_sets ((single <$> items) ++ replicate (k - length items) Set_init);
}.

Lemma init_state_sets k items s :
  init_state k items s ->
  st_sets s ≡ₚ (single <$> items) ++ replicate (k - length items) Set_init.
Proof. intros ->%init_state_sorted. apply isort_perm. Qed.

Lemma State_init_loop pre items m :
  (length items <= m)%nat ->
  foldM (fun sets '(i, (idx, seqlen)) =>
           s ← of_option IndexError (sets !! i); Ok (<[i := Set_add s idx seqlen]> sets))
        (pre ++ replicate m Set_init) (imap (fun i x => (length pre + i, x)%nat) items)
  = Ok (pre ++ (single <$> items) ++ replicate (m - length items) Set_init).
Proof.
  revert pre m. induction items as [|[i v] items IH]; intros pre m Hm; cbn in *.
  - by rewrite Nat.sub_0_r.
  - destruct m as [|m]; [lia|]. cbn.
    rewrite lookup_app_r, Nat.add_0_r, Nat.sub_diag by lia. cbn.
    rewrite insert_app_r_alt, Nat.sub_diag by lia. cbn.
    specialize (IH (pre ++ [Set_add Set_init i v]) m ltac:(lia)).
    rewrite length_app, <- !app_assoc in IH. cbn in IH.
    change (single (i, v)) with (Set_add Set_init i v). etransitivity; [|exact IH]. f_equal.
    apply imap_ext. intros j x _. cbn. f_equal. lia.
Qed.

Lemma zsum_singles_ok items : Forall set_ok (single <$> items).
Proof. apply Forall_fmap, Forall_true. intros [i v]. cbn. by apply Set_add_ok. Qed.

Lemma concat_singles items m :
  concat (set_items <$> (single <$> items) ++ replicate m Set_init) = items.
Proof.
  rewrite fmap_app, concat_app, fmap_replicate.
  replace (concat (replicate m (set_items Set_init))) with (@nil (nat * Z))
    by (induction m; done).
  rewrite app_nil_r. induction items as [|[i v] items IH]; cbn in *; [done|by rewrite IH].
Qed.

Lemma State_init_spec items k :
  (length items = k \/ length items = 1%nat /\ (1 <= k)%nat) ->
  exists s, State_init items k = Ok s /\ init_state k items s.
Proof.
  intros Hk. assert (length items <= k)%nat by lia.
  eexists. split.
  - unfold State_init, py_assert.
    replace (_ || _) with true by (symmetry; apply orb_true_iff; rewrite !Nat.eqb_eq; lia).
    cbn.
    rewrite (State_init_loop [] items k H
             : foldM _ (replicate k Set_init) (imap pair items) = Ok _). done.
  - set (l := (single <$> items) ++ _). assert (Forall set_ok l) as Hok.
    { apply Forall_app. split; [apply zsum_singles_ok|]. by apply Forall_replicate. }
    split; [split|..]; cbn.
    + done.
    + rewrite sort_sets_length. unfold l. rewrite length_app, length_fmap, length_replicate. lia.
    + by rewrite sort_sets_perm.
    + apply sort_sets_sorted.
    + unfold items_of; cbn. rewrite sort_sets_perm. unfold l. by rewrite concat_singles.
    + done.
Qed.

(** ** The loops over any lawful heap *)

Section KKSpec.
Context `{!Heapq KState State_lt}.

Section Loop.
Context (k : nat) (I : KState -> Prop).
Hypothesis I_ok : forall s, I s -> state_ok k s.
Hypothesis I_merge : forall s t, I s -> I t -> I (State_merge s t).

Definition heap_items (pq : heap State_lt) : list (nat * Z) :=
  concat (items_of <$> heap_elems pq).

Lemma merge_states_spec fuel (pq : heap State_lt) :
  Forall I (heap_elems pq) ->
  Forall I (heap_elems (merge_states fuel pq)) /\
  heap_items (merge_states fuel pq) ≡ₚ heap_items pq /\
  ((length (heap_elems pq) <= S fuel)%nat ->
  (length (heap_elems (merge_states fuel pq)) <= 1)%nat).
Proof using I_ok I_merge.
  revert pq. induction fuel as [|fuel IH]; intros pq HI; cbn [merge_states].
  { by repeat split; [..|lia]. }
  destruct (Nat.ltb_spec 1 (length (heap_elems pq))) as [Hl|Hl]; [|by repeat split; [..|lia]].
  destruct (heappop pq) as [[s0 pq1]|] eqn:E0.
  2:{ apply heappop_None in E0. rewrite E0 in Hl. cbn in Hl. lia. }
  apply heappop_Some in E0.
  destruct (heappop pq1) as [[s1 pq2]|] eqn:E1.
  2:{ apply heappop_None in E1. rewrite E0, E1 in Hl. cbn in Hl. lia. }
  apply heappop_Some in E1. rewrite E1 in E0.
  rewrite E0 in HI. inversion HI as [|? ? H0 HI1]; subst.
  inversion HI1 as [|? ? H1 HI2]; subst.
  destruct (IH (heappush pq2 (State_merge s0 s1))) as (Ha & Hb & Hc).
  { rewrite heappush_elems. by constructor; [apply I_merge|]. }
  split; [done|]. split.
  - rewrite Hb. unfold heap_items. rewrite heappush_elems, E0. cbn.
  rewrite (State_merge_items k) by auto. by rewrite <- app_assoc.
  - intros Hf. apply Hc. rewrite heappush_elems, E0 in *. cbn in *. lia.
Qed.

(** Pushing the states of [chunks] one by one. *)
Lemma push_states_spec chunks (pq : heap State_lt) :
  Forall (fun items => length items = k \/ length items = 1%nat /\ (1 <= k)%nat) chunks ->
  (forall items s, items ∈ chunks -> init_state k items s -> I s) ->
  Forall I (heap_elems pq) ->
  exists pq', foldM (fun pq items => push_state pq items k) pq chunks = Ok pq' /\
  Forall I (heap_elems pq') /\
  heap_items pq' ≡ₚ concat chunks ++ heap_items pq /\
  length (heap_elems pq') = (length chunks + length (heap_elems pq))%nat.
Proof using I_ok.
  intros Hc. revert pq. induction Hc as [|items chunks Hlen Hc IH]; intros pq Hinit HI; cbn [foldM].
  { by exists pq. }
  destruct (State_init_spec items k Hlen) as (s & E & Hs).
  assert (push_state pq items k = Ok (heappush pq s)) as ->
  by (unfold push_state; by rewrite E).
  cbn.
  destruct (IH (heappush pq s)) as (pq' & -> & HI' & Hitems & Hlen').
  { intros items' s' Hin. apply Hinit. by right. }
  { rewrite heappush_elems. constructor; [|done]. eapply Hinit; [by left|done]. }
  exists pq'. split; [done|]. split; [done|]. split.
  - rewrite Hitems. unfold heap_items at 1. rewrite heappush_elems. cbn.
  rewrite (init_state_items _ _ _ Hs). solve_Permutation.
  - rewrite Hlen', heappush_elems. cbn. lia.
Qed.
End Loop.
End KKSpec.

(** ** The whole partitioner *)

Definition swap_item (x : Z * nat) : nat * Z := (x.2, x.1).

(** The item lists the initial states are built from. *)
Definition init_chunks (sorted : list (Z * nat)) (k : nat) (equal_size : bool) :
    list (list (nat * Z)) :=
  if equal_size
  then (fun off => swap_item <$> take k (drop off sorted)) <$> range_step (length sorted) k
  else (fun x => [swap_item x]) <$> sorted.

Lemma range_step_mul q k :
  (0 < k)%nat -> range_step (q * k) k = (fun j => j * k)%nat <$> seq 0 q.
Proof.
  intros Hk. unfold range_step. do 2 f_equal.
  replace (q * k + k - 1)%nat with (k - 1 + q * k)%nat by lia.
  rewrite Nat.div_add, Nat.div_small by lia. lia.
Qed.

Lemma concat_take_drop {A} (l : list A) k q :
  concat ((fun j => take k (drop (j * k) l)) <$> seq 0 q) = take (q * k) l.
Proof.
  induction q as [|q IH]; [done|].
  rewrite seq_S, fmap_app, concat_app, IH. cbn.
  rewrite app_nil_r, take_take_drop. f_equal. lia.
Qed.

Lemma divides_of_mod n k : (n mod k = 0)%nat -> exists q, n = (q * k)%nat.
Proof. intros H. exists (n / k)%nat. pose proof (Nat.div_mod_eq n k). lia. Qed.

Lemma init_chunks_concat sorted k equal_size :
  (0 < k)%nat -> (equal_size = true -> length sorted mod k = 0)%nat ->
  concat (init_chunks sorted k equal_size) = swap_item <$> sorted.
Proof.
  intros Hk Hd. unfold init_chunks. destruct equal_size.
  - destruct (divides_of_mod _ _ (Hd eq_refl)) as [q Hq].
    rewrite Hq, range_step_mul, <- list_fmap_compose by done.
    transitivity (swap_item <$> take (q * k) sorted); [|by rewrite take_ge by lia].
    rewrite <- concat_take_drop. change (fmap swap_item) with (map swap_item).
    rewrite concat_map. f_equal. change (map (map swap_item)) with (fmap (M:=list) (map swap_item)).
    by rewrite <- list_fmap_compose.
  - clear Hd. induction sorted as [|x l IH]; cbn; [done|by rewrite IH].
Qed.

Lemma init_chunks_length sorted k equal_size items :
  (0 < k)%nat -> (equal_size = true -> length sorted mod k = 0)%nat ->
  items ∈ init_chunks sorted k equal_size ->
  length items = if equal_size then k else 1%nat.
Proof.
  intros Hk Hd. unfold init_chunks. destruct equal_size.
  - destruct (divides_of_mod _ _ (Hd eq_refl)) as [q Hq].
    rewrite Hq, range_step_mul, <- list_fmap_compose by done.
    intros (j & -> & Hj)%list_elem_of_fmap. apply elem_of_seq in Hj. cbn.
    rewrite length_fmap, length_take, length_drop. nia.
  - by intros (x & -> & _)%list_elem_of_fmap.
Qed.

Section KKMain.
Context `{!Heapq KState State_lt}.

Lemma init_states_chunks sorted k equal_size :
  (0 < k)%nat -> (equal_size = true -> length sorted mod k = 0)%nat ->
  init_states sorted (length sorted) k equal_size =
  foldM (fun pq items => push_state pq items k) heap_empty (init_chunks sorted k equal_size).
Proof.
  intros Hk Hd. unfold init_states, init_chunks. destruct equal_size.
  - specialize (Hd eq_refl). replace (k =? 0)%nat with false by (symmetry; apply Nat.eqb_neq; lia).
    rewrite Hd. cbn [py_assert Nat.eqb mbind result_bind].
    destruct (divides_of_mod _ _ Hd) as [q Hq]. rewrite Hq, range_step_mul by done.
    assert (forall j, (j < q)%nat ->
      mapM_ok (fun i => '(seqlen, idx) ← of_option IndexError (sorted !! (j * k + i)%nat);
                        Ok (idx, seqlen)) (seq 0 k)
      = Ok (swap_item <$> take k (drop (j * k) sorted))) as Hrow.
    { intros j Hj. apply mapM_ok_Forall2, Forall2_lookup. intros i.
      rewrite list_lookup_fmap, lookup_take. destruct (decide (i < k)%nat) as [Hi|Hi].
      - rewrite lookup_seq_lt, lookup_drop by done. cbn.
        destruct (lookup_lt_is_Some_2 sorted (j * k + i)) as [[v x] E]; [nia|].
        rewrite E. cbn. constructor. by rewrite E.
      - rewrite lookup_seq_ge by lia. constructor. }
    assert (Forall (fun j => j < q)%nat (seq 0 q)) as Hj by (apply Forall_seq; lia).
    generalize (@heap_empty _ State_lt _) as pq. induction Hj as [|j l Hj _ IH]; intros pq; cbn; [done|].
    rewrite Hrow by done. cbn. destruct (push_state _ _ _); cbn; [apply IH|done].
  - clear Hd. generalize (@heap_empty _ State_lt _) as pq. induction sorted as [|[v i] l IH]; intros pq; cbn; [done|].
    destruct (push_state _ _ _); cbn; [apply IH|done].
Qed.

Lemma sorted_seqlen_items l : swap_item <$> sorted_seqlen_list l ≡ₚ imap pair l.
Proof.
  unfold sorted_seqlen_list. rewrite isort_perm. rewrite fmap_imap.
  by erewrite imap_ext.
Qed.

Lemma sorted_seqlen_length l : length (sorted_seqlen_list l) = length l.
Proof. unfold sorted_seqlen_list. by rewrite isort_length, length_imap. Qed.

(** A run reduces to its final state, which has every property that initial
  states have and merging keeps. *)
Lemma karmarkar_karp_final (l : list Z) k equal_size (I : KState -> Prop) :
  (0 < k)%nat -> l <> [] -> (equal_size = true -> length l mod k = 0)%nat ->
  (forall s, I s -> state_ok k s) ->
  (forall s t, I s -> I t -> I (State_merge s t)) ->
  (forall items s, length items = (if equal_size then k else 1%nat) ->
     items ⊆ imap pair l -> init_state k items s -> I s) ->
  exists final, I final /\ items_of final ≡ₚ imap pair l /\
    karmarkar_karp l k equal_size =
    ((if equal_size then
        py_assert (forallb (fun p => length p * k =? length l)%nat (State_get_partitions final))
      else Ok tt);; Ok (State_get_partitions final)).
Proof.
  intros Hk Hne Hd Hok Hmerge Hinit.
  set (sorted := sorted_seqlen_list l).
  assert (Hd' : (equal_size = true -> length sorted mod k = 0)%nat)
    by (unfold sorted; by rewrite sorted_seqlen_length).
  destruct (push_states_spec k I Hok (init_chunks sorted k equal_size) heap_empty)
    as (pq & Epq & HI & Hitems & Hlen).
  { apply Forall_forall. intros items Hin.
    apply init_chunks_length in Hin; [|done..].
    destruct equal_size; [by left|right; lia]. }
  { intros items s Hin. apply Hinit; [by eapply init_chunks_length|].
    intros x Hx. rewrite <- sorted_seqlen_items, <- (init_chunks_concat _ k equal_size) by done.
    apply list_elem_of_In, in_concat. exists items. by rewrite <- !list_elem_of_In. }
  { rewrite heap_empty_elems. constructor. }
  destruct (merge_states_spec k I Hok Hmerge (length (heap_elems pq)) pq HI) as (HI' & Hitems' & Hone).
  specialize (Hone ltac:(lia)).
  assert (heap_items (merge_states (length (heap_elems pq)) pq) ≡ₚ imap pair l) as Hall.
  { rewrite Hitems', Hitems, init_chunks_concat by done.
    unfold heap_items. rewrite heap_empty_elems, app_nil_r. apply sorted_seqlen_items. }
  destruct (heap_elems (merge_states (length (heap_elems pq)) pq)) as [|final [|]] eqn:E;
    [|exists final|cbn in Hone; lia].
  { unfold heap_items in Hall. rewrite E in Hall. cbn in Hall. destruct l; [done|].
    by apply Permutation_nil_l in Hall. }
  split; [by inversion HI'|]. split.
  { rewrite <- Hall. unfold heap_items. rewrite E. cbn. by rewrite app_nil_r. }
  unfold karmarkar_karp. fold sorted. rewrite <- (sorted_seqlen_length l). fold sorted.
  rewrite init_states_chunks, Epq by done. cbn [mbind result_bind]. by rewrite E.
Qed.
End KKMain.

(** ** What the partitions are

    [part_sum l p] is the total length of the samples with indices [p]. *)

Definition part_sum (l : list Z) (p : list nat) : Z := zsum ((fun i => l !!! i) <$> p).

Lemma partitions_concat s : concat (State_get_partitions s) = (items_of s).*1.
Proof.
  unfold State_get_partitions, items_of. generalize (st_sets s) as l. intros l.
  induction l as [|x l IH]; cbn; [done|]. rewrite fmap_app. by f_equal.
Qed.

Lemma imap_pair_fst (l : list Z) : (imap pair l).*1 = seq 0 (length l).
Proof. rewrite fmap_imap. etransitivity; [exact (imap_seq_0 l (fun i => i))|apply list_fmap_id]. Qed.

Lemma partitions_perm (l : list Z) s :
  items_of s ≡ₚ imap pair l -> concat (State_get_partitions s) ≡ₚ seq 0 (length l).
Proof. intros H. by rewrite partitions_concat, H, imap_pair_fst. Qed.

Lemma set_of_items (l : list Z) s x :
  items_of s ≡ₚ imap pair l -> x ∈ st_sets s ->
  Forall (fun p => l !! p.1 = Some p.2) (set_items x).
Proof.
  intros H Hx. apply Forall_forall. intros p Hp.
  assert (p ∈ imap pair l) as (i & v & -> & Hv)%elem_of_lookup_imap; [|done].
  rewrite <- H. apply list_elem_of_In, in_concat. exists (set_items x).
  rewrite <- !list_elem_of_In. split; [by apply list_elem_of_fmap_2|done].
Qed.

(** The cached sum of a set is the length of its partition. *)
Lemma part_sum_of_set (l : list Z) s x :
  items_of s ≡ₚ imap pair l -> x ∈ st_sets s -> set_ok x ->
  part_sum l (set_items x).*1 = set_sum x.
Proof.
  intros H Hx ->. pose proof (set_of_items l s x H Hx) as Hi. unfold part_sum.
  f_equal. rewrite <- list_fmap_compose. apply list_fmap_ext. intros i p Hp.
  eapply Forall_lookup_1 in Hi; [|done]. cbn. by apply list_lookup_total_correct.
Qed.

Lemma items_length_concat {A} (ls : list (list A)) m :
  Forall (fun l => length l = m) ls -> length (concat ls) = (length ls * m)%nat.
Proof. induction 1; cbn; rewrite ?length_app; lia. Qed.

(** ** Equal sizes: all sets of a state have the same number of items *)

Definition equal_sets (k : nat) (s : KState) : Prop :=
  state_ok k s /\ exists m, Forall (fun x => length (set_items x) = m) (st_sets s).

Lemma equal_sets_merge k s t : equal_sets k s -> equal_sets k t -> equal_sets k (State_merge s t).
Proof.
  intros [Hs [m Hm]] [Ht [n Hn]]. split; [by apply State_merge_ok|]. exists (m + n)%nat.
  unfold State_merge; cbn. rewrite sort_sets_perm.
  eapply Forall_zip_with; [|exact Hm|by rewrite reverse_Permutation].
  intros x y <- <-. by rewrite Set_merge_items, length_app.
Qed.

Lemma equal_sets_init k items s :
  length items = k -> init_state k items s -> equal_sets k s.
Proof.
  intros <- Hs. split; [apply Hs|]. exists 1%nat.
  rewrite (init_state_sets _ _ _ Hs), Nat.sub_diag. cbn. rewrite app_nil_r.
  by apply Forall_fmap, Forall_true.
Qed.

(** ** Non-empty partitions

    With lengths that are not negative the empty sets of a state come last, so
    merging pairs them with non-empty ones as far as there are any. *)

Definition is_empty_set (x : KSet) : bool := bool_decide (set_items x = []).

Fixpoint count_true (l : list bool) : nat :=
  match l with [] => 0 | b :: l => (if b then 1 else 0) + count_true l end.

Definition empties (s : KState) : nat := count_true (is_empty_set <$> st_sets s).

Definition nonneg_set (x : KSet) : Prop := set_ok x /\ Forall (fun p => 0 <= p.2) (set_items x).

Definition empty_last (x y : KSet) : Prop := is_empty_set x = true -> is_empty_set y = true.

Record filled (k : nat) (s : KState) : Prop := {
  filled_ok : state_ok k s;
  filled_nonneg : Forall nonneg_set (st_sets s);
  filled_sorted : Sorted empty_last (st_sets s);
  filled_empties : (empties s <= k - length (items_of s))%nat;
}.

#[export] Instance count_true_perm : Proper ((≡ₚ) ==> (=)) count_true.
Proof. intros l k H. induction H; cbn; lia. Qed.

Lemma count_true_app l k : count_true (l ++ k) = (count_true l + count_true k)%nat.
Proof. induction l; cbn; lia. Qed.

Lemma count_true_replicate n b : count_true (replicate n b) = if b then n else 0%nat.
Proof. induction n; cbn; destruct b; lia. Qed.

(** A list of flags in which [true] comes last. *)
Lemma flags_split (l : list bool) :
  Sorted (fun a b => a = true -> b = true) l ->
  l = replicate (length l - count_true l) false ++ replicate (count_true l) true
  /\ (count_true l <= length l)%nat.
Proof.
  intros H. apply Sorted_StronglySorted in H; [|intros ???; auto].
  induction H as [|b l H [IH Hle] Hb]; [done|]. split; [|destruct b; cbn; lia].
  destruct b; cbn.
  - assert (l = replicate (length l) true) as E.
    { symmetry. apply replicate_as_elem_of. split; [done|]. intros x Hx.
      eapply (proj1 (Forall_forall _ _) Hb); done. }
    rewrite E. rewrite !count_true_replicate, !length_replicate, Nat.sub_diag. done.
  - rewrite Nat.sub_succ_l by done. cbn. by f_equal.
Qed.

Lemma count_true_zip (a b : list bool) :
  length a = length b ->
  Sorted (fun x y => x = true -> y = true) a -> Sorted (fun x y => x = true -> y = true) b ->
  count_true (zip_with andb a (reverse b)) = (count_true a + count_true b - length a)%nat.
Proof.
  intros Hl Ha Hb.
  apply flags_split in Ha as [Ha Ha'], Hb as [Hb Hb'].
  set (p := (length a - count_true a)%nat) in *. set (ea := count_true a) in *.
  set (q := (length b - count_true b)%nat) in *. set (eb := count_true b) in *.
  rewrite Ha, Hb, reverse_app, !reverse_replicate.
  destruct (Nat.le_gt_cases p eb) as [Hpe|Hpe].
  - replace eb with (p + (eb - p))%nat at 1 by lia. replace ea with ((eb - p) + q)%nat at 1 by lia.
    rewrite !replicate_add, <- app_assoc.
    rewrite !zip_with_app, !zip_with_replicate, !count_true_app, !count_true_replicate
      by (by rewrite !length_replicate). cbn. rewrite length_app, !length_replicate. lia.
  - replace p with (eb + (p - eb))%nat at 1 by lia. replace q with ((p - eb) + ea)%nat at 1 by lia.
    rewrite !replicate_add, <- app_assoc.
    rewrite !zip_with_app, !zip_with_replicate, !count_true_app, !count_true_replicate
      by (by rewrite !length_replicate). cbn. rewrite length_app, !length_replicate. lia.
Qed.

Lemma is_empty_merge x y : is_empty_set (Set_merge x y) = is_empty_set x && is_empty_set y.
Proof.
  unfold is_empty_set. rewrite Set_merge_items.
  destruct (set_items x), (set_items y); done.
Qed.

Lemma empties_merge k s t :
  filled k s -> filled k t ->
  empties (State_merge s t) = (empties s + empties t - k)%nat.
Proof.
  intros [[_ Hls _ _] _ Hss _] [[_ Hlt _ _] _ Hst _]. unfold empties, State_merge; cbn.
  rewrite sort_sets_perm, <- Hls, <- (length_fmap is_empty_set (st_sets s)).
  rewrite <- count_true_zip;
    [|by rewrite !length_fmap, Hls, Hlt|eapply Sorted_fmap; [|done]; done..].
  rewrite <- fmap_reverse, zip_with_fmap_l, zip_with_fmap_r.
  f_equal. apply fmap_zip_with, is_empty_merge.
Qed.

Lemma empty_sum x : set_ok x -> is_empty_set x = true -> set_sum x = 0.
Proof. unfold set_ok. intros -> H%bool_decide_eq_true. by rewrite H. Qed.

Lemma sort_sets_empty_last l : Forall nonneg_set l -> Sorted empty_last (sort_sets l).
Proof.
  intros Hl. apply (isort_sorted _ nonneg_set); [..|done]; unfold empty_last;
    intros x y [Hx Hnx] [Hy Hny] Hlt He.
  all: assert (0 <= set_sum x) by (rewrite Hx; apply zsum_nonneg; by apply Forall_fmap).
  all: assert (0 <= set_sum y) by (rewrite Hy; apply zsum_nonneg; by apply Forall_fmap).
  all: apply empty_sum in He as Hs0; [|done].
  all: apply bool_decide_eq_true in He; apply bool_decide_eq_true.
  all: unfold Set_lt in Hlt; rewrite Hs0, He in Hlt.
  - destruct (Z.eqb_spec (set_sum x) 0); cbn in Hlt; [|lia].
    destruct (set_items x) as [|p [|]]; [done|cbn in Hlt; done..].
  - destruct (Z.eqb_spec 0 (set_sum y)); cbn in Hlt; [|lia].
    destruct (set_items y) as [|p [|]]; [done|cbn in Hlt; done..].
Qed.

Lemma nonneg_set_merge x y : nonneg_set x -> nonneg_set y -> nonneg_set (Set_merge x y).
Proof.
  intros [Hx Hnx] [Hy Hny]. split; [by apply Set_merge_ok|].
  rewrite Set_merge_items. by apply Forall_app.
Qed.

Lemma filled_merge k s t : filled k s -> filled k t -> filled k (State_merge s t).
Proof.
  intros Hs Ht.
  assert (Forall nonneg_set (zip_with Set_merge (st_sets s) (reverse (st_sets t)))) as Hnn.
  { eapply Forall_zip_with; [apply nonneg_set_merge|apply Hs|].
    rewrite reverse_Permutation. apply Ht. }
  split.
  - apply State_merge_ok; [apply Hs|apply Ht].
  - unfold State_merge; cbn. by rewrite sort_sets_perm.
  - by apply sort_sets_empty_last.
  - rewrite (empties_merge k), (State_merge_items k), length_app;
      [|apply Hs|apply Ht|done|done].
    pose proof (filled_empties _ _ Hs). pose proof (filled_empties _ _ Ht). lia.
Qed.

Lemma single_nonneg p : 0 <= p.2 -> nonneg_set (single p).
Proof. intros H. split; [by apply Set_add_ok|]. by repeat constructor. Qed.

Lemma filled_init (k : nat) items s :
  Forall (fun p => 0 <= p.2) items -> init_state k items s -> filled k s.
Proof.
  intros Hi Hs.
  assert (Forall nonneg_set (st_sets s)) as Hnn.
  { rewrite (init_state_sets _ _ _ Hs). apply Forall_app. split.
    - apply Forall_fmap. eapply Forall_impl; [exact Hi|]. intros p. apply single_nonneg.
    - apply Forall_replicate. by repeat constructor. }
  split; [apply Hs|done| |].
  - rewrite (init_state_sorted _ _ _ Hs). apply sort_sets_empty_last.
    by rewrite <- init_state_sets.
  - unfold empties. rewrite (init_state_sets _ _ _ Hs), (init_state_items _ _ _ Hs).
    rewrite fmap_app, count_true_app, fmap_replicate, count_true_replicate.
    replace (is_empty_set <$> (single <$> items)) with (replicate (length items) false).
    + rewrite count_true_replicate. cbn. lia.
    + clear. induction items; cbn; [done|by f_equal].
Qed.

(** ** The spread of a state is bounded by the spread of the initial ones *)

Definition spread_le (M : Z) (s : KState) : Prop :=
  forall x y, x ∈ st_sets s -> y ∈ st_sets s -> set_sum x - set_sum y <= M.

Lemma sum_ge_lookup k s i j x y :
  state_ok k s -> (i < j)%nat -> st_sets s !! i = Some x -> st_sets s !! j = Some y ->
  set_sum y <= set_sum x.
Proof.
  intros Hs Hij Hx Hy. eapply (StronglySorted_lookup sum_ge); [|exact Hij|done|done].
  apply Sorted_StronglySorted; [intros ???; unfold sum_ge; lia|]. apply Hs.
Qed.

Lemma spread_merge k M s t :
  0 <= M -> state_ok k s -> state_ok k t -> spread_le M s -> spread_le M t ->
  spread_le M (State_merge s t).
Proof.
  intros HM Hs Ht Hbs Hbt. unfold spread_le, State_merge; cbn. intros x y.
  rewrite !sort_sets_perm.
  intros (i & xs & xt & -> & Hxs & Hxt)%elem_of_lookup_zip_with
         (j & ys & yt & -> & Hys & Hyt)%elem_of_lookup_zip_with.
  assert (set_ok xt /\ set_ok yt) as [Hox Hoy].
  { split; eapply (Forall_lookup_1 _ (reverse (st_sets t))); [rewrite reverse_Permutation; apply Ht|done|
      rewrite reverse_Permutation; apply Ht|done]. }
  rewrite !Set_merge_sum, <- Hox, <- Hoy.
  assert (set_sum xs - set_sum ys <= M) by (apply Hbs; by eapply list_elem_of_lookup_2).
  assert (set_sum xt - set_sum yt <= M)
    by (apply Hbt; rewrite <- (reverse_Permutation (st_sets t)); by eapply list_elem_of_lookup_2).
  pose proof (lookup_lt_Some _ _ _ Hxt). pose proof (lookup_lt_Some _ _ _ Hyt).
  rewrite length_reverse in *. rewrite reverse_lookup in Hxt, Hyt by done.
  destruct (Nat.lt_trichotomy i j) as [Hij|[->|Hij]].
  - assert (set_sum xt <= set_sum yt) by (eapply (sum_ge_lookup k t); [done| |done|done]; lia). lia.
  - simplify_eq. lia.
  - assert (set_sum xs <= set_sum ys) by (eapply (sum_ge_lookup k s); [done| |done|done]; lia). lia.
Qed.

Lemma spread_init k M items s :
  Forall (fun p => 0 <= p.2 <= M) items -> 0 <= M -> init_state k items s -> spread_le M s.
Proof.
  intros Hi HM Hs. assert (Forall (fun x => 0 <= set_sum x <= M) (st_sets s)) as Hb.
  { rewrite (init_state_sets _ _ _ Hs). apply Forall_app. split.
    - apply Forall_fmap. eapply Forall_impl; [exact Hi|]. intros [i v]; cbn; lia.
    - apply Forall_replicate. cbn. lia. }
  intros x y Hx Hy.
  pose proof (proj1 (Forall_forall _ _) Hb x Hx). pose proof (proj1 (Forall_forall _ _) Hb y Hy).
  cbn in *. lia.
Qed.

Section Theorems.
Context `{!Heapq KState State_lt}.

Lemma imap_pair_values (P : Z -> Prop) (l : list Z) items :
  Forall P l -> items ⊆ imap pair l -> Forall (fun p => P p.2) items.
Proof.
  intros Hl Hi. apply Forall_forall. intros p Hp.
  apply Hi, elem_of_lookup_imap in Hp as (i & v & -> & Hv). cbn.
  by eapply Forall_lookup_1.
Qed.

(** The partitioner puts every index in exactly one of [k] partitions, and with
  [equal_size] all of them have the same number of indices, so that its final
  assertion never fails. *)
Lemma karmarkar_karp_partition (l : list Z) (k : nat) (equal_size : bool) :
  (0 < k)%nat -> l <> [] -> (equal_size = true -> length l mod k = 0)%nat ->
  exists ps, karmarkar_karp l k equal_size = Ok ps /\
    length ps = k /\ concat ps ≡ₚ seq 0 (length l) /\
    (equal_size = true -> Forall (fun p => length p = length l / k)%nat ps).
Proof.
  intros Hk Hne Hd.
  destruct (karmarkar_karp_final l k equal_size
    (fun s => state_ok k s /\ (equal_size = true -> equal_sets k s)))
    as (f & [Hok Heq] & Hitems & E); auto.
  { intros s []; done. }
  { intros s t [Hs Hs'] [Ht Ht']. split; [by apply State_merge_ok|].
    intros Heq. apply equal_sets_merge; auto. }
  { intros items s Hlen _ Hs. split; [apply Hs|]. intros ->. by eapply equal_sets_init. }
  pose proof (partitions_perm l f Hitems) as Hperm.
  assert (length (State_get_partitions f) = k) as Hl
    by (unfold State_get_partitions; rewrite length_fmap; apply Hok).
  exists (State_get_partitions f). rewrite E. destruct equal_size; [|by repeat split].
  destruct (Heq eq_refl) as [_ [m Hm]].
  assert (Forall (fun p => length p = m) (State_get_partitions f)) as Hpm.
  { apply Forall_fmap. eapply Forall_impl; [exact Hm|]. intros x Hx. cbn. by rewrite length_fmap. }
  assert (length l = m * k)%nat as Hn.
  { pose proof (items_length_concat _ _ Hpm) as Hc. rewrite Hperm, length_seq in Hc. lia. }
  assert (forallb (fun p => length p * k =? length l)%nat (State_get_partitions f) = true) as ->.
  { apply forallb_forall. intros p Hp%list_elem_of_In. rewrite Forall_forall in Hpm.
    apply Nat.eqb_eq. rewrite (Hpm p Hp). lia. }
  repeat split; [done..|]. intros _. eapply Forall_impl; [exact Hpm|].
  intros p ->. rewrite Hn, Nat.div_mul; lia.
Qed.

(** With lengths that are not negative, no two partitions differ in total length
  by more than the largest item. *)
Lemma karmarkar_karp_spread (l : list Z) (k : nat) (equal_size : bool) (M : Z) ps :
  (0 < k)%nat -> l <> [] -> (equal_size = true -> length l mod k = 0)%nat ->
  Forall (fun v => 0 <= v <= M) l ->
  karmarkar_karp l k equal_size = Ok ps ->
  forall p q, p ∈ ps -> q ∈ ps -> part_sum l p - part_sum l q <= M.
Proof.
  intros Hk Hne Hd HM Eps.
  assert (0 <= M) by (destruct l; [done|]; inversion HM; lia).
  destruct (karmarkar_karp_final l k equal_size (fun s => state_ok k s /\ spread_le M s))
    as (f & [Hok Hsp] & Hitems & E); auto.
  { intros s []; done. }
  { intros s t [Hs Hs'] [Ht Ht']. split; [by apply State_merge_ok|by eapply spread_merge]. }
  { intros items s _ Hin Hs. split; [apply Hs|]. eapply spread_init; [|done|done].
    by eapply (imap_pair_values (fun v => 0 <= v <= M)). }
  rewrite E in Eps. apply bind_ok in Eps as (_ & _ & [= <-]).
  intros p q (x & -> & Hx)%list_elem_of_fmap (y & -> & Hy)%list_elem_of_fmap.
  pose proof (state_ok_sets _ _ Hok) as Hsets. rewrite Forall_forall in Hsets.
  rewrite (part_sum_of_set l f x), (part_sum_of_set l f y); auto.
  all: by apply Hsets.
Qed.

Lemma karmarkar_karp_nonempty (l : list Z) (k : nat) ps :
  (0 < k <= length l)%nat -> Forall (fun v => 0 <= v) l ->
  karmarkar_karp l k false = Ok ps -> Forall (fun p => 0 < length p)%nat ps.
Proof.
  intros Hk Hnn Eps.
  destruct (karmarkar_karp_final l k false (filled k)) as (f & Hf & Hitems & E); [lia| |done|apply filled_ok|..].
  { destruct l; [cbn in Hk; lia|done]. }
  { apply filled_merge. }
  { intros items s _ Hin Hs. eapply filled_init; [|done]. by eapply imap_pair_values. }
  rewrite E in Eps. invert_ok. apply Forall_fmap.
  pose proof (filled_empties _ _ Hf) as He. rewrite Hitems, length_imap in He.
  assert (empties f = 0)%nat as H0 by lia. unfold empties in H0.
  revert H0. clear. induction (st_sets f) as [|s sets IH]; [constructor|]. cbn. intros H0.
  destruct (is_empty_set s) eqn:Ex; [lia|]. constructor; [|by apply IH].
  unfold is_empty_set in Ex. apply bool_decide_eq_false in Ex. cbn. rewrite length_fmap.
  destruct (set_items s); [done|cbn; lia].
Qed.

Lemma check_and_sort_ok n k ps :
  length ps = k -> concat ps ≡ₚ seq 0 n -> Forall (fun p => 0 < length p)%nat ps ->
  check_and_sort_partitions n k ps = Ok (sort_nat <$> ps).
Proof.
  intros Hl Hp Hne. unfold check_and_sort_partitions.
  replace (length ps =? k)%nat with true by (symmetry; by apply Nat.eqb_eq).
  cbn [py_assert mbind result_bind].
  rewrite (mapM_ok_total _ sort_nat).
  - cbn [mbind result_bind]. rewrite bool_decide_true; [done|]. by rewrite Hp.
  - intros p Hp'. rewrite Forall_forall in Hne.
    specialize (Hne p Hp'). by replace (0 <? length p)%nat with true by (symmetry; by apply Nat.ltb_lt).
Qed.

Lemma concat_sort_perm ps : concat (sort_nat <$> ps) ≡ₚ concat ps.
Proof. induction ps as [|p ps IH]; cbn; [done|]. by rewrite sort_nat_perm, IH. Qed.

Lemma sort_nat_nonempty p : (0 < length p)%nat -> sort_nat p <> [].
Proof.
  intros Hp E. pose proof (Permutation_length (sort_nat_perm p)) as Hs.
  rewrite E in Hs. cbn in Hs. lia.
Qed.

Lemma balanced_partitions (l : list Z) (k : nat) (equal_size : bool) :
  (0 < k <= length l)%nat -> (equal_size = true -> length l mod k = 0)%nat ->
  (equal_size = false -> Forall (fun v => 0 <= v) l) ->
  exists raw, karmarkar_karp l k equal_size = Ok raw /\
    get_seqlen_balanced_partitions l k equal_size = Ok (sort_nat <$> raw) /\
    length raw = k /\ concat (sort_nat <$> raw) ≡ₚ seq 0 (length l) /\
    Forall (fun p => p <> [] /\ StronglySorted le p) (sort_nat <$> raw).
Proof.
  intros Hk Hd Hnn.
  assert (l <> []) as Hne by (destruct l; [cbn in Hk; lia|done]).
  destruct (karmarkar_karp_partition l k equal_size) as (ps & E & Hl & Hp & Heq); [lia|done..|].
  assert (Forall (fun p => 0 < length p)%nat ps) as Hpos.
  { destruct equal_size.
    - eapply Forall_impl; [exact (Heq eq_refl)|]. intros p ->. apply Nat.div_str_pos. lia.
    - by eapply (karmarkar_karp_nonempty l k); auto with lia. }
  exists ps. split; [done|]. unfold get_seqlen_balanced_partitions.
  replace (k <=? length l)%nat with true by (symmetry; apply Nat.leb_le; lia).
  cbn [py_assert mbind result_bind]. rewrite E. cbn [mbind result_bind].
  split; [by apply check_and_sort_ok|]. split; [done|]. split; [by rewrite concat_sort_perm|].
  apply Forall_fmap. eapply Forall_impl; [exact Hpos|].
  intros p Hp'. split; [by apply sort_nat_nonempty|apply sort_nat_sorted].
Qed.

Lemma balanced_partitions_err (l : list Z) (k : nat) (equal_size : bool) :
  (0 < k)%nat -> ~ ((k <= length l)%nat /\ (equal_size = true -> length l mod k = 0)%nat) ->
  get_seqlen_balanced_partitions l k equal_size = Err AssertionError.
Proof.
  intros Hk Hn. unfold get_seqlen_balanced_partitions.
  destruct (Nat.leb_spec k (length l)) as [Hle|Hle]; [|done]. cbn [py_assert mbind result_bind].
  destruct equal_size; [|by destruct Hn].
  unfold karmarkar_karp, init_states. destruct (Nat.eqb_spec k 0); [lia|].
  destruct (Nat.eqb_spec (length l mod k) 0); [by destruct Hn|done].
Qed.

(** C16: on lengths that are not negative, [get_seqlen_balanced_partitions] raises
  an assertion error exactly when there are fewer lengths than partitions or,
  with [equal_size], their number is not a multiple of [k].  Otherwise it
  returns [k] sorted, non-empty index lists (of equal size if asked) that cover
  every index once and whose total lengths differ by at most the largest
  length. *)
Theorem get_seqlen_balanced_partitions_correct (l : list Z) (k : nat) (equal_size : bool) (M : Z) :
  (0 < k)%nat -> Forall (fun v => 0 <= v <= M) l ->
  let fits := (k <= length l)%nat /\ (equal_size = true -> length l mod k = 0)%nat in
  (~ fits -> get_seqlen_balanced_partitions l k equal_size = Err AssertionError) /\
  (fits -> exists ps, get_seqlen_balanced_partitions l k equal_size = Ok ps /\
    length ps = k /\ concat ps ≡ₚ seq 0 (length l) /\
    Forall (fun p => p <> [] /\ StronglySorted le p) ps /\
    (equal_size = true -> Forall (fun p => length p = length l / k)%nat ps) /\
    (forall p q, p ∈ ps -> q ∈ ps -> part_sum l p - part_sum l q <= M)).
Proof.
  intros Hk HM fits. split; [by apply balanced_partitions_err|]. intros [Hle Hd].
  assert (l <> []) as Hne by (destruct l; [cbn in Hle; lia|done]).
  destruct (balanced_partitions l k equal_size) as (raw & Er & Eb & Hl & Hp & Hall); [lia|done| |].
  { intros _. eapply Forall_impl; [exact HM|]. cbn. lia. }
  exists (sort_nat <$> raw). split; [done|]. split; [by rewrite length_fmap|].
  split; [done|]. split; [done|]. split.
  - intros ->. destruct (karmarkar_karp_partition l k true) as (ps & E & _ & _ & Hs); auto.
    assert (ps = raw) as -> by congruence.
    apply Forall_fmap. eapply Forall_impl; [exact (Hs eq_refl)|].
    intros p. cbn. by rewrite sort_nat_perm.
  - intros p' q' (p & -> & Hp')%list_elem_of_fmap (q & -> & Hq')%list_elem_of_fmap.
    unfold part_sum. rewrite !sort_nat_perm.
    eapply (karmarkar_karp_spread l k equal_size M raw); eauto.
Qed.
End Theorems.

(** The theorem with the heap of [Heapq]. *)
Lemma get_seqlen_balanced_partitions_correct_witness :
  exists ps, get_seqlen_balanced_partitions [0;0;7;3] 3 false = Ok ps /\
    length ps = 3%nat /\ concat ps ≡ₚ seq 0 4 /\
    Forall (fun p => p <> [] /\ StronglySorted le p) ps /\
    (false = true -> Forall (fun p => length p = 4 / 3)%nat ps) /\
    (forall p q, p ∈ ps -> q ∈ ps -> part_sum [0;0;7;3] p - part_sum [0;0;7;3] q <= 7).
Proof.
  apply (get_seqlen_balanced_partitions_correct [0;0;7;3] 3 false 7); [lia| |].
  - repeat constructor; lia.
  - split; [cbn; lia|done].
Defined.
