(* ===== verification/GreedyPartition.v ===== *)
(** * The greedy partitioner

    [greedy_partition] of [verl/utils/seqlen_balancing.py]: each item goes to the
    partition with the smallest sum; with [equal_size] a bias larger than all
    lengths together makes the sums order partitions by their size first. *)

From S2P Require Import Prelude KarmarkarKarp.
Open Scope Z_scope.

(** ** [greedy_partition] *)

(** The inner loop: the first index whose sum is least, [None] without indices. *)
Definition greedy_min_idx (partition_sums : list Z) : option nat :=
  foldl (fun min_idx j =>
           match min_idx with
           | None => Some j
           | Some m => if partition_sums !!! j <? partition_sums !!! m then Some j else Some m
           end) None (seq 0 (length partition_sums)).

Definition greedy_step (st : list (list nat) * list Z) (x : Z * nat) :
    result (list (list nat) * list Z) :=
  let '(partitions, partition_sums) := st in
  let '(seqlen, i) := x in
  min_idx ← of_option TypeError (greedy_min_idx partition_sums);
  Ok (alter (fun p => p ++ [i]) min_idx partitions,
      alter (fun s => s + seqlen) min_idx partition_sums).

Definition greedy_partition (seqlen_list : list Z) (k_partitions : nat) (equal_size : bool) :
    result (list (list nat)) :=
  let bias := if equal_size then zsum seqlen_list + 1 else 0 in
  let sorted_seqlen := imap (fun i seqlen => (seqlen + bias, i)) seqlen_list in
  '(partitions, _) ← foldM greedy_step (replicate k_partitions [], replicate k_partitions 0)
                           sorted_seqlen;
  (if equal_size then
     py_assert (forallb (fun p => length p * k_partitions =? length seqlen_list)%nat partitions)
   else Ok tt);;
  Ok partitions.

(** ** The inner loop finds the first least sum *)

Lemma greedy_min_idx_spec (sums : list Z) :
  match greedy_min_idx sums with
  | None => sums = []
  | Some m => (m < length sums)%nat /\ forall j, (j < length sums)%nat -> sums !!! m <= sums !!! j
  end.
Proof.
  unfold greedy_min_idx.
  assert (forall n, (n <= length sums)%nat ->
    match foldl (fun min_idx j =>
           match min_idx with
           | None => Some j
           | Some m => if sums !!! j <? sums !!! m then Some j else Some m
           end) None (seq 0 n) with
    | None => n = 0%nat
    | Some m => (m < n)%nat /\ forall j, (j < n)%nat -> sums !!! m <= sums !!! j
    end) as H.
  { intros n. induction n as [|n IH]; intros Hn; [done|].
    rewrite seq_S, foldl_app. cbn. specialize (IH ltac:(lia)).
    destruct (foldl _ _ _) as [m|].
    - destruct IH as [Hm Hle]. destruct (Z.ltb_spec (sums !!! n) (sums !!! m)).
      + split; [lia|]. intros j Hj. destruct (decide (j = n)) as [->|]; [lia|].
        specialize (Hle j ltac:(lia)). lia.
      + split; [lia|]. intros j Hj. destruct (decide (j = n)) as [->|]; [lia|]. apply Hle. lia.
    - subst n. split; [lia|]. intros j Hj. by replace j with 0%nat by lia. }
  specialize (H (length sums) (Nat.le_refl _)). destruct (foldl _ _ _); [done|].
  by apply nil_length_inv.
Qed.

(** ** The state of the loop *)

Section Greedy.
Context (l : list Z) (bias : Z).
Hypothesis l_nonneg : Forall (fun v => 0 <= v) l.

Definition biased_sum (p : list nat) : Z := zsum ((fun i => l !!! i + bias) <$> p).

(** After [t] items: the sums are the partitions' sums and the partitions hold
  the first [t] indices. *)
Definition greedy_inv (k t : nat) (st : list (list nat) * list Z) : Prop :=
  length st.1 = k /\ st.2 = biased_sum <$> st.1 /\ concat st.1 ≡ₚ seq 0 t.

Lemma biased_sum_app p i : biased_sum (p ++ [i]) = biased_sum p + (l !!! i + bias).
Proof. unfold biased_sum. rewrite fmap_app, zsum_app. cbn. lia. Qed.

Lemma biased_sum_split p : biased_sum p = part_sum l p + bias * Z.of_nat (length p).
Proof.
  unfold biased_sum, part_sum. induction p as [|i p IH]; cbn -[zsum Z.of_nat]; autorewrite with pyrw; lia.
Qed.

Lemma alter_concat (ps : list (list nat)) m i :
  (m < length ps)%nat -> concat (alter (fun p => p ++ [i]) m ps) ≡ₚ concat ps ++ [i].
Proof.
  revert m. induction ps as [|p ps IH]; intros [|m] Hm; cbn in *; try lia.
  - solve_Permutation.
  - change (list_alter _ _ _) with (alter (fun p => p ++ [i]) m ps). rewrite IH by lia. by rewrite app_assoc.
Qed.

Lemma alter_sums (ps : list (list nat)) m i :
  alter (fun s => s + (l !!! i + bias)) m (biased_sum <$> ps)
  = biased_sum <$> alter (fun p => p ++ [i]) m ps.
Proof. symmetry. apply list_fmap_alter. apply Forall_true. intros p. apply biased_sum_app. Qed.

Lemma greedy_step_spec k t ps sums :
  (0 < k)%nat -> greedy_inv k t (ps, sums) ->
  exists m, (m < k)%nat /\ (forall j, (j < k)%nat -> sums !!! m <= sums !!! j) /\
    let ps' := alter (fun p => p ++ [t]) m ps in
    greedy_step (ps, sums) (l !!! t + bias, t) = Ok (ps', biased_sum <$> ps') /\
    greedy_inv k (S t) (ps', biased_sum <$> ps').
Proof.
  intros Hk (Hl & Hs & Hp). cbn in *. subst sums.
  pose proof (greedy_min_idx_spec (biased_sum <$> ps)) as Hm. unfold greedy_step.
  destruct (greedy_min_idx _) as [m|].
  - rewrite !length_fmap, Hl in Hm. destruct Hm as [Hm Hle]. exists m.
    split; [done|]. split; [done|].
    cbn [of_option mbind result_bind]. rewrite alter_sums. split; [done|].
    unfold greedy_inv; cbn [fst snd]. split; [by rewrite length_alter|]. split; [done|].
    rewrite alter_concat by lia. by rewrite Hp, seq_S.
  - apply (f_equal length) in Hm. rewrite length_fmap in Hm. cbn in Hm. lia.
Qed.

Lemma greedy_loop k (P : nat -> list (list nat) -> Prop) :
  (0 < k)%nat -> P 0%nat (replicate k []) ->
  (forall t ps m, (t < length l)%nat -> greedy_inv k t (ps, biased_sum <$> ps) -> P t ps ->
     (m < k)%nat ->
     (forall j, (j < k)%nat -> (biased_sum <$> ps) !!! m <= (biased_sum <$> ps) !!! j) ->
     P (S t) (alter (fun p => p ++ [t]) m ps)) ->
  exists ps, foldM greedy_step (replicate k [], replicate k 0)
                   (imap (fun i seqlen => (seqlen + bias, i)) l) = Ok (ps, biased_sum <$> ps) /\
    greedy_inv k (length l) (ps, biased_sum <$> ps) /\ P (length l) ps.
Proof.
  intros Hk H0 HS. set (items := imap _ l).
  assert (forall t, (t <= length l)%nat -> exists ps,
    foldM greedy_step (replicate k [], replicate k 0) (take t items) = Ok (ps, biased_sum <$> ps) /\
    greedy_inv k t (ps, biased_sum <$> ps) /\ P t ps) as H.
  - intros t. induction t as [|t IH]; intros Ht.
    + exists (replicate k []). cbn [take foldM]. rewrite fmap_replicate. split; [done|].
      split; [|done]. split; cbn; [by rewrite length_replicate|].
      split; [by rewrite fmap_replicate|]. clear. induction k; done.
    + destruct (IH ltac:(lia)) as (ps & E & Hinv & HP).
      destruct (greedy_step_spec k t ps (biased_sum <$> ps) Hk Hinv) as (m & Hm & Hle & Estep & Hinv').
      exists (alter (fun p => p ++ [t]) m ps). split; [|split; [done|by apply HS]].
      destruct (lookup_lt_is_Some_2 l t) as [v Hv]; [lia|].
      rewrite (take_S_r _ _ (v + bias, t)), foldM_app, E.
      * cbn -[greedy_step]. rewrite <- (list_lookup_total_correct _ _ _ Hv), Estep. done.
      * unfold items. by rewrite list_lookup_imap, Hv.
  - specialize (H (length l) (Nat.le_refl _)).
    rewrite take_ge in H by (unfold items; by rewrite length_imap). exact H.
Qed.

Lemma part_sum_nonneg p : 0 <= part_sum l p.
Proof using l_nonneg.
  unfold part_sum. apply zsum_nonneg, Forall_fmap, Forall_true. intros i. cbn.
  destruct (l !! i) as [v|] eqn:E; rewrite list_lookup_total_alt, E; cbn; [|lia].
  by eapply Forall_lookup_1 in E.
Qed.

Lemma part_sum_app p q : part_sum l (p ++ q) = part_sum l p + part_sum l q.
Proof. unfold part_sum. by rewrite fmap_app, zsum_app. Qed.

Lemma part_sum_prefix t : (t <= length l)%nat -> part_sum l (seq 0 t) <= zsum l.
Proof using l_nonneg.
  intros Ht. assert (forall n, (n <= length l)%nat -> part_sum l (seq 0 n) = zsum (take n l)) as H.
  { intros n. induction n as [|n IH]; intros Hn; [done|].
    destruct (lookup_lt_is_Some_2 l n) as [v Hv]; [lia|].
    rewrite seq_S, part_sum_app, IH, (take_S_r _ _ v), zsum_app by (done || lia).
    f_equal. unfold part_sum. cbn. by rewrite (list_lookup_total_correct _ _ _ Hv). }
  rewrite H by done. rewrite <- (take_drop t l) at 2. rewrite zsum_app.
  pose proof (zsum_nonneg (drop t l) (Forall_drop _ _ _ l_nonneg)). lia.
Qed.

Lemma part_sum_le_all t ps p :
  (t <= length l)%nat -> concat ps ≡ₚ seq 0 t -> p ∈ ps -> part_sum l p <= zsum l.
Proof using l_nonneg.
  intros Ht Hp [i Hi]%list_elem_of_lookup.
  etransitivity; [|by apply (part_sum_prefix t)].
  unfold part_sum at 2. rewrite <- Hp. fold (part_sum l (concat ps)).
  rewrite <- (take_drop_middle _ _ _ Hi), concat_app. cbn. rewrite !part_sum_app.
  pose proof (part_sum_nonneg (concat (take i ps))).
  pose proof (part_sum_nonneg (concat (drop (S i) ps))). lia.
Qed.
End Greedy.

(** ** Sizes that differ by at most one and add up to a multiple of [k] are equal *)

Lemma concat_length_bounds {A} (ls : list (list A)) a b :
  Forall (fun p => a <= length p <= b)%nat ls ->
  (length ls * a <= length (concat ls) <= length ls * b)%nat.
Proof. induction 1; cbn; rewrite ?length_app; lia. Qed.

Lemma elem_concat_length {A} (ls : list (list A)) p :
  p ∈ ls -> exists qs, ls ≡ₚ p :: qs.
Proof.
  intros [i Hi]%list_elem_of_lookup. exists (delete i ls). by apply delete_Permutation.
Qed.

Lemma balanced_sizes {A} (ls : list (list A)) q :
  (forall p r, p ∈ ls -> r ∈ ls -> length p <= length r + 1)%nat ->
  (length (concat ls) = length ls * q)%nat -> Forall (fun p => length p = q) ls.
Proof.
  intros Hb Hn. apply Forall_forall. intros p Hp.
  destruct (elem_concat_length ls p Hp) as [qs Hqs].
  assert (Forall (fun r => length p - 1 <= length r <= length p + 1)%nat qs) as Hr.
  { apply Forall_forall. intros r Hr.
    assert (r ∈ ls) as Hrl by (rewrite Hqs; by right).
    pose proof (Hb p r Hp Hrl). pose proof (Hb r p Hrl Hp). lia. }
  apply concat_length_bounds in Hr. rewrite Hqs in Hn. cbn in Hn.
  rewrite length_app in Hn. cbn in *. nia.
Qed.

Lemma alter_elem (ps : list (list nat)) m i p :
  p ∈ alter (fun p => p ++ [i]) m ps ->
  (exists p0, ps !! m = Some p0 /\ p = p0 ++ [i]) \/ (exists j, j <> m /\ ps !! j = Some p).
Proof.
  intros [j Hj]%list_elem_of_lookup. rewrite list_lookup_alter in Hj.
  destruct (decide (m = j)) as [->|]; [left|right; eauto].
  destruct (ps !! j) as [p0|]; [|done]. injection Hj as <-. eauto.
Qed.

Section Theorems.
Context (l : list Z) (k : nat).
Hypothesis Hk : (0 < k)%nat.

Lemma sums_lookup bias (ps : list (list nat)) j p :
  ps !! j = Some p -> (biased_sum l bias <$> ps) !!! j = biased_sum l bias p.
Proof. intros H. apply list_lookup_total_correct. by rewrite list_lookup_fmap, H. Qed.

(** The partition chosen has the fewest items: sums below the bias cannot make
  up for one item. *)
Lemma sizes_step t ps m :
  Forall (fun v => 0 <= v) l -> (t < length l)%nat ->
  let bias := zsum l + 1 in
  greedy_inv l bias k t (ps, biased_sum l bias <$> ps) -> (m < k)%nat ->
  (forall j, (j < k)%nat -> (biased_sum l bias <$> ps) !!! m <= (biased_sum l bias <$> ps) !!! j) ->
  (forall p q, p ∈ ps -> q ∈ ps -> length p <= length q + 1)%nat ->
  forall p q, p ∈ alter (fun p => p ++ [t]) m ps -> q ∈ alter (fun p => p ++ [t]) m ps ->
    (length p <= length q + 1)%nat.
Proof using Hk.
  intros Hnn Ht bias (Hl & _ & Hperm) Hm Hle Hsz. cbn in Hl, Hperm.
  assert (forall p0 j r, ps !! m = Some p0 -> ps !! j = Some r -> (length p0 <= length r)%nat) as Hmin.
  { intros p0 j r Hp0 Hr. pose proof (lookup_lt_Some _ _ _ Hr) as Hj.
    specialize (Hle j ltac:(lia)).
    rewrite (sums_lookup _ _ _ _ Hp0), (sums_lookup _ _ _ _ Hr), !biased_sum_split in Hle.
    pose proof (part_sum_nonneg l Hnn p0).
    pose proof (part_sum_le_all l Hnn t ps r ltac:(lia) Hperm (list_elem_of_lookup_2 _ _ _ Hr)).
    pose proof (zsum_nonneg l Hnn). unfold bias in Hle.
    apply Nat.nlt_ge. intros Hlt.
    pose proof (Z.mul_le_mono_nonneg_l (Z.of_nat (length r) + 1) (Z.of_nat (length p0))
                  (zsum l + 1) ltac:(lia) ltac:(lia)). lia. }
  intros p q [(p0 & Hp0 & ->)|(j & Hj & Hp)]%alter_elem [(q0 & Hq0 & ->)|(j' & Hj' & Hq)]%alter_elem;
    rewrite ?length_app; cbn.
  - simplify_eq. lia.
  - pose proof (Hmin _ _ _ Hp0 Hq) as Hpq. cbn in *. lia.
  - specialize (Hsz p q0 (list_elem_of_lookup_2 _ _ _ Hp) (list_elem_of_lookup_2 _ _ _ Hq0)). lia.
  - apply Hsz; by eapply list_elem_of_lookup_2.
Qed.

Lemma spread_step M t ps m :
  Forall (fun v => 0 <= v <= M) l -> (t < length l)%nat ->
  greedy_inv l 0 k t (ps, biased_sum l 0 <$> ps) -> (m < k)%nat ->
  (forall j, (j < k)%nat -> (biased_sum l 0 <$> ps) !!! m <= (biased_sum l 0 <$> ps) !!! j) ->
  (forall p q, p ∈ ps -> q ∈ ps -> part_sum l p - part_sum l q <= M) ->
  forall p q, p ∈ alter (fun p => p ++ [t]) m ps -> q ∈ alter (fun p => p ++ [t]) m ps ->
    part_sum l p - part_sum l q <= M.
Proof using Hk.
  intros HM Ht (Hl & _ & _) Hm Hle Hsp. cbn in Hl.
  destruct (lookup_lt_is_Some_2 l t Ht) as [v Hv].
  pose proof (Forall_lookup_1 _ _ _ _ HM Hv) as Hv'. cbn in Hv'.
  assert (part_sum l [t] = v) as Hpt
    by (unfold part_sum; cbn; rewrite (list_lookup_total_correct _ _ _ Hv); lia).
  assert (forall p0 j r, ps !! m = Some p0 -> ps !! j = Some r -> part_sum l p0 <= part_sum l r) as Hmin.
  { intros p0 j r Hp0 Hr. pose proof (lookup_lt_Some _ _ _ Hr) as Hj.
    specialize (Hle j ltac:(lia)).
    rewrite (sums_lookup _ _ _ _ Hp0), (sums_lookup _ _ _ _ Hr), !biased_sum_split in Hle. lia. }
  intros p q [(p0 & Hp0 & ->)|(j & Hj & Hp)]%alter_elem [(q0 & Hq0 & ->)|(j' & Hj' & Hq)]%alter_elem;
    rewrite ?part_sum_app, ?Hpt.
  - simplify_eq. lia.
  - pose proof (Hmin _ _ _ Hp0 Hq) as Hpq. cbn in *. lia.
  - specialize (Hsp p q0 (list_elem_of_lookup_2 _ _ _ Hp) (list_elem_of_lookup_2 _ _ _ Hq0)). lia.
  - apply Hsp; by eapply list_elem_of_lookup_2.
Qed.
End Theorems.

(** on lengths that are not negative, [greedy_partition] puts every index in
    exactly one of [k] partitions.  With [equal_size] the bias makes all of them
    the same size, so that the closing assertion never fails; without it their
    total lengths differ by at most the largest length. *)
Theorem greedy_partition_correct (l : list Z) (k : nat) (equal_size : bool) (M : Z) :
  (0 < k)%nat -> (equal_size = true -> length l mod k = 0)%nat ->
  0 <= M -> Forall (fun v => 0 <= v <= M) l ->
  exists ps, greedy_partition l k equal_size = Ok ps /\
    length ps = k /\ concat ps ≡ₚ seq 0 (length l) /\
    if equal_size then Forall (fun p => length p = length l / k)%nat ps
    else forall p q, p ∈ ps -> q ∈ ps -> part_sum l p - part_sum l q <= M.
Proof.
  intros Hk Hd HM0 HM. assert (Forall (fun v => 0 <= v) l) as Hnn.
  { eapply Forall_impl; [exact HM|]. cbn. lia. }
  unfold greedy_partition. destruct equal_size.
  - set (bias := zsum l + 1).
    destruct (greedy_loop l bias k
      (fun _ ps => forall p q, p ∈ ps -> q ∈ ps -> length p <= length q + 1)%nat Hk)
      as (ps & E & (Hl & _ & Hperm) & Hsz).
    { intros p q ->%elem_of_replicate_inv ->%elem_of_replicate_inv. cbn. lia. }
    { intros t ps m Ht Hinv HP Hm Hle. by eapply sizes_step. }
    cbn in Hl, Hperm. rewrite E. cbn [mbind result_bind].
    pose proof (divides_of_mod _ _ (Hd eq_refl)) as [q Hq].
    assert (Forall (fun p => length p = q) ps) as Hall.
    { apply balanced_sizes; [done|]. rewrite Hperm, length_seq. lia. }
    assert (forallb (fun p => length p * k =? length l)%nat ps = true) as ->.
    { apply forallb_forall. intros p Hp%list_elem_of_In. rewrite Forall_forall in Hall.
      apply Nat.eqb_eq. rewrite (Hall p Hp). lia. }
    exists ps. split; [done|]. split; [done|]. split; [done|].
    eapply Forall_impl; [exact Hall|]. intros p ->. rewrite Hq, Nat.div_mul; lia.
  - destruct (greedy_loop l 0 k
      (fun _ ps => forall p q, p ∈ ps -> q ∈ ps -> part_sum l p - part_sum l q <= M) Hk)
      as (ps & E & (Hl & _ & Hperm) & Hsp).
    { intros p q ->%elem_of_replicate_inv ->%elem_of_replicate_inv. lia. }
    { intros t ps m Ht Hinv HP Hm Hle. by eapply spread_step. }
    cbn in Hl, Hperm. rewrite E. exists ps. done.
Qed.

Lemma greedy_partition_correct_witness :
  exists ps, greedy_partition [5;3;8;1;9;2] 2 true = Ok ps /\
    length ps = 2%nat /\ concat ps ≡ₚ seq 0 6 /\ Forall (fun p => length p = 6 / 2)%nat ps.
Proof.
  apply (greedy_partition_correct [5;3;8;1;9;2] 2 true 9); [lia|done|lia|].
  repeat constructor; lia.
Defined.
