(* ===== verification/MicroBatch.v ===== *)
(** * Dynamic micro-batches

    The rest of [verl/utils/seqlen_balancing.py]: workloads, the splitting of a
    batch into micro-batches of balanced workload, the way back, and the
    partitioning of whole uid groups.  A batch is the list of its rows together
    with what determines the rows' lengths; torch's integer tensors are integers
    wrapped to their width. *)

From S2P Require Import Prelude Heapq KarmarkarKarp.
Open Scope Z_scope.

(** ** Workloads *)

(** A signed [w]-bit integer. *)
Definition wrap (w z : Z) : Z := (z + 2 ^ (w - 1)) mod 2 ^ w - 2 ^ (w - 1).

(** [calculate_workload] on one element of a [w]-bit integer tensor. *)
Definition calculate_workload (w seqlen : Z) : Z :=
  wrap w (wrap w (24576 * seqlen) + wrap w (seqlen * seqlen)).

Definition ceildiv (a b : Z) : result Z :=
  if b =? 0 then Err ZeroDivisionError else Ok (- (a / - b)).

Definition roundup_divisible (a b : Z) : result Z :=
  if b =? 0 then Err ZeroDivisionError else Ok (((a + b - 1) / b) * b).

(** ** [log_seqlen_unbalance]

    The values of the returned dictionary, without the key prefix; the mean is
    the quotient of its two components. *)

Record unbalance := {
  ub_min : Z; ub_max : Z; ub_minmax_diff : Z;
  ub_balanced_min : Z; ub_balanced_max : Z; ub_mean : Z * nat;
}.

Definition py_min (l : list Z) : result Z :=
  match l with [] => Err ValueError | x :: l' => Ok (foldl Z.min x l') end.
Definition py_max (l : list Z) : result Z :=
  match l with [] => Err ValueError | x :: l' => Ok (foldl Z.max x l') end.

Definition log_seqlen_unbalance (seqlen_list : list Z) (partitions : list (list nat)) :
    result unbalance :=
  let k_partition := length partitions in
  (if (k_partition =? 0)%nat then Err ZeroDivisionError else Ok tt);;
  let batch_size := (length seqlen_list / k_partition)%nat in
  (if (batch_size =? 0)%nat then Err ValueError else Ok tt);;
  let '(min_sum, max_sum, total) :=
    foldl (fun '(mn, mx, tot) offset =>
             let cur := zsum (take batch_size (drop offset seqlen_list)) in
             (match mn with None => Some cur | Some m => Some (if cur <? m then cur else m) end,
              match mx with None => Some cur | Some m => Some (if cur >? m then cur else m) end,
              tot + cur))
          (None, None, 0) (range_step (length seqlen_list) batch_size) in
  balanced ← mapM_ok (fun p => zsum <$> mapM_ok (fun i => of_option IndexError (seqlen_list !! i)) p)
                     partitions;
  bmin ← py_min balanced;
  bmax ← py_max balanced;
  min_sum ← of_option TypeError min_sum;
  max_sum ← of_option TypeError max_sum;
  Ok {| ub_min := min_sum; ub_max := max_sum; ub_minmax_diff := max_sum - min_sum;
        ub_balanced_min := bmin; ub_balanced_max := bmax; ub_mean := (total, k_partition) |}.

(** ** [rearrange_micro_batches] *)

(** What the lengths of the rows are read from: nested [input_ids] carry them, a
    padded batch has an [attention_mask] of one row of [width] flags per sample. *)
Inductive lengths :=
  | Nested (seqlens : list Z)
  | Padded (width : Z) (attention_mask : list (list Z)).

Definition seq_len_effective (b : lengths) : list Z :=
  match b with Nested l => l | Padded _ mask => zsum <$> mask end.

Definition max_seq_len (b : lengths) : result Z :=
  match b with Nested l => py_max l | Padded width _ => Ok width end.

(** Optional arguments. *)
Record micro_args := {
  num_batches_divided_by : option Z;
  min_num_micro_batch : option Z;
  use_dynamic_bsz_balance : bool;
  force_group_size : nat;
  (** [dist.all_reduce(num, MAX, group)] when the ranks have to agree *)
  dp_all_reduce : option (Z -> Z);
}.

Definition num_micro_batches (b : lengths) (max_token_len : Z) (a : micro_args) : result Z :=
  msl ← max_seq_len b;
  py_assert (msl <=? max_token_len);;
  let lens := seq_len_effective b in
  let batch_size := length lens in
  (if (force_group_size a =? 0)%nat then Err ZeroDivisionError else Ok tt);;
  py_assert (batch_size mod force_group_size a =? 0)%nat;;
  let total_seqlen := zsum lens in
  let num_groups := Z.of_nat (batch_size / force_group_size a) in
  c ← ceildiv total_seqlen max_token_len;
  let n := Z.min num_groups c in
  let n := match min_num_micro_batch a with None => n | Some m => Z.max m n end in
  let n := match dp_all_reduce a with None => n | Some f => f n end in
  n ← match num_batches_divided_by a with None => Ok n | Some d => roundup_divisible n d end;
  py_assert (n <=? num_groups);;
  Ok n.

(** [view(num_groups, g).sum(dim=1)] in int64. *)
Definition group_workloads (w : list Z) (num_groups g : nat) : list Z :=
  (fun j => wrap 64 (zsum (take g (drop (j * g) w)))) <$> seq 0 num_groups.

Definition expand_group (g group_idx : nat) : list nat := seq (group_idx * g) g.

Definition expand_groups (g : nat) (micro_bsz_group_idx : list (list nat)) : list (list nat) :=
  (fun p => concat (expand_group g <$> p)) <$> micro_bsz_group_idx.

(** [l[::g]] *)
Definition every (g : nat) (l : list nat) : list nat :=
  (fun j => l !!! (j * g)%nat) <$> seq 0 ((length l + g - 1) / g).

(** Descending by workload, then by first index. *)
Definition key_lt (x y : Z * nat) : bool :=
  if x.1 =? y.1 then (x.2 <? y.2)%nat else x.1 <? y.1.

Definition sort_by_workload (key : list nat -> Z * nat) (l : list (list nat)) : list (list nat) :=
  isort (fun y x => key_lt (key x) (key y)) l.

(** [l[::2][::-1] + l[1::2]] *)
Fixpoint evens {A} (l : list A) : list A :=
  match l with [] => [] | [x] => [x] | x :: _ :: l' => x :: evens l' end.
Definition odds {A} (l : list A) : list A :=
  match l with [] => [] | _ :: l' => evens l' end.
Definition both_ends {A} (l : list A) : list A := reverse (evens l) ++ odds l.

Section Micro.
Context `{!Heapq KState State_lt}.

Definition micro_bsz_idx (lens : list Z) (g : nat) (n : nat) (use_balance : bool) :
    result (list (list nat)) :=
  let per_sample := calculate_workload 64 <$> lens in
  '(workloads, idx) ←
    (if (1 <? g)%nat then
       let groups := group_workloads per_sample (length lens / g) g in
       gidx ← get_seqlen_balanced_partitions groups n false;
       Ok (groups, expand_groups g gidx)
     else
       idx ← get_seqlen_balanced_partitions per_sample n false;
       Ok (per_sample, idx));
  if use_balance then
    let key p := if (1 <? g)%nat
                 then (zsum ((fun i => workloads !!! (i / g)%nat) <$> every g p), default 0%nat (list.head p))
                 else (zsum ((fun i : nat => workloads !!! i) <$> p), default 0%nat (list.head p)) in
    Ok (both_ends (sort_by_workload key idx))
  else Ok idx.

Section Rows.
Context {Row : Type}.

(** Rows of a batch by index, as [index_select_tensor_dict] takes them. *)
Definition index_select (rows : list Row) (idx : list nat) : result (list Row) :=
  mapM_ok (fun i => of_option IndexError (rows !! i)) idx.

Definition rearrange_micro_batches (rows : list Row) (b : lengths) (max_token_len : Z)
  (a : micro_args) : result (list (list Row) * list (list nat)) :=
  n ← num_micro_batches b max_token_len a;
  idx ← micro_bsz_idx (seq_len_effective b) (force_group_size a) (Z.to_nat n)
        (use_dynamic_bsz_balance a);
  micro_batches ← mapM_ok (index_select rows) idx;
  Ok (micro_batches, idx).

(** The inverse mapping; an index out of range raises. *)
Definition get_reverse_idx (idx_map : list nat) : result (list nat) :=
  foldM (fun rev '(i, idx) =>
         (if (idx <? length rev)%nat then Ok (<[idx := i]> rev) else Err IndexError))
      idx_map (imap pair idx_map).

Definition restore_dynamic_batch (data : list Row) (batch_idx_list : list (list nat)) :
  result (list Row) :=
  let indices := concat batch_idx_list in
  py_assert (length indices =? length data)%nat;;
  revert_indices ← get_reverse_idx indices;
  index_select data revert_indices.
End Rows.

(** ** [get_group_balanced_partitions] *)

Section Groups.
Context {U : Type} `{!EqDecision U}.

(** [(groups, current_uid, current_indices, current_seqlen)]; a group is its
indices and its total length. *)
Definition group_state : Type := list (list nat * Z) * option U * list nat * Z.

Definition flush (groups : list (list nat * Z)) (cur : list nat) (cur_len : Z) :
  list (list nat * Z) :=
  match cur with [] => groups | _ => groups ++ [(cur, cur_len)] end.

Definition group_step (st : group_state) (x : nat * (Z * U)) : group_state :=
  let '(groups, current_uid, cur, cur_len) := st in
  let '(i, (seqlen, uid)) := x in
  if bool_decide (Some uid = current_uid)
  then (groups, current_uid, cur ++ [i], cur_len + seqlen)
  else (flush groups cur cur_len, Some uid, [i], seqlen).

Definition build_groups (seqlen_list : list Z) (uid_list : list U) : list (list nat * Z) :=
  let '(groups, _, cur, cur_len) :=
  foldl group_step ([], None, [], 0) (imap pair (zip seqlen_list uid_list)) in
  flush groups cur cur_len.

Definition sample_partitions (groups : list (list nat * Z)) (gps : list (list nat)) :
  list (list nat) :=
  (fun gp => sort_nat (concat ((fun gi : nat => (groups !!! gi).1) <$> gp))) <$> gps.

Definition get_group_balanced_partitions (seqlen_list : list Z) (uid_list : list U)
  (k_partitions : nat) : result (list (list nat)) :=
  py_assert (length seqlen_list =? length uid_list)%nat;;
  let groups := build_groups seqlen_list uid_list in
  py_assert (k_partitions <=? length groups)%nat;;
  let workloads :=
  (fun '(indices, _) => zsum ((fun i => calculate_workload 64 (seqlen_list !!! i)) <$> indices))
    <$> groups in
  group_partitions ← get_seqlen_balanced_partitions workloads k_partitions true;
  Ok (sample_partitions groups group_partitions).
End Groups.
End Micro.

Definition plain_args : micro_args :=
  {| num_batches_divided_by := None; min_num_micro_batch := None;
     use_dynamic_bsz_balance := true; force_group_size := 1; dp_all_reduce := None |}.

(** ** Integer arithmetic *)

Lemma wrap_small w z : 0 < w -> - 2 ^ (w - 1) <= z < 2 ^ (w - 1) -> wrap w z = z.
Proof.
  intros Hw Hz. unfold wrap.
  assert (2 ^ w = 2 * 2 ^ (w - 1)) as -> by (rewrite <- Z.pow_succ_r by lia; f_equal; lia).
  rewrite Z.mod_small; lia.
Qed.

Lemma wrap_range w z : 0 < w -> - 2 ^ (w - 1) <= wrap w z < 2 ^ (w - 1).
Proof.
  intros Hw. unfold wrap.
  assert (2 ^ w = 2 * 2 ^ (w - 1)) as E by (rewrite <- Z.pow_succ_r by lia; f_equal; lia).
  pose proof (Z.mod_pos_bound (z + 2 ^ (w - 1)) (2 ^ w)). rewrite E in *.
  assert (0 < 2 ^ (w - 1)) by (apply Z.pow_pos_nonneg; lia). lia.
Qed.

(** Wrapping is a ring morphism up to wrapping. *)
Lemma wrap_add w a b : 0 < w -> wrap w (wrap w a + wrap w b) = wrap w (a + b).
Proof.
  intros Hw. unfold wrap. f_equal. set (h := 2 ^ (w - 1)).
  assert (0 < 2 ^ w) by (apply Z.pow_pos_nonneg; lia).
  replace ((a + h) mod 2 ^ w - h + ((b + h) mod 2 ^ w - h) + h)
    with ((a + h) mod 2 ^ w + (b + h) mod 2 ^ w - h) by lia.
  rewrite <- Zminus_mod_idemp_l, <- Zplus_mod, Zminus_mod_idemp_l. f_equal. lia.
Qed.

Lemma calculate_workload_wrap w s :
  0 < w -> calculate_workload w s = wrap w (24576 * s + s * s).
Proof. intros Hw. unfold calculate_workload. by rewrite wrap_add. Qed.

Lemma workload64_exact s :
  0 <= s < 2 ^ 31 -> calculate_workload 64 s = 24576 * s + s * s.
Proof.
  intros Hs. rewrite calculate_workload_wrap by lia. apply wrap_small; [lia|].
  change (2 ^ 31) with 2147483648 in Hs. change (2 ^ (64 - 1)) with 9223372036854775808. nia.
Qed.

(** workloads computed in int64 are exact for every length below 2^31; in
    int32 they are exact up to length 35654 and wrong for every longer one, which
    is why [rearrange_micro_batches] upcasts first. *)
Theorem calculate_workload_exact (s : Z) :
  0 <= s ->
  (s < 2 ^ 31 -> calculate_workload 64 s = 24576 * s + s * s) /\
  (calculate_workload 32 s = 24576 * s + s * s <-> s <= 35654).
Proof.
  intros Hs. split; [intros Hs'; by apply workload64_exact|].
  rewrite calculate_workload_wrap by lia. split.
  - intros E. pose proof (wrap_range 32 (24576 * s + s * s) ltac:(lia)) as Hr.
    rewrite E in Hr. change (2 ^ (32 - 1)) with 2147483648 in Hr. nia.
  - intros Hs'. apply wrap_small; [lia|]. change (2 ^ (32 - 1)) with 2147483648. nia.
Qed.

Lemma calculate_workload_exact_witness :
  (40000 < 2 ^ 31 -> calculate_workload 64 40000 = 24576 * 40000 + 40000 * 40000) /\
  (calculate_workload 32 40000 = 24576 * 40000 + 40000 * 40000 <-> 40000 <= 35654).
Proof. apply (calculate_workload_exact 40000). lia. Defined.

(** [ceildiv a b] is the least integer that is at least [a / b], and
    [roundup_divisible a b] the least multiple of [b] that is at least [a]; both
    raise exactly when [b] is zero. *)
Theorem ceildiv_roundup_spec (a b : Z) :
  (0 < b -> exists c r, ceildiv a b = Ok c /\ roundup_divisible a b = Ok r /\
     (forall x, a <= x * b <-> c <= x) /\
     (forall m, (b | m) -> a <= m <-> r <= m) /\ (b | r)) /\
  (is_ok (ceildiv a b) = false <-> b = 0) /\ (is_ok (roundup_divisible a b) = false <-> b = 0).
Proof.
  unfold ceildiv, roundup_divisible. split; [|by destruct (Z.eqb_spec b 0)].
  intros Hb. destruct (Z.eqb_spec b 0) as [|_]; [lia|]. do 2 eexists. split; [done|]. split; [done|].
  assert (forall x, a <= x * b <-> - (a / - b) <= x) as Hc.
  { intros x. pose proof (Z.div_mod a (- b) ltac:(lia)) as E.
    pose proof (Z.mod_neg_bound a (- b) ltac:(lia)) as Hr.
    generalize dependent (a mod - b). generalize (a / - b). intros q r -> Hr.
    destruct (Z.le_gt_cases (- q) x); split; intros; nia. }
  split; [done|]. split; [|by exists ((a + b - 1) / b)].
  intros m [x ->]. pose proof (Z.div_mod (a + b - 1) b ltac:(lia)) as E.
  pose proof (Z.mod_pos_bound (a + b - 1) b Hb) as Hr.
  generalize dependent ((a + b - 1) mod b). generalize ((a + b - 1) / b). intros q r E Hr.
  assert (a = b * q + r - b + 1) as -> by lia.
  destruct (Z.le_gt_cases q x); split; intros; nia.
Qed.

Lemma ceildiv_roundup_spec_witness :
  exists c r, ceildiv 7 4 = Ok c /\ roundup_divisible 7 4 = Ok r /\
     (forall x, 7 <= x * 4 <-> c <= x) /\ (forall m, (4 | m) -> 7 <= m <-> r <= m) /\ (4 | r).
Proof. apply (proj1 (ceildiv_roundup_spec 7 4)). lia. Defined.

(** ** Index lists: both ends, groups, selection *)

Lemma evens_odds_perm {A} (l : list A) : evens l ++ odds l ≡ₚ l.
Proof.
  assert (forall n (l : list A), (length l <= n)%nat -> evens l ++ odds l ≡ₚ l) as H.
  { intros n. induction n as [|n IH]; intros [|x [|y l']] Hl; cbn in Hl; try done; try lia.
    change ((x :: evens l') ++ evens (y :: l') ≡ₚ x :: y :: l').
    assert (evens (y :: l') = y :: odds l') as -> by (destruct l'; done).
    specialize (IH l' ltac:(lia)). cbn. rewrite <- Permutation_middle. by do 2 f_equiv. }
  by apply (H (length l)).
Qed.

Lemma both_ends_perm {A} (l : list A) : both_ends l ≡ₚ l.
Proof. unfold both_ends. by rewrite reverse_Permutation, evens_odds_perm. Qed.

Lemma concat_expand g q : concat (expand_group g <$> seq 0 q) = seq 0 (q * g).
Proof.
  induction q as [|q IH]; [done|].
  rewrite seq_S, fmap_app, concat_app, IH. cbn. rewrite app_nil_r.
  rewrite Nat.add_comm, seq_app. done.
Qed.

Lemma concat_concat_fmap {A B} (f : A -> list B) (ls : list (list A)) :
  concat ((fun p => concat (f <$> p)) <$> ls) = concat (f <$> concat ls).
Proof. induction ls as [|p ls IH]; cbn; [done|]. by rewrite fmap_app, concat_app, IH. Qed.

Lemma elem_expand_group g gi i : (0 < g)%nat -> i ∈ expand_group g gi <-> (i / g = gi)%nat.
Proof.
  intros Hg. unfold expand_group. rewrite elem_of_seq. split.
  - intros [H1 H2]. symmetry. apply (Nat.div_unique i g gi (i - gi * g)); lia.
  - intros <-. pose proof (Nat.div_mod_eq i g). pose proof (Nat.mod_upper_bound i g). nia.
Qed.

Section Select.
Context {Row : Type}.
Implicit Types rows : list Row.

Lemma index_select_total rows idx :
  Forall (fun i => i < length rows)%nat idx ->
  exists sel, index_select rows idx = Ok sel /\
    Forall2 (fun i r => rows !! i = Some r) idx sel.
Proof.
  intros H. induction H as [|i idx Hi H IH]; cbn; [by exists []|].
  destruct IH as (sel & E & Hsel). destruct (lookup_lt_is_Some_2 rows i Hi) as [r Hr].
  exists (r :: sel). rewrite Hr. cbn. unfold index_select in E. rewrite E. split; [done|].
  by constructor.
Qed.

Lemma index_select_Forall2 rows idx sel :
  index_select rows idx = Ok sel <-> Forall2 (fun i r => rows !! i = Some r) idx sel.
Proof.
  unfold index_select. rewrite mapM_ok_Forall2. split; intros H; (eapply Forall2_impl; [exact H|]);
    intros i r; by rewrite of_option_ok.
Qed.

Lemma index_select_concat rows (idx : list (list nat)) mbs :
  mapM_ok (index_select rows) idx = Ok mbs ->
  index_select rows (concat idx) = Ok (concat mbs).
Proof.
  rewrite mapM_ok_Forall2. intros H. apply index_select_Forall2.
  induction H as [|i r idx mbs Hr H IH]; cbn; [constructor|].
  apply Forall2_app; [|done]. by apply index_select_Forall2.
Qed.
End Select.

(** ** The inverse mapping *)

(** The loop of [get_reverse_idx] on a map without repetitions: the entries
    written are the inverse, the others are untouched. *)
Lemma reverse_loop (idx : list nat) rev i0 :
  NoDup idx -> Forall (fun i => i < length rev)%nat idx ->
  exists rev', foldM (fun rev '(i, idx) =>
                        if (idx <? length rev)%nat then Ok (<[idx := i]> rev) else Err IndexError)
                     rev (imap (fun i x => (i0 + i, x)%nat) idx) = Ok rev' /\
    length rev' = length rev /\
    (forall i j, idx !! i = Some j -> rev' !! j = Some (i0 + i)%nat) /\
    (forall j, j ∉ idx -> rev' !! j = rev !! j).
Proof.
  intros Hnd. revert rev i0. induction Hnd as [|x idx Hx Hnd IH]; intros rev i0 Hb.
  { exists rev. split; [done|]. split; [done|]. split; [done|done]. }
  inversion Hb as [|? ? Hxb Hb']; subst. cbn [imap foldM].
  replace (x <? length rev)%nat with true by (symmetry; by apply Nat.ltb_lt).
  cbn [mbind result_bind].
  destruct (IH (<[x := (i0 + 0)%nat]> rev) (S i0)) as (rev' & E & Hl & Hin & Hout).
  { by rewrite length_insert. }
  exists rev'. split; [|split; [by rewrite Hl, length_insert|split]].
  - rewrite <- E. f_equal. apply imap_ext. intros j y _. cbn. f_equal. lia.
  - intros [|i] j Hj; cbn in Hj.
    + injection Hj as <-. rewrite Hout by done. by apply list_lookup_insert_eq.
    + rewrite (Hin _ _ Hj). f_equal. lia.
  - intros j Hj. rewrite Hout by set_solver. apply list_lookup_insert_ne. set_solver.
Qed.

Lemma perm_seq_NoDup (idx : list nat) n : idx ≡ₚ seq 0 n -> NoDup idx.
Proof. intros ->. apply NoDup_seq. Qed.

Lemma perm_seq_lt (idx : list nat) n : idx ≡ₚ seq 0 n -> Forall (fun i => i < n)%nat idx.
Proof. intros ->. apply Forall_seq. lia. Qed.

Lemma reverse_idx_spec (idx : list nat) :
  idx ≡ₚ seq 0 (length idx) ->
  exists rev, get_reverse_idx idx = Ok rev /\ rev ≡ₚ seq 0 (length idx) /\
    forall i j, idx !! i = Some j <-> rev !! j = Some i.
Proof.
  intros Hp.
  destruct (reverse_loop idx idx 0 (perm_seq_NoDup _ _ Hp) (perm_seq_lt _ _ Hp))
    as (rev & E & Hl & Hin & _).
  assert (forall i j, idx !! i = Some j <-> rev !! j = Some i) as Hiff.
  { intros i j. split; [apply Hin|]. intros Hj.
    pose proof (lookup_lt_Some _ _ _ Hj) as Hlt. rewrite Hl in Hlt.
    assert (j ∈ idx) as [i' Hi']%list_elem_of_lookup by (rewrite Hp; apply elem_of_seq; lia).
    pose proof (Hin _ _ Hi'). by simplify_eq/=. }
  exists rev. split; [exact E|]. split; [|done].
  apply NoDup_Permutation; [|apply NoDup_seq|].
  - apply NoDup_alt. intros j j' i Hj Hj'. apply Hiff in Hj, Hj'. by simplify_eq.
  - intros i. rewrite elem_of_seq, list_elem_of_lookup. split.
    + intros [j Hj%Hiff%lookup_lt_Some]. lia.
    + intros [_ Hi]. destruct (lookup_lt_is_Some_2 idx i Hi) as [j Hj%Hiff]. by exists j.
Qed.

(** [get_reverse_idx] inverts every permutation of the indices: the result is
    a permutation again, maps [idx_map[i]] back to [i], and its own inverse is
    [idx_map]. *)
Theorem get_reverse_idx_inverse (idx_map : list nat) :
  idx_map ≡ₚ seq 0 (length idx_map) ->
  exists rev, get_reverse_idx idx_map = Ok rev /\ rev ≡ₚ seq 0 (length idx_map) /\
    (forall i j, idx_map !! i = Some j <-> rev !! j = Some i) /\
    get_reverse_idx rev = Ok idx_map.
Proof.
  intros Hp. destruct (reverse_idx_spec idx_map Hp) as (rev & E & Hp' & Hiff).
  exists rev. split; [done|]. split; [done|]. split; [done|].
  pose proof (Permutation_length Hp') as Hl. rewrite length_seq in Hl. rewrite <- Hl in Hp'.
  destruct (reverse_idx_spec rev Hp') as (rev2 & E2 & _ & Hiff2). rewrite E2. f_equal.
  apply list_eq. intros i. apply option_eq. intros j. by rewrite Hiff, Hiff2.
Qed.

Lemma get_reverse_idx_inverse_witness :
  exists rev, get_reverse_idx [2;0;3;1]%nat = Ok rev /\ rev ≡ₚ seq 0 4 /\
    (forall i j, [2;0;3;1]%nat !! i = Some j <-> rev !! j = Some i) /\
    get_reverse_idx rev = Ok [2;0;3;1]%nat.
Proof.
  apply (get_reverse_idx_inverse [2;0;3;1]%nat).
  apply NoDup_Permutation; [by apply (bool_decide_unpack _)|apply NoDup_seq|].
  intros i. rewrite elem_of_seq, !list_elem_of_In. cbn. lia.
Defined.

Section Restore.
Context {Row : Type}.

(** What [restore_dynamic_batch] computes from the concatenated results of the
  micro-batches is the batch in its original order, for every cover of the
  rows by index lists. *)
Lemma restore_roundtrip (rows : list Row) (idx : list (list nat)) mbs :
  concat idx ≡ₚ seq 0 (length rows) ->
  mapM_ok (index_select rows) idx = Ok mbs ->
  restore_dynamic_batch (concat mbs) idx = Ok rows.
Proof.
  intros Hp Hsel%index_select_concat. pose proof (proj1 (index_select_Forall2 _ _ _) Hsel) as Hf.
  pose proof (Forall2_length _ _ _ Hf) as Hl.
  assert (length (concat idx) = length rows) as Hn by (by rewrite Hp, length_seq).
  destruct (reverse_idx_spec (concat idx)) as (rev & E & Hprev & Hiff).
  { by rewrite Hn. }
  unfold restore_dynamic_batch. rewrite Hl, Nat.eqb_refl. cbn [py_assert mbind result_bind].
  rewrite E. cbn [mbind result_bind]. apply index_select_Forall2, Forall2_lookup. intros j.
  destruct (rev !! j) as [i|] eqn:Ej.
  - apply Hiff in Ej as Ei. destruct (Forall2_lookup_l _ _ _ _ _ Hf Ei) as (r & Hr & Hj).
    rewrite Hj. by constructor.
  - apply lookup_ge_None in Ej. rewrite Hprev, length_seq, Hn in Ej.
    apply lookup_ge_None in Ej. rewrite Ej. constructor.
Qed.
End Restore.

(** ** [rearrange_micro_batches] *)

Definition small_lens (lens : list Z) : Prop :=
  Forall (fun s => 0 <= s < 2 ^ 20) lens /\ Z.of_nat (length lens) <= 2 ^ 20.

Lemma workload_bound s : 0 <= s < 2 ^ 20 -> 0 <= calculate_workload 64 s <= 2 ^ 41.
Proof.
  intros Hs. change (2 ^ 20) with 1048576 in Hs. change (2 ^ 41) with 2199023255552.
  rewrite workload64_exact; [nia|]. change (2 ^ 31) with 2147483648. lia.
Qed.

Lemma zsum_bounds (l : list Z) M : Forall (fun v => 0 <= v <= M) l -> 0 <= zsum l <= Z.of_nat (length l) * M.
Proof. induction 1; cbn [length]; autorewrite with pyrw; lia. Qed.

Lemma group_workloads_nonneg lens q g :
  small_lens lens ->
  Forall (fun v => 0 <= v < 2 ^ 63) (group_workloads (calculate_workload 64 <$> lens) q g).
Proof.
  intros [Hl Hn]. unfold group_workloads. apply Forall_fmap, Forall_true. intros j. cbn -[Z.pow].
  set (w := take g _). assert (Forall (fun v => 0 <= v <= 2 ^ 41) w) as Hw.
  { apply Forall_take, Forall_drop, Forall_fmap. eapply Forall_impl; [exact Hl|]. exact workload_bound. }
  apply zsum_bounds in Hw. assert (Z.of_nat (length w) <= 2 ^ 20).
  { unfold w. rewrite length_take, length_drop, length_fmap. lia. }
  assert (Z.of_nat (length w) * 2 ^ 41 <= 2 ^ 20 * 2 ^ 41) by (apply Z.mul_le_mono_nonneg_r; lia).
  change (2 ^ 20 * 2 ^ 41) with (2 ^ 61) in *.
  rewrite wrap_small; [|lia|]; change (2 ^ (64 - 1)) with (2 ^ 63);
    change (2 ^ 63) with 9223372036854775808; change (2 ^ 61) with 2305843009213693952 in *; lia.
Qed.

Section MicroTheorems.
Context `{!Heapq KState State_lt}.

(** The index lists before they are put in order. *)
Lemma micro_bsz_idx_spec lens g n use_balance :
  small_lens lens -> (0 < g)%nat -> (length lens mod g = 0)%nat ->
  (0 < n <= length lens / g)%nat ->
  exists gidx, length gidx = n /\ Forall (fun p => p <> []) gidx /\
    concat gidx ≡ₚ seq 0 (length lens / g) /\
    exists idx, micro_bsz_idx lens g n use_balance = Ok idx /\ idx ≡ₚ expand_groups g gidx.
Proof.
  intros Hs Hg Hd Hn. pose proof (Nat.div_mod_eq (length lens) g).
  assert (forall (w : list Z) (idx : list (list nat)), exists idx',
    (if use_balance then
       let key p := if (1 <? g)%nat
                    then (zsum ((fun i => w !!! (i / g)%nat) <$> every g p), default 0%nat (list.head p))
                    else (zsum ((fun i : nat => w !!! i) <$> p), default 0%nat (list.head p)) in
       Ok (both_ends (sort_by_workload key idx)) else Ok idx) = Ok idx' /\ idx' ≡ₚ idx) as Hsort.
  { intros w idx. destruct use_balance; eexists; (split; [done|]); [|done].
    by rewrite both_ends_perm; unfold sort_by_workload; rewrite isort_perm. }
  unfold micro_bsz_idx. destruct (Nat.ltb_spec 1 g) as [Hg1|Hg1].
  - set (w := group_workloads _ _ _). assert (length w = length lens / g)%nat as Hw
      by (unfold w, group_workloads; by rewrite length_fmap, length_seq).
    destruct (balanced_partitions w n false) as (raw & _ & E & Hl & Hp & Hne); [lia|done| |].
    { intros _. eapply Forall_impl; [apply group_workloads_nonneg; exact Hs|]. cbn -[Z.pow]. lia. }
    exists (sort_nat <$> raw). split; [by rewrite length_fmap|]. split; [by eapply Forall_impl; [exact Hne|]; intros ? []|].
    split; [by rewrite Hp, Hw|]. rewrite E. cbn [mbind result_bind]. apply Hsort.
  - assert (g = 1%nat) as -> by lia. rewrite Nat.div_1_r in *.
    destruct (balanced_partitions (calculate_workload 64 <$> lens) n false)
      as (raw & _ & E & Hl & Hp & Hne); [rewrite length_fmap; lia|done| |].
    { intros _. apply Forall_fmap. eapply Forall_impl; [apply Hs|].
      intros x Hx. by apply workload_bound. }
    set (gidx := sort_nat <$> raw) in *. exists gidx. split; [unfold gidx; by rewrite length_fmap|]. split; [by eapply Forall_impl; [exact Hne|]; intros ? []|].
    split; [by rewrite Hp, length_fmap|]. rewrite E. cbn [mbind result_bind].
    destruct (Hsort (calculate_workload 64 <$> lens) gidx) as (idx & Ei & Hi). exists idx.
    split; [exact Ei|]. rewrite Hi. unfold expand_groups.
    enough ((fun p => concat (expand_group 1 <$> p)) <$> gidx = gidx) as -> by done.
    etransitivity; [|apply list_fmap_id]. apply list_fmap_ext. intros _ p _. cbn.
    clear. induction p as [|i p IH]; cbn; [done|]. rewrite IH, Nat.mul_1_r. done.
Qed.

Context {Row : Type}.

(** C29: a batch whose number of micro-batches is positive is split without error
  into that many non-empty micro-batches that hold every row once; rows of
  one forced group stay together, and restoring the concatenated
  micro-batches gives the batch back. *)
Theorem rearrange_micro_batches_correct (rows : list Row) (b : lengths) (max_token_len : Z)
    (a : micro_args) (n : Z) :
  let lens := seq_len_effective b in
  let g := force_group_size a in
  length rows = length lens -> small_lens lens ->
  num_micro_batches b max_token_len a = Ok n -> 0 < n ->
  exists mbs idx, rearrange_micro_batches rows b max_token_len a = Ok (mbs, idx) /\
    Z.of_nat (length idx) = n /\ concat idx ≡ₚ seq 0 (length rows) /\
    Forall2 (fun p mb => p <> [] /\ index_select rows p = Ok mb) idx mbs /\
    (forall p i j, p ∈ idx -> i ∈ p -> (i / g = j / g)%nat -> j ∈ p) /\
    restore_dynamic_batch (concat mbs) idx = Ok rows.
Proof.
  intros lens g Hrows Hs En Hn.
  assert (0 < g /\ length lens mod g = 0 /\ Z.to_nat n <= length lens / g)%nat as (Hg & Hd & Hle).
  { unfold num_micro_batches in En. fold lens g in En. invert_ok.
    destruct (Nat.eqb_spec g 0); [done|]. rewrite Nat.eqb_eq in *. rewrite Z.leb_le in *. lia. }
  destruct (micro_bsz_idx_spec lens g (Z.to_nat n) (use_dynamic_bsz_balance a) Hs Hg Hd)
    as (gidx & Hl & Hne & Hp & idx & Ei & Hi); [lia|].
  pose proof (Nat.div_mod_eq (length lens) g) as Hdiv.
  assert (concat idx ≡ₚ seq 0 (length rows)) as Hperm.
  { rewrite Hi. unfold expand_groups. rewrite concat_concat_fmap, Hp, concat_expand.
    f_equiv. lia. }
  assert (exists mbs, mapM_ok (index_select rows) idx = Ok mbs) as [mbs Em].
  { assert (Forall (Forall (fun i => i < length rows)%nat) idx) as Hall.
    { apply Forall_concat. rewrite Hperm. apply Forall_seq. lia. }
    clear -Hall. induction Hall as [|p idx Hp Hall [mbs E]]; cbn; [by exists []|].
    apply index_select_total in Hp as (sel & -> & _). cbn. rewrite E. cbn. by eexists. }
  exists mbs, idx. split.
  { unfold rearrange_micro_batches. rewrite En. cbn [mbind result_bind].
    fold lens g. rewrite Ei. cbn [mbind result_bind]. by rewrite Em. }
  assert (forall p, p ∈ idx -> exists gp, gp ∈ gidx /\ p = concat (expand_group g <$> gp)) as Hin.
  { intros p. rewrite Hi. unfold expand_groups. intros (gp & -> & Hgp)%list_elem_of_fmap. eauto. }
  split; [rewrite Hi; unfold expand_groups; rewrite length_fmap; lia|].
  split; [done|]. split; [|split].
  - apply mapM_ok_Forall2 in Em. apply Forall2_same_length_lookup.
    split; [by eapply Forall2_length|]. intros i p mb Hpi Hmb. split.
    + destruct (Hin p (list_elem_of_lookup_2 _ _ _ Hpi)) as (gp & Hgp & ->).
      rewrite Forall_forall in Hne. specialize (Hne _ Hgp). destruct gp as [|x gp]; [done|].
      cbn. destruct g; [lia|]. done.
    + eapply Forall2_lookup_lr in Em; eauto.
  - intros p i j (gp & Hgp & ->)%Hin Hip Hij.
    apply list_elem_of_In, in_concat in Hip as (q & Hq & Hiq).
    apply list_elem_of_In in Hq as Hq', Hiq. apply list_elem_of_fmap in Hq' as (x & -> & Hx).
    apply list_elem_of_In, in_concat. exists (expand_group g x).
    split; [done|]. apply list_elem_of_In. rewrite elem_expand_group in * by done. lia.
  - by eapply restore_roundtrip.
Qed.
End MicroTheorems.

Definition demo_args : micro_args :=
  {| num_batches_divided_by := None; min_num_micro_batch := None;
     use_dynamic_bsz_balance := true; force_group_size := 2; dp_all_reduce := None |}.

Lemma rearrange_micro_batches_correct_witness :
  exists mbs idx,
    rearrange_micro_batches ["a";"b";"c";"d"]%string (Nested [5;2;4;1]) 6 demo_args = Ok (mbs, idx) /\
    Z.of_nat (length idx) = 2 /\ concat idx ≡ₚ seq 0 4 /\
    Forall2 (fun p mb => p <> [] /\ index_select ["a";"b";"c";"d"]%string p = Ok mb) idx mbs /\
    (forall p i j, p ∈ idx -> i ∈ p -> (i / 2 = j / 2)%nat -> j ∈ p) /\
    restore_dynamic_batch (concat mbs) idx = Ok ["a";"b";"c";"d"]%string.
Proof.
  apply (rearrange_micro_batches_correct ["a";"b";"c";"d"]%string (Nested [5;2;4;1]) 6 demo_args 2);
    [done| |vm_compute; reflexivity|lia].
  split; [|cbn; lia]. repeat constructor; cbn; lia.
Defined.

(** [max_token_len] does not bound the tokens of a micro-batch, although it
    is documented as its maximal sum: three rows of 6 tokens under a maximum of 9
    are split in two, one of which has 12.  And a [min_num_micro_batch] above the
    number of rows raises instead of padding with empty micro-batches. *)
Theorem max_token_len_not_a_bound :
  (exists mbs idx p, rearrange_micro_batches [0;1;2]%nat (Nested [6;6;6]) 9 
      {| num_batches_divided_by := None; min_num_micro_batch := None;
         use_dynamic_bsz_balance := true; force_group_size := 1; dp_all_reduce := None |}
      = Ok (mbs, idx) /\ p ∈ idx /\ 9 < part_sum [6;6;6] p) /\
  rearrange_micro_batches [0;1;2]%nat (Nested [6;6;6]) 9
      {| num_batches_divided_by := None; min_num_micro_batch := Some 4;
         use_dynamic_bsz_balance := true; force_group_size := 1; dp_all_reduce := None |}
      = Err AssertionError.
Proof.
  split; [|by vm_compute]. do 3 eexists. split; [by vm_compute|]. split; [by left|]. by vm_compute.
Qed.

(** ** Groups of equal uid *)

Section GroupTheorems.
Context {U : Type} `{!EqDecision U}.

(** Rows with equal uid are contiguous, as the code assumes. *)
Definition contiguous (uids : list U) : Prop :=
  forall i j k u v, (i <= j <= k)%nat -> uids !! i = Some u -> uids !! k = Some u ->
    uids !! j = Some v -> v = u.

Definition all_indices (groups : list (list nat * Z)) (cur : list nat) : list nat :=
  concat groups.*1 ++ cur.

(** A maximal run of one uid [u] that ends before index [t]. *)
Definition uid_run (uids : list U) (u : U) (ids : list nat) (t : nat) : Prop :=
  exists a m, ids = seq a (S m) /\ (a + S m = t)%nat /\
    Forall (fun i => uids !! i = Some u) ids /\ (a <> 0%nat -> uids !! (a - 1)%nat <> Some u).

(** After [t] rows: the indices so far in order, in runs of one uid. *)
Record groups_inv (uids : list U) (t : nat) (st : group_state (U:=U)) : Prop := {
  gi_all : all_indices st.1.1.1 st.1.2 = seq 0 t;
  gi_groups : Forall (fun g => exists u t', uid_run uids u g.1 t') st.1.1.1;
  gi_cur : match st.1.1.2 with
           | None => st.1.2 = [] /\ t = 0%nat
           | Some u => uid_run uids u st.1.2 t
           end;
}.

Lemma flush_indices groups cur n : concat (flush groups cur n).*1 = all_indices groups cur.
Proof.
  unfold flush, all_indices. destruct cur as [|i cur]; [by rewrite app_nil_r|].
  rewrite fmap_app, concat_app. cbn. by rewrite app_nil_r.
Qed.

Lemma flush_groups uids groups cur n u t :
  Forall (fun g => exists u t', uid_run uids u g.1 t') groups ->
  uid_run uids u cur t ->
  Forall (fun g => exists u t', uid_run uids u g.1 t') (flush groups cur n).
Proof.
  intros Hg Hc. unfold flush. destruct cur; [by destruct Hc as (? & ? & ? & _)|].
  apply Forall_app. split; [done|]. constructor; [by exists u, t|constructor].
Qed.

Lemma group_step_inv uids t st s u :
  groups_inv uids t st -> uids !! t = Some u -> groups_inv uids (S t) (group_step st (t, (s, u))).
Proof.
  destruct st as [[[groups cu] cur] cl]. intros [Ha Hg Hc] Hu. cbn [fst snd] in *.
  assert (all_indices groups cur ++ [t] = seq 0 (S t)) as Ha' by (by rewrite seq_S, <- Ha).
  unfold group_step. case_bool_decide as Hcu.
  - subst cu. destruct Hc as (a & m & -> & Hat & Hf & Hprev). split; cbn [fst snd].
    + rewrite <- Ha'. unfold all_indices. by rewrite <- app_assoc.
    + done.
    + exists a, (S m). rewrite (seq_S (S m)), Hat. split; [done|]. split; [lia|].
      split; [|done]. apply Forall_app. split; [done|]. by constructor.
  - split; cbn [fst snd].
    + rewrite <- Ha'. unfold all_indices at 1. by rewrite flush_indices.
    + destruct cu as [v|]; [by eapply flush_groups|]. destruct Hc as [-> _]. done.
    + exists t, 0%nat. split; [done|]. split; [lia|]. split; [by repeat constructor|].
      intros Ht. destruct cu as [v|]; [|by destruct Hc].
      destruct Hc as (a & m & -> & Hat & Hf & _). intros Hp.
      rewrite seq_S in Hf. apply Forall_app in Hf as [_ Hf].
      replace (a + m)%nat with (t - 1)%nat in Hf by lia.
      inversion Hf; subst. congruence.
Qed.

Lemma build_groups_spec lens (uids : list U) :
  length lens = length uids ->
  concat (build_groups lens uids).*1 = seq 0 (length uids) /\
  Forall (fun g => exists u t', uid_run uids u g.1 t') (build_groups lens uids).
Proof.
  intros Hl. unfold build_groups.
  assert (forall t, (t <= length uids)%nat ->
    groups_inv uids t (foldl group_step ([], None, [], 0) (take t (imap pair (zip lens uids))))) as H.
  { intros t. induction t as [|t IH]; intros Ht; [by repeat constructor|].
    destruct (lookup_lt_is_Some_2 uids t ltac:(lia)) as [u Hu].
    destruct (lookup_lt_is_Some_2 lens t ltac:(lia)) as [s Hs].
    rewrite (take_S_r _ _ (t, (s, u))).
    - rewrite foldl_app. cbn [foldl]. apply group_step_inv; [apply IH; lia|done].
    - rewrite list_lookup_imap, lookup_zip_with, Hs. cbn. by rewrite Hu. }
  specialize (H (length uids) (Nat.le_refl _)).
  rewrite take_ge in H by (rewrite length_imap, length_zip_with; lia).
  destruct (foldl _ _ _) as [[[groups cu] cur] cl]. destruct H as [Ha Hg Hc]. cbn in *.
  split; [by rewrite flush_indices|]. destruct cu as [v|]; [by eapply flush_groups|].
  destruct Hc as [-> _]. done.
Qed.

(** A run contains all rows of its uid when equal uids are contiguous. *)
Lemma run_before uids u ids t i j :
  contiguous uids -> uid_run uids u ids t -> j ∈ ids -> (i <= j)%nat ->
  uids !! i = uids !! j -> i ∈ ids.
Proof.
  intros Hc (a & m & -> & _ & Hf & Hp) Hj Hij Hu.
  assert (uids !! j = Some u) as Huj
    by (rewrite Forall_forall in Hf; by apply Hf).
  rewrite elem_of_seq in *. destruct (decide (a <= i)%nat); [lia|].
  exfalso. apply Hp; [lia|].
  destruct (lookup_lt_is_Some_2 uids (a - 1)) as [v Hv].
  { apply lookup_lt_Some in Huj. lia. }
  rewrite Hv. f_equal. eapply (Hc i (a - 1)%nat j u v); [lia|congruence|done|done].
Qed.
End GroupTheorems.

Lemma concat_elem_unique {A} (ls : list (list A)) x p q :
  NoDup (concat ls) -> p ∈ ls -> q ∈ ls -> x ∈ p -> x ∈ q -> p = q.
Proof.
  induction ls as [|l ls IH]; [by intros _ ?%not_elem_of_nil|]. cbn.
  intros (Hl & Hd & Hls)%NoDup_app Hp Hq Hxp Hxq.
  assert (forall r, r ∈ ls -> x ∈ r -> x ∈ concat ls) as Hin.
  { intros r Hr Hx. rewrite list_elem_of_In, in_concat. exists r. by rewrite <- !list_elem_of_In. }
  apply elem_of_cons in Hp as [->|Hp], Hq as [->|Hq]; eauto; exfalso; eapply Hd; eauto.
Qed.

Section GroupPartitions.
Context `{!Heapq KState State_lt} {U : Type} `{!EqDecision U}.

Lemma same_group lens (uids : list U) g i j :
  length lens = length uids -> contiguous uids ->
  g ∈ (build_groups lens uids).*1 -> i ∈ g ->
  (j < length uids)%nat -> uids !! j = uids !! i -> j ∈ g.
Proof.
  intros Hl Hc Hg Hi Hj Hu. destruct (build_groups_spec lens uids Hl) as [Hall Hruns].
  assert (forall g, g ∈ (build_groups lens uids).*1 -> exists u t, uid_run uids u g t) as Hrun.
  { intros g' (gr & -> & Hgr)%list_elem_of_fmap. rewrite Forall_forall in Hruns.
    by apply Hruns. }
  destruct (Nat.le_gt_cases j i) as [Hji|Hji].
  - destruct (Hrun g Hg) as (u & t & Hr). by eapply run_before.
  - assert (j ∈ concat (build_groups lens uids).*1) as Hjc by (rewrite Hall; apply elem_of_seq; lia).
    apply list_elem_of_In, in_concat in Hjc as (g' & Hg' & Hjg').
    rewrite <- !list_elem_of_In in *.
    destruct (Hrun g' Hg') as (u & t & Hr).
    assert (i ∈ g') as Hig' by (eapply (run_before uids u g' t i j); eauto; lia).
    assert (g = g') as ->; [|done]. eapply (concat_elem_unique _ i); eauto.
    rewrite Hall. apply NoDup_seq.
Qed.

Lemma sample_partitions_concat (groups : list (list nat * Z)) gps :
  concat gps ≡ₚ seq 0 (length groups) ->
  concat (sample_partitions groups gps) ≡ₚ concat groups.*1.
Proof.
  intros Hp. unfold sample_partitions.
  transitivity (concat ((fun gi : nat => (groups !!! gi).1) <$> seq 0 (length groups))).
  - rewrite <- Hp. clear Hp. induction gps as [|gp gps IH]; cbn; [done|].
    by rewrite sort_nat_perm, fmap_app, concat_app, IH.
  - enough ((fun gi : nat => (groups !!! gi).1) <$> seq 0 (length groups) = groups.*1) as -> by done.
    apply list_eq. intros i. rewrite !list_lookup_fmap.
    destruct (decide (i < length groups)%nat) as [Hi|Hi].
    + rewrite lookup_seq_lt by done. cbn. destruct (lookup_lt_is_Some_2 groups i Hi) as [g Hg].
      by rewrite list_lookup_total_alt, Hg.
    + rewrite lookup_seq_ge, (lookup_ge_None_2 groups) by lia. done.
Qed.

(** when equal uids are contiguous and the number of uid groups is a
  positive multiple of [k], the rows are put in [k] sorted partitions that
  hold every row once, and all rows of one uid are in one partition. *)
Theorem get_group_balanced_partitions_correct (lens : list Z) (uids : list U) (k : nat) :
  length lens = length uids -> contiguous uids ->
  let n_groups := length (build_groups lens uids) in
  (0 < k <= n_groups)%nat -> (n_groups mod k = 0)%nat ->
  exists ps, get_group_balanced_partitions lens uids k = Ok ps /\ length ps = k /\
    concat ps ≡ₚ seq 0 (length uids) /\ Forall (StronglySorted le) ps /\
    (forall p i j, p ∈ ps -> i ∈ p -> (j < length uids)%nat -> uids !! j = uids !! i -> j ∈ p).
Proof.
  intros Hl Hc n_groups Hk Hd. destruct (build_groups_spec lens uids Hl) as [Hall _].
  set (groups := build_groups lens uids) in *.
  unfold get_group_balanced_partitions. fold groups.
  replace (length lens =? length uids)%nat with true by (symmetry; by apply Nat.eqb_eq).
  replace (k <=? length groups)%nat with true by (symmetry; apply Nat.leb_le; lia).
  cbn [py_assert mbind result_bind]. set (w := _ <$> groups).
  assert (length w = length groups) as Hw by (unfold w; by rewrite length_fmap).
  destruct (balanced_partitions w k true) as (raw & _ & E & Hlr & Hp & _);
    [by rewrite Hw|by rewrite Hw|done|].
  rewrite E. cbn [mbind result_bind]. set (gps := sort_nat <$> raw) in *. rewrite Hw in Hp.
  exists (sample_partitions groups gps). split; [done|].
  split; [unfold sample_partitions, gps; by rewrite !length_fmap|].
  split; [by rewrite sample_partitions_concat, Hall|].
  split; [apply Forall_fmap, Forall_true; intros gp; apply sort_nat_sorted|].
  intros p i j (gp & -> & Hgp)%list_elem_of_fmap. rewrite !sort_nat_perm.
  rewrite !list_elem_of_In, !in_concat. intros (g & Hg & Hi) Hj Hu.
  exists g. split; [done|]. rewrite <- !list_elem_of_In in *.
  apply list_elem_of_fmap in Hg as (gi & -> & Hgi).
  eapply (same_group lens uids _ i j); eauto. fold groups.
  assert (gi ∈ concat gps) as Hgic
    by (apply list_elem_of_In, in_concat; exists gp; by rewrite <- !list_elem_of_In).
  rewrite Hp, elem_of_seq in Hgic. apply list_elem_of_fmap_2.
  destruct (lookup_lt_is_Some_2 groups gi ltac:(lia)) as [g Hg].
  rewrite list_lookup_total_alt, Hg. by eapply list_elem_of_lookup_2.
Qed.
End GroupPartitions.

Lemma get_group_balanced_partitions_correct_witness :
  exists ps, get_group_balanced_partitions [3;4;5;6] ["u";"u";"v";"v"]%string 2 = Ok ps /\
    length ps = 2%nat /\ concat ps ≡ₚ seq 0 4 /\ Forall (StronglySorted le) ps /\
    (forall p i j, p ∈ ps -> i ∈ p -> (j < 4)%nat ->
       ["u";"u";"v";"v"]%string !! j = ["u";"u";"v";"v"]%string !! i -> j ∈ p).
Proof.
  apply (get_group_balanced_partitions_correct [3;4;5;6] ["u";"u";"v";"v"]%string 2);
    [done| |split; [lia|vm_compute; lia]|done].
  intros i j k u v Hijk Hi Hk Hj.
  destruct i as [|[|[|[|i]]]], j as [|[|[|[|j]]]], k as [|[|[|[|k]]]]; cbn in *; try lia; by simplify_eq.
Defined.
