(* ===== verification/MessageQueue.v ===== *)
(** * The rollouter-trainer message queue

    [MessageQueue] of [verl/experimental/fully_async_policy/message_queue.py].
    Every method body runs under one asyncio lock, so a method is one atomic step
    of the actor; [get_sample] alone gives the lock up, in [Condition.wait].  The
    step relation therefore has, besides the methods, the step in which a
    notified consumer gets the lock back and tests the loop condition again. *)

From S2P Require Import Prelude.

(** ** The actor's state *)

Section Queue.
Context {A : Type}.

Record mq := {
  max_queue_size : nat;
  queue : list A;
  val_queue : list A;
  running : bool;
  total_produced : nat;
  total_consumed : nat;
  dropped_samples : nat;
}.

(** [MessageQueue.__init__]: [None] and negative sizes raise. *)
Definition mq_init (max_size : option Z) : result mq :=
  match max_size with
  | None => Err ValueError
  | Some m =>
      if (m <? 0)%Z then Err ValueError
      else Ok {| max_queue_size := Z.to_nat m; queue := []; val_queue := []; running := true;
                 total_produced := 0; total_consumed := 0; dropped_samples := 0 |}
  end.

(** [deque(maxlen)]: appending to a full one drops its left end. *)
Definition deque_append (maxlen : nat) (q : list A) (x : A) : list A :=
  drop (length q + 1 - maxlen) (q ++ [x]).

Definition deque_popleft (q : list A) : result (A * list A) :=
  match q with [] => Err IndexError | x :: q' => Ok (x, q') end.

(** The result is what the method returns; [notify_all] belongs to the step. *)
Definition put_sample (s : mq) (sample : A) : result (mq * bool) :=
  '(q, dropped, is_drop) ←
    (if max_queue_size s <=? length (queue s)
     then '(_, q) ← deque_popleft (queue s); Ok (q, dropped_samples s + 1, true)
     else Ok (queue s, dropped_samples s, false));
  Ok ({| max_queue_size := max_queue_size s; queue := deque_append (max_queue_size s) q sample;
         val_queue := val_queue s; running := running s; total_produced := total_produced s + 1;
         total_consumed := total_consumed s; dropped_samples := dropped |}, negb is_drop).

(** One pass of [get_sample] from the test of its loop condition: it waits, or
  returns [None] when the queue is closed and empty, or a sample with the
  number of samples left. *)
Inductive get_outcome :=
  | Wait
  | Closed
  | Got (sample : A) (left_over : nat).

Definition get_sample (s : mq) : mq * get_outcome :=
  match queue s with
  | [] => (s, if running s then Wait else Closed)
  | data :: q =>
      ({| max_queue_size := max_queue_size s; queue := q; val_queue := val_queue s;
          running := running s; total_produced := total_produced s;
          total_consumed := total_consumed s + 1; dropped_samples := dropped_samples s |},
       Got data (length q))
  end.

Definition get_queue_size (s : mq) : nat := length (queue s).

(** [(queue_size, total_produced, total_consumed, dropped_samples, max_queue_size)] *)
Definition get_statistics (s : mq) : nat * nat * nat * nat * nat :=
  (length (queue s), total_produced s, total_consumed s, dropped_samples s, max_queue_size s).

Definition clear_queue (s : mq) : mq :=
  {| max_queue_size := max_queue_size s; queue := []; val_queue := val_queue s;
     running := running s; total_produced := total_produced s;
     total_consumed := total_consumed s; dropped_samples := dropped_samples s |}.

Definition shutdown (s : mq) : mq :=
  {| max_queue_size := max_queue_size s; queue := queue s; val_queue := val_queue s;
     running := false; total_produced := total_produced s;
     total_consumed := total_consumed s; dropped_samples := dropped_samples s |}.

Definition put_validate (s : mq) (data : A) : mq :=
  {| max_queue_size := max_queue_size s; queue := queue s; val_queue := val_queue s ++ [data];
     running := running s; total_produced := total_produced s;
     total_consumed := total_consumed s; dropped_samples := dropped_samples s |}.

Definition get_validate (s : mq) : mq * option A :=
  match val_queue s with
  | [] => (s, None)
  | data :: vq =>
      ({| max_queue_size := max_queue_size s; queue := queue s; val_queue := vq;
          running := running s; total_produced := total_produced s;
          total_consumed := total_consumed s; dropped_samples := dropped_samples s |}, Some data)
  end.

(** ** The actor with its waiting consumers

  A consumer in [Condition.wait] is waiting until a [notify_all] and notified
  from then until it gets the lock back. *)

Record sys := {
  st : mq;
  waiting : gset nat;
  notified : gset nat;
  (** history, for the statements: samples in the order they were put, and in
      the order they left the queue, each with how it left *)
  produced : list A;
  left_queue : list (A * bool);
  cleared : nat;
}.

Definition notify_all (w n : gset nat) : gset nat * gset nat := (∅, w ∪ n).

(** How [get_sample] of consumer [c] goes on from its loop test. *)
Definition resume_get (y : sys) (c : nat) : sys * get_outcome :=
  let '(s', o) := get_sample (st y) in
  match o with
  | Wait => ({| st := s'; waiting := {[c]} ∪ waiting y; notified := notified y ∖ {[c]};
                produced := produced y; left_queue := left_queue y; cleared := cleared y |}, o)
  | Closed => ({| st := s'; waiting := waiting y; notified := notified y ∖ {[c]};
                  produced := produced y; left_queue := left_queue y; cleared := cleared y |}, o)
  | Got x _ => ({| st := s'; waiting := waiting y; notified := notified y ∖ {[c]};
                   produced := produced y; left_queue := left_queue y ++ [(x, true)];
                   cleared := cleared y |}, o)
  end.

(** The system after [put_sample] returned [(s', ok)]: all consumers are notified. *)
Definition after_put (y : sys) (sample : A) (s' : mq) (ok : bool) : sys :=
  {| st := s'; waiting := (notify_all (waiting y) (notified y)).1;
     notified := (notify_all (waiting y) (notified y)).2;
     produced := produced y ++ [sample];
     left_queue := left_queue y ++ (if ok then [] else (fun x => (x, false)) <$> take 1 (queue (st y)));
     cleared := cleared y |}.

Inductive mq_step : sys -> sys -> Prop :=
  | step_put y sample s' ok :
    put_sample (st y) sample = Ok (s', ok) ->
    mq_step y (after_put y sample s' ok)
  | step_get y c :
    c ∉ waiting y -> c ∉ notified y -> mq_step y (resume_get y c).1
  | step_wake y c :
    c ∈ notified y -> mq_step y (resume_get y c).1
  | step_clear y :
    mq_step y
      {| st := clear_queue (st y); waiting := waiting y; notified := notified y;
         produced := produced y;
         left_queue := left_queue y ++ ((fun x => (x, false)) <$> queue (st y));
         cleared := cleared y + length (queue (st y)) |}
  | step_shutdown y :
    mq_step y
      {| st := shutdown (st y); waiting := (notify_all (waiting y) (notified y)).1;
         notified := (notify_all (waiting y) (notified y)).2;
         produced := produced y; left_queue := left_queue y; cleared := cleared y |}
  | step_put_validate y data :
    mq_step y
      {| st := put_validate (st y) data; waiting := waiting y; notified := notified y;
         produced := produced y; left_queue := left_queue y; cleared := cleared y |}
  | step_get_validate y :
    mq_step y
      {| st := (get_validate (st y)).1; waiting := waiting y; notified := notified y;
         produced := produced y; left_queue := left_queue y; cleared := cleared y |}.

Definition sys_init (s : mq) : sys :=
  {| st := s; waiting := ∅; notified := ∅; produced := []; left_queue := []; cleared := 0 |}.

Definition reachable (m : Z) (y : sys) : Prop :=
  exists s, mq_init (Some m) = Ok s /\ rtc mq_step (sys_init s) y.

(** ** The invariant *)

Definition consumed (y : sys) : list (A * bool) := filter (fun x => x.2 = true) (left_queue y).

Record mq_inv (m : nat) (y : sys) : Prop := {
  inv_size : max_queue_size (st y) = m;
  inv_bound : length (queue (st y)) <= m;
  inv_fifo : (left_queue y).*1 ++ queue (st y) = produced y;
  inv_produced : total_produced (st y) = length (produced y);
  inv_consumed : total_consumed (st y) = length (consumed y);
  inv_count : length (left_queue y) = length (consumed y) + dropped_samples (st y) + cleared y;
  inv_wakeup : waiting y <> ∅ -> queue (st y) = [] /\ running (st y) = true;
}.

Lemma put_sample_spec s x s' ok :
  0 < max_queue_size s -> length (queue s) <= max_queue_size s ->
  put_sample s x = Ok (s', ok) ->
  max_queue_size s' = max_queue_size s /\ running s' = running s /\
  total_produced s' = total_produced s + 1 /\ total_consumed s' = total_consumed s /\
  length (queue s') <= max_queue_size s /\
  (if ok then queue s' = queue s ++ [x] /\ dropped_samples s' = dropped_samples s
   else exists y q, queue s = y :: q /\ queue s' = q ++ [x] /\ dropped_samples s' = dropped_samples s + 1).
Proof.
  intros Hm Hl. unfold put_sample, deque_append.
  destruct (Nat.leb_spec (max_queue_size s) (length (queue s))) as [Hf|Hf].
  - destruct (queue s) as [|y q] eqn:E; cbn -[drop]; [discriminate|]. cbn in Hl, Hf.
    intros [= <- <-]; cbn -[drop].
    replace (length q + 1 - max_queue_size s) with 0 by lia. rewrite drop_0, length_app; cbn.
    repeat split; try lia. by exists y, q.
  - cbn -[drop]. intros [= <- <-]; cbn -[drop].
    replace (length (queue s) + 1 - max_queue_size s) with 0 by lia. rewrite drop_0, length_app; cbn.
    repeat split; lia.
Qed.

Lemma consumed_app_false (l : list (A * bool)) (k : list A) :
  length (filter (fun x => x.2 = true) (l ++ ((fun x => (x, false)) <$> k)))
  = length (filter (fun x => x.2 = true) l).
Proof.
  rewrite filter_app, length_app. enough (filter (fun x => x.2 = true) ((fun x => (x, false)) <$> k) = [] :> list (A * bool)) as -> by (cbn; lia).
  induction k; cbn; done.
Qed.

Lemma consumed_app_true (l : list (A * bool)) x :
  length (filter (fun x => x.2 = true) (l ++ [(x, true)]))
  = length (filter (fun x => x.2 = true) l) + 1.
Proof. by rewrite filter_app, length_app. Qed.

Lemma consumed_app_one (l : list (A * bool)) x :
  length (filter (fun x => x.2 = true) (l ++ [(x, false)]))
  = length (filter (fun x => x.2 = true) l).
Proof. apply (consumed_app_false l [x]). Qed.

Lemma inv_resume m y c : mq_inv m y -> mq_inv m (resume_get y c).1.
Proof.
  intros [Hs Hb Hf Hp Hc Hn Hw]. unfold resume_get, get_sample.
  destruct (queue (st y)) as [|x q] eqn:Eq.
  - destruct (running (st y)) eqn:Er; split; cbn; rewrite ?Eq; try done.
    intros H. by destruct (Hw H).
  - split; cbn; try done.
    + cbn in Hb. lia.
    + rewrite fmap_app. cbn. rewrite <- app_assoc. cbn. done.
    + unfold consumed in *; cbn. rewrite consumed_app_true. lia.
    + unfold consumed in *; cbn. rewrite consumed_app_true, length_app. cbn. lia.
    + intros H. by destruct (Hw H).
Qed.

Lemma fst_pair_false (k : list A) : ((fun x => (x, false)) <$> k).*1 = k.
Proof. rewrite <- list_fmap_compose. apply list_fmap_id. Qed.

Lemma mq_step_inv m y y' : 0 < m -> mq_inv m y -> mq_step y y' -> mq_inv m y'.
Proof.
  intros Hm Hinv Hstep. destruct Hstep as [y x s' ok E|y c _ _|y c _|y|y|y d|y].
  - destruct Hinv as [Hs Hb Hf Hp Hc Hn Hw].
    apply put_sample_spec in E as (E1 & E2 & E3 & E4 & E5 & E6); [|lia..]. unfold after_put.
    destruct ok.
    + destruct E6 as [Eq Ed]. split; cbn; rewrite ?app_nil_r; try done; try lia.
      * rewrite Eq, app_assoc. by f_equal.
      * rewrite length_app. cbn. lia.
      * unfold consumed in *; cbn. rewrite ?app_nil_r. lia.
      * unfold consumed in *; cbn. rewrite ?app_nil_r. lia.
    + destruct E6 as (z & q & Eq & Eq' & Ed). rewrite Eq in *.
      change (take 1 (z :: q)) with [z]. split; cbn; try done; try lia.
      * rewrite fmap_app. cbn. rewrite Eq', <- Hf, <- !app_assoc. done.
      * rewrite length_app. cbn. lia.
      * unfold consumed in *; cbn. rewrite consumed_app_one. lia.
      * unfold consumed in *; cbn. rewrite consumed_app_one, length_app. cbn. lia.
  - by apply inv_resume.
  - by apply inv_resume.
  - destruct Hinv as [Hs Hb Hf Hp Hc Hn Hw]. split; cbn; try done; try lia.
    + by rewrite app_nil_r, fmap_app, fst_pair_false.
    + unfold consumed in *; cbn. by rewrite consumed_app_false.
    + unfold consumed in *; cbn. rewrite consumed_app_false, length_app, length_fmap. lia.
    + intros H. by destruct (Hw H).
  - destruct Hinv as [Hs Hb Hf Hp Hc Hn Hw]. split; cbn; done.
  - destruct Hinv as [Hs Hb Hf Hp Hc Hn Hw]. split; cbn; done.
  - destruct Hinv as [Hs Hb Hf Hp Hc Hn Hw]. unfold get_validate.
    destruct (val_queue (st y)); split; cbn; done.
Qed.

Lemma reachable_inv m y : (0 < m)%Z -> reachable m y -> mq_inv (Z.to_nat m) y.
Proof.
  intros Hm (s & E & Hr). unfold mq_init in E. destruct (Z.ltb_spec m 0); [lia|].
  injection E as <-. remember (sys_init _) as y0 eqn:Ey.
  assert (mq_inv (Z.to_nat m) y0) as H0 by (subst; split; cbn; try done; lia). clear Ey.
  induction Hr as [|y1 y2 y3 Hs _ IH]; [done|]. apply IH. eapply mq_step_inv; [lia|done|done].
Qed.
End Queue.
Arguments mq A : clear implicits.
Arguments sys A : clear implicits.
Arguments get_outcome A : clear implicits.

(** ** Theorems *)

(** in every reachable state of a queue of positive capacity, samples leave in
    the order they were put, none is lost, duplicated or invented (what was put
    is what left followed by what is queued), the queue is within its capacity,
    and the counters are exact: produced = consumed + dropped + cleared + queued. *)
Theorem queue_fifo_conservation {A} (m : Z) (y : sys A) :
  (0 < m)%Z -> reachable m y ->
  produced y = (left_queue y).*1 ++ queue (st y) /\
  length (queue (st y)) <= Z.to_nat m /\
  total_produced (st y) = length (produced y) /\
  total_consumed (st y) = length (consumed y) /\
  total_produced (st y)
  = total_consumed (st y) + dropped_samples (st y) + cleared y + length (queue (st y)).
Proof.
  intros Hm Hr. destruct (reachable_inv m y Hm Hr) as [Hs Hb Hf Hp Hc Hn _].
  repeat split; try done; try lia.
  rewrite Hp, <- Hf, length_app, length_fmap. lia.
Qed.

(** no wake-up is lost: a consumer that waits without having been notified
    waits on an open and empty queue, so a later put or shutdown notifies it; and
    a consumer that runs blocks exactly then. *)
Theorem no_lost_wakeup {A} (m : Z) (y : sys A) c :
  (0 < m)%Z -> reachable m y ->
  (c ∈ waiting y -> queue (st y) = [] /\ running (st y) = true) /\
  (forall x s' ok, put_sample (st y) x = Ok (s', ok) -> c ∈ waiting y ->
     let y' := after_put y x s' ok in
     mq_step y y' /\ c ∈ notified y' /\ exists z n, (resume_get y' c).2 = Got z n) /\
  ((resume_get y c).2 = Wait <-> queue (st y) = [] /\ running (st y) = true).
Proof.
  intros Hm Hr. pose proof (reachable_inv m y Hm Hr) as Hinv. destruct Hinv as [Hs Hb _ _ _ _ Hw].
  assert (c ∈ waiting y -> queue (st y) = [] /\ running (st y) = true) as Hwait
    by (intros Hc; apply Hw; set_solver).
  split; [done|]. split.
  - intros x s' ok E Hc. split; [by econstructor|].
    split; [set_solver|]. destruct (Hwait Hc) as [Eq _].
    apply put_sample_spec in E as (_ & _ & _ & _ & _ & E); [|lia..].
    unfold resume_get, get_sample; cbn. destruct ok.
    + destruct E as [-> _]. rewrite Eq. cbn. by eexists _, _.
    + destruct E as (? & ? & Eq' & _). by rewrite Eq in Eq'.
  - unfold resume_get, get_sample. destruct (queue (st y)), (running (st y)) eqn:Er; cbn;
      (split; [by intros|by intros [? ?]]).
Qed.

(** after a shutdown nobody blocks: every consumer gets the samples left, in
    order, and then [None]; and the capacity decides what [put_sample] does: below
    it the sample is appended and [True] returned, at it the oldest sample is
    dropped and [False] returned, and with capacity 0 every put raises. *)
Theorem shutdown_and_capacity {A} (s : mq A) (x : A) :
  length (queue s) <= max_queue_size s ->
  (running s = false ->
     (get_sample s).2 <> Wait /\ ((get_sample s).2 = Closed <-> queue s = []) /\
     (forall z q, queue s = z :: q -> (get_sample s).2 = Got z (length q) /\ queue (get_sample s).1 = q)) /\
  (length (queue s) < max_queue_size s ->
     exists s', put_sample s x = Ok (s', true) /\ queue s' = queue s ++ [x] /\
       dropped_samples s' = dropped_samples s) /\
  (length (queue s) = max_queue_size s -> 0 < max_queue_size s ->
     exists s', put_sample s x = Ok (s', false) /\ queue s' = drop 1 (queue s) ++ [x] /\
       dropped_samples s' = dropped_samples s + 1) /\
  (max_queue_size s = 0 -> put_sample s x = Err IndexError).
Proof.
  intros Hb. split; [|split; [|split]].
  - intros Hr. unfold get_sample. rewrite Hr.
    destruct (queue s) as [|z q]; cbn; repeat split; intros; simplify_eq; done.
  - intros Hl. unfold put_sample. destruct (Nat.leb_spec (max_queue_size s) (length (queue s))); [lia|].
    eexists. cbn -[drop]. split; [done|]. unfold deque_append; cbn -[drop].
    by replace (length (queue s) + 1 - max_queue_size s) with 0 by lia.
  - intros Hl Hm. unfold put_sample. rewrite Hl, Nat.leb_refl.
    destruct (queue s) as [|z q]; cbn in Hl; [lia|]. eexists. cbn -[drop]. split; [done|].
    unfold deque_append; cbn -[drop]. replace (length q + 1 - max_queue_size s) with 0 by lia. done.
  - intros Hm. unfold put_sample. rewrite Hm. destruct (queue s); cbn in *; [done|lia].
Qed.

(** ** Witnesses: a queue of capacity 1, one put, a second put that drops *)

Definition demo_state : sys nat :=
  {| st := {| max_queue_size := 1; queue := [8]; val_queue := []; running := true;
              total_produced := 2; total_consumed := 0; dropped_samples := 1 |};
     waiting := ∅; notified := ∅; produced := [7; 8]; left_queue := [(7, false)]; cleared := 0 |}.

Lemma demo_reachable : reachable 1 demo_state.
Proof.
  eexists. split; [reflexivity|].
  eapply rtc_l; [eapply (step_put _ 7); reflexivity|].
  eapply rtc_l; [eapply (step_put _ 8); reflexivity|].
  apply rtc_refl.
Qed.

Lemma queue_fifo_conservation_witness :
  produced demo_state = (left_queue demo_state).*1 ++ queue (st demo_state) /\
  length (queue (st demo_state)) <= 1 /\ 2 = length (produced demo_state) /\
  0 = length (consumed demo_state) /\ 2 = 0 + 1 + 0 + 1.
Proof. apply (queue_fifo_conservation 1 demo_state); [lia|apply demo_reachable]. Defined.

(** A consumer 3 waits on the empty queue; the put wakes it up. *)
Definition demo_waiting : sys nat :=
  (resume_get (sys_init {| max_queue_size := 1; queue := []; val_queue := []; running := true;
                           total_produced := 0; total_consumed := 0; dropped_samples := 0 |}) 3).1.

Lemma demo_waiting_reachable : reachable 1 demo_waiting.
Proof.
  eexists. split; [reflexivity|]. eapply rtc_l; [|apply rtc_refl].
  apply (step_get _ 3). all: cbn; set_solver.
Qed.

Lemma no_lost_wakeup_witness :
  exists s', put_sample (st demo_waiting) 7 = Ok (s', true) /\
    3 ∈ notified (after_put demo_waiting 7 s' true) /\
    exists z n, (resume_get (after_put demo_waiting 7 s' true) 3).2 = Got z n.
Proof.
  destruct (no_lost_wakeup 1 demo_waiting 3 ltac:(lia) demo_waiting_reachable) as (_ & H & _).
  eexists. split; [reflexivity|]. refine (proj2 (H 7 _ true eq_refl _)). set_solver.
Defined.

Lemma shutdown_and_capacity_witness : put_sample (@shutdown nat
    {| max_queue_size := 0; queue := []; val_queue := []; running := true;
       total_produced := 0; total_consumed := 0; dropped_samples := 0 |}) 5 = Err IndexError.
Proof. apply shutdown_and_capacity; [cbn; lia|reflexivity]. Defined.
