(* ===== verification/LoadBalancer.v ===== *)
(** * The rollout load balancer

    [GlobalRequestLoadBalancer] of [verl/workers/rollout/llm_server.py]: requests
    of a conversation go to the server that had it before; new ones to the server
    with the fewest requests in flight.  Both dicts keep their order, which
    decides ties; the routing cache is the class [BaseLRU]. *)

From S2P Require Import Prelude PyDict LRU.

Section Balancer.
Context {handle : Type} `{BaseLRU string}.

Record GlobalRequestLoadBalancer := {
  servers : dict handle;
  inflight_requests : dict Z;
  request_id_to_server : lru string;
}.

Definition set_inflight (d : dict Z) (lb : GlobalRequestLoadBalancer) : GlobalRequestLoadBalancer :=
  {| servers := servers lb; inflight_requests := d; request_id_to_server := request_id_to_server lb |}.
Definition set_routes (c : lru string) (lb : GlobalRequestLoadBalancer) : GlobalRequestLoadBalancer :=
  {| servers := servers lb; inflight_requests := inflight_requests lb; request_id_to_server := c |}.

(** [empty]: a new cache of the given size. *)
Definition balancer_init (empty : lru string) (ss : dict handle) : result GlobalRequestLoadBalancer :=
  match ss with
  | [] => Err ValueError
  | _ => Ok {| servers := ss; inflight_requests := prod_map id (fun _ => 0%Z) <$> ss; request_id_to_server := empty |}
  end.

(** [min(d, key=d.get)]: the first key with the least value. *)
Definition min_key (d : dict Z) : option string :=
  match d with
  | [] => None
  | (k, v) :: d => Some (foldl (fun best x => if (x.2 <? best.2)%Z then x else best) (k, v) d).1
  end.

(** [self._inflight_requests[sid] += 1], then the handle. *)
Definition take_server (lb : GlobalRequestLoadBalancer) (sid : string) : GlobalRequestLoadBalancer * result (string * handle) :=
  match dict_get (inflight_requests lb) sid with
  | None => (lb, Err KeyError)
  | Some n => (set_inflight (dict_set sid (n + 1)%Z (inflight_requests lb)) lb,
               h ← of_option KeyError (dict_get (servers lb) sid); Ok (sid, h))
  end.

Definition select_server (lb : GlobalRequestLoadBalancer) (request_id : string) :
    GlobalRequestLoadBalancer * result (string * handle) :=
  match min_key (inflight_requests lb) with
  | None => (lb, Err RuntimeError)
  | Some sid =>
      match lru_set (request_id_to_server lb) request_id sid with
      | (c, Err e) => (set_routes c lb, Err e)
      | (c, Ok _) => take_server (set_routes c lb) sid
      end
  end.

Definition acquire_server (lb : GlobalRequestLoadBalancer) (request_id : string) :
    GlobalRequestLoadBalancer * result (string * handle) :=
  match lru_data (request_id_to_server lb) !! request_id with
  | Some sid =>
      let lb := set_routes (lru_touch (request_id_to_server lb) request_id) lb in
      if dict_mem (inflight_requests lb) sid then take_server lb sid
      else select_server (set_routes (lru_del (request_id_to_server lb) request_id) lb) request_id
  | None => select_server lb request_id
  end.

Definition release_server (lb : GlobalRequestLoadBalancer) (sid : string) : GlobalRequestLoadBalancer :=
  match dict_get (inflight_requests lb) sid with
  | None => lb
  | Some n => if (0 <? n)%Z then set_inflight (dict_set sid (n - 1)%Z (inflight_requests lb)) lb else lb
  end.

Definition add_one (lb : GlobalRequestLoadBalancer) (x : string * handle) : GlobalRequestLoadBalancer :=
  {| servers := dict_set x.1 x.2 (servers lb); inflight_requests := dict_set x.1 0%Z (inflight_requests lb);
   request_id_to_server := request_id_to_server lb |}.

Definition add_servers (lb : GlobalRequestLoadBalancer) (ss : dict handle) : GlobalRequestLoadBalancer :=
  foldl add_one lb ss.

Definition remove_one (lb : GlobalRequestLoadBalancer) (sid : string) : GlobalRequestLoadBalancer :=
  {| servers := dict_pop sid (servers lb); inflight_requests := dict_pop sid (inflight_requests lb);
   request_id_to_server := request_id_to_server lb |}.

Definition remove_servers (lb : GlobalRequestLoadBalancer) (ids : list string) : GlobalRequestLoadBalancer :=
  foldl remove_one lb ids.

Definition get_inflight_count (lb : GlobalRequestLoadBalancer) (sid : string) : Z :=
  default 0%Z (dict_get (inflight_requests lb) sid).

Definition get_all_servers (lb : GlobalRequestLoadBalancer) : list string := keys (inflight_requests lb).

Definition total_inflight (lb : GlobalRequestLoadBalancer) : Z := zsum ((inflight_requests lb).*2).

(** ** The invariant *)

Record balancer_ok (lb : GlobalRequestLoadBalancer) : Prop := {
  bo_keys : keys (servers lb) = keys (inflight_requests lb);
  bo_nodup : NoDup (keys (inflight_requests lb));
  bo_count : forall sid n, dict_get (inflight_requests lb) sid = Some n -> (0 <= n)%Z;
}.

Definition registered (lb : GlobalRequestLoadBalancer) (sid : string) : Prop := sid ∈ keys (inflight_requests lb).

#[export] Instance registered_dec lb sid : Decision (registered lb sid).
Proof. unfold registered. apply _. Defined.

(** [sid] is the first of the least loaded servers. *)
Definition least_loaded (lb : GlobalRequestLoadBalancer) (sid : string) : Prop :=
  exists pre n post, inflight_requests lb = pre ++ (sid, n) :: post /\
    Forall (fun x => n < x.2)%Z pre /\ Forall (fun x => n <= x.2)%Z post.

Lemma min_fold (best : string * Z) d :
  exists pre post, best :: d = pre ++ foldl (fun best x => if (x.2 <? best.2)%Z then x else best) best d :: post /\
    let m := foldl (fun best x => if (x.2 <? best.2)%Z then x else best) best d in
    Forall (fun x => m.2 < x.2)%Z pre /\ Forall (fun x => m.2 <= x.2)%Z post.
Proof.
  revert best. induction d as [|x d IH]; intros best; cbn [foldl].
  { exists [], []. split_and!; [done|constructor|constructor]. }
  destruct (Z.ltb_spec x.2 best.2) as [Hlt|Hge].
  - destruct (IH x) as (pre & post & E & H1 & H2). exists (best :: pre), post. rewrite E. split; [done|]. split; [|done].
    constructor; [|done]. assert (Hx : x ∈ pre ++ foldl (fun best x => if (x.2 <? best.2)%Z then x else best) x d :: post)
      by (rewrite <-E; by left).
    apply elem_of_app in Hx as [Hx|Hx]; [|apply elem_of_cons in Hx as [Hx|Hx]].
    + rewrite Forall_forall in H1. specialize (H1 x Hx). lia.
    + by rewrite <-Hx.
    + rewrite Forall_forall in H2. specialize (H2 x Hx). lia.
  - destruct (IH best) as (pre & post & E & H1 & H2). revert E H1 H2. cbn zeta.
    set (m := foldl _ best d). intros E H1 H2. destruct pre as [|y pre].
    + injection E as E1 E2. exists [], (x :: d). cbn [app]. split; [congruence|]. split; [constructor|].
      rewrite <-E1 in *. constructor; [done|]. by rewrite E2.
    + injection E as <- E2. exists (best :: x :: pre), post. cbn [app]. split; [congruence|]. split; [|done].
      apply Forall_cons in H1 as [Hb H1]. constructor; [done|]. constructor; [lia|done].
Qed.

Lemma min_key_ok lb : inflight_requests lb <> [] ->
  exists sid, min_key (inflight_requests lb) = Some sid /\ least_loaded lb sid.
Proof.
  unfold min_key, least_loaded. destruct (inflight_requests lb) as [|[k v] d] eqn:E; [done|]. intros _.
  destruct (min_fold (k, v) d) as (pre & post & E' & H1 & H2). set (m := foldl _ (k, v) d) in *.
  exists m.1. split; [done|]. exists pre, m.2, post. rewrite E'. split; [by destruct m|done].
Qed.

Lemma least_loaded_registered lb sid : least_loaded lb sid -> registered lb sid.
Proof. intros (pre & n & post & E & _). unfold registered, keys. rewrite E, fmap_app. apply elem_of_app. right. by left. Qed.

Lemma take_ok lb sid :
  balancer_ok lb -> registered lb sid ->
  exists h lb', take_server lb sid = (lb', Ok (sid, h)) /\ dict_get (servers lb) sid = Some h /\ balancer_ok lb' /\
    servers lb' = servers lb /\ request_id_to_server lb' = request_id_to_server lb /\
    keys (inflight_requests lb') = keys (inflight_requests lb) /\
    forall x, get_inflight_count lb' x = (get_inflight_count lb x + if decide (x = sid) then 1 else 0)%Z.
Proof.
  intros [K1 K2 K3] Hr. unfold take_server, get_inflight_count.
  destruct (proj2 (dict_get_is_Some (inflight_requests lb) sid) Hr) as [n Hn].
  assert (is_Some (dict_get (servers lb) sid)) as [h Hh] by (apply dict_get_is_Some; by rewrite K1).
  rewrite Hn, Hh. cbn [of_option mbind result_bind]. do 2 eexists. split; [done|]. split; [done|].
  assert (Hk : keys (dict_set sid (n + 1)%Z (inflight_requests lb)) = keys (inflight_requests lb))
    by (rewrite keys_set; by rewrite decide_True).
  split; [|split_and!; [done|done|done|]].
  - split; cbn [servers inflight_requests set_inflight]; [by rewrite Hk|by rewrite Hk|]. intros x m. rewrite dict_get_set. case_decide.
    + intros [= <-]. specialize (K3 sid n Hn). lia.
    + apply K3.
  - intros x. cbn. rewrite dict_get_set. case_decide as Hx; [subst x; rewrite Hn; cbn; lia|lia].
Qed.

Lemma release_ok lb sid :
  balancer_ok lb -> balancer_ok (release_server lb sid) /\ keys (inflight_requests (release_server lb sid)) = keys (inflight_requests lb) /\
  forall x, get_inflight_count (release_server lb sid) x =
    if decide (x = sid) then Z.max 0 (get_inflight_count lb x - 1) else get_inflight_count lb x.
Proof.
  intros Hok. pose proof Hok as [K1 K2 K3]. unfold release_server, get_inflight_count.
  destruct (dict_get (inflight_requests lb) sid) as [n|] eqn:En.
  - specialize (K3 sid n En) as Hn. destruct (Z.ltb_spec 0 n) as [Hpos|Hz].
    + assert (Hk : keys (dict_set sid (n - 1)%Z (inflight_requests lb)) = keys (inflight_requests lb)).
      { rewrite keys_set, decide_True; [done|]. apply dict_get_is_Some. by eexists. }
      split; [|split; [done|]].
      * split; cbn [servers inflight_requests set_inflight]; [by rewrite Hk|by rewrite Hk|]. intros x m. rewrite dict_get_set. case_decide; [intros [= <-]; lia|apply K3].
      * intros x. cbn. rewrite dict_get_set. case_decide as Hx; [subst x; rewrite En; cbn; lia|done].
    + split; [done|]. split; [done|]. intros x. case_decide as Hx; [subst x; rewrite En; cbn; lia|done].
  - split; [done|]. split; [done|]. intros x. case_decide as Hx; [subst x; rewrite En; cbn; lia|done].
Qed.

Lemma add_one_ok lb x :
  balancer_ok lb -> balancer_ok (add_one lb x) /\
  (forall y, get_inflight_count (add_one lb x) y = if decide (y = x.1) then 0%Z else get_inflight_count lb y) /\
  (forall y, registered (add_one lb x) y <-> registered lb y \/ y = x.1).
Proof.
  intros [K1 K2 K3]. unfold add_one, registered, get_inflight_count. cbn [servers inflight_requests]. split; [|split].
  - split; cbn [servers inflight_requests].
    + by rewrite !keys_set, K1.
    + by apply keys_set_nodup.
    + intros sid n. rewrite dict_get_set. case_decide; [by intros [= <-]|apply K3].
  - intros y. rewrite dict_get_set. by case_decide.
  - intros y. rewrite keys_set. case_decide as E; [split; [by left|by intros [| ->]]|].
    by rewrite elem_of_app, list_elem_of_singleton.
Qed.

Lemma remove_one_ok lb sid :
  balancer_ok lb -> balancer_ok (remove_one lb sid) /\
  (forall y, get_inflight_count (remove_one lb sid) y = if decide (y = sid) then 0%Z else get_inflight_count lb y) /\
  (forall y, registered (remove_one lb sid) y <-> registered lb y /\ y <> sid).
Proof.
  intros [K1 K2 K3]. unfold remove_one, registered, get_inflight_count. cbn [servers inflight_requests]. split; [|split].
  - split; cbn [servers inflight_requests].
    + by rewrite !keys_pop, K1.
    + rewrite keys_pop. by apply NoDup_filter.
    + intros x n. rewrite dict_get_pop. case_decide; [done|apply K3].
  - intros y. rewrite dict_get_pop. by case_decide.
  - intros y. rewrite keys_pop, list_elem_of_filter. tauto.
Qed.

Lemma add_servers_ok lb ss :
  balancer_ok lb -> balancer_ok (add_servers lb ss) /\
  (forall y, get_inflight_count (add_servers lb ss) y = if decide (y ∈ keys ss) then 0%Z else get_inflight_count lb y) /\
  (forall y, registered (add_servers lb ss) y <-> registered lb y \/ y ∈ keys ss).
Proof.
  unfold add_servers. revert lb. induction ss as [|x ss IH]; intros lb Hok; cbn [foldl].
  { split; [done|]. split; intros y; cbn; [done|]. split; [by left|]. by intros [|?%elem_of_nil]. }
  destruct (add_one_ok lb x Hok) as (A1 & A2 & A3). destruct (IH _ A1) as (B1 & B2 & B3).
  split; [done|]. split; intros y.
  - rewrite B2, A2. unfold keys. cbn. destruct (decide (y ∈ ss.*1)).
    + rewrite decide_True; [done|by right].
    + destruct (decide (y = x.1)) as [->|]; [rewrite decide_True; [done|by left]|].
      rewrite decide_False; [done|]. by intros [|]%elem_of_cons.
  - rewrite B3, A3. unfold keys. cbn. rewrite elem_of_cons. tauto.
Qed.

Lemma remove_servers_ok lb ids :
  balancer_ok lb -> balancer_ok (remove_servers lb ids) /\
  (forall y, get_inflight_count (remove_servers lb ids) y = if decide (y ∈ ids) then 0%Z else get_inflight_count lb y) /\
  (forall y, registered (remove_servers lb ids) y <-> registered lb y /\ y ∉ ids).
Proof.
  unfold remove_servers. revert lb. induction ids as [|x ids IH]; intros lb Hok; cbn [foldl].
  { split; [done|]. split; intros y; [done|]. split; [intros Hy; split; [done|by intros ?%elem_of_nil]|by intros []]. }
  destruct (remove_one_ok lb x Hok) as (A1 & A2 & A3). destruct (IH _ A1) as (B1 & B2 & B3).
  split; [done|]. split; intros y.
  - rewrite B2, A2. destruct (decide (y ∈ ids)).
    + rewrite decide_True; [done|by right].
    + destruct (decide (y = x)) as [->|]; [rewrite decide_True; [done|by left]|].
      rewrite decide_False; [done|]. by intros [|]%elem_of_cons.
  - rewrite B3, A3, elem_of_cons. tauto.
Qed.
(** ** Acquiring a server *)

Context `{!BaseLRULaws string}.
(** The routing cache has room for an entry. *)
Context (accepts : forall (c : lru string) k v, (lru_set c k v).2 = Ok tt).

Record acquired (lb lb' : GlobalRequestLoadBalancer) (rid sid : string) (h : handle) : Prop := {
  aq_ok : balancer_ok lb';
  aq_registered : registered lb sid;
  aq_handle : dict_get (servers lb) sid = Some h /\ servers lb' = servers lb;
  aq_keys : keys (inflight_requests lb') = keys (inflight_requests lb);
  aq_count : forall x, get_inflight_count lb' x = (get_inflight_count lb x + if decide (x = sid) then 1 else 0)%Z;
  aq_route : lru_data (request_id_to_server lb') !! rid = Some sid;
  aq_choice : match lru_data (request_id_to_server lb) !! rid with
              | Some s => if decide (registered lb s) then sid = s else least_loaded lb sid
              | None => least_loaded lb sid
              end;
}.

Lemma select_ok lb rid :
  balancer_ok lb -> inflight_requests lb <> [] ->
  exists sid h lb', select_server lb rid = (lb', Ok (sid, h)) /\ least_loaded lb sid /\
    dict_get (servers lb) sid = Some h /\ balancer_ok lb' /\ servers lb' = servers lb /\
    keys (inflight_requests lb') = keys (inflight_requests lb) /\
    (forall x, get_inflight_count lb' x = (get_inflight_count lb x + if decide (x = sid) then 1 else 0)%Z) /\
    lru_data (request_id_to_server lb') !! rid = Some sid.
Proof using All.
  intros Hok Hne. unfold select_server. destruct (min_key_ok lb Hne) as (sid & -> & Hl).
  pose proof (accepts (request_id_to_server lb) rid sid) as Ha.
  destruct (lru_set (request_id_to_server lb) rid sid) as [c r] eqn:Es. cbn in Ha. subst r.
  destruct (set_data _ _ _ _ Es) as [Hc _].
  destruct (take_ok (set_routes c lb) sid) as (h & lb' & Ht & T1 & T2 & T3 & T4 & T5 & T6).
  - by destruct Hok.
  - by apply least_loaded_registered.
  - exists sid, h, lb'. split_and!; try done. by rewrite T4.
Qed.

Lemma acquire_ok lb rid :
  balancer_ok lb -> inflight_requests lb <> [] ->
  exists sid h lb', acquire_server lb rid = (lb', Ok (sid, h)) /\ acquired lb lb' rid sid h.
Proof using All.
  intros Hok Hne. unfold acquire_server. destruct (lru_data (request_id_to_server lb) !! rid) as [s|] eqn:Er.
  - set (lb1 := set_routes (lru_touch (request_id_to_server lb) rid) lb). unfold dict_mem. case_bool_decide as Hs.
    + destruct (take_ok lb1 s) as (h & lb' & Ht & T1 & T2 & T3 & T4 & T5 & T6); [by destruct Hok|done|].
      exists s, h, lb'. split; [done|]. split; try done.
      * rewrite T4. cbn. by rewrite touch_data.
      * rewrite Er. by rewrite decide_True.
    + destruct (select_ok (set_routes (lru_del (request_id_to_server lb1) rid) lb1) rid)
        as (sid & h & lb' & Hr & S1 & S2 & S3 & S4 & S5 & S6 & S7); [by destruct Hok|done|].
      exists sid, h, lb'. split; [done|]. split; try done; [by apply least_loaded_registered|]. rewrite Er. by rewrite decide_False.
  - destruct (select_ok lb rid Hok Hne) as (sid & h & lb' & Hr & S1 & S2 & S3 & S4 & S5 & S6 & S7).
    exists sid, h, lb'. split; [done|]. split; try done; [by apply least_loaded_registered|]. by rewrite Er.
Qed.

(** ** Leases *)

Inductive lb_event :=
  | Acquire (rid : string)
  | Release (sid : string)
  | AddServers (ss : dict handle)
  | RemoveServers (ids : list string).

Fixpoint remove_one_lease (sid : string) (l : list string) : list string :=
  match l with
  | [] => []
  | x :: l => if decide (x = sid) then l else x :: remove_one_lease sid l
  end.

(** One call, and the leases: the servers of the requests in flight. *)
Definition lb_step (st : GlobalRequestLoadBalancer * list string) (ev : lb_event) : GlobalRequestLoadBalancer * list string :=
  let '(lb, leases) := st in
  match ev with
  | Acquire rid => match acquire_server lb rid with
                   | (lb, Ok (sid, _)) => (lb, sid :: leases)
                   | (lb, Err _) => (lb, leases)
                   end
  | Release sid => (release_server lb sid, remove_one_lease sid leases)
  | AddServers ss => (add_servers lb ss, leases)
  | RemoveServers ids => (remove_servers lb ids, leases)
  end.

Definition lease_count (leases : list string) (sid : string) : Z := Z.of_nat (length (filter (fun x => x = sid) leases)).

(** Clients release what they acquired, once. *)
Fixpoint clients_ok (st : GlobalRequestLoadBalancer * list string) (evs : list lb_event) : Prop :=
  match evs with
  | [] => True
  | ev :: evs => match ev with Release sid => sid ∈ st.2 | _ => True end /\ clients_ok (lb_step st ev) evs
  end.

(** Servers are only added under ids that no request in flight uses. *)
Fixpoint adds_fresh (st : GlobalRequestLoadBalancer * list string) (evs : list lb_event) : Prop :=
  match evs with
  | [] => True
  | ev :: evs => match ev with AddServers ss => Forall (fun k => k ∉ st.2) (keys ss) | _ => True end /\ adds_fresh (lb_step st ev) evs
  end.

Lemma lease_count_cons x leases sid :
  lease_count (x :: leases) sid = ((if decide (sid = x) then 1 else 0) + lease_count leases sid)%Z.
Proof.
  unfold lease_count. rewrite filter_cons. destruct (decide (x = sid)) as [->|Hne].
  - rewrite decide_True by done. cbn. lia.
  - by rewrite decide_False by congruence.
Qed.

Lemma lease_count_remove leases sid x :
  sid ∈ leases -> lease_count (remove_one_lease sid leases) x = (lease_count leases x - if decide (x = sid) then 1 else 0)%Z.
Proof.
  induction leases as [|y l IH]; intros Hin; [by apply elem_of_nil in Hin|]. cbn [remove_one_lease].
  destruct (decide (y = sid)) as [->|Hne].
  - rewrite lease_count_cons. case_decide; lia.
  - apply elem_of_cons in Hin as [->|Hin]; [done|]. rewrite !lease_count_cons, IH by done. lia.
Qed.

Lemma lease_count_pos leases sid : sid ∈ leases <-> (0 < lease_count leases sid)%Z.
Proof.
  induction leases as [|y l IH]; [split; [by intros ?%elem_of_nil|by cbn]|].
  assert (0 <= lease_count l sid)%Z by (unfold lease_count; lia).
  rewrite lease_count_cons, elem_of_cons, IH. case_decide; split; intros Hs; first [lia|by left|destruct Hs; [done|lia]].
Qed.

Lemma acquire_fails lb rid :
  inflight_requests lb = [] -> exists lb', acquire_server lb rid = (lb', Err RuntimeError) /\ servers lb' = servers lb /\ inflight_requests lb' = [].
Proof.
  intros Hnil. unfold acquire_server, select_server. destruct (lru_data _ !! rid) as [s|]; cbn; rewrite ?Hnil; [|by exists lb].
  cbn. by eexists.
Qed.

(** [exact]: counts equal leases; otherwise they only do not exceed them. *)
Definition counted (exact : bool) (st : GlobalRequestLoadBalancer * list string) : Prop :=
  balancer_ok st.1 /\ forall sid, registered st.1 sid ->
    if exact then get_inflight_count st.1 sid = lease_count st.2 sid
    else (get_inflight_count st.1 sid <= lease_count st.2 sid)%Z.

Lemma lb_step_counted exact st ev :
  counted exact st -> match ev with Release sid => sid ∈ st.2 | _ => True end ->
  (exact = true -> match ev with AddServers ss => Forall (fun k => k ∉ st.2) (keys ss) | _ => True end) ->
  counted exact (lb_step st ev).
Proof using All.
  destruct st as [lb leases]. intros [Hok Hc] Hrel Hadd. cbn [fst snd] in *.
  assert (Hpos : forall l sid, (0 <= lease_count l sid)%Z) by (intros; unfold lease_count; lia).
  destruct ev as [rid|sid|ss|ids]; cbn [lb_step].
  - destruct (decide (inflight_requests lb = [])) as [Hnil|Hne].
    + destruct (acquire_fails lb rid Hnil) as (lb' & -> & H1 & H2). destruct Hok as [K1 K2 K3]. rewrite Hnil in *.
      split; cbn [fst snd].
      * split; rewrite ?H1, ?H2; done.
      * intros sid Hs. unfold registered in Hs. rewrite H2 in Hs. by apply elem_of_nil in Hs.
    + destruct (acquire_ok lb rid Hok Hne) as (sid & h & lb' & -> & [A1 A2 [A3 A4] A5 A6 A7 A8]). split; [done|]. cbn [fst snd].
      intros x Hx. rewrite A6, lease_count_cons. unfold registered in Hx. rewrite A5 in Hx. specialize (Hc x Hx). destruct exact; lia.
  - destruct (release_ok lb sid Hok) as (R1 & R2 & R3). split; [done|]. cbn [fst snd]. intros x Hx.
    unfold registered in Hx. rewrite R2 in Hx. specialize (Hc x Hx). rewrite R3, (lease_count_remove leases sid x Hrel).
    apply lease_count_pos in Hrel. pose proof (Hpos leases x). case_decide as E; [subst x|]; destruct exact; lia.
  - destruct (add_servers_ok lb ss Hok) as (A1 & A2 & A3). split; [done|]. cbn [fst snd]. intros x Hx. rewrite A2.
    apply A3 in Hx. case_decide as Hin.
    + destruct exact; [|apply Hpos]. specialize (Hadd eq_refl). rewrite Forall_forall in Hadd. specialize (Hadd x Hin).
      rewrite lease_count_pos in Hadd. specialize (Hpos leases x). lia.
    + destruct Hx as [Hx|Hx]; [|done]. by apply Hc.
  - destruct (remove_servers_ok lb ids Hok) as (A1 & A2 & A3). split; [done|]. cbn [fst snd]. intros x Hx. rewrite A2.
    apply A3 in Hx as [Hx Hn]. rewrite decide_False by done. by apply Hc.
Qed.

Lemma lb_run_counted exact st evs :
  counted exact st -> clients_ok st evs -> (exact = true -> adds_fresh st evs) -> counted exact (foldl lb_step st evs).
Proof using All.
  revert st. induction evs as [|ev evs IH]; intros st Hc; cbn; [done|]. intros [Hr Hcl] Ha.
  apply IH; [|done|intros E; by apply Ha]. apply lb_step_counted; [done|done|]. intros E. by apply Ha.
Qed.

Lemma balancer_init_ok empty ss :
  NoDup (keys ss) -> ss <> [] ->
  exists lb, balancer_init empty ss = Ok lb /\ counted true (lb, []) /\ keys (inflight_requests lb) = keys ss.
Proof.
  intros Hnd Hne. unfold balancer_init. destruct ss as [|x ss0] eqn:Es; [done|]. rewrite <-Es in *. eexists. split; [done|].
  assert (Hk : keys (prod_map id (fun _ => 0%Z) <$> ss) = keys ss).
  { unfold keys. rewrite <-list_fmap_compose. apply list_fmap_ext. by intros _ [k v] _. }
  assert (Hz : forall sid n, dict_get (prod_map id (fun _ : handle => 0%Z) <$> ss) sid = Some n -> n = 0%Z).
  { intros sid n Hg%dict_get_some. apply list_elem_of_fmap in Hg as ([k v] & [= -> ->] & _). done. }
  split; [|done]. split.
  - split; cbn [fst servers inflight_requests]; [done|by rewrite Hk|]. intros sid n Hg. apply Hz in Hg. lia.
  - cbn [fst snd]. intros sid Hs. unfold get_inflight_count. cbn [inflight_requests].
    destruct (dict_get _ sid) as [n|] eqn:E; [|done]. apply Hz in E as ->. done.
Qed.

End Balancer.

(** ** Properties *)

(** C25: [acquire_server] raises nothing while a server is registered.  It answers
    a registered server with its handle: the one that served the request id
    before if the routing cache still knows it and it is still registered, and
    the first of those with the fewest requests in flight otherwise.  The server's
    count grows by one, no other changes, the id is routed to it from now on, and
    the balancer stays consistent. *)
Theorem acquire_server_correct {handle} `{BaseLRU string} `{!BaseLRULaws string} (lb : GlobalRequestLoadBalancer (handle := handle)) rid :
  (forall (c : lru string) k v, (lru_set c k v).2 = Ok tt) -> balancer_ok lb -> inflight_requests lb <> [] ->
  exists sid h lb', acquire_server lb rid = (lb', Ok (sid, h)) /\ dict_get (servers lb) sid = Some h /\
    match lru_data (request_id_to_server lb) !! rid with
    | Some s => if decide (registered lb s) then sid = s else least_loaded lb sid
    | None => least_loaded lb sid
    end /\
    (forall x, get_inflight_count lb' x = (get_inflight_count lb x + if decide (x = sid) then 1 else 0)%Z) /\
    lru_data (request_id_to_server lb') !! rid = Some sid /\ servers lb' = servers lb /\ balancer_ok lb'.
Proof.
  intros Ha Hok Hne. destruct (acquire_ok Ha lb rid Hok Hne) as (sid & h & lb' & Hr & [A1 A2 [A3 A4] A5 A6 A7 A8]).
  exists sid, h, lb'. done.
Qed.

Ltac by_compute := cbv beta iota; refine (bool_decide_unpack _ _); vm_compute; exact I.
Ltac run_events := repeat (split; [first [exact I|by_compute]|]); exact I.

(** Two servers; "r" was on "b", which is busier. *)
Notation demo_routes := (Sized.sized_lru (V := string) (fun _ => 1) 10).

Definition demo_balancer : GlobalRequestLoadBalancer (handle := nat) (H := demo_routes) :=
  {| servers := [("a", 1); ("b", 2)]; inflight_requests := [("a", 3%Z); ("b", 5%Z)];
     request_id_to_server := [("r", "b")] : lru string (BaseLRU := demo_routes) |}.

Lemma demo_balancer_ok : balancer_ok demo_balancer.
Proof.
  split; cbn; [done|repeat constructor; set_solver|]. intros sid n. repeat case_decide; by intros [= <-].
Qed.

Lemma acquire_server_correct_witness :
  exists lb1 lb2, acquire_server demo_balancer "r" = (lb1, Ok ("b", 2)) /\ get_inflight_count lb1 "b" = 6%Z /\
    acquire_server demo_balancer "s" = (lb2, Ok ("a", 1)) /\ get_inflight_count lb2 "a" = 4%Z.
Proof.
  assert (exists lb1, acquire_server demo_balancer "r" = (lb1, Ok ("b", 2))) as [lb1 R1] by (eexists; reflexivity).
  assert (exists lb2, acquire_server demo_balancer "s" = (lb2, Ok ("a", 1))) as [lb2 R2] by (eexists; reflexivity).
  exists lb1, lb2. split; [exact R1|]. split; [|split; [exact R2|]].
  - destruct (acquire_server_correct (H := demo_routes) (BaseLRULaws0 := Sized.sized_laws _ 10) demo_balancer "r"
      ltac:(reflexivity) demo_balancer_ok ltac:(discriminate)) as (s1 & h1 & lb & E1 & _ & _ & C1 & _).
    rewrite R1 in E1. injection E1 as <- <- <-. rewrite (C1 "b"). reflexivity.
  - destruct (acquire_server_correct (H := demo_routes) (BaseLRULaws0 := Sized.sized_laws _ 10) demo_balancer "s"
      ltac:(reflexivity) demo_balancer_ok ltac:(discriminate)) as (s1 & h1 & lb & E1 & _ & _ & C1 & _).
    rewrite R2 in E1. injection E1 as <- <- <-. rewrite (C1 "a"). reflexivity.
Defined.

(** C30: The counts are the requests in flight.  Start with distinct servers and
    let clients acquire and release as they do, while servers are added and
    removed: a registered server's count never exceeds its requests in flight, and
    equals them as long as servers are only added under ids that no request in
    flight uses. *)
Theorem inflight_counts_leases {handle} `{BaseLRU string} `{!BaseLRULaws string} empty (ss : dict handle) lb evs :
  (forall (c : lru string) k v, (lru_set c k v).2 = Ok tt) -> NoDup (keys ss) -> balancer_init empty ss = Ok lb ->
  clients_ok (lb, []) evs ->
  let st := foldl lb_step (lb, []) evs in
  forall sid, registered st.1 sid ->
    (0 <= get_inflight_count st.1 sid <= lease_count st.2 sid)%Z /\
    (adds_fresh (lb, []) evs -> get_inflight_count st.1 sid = lease_count st.2 sid).
Proof.
  intros Ha Hnd Hi Hcl st sid Hs.
  assert (Hne : ss <> []) by (by destruct ss). destruct (balancer_init_ok empty ss Hnd Hne) as (lb' & Hi' & Hc & _).
  rewrite Hi in Hi'. injection Hi' as <-.
  assert (Hle : counted false (lb, [])) by (destruct Hc as [H1 H2]; split; [done|]; intros x Hx; rewrite (H2 x Hx); done).
  pose proof (lb_run_counted Ha false _ evs Hle Hcl ltac:(done)) as [H1 H2]. split.
  - split; [|by apply H2]. unfold get_inflight_count. destruct (dict_get _ sid) as [n|] eqn:E; [|done].
    by apply (bo_count _ H1 sid).
  - intros Hf. by apply (lb_run_counted Ha true _ evs Hc Hcl (fun _ => Hf)).
Qed.

(** Two requests, one of them finished, and a server more. *)
Lemma inflight_counts_leases_witness :
  exists lb, balancer_init (H := demo_routes) [] [("a", 1); ("b", 2)] = Ok lb /\
    let evs := [Acquire "r"; Acquire "s"; AddServers [("c", 3)]; Acquire "t"; Release "b"] in
    let st := foldl lb_step (lb, []) evs in
    st.2 = ["c"; "a"] /\ get_inflight_count st.1 "a" = lease_count st.2 "a".
Proof.
  eexists. split; [reflexivity|]. cbn zeta. split; [reflexivity|].
  refine (proj2 (inflight_counts_leases (H := demo_routes) (BaseLRULaws0 := Sized.sized_laws _ 10) [] [("a", 1); ("b", 2)] _ _ _ _ _ _ "a" _) _).
  - reflexivity.
  - repeat constructor; set_solver.
  - reflexivity.
  - run_events.
  - by_compute.
  - run_events.
Defined.

(** Registering a server again forgets its requests: [add_servers] with an id
    that is in use sets its count to zero, so that the server, still busy with two
    requests, is the next to be chosen; a stale release is then ignored. *)
Theorem readding_resets_count :
  exists lb, balancer_init (H := demo_routes) [] [("a", 1)] = Ok lb /\
    let st := foldl lb_step (lb, []) [Acquire "r"; Acquire "s"; AddServers [("a", 1)]; Release "a"] in
    clients_ok (lb, []) [Acquire "r"; Acquire "s"; AddServers [("a", 1)]; Release "a"] /\
    get_inflight_count st.1 "a" = 0%Z /\ lease_count st.2 "a" = 1%Z.
Proof.
  eexists. split; [reflexivity|]. cbn zeta. split; [|split; reflexivity]. run_events.
Qed.
