(* ===== verification/Protocol.v ===== *)
(** * The batch protocol

    [DataProto] of [verl/protocol.py]: a batch of rows, part tensors and part
    numpy arrays, with a dict of meta information; how it is checked, cut,
    selected, repeated, padded, chunked and concatenated.  The tensor library, numpy
    and the equality of Python objects are classes with their documented
    behaviour along the first dimension. *)

From S2P Require Import Prelude PyDict.

(** ** Arrays *)

Class ArrayOps (T : Type) := {
  elem : Type;
  rows : T -> list elem;                 (* along the first dimension *)
  same_kind : T -> T -> Prop;            (* the same columns, trailing shape and dtype *)
  a_slice : T -> nat -> nat -> T;        (* [t[i:j]] *)
  a_take : T -> list nat -> result T;    (* [t[idxs]] *)
  a_cat : list T -> result T;
  a_repeat : T -> nat -> T;              (* [repeat_interleave], [np.repeat] *)
  a_tile : T -> nat -> T;                (* [expand] and [reshape], [np.tile] *)
}.
Arguments elem T {_}.

Class ArrayLaws (T : Type) `{ArrayOps T} : Prop := {
  kind_equiv :: Equivalence (same_kind (T := T));
  slice_rows : forall (t : T) i j, rows (a_slice t i j) = take (j - i) (drop i (rows t)) /\ same_kind t (a_slice t i j);
  take_rows : forall (t : T) idxs, Forall (fun i => i < length (rows t)) idxs ->
    exists u, a_take t idxs = Ok u /\ same_kind t u /\ Forall2 (fun i x => rows t !! i = Some x) idxs (rows u);
  cat_rows : forall (t : T) l, t ∈ l -> (forall u, u ∈ l -> same_kind t u) ->
    exists u, a_cat l = Ok u /\ same_kind t u /\ rows u = concat (rows <$> l);
  repeat_rows : forall (t : T) n, rows (a_repeat t n) = concat (replicate n <$> rows t) /\ same_kind t (a_repeat t n);
  tile_rows : forall (t : T) n, rows (a_tile t n) = concat (replicate n (rows t)) /\ same_kind t (a_tile t n);
  array_ext : forall t u : T, same_kind t u -> rows t = rows u -> t = u;
}.

(** Consecutive pieces of [c] rows; the last one may be shorter. *)
Definition chop {A} (c : nat) (l : list A) : list (list A) :=
  (fun i => take c (drop (i * c) l)) <$> seq 0 ((length l + c - 1) / c).

(** The pieces between consecutive positions. *)
Fixpoint cut_at {A} (from : nat) (ps : list nat) (l : list A) : list (list A) :=
  match ps with
  | [] => [drop from l]
  | p :: ps => take (p - from) (drop from l) :: cut_at p ps l
  end.

(** [TensorDict.chunk]: pieces of the same size rounded up, possibly fewer. *)
Class TensorOps (T : Type) `{ArrayOps T} := { t_chunk : T -> nat -> result (list T) }.
Class TensorLaws (T : Type) `{TensorOps T} : Prop := {
  chunk_rows : forall (t : T) n, 0 < n -> 0 < length (rows t) ->
    exists us, t_chunk t n = Ok us /\ rows <$> us = chop ((length (rows t) + n - 1) / n) (rows t) /\ Forall (same_kind t) us;
}.

(** [np.array_split] with positions, and with a number of pieces, of which the
    first ones are longer by one. *)
Class NumpyOps (N : Type) `{ArrayOps N} := {
  n_split_at : N -> list nat -> list N;
  n_split : N -> nat -> result (list N);
}.
Definition split_positions (len n : nat) : list nat :=
  (fun i => i * (len / n) + Nat.min i (len mod n)) <$> seq 1 (n - 1).
Class NumpyLaws (N : Type) `{NumpyOps N} : Prop := {
  split_at_rows : forall (t : N) ps, rows <$> n_split_at t ps = cut_at 0 ps (rows t) /\ Forall (same_kind t) (n_split_at t ps);
  split_rows : forall (t : N) n, 0 < n ->
    exists us, n_split t n = Ok us /\ rows <$> us = cut_at 0 (split_positions (length (rows t)) n) (rows t) /\ Forall (same_kind t) us;
}.

(** Python objects, as far as [meta_info] looks at them.  [py_eq x y] is the truth of
    [x == y]: nothing is assumed of it, since a NaN differs from itself and the
    comparison of arrays has no single truth value and raises. *)
Class PyObj (O : Type) := {
  py_eq : O -> O -> result bool;
  truthy : O -> bool;
  is_none : O -> bool;
  as_list : O -> option (list O);
  as_dict : O -> option (dict O);
  of_dict_of_lists : dict (list O) -> O;
}.

(** ** Dicts of lists *)

(** [output[key].append(item)] after the assertion. *)
Fixpoint append_at {A} (k : string) (x : A) (out : dict (list A)) : result (dict (list A)) :=
  match out with
  | [] => Err AssertionError
  | (k', l) :: out => if decide (k' = k) then Ok ((k', l ++ [x]) :: out) else out ← append_at k x out; Ok ((k', l) :: out)
  end.

Definition list_of_dict_to_dict_of_list {A} (list_of_dict : list (dict A)) : result (dict (list A)) :=
  match list_of_dict with
  | [] => Ok []
  | d0 :: _ => foldM (fun out d => foldM (fun out '(k, x) => append_at k x out) out d)
                 (prod_map id (fun _ => []) <$> d0) list_of_dict
  end.

Definition metrics_key : string := "metrics".
Definition auto_padding_key : string := "_verl_auto_padding".

Section Proto.
Context {T N O : Type} `{!ArrayOps T} `{!ArrayOps N} `{!TensorOps T} `{!NumpyOps N} `{!PyObj O}.

Record DataProto := {
  batch : option T;
  non_tensor_batch : dict N;
  meta_info : gmap string O;
}.

Definition proto_len (d : DataProto) : nat :=
  match batch d with
  | Some b => length (rows b)
  | None => match non_tensor_batch d with (_, v) :: _ => length (rows v) | [] => 0 end
  end.

Definition check_consistency (d : DataProto) : result unit :=
  match batch d with
  | Some b => py_assert (forallb (fun x => length (rows x.2) =? length (rows b)) (non_tensor_batch d))
  | None => Ok tt
  end.

(** The constructor with [__post_init__]. *)
Definition data_proto (b : option T) (nt : dict N) (meta : gmap string O) : result DataProto :=
  let d := {| batch := b; non_tensor_batch := nt; meta_info := meta |} in
  _ ← check_consistency d; Ok d.

(** ** Rows *)

Definition bound (n : nat) (o : option Z) (dflt : nat) : nat := match o with Some i => py_bound n i | None => dflt end.

Definition slice_array {A} `{ArrayOps A} (start stop : option Z) (t : A) : A :=
  let n := length (rows t) in a_slice t (bound n start 0) (bound n stop n).

(** [d[start:stop]] *)
Definition proto_slice (d : DataProto) (start stop : option Z) : result DataProto :=
  data_proto (slice_array start stop <$> batch d) (prod_map id (slice_array start stop) <$> non_tensor_batch d) (meta_info d).

(** A call on the tensors, if there are any. *)
Definition map_batch (f : T -> result T) (b : option T) : result (option T) :=
  match b with None => Ok None | Some t => u ← f t; Ok (Some u) end.

Definition map_arrays (f : N -> result N) (nt : dict N) : result (dict N) :=
  mapM_ok (fun '(k, v) => u ← f v; Ok (k, u)) nt.

Definition select_idxs (d : DataProto) (idxs : list nat) : result DataProto :=
  b ← map_batch (fun t => a_take t idxs) (batch d);
  nt ← map_arrays (fun v => a_take v idxs) (non_tensor_batch d);
  data_proto b nt (meta_info d).

Definition repeat (d : DataProto) (repeat_times : nat) (interleave : bool) : result DataProto :=
  data_proto ((fun t => if interleave then a_repeat t repeat_times else a_tile t repeat_times) <$> batch d)
    (prod_map id (fun v => if interleave then a_repeat v repeat_times else a_tile v repeat_times) <$> non_tensor_batch d)
    (meta_info d).

(** [self.batch[indices]] fails without tensors. *)
Definition reorder (d : DataProto) (indices : list nat) : result DataProto :=
  t ← of_option TypeError (batch d);
  b ← a_take t indices;
  nt ← map_arrays (fun v => a_take v indices) (non_tensor_batch d);
  Ok {| batch := Some b; non_tensor_batch := nt; meta_info := meta_info d |}.

(** [range(0, len(self), split_size)] *)
Definition proto_split (d : DataProto) (split_size : nat) : result (list DataProto) :=
  if split_size =? 0 then Err ValueError
  else mapM_ok (fun i => proto_slice d (Some (Z.of_nat (i * split_size))) (Some (Z.of_nat (i * split_size + split_size))))
       (seq 0 ((proto_len d + split_size - 1) / split_size)).

(** ** Concatenation *)

Definition merge_entry (acc : gmap string O) (e : string * O) : result (gmap string O) :=
  let '(k, v) := e in
  if decide (k = metrics_key) then Ok acc
  else match acc !! k with
       | Some v' => same ← py_eq v' v; _ ← py_assert same; Ok acc
       | None => Ok (<[k := v]> acc)
       end.

Definition merge_meta (acc : gmap string O) (m : gmap string O) : result (gmap string O) :=
  foldM merge_entry acc (map_to_list m).

Definition metrics_of (d : DataProto) : list O :=
  match meta_info d !! metrics_key with
  | None => []
  | Some v => if is_none v then [] else match as_list v with Some l => l | None => [v] end
  end.

Definition merge_infos (data : list DataProto) : result (gmap string O) :=
  merged ← foldM (fun acc d => merge_meta acc (meta_info d)) ∅ data;
  match concat (metrics_of <$> data) with
  | [] => Ok merged
  | ms => ds ← mapM_ok (fun o => of_option TypeError (as_dict o)) ms;
          lists ← list_of_dict_to_dict_of_list ds;
          Ok (<[metrics_key := of_dict_of_lists lists]> merged)
  end.

(** [torch.cat] when the first one has tensors. *)
Definition cat_batches (data : list DataProto) : result (option T) :=
  match data with
  | [] => Err IndexError
  | d :: _ => match batch d with
              | None => Ok None
              | Some _ => bs ← mapM_ok (fun d => of_option TypeError (batch d)) data; b ← a_cat bs; Ok (Some b)
              end
  end.

Definition proto_concat (data : list DataProto) : result DataProto :=
  new_batch ← cat_batches data;
  lists ← list_of_dict_to_dict_of_list (non_tensor_batch <$> data);
  nt ← mapM_ok (fun '(k, l) => v ← a_cat l; Ok (k, v)) lists;
  meta ← merge_infos data;
  data_proto new_batch nt meta.

(** ** Padding *)

(** [auto_padding]: the switch of the environment and of [DataProtoConfig]. *)
Definition is_padding_enabled (auto_padding : bool) (d : DataProto) : bool :=
  match meta_info d !! auto_padding_key with Some v => truthy v | None => false end || auto_padding.

Definition no_arrays (d : DataProto) : bool := match batch d, non_tensor_batch d with None, [] => true | _, _ => false end.

(** [padding] overwrites the object's arrays. *)
Definition padding (d : DataProto) (padding_size : nat) (first : bool) : result DataProto :=
  if padding_size =? 0 then Ok d
  else
  _ ← (if first || (0 <? proto_len d) || no_arrays d then Ok tt else Err IndexError);
  cand ← select_idxs d [if first then 0 else proto_len d - 1];
  part ← repeat cand padding_size true;
  padded ← proto_concat [d; part];
  Ok {| batch := batch padded; non_tensor_batch := non_tensor_batch padded; meta_info := meta_info d |}.

(** The [while] loop of [pad_dataproto_to_divisor]. *)
Fixpoint padding_protos (fuel : nat) (d : DataProto) (remaining : nat) : option (result (list DataProto)) :=
  if 0 <? remaining then
  match fuel with
  | 0 => None
  | S fuel =>
      let take_size := Nat.min remaining (proto_len d) in
      match proto_slice d None (Some (Z.of_nat take_size)) with
      | Err e => Some (Err e)
      | Ok p => match padding_protos fuel d (remaining - take_size) with
                | Some (Ok ps) => Some (Ok (p :: ps))
                | r => r
                end
      end
  end
  else Some (Ok []).

Definition pad_dataproto_to_divisor (d : DataProto) (size_divisor : nat) : option (result (DataProto * nat)) :=
  if size_divisor =? 0 then Some (Err ZeroDivisionError)
  else if proto_len d mod size_divisor =? 0 then Some (Ok (d, 0))
  else
  let pad_size := size_divisor - proto_len d mod size_divisor in
  match padding_protos pad_size d pad_size with
  | Some (Ok ps) => Some (padded ← proto_concat (d :: ps); Ok (padded, pad_size))
  | Some (Err e) => Some (Err e)
  | None => None
  end.

Definition unpad_dataproto (d : DataProto) (pad_size : nat) : result DataProto :=
  if pad_size =? 0 then Ok d else proto_slice d None (Some (- Z.of_nat pad_size)%Z).

(** ** Chunks *)

(** [np.cumsum(sizes)[:-1]] *)
Fixpoint cumsum_init (from : nat) (sizes : list nat) : list nat :=
  match sizes with
  | [] => []
  | [_] => []
  | n :: sizes => from + n :: cumsum_init (from + n) sizes
  end.

(** Per key the pieces; one assertion per key. *)
Definition array_chunks (d : DataProto) (positions : option (list nat)) (chunks : nat) : result (dict (list N)) :=
  mapM_ok (fun '(k, v) =>
  l ← match positions with Some ps => Ok (n_split_at v ps) | None => n_split v chunks end;
  _ ← py_assert (length l =? chunks); Ok (k, l)) (non_tensor_batch d).

Definition nth_chunk (d : DataProto) (bs : option (list T)) (nts : dict (list N)) (i : nat) : result DataProto :=
  b ← match bs with None => Ok None | Some l => t ← of_option IndexError (l !! i); Ok (Some t) end;
  nt ← mapM_ok (fun '(k, l) => v ← of_option IndexError (l !! i); Ok (k, v)) nts;
  data_proto b nt (meta_info d).

Definition chunk (auto_padding : bool) (d : DataProto) (chunks : nat) : result (list DataProto) :=
  _ ← (if is_padding_enabled auto_padding d then Ok tt
     else if chunks =? 0 then Err ZeroDivisionError else py_assert (proto_len d mod chunks =? 0));
  bs ← match batch d with None => Ok None | Some b => l ← t_chunk b chunks; Ok (Some l) end;
  let positions := (fun l => cumsum_init 0 (length ∘ rows <$> l)) <$> bs in
  nts ← array_chunks d positions chunks;
  mapM_ok (nth_chunk d bs nts) (seq 0 chunks).

(** Meta information that [concat] can merge with itself: no "metrics", which are
    gathered in a list, and only values that compare equal to themselves. *)
Definition plain_meta (m : gmap string O) : Prop := m !! metrics_key = None /\ forall k v, m !! k = Some v -> py_eq v v = Ok true.

(** ** Row functions

  What an operation does to the rows of every array alike. *)

Record rowfun := {
  rf : forall A, list A -> list A;
  rf_len : forall A B (l : list A) (k : list B), length l = length k -> length (rf A l) = length (rf B k);
}.

Definition array_via {X} `{ArrayOps X} (f : rowfun) (t u : X) : Prop := same_kind t u /\ rows u = rf f _ (rows t).

Record proto_via (f : rowfun) (d p : DataProto) : Prop := {
  pv_batch : option_Forall2 (array_via f) (batch d) (batch p);
  pv_arrays : Forall2 (fun x y => y.1 = x.1 /\ array_via f x.2 y.2) (non_tensor_batch d) (non_tensor_batch p);
  pv_meta : meta_info p = meta_info d;
}.

(** The type of a batch: all its arrays have the same number of rows, and the
  keys are distinct. *)
Record proto_ok (d : DataProto) : Prop := {
  pk_batch : forall b, batch d = Some b -> length (rows b) = proto_len d;
  pk_arrays : Forall (fun x => length (rows x.2) = proto_len d) (non_tensor_batch d);
  pk_keys : NoDup (keys (non_tensor_batch d));
}.

Lemma proto_ok_check d : proto_ok d -> check_consistency d = Ok tt.
Proof.
  intros [H1 H2 _]. unfold check_consistency. destruct (batch d) as [b|] eqn:Eb; [|done]. apply py_assert_ok, forallb_forall.
  intros x Hx%list_elem_of_In. rewrite Forall_forall in H2. rewrite (H2 x Hx), (H1 b eq_refl).
  by rewrite Nat.eqb_refl.
Qed.

Lemma proto_via_keys f d p : proto_via f d p -> keys (non_tensor_batch p) = keys (non_tensor_batch d).
Proof. intros [_ H _]. unfold keys. induction H as [|x y l k [E _] H IH]; cbn; [done|by rewrite E, IH]. Qed.

Lemma proto_via_len f d p A (l : list A) :
  proto_ok d -> proto_via f d p -> (batch d <> None \/ non_tensor_batch d <> []) -> length l = proto_len d ->
  proto_len p = length (rf f _ l).
Proof.
  intros [H1 H2 _] [V1 V2 _] Hne Hl. unfold proto_len. inversion V1 as [t u [_ Hu] Et Eu|Et Eu].
  - rewrite Hu. apply rf_len. rewrite Hl. by apply H1.
  - inversion V2 as [En Em|x y nt nt' [_ [_ Hy]] V2' En Em]; [by destruct Hne as [?|?]|]. destruct y as [k v]. cbn in *.
    rewrite Hy. apply rf_len. rewrite Hl. rewrite <-En in H2. by inversion H2.
Qed.

(** The result of an operation is well formed again. *)
Lemma proto_via_ok f d p : proto_ok d -> proto_via f d p -> proto_ok p.
Proof.
  intros H V. pose proof H as [H1 H2 H3]. pose proof V as [V1 V2 _].
  assert (Hall : forall (l : list unit), length l = proto_len d -> (batch d <> None \/ non_tensor_batch d <> []) ->
    proto_len p = length (rf f _ l)) by (intros l Hl Hne; by apply (proto_via_len f d p)).
  specialize (Hall (replicate (proto_len d) tt) ltac:(by rewrite length_replicate)). split.
  - intros b Hb. inversion V1 as [t u [_ Hu] Et Eu|Et Eu]; [|congruence]. assert (u = b) as -> by congruence.
    rewrite Hall by (left; by rewrite <-Et). rewrite Hu. apply rf_len. rewrite length_replicate. by apply H1.
  - destruct (decide (non_tensor_batch d = [])) as [E|Hne].
    { rewrite E in V2. inversion V2. constructor. }
    rewrite Hall by by right. apply Forall_forall. intros y Hy.
    apply list_elem_of_lookup in Hy as [i Hy]. destruct (Forall2_lookup_r _ _ _ _ _ V2 Hy) as (x & Hx & _ & _ & Hr).
    rewrite Hr. apply rf_len. rewrite length_replicate. rewrite Forall_forall in H2. apply H2. by eapply list_elem_of_lookup_2.
  - by rewrite (proto_via_keys f d).
Qed.

(** The operation took [d] to [p] by doing [f] to the rows of the tensors and of every
    array, whose columns and dtypes stay; keys and meta information are the same,
    and [p] is well formed. *)
Record does (f : forall A, list A -> list A) (d p : DataProto) : Prop := {
  do_batch : option_Forall2 (fun t u => same_kind t u /\ rows u = f _ (rows t)) (batch d) (batch p);
  do_arrays : Forall2 (fun x y => y.1 = x.1 /\ same_kind x.2 y.2 /\ rows y.2 = f _ (rows x.2)) (non_tensor_batch d) (non_tensor_batch p);
  do_meta : meta_info p = meta_info d;
  do_ok : proto_ok p;
}.

Lemma via_does f d p : proto_ok d -> proto_via f d p -> does (rf f) d p.
Proof. intros Hok V. pose proof (proto_via_ok f d p Hok V). by destruct V. Qed.

(** The constructor accepts it. *)
Lemma data_proto_via f d b nt m :
  proto_ok d -> proto_via f d {| batch := b; non_tensor_batch := nt; meta_info := m |} ->
  data_proto b nt m = Ok {| batch := b; non_tensor_batch := nt; meta_info := m |}.
Proof. intros H V. unfold data_proto. rewrite proto_ok_check; [done|]. by eapply proto_via_ok. Qed.

Definition via_comp (f g : rowfun) : rowfun.
Proof. refine {| rf := fun A l => rf g A (rf f A l) |}. abstract (intros A B l k E; by apply rf_len, rf_len). Defined.

Definition via_id : rowfun.
Proof. refine {| rf := fun A l => l |}. abstract done. Defined.

(** [l[i:j]] *)
Definition via_slice (i j : nat) : rowfun.
Proof. refine {| rf := fun A l => take (j - i) (drop i l) |}. abstract (intros; rewrite !length_take, !length_drop; congruence). Defined.

Definition via_concat (fs : list rowfun) : rowfun.
Proof.
  refine {| rf := fun A l => concat ((fun f => rf f A l) <$> fs) |}.
  abstract (intros A B l k E; induction fs as [|f fs IH]; cbn; [done|]; rewrite !length_app, IH; by rewrite (rf_len f _ _ _ _ E)).
Defined.

Context `{!ArrayLaws T} `{!ArrayLaws N} `{!TensorLaws T} `{!NumpyLaws N}.

Lemma array_via_comp {X} `{ArrayOps X} `{!ArrayLaws X} f g (t u v : X) :
  array_via f t u -> array_via g u v -> array_via (via_comp f g) t v.
Proof. intros [K1 R1] [K2 R2]. split; [by etransitivity|]. cbn. by rewrite R2, R1. Qed.

Lemma proto_via_comp f g d p q : proto_via f d p -> proto_via g p q -> proto_via (via_comp f g) d q.
Proof.
  intros [A1 A2 A3] [B1 B2 B3]. split.
  - inversion A1 as [t u H1 Et Eu|Et Eu]; rewrite <-Eu in B1; inversion B1 as [u' v H2 Eu' Ev|Eu' Ev]; constructor.
    by eapply array_via_comp.
  - revert B2. generalize (non_tensor_batch q) as nq. clear B1 B3 A1. induction A2 as [|x y l k [E H] A2 IH]; intros nq B2.
    + inversion B2. constructor.
    + inversion B2 as [|y' z k' l' [E' H'] B2']; subst. constructor; [|by apply IH]. split; [congruence|].
      by eapply array_via_comp.
  - congruence.
Qed.

Lemma proto_via_refl d : proto_via via_id d d.
Proof.
  split; [|apply Forall2_same_length_lookup_2|done]; [destruct (batch d); constructor; by split|done|].
  intros i x y Hx Hy. rewrite Hx in Hy. injection Hy as <-. by split.
Qed.

(** Operations that keep every row are the identity. *)
Lemma proto_via_id f d p :
  proto_ok d -> proto_via f d p -> (forall A (l : list A), length l = proto_len d -> rf f A l = l) -> p = d.
Proof.
  intros [H1 H2 _] [V1 V2 V3] Hid. destruct p as [pb pn pm], d as [db dn dm]. cbn in *. subst pm. f_equal.
  - inversion V1 as [t u [K R] Et Eu|Et Eu]; [|done]. f_equal. symmetry. apply array_ext; [done|].
    rewrite R. symmetry. apply Hid. apply H1. congruence.
  - clear V1 H1. revert Hid H2. generalize (proto_len {| batch := db; non_tensor_batch := dn; meta_info := dm |}) as n.
    intros n Hid H2. induction V2 as [|[k v] [k' v'] l l' [E [K R]] V2 IH]; [done|]. inversion H2 as [|x l0 Hx H2' E0].
    cbn in *. subst k'. f_equal; [|by apply IH]. f_equal. symmetry. apply array_ext; [done|]. rewrite R. symmetry. by apply Hid.
Qed.

(** Only rows of the batch's length matter. *)
Lemma via_ext f g d p :
  proto_ok d -> (forall A (l : list A), length l = proto_len d -> rf f A l = rf g A l) -> proto_via f d p -> proto_via g d p.
Proof.
  intros [H1 H2 _] E [V1 V2 V3]. split; [| |done].
  - inversion V1 as [t u [K R] Et Eu|Et Eu]; constructor. split; [done|]. rewrite R. apply E, H1. congruence.
  - clear V1 H1 V3. induction V2 as [|x y nt nt' (Ek & K & R) V2 IH]; constructor; inversion H2; subst.
    + split; [done|]. split; [done|]. rewrite R. by apply E.
    + by apply IH.
Qed.

(** ** Slices *)

Lemma slice_array_via {X} `{ArrayOps X} `{!ArrayLaws X} n start stop (t : X) :
  length (rows t) = n -> array_via (via_slice (bound n start 0) (bound n stop n)) t (slice_array start stop t).
Proof. intros <-. unfold slice_array. destruct (slice_rows t (bound (length (rows t)) start 0) (bound (length (rows t)) stop (length (rows t)))). by split. Qed.

Lemma proto_slice_ok d start stop :
  proto_ok d -> let n := proto_len d in
  exists p, proto_slice d start stop = Ok p /\ proto_via (via_slice (bound n start 0) (bound n stop n)) d p.
Proof.
  intros H n. pose proof H as [H1 H2 _]. unfold proto_slice.
  assert (V : proto_via (via_slice (bound n start 0) (bound n stop n)) d
    {| batch := slice_array start stop <$> batch d;
       non_tensor_batch := prod_map id (slice_array start stop) <$> non_tensor_batch d; meta_info := meta_info d |}).
  { split; cbn; [|apply Forall2_fmap_r, Forall_Forall2_diag|done].
    - destruct (batch d) as [b|] eqn:Eb; constructor. apply slice_array_via. by apply H1.
    - eapply Forall_impl; [exact H2|]. intros [k v] Hv. split; [done|]. by apply slice_array_via. }
  eexists. split; [by eapply data_proto_via|done].
Qed.
(** ** Merging dicts *)

Lemma append_at_app {A} pre k (x : A) l post :
  k ∉ keys pre -> append_at k x (pre ++ (k, l) :: post) = Ok (pre ++ (k, l ++ [x]) :: post).
Proof.
  induction pre as [|[k' l'] pre IH]; intros Hk; cbn.
  - by rewrite decide_True.
  - unfold keys in Hk. cbn in Hk. apply not_elem_of_cons in Hk as [Hne Hk]. rewrite decide_False by congruence.
    by rewrite IH.
Qed.

(** One dict with the keys of the lists. *)
Definition push {A} (out : dict (list A)) (d : dict A) : dict (list A) :=
  zip_with (fun o x => (o.1, o.2 ++ [x.2])) out d.

Lemma push_ok {A} (pre out : dict (list A)) d :
  NoDup (keys (pre ++ out)) -> keys d = keys out ->
  foldM (fun out '(k, x) => append_at k x out) (pre ++ out) d = Ok (pre ++ push out d).
Proof.
  revert pre d. induction out as [|[k l] out IH]; intros pre [|[k' x] d] Hnd Hk; try done.
  unfold keys in Hk. cbn in Hk. injection Hk as -> Hk. cbn [foldM push zip_with].
  rewrite append_at_app.
  2: { unfold keys in Hnd. rewrite fmap_app in Hnd. apply NoDup_app in Hnd as (_ & Hnd & _). intros Hin. apply (Hnd k Hin). by left. }
  cbn [mbind result_bind fst snd]. rewrite cons_middle, app_assoc, IH.
  - by rewrite <-app_assoc.
  - unfold keys in *. rewrite !fmap_app in *. cbn in *. by rewrite <-app_assoc.
  - done.
Qed.

Lemma keys_push {A} (out : dict (list A)) d : keys d = keys out -> keys (push out d) = keys out.
Proof.
  revert d. induction out as [|[k l] out IH]; intros [|[k' x] d] Hk; try done.
  unfold keys in *. cbn in *. injection Hk as -> Hk. f_equal. by apply IH.
Qed.

Lemma push_all_ok {A} (out : dict (list A)) ds :
  NoDup (keys out) -> (forall d, d ∈ ds -> keys d = keys out) ->
  foldM (fun out d => foldM (fun out '(k, x) => append_at k x out) out d) out ds = Ok (foldl push out ds).
Proof.
  revert out. induction ds as [|d ds IH]; intros out Hnd Hk; [done|]. cbn [foldM foldl].
  pose proof (push_ok [] out d Hnd (Hk d ltac:(by left))) as E. cbn [app] in E. rewrite E. cbn [mbind result_bind].
  assert (Hkp : keys (push out d) = keys out) by (apply keys_push, Hk; by left).
  apply IH; rewrite Hkp; [done|]. intros d' Hd'. apply Hk. by right.
Qed.

Lemma keys_lookup {A} (d : dict A) i k x : d !! i = Some (k, x) -> keys d !! i = Some k.
Proof. intros H. unfold keys. apply list_lookup_fmap_Some. by exists (k, x). Qed.

Lemma keys_lookup_inv {A} (d : dict A) i k : keys d !! i = Some k -> exists x, d !! i = Some (k, x).
Proof. intros H. unfold keys in H. apply list_lookup_fmap_Some in H as ([k' x] & -> & H). by exists x. Qed.

(** Column by column: the key, and its values in the order of the dicts. *)
Lemma push_lookup {A} (out : dict (list A)) ds i k l :
  (forall d, d ∈ ds -> keys d = keys out) -> out !! i = Some (k, l) ->
  exists ws, foldl push out ds !! i = Some (k, l ++ ws) /\ Forall2 (fun d w => d !! i = Some (k, w)) ds ws.
Proof.
  revert out l. induction ds as [|d ds IH]; intros out l Hk Hi; cbn [foldl].
  { exists []. rewrite app_nil_r. split; [done|constructor]. }
  assert (Hkd : keys d = keys out) by (apply Hk; by left).
  destruct (keys_lookup_inv d i k) as [x Hd]; [rewrite Hkd; by eapply keys_lookup|].
  destruct (IH (push out d) (l ++ [x])) as (ws & Hw & H2).
  - intros d' Hd'. rewrite keys_push by done. apply Hk. by right.
  - unfold push. apply lookup_zip_with_Some. by exists (k, l), (k, x).
  - exists (x :: ws). rewrite <-app_assoc in Hw. split; [done|by constructor].
Qed.

(** The same meta information merges to itself. *)
Lemma merge_meta_same (m : gmap string O) : plain_meta m -> merge_meta m m = Ok m.
Proof.
  intros [_ Heq]. unfold merge_meta. assert (Hall : forall k v, (k, v) ∈ map_to_list m -> m !! k = Some v) by (intros k v; apply elem_of_map_to_list).
  revert Hall. generalize (map_to_list m) as l. induction l as [|[k v] l IH]; intros Hall; [done|]. cbn [foldM merge_entry].
  rewrite (Hall k v ltac:(by left)). case_decide; cbn [mbind result_bind].
  - apply IH. intros k' v' Hin. apply Hall. by right.
  - rewrite (Heq k v) by (apply Hall; by left). cbn [py_assert mbind result_bind]. apply IH. intros k' v' Hin. apply Hall. by right.
Qed.

Lemma merge_meta_empty (m : gmap string O) : m !! metrics_key = None -> merge_meta ∅ m = Ok m.
Proof.
  intros Hm. unfold merge_meta. rewrite <-(list_to_map_to_list m) at 2. pose proof (NoDup_fst_map_to_list m) as Hnd.
  assert (Hk : metrics_key ∉ (map_to_list m).*1).
  { intros Hin. apply list_elem_of_fmap in Hin as ([k v] & Hk & Hin). cbn in Hk. subst k. apply elem_of_map_to_list in Hin. congruence. }
  revert Hnd Hk. generalize (map_to_list m) as l.
  enough (forall (l : list (string * O)) acc, NoDup l.*1 -> metrics_key ∉ l.*1 -> (forall k, k ∈ l.*1 -> acc !! k = None) ->
    foldM merge_entry acc l = Ok (list_to_map l ∪ acc)) as Hgen.
  { intros l Hnd Hk. rewrite Hgen; [by rewrite (right_id_L ∅ (∪))|done|done|]. intros k _. by rewrite lookup_empty. }
  clear. induction l as [|[k v] l IH]; intros acc Hnd Hk Hacc; cbn [foldM merge_entry].
  { cbn. by rewrite (left_id_L ∅ (∪)). }
  cbn in Hnd, Hk. apply NoDup_cons in Hnd as [Hkl Hnd]. apply not_elem_of_cons in Hk as [Hne Hk].
  rewrite decide_False by congruence. rewrite (Hacc k ltac:(by left)). cbn [mbind result_bind]. rewrite IH; [|done|done|].
  - cbn. f_equal. rewrite <-insert_union_l, insert_union_r; [done|]. by apply not_elem_of_list_to_map_1.
  - intros k' Hk'. rewrite lookup_insert_ne; [apply Hacc; by right|]. by intros ->.
Qed.

Lemma merge_infos_same m (data : list DataProto) :
  plain_meta m -> data <> [] -> (forall d, d ∈ data -> meta_info d = m) -> merge_infos data = Ok m.
Proof.
  intros Hpl Hne Hall. pose proof (proj1 Hpl) as Hm. unfold merge_infos.
  assert (Hf : foldM (fun acc d => merge_meta acc (meta_info d)) ∅ data = Ok m).
  { destruct data as [|d data]; [done|]. cbn [foldM]. rewrite (Hall d ltac:(by left)), merge_meta_empty by done. cbn [mbind result_bind].
    assert (Hall' : forall d, d ∈ data -> meta_info d = m) by (intros ? ?; apply Hall; by right). clear Hne Hall.
    induction data as [|d' data IH]; [done|]. cbn [foldM]. rewrite (Hall' d' ltac:(by left)), merge_meta_same by done. cbn [mbind result_bind].
    apply IH. intros ? ?. apply Hall'. by right. }
  rewrite Hf. cbn [mbind result_bind].
  assert (Hmet : concat (metrics_of <$> data) = []); [|by rewrite Hmet].
  clear Hf Hne. induction data as [|d data IH]; [done|]. cbn. unfold metrics_of at 1. rewrite (Hall d ltac:(by left)), Hm. apply IH.
  intros ? ?. apply Hall. by right.
Qed.

(** ** Concatenation *)

Lemma cat_via {X} `{ArrayOps X} `{!ArrayLaws X} (t : X) fs us :
  us <> [] -> Forall2 (fun f u => array_via f t u) fs us ->
  exists v, a_cat us = Ok v /\ array_via (via_concat fs) t v.
Proof.
  intros Hne HF. assert (Hk : forall u, u ∈ us -> same_kind t u).
  { intros u Hu. apply list_elem_of_lookup in Hu as [i Hu]. by destruct (Forall2_lookup_r _ _ _ _ _ HF Hu) as (f & _ & Hs & _). }
  destruct us as [|u0 us0] eqn:Eu; [done|]. rewrite <-Eu in *.
  assert (H0 : u0 ∈ us) by (rewrite Eu; by left).
  destruct (cat_rows u0 us H0) as (v & Hv & Kv & Rv).
  { intros u Hu. transitivity t; [symmetry|]; by apply Hk. }
  exists v. split; [done|]. split; [by transitivity u0; [apply Hk|]|]. rewrite Rv. cbn. f_equal.
  clear -HF. induction HF as [|f u fs us [_ E] HF IH]; [done|]. cbn. by rewrite E, IH.
Qed.

Lemma cat_batches_via d fs ps :
  ps <> [] -> Forall2 (fun f p => proto_via f d p) fs ps ->
  exists b, cat_batches ps = Ok b /\ option_Forall2 (array_via (via_concat fs)) (batch d) b.
Proof.
  intros Hne HF. destruct (batch d) as [t|] eqn:Eb.
  - assert (Hus : exists us, mapM_ok (fun d => of_option TypeError (batch d)) ps = Ok us /\ Forall2 (fun f u => array_via f t u) fs us).
    { clear Hne. induction HF as [|f p fs ps V HF IH]; [exists []; by split; [|constructor]|].
      destruct IH as (us & Hus & HF'). pose proof (pv_batch _ _ _ V) as Hvb. rewrite Eb in Hvb. inversion Hvb as [t' u Hu Et Eu|]; subst.
      cbn [mapM_ok]. rewrite <-Eu. cbn [of_option mbind result_bind]. rewrite Hus. cbn [mbind result_bind].
      exists (u :: us). split; [done|]. by constructor. }
    destruct Hus as (us & Hus & HF'). unfold cat_batches.
    assert (Hne' : us <> []) by (intros ->; inversion HF'; subst; inversion HF; by subst).
    destruct (cat_via t fs us Hne' HF') as (v & Hv & Hvia). exists (Some v). split; [|by constructor].
    destruct ps as [|p0 ps0]; [done|]. inversion HF as [|f p fs' ps' V HF'' E1 E2]; subst.
    pose proof (pv_batch _ _ _ V) as Hvb. rewrite Eb in Hvb. inversion Hvb as [t' u Hu Et Eu|]. rewrite Hus. cbn [mbind result_bind].
    by rewrite Hv.
  - exists None. split; [|constructor]. destruct ps as [|p0 ps0]; [done|]. inversion HF as [|f p fs' ps' V HF'' E1 E2]; subst.
    pose proof (pv_batch _ _ _ V) as Hvb. rewrite Eb in Hvb. unfold cat_batches. by inversion Hvb.
Qed.

Lemma keys_push_all {A} (out : dict (list A)) ds :
  (forall d, d ∈ ds -> keys d = keys out) -> keys (foldl push out ds) = keys out.
Proof.
  revert out. induction ds as [|dd ds IH]; intros out Hds; [done|]. cbn [foldl].
  assert (Hkp : keys (push out dd) = keys out) by (apply keys_push, Hds; by left).
  rewrite IH; [done|]. intros d' Hd'. rewrite Hkp. apply Hds. by right.
Qed.

(** The arrays of one key, in the order of the pieces. *)
Lemma array_column d fs ps i k v ws :
  Forall2 (fun f p => proto_via f d p) fs ps -> non_tensor_batch d !! i = Some (k, v) ->
  Forall2 (fun nt w => nt !! i = Some (k, w)) (non_tensor_batch <$> ps) ws -> Forall2 (fun f w => array_via f v w) fs ws.
Proof.
  intros HF Hx HFw. revert ws HFw. induction HF as [|f p fs ps V HF IH]; intros ws HFw; cbn in HFw.
  - inversion HFw. constructor.
  - inversion HFw as [|dd w dds ws' Hd0 HFw' E1 E2]; subst. constructor; [|by apply IH].
    destruct (Forall2_lookup_l _ _ _ _ _ (pv_arrays _ _ _ V) Hx) as (y & Hy & _ & Hv). by pose proof (eq_trans (eq_sym Hd0) Hy) as [= <-].
Qed.

Lemma columns_via d fs ps :
  NoDup (keys (non_tensor_batch d)) -> ps <> [] -> Forall2 (fun f p => proto_via f d p) fs ps ->
  exists lists, list_of_dict_to_dict_of_list (non_tensor_batch <$> ps) = Ok lists /\
    Forall2 (fun x o => o.1 = x.1 /\ exists v, a_cat o.2 = Ok v /\ array_via (via_concat fs) x.2 v) (non_tensor_batch d) lists.
Proof.
  intros Hnd Hne HF.
  assert (Hkeys : forall dd, dd ∈ non_tensor_batch <$> ps -> keys dd = keys (non_tensor_batch d)).
  { intros dd Hdd. apply list_elem_of_fmap in Hdd as (p & -> & Hp). apply list_elem_of_lookup in Hp as [i Hp].
    destruct (Forall2_lookup_r _ _ _ _ _ HF Hp) as (f & _ & V). by eapply proto_via_keys. }
  remember (non_tensor_batch <$> ps) as ds eqn:Eds. set (out0 := prod_map id (fun _ => []) <$> default [] (head ds) : dict (list N)).
  assert (Hout0 : keys out0 = keys (non_tensor_batch d)).
  { destruct ds as [|d0 ds0]; [by destruct ps|]. rewrite <-(Hkeys d0 ltac:(by left)). subst out0. unfold keys.
    rewrite <-list_fmap_compose. apply list_fmap_ext. by intros _ [k v] _. }
  assert (Hds : forall dd, dd ∈ ds -> keys dd = keys out0) by (intros dd Hdd; rewrite Hout0; by apply Hkeys).
  exists (foldl push out0 ds). split.
  { transitivity (foldM (fun out d => foldM (fun out '(k, x) => append_at k x out) out d) out0 ds); [by destruct ds|].
    apply push_all_ok; [by rewrite Hout0|done]. }
  assert (Hk : keys (foldl push out0 ds) = keys (non_tensor_batch d)) by (by rewrite keys_push_all).
  apply Forall2_same_length_lookup. split; [apply (f_equal length) in Hk; unfold keys in Hk; rewrite !length_fmap in Hk; done|].
  intros i [k v] [k' l'] Hx Hy.
  assert (Hi0 : out0 !! i = Some (k, [])).
  { assert (keys out0 !! i = Some k) as Hx' by (rewrite Hout0; by eapply keys_lookup).
    apply keys_lookup_inv in Hx' as [l Hl]. rewrite Hl. subst out0. apply list_lookup_fmap_Some in Hl as ([k0 v0] & [= -> ->] & _). done. }
  destruct (push_lookup out0 ds i k [] Hds Hi0) as (ws & Hw & HFw). pose proof (eq_trans (eq_sym Hy) Hw) as [= -> ->].
  cbn [fst snd app]. split; [done|]. apply cat_via; [|subst ds; by eapply array_column].
  intros ->. inversion HFw as [E|]. subst ds. by destruct ps.
Qed.

Lemma proto_concat_via d fs ps :
  proto_ok d -> plain_meta (meta_info d) -> ps <> [] -> Forall2 (fun f p => proto_via f d p) fs ps ->
  exists d', proto_concat ps = Ok d' /\ proto_via (via_concat fs) d d'.
Proof.
  intros Hok Hm Hne HF. unfold proto_concat. destruct (cat_batches_via d fs ps Hne HF) as (b & -> & Hb). cbn [mbind result_bind].
  destruct (columns_via d fs ps (pk_keys _ Hok) Hne HF) as (lists & -> & Hcol). cbn [mbind result_bind].
  assert (Hnt : exists nt, mapM_ok (fun '(k, l) => v ← a_cat l; Ok (k, v)) lists = Ok nt /\
    Forall2 (fun x y => y.1 = x.1 /\ array_via (via_concat fs) x.2 y.2) (non_tensor_batch d) nt).
  { clear -Hcol. induction Hcol as [|x [k l] nt out [E (v & Hv & Va)] HF IH]; [exists []; split; [done|constructor]|].
    destruct IH as (nt' & IH1 & IH2). cbn in E, Hv. exists ((k, v) :: nt'). cbn [mapM_ok]. rewrite Hv. cbn [mbind result_bind].
    rewrite IH1. cbn [mbind result_bind]. split; [done|]. by constructor. }
  destruct Hnt as (nt & -> & Hnt). cbn [mbind result_bind].
  rewrite (merge_infos_same (meta_info d) ps Hm Hne).
  2: { intros p Hp. apply list_elem_of_lookup in Hp as [i Hp]. destruct (Forall2_lookup_r _ _ _ _ _ HF Hp) as (f & _ & V). apply V. }
  cbn [mbind result_bind]. assert (V : proto_via (via_concat fs) d {| batch := b; non_tensor_batch := nt; meta_info := meta_info d |}) by done.
  eexists. split; [by eapply data_proto_via|done].
Qed.

(** ** Selection and repetition *)

Lemma omap_lookup_length {A B} idxs (l : list A) (k : list B) :
  length l = length k -> length (omap (fun i => l !! i) idxs) = length (omap (fun i => k !! i) idxs).
Proof.
  intros E. induction idxs as [|i idxs IH]; [done|]. cbn. destruct (l !! i) as [x|] eqn:El, (k !! i) as [y|] eqn:Ek.
  - cbn. by f_equal.
  - apply lookup_lt_Some in El. apply lookup_ge_None in Ek. lia.
  - apply lookup_ge_None in El. apply lookup_lt_Some in Ek. lia.
  - done.
Qed.

Definition via_take (idxs : list nat) : rowfun.
Proof.
  refine {| rf := fun A l => omap (fun i => l !! i) idxs |}.
  abstract (intros A B l k E; by apply omap_lookup_length).
Defined.

Definition via_repeat (n : nat) : rowfun.
Proof.
  refine {| rf := fun A l => concat (replicate n <$> l) |}.
  abstract (intros A B l k E; revert k E; induction l as [|x l IH]; intros [|y k] E; try done; cbn in *;
    rewrite !length_app, !length_replicate; f_equal; apply IH; lia).
Defined.

Definition via_tile (n : nat) : rowfun.
Proof.
  refine {| rf := fun A l => concat (replicate n l) |}.
  abstract (intros A B l k E; induction n as [|n IH]; [done|]; cbn; rewrite !length_app; congruence).
Defined.

Lemma omap_Forall2 {A} (l : list A) idxs us :
  Forall2 (fun i x => l !! i = Some x) idxs us -> omap (fun i => l !! i) idxs = us.
Proof. induction 1 as [|i x idxs us E HF IH]; [done|]. cbn. by rewrite E, IH. Qed.

Lemma take_via {X} `{ArrayOps X} `{!ArrayLaws X} (t : X) idxs :
  Forall (fun i => i < length (rows t)) idxs -> exists u, a_take t idxs = Ok u /\ array_via (via_take idxs) t u.
Proof.
  intros Hi. destruct (take_rows t idxs Hi) as (u & Hu & K & R). exists u. split; [done|]. split; [done|]. symmetry.
  by apply omap_Forall2.
Qed.

Lemma map_arrays_via n f g (nt : dict N) :
  Forall (fun x => length (rows x.2) = n) nt ->
  (forall v, length (rows v) = n -> exists u, f v = Ok u /\ array_via g v u) ->
  exists nt', map_arrays f nt = Ok nt' /\ Forall2 (fun x y => y.1 = x.1 /\ array_via g x.2 y.2) nt nt'.
Proof.
  intros Hn Hf. unfold map_arrays. induction Hn as [|[k v] nt Hv Hn (nt' & IH1 & IH2)]; [exists []; split; [done|constructor]|].
  cbn in Hv. destruct (Hf v Hv) as (u & Hu & V). exists ((k, u) :: nt'). cbn [mapM_ok]. rewrite Hu. cbn [mbind result_bind].
  rewrite IH1. cbn [mbind result_bind]. split; [done|]. by constructor.
Qed.

Lemma select_idxs_ok d idxs :
  proto_ok d -> Forall (fun i => i < proto_len d) idxs ->
  exists p, select_idxs d idxs = Ok p /\ proto_via (via_take idxs) d p.
Proof.
  intros H Hi. pose proof H as [H1 H2 _]. unfold select_idxs.
  destruct (map_arrays_via (proto_len d) (fun v => a_take v idxs) (via_take idxs) (non_tensor_batch d) H2) as (nt & Hnt & Vnt).
  { intros v Hv. apply take_via. by rewrite Hv. }
  assert (Hb : exists b, map_batch (fun t => a_take t idxs) (batch d) = Ok b /\ option_Forall2 (array_via (via_take idxs)) (batch d) b).
  { destruct (batch d) as [t|] eqn:Eb; [|exists None; split; [done|constructor]].
    destruct (take_via t idxs) as (u & Hu & V); [by rewrite (H1 t eq_refl)|]. exists (Some u). cbn. rewrite Hu. split; [done|by constructor]. }
  destruct Hb as (b & -> & Vb). cbn [mbind result_bind]. rewrite Hnt. cbn [mbind result_bind].
  assert (V : proto_via (via_take idxs) d {| batch := b; non_tensor_batch := nt; meta_info := meta_info d |}) by done.
  eexists. split; [by eapply data_proto_via|done].
Qed.

Definition via_repeated (n : nat) (interleave : bool) : rowfun := if interleave then via_repeat n else via_tile n.

Lemma repeat_array_via {X} `{ArrayOps X} `{!ArrayLaws X} n interleave (t : X) :
  array_via (via_repeated n interleave) t (if interleave then a_repeat t n else a_tile t n).
Proof. destruct interleave; [destruct (repeat_rows t n)|destruct (tile_rows t n)]; by split. Qed.

Lemma repeat_ok d n interleave :
  proto_ok d -> exists p, repeat d n interleave = Ok p /\ proto_via (via_repeated n interleave) d p.
Proof.
  intros H. unfold repeat.
  assert (V : proto_via (via_repeated n interleave) d
    {| batch := (fun t => if interleave then a_repeat t n else a_tile t n) <$> batch d;
       non_tensor_batch := prod_map id (fun v => if interleave then a_repeat v n else a_tile v n) <$> non_tensor_batch d;
       meta_info := meta_info d |}).
  { split; cbn; [|apply Forall2_fmap_r, Forall_Forall2_diag|done].
    - destruct (batch d); constructor. apply repeat_array_via.
    - apply Forall_forall. intros [k v] _. split; [done|]. apply repeat_array_via. }
  eexists. split; [by eapply data_proto_via|done].
Qed.

(** ** Even chunks *)

Definition pieces {A} (c n : nat) (l : list A) : list (list A) := (fun i => take c (drop (i * c) l)) <$> seq 0 n.

Lemma chop_pieces {A} c n (l : list A) : 0 < c -> length l = n * c -> chop c l = pieces c n l.
Proof.
  intros Hc E. unfold chop, pieces. do 2 f_equal. rewrite E. replace (n * c + c - 1) with (c - 1 + n * c) by lia.
  rewrite Nat.div_add, Nat.div_small; lia.
Qed.

Lemma cut_even_from {A} c m j (l : list A) :
  length l = (j + S m) * c -> cut_at (j * c) ((fun i => i * c) <$> seq (S j) m) l = (fun i => take c (drop (i * c) l)) <$> seq j (S m).
Proof.
  revert j. induction m as [|m IH]; intros j E.
  - cbn. f_equal. rewrite take_ge; [done|]. rewrite length_drop, E. nia.
  - change (seq (S j) (S m)) with (S j :: seq (S (S j)) m). change (seq j (S (S m))) with (j :: seq (S j) (S m)).
    rewrite !fmap_cons. cbn [cut_at]. f_equal; [f_equal; lia|]. apply IH. rewrite E. lia.
Qed.

Lemma cut_even {A} c n (l : list A) :
  0 < n -> length l = n * c -> cut_at 0 ((fun i => i * c) <$> seq 1 (n - 1)) l = pieces c n l.
Proof. intros Hn E. destruct n as [|n]; [lia|]. cbn [Nat.sub]. rewrite Nat.sub_0_r. by apply (cut_even_from c n 0). Qed.

Lemma split_positions_even n c : 0 < n -> split_positions (n * c) n = (fun i => i * c) <$> seq 1 (n - 1).
Proof.
  intros Hn. unfold split_positions. apply list_fmap_ext. intros _ i _.
  rewrite (Nat.mul_comm n c), Nat.div_mul, Nat.Div0.mod_mul by lia. lia.
Qed.

Lemma cumsum_even c from n : cumsum_init from (replicate n c) = (fun i => from + i * c) <$> seq 1 (n - 1).
Proof.
  revert from. induction n as [|[|n] IH]; intros from; [done|done|].
  change (cumsum_init from (replicate (S (S n)) c)) with (from + c :: cumsum_init (from + c) (replicate (S n) c)).
  rewrite IH. cbn [Nat.sub]. rewrite Nat.sub_0_r. cbn [seq]. rewrite fmap_cons. f_equal; [lia|].
  rewrite <-(fmap_S_seq 1 n), <-list_fmap_compose. apply list_fmap_ext. intros _ i _. cbn. lia.
Qed.

Lemma pieces_lengths {A} c n (l : list A) : length l = n * c -> length <$> pieces c n l = replicate n c.
Proof.
  intros E. unfold pieces. rewrite <-list_fmap_compose. apply list_eq_same_length with n; rewrite ?length_fmap, ?length_seq, ?length_replicate; [done..|].
  intros i x y Hi Hx Hy. apply list_lookup_fmap_Some in Hx as (j & -> & Hj). apply lookup_seq in Hj as [-> ?].
  apply lookup_replicate in Hy as [-> _]. cbn. rewrite length_take, length_drop, E. nia.
Qed.

Lemma pieces_via {X} `{ArrayOps X} (t : X) c n us i :
  rows <$> us = pieces c n (rows t) -> Forall (same_kind t) us -> i < n ->
  exists u, us !! i = Some u /\ array_via (via_slice (i * c) (i * c + c)) t u.
Proof.
  intros E HF Hi. assert (Hl : (rows <$> us) !! i = Some (take c (drop (i * c) (rows t)))).
  { rewrite E. unfold pieces. rewrite list_lookup_fmap, lookup_seq_lt by done. done. }
  apply list_lookup_fmap_Some in Hl as (u & R & Hu). exists u. split; [done|]. split.
  - rewrite Forall_forall in HF. apply HF. by eapply list_elem_of_lookup_2.
  - cbn. rewrite <-R. f_equal. lia.
Qed.

Definition via_chunk (c i : nat) : rowfun := via_slice (i * c) (i * c + c).

(** The arrays of a key, piece by piece. *)
Definition cut_into (c n : nat) (x : string * N) (y : string * list N) : Prop :=
  y.1 = x.1 /\ rows <$> y.2 = pieces c n (rows x.2) /\ Forall (same_kind x.2) y.2.

Lemma array_chunks_even d ps n c :
  proto_ok d -> 0 < n -> proto_len d = n * c -> (forall l, ps = Some l -> l = (fun i => i * c) <$> seq 1 (n - 1)) ->
  exists nts, array_chunks d ps n = Ok nts /\ Forall2 (cut_into c n) (non_tensor_batch d) nts.
Proof.
  intros [_ H2 _] Hn E Hps. unfold array_chunks.
  induction H2 as [|[k v] nt Hv H2 (nts & IH1 & IH2)]; [exists []; split; [done|constructor]|]. cbn in Hv. cbn [mapM_ok].
  assert (exists l, match ps with Some ps => Ok (n_split_at v ps) | None => n_split v n end = Ok l /\ cut_into c n (k, v) (k, l)) as (l & -> & Hl).
  { destruct ps as [ps|].
    - eexists. split; [done|]. split; [done|]. cbn. rewrite (Hps ps eq_refl).
      destruct (split_at_rows v ((fun i => i * c) <$> seq 1 (n - 1))) as [-> HF]. rewrite cut_even; [done|done|lia].
    - destruct (split_rows v n Hn) as (l & Hl & R & HF). exists l. split; [done|]. split; [done|]. cbn.
      rewrite R, Hv, E, split_positions_even, cut_even; [done|done|lia|done]. }
  assert (Hll : length l = n).
  { destruct Hl as (_ & Hl & _). apply (f_equal length) in Hl. unfold pieces in Hl. cbn [snd] in Hl. rewrite !length_fmap, length_seq in Hl. done. }
  cbn [mbind result_bind]. rewrite Hll, Nat.eqb_refl. cbn [py_assert mbind result_bind]. rewrite IH1. cbn [mbind result_bind]. exists ((k, l) :: nts).
  split; [done|]. by constructor.
Qed.

Lemma nth_chunk_even d bs nts n c i :
  proto_ok d -> i < n -> option_Forall2 (fun t l => rows <$> l = pieces c n (rows t) /\ Forall (same_kind t) l) (batch d) bs ->
  Forall2 (cut_into c n) (non_tensor_batch d) nts -> exists p, nth_chunk d bs nts i = Ok p /\ proto_via (via_chunk c i) d p.
Proof.
  intros Hok Hi Hb Hn. unfold nth_chunk.
  assert (Hb' : exists b, match bs with None => Ok None | Some l => t ← of_option IndexError (l !! i); Ok (Some t) end = Ok b /\
    option_Forall2 (array_via (via_chunk c i)) (batch d) b).
  { inversion Hb as [t l [E HF] Et El|Et El]; [|exists None; split; [done|constructor]].
    destruct (pieces_via t c n l i E HF Hi) as (u & -> & V). exists (Some u). split; [done|by constructor]. }
  destruct Hb' as (b & -> & Vb). cbn [mbind result_bind].
  assert (Hn' : exists nt, mapM_ok (fun '(k, l) => v ← of_option IndexError (l !! i); Ok (k, v)) nts = Ok nt /\
    Forall2 (fun x y => y.1 = x.1 /\ array_via (via_chunk c i) x.2 y.2) (non_tensor_batch d) nt).
  { clear -Hn Hi ArrayLaws1. induction Hn as [|[k v] [k' l] nt nts (E & R & HF) Hn (nt' & IH1 & IH2)]; [exists []; split; [done|constructor]|].
    cbn in E, R, HF. subst k'. destruct (pieces_via v c n l i R HF Hi) as (u & Hu & V). exists ((k, u) :: nt'). cbn [mapM_ok].
    rewrite Hu. cbn [of_option mbind result_bind]. rewrite IH1. cbn [mbind result_bind]. split; [done|]. by constructor. }
  destruct Hn' as (nt & -> & Vn). cbn [mbind result_bind].
  assert (V : proto_via (via_chunk c i) d {| batch := b; non_tensor_batch := nt; meta_info := meta_info d |}) by done.
  eexists. split; [by eapply data_proto_via|done].
Qed.

Lemma mapM_ok_seq {B} (f : nat -> result B) (P : nat -> B -> Prop) j n :
  (forall i, j <= i < j + n -> exists b, f i = Ok b /\ P i b) -> exists bs, mapM_ok f (seq j n) = Ok bs /\ Forall2 P (seq j n) bs.
Proof.
  revert j. induction n as [|n IH]; intros j Hf; [exists []; split; [done|constructor]|]. cbn [seq mapM_ok].
  destruct (Hf j ltac:(lia)) as (b & -> & Hb). cbn [mbind result_bind].
  destruct (IH (S j)) as (bs & -> & HF); [intros; apply Hf; lia|]. exists (b :: bs). cbn. split; [done|]. by constructor.
Qed.

Lemma chunk_even auto d n c :
  proto_ok d -> 0 < n -> 0 < c -> proto_len d = n * c ->
  exists ps, chunk auto d n = Ok ps /\ Forall2 (fun i p => proto_via (via_chunk c i) d p) (seq 0 n) ps.
Proof.
  intros Hok Hn Hc E. pose proof Hok as [H1 _ _]. unfold chunk.
  assert (Hguard : (if is_padding_enabled auto d then Ok tt
     else if n =? 0 then Err ZeroDivisionError else py_assert (proto_len d mod n =? 0)) = Ok tt).
  { destruct (is_padding_enabled auto d); [done|]. destruct (n =? 0) eqn:E0; [apply Nat.eqb_eq in E0; lia|].
    by rewrite E, Nat.mul_comm, Nat.Div0.mod_mul. }
  rewrite Hguard. cbn [mbind result_bind]. 
  assert (exists bs, match batch d with None => Ok None | Some b => l ← t_chunk b n; Ok (Some l) end = Ok bs /\
    option_Forall2 (fun t l => rows <$> l = pieces c n (rows t) /\ Forall (same_kind t) l) (batch d) bs) as (bs & -> & Hbs).
  { destruct (batch d) as [t|]; [|exists None; split; [done|constructor]]. specialize (H1 t eq_refl).
    destruct (chunk_rows t n Hn ltac:(lia)) as (us & -> & R & HF). exists (Some us). split; [done|]. constructor. split; [|done]. rewrite R, <-chop_pieces by lia. f_equal. rewrite H1, E.
    replace (n * c + n - 1) with (n - 1 + c * n) by lia. rewrite Nat.div_add, Nat.div_small; lia. }
  cbn [mbind result_bind].
  destruct (array_chunks_even d ((fun l => cumsum_init 0 (length ∘ rows <$> l)) <$> bs) n c Hok Hn E) as (nts & -> & Hnts).
  { intros l Hl. destruct bs as [us|]; [|done]. cbn in Hl. injection Hl as <-. inversion Hbs as [t l' [R _] Et El|]; subst.
    rewrite list_fmap_compose, R, pieces_lengths, cumsum_even; [done|]. rewrite (H1 t); [done|]. done. }
  cbn [mbind result_bind]. apply mapM_ok_seq. intros i Hi. apply nth_chunk_even with n; [done|lia|done|done].
Qed.

Lemma concat_pieces {A} c n (l : list A) : concat (pieces c n l) = take (n * c) l.
Proof.
  unfold pieces. induction n as [|n IH]; [done|]. rewrite seq_S, fmap_app, concat_app, IH. cbn. rewrite app_nil_r.
  replace (c + n * c) with (n * c + c) by lia. rewrite <-take_take_drop. done.
Qed.

(** A batch of some rows has an array. *)
Lemma proto_nonempty d : 0 < proto_len d -> batch d <> None \/ non_tensor_batch d <> [].
Proof. unfold proto_len. destruct (batch d); [by left|]. destruct (non_tensor_batch d); [cbn; lia|by right]. Qed.

Lemma via_length f d p :
  proto_ok d -> 0 < proto_len d -> proto_via f d p -> proto_len p = length (rf f _ (replicate (proto_len d) tt)).
Proof. intros H H0 V. apply (proto_via_len f d p); [done|done|by apply proto_nonempty|by rewrite length_replicate]. Qed.

Lemma via_chunk_pieces {A} c n (l : list A) :
  concat ((fun f => rf f A l) <$> (via_chunk c <$> seq 0 n)) = take (n * c) l.
Proof.
  rewrite <-concat_pieces. f_equal. unfold pieces. rewrite <-list_fmap_compose. apply list_fmap_ext. intros _ i _. cbn. f_equal. lia.
Qed.

Lemma chunk_concat_ok auto d n :
  proto_ok d -> plain_meta (meta_info d) -> 0 < n -> 0 < proto_len d -> proto_len d mod n = 0 ->
  exists ps, chunk auto d n = Ok ps /\ Forall2 (fun i p => proto_via (via_chunk (proto_len d / n) i) d p) (seq 0 n) ps /\
    proto_concat ps = Ok d.
Proof.
  intros Hok Hm Hn Hlen Hmod. pose proof (Nat.div_mod_eq (proto_len d) n) as E. rewrite Hmod in E.
  set (c := proto_len d / n) in *. assert (Hc : 0 < c) by (destruct c; lia).
  destruct (chunk_even auto d n c Hok Hn Hc ltac:(lia)) as (ps & Hps & HF). exists ps. split; [done|]. split; [done|].
  destruct (proto_concat_via d (via_chunk c <$> seq 0 n) ps Hok Hm) as (d' & Hd' & V).
  - intros ->. inversion HF as [E0|]. destruct n; [lia|done].
  - by apply Forall2_fmap_l.
  - rewrite Hd'. f_equal. eapply proto_via_id; [done|exact V|]. intros A l El. cbn. rewrite via_chunk_pieces. apply take_ge. lia.
Qed.

(** ** Padding by cycling *)

Definition cycle (len m : nat) : list nat := (fun i => i mod len) <$> seq 0 m.

Lemma cycle_short len m : m <= len -> cycle len m = seq 0 m.
Proof.
  intros Hm. unfold cycle. transitivity (id <$> seq 0 m); [|by rewrite list_fmap_id]. apply list_fmap_ext.
  intros i x Hx. apply lookup_seq in Hx as [-> Hi]. cbn. apply Nat.mod_small. lia.
Qed.

Lemma cycle_more len m : 0 < len -> len <= m -> cycle len m = seq 0 len ++ cycle len (m - len).
Proof.
  intros Hl Hm. assert (Hs : seq 0 m = seq 0 len ++ seq len (m - len)) by (replace m with (len + (m - len)) at 1 by lia; apply seq_app).
  unfold cycle at 1. rewrite Hs, fmap_app. f_equal.
  - by apply cycle_short.
  - assert (Hs' : seq len (m - len) = Nat.add len <$> seq 0 (m - len)) by (rewrite fmap_add_seq; f_equal; lia).
    rewrite Hs', <-list_fmap_compose. unfold cycle. apply list_fmap_ext.
    intros _ i _. cbn. rewrite Nat.add_comm, <-(Nat.mul_1_l len) at 1. by rewrite Nat.Div0.mod_add.
Qed.

Lemma omap_seq_slice {A} (l : list A) j m : omap (fun i => l !! i) (seq j m) = take m (drop j l).
Proof.
  revert j. induction m as [|m IH]; intros j; [done|]. cbn. rewrite IH. destruct (l !! j) as [x|] eqn:E.
  - by rewrite (drop_S l x j).
  - apply lookup_ge_None in E. by rewrite !drop_ge, take_nil by lia.
Qed.

Lemma omap_seq_take {A} (l : list A) m : omap (fun i => l !! i) (seq 0 m) = take m l.
Proof. apply omap_seq_slice. Qed.

Lemma padding_protos_ok d fuel remaining :
  proto_ok d -> 0 < proto_len d -> remaining <= fuel ->
  exists fs ps, padding_protos fuel d remaining = Some (Ok ps) /\ Forall2 (fun f p => proto_via f d p) fs ps /\
    forall A (l : list A), length l = proto_len d ->
      concat ((fun f => rf f A l) <$> fs) = rf (via_take (cycle (proto_len d) remaining)) A l.
Proof.
  intros Hok Hlen. revert remaining. induction fuel as [|fuel IH]; intros remaining Hf.
  - assert (remaining = 0) as -> by lia. exists [], []. split; [done|]. split; [constructor|done].
  - cbn [padding_protos]. destruct (0 <? remaining) eqn:E0; [apply Nat.ltb_lt in E0|apply Nat.ltb_ge in E0].
    2: { assert (remaining = 0) as -> by lia. exists [], []. split; [done|]. split; [constructor|done]. }
    destruct (proto_slice_ok d None (Some (Z.of_nat (Nat.min remaining (proto_len d)))) Hok) as (p & -> & V).
    destruct (IH (remaining - Nat.min remaining (proto_len d))) as (fs & ps & -> & HF & Hrows); [lia|].
    eexists (_ :: fs), (p :: ps). split; [done|]. split; [constructor; [exact V|done]|].
    intros A l El. cbn [fmap list_fmap concat]. etransitivity; [apply f_equal, (Hrows A l El)|]. cbn [rf via_slice bound]. rewrite drop_0, Nat.sub_0_r.
    unfold py_bound. rewrite (proj2 (Z.ltb_ge _ _)) by lia. rewrite Nat2Z.id.
    destruct (le_lt_dec remaining (proto_len d)) as [Hle|Hlt].
    + rewrite (Nat.min_l remaining) by lia. rewrite Nat.min_l by lia. rewrite Nat.sub_diag. cbn [rf via_take cycle seq fmap list_fmap omap list_omap].
      rewrite app_nil_r, cycle_short by lia. symmetry. apply omap_seq_take.
    + rewrite (Nat.min_r remaining) by lia. rewrite Nat.min_id. cbn [rf via_take]. rewrite (cycle_more _ remaining) by lia.
      rewrite omap_app. f_equal. symmetry. apply omap_seq_take.
Qed.

Lemma pad_ok d n :
  proto_ok d -> plain_meta (meta_info d) -> 0 < n ->
  let pad := (n - proto_len d mod n) mod n in
  exists p, pad_dataproto_to_divisor d n = Some (Ok (p, pad)) /\
    proto_via (via_take (cycle (proto_len d) (proto_len d + pad))) d p.
Proof.
  intros Hok Hm Hn pad. unfold pad_dataproto_to_divisor. destruct (n =? 0) eqn:E0; [apply Nat.eqb_eq in E0; lia|].
  pose proof (Nat.mod_upper_bound (proto_len d) n) as Hub. destruct (proto_len d mod n =? 0) eqn:Emod.
  - apply Nat.eqb_eq in Emod. assert (pad = 0) as Hp by (subst pad; rewrite Emod, Nat.sub_0_r; apply Nat.Div0.mod_same).
    exists d. rewrite Hp, Nat.add_0_r, cycle_short by lia. split; [done|].
    assert (Hid : forall A (l : list A), length l = proto_len d -> rf (via_take (seq 0 (proto_len d))) A l = l).
    { intros A l El. cbn. rewrite omap_seq_take. apply take_ge. lia. }
    destruct Hok as [H1 H2 _]. split; [| |done].
    + destruct (batch d) as [b|] eqn:Eb; constructor. split; [done|]. symmetry. apply Hid. by apply H1.
    + apply Forall_Forall2_diag. eapply Forall_impl; [exact H2|]. intros [k v] Hv. split; [done|]. split; [done|]. symmetry. by apply Hid.
  - apply Nat.eqb_neq in Emod. assert (pad = n - proto_len d mod n) as Hp by (apply Nat.mod_small; lia). rewrite <-Hp.
    assert (Hlen : 0 < proto_len d). { destruct (proto_len d) as [|len]; [|lia]. by rewrite Nat.Div0.mod_0_l in Emod. }
    destruct (padding_protos_ok d pad pad Hok Hlen (le_n _)) as (fs & ps & -> & HF & Hrows).
    destruct (proto_concat_via d (via_id :: fs) (d :: ps) Hok Hm) as (p & -> & V); [done|constructor; [apply proto_via_refl|done]|].
    exists p. cbn. split; [done|]. eapply via_ext; [done| |exact V]. intros A l El. cbn [rf via_concat fmap list_fmap concat via_id].
    etransitivity; [apply f_equal, (Hrows A l El)|]. cbn [rf via_take]. rewrite (cycle_more _ (proto_len d + pad)) by lia.
    rewrite omap_app, omap_seq_take, take_ge by lia. do 3 f_equal. lia.
Qed.

Lemma cycle_length {A} (l : list A) m : 0 < length l -> length (omap (fun i => l !! i) (cycle (length l) m)) = m.
Proof.
  intros Hl. unfold cycle. generalize 0 as j. induction m as [|m IH]; intros j; [done|]. cbn.
  destruct (lookup_lt_is_Some_2 l (j mod length l)) as [x ->]; [apply Nat.mod_upper_bound; lia|]. cbn. by f_equal.
Qed.

Lemma cycle_lookup {A} (l : list A) m i : i < m -> omap (fun i => l !! i) (cycle (length l) m) !! i = l !! (i mod length l).
Proof.
  intros Hi. destruct (Nat.eq_0_gt_0_cases (length l)) as [E|Hl].
  { destruct l as [|]; [|done]. cbn [length]. rewrite lookup_nil.
    assert (forall idxs, omap (fun i => ([] : list A) !! i) idxs = []) as -> by (intros idxs; induction idxs; [done|cbn; by rewrite lookup_nil]).
    apply lookup_nil. }
  unfold cycle. assert (Hgen : forall j m i, i < m -> omap (fun i => l !! i) ((fun i => i mod length l) <$> seq j m) !! i = l !! ((j + i) mod length l)).
  { clear Hi i m. intros j m. revert j. induction m as [|m IH]; intros j i Hi; [lia|]. cbn.
    destruct (lookup_lt_is_Some_2 l (j mod length l)) as [x Hx]; [apply Nat.mod_upper_bound; lia|]. rewrite Hx.
    destruct i as [|i]; cbn; [by rewrite Nat.add_0_r|]. rewrite IH by lia. do 2 f_equal. lia. }
  by apply (Hgen 0).
Qed.

Lemma pad_divides len n : 0 < n -> (len + (n - len mod n) mod n) mod n = 0.
Proof.
  intros Hn. pose proof (Nat.mod_upper_bound len n). destruct (Nat.eq_0_gt_0_cases (len mod n)) as [E|Hp].
  - by rewrite E, Nat.sub_0_r, Nat.Div0.mod_same, Nat.add_0_r.
  - rewrite (Nat.mod_small (n - len mod n)) by lia. pose proof (Nat.div_mod_eq len n) as E.
    replace (len + (n - len mod n)) with ((len / n + 1) * n) by lia. apply Nat.Div0.mod_mul.
Qed.

Lemma repeated_length n interleave len : length (rf (via_repeated n interleave) _ (replicate len tt)) = n * len.
Proof.
  destruct interleave; cbn.
  - induction len as [|len IH]; cbn; [lia|]. rewrite length_app, length_replicate, IH. lia.
  - induction n as [|n IH]; cbn; [lia|]. rewrite length_app, length_replicate, IH. lia.
Qed.

(** ** Padding for the workers *)

Definition via_pad (padding_size i : nat) : rowfun := via_concat [via_id; via_comp (via_take [i]) (via_repeat padding_size)].

Lemma padding_ok d size (first : bool) :
  proto_ok d -> plain_meta (meta_info d) -> 0 < proto_len d ->
  exists p, padding d size first = Ok p /\ proto_via (via_pad size (if first then 0 else proto_len d - 1)) d p.
Proof.
  intros Hok Hm Hlen. set (i := if first then 0 else proto_len d - 1). unfold padding. destruct (size =? 0) eqn:E0.
  - apply Nat.eqb_eq in E0 as ->. exists d. split; [done|]. eapply via_ext; [done| |apply proto_via_refl]. intros A l El. cbn.
    destruct (l !! i); cbn; by rewrite app_nil_r.
  - assert ((if first || (0 <? proto_len d) || no_arrays d then Ok tt else Err IndexError) = Ok tt) as -> by
      (rewrite (proj2 (Nat.ltb_lt _ _) Hlen); by destruct first).
    cbn [mbind result_bind]. destruct (select_idxs_ok d [i] Hok) as (cand & Hc & Vc).
    { constructor; [|constructor]. subst i. destruct first; lia. }
    fold i. rewrite Hc. cbn [mbind result_bind].
    destruct (repeat_ok cand size true) as (part & -> & Vp); [by eapply proto_via_ok|]. cbn [mbind result_bind].
    destruct (proto_concat_via d [via_id; via_comp (via_take [i]) (via_repeat size)] [d; part] Hok Hm) as (p & -> & [V1 V2 V3]); [done| |].
    { constructor; [apply proto_via_refl|]. constructor; [|constructor]. by eapply proto_via_comp. }
    cbn [mbind result_bind]. eexists. split; [done|]. by split.
Qed.
End Proto.

(** ** Theorems *)

(** C39: slicing, selecting rows and repeating never fail on a well-formed batch
    (every array as long as the batch, distinct keys; the selected indices in
    range) and do the same to the rows of the tensors and of every array, keeping
    the keys and the meta information: a slice keeps the rows from [start] up to
    [stop], a selection returns the rows at the indices in their order, [repeat]
    returns every row [n] times in a row when it interleaves, and all rows [n] times
    otherwise.  The result is well formed and has as many rows as that gives. *)
Theorem row_operations_keep_type {T N O} `{ArrayLaws T, ArrayLaws N, !PyObj O} (d : DataProto (T := T) (N := N) (O := O)) :
  proto_ok d -> 0 < proto_len d ->
  (forall start stop, let i := bound (proto_len d) start 0 in let j := bound (proto_len d) stop (proto_len d) in
    exists p, proto_slice d start stop = Ok p /\ does (fun A (l : list A) => take (j - i) (drop i l)) d p /\
      proto_len p = Nat.min j (proto_len d) - i) /\
  (forall idxs, Forall (fun i => i < proto_len d) idxs ->
    exists p, select_idxs d idxs = Ok p /\ does (fun A (l : list A) => omap (fun i => l !! i) idxs) d p /\ proto_len p = length idxs) /\
  (forall n interleave,
    exists p, repeat d n interleave = Ok p /\
      does (fun A (l : list A) => if interleave : bool then concat (replicate n <$> l) else concat (replicate n l)) d p /\
      proto_len p = n * proto_len d).
Proof.
  intros Hok Hlen. split; [|split].
  - intros start stop i j. destruct (proto_slice_ok d start stop Hok) as (p & Hp & V). exists p.
    split; [done|]. split; [exact (via_does _ d p Hok V)|]. rewrite (via_length _ d p Hok Hlen V). cbn.
    rewrite length_take, length_drop, length_replicate. lia.
  - intros idxs Hi. destruct (select_idxs_ok d idxs Hok Hi) as (p & Hp & V). exists p.
    split; [done|]. split; [exact (via_does _ d p Hok V)|]. rewrite (via_length _ d p Hok Hlen V). cbn.
    clear -Hi. induction Hi as [|i idxs Hi _ IH]; [done|]. cbn. rewrite lookup_replicate_2 by done. cbn. by f_equal.
  - intros n inter. destruct (repeat_ok d n inter Hok) as (p & Hp & V). exists p.
    split; [done|]. split; [|rewrite (via_length _ d p Hok Hlen V); apply repeated_length].
    destruct inter; exact (via_does _ d p Hok V).
Qed.

(** C36: [chunk] into a number of pieces that divides a well-formed batch returns
    that many well-formed batches of equal length, and [concat] of them is the
    batch again (no "metrics" in the meta information, which [concat]
    rearranges, and only values that compare equal to themselves, which [concat]
    asserts). *)
Theorem chunk_concat_roundtrip {T N O} `{TensorLaws T, NumpyLaws N, !ArrayLaws T, !ArrayLaws N, !PyObj O} auto (d : DataProto (T := T) (N := N) (O := O)) n :
  proto_ok d -> plain_meta (meta_info d) -> 0 < n -> 0 < proto_len d -> proto_len d mod n = 0 ->
  exists ps, chunk auto d n = Ok ps /\ length ps = n /\
    Forall (fun p => proto_ok p /\ proto_len p = proto_len d / n /\ meta_info p = meta_info d) ps /\
    proto_concat ps = Ok d.
Proof.
  intros Hok Hm Hn Hlen Hmod. destruct (chunk_concat_ok auto d n Hok Hm Hn Hlen Hmod) as (ps & Hps & HF & Hcat).
  exists ps. split; [done|]. split; [by rewrite <-(Forall2_length _ _ _ HF), length_seq|]. split; [|done].
  apply Forall_lookup. intros i p Hp. destruct (Forall2_lookup_r _ _ _ _ _ HF Hp) as (j & Hj & V).
  apply lookup_seq in Hj as [-> Hj]. split; [by eapply proto_via_ok|]. split; [|apply V].
  rewrite (via_length _ d p Hok Hlen V). cbn. rewrite length_take, length_drop, length_replicate.
  pose proof (Nat.div_mod_eq (proto_len d) n). nia.
Qed.

(** [pad_dataproto_to_divisor] ends, and pads a well-formed batch to the next
    multiple of the divisor by cycling through its rows; [unpad_dataproto] with the
    size it returns gives the batch back. *)
Theorem pad_unpad_roundtrip {T N O} `{ArrayLaws T, ArrayLaws N, !PyObj O} (d : DataProto (T := T) (N := N) (O := O)) n :
  proto_ok d -> plain_meta (meta_info d) -> 0 < n ->
  exists p pad, pad_dataproto_to_divisor d n = Some (Ok (p, pad)) /\ proto_ok p /\ pad < n /\
    (0 < proto_len d -> proto_len p = proto_len d + pad) /\ (proto_len d + pad) mod n = 0 /\
    (forall t u, batch d = Some t -> batch p = Some u ->
       forall i, i < proto_len d + pad -> rows u !! i = rows t !! (i mod proto_len d)) /\
    unpad_dataproto p pad = Ok d.
Proof.
  intros Hok Hm Hn. destruct (pad_ok d n Hok Hm Hn) as (p & Hp & V).
  set (pad := (n - proto_len d mod n) mod n) in *. exists p, pad. split; [done|]. split; [by eapply proto_via_ok|].
  split; [by apply Nat.mod_upper_bound; lia|].
  assert (Hlen : forall A (l : list A), length l = proto_len d -> 0 < proto_len d ->
    length (rf (via_take (cycle (proto_len d) (proto_len d + pad))) A l) = proto_len d + pad).
  { intros A l El Hpos. rewrite <-El in *. cbn [rf via_take]. by apply cycle_length. }
  split.
  { intros Hpos. rewrite (via_length _ d p Hok Hpos V). apply Hlen; [apply length_replicate|done]. }
  split; [by apply pad_divides|]. split.
  - intros t u Ht Hu i Hi. pose proof (pv_batch _ _ _ V) as Vb. rewrite Ht, Hu in Vb. inversion Vb as [? ? [_ R]|]; subst.
    rewrite R. cbn [rf via_take]. rewrite <-(pk_batch _ Hok t Ht) in *. by apply cycle_lookup.
  - unfold unpad_dataproto. destruct (pad =? 0) eqn:E0.
    { apply Nat.eqb_eq in E0. f_equal. eapply proto_via_id; [done|exact V|]. intros A l El. rewrite E0, Nat.add_0_r. cbn.
      rewrite cycle_short, omap_seq_take, take_ge; lia || done. }
    assert (Hpos : 0 < proto_len d). { apply Nat.eqb_neq in E0. destruct (proto_len d) as [|len] eqn:El; [|lia]. subst pad.
      by rewrite Nat.Div0.mod_0_l, Nat.sub_0_r, Nat.Div0.mod_same in E0. }
    destruct (proto_slice_ok p None (Some (- Z.of_nat pad)%Z)) as (q & Hq & Vq); [by eapply proto_via_ok|].
    rewrite Hq. f_equal. eapply proto_via_id; [done|eapply proto_via_comp; [exact V|exact Vq]|]. intros A l El.
    cbn [rf via_comp via_slice]. rewrite (via_length _ d p Hok Hpos V), Hlen by (try done; apply length_replicate).
    cbn [bound]. rewrite drop_0, Nat.sub_0_r. replace (py_bound (proto_len d + pad) (- Z.of_nat pad)) with (proto_len d)
      by (unfold py_bound; rewrite (proj2 (Z.ltb_lt _ _)) by (apply Nat.eqb_neq in E0; lia); lia).
    cbn [rf via_take]. rewrite (cycle_more _ (proto_len d + pad)) by lia. rewrite omap_app, omap_seq_take, (take_ge l) by lia.
    by rewrite take_app_length' by done.
Qed.

(** ** An instance

    Lists of numbers as arrays, booleans as meta information. *)

Module ListArrays.

#[export] Instance list_ops : ArrayOps (list nat) := {|
    elem := nat; rows := id; same_kind := fun _ _ => True;
    a_slice := fun l i j => take (j - i) (drop i l);
    a_take := fun l idxs => of_option IndexError (mapM (fun i => l !! i) idxs);
    a_cat := fun ls => match ls with [] => Err RuntimeError | _ => Ok (concat ls) end;
    a_repeat := fun l n => concat (replicate n <$> l);
    a_tile := fun l n => concat (replicate n l);
  |}.

#[export] Instance list_laws : ArrayLaws (list nat).
Proof.
  split; try done.
  - intros l idxs Hi. enough (exists u, mapM (fun i => l !! i) idxs = Some u) as [u Hu].
    { exists u. cbn. unfold id in *. rewrite Hu. split; [done|]. split; [done|]. by apply mapM_Some. }
    apply mapM_is_Some. eapply Forall_impl; [exact Hi|]. intros i. apply lookup_lt_is_Some_2.
  - intros l ls Hin _. destruct ls as [|l0 ls]; [by apply not_elem_of_nil in Hin|]. exists (concat (l0 :: ls)).
    split; [done|]. split; [done|]. by rewrite list_fmap_id.
Qed.

#[export] Instance list_chunk : TensorOps (list nat) := {| t_chunk := fun l n => Ok (chop ((length l + n - 1) / n) l) |}.
#[export] Instance list_chunk_laws : TensorLaws (list nat).
Proof. split. intros l n Hn Hl. eexists. split; [done|]. cbn. rewrite list_fmap_id. split; [done|]. by apply Forall_forall. Qed.

#[export] Instance list_split : NumpyOps (list nat) := {|
  n_split_at := fun l ps => cut_at 0 ps l; n_split := fun l n => Ok (cut_at 0 (split_positions (length l) n) l) |}.
#[export] Instance list_split_laws : NumpyLaws (list nat).
Proof.
  split; intros; [|eexists; split; [done|]]; cbn; rewrite list_fmap_id; (split; [done|by apply Forall_forall]).
Qed.

#[export] Instance bool_obj : PyObj bool := {|
  py_eq := fun x y => Ok (Bool.eqb x y); truthy := id; is_none := fun _ => false; as_list := fun _ => None; as_dict := fun _ => None; of_dict_of_lists := fun _ => true |}.

Definition demo_proto : DataProto (T := list nat) (N := list nat) (O := bool) :=
  {| batch := Some [1; 2; 3; 4]; non_tensor_batch := [("uid", [10; 20; 30; 40])]; meta_info := ∅ |}.

Lemma demo_plain : plain_meta (meta_info demo_proto).
Proof. split; [done|]. intros k v. cbn. by rewrite lookup_empty. Qed.

Lemma demo_ok : proto_ok demo_proto.
Proof. split; [by intros b [= <-]|by repeat constructor|]. cbn. apply NoDup_singleton. Qed.

End ListArrays.
Import ListArrays.

Lemma row_operations_keep_type_witness :
  (exists p, repeat demo_proto 2 true = Ok p /\ batch p = Some [1; 1; 2; 2; 3; 3; 4; 4] /\ proto_ok p) /\
  (exists p, repeat demo_proto 2 false = Ok p /\ batch p = Some [1; 2; 3; 4; 1; 2; 3; 4] /\ proto_ok p) /\
  (exists p, select_idxs demo_proto [3; 1] = Ok p /\ batch p = Some [4; 2] /\ proto_len p = 2).
Proof.
  destruct (row_operations_keep_type demo_proto demo_ok ltac:(cbn; lia)) as (_ & Hs & H). split; [|split].
  - destruct (H 2 true) as (p & Hp & [V _ _ Hok] & _). exists p. split; [exact Hp|]. split; [|exact Hok].
    inversion V as [t u [_ Hu] Et Eu|Et Eu]. cbn in Hu. unfold id in Hu. by rewrite Hu.
  - destruct (H 2 false) as (p & Hp & [V _ _ Hok] & _). exists p. split; [exact Hp|]. split; [|exact Hok].
    inversion V as [t u [_ Hu] Et Eu|Et Eu]. cbn in Hu. unfold id in Hu. by rewrite Hu.
  - destruct (Hs [3; 1] ltac:(repeat constructor; lia)) as (p & Hp & [V _ _ _] & Hl). exists p. split; [exact Hp|]. split; [|exact Hl].
    inversion V as [t u [_ Hu] Et Eu|Et Eu]. cbn in Hu. unfold id in Hu. by rewrite Hu.
Defined.

Lemma chunk_concat_roundtrip_witness :
  exists ps, chunk false demo_proto 2 = Ok ps /\ batch <$> ps = [Some [1; 2]; Some [3; 4]] /\ proto_concat ps = Ok demo_proto.
Proof.
  destruct (chunk_concat_roundtrip false demo_proto 2 demo_ok demo_plain ltac:(lia) ltac:(cbn; lia) eq_refl) as (ps & Hps & _ & _ & Hc).
  exists ps. split; [exact Hps|]. split; [|exact Hc]. revert Hps. cbn. intros [= <-]. reflexivity.
Defined.

Lemma pad_unpad_roundtrip_witness :
  exists p, pad_dataproto_to_divisor demo_proto 3 = Some (Ok (p, 2)) /\ batch p = Some [1; 2; 3; 4; 1; 2] /\
    unpad_dataproto p 2 = Ok demo_proto.
Proof.
  destruct (pad_unpad_roundtrip demo_proto 3 demo_ok demo_plain ltac:(lia)) as (p & pad & Hp & _ & _ & _ & _ & _ & Hu).
  assert (exists q, pad_dataproto_to_divisor demo_proto 3 = Some (Ok (q, 2)) /\ batch q = Some [1; 2; 3; 4; 1; 2]) as (q & Hq & Hb)
    by (eexists; split; reflexivity).
  rewrite Hp in Hq. injection Hq as -> ->. exists q. split; [exact Hp|]. split; [exact Hb|exact Hu].
Defined.
