(* ===== verification/Dispatch.v ===== *)
(** * The single controller's dispatch

    How a call on a worker group is cut over its workers and put together again
    ([verl/single_controller/base/decorator.py], [func_generator] and the
    execution functions of [verl/single_controller/ray/base.py]).  The workers'
    methods are a parameter.  A batch that the caller holds is an object of the
    heap, which padding changes. *)

From S2P Require Import Prelude PyDict Protocol.

(** ** Modes *)

Inductive DispatchMode :=
  | RANK_ZERO | ONE_TO_ALL | ALL_TO_ALL | DP_COMPUTE | DP_COMPUTE_PROTO | DP_COMPUTE_PROTO_WITH_FUNC | DP_COMPUTE_METRIC
  | DIRECT_ROLLOUT_METHOD
  | ND_COMPUTE (mesh_name : string).       (* [make_nd_compute_dataproto_dispatch_fn] *)

Inductive ExecuteMode := EXECUTE_ALL | EXECUTE_RANK_ZERO.

Section Dispatch.
Context {T N O F : Type} `{!ArrayOps T} `{!ArrayOps N} `{!TensorOps T} `{!NumpyOps N} `{!PyObj O}.
Context (auto_padding : bool).

Notation DataProto := (DataProto (T := T) (N := N) (O := O)).

(** A Python value, as far as the dispatch looks at it: a caller's batch, a batch
    nobody else holds, a future batch, an object reference (with what its worker
    answers), a list, a function, anything else. *)
Inductive value :=
  | VRef (r : nat)
  | VData (d : DataProto)
  | VFuture (futures : list (result value)) (select : option (nat * nat))
  | VObj (answer : result value)
  | VList (l : list value)
  | VFun (f : F)
  | VOther (o : O).

Notation batches := (gmap nat DataProto).

Definition py_len (h : batches) (v : value) : result nat :=
  match v with
  | VList l => Ok (length l)
  | VData d => Ok (proto_len d)
  | VRef r => match h !! r with Some d => Ok (proto_len d) | None => Err KeyError end
  | _ => Err TypeError
  end.

Definition is_list (v : value) : bool := match v with VList _ => true | _ => false end.
Definition is_list_of (n : nat) (v : value) : bool := match v with VList l => length l =? n | _ => false end.
Definition list_item (i : nat) (v : value) : result value :=
  match v with VList l => of_option IndexError (l !! i) | _ => Err TypeError end.

Definition map_values {A B} (f : A -> result B) (kw : dict A) : result (dict B) :=
  mapM_ok (fun '(k, v) => v ← f v; Ok (k, v)) kw.

(** ** Futures *)

(** [DataProtoFuture.chunk] *)
Definition future_chunk (futures : list (result value)) (chunks : nat) : list value :=
  (fun i => VFuture futures (Some (i, chunks))) <$> seq 0 chunks.

(** [DataProtoFuture.get], for batches *)
Definition future_get (futures : list (result value)) (select : option (nat * nat)) : result value :=
  output ← mapM_ok id futures;
  ds ← mapM_ok (fun v => match v with VData d => Ok d | _ => Err AssertionError end) output;
  _ ← of_option IndexError (head ds);
  d ← proto_concat ds;
  match select with
  | None => Ok (VData d)
  | Some (i, chunks) => ps ← chunk auto_padding d chunks; p ← of_option IndexError (ps !! i); Ok (VData p)
  end.

Definition materialize (v : value) : result value :=
  match v with VFuture fs select => future_get fs select | _ => Ok v end.

(** ** Cutting the arguments *)

(** [BatchData(v).chunk] after [is_chunkable] *)
Definition batch_chunk (h : batches) (chunks : nat) (v : value) : result value :=
  match v with
  | VRef r => d ← of_option KeyError (h !! r); ps ← chunk auto_padding d chunks; Ok (VList (VData <$> ps))
  | VData d => ps ← chunk auto_padding d chunks; Ok (VList (VData <$> ps))
  | VFuture fs _ => Ok (VList (future_chunk fs chunks))
  | _ => Err AssertionError
  end.

Definition split_one (h : batches) (chunks : nat) (v : value) : result value :=
  l ← batch_chunk h chunks v; _ ← py_assert (is_list_of chunks l); Ok l.

Definition split_args_kwargs_data_proto (h : batches) (chunks : nat) (args : list value) (kwargs : dict value) :
    result (list value * dict value) :=
  args ← mapM_ok (split_one h chunks) args;
  kwargs ← map_values (split_one h chunks) kwargs;
  Ok (args, kwargs).

(** The heap and the enclosing function's [data_proto_len] with [padding_size]. *)
Definition pad_state : Type := batches * option (nat * nat).

(** The size every argument shares. *)
Definition shared_padding (s : option (nat * nat)) (len chunks : nat) : result (nat * nat) :=
  match s with
  | None => if chunks =? 0 then Err ZeroDivisionError
            else Ok (len, if 0 <? len mod chunks then chunks - len mod chunks else 0)
  | Some (data_proto_len, padding_size) => _ ← py_assert (data_proto_len =? len); Ok (data_proto_len, padding_size)
  end.

(** [_padding_and_split_data]: the object itself is padded. *)
Definition pad_and_chunk (s : option (nat * nat)) (chunks : nat) (d : DataProto) :
    result (option (nat * nat) * DataProto * value) :=
  '(s, d) ← (if is_padding_enabled auto_padding d then
               '(len, size) ← shared_padding s (proto_len d) chunks;
               d ← padding d size false; Ok (Some (len, size), d)
             else Ok (s, d));
  ps ← chunk auto_padding d chunks;
  Ok (s, d, VList (VData <$> ps)).

Definition padding_and_split_data (chunks : nat) (st : pad_state) (v : value) : result (pad_state * value) :=
  let '(h, s) := st in
  match v with
  | VRef r => d ← of_option KeyError (h !! r);
              '(s, d, l) ← pad_and_chunk s chunks d;
              Ok ((<[r := d]> h, s), l)
  | VData d => '(s, d, l) ← pad_and_chunk s chunks d; Ok ((h, s), l)
  | VFuture fs _ => Ok ((h, s), VList (future_chunk fs chunks))
  | _ => Err AssertionError
  end.

(** In the order of the arguments, the positional ones first. *)
Fixpoint split_each (chunks : nat) (st : pad_state) (vs : list value) : result (pad_state * list value) :=
  match vs with
  | [] => Ok (st, [])
  | v :: vs => '(st, l) ← padding_and_split_data chunks st v; '(st, ls) ← split_each chunks st vs; Ok (st, l :: ls)
  end.

(** What a dispatch returns: the arguments, and the padding size stored among the
  keyword arguments under its own key. *)
Record dispatched := {
  d_args : list value;
  d_kwargs : dict value;
  d_padding : option nat;
}.

Definition split_args_kwargs_data_proto_with_auto_padding (h : batches) (chunks : nat) (args : list value) (kwargs : dict value) :
    result (batches * dispatched) :=
  '(st, ls) ← split_each chunks (h, None) args;
  '(st, kls) ← split_each chunks st (snd <$> kwargs);
  Ok (st.1, {| d_args := ls; d_kwargs := zip (keys kwargs) kls; d_padding := snd <$> st.2 |}).

(** ** Worker groups *)

Section Group.
Context {W : Type}.
Context (invoke : W -> string -> list value -> dict value -> W * result value).
Context (query_dispatch_info : string -> list nat) (query_collect_info : string -> list bool).

Record WorkerGroup := {
  workers : list W;
  dispatch_info : gmap string (list nat);
  collect_info : gmap string (list bool);
}.

Definition world_size (g : WorkerGroup) : nat := length (workers g).

Definition set_workers (ws : list W) (g : WorkerGroup) : WorkerGroup :=
  {| workers := ws; dispatch_info := dispatch_info g; collect_info := collect_info g |}.
Definition set_dispatch_info (i : gmap string (list nat)) (g : WorkerGroup) : WorkerGroup :=
  {| workers := workers g; dispatch_info := i; collect_info := collect_info g |}.
Definition set_collect_info (i : gmap string (list bool)) (g : WorkerGroup) : WorkerGroup :=
  {| workers := workers g; dispatch_info := dispatch_info g; collect_info := i |}.

(** ** Dispatch functions *)

Definition plain (args : list value) (kwargs : dict value) : dispatched := {| d_args := args; d_kwargs := kwargs; d_padding := None |}.

Definition dispatch_one_to_all (g : WorkerGroup) (args : list value) (kwargs : dict value) : dispatched :=
  plain ((fun arg => VList (replicate (world_size g) arg)) <$> args) (prod_map id (fun v => VList (replicate (world_size g) v)) <$> kwargs).

Definition dispatch_dp_compute (g : WorkerGroup) (args : list value) (kwargs : dict value) : result dispatched :=
  _ ← py_assert (forallb (is_list_of (world_size g)) args);
  _ ← py_assert (forallb (fun x => is_list_of (world_size g) x.2) kwargs);
  Ok (plain args kwargs).

Definition dispatch_dp_compute_data_proto (h : batches) (g : WorkerGroup) (args : list value) (kwargs : dict value) :
    result (batches * dispatched) :=
  split_args_kwargs_data_proto_with_auto_padding h (world_size g) args kwargs.

Definition dispatch_dp_compute_data_proto_with_func (h : batches) (g : WorkerGroup) (args : list value) (kwargs : dict value) :
    result dispatched :=
  f ← of_option IndexError (head args);
  _ ← py_assert (match f with VFun _ => true | _ => false end);
  '(l, kl) ← split_args_kwargs_data_proto h (world_size g) (drop 1 args) kwargs;
  Ok (plain (VList (replicate (world_size g) f) :: l) kl).

(** [ray.put] keeps the value; no piece at all is an assertion. *)
Definition parallel_put (v : value) : result value :=
  match v with VList [] => Err AssertionError | VList l => Ok (VList l) | _ => Err TypeError end.

(** The piece of the worker's data-parallel rank. *)
Definition spread (dp_rank_mapping : list nat) (dp_size world : nat) (v : value) : result value :=
  _ ← py_assert (is_list_of dp_size v);
  l ← mapM_ok (fun i => rank ← of_option IndexError (dp_rank_mapping !! i); list_item rank v) (seq 0 world);
  Ok (VList l).

Definition dispatch_nd_compute (dp_rank_mapping : list nat) (dp_size : nat) (h : batches) (g : WorkerGroup) (args : list value)
    (kwargs : dict value) : result dispatched :=
  a0 ← of_option IndexError (head args);
  _ ← py_len h a0;
  args ← mapM_ok parallel_put args;
  kwargs ← map_values parallel_put kwargs;
  args ← mapM_ok (spread dp_rank_mapping dp_size (world_size g)) args;
  kwargs ← map_values (spread dp_rank_mapping dp_size (world_size g)) kwargs;
  Ok (plain args kwargs).

Definition dispatch_nd_compute_dataproto (dp_rank_mapping : list nat) (dp_size : nat) (h : batches) (g : WorkerGroup)
    (args : list value) (kwargs : dict value) : result dispatched :=
  '(args, kwargs) ← split_args_kwargs_data_proto h dp_size args kwargs;
  dispatch_nd_compute dp_rank_mapping dp_size h g args kwargs.

(** The workers are asked for their ranks once per mesh. *)
Definition query_ranks (g : WorkerGroup) (mesh_name : string) : result (WorkerGroup * list nat) :=
  match dispatch_info g !! mesh_name with
  | Some m => Ok (g, m)
  | None => let m := query_dispatch_info mesh_name in
            _ ← py_assert (length m =? world_size g);
            Ok (set_dispatch_info (<[mesh_name := m]> (dispatch_info g)) g, m)
  end.

Definition dispatch_lazy_compute_data_proto (mesh_name : string) (h : batches) (g : WorkerGroup) (args : list value)
    (kwargs : dict value) : result (WorkerGroup * dispatched) :=
  '(g, dp_rank_mapping) ← query_ranks g mesh_name;
  _ ← (match dp_rank_mapping with [] => Err ValueError | _ => Ok tt end);
  let dp_size := S (max_list dp_rank_mapping) in
  d ← dispatch_nd_compute_dataproto dp_rank_mapping dp_size h g args kwargs;
  Ok (g, d).

(** ** Collect functions *)

Definition collect_dp_compute (h : batches) (g : WorkerGroup) (output : value) : result value :=
  n ← py_len h output; _ ← py_assert (n =? world_size g); Ok output.

(** [BatchData(output).is_concatable] *)
Definition is_concatable (output : value) : bool :=
  match output with VList (VData _ :: _) | VList (VObj _ :: _) => true | _ => false end.

(** [_concat_data_proto_or_future]: all of the first one's type *)
Definition concat_data_proto_or_future (output : value) : result value :=
  match output with
  | VList (VData d :: l) => ds ← mapM_ok (fun v => match v with VData d => Ok d | _ => Err AssertionError end) (VData d :: l);
                            d ← proto_concat ds; Ok (VData d)
  | VList (VObj a :: l) => fs ← mapM_ok (fun v => match v with VObj a => Ok a | _ => Err AssertionError end) (VObj a :: l);
                           Ok (VFuture fs None)
  | VList [] => Err ValueError
  | _ => Err TypeError
  end.

Definition collect_dp_compute_data_proto (h : batches) (g : WorkerGroup) (output : value) : result value :=
  _ ← py_assert (is_concatable output);
  output ← collect_dp_compute h g output;
  concat_data_proto_or_future output.

Definition collect_nd_compute (collect_mask : list bool) (h : batches) (g : WorkerGroup) (output : value) : result value :=
  n ← py_len h output;
  _ ← py_assert (n =? world_size g);
  picked ← mapM_ok (fun i => keep ← of_option IndexError (collect_mask !! i);
                             if keep : bool then v ← list_item i output; Ok [v] else Ok []) (seq 0 (world_size g));
  Ok (VList (concat picked)).

Definition collect_nd_compute_dataproto (collect_mask : list bool) (h : batches) (g : WorkerGroup) (output : value) : result value :=
  output ← collect_nd_compute collect_mask h g output;
  _ ← py_assert (is_concatable output);
  concat_data_proto_or_future output.

Definition query_mask (g : WorkerGroup) (mesh_name : string) : result (WorkerGroup * list bool) :=
  match collect_info g !! mesh_name with
  | Some m => Ok (g, m)
  | None => let m := query_collect_info mesh_name in
            _ ← py_assert (length m =? world_size g);
            Ok (set_collect_info (<[mesh_name := m]> (collect_info g)) g, m)
  end.

Definition collect_lazy_compute_data_proto (mesh_name : string) (h : batches) (g : WorkerGroup) (output : value) :
    result (WorkerGroup * value) :=
  _ ← py_assert (bool_decide (is_Some (dispatch_info g !! mesh_name)));
  '(g, collect_mask) ← query_mask g mesh_name;
  v ← collect_nd_compute_dataproto collect_mask h g output;
  Ok (g, v).

(** ** Execution *)

Definition materialize_futures (args : list value) (kwargs : dict value) : result (list value * dict value) :=
  args ← mapM_ok materialize args; kwargs ← map_values materialize kwargs; Ok (args, kwargs).

(** What crosses the process boundary is a copy. *)
Fixpoint serialize (h : batches) (v : value) : value :=
  match v with
  | VRef r => match h !! r with Some d => VData d | None => v end
  | VList l => VList (map (serialize h) l)
  | _ => v
  end.

(** A remote method wrapped by [register]. *)
Definition remote (h : batches) (materialize_them : bool) (w : W) (method_name : string) (args : list value) (kwargs : dict value) : W * result value :=
  let args := serialize h <$> args in
  let kwargs := prod_map id (serialize h) <$> kwargs in
  if materialize_them then
    match materialize_futures args kwargs with
    | Ok (args, kwargs) => invoke w method_name args kwargs
    | Err e => (w, Err e)
    end
  else invoke w method_name args kwargs.

(** The arguments worker [i] gets. *)
Definition worker_args (g : WorkerGroup) (args : list value) (kwargs : dict value) (i : nat) : result (list value * dict value) :=
  if forallb is_list args && forallb (fun x => is_list x.2) kwargs &&
     (forallb (is_list_of (world_size g)) args && forallb (fun x => is_list_of (world_size g) x.2) kwargs)
  then args ← mapM_ok (list_item i) args; kwargs ← map_values (list_item i) kwargs; Ok (args, kwargs)
  else Ok (args, kwargs).

Definition execute_all (h : batches) (materialize_them : bool) (g : WorkerGroup) (method_name : string) (args : list value)
    (kwargs : dict value) : result (WorkerGroup * value) :=
  calls ← mapM_ok (fun '(i, w) => '(a, k) ← worker_args g args kwargs i; Ok (remote h materialize_them w method_name a k))
            (imap pair (workers g));
  Ok (set_workers (fst <$> calls) g, VList (VObj ∘ snd <$> calls)).

Definition execute_rank_zero (h : batches) (materialize_them : bool) (g : WorkerGroup) (method_name : string) (args : list value)
    (kwargs : dict value) : result (WorkerGroup * value) :=
  match workers g with
  | [] => Err IndexError
  | w :: ws => let '(w, a) := remote h materialize_them w method_name args kwargs in Ok (set_workers (w :: ws) g, VObj a)
  end.

(** [ray.get] of a reference or of a list of them *)
Definition ray_get (v : value) : result value :=
  match v with
  | VObj a => a
  | VList l => l ← mapM_ok (fun v => match v with VObj a => a | _ => Err ValueError end) l; Ok (VList l)
  | _ => Err ValueError
  end.

(** ** The bound method *)

(** The registry of the modes, and [make_nd_compute_dataproto_dispatch_fn]. *)
Definition dispatch_fn (mode : DispatchMode) (h : batches) (g : WorkerGroup) (args : list value) (kwargs : dict value) :
    result (batches * WorkerGroup * dispatched) :=
  match mode with
  | RANK_ZERO => Err KeyError
  | ONE_TO_ALL => Ok (h, g, dispatch_one_to_all g args kwargs)
  | ALL_TO_ALL => Ok (h, g, plain args kwargs)
  | DP_COMPUTE => d ← dispatch_dp_compute g args kwargs; Ok (h, g, d)
  | DP_COMPUTE_PROTO | DP_COMPUTE_METRIC => '(h, d) ← dispatch_dp_compute_data_proto h g args kwargs; Ok (h, g, d)
  | DP_COMPUTE_PROTO_WITH_FUNC => d ← dispatch_dp_compute_data_proto_with_func h g args kwargs; Ok (h, g, d)
  | DIRECT_ROLLOUT_METHOD => Err NotImplementedError
  | ND_COMPUTE mesh => '(g, d) ← dispatch_lazy_compute_data_proto mesh h g args kwargs; Ok (h, g, d)
  end.

Definition collect_fn (mode : DispatchMode) (h : batches) (g : WorkerGroup) (output : value) : result (WorkerGroup * value) :=
  match mode with
  | RANK_ZERO => Err KeyError
  | ONE_TO_ALL | ALL_TO_ALL => Ok (g, output)
  | DP_COMPUTE | DP_COMPUTE_METRIC => v ← collect_dp_compute h g output; Ok (g, v)
  | DP_COMPUTE_PROTO | DP_COMPUTE_PROTO_WITH_FUNC => v ← collect_dp_compute_data_proto h g output; Ok (g, v)
  | DIRECT_ROLLOUT_METHOD => Err NotImplementedError
  | ND_COMPUTE mesh => collect_lazy_compute_data_proto mesh h g output
  end.

Definition execute_fn (mode : ExecuteMode) :=
  match mode with EXECUTE_ALL => execute_all | EXECUTE_RANK_ZERO => execute_rank_zero end.

(** The rows added for the workers are taken off. *)
Definition strip_padding (padding_count : nat) (output : value) : result value :=
  if 0 <? padding_count then
    match output with
    | VData d => d ← select_idxs d (take (proto_len d - padding_count) (seq 0 (proto_len d))); Ok (VData d)
    | VList l => Ok (VList (take (length l - padding_count) l))
    | _ => Ok output
    end
  else Ok output.

(** [func_generator]: the method that [_bind_worker_method] puts on the group. *)
Definition functor_call (method_name : string) (mode : DispatchMode) (exec : ExecuteMode) (blocking materialize_them : bool)
    (h : batches) (g : WorkerGroup) (args : list value) (kwargs : dict value) : result (batches * WorkerGroup * value) :=
  '(h, g, d) ← dispatch_fn mode h g args kwargs;
  let padding_count := default 0 (d_padding d) in
  '(g, output) ← execute_fn exec h materialize_them g method_name (d_args d) (d_kwargs d);
  output ← (if blocking then ray_get output else Ok output);
  '(g, output) ← collect_fn mode h g output;
  output ← strip_padding padding_count output;
  Ok (h, g, output).

(** ** Row by row

  What the workers do to a batch of rows does not depend on the other rows. *)

Record rowwise (f : DataProto -> result DataProto) : Prop := {
  rw_run : forall d, proto_ok d -> 0 < proto_len d -> plain_meta (meta_info d) ->
    exists o, f d = Ok o /\ proto_ok o /\ proto_len o = proto_len d /\ plain_meta (meta_info o);
  rw_rows : forall d idxs p o, proto_ok d -> proto_via (via_take idxs) d p -> Forall (fun i => i < proto_len d) idxs ->
    0 < length idxs -> plain_meta (meta_info d) -> f d = Ok o -> exists q, f p = Ok q /\ proto_via (via_take idxs) o q;
}.

Context `{!ArrayLaws T} `{!ArrayLaws N} `{!TensorLaws T} `{!NumpyLaws N}.

Lemma chunk_via_take (d : DataProto) c i p :
  proto_ok d -> i * c + c <= proto_len d -> proto_via (via_chunk c i) d p -> proto_via (via_take (seq (i * c) c)) d p.
Proof.
  intros Hok Hi. apply via_ext; [done|]. intros A l El. cbn [rf via_chunk via_slice via_take].
  rewrite omap_seq_slice. f_equal. lia.
Qed.

(** The workers' answers to the pieces of a batch, put together. *)
Lemma chunk_run_concat f d n c o :
  rowwise f -> proto_ok d -> plain_meta (meta_info d) -> 0 < n -> 0 < c -> proto_len d = n * c -> f d = Ok o ->
  exists ps os, chunk auto_padding d n = Ok ps /\ length ps = n /\ mapM_ok f ps = Ok os /\ length os = n /\ proto_concat os = Ok o.
Proof.
  intros [Hrun Hrows] Hok Hm Hn Hc E Ho. destruct (Hrun d Hok ltac:(lia) Hm) as (o' & Ho' & Hoko & Hleno & Hmo).
  rewrite Ho in Ho'. injection Ho' as <-.
  destruct (chunk_even auto_padding d n c Hok Hn Hc E) as (ps & Hps & HF).
  assert (Hos : exists os, mapM_ok f ps = Ok os /\ Forall2 (fun i q => proto_via (via_take (seq (i * c) c)) o q) (seq 0 n) os).
  { clear Hps. assert (Hall : forall i, i ∈ seq 0 n -> i < n) by (intros i Hi%elem_of_seq; lia). revert HF Hall.
    generalize (seq 0 n) as is0. intros is0 HF. induction HF as [|i p is1 ps V HF IH]; intros Hall; [exists []; split; [done|constructor]|].
    destruct IH as (os & IH1 & IH2); [intros j Hj; apply Hall; by right|]. specialize (Hall i ltac:(by left)).
    destruct (Hrows d (seq (i * c) c) p o) as (q & Hq & Vq); [done|apply chunk_via_take; [done|nia|done]| | |done|done|].
    - apply Forall_forall. intros j Hj%elem_of_seq. nia.
    - by rewrite length_seq.
    - exists (q :: os). cbn [mapM_ok]. rewrite Hq. cbn [mbind result_bind]. rewrite IH1. split; [done|by constructor]. }
  destruct Hos as (os & Hos & HFo). exists ps, os. split; [done|]. split; [by rewrite <-(Forall2_length _ _ _ HF), length_seq|].
  split; [done|]. assert (Hlo : length os = n) by (by rewrite <-(Forall2_length _ _ _ HFo), length_seq). split; [done|].
  destruct (proto_concat_via o ((fun i => via_take (seq (i * c) c)) <$> seq 0 n) os Hoko Hmo) as (o' & Ho' & V).
  - intros ->. cbn in Hlo. lia.
  - by apply Forall2_fmap_l.
  - rewrite Ho'. f_equal. eapply proto_via_id; [done|exact V|]. intros A l El. cbn [rf via_concat]. rewrite <-list_fmap_compose.
    transitivity (take (n * c) l); [|apply take_ge; lia]. rewrite <-concat_pieces. f_equal. unfold pieces. apply list_fmap_ext.
    intros _ i _. cbn [rf via_take compose]. apply omap_seq_slice.
Qed.

(** ** Calls *)

(** The method does [f] to its only argument, whatever the worker's state. *)
Definition computes (method_name : string) (f : DataProto -> result value) : Prop :=
  forall w p, snd (invoke w method_name [VData p] []) = f p.

Definition answering (f : DataProto -> result DataProto) (p : DataProto) : result value := o ← f p; Ok (VData o).

(** Another group of the same size that knows as much. *)
Definition same_group (g g' : WorkerGroup) : Prop :=
  world_size g' = world_size g /\ dispatch_info g' = dispatch_info g /\ collect_info g' = collect_info g.

Lemma remote_data h mat w name p : remote h mat w name [VData p] [] = invoke w name [VData p] [].
Proof. by destruct mat. Qed.

Lemma execute_pieces h mat g name f ps os :
  computes name f -> length ps = world_size g -> mapM_ok f ps = Ok os ->
  exists g', execute_all h mat g name [VList (VData <$> ps)] [] = Ok (g', VList (VObj ∘ Ok <$> os)) /\ same_group g g'.
Proof.
  intros Hf Hl Hos. unfold execute_all.
  set (piece := fun i => from_option VData (VList []) (ps !! i)).
  rewrite (mapM_ok_total _ (fun x => invoke x.2 name [piece x.1] []) (imap pair (workers g))).
  2: { intros [i w] Hin. apply elem_of_lookup_imap in Hin as (j & w' & [= <- <-] & Hw). apply lookup_lt_Some in Hw.
    unfold world_size in Hl. destruct (lookup_lt_is_Some_2 ps i ltac:(lia)) as [p Hp]. unfold worker_args. cbn [forallb is_list is_list_of snd].
    rewrite length_fmap, Hl. unfold world_size. rewrite Nat.eqb_refl. cbn [andb mapM_ok list_item]. rewrite list_lookup_fmap. subst piece. cbn [fst snd]. rewrite Hp.
    cbn. by rewrite remote_data. }
  cbn [mbind result_bind]. eexists. split; [do 3 f_equal|].
  - apply list_eq. intros i. rewrite list_fmap_compose, <-list_fmap_compose, !list_lookup_fmap, list_lookup_imap. apply mapM_ok_Forall2 in Hos.
    unfold world_size in Hl. destruct (workers g !! i) as [w|] eqn:Ew; cbn.
    + pose proof (lookup_lt_Some _ _ _ Ew). destruct (lookup_lt_is_Some_2 ps i ltac:(lia)) as [p Hp].
      destruct (Forall2_lookup_l _ _ _ _ _ Hos Hp) as (o & Ho & Hfo). rewrite Ho. cbn. subst piece. cbn. rewrite Hp. cbn.
      by rewrite Hf, Hfo.
    + apply lookup_ge_None in Ew. rewrite (lookup_ge_None_2 os i); [done|]. rewrite <-(Forall2_length _ _ _ Hos). lia.
  - split; [|done]. unfold world_size. cbn. by rewrite !length_fmap, length_imap.
Qed.

Lemma answers_data f ps os : mapM_ok f ps = Ok os -> mapM_ok (answering f) ps = Ok (VData <$> os).
Proof.
  intros H%mapM_ok_Forall2. apply mapM_ok_Forall2, Forall2_fmap_r. eapply Forall2_impl; [exact H|].
  intros p o E. cbn. unfold answering. by rewrite E.
Qed.

Lemma ray_get_answers (os : list value) : ray_get (VList (VObj ∘ Ok <$> os)) = Ok (VList os).
Proof.
  cbn. rewrite (mapM_ok_total _ (fun v => match v with VObj (Ok x) => x | _ => v end)).
  - cbn. do 2 f_equal. rewrite <-list_fmap_compose. transitivity (id <$> os); [by apply list_fmap_ext|apply list_fmap_id].
  - intros v Hv. apply list_elem_of_fmap in Hv as (o & -> & _). done.
Qed.

Lemma concat_answers (os : list DataProto) o :
  os <> [] -> proto_concat os = Ok o -> concat_data_proto_or_future (VList (VData <$> os)) = Ok (VData o).
Proof.
  intros Hne Hc. destruct os as [|o0 os]; [done|]. cbn [fmap list_fmap concat_data_proto_or_future].
  change (VData o0 :: (VData <$> os)) with (VData <$> (o0 :: os)).
  assert (mapM_ok (fun v => match v with VData d => Ok d | _ => Err AssertionError end) (VData <$> (o0 :: os)) = Ok (o0 :: os)) as ->.
  { clear. generalize (o0 :: os) as l. induction l as [|d l IH]; [done|]. cbn in *. by rewrite IH. }
  cbn [mbind result_bind]. by rewrite Hc.
Qed.

(** Enough padding for the workers. *)
Lemma padding_size_divides len n :
  0 < n -> 0 < len -> let size := if 0 <? len mod n then n - len mod n else 0 in
  exists c, 0 < c /\ len + size = n * c /\ size = (n - len mod n) mod n.
Proof.
  intros Hn Hlen size. assert (Hsize : size = (n - len mod n) mod n).
  { subst size. pose proof (Nat.mod_upper_bound len n). destruct (Nat.ltb_spec 0 (len mod n)).
    - symmetry. apply Nat.mod_small. lia.
    - replace (len mod n) with 0 by lia. by rewrite Nat.sub_0_r, Nat.Div0.mod_same. }
  pose proof (pad_divides len n Hn) as Hd. rewrite <-Hsize in Hd. pose proof (Nat.div_mod_eq (len + size) n) as E. rewrite Hd in E.
  exists ((len + size) / n). split; [|split; [lia|done]]. destruct ((len + size) / n); lia.
Qed.

(** The rows of a padded batch: its own, and copies of the last one. *)
Lemma padded_rows (d : DataProto) size p :
  proto_ok d -> 0 < proto_len d -> proto_via (via_pad size (proto_len d - 1)) d p ->
  proto_via (via_take (seq 0 (proto_len d) ++ replicate size (proto_len d - 1))) d p /\ proto_len p = proto_len d + size.
Proof.
  intros Hok Hlen V.
  assert (E : forall A (l : list A), length l = proto_len d ->
    rf (via_pad size (proto_len d - 1)) A l = rf (via_take (seq 0 (proto_len d) ++ replicate size (proto_len d - 1))) A l).
  { intros A l El. cbn. rewrite app_nil_r, omap_app, omap_seq_take, take_ge by lia. f_equal.
    destruct (lookup_lt_is_Some_2 l (proto_len d - 1) ltac:(lia)) as [x Hx]. rewrite Hx. cbn. rewrite app_nil_r.
    clear -Hx. induction size as [|n IH]; [done|]. cbn. by rewrite Hx, <-IH. }
  split; [by eapply via_ext|]. rewrite (via_length _ d p Hok Hlen V), E by apply length_replicate. cbn.
  rewrite omap_app, length_app, omap_seq_take, length_take, length_replicate, Nat.min_id. f_equal.
  clear -Hlen. induction size as [|n IH]; [done|]. cbn. rewrite lookup_replicate_2 by lia. cbn. by f_equal.
Qed.

(** Taking the added rows off again. *)
Lemma strip_padding_ok o size po p (d : DataProto) :
  proto_ok o -> proto_len o = proto_len d -> 0 < proto_len d -> proto_ok po -> proto_len po = proto_len d + size ->
  proto_via (via_take (seq 0 (proto_len d) ++ replicate size p)) o po -> strip_padding size (VData po) = Ok (VData o).
Proof.
  intros Hok Hlen Hpos Hokp Hlenp V. unfold strip_padding.
  assert (Htake : forall A (l : list A), length l = proto_len o ->
    rf (via_comp (via_take (seq 0 (proto_len d) ++ replicate size p)) (via_take (seq 0 (proto_len d)))) A l = l).
  { intros A l El. cbn. rewrite omap_seq_take, omap_app, (omap_seq_take l), (take_ge l) by lia. rewrite take_app_length'; [done|congruence]. }
  destruct (Nat.ltb_spec 0 size) as [Hs|Hs].
  - destruct (select_idxs_ok po (take (proto_len po - size) (seq 0 (proto_len po))) Hokp) as (q & -> & Vq).
    { apply Forall_take, Forall_forall. intros j Hj%elem_of_seq. lia. }
    cbn [mbind result_bind]. rewrite Hlenp in Vq. rewrite take_seq in Vq.
    replace (Nat.min (proto_len d + size - size) (proto_len d + size)) with (proto_len d) in Vq by lia.
    do 2 f_equal. eapply proto_via_id; [done|eapply proto_via_comp; [exact V|exact Vq]|done].
  - do 2 f_equal. eapply proto_via_id; [done|exact V|]. intros A l El. replace size with 0 by lia. cbn [replicate]. rewrite app_nil_r.
    cbn. rewrite omap_seq_take. apply take_ge. lia.
Qed.

(** The batch is padded in place and cut. *)
Lemma dispatch_padded_ok h g r d :
  h !! r = Some d -> proto_ok d -> 0 < proto_len d -> plain_meta (meta_info d) ->
  is_padding_enabled auto_padding d = true -> 0 < world_size g ->
  let size := (world_size g - proto_len d mod world_size g) mod world_size g in
  exists p ps c, dispatch_dp_compute_data_proto h g [VRef r] [] =
      Ok (<[r := p]> h, {| d_args := [VList (VData <$> ps)]; d_kwargs := []; d_padding := Some size |}) /\
    proto_ok p /\ proto_len p = proto_len d + size /\ meta_info p = meta_info d /\
    proto_via (via_take (seq 0 (proto_len d) ++ replicate size (proto_len d - 1))) d p /\
    chunk auto_padding p (world_size g) = Ok ps /\ length ps = world_size g /\ 0 < c /\ proto_len p = world_size g * c.
Proof.
  intros Hd Hok Hlen Hm Hpad Hn size. set (n := world_size g) in *.
  destruct (padding_size_divides (proto_len d) n Hn Hlen) as (c & Hc & E & Es). fold size in Es. rewrite Es in E.
  destruct (padding_ok d size false Hok Hm Hlen) as (p & Hp & Vp). pose proof (proto_via_ok _ _ _ Hok Vp) as Hokp.
  destruct (padded_rows d size p Hok Hlen Vp) as [Vt Hlenp].
  destruct (chunk_even auto_padding p n c Hokp Hn Hc ltac:(lia)) as (ps & Hps & HF).
  exists p, ps, c. split; cycle 1.
  { split_and!; try done; [apply Vp|by rewrite <-(Forall2_length _ _ _ HF), length_seq|lia]. }
  unfold dispatch_dp_compute_data_proto, split_args_kwargs_data_proto_with_auto_padding.
  cbn [split_each padding_and_split_data]. rewrite Hd. cbn [of_option mbind result_bind]. unfold pad_and_chunk. rewrite Hpad.
  unfold shared_padding. fold n. destruct (Nat.eqb_spec n 0); [lia|]. rewrite Es. cbn [mbind result_bind]. rewrite Hp.
  cbn [mbind result_bind]. by rewrite Hps.
Qed.

Lemma padded_call_ok name f mat h g r d :
  h !! r = Some d -> proto_ok d -> 0 < proto_len d -> plain_meta (meta_info d) ->
  is_padding_enabled auto_padding d = true -> 0 < world_size g -> rowwise f -> computes name (answering f) ->
  exists d' g' o, functor_call name DP_COMPUTE_PROTO EXECUTE_ALL true mat h g [VRef r] [] = Ok (<[r := d']> h, g', VData o) /\
    f d = Ok o /\ same_group g g' /\ proto_ok d' /\
    proto_len d' = proto_len d + (world_size g - proto_len d mod world_size g) mod world_size g.
Proof.
  intros Hd Hok Hlen Hm Hpad Hn Hrow Hf.
  destruct (dispatch_padded_ok h g r d Hd Hok Hlen Hm Hpad Hn) as (p & ps & c & Hdis & Hokp & Hlenp & Hmp & Vt & Hps & Hlps & Hc & E).
  set (n := world_size g) in *. set (size := (n - proto_len d mod n) mod n) in *. rewrite <-Hmp in Hm.
  destruct (rw_run f Hrow d Hok Hlen ltac:(by rewrite <-Hmp)) as (o & Ho & Hoko & Hleno & Hmo).
  destruct (rw_rows f Hrow d _ p o Hok Vt) as (po & Hpo & Vpo); [|by rewrite length_app, length_seq; lia|by rewrite <-Hmp|done|].
  { apply Forall_app. split; [apply Forall_forall; intros j Hj%elem_of_seq; lia|apply Forall_replicate; lia]. }
  destruct (rw_run f Hrow p Hokp ltac:(lia) Hm) as (x & Hx & Hokx & Hlx & _). rewrite Hpo in Hx. injection Hx as <-.
  destruct (chunk_run_concat f p n c po Hrow Hokp Hm Hn Hc E Hpo) as (ps' & os & Hps' & _ & Hos & Hlos & Hcat).
  rewrite Hps in Hps'. injection Hps' as <-.
  destruct (execute_pieces (<[r := p]> h) mat g name (answering f) ps (VData <$> os) Hf Hlps (answers_data f ps os Hos)) as (g' & Hex & Hg).
  exists p, g', o. split; [|done].
  unfold functor_call. cbn [dispatch_fn]. rewrite Hdis. cbn [mbind result_bind d_args d_kwargs d_padding default execute_fn].
  rewrite Hex. cbn [mbind result_bind]. rewrite ray_get_answers. cbn [mbind result_bind collect_fn].
  unfold collect_dp_compute_data_proto, collect_dp_compute.
  assert (Hconc : is_concatable (VList (VData <$> os)) = true) by (destruct os; [cbn in Hlos; lia|done]). rewrite Hconc.
  cbn [py_assert mbind result_bind py_len]. rewrite length_fmap, Hlos. destruct Hg as (Hw & Hg). rewrite Hw. fold n. rewrite Nat.eqb_refl.
  cbn [py_assert mbind result_bind]. rewrite (concat_answers os po) by (try done; by intros ->; cbn in Hlos; lia).
  cbn [mbind result_bind]. unfold id. rewrite (strip_padding_ok o size po (proto_len d - 1) d); [done|done|done|done|done|lia|done].
Qed.

(** Answers that are not batches: as many as rows were added are taken off the end
    of the workers' list. *)
Lemma metric_call_ok name f mat h g r d :
  h !! r = Some d -> proto_ok d -> 0 < proto_len d -> plain_meta (meta_info d) ->
  is_padding_enabled auto_padding d = true -> 0 < world_size g -> computes name (fun p => Ok (f p)) ->
  let n := world_size g in let added := (n - proto_len d mod n) mod n in
  exists d' g' ps c, proto_via (via_take (seq 0 (proto_len d) ++ replicate added (proto_len d - 1))) d d' /\
    proto_len d' = n * c /\ Forall2 (fun i p => proto_via (via_chunk c i) d' p) (seq 0 n) ps /\
    functor_call name DP_COMPUTE_METRIC EXECUTE_ALL true mat h g [VRef r] [] = Ok (<[r := d']> h, g', VList (take (n - added) (f <$> ps))) /\
    same_group g g'.
Proof.
  intros Hd Hok Hlen Hm Hpad Hn Hf n size.
  destruct (dispatch_padded_ok h g r d Hd Hok Hlen Hm Hpad Hn) as (p & ps & c & Hdis & Hokp & _ & _ & Vt & Hps & Hlps & Hc & E). fold n size in Hdis, Hps, Hlps, E, Vt.
  destruct (chunk_even auto_padding p n c Hokp Hn Hc E) as (ps' & Hps' & HF). rewrite Hps in Hps'. injection Hps' as <-.
  destruct (execute_pieces (<[r := p]> h) mat g name (fun p => Ok (f p)) ps (f <$> ps) Hf Hlps) as (g' & Hex & Hw & Hg).
  { by apply mapM_ok_total. }
  exists p, g', ps, c. split; [exact Vt|]. split; [exact E|]. split; [exact HF|]. split; [|by split].
  unfold functor_call. cbn [dispatch_fn]. rewrite Hdis. cbn [mbind result_bind d_args d_kwargs d_padding default execute_fn].
  rewrite Hex. cbn [mbind result_bind]. rewrite ray_get_answers. cbn [mbind result_bind collect_fn].
  unfold collect_dp_compute. cbn [py_len mbind result_bind]. rewrite length_fmap, Hlps, Hw. fold n. rewrite Nat.eqb_refl.
  cbn [py_assert mbind result_bind]. unfold strip_padding, id. rewrite length_fmap, Hlps. destruct (Nat.ltb_spec 0 size); [done|].
  replace size with 0 by lia. rewrite Nat.sub_0_r, take_ge by (rewrite length_fmap; lia). done.
Qed.

(** ** Meshes *)

Definition mesh_ranks (g : WorkerGroup) (mesh : string) : list nat := default (query_dispatch_info mesh) (dispatch_info g !! mesh).
Definition mesh_mask (g : WorkerGroup) (mesh : string) : list bool := default (query_collect_info mesh) (collect_info g !! mesh).

(** Every worker has a rank and a flag, and the flagged ones are one worker for
    each data-parallel rank, in the order of the ranks. *)
Record mesh_ok (ranks : list nat) (mask : list bool) (world dp_size : nat) : Prop := {
  mo_world : 0 < world;
  mo_ranks : length ranks = world;
  mo_mask : length mask = world;
  mo_size : dp_size = S (max_list ranks);
  mo_each : omap (fun x => if x.2 : bool then Some x.1 else None) (zip ranks mask) = seq 0 dp_size;
}.

Lemma mapM_seq_intro {B} (f : nat -> result B) n k :
  length k = n -> (forall i y, k !! i = Some y -> f i = Ok y) -> mapM_ok f (seq 0 n) = Ok k.
Proof.
  intros Hl Hf. apply mapM_ok_Forall2, Forall2_same_length_lookup. rewrite length_seq. split; [done|].
  intros i x y Hx Hy. apply lookup_seq in Hx as [-> _]. by apply Hf.
Qed.

(** What each worker gets or answers, given what there is for each rank. *)
Lemma by_rank {A} (l : list A) ranks : S (max_list ranks) <= length l -> exists qs, Forall2 (fun rank q => l !! rank = Some q) ranks qs.
Proof.
  intros Hm. induction ranks as [|rank ranks IH]; [exists []; constructor|]. cbn in Hm.
  destruct IH as [qs Hqs]; [lia|]. destruct (lookup_lt_is_Some_2 l rank) as [q Hq]; [lia|]. exists (q :: qs). by constructor.
Qed.

Lemma by_rank_run {A B} (f : A -> result B) ps os ranks qs :
  mapM_ok f ps = Ok os -> Forall2 (fun rank q => ps !! rank = Some q) ranks qs ->
  exists ws, mapM_ok f qs = Ok ws /\ Forall2 (fun rank w => os !! rank = Some w) ranks ws.
Proof.
  intros Hos HF. apply mapM_ok_Forall2 in Hos. induction HF as [|rank q ranks qs Hq HF (ws & IH1 & IH2)]; [exists []; split; [done|constructor]|].
  destruct (Forall2_lookup_l _ _ _ _ _ Hos Hq) as (w & Hw & E). exists (w :: ws). cbn [mapM_ok]. rewrite E. cbn [mbind result_bind].
  rewrite IH1. split; [done|by constructor].
Qed.

Lemma spread_ok {A} (mk : A -> value) ranks world (l qs : list A) :
  length ranks = world -> Forall2 (fun rank q => l !! rank = Some q) ranks qs ->
  spread ranks (length l) world (VList (mk <$> l)) = Ok (VList (mk <$> qs)).
Proof.
  intros Hw HF. unfold spread. cbn [is_list_of]. rewrite length_fmap, Nat.eqb_refl. cbn [py_assert mbind result_bind].
  rewrite (mapM_seq_intro _ world (mk <$> qs)); [done| |].
  - rewrite length_fmap. by rewrite <-(Forall2_length _ _ _ HF).
  - intros i y Hy. apply list_lookup_fmap_Some in Hy as (q & -> & Hq). destruct (Forall2_lookup_r _ _ _ _ _ HF Hq) as (rank & Hr & E).
    rewrite Hr. cbn. rewrite list_lookup_fmap, E. done.
Qed.

Lemma collect_nd_ok ranks mask h g dp_size os ws :
  mesh_ok ranks mask (world_size g) dp_size -> length os = dp_size -> Forall2 (fun rank w => os !! rank = Some w) ranks ws ->
  collect_nd_compute mask h g (VList (VData <$> ws)) = Ok (VList (VData <$> os)).
Proof.
  intros [_ Hr Hmask Hsz Heach] Hlos HF. unfold collect_nd_compute. cbn [py_len mbind result_bind].
  pose proof (Forall2_length _ _ _ HF) as Hlw. rewrite length_fmap, <-Hlw, Hr, Nat.eqb_refl. cbn [py_assert mbind result_bind].
  rewrite (mapM_seq_intro _ (world_size g) (zip_with (fun (k : bool) w => if k then [VData w] else []) mask ws)).
  2: { rewrite length_zip_with. lia. }
  2: { intros i y Hy. apply lookup_zip_with_Some in Hy as (k & w & -> & Hk & Hw). rewrite Hk. cbn. rewrite list_lookup_fmap, Hw. by destruct k. }
  cbn [mbind result_bind]. do 2 f_equal.
  assert (HG : Forall2 (fun rank v => (VData <$> os) !! rank = Some v) (omap (fun x => if x.2 : bool then Some x.1 else None) (zip ranks mask))
    (concat (zip_with (fun (k : bool) w => if k then [VData w] else []) mask ws))).
  { clear Hlos Hsz Heach Hlw. assert (Hl : length mask = length ranks) by lia. clear Hmask Hr. revert mask Hl.
    induction HF as [|rank w ranks ws E HF IH]; intros [|k mask] Hl; try done.
    cbn. destruct k; cbn; [constructor; [by rewrite list_lookup_fmap, E|]|]; apply IH; cbn in Hl; lia. }
  rewrite Heach in HG. apply list_eq. intros i. destruct (decide (i < dp_size)) as [Hi|Hi].
  - destruct (Forall2_lookup_l _ _ _ i i HG) as (v & Hv & E); [by apply lookup_seq|]. congruence.
  - rewrite !lookup_ge_None_2; [done|rewrite length_fmap; lia|]. rewrite <-(Forall2_length _ _ _ HG), length_seq. lia.
Qed.

Lemma dispatch_lazy_ok mesh h g mask dp_size r d c :
  mesh_ok (mesh_ranks g mesh) mask (world_size g) dp_size -> h !! r = Some d -> proto_ok d -> 0 < c -> proto_len d = dp_size * c ->
  exists g' ps qs, dispatch_lazy_compute_data_proto mesh h g [VRef r] [] = Ok (g', plain [VList (VData <$> qs)] []) /\
    chunk auto_padding d dp_size = Ok ps /\ Forall2 (fun rank q => ps !! rank = Some q) (mesh_ranks g mesh) qs /\
    world_size g' = world_size g /\ dispatch_info g' !! mesh = Some (mesh_ranks g mesh) /\ collect_info g' = collect_info g.
Proof.
  intros Hmo Hd Hok Hc E. pose proof Hmo as [Hw Hr Hmask Hsz Heach]. unfold dispatch_lazy_compute_data_proto.
  assert (exists g', query_ranks g mesh = Ok (g', mesh_ranks g mesh) /\ world_size g' = world_size g /\ dispatch_info g' !! mesh = Some (mesh_ranks g mesh) /\
    collect_info g' = collect_info g) as (g' & -> & Hw' & Hi & Hci).
  { unfold query_ranks, mesh_ranks in *. destruct (dispatch_info g !! mesh) as [m|] eqn:Em; [by exists g|]. cbn in Hr |- *.
    rewrite Hr, Nat.eqb_refl. cbn. eexists. split; [done|]. split; [done|]. split; [apply lookup_insert_eq|done]. }
  cbn [mbind result_bind]. destruct (mesh_ranks g mesh) as [|rank0 ranks0] eqn:Er; [cbn in Hr; lia|]. rewrite <-Er in *.
  destruct (chunk_even auto_padding d dp_size c Hok ltac:(lia) Hc E) as (ps & Hps & HF).
  pose proof (Forall2_length _ _ _ HF) as Hlps. rewrite length_seq in Hlps.
  destruct (by_rank ps (mesh_ranks g mesh)) as [qs Hqs]; [lia|]. exists g', ps, qs.
  split; [|done]. rewrite <-Hsz. unfold dispatch_nd_compute_dataproto, split_args_kwargs_data_proto. cbn [mapM_ok split_one batch_chunk].
  unfold split_one, batch_chunk. rewrite Hd. cbn [of_option mbind result_bind]. rewrite Hps. cbn [mbind result_bind is_list_of].
  rewrite length_fmap, <-Hlps, Nat.eqb_refl. cbn. unfold dispatch_nd_compute. cbn [head of_option mbind result_bind py_len mapM_ok].
  assert (match VData <$> ps with [] => Err AssertionError | _ => Ok (VList (VData <$> ps)) end = Ok (VList (VData <$> ps))) as ->
    by (destruct ps; [cbn in Hlps; lia|done]).
  cbn [mbind result_bind map_values mapM_ok]. rewrite Hlps, Hw'. rewrite (spread_ok VData (mesh_ranks g mesh) (world_size g) ps qs) by done. done.
Qed.

Lemma nd_call_ok name f mesh mat h g r d dp_size :
  h !! r = Some d -> proto_ok d -> 0 < proto_len d -> plain_meta (meta_info d) -> proto_len d mod dp_size = 0 ->
  mesh_ok (mesh_ranks g mesh) (mesh_mask g mesh) (world_size g) dp_size -> rowwise f -> computes name (answering f) ->
  exists g' o, functor_call name (ND_COMPUTE mesh) EXECUTE_ALL true mat h g [VRef r] [] = Ok (h, g', VData o) /\
    f d = Ok o /\ world_size g' = world_size g.
Proof.
  intros Hd Hok Hlen Hm Hmod Hmo Hrow Hf. pose proof Hmo as [Hw Hr Hmask Hsz Heach].
  pose proof (Nat.div_mod_eq (proto_len d) dp_size) as E. rewrite Hmod in E. set (c := proto_len d / dp_size) in *.
  assert (Hc : 0 < c) by (destruct c; lia).
  destruct (rw_run f Hrow d Hok Hlen Hm) as (o & Ho & Hoko & Hleno & Hmeta).
  destruct (dispatch_lazy_ok mesh h g _ dp_size r d c Hmo Hd Hok Hc ltac:(lia)) as (g1 & ps & qs & Hdis & Hps & Hqs & Hw1 & Hi1 & Hci1).
  destruct (chunk_run_concat f d dp_size c o Hrow Hok Hm ltac:(lia) Hc ltac:(lia) Ho) as (ps' & os & Hps' & Hlps & Hos & Hlos & Hcat).
  rewrite Hps in Hps'. injection Hps' as <-.
  destruct (by_rank_run f ps os _ qs Hos Hqs) as (ws & Hws & HFw).
  destruct (execute_pieces h mat g1 name (answering f) qs (VData <$> ws) Hf) as (g2 & Hex & Hw2 & Hi2 & Hci2);
    [rewrite <-(Forall2_length _ _ _ Hqs); lia|by apply answers_data|].
  unfold functor_call. cbn [dispatch_fn]. rewrite Hdis. cbn [mbind result_bind plain d_args d_kwargs d_padding default execute_fn].
  rewrite Hex. cbn [mbind result_bind]. rewrite ray_get_answers. cbn [mbind result_bind collect_fn]. unfold collect_lazy_compute_data_proto.
  rewrite Hi2, Hi1. rewrite bool_decide_true by by eexists. cbn [py_assert mbind result_bind].
  assert (exists g', query_mask g2 mesh = Ok (g', mesh_mask g mesh) /\ world_size g' = world_size g) as (g' & -> & Hw').
  { unfold query_mask, mesh_mask in *. rewrite Hci2, Hci1. destruct (collect_info g !! mesh) as [m|] eqn:Em; [exists g2; split; [done|lia]|]. cbn in Hmask |- *.
    rewrite Hmask, Hw2, Hw1, Nat.eqb_refl. cbn. eexists. split; [done|]. cbn in *. unfold world_size in *. cbn. lia. }
  cbn [mbind result_bind]. unfold collect_nd_compute_dataproto. rewrite <-Hw' in Hmo.
  rewrite (collect_nd_ok _ _ h g' dp_size os ws Hmo Hlos HFw). cbn [mbind result_bind].
  assert (is_concatable (VList (VData <$> os)) = true) as -> by (destruct os; [cbn in Hlos; lia|done]). cbn [py_assert mbind result_bind].
  rewrite (concat_answers os o) by (try done; by intros ->; cbn in Hlos; lia). cbn [mbind result_bind]. exists g', o. done.
Qed.
End Group.
End Dispatch.

(** ** Theorems *)

Section Theorems.
Context {T N O F W : Type} `{!ArrayOps T} `{!ArrayOps N} `{!TensorOps T} `{!NumpyOps N} `{!PyObj O}.
Context `{!ArrayLaws T} `{!ArrayLaws N} `{!TensorLaws T} `{!NumpyLaws N}.
Notation value := (value (T := T) (N := N) (O := O) (F := F)).
Context (invoke : W -> string -> list value -> dict value -> W * result value).
Context (query_dispatch_info : string -> list nat) (query_collect_info : string -> list bool).

(** C24: a blocking call that computes row by row, on a batch with automatic
    padding (of any positive length, meta information without "metrics" whose values
    compare equal to themselves): padding
    the batch to the number of workers, cutting it, running every worker on its
    piece, concatenating the answers and dropping the added rows returns exactly
    what the function returns for the whole batch.  The caller's own batch stays
    padded to the next multiple of the number of workers. *)
Theorem padded_call_is_whole_call auto name f materialize_them h (g : WorkerGroup (W := W)) r d :
  h !! r = Some d -> proto_ok d -> 0 < proto_len d -> plain_meta (meta_info d) ->
  is_padding_enabled auto d = true -> 0 < world_size g -> rowwise f -> computes invoke name (answering f) ->
  exists d' g' o,
    functor_call auto invoke query_dispatch_info query_collect_info name DP_COMPUTE_PROTO EXECUTE_ALL true materialize_them h g [VRef r] [] =
      Ok (<[r := d']> h, g', VData o) /\ f d = Ok o /\ same_group g g' /\ proto_ok d' /\
    proto_len d' = proto_len d + (world_size g - proto_len d mod world_size g) mod world_size g.
Proof. intros. by eapply padded_call_ok. Qed.

(** the same for an n-dimensional mesh, where the batch is cut over the
    data-parallel ranks, every worker of a rank gets the rank's piece, and one
    answer of each rank is collected: for a batch whose length the number of
    ranks divides, the call is the function on the whole batch, and the caller's
    batch is not changed. *)
Theorem nd_call_is_whole_call auto name f mesh materialize_them h (g : WorkerGroup (W := W)) r d dp_size :
  h !! r = Some d -> proto_ok d -> 0 < proto_len d -> plain_meta (meta_info d) -> proto_len d mod dp_size = 0 ->
  mesh_ok (mesh_ranks query_dispatch_info g mesh) (mesh_mask query_collect_info g mesh) (world_size g) dp_size ->
  rowwise f -> computes invoke name (answering f) ->
  exists g' o,
    functor_call auto invoke query_dispatch_info query_collect_info name (ND_COMPUTE mesh) EXECUTE_ALL true materialize_them h g [VRef r] [] =
      Ok (h, g', VData o) /\ f d = Ok o /\ world_size g' = world_size g.
Proof. intros. by eapply nd_call_ok. Qed.

(** C40: when the workers' answers are not batches ([DP_COMPUTE_METRIC]), the batch
    is padded by copies of its last row to [n] equal pieces for the [n] workers, and
    each worker answers for its piece; but the padding count, which counts rows, is
    taken off the end of the list of answers.  So the caller gets, in the order of
    the workers, exactly the answers of the first ones: the last [added] answers are
    lost, also those to pieces with rows of the batch. *)
Theorem metric_call_drops_workers auto name f materialize_them h (g : WorkerGroup (W := W)) r d :
  h !! r = Some d -> proto_ok d -> 0 < proto_len d -> plain_meta (meta_info d) ->
  is_padding_enabled auto d = true -> 0 < world_size g -> computes invoke name (fun p => Ok (f p)) ->
  let n := world_size g in let added := (n - proto_len d mod n) mod n in
  exists d' g' ps c, proto_via (via_take (seq 0 (proto_len d) ++ replicate added (proto_len d - 1))) d d' /\
    proto_len d' = n * c /\ Forall2 (fun i p => proto_via (via_chunk c i) d' p) (seq 0 n) ps /\
    functor_call auto invoke query_dispatch_info query_collect_info name DP_COMPUTE_METRIC EXECUTE_ALL true materialize_them h g [VRef r] [] =
      Ok (<[r := d']> h, g', VList (take (n - added) (f <$> ps))) /\ same_group g g'.
Proof. intros. by eapply metric_call_ok. Qed.
End Theorems.

(** ** An instance

    Four workers that add one to every token, or answer a number. *)

Module Demo.
Import ListArrays.

Notation data := (DataProto (T := list nat) (N := list nat) (O := bool)).
Notation val := (value (T := list nat) (N := list nat) (O := bool) (F := unit)).

Definition increment (d : data) : result data :=
  Ok {| batch := fmap (M := list) S <$> batch d; non_tensor_batch := non_tensor_batch d; meta_info := meta_info d |}.

Lemma omap_lookup_fmap {A B} (f : A -> B) (idxs : list nat) (l : list A) :
  omap (fun i => (f <$> l) !! i) idxs = f <$> omap (fun i => l !! i) idxs.
Proof. induction idxs as [|i idxs IH]; [done|]. cbn. rewrite list_lookup_fmap. destruct (l !! i); cbn; by rewrite IH. Qed.

Lemma increment_rowwise : rowwise increment.
Proof.
  split.
  - intros d [H1 H2 H3] Hlen Hm. eexists. split; [done|].
    assert (E : proto_len {| batch := fmap (M := list) S <$> batch d; non_tensor_batch := non_tensor_batch d; meta_info := meta_info d |} = proto_len d).
    { unfold proto_len. cbn. destruct (batch d); [apply length_fmap|done]. }
    split; [split|by split]; rewrite ?E; [|done|done]. cbn. intros b Hb. destruct (batch d) as [b0|] eqn:Eb; [|done].
    injection Hb as <-. cbn. unfold id. rewrite length_fmap. by apply (H1 b0).
  - intros d idxs p o _ [V1 V2 V3] _ _ _ [= <-]. eexists. split; [done|]. split; [|done|done]. cbn.
    destruct V1 as [t u [_ R]|]; [|constructor]. cbn in *. constructor. split; [done|]. cbn. unfold id in *. rewrite R. cbn.
    symmetry. apply omap_lookup_fmap.
Qed.

(** A measure of a piece: are its first tokens small? *)
Definition starts_small (d : data) : val := VOther (match batch d with Some (x :: _) => x <=? 2 | _ => false end).

Definition workers_do (w : unit) (name : string) (args : list val) (kwargs : dict val) : unit * result val :=
  (w, match args with
      | [VData d] => if String.eqb name "count" then Ok (starts_small d) else answering increment d
      | _ => Err TypeError
      end).

Lemma add_computes : computes workers_do "add" (answering increment).
Proof. by intros w p. Qed.
Lemma count_computes : computes workers_do "count" (fun p => Ok (starts_small p)).
Proof. by intros w p. Qed.

Definition four : WorkerGroup (W := unit) := {| workers := [tt; tt; tt; tt]; dispatch_info := ∅; collect_info := ∅ |}.
Definition two_ranks (mesh : string) : list nat := [0; 0; 1; 1].
Definition first_of_each (mesh : string) : list bool := [true; false; true; false].

Definition tokens (l : list nat) : data := {| batch := Some l; non_tensor_batch := [("uid", l)]; meta_info := ∅ |}.

Lemma tokens_ok l : proto_ok (tokens l).
Proof. split; [by intros b [= <-]|by repeat constructor|apply NoDup_singleton]. Qed.

Lemma tokens_plain l : plain_meta (meta_info (tokens l)).
Proof. split; [done|]. intros k v. cbn. by rewrite lookup_empty. Qed.

Lemma demo_mesh : mesh_ok (mesh_ranks two_ranks four "m") (mesh_mask first_of_each four "m") (world_size four) 2.
Proof. by split; cbn; try lia. Qed.

Notation call := (functor_call true workers_do two_ranks first_of_each).
Definition heap1 (l : list nat) : gmap nat data := {[0 := tokens l]}.

Lemma heap1_lookup l : heap1 l !! 0 = Some (tokens l).
Proof. apply lookup_singleton_eq. Qed.

(** The padded object may not be passed twice, and an asynchronous call returns
    the added rows. *)
Lemma same_batch_twice_fails :
  call "add" DP_COMPUTE_PROTO EXECUTE_ALL true true (heap1 [1; 2; 3; 4; 5]) four [VRef 0; VRef 0] [] = Err AssertionError.
Proof. vm_compute. reflexivity. Qed.

Lemma future_keeps_padding :
  (r ← call "add" DP_COMPUTE_PROTO EXECUTE_ALL false true (heap1 [1; 2; 3; 4; 5]) four [VRef 0] []; materialize true r.2) =
  Ok (VData {| batch := Some [2; 3; 4; 5; 6; 6; 6; 6]; non_tensor_batch := [("uid", [1; 2; 3; 4; 5; 5; 5; 5])]; meta_info := ∅ |}).
Proof. vm_compute. reflexivity. Qed.

(** The n-dimensional dispatch does not pad: five rows are cut unevenly over two
    ranks, and cannot be cut over four. *)
Lemma nd_call_does_not_pad :
  call "add" (ND_COMPUTE "m") EXECUTE_ALL true true (heap1 [1; 2; 3; 4; 5]) four [VRef 0] [] =
    Ok (heap1 [1; 2; 3; 4; 5], {| workers := [tt; tt; tt; tt]; dispatch_info := {["m" := [0; 0; 1; 1]]};
          collect_info := {["m" := [true; false; true; false]]} |},
        VData {| batch := Some [2; 3; 4; 5; 6]; non_tensor_batch := [("uid", [1; 2; 3; 4; 5])]; meta_info := ∅ |}) /\
  chunk true (tokens [1; 2; 3; 4; 5]) 4 = Err AssertionError.
Proof. split; vm_compute; reflexivity. Qed.
End Demo.
Import ListArrays.

Lemma padded_call_is_whole_call_witness :
  exists d' g', Demo.call "add" DP_COMPUTE_PROTO EXECUTE_ALL true true (Demo.heap1 [1; 2; 3; 4; 5]) Demo.four [VRef 0] [] =
    Ok (<[0 := d']> (Demo.heap1 [1; 2; 3; 4; 5]), g',
        VData {| batch := Some [2; 3; 4; 5; 6]; non_tensor_batch := [("uid", [1; 2; 3; 4; 5])]; meta_info := ∅ |}) /\
  proto_len d' = 8.
Proof.
  destruct (padded_call_is_whole_call Demo.workers_do Demo.two_ranks Demo.first_of_each true "add" Demo.increment true
    (Demo.heap1 [1; 2; 3; 4; 5]) Demo.four 0 (Demo.tokens [1; 2; 3; 4; 5]))
    as (d' & g' & o & Hc & Ho & _ & _ & Hl).
  - apply Demo.heap1_lookup.
  - apply Demo.tokens_ok.
  - cbn; lia.
  - apply Demo.tokens_plain.
  - reflexivity.
  - cbn; lia.
  - apply Demo.increment_rowwise.
  - apply Demo.add_computes.
  - exists d', g'. injection Ho as <-. split; [exact Hc|exact Hl].
Defined.

Lemma nd_call_is_whole_call_witness :
  exists g', Demo.call "add" (ND_COMPUTE "m") EXECUTE_ALL true true (Demo.heap1 [1; 2; 3; 4]) Demo.four [VRef 0] [] =
    Ok (Demo.heap1 [1; 2; 3; 4], g',
        VData {| batch := Some [2; 3; 4; 5]; non_tensor_batch := [("uid", [1; 2; 3; 4])]; meta_info := ∅ |}).
Proof.
  destruct (nd_call_is_whole_call Demo.workers_do Demo.two_ranks Demo.first_of_each true "add" Demo.increment "m" true
    (Demo.heap1 [1; 2; 3; 4]) Demo.four 0 (Demo.tokens [1; 2; 3; 4]) 2) as (g' & o & Hc & Ho & _).
  - apply Demo.heap1_lookup.
  - apply Demo.tokens_ok.
  - cbn; lia.
  - apply Demo.tokens_plain.
  - reflexivity.
  - apply Demo.demo_mesh.
  - apply Demo.increment_rowwise.
  - apply Demo.add_computes.
  - exists g'. injection Ho as <-. exact Hc.
Defined.

(** Five rows on four workers: the pieces are [1; 2], [3; 4], [5; 5] and [5; 5], and
    only the first one's answer is returned. *)
Lemma metric_call_drops_workers_witness :
  exists d' g' ps, (d' : Demo.data) = {| batch := Some [1; 2; 3; 4; 5; 5; 5; 5]; non_tensor_batch := [("uid", [1; 2; 3; 4; 5; 5; 5; 5])]; meta_info := ∅ |} /\
    Demo.call "count" DP_COMPUTE_METRIC EXECUTE_ALL true true (Demo.heap1 [1; 2; 3; 4; 5]) Demo.four [VRef 0] [] =
      Ok (<[0 := d']> (Demo.heap1 [1; 2; 3; 4; 5]), g', VList (take 1 (Demo.starts_small <$> ps))) /\ length ps = 4 /\
    take 1 (Demo.starts_small <$> ps) = [VOther true].
Proof.
  destruct (metric_call_drops_workers Demo.workers_do Demo.two_ranks Demo.first_of_each true "count" Demo.starts_small true
    (Demo.heap1 [1; 2; 3; 4; 5]) Demo.four 0 (Demo.tokens [1; 2; 3; 4; 5]))
    as (d' & g' & ps & c & Hd & _ & Hps & Hc & _).
  - apply Demo.heap1_lookup.
  - apply Demo.tokens_ok.
  - cbn; lia.
  - apply Demo.tokens_plain.
  - reflexivity.
  - cbn; lia.
  - apply Demo.count_computes.
  - exists d', g', ps. cbn in Hps. apply Forall2_length in Hps. cbn in Hps. split; [|split; [exact Hc|split; [by symmetry|]]].
    + destruct Hd as [V1 V2 V3]. destruct d' as [b nt m]. cbn in V1, V2, V3. subst m. inversion V1 as [t u [_ R] Et Eu|]. cbn in R. unfold id in R. subst u.
      inversion V2 as [|x y l k [Ek [_ R2]] V2' Ex Ey]. inversion V2'. destruct y as [k' v]. cbn in Ek, R2. unfold id in R2. subst. reflexivity.
    + assert (Hv : (fun r => r.2) <$> Demo.call "count" DP_COMPUTE_METRIC EXECUTE_ALL true true (Demo.heap1 [1; 2; 3; 4; 5]) Demo.four [VRef 0] [] = Ok (VList [VOther true])) by (vm_compute; reflexivity).
      cbn zeta in Hc. rewrite Hc in Hv. injection Hv as Hv. exact Hv.
Defined.
