(* ===== verification/KVCacheConfig.v ===== *)
(** * Sizing the KV cache

    [vllm/v1/kv_cache_interface.py] and the functions of
    [vllm/v1/core/kv_cache_utils.py] that turn the layers' cache specifications
    and the available memory into a cache configuration.  A dictionary from
    layer names is an association list in insertion order.  torch's [dtype] and
    the size of its elements are parameters. *)

From S2P Require Import Prelude.
From Stdlib Require Import Ascii.
From stdpp Require Import pretty.

(** The parts of [VllmConfig] the functions read; [max_model_len] is also written. *)
Record VllmConfig := {
  max_model_len : Z;
  max_num_batched_tokens : Z;
  num_gpu_blocks_override : option Z;
  cache_block_size : Z;
}.

Definition set_max_model_len (c : VllmConfig) (l : Z) : VllmConfig :=
  {| max_model_len := l; max_num_batched_tokens := max_num_batched_tokens c;
     num_gpu_blocks_override := num_gpu_blocks_override c; cache_block_size := cache_block_size c |}.

(** Order of strings by code points, as Python compares them. *)
Fixpoint string_leb (s t : string) : bool :=
  match s, t with
  | EmptyString, _ => true
  | String _ _, EmptyString => false
  | String a s, String b t =>
      let x := nat_of_ascii a in let y := nat_of_ascii b in
      (x <? y)%nat || ((x =? y)%nat && string_leb s t)
  end.

Section Config.
Context {dtype : Type} `{!EqDecision dtype} (get_dtype_size : dtype -> Z).

Record AttentionSpec := {
  block_size : Z;
  num_kv_heads : Z;
  head_size : Z;
  spec_dtype : dtype;
  use_mla : bool;
}.

#[export] Instance attention_spec_eq_dec : EqDecision AttentionSpec.
Proof using EqDecision0. solve_decision. Defined.

Inductive KVCacheSpec :=
  | FullAttentionSpec (a : AttentionSpec)
  | SlidingWindowSpec (a : AttentionSpec) (sliding_window : Z).

#[export] Instance kv_cache_spec_eq_dec : EqDecision KVCacheSpec.
Proof using EqDecision0. solve_decision. Defined.

Definition attention (s : KVCacheSpec) : AttentionSpec :=
  match s with FullAttentionSpec a => a | SlidingWindowSpec a _ => a end.

(** [SlidingWindowSpec.__post_init__] *)
Definition sliding_window_spec (a : AttentionSpec) (sliding_window : Z) : result KVCacheSpec :=
  _ ← py_assert (negb (use_mla a)); Ok (SlidingWindowSpec a sliding_window).

Definition page_size_bytes (a : AttentionSpec) : Z :=
  ((if use_mla a then 1 else 2) * block_size a * num_kv_heads a * head_size a * get_dtype_size (spec_dtype a))%Z.

Definition type_id (s : KVCacheSpec) : string :=
  match s with
  | FullAttentionSpec a =>
      "full_attention_" +:+ pretty (block_size a) +:+ "_" +:+ pretty (page_size_bytes a)
  | SlidingWindowSpec a w =>
      "sliding_window_" +:+ pretty w +:+ "_" +:+ pretty (block_size a) +:+ "_" +:+ pretty (page_size_bytes a)
  end.

Definition max_memory_usage_bytes (c : VllmConfig) (s : KVCacheSpec) : result Z :=
  match s with
  | FullAttentionSpec a => n ← cdiv (max_model_len c) (block_size a); Ok (n * page_size_bytes a)%Z
  | SlidingWindowSpec a w =>
      let num_tokens := Z.min (w - 1 + max_num_batched_tokens c) (max_model_len c) in
      n ← cdiv num_tokens (block_size a); Ok ((n + 1) * page_size_bytes a)%Z
  end.

Definition layers : Type := list (string * KVCacheSpec).

(** ** Does a model length fit *)

Definition memory_needed (c : VllmConfig) (kv_cache_spec : layers) : result Z :=
  foldM (fun acc l => m ← max_memory_usage_bytes c l.2; Ok (acc + m)%Z) 0%Z kv_cache_spec.

(** [fits_in_memory] overwrites the configured model length. *)
Definition fits_in_memory (c : VllmConfig) (kv_cache_spec : layers) (available_memory model_len : Z) :
    result (VllmConfig * bool) :=
  let c := set_max_model_len c model_len in
  m ← memory_needed c kv_cache_spec; Ok (c, (m <=? available_memory)%Z).

(** The [while] loop; [None] is running out of fuel. *)
Fixpoint bsearch (fuel : nat) (c : VllmConfig) (kv_cache_spec : layers) (available_memory left right res : Z) :
    option (result (VllmConfig * Z)) :=
  if (left <=? right)%Z then
    match fuel with
    | 0 => None
    | S fuel =>
        let mid := ((left + right) / 2)%Z in
        match fits_in_memory c kv_cache_spec available_memory mid with
        | Err e => Some (Err e)
        | Ok (c, true) => bsearch fuel c kv_cache_spec available_memory (mid + 1) right mid
        | Ok (c, false) => bsearch fuel c kv_cache_spec available_memory left (mid - 1) res
        end
    end
  else Some (Ok (c, res)).

Definition estimate_max_model_len (c : VllmConfig) (kv_cache_spec : layers) (available_memory : Z) :
    option (result (VllmConfig * Z)) :=
  let current_max := max_model_len c in
  match fits_in_memory c kv_cache_spec available_memory 1 with
  | Err e => Some (Err e)
  | Ok (c, false) => Some (Ok (c, 0%Z))
  | Ok (c, true) => bsearch (Z.to_nat current_max) c kv_cache_spec available_memory 1 current_max 1
  end.

(** What follows the estimate is the text of the exception. *)
Definition check_enough_kv_cache_memory (c : VllmConfig) (kv_cache_spec : layers) (available_memory : Z) :
    result unit :=
  if (available_memory <=? 0)%Z then Err ValueError
  else
    needed_memory ← memory_needed c kv_cache_spec;
    if (available_memory <? needed_memory)%Z then Err ValueError else Ok tt.

(** ** The configuration *)

Record KVCacheGroupSpec := { layer_names : list string; kv_cache_spec : KVCacheSpec }.

Record KVCacheConfig := {
  num_blocks : Z;
  tensors : list (string * Z);
  kv_cache_groups : list KVCacheGroupSpec;
}.

(** [kv_cache_spec[layer_name]] *)
Fixpoint layer_spec (l : layers) (name : string) : result KVCacheSpec :=
  match l with
  | [] => Err KeyError
  | (n, s) :: l => if decide (n = name) then Ok s else layer_spec l name
  end.

Definition create_group (l : layers) (names : list string) : result KVCacheGroupSpec :=
  name0 ← of_option IndexError (head names);
  s0 ← layer_spec l name0;
  same ← mapM_ok (fun n => s ← layer_spec l n; Ok (bool_decide (s = s0))) (tail names);
  _ ← py_assert (forallb id same);
  Ok {| layer_names := names; kv_cache_spec := s0 |}.

Definition create_kv_cache_group_specs (l : layers) (grouped_layer_names : list (list string)) :
  result (list KVCacheGroupSpec) := mapM_ok (create_group l) grouped_layer_names.

Definition is_kv_cache_type_uniform (l : layers) : bool :=
  length (remove_dups (type_id <$> l.*2)) =? 1.

Definition get_kv_cache_config_uniform_type (c : VllmConfig) (l : layers) (available_memory : Z) :
    result KVCacheConfig :=
  match remove_dups ((fun s => page_size_bytes (attention s)) <$> l.*2) with
  | [page_size] =>
      q ← py_floordiv available_memory page_size;
      q ← py_floordiv q (Z.of_nat (length l));
      let num_blocks := default (Z.max q 0) (num_gpu_blocks_override c) in
      (* the maximum concurrency, for the log, divides by the model length *)
      _ ← (if (max_model_len c =? 0)%Z then Err ZeroDivisionError else Ok tt);
      groups ← create_kv_cache_group_specs l [l.*1];
      Ok {| num_blocks := num_blocks; tensors := (fun n => (n, page_size * num_blocks)%Z) <$> l.*1;
            kv_cache_groups := groups |}
  | _ => Err AssertionError
  end.

Definition is_full (s : KVCacheSpec) : bool := match s with FullAttentionSpec _ => true | _ => false end.

Definition to_full (s : KVCacheSpec) : KVCacheSpec := FullAttentionSpec (attention s).

Definition unify_hybrid_kv_cache_specs (l : layers) : layers :=
  if existsb (fun x => is_full x.2) l && existsb (fun x => negb (is_full x.2)) l
  then prod_map id to_full <$> l
  else l.

Definition get_kv_cache_config (c : VllmConfig) (l : layers) (available_memory : Z) : result KVCacheConfig :=
  _ ← check_enough_kv_cache_memory c l available_memory;
  let l := unify_hybrid_kv_cache_specs l in
  if is_kv_cache_type_uniform l then get_kv_cache_config_uniform_type c l available_memory
  else Err NotImplementedError.

(** ** Several workers *)

Definition sort_groups (gs : list KVCacheGroupSpec) : list KVCacheGroupSpec :=
  isort (fun g h => negb (string_leb (type_id (kv_cache_spec h)) (type_id (kv_cache_spec g)))) gs.

Definition with_groups (c : KVCacheConfig) (gs : list KVCacheGroupSpec) : KVCacheConfig :=
  {| num_blocks := num_blocks c; tensors := tensors c; kv_cache_groups := gs |}.
Definition with_num_blocks (n : Z) (c : KVCacheConfig) : KVCacheConfig :=
  {| num_blocks := n; tensors := tensors c; kv_cache_groups := kv_cache_groups c |}.

(** [zip] stops at the shorter list of groups. *)
Definition same_groups (gs0 gs : list KVCacheGroupSpec) : bool :=
  forallb (fun '(g, h) => bool_decide (kv_cache_spec g = kv_cache_spec h)) (zip gs0 gs).

Definition unify_kv_cache_configs (cs : list KVCacheConfig) : result (list KVCacheConfig) :=
  let cs := (fun c => with_groups c (sort_groups (kv_cache_groups c))) <$> cs in
  match cs with
  | [] => Err ValueError
  | c0 :: rest =>
      _ ← mapM_ok (fun c => py_assert (same_groups (kv_cache_groups c0) (kv_cache_groups c))) rest;
      Ok (with_num_blocks (foldr Z.min (num_blocks c0) (num_blocks <$> rest)) <$> cs)
  end.

End Config.

(** ** Lemmas *)

Section Lemmas.
Context {dtype : Type} `{!EqDecision dtype} (get_dtype_size : dtype -> Z).
Local Abbreviation page_size_bytes := (page_size_bytes get_dtype_size).
Local Abbreviation max_memory_usage_bytes := (max_memory_usage_bytes get_dtype_size).
Local Abbreviation memory_needed := (memory_needed get_dtype_size).

Definition spec_ok (s : KVCacheSpec (dtype := dtype)) : Prop :=
  (0 < block_size (attention s) /\ 0 < page_size_bytes (attention s))%Z.

(** The number of pages of a layer for a model length. *)
Definition pages (c : VllmConfig) (s : KVCacheSpec (dtype := dtype)) : Z :=
  match s with
  | FullAttentionSpec a => ((max_model_len c + block_size a - 1) / block_size a)%Z
  | SlidingWindowSpec a w =>
      ((Z.min (w - 1 + max_num_batched_tokens c) (max_model_len c) + block_size a - 1) / block_size a + 1)%Z
  end.

Definition usage (c : VllmConfig) (s : KVCacheSpec (dtype := dtype)) : Z :=
  (pages c s * page_size_bytes (attention s))%Z.

Lemma max_memory_usage_ok c s : spec_ok s -> max_memory_usage_bytes c s = Ok (usage c s).
Proof.
  intros [H1 H2]. destruct s as [a|a w]; unfold KVCacheConfig.max_memory_usage_bytes, usage, pages; cbn in *;
    rewrite cdiv_ok by done; done.
Qed.

Lemma memory_needed_ok c l :
  Forall (fun x => spec_ok x.2) l -> memory_needed c l = Ok (zsum (usage c <$> l.*2)).
Proof.
  unfold KVCacheConfig.memory_needed. intros H.
  enough (forall acc, foldM (fun acc x => m ← max_memory_usage_bytes c x.2; Ok (acc + m)%Z) acc l =
    Ok (acc + zsum (usage c <$> l.*2))%Z) as E by (rewrite E; by rewrite Z.add_0_l).
  induction H as [|x l Hx _ IH]; intros acc; cbn -[zsum]; [by rewrite zsum_nil, Z.add_0_r|].
  rewrite max_memory_usage_ok by done. cbn [mbind result_bind]. rewrite IH, zsum_cons. f_equal. lia.
Qed.

Definition fits (c : VllmConfig) (l : layers (dtype := dtype)) (available_memory model_len : Z) : Prop :=
  (zsum (usage (set_max_model_len c model_len) <$> l.*2) <= available_memory)%Z.

#[export] Instance fits_dec c l avail L : Decision (fits c l avail L).
Proof. unfold fits. apply _. Defined.

Lemma usage_mono c s L L' :
  spec_ok s -> (L <= L')%Z -> (usage (set_max_model_len c L) s <= usage (set_max_model_len c L') s)%Z.
Proof.
  intros [Hb Hp] HL. unfold usage. apply Z.mul_le_mono_nonneg_r; [lia|].
  destruct s as [a|a w]; cbn in *; [by apply cdiv_mono|]. apply Z.add_le_mono_r, cdiv_mono; lia.
Qed.

Lemma zsum_le_pointwise {A} (f g : A -> Z) l :
  Forall (fun x => f x <= g x)%Z l -> (zsum (f <$> l) <= zsum (g <$> l))%Z.
Proof. induction 1; cbn -[zsum]; rewrite ?zsum_cons; [done|lia]. Qed.

Lemma fits_mono c l avail L L' :
  Forall (fun x => spec_ok x.2) l -> (L <= L')%Z -> fits c l avail L' -> fits c l avail L.
Proof.
  unfold fits. intros Hl HL H. etrans; [|exact H]. apply zsum_le_pointwise.
  apply Forall_fmap. eapply Forall_impl; [exact Hl|]. intros x Hx. by apply usage_mono.
Qed.

Lemma fits_in_memory_ok c l avail L :
  Forall (fun x => spec_ok x.2) l ->
  fits_in_memory get_dtype_size c l avail L =
    Ok (set_max_model_len c L, bool_decide (fits c l avail L)).
Proof.
  intros Hl. unfold fits_in_memory. cbn zeta. rewrite memory_needed_ok by done. cbn [mbind result_bind].
  do 2 f_equal. apply eq_true_iff_eq. rewrite Z.leb_le. by rewrite bool_decide_eq_true.
Qed.

Lemma bsearch_ok fuel c l avail max left right res :
  Forall (fun x => spec_ok x.2) l ->
  (1 <= left -> right <= max -> 1 <= res <= max -> left - 1 <= res ->
   Z.of_nat fuel >= right - left + 1)%Z ->
  (1 <= left)%Z -> (right <= max)%Z -> (1 <= res <= max)%Z -> (left - 1 <= res)%Z -> (left <= right + 1)%Z ->
  fits c l avail res -> (forall L, (right < L <= max)%Z -> ~ fits c l avail L) ->
  exists c' r, bsearch get_dtype_size fuel c l avail left right res = Some (Ok (c', r)) /\
    (1 <= r <= max)%Z /\ fits c l avail r /\ (forall L, (r < L <= max)%Z -> ~ fits c l avail L).
Proof.
  intros Hl. revert c left right res. induction fuel as [|fuel IH]; intros c left right res Hfuel H1 H2 H3 H4 H5 Hres Hno;
    cbn [bsearch]; destruct (Z.leb_spec left right) as [Hlr|Hlr].
  - specialize (Hfuel H1 H2 H3 H4). lia.
  - exists c, res. split_and!; [done|lia|lia|done|]. intros L HL. apply Hno. lia.
  - specialize (Hfuel H1 H2 H3 H4).
    pose proof (Z.div_mod (left + right) 2 ltac:(lia)) as Hm. pose proof (Z.mod_pos_bound (left + right) 2 ltac:(lia)) as Hmb.
    set (mid := ((left + right) / 2)%Z) in *.
    rewrite fits_in_memory_ok by done.
    case_bool_decide as Hmid.
    + destruct (IH (set_max_model_len c mid) (mid + 1)%Z right mid) as (c' & r & -> & Hr);
        [lia|lia|lia|lia|lia|lia|done|done|]. by exists c', r.
    + destruct (IH (set_max_model_len c mid) left (mid - 1)%Z res) as (c' & r & -> & Hr); [lia|lia|lia|lia|lia|lia|done| |].
      * intros L HL Hf. apply Hmid. destruct (decide (L <= right)%Z) as [HLr|HLr].
        -- eapply fits_mono; [done| |exact Hf]. lia.
        -- exfalso. eapply (Hno L); [lia|exact Hf].
      * by exists c', r.
  - exists c, res. split_and!; [done|lia|lia|done|]. intros L HL. apply Hno. lia.
Qed.

End Lemmas.

(** ** Properties *)

(** The binary search for the model length is correct and terminates within
    its fuel.  When every layer has a positive block and page size, the estimate
    is zero exactly if not even one token fits; otherwise it is a length between
    one and the configured maximum that fits the memory, and no longer one up to
    the maximum does. *)
Theorem estimate_max_model_len_correct {dtype} (get_dtype_size : dtype -> Z) c l available_memory :
  Forall (fun x => spec_ok get_dtype_size x.2) l -> (1 <= max_model_len c)%Z ->
  exists c' r, estimate_max_model_len get_dtype_size c l available_memory = Some (Ok (c', r)) /\
    (r = 0%Z <-> ~ fits get_dtype_size c l available_memory 1) /\
    (r <> 0%Z -> (1 <= r <= max_model_len c)%Z /\ fits get_dtype_size c l available_memory r /\
       forall L, (r < L <= max_model_len c)%Z -> ~ fits get_dtype_size c l available_memory L).
Proof.
  intros Hl Hmax. unfold estimate_max_model_len. cbn zeta. rewrite fits_in_memory_ok by done.
  case_bool_decide as H1.
  - destruct (bsearch_ok get_dtype_size (Z.to_nat (max_model_len c)) (set_max_model_len c 1) l available_memory
      (max_model_len c) 1 (max_model_len c) 1 Hl) as (c' & r & -> & Hr & Hf & Hn); [lia..|done| |].
    + intros L HL. lia.
    + exists c', r. split; [done|]. split; [split; [lia|done]|done].
  - do 2 eexists. split; [done|]. split; done.
Qed.

Definition demo_attention : AttentionSpec (dtype := unit) :=
  {| block_size := 16; num_kv_heads := 2; head_size := 4; spec_dtype := tt; use_mla := false |}.
Definition demo_config : VllmConfig :=
  {| max_model_len := 100; max_num_batched_tokens := 32; num_gpu_blocks_override := None; cache_block_size := 16 |}.
Definition demo_layers : layers (dtype := unit) :=
  [("a"%string, FullAttentionSpec demo_attention); ("b"%string, FullAttentionSpec demo_attention)].
Definition two_bytes (_ : unit) : Z := 2.

(** Pages of 512 bytes, two layers, 4000 bytes: three pages each, 48 tokens. *)
Lemma estimate_max_model_len_correct_witness :
  exists c' r, estimate_max_model_len two_bytes demo_config demo_layers 4000 = Some (Ok (c', r)) /\ r = 48%Z /\
    fits two_bytes demo_config demo_layers 4000 r.
Proof.
  destruct (estimate_max_model_len_correct two_bytes demo_config demo_layers 4000) as (c' & r & Hr & _ & H).
  - repeat constructor.
  - cbn; lia.
  - assert (r = 48%Z) as ->.
    { vm_compute in Hr. injection Hr as _ <-. reflexivity. }
    exists c', 48%Z. split; [exact Hr|]. split; [reflexivity|]. apply H. discriminate.
Defined.

(** ** Lemmas: uniform models *)

Section Uniform.
Context {dtype : Type} `{!EqDecision dtype} (get_dtype_size : dtype -> Z).
Variables (l : layers (dtype := dtype)) (s : KVCacheSpec (dtype := dtype)).
Hypothesis (l_ne : l <> []) (l_same : Forall (fun x => x.2 = s) l).

Lemma remove_dups_same {A} `{!EqDecision A} (x : A) k :
  k <> [] -> Forall (fun y => y = x) k -> remove_dups k = [x].
Proof.
  intros Hne H. induction H as [|y k -> Hk IH]; [done|]. cbn. destruct k as [|z k]; [done|].
  inversion Hk; subst. case_decide as E; [by apply IH|]. exfalso. apply E. by left.
Qed.

Lemma uniform_fmap {B} (f : KVCacheSpec (dtype := dtype) -> B) : Forall (fun y => y = f s) (f <$> l.*2).
Proof using l_same. apply Forall_fmap, Forall_fmap. eapply Forall_impl; [exact l_same|]. cbn. congruence. Qed.

Lemma uniform_not_hybrid : unify_hybrid_kv_cache_specs l = l.
Proof using l_same.
  unfold unify_hybrid_kv_cache_specs. destruct (existsb _ l) eqn:E1; [|done].
  destruct (existsb (fun x => negb (is_full x.2)) l) eqn:E2; [|done]. exfalso.
  apply existsb_exists in E1 as (x & Hx & E1). apply existsb_exists in E2 as (y & Hy & E2).
  rewrite <-list_elem_of_In in Hx, Hy.
  rewrite (proj1 (Forall_forall _ _) l_same x Hx) in E1. rewrite (proj1 (Forall_forall _ _) l_same y Hy), E1 in E2. done.
Qed.

Lemma uniform_layer_spec n : n ∈ l.*1 -> layer_spec l n = Ok s.
Proof using l_same.
  clear l_ne. induction l as [|[m t] k IH]; cbn [layer_spec fmap list_fmap fst]; [by intros ?%not_elem_of_nil|].
  inversion l_same; subst. cbn [snd]. intros [->|Hn]%elem_of_cons; [by rewrite decide_True|].
  case_decide; [done|]. by apply IH.
Qed.

Lemma uniform_group : create_kv_cache_group_specs l [l.*1] = Ok [{| layer_names := l.*1; kv_cache_spec := s |}].
Proof using l_ne l_same.
  unfold create_kv_cache_group_specs. cbn [mapM_ok].
  assert (create_group l l.*1 = Ok {| layer_names := l.*1; kv_cache_spec := s |}) as ->; [|done].
  unfold create_group. pose proof uniform_layer_spec as Hl. destruct (l.*1) as [|n ns] eqn:E; [by destruct l|].
  cbn [head of_option mbind result_bind tail]. rewrite Hl by (by left). cbn [mbind result_bind].
  rewrite (mapM_ok_total _ (fun _ => true)); cbn [mbind result_bind].
  - assert (forallb id ((fun _ : string => true) <$> ns) = true) as ->; [clear; by induction ns|done].
  - intros x Hx. rewrite Hl by (by right). cbn. by rewrite bool_decide_eq_true_2.
Qed.

Lemma uniform_sum (f : KVCacheSpec (dtype := dtype) -> Z) : zsum (f <$> l.*2) = (Z.of_nat (length l) * f s)%Z.
Proof using l_same.
  clear l_ne. induction l as [|x k IH]; [done|]. inversion l_same; subst.
  cbn -[zsum Z.of_nat]. rewrite zsum_cons, IH by done. lia.
Qed.
End Uniform.

(** The cache configuration of a model whose layers share one
    specification.  It is refused with [ValueError] exactly when there is no
    memory or not enough for one request of the maximum length; otherwise the
    number of blocks is the largest that fits the memory, every layer gets a
    tensor for that many pages, one request of the maximum length fits, and all
    layers form one group. *)
Theorem get_kv_cache_config_correct {dtype} `{!EqDecision dtype} (get_dtype_size : dtype -> Z) c l s available_memory :
  l <> [] -> Forall (fun x => x.2 = s) l -> spec_ok get_dtype_size s ->
  num_gpu_blocks_override c = None -> (0 < max_model_len c)%Z ->
  let page := page_size_bytes get_dtype_size (attention s) in
  let n := Z.of_nat (length l) in
  if (available_memory <=? 0)%Z || (available_memory <? n * usage get_dtype_size c s)%Z
  then get_kv_cache_config get_dtype_size c l available_memory = Err ValueError
  else exists cfg, get_kv_cache_config get_dtype_size c l available_memory = Ok cfg /\
    (n * (page * num_blocks cfg) <= available_memory < n * (page * (num_blocks cfg + 1)))%Z /\
    (pages c s <= num_blocks cfg)%Z /\
    tensors cfg = (fun x => (x, page * num_blocks cfg)%Z) <$> l.*1 /\
    kv_cache_groups cfg = [{| layer_names := l.*1; kv_cache_spec := s |}].
Proof.
  intros Hne Hs Hok Hov Hlen. cbn zeta. set (page := page_size_bytes get_dtype_size (attention s)).
  assert (Hall : Forall (fun x => spec_ok get_dtype_size x.2) l) by (eapply Forall_impl; [exact Hs|]; cbn; congruence).
  unfold get_kv_cache_config, check_enough_kv_cache_memory.
  destruct (Z.leb_spec available_memory 0) as [|Hpos]; cbn [orb]; [done|].
  rewrite memory_needed_ok by done. cbn [mbind result_bind]. rewrite (uniform_sum l s Hs).
  destruct (Z.ltb_spec available_memory (Z.of_nat (length l) * usage get_dtype_size c s)) as [|Hfit]; [done|].
  cbn [mbind result_bind]. rewrite (uniform_not_hybrid l s Hs).
  assert (Hf : forall B (f : KVCacheSpec -> B) `{!EqDecision B}, remove_dups (f <$> l.*2) = [f s]).
  { intros B f Hd. apply remove_dups_same; [by destruct l|]. by apply uniform_fmap. }
  unfold is_kv_cache_type_uniform. rewrite Hf. cbn [length Nat.eqb].
  unfold get_kv_cache_config_uniform_type. rewrite (Hf _ (fun s => page_size_bytes get_dtype_size (attention s))).
  fold page. destruct Hok as [Hb Hp]. fold page in Hp.
  assert (Hn : (0 < Z.of_nat (length l))%Z) by (destruct l; [done|cbn; lia]).
  rewrite !py_floordiv_ok by lia. cbn [mbind result_bind]. rewrite py_floordiv_ok by lia. cbn [mbind result_bind].
  rewrite Hov, (proj2 (Z.eqb_neq (max_model_len c) 0)) by lia. cbn [mbind result_bind].
  rewrite (uniform_group l s Hne Hs). cbn [mbind result_bind default].
  eexists. split; [reflexivity|]. cbn [num_blocks tensors kv_cache_groups].
  rewrite Z.div_div by lia.
  set (n := Z.of_nat (length l)) in *. set (q := (available_memory / (page * n))%Z).
  assert (Hq : (page * n * q <= available_memory < page * n * (q + 1))%Z).
  { unfold q. pose proof (Z.div_mod available_memory (page * n) ltac:(nia)).
    pose proof (Z.mod_pos_bound available_memory (page * n) ltac:(nia)). nia. }
  assert (0 <= q)%Z by (apply Z.div_pos; nia). rewrite Z.max_l by done.
  split; [nia|]. split; [|done]. apply Z.div_le_lower_bound; [nia|]. unfold usage in Hfit. fold page in Hfit. nia.
Qed.

Lemma get_kv_cache_config_correct_witness :
  exists cfg, get_kv_cache_config two_bytes demo_config demo_layers 10000 = Ok cfg /\ num_blocks cfg = 9%Z.
Proof.
  destruct (get_kv_cache_config_correct two_bytes demo_config demo_layers (FullAttentionSpec demo_attention) 10000)
    as (cfg & Hc & _).
  - done.
  - repeat constructor.
  - repeat constructor.
  - reflexivity.
  - cbn; lia.
  - exists cfg. split; [exact Hc|]. vm_compute in Hc. injection Hc as <-. reflexivity.
Defined.

(** Hybrid models escape the memory check.  For a model with a full and a
    sliding-window layer the check sums the demand of the layers as specified,
    and the sliding-window layer is turned into a full one only afterwards: this
    configuration is accepted although its five blocks hold 80 of the 100 tokens
    that one request may have.  Two layers of equal page size but different
    shapes pass the test for a uniform type and then fail an assertion. *)
Theorem hybrid_check_gap :
  let hybrid := [("a"%string, FullAttentionSpec demo_attention); ("b"%string, SlidingWindowSpec demo_attention 16)] in
  let reshaped := [("a"%string, FullAttentionSpec demo_attention);
                   ("b"%string, FullAttentionSpec {| block_size := 16; num_kv_heads := 4; head_size := 2;
                                                     spec_dtype := tt; use_mla := false |})] in
  (exists cfg, get_kv_cache_config two_bytes demo_config hybrid 6000 = Ok cfg /\
     (num_blocks cfg * 16 < max_model_len demo_config)%Z) /\
  check_enough_kv_cache_memory two_bytes demo_config (unify_hybrid_kv_cache_specs hybrid) 6000 = Err ValueError /\
  is_kv_cache_type_uniform two_bytes reshaped = true /\
  get_kv_cache_config two_bytes demo_config reshaped 10000 = Err AssertionError.
Proof. cbn zeta. split; [eexists; split; [vm_compute; reflexivity|vm_compute; reflexivity]|]. repeat split; vm_compute; reflexivity. Qed.

(** Workers are made to agree on the smallest number of blocks.  If the
    configurations are accepted, each worker keeps its tensors and, up to order,
    its groups, and gets the minimum of all block counts, so that no worker uses
    more blocks than its own memory allowed. *)
Theorem unify_kv_cache_configs_correct {dtype} `{!EqDecision dtype} (get_dtype_size : dtype -> Z) cs cs' :
  unify_kv_cache_configs get_dtype_size cs = Ok cs' ->
  Forall2 (fun c c' => tensors c' = tensors c /\ kv_cache_groups c' ≡ₚ kv_cache_groups c /\
             (num_blocks c' <= num_blocks c)%Z) cs cs' /\
  exists c, c ∈ cs /\ Forall (fun c' => num_blocks c' = num_blocks c) cs'.
Proof.
  unfold unify_kv_cache_configs. set (sorted := fun c => with_groups c _). destruct cs as [|c0 rest]; [done|].
  cbn [fmap list_fmap]. intros H. invert_ok. clear H.
  set (m := foldr Z.min (num_blocks (sorted c0)) (num_blocks <$> list_fmap _ _ sorted rest)).
  assert (Hm : (forall c, c ∈ c0 :: rest -> (m <= num_blocks c)%Z) /\ exists c, c ∈ c0 :: rest /\ m = num_blocks c).
  { assert (Em : m = foldr Z.min (num_blocks c0) (num_blocks <$> rest)).
    { unfold m. f_equal. change (list_fmap _ _ sorted rest) with (sorted <$> rest). by rewrite <-list_fmap_compose. }
    rewrite Em. destruct (foldr_min_spec (num_blocks c0) (num_blocks <$> rest)) as [H1 H2].
    change (num_blocks c0 :: (num_blocks <$> rest)) with (num_blocks <$> (c0 :: rest)) in H1, H2. split.
    - rewrite Forall_fmap in H1. exact (proj1 (Forall_forall _ _) H1).
    - apply list_elem_of_fmap in H2 as (c & -> & Hc). by exists c. }
  destruct Hm as [Hle (c & Hc & Hmin)]. split.
  - change (Forall2 (fun c c' => tensors c' = tensors c /\ kv_cache_groups c' ≡ₚ kv_cache_groups c /\
             (num_blocks c' <= num_blocks c)%Z) (c0 :: rest) (with_num_blocks m <$> (sorted <$> (c0 :: rest)))).
    rewrite <-list_fmap_compose. apply Forall2_fmap_r. apply Forall2_same_length_lookup. split; [done|].
    intros i c1 c2 Hx Hy. assert (c1 = c2) as <- by congruence. cbn. split; [done|]. split.
    + apply isort_perm.
    + apply Hle. by apply list_elem_of_lookup_2 in Hx.
  - exists c. split; [done|]. rewrite <-Hmin.
    change (Forall (fun c' => num_blocks c' = m) (with_num_blocks m <$> (sorted <$> (c0 :: rest)))).
    apply Forall_fmap. by apply Forall_true.
Qed.

Definition demo_worker (n : Z) : KVCacheConfig (dtype := unit) :=
  {| num_blocks := n; tensors := []; kv_cache_groups := [] |}.

Lemma unify_kv_cache_configs_correct_witness :
  exists cs', unify_kv_cache_configs two_bytes [demo_worker 9; demo_worker 7] = Ok cs' /\
    exists c, c ∈ [demo_worker 9; demo_worker 7] /\ Forall (fun c' => num_blocks c' = num_blocks c) cs'.
Proof.
  eexists. split; [reflexivity|].
  destruct (unify_kv_cache_configs_correct two_bytes [demo_worker 9; demo_worker 7] _ eq_refl) as [_ Hc].
  exact Hc.
Defined.
