(* ===== verification/PrefixMetrics.v ===== *)
(** * Prefix-caching metrics

    [PrefixCachingMetrics] of [vllm/v1/core/kv_cache_utils.py] and the record
    [PrefixCacheStats] of [vllm/v1/metrics/stats.py]: running totals over a
    window of observations.  The hit rate, a float in the code, is the exact
    quotient here. *)

From S2P Require Import Prelude.
From Stdlib Require Import QArith.

Record PrefixCacheStats := { reset : bool; requests : Z; queries : Z; hits : Z }.

Definition new_stats : PrefixCacheStats := {| reset := false; requests := 0; queries := 0; hits := 0 |}.

Record PrefixCachingMetrics := {
  max_recent_requests : Z;
  aggregated_requests : Z;
  aggregated_query_total : Z;
  aggregated_query_hit : Z;
  query_queue : list (Z * Z * Z);
}.

Definition metrics_init (max_recent_requests : Z) : PrefixCachingMetrics :=
  {| max_recent_requests := max_recent_requests; aggregated_requests := 0; aggregated_query_total := 0;
     aggregated_query_hit := 0; query_queue := [] |}.

Definition metrics_reset (m : PrefixCachingMetrics) : PrefixCachingMetrics :=
  {| max_recent_requests := max_recent_requests m; aggregated_requests := 0; aggregated_query_total := 0;
     aggregated_query_hit := 0; query_queue := [] |}.

Definition observe (m : PrefixCachingMetrics) (stats : PrefixCacheStats) : result PrefixCachingMetrics :=
  let m := if reset stats then metrics_reset m else m in
  let queue := query_queue m ++ [(requests stats, queries stats, hits stats)] in
  let n := (aggregated_requests m + requests stats)%Z in
  let total := (aggregated_query_total m + queries stats)%Z in
  let hit := (aggregated_query_hit m + hits stats)%Z in
  if (max_recent_requests m <? n)%Z then
    match queue with
    | [] => Err IndexError
    | (old_requests, old_queries, old_hits) :: queue =>
        Ok {| max_recent_requests := max_recent_requests m; aggregated_requests := n - old_requests;
              aggregated_query_total := total - old_queries; aggregated_query_hit := hit - old_hits;
              query_queue := queue |}
    end
  else Ok {| max_recent_requests := max_recent_requests m; aggregated_requests := n;
             aggregated_query_total := total; aggregated_query_hit := hit; query_queue := queue |}.

Definition hit_rate (m : PrefixCachingMetrics) : Q :=
  if (aggregated_query_total m =? 0)%Z then 0%Q
  else (inject_Z (aggregated_query_hit m) / inject_Z (aggregated_query_total m))%Q.

(** ** Lemmas *)

Definition triple (s : PrefixCacheStats) : Z * Z * Z := (requests s, queries s, hits s).

(** The observations since the last reset. *)
Definition since_reset (l : list PrefixCacheStats) : list (Z * Z * Z) :=
  foldl (fun acc s => (if reset s then [] else acc) ++ [triple s]) [] l.

Record metrics_ok (m : PrefixCachingMetrics) (seen : list (Z * Z * Z)) : Prop := {
  mo_suffix : query_queue m `suffix_of` seen;
  mo_requests : aggregated_requests m = zsum ((fun t => t.1.1) <$> query_queue m);
  mo_total : aggregated_query_total m = zsum ((fun t => t.1.2) <$> query_queue m);
  mo_hit : aggregated_query_hit m = zsum ((fun t => t.2) <$> query_queue m);
}.

Lemma observe_ok m seen s :
  metrics_ok m seen ->
  exists m', observe m s = Ok m' /\ max_recent_requests m' = max_recent_requests m /\
    metrics_ok m' ((if reset s then [] else seen) ++ [triple s]).
Proof.
  intros H. unfold observe.
  set (m0 := if reset s then metrics_reset m else m).
  assert (H0 : metrics_ok m0 (if reset s then [] else seen) /\ max_recent_requests m0 = max_recent_requests m).
  { unfold m0. destruct (reset s); [|done]. split; [|done]. constructor; done. }
  clearbody m0. destruct H0 as [[[k Hk] Hr Ht Hh] <-]. generalize dependent (if reset s then [] else seen). intros seen' Hk.
  assert (Hsum : forall f : Z * Z * Z -> Z, zsum (f <$> query_queue m0 ++ [triple s]) = (zsum (f <$> query_queue m0) + f (triple s))%Z).
  { intros f. rewrite fmap_app, zsum_app. cbn. lia. }
  cbn zeta. change (requests s, queries s, hits s) with (triple s).
  assert (Hsuf : query_queue m0 ++ [triple s] `suffix_of` seen' ++ [triple s]).
  { exists k. by rewrite Hk, (assoc_L (++)). }
  destruct (_ <? _)%Z.
  - destruct (query_queue m0 ++ [triple s]) as [|[[a b] c] q] eqn:E; [by destruct (query_queue m0)|].
    eexists. split; [done|]. split; [done|].
    constructor; cbn -[zsum].
    + etrans; [|exact Hsuf]. by exists [(a, b, c)].
    + pose proof (Hsum (fun t => t.1.1)) as Hs. cbn -[zsum] in Hs. rewrite zsum_cons in Hs. lia.
    + pose proof (Hsum (fun t => t.1.2)) as Hs. cbn -[zsum] in Hs. rewrite zsum_cons in Hs. lia.
    + pose proof (Hsum (fun t => t.2)) as Hs. cbn -[zsum] in Hs. rewrite zsum_cons in Hs. lia.
  - eexists. split; [done|]. split; [done|]. constructor; cbn -[zsum]; [done|rewrite Hsum; cbn -[zsum]; lia..].
Qed.

Lemma observe_all_ok m seen l :
  metrics_ok m seen ->
  exists m', foldM observe m l = Ok m' /\ max_recent_requests m' = max_recent_requests m /\
    metrics_ok m' (foldl (fun acc s => (if reset s then [] else acc) ++ [triple s]) seen l).
Proof.
  revert m seen. induction l as [|s l IH]; intros m seen H; [by exists m|].
  destruct (observe_ok m seen s H) as (m1 & H1 & Hm & Hok). cbn [foldM foldl]. rewrite H1. cbn [mbind result_bind].
  destruct (IH m1 _ Hok) as (m' & -> & Hm' & Hok'). exists m'. by rewrite Hm', Hm.
Qed.

(** ** Properties *)

(** The totals are those of a window.  After any sequence of observations no
    [popleft] has failed, the queue holds the most recent observations since the
    last reset, without gaps, and the three totals, hence the hit rate, are the
    exact sums over it.  But the window is not bounded by the configured number
    of requests, as the class promises: one observation drops one old entry, be
    it empty, so that here 2000 requests stay in a window of 1000. *)
Theorem metrics_window (n : Z) (l : list PrefixCacheStats) :
  (exists m, foldM observe (metrics_init n) l = Ok m /\
     query_queue m `suffix_of` since_reset l /\
     aggregated_requests m = zsum ((fun t => t.1.1) <$> query_queue m) /\
     aggregated_query_total m = zsum ((fun t => t.1.2) <$> query_queue m) /\
     aggregated_query_hit m = zsum ((fun t => t.2) <$> query_queue m)) /\
  (aggregated_requests <$> foldM observe (metrics_init 1000)
     [new_stats; new_stats; {| reset := false; requests := 1000; queries := 10; hits := 5 |};
      {| reset := false; requests := 1000; queries := 10; hits := 5 |}] = Ok 2000%Z).
Proof.
  split; [|vm_compute; reflexivity].
  destruct (observe_all_ok (metrics_init n) [] l) as (m & Hm & _ & [H1 H2 H3 H4]); [by constructor|].
  exists m. split_and!; done.
Qed.
