(* ===== verification/FreeBlockQueue.v ===== *)
(** * KV-cache blocks and the free-block queue

    [KVCacheBlock] and [FreeKVCacheBlockQueue] of vLLM's
    [vllm/v1/core/kv_cache_utils.py].  The queue is a doubly linked list threaded
    through the blocks themselves, so the model has the shared store of blocks:
    a block object is its index in the pool's list [blocks] (its [block_id]), a
    pointer is such an index or [None], and an assignment to an attribute updates
    the store.  [fq_ok s q l] says that the pointers in [s] and [q] spell the
    list [l]; each operation is shown to refine the list operation. *)

From S2P Require Import Prelude.

(** ** Block hashes *)

(** An extra key is the LoRA id of the request or the hash of a multi-modal
    input. *)
Inductive extra_key :=
  | LoraKey (lora_int_id : Z)
  | MMKey (mm_hash : string).

#[export] Instance extra_key_eq_dec : EqDecision extra_key.
Proof. solve_decision. Defined.

#[export] Instance extra_key_countable : Countable extra_key.
Proof.
  refine (inj_countable' (fun k => match k with LoraKey z => inl z | MMKey h => inr h end)
    (fun s => match s with inl z => LoraKey z | inr h => MMKey h end) _).
  by intros [].
Defined.

Record BlockHashType := {
  hash_value : Z;
  token_ids : list Z;
  extra_keys : option (list extra_key);
}.

#[export] Instance block_hash_eq_dec : EqDecision BlockHashType.
Proof. solve_decision. Defined.

#[export] Instance block_hash_countable : Countable BlockHashType.
Proof.
  refine (inj_countable' (fun h => (hash_value h, token_ids h, extra_keys h))
    (fun '(v, t, e) => {| hash_value := v; token_ids := t; extra_keys := e |}) _).
  by intros [].
Defined.

(** ** Blocks *)

Record KVCacheBlock := {
  block_id : nat;
  ref_cnt : Z;
  block_hash : option BlockHashType;
  prev_free_block : option nat;
  next_free_block : option nat;
}.

#[export] Instance block_inhabited : Inhabited KVCacheBlock :=
  populate {| block_id := 0; ref_cnt := 0; block_hash := None;
              prev_free_block := None; next_free_block := None |}.

(** [KVCacheBlock(idx)] *)
Definition new_block (idx : nat) : KVCacheBlock :=
  {| block_id := idx; ref_cnt := 0; block_hash := None;
     prev_free_block := None; next_free_block := None |}.

Definition incr_ref (b : KVCacheBlock) : KVCacheBlock :=
  {| block_id := block_id b; ref_cnt := ref_cnt b + 1; block_hash := block_hash b;
     prev_free_block := prev_free_block b; next_free_block := next_free_block b |}.

Definition decr_ref (b : KVCacheBlock) : KVCacheBlock :=
  {| block_id := block_id b; ref_cnt := ref_cnt b - 1; block_hash := block_hash b;
     prev_free_block := prev_free_block b; next_free_block := next_free_block b |}.

(** The setter of the property [block_hash]. *)
Definition set_block_hash (h : BlockHashType) (b : KVCacheBlock) : result KVCacheBlock :=
  _ ← py_assert (bool_decide (block_hash b = None));
  Ok {| block_id := block_id b; ref_cnt := ref_cnt b; block_hash := Some h;
        prev_free_block := prev_free_block b; next_free_block := next_free_block b |}.

Definition reset_hash (b : KVCacheBlock) : KVCacheBlock :=
  {| block_id := block_id b; ref_cnt := ref_cnt b; block_hash := None;
     prev_free_block := prev_free_block b; next_free_block := next_free_block b |}.

Definition set_prev (p : option nat) (b : KVCacheBlock) : KVCacheBlock :=
  {| block_id := block_id b; ref_cnt := ref_cnt b; block_hash := block_hash b;
     prev_free_block := p; next_free_block := next_free_block b |}.

Definition set_next (n : option nat) (b : KVCacheBlock) : KVCacheBlock :=
  {| block_id := block_id b; ref_cnt := ref_cnt b; block_hash := block_hash b;
     prev_free_block := prev_free_block b; next_free_block := n |}.

(** What the queue leaves alone, and what it uses. *)
Definition data (b : KVCacheBlock) : nat * Z * option BlockHashType :=
  (block_id b, ref_cnt b, block_hash b).
Definition links (b : KVCacheBlock) : option nat * option nat :=
  (prev_free_block b, next_free_block b).

Abbreviation store := (list KVCacheBlock).

(** ** The queue *)

Record FreeKVCacheBlockQueue := {
  num_free_blocks : Z;
  free_list_head : option nat;
  free_list_tail : option nat;
}.

(** One pass of the constructor's loop. *)
Definition link_block (n : nat) (s : store) (i : nat) : store :=
  let s := if 0 <? i then alter (set_prev (Some (i - 1))) i s else s in
  if i <? n - 1 then alter (set_next (Some (i + 1))) i s else s.

Definition queue_init (s : store) : result (store * FreeKVCacheBlockQueue) :=
  let n := length s in
  match s with
  | [] => Err IndexError
  | _ => Ok (foldl (link_block n) s (seq 0 n),
             {| num_free_blocks := Z.of_nat n; free_list_head := Some 0; free_list_tail := Some (n - 1) |})
  end.

(** The first half of [remove]: the neighbours of [b] are linked to each other. *)
Definition unlink (s : store) (b : nat) : store :=
  let s := match prev_free_block (s !!! b) with
           | Some p => alter (set_next (next_free_block (s !!! b))) p s
           | None => s
           end in
  match next_free_block (s !!! b) with
  | Some n => alter (set_prev (prev_free_block (s !!! b))) n s
  | None => s
  end.

Definition remove (s : store) (q : FreeKVCacheBlockQueue) (b : nat) : store * FreeKVCacheBlockQueue :=
  let s := unlink s b in
  let head := if decide (Some b = free_list_head q) then next_free_block (s !!! b)
              else free_list_head q in
  let tail := if decide (Some b = free_list_tail q) then prev_free_block (s !!! b)
              else free_list_tail q in
  (alter (set_prev None) b (alter (set_next None) b s),
   {| num_free_blocks := num_free_blocks q - 1; free_list_head := head; free_list_tail := tail |}).

Definition popleft (s : store) (q : FreeKVCacheBlockQueue) :
    result (store * FreeKVCacheBlockQueue * nat) :=
  match free_list_head q with
  | None => Err ValueError
  | Some b => Ok (remove s q b, b)
  end.

Definition append (s : store) (q : FreeKVCacheBlockQueue) (b : nat) :
    result (store * FreeKVCacheBlockQueue) :=
  match free_list_tail q with
  | Some t =>
      let s := alter (set_next (Some b)) t s in
      let s := alter (set_prev (Some t)) b s in
      Ok (alter (set_next None) b s,
          {| num_free_blocks := num_free_blocks q + 1; free_list_head := free_list_head q;
             free_list_tail := Some b |})
  | None =>
      _ ← py_assert (bool_decide (free_list_head q = None));
      Ok (alter (set_next None) b s,
          {| num_free_blocks := num_free_blocks q + 1; free_list_head := Some b;
             free_list_tail := Some b |})
  end.

(** The [while] loop of [get_all_free_blocks]; every block is visited at most
    once, so as many passes as there are blocks are enough ([get_all_free_blocks_ok]). *)
Fixpoint walk (fuel : nat) (s : store) (curr : option nat) : option (list nat) :=
  match curr with
  | None => Some []
  | Some b =>
      match fuel with
      | 0 => None
      | S fuel => cons b <$> walk fuel s (next_free_block (s !!! b))
      end
  end.

Definition get_all_free_blocks (s : store) (q : FreeKVCacheBlockQueue) : option (list nat) :=
  walk (length s) s (free_list_head q).

(** ** The representation relation *)

Definition first_or (l : list nat) (n : option nat) : option nat :=
  match l with [] => n | x :: _ => Some x end.

Fixpoint last_or (l : list nat) (p : option nat) : option nat :=
  match l with [] => p | x :: l' => last_or l' (Some x) end.

(** The blocks of [l] are linked in order, between [p] and [n]. *)
Fixpoint dseg (s : store) (p : option nat) (l : list nat) (n : option nat) : Prop :=
  match l with
  | [] => True
  | x :: l' => links (s !!! x) = (p, first_or l' n) /\ dseg s (Some x) l' n
  end.

Record fq_ok (s : store) (q : FreeKVCacheBlockQueue) (l : list nat) : Prop := {
  fq_nodup : NoDup l;
  fq_range : Forall (fun x => x < length s) l;
  fq_num : num_free_blocks q = Z.of_nat (length l);
  fq_head : free_list_head q = first_or l None;
  fq_tail : free_list_tail q = last_or l None;
  fq_links : dseg s None l None;
  fq_rest : forall i, i < length s -> i ∉ l -> links (s !!! i) = (None, None);
}.

(** Operations of the queue do not touch the other attributes. *)
Definition same_data (s s' : store) : Prop := data <$> s' = data <$> s.

(** ** Lemmas: the store *)

Lemma alter_total f i j (s : store) :
  i < length s -> alter f i s !!! j = if decide (i = j) then f (s !!! j) else s !!! j.
Proof.
  intros Hi. destruct (decide (i = j)) as [<-|Hne].
  - by rewrite list_lookup_total_alter_eq.
  - by rewrite list_lookup_total_alter_ne.
Qed.

Lemma links_set_next n b : links (set_next n b) = ((links b).1, n).
Proof. done. Qed.
Lemma links_set_prev p b : links (set_prev p b) = (p, (links b).2).
Proof. done. Qed.
Lemma prev_links b p n : links b = (p, n) -> prev_free_block b = p.
Proof. unfold links. congruence. Qed.
Lemma next_links b p n : links b = (p, n) -> next_free_block b = n.
Proof. unfold links. congruence. Qed.

Lemma same_data_refl s : same_data s s.
Proof. done. Qed.
Lemma same_data_trans s1 s2 s3 : same_data s1 s2 -> same_data s2 s3 -> same_data s1 s3.
Proof. unfold same_data. intros H1 H2. by rewrite H2. Qed.
Lemma same_data_length s s' : same_data s s' -> length s' = length s.
Proof. intros H. by rewrite <-(length_fmap data s'), H, length_fmap. Qed.

Lemma same_data_alter (f : KVCacheBlock -> KVCacheBlock) i s :
  (forall b, data (f b) = data b) -> same_data s (alter f i s).
Proof.
  intros Hf. unfold same_data. apply list_eq. intros j.
  rewrite !list_lookup_fmap. destruct (decide (i = j)) as [<-|].
  - rewrite list_lookup_alter_eq. by destruct (s !! i); cbn; rewrite ?Hf.
  - by rewrite list_lookup_alter_ne.
Qed.

Lemma same_data_total s s' i : same_data s s' -> i < length s -> data (s' !!! i) = data (s !!! i).
Proof.
  intros H Hi. pose proof (same_data_length _ _ H) as Hl.
  destruct (lookup_lt_is_Some_2 s i Hi) as [b Hb].
  destruct (lookup_lt_is_Some_2 s' i ltac:(lia)) as [b' Hb'].
  rewrite (list_lookup_total_correct _ _ _ Hb), (list_lookup_total_correct _ _ _ Hb').
  apply (f_equal (fun l => l !! i)) in H. rewrite !list_lookup_fmap, Hb, Hb' in H.
  by apply (inj Some) in H.
Qed.

#[export] Hint Resolve same_data_refl same_data_alter : pydb.

(** ** Lemmas: linked segments *)

Lemma first_or_app l k n : first_or (l ++ k) n = first_or l (first_or k n).
Proof. by destruct l. Qed.
Lemma last_or_app l k p : last_or (l ++ k) p = last_or k (last_or l p).
Proof. revert p. induction l as [|x l IH]; intros p; cbn; [done|apply IH]. Qed.
Lemma last_or_snoc l x p : last_or (l ++ [x]) p = Some x.
Proof. by rewrite last_or_app. Qed.

Lemma dseg_app s p l k n :
  dseg s p (l ++ k) n <-> dseg s p l (first_or k n) /\ dseg s (last_or l p) k n.
Proof.
  revert p. induction l as [|x l IH]; intros p; cbn; [tauto|].
  rewrite IH, first_or_app. tauto.
Qed.

Lemma dseg_frame s s' p l n :
  (forall x, x ∈ l -> links (s' !!! x) = links (s !!! x)) -> dseg s p l n -> dseg s' p l n.
Proof.
  revert p. induction l as [|x l IH]; intros p Hf; cbn; [done|]. intros [H1 H2].
  rewrite Hf by left. split; [done|]. apply IH; [|done]. intros y Hy. apply Hf. by right.
Qed.

(** Redirecting the pointers at the two ends of a segment. *)
Lemma dseg_set_last s s' p l x n n' :
  (forall y, y ∈ l -> links (s' !!! y) = links (s !!! y)) ->
  links (s' !!! x) = ((links (s !!! x)).1, n') ->
  dseg s p (l ++ [x]) n -> dseg s' p (l ++ [x]) n'.
Proof.
  intros Hf Hx. rewrite !dseg_app. cbn [first_or dseg]. intros [H1 [H2 _]]. split.
  - by eapply dseg_frame.
  - rewrite Hx, H2. done.
Qed.

Lemma dseg_set_first s s' p p' x l n :
  (forall y, y ∈ l -> links (s' !!! y) = links (s !!! y)) ->
  links (s' !!! x) = (p', (links (s !!! x)).2) ->
  dseg s p (x :: l) n -> dseg s' p' (x :: l) n.
Proof.
  intros Hf Hx [H1 H2]. cbn [dseg]. split.
  - rewrite Hx, H1. done.
  - by eapply dseg_frame.
Qed.

(** ** [remove] *)

Lemma data_set_next n b : data (set_next n b) = data b.
Proof. done. Qed.
Lemma data_set_prev p b : data (set_prev p b) = data b.
Proof. done. Qed.
#[export] Hint Resolve data_set_next data_set_prev : pydb.

Lemma remove_same_data s q b : same_data s (remove s q b).1.
Proof.
  unfold remove, unlink. cbn [fst]. repeat (eapply same_data_trans; [|by apply same_data_alter]).
  destruct (prev_free_block (s !!! b)) as [p|];
    match goal with |- same_data _ (match ?o with _ => _ end) => destruct o end;
    repeat (eapply same_data_trans; [|by apply same_data_alter]); done.
Qed.

Lemma remove_links s q b p n x :
  links (s !!! b) = (p, n) -> b < length s ->
  (forall y, p = Some y -> y < length s /\ y <> b) ->
  (forall y, n = Some y -> y < length s /\ y <> b) ->
  links ((remove s q b).1 !!! x) =
    if decide (x = b) then (None, None)
    else (if decide (Some x = n) then p else (links (s !!! x)).1,
          if decide (Some x = p) then n else (links (s !!! x)).2).
Proof.
  intros Hb Hlt Hp Hn. unfold remove, unlink. cbn [fst].
  rewrite (prev_links _ _ _ Hb), (next_links _ _ _ Hb).
  set (s1 := match p with Some p => alter (set_next n) p s | None => s end).
  assert (Hl1 : length s1 = length s) by (unfold s1; destruct p; rewrite ?length_alter; done).
  assert (H1 : forall y, links (s1 !!! y) =
      ((links (s !!! y)).1, if decide (Some y = p) then n else (links (s !!! y)).2)).
  { intros y. unfold s1. destruct p as [p|]; [|case_decide; [done|by destruct (links _)]].
    destruct (Hp p eq_refl). rewrite alter_total by done.
    repeat case_decide; simplify_eq; done. }
  assert (Hb1 : links (s1 !!! b) = (p, n)).
  { rewrite H1, Hb. case_decide as E; [|done]. by destruct (Hp b (eq_sym E)). }
  rewrite (prev_links _ _ _ Hb1), (next_links _ _ _ Hb1).
  set (s2 := match n with Some n => alter (set_prev p) n s1 | None => s1 end).
  assert (Hl2 : length s2 = length s) by (unfold s2; destruct n; rewrite ?length_alter; done).
  assert (H2 : forall y, links (s2 !!! y) =
      (if decide (Some y = n) then p else (links (s !!! y)).1,
       if decide (Some y = p) then n else (links (s !!! y)).2)).
  { intros y. unfold s2. destruct n as [n|]; [|by rewrite H1; repeat case_decide].
    destruct (Hn n eq_refl). rewrite alter_total by lia.
    destruct (decide (n = y)) as [<-|]; rewrite ?links_set_prev, H1; cbn [fst snd];
      repeat case_decide; simplify_eq; done. }
  rewrite !alter_total by (rewrite ?length_alter; lia).
  repeat (case_decide; simplify_eq); try done; rewrite H2; repeat case_decide; congruence.
Qed.

Lemma unlink_self s b :
  (forall y, prev_free_block (s !!! b) = Some y \/ next_free_block (s !!! b) = Some y -> y <> b) ->
  unlink s b !!! b = s !!! b.
Proof.
  intros H. unfold unlink. destruct (prev_free_block (s !!! b)) as [p|] eqn:Hp.
  - rewrite list_lookup_total_alter_ne by (apply H; by left).
    destruct (next_free_block (s !!! b)) as [n|] eqn:Hn; rewrite ?list_lookup_total_alter_ne by auto; done.
  - destruct (next_free_block (s !!! b)) as [n|] eqn:Hn; rewrite ?list_lookup_total_alter_ne by auto; done.
Qed.

Lemma remove_queue s q b p n :
  links (s !!! b) = (p, n) -> p <> Some b -> n <> Some b ->
  (remove s q b).2 =
    {| num_free_blocks := num_free_blocks q - 1;
       free_list_head := if decide (Some b = free_list_head q) then n else free_list_head q;
       free_list_tail := if decide (Some b = free_list_tail q) then p else free_list_tail q |}.
Proof.
  intros Hb Hp Hn. unfold remove. cbn [snd].
  rewrite unlink_self, (prev_links _ _ _ Hb), (next_links _ _ _ Hb); [done|].
  rewrite (prev_links _ _ _ Hb), (next_links _ _ _ Hb). intros y [E|E]; congruence.
Qed.

Lemma fq_ok_mid s q l1 b l2 :
  fq_ok s q (l1 ++ b :: l2) ->
  b < length s /\ b ∉ l1 ++ l2 /\ NoDup (l1 ++ l2) /\ Forall (fun x => x < length s) (l1 ++ l2) /\
  links (s !!! b) = (last_or l1 None, first_or l2 None).
Proof.
  intros H. pose proof (fq_nodup _ _ _ H) as Hnd. pose proof (fq_range _ _ _ H) as Hr.
  pose proof (fq_links _ _ _ H) as Hl.
  rewrite <-Permutation_middle in Hnd. apply NoDup_cons in Hnd as [Hb Hnd].
  rewrite <-Permutation_middle in Hr. apply Forall_cons in Hr as [Hb' Hr].
  apply dseg_app in Hl as [_ [Hl _]]. done.
Qed.

Lemma last_or_in l x : last_or l None = Some x -> x ∈ l.
Proof.
  destruct l as [|y l _] using rev_ind; [done|]. rewrite last_or_snoc.
  intros [= ->]. apply elem_of_app. right. by left.
Qed.
Lemma first_or_in l x : first_or l None = Some x -> x ∈ l.
Proof. destruct l; [done|]. intros [= ->]. by left. Qed.

Lemma remove_dseg s s' l1 b l2 :
  NoDup (l1 ++ b :: l2) ->
  (forall x, x <> b -> links (s' !!! x) =
     (if decide (Some x = first_or l2 None) then last_or l1 None else (links (s !!! x)).1,
      if decide (Some x = last_or l1 None) then first_or l2 None else (links (s !!! x)).2)) ->
  dseg s None (l1 ++ b :: l2) None -> dseg s' None (l1 ++ l2) None.
Proof.
  intros Hnd Hs Hseg. apply dseg_app in Hseg as [H1 H2]. cbn [first_or dseg] in H1, H2.
  destruct H2 as [_ H2]. apply NoDup_app in Hnd as (Hn1 & Hd & Hn2).
  apply NoDup_cons in Hn2 as [Hb2 Hn2].
  assert (Hdis : forall x, x ∈ l1 -> x ∈ l2 -> False).
  { intros x Hx Hx'. apply (Hd x Hx). by right. }
  assert (Hb1 : b ∉ l1) by (intros Hx; apply (Hd b Hx); by left).
  apply dseg_app. split.
  - destruct l1 as [|p k _] using rev_ind; [done|]. rewrite last_or_snoc in Hs.
    apply NoDup_app in Hn1 as (_ & Hkp & _).
    eapply dseg_set_last; [| |exact H1].
    + intros y Hy. assert (y ∈ k ++ [p]) by (apply elem_of_app; by left).
      rewrite Hs by congruence. rewrite !decide_False; [by destruct (links _)| |].
      * intros [= ->]. apply (Hkp p Hy). by left.
      * intros E. by eapply Hdis; [|apply first_or_in; symmetry].
    + assert (p ∈ k ++ [p]) by (apply elem_of_app; right; by left).
      rewrite Hs by congruence. rewrite (decide_True _ _ eq_refl), decide_False; [done|].
      intros E. by eapply Hdis; [|apply first_or_in; symmetry].
  - destruct l2 as [|n k]; [done|]. cbn [first_or] in Hs.
    apply NoDup_cons in Hn2 as [Hnk _].
    eapply dseg_set_first; [| |exact H2].
    + intros y Hy. assert (y ∈ n :: k) by (by right).
      rewrite Hs by congruence. rewrite !decide_False; [by destruct (links _)| |].
      * intros E. by eapply Hdis; [apply last_or_in; symmetry|].
      * congruence.
    + assert (n ∈ n :: k) by (by left).
      rewrite Hs by congruence. rewrite (decide_True _ _ eq_refl), decide_False; [done|].
      intros E. by eapply Hdis; [apply last_or_in; symmetry|].
Qed.

(** [remove] takes a block out of the middle of the list. *)
Lemma remove_ok s q l1 b l2 :
  fq_ok s q (l1 ++ b :: l2) -> fq_ok (remove s q b).1 (remove s q b).2 (l1 ++ l2).
Proof.
  intros H. destruct (fq_ok_mid _ _ _ _ _ H) as (Hlt & Hni & Hnd & Hr & Hb).
  pose proof (same_data_length _ _ (remove_same_data s q b)) as Hlen.
  assert (Hin : forall y, y ∈ l1 ++ l2 -> y < length s /\ y <> b).
  { intros y Hy. split; [|congruence]. by eapply (proj1 (Forall_forall _ _) Hr). }
  assert (Hlinks := fun x => remove_links s q b _ _ x Hb Hlt
    (fun y E => Hin y (proj2 (elem_of_app _ _ _) (or_introl (last_or_in _ _ E))))
    (fun y E => Hin y (proj2 (elem_of_app _ _ _) (or_intror (first_or_in _ _ E))))).
  rewrite (remove_queue _ _ _ _ _ Hb); cycle 1.
  { intros E%last_or_in. set_solver. }
  { intros E%first_or_in. set_solver. }
  constructor.
  - done.
  - by rewrite Hlen.
  - cbn. rewrite (fq_num _ _ _ H), !length_app; cbn. lia.
  - cbn [free_list_head]. rewrite (fq_head _ _ _ H).
    destruct l1 as [|x l1]; cbn; [by rewrite decide_True|].
    rewrite decide_False; [done|]. intros [= ->]. apply Hni. by left.
  - cbn [free_list_tail]. rewrite (fq_tail _ _ _ H).
    destruct l2 as [|x l2 _] using rev_ind; rewrite ?app_nil_r, ?app_comm_cons, ?app_assoc, !last_or_snoc;
      [by rewrite decide_True|].
    rewrite decide_False; [done|]. intros [= ->]. set_solver.
  - eapply remove_dseg; [exact (fq_nodup _ _ _ H)| |exact (fq_links _ _ _ H)].
    intros x Hx. by rewrite Hlinks, decide_False.
  - rewrite Hlen. intros i Hi Hil. rewrite Hlinks. case_decide; [done|].
    rewrite !decide_False, (fq_rest _ _ _ H); [done|done| | |].
    + intros E. set_solver.
    + intros E. symmetry in E. apply last_or_in in E. set_solver.
    + intros E. symmetry in E. apply first_or_in in E. set_solver.
Qed.

(** ** The other operations *)

Lemma popleft_ok s q x l :
  fq_ok s q (x :: l) ->
  exists s' q', popleft s q = Ok (s', q', x) /\ fq_ok s' q' l /\ same_data s s'.
Proof.
  intros H. unfold popleft. rewrite (fq_head _ _ _ H). cbn.
  pose proof (remove_ok s q [] x l H) as H'. pose proof (remove_same_data s q x) as Hd.
  destruct (remove s q x) as [s' q']. by exists s', q'.
Qed.

Lemma popleft_empty s q : fq_ok s q [] -> popleft s q = Err ValueError.
Proof. intros H. unfold popleft. by rewrite (fq_head _ _ _ H). Qed.

Lemma append_links s q l b :
  fq_ok s q l -> b < length s -> b ∉ l ->
  exists s', append s q b = Ok (s',
     {| num_free_blocks := num_free_blocks q + 1; free_list_head := first_or (l ++ [b]) None;
        free_list_tail := Some b |}) /\ same_data s s' /\
    (forall x, links (s' !!! x) =
       if decide (x = b) then (last_or l None, None)
       else ((links (s !!! x)).1, if decide (Some x = last_or l None) then Some b
                                  else (links (s !!! x)).2)).
Proof.
  intros H Hb Hbl. unfold append. rewrite (fq_tail _ _ _ H), (fq_head _ _ _ H).
  destruct l as [|t l _] using rev_ind; rewrite ?last_or_snoc; cbn.
  - eexists. split; [done|]. split; [by apply same_data_alter|].
    intros x. rewrite alter_total by done. pose proof (fq_rest _ _ _ H b Hb Hbl) as Hr.
    repeat case_decide; simplify_eq; rewrite ?links_set_next, ?Hr; done.
  - eexists. split; [by destruct l|]. split.
    { repeat (eapply same_data_trans; [|by apply same_data_alter]). done. }
    assert (Ht : t < length s).
    { eapply (proj1 (Forall_forall _ _) (fq_range _ _ _ H)). set_solver. }
    intros x. rewrite !alter_total by (rewrite ?length_alter; done).
    assert (t <> b) by set_solver.
    repeat (case_decide; simplify_eq); rewrite ?links_set_next, ?links_set_prev; done.
Qed.

Lemma append_ok s q l b :
  fq_ok s q l -> b < length s -> b ∉ l ->
  exists s' q', append s q b = Ok (s', q') /\ fq_ok s' q' (l ++ [b]) /\ same_data s s'.
Proof.
  intros H Hb Hbl. destruct (append_links s q l b H Hb Hbl) as (s' & -> & Hd & Hl).
  pose proof (same_data_length _ _ Hd) as Hlen. do 2 eexists. split; [done|]. split; [|done].
  constructor; cbn.
  - apply NoDup_app. split; [exact (fq_nodup _ _ _ H)|]. split; [set_solver|apply NoDup_singleton].
  - rewrite Hlen. apply Forall_app. split; [exact (fq_range _ _ _ H)|by constructor].
  - rewrite (fq_num _ _ _ H), length_app. cbn. lia.
  - done.
  - by rewrite last_or_snoc.
  - apply dseg_app. cbn [dseg first_or]. split; [|by rewrite Hl, decide_True].
    pose proof (fq_links _ _ _ H) as Hs. pose proof (fq_nodup _ _ _ H) as Hn.
    destruct l as [|t l _] using rev_ind; [done|]. rewrite last_or_snoc in Hl.
    apply NoDup_app in Hn as (_ & Hlt & _).
    eapply dseg_set_last; [| |exact Hs].
    + intros y Hy. rewrite Hl, !decide_False; [by destruct (links _)|set_solver|set_solver].
    + rewrite Hl, decide_False, decide_True; [done|done|set_solver].
  - rewrite Hlen. intros i Hi Hil. rewrite Hl, !decide_False, (fq_rest _ _ _ H); try done.
    all: try set_solver. intros E. symmetry in E. apply last_or_in in E. set_solver.
Qed.

Lemma get_all_free_blocks_ok s q l : fq_ok s q l -> get_all_free_blocks s q = Some l.
Proof.
  intros H. unfold get_all_free_blocks. rewrite (fq_head _ _ _ H).
  assert (Hlen : length l <= length s).
  { rewrite <-(length_seq (length s) 0). apply submseteq_length, NoDup_submseteq.
    - exact (fq_nodup _ _ _ H).
    - intros x Hx. apply elem_of_seq. pose proof (proj1 (Forall_forall _ _) (fq_range _ _ _ H) x Hx).
      cbn in *. lia. }
  pose proof (fq_links _ _ _ H) as Hl. revert Hlen Hl. clear H.
  generalize (length s) as fuel. generalize (@None nat) at 1 as p. intros p fuel. revert p fuel.
  induction l as [|x l IH]; intros p fuel Hle; [by destruct fuel|].
  intros [Hx Hl]. destruct fuel as [|fuel]; cbn in Hle; [lia|].
  cbn [first_or walk]. rewrite (next_links _ _ _ Hx), (IH (Some x)); [done|lia|done].
Qed.

Lemma link_block_length n s i : length (link_block n s i) = length s.
Proof. unfold link_block. destruct (0 <? i), (i <? n - 1); by rewrite ?length_alter. Qed.

Lemma link_block_data n s i : same_data s (link_block n s i).
Proof.
  unfold link_block. destruct (0 <? i), (i <? n - 1);
    repeat (eapply same_data_trans; [|by apply same_data_alter]); done.
Qed.

(** The pointers a block gets, in a pool of [n]. *)
Definition neighbours (n i : nat) : option nat * option nat :=
  (if 0 <? i then Some (i - 1) else None, if i <? n - 1 then Some (i + 1) else None).

Lemma link_block_links n s i j :
  i < length s -> links (s !!! i) = (None, None) ->
  links (link_block n s i !!! j) = if decide (i = j) then neighbours n i else links (s !!! j).
Proof.
  intros Hi Hl. unfold link_block, neighbours.
  destruct (0 <? i), (i <? n - 1); rewrite ?alter_total by (rewrite ?length_alter; done);
    case_decide as E; subst; rewrite ?links_set_next, ?links_set_prev, ?Hl; done.
Qed.

Lemma link_blocks_links n s k :
  k <= length s -> Forall (fun b => links b = (None, None)) s ->
  let s' := foldl (link_block n) s (seq 0 k) in
  same_data s s' /\
  forall i, i < length s -> links (s' !!! i) = if decide (i < k) then neighbours n i else (None, None).
Proof.
  intros Hk Hf s'. subst s'. induction k as [|k IH].
  - split; [done|]. intros i Hi. cbn. destruct (lookup_lt_is_Some_2 s i Hi) as [b Hb].
    rewrite (list_lookup_total_correct _ _ _ Hb). by eapply (proj1 (Forall_lookup _ _) Hf).
  - destruct (IH ltac:(lia)) as [Hd Hl]. rewrite seq_S, foldl_app. cbn [foldl plus].
    pose proof (same_data_length _ _ Hd) as Hlen. split.
    { eapply same_data_trans; [exact Hd|apply link_block_data]. }
    intros i Hi. rewrite link_block_links; [|lia|by rewrite Hl, decide_False by lia].
    rewrite Hl by done. repeat case_decide; subst; try done; lia.
Qed.

Lemma chain_dseg s n k :
  (forall i, i < n -> links (s !!! i) = neighbours n i) -> k <= n ->
  dseg s (if 0 <? n - k then Some (n - k - 1) else None) (seq (n - k) k) None.
Proof.
  intros Hl. induction k as [|k IH]; intros Hk; [done|]. cbn [seq dseg].
  replace (S (n - S k)) with (n - k) by lia. split.
  - rewrite Hl by lia. unfold neighbours. f_equal. destruct k as [|k]; cbn [seq first_or].
    + destruct (Nat.ltb_spec (n - 1) (n - 1)); [lia|done].
    + destruct (Nat.ltb_spec (n - S (S k)) (n - 1)); [f_equal|]; lia.
  - specialize (IH ltac:(lia)). destruct (Nat.ltb_spec 0 (n - k)); [|lia].
    by replace (n - k - 1) with (n - S k) in IH by lia.
Qed.

(** The constructor links the blocks of the pool in the order of their ids. *)
Lemma queue_init_ok s :
  s <> [] -> Forall (fun b => links b = (None, None)) s ->
  exists s' q, queue_init s = Ok (s', q) /\ fq_ok s' q (seq 0 (length s)) /\ same_data s s'.
Proof.
  intros Hne Hf. destruct (link_blocks_links (length s) s (length s) (le_n _) Hf) as [Hd Hl].
  pose proof (same_data_length _ _ Hd) as Hlen.
  unfold queue_init. destruct s as [|b0 s0] eqn:Es; [done|]. rewrite <-Es in *.
  do 2 eexists. split; [done|]. split; [|done]. constructor.
  - apply NoDup_seq.
  - apply Forall_forall. intros x Hx%elem_of_seq. lia.
  - by rewrite length_seq.
  - by rewrite Es.
  - cbn [free_list_tail]. assert (E : length s = length s - 1 + 1) by (subst; cbn; lia).
    symmetry. rewrite E at 1. by rewrite seq_app, last_or_app.
  - assert (Hl' : forall i, i < length s ->
      links (foldl (link_block (length s)) s (seq 0 (length s)) !!! i) = neighbours (length s) i).
    { intros i Hi. by rewrite Hl, decide_True. }
    pose proof (chain_dseg _ (length s) (length s) Hl' (le_n _)) as Hc.
    by rewrite Nat.sub_diag in Hc.
  - intros i Hi Hni. exfalso. apply Hni. apply elem_of_seq. lia.
Qed.

(** Changes to other attributes of the blocks leave the queue alone. *)
Lemma fq_ok_links s s' q l :
  length s' = length s -> (forall i, i < length s -> links (s' !!! i) = links (s !!! i)) ->
  fq_ok s q l -> fq_ok s' q l.
Proof.
  intros Hlen Hl H. constructor.
  - exact (fq_nodup _ _ _ H).
  - rewrite Hlen. exact (fq_range _ _ _ H).
  - exact (fq_num _ _ _ H).
  - exact (fq_head _ _ _ H).
  - exact (fq_tail _ _ _ H).
  - eapply dseg_frame; [|exact (fq_links _ _ _ H)]. intros x Hx. apply Hl.
    by eapply (proj1 (Forall_forall _ _) (fq_range _ _ _ H)).
  - rewrite Hlen. intros i Hi Hni. rewrite Hl by done. by apply (fq_rest _ _ _ H).
Qed.

Lemma fq_ok_alter s q l (f : KVCacheBlock -> KVCacheBlock) i :
  (forall b, links (f b) = links b) -> fq_ok s q l -> fq_ok (alter f i s) q l.
Proof.
  intros Hf. apply fq_ok_links; [apply length_alter|]. intros j Hj.
  destruct (decide (i = j)) as [<-|]; [by rewrite list_lookup_total_alter_eq|].
  by rewrite list_lookup_total_alter_ne.
Qed.

(** ** Refinement

    Against a queue that is a plain list, an arbitrary run of operations gives
    the same results. *)

Inductive fq_op :=
  | PopLeft
  | Remove (b : nat)
  | Append (b : nat).

Definition fq_state : Type := store * FreeKVCacheBlockQueue.

Definition run_op (y : fq_state) (o : fq_op) : result (fq_state * option nat) :=
  match o with
  | PopLeft => '(s, q, b) ← popleft y.1 y.2; Ok ((s, q), Some b)
  | Remove b => Ok (remove y.1 y.2 b, None)
  | Append b => '(s, q) ← append y.1 y.2 b; Ok ((s, q), None)
  end.

Definition spec_op (l : list nat) (o : fq_op) : result (list nat * option nat) :=
  match o with
  | PopLeft => match l with [] => Err ValueError | b :: l => Ok (l, Some b) end
  | Remove b => Ok (filter (fun x => x <> b) l, None)
  | Append b => Ok (l ++ [b], None)
  end.

Fixpoint run_ops {S} (op : S -> fq_op -> result (S * option nat)) (s : S) (ops : list fq_op) :
    result (S * list (option nat)) :=
  match ops with
  | [] => Ok (s, [])
  | o :: ops => '(s, out) ← op s o; '(s, outs) ← run_ops op s ops; Ok (s, out :: outs)
  end.

(** What the callers keep to: a block is removed when it is queued and appended
    when it is not. *)
Fixpoint legal (n : nat) (l : list nat) (ops : list fq_op) : Prop :=
  match ops with
  | [] => True
  | o :: ops =>
      match o with
      | PopLeft => True
      | Remove b => b ∈ l
      | Append b => b < n /\ b ∉ l
      end /\
      match spec_op l o with
      | Ok (l, _) => legal n l ops
      | Err _ => True
      end
  end.

Lemma run_op_simulates s q l o :
  fq_ok s q l -> legal (length s) l [o] ->
  match spec_op l o with
  | Err e => run_op (s, q) o = Err e
  | Ok (l', out) => exists s' q', run_op (s, q) o = Ok ((s', q'), out) /\ fq_ok s' q' l' /\ same_data s s'
  end.
Proof.
  intros H [Ho _]. destruct o as [|b|b]; cbn -[remove].
  - destruct l as [|b l]; [by rewrite (popleft_empty _ _ H)|].
    destruct (popleft_ok _ _ _ _ H) as (s' & q' & -> & ? & ?). by exists s', q'.
  - apply list_elem_of_split in Ho as (l1 & l2 & ->). rewrite list_filter_one by exact (fq_nodup _ _ _ H).
    pose proof (remove_ok _ _ _ _ _ H). pose proof (remove_same_data s q b).
    destruct (remove s q b) as [s' q']. by exists s', q'.
  - destruct Ho as [Hb Hl]. destruct (append_ok _ _ _ _ H Hb Hl) as (s' & q' & -> & ? & ?).
    by exists s', q'.
Qed.

Lemma run_ops_simulates ops s q l :
  fq_ok s q l -> legal (length s) l ops ->
  match run_ops spec_op l ops with
  | Err e => run_ops run_op (s, q) ops = Err e
  | Ok (l', outs) =>
      exists s' q', run_ops run_op (s, q) ops = Ok ((s', q'), outs) /\ fq_ok s' q' l' /\ same_data s s'
  end.
Proof.
  revert s q l. induction ops as [|o ops IH]; intros s q l H Hleg; cbn [run_ops].
  - by exists s, q.
  - destruct Hleg as [Ho Hops].
    pose proof (run_op_simulates s q l o H) as Hsim. cbn [legal] in Hsim.
    destruct (spec_op l o) as [[l' out]|e]; cbn [mbind result_bind]; last first.
    { by rewrite Hsim. }
    destruct (Hsim (conj Ho I)) as (s1 & q1 & -> & H1 & Hd). cbn [mbind result_bind].
    rewrite <-(same_data_length _ _ Hd) in Hops. specialize (IH _ _ _ H1 Hops).
    destruct (run_ops spec_op l' ops) as [[l2 outs]|e]; cbn [mbind result_bind].
    + destruct IH as (s2 & q2 & -> & ? & ?). exists s2, q2.
      split; [done|]. split; [done|]. by eapply same_data_trans.
    + by rewrite IH.
Qed.

(** C35: The free-block queue is a list.  After its constructor has linked the
    blocks of a pool, every run of [popleft], [remove] of a queued block and
    [append] of a block not queued gives, through the pointers, the results that
    the same run gives on the plain list of ids; it raises exactly when the list
    is popped empty; the traversal of the pointers then ends and yields that
    list, [num_free_blocks] is its length, and ids, reference counts and hashes
    of the blocks are untouched. *)
Theorem free_queue_refines_list (s : store) (ops : list fq_op) :
  s <> [] -> Forall (fun b => links b = (None, None)) s ->
  legal (length s) (seq 0 (length s)) ops ->
  exists s0 q0, queue_init s = Ok (s0, q0) /\
  match run_ops spec_op (seq 0 (length s)) ops with
  | Err e => run_ops run_op (s0, q0) ops = Err e
  | Ok (l, outs) => exists s' q',
      run_ops run_op (s0, q0) ops = Ok ((s', q'), outs) /\
      get_all_free_blocks s' q' = Some l /\ num_free_blocks q' = Z.of_nat (length l) /\
      data <$> s' = data <$> s
  end.
Proof.
  intros Hne Hf Hleg. destruct (queue_init_ok s Hne Hf) as (s0 & q0 & Hi & H0 & Hd).
  exists s0, q0. split; [done|]. rewrite <-(same_data_length _ _ Hd) in Hleg at 1.
  pose proof (run_ops_simulates ops s0 q0 _ H0 Hleg) as Hsim.
  destruct (run_ops spec_op _ ops) as [[l outs]|e]; [|done].
  destruct Hsim as (s' & q' & ? & H' & Hd'). exists s', q'. split; [done|].
  split; [by apply get_all_free_blocks_ok|]. split; [exact (fq_num _ _ _ H')|].
  by eapply same_data_trans.
Qed.

(** Three blocks: the middle one is removed, then freed again behind the others. *)
Lemma free_queue_refines_list_witness :
  exists s0 q0 s' q', queue_init (new_block <$> [0; 1; 2]) = Ok (s0, q0) /\
    run_ops run_op (s0, q0) [Remove 1; PopLeft; Append 1; PopLeft] = Ok ((s', q'), [None; Some 0; None; Some 2]) /\
    get_all_free_blocks s' q' = Some [1].
Proof.
  destruct (free_queue_refines_list (new_block <$> [0; 1; 2]) [Remove 1; PopLeft; Append 1; PopLeft])
    as (s0 & q0 & Hi & s' & q' & Hr & Hl & _).
  - done.
  - repeat constructor.
  - cbn. repeat split; try lia; set_solver.
  - exists s0, q0, s', q'. exact (conj Hi (conj Hr Hl)).
Defined.
