(* ===== verification/Request.v ===== *)
(** * Requests of the vLLM V1 engine

    [vllm/v1/request.py], the event type of [vllm/v1/engine/__init__.py] and
    [check_stop] of [vllm/v1/core/sched/utils.py].  A [Request] is a mutable
    Python object; here it is a record, and each assignment to an attribute is a
    function on records.  The scheduler keeps the objects in a store of its own. *)

From Stdlib Require Import QArith_base.
From S2P Require Import Prelude.

(** ** Status *)

Inductive RequestStatus :=
  | WAITING
  | WAITING_FOR_FSM
  | RUNNING
  | PREEMPTED
  | FINISHED_STOPPED
  | FINISHED_LENGTH_CAPPED
  | FINISHED_ABORTED
  | FINISHED_IGNORED.

#[export] Instance status_eq_dec : EqDecision RequestStatus.
Proof. solve_decision. Defined.

(** [enum.auto()] numbers an [IntEnum] from one. *)
Definition status_value (s : RequestStatus) : Z :=
  match s with
  | WAITING => 1
  | WAITING_FOR_FSM => 2
  | RUNNING => 3
  | PREEMPTED => 4
  | FINISHED_STOPPED => 5
  | FINISHED_LENGTH_CAPPED => 6
  | FINISHED_ABORTED => 7
  | FINISHED_IGNORED => 8
  end.

Inductive FinishReason := STOP | LENGTH | ABORT.

Definition status_is_finished (s : RequestStatus) : bool :=
  (status_value PREEMPTED <? status_value s)%Z.

Definition finished_reason (s : RequestStatus) : option FinishReason :=
  match s with
  | FINISHED_STOPPED => Some STOP
  | FINISHED_LENGTH_CAPPED => Some LENGTH
  | FINISHED_ABORTED => Some ABORT
  | FINISHED_IGNORED => Some LENGTH
  | _ => None
  end.

Inductive EngineCoreEventType := QUEUED | SCHEDULED | PREEMPTED_EVENT.

(** ** The request *)

Record PlaceholderRange := { offset : Z; length_ : Z }.

(** The fields of [SamplingParams] that only the workers read, for the sampler.
    A float is the rational number that it denotes. *)
Record SamplerParams := {
  temperature : Q;
  top_p : Q;
  top_k : Z;
  min_p : Q;
  frequency_penalty : Q;
  presence_penalty : Q;
  repetition_penalty : Q;
  sp_min_tokens : Z;
  sp_seed : option Z;
  all_stop_token_ids : gset Z;
  sp_logit_bias : option (gmap Z Q);
  allowed_token_ids : list Z;              (* no list and the empty one are treated alike *)
  sp_bad_words_token_ids : list (list Z);  (* likewise *)
}.

(** Greedy sampling without restrictions. *)
Definition greedy_sampler : SamplerParams :=
  {| temperature := 0; top_p := 1; top_k := -1; min_p := 0; frequency_penalty := 0; presence_penalty := 0;
     repetition_penalty := 1; sp_min_tokens := 0; sp_seed := None; all_stop_token_ids := ∅; sp_logit_bias := None;
     allowed_token_ids := []; sp_bad_words_token_ids := [] |}.

(** The fields of [SamplingParams] that the scheduler and its cache read, and
    the others. *)
Record SamplingParams := {
  sp_max_tokens : option Z;
  guided_decoding : bool;
  ignore_eos : bool;
  stop_token_ids : list Z;
  prompt_logprobs : option Z;
  sp_logprobs : option Z;
  sp_sampler : SamplerParams;
}.

Record Request := {
  request_id : string;
  sampling_params : SamplingParams;
  eos_token_id : option Z;
  lora_request : option Z;          (* its [lora_int_id] *)
  structured_output_request : bool; (* whether there is one *)
  status : RequestStatus;
  events : list (EngineCoreEventType * Z);
  stop_reason : option Z;
  max_tokens : Z;
  prompt_token_ids : list Z;
  num_prompt_tokens : nat;
  output_token_ids : list Z;
  all_token_ids : list Z;
  spec_token_ids : list Z;
  num_computed_tokens : Z;
  mm_positions : list PlaceholderRange;
  mm_inputs : nat;                  (* how many; their contents are opaque *)
  mm_hashes : list (option string);
}.

Definition opt_list {A} (o : option (list A)) : list A := default [] o.

(** [Request.__init__] *)
Definition request_init (request_id : string) (prompt_token_ids : list Z)
    (multi_modal_inputs : option nat) (multi_modal_hashes : option (list (option string)))
    (multi_modal_placeholders : option (list PlaceholderRange))
    (sampling_params : SamplingParams) (eos_token_id : option Z) (lora_request : option Z)
    (structured_output_request : bool) : result Request :=
  max_tokens ← of_option AssertionError (sp_max_tokens sampling_params);
  let mm_positions := opt_list multi_modal_placeholders in
  let mm_inputs := default 0 multi_modal_inputs in
  let mm_hashes := opt_list multi_modal_hashes in
  _ ← py_assert (mm_inputs =? length mm_positions);
  _ ← py_assert (bool_decide (mm_hashes = []) || (mm_inputs =? length mm_hashes));
  Ok {| request_id := request_id; sampling_params := sampling_params; eos_token_id := eos_token_id;
        lora_request := lora_request; structured_output_request := structured_output_request;
        status := if guided_decoding sampling_params then WAITING_FOR_FSM else WAITING;
        events := []; stop_reason := None; max_tokens := max_tokens;
        prompt_token_ids := prompt_token_ids; num_prompt_tokens := length prompt_token_ids;
        output_token_ids := []; all_token_ids := prompt_token_ids; spec_token_ids := [];
        num_computed_tokens := 0; mm_positions := mm_positions; mm_inputs := mm_inputs;
        mm_hashes := mm_hashes |}.

(** [from_engine_core_request] always attaches a [StructuredOutputRequest]. *)
Definition from_engine_core_request (request_id : string) (prompt_token_ids : list Z)
    (mm_inputs : option nat) (mm_hashes : option (list (option string)))
    (mm_placeholders : option (list PlaceholderRange)) (sampling_params : SamplingParams)
    (eos_token_id lora_request : option Z) : result Request :=
  request_init request_id prompt_token_ids mm_inputs mm_hashes mm_placeholders sampling_params
    eos_token_id lora_request true.

Definition has_encoder_inputs (r : Request) : bool := 0 <? mm_inputs r.
Definition num_tokens (r : Request) : Z := Z.of_nat (length (all_token_ids r)).
Definition num_tokens_with_spec (r : Request) : Z :=
  Z.of_nat (length (all_token_ids r)) + Z.of_nat (length (spec_token_ids r)).
Definition num_output_tokens (r : Request) : Z := Z.of_nat (length (output_token_ids r)).
Definition is_finished (r : Request) : bool := status_is_finished (status r).
Definition get_finished_reason (r : Request) : option FinishReason := finished_reason (status r).
Definition use_structured_output (r : Request) : bool := guided_decoding (sampling_params r).

(** A negative id would count from the end in Python; the callers pass indices
    of [mm_positions], so the id is a [nat]. *)
Definition get_num_encoder_tokens (r : Request) (input_id : nat) : result Z :=
  _ ← py_assert (input_id <? length (mm_positions r));
  p ← of_option IndexError (mm_positions r !! input_id);
  Ok (length_ p).

(** ** Assignments *)

Definition set_status (v : RequestStatus) (r : Request) : Request :=
  {| request_id := request_id r; sampling_params := sampling_params r;
     eos_token_id := eos_token_id r; lora_request := lora_request r;
     structured_output_request := structured_output_request r; status := v; events := events r;
     stop_reason := stop_reason r; max_tokens := max_tokens r;
     prompt_token_ids := prompt_token_ids r; num_prompt_tokens := num_prompt_tokens r;
     output_token_ids := output_token_ids r; all_token_ids := all_token_ids r;
     spec_token_ids := spec_token_ids r; num_computed_tokens := num_computed_tokens r;
     mm_positions := mm_positions r; mm_inputs := mm_inputs r; mm_hashes := mm_hashes r |}.

Definition set_stop_reason (v : option Z) (r : Request) : Request :=
  {| request_id := request_id r; sampling_params := sampling_params r;
     eos_token_id := eos_token_id r; lora_request := lora_request r;
     structured_output_request := structured_output_request r; status := status r;
     events := events r; stop_reason := v; max_tokens := max_tokens r;
     prompt_token_ids := prompt_token_ids r; num_prompt_tokens := num_prompt_tokens r;
     output_token_ids := output_token_ids r; all_token_ids := all_token_ids r;
     spec_token_ids := spec_token_ids r; num_computed_tokens := num_computed_tokens r;
     mm_positions := mm_positions r; mm_inputs := mm_inputs r; mm_hashes := mm_hashes r |}.

Definition set_spec_token_ids (v : list Z) (r : Request) : Request :=
  {| request_id := request_id r; sampling_params := sampling_params r;
     eos_token_id := eos_token_id r; lora_request := lora_request r;
     structured_output_request := structured_output_request r; status := status r;
     events := events r; stop_reason := stop_reason r; max_tokens := max_tokens r;
     prompt_token_ids := prompt_token_ids r; num_prompt_tokens := num_prompt_tokens r;
     output_token_ids := output_token_ids r; all_token_ids := all_token_ids r;
     spec_token_ids := v; num_computed_tokens := num_computed_tokens r;
     mm_positions := mm_positions r; mm_inputs := mm_inputs r; mm_hashes := mm_hashes r |}.

Definition set_num_computed_tokens (v : Z) (r : Request) : Request :=
  {| request_id := request_id r; sampling_params := sampling_params r;
     eos_token_id := eos_token_id r; lora_request := lora_request r;
     structured_output_request := structured_output_request r; status := status r;
     events := events r; stop_reason := stop_reason r; max_tokens := max_tokens r;
     prompt_token_ids := prompt_token_ids r; num_prompt_tokens := num_prompt_tokens r;
     output_token_ids := output_token_ids r; all_token_ids := all_token_ids r;
     spec_token_ids := spec_token_ids r; num_computed_tokens := v;
     mm_positions := mm_positions r; mm_inputs := mm_inputs r; mm_hashes := mm_hashes r |}.

Definition set_events (v : list (EngineCoreEventType * Z)) (r : Request) : Request :=
  {| request_id := request_id r; sampling_params := sampling_params r;
     eos_token_id := eos_token_id r; lora_request := lora_request r;
     structured_output_request := structured_output_request r; status := status r; events := v;
     stop_reason := stop_reason r; max_tokens := max_tokens r;
     prompt_token_ids := prompt_token_ids r; num_prompt_tokens := num_prompt_tokens r;
     output_token_ids := output_token_ids r; all_token_ids := all_token_ids r;
     spec_token_ids := spec_token_ids r; num_computed_tokens := num_computed_tokens r;
     mm_positions := mm_positions r; mm_inputs := mm_inputs r; mm_hashes := mm_hashes r |}.

(** [append_output_token_ids]; one token is passed as a one-element list. *)
Definition append_output_token_ids (toks : list Z) (r : Request) : Request :=
  {| request_id := request_id r; sampling_params := sampling_params r;
     eos_token_id := eos_token_id r; lora_request := lora_request r;
     structured_output_request := structured_output_request r; status := status r;
     events := events r; stop_reason := stop_reason r; max_tokens := max_tokens r;
     prompt_token_ids := prompt_token_ids r; num_prompt_tokens := num_prompt_tokens r;
     output_token_ids := output_token_ids r ++ toks; all_token_ids := all_token_ids r ++ toks;
     spec_token_ids := spec_token_ids r; num_computed_tokens := num_computed_tokens r;
     mm_positions := mm_positions r; mm_inputs := mm_inputs r; mm_hashes := mm_hashes r |}.

Definition record_event (e : EngineCoreEventType) (timestamp : Z) (r : Request) : Request :=
  set_events (events r ++ [(e, timestamp)]) r.

Definition take_events (r : Request) : Request * option (list (EngineCoreEventType * Z)) :=
  match events r with
  | [] => (r, None)
  | es => (set_events [] r, Some es)
  end.

(** ** [check_stop] *)

Definition check_stop (r : Request) (max_model_len : Z) : result (Request * bool) :=
  if (max_model_len <=? num_tokens r)%Z || (max_tokens r <=? num_output_tokens r)%Z
  then Ok (set_status FINISHED_LENGTH_CAPPED r, true)
  else
    last_token_id ← of_option IndexError (last (output_token_ids r));
    if negb (ignore_eos (sampling_params r)) && bool_decide (Some last_token_id = eos_token_id r)
    then Ok (set_status FINISHED_STOPPED r, true)
    else if bool_decide (last_token_id ∈ stop_token_ids (sampling_params r))
    then Ok (set_stop_reason (Some last_token_id) (set_status FINISHED_STOPPED r), true)
    else Ok (r, false).

(** The generation loop of [update_from_output]: tokens are appended one by one
    until one stops the request; the rest are cut off. *)
Fixpoint append_until_stop (r : Request) (max_model_len : Z) (toks : list Z) :
    result (Request * list Z * bool) :=
  match toks with
  | [] => Ok (r, [], false)
  | t :: toks =>
      '(r, stopped) ← check_stop (append_output_token_ids [t] r) max_model_len;
      if stopped : bool then Ok (r, [t], true)
      else '(r, kept, stopped) ← append_until_stop r max_model_len toks; Ok (r, t :: kept, stopped)
  end.

(** ** Lemmas *)

Lemma finished_reason_iff s : is_Some (finished_reason s) <-> status_is_finished s = true.
Proof. destruct s; cbn; split; intros H; try discriminate; try (destruct H; discriminate); eauto. Qed.

Definition length_capped (r : Request) (L : Z) : bool :=
  (L <=? num_tokens r)%Z || (max_tokens r <=? num_output_tokens r)%Z.

(** The outcomes of [check_stop]; only the status and the stop reason change. *)
Lemma check_stop_cases r L :
  output_token_ids r <> [] ->
  exists r' b, check_stop r L = Ok (r', b) /\
    output_token_ids r' = output_token_ids r /\ all_token_ids r' = all_token_ids r /\
    max_tokens r' = max_tokens r /\
    (b = false -> r' = r /\ length_capped r L = false) /\
    (b = true -> is_finished r' = true /\
       (length_capped r L = true -> get_finished_reason r' = Some LENGTH) /\
       (length_capped r L = false -> get_finished_reason r' = Some STOP)).
Proof.
  intros Hne. unfold check_stop, length_capped. destruct (_ || _).
  { do 2 eexists. repeat split; done. }
  destruct (output_token_ids r) as [|t ts _] eqn:E using rev_ind; [done|]. rewrite last_snoc. cbn.
  repeat match goal with |- context [if ?b then _ else _] => destruct b end;
    do 2 eexists; (split; [reflexivity|]); repeat split; try done; by rewrite E.
Qed.

Lemma append_tokens_nil r : append_output_token_ids [] r = r.
Proof. destruct r. unfold append_output_token_ids. cbn. by rewrite !app_nil_r. Qed.

Lemma append_tokens_app a b r :
  append_output_token_ids b (append_output_token_ids a r) = append_output_token_ids (a ++ b) r.
Proof. unfold append_output_token_ids. cbn. by rewrite !(assoc_L (++)). Qed.

Lemma append_nonempty t r : output_token_ids (append_output_token_ids [t] r) <> [].
Proof. cbn. by destruct (output_token_ids r). Qed.

(** The loop runs to the first token after which [check_stop] answers yes. *)
Lemma append_until_stop_ok r L toks :
  exists r' kept stopped, append_until_stop r L toks = Ok (r', kept, stopped) /\
    kept `prefix_of` toks /\
    (forall k, k `prefix_of` kept -> k <> [] -> (stopped = true -> k <> kept) ->
       check_stop (append_output_token_ids k r) L = Ok (append_output_token_ids k r, false)) /\
    (if stopped then kept <> [] /\ check_stop (append_output_token_ids kept r) L = Ok (r', true)
     else kept = toks /\ r' = append_output_token_ids kept r).
Proof.
  revert r. induction toks as [|t toks IH]; intros r; cbn [append_until_stop].
  { exists r, [], false. split; [done|]. split; [done|]. rewrite append_tokens_nil. split; [|done].
    intros k Hk. by apply prefix_nil_inv in Hk. }
  destruct (check_stop_cases (append_output_token_ids [t] r) L (append_nonempty t r))
    as (r1 & b & Hc & _ & _ & _ & Hf & _).
  rewrite Hc. cbn [mbind result_bind]. destruct b.
  - exists r1, [t], true. split; [done|]. split; [by exists toks|]. split; [|done].
    intros k [k' Hk] Hne Hlt. destruct k as [|x k]; [done|]. destruct k; [|done].
    injection Hk as -> ->. by destruct (Hlt eq_refl).
  - destruct (Hf eq_refl) as [-> _].
    destruct (IH (append_output_token_ids [t] r)) as (r2 & kept & stopped & -> & Hp & Hall & Hend).
    cbn [mbind result_bind]. exists r2, (t :: kept), stopped. split; [done|].
    split; [by apply prefix_cons|]. split.
    + intros k Hk Hne Hlt. destruct k as [|x k]; [done|]. apply prefix_cons_inv_1 in Hk as Hx.
      apply prefix_cons_inv_2 in Hk. subst x. destruct (decide (k = [])) as [->|Hk0]; [done|].
      specialize (Hall k Hk Hk0). rewrite !append_tokens_app in Hall. apply Hall. intros Hs ->.
      by destruct (Hlt Hs).
    + rewrite append_tokens_app in Hend. destruct stopped; [by destruct Hend|].
      destruct Hend as [-> ->]. done.
Qed.

Lemma not_capped_prefix_bounds r L toks :
  length_capped (append_output_token_ids toks r) L = false ->
  (num_tokens r + Z.of_nat (length toks) < L /\
   num_output_tokens r + Z.of_nat (length toks) < max_tokens r)%Z.
Proof.
  unfold length_capped, num_tokens, num_output_tokens. cbn. rewrite !length_app.
  intros [H1%Z.leb_gt H2%Z.leb_gt]%orb_false_iff. lia.
Qed.

(** ** Properties *)

(** Generation stops at the right token.  For a request that is not
    finished, the loop that appends the sampled tokens never raises; it keeps the
    shortest non-empty prefix after which [check_stop] answers yes, or all
    tokens if there is none; prompt-and-output and output grow by exactly the
    kept tokens; the request is finished, with a finish reason, exactly when the
    loop reports a stop, [LENGTH] exactly if a length limit is reached; and a
    request that was within its limits never exceeds [max_tokens] outputs or
    [max_model_len] tokens. *)
Theorem append_until_stop_spec r L toks :
  is_finished r = false ->
  exists r' kept stopped, append_until_stop r L toks = Ok (r', kept, stopped) /\
    kept `prefix_of` toks /\ (stopped = false -> kept = toks) /\
    (forall k, k `prefix_of` kept -> k <> [] -> k <> kept ->
       check_stop (append_output_token_ids k r) L = Ok (append_output_token_ids k r, false)) /\
    output_token_ids r' = output_token_ids r ++ kept /\
    all_token_ids r' = all_token_ids r ++ kept /\
    is_finished r' = stopped /\ (is_Some (get_finished_reason r') <-> stopped = true) /\
    (stopped = true ->
       get_finished_reason r' = Some LENGTH <->
       (L <= num_tokens r' \/ max_tokens r <= num_output_tokens r')%Z) /\
    ((num_output_tokens r < max_tokens r)%Z -> (num_output_tokens r' <= max_tokens r)%Z) /\
    ((num_tokens r < L)%Z -> (num_tokens r' <= L)%Z).
Proof.
  intros Hfin. destruct (append_until_stop_ok r L toks) as (r' & kept & stopped & Hrun & Hp & Hall & Hend).
  exists r', kept, stopped. split; [done|]. split; [done|].
  assert (Hfr : output_token_ids r' = output_token_ids r ++ kept /\
    all_token_ids r' = all_token_ids r ++ kept /\ is_finished r' = stopped /\
    (stopped = true -> get_finished_reason r' =
       Some (if length_capped (append_output_token_ids kept r) L then LENGTH else STOP))).
  { destruct stopped; [|by destruct Hend as [-> ->]]. destruct Hend as [Hne Hc].
    destruct (check_stop_cases (append_output_token_ids kept r) L) as (r1 & b & Hc' & Ho & Ha & _ & _ & Ht).
    { cbn. by intros [_ ?]%app_nil. }
    rewrite Hc in Hc'. injection Hc' as <- <-. destruct (Ht eq_refl) as (Hf & H1 & H2).
    repeat split; try done. intros _. destruct (length_capped _ L); auto. }
  destruct Hfr as (Ho & Ha & Hf & Hr).
  assert (Hcap : length_capped (append_output_token_ids kept r) L = true <->
    (L <= num_tokens r' \/ max_tokens r <= num_output_tokens r')%Z).
  { unfold length_capped, num_tokens, num_output_tokens. cbn. rewrite Ho, Ha, orb_true_iff, !Z.leb_le. done. }
  assert (Hk : forall kept' t, kept = kept' ++ [t] -> kept' <> [] ->
    length_capped (append_output_token_ids kept' r) L = false).
  { intros kept' t -> Hne.
    destruct (check_stop_cases (append_output_token_ids kept' r) L) as (r1 & b & Hc' & _ & _ & _ & Hff & _).
    { cbn. by intros [_ ?]%app_nil. }
    rewrite Hall in Hc'; [|by exists [t]|done|].
    - injection Hc' as <- <-. by destruct (Hff eq_refl).
    - intros _ E. apply (f_equal length) in E. rewrite length_app in E. cbn in E. lia. }
  assert (Hb : (kept = [] \/ exists kept' t, kept = kept' ++ [t] /\ (kept' = [] \/
      (num_tokens r + Z.of_nat (length kept') < L /\
       num_output_tokens r + Z.of_nat (length kept') < max_tokens r)%Z))).
  { destruct kept as [|t kept' _] using rev_ind; [by left|]. right. exists kept', t. split; [done|].
    destruct (decide (kept' = [])) as [|Hne]; [by left|]. right.
    by apply not_capped_prefix_bounds, (Hk kept' t). }
  split; [destruct stopped; [done|by destruct Hend]|].
  split; [intros k Hk1 Hk2 Hk3; by apply Hall|].
  split; [done|]. split; [done|]. split; [done|].
  split; [unfold get_finished_reason; rewrite finished_reason_iff; unfold is_finished in Hf; by rewrite Hf|].
  split.
  { intros Hs. rewrite (Hr Hs), <-Hcap. destruct (length_capped _ L); naive_solver. }
  unfold num_tokens, num_output_tokens in *. rewrite Ho, Ha, !length_app.
  destruct Hb as [->|(kept' & t & -> & [->|Hb])]; rewrite ?length_app; cbn [length]; lia.
Qed.

Definition demo_request : Request :=
  {| request_id := "a"; sampling_params := {| sp_max_tokens := Some 3%Z; guided_decoding := false;
       ignore_eos := false; stop_token_ids := [7%Z]; prompt_logprobs := None; sp_logprobs := None; sp_sampler := greedy_sampler |};
     eos_token_id := Some 2%Z; lora_request := None; structured_output_request := true;
     status := RUNNING; events := []; stop_reason := None; max_tokens := 3;
     prompt_token_ids := [5; 6]%Z; num_prompt_tokens := 2; output_token_ids := [];
     all_token_ids := [5; 6]%Z; spec_token_ids := []; num_computed_tokens := 2;
     mm_positions := []; mm_inputs := 0; mm_hashes := [] |}.

(** The stop token 7 cuts off what follows it. *)
Lemma append_until_stop_spec_witness :
  exists r', append_until_stop demo_request 100 [4; 7; 9]%Z = Ok (r', [4; 7]%Z, true) /\
    output_token_ids r' = [4; 7]%Z /\ is_finished r' = true.
Proof.
  destruct (append_until_stop_spec demo_request 100 [4; 7; 9]%Z eq_refl)
    as (r' & kept & stopped & Hrun & _ & _ & _ & Ho & _ & Hf & _).
  assert (kept = [4; 7]%Z /\ stopped = true) as [-> ->].
  { vm_compute in Hrun. injection Hrun as <- <- <-. done. }
  by exists r'.
Defined.
