(* ===== verification/BlockHash.v ===== *)
(** * Prefix-cache block hashes

    The functions of [vllm/v1/core/kv_cache_utils.py] that give every full block
    of a request its hash: [need_extra_keys], [_gen_mm_extra_hash_keys],
    [_gen_lora_extra_hash_keys], [generate_block_hash_extra_keys],
    [hash_block_tokens] and [hash_request_tokens].  The hash function and the
    random seed [NONE_HASH] are parameters; what a caller needs of them is
    collected in the class [CollisionFree]. *)

From S2P Require Import Prelude FreeBlockQueue Request.

(** The argument of the hash function: parent hash, tokens, extra keys. *)
Definition hash_input : Type := Z * list Z * option (list extra_key).

Definition need_extra_keys (r : Request) : bool :=
  negb (bool_decide (mm_positions r = [])) || bool_decide (is_Some (lora_request r)).

(** ** Multi-modal keys *)

(** The [while] loop, over the inputs from [curr_mm_idx] on. *)
Fixpoint mm_loop (start_token_idx end_token_idx : Z) (rest : list (PlaceholderRange * option string))
    (curr_mm_idx : Z) : result (list extra_key * Z) :=
  match rest with
  | [] => Ok ([], curr_mm_idx)
  | (pos, mm_hash) :: rest =>
      h ← of_option AssertionError mm_hash;
      if (offset pos <? end_token_idx)%Z then
        if (offset pos + length_ pos <? start_token_idx)%Z
        then mm_loop start_token_idx end_token_idx rest (curr_mm_idx + 1)
        else if (offset pos + length_ pos <=? end_token_idx)%Z
        then '(keys, idx) ← mm_loop start_token_idx end_token_idx rest (curr_mm_idx + 1);
             Ok (MMKey h :: keys, idx)
        else Ok ([MMKey h], curr_mm_idx)
      else Ok ([], curr_mm_idx)
  end.

Definition gen_mm_extra_hash_keys (r : Request) (start_token_idx end_token_idx start_mm_idx : Z) :
    result (list extra_key * Z) :=
  match last (mm_positions r) with
  | None => Ok ([], start_mm_idx)
  | Some lst =>
      if negb (length (mm_positions r) =? length (mm_hashes r)) then Err ValueError
      else if (offset lst + length_ lst <? start_token_idx)%Z then Ok ([], start_mm_idx)
      else
        let n := Z.of_nat (length (mm_positions r)) in
        start_mm_idx ←
          (if (start_mm_idx <? 0)%Z
           then _ ← py_assert (- start_mm_idx <=? n)%Z; Ok (n + start_mm_idx)%Z
           else Ok start_mm_idx);
        mm_loop start_token_idx end_token_idx
          (drop (Z.to_nat start_mm_idx) (zip (mm_positions r) (mm_hashes r))) start_mm_idx
  end.

Definition gen_lora_extra_hash_keys (r : Request) : list extra_key :=
  match lora_request r with None => [] | Some i => [LoraKey i] end.

(** An empty list of keys is reported as [None]. *)
Definition keys_or_none (l : list extra_key) : option (list extra_key) :=
  match l with [] => None | _ => Some l end.

Definition generate_block_hash_extra_keys (r : Request)
    (start_token_idx end_token_idx start_mm_idx : Z) : result (option (list extra_key) * Z) :=
  '(mm_extra_keys, new_start_mm_idx) ←
    gen_mm_extra_hash_keys r start_token_idx end_token_idx start_mm_idx;
  Ok (keys_or_none (gen_lora_extra_hash_keys r ++ mm_extra_keys), new_start_mm_idx).

(** ** The hash chain *)

Section Hashing.
Context (hash_function : hash_input -> Z) (NONE_HASH : Z).

(** [if not parent_block_hash]: [None], and a hash of zero too. *)
Definition hash_block_tokens (parent_block_hash : option Z) (curr_block_token_ids : list Z)
    (extra_keys : option (list extra_key)) : BlockHashType :=
  let parent := match parent_block_hash with
                | None => NONE_HASH
                | Some h => if (h =? 0)%Z then NONE_HASH else h
                end in
  {| hash_value := hash_function (parent, curr_block_token_ids, extra_keys);
     token_ids := curr_block_token_ids; FreeBlockQueue.extra_keys := extra_keys |}.

(** [range(0, n, step)] *)
Definition range0 (n step : nat) : list nat :=
  (fun i => i * step) <$> seq 0 ((n + step - 1) / step).

Fixpoint hash_loop (block_size : nat) (r : Request) (starts : list nat) (curr_mm_idx : Z)
    (req_extra_keys : option (list extra_key)) (parent : option Z) : result (list BlockHashType) :=
  match starts with
  | [] => Ok []
  | start :: starts =>
      let end_ := start + block_size in
      let block_token_ids := take block_size (drop start (all_token_ids r)) in
      if length block_token_ids <? block_size then Ok []
      else
        '(keys, idx) ←
          (if need_extra_keys r
           then generate_block_hash_extra_keys r (Z.of_nat start) (Z.of_nat end_) curr_mm_idx
           else Ok (req_extra_keys, curr_mm_idx));
        let block_hash := hash_block_tokens parent block_token_ids keys in
        ret ← hash_loop block_size r starts idx keys (Some (hash_value block_hash));
        Ok (block_hash :: ret)
  end.

Definition hash_request_tokens (block_size : nat) (r : Request) : result (list BlockHashType) :=
  if block_size =? 0 then Err ValueError
  else hash_loop block_size r (range0 (length (all_token_ids r)) block_size) 0 None None.

(** ** Specification

  What a block hash stands for: the blocks of the request with their keys, and
  the chain of hashes over them. *)

Fixpoint hash_chain (parent : option Z) (l : list (list Z * option (list extra_key))) :
    list BlockHashType :=
  match l with
  | [] => []
  | (toks, keys) :: l =>
      let h := hash_block_tokens parent toks keys in h :: hash_chain (Some (hash_value h)) l
  end.

Definition block_tokens (block_size : nat) (r : Request) (i : nat) : list Z :=
  take block_size (drop (i * block_size) (all_token_ids r)).

(** The multi-modal inputs that share a token with [start, end). *)
Definition overlaps (s e : Z) (x : PlaceholderRange * option string) : bool :=
  (offset x.1 <? e)%Z && (s <? offset x.1 + length_ x.1)%Z.

Definition mm_key (x : PlaceholderRange * option string) : extra_key := MMKey (default EmptyString x.2).

Definition mm_keys_in (s e : Z) (l : list (PlaceholderRange * option string)) : list extra_key :=
  mm_key <$> filter (fun x => overlaps s e x = true) l.

Definition block_keys (block_size : nat) (r : Request) (i : nat) : option (list extra_key) :=
  keys_or_none (gen_lora_extra_hash_keys r ++
    mm_keys_in (Z.of_nat (i * block_size)) (Z.of_nat (i * block_size + block_size))
      (zip (mm_positions r) (mm_hashes r))).

Definition request_block (block_size : nat) (r : Request) (i : nat) : list Z * option (list extra_key) :=
  (block_tokens block_size r i, block_keys block_size r i).

(** The multi-modal inputs are non-empty, in order and apart, each with a hash:
  what the comment "we assume mm_positions is sorted by offset" asks for. *)
Fixpoint mm_sorted (lo : Z) (l : list (PlaceholderRange * option string)) : Prop :=
  match l with
  | [] => True
  | (pos, h) :: l =>
      (lo <= offset pos /\ 0 < length_ pos)%Z /\ is_Some h /\ mm_sorted (offset pos + length_ pos) l
  end.

Definition mm_ok (r : Request) : Prop :=
  length (mm_positions r) = length (mm_hashes r) /\ mm_sorted 0 (zip (mm_positions r) (mm_hashes r)).

End Hashing.

(** What prefix caching needs of the hash function: no collisions, and never one
    of the two values that mean "no parent". *)
Class CollisionFree (hash_function : hash_input -> Z) (NONE_HASH : Z) := {
  hash_inj :: Inj (=) (=) hash_function;
  hash_nonzero : forall x, hash_function x <> 0%Z;
  hash_not_none : forall x, hash_function x <> NONE_HASH;
}.

(** ** Lemmas: multi-modal keys *)

Definition mm_end (x : PlaceholderRange * option string) : Z := (offset x.1 + length_ x.1)%Z.

Lemma mm_sorted_beyond lo l :
  mm_sorted lo l -> Forall (fun x => lo <= offset x.1 /\ lo < mm_end x)%Z l.
Proof.
  revert lo. induction l as [|[p h] l IH]; intros lo; cbn; [constructor|].
  intros ((H1 & H2) & _ & H3). constructor; [cbn; unfold mm_end; cbn; lia|].
  eapply Forall_impl; [by apply IH|]. cbn. lia.
Qed.

Lemma mm_keys_in_none s e l :
  Forall (fun x => (mm_end x <= s)%Z \/ (e <= offset x.1)%Z) l -> mm_keys_in s e l = [].
Proof.
  unfold mm_keys_in. intros H. induction H as [|x l Hx _ IH]; [done|].
  rewrite filter_cons_False; [done|]. unfold overlaps, mm_end in *.
  rewrite andb_true_iff, !Z.ltb_lt. lia.
Qed.

Lemma mm_keys_in_app s e l k : mm_keys_in s e (l ++ k) = mm_keys_in s e l ++ mm_keys_in s e k.
Proof. unfold mm_keys_in. by rewrite filter_app, fmap_app. Qed.

Lemma mm_loop_ok s e l lo c :
  mm_sorted lo l -> Forall (fun x => s < mm_end x)%Z l ->
  exists k, mm_loop s e l c = Ok (mm_keys_in s e l, c + Z.of_nat k)%Z /\ k <= length l /\
    Forall (fun x => mm_end x <= e)%Z (take k l) /\ Forall (fun x => e < mm_end x)%Z (drop k l).
Proof.
  revert lo c. induction l as [|[p h] l IH]; intros lo c; cbn [mm_sorted mm_loop].
  { intros _ _. exists 0. rewrite Z.add_0_r. repeat split; constructor. }
  intros ((H1 & H2) & [h' ->] & H3) [Hs Hl]%Forall_cons. cbn [of_option mbind result_bind].
  pose proof (mm_sorted_beyond _ _ H3) as Hb. unfold mm_end in Hs at 1; cbn [fst] in Hs.
  assert (Hk : forall x, (overlaps s e (p, Some h') = x) ->
    mm_keys_in s e ((p, Some h') :: l) = (if x then [MMKey h'] else []) ++ mm_keys_in s e l).
  { intros x <-. unfold mm_keys_in at 1. rewrite filter_cons. by case_decide as E; [rewrite E|destruct (overlaps _ _ _)]. }
  unfold overlaps in Hk; cbn [fst] in Hk.
  destruct (Z.ltb_spec (offset p) e) as [He|He]; cbn [andb] in Hk.
  - destruct (Z.ltb_spec (offset p + length_ p) s); [lia|].
    rewrite (Hk true) by (apply Z.ltb_lt; lia).
    destruct (Z.leb_spec (offset p + length_ p) e) as [Hle|Hle].
    + destruct (IH _ (c + 1)%Z H3 Hl) as (k & -> & Hlen & Ht & Hd). cbn [mbind result_bind].
      exists (S k). cbn. split; [do 2 f_equal; lia|]. split; [lia|]. split; [by constructor|done].
    + exists 0. rewrite Z.add_0_r, mm_keys_in_none by (eapply Forall_impl; [exact Hb|]; cbn; lia).
      cbn. repeat split; [lia|constructor|]. constructor; [unfold mm_end; cbn; lia|].
      eapply Forall_impl; [exact Hb|]. cbn. lia.
  - exists 0. rewrite Z.add_0_r, (Hk false eq_refl), mm_keys_in_none by (eapply Forall_impl; [exact Hb|]; cbn; lia).
    cbn. repeat split; [lia|constructor|]. constructor; [unfold mm_end; cbn; lia|].
    eapply Forall_impl; [exact Hb|]. cbn. lia.
Qed.

(** [c] separates the inputs that end by [s] from those that reach beyond. *)
Definition mm_cut (l : list (PlaceholderRange * option string)) (s : Z) (c : nat) : Prop :=
  c <= length l /\ Forall (fun x => mm_end x <= s)%Z (take c l) /\ Forall (fun x => s < mm_end x)%Z (drop c l).

Lemma mm_sorted_drop lo l c : mm_sorted lo l -> exists lo', mm_sorted lo' (drop c l).
Proof.
  revert lo l. induction c as [|c IH]; intros lo l H; [by exists lo; rewrite drop_0|].
  destruct l as [|[p h] l]; [by exists lo|]. destruct H as (_ & _ & H). by eapply IH.
Qed.

Lemma mm_loop_cut s e l c :
  mm_sorted 0 l -> (s <= e)%Z -> mm_cut l s c ->
  exists c', mm_loop s e (drop c l) (Z.of_nat c) = Ok (mm_keys_in s e l, Z.of_nat c') /\ mm_cut l e c'.
Proof.
  intros Hs Hse (Hc & Ht & Hd). destruct (mm_sorted_drop _ _ c Hs) as [lo Hlo].
  destruct (mm_loop_ok s e (drop c l) lo (Z.of_nat c) Hlo Hd) as (k & -> & Hk & Ht' & Hd').
  exists (c + k). split.
  - rewrite <-(take_drop c l) at 2. rewrite mm_keys_in_app, (mm_keys_in_none _ _ (take c l)); [|].
    + cbn. do 2 f_equal. lia.
    + eapply Forall_impl; [exact Ht|]. cbn. lia.
  - rewrite length_drop in Hk. rewrite drop_drop in Hd'. split; [lia|]. split; [|done].
    rewrite <-(take_drop c l), firstn_app, length_take_le by lia.
    replace (c + k - c) with k by lia. apply Forall_app. split; [|done].
    rewrite take_ge by (rewrite length_take_le; lia).
    eapply Forall_impl; [exact Ht|]. cbn. lia.
Qed.

Lemma last_zip {A B} (l : list A) (k : list B) x :
  length l = length k -> last l = Some x -> exists y, last (zip l k) = Some (x, y).
Proof.
  revert k. induction l as [|a l IH]; intros [|b k]; cbn; try done. intros [= Hl].
  destruct l as [|a' l], k as [|b' k]; try done.
  - intros [= <-]. by exists b.
  - intros H. change (exists y, last (zip (a' :: l) (b' :: k)) = Some (x, y)). by apply IH.
Qed.

Lemma mm_cut_all l s c x : mm_cut l s c -> last l = Some x -> (mm_end x <= s)%Z -> c = length l.
Proof.
  intros (Hc & _ & Hd) Hx Hle. destruct (decide (c = length l)) as [|Hne]; [done|exfalso].
  destruct l as [|y l _] using rev_ind; [done|]. rewrite last_snoc in Hx. injection Hx as ->.
  rewrite length_app in *. cbn in *. rewrite drop_app_le in Hd by lia.
  apply Forall_app in Hd as [_ [Hd _]%Forall_cons]. lia.
Qed.

Lemma gen_mm_ok r s e c :
  mm_ok r -> (s <= e)%Z -> mm_cut (zip (mm_positions r) (mm_hashes r)) s c ->
  exists c', gen_mm_extra_hash_keys r s e (Z.of_nat c) =
      Ok (mm_keys_in s e (zip (mm_positions r) (mm_hashes r)), Z.of_nat c') /\
    mm_cut (zip (mm_positions r) (mm_hashes r)) e c'.
Proof.
  intros [Hlen Hs] Hse Hcut. unfold gen_mm_extra_hash_keys.
  destruct (last (mm_positions r)) as [p|] eqn:Hp; last first.
  { apply last_None in Hp. rewrite Hp in *. exists c. split; [done|].
    destruct Hcut as (Hc & _ & _). cbn in Hc. replace c with 0 by lia. repeat constructor. }
  destruct (last_zip _ _ _ Hlen Hp) as [h Hl].
  rewrite (proj2 (Nat.eqb_eq _ _) Hlen). cbn [negb].
  destruct (Z.ltb_spec (offset p + length_ p) s) as [Hlt|_].
  - assert (Hle : (mm_end (p, h) <= s)%Z) by (unfold mm_end; cbn; lia).
    pose proof (mm_cut_all _ _ _ _ Hcut Hl Hle) as ->. destruct Hcut as (_ & Ht & _).
    rewrite take_ge in Ht by done. exists (length (zip (mm_positions r) (mm_hashes r))). split.
    + rewrite mm_keys_in_none; [done|]. eapply Forall_impl; [exact Ht|]. cbn. lia.
    + split; [done|]. rewrite take_ge, drop_ge by done. split; [|constructor].
      eapply Forall_impl; [exact Ht|]. cbn. lia.
  - destruct (Z.ltb_spec (Z.of_nat c) 0); [lia|]. cbn [mbind result_bind]. rewrite Nat2Z.id.
    by apply mm_loop_cut.
Qed.

(** ** Lemmas: the loop over the blocks *)

Section HashingLemmas.
Context (hash_function : hash_input -> Z) (NONE_HASH : Z).
Local Abbreviation hash_chain := (hash_chain hash_function NONE_HASH).
Local Abbreviation hash_loop := (hash_loop hash_function NONE_HASH).

Lemma block_tokens_length bs r i :
  i < length (all_token_ids r) / bs -> length (block_tokens bs r i) = bs.
Proof.
  intros Hi. unfold block_tokens. rewrite length_take, length_drop.
  assert (S i * bs <= length (all_token_ids r)); [|lia].
  transitivity (length (all_token_ids r) / bs * bs); [nia|].
  rewrite Nat.mul_comm. destruct bs; [lia|]. by apply Nat.Div0.mul_div_le.
Qed.

Lemma block_tokens_short bs r i :
  0 < bs -> length (all_token_ids r) / bs <= i -> length (block_tokens bs r i) < bs.
Proof.
  intros Hbs Hi. unfold block_tokens. rewrite length_take, length_drop.
  pose proof (Nat.div_mod_eq (length (all_token_ids r)) bs).
  pose proof (Nat.mod_upper_bound (length (all_token_ids r)) bs ltac:(lia)). nia.
Qed.

Lemma need_extra_keys_false bs r i : need_extra_keys r = false -> block_keys bs r i = None.
Proof.
  unfold need_extra_keys, block_keys, gen_lora_extra_hash_keys.
  case_bool_decide as H1; [|done]. case_bool_decide as H2; [done|]. rewrite H1.
  destruct (lora_request r); [by destruct H2|done].
Qed.

Lemma hash_loop_ok bs r m i c keys parent :
  0 < bs -> mm_ok r -> i <= length (all_token_ids r) / bs -> length (all_token_ids r) / bs <= i + m ->
  mm_cut (zip (mm_positions r) (mm_hashes r)) (Z.of_nat (i * bs)) c ->
  (need_extra_keys r = false -> keys = None) ->
  hash_loop bs r ((fun i => i * bs) <$> seq i m) (Z.of_nat c) keys parent =
    Ok (hash_chain parent (request_block bs r <$> seq i (length (all_token_ids r) / bs - i))).
Proof.
  intros Hbs Hmm. revert i c keys parent. induction m as [|m IH]; intros i c keys parent Hi Hm Hc Hk.
  { by replace (length (all_token_ids r) / bs - i) with 0 by lia. }
  cbn [seq fmap list_fmap BlockHash.hash_loop].
  change (take bs (drop (i * bs) (all_token_ids r))) with (block_tokens bs r i).
  destruct (decide (i = length (all_token_ids r) / bs)) as [->|Hne].
  { rewrite Nat.sub_diag. rewrite (proj2 (Nat.ltb_lt _ _)); [done|by apply block_tokens_short]. }
  rewrite (proj2 (Nat.ltb_ge _ _)) by (rewrite block_tokens_length by lia; lia).
  destruct (gen_mm_ok r (Z.of_nat (i * bs)) (Z.of_nat (i * bs + bs)) c Hmm ltac:(lia) Hc) as (c' & Hgen & Hc').
  assert (Hkeys : exists c'', mm_cut (zip (mm_positions r) (mm_hashes r)) (Z.of_nat (S i * bs)) c'' /\
    (if need_extra_keys r
     then generate_block_hash_extra_keys r (Z.of_nat (i * bs)) (Z.of_nat (i * bs + bs)) (Z.of_nat c)
     else Ok (keys, Z.of_nat c)) = Ok (block_keys bs r i, Z.of_nat c'')).
  { replace (S i * bs) with (i * bs + bs) by lia.
    destruct (need_extra_keys r) eqn:En.
    - exists c'. split; [done|]. unfold generate_block_hash_extra_keys. rewrite Hgen. done.
    - exists c. rewrite (Hk eq_refl), need_extra_keys_false by done. split; [|done].
      unfold need_extra_keys in En. case_bool_decide as E0; [|done]. rewrite E0 in *.
      destruct Hc as (Hc & _). cbn in Hc. replace c with 0 by lia. repeat constructor. }
  destruct Hkeys as (c'' & Hcut & ->). cbn [mbind result_bind].
  rewrite (IH (S i)); [|lia|lia|done|by apply need_extra_keys_false].
  cbn [mbind result_bind].
  replace (length (all_token_ids r) / bs - i) with (S (length (all_token_ids r) / bs - S i)) by lia.
  done.
Qed.

Lemma hash_request_tokens_ok bs r :
  0 < bs -> mm_ok r ->
  hash_request_tokens hash_function NONE_HASH bs r =
    Ok (hash_chain None (request_block bs r <$> seq 0 (length (all_token_ids r) / bs))).
Proof.
  intros Hbs Hmm. unfold hash_request_tokens, range0.
  destruct (Nat.eqb_spec bs 0) as [|_]; [lia|].
  rewrite (hash_loop_ok bs r _ 0 0 None None Hbs Hmm); [by rewrite Nat.sub_0_r|lia| |split; [lia|]|done].
  - cbn. apply Nat.Div0.div_le_mono. lia.
  - rewrite take_0, drop_0. split; [constructor|]. destruct Hmm as [_ Hs].
    eapply Forall_impl; [by eapply mm_sorted_beyond|]. cbn. lia.
Qed.

Lemma hash_chain_length parent l : length (hash_chain parent l) = length l.
Proof. revert parent. induction l as [|[t k] l IH]; intros parent; cbn; [done|]. by rewrite IH. Qed.

(** What the [i]-th hash of a chain was computed from. *)
Lemma hash_chain_lookup parent l i h :
  hash_chain parent l !! i = Some h ->
  exists toks keys, l !! i = Some (toks, keys) /\
    match i with
    | 0 => h = hash_block_tokens hash_function NONE_HASH parent toks keys
    | S j => exists h', hash_chain parent l !! j = Some h' /\
        h = hash_block_tokens hash_function NONE_HASH (Some (hash_value h')) toks keys
    end.
Proof.
  revert parent i. induction l as [|[t k] l IH]; intros parent i; [done|]. cbn.
  destruct i as [|i]; [intros [= <-]; by exists t, k|]. intros H.
  destruct (IH _ _ H) as (toks & keys & Hl & Hi). exists toks, keys. split; [done|].
  destruct i as [|j]; [by eexists|]. destruct Hi as (h' & ? & ?). by exists h'.
Qed.

Lemma take_S_lookup {A} (l : list A) i x : l !! i = Some x -> take (S i) l = take i l ++ [x].
Proof. apply take_S_r. Qed.

Lemma hash_chain_inj `{!CollisionFree hash_function NONE_HASH} l1 l2 i j h1 h2 :
  hash_chain None l1 !! i = Some h1 -> hash_chain None l2 !! j = Some h2 ->
  hash_value h1 = hash_value h2 -> i = j /\ take (S i) l1 = take (S j) l2.
Proof.
  pose proof hash_inj as Hinj. revert j h1 h2. induction i as [|i IH]; intros j h1 h2 H1 H2 E;
    destruct (hash_chain_lookup _ _ _ _ H1) as (t1 & k1 & Hl1 & E1);
    destruct (hash_chain_lookup _ _ _ _ H2) as (t2 & k2 & Hl2 & E2);
    rewrite (take_S_lookup _ _ _ Hl1), (take_S_lookup _ _ _ Hl2).
  - destruct j as [|j]; subst.
    + apply Hinj in E. by injection E as -> ->.
    + destruct E2 as (h' & Hj & ->). apply Hinj in E. cbn in E.
      destruct (hash_chain_lookup _ _ _ _ Hj) as (t & k & _ & E').
      exfalso. assert (exists x, hash_value h' = hash_function x) as [x Hx].
      { destruct j; [subst|destruct E' as (? & ? & ->)]; by eexists. }
      rewrite Hx in E. destruct (Z.eqb_spec (hash_function x) 0); [by apply hash_nonzero in e|].
      injection E as E _ _. symmetry in E. by apply hash_not_none in E.
  - destruct E1 as (h1' & Hi & ->).
    assert (forall l k h, hash_chain None l !! k = Some h -> exists x, hash_value h = hash_function x) as Hval.
    { intros l k h H. destruct (hash_chain_lookup _ _ _ _ H) as (? & ? & _ & E').
      destruct k; [subst|destruct E' as (? & ? & ->)]; by eexists. }
    destruct (Hval _ _ _ Hi) as [x Hx].
    destruct j as [|j].
    + subst h2. apply Hinj in E. exfalso. rewrite Hx in E.
      destruct (Z.eqb_spec (hash_function x) 0); [by apply hash_nonzero in e|].
      injection E as E _ _. by apply hash_not_none in E.
    + destruct E2 as (h2' & Hj & ->). apply Hinj in E. destruct (Hval _ _ _ Hj) as [y Hy].
      rewrite Hx, Hy in E.
      destruct (Z.eqb_spec (hash_function x) 0) as [e|_]; [by apply hash_nonzero in e|].
      destruct (Z.eqb_spec (hash_function y) 0) as [e|_]; [by apply hash_nonzero in e|].
      injection E as E -> ->. destruct (IH _ _ _ Hi Hj ltac:(congruence)) as [-> ->]. done.
Qed.

Lemma hash_chain_prefix parent l1 l2 i :
  take (S i) l1 = take (S i) l2 -> hash_chain parent l1 !! i = hash_chain parent l2 !! i.
Proof.
  revert parent l1 l2. induction i as [|i IH]; intros parent [|[t1 k1] l1] [|[t2 k2] l2]; cbn; try done.
  - by intros [= -> ->].
  - intros [= -> -> H]. by apply IH.
Qed.

(** Equal leading blocks are equal leading tokens. *)
Lemma block_tokens_prefix bs r i :
  take (i * bs) (all_token_ids r) = mjoin (block_tokens bs r <$> seq 0 i).
Proof.
  induction i as [|i IH]; [done|]. rewrite seq_S, fmap_app, join_app. cbn [fmap list_fmap plus].
  rewrite <-IH. cbn. rewrite app_nil_r. unfold block_tokens.
  rewrite <-(take_drop (i * bs) (take (bs + i * bs) (all_token_ids r))).
  rewrite take_take, skipn_firstn_comm. do 2 f_equal; lia.
Qed.

Lemma block_tokens_of_prefix bs r1 r2 i j :
  j < i -> take (i * bs) (all_token_ids r1) = take (i * bs) (all_token_ids r2) ->
  block_tokens bs r1 j = block_tokens bs r2 j.
Proof.
  intros Hj E. unfold block_tokens.
  assert (Hle : bs + j * bs <= i * bs) by nia.
  rewrite !firstn_skipn_comm.
  apply (f_equal (fun l => drop (j * bs) (take (j * bs + bs) l))) in E.
  by rewrite !take_take, !Nat.min_l in E by lia.
Qed.

Lemma request_blocks_take bs r1 r2 n1 n2 i :
  i < n1 -> i < n2 ->
  take (S i) (request_block bs r1 <$> seq 0 n1) = take (S i) (request_block bs r2 <$> seq 0 n2) <->
  forall j, j <= i -> block_tokens bs r1 j = block_tokens bs r2 j /\ block_keys bs r1 j = block_keys bs r2 j.
Proof.
  intros H1 H2. rewrite <-!fmap_take, !take_seq, !Nat.min_l by lia. split.
  - intros E j Hj. apply (f_equal (fun l => l !! j)) in E.
    rewrite !list_lookup_fmap, !lookup_seq_lt in E by lia. cbn in E. by injection E.
  - intros E. apply list_fmap_ext. intros k j Hk%lookup_seq. unfold request_block.
    destruct (E j) as [-> ->]; [lia|done].
Qed.

End HashingLemmas.

(** ** Properties *)

(** A collision-free hash function: the positive number that encodes the input. *)
Definition encode_hash (x : hash_input) : Z := Zpos (encode x).

#[export] Instance encode_hash_collision_free : CollisionFree encode_hash (-1).
Proof.
  split; [|done|done]. intros x y E. apply (inj encode). unfold encode_hash in E. congruence.
Qed.

Definition demo_params : SamplingParams :=
  {| sp_max_tokens := Some 4%Z; guided_decoding := false; ignore_eos := false;
     stop_token_ids := []; prompt_logprobs := None; sp_logprobs := None; sp_sampler := greedy_sampler |}.

Definition demo_prompt (toks : list Z) (mm : list (PlaceholderRange * option string)) : Request :=
  match request_init "r" toks (Some (length mm)) (Some mm.*2) (Some mm.*1) demo_params None None false with
  | Ok r => r
  | Err _ => demo_request
  end.

Definition demo_image : PlaceholderRange * option string := ({| offset := 1; length_ := 3 |}, Some "img"%string).

(** Every full block of a request is hashed, and only those.  The hash of
    block [i] carries the tokens of that block and the LoRA id and the hashes of
    exactly the multi-modal inputs that share a token with it, although the code
    walks through the inputs only once; its value is the hash of these and of
    the value before it. *)
Theorem hash_request_tokens_spec (hash_function : hash_input -> Z) (NONE_HASH : Z) bs r :
  0 < bs -> mm_ok r ->
  exists l, hash_request_tokens hash_function NONE_HASH bs r = Ok l /\
    length l = length (all_token_ids r) / bs /\
    forall i h, l !! i = Some h ->
      token_ids h = block_tokens bs r i /\ length (token_ids h) = bs /\
      FreeBlockQueue.extra_keys h = block_keys bs r i /\
      match i with
      | 0 => h = hash_block_tokens hash_function NONE_HASH None (token_ids h) (block_keys bs r i)
      | S j => exists h', l !! j = Some h' /\
          h = hash_block_tokens hash_function NONE_HASH (Some (hash_value h')) (token_ids h) (block_keys bs r i)
      end.
Proof.
  intros Hbs Hmm. eexists. split; [by apply hash_request_tokens_ok|].
  split; [by rewrite hash_chain_length, length_fmap, length_seq|].
  intros i h Hh. destruct (hash_chain_lookup _ _ _ _ _ _ Hh) as (t & k & Hl & Hi).
  rewrite list_lookup_fmap in Hl. destruct (seq 0 _ !! i) as [i'|] eqn:E; [|done].
  apply lookup_seq in E as [-> Hlt]. injection Hl as <- <-.
  assert (token_ids h = block_tokens bs r i /\ FreeBlockQueue.extra_keys h = block_keys bs r i) as [E1 E2].
  { destruct i; [subst|destruct Hi as (? & _ & ->)]; done. }
  rewrite E1. split; [done|]. split; [by apply block_tokens_length|]. split; [done|]. exact Hi.
Qed.

(** An image over tokens 1 to 3 of six, in blocks of two: it keys both blocks it
    touches and not the third. *)
Lemma hash_request_tokens_spec_witness :
  exists l, hash_request_tokens encode_hash (-1) 2 (demo_prompt [9; 8; 7; 6; 5; 4]%Z [demo_image]) = Ok l /\
    length l = 3 /\ FreeBlockQueue.extra_keys <$> l = [Some [MMKey "img"]; Some [MMKey "img"]; None].
Proof.
  destruct (hash_request_tokens_spec encode_hash (-1) 2 (demo_prompt [9; 8; 7; 6; 5; 4]%Z [demo_image]))
    as (l & Hl & Hlen & _).
  - lia.
  - split; [done|]. cbn. repeat split; try lia. by eexists.
  - exists l. split; [exact Hl|]. split; [exact Hlen|]. vm_compute in Hl. injection Hl as <-. done.
Defined.

(** C34: Prefix caching identifies exactly equal prefixes.  With a collision-free
    hash function, a block of one request and a block of another have the same
    hash value if and only if they are at the same position, the tokens of the
    two requests up to the end of the block are the same, and the extra keys of
    all blocks up to there are the same. *)
Theorem prefix_hash_iff (hash_function : hash_input -> Z) (NONE_HASH : Z)
    `{!CollisionFree hash_function NONE_HASH} bs r1 r2 l1 l2 i j h1 h2 :
  0 < bs -> mm_ok r1 -> mm_ok r2 ->
  hash_request_tokens hash_function NONE_HASH bs r1 = Ok l1 ->
  hash_request_tokens hash_function NONE_HASH bs r2 = Ok l2 ->
  l1 !! i = Some h1 -> l2 !! j = Some h2 ->
  hash_value h1 = hash_value h2 <->
    i = j /\ take (S i * bs) (all_token_ids r1) = take (S i * bs) (all_token_ids r2) /\
    forall k, k <= i -> block_keys bs r1 k = block_keys bs r2 k.
Proof.
  intros Hbs Hm1 Hm2 E1 E2 H1 H2. rewrite hash_request_tokens_ok in E1, E2 by done.
  injection E1 as <-. injection E2 as <-.
  pose proof (lookup_lt_Some _ _ _ H1) as Hi. pose proof (lookup_lt_Some _ _ _ H2) as Hj.
  rewrite hash_chain_length, length_fmap, length_seq in Hi, Hj. split.
  - intros E. destruct (hash_chain_inj _ _ _ _ _ _ _ _ H1 H2 E) as [<- Ht]. split; [done|].
    pose proof (proj1 (request_blocks_take _ _ _ _ _ _ Hi Hj) Ht) as Hb.
    split; [|intros k Hk; by apply Hb].
    rewrite !block_tokens_prefix. f_equal. apply list_fmap_ext. intros k x [-> Hx]%lookup_seq.
    cbn. apply Hb. lia.
  - intros (<- & Ht & Hk). enough (h1 = h2) by congruence.
    apply (inj Some). rewrite <-H1, <-H2. apply hash_chain_prefix, request_blocks_take; [done|done|].
    intros k Hle. split; [|by apply Hk]. eapply block_tokens_of_prefix; [|exact Ht]. lia.
Qed.

(** Two prompts that differ in the fourth token share their first block only. *)
Lemma prefix_hash_iff_witness :
  exists l1 l2 h1 h2,
    hash_request_tokens encode_hash (-1) 2 (demo_prompt [9; 8; 7; 6]%Z []) = Ok l1 /\
    hash_request_tokens encode_hash (-1) 2 (demo_prompt [9; 8; 7; 5]%Z []) = Ok l2 /\
    l1 !! 0 = Some h1 /\ l2 !! 0 = Some h2 /\ hash_value h1 = hash_value h2.
Proof.
  do 4 eexists.
  assert (forall l, mm_ok (demo_prompt l [])) as Hm by (split; done).
  split; [vm_compute; reflexivity|]. split; [vm_compute; reflexivity|].
  split; [reflexivity|]. split; [reflexivity|].
  eapply (prefix_hash_iff encode_hash (-1) 2 (demo_prompt [9; 8; 7; 6]%Z []) (demo_prompt [9; 8; 7; 5]%Z [])
    _ _ 0 0 _ _ ltac:(lia) (Hm _) (Hm _)); try (vm_compute; reflexivity).
  split; [reflexivity|]. split; [reflexivity|]. intros k Hk. destruct k; [reflexivity|lia].
Defined.

(** The key of a block completed by generated tokens.  There the code looks
    at the last multi-modal input alone, and gives its hash to the block also
    when the input ends exactly where the block begins; the hash of the same
    block computed with the prompt ([hash_request_tokens_spec]) has no such key,
    so that a follow-up request misses the cached block. *)
Theorem generated_block_key_boundary r pos h s e :
  mm_ok r -> lora_request r = None -> last (zip (mm_positions r) (mm_hashes r)) = Some (pos, Some h) ->
  (s <= e)%Z ->
  (exists idx, generate_block_hash_extra_keys r s e (-1) = Ok
    (if (offset pos <? e)%Z && (s <=? offset pos + length_ pos)%Z then Some [MMKey h] else None, idx)) /\
  ((offset pos + length_ pos <= s)%Z ->
   mm_keys_in s e (zip (mm_positions r) (mm_hashes r)) = []).
Proof.
  intros [Hlen Hs] Hlora Hl Hse.
  assert (Hp : last (mm_positions r) = Some pos).
  { destruct (last (mm_positions r)) as [p|] eqn:E; [|apply last_None in E; by rewrite E in Hl].
    destruct (last_zip _ _ _ Hlen E) as [y Hy]. rewrite Hl in Hy. by injection Hy as ->. }
  split.
  - unfold generate_block_hash_extra_keys, gen_mm_extra_hash_keys, gen_lora_extra_hash_keys.
    rewrite Hp, Hlora, (proj2 (Nat.eqb_eq _ _) Hlen). cbn [negb app].
    destruct (Z.ltb_spec (offset pos + length_ pos) s) as [Hlt|Hge].
    { rewrite (proj2 (Z.leb_gt s _)) by lia. rewrite andb_false_r. cbn. by eexists. }
    rewrite (proj2 (Z.leb_le s _)) by lia. rewrite andb_true_r.
    assert (Hz : length (mm_positions r) = length (zip (mm_positions r) (mm_hashes r))).
    { rewrite length_zip_with. lia. }
    rewrite Hz. destruct (zip (mm_positions r) (mm_hashes r)) as [|x l _] eqn:E using rev_ind; [done|].
    rewrite last_snoc in Hl. injection Hl as ->. rewrite length_app. cbn [length].
    change (-1 <? 0)%Z with true. cbn [mbind result_bind].
    replace (- -1 <=? Z.of_nat (length l + 1))%Z with true by (symmetry; apply Z.leb_le; lia).
    cbn [py_assert mbind result_bind].
    replace (Z.to_nat (Z.of_nat (length l + 1) + -1)) with (length l) by lia.
    rewrite drop_app_length. cbn [mm_loop of_option mbind result_bind].
    rewrite (proj2 (Z.ltb_ge _ s)) by lia.
    destruct (offset pos <? e)%Z; [|by eexists].
    destruct (offset pos + length_ pos <=? e)%Z; by eexists.
  - intros Hle. apply mm_keys_in_none. clear Hp Hlen. revert Hs Hl. generalize 0%Z.
    induction (zip (mm_positions r) (mm_hashes r)) as [|[p h'] l IH]; intros lo; [constructor|].
    intros (Hx & _ & Hs) Hl. destruct l as [|y l].
    + injection Hl as -> ->. constructor; [left; exact Hle|constructor].
    + specialize (IH _ Hs Hl). constructor; [|done]. left. unfold mm_end; cbn.
      assert (Hin : (pos, Some h) ∈ y :: l).
      { apply list_elem_of_lookup. exists (pred (length (y :: l))). by rewrite <-last_lookup. }
      pose proof (proj1 (Forall_forall _ _) (mm_sorted_beyond _ _ Hs) _ Hin) as [_ Hb].
      unfold mm_end in Hb. cbn in Hb. lia.
Qed.

(** An image over tokens 1 to 3 and a block of generated tokens 4 to 7. *)
Lemma generated_block_key_boundary_witness :
  (exists idx, generate_block_hash_extra_keys (demo_prompt [9; 8; 7; 6]%Z [demo_image]) 4 8 (-1) =
     Ok (Some [MMKey "img"], idx)) /\
  block_keys 4 (append_output_token_ids [1; 2; 3; 4]%Z (demo_prompt [9; 8; 7; 6]%Z [demo_image])) 1 = None.
Proof.
  destruct (generated_block_key_boundary (demo_prompt [9; 8; 7; 6]%Z [demo_image])
    {| offset := 1; length_ := 3 |} "img" 4 8) as [H _].
  - split; [reflexivity|]. cbn. repeat split; try lia. by eexists.
  - reflexivity.
  - reflexivity.
  - lia.
  - split; [exact H|reflexivity].
Defined.
