(* ===== verification/BlockPool.v ===== *)
(** * The block pool

    [BlockPool] of [vllm/v1/core/block_pool.py]: the KV-cache blocks, the queue
    of free ones, and the map from block hashes to cached blocks.  A block object
    is its index in the store [blocks]; the inner dictionary of
    [cached_block_hash_to_block] is the list of its keys in insertion order (its
    values are the blocks with those ids). *)

From S2P Require Import Prelude FreeBlockQueue Request BlockHash.

Record BlockPool := {
  num_gpu_blocks : nat;
  enable_caching : bool;
  blocks : store;
  free_block_queue : FreeKVCacheBlockQueue;
  cached_block_hash_to_block : gmap BlockHashType (list nat);
  null_block : nat;
}.

Definition set_blocks (s : store) (p : BlockPool) : BlockPool :=
  {| num_gpu_blocks := num_gpu_blocks p; enable_caching := enable_caching p; blocks := s;
     free_block_queue := free_block_queue p;
     cached_block_hash_to_block := cached_block_hash_to_block p; null_block := null_block p |}.

Definition set_queue (sq : store * FreeKVCacheBlockQueue) (p : BlockPool) : BlockPool :=
  {| num_gpu_blocks := num_gpu_blocks p; enable_caching := enable_caching p; blocks := sq.1;
     free_block_queue := sq.2;
     cached_block_hash_to_block := cached_block_hash_to_block p; null_block := null_block p |}.

Definition set_cached (m : gmap BlockHashType (list nat)) (p : BlockPool) : BlockPool :=
  {| num_gpu_blocks := num_gpu_blocks p; enable_caching := enable_caching p; blocks := blocks p;
     free_block_queue := free_block_queue p; cached_block_hash_to_block := m;
     null_block := null_block p |}.

(** The object behind a reference. *)
Definition blk (p : BlockPool) (b : nat) : KVCacheBlock := blocks p !!! b.

(** [BlockPool.__init__] *)
Definition pool_init (num_gpu_blocks : Z) (enable_caching : bool) : result BlockPool :=
  _ ← py_assert (0 <? num_gpu_blocks)%Z;
  let n := Z.to_nat num_gpu_blocks in
  '(s, q) ← queue_init (new_block <$> seq 0 n);
  '(s, q, b) ← popleft s q;
  Ok {| num_gpu_blocks := n; enable_caching := enable_caching; blocks := s; free_block_queue := q;
        cached_block_hash_to_block := ∅; null_block := b |}.

Definition get_cached_block (p : BlockPool) (h : BlockHashType) : option nat :=
  match cached_block_hash_to_block p !! h with
  | None => None
  | Some ids => head ids
  end.

(** [d[key] = value] on a dictionary given by its keys. *)
Definition dict_add (ids : list nat) (b : nat) : list nat :=
  if decide (b ∈ ids) then ids else ids ++ [b].

(** [del d[key]] *)
Definition dict_del (ids : list nat) (b : nat) : result (list nat) :=
  if decide (b ∈ ids) then Ok (filter (fun x => x <> b) ids) else Err KeyError.

Definition maybe_evict_cached_block (p : BlockPool) (b : nat) : result (BlockPool * bool) :=
  match block_hash (blk p b) with
  | None => Ok (p, false)
  | Some h =>
      match cached_block_hash_to_block p !! h with
      | None => Ok (p, false)
      | Some ids =>
          let p := set_blocks (alter reset_hash b (blocks p)) p in
          ids ← dict_del ids b;
          let m := cached_block_hash_to_block p in
          Ok (set_cached (if length ids =? 0 then delete h m else <[h := ids]> m) p, true)
      end
  end.

Definition get_num_free_blocks (p : BlockPool) : Z := num_free_blocks (free_block_queue p).

(** One pass of the loop of [get_new_blocks]. *)
Definition get_new_block (p : BlockPool) : result (BlockPool * nat) :=
  '(s, q, b) ← popleft (blocks p) (free_block_queue p);
  let p := set_queue (s, q) p in
  _ ← py_assert (ref_cnt (blk p b) =? 0)%Z;
  p ← (if enable_caching p then fst <$> maybe_evict_cached_block p b else Ok p);
  Ok (set_blocks (alter incr_ref b (blocks p)) p, b).

Fixpoint get_new_blocks_loop (p : BlockPool) (n : nat) : result (BlockPool * list nat) :=
  match n with
  | 0 => Ok (p, [])
  | S n => '(p, b) ← get_new_block p; '(p, bs) ← get_new_blocks_loop p n; Ok (p, b :: bs)
  end.

Definition get_new_blocks (p : BlockPool) (num_blocks : Z) : result (BlockPool * list nat) :=
  if (get_num_free_blocks p <? num_blocks)%Z then Err ValueError
  else get_new_blocks_loop p (Z.to_nat num_blocks).

Definition touch_block (p : BlockPool) (b : nat) : BlockPool :=
  let p := if (ref_cnt (blk p b) =? 0)%Z && negb (b =? null_block p)
           then set_queue (remove (blocks p) (free_block_queue p) b) p else p in
  set_blocks (alter incr_ref b (blocks p)) p.

Definition touch (p : BlockPool) (bs : list nat) : BlockPool := foldl touch_block p bs.

Definition free_block (p : BlockPool) (b : nat) : result BlockPool :=
  let p := set_blocks (alter decr_ref b (blocks p)) p in
  if (ref_cnt (blk p b) =? 0)%Z && negb (b =? null_block p)
  then sq ← append (blocks p) (free_block_queue p) b; Ok (set_queue sq p)
  else Ok p.

Definition free_blocks (p : BlockPool) (ordered_blocks : list nat) : result BlockPool :=
  foldM free_block p ordered_blocks.

Definition reset_prefix_cache (p : BlockPool) : BlockPool * bool :=
  if negb (Z.of_nat (num_gpu_blocks p) - get_num_free_blocks p =? 1)%Z then (p, false)
  else (set_blocks (reset_hash <$> blocks p) (set_cached ∅ p), true).

(** ** [cache_full_blocks] *)

Section Caching.
Context (hash_fn : hash_input -> Z) (NONE_HASH : Z).

(** The hash of the [i]-th new block: known already, or computed from the tokens
  and appended to the request's list. *)
Definition full_block_hash (r : Request) (block_size num_cached_blocks : Z)
    (new_block_hashes block_hashes : list BlockHashType) (prev : option Z) (i : nat) :
    result (BlockHashType * list BlockHashType) :=
  match new_block_hashes !! i with
  | Some h => Ok (h, block_hashes)
  | None =>
      let blk_idx := (num_cached_blocks + Z.of_nat i)%Z in
      let start_token_idx := (blk_idx * block_size)%Z in
      let end_token_idx := ((blk_idx + 1) * block_size)%Z in
      let block_tokens := py_slice start_token_idx end_token_idx (all_token_ids r) in
      _ ← py_assert (Z.of_nat (length block_tokens) =? block_size)%Z;
      '(extra_keys, _) ← generate_block_hash_extra_keys r start_token_idx end_token_idx (-1);
      let h := hash_block_tokens hash_fn NONE_HASH prev block_tokens extra_keys in
      Ok (h, block_hashes ++ [h])
  end.

(** One pass of the loop. *)
Definition cache_block (r : Request) (block_size num_cached_blocks : Z)
    (new_block_hashes : list BlockHashType) (y : BlockPool * list BlockHashType * option Z)
    (ib : nat * nat) : result (BlockPool * list BlockHashType * option Z) :=
  let '(p, block_hashes, prev) := y in
  let '(i, b) := ib in
  _ ← py_assert (bool_decide (block_hash (blk p b) = None));
  '(h, block_hashes) ← full_block_hash r block_size num_cached_blocks new_block_hashes block_hashes prev i;
  blk' ← set_block_hash h (blk p b);
  let p := set_blocks (<[b := blk']> (blocks p)) p in
  let m := cached_block_hash_to_block p in
  Ok (set_cached (<[h := dict_add (default [] (m !! h)) (block_id blk')]> m) p, block_hashes, Some (hash_value h)).

Definition cache_full_blocks (p : BlockPool) (r : Request) (bs : list nat)
    (block_hashes : list BlockHashType) (num_cached_blocks num_full_blocks block_size : Z) :
    result (BlockPool * list BlockHashType) :=
  if (num_cached_blocks =? num_full_blocks)%Z then Ok (p, block_hashes)
  else
    let new_full_blocks := py_slice num_cached_blocks num_full_blocks bs in
    _ ← py_assert (num_cached_blocks <=? Z.of_nat (length block_hashes))%Z;
    let new_block_hashes := py_slice_from num_cached_blocks block_hashes in
    prev ←
      (if (num_cached_blocks =? 0)%Z then Ok None
       else prev_block ← py_index bs (num_cached_blocks - 1);
            h ← of_option AssertionError (block_hash (blk p prev_block));
            Ok (Some (hash_value h)));
    '(p, block_hashes, _) ←
      foldM (cache_block r block_size num_cached_blocks new_block_hashes) (p, block_hashes, prev)
        (imap pair new_full_blocks);
    Ok (p, block_hashes).

End Caching.

(** ** The pool's invariant *)

Definition in_cache (p : BlockPool) (h : BlockHashType) (i : nat) : Prop :=
  exists ids, cached_block_hash_to_block p !! h = Some ids /\ i ∈ ids.

(** The map lists exactly the blocks that carry the hash. *)
Record cached_ok (p : BlockPool) : Prop := {
  ck_ids : forall h ids, cached_block_hash_to_block p !! h = Some ids -> ids <> [] /\ NoDup ids;
  ck_iff : forall h i, in_cache p h i <-> i < length (blocks p) /\ block_hash (blk p i) = Some h;
}.

(** [l] is the free queue, in the order of eviction. *)
Record pool_ok (p : BlockPool) (l : list nat) : Prop := {
  po_fq : fq_ok (blocks p) (free_block_queue p) l;
  po_len : length (blocks p) = num_gpu_blocks p;
  po_id : forall i, i < num_gpu_blocks p -> block_id (blk p i) = i;
  po_null : null_block p < num_gpu_blocks p /\ null_block p ∉ l /\ block_hash (blk p (null_block p)) = None;
  po_free : forall i, i < num_gpu_blocks p -> i <> null_block p ->
    (i ∈ l <-> ref_cnt (blk p i) = 0%Z) /\ (0 <= ref_cnt (blk p i))%Z;
  po_cache : cached_ok p;
}.

(** [p'] differs from [p] at most in the blocks of [bs], in the queue and in the
    cache map. *)
Record pool_frame (p p' : BlockPool) (bs : list nat) : Prop := {
  pf_num : num_gpu_blocks p' = num_gpu_blocks p;
  pf_caching : enable_caching p' = enable_caching p;
  pf_null : null_block p' = null_block p;
  pf_data : forall i, i < num_gpu_blocks p -> i ∉ bs -> data (blk p' i) = data (blk p i);
}.

Lemma pool_frame_refl p : pool_frame p p [].
Proof. done. Qed.

Lemma pool_frame_trans p1 p2 p3 bs1 bs2 :
  pool_frame p1 p2 bs1 -> pool_frame p2 p3 bs2 -> pool_frame p1 p3 (bs1 ++ bs2).
Proof.
  intros [N1 E1 U1 D1] [N2 E2 U2 D2]. constructor; try congruence.
  intros i Hi Hni. rewrite D2, D1; set_solver by (try lia; congruence).
Qed.

Lemma data_ref b b' : data b = data b' -> ref_cnt b = ref_cnt b'.
Proof. unfold data. congruence. Qed.
Lemma data_hash b b' : data b = data b' -> block_hash b = block_hash b'.
Proof. unfold data. congruence. Qed.
Lemma data_id b b' : data b = data b' -> block_id b = block_id b'.
Proof. unfold data. congruence. Qed.
#[export] Hint Resolve data_ref data_hash data_id : pydb.

Lemma blk_alter f b i p :
  b < length (blocks p) ->
  blk (set_blocks (alter f b (blocks p)) p) i = if decide (b = i) then f (blk p i) else blk p i.
Proof. intros Hb. unfold blk. cbn. by apply alter_total. Qed.

(** ** Lemmas: the cache map *)

Lemma cached_ok_hashes p p' :
  cached_block_hash_to_block p' = cached_block_hash_to_block p ->
  length (blocks p') = length (blocks p) ->
  (forall i, i < length (blocks p) -> block_hash (blk p' i) = block_hash (blk p i)) ->
  cached_ok p -> cached_ok p'.
Proof.
  intros Hm Hlen Hh [H1 H2]. constructor; rewrite ?Hm; [done|].
  intros h i. unfold in_cache. rewrite Hm, Hlen. split.
  - intros Hi. destruct (proj1 (H2 h i) Hi). split; [done|]. by rewrite Hh.
  - intros [Hi E]. apply H2. split; [done|]. by rewrite <-Hh.
Qed.

Lemma get_cached_block_spec p h :
  cached_ok p ->
  match get_cached_block p h with
  | Some b => b < length (blocks p) /\ block_hash (blk p b) = Some h
  | None => forall i, i < length (blocks p) -> block_hash (blk p i) <> Some h
  end.
Proof.
  intros [H1 H2]. unfold get_cached_block.
  destruct (cached_block_hash_to_block p !! h) as [ids|] eqn:E.
  - destruct (H1 _ _ E) as [Hne _]. destruct ids as [|b ids]; [done|]. cbn.
    apply H2. exists (b :: ids). split; [done|]. by left.
  - intros i Hi Hh. destruct (proj2 (H2 h i) (conj Hi Hh)) as (ids & E' & _). congruence.
Qed.

Lemma dict_del_ok ids b : b ∈ ids -> dict_del ids b = Ok (filter (fun x => x <> b) ids).
Proof. intros H. unfold dict_del. by rewrite decide_True. Qed.

(** The map without block [b]. *)
Lemma evict_cached_ok p h b ids :
  cached_ok p -> b < length (blocks p) -> block_hash (blk p b) = Some h ->
  cached_block_hash_to_block p !! h = Some ids ->
  let ids' := filter (fun x => x <> b) ids in
  cached_ok (set_cached (if length ids' =? 0 then delete h (cached_block_hash_to_block p)
                         else <[h := ids']> (cached_block_hash_to_block p))
                        (set_blocks (alter reset_hash b (blocks p)) p)).
Proof.
  intros [H1 H2] Hb Hh Hids ids'.
  set (m := cached_block_hash_to_block p) in *.
  set (m' := if length ids' =? 0 then delete h m else <[h := ids']> m).
  assert (Hm' : forall h' ids1, m' !! h' = Some ids1 <->
    (if decide (h' = h) then ids1 = ids' /\ ids' <> [] else m !! h' = Some ids1)).
  { intros h' ids1. unfold m'. destruct (Nat.eqb_spec (length ids') 0) as [E|E].
    - apply nil_length_inv in E. case_decide as D; [subst h'|by rewrite lookup_delete_ne].
      rewrite lookup_delete_eq. naive_solver.
    - case_decide as D; [subst h'; rewrite lookup_insert_eq|by rewrite lookup_insert_ne].
      destruct ids'; [done|]. naive_solver. }
  constructor; cbn.
  - fold m'. intros h' ids1 E. apply Hm' in E. case_decide; [|by eapply H1].
    destruct E as [-> E]. split; [done|]. apply NoDup_filter. by eapply H1.
  - intros h' i. rewrite length_alter. unfold in_cache; cbn. fold m'.
    change (blk (set_cached m' (set_blocks (alter reset_hash b (blocks p)) p)) i)
      with (blk (set_blocks (alter reset_hash b (blocks p)) p) i).
    rewrite blk_alter by done. pose proof (H2 h' i) as H2i. unfold in_cache in H2i. fold m in H2i.
    split.
    + intros (ids1 & E & Hi). apply Hm' in E. case_decide as D.
      * destruct E as [-> _]. subst h'. apply list_elem_of_filter in Hi as [Hib Hi].
        rewrite decide_False by done. apply H2i. by exists ids.
      * destruct (proj1 H2i (ex_intro _ ids1 (conj E Hi))) as [Hi1 Hi2]. split; [done|].
        case_decide; [|done]. subst i. congruence.
    + intros [Hi E]. case_decide as D; [done|].
      destruct (proj2 H2i (conj Hi E)) as (ids1 & E1 & Hi1).
      destruct (decide (h' = h)) as [->|Dh].
      * assert (ids1 = ids) as -> by congruence. exists ids'. split; [|by apply list_elem_of_filter].
        apply Hm'. rewrite decide_True by done. split; [done|].
        intros E'. assert (i ∈ ids') as Hx by (apply list_elem_of_filter; auto). rewrite E' in Hx. by apply not_elem_of_nil in Hx.
      * exists ids1. split; [|done]. apply Hm'. by rewrite decide_False.
Qed.

Lemma alter_same {A} `{Inhabited A} (f : A -> A) i (l : list A) :
  f (l !!! i) = l !!! i -> alter f i l = l.
Proof.
  intros Hf. apply list_eq. intros j. destruct (decide (i = j)) as [<-|]; [|by rewrite list_lookup_alter_ne].
  rewrite list_lookup_alter_eq. destruct (l !! i) as [x|] eqn:E; [|done]. cbn.
  apply list_lookup_total_correct in E. congruence.
Qed.

Lemma evict_ok p b :
  cached_ok p -> b < length (blocks p) ->
  exists p' r, maybe_evict_cached_block p b = Ok (p', r) /\ cached_ok p' /\
    blocks p' = alter reset_hash b (blocks p) /\ free_block_queue p' = free_block_queue p /\
    num_gpu_blocks p' = num_gpu_blocks p /\ enable_caching p' = enable_caching p /\
    null_block p' = null_block p /\ (r = true <-> is_Some (block_hash (blk p b))).
Proof.
  intros Hc Hb. unfold maybe_evict_cached_block.
  destruct (block_hash (blk p b)) as [h|] eqn:Hh.
  - destruct (proj2 (ck_iff _ Hc h b) (conj Hb Hh)) as (ids & Hids & Hin).
    rewrite Hids, dict_del_ok by done. cbn [mbind result_bind]. do 2 eexists. split; [reflexivity|].
    split; [exact (evict_cached_ok p h b ids Hc Hb Hh Hids)|]. repeat split; done.
  - do 2 eexists. split; [done|]. split; [done|]. repeat split; try done.
    symmetry. apply alter_same. unfold blk in Hh. destruct (blocks p !!! b). cbn in *. by subst.
Qed.

(** ** Lemmas: allocation *)

Lemma same_data_blk p q s' i :
  same_data (blocks p) s' -> i < length (blocks p) -> data (blk (set_queue (s', q) p) i) = data (blk p i).
Proof. intros H Hi. by apply same_data_total. Qed.

Lemma cached_ok_same_data p q s' :
  same_data (blocks p) s' -> cached_ok p -> cached_ok (set_queue (s', q) p).
Proof.
  intros H. apply cached_ok_hashes; [done|by apply same_data_length|].
  intros i Hi. by apply data_hash, same_data_blk.
Qed.

Lemma get_new_block_ok p b l :
  pool_ok p (b :: l) ->
  exists p', get_new_block p = Ok (p', b) /\ pool_ok p' l /\ pool_frame p p' [b] /\
    ref_cnt (blk p' b) = 1%Z /\ block_id (blk p' b) = b /\
    block_hash (blk p' b) = if enable_caching p then None else block_hash (blk p b).
Proof.
  intros [Hfq Hlen Hid (Hn & Hnl & Hnh) Hfree Hc].
  destruct (popleft_ok _ _ _ _ Hfq) as (s1 & q1 & Hpop & Hfq1 & Hd).
  pose proof (same_data_length _ _ Hd) as Hlen1.
  assert (Hb : b < num_gpu_blocks p) by (rewrite <-Hlen; by destruct (proj1 (Forall_cons _ _ _) (fq_range _ _ _ Hfq))).
  assert (Hbn : b <> null_block p) by set_solver.
  assert (Hbl : b ∉ l) by (by destruct (proj1 (NoDup_cons _ _) (fq_nodup _ _ _ Hfq))).
  unfold get_new_block. rewrite Hpop. cbn [mbind result_bind].
  set (p1 := set_queue (s1, q1) p).
  assert (Hd1 : forall i, i < num_gpu_blocks p -> data (blk p1 i) = data (blk p i)).
  { intros i Hi. apply same_data_blk; [done|]. by rewrite Hlen. }
  assert (Hr0 : ref_cnt (blk p1 b) = 0%Z).
  { rewrite (data_ref _ _ (Hd1 b Hb)). apply Hfree; [done|done|]. by left. }
  rewrite Hr0. cbn [py_assert Z.eqb mbind result_bind].
  assert (Hc1 : cached_ok p1) by (by apply cached_ok_same_data).
  assert (exists p2, (if enable_caching p1 then fst <$> maybe_evict_cached_block p1 b else Ok p1) = Ok p2 /\
    cached_ok p2 /\ blocks p2 = (if enable_caching p then alter reset_hash b s1 else s1) /\
    free_block_queue p2 = q1 /\ num_gpu_blocks p2 = num_gpu_blocks p /\
    enable_caching p2 = enable_caching p /\ null_block p2 = null_block p) as
    (p2 & -> & Hc2 & Hb2 & Hq2 & Hn2 & He2 & Hu2).
  { change (enable_caching p1) with (enable_caching p). destruct (enable_caching p) eqn:He.
    - destruct (evict_ok p1 b Hc1) as (p2 & r & -> & ? & ? & ? & ? & ? & ? & _); [cbn; lia|].
      exists p2. split_and!; try done. by etrans.
    - exists p1. split_and!; done. }
  cbn [mbind result_bind]. eexists. split; [reflexivity|].
  assert (Hlen2 : length (blocks p2) = length (blocks p)).
  { rewrite Hb2. by destruct (enable_caching p); rewrite ?length_alter. }
  set (p3 := set_blocks (alter incr_ref b (blocks p2)) p2).
  assert (Hother : forall i, i < num_gpu_blocks p -> i <> b -> data (blk p3 i) = data (blk p i)).
  { intros i Hi Hib. unfold p3. rewrite blk_alter, decide_False by (done || lia).
    rewrite <-Hd1 by done. unfold blk at 1. rewrite Hb2. destruct (enable_caching p); [|done].
    by rewrite list_lookup_total_alter_ne. }
  assert (Hself : data (blk p3 b) = (b, 1%Z, if enable_caching p then None else block_hash (blk p b))).
  { unfold p3. rewrite blk_alter, decide_True by (done || lia).
    assert (E : data (blk p2 b) = (b, 0%Z, if enable_caching p then None else block_hash (blk p b))).
    { unfold blk at 1. rewrite Hb2. pose proof (Hd1 b Hb) as Ed.
      unfold data in *. rewrite Hid in Ed by done. change (s1 !!! b) with (blk p1 b).
      destruct (enable_caching p); rewrite ?alter_total, ?decide_True by (done || lia);
        cbn; change (s1 !!! b) with (blk p1 b); congruence. }
    unfold data in *. cbn. injection E as -> -> ->. done. }
  split; [constructor|].
  - unfold p3; cbn. rewrite Hq2, Hb2. apply fq_ok_alter; [done|].
    destruct (enable_caching p); [|done]. by apply fq_ok_alter.
  - cbn. rewrite length_alter, Hlen2. by rewrite Hlen.
  - cbn. rewrite Hn2. intros i Hi. destruct (decide (i = b)) as [->|Hib].
    + unfold data in Hself. congruence.
    + rewrite (data_id _ _ (Hother i Hi Hib)). by apply Hid.
  - cbn. rewrite Hn2, Hu2. split; [done|]. split; [set_solver|].
    rewrite <-Hnh. apply data_hash, Hother; done.
  - cbn. rewrite Hn2, Hu2. intros i Hi Hin. destruct (decide (i = b)) as [->|Hib].
    + assert (ref_cnt (blk p3 b) = 1%Z) as -> by (unfold data in Hself; congruence).
      split; [|lia]. split; [done|lia].
    + rewrite (data_ref _ _ (Hother i Hi Hib)). destruct (Hfree i Hi Hin) as [<- ?].
      split; [|done]. set_solver.
  - eapply cached_ok_hashes; [| |intros i Hi|exact Hc2]; [done|apply length_alter|].
    unfold p3. rewrite blk_alter by lia. by case_decide.
  - split; [|unfold data in Hself; repeat split; congruence].
    constructor; [done|done|done|]. intros i Hi Hni. apply Hother; [done|]. set_solver.
Qed.

Lemma get_new_blocks_loop_ok p bs l :
  pool_ok p (bs ++ l) ->
  exists p', get_new_blocks_loop p (length bs) = Ok (p', bs) /\ pool_ok p' l /\ pool_frame p p' bs /\
    forall b, b ∈ bs -> ref_cnt (blk p' b) = 1%Z /\
      block_hash (blk p' b) = if enable_caching p then None else block_hash (blk p b).
Proof.
  revert p. induction bs as [|b bs IH]; intros p H.
  { exists p. split_and!; [done|done|done|]. intros b Hb. by apply not_elem_of_nil in Hb. }
  destruct (get_new_block_ok _ _ _ H) as (p1 & Hp1 & H1 & Hf1 & Hr1 & _ & Hh1).
  destruct (IH p1 H1) as (p2 & Hp2 & H2 & Hf2 & Hr2).
  cbn [length get_new_blocks_loop]. rewrite Hp1. cbn [mbind result_bind]. rewrite Hp2.
  cbn [mbind result_bind]. exists p2. split; [done|]. split; [done|].
  split; [exact (pool_frame_trans p p1 p2 [b] bs Hf1 Hf2)|].
  pose proof (fq_nodup _ _ _ (po_fq _ _ H)) as Hnd. cbn in Hnd. apply NoDup_cons in Hnd as [Hb _].
  assert (Hlt : forall x, x ∈ b :: bs -> x < num_gpu_blocks p).
  { intros x Hx. rewrite <-(po_len _ _ H).
    eapply (proj1 (Forall_forall _ _) (fq_range _ _ _ (po_fq _ _ H))). set_solver. }
  intros x [->|Hx]%elem_of_cons.
  - assert (E : data (blk p2 b) = data (blk p1 b)).
    { apply (pf_data _ _ _ Hf2); [|set_solver]. rewrite (pf_num _ _ _ Hf1). apply Hlt. by left. }
    by rewrite (data_ref _ _ E), (data_hash _ _ E).
  - destruct (Hr2 x Hx) as [-> ->]. split; [done|].
    rewrite (pf_caching _ _ _ Hf1). destruct (enable_caching p); [done|].
    apply data_hash, (pf_data _ _ _ Hf1); [apply Hlt; by right|]. set_solver.
Qed.

(** ** Lemmas: reference counts *)

Definition count (i : nat) (bs : list nat) : nat := length (filter (fun b => b = i) bs).

Lemma count_app i bs1 bs2 : count i (bs1 ++ bs2) = count i bs1 + count i bs2.
Proof. unfold count. by rewrite filter_app, length_app. Qed.
Lemma count_cons i b bs : count i (b :: bs) = (if decide (b = i) then 1 else 0) + count i bs.
Proof. unfold count. rewrite filter_cons. by case_decide. Qed.
Lemma count_not_in i bs : i ∉ bs -> count i bs = 0.
Proof.
  intros H. unfold count. induction bs as [|b bs IH]; [done|].
  rewrite filter_cons_False by set_solver. apply IH. set_solver.
Qed.
Lemma count_in i bs : i ∈ bs -> 0 < count i bs.
Proof.
  intros H. apply list_elem_of_split in H as (l1 & l2 & ->). rewrite count_app, count_cons, decide_True by done. lia.
Qed.
Lemma count_perm i bs1 bs2 : bs1 ≡ₚ bs2 -> count i bs1 = count i bs2.
Proof. intros H. unfold count. by rewrite H. Qed.

(** [p'] has the blocks of [p] with reference counts moved by [f]. *)
Record shifted (p p' : BlockPool) (f : nat -> Z) : Prop := {
  sh_num : num_gpu_blocks p' = num_gpu_blocks p;
  sh_caching : enable_caching p' = enable_caching p;
  sh_null : null_block p' = null_block p;
  sh_cached : cached_block_hash_to_block p' = cached_block_hash_to_block p;
  sh_blocks : forall i, i < num_gpu_blocks p ->
    data (blk p' i) = (block_id (blk p i), ref_cnt (blk p i) + f i, block_hash (blk p i))%Z;
}.

Lemma sh_ref p p' f i : shifted p p' f -> i < num_gpu_blocks p -> ref_cnt (blk p' i) = (ref_cnt (blk p i) + f i)%Z.
Proof. intros H Hi. pose proof (sh_blocks _ _ _ H i Hi). unfold data in *. congruence. Qed.
Lemma sh_hash p p' f i : shifted p p' f -> i < num_gpu_blocks p -> block_hash (blk p' i) = block_hash (blk p i).
Proof. intros H Hi. pose proof (sh_blocks _ _ _ H i Hi). unfold data in *. congruence. Qed.
Lemma sh_id p p' f i : shifted p p' f -> i < num_gpu_blocks p -> block_id (blk p' i) = block_id (blk p i).
Proof. intros H Hi. pose proof (sh_blocks _ _ _ H i Hi). unfold data in *. congruence. Qed.

Lemma shifted_refl p f : (forall i, i < num_gpu_blocks p -> f i = 0%Z) -> shifted p p f.
Proof. intros Hf. constructor; try done. intros i Hi. rewrite Hf, Z.add_0_r by done. done. Qed.

Lemma shifted_trans p1 p2 p3 f g h :
  shifted p1 p2 f -> shifted p2 p3 g -> (forall i, i < num_gpu_blocks p1 -> h i = (f i + g i)%Z) -> shifted p1 p3 h.
Proof.
  intros H1 H2 Hh. pose proof (sh_num _ _ _ H1) as Hn. constructor.
  - rewrite <-Hn. apply H2.
  - rewrite <-(sh_caching _ _ _ H1). apply H2.
  - rewrite <-(sh_null _ _ _ H1). apply H2.
  - rewrite <-(sh_cached _ _ _ H1). apply H2.
  - intros i Hi. rewrite (sh_blocks _ _ _ H2) by lia.
    rewrite (sh_id _ _ _ _ H1 Hi), (sh_ref _ _ _ _ H1 Hi), (sh_hash _ _ _ _ H1 Hi), Hh by done.
    do 2 f_equal. lia.
Qed.

(** The invariant after a move of reference counts, with [l'] the new queue. *)
Lemma pool_ok_shifted p p' f l l' :
  pool_ok p l -> shifted p p' f -> length (blocks p') = length (blocks p) ->
  fq_ok (blocks p') (free_block_queue p') l' -> null_block p ∉ l' ->
  (forall i, i < num_gpu_blocks p -> i <> null_block p ->
    (i ∈ l' <-> (ref_cnt (blk p i) + f i)%Z = 0%Z) /\ (0 <= ref_cnt (blk p i) + f i)%Z) ->
  pool_ok p' l'.
Proof.
  intros H Hs Hlen Hfq Hnl Hf. pose proof (po_null _ _ H) as (Hn & _ & Hh).
  constructor; rewrite ?(sh_num _ _ _ Hs), ?(sh_null _ _ _ Hs).
  - done.
  - rewrite Hlen. apply H.
  - intros i Hi. rewrite (sh_id _ _ _ _ Hs Hi). by apply H.
  - split_and!; [done|done|]. by rewrite (sh_hash _ _ _ _ Hs Hn).
  - intros i Hi Hin. rewrite (sh_ref _ _ _ _ Hs Hi). by apply Hf.
  - eapply cached_ok_hashes; [by apply (sh_cached _ _ _ Hs)|done| |exact (po_cache _ _ H)].
    rewrite (po_len _ _ H). intros i Hi. by apply (sh_hash _ _ _ _ Hs).
Qed.

Definition at_block (b : nat) (z : Z) (i : nat) : Z := if decide (b = i) then z else 0%Z.

Lemma shifted_alter p p' b (f : KVCacheBlock -> KVCacheBlock) z :
  (forall c, data (f c) = (block_id c, ref_cnt c + z, block_hash c)%Z) ->
  b < length (blocks p) -> length (blocks p) = num_gpu_blocks p -> same_data (alter f b (blocks p)) (blocks p') ->
  num_gpu_blocks p' = num_gpu_blocks p -> enable_caching p' = enable_caching p ->
  null_block p' = null_block p -> cached_block_hash_to_block p' = cached_block_hash_to_block p ->
  shifted p p' (at_block b z).
Proof.
  intros Hf Hb Hlen Hs Hn He Hu Hc. constructor; try done. intros i Hi.
  unfold blk at 1. rewrite (same_data_total _ _ _ Hs) by (rewrite length_alter; lia).
  rewrite alter_total by done. unfold at_block. case_decide; [by rewrite Hf|].
  rewrite Z.add_0_r. done.
Qed.

Lemma touch_block_ok p l b :
  pool_ok p l -> b < num_gpu_blocks p ->
  pool_ok (touch_block p b) (filter (fun x => x <> b) l) /\ shifted p (touch_block p b) (at_block b 1).
Proof.
  intros H Hb. pose proof (po_len _ _ H) as Hlen. destruct (po_null _ _ H) as (Hn & Hnl & _).
  set (free := (ref_cnt (blk p b) =? 0)%Z && negb (b =? null_block p)).
  set (s1 := if free then (remove (blocks p) (free_block_queue p) b).1 else blocks p).
  assert (Hin : free = true <-> b ∈ l).
  { unfold free. rewrite andb_true_iff, negb_true_iff, Z.eqb_eq, Nat.eqb_neq. split.
    - intros [E Hne]. by apply (po_free _ _ H).
    - intros Hbl. assert (b <> null_block p) by (by intros ->).
      split; [|done]. by apply (po_free _ _ H). }
  assert (Hfq : fq_ok s1 (free_block_queue (touch_block p b)) (filter (fun x => x <> b) l) /\ same_data (blocks p) s1).
  { unfold s1, touch_block. fold free. destruct free eqn:Ef.
    - destruct (list_elem_of_split _ _ (proj1 Hin eq_refl)) as (l1 & l2 & ->).
      rewrite list_filter_one by exact (fq_nodup _ _ _ (po_fq _ _ H)).
      split; [|apply remove_same_data]. cbn. apply remove_ok, (po_fq _ _ H).
    - assert (b ∉ l) by (intros Hbl%Hin; done). rewrite list_filter_all by set_solver.
      split; [|done]. apply (po_fq _ _ H). }
  destruct Hfq as [Hfq Hd]. pose proof (same_data_length _ _ Hd) as Hlen1.
  assert (Hbl : blocks (touch_block p b) = alter incr_ref b s1).
  { unfold touch_block, s1. fold free. by destruct free. }
  assert (Hs : shifted p (touch_block p b) (at_block b 1)).
  { apply (shifted_alter _ _ b incr_ref); try done; [lia| | | | |].
    - unfold same_data. rewrite Hbl. apply list_eq. intros j. rewrite !list_lookup_fmap.
      destruct (decide (b = j)) as [<-|]; [|rewrite !list_lookup_alter_ne by done].
      + rewrite !list_lookup_alter_eq. apply (f_equal (fun l => l !! b)) in Hd.
        rewrite !list_lookup_fmap in Hd. destruct (s1 !! b), (blocks p !! b); cbn in *; try done.
        unfold data in *. cbn. congruence.
      + apply (f_equal (fun l => l !! j)) in Hd. by rewrite !list_lookup_fmap in Hd.
    - unfold touch_block. fold free. by destruct free.
    - unfold touch_block. fold free. by destruct free.
    - unfold touch_block. fold free. by destruct free.
    - unfold touch_block. fold free. by destruct free. }
  split; [|done]. eapply pool_ok_shifted; [done|exact Hs| | | |].
  - by rewrite Hbl, length_alter.
  - rewrite Hbl. by apply fq_ok_alter.
  - intros ?%list_elem_of_filter. naive_solver.
  - intros i Hi Hin'. rewrite list_elem_of_filter. destruct (po_free _ _ H i Hi Hin') as [Hr Hr0].
    unfold at_block. case_decide; [subst; split; [split; [naive_solver|lia]|lia]|].
    rewrite Z.add_0_r. naive_solver.
Qed.

Lemma touch_ok p l bs :
  pool_ok p l -> Forall (fun b => b < num_gpu_blocks p) bs ->
  pool_ok (touch p bs) (filter (fun x => x ∉ bs) l) /\ shifted p (touch p bs) (fun i => Z.of_nat (count i bs)).
Proof.
  unfold touch. revert p l. induction bs as [|b bs IH]; intros p l H Hbs; cbn [foldl].
  - rewrite list_filter_all by (intros; apply not_elem_of_nil). split; [done|]. by apply shifted_refl.
  - apply Forall_cons in Hbs as [Hb Hbs]. destruct (touch_block_ok p l b H Hb) as [H1 Hs1].
    destruct (IH _ _ H1) as [H2 Hs2]; [by rewrite (sh_num _ _ _ Hs1)|]. split.
    + rewrite list_filter_filter in H2. erewrite list_filter_iff; [exact H2|].
      intros x. cbn. set_solver.
    + eapply shifted_trans; [exact Hs1|exact Hs2|]. intros i Hi. cbn beta.
      rewrite count_cons. unfold at_block. case_decide; lia.
Qed.

Lemma free_block_ok p l b :
  pool_ok p l -> b < num_gpu_blocks p -> (b <> null_block p -> (1 <= ref_cnt (blk p b))%Z) ->
  exists p', free_block p b = Ok p' /\ shifted p p' (at_block b (-1)) /\
    pool_ok p' (l ++ (if decide (b <> null_block p /\ ref_cnt (blk p b) = 1%Z) then [b] else [])).
Proof.
  intros H Hb Href. pose proof (po_len _ _ H) as Hlen. destruct (po_null _ _ H) as (Hn & Hnl & _).
  set (p1 := set_blocks (alter decr_ref b (blocks p)) p).
  assert (Hs1 : shifted p p1 (at_block b (-1))) by (apply (shifted_alter _ _ b decr_ref); done || lia).
  assert (Hfq1 : fq_ok (blocks p1) (free_block_queue p1) l) by (apply fq_ok_alter; [done|apply (po_fq _ _ H)]).
  assert (Hr1 : ref_cnt (blk p1 b) = (ref_cnt (blk p b) - 1)%Z).
  { rewrite (sh_ref _ _ _ _ Hs1 Hb). unfold at_block. by rewrite decide_True. }
  unfold free_block. fold p1. rewrite Hr1. change (null_block p1) with (null_block p).
  destruct (decide (b <> null_block p /\ ref_cnt (blk p b) = 1%Z)) as [[Hbn E]|Hno].
  - rewrite E, (proj2 (Nat.eqb_neq _ _) Hbn). cbn [Z.eqb Z.sub Z.add Z.pos_sub Z.opp andb negb].
    assert (Hbl : b ∉ l) by (intros Hbl; apply (po_free _ _ H b Hb Hbn) in Hbl; lia).
    destruct (append_ok (blocks p1) (free_block_queue p1) l b Hfq1) as (s' & q' & -> & Hfq' & Hd);
      [cbn; rewrite length_alter; lia|done|].
    cbn [mbind result_bind]. eexists. split; [reflexivity|].
    assert (Hs : shifted p (set_queue (s', q') p1) (at_block b (-1))).
    { apply (shifted_alter _ _ b decr_ref); done || lia. }
    split; [done|]. eapply pool_ok_shifted; [exact H|exact Hs| |exact Hfq'|set_solver|].
    + cbn. rewrite (same_data_length _ _ Hd). apply length_alter.
    + intros i Hi Hin. destruct (po_free _ _ H i Hi Hin) as [Hr Hr0]. unfold at_block.
      rewrite elem_of_app, list_elem_of_singleton.
      case_decide; [subst; split; [split; [lia|by right]|lia]|].
      rewrite Z.add_0_r. naive_solver.
  - replace ((ref_cnt (blk p b) - 1 =? 0)%Z && negb (b =? null_block p)) with false.
    + eexists. split; [done|]. split; [done|]. rewrite app_nil_r.
      eapply pool_ok_shifted; [exact H|exact Hs1| |exact Hfq1|done|]; [apply length_alter|].
      intros i Hi Hin. destruct (po_free _ _ H i Hi Hin) as [Hr Hr0]. unfold at_block.
      case_decide; [subst i|rewrite Z.add_0_r; done].
      specialize (Href Hin). assert (ref_cnt (blk p b) <> 1%Z) by (intros ?; by apply Hno).
      split; [|lia]. split; [intros ?%Hr; lia|lia].
    + symmetry. apply andb_false_iff. rewrite Z.eqb_neq, negb_false_iff, Nat.eqb_eq.
      destruct (decide (b = null_block p)); [by right|]. left. intros ?. apply Hno. split; [done|lia].
Qed.

(** The blocks of [bs] that are released, in order. *)
Definition released (p : BlockPool) (bs : list nat) : list nat :=
  filter (fun b => b <> null_block p /\ ref_cnt (blk p b) = 1%Z) bs.

Lemma free_blocks_ok p l bs :
  pool_ok p l -> Forall (fun b => b < num_gpu_blocks p) bs ->
  NoDup (filter (fun b => b <> null_block p) bs) ->
  Forall (fun b => b <> null_block p -> (1 <= ref_cnt (blk p b))%Z) bs ->
  exists p', free_blocks p bs = Ok p' /\ shifted p p' (fun i => - Z.of_nat (count i bs))%Z /\
    pool_ok p' (l ++ released p bs).
Proof.
  unfold free_blocks. revert p l. induction bs as [|b bs IH]; intros p l H Hbs Hnd Href; cbn [foldM].
  - exists p. split; [done|]. split; [by apply shifted_refl|]. by rewrite app_nil_r.
  - apply Forall_cons in Hbs as [Hb Hbs]. apply Forall_cons in Href as [Hrb Href].
    destruct (free_block_ok p l b H Hb Hrb) as (p1 & -> & Hs1 & H1). cbn [mbind result_bind].
    assert (Hsame : forall x, x ∈ bs -> x <> null_block p -> ref_cnt (blk p1 x) = ref_cnt (blk p x)).
    { intros x Hx Hxn. pose proof (proj1 (Forall_forall _ _) Hbs x Hx) as Hlt.
      rewrite (sh_ref _ _ _ _ Hs1 Hlt). unfold at_block. destruct (decide (b = x)); [|lia]. subst x.
      rewrite filter_cons_True in Hnd by done. apply NoDup_cons in Hnd as [Hni _].
      exfalso. apply Hni. by apply list_elem_of_filter. }
    destruct (IH p1 _ H1) as (p2 & -> & Hs2 & H2).
    + by rewrite (sh_num _ _ _ Hs1).
    + rewrite (sh_null _ _ _ Hs1). clear -Hnd. rewrite filter_cons in Hnd.
      case_decide; [by apply NoDup_cons in Hnd as [_ ?]|done].
    + rewrite (sh_null _ _ _ Hs1). apply Forall_forall. intros x Hx Hxn. rewrite Hsame by done.
      by apply (proj1 (Forall_forall _ _) Href).
    + exists p2. split; [done|]. split.
      * eapply shifted_trans; [exact Hs1|exact Hs2|]. intros i Hi. cbn beta.
        rewrite count_cons. unfold at_block. destruct (decide (b = i)); lia.
      * assert (E : (if decide (b <> null_block p /\ ref_cnt (blk p b) = 1%Z) then [b] else []) ++ released p1 bs =
          released p (b :: bs)).
        { unfold released. rewrite filter_cons, (sh_null _ _ _ Hs1).
          assert (filter (fun b0 => b0 <> null_block p /\ ref_cnt (blk p1 b0) = 1%Z) bs =
                  filter (fun b0 => b0 <> null_block p /\ ref_cnt (blk p b0) = 1%Z) bs) as ->.
          { clear -Hsame. induction bs as [|x bs IH]; [done|]. rewrite !filter_cons.
            rewrite IH by (intros; apply Hsame; [by right|done]).
            destruct (decide (x = null_block p)) as [->|Hx]; [by rewrite !decide_False by tauto|].
            rewrite (Hsame x ltac:(by left) Hx). done. }
          by destruct (decide _). }
        rewrite <-E, (assoc_L (++)). done.
Qed.

(** ** Lemmas: construction and reset *)

Lemma pool_init_ok n caching :
  (0 < n)%Z ->
  exists p, pool_init n caching = Ok p /\ pool_ok p (seq 1 (Z.to_nat n - 1)) /\
    num_gpu_blocks p = Z.to_nat n /\ enable_caching p = caching /\ null_block p = 0 /\
    cached_block_hash_to_block p = ∅ /\
    forall i, i < Z.to_nat n -> data (blk p i) = (i, 0%Z, None).
Proof.
  intros Hn. unfold pool_init. rewrite (proj2 (Z.ltb_lt _ _) Hn). cbn [py_assert mbind result_bind].
  destruct (Z.to_nat n) as [|k] eqn:Ek; [lia|].
  set (s0 := new_block <$> seq 0 (S k)).
  assert (Hl0 : length s0 = S k) by (unfold s0; by rewrite length_fmap, length_seq).
  destruct (queue_init_ok s0) as (s1 & q1 & -> & Hfq1 & Hd1); [done|by apply Forall_fmap, Forall_true|].
  rewrite Hl0 in Hfq1. cbn [mbind result_bind].
  destruct (popleft_ok _ _ _ _ Hfq1) as (s2 & q2 & -> & Hfq2 & Hd2). cbn [mbind result_bind].
  eexists. split; [reflexivity|]. cbn.
  pose proof (same_data_trans _ _ _ Hd1 Hd2) as Hd. pose proof (same_data_length _ _ Hd) as Hlen.
  assert (Hdata : forall i, i < S k -> data (s2 !!! i) = (i, 0%Z, None)).
  { intros i Hi. rewrite (same_data_total _ _ _ Hd) by lia. unfold s0.
    rewrite (list_lookup_total_correct _ i (new_block i)); [done|].
    by rewrite list_lookup_fmap, lookup_seq_lt. }
  rewrite Nat.sub_0_r. split; [|split_and!; done]. constructor; cbn; unfold blk; cbn.
  - done.
  - by rewrite Hlen.
  - intros i Hi. specialize (Hdata i Hi). unfold data in Hdata. congruence.
  - split_and!; [lia|rewrite elem_of_seq; lia|]. specialize (Hdata 0 ltac:(lia)). unfold data in Hdata. congruence.
  - intros i Hi Hne. assert (ref_cnt (s2 !!! i) = 0%Z) as -> by (specialize (Hdata i Hi); unfold data in Hdata; congruence).
    split; [|lia]. split; [done|]. intros _. apply elem_of_seq. lia.
  - constructor; cbn; [intros h ids; by rewrite lookup_empty|].
    intros h i. unfold in_cache, blk; cbn. split; [intros (ids & E & _); by rewrite lookup_empty in E|].
    intros [Hi E]. rewrite Hlen, Hl0 in Hi. specialize (Hdata i Hi). unfold data in Hdata. congruence.
Qed.

Lemma get_new_blocks_ok p l num :
  pool_ok p l ->
  (Z.of_nat (length l) < num)%Z /\ get_new_blocks p num = Err ValueError \/
  (num <= Z.of_nat (length l))%Z /\
  exists p', get_new_blocks p num = Ok (p', take (Z.to_nat num) l) /\ pool_ok p' (drop (Z.to_nat num) l) /\
    pool_frame p p' (take (Z.to_nat num) l) /\
    forall b, b ∈ take (Z.to_nat num) l -> ref_cnt (blk p' b) = 1%Z /\
      block_hash (blk p' b) = if enable_caching p then None else block_hash (blk p b).
Proof.
  intros H. unfold get_new_blocks, get_num_free_blocks. rewrite (fq_num _ _ _ (po_fq _ _ H)).
  destruct (Z.ltb_spec (Z.of_nat (length l)) num) as [Hlt|Hle]; [by left|]. right. split; [done|].
  rewrite <-(take_drop (Z.to_nat num) l) in H. destruct (get_new_blocks_loop_ok _ _ _ H) as (p' & Hp & Hrest).
  rewrite length_take_le in Hp by lia. by exists p'.
Qed.

Lemma reset_prefix_cache_ok p l :
  pool_ok p l ->
  pool_ok (reset_prefix_cache p).1 l /\
  ((reset_prefix_cache p).2 = true <-> forall i, i < num_gpu_blocks p -> i <> null_block p -> i ∈ l) /\
  ((reset_prefix_cache p).2 = true -> cached_block_hash_to_block (reset_prefix_cache p).1 = ∅ /\
     forall i, i < num_gpu_blocks p -> block_hash (blk (reset_prefix_cache p).1 i) = None) /\
  ((reset_prefix_cache p).2 = false -> (reset_prefix_cache p).1 = p).
Proof.
  intros H. pose proof (po_len _ _ H) as Hlen. destruct (po_null _ _ H) as (Hn & Hnl & Hh).
  unfold reset_prefix_cache, get_num_free_blocks. rewrite (fq_num _ _ _ (po_fq _ _ H)).
  assert (Hsub : l ⊆+ seq 0 (num_gpu_blocks p) /\ length (null_block p :: l) <= num_gpu_blocks p).
  { rewrite <-(length_seq (num_gpu_blocks p) 0) at 2. split; [|apply submseteq_length];
      apply NoDup_submseteq; try (constructor; [done|]); try exact (fq_nodup _ _ _ (po_fq _ _ H)).
    - intros x Hx. apply elem_of_seq.
      pose proof (proj1 (Forall_forall _ _) (fq_range _ _ _ (po_fq _ _ H)) x Hx). cbn in *. lia.
    - intros x [->|Hx]%elem_of_cons; apply elem_of_seq; [lia|].
      pose proof (proj1 (Forall_forall _ _) (fq_range _ _ _ (po_fq _ _ H)) x Hx). cbn in *. lia. }
  destruct Hsub as [_ Hle]. cbn in Hle.
  assert (Hiff : (Z.of_nat (num_gpu_blocks p) - Z.of_nat (length l) = 1)%Z <->
    forall i, i < num_gpu_blocks p -> i <> null_block p -> i ∈ l).
  { split.
    - intros E i Hi Hin.
      assert (Hp : null_block p :: l ≡ₚ seq 0 (num_gpu_blocks p)).
      { apply submseteq_length_Permutation; [|rewrite length_seq; cbn; lia].
        apply NoDup_submseteq; [constructor; [done|exact (fq_nodup _ _ _ (po_fq _ _ H))]|].
        intros x [->|Hx]%elem_of_cons; apply elem_of_seq; [lia|].
        pose proof (proj1 (Forall_forall _ _) (fq_range _ _ _ (po_fq _ _ H)) x Hx). cbn in *. lia. }
      assert (i ∈ null_block p :: l) as [->|?]%elem_of_cons; [|done|done].
      rewrite Hp. apply elem_of_seq. lia.
    - intros Hall. enough (num_gpu_blocks p <= S (length l)) by lia.
      rewrite <-(length_seq (num_gpu_blocks p) 0). change (S (length l)) with (length (null_block p :: l)).
      apply submseteq_length, NoDup_submseteq; [apply NoDup_seq|].
      intros x Hx%elem_of_seq. destruct (decide (x = null_block p)) as [->|]; [by left|]. right. apply Hall; [lia|done]. }
  destruct (Z.eqb_spec (Z.of_nat (num_gpu_blocks p) - Z.of_nat (length l)) 1) as [E|E]; cbn; last first.
  { split; [done|]. split_and!; [|done|done]. split; [done|]. intros Hall. by apply Hiff in Hall. }
  assert (Hblk : forall i, i < num_gpu_blocks p -> (reset_hash <$> blocks p) !!! i = reset_hash (blk p i)).
  { intros i Hi. destruct (lookup_lt_is_Some_2 (blocks p) i ltac:(lia)) as [b Eb]. unfold blk.
    apply list_lookup_total_correct. rewrite list_lookup_fmap, Eb.
    by rewrite (list_lookup_total_correct _ _ _ Eb). }
  split; [|split_and!; [by rewrite <-Hiff|intros _; split; [done|]|done]].
  - constructor; cbn; unfold blk; cbn; rewrite ?length_fmap.
    + eapply fq_ok_links; [| |exact (po_fq _ _ H)]; [apply length_fmap|].
      intros i Hi. rewrite Hblk by lia. done.
    + done.
    + intros i Hi. rewrite Hblk by done. by apply (po_id _ _ H).
    + split_and!; [done|done|]. by rewrite Hblk.
    + intros i Hi Hne. rewrite Hblk by done. by apply (po_free _ _ H).
    + constructor; cbn; [intros h ids; by rewrite lookup_empty|].
      intros h i. unfold in_cache, blk; cbn. rewrite length_fmap.
      split; [intros (ids & E' & _); by rewrite lookup_empty in E'|].
      intros [Hi E']. by rewrite Hblk in E' by lia.
  - intros i Hi. unfold blk; cbn. by rewrite Hblk.
Qed.

(** ** Lemmas: caching full blocks *)

Lemma dict_add_in ids b i : i ∈ dict_add ids b <-> i = b \/ i ∈ ids.
Proof. unfold dict_add. case_decide; [naive_solver|]. rewrite elem_of_app, list_elem_of_singleton. tauto. Qed.

Lemma dict_add_nodup ids b : NoDup ids -> NoDup (dict_add ids b) /\ dict_add ids b <> [].
Proof.
  unfold dict_add. case_decide as E; intros H; [split; [done|by intros ->; apply not_elem_of_nil in E]|].
  split; [|by destruct ids]. apply NoDup_app. split; [done|]. split; [set_solver|apply NoDup_singleton].
Qed.

Definition with_hash (h : BlockHashType) (b : KVCacheBlock) : KVCacheBlock :=
  {| block_id := block_id b; ref_cnt := ref_cnt b; block_hash := Some h;
     prev_free_block := prev_free_block b; next_free_block := next_free_block b |}.

(** Block [b] put into the cache under hash [h]. *)
Definition cached_as (p : BlockPool) (b : nat) (h : BlockHashType) : BlockPool :=
  set_cached (<[h := dict_add (default [] (cached_block_hash_to_block p !! h)) b]> (cached_block_hash_to_block p))
    (set_blocks (<[b := with_hash h (blk p b)]> (blocks p)) p).

Lemma cached_as_blk p b h i :
  b < length (blocks p) -> blk (cached_as p b h) i = if decide (b = i) then with_hash h (blk p i) else blk p i.
Proof.
  intros Hb. unfold blk, cached_as; cbn. case_decide as E.
  - subst. by apply list_lookup_total_insert_eq.
  - by apply list_lookup_total_insert_ne.
Qed.

Lemma cached_as_ok p l b h :
  pool_ok p l -> b < num_gpu_blocks p -> b <> null_block p -> block_hash (blk p b) = None ->
  pool_ok (cached_as p b h) l.
Proof.
  intros H Hb Hbn Hh. pose proof (po_len _ _ H) as Hlen. destruct (po_null _ _ H) as (Hn & Hnl & Hnh).
  assert (Hbl : b < length (blocks p)) by lia.
  assert (Hblk := fun i => cached_as_blk p b h i Hbl).
  constructor.
  - eapply fq_ok_links; [| |exact (po_fq _ _ H)]; [cbn; apply length_insert|].
    intros i Hi. change (blocks (cached_as p b h) !!! i) with (blk (cached_as p b h) i).
    rewrite Hblk. by case_decide.
  - cbn. by rewrite length_insert.
  - intros i Hi. rewrite Hblk. case_decide; cbn; by apply (po_id _ _ H).
  - split_and!; [done|done|]. rewrite Hblk. by rewrite decide_False.
  - intros i Hi Hne. rewrite Hblk. pose proof (po_free _ _ H i Hi Hne). by case_decide.
  - destruct (po_cache _ _ H) as [H1 H2]. constructor.
    + cbn. intros h' ids. rewrite lookup_insert. case_decide; [|apply H1].
      intros [= <-]. apply and_comm, dict_add_nodup. subst h'.
      destruct (cached_block_hash_to_block p !! h) as [ids0|] eqn:E; cbn; [by eapply H1|constructor].
    + intros h' i. rewrite Hblk. cbn [cached_as set_cached set_blocks blocks]. rewrite length_insert.
      unfold in_cache; cbn. specialize (H2 h' i). unfold in_cache in H2.
      destruct (decide (h = h')) as [<-|Hne].
      * rewrite lookup_insert_eq. split.
        -- intros (ids & [= <-] & Hi). apply dict_add_in in Hi as [->|Hi].
           { by rewrite decide_True. }
           destruct (cached_block_hash_to_block p !! h) as [ids0|] eqn:E; cbn in Hi; [|by apply not_elem_of_nil in Hi].
           destruct (proj1 H2 (ex_intro _ ids0 (conj eq_refl Hi))). by case_decide.
        -- intros [Hi E]. eexists. split; [done|]. apply dict_add_in. case_decide; [by left|right].
           destruct (proj2 H2 (conj Hi E)) as (ids0 & -> & ?). done.
      * rewrite lookup_insert_ne by done. rewrite H2. case_decide; [|done]. subst i. rewrite Hh.
        cbn. naive_solver.
Qed.

Section CachingLemmas.
Context (hash_fn : hash_input -> Z) (NONE_HASH : Z).

(** The keys the loop computes for a block of generated tokens. *)
Definition generated_keys (bsz : nat) (r : Request) (i : nat) : option (list extra_key) :=
  match generate_block_hash_extra_keys r (Z.of_nat (i * bsz)) (Z.of_nat ((i + 1) * bsz)) (-1) with
  | Ok (keys, _) => keys
  | Err _ => None
  end.

(** The request's hashes, continued by [n] blocks. *)
Fixpoint extend_hashes (bsz : nat) (r : Request) (hs : list BlockHashType) (n : nat) : list BlockHashType :=
  match n with
  | 0 => hs
  | S n => extend_hashes bsz r
      (hs ++ [hash_block_tokens hash_fn NONE_HASH (hash_value <$> last hs)
               (block_tokens bsz r (length hs)) (generated_keys bsz r (length hs))]) n
  end.

Lemma extend_hashes_snoc bsz r hs n :
  extend_hashes bsz r hs (S n) =
  let hs' := extend_hashes bsz r hs n in
  hs' ++ [hash_block_tokens hash_fn NONE_HASH (hash_value <$> last hs')
            (block_tokens bsz r (length hs')) (generated_keys bsz r (length hs'))].
Proof. revert hs. induction n as [|n IH]; intros hs; [done|]. cbn -[app] in *. apply IH. Qed.

Lemma extend_hashes_length bsz r hs n : length (extend_hashes bsz r hs n) = length hs + n.
Proof. revert hs. induction n as [|n IH]; intros hs; cbn; [lia|]. rewrite IH, length_app. cbn. lia. Qed.

Lemma extend_hashes_prefix bsz r hs n : hs `prefix_of` extend_hashes bsz r hs n.
Proof.
  revert hs. induction n as [|n IH]; intros hs; cbn; [done|]. etrans; [|apply IH]. by eexists.
Qed.

(** What a request must satisfy for its generated blocks to be hashed. *)
Definition keys_total (r : Request) : Prop :=
  forall s e, exists keys idx, generate_block_hash_extra_keys r s e (-1) = Ok (keys, idx).

Lemma full_block_hash_ok bsz r nc hashes hs prev j :
  keys_total r -> 0 < bsz -> hs = extend_hashes bsz r hashes (nc + j - length hashes) ->
  (nc + j + 1) * bsz <= length (all_token_ids r) ->
  (length hashes <= nc + j -> prev = hash_value <$> last hs) ->
  nc <= length hashes ->
  exists h, full_block_hash hash_fn NONE_HASH r (Z.of_nat bsz) (Z.of_nat nc) (drop nc hashes) hs prev j =
      Ok (h, extend_hashes bsz r hashes (nc + (j + 1) - length hashes)) /\
    extend_hashes bsz r hashes (nc + (j + 1) - length hashes) !! (nc + j) = Some h.
Proof.
  intros Hk Hb Hhs Htok Hprev Hnc. unfold full_block_hash. rewrite lookup_drop.
  destruct (hashes !! (nc + j)) as [h|] eqn:E.
  - pose proof (lookup_lt_Some _ _ _ E). exists h.
    replace (nc + j - length hashes) with 0 in Hhs by lia.
    replace (nc + (j + 1) - length hashes) with 0 by lia. cbn in *. by subst.
  - apply lookup_ge_None_1 in E.
    replace (nc + (j + 1) - length hashes) with (S (nc + j - length hashes)) by lia.
    rewrite extend_hashes_snoc, <-Hhs. cbn zeta.
    assert (Hlen : length hs = nc + j) by (rewrite Hhs, extend_hashes_length; lia).
    rewrite (Hprev E), Hlen.
    replace ((Z.of_nat nc + Z.of_nat j) * Z.of_nat bsz)%Z with (Z.of_nat ((nc + j) * bsz)) by lia.
    replace ((Z.of_nat nc + Z.of_nat j + 1) * Z.of_nat bsz)%Z with (Z.of_nat ((nc + j + 1) * bsz)) by lia.
    rewrite py_slice_nat by lia.
    replace (take ((nc + j + 1) * bsz - (nc + j) * bsz) (drop ((nc + j) * bsz) (all_token_ids r)))
      with (block_tokens bsz r (nc + j)) by (unfold block_tokens; f_equal; lia).
    rewrite block_tokens_length by (apply Nat.div_le_lower_bound; lia).
    rewrite Z.eqb_refl. cbn [py_assert mbind result_bind].
    unfold generated_keys. destruct (Hk (Z.of_nat ((nc + j) * bsz)) (Z.of_nat ((nc + j + 1) * bsz))) as (keys & idx & ->).
    cbn [mbind result_bind]. eexists. split; [done|].
    rewrite lookup_app_r, Hlen, Nat.sub_diag by lia. done.
Qed.

(** [p'] is [p] with hashes on the blocks of [bs], from the [k]-th of [hs] on. *)
Record hashed (p p' : BlockPool) (bs : list nat) (hs : list BlockHashType) (k : nat) : Prop := {
  hd_num : num_gpu_blocks p' = num_gpu_blocks p;
  hd_caching : enable_caching p' = enable_caching p;
  hd_null : null_block p' = null_block p;
  hd_queue : free_block_queue p' = free_block_queue p;
  hd_other : forall i, i < num_gpu_blocks p -> i ∉ bs -> data (blk p' i) = data (blk p i);
  hd_new : forall j b, bs !! j = Some b ->
    exists h, hs !! (k + j) = Some h /\ data (blk p' b) = (b, ref_cnt (blk p b), Some h);
}.

Definition cacheable (p : BlockPool) (bs : list nat) : Prop :=
  NoDup bs /\ Forall (fun b => b < num_gpu_blocks p /\ b <> null_block p /\ block_hash (blk p b) = None) bs.

Lemma cache_block_ok bsz r nc hashes hs prev j p l b :
  pool_ok p l -> b < num_gpu_blocks p -> b <> null_block p -> block_hash (blk p b) = None ->
  keys_total r -> 0 < bsz -> hs = extend_hashes bsz r hashes (nc + j - length hashes) ->
  (nc + j + 1) * bsz <= length (all_token_ids r) ->
  (length hashes <= nc + j -> prev = hash_value <$> last hs) -> nc <= length hashes ->
  exists h, let hs' := extend_hashes bsz r hashes (nc + (j + 1) - length hashes) in
    cache_block hash_fn NONE_HASH r (Z.of_nat bsz) (Z.of_nat nc) (drop nc hashes) (p, hs, prev) (j, b) =
      Ok (cached_as p b h, hs', Some (hash_value h)) /\ hs' !! (nc + j) = Some h /\
    pool_ok (cached_as p b h) l.
Proof.
  intros H Hb Hbn Hh Hk Hbsz Hhs Htok Hprev Hnc.
  destruct (full_block_hash_ok bsz r nc hashes hs prev j Hk Hbsz Hhs Htok Hprev Hnc) as (h & Hfull & Hl).
  exists h. cbn zeta. split; [|split; [done|by apply cached_as_ok]].
  unfold cache_block. rewrite Hh. cbn [py_assert bool_decide mbind result_bind].
  change (py_assert (bool_decide (@None BlockHashType = None))) with (Ok tt). cbn [mbind result_bind].
  rewrite Hfull. cbn [mbind result_bind]. unfold set_block_hash. rewrite Hh.
  change (py_assert (bool_decide (@None BlockHashType = None))) with (Ok tt). cbn [mbind result_bind].
  unfold cached_as, with_hash. cbn. by rewrite (po_id _ _ H b Hb).
Qed.

Lemma cached_as_hashed p b h :
  b < length (blocks p) -> length (blocks p) = num_gpu_blocks p -> block_id (blk p b) = b ->
  (forall i, i <> b -> data (blk (cached_as p b h) i) = data (blk p i)) /\
  data (blk (cached_as p b h) b) = (b, ref_cnt (blk p b), Some h).
Proof.
  intros Hb Hlen Hid. split.
  - intros i Hi. by rewrite cached_as_blk, decide_False.
  - rewrite cached_as_blk, decide_True by done. unfold data. cbn. by rewrite Hid.
Qed.

Lemma cache_loop_ok bsz r nc hashes bs j p hs prev l :
  pool_ok p l -> cacheable p bs -> keys_total r -> 0 < bsz ->
  hs = extend_hashes bsz r hashes (nc + j - length hashes) ->
  (nc + j + length bs) * bsz <= length (all_token_ids r) ->
  (length hashes <= nc + j -> prev = hash_value <$> last hs) -> nc <= length hashes ->
  exists p' prev', let hs' := extend_hashes bsz r hashes (nc + (j + length bs) - length hashes) in
    foldM (cache_block hash_fn NONE_HASH r (Z.of_nat bsz) (Z.of_nat nc) (drop nc hashes)) (p, hs, prev)
      (imap (fun i b => (j + i, b)) bs) = Ok (p', hs', prev') /\
    pool_ok p' l /\ hashed p p' bs hs' (nc + j).
Proof.
  revert j p hs prev. induction bs as [|b bs IH]; intros j p hs prev H [Hnd Hc] Hk Hbsz Hhs Htok Hprev Hnc.
  { exists p, prev. cbn zeta. rewrite Nat.add_0_r, <-Hhs. split; [done|]. split; [done|]. by constructor. }
  apply NoDup_cons in Hnd as [Hbni Hnd]. apply Forall_cons in Hc as [(Hb & Hbn & Hh) Hc].
  pose proof (po_len _ _ H) as Hlen. cbn [length] in Htok.
  destruct (cache_block_ok bsz r nc hashes hs prev j p l b) as (h & Hstep & Hl & H1); try done; [nia|].
  cbn zeta in Hstep, Hl. cbn [imap foldM]. rewrite Nat.add_0_r, Hstep. cbn [mbind result_bind].
  set (p1 := cached_as p b h) in *. set (hs1 := extend_hashes bsz r hashes (nc + (j + 1) - length hashes)) in *.
  destruct (cached_as_hashed p b h ltac:(lia) Hlen (po_id _ _ H b Hb)) as [Ho1 Hn1]. fold p1 in Ho1, Hn1.
  assert (Hprev1 : length hashes <= nc + (j + 1) -> Some (hash_value h) = hash_value <$> last hs1).
  { intros Hle. rewrite last_lookup.
    replace (pred (length hs1)) with (nc + j) by (unfold hs1; rewrite extend_hashes_length; lia). by rewrite Hl. }
  assert (Hc1 : cacheable p1 bs).
  { split; [done|]. apply Forall_forall. intros x Hx.
    destruct (proj1 (Forall_forall _ _) Hc x Hx) as (? & ? & Hxh). split_and!; [done|done|].
    rewrite <-Hxh. apply data_hash, Ho1. by intros ->. }
  destruct (IH (j + 1) p1 hs1 (Some (hash_value h)) H1 Hc1 Hk Hbsz) as (p' & prev' & Hrun & H' & Hd).
  { unfold hs1. f_equal. } { nia. } { done. } { done. }
  cbn zeta in Hrun, Hd. exists p', prev'. cbn zeta. cbn [length].
  replace (nc + (j + S (length bs)) - length hashes) with (nc + (j + 1 + length bs) - length hashes) by lia.
  split; [|split; [done|]].
  - rewrite <-Hrun. f_equal. apply imap_ext. intros i x _. cbn. f_equal. lia.
  - constructor.
    + exact (hd_num _ _ _ _ _ Hd).
    + exact (hd_caching _ _ _ _ _ Hd).
    + exact (hd_null _ _ _ _ _ Hd).
    + exact (hd_queue _ _ _ _ _ Hd).
    + intros i Hi Hni. rewrite (hd_other _ _ _ _ _ Hd); [|done|set_solver]. apply Ho1. set_solver.
    + intros [|k] x; cbn; rewrite ?Nat.add_0_r.
      * intros [= <-]. exists h. split.
        -- assert (Hp : hs1 `prefix_of` extend_hashes bsz r hashes (nc + (j + 1 + length bs) - length hashes)).
           { unfold hs1. rewrite <-(Nat.sub_add (nc + (j + 1) - length hashes) (nc + (j + 1 + length bs) - length hashes)) by lia.
             clear. generalize (nc + (j + 1 + length bs) - length hashes - (nc + (j + 1) - length hashes)) as m.
             intros m. induction m as [|m IHm]; [done|]. rewrite Nat.add_succ_l, extend_hashes_snoc. cbn zeta.
             etrans; [exact IHm|]. by eexists. }
           destruct Hp as [k' ->]. apply lookup_app_l_Some, Hl.
        -- rewrite (hd_other _ _ _ _ _ Hd); done.
      * intros Hx. destruct (hd_new _ _ _ _ _ Hd k x Hx) as (h' & Hl' & Hd').
        exists h'. split; [rewrite <-Hl'; f_equal; lia|]. rewrite Hd'. do 2 f_equal.
        apply data_ref, Ho1. intros ->. apply Hbni. by apply list_elem_of_lookup_2 in Hx.
Qed.

Lemma cache_full_blocks_ok bsz r nc nf bs hashes p l :
  pool_ok p l -> nc <= nf -> nf <= length bs -> nc <= length hashes ->
  cacheable p (take (nf - nc) (drop nc bs)) -> keys_total r -> 0 < bsz ->
  nf * bsz <= length (all_token_ids r) ->
  (0 < nc -> nc < nf -> exists b0 h0, bs !! (nc - 1) = Some b0 /\ block_hash (blk p b0) = Some h0 /\
     (length hashes <= nc -> hash_value <$> last hashes = Some (hash_value h0))) ->
  exists p', let hs' := extend_hashes bsz r hashes (nf - length hashes) in
    cache_full_blocks hash_fn NONE_HASH p r bs hashes (Z.of_nat nc) (Z.of_nat nf) (Z.of_nat bsz) = Ok (p', hs') /\
    pool_ok p' l /\ hashed p p' (take (nf - nc) (drop nc bs)) hs' nc.
Proof.
  intros H Hle Hnf Hnc Hc Hk Hbsz Htok Hprev. cbn zeta. unfold cache_full_blocks.
  destruct (Z.eqb_spec (Z.of_nat nc) (Z.of_nat nf)) as [E|E].
  { apply Nat2Z.inj in E. subst nf. exists p. replace (nc - length hashes) with 0 by lia.
    split; [done|]. split; [done|]. rewrite Nat.sub_diag. constructor; done. }
  rewrite (proj2 (Z.leb_le _ _)) by lia. cbn [py_assert mbind result_bind].
  rewrite py_slice_nat by done. rewrite py_slice_from_nat.
  set (new := take (nf - nc) (drop nc bs)) in *.
  assert (Hnew : length new = nf - nc) by (unfold new; rewrite length_take, length_drop; lia).
  assert (exists prev, (if (Z.of_nat nc =? 0)%Z then Ok None
      else prev_block ← py_index bs (Z.of_nat nc - 1);
           h ← of_option AssertionError (block_hash (blk p prev_block)); Ok (Some (hash_value h))) = Ok prev /\
    (length hashes <= nc -> prev = hash_value <$> last hashes)) as (prev & -> & Hp).
  { destruct (Z.eqb_spec (Z.of_nat nc) 0) as [E0|E0].
    - exists None. split; [done|]. intros Hl. destruct hashes; [done|cbn in Hl; lia].
    - destruct (Hprev ltac:(lia) ltac:(lia)) as (b0 & h0 & Hb0 & Hh0 & Hlast).
      replace (Z.of_nat nc - 1)%Z with (Z.of_nat (nc - 1)) by lia. rewrite py_index_nat, Hb0.
      cbn [of_option mbind result_bind]. rewrite Hh0. exists (Some (hash_value h0)). split; [done|].
      intros Hl. by rewrite Hlast. }
  cbn [mbind result_bind].
  destruct (cache_loop_ok bsz r nc hashes new 0 p hashes prev l H Hc Hk Hbsz) as (p' & prev' & Hrun & H' & Hd).
  { by replace (nc + 0 - length hashes) with 0 by lia. } { rewrite Hnew. nia. }
  { rewrite Nat.add_0_r. done. } { done. }
  cbn zeta in Hrun, Hd. rewrite Hnew in Hrun, Hd. rewrite Nat.add_0_r in Hd.
  replace (nc + (0 + (nf - nc)) - length hashes) with (nf - length hashes) in Hrun, Hd by lia.
  change (imap (fun i b => (0 + i, b)) new) with (imap pair new) in Hrun.
  exists p'. rewrite Hrun. done.
Qed.

End CachingLemmas.

(** ** Properties *)

(** Allocation from the pool.  In a consistent pool whose free queue is [l],
    [get_new_blocks] for [num] blocks raises [ValueError] exactly when [num]
    exceeds the queue; otherwise it returns the first [num] blocks of the queue,
    each of which nobody held (count zero before, one after), is not the null
    block, and, with caching on, has lost its hash, while every other block
    keeps id, count and hash; the pool stays consistent, with the rest of the
    queue. *)
Theorem get_new_blocks_correct p l num :
  pool_ok p l -> (0 <= num)%Z ->
  if (Z.of_nat (length l) <? num)%Z then get_new_blocks p num = Err ValueError
  else exists p', get_new_blocks p num = Ok (p', take (Z.to_nat num) l) /\ pool_ok p' (drop (Z.to_nat num) l) /\
    (forall b, b ∈ take (Z.to_nat num) l ->
       b <> null_block p /\ ref_cnt (blk p b) = 0%Z /\ ref_cnt (blk p' b) = 1%Z /\
       (enable_caching p = true -> block_hash (blk p' b) = None /\ forall h, get_cached_block p' h <> Some b)) /\
    (forall b, b < num_gpu_blocks p -> b ∉ take (Z.to_nat num) l -> data (blk p' b) = data (blk p b)).
Proof.
  intros H Hnum. destruct (get_new_blocks_ok p l num H) as [[Hlt ->]|[Hle (p' & Hr & H' & Hf & Hb)]].
  { by rewrite (proj2 (Z.ltb_lt _ _) Hlt). }
  rewrite (proj2 (Z.ltb_ge _ _) Hle). exists p'. split; [done|]. split; [done|]. split.
  - intros b Hin. assert (Hl : b ∈ l) by (rewrite <-(take_drop (Z.to_nat num) l); set_solver).
    assert (Hn : b <> null_block p) by (intros ->; by apply (po_null _ _ H)).
    assert (Hlt : b < num_gpu_blocks p).
    { rewrite <-(po_len _ _ H). by eapply (proj1 (Forall_forall _ _) (fq_range _ _ _ (po_fq _ _ H))). }
    destruct (Hb b Hin) as [H1 H2]. split_and!; [done|by apply (po_free _ _ H)|done|].
    intros Hc. rewrite Hc in H2. split; [done|]. intros h Hg.
    pose proof (get_cached_block_spec p' h (po_cache _ _ H')) as Hs. rewrite Hg in Hs. destruct Hs. congruence.
  - intros b Hlt Hni. by apply (pf_data _ _ _ Hf).
Qed.

Definition demo_pool : BlockPool :=
  match pool_init 4 true with Ok p => p | Err _ => {| num_gpu_blocks := 0; enable_caching := true; blocks := [];
    free_block_queue := {| num_free_blocks := 0; free_list_head := None; free_list_tail := None |};
    cached_block_hash_to_block := ∅; null_block := 0 |} end.

Lemma demo_pool_ok : pool_ok demo_pool [1; 2; 3].
Proof.
  unfold demo_pool. destruct (pool_init_ok 4 true ltac:(lia)) as (p & -> & H & _). exact H.
Qed.

Lemma get_new_blocks_correct_witness :
  exists p', get_new_blocks demo_pool 2 = Ok (p', [1; 2]) /\ pool_ok p' [3].
Proof.
  destruct (get_new_blocks_correct demo_pool [1; 2; 3] 2 demo_pool_ok ltac:(lia)) as (p' & Hr & H' & _).
  by exists p'.
Defined.

(** Touching and freeing.  When a request takes cached blocks and later
    gives them back in reverse order, no assertion fails, every reference count
    and every hash is what it was, and the blocks nobody else holds go to the
    end of the free queue, the tail of the request's chain first, so that it is
    the first of them to be evicted; blocks held by others stay out of the
    queue. *)
Theorem touch_free_restores p l bs :
  pool_ok p l -> Forall (fun b => b < num_gpu_blocks p /\ b <> null_block p) bs -> NoDup bs ->
  pool_ok (touch p bs) (filter (fun x => x ∉ bs) l) /\
  exists p', free_blocks (touch p bs) (reverse bs) = Ok p' /\
    pool_ok p' (filter (fun x => x ∉ bs) l ++ filter (fun b => b ∈ l) (reverse bs)) /\
    forall b, b < num_gpu_blocks p -> data (blk p' b) = data (blk p b).
Proof.
  intros H Hbs Hnd.
  assert (Hr : Forall (fun b => b < num_gpu_blocks p) bs) by (eapply Forall_impl; [exact Hbs|]; cbn; tauto).
  destruct (touch_ok p l bs H Hr) as [H1 Hs1]. split; [done|].
  assert (Hin : forall b, b ∈ reverse bs -> b < num_gpu_blocks p /\ b <> null_block p /\
    ref_cnt (blk (touch p bs) b) = (ref_cnt (blk p b) + 1)%Z).
  { intros b Hb. rewrite elem_of_reverse in Hb. destruct (proj1 (Forall_forall _ _) Hbs b Hb) as [Hlt Hn].
    split_and!; [done|done|]. rewrite (sh_ref _ _ _ _ Hs1 Hlt). do 2 f_equal.
    apply list_elem_of_split in Hb as (l1 & l2 & ->). rewrite <-Permutation_middle in Hnd.
    apply NoDup_cons in Hnd as [Hni _]. rewrite count_app, count_cons, decide_True, !count_not_in by set_solver. lia. }
  destruct (free_blocks_ok _ _ (reverse bs) H1) as (p' & -> & Hs2 & H2).
  - rewrite (sh_num _ _ _ Hs1). apply Forall_forall. intros b Hb. by apply Hin.
  - rewrite reverse_Permutation. by apply NoDup_filter.
  - apply Forall_forall. intros b Hb _. destruct (Hin b Hb) as (Hlt & Hn & ->).
    pose proof (po_free _ _ H b Hlt Hn). lia.
  - exists p'. split; [done|]. split.
    + replace (filter (fun b => b ∈ l) (reverse bs)) with (released (touch p bs) (reverse bs)); [done|].
      unfold released. rewrite (sh_null _ _ _ Hs1). clear -Hin H. induction (reverse bs) as [|b k IH]; [done|].
      rewrite !filter_cons, IH by (intros x Hx; apply Hin; by right).
      destruct (Hin b ltac:(by left)) as (Hlt & Hn & Href). pose proof (po_free _ _ H b Hlt Hn) as [Hl _].
      rewrite Href. destruct (decide (b ∈ l)) as [Hbl|Hbl].
      * rewrite decide_True; [done|]. split; [done|]. apply Hl in Hbl. lia.
      * rewrite decide_False; [done|]. intros [_ ?]. apply Hbl, Hl. lia.
    + intros b Hb. rewrite (sh_blocks _ _ _ Hs2) by (rewrite (sh_num _ _ _ Hs1); done).
      rewrite (sh_id _ _ _ _ Hs1 Hb), (sh_ref _ _ _ _ Hs1 Hb), (sh_hash _ _ _ _ Hs1 Hb).
      unfold data. do 2 f_equal. rewrite (count_perm b (reverse bs) bs) by apply reverse_Permutation. lia.
Qed.

Lemma touch_free_restores_witness :
  exists p', free_blocks (touch demo_pool [1; 2]) [2; 1] = Ok p' /\ pool_ok p' [3; 2; 1].
Proof.
  destruct (touch_free_restores demo_pool [1; 2; 3] [1; 2] demo_pool_ok) as [_ (p' & Hr & H' & _)].
  - repeat constructor; vm_compute; lia.
  - apply NoDup_ListNoDup. repeat constructor; cbn; lia.
  - exists p'. split; [exact Hr|exact H'].
Defined.

(** Caching full blocks.  For blocks of the request that are not cached yet,
    [cache_full_blocks] raises nothing; it completes the request's list of
    hashes with the chained hashes of the new blocks, puts the [i]-th hash on
    the [i]-th block, changes no other block, count or queue, and from then on a
    lookup of any of these hashes finds a block that carries it. *)
Theorem cache_full_blocks_correct hash_fn NONE_HASH bsz r nc nf bs hashes p l :
  pool_ok p l -> nc <= nf -> nf <= length bs -> nc <= length hashes ->
  cacheable p (take (nf - nc) (drop nc bs)) -> keys_total r -> 0 < bsz ->
  nf * bsz <= length (all_token_ids r) ->
  (0 < nc -> nc < nf -> exists b0 h0, bs !! (nc - 1) = Some b0 /\ block_hash (blk p b0) = Some h0 /\
     (length hashes <= nc -> hash_value <$> last hashes = Some (hash_value h0))) ->
  exists p', let hs' := extend_hashes hash_fn NONE_HASH bsz r hashes (nf - length hashes) in
    cache_full_blocks hash_fn NONE_HASH p r bs hashes (Z.of_nat nc) (Z.of_nat nf) (Z.of_nat bsz) = Ok (p', hs') /\
    pool_ok p' l /\
    (forall i b, bs !! i = Some b -> nc <= i < nf -> exists h, hs' !! i = Some h /\
       data (blk p' b) = (b, ref_cnt (blk p b), Some h) /\
       exists b', get_cached_block p' h = Some b' /\ block_hash (blk p' b') = Some h) /\
    (forall b, b < num_gpu_blocks p -> b ∉ take (nf - nc) (drop nc bs) -> data (blk p' b) = data (blk p b)).
Proof.
  intros H Hle Hnf Hnc Hc Hk Hbsz Htok Hprev.
  destruct (cache_full_blocks_ok hash_fn NONE_HASH bsz r nc nf bs hashes p l H Hle Hnf Hnc Hc Hk Hbsz Htok Hprev)
    as (p' & Hrun & H' & Hd).
  exists p'. cbn zeta in *. split; [done|]. split; [done|]. split; [|exact (hd_other _ _ _ _ _ Hd)].
  intros i b Hb Hi.
  assert (Hb' : take (nf - nc) (drop nc bs) !! (i - nc) = Some b).
  { rewrite lookup_take_lt, lookup_drop by lia. rewrite <-Hb. f_equal. lia. }
  destruct (hd_new _ _ _ _ _ Hd _ _ Hb') as (h & Hh & Hdata).
  replace (nc + (i - nc)) with i in Hh by lia. exists h. split; [done|]. split; [done|].
  pose proof (get_cached_block_spec p' h (po_cache _ _ H')) as Hs.
  destruct (get_cached_block p' h) as [b'|]; [exists b'; by destruct Hs|].
  destruct (proj1 (Forall_forall _ _) (proj2 Hc) b) as (Hlt & _ & _); [by apply list_elem_of_lookup_2 in Hb'|].
  exfalso. apply (Hs b); [by rewrite (po_len _ _ H'), (hd_num _ _ _ _ _ Hd)|]. unfold data in Hdata. congruence.
Qed.

Lemma keys_total_text r : mm_positions r = [] -> keys_total r.
Proof.
  intros E s e. unfold generate_block_hash_extra_keys, gen_mm_extra_hash_keys. rewrite E. cbn. by do 2 eexists.
Qed.

(** A prompt of two full blocks, on blocks 2 and 3. *)
Lemma cache_full_blocks_correct_witness :
  exists p' hs, cache_full_blocks encode_hash (-1) demo_pool (demo_prompt [9; 8; 7; 6; 5]%Z []) [2; 3] [] 0 2 2 = Ok (p', hs) /\
    pool_ok p' [1; 2; 3] /\ exists h b', hs !! 1 = Some h /\ get_cached_block p' h = Some b' /\ block_hash (blk p' b') = Some h.
Proof.
  destruct (cache_full_blocks_correct encode_hash (-1) 2 (demo_prompt [9; 8; 7; 6; 5]%Z []) 0 2 [2; 3] []
    demo_pool [1; 2; 3] demo_pool_ok) as (p' & Hrun & H' & Hhit & _).
  - lia.
  - cbn; lia.
  - lia.
  - split; [apply NoDup_ListNoDup; repeat constructor; cbn; lia|].
    repeat constructor; vm_compute; lia || reflexivity.
  - by apply keys_total_text.
  - lia.
  - cbn. lia.
  - lia.
  - do 2 eexists. split; [exact Hrun|]. split; [exact H'|].
    destruct (Hhit 1 3 eq_refl ltac:(lia)) as (h & Hh & _ & b' & Hg & Hb').
    exists h, b'. exact (conj Hh (conj Hg Hb')).
Defined.
