(* ===== verification/SpecializedManager.v ===== *)
(** * Managers of full and sliding-window attention

    [vllm/v1/core/specialized_manager.py].  The abstract class with its two
    implementations is an inductive type; the block pool, which the Python object
    keeps a reference to, is an argument. *)

From S2P Require Import Prelude KVCacheConfig FreeBlockQueue BlockPool.

Inductive SpecializedManager :=
  | FullAttentionManager (block_size : Z)
  | SlidingWindowManager (block_size sliding_window sliding_window_contiguous_blocks : Z).

Definition manager_block_size (m : SpecializedManager) : Z :=
  match m with FullAttentionManager b => b | SlidingWindowManager b _ _ => b end.

(** [get_specialized_manager] with the constructors. *)
Definition get_specialized_manager {dtype} (kv_cache_spec : KVCacheSpec (dtype := dtype)) :
    result SpecializedManager :=
  match kv_cache_spec with
  | FullAttentionSpec a => Ok (FullAttentionManager (block_size a))
  | SlidingWindowSpec a w =>
      n ← cdiv (w - 1) (block_size a); Ok (SlidingWindowManager (block_size a) w n)
  end.

Fixpoint full_find (p : BlockPool) (block_hashes : list BlockHashType) : list nat :=
  match block_hashes with
  | [] => []
  | h :: hs => match get_cached_block p h with
               | Some b => b :: full_find p hs
               | None => []
               end
  end.

(** The loop from right to left; [i] is one more than Python's. *)
Fixpoint sw_find (p : BlockPool) (contiguous : Z) (block_hashes : list BlockHashType)
    (i : nat) (computed_blocks : list nat) (num_contiguous_blocks : nat) : list nat :=
  match i with
  | 0 => take num_contiguous_blocks computed_blocks
  | S i =>
      match block_hashes !! i ≫= get_cached_block p with
      | Some b =>
          let computed_blocks := <[i := b]> computed_blocks in
          let num := S num_contiguous_blocks in
          if (contiguous <=? Z.of_nat num)%Z then take (i + num) computed_blocks
          else sw_find p contiguous block_hashes i computed_blocks num
      | None => sw_find p contiguous block_hashes i computed_blocks 0
      end
  end.

Definition find_longest_cache_hit (m : SpecializedManager) (p : BlockPool)
    (block_hashes : list BlockHashType) : list nat :=
  match m with
  | FullAttentionManager _ => full_find p block_hashes
  | SlidingWindowManager _ _ c =>
      sw_find p c block_hashes (length block_hashes)
        (replicate (length block_hashes) (null_block p)) 0
  end.

(** The loop over the blocks that have left the window, latest first. *)
Fixpoint sw_remove (null : nat) (i : nat) (blocks : list nat) : result (list nat * list nat) :=
  match i with
  | 0 => Ok (blocks, [])
  | S i =>
      b ← of_option IndexError (blocks !! i);
      if b =? null then Ok (blocks, [])
      else '(blocks, removed) ← sw_remove null i (<[i := null]> blocks); Ok (blocks, b :: removed)
  end.

(** The updated list of blocks and the removed ones. *)
Definition remove_skipped_blocks (m : SpecializedManager) (p : BlockPool) (blocks : list nat)
    (num_computed_tokens : Z) : result (list nat * list nat) :=
  match m with
  | FullAttentionManager _ => Ok (blocks, [])
  | SlidingWindowManager bs w _ =>
      let last_useful_token := (num_computed_tokens - w + 1)%Z in
      last_useful_block ← py_floordiv last_useful_token bs;
      sw_remove (null_block p) (Z.to_nat last_useful_block) blocks
  end.

(** ** Lemmas: hits *)

Section Hits.
Context (p : BlockPool) (block_hashes : list BlockHashType).

Definition hit (i : nat) : option nat := block_hashes !! i ≫= get_cached_block p.

(** The prefix of [n] blocks can be reused with a window of [need] blocks. *)
Definition usable (need n : nat) : Prop := forall i, n - need <= i < n -> is_Some (hit i).

Lemma sw_find_ok (contiguous : Z) need i computed num :
  need = Nat.max 1 (Z.to_nat contiguous) -> i + num <= length block_hashes -> num < need ->
  length computed = length block_hashes ->
  (forall j, i <= j < i + num -> is_Some (hit j) /\ computed !! j = hit j) ->
  (forall j, j < i -> computed !! j = Some (null_block p)) ->
  (forall n, i + num < n <= length block_hashes -> ~ usable need n) ->
  let r := sw_find p contiguous block_hashes i computed num in
  let n := length r in
  n <= length block_hashes /\ usable need n /\
  (forall n', n < n' <= length block_hashes -> ~ usable need n') /\
  (forall j, j < n -> r !! j = if decide (n - need <= j) then hit j else Some (null_block p)).
Proof.
  intros Hneed. revert computed num. induction i as [|i IH]; intros computed num Hle Hnum Hlen Hrun Hnull Hmax; cbn [sw_find].
  - cbn zeta. rewrite length_take_le by lia. split; [lia|].
    split; [intros j Hj; apply Hrun; lia|]. split; [intros n' Hn'; apply Hmax; lia|].
    intros j Hj. rewrite decide_True by lia. rewrite lookup_take_lt by lia. apply Hrun. lia.
  - fold (hit i). destruct (hit i) as [b|] eqn:Hi.
    + assert (Hrun' : forall j, i <= j < i + S num ->
        is_Some (hit j) /\ <[i := b]> computed !! j = hit j).
      { intros j Hj. destruct (decide (j = i)) as [->|Hne].
        - rewrite list_lookup_insert_eq by lia. rewrite Hi. by split.
        - rewrite list_lookup_insert_ne by done. apply Hrun. lia. }
      assert (Hnull' : forall j, j < i -> <[i := b]> computed !! j = Some (null_block p)).
      { intros j Hj. rewrite list_lookup_insert_ne by lia. apply Hnull. lia. }
      assert (Hlen' : length (<[i := b]> computed) = length block_hashes) by (by rewrite length_insert).
      destruct (Z.leb_spec contiguous (Z.of_nat (S num))) as [Hc|Hc].
      * assert (S num = need) as En by lia. cbn zeta. rewrite length_take_le by lia.
        split; [lia|]. split; [intros j Hj; apply Hrun'; lia|].
        split; [intros n' Hn'; apply Hmax; lia|].
        intros j Hj. rewrite lookup_take_lt by lia. case_decide; [apply Hrun'; lia|apply Hnull'; lia].
      * apply IH; try done; try lia. intros n Hn. apply Hmax. lia.
    + apply IH; try done; try lia.
      * intros j Hj. apply Hnull. lia.
      * intros n Hn Hu. destruct (decide (n <= S i + num)) as [Hn'|Hn'].
        -- destruct (Hu i) as [b Hb]; [lia|]. congruence.
        -- eapply Hmax; [|exact Hu]. lia.
Qed.

Lemma sliding_window_find_ok bs w c :
  let need := Nat.max 1 (Z.to_nat c) in
  let r := find_longest_cache_hit (SlidingWindowManager bs w c) p block_hashes in
  let n := length r in
  n <= length block_hashes /\ usable need n /\
  (forall n', n < n' <= length block_hashes -> ~ usable need n') /\
  (forall j, j < n -> r !! j = if decide (n - need <= j) then hit j else Some (null_block p)).
Proof.
  cbn zeta. unfold find_longest_cache_hit. apply sw_find_ok; try lia; try done.
  - apply length_replicate.
  - intros j Hj. by apply lookup_replicate_2.
Qed.

Lemma full_find_ok :
  let r := full_find p block_hashes in
  length r <= length block_hashes /\
  (forall j, j < length r -> r !! j = hit j) /\
  (length r < length block_hashes -> hit (length r) = None).
Proof.
  unfold hit. induction block_hashes as [|h hs IH]; cbn; [split_and!; [done|lia|lia]|].
  destruct (get_cached_block p h) as [b|] eqn:E; cbn.
  - destruct IH as (H1 & H2 & H3). split_and!; [lia| |intros H; apply H3; lia].
    intros [|j] Hj; cbn; [by rewrite E|]. apply H2. lia.
  - split_and!; [lia|lia|done].
Qed.

Lemma find_longest_cache_hit_length m : length (find_longest_cache_hit m p block_hashes) <= length block_hashes.
Proof. destruct m as [bs|bs w c]; [apply full_find_ok|apply (sliding_window_find_ok bs w c)]. Qed.

(** Blocks found are the null block or carry the hash of their position. *)
Lemma find_longest_cache_hit_blocks m b j :
  find_longest_cache_hit m p block_hashes !! j = Some b -> b = null_block p \/ hit j = Some b.
Proof.
  intros H. pose proof (lookup_lt_Some _ _ _ H) as Hj. destruct m as [bs|bs w c].
  - right. destruct full_find_ok as (_ & H2 & _). cbn in H, Hj. by rewrite <-H2.
  - destruct (sliding_window_find_ok bs w c) as (_ & _ & _ & H2). cbn zeta in H2.
    specialize (H2 j Hj). rewrite H in H2. case_decide; [by right|]. left. congruence.
Qed.
End Hits.

(** ** Lemmas: removal *)

Lemma sw_remove_nulls null n k rest :
  n <= k -> sw_remove null n (replicate k null ++ rest) = Ok (replicate k null ++ rest, []).
Proof.
  intros Hn. destruct n as [|n]; [done|]. cbn [sw_remove].
  rewrite lookup_app_l, lookup_replicate_2 by (rewrite ?length_replicate; lia). cbn [of_option mbind result_bind].
  by rewrite Nat.eqb_refl.
Qed.

Lemma sw_remove_ok null k mid rest :
  Forall (fun b => b <> null) mid ->
  sw_remove null (k + length mid) (replicate k null ++ mid ++ rest) =
    Ok (replicate (k + length mid) null ++ rest, reverse mid).
Proof.
  intros H. revert rest. induction mid as [|b mid IH] using rev_ind; intros rest.
  { cbn. rewrite Nat.add_0_r. by apply sw_remove_nulls. }
  apply Forall_app in H as [Hmid [Hb _]%Forall_cons].
  rewrite length_app, Nat.add_assoc, Nat.add_1_r. cbn [length sw_remove].
  assert (Hl : (replicate k null ++ (mid ++ [b]) ++ rest) = (replicate k null ++ mid) ++ b :: rest).
  { by rewrite <-!(assoc_L (++)). }
  assert (Hlen : length (replicate k null ++ mid) = k + length mid) by (by rewrite length_app, length_replicate).
  rewrite Hl, <-Hlen at 1. rewrite list_lookup_middle by done. cbn [of_option mbind result_bind].
  rewrite (proj2 (Nat.eqb_neq _ _) Hb). rewrite <-Hlen at 2. rewrite Hl.
  replace (length (replicate k null ++ mid)) with (length (replicate k null ++ mid) + 0) by lia.
  rewrite insert_app_r. cbn [insert list_insert].
  rewrite <-(assoc_L (++)), IH by done. cbn [mbind result_bind]. rewrite reverse_app. cbn. do 2 f_equal.
  change (null :: rest) with ([null] ++ rest). rewrite (assoc_L (++)). by rewrite <-replicate_S_end.
Qed.

Lemma remove_skipped_blocks_eq p bs w c k blocks rest num_computed_tokens :
  (0 < bs)%Z -> blocks = replicate k (null_block p) ++ rest -> Forall (fun b => b <> null_block p) rest ->
  let n := Z.to_nat ((num_computed_tokens - w + 1) / bs) in
  n <= length blocks ->
  remove_skipped_blocks (SlidingWindowManager bs w c) p blocks num_computed_tokens =
    Ok (replicate (Nat.max k n) (null_block p) ++ drop (Nat.max k n) blocks,
        reverse (take (n - k) rest)).
Proof.
  intros Hbs -> Hrest. cbn zeta. unfold remove_skipped_blocks. rewrite py_floordiv_ok by lia. cbn [mbind result_bind].
  set (n := Z.to_nat _). rewrite length_app, length_replicate. intros Hn.
  destruct (decide (n <= k)) as [Hk|Hk].
  - rewrite sw_remove_nulls by done. rewrite Nat.max_l by done. replace (n - k) with 0 by lia.
    rewrite drop_app_ge by (rewrite length_replicate; done). by rewrite length_replicate, Nat.sub_diag, drop_0.
  - rewrite Nat.max_r by lia. rewrite drop_app_ge by (rewrite length_replicate; lia). rewrite length_replicate.
    rewrite <-(take_drop (n - k) rest) at 1.
    assert (Hl : length (take (n - k) rest) = n - k) by (rewrite length_take; lia).
    replace n with (k + length (take (n - k) rest)) at 1 by lia.
    rewrite sw_remove_ok by (by apply Forall_take). rewrite Hl. by replace (k + (n - k)) with n by lia.
Qed.

(** ** Properties *)

(** How many cached blocks in a row the manager needs to reuse a prefix. *)
Definition blocks_needed (m : SpecializedManager) (block_hashes : list BlockHashType) : nat :=
  match m with
  | FullAttentionManager _ => length block_hashes
  | SlidingWindowManager _ _ c => Nat.max 1 (Z.to_nat c)
  end.

(** The longest cache hit.  For full attention it is the longest prefix of the
    request whose blocks are all cached.  For a sliding window of [need] blocks it
    is the longest prefix whose last [need] blocks are cached (or all of them, if
    it is shorter): those blocks are at its end, and everything before is the null
    block. *)
Record longest_hit (m : SpecializedManager) (p : BlockPool) (block_hashes : list BlockHashType) (r : list nat) : Prop := {
  lh_length : length r <= length block_hashes;
  lh_usable : usable p block_hashes (blocks_needed m block_hashes) (length r);
  lh_longest : forall n, length r < n <= length block_hashes -> ~ usable p block_hashes (blocks_needed m block_hashes) n;
  lh_blocks : forall j, j < length r ->
    r !! j = if decide (length r - blocks_needed m block_hashes <= j) then hit p block_hashes j else Some (null_block p);
}.

(** The early return and the reset of the counter lose no longer hit. *)
Lemma find_longest_hit p block_hashes m : longest_hit m p block_hashes (find_longest_cache_hit m p block_hashes).
Proof.
  destruct m as [bs|bs w c].
  - destruct (full_find_ok p block_hashes) as (H1 & H2 & H3). split; cbn [blocks_needed find_longest_cache_hit] in *.
    + done.
    + intros i Hi. rewrite <-H2 by lia. apply lookup_lt_is_Some_2. lia.
    + intros n Hn Hu. destruct (Hu (length (full_find p block_hashes))) as [b Hb]; [lia|]. rewrite H3 in Hb; [done|lia].
    + intros j Hj. rewrite decide_True by lia. by apply H2.
  - by destruct (sliding_window_find_ok p block_hashes bs w c) as (H1 & H2 & H3 & H4).
Qed.

(** Blocks that leave the sliding window.  If the request's blocks start with
    [k] null blocks and have none after, the call replaces exactly the blocks
    before the last useful one by the null block and returns those that were
    not null yet, latest first; it raises nothing as long as the computed tokens
    lie in the request's blocks. *)
Theorem remove_skipped_blocks_correct p bs w c k blocks rest num_computed_tokens :
  (0 < bs)%Z -> blocks = replicate k (null_block p) ++ rest -> Forall (fun b => b <> null_block p) rest ->
  let n := Z.to_nat ((num_computed_tokens - w + 1) / bs) in
  n <= length blocks ->
  remove_skipped_blocks (SlidingWindowManager bs w c) p blocks num_computed_tokens =
    Ok (replicate (Nat.max k n) (null_block p) ++ drop (Nat.max k n) blocks,
        reverse (take (n - k) rest)).
Proof. apply remove_skipped_blocks_eq. Qed.

Lemma remove_skipped_blocks_correct_witness :
  remove_skipped_blocks (SlidingWindowManager 2 4 2) demo_pool [0; 5; 6; 7; 8] 9 = Ok ([0; 0; 0; 7; 8], [6; 5]).
Proof.
  apply (remove_skipped_blocks_correct demo_pool 2 4 2 1 [0; 5; 6; 7; 8] [5; 6; 7; 8] 9).
  - lia.
  - reflexivity.
  - repeat constructor; vm_compute; discriminate.
  - vm_compute. lia.
Defined.
