(* ===== verification/KVCacheManager.v ===== *)
(** * The KV-cache manager

    [KVCacheManager] of [vllm/v1/core/kv_cache_manager.py]: which blocks each
    request holds, the prefix-cache lookup for a new request, and the allocation
    of slots for the tokens of a step.  The Python lists held in
    [req_to_blocks] and [req_to_block_hashes] are updated in place by the
    methods; here the updated list is stored back under the request's id.  The
    block size is positive in every configuration, and a [nat] here. *)

From S2P Require Import Prelude KVCacheConfig PrefixMetrics FreeBlockQueue.
From S2P Require Import Request BlockHash BlockPool SpecializedManager.

Record KVCacheManager := {
  block_size : nat;
  max_num_blocks_per_req : Z;
  mgr_caching : bool;
  use_eagle : bool;
  log_stats : bool;
  prefix_cache_stats : option PrefixCacheStats;
  block_pool : BlockPool;
  specialized_manager : SpecializedManager;
  req_to_blocks : gmap string (list nat);
  req_to_block_hashes : gmap string (list BlockHashType);
  num_cached_block : gmap string Z;
}.

Definition set_stats (s : option PrefixCacheStats) (m : KVCacheManager) : KVCacheManager :=
  {| block_size := block_size m; max_num_blocks_per_req := max_num_blocks_per_req m;
     mgr_caching := mgr_caching m; use_eagle := use_eagle m; log_stats := log_stats m;
     prefix_cache_stats := s; block_pool := block_pool m; specialized_manager := specialized_manager m;
     req_to_blocks := req_to_blocks m; req_to_block_hashes := req_to_block_hashes m;
     num_cached_block := num_cached_block m |}.

Definition set_pool (p : BlockPool) (m : KVCacheManager) : KVCacheManager :=
  {| block_size := block_size m; max_num_blocks_per_req := max_num_blocks_per_req m;
     mgr_caching := mgr_caching m; use_eagle := use_eagle m; log_stats := log_stats m;
     prefix_cache_stats := prefix_cache_stats m; block_pool := p; specialized_manager := specialized_manager m;
     req_to_blocks := req_to_blocks m; req_to_block_hashes := req_to_block_hashes m;
     num_cached_block := num_cached_block m |}.

Definition set_req_blocks (b : gmap string (list nat)) (m : KVCacheManager) : KVCacheManager :=
  {| block_size := block_size m; max_num_blocks_per_req := max_num_blocks_per_req m;
     mgr_caching := mgr_caching m; use_eagle := use_eagle m; log_stats := log_stats m;
     prefix_cache_stats := prefix_cache_stats m; block_pool := block_pool m;
     specialized_manager := specialized_manager m; req_to_blocks := b;
     req_to_block_hashes := req_to_block_hashes m; num_cached_block := num_cached_block m |}.

Definition set_req_hashes (h : gmap string (list BlockHashType)) (m : KVCacheManager) : KVCacheManager :=
  {| block_size := block_size m; max_num_blocks_per_req := max_num_blocks_per_req m;
     mgr_caching := mgr_caching m; use_eagle := use_eagle m; log_stats := log_stats m;
     prefix_cache_stats := prefix_cache_stats m; block_pool := block_pool m;
     specialized_manager := specialized_manager m; req_to_blocks := req_to_blocks m;
     req_to_block_hashes := h; num_cached_block := num_cached_block m |}.

Definition set_num_cached (c : gmap string Z) (m : KVCacheManager) : KVCacheManager :=
  {| block_size := block_size m; max_num_blocks_per_req := max_num_blocks_per_req m;
     mgr_caching := mgr_caching m; use_eagle := use_eagle m; log_stats := log_stats m;
     prefix_cache_stats := prefix_cache_stats m; block_pool := block_pool m;
     specialized_manager := specialized_manager m; req_to_blocks := req_to_blocks m;
     req_to_block_hashes := req_to_block_hashes m; num_cached_block := c |}.

(** [KVCacheManager.__init__] *)
Definition manager_init {dtype} (c : KVCacheConfig (dtype := dtype)) (max_model_len : Z)
    (enable_caching use_eagle log_stats : bool) : result KVCacheManager :=
  match kv_cache_groups c with
  | [group] =>
      let spec := kv_cache_spec group in
      let bs := KVCacheConfig.block_size (attention spec) in
      max_blocks ← cdiv max_model_len bs;
      pool ← pool_init (num_blocks c) enable_caching;
      manager ← get_specialized_manager spec;
      Ok {| block_size := Z.to_nat bs; max_num_blocks_per_req := max_blocks;
            mgr_caching := enable_caching; use_eagle := use_eagle; log_stats := log_stats;
            prefix_cache_stats := if log_stats then Some new_stats else None;
            block_pool := pool; specialized_manager := manager; req_to_blocks := ∅;
            req_to_block_hashes := ∅; num_cached_block := ∅ |}
  | _ => Err AssertionError
  end.

Definition make_prefix_cache_stats (m : KVCacheManager) : KVCacheManager * option PrefixCacheStats :=
  if log_stats m then (set_stats (Some new_stats) m, prefix_cache_stats m) else (m, None).

(** [assert self.prefix_cache_stats is not None], then an update of its fields. *)
Definition with_stats (f : PrefixCacheStats -> PrefixCacheStats) (m : KVCacheManager) : result KVCacheManager :=
  if log_stats m then
    s ← of_option AssertionError (prefix_cache_stats m); Ok (set_stats (Some (f s)) m)
  else Ok m.

Section Manager.
Context (hash_fn : hash_input -> Z) (NONE_HASH : Z).

Definition request_hashes (m : KVCacheManager) (r : Request) : list BlockHashType :=
  default [] (req_to_block_hashes m !! request_id r).

(** The hashes the lookup uses: without the last one when the blocks would
  cover the whole prompt. *)
Definition lookup_hashes (m : KVCacheManager) (r : Request) (hashes : list BlockHashType) :
    result (list BlockHashType) :=
  if (Z.of_nat (length hashes) * Z.of_nat (block_size m) =? num_tokens r)%Z
  then _ ← of_option IndexError (last hashes); Ok (removelast hashes)
  else Ok hashes.

Definition get_computed_blocks (m : KVCacheManager) (r : Request) :
    result (KVCacheManager * (list nat * Z)) :=
  if negb (mgr_caching m) then Ok (m, ([], 0%Z))
  else
    hashes ←
      (match request_hashes m r with
       | [] => hash_request_tokens hash_fn NONE_HASH (block_size m) r
       | hs => Ok hs
       end);
    let m := set_req_hashes (<[request_id r := hashes]> (req_to_block_hashes m)) m in
    m ← with_stats (fun s => {| reset := reset s; requests := requests s + 1; queries := queries s; hits := hits s |}) m;
    if bool_decide (is_Some (prompt_logprobs (sampling_params r))) then Ok (m, ([], 0%Z))
    else
      looked_up ← lookup_hashes m r hashes;
      let found := find_longest_cache_hit (specialized_manager m) (block_pool m) looked_up in
      let computed_blocks := if use_eagle m then removelast found else found in
      m ← with_stats (fun s =>
            {| reset := reset s; requests := requests s;
               queries := queries s + Z.of_nat (length looked_up);
               hits := hits s + Z.of_nat (length computed_blocks) |}) m;
      Ok (m, (computed_blocks, (Z.of_nat (length computed_blocks) * Z.of_nat (block_size m))%Z)).

(** [sum(1 for blk in new_computed_blocks if blk.ref_cnt == 0)] *)
Definition num_evictable (p : BlockPool) (bs : list nat) : Z :=
  Z.of_nat (length (filter (fun b => ref_cnt (blk p b) = 0%Z) bs)).

(** The end of [allocate_slots]: the full blocks go into the prefix cache. *)
Definition commit_full_blocks (m : KVCacheManager) (r : Request) (num_computed_tokens num_tokens : Z)
    (new_computed_blocks req_blocks : list nat) : result KVCacheManager :=
  let id := request_id r in
  let num_cached_blocks := default (Z.of_nat (length new_computed_blocks)) (num_cached_block m !! id) in
  num_full_blocks ←
    py_floordiv (num_computed_tokens + num_tokens - Z.of_nat (length (spec_token_ids r))) (Z.of_nat (block_size m));
  '(p, hashes) ← cache_full_blocks hash_fn NONE_HASH (block_pool m) r req_blocks (request_hashes m r)
                   num_cached_blocks num_full_blocks (Z.of_nat (block_size m));
  let m := set_req_hashes (<[id := hashes]> (req_to_block_hashes m)) (set_pool p m) in
  Ok (set_num_cached (<[id := num_full_blocks]> (num_cached_block m)) m).

(** [new_computed_blocks or []] makes [None] and the empty list the same. *)
Definition allocate_slots (m : KVCacheManager) (r : Request) (num_tokens : Z)
    (new_computed_blocks : list nat) (num_lookahead_tokens : Z) :
    result (KVCacheManager * option (list nat)) :=
  if (num_tokens =? 0)%Z then Err ValueError
  else
    let id := request_id r in
    let bs := Z.of_nat (block_size m) in
    '(req_blocks, removed_blocks) ←
      remove_skipped_blocks (specialized_manager m) (block_pool m)
        (default [] (req_to_blocks m !! id)) (num_computed_tokens r);
    p ← free_blocks (block_pool m) removed_blocks;
    let m := set_pool p (set_req_blocks (<[id := req_blocks]> (req_to_blocks m)) m) in
    let num_computed_tokens := (num_computed_tokens r + Z.of_nat (length new_computed_blocks) * bs)%Z in
    num_required_blocks ← cdiv (num_computed_tokens + num_tokens + num_lookahead_tokens) bs;
    let num_new_blocks :=
      (num_required_blocks - Z.of_nat (length req_blocks) - Z.of_nat (length new_computed_blocks))%Z in
    if (get_num_free_blocks p - num_evictable p new_computed_blocks <? num_new_blocks)%Z then Ok (m, None)
    else
      p ← (if mgr_caching m then Ok (touch p new_computed_blocks)
           else _ ← py_assert (bool_decide (new_computed_blocks = [])); Ok p);
      let req_blocks := req_blocks ++ new_computed_blocks in
      '(p, new_blocks) ←
        (if (num_new_blocks <=? 0)%Z then Ok (p, [])
         else
           let n := Z.min num_new_blocks
             (Z.min (get_num_free_blocks p) (max_num_blocks_per_req m - Z.of_nat (length req_blocks))) in
           _ ← py_assert (0 <? n)%Z;
           get_new_blocks p n);
      let req_blocks := req_blocks ++ new_blocks in
      let m := set_pool p (set_req_blocks (<[id := req_blocks]> (req_to_blocks m)) m) in
      if negb (mgr_caching m) then Ok (m, Some new_blocks)
      else
        m ← commit_full_blocks m r num_computed_tokens num_tokens new_computed_blocks req_blocks;
        Ok (m, Some new_blocks).

End Manager.

Definition free (m : KVCacheManager) (r : Request) : result KVCacheManager :=
  let id := request_id r in
  let blocks := default [] (req_to_blocks m !! id) in
  let ordered_blocks := if mgr_caching m then reverse blocks else blocks in
  p ← free_blocks (block_pool m) ordered_blocks;
  Ok (set_num_cached (delete id (num_cached_block m))
       (set_req_blocks (delete id (req_to_blocks m)) (set_pool p m))).

Definition manager_reset_prefix_cache (m : KVCacheManager) : result (KVCacheManager * bool) :=
  let '(p, ok) := reset_prefix_cache (block_pool m) in
  if ok : bool then
    m ← with_stats (fun s => {| reset := true; requests := requests s; queries := queries s; hits := hits s |})
          (set_pool p m);
    Ok (m, true)
  else Ok (m, false).

(** The leading blocks that all running requests share. *)
Fixpoint common_prefix (p : BlockPool) (num_running_requests : Z) (blocks : list nat) : nat :=
  match blocks with
  | [] => 0
  | b :: bs => if (ref_cnt (blk p b) =? num_running_requests)%Z then S (common_prefix p num_running_requests bs) else 0
  end.

(** The access to the [defaultdict] leaves an entry. *)
Definition get_num_common_prefix_blocks (m : KVCacheManager) (r : Request) (num_running_requests : Z) :
    result (KVCacheManager * nat) :=
  _ ← py_assert (bool_decide (status r = RUNNING));
  let blocks := default [] (req_to_blocks m !! request_id r) in
  Ok (set_req_blocks (<[request_id r := blocks]> (req_to_blocks m)) m,
      common_prefix (block_pool m) num_running_requests blocks).

Definition free_block_hashes (m : KVCacheManager) (r : Request) : KVCacheManager :=
  set_req_hashes (delete (request_id r) (req_to_block_hashes m)) m.

(** ** Who holds a block *)

Definition holders (m : gmap string (list nat)) (i : nat) : nat :=
  map_fold (fun _ bs acc => count i bs + acc) 0 m.

Lemma holders_delete m id i :
  holders m i = count i (default [] (m !! id)) + holders (delete id m) i.
Proof.
  destruct (m !! id) as [bs|] eqn:E; cbn; [|by rewrite delete_id].
  unfold holders. rewrite (map_fold_delete_L _ _ id bs m); [done| |done]. intros. lia.
Qed.

Lemma holders_insert m id bs i :
  holders (<[id := bs]> m) i = count i bs + holders (delete id m) i.
Proof. rewrite (holders_delete _ id), lookup_insert_eq, delete_insert_eq. done. Qed.

Lemma holders_lookup m id i : count i (default [] (m !! id)) <= holders m i.
Proof. rewrite (holders_delete m id). lia. Qed.

Lemma holders_other m id id' i :
  id <> id' -> count i (default [] (m !! id')) <= holders (delete id m) i.
Proof. intros Hne. rewrite (holders_delete (delete id m) id'), lookup_delete_ne by done. lia. Qed.

(** ** The manager's invariant *)

(** A request's blocks: null blocks that left the window, then distinct blocks. *)
Definition shape (p : BlockPool) (bs : list nat) : Prop :=
  exists k rest, bs = replicate k (null_block p) ++ rest /\ NoDup rest /\
    Forall (fun b => b < num_gpu_blocks p /\ b <> null_block p) rest.

(** The first [c] blocks carry the hashes of the request, the others none. *)
Record req_cached (p : BlockPool) (bs : list nat) (hs : list BlockHashType) (c : nat) : Prop := {
  rc_len : c <= length bs;
  rc_hs : c <= length hs;
  rc_null : forall j, pred c <= j -> bs !! j <> Some (null_block p);
  rc_old : forall j b, j < c -> bs !! j = Some b -> b <> null_block p -> block_hash (blk p b) = hs !! j;
  rc_new : forall j b, c <= j -> bs !! j = Some b -> block_hash (blk p b) = None;
}.

Definition blocks_of (m : KVCacheManager) (id : string) : list nat := default [] (req_to_blocks m !! id).
Definition hashes_of (m : KVCacheManager) (id : string) : list BlockHashType := default [] (req_to_block_hashes m !! id).

Definition cached_state (m : KVCacheManager) (id : string) (bs : list nat) : Prop :=
  (bs = [] -> num_cached_block m !! id = None) /\
  (bs <> [] -> exists c : nat, num_cached_block m !! id = Some (Z.of_nat c) /\
     req_cached (block_pool m) bs (hashes_of m id) c).

Record kv_ok (m : KVCacheManager) (l : list nat) : Prop := {
  kv_pool : pool_ok (block_pool m) l;
  kv_caching : enable_caching (block_pool m) = mgr_caching m;
  kv_size : 0 < block_size m /\ manager_block_size (specialized_manager m) = Z.of_nat (block_size m);
  kv_shape : forall id, shape (block_pool m) (blocks_of m id);
  kv_ref : forall i, i < num_gpu_blocks (block_pool m) -> i <> null_block (block_pool m) ->
    ref_cnt (blk (block_pool m) i) = Z.of_nat (holders (req_to_blocks m) i);
  kv_excl : mgr_caching m = true -> forall i, i < num_gpu_blocks (block_pool m) -> i <> null_block (block_pool m) ->
    block_hash (blk (block_pool m) i) = None -> (ref_cnt (blk (block_pool m) i) <= 1)%Z;
  kv_cached : mgr_caching m = true -> forall id, cached_state m id (blocks_of m id);
}.

Lemma count_nodup i bs : NoDup bs -> count i bs = if decide (i ∈ bs) then 1 else 0.
Proof.
  intros Hnd. case_decide as E; [|by apply count_not_in].
  apply list_elem_of_split in E as (l1 & l2 & ->). rewrite <-Permutation_middle in Hnd.
  apply NoDup_cons in Hnd as [Hni _]. rewrite count_app, count_cons, decide_True by done.
  rewrite !count_not_in by set_solver. done.
Qed.

Lemma count_replicate i k b : i <> b -> count i (replicate k b) = 0.
Proof. intros H. apply count_not_in. intros [-> _]%elem_of_replicate. done. Qed.

Lemma shape_in_range p bs b : shape p bs -> b ∈ bs -> b <> null_block p -> b < num_gpu_blocks p.
Proof.
  intros (k & rest & -> & _ & Hr) Hb Hn. apply elem_of_app in Hb as [Hb|Hb].
  - apply elem_of_replicate in Hb as [-> _]. done.
  - by apply (proj1 (Forall_forall _ _) Hr).
Qed.

(** A held block is not free. *)
Lemma held_not_free m l id b :
  kv_ok m l -> b ∈ blocks_of m id -> b <> null_block (block_pool m) ->
  b < num_gpu_blocks (block_pool m) /\ (1 <= ref_cnt (blk (block_pool m) b))%Z /\ b ∉ l.
Proof.
  intros H Hb Hn. assert (Hlt : b < num_gpu_blocks (block_pool m)).
  { eapply shape_in_range; [by apply (kv_shape _ _ H id)|done|done]. }
  assert (Hr : (1 <= ref_cnt (blk (block_pool m) b))%Z).
  { rewrite (kv_ref _ _ H b Hlt Hn). pose proof (holders_lookup (req_to_blocks m) id b) as Hh.
    fold (blocks_of m id) in Hh. pose proof (count_in b _ Hb). lia. }
  split_and!; [done|done|]. intros Hl. apply (po_free _ _ (kv_pool _ _ H) b Hlt Hn) in Hl. lia.
Qed.

(** How one request's part of the state may change. *)
Record kv_update (m m' : KVCacheManager) (l' : list nat) (id : string) (bs : list nat) : Prop := {
  ku_pool : pool_ok (block_pool m') l';
  ku_consts : enable_caching (block_pool m') = enable_caching (block_pool m) /\
    num_gpu_blocks (block_pool m') = num_gpu_blocks (block_pool m) /\
    null_block (block_pool m') = null_block (block_pool m) /\ mgr_caching m' = mgr_caching m /\
    block_size m' = block_size m /\ specialized_manager m' = specialized_manager m;
  ku_req : blocks_of m' id = bs /\ delete id (req_to_blocks m') = delete id (req_to_blocks m);
  ku_hashes : forall id', id' <> id -> hashes_of m' id' = hashes_of m id';
  ku_num : forall id', id' <> id -> num_cached_block m' !! id' = num_cached_block m !! id';
  ku_shape : shape (block_pool m) bs;
  ku_ref : forall i, i < num_gpu_blocks (block_pool m) -> i <> null_block (block_pool m) ->
    (ref_cnt (blk (block_pool m') i) + Z.of_nat (count i (blocks_of m id)) =
     ref_cnt (blk (block_pool m) i) + Z.of_nat (count i bs))%Z;
  ku_hash : mgr_caching m = true -> forall i, i < num_gpu_blocks (block_pool m) -> i <> null_block (block_pool m) ->
    0 < holders (delete id (req_to_blocks m)) i -> block_hash (blk (block_pool m') i) = block_hash (blk (block_pool m) i);
  ku_excl : mgr_caching m = true -> forall i, i < num_gpu_blocks (block_pool m) -> i <> null_block (block_pool m) ->
    block_hash (blk (block_pool m') i) = None -> (ref_cnt (blk (block_pool m') i) <= 1)%Z;
  ku_cached : mgr_caching m = true -> cached_state m' id bs;
}.

Lemma req_cached_frame p p' bs hs c :
  null_block p' = null_block p ->
  (forall b, b ∈ bs -> b <> null_block p -> block_hash (blk p' b) = block_hash (blk p b)) ->
  req_cached p bs hs c -> req_cached p' bs hs c.
Proof.
  intros Hn Hh [H1 H2 H3 H4 H5]. constructor; rewrite ?Hn; try done.
  - intros j b Hj Hb Hne. rewrite Hh; [by apply H4|by apply list_elem_of_lookup_2 in Hb|done].
  - intros j b Hj Hb. rewrite Hh; [by eapply H5|by apply list_elem_of_lookup_2 in Hb|].
    intros ->. apply (H3 j); [lia|done].
Qed.

Lemma kv_update_ok m m' l l' id bs : kv_ok m l -> kv_update m m' l' id bs -> kv_ok m' l'.
Proof.
  intros H U. destruct (ku_consts _ _ _ _ _ U) as (He & Hn & Hu & Hc & Hb & Hs).
  destruct (ku_req _ _ _ _ _ U) as [Hid Hdel].
  assert (Hother : forall id', id' <> id -> blocks_of m' id' = blocks_of m id').
  { intros id' Hne. unfold blocks_of. f_equal.
    rewrite <-(lookup_delete_ne (req_to_blocks m') id id'), Hdel by done. by rewrite lookup_delete_ne. }
  assert (Hshape : forall bs', shape (block_pool m) bs' -> shape (block_pool m') bs').
  { intros bs' Hsh. unfold shape. by rewrite Hu, Hn. }
  constructor.
  - exact (ku_pool _ _ _ _ _ U).
  - rewrite He, Hc. apply H.
  - rewrite Hb, Hs. apply H.
  - intros id'. apply Hshape. destruct (decide (id' = id)) as [->|Hne].
    + rewrite Hid. exact (ku_shape _ _ _ _ _ U).
    + rewrite Hother by done. apply H.
  - rewrite Hn, Hu. intros i Hi Hin. pose proof (ku_ref _ _ _ _ _ U i Hi Hin) as Hr.
    rewrite (kv_ref _ _ H i Hi Hin) in Hr. rewrite (holders_delete _ id) in Hr.
    rewrite (holders_delete (req_to_blocks m') id), Hdel. fold (blocks_of m' id) (blocks_of m id) in *.
    rewrite Hid. lia.
  - rewrite Hn, Hu, Hc. apply (ku_excl _ _ _ _ _ U).
  - rewrite Hc. intros Hcache id'. destruct (decide (id' = id)) as [->|Hne].
    + rewrite Hid. by apply (ku_cached _ _ _ _ _ U).
    + unfold cached_state. rewrite Hother, (ku_num _ _ _ _ _ U), (ku_hashes _ _ _ _ _ U) by done.
      destruct (kv_cached _ _ H Hcache id') as [Hk0 Hk]. split; [done|]. intros Hne0.
      destruct (Hk Hne0) as (c & Hnc & Hkc). exists c. split; [done|].
      eapply req_cached_frame; [done| |exact Hkc]. intros b Hin Hbn.
      destruct (held_not_free m l id' b H Hin Hbn) as (Hlt & _ & _).
      apply (ku_hash _ _ _ _ _ U Hcache); [done|done|].
      eapply Nat.lt_le_trans; [|apply (holders_other _ id id'); done]. by apply count_in.
Qed.

Lemma shape_range p l bs : pool_ok p l -> shape p bs -> Forall (fun b => b < num_gpu_blocks p) bs.
Proof.
  intros H Hs. apply Forall_forall. intros b Hb. destruct (decide (b = null_block p)) as [->|Hn].
  - by apply (po_null _ _ H).
  - by eapply shape_in_range.
Qed.

Lemma shape_filter p k rest :
  Forall (fun b => b < num_gpu_blocks p /\ b <> null_block p) rest ->
  filter (fun b => b <> null_block p) (replicate k (null_block p) ++ rest) = rest.
Proof.
  intros Hr. rewrite filter_app. assert (filter (fun b => b <> null_block p) (replicate k (null_block p)) = []) as ->.
  { induction k as [|k IH]; [done|]. cbn [replicate]. rewrite filter_cons_False; [done|]. by intros E. }
  apply list_filter_all. intros b Hb. by apply (proj1 (Forall_forall _ _) Hr).
Qed.

Lemma shape_nodup p bs : shape p bs -> NoDup (filter (fun b => b <> null_block p) bs).
Proof. intros (k & rest & -> & Hnd & Hr). by rewrite shape_filter. Qed.

Lemma shape_nil p : shape p [].
Proof. exists 0, []. split_and!; [done|constructor|constructor]. Qed.

Lemma delete_insert_same (m : gmap string (list nat)) id bs : delete id (<[id := bs]> m) = delete id m.
Proof. apply delete_insert_eq. Qed.

(** [free] hands back all blocks of the request. *)
Lemma free_ok m l r :
  kv_ok m l ->
  exists m', free m r = Ok m' /\
    kv_ok m' (l ++ released (block_pool m) (if mgr_caching m then reverse (blocks_of m (request_id r)) else blocks_of m (request_id r))) /\
    blocks_of m' (request_id r) = [] /\
    delete (request_id r) (req_to_blocks m') = delete (request_id r) (req_to_blocks m) /\
    req_to_block_hashes m' = req_to_block_hashes m /\
    num_cached_block m' = delete (request_id r) (num_cached_block m).
Proof.
  intros H. set (id := request_id r). set (bs := blocks_of m id).
  set (ordered := if mgr_caching m then reverse bs else bs).
  assert (Hp : ordered ≡ₚ bs) by (unfold ordered; destruct (mgr_caching m); [apply reverse_Permutation|done]).
  pose proof (kv_pool _ _ H) as Hpool. pose proof (kv_shape _ _ H id) as Hsh. fold bs in Hsh.
  destruct (free_blocks_ok (block_pool m) l ordered Hpool) as (p' & Hfree & Hs & Hok).
  - rewrite Hp. by eapply shape_range.
  - rewrite Hp. by apply shape_nodup.
  - rewrite Hp. apply Forall_forall. intros b Hb Hn. by destruct (held_not_free m l id b H Hb Hn) as (_ & ? & _).
  - unfold free. fold id. change (default [] (req_to_blocks m !! id)) with bs. fold ordered. rewrite Hfree.
    cbn [mbind result_bind]. eexists. split; [reflexivity|].
    assert (Hd : delete id (delete id (req_to_blocks m)) = delete id (req_to_blocks m)).
    { apply delete_id, lookup_delete_eq. }
    split; [|split_and!; [unfold blocks_of; cbn; by rewrite lookup_delete_eq|exact Hd|done|done]].
    apply (kv_update_ok m _ l _ id []); [done|]. constructor; cbn.
    + exact Hok.
    + split_and!; try done; [exact (sh_caching _ _ _ Hs)|exact (sh_num _ _ _ Hs)|exact (sh_null _ _ _ Hs)].
    + split; [|exact Hd]. unfold blocks_of; cbn. by rewrite lookup_delete_eq.
    + done.
    + intros id' Hne. by rewrite lookup_delete_ne.
    + apply shape_nil.
    + intros i Hi Hin. rewrite (sh_ref _ _ _ _ Hs Hi), (count_perm i _ _ Hp). fold bs. cbn. lia.
    + intros _ i Hi _ _. by apply (sh_hash _ _ _ _ Hs).
    + intros Hc i Hi Hin. rewrite (sh_hash _ _ _ _ Hs Hi), (sh_ref _ _ _ _ Hs Hi). intros Hh.
      pose proof (kv_excl _ _ H Hc i Hi Hin Hh). lia.
    + intros _. split; [|done]. intros _. cbn. by rewrite lookup_delete_eq.
Qed.

(** ** Blocks leaving the window *)

(** The window condition: enough of the last computed tokens are inside the
    cached blocks, and the computed tokens inside the request's blocks. *)
Definition window_ok (m : KVCacheManager) (r : Request) : Prop :=
  match specialized_manager m with
  | FullAttentionManager _ => True
  | SlidingWindowManager bs w _ =>
      let n := Z.to_nat ((num_computed_tokens r - w + 1) / bs) in
      n <= length (blocks_of m (request_id r)) /\
      (mgr_caching m = true -> forall c : nat, num_cached_block m !! request_id r = Some (Z.of_nat c) -> n <= pred c)
  end.

Lemma shape_skip p k n rest :
  Forall (fun b => b < num_gpu_blocks p /\ b <> null_block p) rest -> NoDup rest ->
  shape p (replicate (Nat.max k n) (null_block p) ++ drop (Nat.max k n) (replicate k (null_block p) ++ rest)).
Proof.
  intros Hr Hnd. exists (Nat.max k n), (drop (Nat.max k n - k) rest). split_and!.
  - rewrite drop_app_ge by (rewrite length_replicate; lia). by rewrite length_replicate.
  - rewrite <-(take_drop (Nat.max k n - k) rest) in Hnd. by apply NoDup_app in Hnd as (_ & _ & ?).
  - by apply Forall_drop.
Qed.

Lemma skip_ok m l r :
  kv_ok m l -> window_ok m r ->
  exists req_blocks removed p,
    remove_skipped_blocks (specialized_manager m) (block_pool m) (blocks_of m (request_id r)) (num_computed_tokens r) =
      Ok (req_blocks, removed) /\ free_blocks (block_pool m) removed = Ok p /\
    let m1 := set_pool p (set_req_blocks (<[request_id r := req_blocks]> (req_to_blocks m)) m) in
    kv_ok m1 (l ++ released (block_pool m) removed) /\ length req_blocks = length (blocks_of m (request_id r)) /\
    shifted (block_pool m) p (fun i => - Z.of_nat (count i removed))%Z /\
    (forall j b, req_blocks !! j = Some b -> b <> null_block (block_pool m) -> blocks_of m (request_id r) !! j = Some b).
Proof.
  intros H Hw. set (id := request_id r) in *. pose proof (kv_pool _ _ H) as Hpool.
  assert (Hnull : forall req_blocks removed, req_blocks = blocks_of m id -> removed = [] ->
    exists p, free_blocks (block_pool m) removed = Ok p /\
    let m1 := set_pool p (set_req_blocks (<[id := req_blocks]> (req_to_blocks m)) m) in
    kv_ok m1 (l ++ released (block_pool m) removed) /\ length req_blocks = length (blocks_of m id) /\
    shifted (block_pool m) p (fun i => - Z.of_nat (count i removed))%Z /\
    (forall j b, req_blocks !! j = Some b -> b <> null_block (block_pool m) -> blocks_of m id !! j = Some b)).
  { intros ? ? -> ->. exists (block_pool m). split; [done|]. cbn. rewrite app_nil_r.
    split; [|split; [done|split; [by apply shifted_refl|done]]].
    apply (kv_update_ok m _ l _ id (blocks_of m id)); [done|]. constructor; cbn; try done.
    - split; [unfold blocks_of; cbn; by rewrite lookup_insert_eq|apply delete_insert_eq].
    - apply H.
    - intros Hc. apply (kv_excl _ _ H Hc).
    - intros Hc. exact (kv_cached _ _ H Hc id). }
  destruct (specialized_manager m) as [sbs|sbs w c] eqn:Em.
  { destruct (Hnull _ _ eq_refl eq_refl) as (p & Hp). exists (blocks_of m id), [], p. done. }
  unfold window_ok in Hw. rewrite Em in Hw. fold id in Hw. destruct Hw as [Hn Hwc].
  pose proof (kv_size _ _ H) as [Hbs Hsz]. rewrite Em in Hsz. cbn in Hsz.
  pose proof (kv_shape _ _ H id) as Hsh. destruct Hsh as (k & rest & Ebs & Hnd & Hr).
  set (n := Z.to_nat ((num_computed_tokens r - w + 1) / sbs)) in *.
  pose proof (remove_skipped_blocks_eq (block_pool m) sbs w c k (blocks_of m id) rest (num_computed_tokens r)
    ltac:(lia) Ebs ltac:(eapply Forall_impl; [exact Hr|]; cbn; tauto) Hn) as Hrem. fold n in Hrem.
  set (req' := replicate (Nat.max k n) (null_block (block_pool m)) ++ drop (Nat.max k n) (blocks_of m id)) in *.
  set (removed := reverse (take (n - k) rest)) in *.
  assert (Hin : forall b, b ∈ removed -> b ∈ blocks_of m id /\ b <> null_block (block_pool m)).
  { intros b Hb. unfold removed in Hb. rewrite elem_of_reverse in Hb.
    assert (b ∈ rest) by (rewrite <-(take_drop (n - k) rest); set_solver).
    split; [rewrite Ebs; set_solver|by apply (proj1 (Forall_forall _ _) Hr)]. }
  assert (Hrnd : NoDup removed).
  { unfold removed. rewrite reverse_Permutation. rewrite <-(take_drop (n - k) rest) in Hnd. by apply NoDup_app in Hnd as (? & _). }
  destruct (free_blocks_ok (block_pool m) l removed Hpool) as (p' & Hfree & Hs & Hok).
  - apply Forall_forall. intros b Hb. destruct (Hin b Hb) as [Hb1 Hb2]. by destruct (held_not_free m l id b H Hb1 Hb2).
  - by apply NoDup_filter.
  - apply Forall_forall. intros b Hb Hbn. destruct (Hin b Hb) as [Hb1 _]. by destruct (held_not_free m l id b H Hb1 Hbn) as (_ & ? & _).
  - exists req', removed, p'. split; [done|]. split; [done|]. cbn zeta.
    assert (Hlen : length req' = length (blocks_of m id)).
    { unfold req'. rewrite length_app, length_replicate, length_drop.
      assert (k <= length (blocks_of m id)) by (rewrite Ebs, length_app, length_replicate; lia). lia. }
    assert (Hkeep : forall j b, req' !! j = Some b -> b <> null_block (block_pool m) ->
      Nat.max k n <= j /\ blocks_of m id !! j = Some b).
    { intros j b Hj Hbn. unfold req' in Hj. destruct (decide (j < Nat.max k n)) as [Hlt|Hge].
      - rewrite lookup_app_l, lookup_replicate_2 in Hj by (rewrite ?length_replicate; done). congruence.
      - split; [lia|]. rewrite lookup_app_r, length_replicate, lookup_drop in Hj by (rewrite length_replicate; lia).
        by replace (Nat.max k n + (j - Nat.max k n)) with j in Hj by lia. }
    assert (Hcount : forall i, i <> null_block (block_pool m) ->
      count i (blocks_of m id) = count i req' + count i removed).
    { intros i Hi. unfold req', removed. rewrite Ebs, !count_app, !count_replicate, (count_perm i _ _ (reverse_Permutation _)) by done.
      rewrite drop_app_ge by (rewrite length_replicate; lia). rewrite length_replicate.
      rewrite <-(take_drop (n - k) rest) at 1. rewrite count_app. replace (Nat.max k n - k) with (n - k) by lia. lia. }
    split; [|split; [done|split; [done|intros j b Hj Hbn; by apply Hkeep]]].
    apply (kv_update_ok m _ l _ id req'); [done|]. constructor; cbn.
    + exact Hok.
    + split_and!; try done; [exact (sh_caching _ _ _ Hs)|exact (sh_num _ _ _ Hs)|exact (sh_null _ _ _ Hs)].
    + split; [unfold blocks_of; cbn; by rewrite lookup_insert_eq|apply delete_insert_eq].
    + done.
    + done.
    + unfold req'. rewrite Ebs. by apply shape_skip.
    + intros i Hi Hin'. rewrite (sh_ref _ _ _ _ Hs Hi), (Hcount i Hin'). lia.
    + intros _ i Hi _ _. by apply (sh_hash _ _ _ _ Hs).
    + intros Hc i Hi Hin'. rewrite (sh_hash _ _ _ _ Hs Hi), (sh_ref _ _ _ _ Hs Hi). intros Hh.
      pose proof (kv_excl _ _ H Hc i Hi Hin' Hh). lia.
    + intros Hc. destruct (kv_cached _ _ H Hc id) as [Hk0 Hk1]. split.
      * intros E. apply Hk0. apply nil_length_inv. by rewrite <-Hlen, E.
      * intros E. destruct Hk1 as (c' & Hnc & Hrc); [intros E0; apply E, nil_length_inv; by rewrite Hlen, E0|].
        exists c'. split; [done|]. specialize (Hwc Hc c' Hnc).
        assert (Hkc : k <= pred c').
        { destruct (decide (k <= pred c')) as [|Hlt]; [done|]. exfalso. apply (rc_null _ _ _ _ Hrc (pred c')); [done|].
          rewrite Ebs, lookup_app_l, lookup_replicate_2 by (rewrite ?length_replicate; lia). done. }
        apply (req_cached_frame (block_pool m)); [exact (sh_null _ _ _ Hs)| |].
        { intros b Hb Hbn. apply (sh_hash _ _ _ _ Hs). apply list_elem_of_lookup in Hb as [j Hj].
          destruct (Hkeep j b Hj Hbn) as [_ Hj']. apply list_elem_of_lookup_2 in Hj'.
          by destruct (held_not_free m l id b H Hj' Hbn). }
        constructor.
        -- rewrite Hlen. apply Hrc.
        -- apply Hrc.
        -- intros j Hj Hjn. unfold req' in Hjn.
           rewrite lookup_app_r, length_replicate, lookup_drop in Hjn by (rewrite length_replicate; lia).
           apply (rc_null _ _ _ _ Hrc j Hj). rewrite <-Hjn. f_equal. lia.
        -- intros j b Hj Hb Hbn. apply (rc_old _ _ _ _ Hrc j b Hj); [by apply Hkeep|done].
        -- intros j b Hj Hb. apply (rc_new _ _ _ _ Hrc j b Hj). apply Hkeep; [done|].
           intros ->. unfold req' in Hb.
           rewrite lookup_app_r, length_replicate, lookup_drop in Hb by (rewrite length_replicate; lia).
           apply (rc_null _ _ _ _ Hrc j); [lia|]. rewrite <-Hb. f_equal. lia.
Qed.

(** ** Taking blocks: cached ones and new ones *)

(** The pool after touching [new] and allocating [nb] from the remaining queue. *)
Record taken (p p3 : BlockPool) (new nb l3 : list nat) : Prop := {
  tk_pool : pool_ok p3 l3;
  tk_consts : enable_caching p3 = enable_caching p /\ num_gpu_blocks p3 = num_gpu_blocks p /\ null_block p3 = null_block p;
  tk_nodup : NoDup nb;
  tk_nb : forall b, b ∈ nb -> b < num_gpu_blocks p /\ b <> null_block p /\ ref_cnt (blk p b) = 0%Z /\ b ∉ new;
  tk_ref : forall i, i < num_gpu_blocks p ->
    ref_cnt (blk p3 i) = (ref_cnt (blk p i) + Z.of_nat (count i new) + Z.of_nat (count i nb))%Z;
  tk_hash : forall i, i < num_gpu_blocks p -> i ∉ nb -> block_hash (blk p3 i) = block_hash (blk p i);
  tk_new : enable_caching p = true -> forall i, i ∈ nb -> block_hash (blk p3 i) = None;
}.

Lemma take_blocks_ok p l new k :
  pool_ok p l -> shape p new -> k <= length (filter (fun x => x ∉ new) l) ->
  let nb := take k (filter (fun x => x ∉ new) l) in
  let l3 := drop k (filter (fun x => x ∉ new) l) in
  exists p3, get_new_blocks (touch p new) (Z.of_nat k) = Ok (p3, nb) /\ taken p p3 new nb l3.
Proof.
  intros H Hsh Hk. cbn zeta. set (l2 := filter (fun x => x ∉ new) l) in *.
  destruct (touch_ok p l new H (shape_range _ _ _ H Hsh)) as [H2 Hs2]. fold l2 in H2.
  destruct (get_new_blocks_ok (touch p new) l2 (Z.of_nat k) H2) as [[Hlt _]|[_ (p3 & Hget & H3 & Hf & Hb)]]; [lia|].
  rewrite Nat2Z.id in *. exists p3. split; [done|].
  assert (Hsub : forall b, b ∈ take k l2 -> b ∈ l2) by (intros b Hb'; rewrite <-(take_drop k l2); set_solver).
  assert (Hnd : NoDup (take k l2)).
  { pose proof (fq_nodup _ _ _ (po_fq _ _ H2)) as Hnd. rewrite <-(take_drop k l2) in Hnd. by apply NoDup_app in Hnd as (? & _). }
  assert (Hnb : forall b, b ∈ take k l2 -> b < num_gpu_blocks p /\ b <> null_block p /\ ref_cnt (blk p b) = 0%Z /\ b ∉ new).
  { intros b Hb'. apply Hsub, list_elem_of_filter in Hb' as [Hbn Hbl].
    assert (Hlt : b < num_gpu_blocks p).
    { rewrite <-(po_len _ _ H). by eapply (proj1 (Forall_forall _ _) (fq_range _ _ _ (po_fq _ _ H))). }
    assert (b <> null_block p) by (intros ->; by apply (po_null _ _ H)).
    split_and!; [done|done|by apply (po_free _ _ H)|done]. }
  constructor; [done| |done|done| | |].
  - split_and!; [rewrite (pf_caching _ _ _ Hf); apply Hs2|rewrite (pf_num _ _ _ Hf); apply Hs2|rewrite (pf_null _ _ _ Hf); apply Hs2].
  - intros i Hi. destruct (decide (i ∈ take k l2)) as [Hin|Hni].
    + destruct (Hb i Hin) as [-> _]. destruct (Hnb i Hin) as (_ & _ & -> & Hnew).
      rewrite (count_not_in i new), (count_nodup i (take k l2)), decide_True by done. lia.
    + rewrite (data_ref _ _ (pf_data _ _ _ Hf i ltac:(rewrite (sh_num _ _ _ Hs2); done) Hni)).
      rewrite (sh_ref _ _ _ _ Hs2 Hi), (count_not_in i (take k l2)) by done. lia.
  - intros i Hi Hni. rewrite (data_hash _ _ (pf_data _ _ _ Hf i ltac:(rewrite (sh_num _ _ _ Hs2); done) Hni)).
    by apply (sh_hash _ _ _ _ Hs2).
  - intros Hc i Hi. destruct (Hb i Hi) as [_ ->]. by rewrite (sh_caching _ _ _ Hs2), Hc.
Qed.

(** Evictable computed blocks are taken off the number of free ones. *)
Lemma num_evictable_spec p l new :
  pool_ok p l -> shape p new ->
  (Z.of_nat (length l) - num_evictable p new <= Z.of_nat (length (filter (fun x => x ∉ new) l)))%Z.
Proof.
  intros H Hsh. unfold num_evictable.
  assert (Hlen : length l = length (filter (fun x => x ∉ new) l) + length (filter (fun x => ~ (x ∉ new)) l)).
  { rewrite <-length_app. apply Permutation_length. symmetry. apply filter_app_complement. }
  enough (length (filter (fun x => ~ (x ∉ new)) l) <= length (filter (fun b => ref_cnt (blk p b) = 0%Z) new)) by lia.
  apply submseteq_length, NoDup_submseteq; [apply NoDup_filter, (fq_nodup _ _ _ (po_fq _ _ H))|].
  intros x [Hx Hl]%list_elem_of_filter. apply list_elem_of_filter.
  assert (x ∈ new) by (destruct (decide (x ∈ new)); tauto). split; [|done].
  assert (Hlt : x < num_gpu_blocks p).
  { rewrite <-(po_len _ _ H). by eapply (proj1 (Forall_forall _ _) (fq_range _ _ _ (po_fq _ _ H))). }
  assert (x <> null_block p) by (intros ->; by apply (po_null _ _ H)).
  by apply (po_free _ _ H).
Qed.

Lemma shape_app p bs nb :
  shape p bs -> NoDup nb -> (forall b, b ∈ nb -> b < num_gpu_blocks p /\ b <> null_block p /\ b ∉ bs) ->
  shape p (bs ++ nb).
Proof.
  intros (k & rest & -> & Hnd & Hr) Hnb Hin. exists k, (rest ++ nb). split; [by rewrite (assoc_L (++))|]. split.
  - apply NoDup_app. split; [done|]. split; [|done]. intros b Hb Hb'. apply (Hin b Hb'). set_solver.
  - apply Forall_app. split; [done|]. apply Forall_forall. intros b Hb. split; by apply Hin.
Qed.

Section Allocation.
Context (m : KVCacheManager) (l : list nat) (r : Request) (new nb l3 : list nat) (p3 : BlockPool).
Context (Hok : kv_ok m l) (Htk : taken (block_pool m) p3 new nb l3).
Local Abbreviation id := (request_id r).
Local Abbreviation cur := (blocks_of m (request_id r)).
Context (Hnew : new = [] \/ cur = []) (Hnshape : shape (block_pool m) new).

Lemma cur_new_shape : shape (block_pool m) (cur ++ new).
Proof using Hok Hnew Hnshape.
  destruct Hnew as [E|E]; rewrite E; [rewrite app_nil_r; apply Hok|done].
Qed.

Lemma nb_fresh b : b ∈ nb -> b ∉ cur ++ new.
Proof using Hok Htk.
  intros Hb Hin. destruct (tk_nb _ _ _ _ _ Htk b Hb) as (Hlt & Hn & H0 & Hbn).
  apply elem_of_app in Hin as [Hin|]; [|done].
  destruct (held_not_free m l id b Hok Hin Hn) as (_ & ? & _). lia.
Qed.

Lemma all_blocks_shape : shape (block_pool m) (cur ++ new ++ nb).
Proof using Hok Htk Hnew Hnshape.
  rewrite (assoc_L (++)). apply shape_app; [by apply cur_new_shape|exact (tk_nodup _ _ _ _ _ Htk)|].
  intros b Hb. destruct (tk_nb _ _ _ _ _ Htk b Hb) as (Hlt & Hn & _). split_and!; [done|done|by apply nb_fresh].
Qed.

Lemma alloc_ref i :
  i < num_gpu_blocks (block_pool m) ->
  (ref_cnt (blk p3 i) + Z.of_nat (count i cur) = ref_cnt (blk (block_pool m) i) + Z.of_nat (count i (cur ++ new ++ nb)))%Z.
Proof using Htk. intros Hi. rewrite (tk_ref _ _ _ _ _ Htk i Hi), !count_app. lia. Qed.

(** Blocks of other requests keep their hashes. *)
Lemma alloc_hash_others i :
  i < num_gpu_blocks (block_pool m) -> i <> null_block (block_pool m) ->
  0 < holders (delete id (req_to_blocks m)) i ->
  i ∉ nb /\ block_hash (blk p3 i) = block_hash (blk (block_pool m) i).
Proof using Hok Htk.
  intros Hi Hin Hh. assert (Hni : i ∉ nb).
  { intros Hb. destruct (tk_nb _ _ _ _ _ Htk i Hb) as (_ & _ & H0 & _).
    rewrite (kv_ref _ _ Hok i Hi Hin), (holders_delete _ id) in H0. lia. }
  split; [done|]. by apply (tk_hash _ _ _ _ _ Htk).
Qed.

(** With caching off that is all. *)
Lemma alloc_uncached_ok :
  mgr_caching m = false ->
  kv_ok (set_pool p3 (set_req_blocks (<[id := cur ++ new ++ nb]> (req_to_blocks m)) m)) l3.
Proof using Hok Htk Hnew Hnshape.
  intros Hc. apply (kv_update_ok m _ l _ id (cur ++ new ++ nb)); [done|].
  destruct (tk_consts _ _ _ _ _ Htk) as (He & Hn & Hu). constructor; cbn; rewrite ?Hc; try done.
  - exact (tk_pool _ _ _ _ _ Htk).
  - split; [unfold blocks_of; cbn; by rewrite lookup_insert_eq|apply delete_insert_eq].
  - by apply all_blocks_shape.
  - intros i Hi _. by apply alloc_ref.
Qed.

(** *** The commit to the prefix cache *)

Context (hash_fn : hash_input -> Z) (NONE_HASH : Z) (c nf : nat).
Local Abbreviation hs := (hashes_of m (request_id r)).
Context (Hc : mgr_caching m = true) (Hrc : req_cached (block_pool m) (cur ++ new) hs c)
  (Hcnew : new = [] \/ c = length (cur ++ new)).
Local Abbreviation all := (cur ++ new ++ nb).
Local Abbreviation slice := (take (nf - c) (drop c (cur ++ new ++ nb))).

Lemma new_has_hash i : i ∈ new -> i <> null_block (block_pool m) -> is_Some (block_hash (blk (block_pool m) i)).
Proof using Hrc Hcnew.
  intros Hi Hn. apply list_elem_of_lookup in Hi as [j Hj]. pose proof (lookup_lt_Some _ _ _ Hj) as Hlt.
  assert (Hj' : (cur ++ new) !! (length cur + j) = Some i).
  { rewrite lookup_app_r by lia. by replace (length cur + j - length cur) with j by lia. }
  assert (Hjc : length cur + j < c).
  { destruct Hcnew as [E|E]; [rewrite E in Hj; done|]. rewrite E, length_app. lia. }
  rewrite (rc_old _ _ _ _ Hrc _ _ Hjc Hj' Hn). apply lookup_lt_is_Some_2. pose proof (rc_hs _ _ _ _ Hrc). lia.
Qed.

Lemma all_lookup j b :
  all !! j = Some b -> (cur ++ new) !! j = Some b /\ j < length (cur ++ new) \/ b ∈ nb /\ length (cur ++ new) <= j.
Proof using.
  clear Hcnew Hrc. rewrite (assoc_L (++)). intros H. destruct (decide (j < length (cur ++ new))) as [Hj|Hj].
  - left. by rewrite lookup_app_l in H.
  - right. rewrite lookup_app_r in H by lia. split; [by apply list_elem_of_lookup_2 in H|lia].
Qed.

(** Blocks from position [c] on: not null, no hash, and held by this request only. *)
Lemma tail_block j b :
  c <= j -> all !! j = Some b ->
  b < num_gpu_blocks (block_pool m) /\ b <> null_block (block_pool m) /\ block_hash (blk p3 b) = None /\
  holders (delete id (req_to_blocks m)) b = 0 /\ b ∉ new.
Proof using Hok Htk Hnew Hnshape Hc Hrc Hcnew.
  intros Hj Hb. destruct (all_lookup j b Hb) as [[Hb' Hlt]|[Hb' _]].
  - assert (Hn : b <> null_block (block_pool m)) by (intros ->; apply (rc_null _ _ _ _ Hrc j); [lia|done]).
    pose proof (list_elem_of_lookup_2 _ _ _ Hb') as Hin.
    assert (Hlt' : b < num_gpu_blocks (block_pool m)) by (eapply shape_in_range; [by apply cur_new_shape|done|done]).
    pose proof (rc_new _ _ _ _ Hrc j b Hj Hb') as Hh.
    assert (Hni : b ∉ nb) by (intros Hx; by apply (nb_fresh b Hx)).
    assert (Hbn : b ∉ new) by (intros Hx; destruct (new_has_hash b Hx Hn); congruence).
    split_and!; [done|done|by rewrite (tk_hash _ _ _ _ _ Htk)| |done].
    assert (Hcur : b ∈ cur) by set_solver.
    pose proof (kv_excl _ _ Hok Hc b Hlt' Hn Hh) as He. rewrite (kv_ref _ _ Hok b Hlt' Hn) in He.
    rewrite (holders_delete _ id) in He. pose proof (count_in b _ Hcur). fold (blocks_of m id) in He. lia.
  - destruct (tk_nb _ _ _ _ _ Htk b Hb') as (Hlt & Hn & H0 & Hbn).
    split_and!; [done|done| | |done].
    + apply (tk_new _ _ _ _ _ Htk); [by rewrite (kv_caching _ _ Hok)|done].
    + rewrite (kv_ref _ _ Hok b Hlt Hn), (holders_delete _ id) in H0. lia.
Qed.

Lemma slice_lookup i b : slice !! i = Some b -> c + i < nf /\ all !! (c + i) = Some b.
Proof using.
  intros H. rewrite lookup_take_Some, lookup_drop in H. clear -H. destruct H. split; [lia|done].
Qed.

Lemma slice_cacheable : cacheable p3 slice.
Proof using Hok Htk Hnew Hnshape Hc Hrc Hcnew.
  destruct (tk_consts _ _ _ _ _ Htk) as (_ & Hn & Hu). split.
  - apply NoDup_alt. intros i j b Hi Hj. apply slice_lookup in Hi as [_ Hi], Hj as [_ Hj].
    destruct all_blocks_shape as (k & rest & E & Hnd & _). rewrite E in Hi, Hj.
    assert (Hk : k <= c).
    { destruct (decide (k <= c)) as [|Hlt]; [done|exfalso].
      destruct (tail_block c (null_block (block_pool m))) as (_ & ? & _); [done| |done].
      by rewrite E, lookup_app_l, lookup_replicate_2 by (rewrite ?length_replicate; lia). }
    rewrite lookup_app_r, length_replicate in Hi, Hj by (rewrite length_replicate; lia).
    pose proof (proj1 (NoDup_alt _) Hnd _ _ _ Hi Hj). lia.
  - apply Forall_forall. intros b Hb. apply list_elem_of_lookup in Hb as [i Hi].
    apply slice_lookup in Hi as [_ Hi]. rewrite Hn, Hu.
    destruct (tail_block (c + i) b ltac:(lia) Hi) as (? & ? & ? & _). done.
Qed.

Lemma commit_prev :
  0 < c -> exists b0 h0, all !! (c - 1) = Some b0 /\ block_hash (blk p3 b0) = Some h0 /\
    (length hs <= c -> hash_value <$> last hs = Some (hash_value h0)).
Proof using Hok Htk Hnew Hnshape Hrc.
  clear Hcnew. intros Hpos. pose proof (rc_len _ _ _ _ Hrc) as Hlen. pose proof (rc_hs _ _ _ _ Hrc) as Hhs.
  destruct (lookup_lt_is_Some_2 (cur ++ new) (c - 1) ltac:(lia)) as [b0 Hb0].
  destruct (lookup_lt_is_Some_2 hs (c - 1) ltac:(lia)) as [h0 Hh0].
  exists b0, h0. split; [rewrite (assoc_L (++)); by apply lookup_app_l_Some|].
  assert (Hn : b0 <> null_block (block_pool m)) by (intros ->; apply (rc_null _ _ _ _ Hrc (c - 1)); [lia|done]).
  pose proof (list_elem_of_lookup_2 _ _ _ Hb0) as Hin. split.
  - rewrite (tk_hash _ _ _ _ _ Htk); [by rewrite (rc_old _ _ _ _ Hrc (c - 1) b0) by (done || lia)| |].
    + eapply shape_in_range; [by apply cur_new_shape|done|done].
    + intros Hx. by apply (nb_fresh b0 Hx).
  - intros Hle. rewrite last_lookup. replace (pred (length hs)) with (c - 1) by lia. by rewrite Hh0.
Qed.

Local Abbreviation m3 := (set_pool p3 (set_req_blocks (<[request_id r := all]> (req_to_blocks m)) m)).

(** The hashes after the commit fit the blocks. *)
Lemma commit_req_cached p4 hs' :
  c <= nf -> nf <= length all -> hs' = extend_hashes hash_fn NONE_HASH (block_size m) r hs (nf - length hs) ->
  hashed p3 p4 slice hs' c -> req_cached p4 all hs' nf.
Proof using Hok Htk Hnew Hnshape Hc Hrc Hcnew.
  intros Hle Hlen Ehs Hd. destruct (tk_consts _ _ _ _ _ Htk) as (_ & Hn3 & Hu3).
  assert (Hu4 : null_block p4 = null_block (block_pool m)) by (by rewrite (hd_null _ _ _ _ _ Hd), Hu3).
  pose proof (rc_hs _ _ _ _ Hrc) as Hhs.
  assert (Hslice : forall j b, all !! j = Some b -> b <> null_block (block_pool m) -> c <= j < nf <-> b ∈ slice).
  { intros j b Hj Hn. split.
    - intros Hr. apply list_elem_of_lookup. exists (j - c). rewrite lookup_take_lt, lookup_drop by lia.
      rewrite <-Hj. f_equal. lia.
    - intros Hb. apply list_elem_of_lookup in Hb as [i Hi]. apply slice_lookup in Hi as [Hlt Hi].
      enough (c + i = j) by lia.
      destruct all_blocks_shape as (k & rest & E & Hnd & _). rewrite E in Hi, Hj.
      assert (Hk : forall x, (replicate k (null_block (block_pool m)) ++ rest) !! x = Some b -> k <= x /\ rest !! (x - k) = Some b).
      { intros x Hx. destruct (decide (x < k)) as [Hxk|Hxk].
        - rewrite lookup_app_l, lookup_replicate_2 in Hx by (rewrite ?length_replicate; done). congruence.
        - rewrite lookup_app_r, length_replicate in Hx by (rewrite length_replicate; lia). split; [lia|done]. }
      destruct (Hk _ Hi) as [? Hi'], (Hk _ Hj) as [? Hj'].
      pose proof (proj1 (NoDup_alt _) Hnd _ _ _ Hi' Hj'). lia. }
  constructor; rewrite ?Hu4.
  - done.
  - rewrite Ehs, extend_hashes_length. lia.
  - intros j Hj Hb. destruct (all_lookup j _ Hb) as [[Hb' _]|[Hb' _]].
    + apply (rc_null _ _ _ _ Hrc j); [lia|done].
    + by destruct (tk_nb _ _ _ _ _ Htk _ Hb') as (_ & ? & _).
  - intros j b Hj Hb Hn. destruct (decide (c <= j)) as [Hcj|Hcj].
    + assert (Hs : slice !! (j - c) = Some b).
      { rewrite lookup_take_lt, lookup_drop by lia. rewrite <-Hb. f_equal. lia. }
      destruct (hd_new _ _ _ _ _ Hd _ _ Hs) as (h & Hh & Hdata). replace (c + (j - c)) with j in Hh by lia.
      rewrite Hh. unfold data in Hdata. congruence.
    + assert (Hlt : b < num_gpu_blocks (block_pool m)).
      { eapply shape_in_range; [by apply all_blocks_shape|by apply list_elem_of_lookup_2 in Hb|done]. }
      assert (Hni : b ∉ slice) by (intros Hx; apply (Hslice j b Hb Hn) in Hx; lia).
      rewrite (data_hash _ _ (hd_other _ _ _ _ _ Hd b ltac:(by rewrite Hn3) Hni)).
      destruct (all_lookup j b Hb) as [[Hb' _]|[_ Hge]]; [|pose proof (rc_len _ _ _ _ Hrc); lia].
      rewrite (tk_hash _ _ _ _ _ Htk b Hlt).
      * rewrite (rc_old _ _ _ _ Hrc j b) by (done || lia).
        destruct (extend_hashes_prefix hash_fn NONE_HASH (block_size m) r hs (nf - length hs)) as [ext Hext].
        rewrite Ehs, Hext. symmetry. apply lookup_app_l. lia.
      * intros Hx. apply (nb_fresh b Hx). by apply list_elem_of_lookup_2 in Hb'.
  - intros j b Hj Hb. destruct (tail_block j b ltac:(lia) Hb) as (Hlt & Hn & Hh & _).
    rewrite <-Hh. apply data_hash, (hd_other _ _ _ _ _ Hd); [by rewrite Hn3|].
    intros Hx. apply (Hslice j b Hb Hn) in Hx. lia.
Qed.

Lemma commit_ok computed num_tokens :
  all <> [] -> keys_total r -> c <= nf -> nf <= length all -> nf * block_size m <= length (all_token_ids r) ->
  default (Z.of_nat (length new)) (num_cached_block m !! id) = Z.of_nat c ->
  ((computed + num_tokens - Z.of_nat (length (spec_token_ids r))) / Z.of_nat (block_size m))%Z = Z.of_nat nf ->
  exists m4, commit_full_blocks hash_fn NONE_HASH m3 r computed num_tokens new all = Ok m4 /\ kv_ok m4 l3 /\
    blocks_of m4 id = all /\ delete id (req_to_blocks m4) = delete id (req_to_blocks m) /\
    num_cached_block m4 !! id = Some (Z.of_nat nf) /\
    hashes_of m4 id = extend_hashes hash_fn NONE_HASH (block_size m) r hs (nf - length hs).
Proof using Hok Htk Hnew Hnshape Hc Hrc Hcnew.
  intros Hall Hk Hle Hlen Htok Hnc Hnf. pose proof (kv_size _ _ Hok) as [Hbs _].
  destruct (tk_consts _ _ _ _ _ Htk) as (He3 & Hn3 & Hu3).
  unfold commit_full_blocks. cbn [num_cached_block set_pool set_req_blocks block_size block_pool].
  rewrite Hnc, py_floordiv_ok, Hnf by lia. cbn [mbind result_bind].
  change (request_hashes m3 r) with hs.
  destruct (cache_full_blocks_ok hash_fn NONE_HASH (block_size m) r c nf all hs p3 l3 (tk_pool _ _ _ _ _ Htk) Hle Hlen
    (rc_hs _ _ _ _ Hrc) slice_cacheable Hk Hbs Htok ltac:(intros ? _; by apply commit_prev)) as (p4 & Hrun & H4 & Hd).
  cbn zeta in Hrun, Hd. rewrite Hrun. cbn [mbind result_bind].
  set (hs' := extend_hashes hash_fn NONE_HASH (block_size m) r hs (nf - length hs)) in *.
  eexists. split; [reflexivity|]. split; [|split_and!; cbn].
  2: { unfold blocks_of; cbn. by rewrite lookup_insert_eq. }
  2: { apply delete_insert_eq. }
  2: { by rewrite lookup_insert_eq. }
  2: { unfold hashes_of; cbn. by rewrite lookup_insert_eq. }
  apply (kv_update_ok m _ l _ id all); [done|]. constructor; cbn.
  - done.
  - split_and!; try done; [rewrite (hd_caching _ _ _ _ _ Hd); done|rewrite (hd_num _ _ _ _ _ Hd); done|rewrite (hd_null _ _ _ _ _ Hd); done].
  - split; [unfold blocks_of; cbn; by rewrite lookup_insert_eq|apply delete_insert_eq].
  - intros id' Hne. unfold hashes_of; cbn. by rewrite lookup_insert_ne.
  - intros id' Hne. by rewrite lookup_insert_ne.
  - by apply all_blocks_shape.
  - intros i Hi Hin. rewrite <-(alloc_ref i Hi). f_equal.
    destruct (decide (i ∈ slice)) as [Hs|Hs].
    + apply list_elem_of_lookup in Hs as [j Hj]. destruct (hd_new _ _ _ _ _ Hd j i Hj) as (h & _ & Hdata).
      unfold data in Hdata. congruence.
    + apply data_ref, (hd_other _ _ _ _ _ Hd); [by rewrite Hn3|done].
  - intros _ i Hi Hin Hh. destruct (alloc_hash_others i Hi Hin Hh) as [Hni <-].
    apply data_hash, (hd_other _ _ _ _ _ Hd); [by rewrite Hn3|]. intros Hs.
    apply list_elem_of_lookup in Hs as [j Hj]. apply slice_lookup in Hj as [_ Hj].
    destruct (tail_block (c + j) i ltac:(lia) Hj) as (_ & _ & _ & H0 & _). lia.
  - intros _ i Hi Hin Hh.
    assert (Hs : i ∉ slice).
    { intros Hs. apply list_elem_of_lookup in Hs as [j Hj]. destruct (hd_new _ _ _ _ _ Hd j i Hj) as (h & _ & Hdata).
      unfold data in Hdata. congruence. }
    pose proof (hd_other _ _ _ _ _ Hd i ltac:(by rewrite Hn3) Hs) as Hdata.
    rewrite (data_ref _ _ Hdata), (tk_ref _ _ _ _ _ Htk i Hi). rewrite (data_hash _ _ Hdata) in Hh.
    destruct (decide (i ∈ nb)) as [Hb|Hb].
    + destruct (tk_nb _ _ _ _ _ Htk i Hb) as (_ & _ & -> & Hbn).
      rewrite (count_not_in i new), (count_nodup i nb), decide_True by (done || apply (tk_nodup _ _ _ _ _ Htk)). lia.
    + rewrite (tk_hash _ _ _ _ _ Htk i Hi Hb) in Hh. rewrite (count_not_in i nb) by done.
      rewrite (count_not_in i new) by (intros Hx; destruct (new_has_hash i Hx Hin); congruence).
      pose proof (kv_excl _ _ Hok Hc i Hi Hin Hh). lia.
  - intros _. split.
    + done.
    + intros _. exists nf. split; [cbn; by rewrite lookup_insert_eq|].
      unfold hashes_of; cbn. rewrite lookup_insert_eq. cbn. by apply commit_req_cached.
Qed.

End Allocation.

(** ** [allocate_slots] *)

(** What the scheduler sees to before a call; [allocate_slots_assertions] shows
    two of these conditions violated. *)
Record alloc_pre (m : KVCacheManager) (r : Request) (num_tokens : Z) (new : list nat) (num_lookahead_tokens : Z) : Prop := {
  ap_tokens : (0 < num_tokens /\ 0 <= num_computed_tokens r /\ 0 <= num_lookahead_tokens)%Z;
  ap_window : window_ok m r;
  ap_new : new = [] \/ blocks_of m (request_id r) = [];
  ap_shape : shape (block_pool m) new;
  ap_nocache : mgr_caching m = false -> new = [];
  ap_hit : mgr_caching m = true -> req_cached (block_pool m) new (hashes_of m (request_id r)) (length new);
  ap_max : (num_computed_tokens r + Z.of_nat (length new) * Z.of_nat (block_size m) + num_tokens +
     num_lookahead_tokens <= max_num_blocks_per_req m * Z.of_nat (block_size m))%Z;
  ap_full : mgr_caching m = true ->
    let full := ((num_computed_tokens r + Z.of_nat (length new) * Z.of_nat (block_size m) + num_tokens -
                  Z.of_nat (length (spec_token_ids r))) / Z.of_nat (block_size m))%Z in
    (default (Z.of_nat (length new)) (num_cached_block m !! request_id r) <= full)%Z /\
    (full * Z.of_nat (block_size m) <= Z.of_nat (length (all_token_ids r)))%Z;
  ap_keys : mgr_caching m = true -> keys_total r;
}.

(** The blocks a call asks for. *)
Definition num_needed (m : KVCacheManager) (r : Request) (num_tokens : Z) (new : list nat) (la : Z) : Z :=
  ((num_computed_tokens r + Z.of_nat (length new) * Z.of_nat (block_size m) + num_tokens + la +
     Z.of_nat (block_size m) - 1) / Z.of_nat (block_size m) -
   Z.of_nat (length (blocks_of m (request_id r))) - Z.of_nat (length new))%Z.

(** The full blocks of the request once the tokens are computed. *)
Definition num_full (m : KVCacheManager) (r : Request) (num_tokens : Z) (new : list nat) : Z :=
  ((num_computed_tokens r + Z.of_nat (length new) * Z.of_nat (block_size m) + num_tokens -
    Z.of_nat (length (spec_token_ids r))) / Z.of_nat (block_size m))%Z.

Section AllocateSlots.
Context (hash_fn : hash_input -> Z) (NONE_HASH : Z).

(** What the commit records for the request: the number of its full blocks, and
    their hashes. *)
Definition committed (m m' : KVCacheManager) (r : Request) (num_tokens : Z) (new : list nat) : Prop :=
  let id := request_id r in
  let full := num_full m r num_tokens new in
  (0 <= full)%Z /\ num_cached_block m' !! id = Some full /\
  hashes_of m' id = extend_hashes hash_fn NONE_HASH (block_size m) r (hashes_of m id) (Z.to_nat full - length (hashes_of m id)).

(** After the skipped blocks are gone and there is enough room. *)
Lemma allocate_rest_ok m l r num_tokens new la :
  kv_ok m l -> alloc_pre m r num_tokens new la ->
  let need := num_needed m r num_tokens new la in
  let k := Z.to_nat need in
  let l2 := filter (fun x => x ∉ new) l in
  let computed := (num_computed_tokens r + Z.of_nat (length new) * Z.of_nat (block_size m))%Z in
  k <= length l2 ->
  exists p3 m', get_new_blocks (touch (block_pool m) new) (Z.of_nat k) = Ok (p3, take k l2) /\
    taken (block_pool m) p3 new (take k l2) (drop k l2) /\
    let all := blocks_of m (request_id r) ++ new ++ take k l2 in
    let m3 := set_pool p3 (set_req_blocks (<[request_id r := all]> (req_to_blocks m)) m) in
    (if mgr_caching m then commit_full_blocks hash_fn NONE_HASH m3 r computed num_tokens new all else Ok m3) = Ok m' /\
    kv_ok m' (drop k l2) /\ blocks_of m' (request_id r) = all /\
    delete (request_id r) (req_to_blocks m') = delete (request_id r) (req_to_blocks m) /\
    (num_computed_tokens r + Z.of_nat (length new) * Z.of_nat (block_size m) + num_tokens + la <=
     Z.of_nat (length all) * Z.of_nat (block_size m))%Z /\
    (mgr_caching m = true -> committed m m' r num_tokens new).
Proof.
  intros H Hpre. cbn zeta. set (k := Z.to_nat (num_needed m r num_tokens new la)). intros Hk.
  pose proof (kv_size _ _ H) as [Hbs _]. destruct (ap_tokens _ _ _ _ _ Hpre) as (Hnt & Hcomp & Hla).
  destruct (take_blocks_ok (block_pool m) l new k (kv_pool _ _ H) (ap_shape _ _ _ _ _ Hpre) Hk) as (p3 & Hget & Htk).
  set (nb := take k (filter (fun x => x ∉ new) l)) in *. set (l3 := drop k (filter (fun x => x ∉ new) l)) in *.
  set (id := request_id r). set (all := blocks_of m id ++ new ++ nb).
  assert (Hnb : length nb = k) by (unfold nb; rewrite length_take; lia).
  assert (Hcover : (num_computed_tokens r + Z.of_nat (length new) * Z.of_nat (block_size m) + num_tokens + la <=
     Z.of_nat (length all) * Z.of_nat (block_size m))%Z).
  { apply cdiv_le; [lia|]. unfold all. rewrite !length_app, Hnb. unfold k, num_needed, id.
    generalize ((num_computed_tokens r + Z.of_nat (length new) * Z.of_nat (block_size m) + num_tokens + la +
      Z.of_nat (block_size m) - 1) / Z.of_nat (block_size m))%Z. lia. }
  exists p3.
  destruct (mgr_caching m) eqn:Hc; last first.
  { eexists. split; [exact Hget|]. split; [exact Htk|]. split; [reflexivity|].
    split; [by apply (alloc_uncached_ok m l r new nb l3 p3 H Htk (ap_new _ _ _ _ _ Hpre) (ap_shape _ _ _ _ _ Hpre) Hc)|].
    split; [unfold blocks_of; cbn; by rewrite lookup_insert_eq|]. split; [apply delete_insert_eq|]. by split. }
  assert (exists c : nat, default (Z.of_nat (length new)) (num_cached_block m !! id) = Z.of_nat c /\
    req_cached (block_pool m) (blocks_of m id ++ new) (hashes_of m id) c /\
    (new = [] \/ c = length (blocks_of m id ++ new))) as (c & Hnc & Hrc & Hcnew).
  { destruct (kv_cached _ _ H Hc id) as [Hk0 Hk1]. destruct (decide (blocks_of m id = [])) as [E|E].
    - rewrite E, (Hk0 E). exists (length new). split; [done|]. split; [by apply (ap_hit _ _ _ _ _ Hpre)|by right].
    - destruct (ap_new _ _ _ _ _ Hpre) as [->|?]; [|done]. destruct (Hk1 E) as (c & -> & Hrc).
      exists c. rewrite app_nil_r. split; [done|]. split; [done|by left]. }
  destruct (ap_full _ _ _ _ _ Hpre Hc) as [Hf1 Hf2]. fold id in Hf1. rewrite Hnc in Hf1.
  set (full := ((num_computed_tokens r + Z.of_nat (length new) * Z.of_nat (block_size m) + num_tokens -
                  Z.of_nat (length (spec_token_ids r))) / Z.of_nat (block_size m))%Z) in *.
  assert (Hfull : (full * Z.of_nat (block_size m) <= Z.of_nat (length all) * Z.of_nat (block_size m))%Z).
  { etrans; [|exact Hcover]. unfold full. rewrite Z.mul_comm. etrans; [apply Z.mul_div_le; lia|]. lia. }
  destruct (commit_ok m l r new nb l3 p3 H Htk (ap_new _ _ _ _ _ Hpre) (ap_shape _ _ _ _ _ Hpre) hash_fn NONE_HASH
    c (Z.to_nat full) Hc Hrc Hcnew (num_computed_tokens r + Z.of_nat (length new) * Z.of_nat (block_size m)) num_tokens)
    as (m4 & Hcommit & H4 & Hb4 & Hd4 & Hc4 & Hh4).
  - fold id all. intros E. rewrite E in Hcover. cbn in Hcover. lia.
  - by apply (ap_keys _ _ _ _ _ Hpre).
  - lia.
  - fold id all. nia.
  - nia.
  - done.
  - fold full. lia.
  - exists m4. split; [exact Hget|]. split; [exact Htk|]. split; [exact Hcommit|]. split_and!; try done.
    intros _. unfold committed, num_full. fold full. split; [lia|]. split; [|exact Hh4].
    rewrite <-(Z2Nat.id full) by lia. exact Hc4.
Qed.

(** The preconditions still hold once the skipped blocks are freed. *)
Lemma alloc_pre_skip m m1 r num_tokens new la req_blocks f p :
  alloc_pre m r num_tokens new la ->
  m1 = set_pool p (set_req_blocks (<[request_id r := req_blocks]> (req_to_blocks m)) m) ->
  shifted (block_pool m) p f -> length req_blocks = length (blocks_of m (request_id r)) ->
  alloc_pre m1 r num_tokens new la.
Proof.
  intros Hpre -> Hs Hlen. destruct Hpre as [H1 H2 H3 H4 H5 H6 H7 H8 H9].
  assert (Hb : blocks_of (set_pool p (set_req_blocks (<[request_id r := req_blocks]> (req_to_blocks m)) m)) (request_id r) = req_blocks).
  { unfold blocks_of; cbn. by rewrite lookup_insert_eq. }
  assert (Hsh : shape p new).
  { destruct H4 as (k & rest & E & Hn & Hr). exists k, rest. by rewrite (sh_null _ _ _ Hs), (sh_num _ _ _ Hs). }
  constructor; try done.
  - unfold window_ok in *. rewrite Hb. cbn. destruct (specialized_manager m); [done|]. by rewrite Hlen.
  - rewrite Hb. destruct H3 as [?|E]; [by left|right]. apply nil_length_inv. by rewrite Hlen, E.
  - intros Hc. apply (req_cached_frame (block_pool m)); [exact (sh_null _ _ _ Hs)| |by apply H6].
    intros b Hbin Hbn. apply (sh_hash _ _ _ _ Hs). by eapply shape_in_range.
Qed.

Lemma touch_or_assert_ok (caching : bool) p new :
  (caching = false -> new = []) ->
  (if caching then Ok (touch p new) else _ ← py_assert (bool_decide (new = [])); Ok p) = Ok (touch p new).
Proof. intros H. destruct caching; [done|]. by rewrite (H eq_refl). Qed.

Lemma allocate_slots_ok m l r num_tokens new la :
  kv_ok m l -> alloc_pre m r num_tokens new la ->
  let id := request_id r in
  exists m' res l', allocate_slots hash_fn NONE_HASH m r num_tokens new la = Ok (m', res) /\ kv_ok m' l' /\
    delete id (req_to_blocks m') = delete id (req_to_blocks m) /\
    exists cur, length cur = length (blocks_of m id) /\
      (forall j b, cur !! j = Some b -> b <> null_block (block_pool m) -> blocks_of m id !! j = Some b) /\
      match res with
      | None => blocks_of m' id = cur /\
          (Z.of_nat (length l') - num_evictable (block_pool m') new < num_needed m r num_tokens new la)%Z /\
          (forall bs0, specialized_manager m = FullAttentionManager bs0 ->
             l' = l /\ block_pool m' = block_pool m)
      | Some nb => blocks_of m' id = cur ++ new ++ nb /\
          length nb = Z.to_nat (num_needed m r num_tokens new la) /\ NoDup nb /\
          (forall b, b ∈ nb -> b <> null_block (block_pool m) /\ b ∉ cur ++ new /\
             holders (delete id (req_to_blocks m)) b = 0) /\
          (num_computed_tokens r + Z.of_nat (length new) * Z.of_nat (block_size m) + num_tokens + la <=
             Z.of_nat (length (cur ++ new ++ nb)) * Z.of_nat (block_size m))%Z /\
          (forall bs0, specialized_manager m = FullAttentionManager bs0 ->
             (num_needed m r num_tokens new la <= Z.of_nat (length l) - num_evictable (block_pool m) new)%Z /\
             nb = take (length nb) (filter (fun x => x ∉ new) l) /\
             l' = drop (length nb) (filter (fun x => x ∉ new) l)) /\
          (mgr_caching m = true -> committed m m' r num_tokens new)
      end.
Proof.
  intros H Hpre. cbn zeta. set (id := request_id r).
  destruct (skip_ok m l r H (ap_window _ _ _ _ _ Hpre)) as (cur & removed & p & Hrem & Hfree & H1 & Hlen & Hs & Hkeep).
  fold id in Hrem, Hkeep, H1. set (l1 := l ++ released (block_pool m) removed) in *.
  set (m1 := set_pool p (set_req_blocks (<[id := cur]> (req_to_blocks m)) m)) in *. cbn zeta in H1.
  pose proof (alloc_pre_skip m m1 r num_tokens new la cur _ p Hpre eq_refl Hs Hlen) as Hpre1.
  pose proof (kv_size _ _ H) as [Hbs _]. destruct (ap_tokens _ _ _ _ _ Hpre) as (Hnt & Hcomp & Hla).
  assert (Hb1 : blocks_of m1 id = cur) by (unfold blocks_of; cbn; by rewrite lookup_insert_eq).
  assert (Hd1 : delete id (req_to_blocks m1) = delete id (req_to_blocks m)) by apply delete_insert_eq.
  unfold allocate_slots. rewrite (proj2 (Z.eqb_neq num_tokens 0)) by lia.
  fold id. change (default [] (req_to_blocks m !! id)) with (blocks_of m id). rewrite Hrem. cbn [mbind result_bind].
  rewrite Hfree. cbn [mbind result_bind]. fold m1. rewrite cdiv_ok by lia. cbn [mbind result_bind].
  assert (Hneed : num_needed m1 r num_tokens new la = num_needed m r num_tokens new la).
  { unfold num_needed. fold id. rewrite Hb1, Hlen. done. }
  set (need := num_needed m r num_tokens new la) in *.
  assert (Ecode : ((num_computed_tokens r + Z.of_nat (length new) * Z.of_nat (block_size m) + num_tokens + la +
      Z.of_nat (block_size m) - 1) / Z.of_nat (block_size m) - Z.of_nat (length cur) - Z.of_nat (length new))%Z = need).
  { unfold need, num_needed. fold id. by rewrite Hlen. }
  rewrite Ecode. change p with (block_pool m1).
  assert (Hl1 : get_num_free_blocks (block_pool m1) = Z.of_nat (length l1)) by apply (fq_num _ _ _ (po_fq _ _ (kv_pool _ _ H1))).
  rewrite Hl1. destruct (Z.ltb_spec (Z.of_nat (length l1) - num_evictable (block_pool m1) new) need) as [Hlt|Hge].
  - exists m1, None, l1. split; [done|]. split; [done|]. split; [done|]. exists cur. split; [done|]. split; [done|].
    split; [done|]. split; [exact Hlt|]. intros bs0 Em. rewrite Em in Hrem. injection Hrem as _ <-.
    injection Hfree as <-. split; [unfold l1; cbn; apply app_nil_r|done].
  - set (l2 := filter (fun x => x ∉ new) l1).
    pose proof (num_evictable_spec _ _ _ (kv_pool _ _ H1) (ap_shape _ _ _ _ _ Hpre1)) as Hev. fold l2 in Hev.
    destruct (allocate_rest_ok m1 l1 r num_tokens new la H1 Hpre1) as (p3 & m' & Hget & Htk & Hcommit & H' & Hb' & Hd' & Hcover & Hcm).
    { rewrite Hneed. fold l2. lia. }
    rewrite Hneed in *. fold id l2 in Hget, Htk, Hcommit, H', Hb', Hd', Hcover. rewrite Hb1 in *.
    set (nb := take (Z.to_nat need) l2) in *.
    assert (Hnb : length nb = Z.to_nat need) by (unfold nb; rewrite length_take; lia).
    rewrite (touch_or_assert_ok (mgr_caching m1)) by apply (ap_nocache _ _ _ _ _ Hpre1). cbn [mbind result_bind].
    assert (Hget' : (if (need <=? 0)%Z then Ok (touch (block_pool m1) new, [])
       else let n := Z.min need (Z.min (get_num_free_blocks (touch (block_pool m1) new))
              (max_num_blocks_per_req m1 - Z.of_nat (length (cur ++ new)))) in
            _ ← py_assert (0 <? n)%Z; get_new_blocks (touch (block_pool m1) new) n) = Ok (p3, nb)).
    { destruct (Z.leb_spec need 0) as [Hn0|Hn0].
      - unfold nb in *. replace (Z.to_nat need) with 0 in * by lia. unfold get_new_blocks in Hget.
        destruct (_ <? _)%Z in Hget; [done|]. exact Hget.
      - destruct (touch_ok (block_pool m1) l1 new (kv_pool _ _ H1)
          (shape_range _ _ _ (kv_pool _ _ H1) (ap_shape _ _ _ _ _ Hpre1))) as [Hp2 _]. fold l2 in Hp2.
        unfold get_num_free_blocks. rewrite (fq_num _ _ _ (po_fq _ _ Hp2)).
        assert (Hmax : (need <= max_num_blocks_per_req m1 - Z.of_nat (length (cur ++ new)))%Z).
        { pose proof (ap_max _ _ _ _ _ Hpre) as Hm. apply cdiv_le in Hm; [|lia]. rewrite length_app.
          change (max_num_blocks_per_req m1) with (max_num_blocks_per_req m). lia. }
        cbn zeta. rewrite !Z.min_l by lia. rewrite (proj2 (Z.ltb_lt _ _) Hn0). cbn [py_assert mbind result_bind].
        rewrite <-Hget. f_equal. lia. }
    cbn zeta in Hget'. change (max_num_blocks_per_req m) with (max_num_blocks_per_req m1). rewrite Hget'. cbn [mbind result_bind].
    rewrite <-(assoc_L (++)). fold id in Hcommit.
    exists m', (Some nb), (drop (Z.to_nat need) l2). split.
    { change (mgr_caching (set_pool p3 _)) with (mgr_caching m1).
      assert (Hg : forall x, x = Ok m' -> (x ≫= fun m => Ok (m, Some nb)) = Ok (m', Some nb)) by (by intros ? ->).
      destruct (mgr_caching m1) eqn:Hc; cbn [negb].
      - apply Hg. exact Hcommit.
      - injection Hcommit as <-. done. }
    split; [done|]. split; [by rewrite Hd'|]. exists cur. split; [done|]. split; [done|].
    split; [done|]. split; [done|]. split; [exact (tk_nodup _ _ _ _ _ Htk)|]. split; [|split; [done|split; [|exact Hcm]]]; last first.
    { intros bs0 Em. rewrite Em in Hrem. injection Hrem as _ <-. injection Hfree as <-.
      assert (El1 : l1 = l) by (unfold l1; cbn; apply app_nil_r).
      rewrite <-El1, Hnb. fold l2. split; [exact Hge|done]. }
    intros b Hb. destruct (tk_nb _ _ _ _ _ Htk b Hb) as (Hltb & Hnb0 & Href & Hbnew).
    pose proof (sh_null _ _ _ Hs) as Hnull. pose proof (sh_num _ _ _ Hs) as Hnum.
    change (block_pool m1) with p in *. rewrite Hnull in *.
    assert (Hh : holders (req_to_blocks m1) b = 0).
    { pose proof (kv_ref _ _ H1 b) as Hr. change (block_pool m1) with p in Hr. rewrite Hnull in Hr.
      specialize (Hr Hltb Hnb0). lia. }
    split; [done|]. rewrite <-Hd1. pose proof (holders_delete (req_to_blocks m1) id b) as Hhd.
    change (default [] (req_to_blocks m1 !! id)) with (blocks_of m1 id) in Hhd. rewrite Hb1 in Hhd.
    split; [|lia]. intros [Hin|Hin]%elem_of_app; [|done]. pose proof (count_in b cur Hin). lia.
Qed.

End AllocateSlots.

(** ** Construction, lookup and reset *)

Lemma manager_init_ok {dtype} (c : KVCacheConfig (dtype := dtype)) g max_model_len caching eagle stats :
  kv_cache_groups c = [g] -> (0 < KVCacheConfig.block_size (attention (kv_cache_spec g)))%Z -> (0 < num_blocks c)%Z ->
  exists m, manager_init c max_model_len caching eagle stats = Ok m /\ kv_ok m (seq 1 (Z.to_nat (num_blocks c) - 1)) /\
    mgr_caching m = caching /\ use_eagle m = eagle /\ log_stats m = stats /\
    prefix_cache_stats m = (if stats then Some new_stats else None) /\
    block_size m = Z.to_nat (KVCacheConfig.block_size (attention (kv_cache_spec g))) /\
    req_to_blocks m = ∅ /\ req_to_block_hashes m = ∅ /\ num_cached_block m = ∅ /\ null_block (block_pool m) = 0 /\
    num_gpu_blocks (block_pool m) = Z.to_nat (num_blocks c).
Proof.
  intros Hg Hbs Hn. unfold manager_init. rewrite Hg, cdiv_ok by done. cbn [mbind result_bind].
  destruct (pool_init_ok (num_blocks c) caching Hn) as (p & -> & Hp & Hnum & Hcache & Hnull & _ & Hdata).
  cbn [mbind result_bind].
  assert (exists sm, get_specialized_manager (kv_cache_spec g) = Ok sm /\
    manager_block_size sm = KVCacheConfig.block_size (attention (kv_cache_spec g))) as (sm & -> & Hsm).
  { unfold get_specialized_manager. destruct (kv_cache_spec g) as [a|a w]; cbn in *; [by eexists|].
    rewrite cdiv_ok by done. by eexists. }
  cbn [mbind result_bind]. eexists. split; [reflexivity|]. split; [|split_and!; done].
  constructor; cbn.
  - done.
  - done.
  - rewrite Hsm. lia.
  - intros id. unfold blocks_of; cbn. rewrite lookup_empty. apply shape_nil.
  - rewrite Hnum. intros i Hi _. specialize (Hdata i Hi). unfold data in Hdata. unfold holders. rewrite map_fold_empty.
    change (Z.of_nat 0) with 0%Z. congruence.
  - rewrite Hnum. intros _ i Hi _ _. specialize (Hdata i Hi). unfold data in Hdata.
    assert (ref_cnt (blk p i) = 0%Z) as -> by congruence. lia.
  - intros _ id. unfold blocks_of; cbn. rewrite lookup_empty. split; done.
Qed.

(** Only hashes of a request without blocks, or statistics, change. *)
Lemma kv_ok_hashes m m' l id :
  kv_ok m l -> blocks_of m id = [] ->
  block_pool m' = block_pool m -> mgr_caching m' = mgr_caching m -> block_size m' = block_size m ->
  specialized_manager m' = specialized_manager m -> req_to_blocks m' = req_to_blocks m ->
  num_cached_block m' = num_cached_block m -> (forall id', id' <> id -> hashes_of m' id' = hashes_of m id') ->
  kv_ok m' l.
Proof.
  intros H Hid Ep Ec Eb Es Er En Eh.
  assert (Hb : forall id', blocks_of m' id' = blocks_of m id') by (intros; unfold blocks_of; by rewrite Er).
  constructor; rewrite ?Ep, ?Ec, ?Eb, ?Es, ?Er; try apply H.
  - intros id'. rewrite Hb. apply H.
  - intros Hc id'. rewrite Hb. destruct (kv_cached _ _ H Hc id') as [H0 H1]. split; rewrite En; [done|].
    intros Hne. destruct (H1 Hne) as (c & ? & Hk). exists c. split; [done|]. rewrite Ep, Eh; [done|].
    intros ->. by rewrite Hid in Hne.
Qed.

Lemma with_stats_ok f m :
  (log_stats m = true -> is_Some (prefix_cache_stats m)) ->
  exists s, with_stats f m = Ok (set_stats s m) /\ (log_stats m = true -> is_Some s).
Proof.
  intros Hs. unfold with_stats. destruct (log_stats m).
  - destruct (Hs eq_refl) as [x Hx]. rewrite Hx. cbn. by eexists.
  - exists (prefix_cache_stats m). by destruct m.
Qed.

Section Lookup.
Context (hash_fn : hash_input -> Z) (NONE_HASH : Z).

Lemma removelast_lookup {A} (k : list A) j x : removelast k !! j = Some x -> k !! j = Some x.
Proof.
  destruct k as [|y k _] using rev_ind; [done|]. rewrite removelast_last. apply lookup_app_l_Some.
Qed.

Lemma removelast_length {A} (k : list A) : length (removelast k) = pred (length k).
Proof. destruct k as [|y k _] using rev_ind; [done|]. rewrite removelast_last, length_app. cbn. lia. Qed.

(** What a lookup finds can be taken over by the request. *)
Lemma found_blocks_ok m l looked_up hs :
  kv_ok m l -> NoDup hs -> looked_up = hs \/ looked_up = removelast hs ->
  let found := find_longest_cache_hit (specialized_manager m) (block_pool m) looked_up in
  length found <= length looked_up /\ shape (block_pool m) found /\ req_cached (block_pool m) found hs (length found).
Proof.
  intros H Hnd Hlu. cbn zeta. set (p := block_pool m). set (found := find_longest_cache_hit _ p looked_up).
  pose proof (kv_pool _ _ H) as Hp. fold p in Hp.
  assert (Hlu' : forall j h, looked_up !! j = Some h -> hs !! j = Some h).
  { intros j h Hj. destruct Hlu as [->| ->]; [done|by apply removelast_lookup]. }
  assert (Hlen : length looked_up <= length hs) by (destruct Hlu as [->| ->]; [|rewrite removelast_length]; lia).
  pose proof (find_longest_cache_hit_length p looked_up (specialized_manager m)) as Hfl. fold found in Hfl.
  assert (Hhit : forall j b, hit p looked_up j = Some b ->
    b < num_gpu_blocks p /\ b <> null_block p /\ block_hash (blk p b) = hs !! j /\ is_Some (hs !! j)).
  { intros j b Hb. unfold hit in Hb. apply bind_Some in Hb as (h & Hh & Hb).
    pose proof (get_cached_block_spec p h (po_cache _ _ Hp)) as Hs. rewrite Hb in Hs. destruct Hs as [Hlt Hbh].
    rewrite (Hlu' _ _ Hh). split_and!; [by rewrite <-(po_len _ _ Hp)| |done|by eexists].
    intros ->. destruct (po_null _ _ Hp) as (_ & _ & Hn). congruence. }
  assert (Hfound : forall j b, found !! j = Some b -> b <> null_block p -> hit p looked_up j = Some b).
  { intros j b Hj Hn. by destruct (find_longest_cache_hit_blocks p looked_up (specialized_manager m) b j Hj) as [->|]. }
  assert (Hstruct : exists k, k <= length found /\ (forall j, j < k -> found !! j = Some (null_block p)) /\
    (forall j, k <= j < length found -> found !! j = hit p looked_up j) /\ (k = 0 \/ k < length found)).
  { unfold found. destruct (specialized_manager m) as [bs|bs w c].
    - cbn [find_longest_cache_hit]. exists 0. split; [lia|]. split; [intros; lia|]. split; [|by left]. intros j Hj.
      destruct (full_find_ok p looked_up) as (_ & H2 & _). apply H2. lia.
    - destruct (sliding_window_find_ok p looked_up bs w c) as (_ & _ & _ & H2).
      set (r := find_longest_cache_hit _ p looked_up) in *. set (need := Nat.max 1 (Z.to_nat c)) in *.
      assert (Hneed : 1 <= need) by (unfold need; lia). exists (length r - need). split; [lia|]. split; [|split; [|lia]].
      + intros j Hj. rewrite H2, decide_False by lia. done.
      + intros j Hj. rewrite H2, decide_True by lia. done. }
  destruct Hstruct as (k & Hk & Hnull & Hrest & Hk0).
  split; [done|]. split.
  - exists k, (drop k found). split_and!.
    + rewrite <-(take_drop k found) at 1. f_equal. apply list_eq. intros j.
      destruct (decide (j < k)) as [Hj|Hj].
      * rewrite lookup_take_lt, lookup_replicate_2 by done. by apply Hnull.
      * rewrite !lookup_ge_None_2; [done|rewrite length_replicate; lia|rewrite length_take; lia].
    + apply NoDup_alt. intros i j b Hi Hj. rewrite lookup_drop in Hi, Hj.
      pose proof (lookup_lt_Some _ _ _ Hi). pose proof (lookup_lt_Some _ _ _ Hj).
      rewrite Hrest in Hi, Hj by lia.
      destruct (Hhit _ _ Hi) as (_ & _ & E1 & [h Hh]), (Hhit _ _ Hj) as (_ & _ & E2 & _).
      assert (k + i = k + j); [|lia]. eapply (proj1 (NoDup_alt hs) Hnd _ _ h); congruence.
    + apply Forall_forall. intros b Hb. apply list_elem_of_lookup in Hb as [j Hj]. rewrite lookup_drop in Hj.
      pose proof (lookup_lt_Some _ _ _ Hj). rewrite Hrest in Hj by lia. by destruct (Hhit _ _ Hj) as (? & ? & _).
  - constructor; fold p.
    + done.
    + lia.
    + intros j Hj Hb. pose proof (lookup_lt_Some _ _ _ Hb). rewrite Hrest in Hb by lia. by destruct (Hhit _ _ Hb) as (_ & ? & _).
    + intros j b Hj Hb Hn. by destruct (Hhit _ _ (Hfound j b Hb Hn)) as (_ & _ & ? & _).
    + intros j b Hj Hb. pose proof (lookup_lt_Some _ _ _ Hb). lia.
Qed.

Lemma hash_request_tokens_nodup `{!CollisionFree hash_fn NONE_HASH} bs r hs :
  0 < bs -> mm_ok r -> hash_request_tokens hash_fn NONE_HASH bs r = Ok hs ->
  NoDup hs /\ length hs * bs <= length (all_token_ids r).
Proof.
  intros Hbs Hmm Hh. rewrite hash_request_tokens_ok in Hh by done. injection Hh as <-. split.
  - apply NoDup_alt. intros i j h Hi Hj. by destruct (hash_chain_inj _ _ _ _ _ _ _ _ Hi Hj eq_refl).
  - rewrite hash_chain_length, length_fmap, length_seq. rewrite Nat.mul_comm. apply Nat.Div0.mul_div_le.
Qed.

Lemma req_cached_removelast p new hs :
  shape p new -> req_cached p new hs (length new) -> (forall b, b ∈ new -> b <> null_block p) ->
  shape p (removelast new) /\ req_cached p (removelast new) hs (length (removelast new)).
Proof.
  intros (k & rest & E & Hnd & Hr) Hrc Hnn.
  assert (k = 0) as ->.
  { destruct k as [|k]; [done|exfalso]. apply (Hnn (null_block p)); [|done]. rewrite E. by left. }
  cbn in E. subst rest. pose proof (removelast_length new) as Hlen. split.
  - exists 0, (removelast new). cbn. split; [done|]. destruct new as [|y new _] using rev_ind; [done|].
    rewrite removelast_last. apply NoDup_app in Hnd as (? & _). by apply Forall_app in Hr as [? _].
  - constructor.
    + done.
    + pose proof (rc_hs _ _ _ _ Hrc). lia.
    + intros j _ Hb. apply removelast_lookup, list_elem_of_lookup_2 in Hb. by apply (Hnn _ Hb).
    + intros j b Hj Hb Hn. apply (rc_old _ _ _ _ Hrc); [lia|by apply removelast_lookup|done].
    + intros j b Hj Hb. apply lookup_lt_Some in Hb. lia.
Qed.

(** The hashes a lookup starts from are usable: none yet, or those of an earlier
  attempt. *)
Definition hashes_ready (m : KVCacheManager) (r : Request) : Prop :=
  (request_hashes m r = [] /\ mm_ok r) \/
  (request_hashes m r <> [] /\ NoDup (request_hashes m r) /\
   length (request_hashes m r) * block_size m <= length (all_token_ids r)).

Lemma lookup_hashes_ok m r hs :
  0 < block_size m -> all_token_ids r <> [] -> length hs * block_size m <= length (all_token_ids r) ->
  exists looked_up, lookup_hashes m r hs = Ok looked_up /\ (looked_up = hs \/ looked_up = removelast hs) /\
    length looked_up * block_size m < length (all_token_ids r).
Proof.
  intros Hbs Hne Hle. unfold lookup_hashes, num_tokens.
  destruct (Z.eqb_spec (Z.of_nat (length hs) * Z.of_nat (block_size m)) (Z.of_nat (length (all_token_ids r)))) as [E|E].
  - destruct hs as [|h hs _] using rev_ind.
    { exfalso. destruct (all_token_ids r); [done|]. cbn in E. lia. }
    rewrite last_snoc. cbn [of_option mbind result_bind]. eexists. split; [done|]. split; [by right|].
    rewrite removelast_last. rewrite length_app in E. cbn in E. nia.
  - eexists. split; [done|]. split; [by left|]. nia.
Qed.

Lemma get_computed_blocks_ok `{!CollisionFree hash_fn NONE_HASH} m l r :
  kv_ok m l -> mgr_caching m = true -> blocks_of m (request_id r) = [] -> hashes_ready m r ->
  all_token_ids r <> [] -> (log_stats m = true -> is_Some (prefix_cache_stats m)) ->
  exists m' new, get_computed_blocks hash_fn NONE_HASH m r = Ok (m', (new, (Z.of_nat (length new) * Z.of_nat (block_size m))%Z)) /\
    kv_ok m' l /\ block_pool m' = block_pool m /\ req_to_blocks m' = req_to_blocks m /\
    num_cached_block m' = num_cached_block m /\ specialized_manager m' = specialized_manager m /\
    max_num_blocks_per_req m' = max_num_blocks_per_req m /\ block_size m' = block_size m /\
    length new * block_size m < length (all_token_ids r) /\
    (use_eagle m = false \/ (exists bs0, specialized_manager m = FullAttentionManager bs0) ->
       shape (block_pool m) new /\ req_cached (block_pool m) new (hashes_of m' (request_id r)) (length new)).
Proof.
  intros H Hc Hid Hready Hne Hstats. pose proof (kv_size _ _ H) as [Hbs _]. unfold get_computed_blocks.
  rewrite Hc. cbn [negb].
  assert (exists hs, (match request_hashes m r with [] => hash_request_tokens hash_fn NONE_HASH (block_size m) r | hs => Ok hs end) = Ok hs /\
    NoDup hs /\ length hs * block_size m <= length (all_token_ids r)) as (hs & -> & Hnd & Hlen).
  { destruct Hready as [[-> Hmm]|(Hn & Hnd & Hl)].
    - pose proof (hash_request_tokens_ok hash_fn NONE_HASH (block_size m) r Hbs Hmm) as E. rewrite E.
      eexists. split; [done|]. by eapply hash_request_tokens_nodup.
    - destruct (request_hashes m r) as [|h hs]; [done|]. by exists (h :: hs). }
  cbn [mbind result_bind].
  set (m1 := set_req_hashes (<[request_id r:=hs]> (req_to_block_hashes m)) m).
  destruct (with_stats_ok (fun s => {| reset := reset s; requests := requests s + 1; queries := queries s; hits := hits s |}) m1 Hstats)
    as (s1 & -> & Hs1). cbn [mbind result_bind].
  set (m2 := set_stats s1 m1).
  assert (Hh : forall s, hashes_of (set_stats s m1) (request_id r) = hs) by (intros s; unfold hashes_of; cbn; by rewrite lookup_insert_eq).
  assert (Hkv : forall s, kv_ok (set_stats s m1) l).
  { intros s. eapply (kv_ok_hashes m); try done. intros id' Hne'. unfold hashes_of; cbn. by rewrite lookup_insert_ne. }
  case_bool_decide as Hpl.
  - exists m2, []. split; [done|]. split; [apply Hkv|]. split_and!; try done.
    { cbn. destruct (all_token_ids r); [done|cbn; lia]. }
    intros _. split; [apply shape_nil|]. constructor; cbn; try lia; intros; done.
  - destruct (lookup_hashes_ok m2 r hs Hbs Hne Hlen) as (looked_up & -> & Hlu & Hlt). cbn [mbind result_bind].
    destruct (found_blocks_ok m l looked_up hs H Hnd Hlu) as (Hfl & Hsh & Hrc).
    change (specialized_manager m2) with (specialized_manager m). change (block_pool m2) with (block_pool m).
    set (found := find_longest_cache_hit (specialized_manager m) (block_pool m) looked_up) in *.
    change (use_eagle m2) with (use_eagle m). change (block_size m2) with (block_size m) in *.
    set (new := if use_eagle m then removelast found else found).
    destruct (with_stats_ok (fun s => {| reset := reset s; requests := requests s;
        queries := queries s + Z.of_nat (length looked_up); hits := hits s + Z.of_nat (length new) |}) m2 Hs1) as (s2 & -> & _).
    cbn [mbind result_bind]. exists (set_stats s2 m2), new. split; [done|].
    split; [exact (Hkv s2)|]. split_and!; try done.
    { assert (length new <= length found) by (unfold new; destruct (use_eagle m); rewrite ?removelast_length; lia). nia. }
    change (hashes_of (set_stats s2 m2) (request_id r)) with (hashes_of (set_stats s2 m1) (request_id r)). rewrite Hh.
    unfold new. destruct (use_eagle m); [|done]. intros [?|[bs0 Hf]]; [done|].
    apply req_cached_removelast; [done|done|]. intros b Hb.
    apply list_elem_of_lookup in Hb as [j Hj]. pose proof (lookup_lt_Some _ _ _ Hj) as Hjl.
    unfold found in Hj. rewrite Hf in Hj. destruct (full_find_ok (block_pool m) looked_up) as (_ & H2 & _).
    cbn [find_longest_cache_hit] in Hj. rewrite H2 in Hj by (by eapply lookup_lt_Some).
    unfold hit in Hj. apply bind_Some in Hj as (h & _ & Hg).
    pose proof (get_cached_block_spec _ h (po_cache _ _ (kv_pool _ _ H))) as Hs. rewrite Hg in Hs. destruct Hs as [_ Hs].
    intros ->. destruct (po_null _ _ (kv_pool _ _ H)) as (_ & _ & Hn). congruence.
Qed.

(** The hashes that a lookup uses: those of an earlier attempt, else computed now. *)
Definition lookup_starts_from (m : KVCacheManager) (r : Request) (hs : list BlockHashType) : Prop :=
  match request_hashes m r with [] => hash_request_tokens hash_fn NONE_HASH (block_size m) r = Ok hs | hs' => hs = hs' end.

(** What [get_computed_blocks] finds. *)
Lemma get_computed_blocks_found m r m' new n : mgr_caching m = true -> get_computed_blocks hash_fn NONE_HASH m r = Ok (m', (new, n)) ->
  let hs := hashes_of m' (request_id r) in
  lookup_starts_from m r hs /\
  (is_Some (prompt_logprobs (sampling_params r)) -> new = []) /\
  (prompt_logprobs (sampling_params r) = None ->
   let looked_up := if (Z.of_nat (length hs) * Z.of_nat (block_size m) =? num_tokens r)%Z then removelast hs else hs in
   exists found, longest_hit (specialized_manager m) (block_pool m) looked_up found /\ new = if use_eagle m then removelast found else found).
Proof.
  intros Hc Hrun hs. unfold get_computed_blocks in Hrun. rewrite Hc in Hrun. cbn [negb] in Hrun. apply bind_ok in Hrun as (hashes & Eh & Hrun).
  apply bind_ok in Hrun as (m2 & E2 & Hrun).
  assert (Hstats : forall f m1 m3, with_stats f m1 = Ok m3 -> exists st, m3 = set_stats st m1).
  { intros f m1 m3 E. unfold with_stats in E. destruct (log_stats m1); [|injection E as <-; exists (prefix_cache_stats m1); by destruct m1].
    apply bind_ok in E as (st & _ & E). injection E as <-. by eexists. }
  destruct (Hstats _ _ _ E2) as [st ->].
  assert (Hhs : forall st, hashes_of (set_stats st (set_req_hashes (<[request_id r:=hashes]> (req_to_block_hashes m)) m)) (request_id r) = hashes).
  { intros st'. unfold hashes_of. cbn. by rewrite lookup_insert_eq. }
  assert (Hs : lookup_starts_from m r hashes) by (unfold lookup_starts_from; destruct (request_hashes m r); [done|congruence]).
  case_bool_decide as Hp.
  - injection Hrun as <- <- _. unfold hs. rewrite Hhs. split; [done|]. split; [done|]. intros E. rewrite E in Hp. by destruct Hp.
  - apply bind_ok in Hrun as (lk & El & Hrun). apply bind_ok in Hrun as (m3 & E3 & Hrun). injection Hrun as <- <- _.
    destruct (Hstats _ _ _ E3) as [st' ->]. unfold hs. change (set_stats st' (set_stats st ?x)) with (set_stats st' x). rewrite Hhs.
    split; [done|]. split; [done|]. intros _. cbv zeta. exists (find_longest_cache_hit (specialized_manager m) (block_pool m) lk). split; [|done].
    enough (E : lk = if (Z.of_nat (length hashes) * Z.of_nat (block_size m) =? num_tokens r)%Z then removelast hashes else hashes) by (rewrite <-E; apply find_longest_hit).
    unfold lookup_hashes in El. cbn [block_size set_stats set_req_hashes] in El.
    destruct (_ =? _)%Z; [|congruence]. apply bind_ok in El as (? & _ & El). congruence.
Qed.

End Lookup.

(** ** Properties *)

Definition demo_manager (num_gpu_blocks max_len : Z) : result KVCacheManager :=
  manager_init {| num_blocks := num_gpu_blocks; tensors := []; kv_cache_groups :=
      [{| layer_names := []; kv_cache_spec := FullAttentionSpec
          {| KVCacheConfig.block_size := 4; num_kv_heads := 1; head_size := 1; spec_dtype := tt; use_mla := false |} |}] |}
    max_len true false false.

(** A request [r] as the scheduler sees it between steps. *)
Definition demo_state (toks spec : list Z) (computed : Z) : Request :=
  set_num_computed_tokens computed (set_spec_token_ids spec (demo_prompt toks [])).

(** Each call with the request's state, the number of tokens and of lookahead tokens. *)
Definition demo_calls (m : KVCacheManager) (calls : list (Request * Z * Z)) : result KVCacheManager :=
  foldM (fun m '(r, n, la) => fst <$> allocate_slots (fun _ => 7%Z) (-1) m r n [] la) m calls.

(** Two states in which [allocate_slots] fails an assertion although
    requests and memory are as the scheduler may have them.  (1) With draft
    tokens and a token budget that schedules fewer tokens than there are drafts,
    the number of full blocks is computed from the untrimmed drafts and drops
    below the number of cached blocks; the counter is set back, and the next
    call finds a block that already has a hash.  (2) With lookahead tokens, a
    request at its maximum length needs a block beyond its block table, and the
    number of new blocks becomes zero. *)
Theorem allocate_slots_assertions :
  let nine := [1; 2; 3; 4; 5; 6; 7; 8; 9]%Z in
  (exists m, demo_manager 10 100 = Ok m /\
     is_ok (demo_calls m [(demo_state nine [] 0, 9%Z, 0%Z);
                          (demo_state (nine ++ [10%Z]) [11; 12; 13; 14]%Z 9, 1%Z, 0%Z)]) = true /\
     demo_calls m [(demo_state nine [] 0, 9%Z, 0%Z);
                   (demo_state (nine ++ [10%Z]) [11; 12; 13; 14]%Z 9, 1%Z, 0%Z);
                   (demo_state (nine ++ [10; 11]%Z) [] 10, 1%Z, 0%Z)] = Err AssertionError) /\
  (exists m, demo_manager 10 8 = Ok m /\
     is_ok (demo_calls m [(demo_state (take 7 nine) [] 0, 7%Z, 2%Z)]) = true /\
     demo_calls m [(demo_state (take 7 nine) [] 0, 7%Z, 2%Z);
                   (demo_state (take 8 nine) [] 7, 1%Z, 2%Z)] = Err AssertionError).
Proof.
  cbn zeta. split; (eexists; split; [vm_compute; reflexivity|split; vm_compute; reflexivity]).
Qed.

(** C28: Allocating slots.  In a consistent manager, and under the conditions of
    [alloc_pre], [allocate_slots] raises nothing and the manager stays
    consistent; only the request's own entry changes.  Either there is too little
    room, and then only blocks that left the sliding window are given back; or
    the request gets exactly the number of new blocks that covers its tokens and
    lookahead, behind the blocks it had and the ones the prefix cache found: the
    new blocks are distinct, not the null block, not yet in the request, and held
    by no other request.  With full attention there is too little room exactly
    when the need exceeds the free blocks minus the evictable computed ones, and
    the new blocks are the head of the free queue.  With caching on, the request's
    counter of cached blocks is the number of its full blocks, and its hashes are
    extended to them. *)
Theorem allocate_slots_correct hash_fn NONE_HASH m l r num_tokens new la :
  kv_ok m l -> alloc_pre m r num_tokens new la ->
  let id := request_id r in
  exists m' res l', allocate_slots hash_fn NONE_HASH m r num_tokens new la = Ok (m', res) /\ kv_ok m' l' /\
    delete id (req_to_blocks m') = delete id (req_to_blocks m) /\
    exists cur, length cur = length (blocks_of m id) /\
      (forall j b, cur !! j = Some b -> b <> null_block (block_pool m) -> blocks_of m id !! j = Some b) /\
      match res with
      | None => blocks_of m' id = cur /\
          (Z.of_nat (length l') - num_evictable (block_pool m') new < num_needed m r num_tokens new la)%Z /\
          (forall bs0, specialized_manager m = FullAttentionManager bs0 ->
             l' = l /\ block_pool m' = block_pool m)
      | Some nb => blocks_of m' id = cur ++ new ++ nb /\
          length nb = Z.to_nat (num_needed m r num_tokens new la) /\ NoDup nb /\
          (forall b, b ∈ nb -> b <> null_block (block_pool m) /\ b ∉ cur ++ new /\
             holders (delete id (req_to_blocks m)) b = 0) /\
          (num_computed_tokens r + Z.of_nat (length new) * Z.of_nat (block_size m) + num_tokens + la <=
             Z.of_nat (length (cur ++ new ++ nb)) * Z.of_nat (block_size m))%Z /\
          (forall bs0, specialized_manager m = FullAttentionManager bs0 ->
             (num_needed m r num_tokens new la <= Z.of_nat (length l) - num_evictable (block_pool m) new)%Z /\
             nb = take (length nb) (filter (fun x => x ∉ new) l) /\
             l' = drop (length nb) (filter (fun x => x ∉ new) l)) /\
          (mgr_caching m = true -> committed hash_fn NONE_HASH m m' r num_tokens new)
      end.
Proof. apply allocate_slots_ok. Qed.

(** A manager of ten blocks of four tokens, for requests of up to 100 tokens. *)
Lemma demo_manager_ok :
  exists m, demo_manager 10 100 = Ok m /\ kv_ok m (seq 1 9) /\ mgr_caching m = true /\ use_eagle m = false /\
    log_stats m = false /\ block_size m = 4 /\ req_to_blocks m = ∅ /\ req_to_block_hashes m = ∅ /\
    num_cached_block m = ∅ /\ null_block (block_pool m) = 0 /\ num_gpu_blocks (block_pool m) = 10 /\
    specialized_manager m = FullAttentionManager 4 /\ max_num_blocks_per_req m = 25%Z.
Proof.
  destruct (manager_init_ok {| num_blocks := 10; tensors := []; kv_cache_groups :=
      [{| layer_names := []; kv_cache_spec := FullAttentionSpec
          {| KVCacheConfig.block_size := 4; num_kv_heads := 1; head_size := 1; spec_dtype := tt; use_mla := false |} |}] |}
    _ 100 true false false eq_refl ltac:(cbn; lia) ltac:(cbn; lia)) as (m & Hm & Hok & ? & ? & ? & ? & ? & ? & ? & ? & ? & ?).
  exists m. split; [exact Hm|]. split; [exact Hok|].
  assert (specialized_manager m = FullAttentionManager 4 /\ max_num_blocks_per_req m = 25%Z) as [? ?].
  { unfold manager_init in Hm. cbn [kv_cache_groups attention kv_cache_spec KVCacheConfig.block_size] in Hm.
    apply bind_ok in Hm as (mb & Hmb & Hm). apply bind_ok in Hm as (pool & _ & Hm).
    vm_compute in Hmb. injection Hmb as <-. cbn in Hm. injection Hm as <-. done. }
  done.
Qed.

Definition nine : Request := demo_state [1; 2; 3; 4; 5; 6; 7; 8; 9]%Z [] 0.

Lemma demo_alloc_pre m :
  mgr_caching m = true -> block_size m = 4 -> req_to_blocks m = ∅ -> num_cached_block m = ∅ ->
  specialized_manager m = FullAttentionManager 4 -> max_num_blocks_per_req m = 25%Z ->
  alloc_pre m nine 9 [] 0.
Proof.
  intros Hc Hb Hr Hn Hs Hm.
  assert (Hid : blocks_of m (request_id nine) = []) by (unfold blocks_of; by rewrite Hr, lookup_empty).
  constructor.
  - cbn. lia.
  - unfold window_ok. by rewrite Hs.
  - by left.
  - apply shape_nil.
  - done.
  - intros _. constructor; cbn; try lia; intros; done.
  - rewrite Hb, Hm. cbn. lia.
  - intros _. rewrite Hb, Hn, lookup_empty. split; vm_compute; discriminate.
  - intros _. by apply keys_total_text.
Qed.

Lemma allocate_slots_correct_witness :
  exists m m' nb l', demo_manager 10 100 = Ok m /\
    allocate_slots encode_hash (-1) m nine 9 [] 0 = Ok (m', Some nb) /\ nb = [1; 2; 3] /\ kv_ok m' l'.
Proof.
  destruct demo_manager_ok as (m & Hm & Hok & Hc & _ & _ & Hb & Hr & _ & Hn & _ & _ & Hs & Hmax).
  pose proof (demo_alloc_pre m Hc Hb Hr Hn Hs Hmax) as Hpre.
  destruct (allocate_slots_correct encode_hash (-1) m (seq 1 9) nine 9 [] 0 Hok Hpre)
    as (m' & res & l' & Hrun & Hok' & _ & cur & Hlen & _ & Hres).
  assert (Hneed : num_needed m nine 9 [] 0 = 3%Z).
  { unfold num_needed, blocks_of. rewrite Hb, Hr, lookup_empty. reflexivity. }
  exists m, m'. destruct res as [nb|].
  - exists nb, l'. destruct Hres as (_ & Hlnb & _ & _ & _ & Hfull & _). destruct (Hfull 4%Z Hs) as (_ & Hnb & _).
    rewrite Hneed in Hlnb. rewrite Hlnb in Hnb. split; [exact Hm|]. split; [exact Hrun|]. split; [exact Hnb|exact Hok'].
  - exfalso. destruct Hres as (_ & Hlt & Hfull). destruct (Hfull 4%Z Hs) as [-> _]. rewrite Hneed in Hlt.
    unfold num_evictable in Hlt. cbn in Hlt. lia.
Defined.

(** C31: Prefix lookup for a waiting request.  With a collision-free hash
    function [get_computed_blocks] raises nothing and changes neither pool nor
    any request's blocks.  Unless prompt log probabilities are wanted, the blocks
    are the longest cache hit for the request's hashes, where the last hash is left
    out if the blocks would cover the whole request (and the last block of the hit
    is dropped for EAGLE): every cached prefix is found.  The number of computed
    tokens is that of whole blocks and always less than the number of tokens of the
    request, so that at least one token is left to compute.  The blocks can be
    handed to [allocate_slots]: apart from null blocks in front they are distinct,
    and the block at each position carries the hash of the request at that
    position. *)
Theorem get_computed_blocks_correct hash_fn NONE_HASH `{!CollisionFree hash_fn NONE_HASH} m l r :
  kv_ok m l -> mgr_caching m = true -> blocks_of m (request_id r) = [] -> hashes_ready m r ->
  all_token_ids r <> [] -> (log_stats m = true -> is_Some (prefix_cache_stats m)) ->
  exists m' new num_computed, get_computed_blocks hash_fn NONE_HASH m r = Ok (m', (new, num_computed)) /\
    kv_ok m' l /\ block_pool m' = block_pool m /\ req_to_blocks m' = req_to_blocks m /\
    num_computed = (Z.of_nat (length new) * Z.of_nat (block_size m))%Z /\ (num_computed < num_tokens r)%Z /\
    (let hs := hashes_of m' (request_id r) in
     lookup_starts_from hash_fn NONE_HASH m r hs /\
     (is_Some (prompt_logprobs (sampling_params r)) -> new = []) /\
     (prompt_logprobs (sampling_params r) = None ->
      let looked_up := if (Z.of_nat (length hs) * Z.of_nat (block_size m) =? num_tokens r)%Z then removelast hs else hs in
      exists found, longest_hit (specialized_manager m) (block_pool m) looked_up found /\ new = if use_eagle m then removelast found else found)) /\
    (use_eagle m = false \/ (exists bs0, specialized_manager m = FullAttentionManager bs0) ->
       shape (block_pool m) new /\
       forall j b, new !! j = Some b -> b <> null_block (block_pool m) ->
         block_hash (blk (block_pool m) b) = hashes_of m' (request_id r) !! j /\ j < length (hashes_of m' (request_id r))).
Proof.
  intros H Hc Hid Hr Hne Hst.
  destruct (get_computed_blocks_ok hash_fn NONE_HASH m l r H Hc Hid Hr Hne Hst)
    as (m' & new & Hrun & Hok & Hp & Hb & _ & _ & _ & _ & Hlt & Hnew).
  eexists m', new, _. split; [exact Hrun|]. split; [done|]. split; [done|]. split; [done|]. split; [done|].
  split; [unfold num_tokens; lia|]. split; [by eapply get_computed_blocks_found|].
  intros Hcond. destruct (Hnew Hcond) as [Hsh Hrc]. split; [done|]. intros j b Hj Hn.
  pose proof (lookup_lt_Some _ _ _ Hj). split; [by apply (rc_old _ _ _ _ Hrc)|].
  pose proof (rc_hs _ _ _ _ Hrc). lia.
Qed.

(** A request that starts as [nine] does. *)
Definition eight : Request :=
  match request_init "other" [1; 2; 3; 4; 5; 6; 7; 8]%Z (Some 0) (Some []) (Some []) demo_params None None false with
  | Ok r => r
  | Err _ => nine
  end.

(** Both of its blocks are cached, but a token must be left to compute. *)
Lemma get_computed_blocks_correct_witness :
  exists m m1 m' new num_computed, demo_manager 10 100 = Ok m /\ allocate_slots encode_hash (-1) m nine 9 [] 0 = Ok (m1, Some [1; 2; 3]) /\
    get_computed_blocks encode_hash (-1) m1 eight = Ok (m', (new, num_computed)) /\ new = [1] /\ num_computed = 4%Z /\
    exists found, longest_hit (specialized_manager m1) (block_pool m1) (take 1 (hashes_of m' "other")) found /\ found = [1].
Proof.
  destruct demo_manager_ok as (m & Hm & Hok & Hc & _ & _ & Hb & Hr & _ & Hn & _ & _ & Hs & Hmax).
  destruct (allocate_slots_ok encode_hash (-1) m (seq 1 9) nine 9 [] 0 Hok (demo_alloc_pre m Hc Hb Hr Hn Hs Hmax)) as (m1 & res & l1 & Hrun & Hok1 & _).
  assert (Hall : (m ← demo_manager 10 100; '(m1, res) ← allocate_slots encode_hash (-1) m nine 9 [] 0;
    '(m2, (new, n)) ← get_computed_blocks encode_hash (-1) m1 eight;
    Ok (res, new, n, mgr_caching m1, blocks_of m1 "other", request_hashes m1 eight, log_stats m1, use_eagle m1, block_size m1, length (hashes_of m2 "other")))
    = Ok (Some [1; 2; 3], [1], 4%Z, true, [], [], false, false, 4, 2)) by (vm_compute; reflexivity).
  rewrite Hm in Hall. cbn [mbind result_bind] in Hall. rewrite Hrun in Hall. cbn [mbind result_bind] in Hall.
  apply bind_ok in Hall as ([m2 [new n]] & Hget & Hall). injection Hall as -> -> -> Hc1 Hb1 Hh1 Hl1 He1 Hbs1 Hlen.
  destruct (get_computed_blocks_correct encode_hash (-1) m1 l1 eight Hok1 Hc1 Hb1) as (m' & new & n & Hrun' & _ & _ & _ & _ & _ & (_ & _ & Hfound) & _).
  - left. split; [exact Hh1|split; done].
  - done.
  - by rewrite Hl1.
  - rewrite Hget in Hrun'. injection Hrun' as <- <- <-. exists m, m1, m2, [1], 4%Z.
    split; [exact Hm|]. split; [exact Hrun|]. split; [exact Hget|]. split; [reflexivity|]. split; [reflexivity|].
    destruct (Hfound eq_refl) as (found & Hf & Hnew). rewrite He1 in Hnew. exists found. split; [|symmetry; exact Hnew].
    change (request_id eight) with "other" in Hf. rewrite Hbs1, Hlen in Hf. change (Z.of_nat 2 * Z.of_nat 4 =? num_tokens eight)%Z with true in Hf.
    destruct (hashes_of m2 "other") as [|h1 [|h2 [|]]]; try discriminate Hlen. exact Hf.
Defined.

(** Freeing a request.  [free] raises nothing, keeps the manager consistent
    and removes exactly this request: its blocks lose one holder, those that no
    other request holds go to the end of the free queue (in reverse order with
    caching on, so that the tail of the prefix is evicted first), and their hashes
    stay in the cache for later requests. *)
Theorem free_correct m l r :
  kv_ok m l ->
  let id := request_id r in
  let bs := blocks_of m id in
  exists m' l', free m r = Ok m' /\ kv_ok m' l' /\ blocks_of m' id = [] /\
    delete id (req_to_blocks m') = delete id (req_to_blocks m) /\ req_to_block_hashes m' = req_to_block_hashes m /\
    l' = l ++ filter (fun b => b <> null_block (block_pool m) /\ holders (delete id (req_to_blocks m)) b = 0)
               (if mgr_caching m then reverse bs else bs).
Proof.
  intros H. cbn zeta. destruct (free_ok m l r H) as (m' & Hrun & Hok & Hb & Hd & Hh & _).
  eexists m', _. split; [exact Hrun|]. split; [exact Hok|]. split; [done|]. split; [done|]. split; [done|].
  f_equal. unfold released. set (ordered := if mgr_caching m then _ else _).
  assert (Hin : forall b, b ∈ ordered -> b ∈ blocks_of m (request_id r)).
  { intros b. unfold ordered. destruct (mgr_caching m); [by rewrite elem_of_reverse|done]. }
  clearbody ordered. induction ordered as [|b k IH]; [done|].
  rewrite !filter_cons, IH by (intros x Hx; apply Hin; by right).
  pose proof (Hin b ltac:(by left)) as Hb'. destruct (decide (b = null_block (block_pool m))) as [->|Hn].
  { by rewrite !decide_False by tauto. }
  destruct (held_not_free m l _ b H Hb' Hn) as (Hlt & _ & _).
  pose proof (kv_ref _ _ H b Hlt Hn) as Href. rewrite (holders_delete _ (request_id r)) in Href.
  fold (blocks_of m (request_id r)) in Href.
  assert (Hcount : count b (blocks_of m (request_id r)) = 1).
  { destruct (kv_shape _ _ H (request_id r)) as (k0 & rest & E & Hnd & _). rewrite E in *.
    rewrite count_app, count_replicate by done. rewrite count_nodup, decide_True; [done| |done].
    apply elem_of_app in Hb' as [Hb'|]; [|done]. by apply elem_of_replicate in Hb' as [-> _]. }
  rewrite Hcount in Href.
  destruct (decide (holders (delete (request_id r) (req_to_blocks m)) b = 0)) as [E|E].
  - rewrite !decide_True; [done|done|]. split; [done|lia].
  - rewrite !decide_False; [done|tauto|]. intros [_ ?]. lia.
Qed.

Lemma free_correct_witness :
  exists m m' l', demo_manager 10 100 = Ok m /\ free m nine = Ok m' /\ kv_ok m' l'.
Proof.
  destruct demo_manager_ok as (m & Hm & Hok & _).
  destruct (free_correct m (seq 1 9) nine Hok) as (m' & l' & Hrun & Hok' & _).
  exists m, m', l'. exact (conj Hm (conj Hrun Hok')).
Defined.
