(* ===== verification/KVCacheLink.v ===== *)
(** * Requests and the KV-cache manager in step

    The bookkeeping of [KVCacheManager] for a request agrees with the request's
    own counters: its blocks cover the computed tokens, the counter of cached
    blocks is the number of full computed blocks, and its block hashes form a
    chain over whole blocks of its tokens.  This is what makes every call that
    the scheduler issues meet the preconditions of [KVCacheManager.v]. *)

From S2P Require Import Prelude KVCacheConfig PrefixMetrics FreeBlockQueue.
From S2P Require Import Request BlockHash BlockPool SpecializedManager KVCacheManager.

(** ** What an operation on one request leaves alone *)

(** The size of the pool and its null block never change. *)
Definition same_pool (p p' : BlockPool) : Prop := num_gpu_blocks p' = num_gpu_blocks p /\ null_block p' = null_block p.

#[export] Instance same_pool_preorder : PreOrder same_pool.
Proof. split; [done|]. intros p1 p2 p3 [? ?] [? ?]. split; congruence. Qed.

Lemma evict_same p b p' e : maybe_evict_cached_block p b = Ok (p', e) -> same_pool p p'.
Proof.
  unfold maybe_evict_cached_block. destruct (block_hash _) as [h|]; [|by intros [= <- <-]].
  destruct (_ !! h); [|by intros [= <- <-]]. intros H. by invert_ok.
Qed.

Lemma free_blocks_same p bs p' : free_blocks p bs = Ok p' -> same_pool p p'.
Proof.
  intros H. refine (foldM_inv (same_pool p) _ _ _ _ _ _ H); [done|].
  intros b p1 p2 _ E. unfold free_block. destruct (_ && _); intros Hb; by invert_ok.
Qed.

Lemma touch_same p bs : same_pool p (touch p bs).
Proof.
  unfold touch. revert p. induction bs as [|b bs IH]; intros p; [done|]. cbn [foldl]. etransitivity; [|apply IH].
  unfold touch_block. by destruct (_ && _).
Qed.

Lemma get_new_blocks_same p n p' bs : get_new_blocks p n = Ok (p', bs) -> same_pool p p'.
Proof.
  unfold get_new_blocks. destruct (_ <? _)%Z; [done|]. generalize (Z.to_nat n) as k. intros k. revert p bs.
  induction k as [|k IH]; intros p bs; cbn [get_new_blocks_loop]; [by intros [= <- <-]|]. intros H.
  apply bind_ok in H as ([p1 b] & H1 & H). apply bind_ok in H as ([p2 bs2] & H2 & H). injection H as <- <-.
  etransitivity; [|by eapply IH]. unfold get_new_block in H1. apply bind_ok in H1 as ([[s q] b'] & _ & H1).
  apply bind_ok in H1 as (u & _ & H1). apply bind_ok in H1 as (p3 & H3 & H1). injection H1 as <- <-.
  destruct (enable_caching _); [|by injection H3 as <-].
  destruct (maybe_evict_cached_block _ _) as [[p4 e]|] eqn:E; [|done]. injection H3 as <-. exact (evict_same _ _ _ _ E).
Qed.

Lemma cache_full_same hf nh p r bs hs a b c p' hs' : cache_full_blocks hf nh p r bs hs a b c = Ok (p', hs') -> same_pool p p'.
Proof.
  unfold cache_full_blocks. destruct (a =? b)%Z; [by intros [= <- <-]|]. intros H.
  apply bind_ok in H as (u & _ & H). apply bind_ok in H as (prev & _ & H).
  apply bind_ok in H as ([[p1 hs1] o] & H1 & H). injection H as <- <-.
  refine (foldM_inv (fun y => same_pool p y.1.1) _ (p, hs, prev) _ (p1, hs1, o) _ _ H1); [done|].
  intros [i x] [[q1 h1] o1] y2 _ E Hy. unfold cache_block in Hy. invert_ok. destruct x1 as [h hs2]. by invert_ok.
Qed.

Record kv_consts (m m' : KVCacheManager) : Prop := {
  kc_size : block_size m' = block_size m;
  kc_max : max_num_blocks_per_req m' = max_num_blocks_per_req m;
  kc_caching : mgr_caching m' = mgr_caching m;
  kc_eagle : use_eagle m' = use_eagle m;
  kc_log : log_stats m' = log_stats m;
  kc_manager : specialized_manager m' = specialized_manager m;
  kc_pool : num_gpu_blocks (block_pool m') = num_gpu_blocks (block_pool m);
  kc_null : null_block (block_pool m') = null_block (block_pool m);
  kc_stats : is_Some (prefix_cache_stats m) -> is_Some (prefix_cache_stats m');
}.

#[export] Instance kv_consts_preorder : PreOrder kv_consts.
Proof. split; [by split|]. intros m1 m2 m3 [] []. split; try congruence. auto. Qed.

Record kv_frame (m m' : KVCacheManager) (id : string) : Prop := {
  kf_consts : kv_consts m m';
  kf_blocks : forall id', id' <> id -> blocks_of m' id' = blocks_of m id';
  kf_hashes : forall id', id' <> id -> hashes_of m' id' = hashes_of m id';
  kf_cached : forall id', id' <> id -> num_cached_block m' !! id' = num_cached_block m !! id';
}.

#[export] Instance kv_frame_preorder id : PreOrder (fun m m' => kv_frame m m' id).
Proof.
  split; [by split|]. intros m1 m2 m3 [A1 A2 A3 A4] [B1 B2 B3 B4].
  split; [by etransitivity|..]; intros id' Hne; [rewrite B2, A2|rewrite B3, A3|rewrite B4, A4]; done.
Qed.

Lemma with_stats_inv f m m' : with_stats f m = Ok m' -> exists s, m' = set_stats s m /\
  (is_Some (prefix_cache_stats m) -> is_Some s).
Proof.
  unfold with_stats. destruct (log_stats m); intros H; invert_ok; [by eexists|].
  exists (prefix_cache_stats m'). by destruct m'.
Qed.

Lemma free_frame m r m' :
  KVCacheManager.free m r = Ok m' ->
  kv_frame m m' (request_id r) /\ blocks_of m' (request_id r) = [] /\
  req_to_block_hashes m' = req_to_block_hashes m /\ num_cached_block m' !! request_id r = None.
Proof.
  unfold KVCacheManager.free. intros H. apply bind_ok in H as (p & Hp & H). injection H as <-. apply free_blocks_same in Hp as [Hp Hpn].
  split; [|split_and!; try done].
  - split; [by split|..]; intros id' Hne; unfold blocks_of, hashes_of; cbn; by rewrite ?lookup_delete_ne.
  - unfold blocks_of. cbn. by rewrite lookup_delete_eq.
  - cbn. by rewrite lookup_delete_eq.
Qed.

(** ** Resetting the prefix cache *)

Lemma reset_refs p i :
  i < length (blocks p) -> ref_cnt (blk (BlockPool.reset_prefix_cache p).1 i) = ref_cnt (blk p i).
Proof.
  intros Hi. unfold BlockPool.reset_prefix_cache. destruct (negb _); [done|]. unfold blk. cbn.
  destruct (lookup_lt_is_Some_2 (blocks p) i Hi) as [b Eb].
  rewrite (list_lookup_total_correct _ _ _ Eb). erewrite list_lookup_total_correct; [|by rewrite list_lookup_fmap, Eb]. done.
Qed.

Lemma holders_zero m i : (forall id, i ∉ default [] (m !! id)) -> holders m i = 0.
Proof.
  induction m as [|id bs m Hid IH] using map_ind; intros Hn; [done|].
  rewrite holders_insert, delete_id by done. rewrite IH, count_not_in; [done| |].
  - specialize (Hn id). by rewrite lookup_insert_eq in Hn.
  - intros id'. specialize (Hn id'). destruct (decide (id' = id)) as [->|Hne]; [rewrite Hid; by intros ?%elem_of_nil|].
    by rewrite lookup_insert_ne in Hn.
Qed.

(** The reset succeeds exactly when no request holds a block; then no block is
    findable any more.  The requests' own entries stay. *)
Lemma manager_reset_ok m l :
  kv_ok m l -> (log_stats m = true -> is_Some (prefix_cache_stats m)) ->
  exists m' b, manager_reset_prefix_cache m = Ok (m', b) /\ kv_ok m' l /\ kv_consts m m' /\
    req_to_blocks m' = req_to_blocks m /\ req_to_block_hashes m' = req_to_block_hashes m /\
    num_cached_block m' = num_cached_block m /\
    (b = true <-> forall id i, i ∈ blocks_of m id -> i = null_block (block_pool m)) /\
    (b = true -> cached_block_hash_to_block (block_pool m') = ∅) /\ (b = false -> m' = m).
Proof.
  intros H Hst. pose proof (kv_pool _ _ H) as Hp. pose proof (po_len _ _ Hp) as Hlen.
  destruct (reset_prefix_cache_ok _ _ Hp) as (Hp' & Hiff & Hclear & Hsame).
  assert (Hall : (BlockPool.reset_prefix_cache (block_pool m)).2 = true <->
    forall id i, i ∈ blocks_of m id -> i = null_block (block_pool m)).
  { rewrite Hiff. split.
    - intros Hfree id i Hi. destruct (decide (i = null_block (block_pool m))) as [|Hn]; [done|].
      destruct (held_not_free m l id i H Hi Hn) as (Hlt & _ & Hl). by destruct Hl; apply Hfree.
    - intros Hnull i Hi Hn. apply (po_free _ _ Hp i Hi Hn). rewrite (kv_ref _ _ H i Hi Hn).
      rewrite holders_zero; [done|]. intros id Hin. by apply Hn, (Hnull id). }
  unfold manager_reset_prefix_cache. pose proof (reset_refs (block_pool m)) as Href.
  destruct (BlockPool.reset_prefix_cache (block_pool m)) as [p b] eqn:Ep. cbn [fst snd] in *.
  destruct b; [|exists m, false; by split_and!].
  destruct (Hclear eq_refl) as [Hc Hh].
  assert (Hfr : enable_caching p = enable_caching (block_pool m) /\ num_gpu_blocks p = num_gpu_blocks (block_pool m) /\
    null_block p = null_block (block_pool m)).
  { unfold BlockPool.reset_prefix_cache in Ep. destruct (negb _); [by injection Ep as <-|]. by injection Ep as <-. }
  destruct Hfr as (F1 & F2 & F3).
  assert (Hok : forall st, kv_ok (set_stats st (set_pool p m)) l).
  { intros st. destruct H as [K1 K2 K3 K4 K5 K6 K7]. split; cbn; rewrite ?F1, ?F2, ?F3; try done.
    - intros id. destruct (K4 id) as (k & rest & E1 & E2 & E3). exists k, rest. by rewrite F2, F3.
    - intros i Hi Hn. rewrite Href by lia. by apply K5.
    - intros _ i Hi Hn _. rewrite Href by lia.
      enough (ref_cnt (blk (block_pool m) i) = 0)%Z by lia. apply (po_free _ _ K1 i Hi Hn). by apply (proj1 Hiff eq_refl).
    - intros Hca id. destruct (K7 Hca id) as [C1 C2]. split; [done|]. intros Hne. destruct (C2 Hne) as (c & ? & Hrc).
      exists c. split; [done|]. eapply req_cached_frame; [exact F3| |exact Hrc].
      intros i Hi Hn. destruct Hn. by apply (proj1 Hall eq_refl id). }
  unfold with_stats. cbn [log_stats prefix_cache_stats set_pool]. destruct (log_stats m) eqn:El.
  - destruct (Hst eq_refl) as [st ->]. cbn [of_option mbind result_bind]. do 2 eexists. split; [done|]. split; [apply Hok|].
    split; [by split; try by eexists|]. split_and!; done.
  - exists (set_pool p m), true. cbn [mbind result_bind]. split; [done|]. split; [|split; [by split|by split_and!]].
    replace (set_pool p m) with (set_stats (prefix_cache_stats m) (set_pool p m)); [apply Hok|].
    unfold set_pool, set_stats. by cbn.
Qed.

Section Chains.
Context (hash_fn : hash_input -> Z) (NONE_HASH : Z).

(** The hashes of consecutive blocks, each over its predecessor. *)
Definition chained (hs : list BlockHashType) : Prop :=
  exists l, hs = hash_chain hash_fn NONE_HASH None l.

Lemma chained_nil : chained [].
Proof. by exists []. Qed.

Lemma hash_chain_snoc parent l toks keys :
  hash_chain hash_fn NONE_HASH parent (l ++ [(toks, keys)]) =
  hash_chain hash_fn NONE_HASH parent l ++
  [hash_block_tokens hash_fn NONE_HASH
     (match last (hash_chain hash_fn NONE_HASH parent l) with Some h => Some (hash_value h) | None => parent end)
     toks keys].
Proof.
  revert parent. induction l as [|[t k] l IH]; intros parent; [done|].
  cbn [app hash_chain]. rewrite IH. cbn [app]. do 2 f_equal.
  set (h := hash_block_tokens _ _ _ t k). clearbody h. rewrite last_cons. by destruct (last _).
Qed.

Lemma chained_extend bsz r hs n : chained hs -> chained (extend_hashes hash_fn NONE_HASH bsz r hs n).
Proof.
  revert hs. induction n as [|n IH]; intros hs Hc; cbn; [done|]. apply IH. destruct Hc as [l ->].
  eexists (l ++ [(_, _)]). rewrite hash_chain_snoc. by do 2 f_equal.
Qed.

Lemma chained_nodup `{!CollisionFree hash_fn NONE_HASH} hs : chained hs -> NoDup hs.
Proof.
  intros [l ->]. apply NoDup_alt. intros i j h Hi Hj.
  by destruct (hash_chain_inj hash_fn NONE_HASH _ _ _ _ _ _ Hi Hj eq_refl).
Qed.

Lemma hash_request_tokens_chained bs r hs :
  0 < bs -> mm_ok r -> hash_request_tokens hash_fn NONE_HASH bs r = Ok hs ->
  chained hs /\ length hs * bs <= length (all_token_ids r).
Proof.
  intros Hbs Hmm Hh. rewrite hash_request_tokens_ok in Hh by done. injection Hh as <-. split; [by eexists|].
  rewrite hash_chain_length, length_fmap, length_seq, Nat.mul_comm. apply Nat.Div0.mul_div_le.
Qed.

Lemma allocate_slots_frame m r n new la m' res :
  allocate_slots hash_fn NONE_HASH m r n new la = Ok (m', res) ->
  kv_frame m m' (request_id r) /\
  (res = None -> num_cached_block m' = num_cached_block m /\ req_to_block_hashes m' = req_to_block_hashes m).
Proof.
  unfold allocate_slots. destruct (n =? 0)%Z; [done|]. intros H.
  apply bind_ok in H as ([req_blocks removed] & _ & H). apply bind_ok in H as (p & Hp & H). apply free_blocks_same in Hp as [Hp Hpn].
  apply bind_ok in H as (need & _ & H). cbn zeta in H.
  assert (Hset : forall p b, same_pool (block_pool m) p -> kv_frame m (set_pool p (set_req_blocks (<[request_id r:=b]> (req_to_blocks m)) m)) (request_id r)).
  { intros p' b [Hp1 Hp2]. split; [by split|..]; intros id' Hne; unfold blocks_of, hashes_of; cbn; by rewrite ?lookup_insert_ne. }
  destruct (_ <? _)%Z; [injection H as <- <-; split; [by apply Hset|done]|].
  apply bind_ok in H as (p1 & Hp1 & H). apply bind_ok in H as ([p2 nb] & Hp2 & H).
  assert (Hn1 : same_pool (block_pool m) p1).
  { cbn [mgr_caching set_pool set_req_blocks block_pool] in Hp1. destruct (mgr_caching m); [injection Hp1 as <-; transitivity p; [done|apply touch_same]|by invert_ok]. }
  assert (Hn2 : same_pool (block_pool m) p2).
  { destruct (_ <=? _)%Z; [by injection Hp2 as <- <-|]. apply bind_ok in Hp2 as (u & _ & Hp2). transitivity p1; [done|by eapply get_new_blocks_same]. }
  clear Hn1. destruct Hn2 as [Hn1 Hn2].
  destruct (negb _); [injection H as <- <-; split; [|done]|].
  - split; [by split|..]; intros id' Hne; unfold blocks_of, hashes_of; cbn; by rewrite ?lookup_insert_ne.
  - apply bind_ok in H as (m1 & Hm & H). injection H as <- <-. split; [|done].
  unfold commit_full_blocks in Hm. apply bind_ok in Hm as (full & _ & Hm). apply bind_ok in Hm as ([p3 hs] & Hp3 & Hm).
  apply cache_full_same in Hp3 as [Hp3 Hp3n]. injection Hm as <-. split; [split; try done; cbn in *; congruence|..]; intros id' Hne; unfold blocks_of, hashes_of; cbn; by rewrite ?lookup_insert_ne.
Qed.

Lemma get_computed_blocks_frame m r m' new n :
  get_computed_blocks hash_fn NONE_HASH m r = Ok (m', (new, n)) ->
  kv_frame m m' (request_id r) /\ num_cached_block m' = num_cached_block m /\ req_to_blocks m' = req_to_blocks m /\
  block_pool m' = block_pool m /\
  (mgr_caching m = false -> m' = m /\ new = [] /\ n = 0%Z) /\
  (mgr_caching m = true ->
   match request_hashes m r with
   | [] => hash_request_tokens hash_fn NONE_HASH (block_size m) r = Ok (hashes_of m' (request_id r))
   | hs => hashes_of m' (request_id r) = hs
   end).
Proof.
  unfold get_computed_blocks. destruct (mgr_caching m) eqn:Hc; cbn [negb].
  2: { intros [= <- <- <-]. by split_and!. }
  intros H. apply bind_ok in H as (hs & Hhs & H). apply bind_ok in H as (m1 & Hm1 & H).
  apply with_stats_inv in Hm1 as (s1 & -> & Hs1). cbn in Hs1.
  assert (Hres : forall s, (is_Some (prefix_cache_stats m) -> is_Some s) ->
  let m2 := set_stats s (set_req_hashes (<[request_id r := hs]> (req_to_block_hashes m)) m) in
  kv_frame m m2 (request_id r) /\ hashes_of m2 (request_id r) = hs).
  { intros s Hs. cbn zeta. split; [|unfold hashes_of; cbn; by rewrite lookup_insert_eq].
  split; [by split|..]; intros id' Hne; unfold blocks_of, hashes_of; cbn; by rewrite ?lookup_insert_ne. }
  assert (Hfin : hashes_of m' (request_id r) = hs ->
  match request_hashes m r with
  | [] => hash_request_tokens hash_fn NONE_HASH (block_size m) r = Ok (hashes_of m' (request_id r))
  | hs => hashes_of m' (request_id r) = hs
  end).
  { intros ->. destruct (request_hashes m r); [done|]. by injection Hhs as <-. }
  destruct (bool_decide _).
  - injection H as <- <- <-. destruct (Hres s1 Hs1) as [H1 H2]. split_and!; try done. intros _. by apply Hfin.
  - apply bind_ok in H as (lu & _ & H). apply bind_ok in H as (m2 & Hm2 & H). injection H as <- <- <-.
  apply with_stats_inv in Hm2 as (s2 & -> & Hs2). cbn in Hs2.
  destruct (Hres s2 ltac:(auto)) as [H1 H2]. split_and!; try done. intros _. by apply Hfin.
Qed.

(** ** Linked requests *)

Lemma mm_loop_total s e l c :
  Forall (fun x => is_Some x.2) l -> exists res, mm_loop s e l c = Ok res.
Proof.
  intros Hl. revert c. induction Hl as [|[p h] l [h' Hh] Hl IH]; intros c; cbn [mm_loop]; [by eexists|].
  cbn in Hh. subst h. cbn [of_option mbind result_bind].
  destruct (_ <? _)%Z; [|by eexists]. destruct (_ <? _)%Z; [apply IH|]. destruct (_ <=? _)%Z; [|by eexists].
  destruct (IH (c + 1)%Z) as [[keys idx] ->]. by eexists.
Qed.

Lemma mm_sorted_hashes lo l : mm_sorted lo l -> Forall (fun x => is_Some x.2) l.
Proof. revert lo. induction l as [|[p h] l IH]; intros lo; cbn; [done|]. intros (_ & Hh & Hs). constructor; [done|by eapply IH]. Qed.

(** The keys of a request whose inputs have hashes can be computed. *)
Lemma mm_ok_keys_total q : mm_ok q -> keys_total q.
Proof.
  intros [Hlen Hs] s e. unfold generate_block_hash_extra_keys, gen_mm_extra_hash_keys.
  assert (Hall : forall k c, exists res, mm_loop s e (drop k (zip (mm_positions q) (mm_hashes q))) c = Ok res).
  { intros k c. apply mm_loop_total. apply Forall_drop. by eapply mm_sorted_hashes. }
  destruct (last (mm_positions q)) as [p|] eqn:El; [|by do 2 eexists].
  rewrite Hlen, Nat.eqb_refl. cbn [negb]. destruct (_ <? _)%Z; [by do 2 eexists|].
  assert (length (mm_hashes q) <> 0) by (rewrite <-Hlen; by destruct (mm_positions q)).
  cbn. rewrite (proj2 (Z.leb_le _ _)) by lia. cbn [py_assert mbind result_bind].
  destruct (Hall (Z.to_nat (Z.of_nat (length (mm_hashes q)) + -1)) (Z.of_nat (length (mm_hashes q)) + -1)%Z) as [[keys idx] ->].
  cbn. by do 2 eexists.
Qed.

(** A request that can be hashed, has tokens and no drafts. *)
Record req_wf (q : Request) : Prop := {
  rw_tokens : all_token_ids q <> [];
  rw_mm : mm_ok q;
  rw_keys : keys_total q;
  rw_spec : spec_token_ids q = [];
}.

(** The manager suits a model of length [L]: the block table holds the longest
  request, and a sliding window is wider than a block. *)
Record kv_fit (m : KVCacheManager) (L : Z) : Prop := {
  ft_len : (L <= max_num_blocks_per_req m * Z.of_nat (block_size m))%Z;
  ft_window : match specialized_manager m with
              | FullAttentionManager _ => True
              | SlidingWindowManager bs w _ => (bs < w)%Z
              end;
  ft_eagle : use_eagle m = false \/ exists bs0, specialized_manager m = FullAttentionManager bs0;
}.

Record linked (m : KVCacheManager) (q : Request) (done : Z) : Prop := {
  lk_cover : (done <= Z.of_nat (length (blocks_of m (request_id q))) * Z.of_nat (block_size m))%Z;
  lk_cached : mgr_caching m = true -> blocks_of m (request_id q) <> [] ->
    num_cached_block m !! request_id q = Some (done / Z.of_nat (block_size m))%Z;
  lk_hashes : mgr_caching m = true -> chained (hashes_of m (request_id q)) /\
    length (hashes_of m (request_id q)) * block_size m <= length (all_token_ids q);
}.

Lemma kv_fit_consts m m' L : kv_consts m m' -> kv_fit m L -> kv_fit m' L.
Proof. intros [] []. split; by rewrite ?kc_max0, ?kc_size0, ?kc_manager0, ?kc_eagle0. Qed.

(** The link only depends on the request's entries, id and tokens. *)
Lemma linked_same m m' q q' done :
  kv_consts m m' -> request_id q' = request_id q -> length (all_token_ids q) <= length (all_token_ids q') ->
  blocks_of m' (request_id q) = blocks_of m (request_id q) -> hashes_of m' (request_id q) = hashes_of m (request_id q) ->
  num_cached_block m' !! request_id q = num_cached_block m !! request_id q ->
  linked m q done -> linked m' q' done.
Proof.
  intros [] Hid Hlen Hb Hh Hc [L1 L2 L3]. split; rewrite ?Hid, ?Hb, ?Hh, ?Hc, ?kc_size0, ?kc_caching0; try done.
  intros Hca. destruct (L3 Hca). split; [done|]. lia.
Qed.

Lemma linked_other m m' q done id :
  kv_frame m m' id -> request_id q <> id -> linked m q done -> linked m' q done.
Proof. intros [F1 F2 F3 F4] Hne. apply linked_same; auto. Qed.

(** Without blocks nothing is computed. *)
Lemma linked_empty m q done : linked m q done -> blocks_of m (request_id q) = [] -> (done <= 0)%Z.
Proof. intros [H _ _] Hb. rewrite Hb in H. cbn in H. lia. Qed.

Lemma free_linked m q m' q' :
  KVCacheManager.free m q = Ok m' -> linked m q (num_computed_tokens q) ->
  request_id q' = request_id q -> all_token_ids q' = all_token_ids q -> linked m' q' 0.
Proof.
  intros Hf [_ _ L3] Hid Ha. destruct (free_frame _ _ _ Hf) as ([F1 _ _ _] & Hb & Hh & Hn).
  split; rewrite ?Hid, ?Hb, ?Ha; [cbn; lia|done|]. rewrite (kc_caching _ _ F1), (kc_size _ _ F1).
  unfold hashes_of. by rewrite Hh.
Qed.

Lemma window_linked m l L q :
  kv_ok m l -> kv_fit m L -> linked m q (num_computed_tokens q) -> (0 <= num_computed_tokens q)%Z -> window_ok m q.
Proof.
  intros H [_ Hw _] [Hcov Hcac _] Hpos. pose proof (kv_size _ _ H) as [Hbs Hmb]. unfold window_ok.
  destruct (specialized_manager m) as [|bs w c]; [done|]. cbn in Hmb. subst bs.
  set (b := Z.of_nat (block_size m)) in *. assert (0 < b)%Z by lia.
  assert (Hdiv : ((num_computed_tokens q - w + 1) / b <= num_computed_tokens q / b - 1)%Z).
  { transitivity ((num_computed_tokens q + (-1) * b) / b)%Z; [apply Z.div_le_mono; lia|]. rewrite Z.div_add by lia. lia. }
  assert (Hle : (num_computed_tokens q / b <= Z.of_nat (length (blocks_of m (request_id q))))%Z).
  { apply Z.div_le_upper_bound; lia. }
  split; [lia|]. intros Hca c' Hc'. destruct (decide (blocks_of m (request_id q) = [])) as [Hb|Hb].
  - destruct (kv_cached _ _ H Hca (request_id q)) as [Hn _]. rewrite (Hn Hb) in Hc'. done.
  - rewrite (Hcac Hca Hb) in Hc'. injection Hc' as Hc'. fold b in Hc'. lia.
Qed.

(** Every allocation the scheduler asks for meets its preconditions. *)
Lemma alloc_pre_linked m l L q n new :
  kv_ok m l -> kv_fit m L -> req_wf q -> linked m q (num_computed_tokens q) -> (0 < n)%Z -> (0 <= num_computed_tokens q)%Z ->
  (num_computed_tokens q + Z.of_nat (length new) * Z.of_nat (block_size m) + n <= num_tokens q)%Z -> (num_tokens q <= L)%Z ->
  new = [] \/ (blocks_of m (request_id q) = [] /\ mgr_caching m = true /\ shape (block_pool m) new /\
  req_cached (block_pool m) new (hashes_of m (request_id q)) (length new)) ->
  alloc_pre m q n new 0.
Proof.
  intros H Hfit [W1 W2 W3 W4] Hl Hn Hpos Hle HL Hnew. pose proof (kv_size _ _ H) as [Hbs _].
  assert (Hb : (0 < Z.of_nat (block_size m))%Z) by lia. constructor.
  - lia.
  - by eapply window_linked.
  - destruct Hnew as [->|(? & _)]; [by left|by right].
  - destruct Hnew as [->|(_ & _ & ? & _)]; [apply shape_nil|done].
  - intros Hc. destruct Hnew as [->|(_ & Hc' & _)]; [done|congruence].
  - intros _. destruct Hnew as [->|(_ & _ & _ & ?)]; [|done]. constructor; cbn; try lia; intros; done.
  - pose proof (ft_len _ _ Hfit). lia.
  - intros Hc. cbn zeta. rewrite W4. cbn [length]. rewrite Z.sub_0_r. split.
  + destruct (decide (blocks_of m (request_id q) = [])) as [E|E].
    * destruct (kv_cached _ _ H Hc (request_id q)) as [-> _]; [|done]. cbn.
      apply Z.div_le_lower_bound; lia.
    * rewrite (lk_cached _ _ _ Hl Hc E). cbn. apply Z.div_le_mono; lia.
  + rewrite Z.mul_comm. etransitivity; [apply Z.mul_div_le; lia|]. unfold num_tokens in *. lia.
  - done.
Qed.

Lemma alloc_linked m l L q n new :
  kv_ok m l -> kv_fit m L -> req_wf q -> linked m q (num_computed_tokens q) -> (0 < n)%Z -> (0 <= num_computed_tokens q)%Z ->
  (num_computed_tokens q + Z.of_nat (length new) * Z.of_nat (block_size m) + n <= num_tokens q)%Z -> (num_tokens q <= L)%Z ->
  new = [] \/ (blocks_of m (request_id q) = [] /\ mgr_caching m = true /\ shape (block_pool m) new /\
  req_cached (block_pool m) new (hashes_of m (request_id q)) (length new)) ->
  exists m' res l', allocate_slots hash_fn NONE_HASH m q n new 0 = Ok (m', res) /\ kv_ok m' l' /\
  kv_frame m m' (request_id q) /\
  match res with
  | Some _ => linked m' q (num_computed_tokens q + Z.of_nat (length new) * Z.of_nat (block_size m) + n)
  | None => linked m' q (num_computed_tokens q) /\ length (blocks_of m' (request_id q)) = length (blocks_of m (request_id q))
  end.
Proof.
  intros H Hfit Hwf Hl Hn Hpos Hle HL Hnew.
  pose proof (alloc_pre_linked m l L q n new H Hfit Hwf Hl Hn Hpos Hle HL Hnew) as Hpre.
  destruct (allocate_slots_ok hash_fn NONE_HASH m l q n new 0 H Hpre) as (m' & res & l' & Hrun & H' & _ & cur & Hcur & _ & Hres).
  destruct (allocate_slots_frame _ _ _ _ _ _ _ Hrun) as [Hf Hnone]. pose proof (kf_consts _ _ _ Hf) as Hk.
  exists m', res, l'. split; [done|]. split; [done|]. split; [done|].
  pose proof (kv_size _ _ H) as [Hbs _]. destruct Hl as [L1 L2 L3]. destruct res as [nb|].
  - destruct Hres as (Hb & _ & _ & _ & Hcov & _ & Hcm). rewrite Z.add_0_r in Hcov.
  split; rewrite ?Hb, ?(kc_size _ _ Hk), ?(kc_caching _ _ Hk); [lia|..]; intros Hc; destruct (Hcm Hc) as (Hf0 & Hf1 & Hf2).
  + intros _. rewrite Hf1. unfold num_full. by rewrite (rw_spec _ Hwf), Z.sub_0_r.
  + destruct (L3 Hc) as [Hch Hlen]. rewrite Hf2. split; [by apply chained_extend|]. rewrite extend_hashes_length.
    assert (num_full m q n new * Z.of_nat (block_size m) <= num_tokens q)%Z; [|unfold num_tokens in *; nia].
    unfold num_full. rewrite (rw_spec _ Hwf), Z.sub_0_r, Z.mul_comm. etransitivity; [apply Z.mul_div_le; lia|done].
  - destruct Hres as (Hb & _). destruct (Hnone eq_refl) as [Hn1 Hn2]. rewrite Hb. split; [|done].
  split; rewrite ?Hb, ?(kc_size _ _ Hk), ?(kc_caching _ _ Hk), ?Hcur, ?Hn1; [done|..].
  + intros Hc Hne. apply L2; [done|]. intros E. apply Hne, nil_length_inv. by rewrite Hcur, E.
  + unfold hashes_of in *. by rewrite Hn2.
Qed.

(** ** Room for one request *)

(** Nobody else holds a block; the pool, less the null block, holds the longest
    request. *)
Definition alone (m : KVCacheManager) (id : string) : Prop := forall id', id' <> id -> blocks_of m id' = [].
Definition roomy (m : KVCacheManager) (L : Z) : Prop :=
  ((L + Z.of_nat (block_size m) - 1) / Z.of_nat (block_size m) <= Z.of_nat (num_gpu_blocks (block_pool m)) - 1)%Z.

Lemma roomy_consts m m' L : kv_consts m m' -> roomy m L -> roomy m' L.
Proof. intros [] H. unfold roomy. by rewrite kc_size0, kc_pool0. Qed.

Lemma lone_room m l id :
  kv_ok m l -> alone m id -> num_gpu_blocks (block_pool m) <= 1 + length l + length (blocks_of m id).
Proof.
  intros H Ha. pose proof (kv_pool _ _ H) as Hp. set (p := block_pool m) in *.
  assert (Hsub : seq 0 (num_gpu_blocks p) ⊆+ null_block p :: l ++ blocks_of m id).
  { apply NoDup_submseteq; [apply NoDup_seq|]. intros i Hi%elem_of_seq. destruct (decide (i = null_block p)) as [->|Hn]; [by left|].
  right. apply elem_of_app. destruct (decide (i ∈ blocks_of m id)) as [|Hni]; [by right|]. left.
  assert (Hlt : i < num_gpu_blocks p) by lia. apply (po_free _ _ Hp i Hlt Hn). pose proof (kv_ref _ _ H i Hlt Hn) as Href. rewrite holders_zero in Href; [exact Href|].
  intros id'. change (default [] (req_to_blocks m !! id')) with (blocks_of m id').
  destruct (decide (id' = id)) as [->|Hne]; [done|]. rewrite Ha by done. apply not_elem_of_nil. }
  apply submseteq_length in Hsub. rewrite length_seq in Hsub. cbn in Hsub. rewrite length_app in Hsub. lia.
Qed.

(** Then the allocation gets its blocks. *)
Lemma alloc_room m l L q n new m' :
  kv_ok m l -> kv_fit m L -> req_wf q -> linked m q (num_computed_tokens q) -> (0 < n)%Z -> (0 <= num_computed_tokens q)%Z ->
  (num_computed_tokens q + Z.of_nat (length new) * Z.of_nat (block_size m) + n <= num_tokens q)%Z -> (num_tokens q <= L)%Z ->
  new = [] \/ (blocks_of m (request_id q) = [] /\ mgr_caching m = true /\ shape (block_pool m) new /\
  req_cached (block_pool m) new (hashes_of m (request_id q)) (length new)) ->
  alone m (request_id q) -> roomy m L -> allocate_slots hash_fn NONE_HASH m q n new 0 <> Ok (m', None).
Proof.
  intros H Hfit Hwf Hl Hn Hpos Hle HL Hnew Ha Hroom Hno.
  pose proof (alloc_pre_linked m l L q n new H Hfit Hwf Hl Hn Hpos Hle HL Hnew) as Hpre.
  destruct (allocate_slots_ok hash_fn NONE_HASH m l q n new 0 H Hpre) as (m1 & res & l' & Hrun & H' & Hd & cur & Hcur & _ & Hres).
  rewrite Hno in Hrun. injection Hrun as <- <-. destruct Hres as (Hb & Hlt & _).
  destruct (allocate_slots_frame _ _ _ _ _ _ _ Hno) as [Hf _]. pose proof (kf_consts _ _ _ Hf) as Hk.
  assert (Ha' : alone m' (request_id q)) by (intros id' Hne; rewrite (kf_blocks _ _ _ Hf) by done; by apply Ha).
  pose proof (lone_room m' l' _ H' Ha') as Hlone. rewrite (kc_pool _ _ Hk), Hb, Hcur in Hlone.
  assert (Hev : (num_evictable (block_pool m') new <= Z.of_nat (length new))%Z).
  { unfold num_evictable. apply Nat2Z.inj_le. apply length_filter. }
  pose proof (kv_size _ _ H) as [Hbs _].
  assert (Hcd : ((num_computed_tokens q + Z.of_nat (length new) * Z.of_nat (block_size m) + n + 0 + Z.of_nat (block_size m) - 1) /
    Z.of_nat (block_size m) <= (L + Z.of_nat (block_size m) - 1) / Z.of_nat (block_size m))%Z) by (apply Z.div_le_mono; lia).
  unfold roomy in Hroom. unfold num_needed in Hlt. lia.
Qed.

(** The lookup for a request without blocks. *)
Lemma computed_linked `{!CollisionFree hash_fn NONE_HASH} m l L q :
  kv_ok m l -> kv_fit m L -> req_wf q -> linked m q 0 -> blocks_of m (request_id q) = [] ->
  (log_stats m = true -> is_Some (prefix_cache_stats m)) ->
  exists m' new, let n := (Z.of_nat (length new) * Z.of_nat (block_size m))%Z in
  get_computed_blocks hash_fn NONE_HASH m q = Ok (m', (new, n)) /\
  kv_ok m' l /\ kv_frame m m' (request_id q) /\ linked m' q 0 /\ blocks_of m' (request_id q) = [] /\
  (n < num_tokens q)%Z /\
  (new = [] \/ (blocks_of m' (request_id q) = [] /\ mgr_caching m' = true /\ shape (block_pool m') new /\
     req_cached (block_pool m') new (hashes_of m' (request_id q)) (length new))).
Proof.
  intros H Hfit Hwf [L1 L2 L3] Hb Hst. pose proof (kv_size _ _ H) as [Hbs _].
  destruct (mgr_caching m) eqn:Hc.
  2: { exists m, []. cbn. unfold get_computed_blocks. rewrite Hc. split; [done|]. split; [done|].
    split; [by split|]. split; [split; [done|by rewrite Hc|by rewrite Hc]|]. split; [done|]. split; [|by left].
  unfold num_tokens. pose proof (rw_tokens _ Hwf). destruct (all_token_ids q); [done|cbn; lia]. }
  destruct (L3 eq_refl) as [Hch Hlen].
  assert (Hready : hashes_ready m q).
  { unfold hashes_ready. change (request_hashes m q) with (hashes_of m (request_id q)).
  destruct (decide (hashes_of m (request_id q) = [])) as [E|E]; [left; split; [done|by apply Hwf]|right].
  split; [done|]. split; [by apply chained_nodup|done]. }
  destruct (get_computed_blocks_ok hash_fn NONE_HASH m l q H Hc Hb Hready (rw_tokens _ Hwf) Hst)
  as (m' & new & Hrun & H' & Hp & Hr & Hn & _ & _ & Hbs' & Hlt & Hnew).
  destruct (get_computed_blocks_frame _ _ _ _ _ Hrun) as (Hf & _ & _ & _ & _ & Hhs). specialize (Hhs Hc).
  pose proof (kf_consts _ _ _ Hf) as Hk. assert (Hb' : blocks_of m' (request_id q) = []) by (unfold blocks_of; by rewrite Hr).
  assert (Hch' : chained (hashes_of m' (request_id q)) /\ length (hashes_of m' (request_id q)) * block_size m <= length (all_token_ids q)).
  { change (request_hashes m q) with (hashes_of m (request_id q)) in Hhs.
  destruct (hashes_of m (request_id q)) eqn:E; [|by rewrite Hhs].
  by apply hash_request_tokens_chained; [|apply Hwf|]. }
  exists m', new. cbn zeta. split; [done|]. split; [done|]. split; [done|]. split; [|split; [done|]].
  - split; rewrite ?Hb', ?(kc_size _ _ Hk); [cbn; lia|done|done].
  - split; [unfold num_tokens; lia|]. right. split; [done|]. split; [by rewrite (kc_caching _ _ Hk)|].
  rewrite Hp. by apply Hnew, (ft_eagle _ _ Hfit).
Qed.

End Chains.
