(* ===== verification/BlockOwners.v ===== *)
(** * Who may write a block

    The blocks of a request from its computed tokens on are the ones its next
    tokens are written to.  [owned] says that no such block is the null block or
    belongs to two requests, although the blocks before may be shared through the
    prefix cache; allocating and freeing keep it. *)

From S2P Require Import Prelude KVCacheConfig PrefixMetrics FreeBlockQueue.
From S2P Require Import Request BlockHash BlockPool SpecializedManager KVCacheManager KVCacheLink.

(** [B] is [W], but for blocks that left the sliding window. *)
Definition covered (null : nat) (W B : list nat) : Prop :=
  length B = length W /\ forall j b, B !! j = Some b -> b <> null -> W !! j = Some b.

Lemma covered_refl null W : covered null W W.
Proof. done. Qed.

Lemma covered_trans null W1 W2 W3 : covered null W1 W2 -> covered null W2 W3 -> covered null W1 W3.
Proof. intros [L1 H1] [L2 H2]. split; [congruence|]. intros j b Hj Hb. apply H1; [by apply H2|done]. Qed.

Lemma covered_app null W B l : covered null W B -> covered null (W ++ l) (B ++ l).
Proof.
  intros [Hl H]. split; [by rewrite !length_app, Hl|]. intros j b [Hj|[Hge Hj]]%lookup_app_Some Hb.
  - apply lookup_app_Some. left. by apply H.
  - apply lookup_app_Some. right. split; [lia|]. by rewrite <-Hl.
Qed.

Lemma shape_inj p bs i j b : shape p bs -> bs !! i = Some b -> bs !! j = Some b -> b <> null_block p -> i = j.
Proof.
  intros (k & rest & -> & Hnd & _) Hi Hj Hb.
  assert (Hr : forall i, (replicate k (null_block p) ++ rest) !! i = Some b -> k <= i /\ rest !! (i - k) = Some b).
  { intros x [Hx|[Hx Hy]]%lookup_app_Some; [by apply lookup_replicate in Hx as [? _]|]. by rewrite length_replicate in *. }
  apply Hr in Hi as [Hki Hi], Hj as [Hkj Hj]. pose proof (NoDup_lookup _ _ _ _ Hnd Hi Hj). lia.
Qed.

Section Owners.
Context (hash_fn : hash_input -> Z) (NONE_HASH : Z).

(** The [j]-th block of request [id], which has [done] computed tokens, is [b] and
    may be written. *)
Definition writable (m : KVCacheManager) (done : Z) (id : string) (j b : nat) : Prop :=
  blocks_of m id !! j = Some b /\ (done / Z.of_nat (block_size m) <= Z.of_nat j)%Z.

(** [done] gives the computed tokens of every request; [L] is the model's length. *)
Record owned (L : Z) (m : KVCacheManager) (done : string -> Z) : Prop := {
  ow_null : forall id j, ~ writable m (done id) id j (null_block (block_pool m));
  ow_one : forall id1 id2 j1 j2 b, writable m (done id1) id1 j1 b -> writable m (done id2) id2 j2 b -> id1 = id2;
  ow_len : forall id, (Z.of_nat (length (blocks_of m id)) <= (L + Z.of_nat (block_size m) - 1) / Z.of_nat (block_size m))%Z;
}.

Lemma writable_mono m d d' id j b : (d <= d')%Z -> writable m d' id j b -> writable m d id j b.
Proof.
  intros Hd [Hb Hj]. split; [done|]. destruct (decide (block_size m = 0)) as [E|E].
  - rewrite E in *. by rewrite Zdiv_0_r in *.
  - etransitivity; [|exact Hj]. apply Z.div_le_mono; lia.
Qed.

Lemma owned_mono L m done done' : owned L m done -> (forall id, done id <= done' id)%Z -> owned L m done'.
Proof.
  intros [O1 O2 O3] Hd. split; [| |done].
  - intros id j Hw. eapply (O1 id j), writable_mono; [apply Hd|exact Hw].
  - intros id1 id2 j1 j2 b H1 H2. apply (O2 id1 id2 j1 j2 b); (eapply writable_mono; [apply Hd|done]).
Qed.

(** Nothing but statistics and empty entries changes. *)
Lemma owned_same L m m' done : owned L m done -> kv_consts m m' -> (forall id, blocks_of m' id = blocks_of m id) -> owned L m' done.
Proof.
  intros [O1 O2 O3] [] Hb.
  assert (Hw : forall d id j b, writable m' d id j b <-> writable m d id j b) by (intros; unfold writable; by rewrite Hb, kc_size).
  split.
  - intros id j. rewrite Hw, kc_null. apply O1.
  - intros id1 id2 j1 j2 b. rewrite !Hw. apply O2.
  - intros id. rewrite Hb, kc_size. apply O3.
Qed.

(** An operation on request [id]: what it may write afterwards it could write
    before, or nobody else has it. *)
Lemma owned_frame L m m' id done done' :
  owned L m done -> kv_frame m m' id -> (forall id', id' <> id -> done' id' = done id') ->
  (Z.of_nat (length (blocks_of m' id)) <= (L + Z.of_nat (block_size m) - 1) / Z.of_nat (block_size m))%Z ->
  (forall j b, writable m' (done' id) id j b -> b <> null_block (block_pool m) /\
    (writable m (done id) id j b \/ forall id', id' <> id -> b ∉ blocks_of m id')) ->
  owned L m' done'.
Proof.
  intros [O1 O2 O3] [[] Hb _ _] Hd Hlen Hnew.
  assert (Hother : forall id' j b, id' <> id -> writable m' (done' id') id' j b <-> writable m (done id') id' j b).
  { intros id' j b Hne. unfold writable. by rewrite Hb, kc_size, Hd. }
  assert (Hone : forall id' j j' b, id' <> id -> writable m' (done' id) id j b -> writable m' (done' id') id' j' b -> False).
  { intros id' j j' b Hne H1 H2. apply Hother in H2; [|done]. destruct (Hnew j b H1) as [_ [H|H]].
    - apply Hne. by eapply O2.
    - apply (H id' Hne). destruct H2 as [H2 _]. by eapply list_elem_of_lookup_2. }
  split.
  - intros id' j. rewrite kc_null. destruct (decide (id' = id)) as [->|Hne]; [by intros [? _]%Hnew|]. rewrite Hother by done. apply O1.
  - intros id1 id2 j1 j2 b H1 H2. destruct (decide (id1 = id)) as [->|N1], (decide (id2 = id)) as [->|N2]; [done| | |].
    + by destruct (Hone id2 j1 j2 b N2).
    + by destruct (Hone id1 j2 j1 b N1).
    + rewrite Hother in H1, H2 by done. by eapply O2.
  - intros id'. rewrite kc_size. destruct (decide (id' = id)) as [->|Hne]; [done|]. by rewrite Hb.
Qed.

(** A request loses its blocks. *)
Lemma owned_free L m r m' done done' :
  owned L m done -> KVCacheManager.free m r = Ok m' -> (forall id', id' <> request_id r -> done' id' = done id') ->
  (0 <= L)%Z -> owned L m' done'.
Proof.
  intros Ho Hf Hd HL. destruct (free_frame _ _ _ Hf) as (Hfr & Hb & _). eapply owned_frame; try done; rewrite ?Hb.
  - cbn [length]. destruct (decide (block_size m = 0)) as [->|]; [by rewrite Zdiv_0_r|]. apply Z.div_pos; lia.
  - intros j b [Hj _]. by rewrite Hb in Hj.
Qed.

(** ** Allocation *)

Lemma sw_remove_tail null i : forall bs bs' removed, sw_remove null i bs = Ok (bs', removed) ->
  length bs' = length bs /\ forall j, i <= j -> bs' !! j = bs !! j.
Proof.
  induction i as [|i IH]; intros bs bs' removed; cbn [sw_remove]; [by intros [= <- <-]|]. intros H.
  apply bind_ok in H as (b & _ & H). destruct (b =? null); [by injection H as <- <-|].
  apply bind_ok in H as ([bs1 r1] & H1 & H). injection H as <- <-. destruct (IH _ _ _ H1) as [Hl Hj].
  rewrite length_insert in Hl. split; [done|]. intros j Hij. rewrite Hj by lia. apply list_lookup_insert_ne. lia.
Qed.

(** Only blocks before the computed tokens leave the window. *)
Lemma skipped_tail m L r bs removed p :
  kv_fit m L -> 0 < block_size m -> manager_block_size (specialized_manager m) = Z.of_nat (block_size m) ->
  (0 <= num_computed_tokens r)%Z ->
  remove_skipped_blocks (specialized_manager m) p (blocks_of m (request_id r)) (num_computed_tokens r) = Ok (bs, removed) ->
  length bs = length (blocks_of m (request_id r)) /\
  forall j, (num_computed_tokens r / Z.of_nat (block_size m) <= Z.of_nat j)%Z -> bs !! j = blocks_of m (request_id r) !! j.
Proof.
  intros [_ Hw _] Hbs Hsz Hc. unfold remove_skipped_blocks. destruct (specialized_manager m) as [sbs|sbs w c]; [by intros [= <- _]|].
  cbn in Hsz. subst sbs. rewrite py_floordiv_ok by lia. cbn [mbind result_bind]. intros H.
  destruct (sw_remove_tail _ _ _ _ _ H) as [Hl Hj]. split; [done|]. intros j Hle. apply Hj.
  assert ((num_computed_tokens r - w + 1) / Z.of_nat (block_size m) <= num_computed_tokens r / Z.of_nat (block_size m))%Z
    by (apply Z.div_le_mono; lia). lia.
Qed.

Lemma alloc_tail m L r n new la m' res :
  kv_fit m L -> 0 < block_size m -> manager_block_size (specialized_manager m) = Z.of_nat (block_size m) ->
  (0 <= num_computed_tokens r)%Z -> allocate_slots hash_fn NONE_HASH m r n new la = Ok (m', res) ->
  forall j, (num_computed_tokens r / Z.of_nat (block_size m) <= Z.of_nat j)%Z -> j < length (blocks_of m (request_id r)) ->
    blocks_of m' (request_id r) !! j = blocks_of m (request_id r) !! j.
Proof.
  intros Hfit Hbs Hsz Hc H j Hj Hlt. unfold allocate_slots in H. destruct (n =? 0)%Z; [done|].
  apply bind_ok in H as ([bs removed] & Hr & H). cbn zeta in H.
  change (default [] (req_to_blocks m !! request_id r)) with (blocks_of m (request_id r)) in Hr.
  destruct (skipped_tail m L r bs removed _ Hfit Hbs Hsz Hc Hr) as [Hl Htail]. rewrite <-(Htail j Hj). rewrite <-Hl in Hlt.
  apply bind_ok in H as (p & _ & H). apply bind_ok in H as (need & _ & H).
  assert (Hset : forall l m1, req_to_blocks m1 = <[request_id r := bs ++ l]> (req_to_blocks m) -> blocks_of m1 (request_id r) !! j = bs !! j).
  { intros l m1 E. unfold blocks_of. rewrite E, lookup_insert_eq. cbn. by apply lookup_app_l. }
  destruct (_ <? _)%Z; [injection H as <- <-; apply (Hset []); by rewrite app_nil_r|].
  apply bind_ok in H as (p1 & _ & H). apply bind_ok in H as ([p2 nb] & _ & H).
  assert (Hblocks : req_to_blocks (set_pool p2 (set_req_blocks (<[request_id r := (bs ++ new) ++ nb]> (<[request_id r := bs]> (req_to_blocks m))) m)) =
    <[request_id r := bs ++ new ++ nb]> (req_to_blocks m)) by (cbn; by rewrite insert_insert_eq, <-app_assoc).
  destruct (negb _); [injection H as <- <-; by apply (Hset (new ++ nb))|].
  apply bind_ok in H as (m1 & Hm & H). injection H as <- <-. apply (Hset (new ++ nb)).
  unfold commit_full_blocks in Hm. apply bind_ok in Hm as (full & _ & Hm). apply bind_ok in Hm as ([p3 hs] & _ & Hm).
  injection Hm as <-. exact Hblocks.
Qed.

Lemma elsewhere m id b : holders (delete id (req_to_blocks m)) b = 0 -> forall id', id' <> id -> b ∉ blocks_of m id'.
Proof.
  intros H0 id' Hne Hin%count_in. pose proof (holders_other (req_to_blocks m) id id' b (not_eq_sym Hne)). unfold blocks_of in Hin. lia.
Qed.

(** What an allocation means for the request's blocks, and that it keeps [owned];
    [done'] may already count the tokens of the blocks found in the cache. *)
Lemma alloc_owned m l L q n new m' res done done' :
  kv_ok m l -> kv_fit m L -> req_wf q -> linked hash_fn NONE_HASH m q (num_computed_tokens q) -> (0 < n)%Z -> (0 <= num_computed_tokens q)%Z ->
  (num_computed_tokens q + Z.of_nat (length new) * Z.of_nat (block_size m) + n <= num_tokens q)%Z -> (num_tokens q <= L)%Z ->
  new = [] \/ (blocks_of m (request_id q) = [] /\ mgr_caching m = true /\ shape (block_pool m) new /\
    req_cached (block_pool m) new (hashes_of m (request_id q)) (length new)) ->
  allocate_slots hash_fn NONE_HASH m q n new 0 = Ok (m', res) ->
  owned L m done -> done (request_id q) = num_computed_tokens q -> (forall id, id <> request_id q -> done' id = done id) ->
  match res with
  | Some _ => (num_computed_tokens q + Z.of_nat (length new) * Z.of_nat (block_size m) <= done' (request_id q))%Z
  | None => done' (request_id q) = num_computed_tokens q
  end ->
  owned L m' done' /\
  exists cur, covered (null_block (block_pool m)) (blocks_of m (request_id q)) cur /\
    blocks_of m' (request_id q) = match res with Some nb => cur ++ new ++ nb | None => cur end.
Proof.
  intros H Hfit Hwf Hl Hn Hpos Hle HL Hnew Hrun Ho Hdq Hd Hd'. set (id := request_id q) in *.
  pose proof (alloc_pre_linked hash_fn NONE_HASH m l L q n new H Hfit Hwf Hl Hn Hpos Hle HL Hnew) as Hpre.
  destruct (allocate_slots_ok hash_fn NONE_HASH m l q n new 0 H Hpre) as (m1 & res1 & l' & Hrun1 & _ & _ & cur & Hcur & Hsame & Hres).
  rewrite Hrun in Hrun1. injection Hrun1 as <- <-. fold id in Hcur, Hsame, Hres.
  pose proof (kv_size _ _ H) as [Hbs Hsz]. destruct (allocate_slots_frame _ _ _ _ _ _ _ _ _ Hrun) as [Hf _].
  pose proof (alloc_tail m L q n new 0 m' res Hfit Hbs Hsz Hpos Hrun) as Htail. fold id in Htail, Hf.
  assert (HB : blocks_of m' id = match res with Some nb => cur ++ new ++ nb | None => cur end) by (destruct res; apply Hres).
  split; [|exists cur; split; [done|exact HB]].
  assert (Hold : forall j b, j < length cur -> writable m' (done' id) id j b -> (num_computed_tokens q <= done' id)%Z -> writable m (done id) id j b).
  { intros j b Hj [Hb Hdj] Hdone. rewrite (kc_size _ _ (kf_consts _ _ _ Hf)) in Hdj.
    assert (num_computed_tokens q / Z.of_nat (block_size m) <= done' id / Z.of_nat (block_size m))%Z by (apply Z.div_le_mono; lia).
    split; [|rewrite Hdq; lia]. rewrite <-Htail; [done|lia|by rewrite <-Hcur]. }
  apply (owned_frame L m m' id done done'); try done.
  - rewrite HB. destruct res as [nb|]; [|rewrite Hcur; apply (ow_len _ _ _ Ho)]. destruct Hres as (_ & Hlnb & _). rewrite !length_app, Hlnb, Hcur.
    unfold num_needed. fold id. rewrite Z.add_0_r.
    assert (Htot : ((num_computed_tokens q + Z.of_nat (length new) * Z.of_nat (block_size m) + n + Z.of_nat (block_size m) - 1) / Z.of_nat (block_size m) <=
      (L + Z.of_nat (block_size m) - 1) / Z.of_nat (block_size m))%Z) by (apply Z.div_le_mono; lia).
    assert (Hnl : (Z.of_nat (length (blocks_of m id)) + Z.of_nat (length new) <= (L + Z.of_nat (block_size m) - 1) / Z.of_nat (block_size m))%Z).
    { destruct Hnew as [->|(-> & _)]; [cbn; rewrite Z.add_0_r; apply (ow_len _ _ _ Ho)|]. cbn. apply Z.div_le_lower_bound; lia. }
    lia.
  - intros j b Hw. destruct res as [nb|].
    2: { assert (Hj : j < length cur) by (destruct Hw as [Hw _]; rewrite HB in Hw; by eapply lookup_lt_Some). apply Hold in Hw; [|done|lia].
      split; [|by left]. intros ->. by eapply (ow_null _ _ _ Ho). }
    destruct Hres as (_ & _ & _ & Hfresh & _).
    destruct (decide (j < length cur)) as [Hj|Hj].
    { apply Hold in Hw; [|done|nia]. split; [|by left]. intros ->. by eapply (ow_null _ _ _ Ho). }
    destruct Hw as [Hb Hdj]. rewrite HB in Hb. rewrite lookup_app_r in Hb by lia. rewrite (kc_size _ _ (kf_consts _ _ _ Hf)) in Hdj.
    assert (Hpast : length new <= j - length cur).
    { destruct Hnew as [->|(E & _)]; [cbn; lia|]. rewrite E in Hcur. cbn in Hcur.
      assert (Z.of_nat (length new) <= done' id / Z.of_nat (block_size m))%Z by (apply Z.div_le_lower_bound; lia). lia. }
    rewrite lookup_app_r in Hb by done. apply list_elem_of_lookup_2, Hfresh in Hb as (B1 & _ & B3). split; [done|right]. by apply elsewhere.
Qed.
End Owners.
