(* ===== verification/MMInputCache.v ===== *)
(** * The mirrored caches of multi-modal inputs

    [vllm/v1/engine/mm_input_cache.py] and the reading and writing methods of
    [LRUCache] in [vllm/utils.py].  The client (P0) and the engine core (P1) each
    keep a cache of multi-modal inputs by hash, so that an input the other side
    has is sent as [None].  The class of [cachetools] that [LRUCache] extends is
    the parameter of [LRU.v]. *)

From S2P Require Import Prelude LRU.

Section Mirror.
Context {V : Type} `{BaseLRU V}.

(** ** [LRUCache] *)

Record LRUCache := { base : lru V; lru_hits : Z; lru_total : Z }.

(** [__getitem__], with [update_info] set. *)
Definition lru_getitem (c : LRUCache) (key : string) : LRUCache * result V :=
  match lru_data (base c) !! key with
  | Some v => ({| base := lru_touch (base c) key; lru_hits := lru_hits c + 1; lru_total := lru_total c + 1 |}, Ok v)
  | None => (c, Err KeyError)
  end.

Definition lru_get (c : LRUCache) (key : string) : LRUCache * option V :=
  match lru_data (base c) !! key with
  | Some v => ({| base := lru_touch (base c) key; lru_hits := lru_hits c + 1; lru_total := lru_total c + 1 |}, Some v)
  | None => ({| base := base c; lru_hits := lru_hits c; lru_total := lru_total c + 1 |}, None)
  end.

Definition lru_setitem (c : LRUCache) (key : string) (v : V) : LRUCache * result unit :=
  let '(b, r) := lru_set (base c) key v in
  ({| base := b; lru_hits := lru_hits c; lru_total := lru_total c |}, r).

(** ** [MirroredProcessingCache] *)

Record MirroredProcessingCache := { use_cache : bool; mm_cache : LRUCache }.

Definition set_mm_cache (v : LRUCache) (m : MirroredProcessingCache) : MirroredProcessingCache :=
  {| use_cache := use_cache m; mm_cache := v |}.

(** The loops keep what they did before they raise. *)
Fixpoint p0_loop (c : LRUCache) (l : list (V * string)) : LRUCache * result (list (option V)) :=
  match l with
  | [] => (c, Ok [])
  | (mm_input, mm_hash) :: l =>
      match lru_get c mm_hash with
      | (c, Some _) => let '(c, r) := p0_loop c l in (c, cons None <$> r)
      | (c, None) =>
          match lru_setitem c mm_hash mm_input with
          | (c, Err e) => (c, Err e)
          | (c, Ok _) => let '(c, r) := p0_loop c l in (c, cons (Some mm_input) <$> r)
          end
      end
  end.

Definition get_and_update_p0 (m : MirroredProcessingCache) (mm_inputs : list V) (mm_hashes : list string) :
    MirroredProcessingCache * result (list (option V)) :=
  if negb (length mm_inputs =? length mm_hashes) then (m, Err AssertionError)
  else if negb (use_cache m) then (m, Ok (Some <$> mm_inputs))
  else let '(c, r) := p0_loop (mm_cache m) (zip mm_inputs mm_hashes) in (set_mm_cache c m, r).

Fixpoint p1_loop (c : LRUCache) (l : list (option V * string)) : LRUCache * result (list (option V)) :=
  match l with
  | [] => (c, Ok [])
  | (mm_input, mm_hash) :: l =>
      let '(c, r) := match mm_input with
                     | None => lru_getitem c mm_hash
                     | Some v => let '(c, r) := lru_setitem c mm_hash v in (c, (fun _ => v) <$> r)
                     end in
      match r with
      | Err e => (c, Err e)
      | Ok v => let '(c, r) := p1_loop c l in (c, cons (Some v) <$> r)
      end
  end.

(** [is_list_of] looks at the first element only. *)
Definition is_list_of_inputs (l : list (option V)) : bool :=
  match l with None :: _ => false | _ => true end.

Definition get_and_update_p1 (m : MirroredProcessingCache) (mm_inputs : list (option V)) (mm_hashes : list string) :
    MirroredProcessingCache * result (list (option V)) :=
  if negb (length mm_inputs =? length mm_hashes) then (m, Err AssertionError)
  else if negb (use_cache m) then (m, if is_list_of_inputs mm_inputs then Ok mm_inputs else Err AssertionError)
  else let '(c, r) := p1_loop (mm_cache m) (zip mm_inputs mm_hashes) in (set_mm_cache c m, r).

Lemma p1_loop_length c l c' l' : p1_loop c l = (c', Ok l') -> length l' = length l.
Proof.
  revert c l'. induction l as [|[x h] l IH]; intros c l'; cbn [p1_loop]; [by intros [= <- <-]|].
  destruct (match x with Some _ => _ | None => _ end) as [c1 [v|e]]; [|done].
  destruct (p1_loop c1 l) as [c2 [l2|e]] eqn:E; cbn; intros [= <- <-]. cbn. f_equal. by eapply IH.
Qed.

Lemma p1_length m l hs m' l' : get_and_update_p1 m l hs = (m', Ok l') -> length l' = length l.
Proof.
  unfold get_and_update_p1. destruct (Nat.eqb_spec (length l) (length hs)) as [E|]; [|done]. cbn [negb].
  destruct (negb (use_cache m)).
  - destruct (is_list_of_inputs l); [|done]. by intros [= <- <-].
  - destruct (p1_loop _ _) as [c r] eqn:Ep. intros [= <- ->]. apply p1_loop_length in Ep.
    rewrite Ep, length_zip_with. lia.
Qed.

(** ** The two caches in step *)

Context `{!BaseLRULaws V}.

(** A hash names one input. *)
Definition content_ok (content : string -> V) (c : LRUCache) : Prop :=
  forall k v, lru_data (base c) !! k = Some v -> v = content k.

Lemma content_touch content c k h t :
  content_ok content c -> content_ok content {| base := lru_touch (base c) k; lru_hits := h; lru_total := t |}.
Proof. intros Hc k' v. cbn. rewrite touch_data. apply Hc. Qed.

Lemma content_set content c c' k :
  content_ok content c -> lru_setitem c k (content k) = (c', Ok tt) -> content_ok content c'.
Proof.
  intros Hc. unfold lru_setitem. destruct (lru_set (base c) k (content k)) as [b r] eqn:Eb. intros [= <- ->].
  apply set_data in Eb as [Hk Ho]. intros k' v. cbn. destruct (decide (k' = k)) as [->|Hne].
  - rewrite Hk. congruence.
  - intros Hv. apply Hc. by apply (Ho k').
Qed.

(** What the client sends makes the server redo the client's steps. *)
Lemma p1_follows content c0 c1 l c0' sent :
  base c1 = base c0 -> content_ok content c0 -> (forall x h, (x, h) ∈ l -> x = content h) ->
  p0_loop c0 l = (c0', Ok sent) ->
  length sent = length l /\ content_ok content c0' /\
  exists c1', p1_loop c1 (zip sent l.*2) = (c1', Ok (Some <$> l.*1)) /\ base c1' = base c0'.
Proof.
  revert c0 c1 sent. induction l as [|[x h] l IH]; intros c0 c1 sent Hb Hc Hl; cbn [p0_loop].
  { intros [= <- <-]. split; [done|]. split; [done|]. by exists c1. }
  assert (Hx : x = content h) by (apply Hl; by left).
  assert (Hl' : forall x h, (x, h) ∈ l -> x = content h) by (intros ? ? ?; apply Hl; by right).
  unfold lru_get. destruct (lru_data (base c0) !! h) as [v|] eqn:Eh.
  - destruct (p0_loop _ l) as [c2 [sent'|e]] eqn:Ep; cbn; intros [= <- <-].
    set (k1 := {| base := lru_touch (base c1) h; lru_hits := lru_hits c1 + 1; lru_total := lru_total c1 + 1 |}).
    pose proof (fun E => IH _ k1 _ E (content_touch _ _ _ _ _ Hc) Hl' Ep) as IH'.
    destruct IH' as (H1 & H2 & c1' & H3 & H4); [cbn; by rewrite Hb|].
    split; [cbn; lia|]. split; [done|]. exists c1'.
    change (zip (None :: sent') (h :: l.*2)) with ((None : option V, h) :: zip sent' l.*2). cbn [p1_loop].
    assert (lru_getitem c1 h = (k1, Ok v)) as -> by (unfold lru_getitem, k1; by rewrite Hb, Eh).
    rewrite H3. cbn. split; [|done].
    by rewrite (Hc h v Eh), <-Hx.
  - destruct (lru_setitem _ h x) as [c2 [[]|e]] eqn:Es; [|done].
    destruct (p0_loop c2 l) as [c3 [sent'|e]] eqn:Ep; cbn; intros [= <- <-].
    set (c0t := {| base := base c0 |}) in Es.
    assert (Hc2 : content_ok content c2) by (subst x; by eapply (content_set content c0t)).
    set (k1 := {| base := base c2; lru_hits := lru_hits c1; lru_total := lru_total c1 |}).
    assert (Es1 : lru_setitem c1 h x = (k1, Ok tt)).
    { unfold lru_setitem in *. cbn in Es. rewrite Hb. destruct (lru_set (base c0) h x) as [b r]. injection Es as <- ->. done. }
    destruct (IH c2 k1 _ ltac:(done) Hc2 Hl' Ep) as (H1 & H2 & c1' & H3 & H4).
    split; [cbn; lia|]. split; [done|]. exists c1'.
    change (zip (Some x :: sent') (h :: l.*2)) with ((Some x, h) :: zip sent' l.*2). cbn [p1_loop].
    rewrite Es1. cbn. by rewrite H3.
Qed.

Lemma p0_misses content c0 l c0' sent :
  content_ok content c0 -> (forall x h, (x, h) ∈ l -> x = content h) -> p0_loop c0 l = (c0', Ok sent) ->
  Forall2 (fun x s => s = None \/ s = Some x) l.*1 sent.
Proof.
  revert c0 sent. induction l as [|[x h] l IH]; intros c0 sent Hc Hl; cbn [p0_loop]; [intros [= <- <-]; constructor|].
  assert (Hx : x = content h) by (apply Hl; by left).
  assert (Hl' : forall x h, (x, h) ∈ l -> x = content h) by (intros ? ? ?; apply Hl; by right).
  unfold lru_get. destruct (lru_data (base c0) !! h) as [v|] eqn:Eh.
  - destruct (p0_loop _ l) as [c2 [sent'|e]] eqn:Ep; cbn; intros [= <- <-]. constructor; [by left|].
    by apply (fun H => IH _ _ H Hl' Ep), content_touch.
  - destruct (lru_setitem _ h x) as [c2 [[]|e]] eqn:Es; [|done].
    destruct (p0_loop c2 l) as [c3 [sent'|e]] eqn:Ep; cbn; intros [= <- <-]. constructor; [by right|].
    apply (fun H => IH _ _ H Hl' Ep). subst x. by eapply (content_set content {| base := base c0 |}).
Qed.

End Mirror.

(** ** Properties *)

(** Mirrored caching loses nothing.  If the two caches have the same contents
    and order, and a hash names one input, then whatever the client sends - each
    input, or [None] for it - the server's call raises nothing, returns exactly
    the client's inputs, and afterwards the two caches are the same again. *)
Theorem mirrored_roundtrip {V} `{BaseLRU V} `{!BaseLRULaws V} content (m0 m1 m0' : MirroredProcessingCache)
    (mm_inputs : list V) mm_hashes sent :
  use_cache m1 = use_cache m0 -> base (mm_cache m1) = base (mm_cache m0) -> content_ok content (mm_cache m0) ->
  (forall x h, (x, h) ∈ zip mm_inputs mm_hashes -> x = content h) ->
  get_and_update_p0 m0 mm_inputs mm_hashes = (m0', Ok sent) ->
  Forall2 (fun x s => s = None \/ s = Some x) mm_inputs sent /\ content_ok content (mm_cache m0') /\
  exists m1', get_and_update_p1 m1 sent mm_hashes = (m1', Ok (Some <$> mm_inputs)) /\
    use_cache m1' = use_cache m0' /\ base (mm_cache m1') = base (mm_cache m0').
Proof.
  intros Hu Hb Hc Hl. unfold get_and_update_p0, get_and_update_p1. rewrite Hu.
  destruct (Nat.eqb_spec (length mm_inputs) (length mm_hashes)) as [Hlen|]; [|done]. cbn [negb].
  destruct (use_cache m0) eqn:Eu; cbn [negb].
  - destruct (p0_loop _ _) as [c r] eqn:Ep. intros [= <- ->].
    destruct (p1_follows content _ _ _ _ _ Hb Hc Hl Ep) as (H1 & H2 & c1' & H3 & H4).
    pose proof (p0_misses content _ _ _ _ Hc Hl Ep) as H5.
    rewrite fst_zip in H3, H5 by lia. rewrite snd_zip in H3 by lia. split; [done|]. split; [done|].
    rewrite H1, length_zip_with, Hlen, Nat.min_id, Nat.eqb_refl. cbn [negb]. rewrite H3.
    eexists. split; [done|]. split; [cbn; congruence|done].
  - intros [= <- <-]. split; [|split; [done|]].
    + apply Forall2_fmap_r. apply Forall_Forall2_diag. apply Forall_forall. by right.
    + rewrite length_fmap, Hlen, Nat.eqb_refl. cbn [negb]. exists m1. split; [|by rewrite Hu, Eu].
      by destruct mm_inputs.
Qed.

Definition empty_mirror : MirroredProcessingCache (V := nat) (H := Sized.sized_lru id 10) :=
  {| use_cache := true; mm_cache := {| base := [] : lru nat (BaseLRU := Sized.sized_lru id 10); lru_hits := 0; lru_total := 0 |} |}.

(** An image twice in one request, and another one. *)
Lemma mirrored_roundtrip_witness :
  exists m0' sent m1', get_and_update_p0 empty_mirror [4; 5; 4] ["a"; "b"; "a"] = (m0', Ok sent) /\
    sent = [Some 4; Some 5; None] /\
    get_and_update_p1 empty_mirror sent ["a"; "b"; "a"] = (m1', Ok [Some 4; Some 5; Some 4]) /\
    base (mm_cache m1') = base (mm_cache m0').
Proof.
  set (content := fun h : string => if bool_decide (h = "a") then 4 else 5).
  assert (exists m0', get_and_update_p0 empty_mirror [4; 5; 4] ["a"; "b"; "a"] = (m0', Ok [Some 4; Some 5; None]))
    as [m0' E0] by (eexists; reflexivity).
  destruct (mirrored_roundtrip (H := Sized.sized_lru id 10) (BaseLRULaws0 := Sized.sized_laws id 10) content empty_mirror empty_mirror m0' [4; 5; 4] ["a"; "b"; "a"] [Some 4; Some 5; None])
    as (_ & _ & m1' & H1 & _ & H2).
  - reflexivity.
  - reflexivity.
  - intros k v Hv. cbn in Hv. rewrite lookup_empty in Hv. discriminate.
  - intros x h Hin. repeat (apply elem_of_cons in Hin as [Hin|Hin]; [injection Hin as -> ->; reflexivity|]).
    apply elem_of_nil in Hin. destruct Hin.
  - exact E0.
  - exists m0', [Some 4; Some 5; None], m1'. exact (conj E0 (conj eq_refl (conj H1 H2))).
Defined.

(** The mirror breaks when the client's call raises midway: the entries it
    made before stay.  With a cache of ten, a request with an image of four and
    one of eleven is refused at the client; a later request with the first image
    alone is then sent as [None], and the server, which has never seen it, raises
    [KeyError]. *)
Theorem mirror_broken_by_error :
  exists m0 m0' m1', get_and_update_p0 empty_mirror [4; 11] ["a"; "b"] = (m0, Err ValueError) /\
    get_and_update_p0 m0 [4] ["a"] = (m0', Ok [None]) /\
    get_and_update_p1 empty_mirror [None] ["a"] = (m1', Err KeyError).
Proof. do 3 eexists. split; [reflexivity|]. split; reflexivity. Qed.
