(* ===== verification/EncoderCache.v ===== *)
(** * The encoder cache

    [vllm/v1/core/encoder_cache_manager.py]: the space that the outputs of the
    multi-modal encoder take until the decoder has consumed them, and the
    budgets the scheduler starts from.  Python iterates over a set of ids in an
    order it does not promise; [free] takes the order as an argument. *)

From S2P Require Import Prelude Request.

Record EncoderCacheManager := {
  cache_size : Z;
  num_free_slots : Z;
  cached : gmap string (gset nat);
  freed : list (string * nat);
}.

(** [EncoderCacheManager.__init__] *)
Definition encoder_init (cache_size : Z) : EncoderCacheManager :=
  {| cache_size := cache_size; num_free_slots := cache_size; cached := ∅; freed := [] |}.

Definition get_cached_input_ids (e : EncoderCacheManager) (r : Request) : gset nat :=
  default ∅ (cached e !! request_id r).

Definition has_cache (e : EncoderCacheManager) (r : Request) (input_id : nat) : bool :=
  match cached e !! request_id r with
  | Some ids => bool_decide (input_id ∈ ids)
  | None => false
  end.

Definition can_allocate (e : EncoderCacheManager) (r : Request) (input_id : nat) : result bool :=
  num_tokens ← get_num_encoder_tokens r input_id;
  Ok (num_tokens <=? num_free_slots e)%Z.

Definition allocate (e : EncoderCacheManager) (r : Request) (input_id : nat) : result EncoderCacheManager :=
  let id := request_id r in
  num_tokens ← get_num_encoder_tokens r input_id;
  Ok {| cache_size := cache_size e; num_free_slots := num_free_slots e - num_tokens;
        cached := <[id := default ∅ (cached e !! id) ∪ {[input_id]}]> (cached e); freed := freed e |}.

Definition free_encoder_input (e : EncoderCacheManager) (r : Request) (input_id : nat) :
    result EncoderCacheManager :=
  let id := request_id r in
  match cached e !! id with
  | None => Ok e
  | Some ids =>
      let ids := ids ∖ {[input_id]} in
      let c := if bool_decide (ids = ∅) then delete id (cached e) else <[id := ids]> (cached e) in
      num_tokens ← get_num_encoder_tokens r input_id;
      Ok {| cache_size := cache_size e; num_free_slots := num_free_slots e + num_tokens;
            cached := c; freed := freed e ++ [(id, input_id)] |}
  end.

Definition free (iter : gset nat -> list nat) (e : EncoderCacheManager) (r : Request) : result EncoderCacheManager :=
  foldM (fun e input_id => free_encoder_input e r input_id) e (iter (get_cached_input_ids e r)).

Definition get_freed_ids (e : EncoderCacheManager) : EncoderCacheManager * list (string * nat) :=
  ({| cache_size := cache_size e; num_free_slots := num_free_slots e; cached := cached e; freed := [] |},
   freed e).

(** The fields of the scheduler's configuration that the budgets depend on. *)
Record BudgetConfig := {
  disable_chunked_mm_input : bool;
  max_num_batched_tokens : Z;
  max_num_encoder_input_tokens : Z;
  encoder_cache_size : Z;
}.

(** [max(d.items(), key=lambda item: item[1])]: the first of the largest ones. *)
Definition max_item (items : list (string * Z)) : option (string * Z) :=
  match items with
  | [] => None
  | x :: items => Some (foldl (fun best y => if (best.2 <? y.2)%Z then y else best) x items)
  end.

(** [items] is the registry's answer: the non-text modalities and the largest
    number of tokens one of their items takes. *)
Definition compute_encoder_budget_multimodal (c : BudgetConfig) (items : list (string * Z)) : result (Z * Z) :=
  match max_item items with
  | None => Ok (0, 0)%Z
  | Some (_, max_tokens_per_mm_item) =>
      if disable_chunked_mm_input c && (max_num_batched_tokens c <? max_tokens_per_mm_item)%Z
      then Err ValueError
      else Ok (Z.max (max_num_encoder_input_tokens c) max_tokens_per_mm_item,
               Z.max (encoder_cache_size c) max_tokens_per_mm_item)
  end.

Definition compute_encoder_budget (is_multimodal_model : bool) (c : BudgetConfig)
    (items : list (string * Z)) : result (Z * Z) :=
  if negb is_multimodal_model then Ok (0, 0)%Z else compute_encoder_budget_multimodal c items.

(** ** Accounting *)

Section Accounting.
Context (len : string -> nat -> Z).

(** The length of every input, as the requests of the store give it. *)
Definition known (r : Request) : Prop :=
  forall i p, mm_positions r !! i = Some p -> length_ p = len (request_id r) i.

Definition set_tokens (id : string) (ids : gset nat) : Z := zsum (len id <$> elements ids).
Definition used_tokens (c : gmap string (gset nat)) : Z :=
  map_fold (fun id ids acc => (set_tokens id ids + acc)%Z) 0%Z c.

Record enc_ok (e : EncoderCacheManager) : Prop := {
  eo_slots : (num_free_slots e + used_tokens (cached e) = cache_size e)%Z;
  eo_len : forall id ids i, cached e !! id = Some ids -> i ∈ ids -> (0 <= len id i)%Z;
  eo_nonempty : forall id, cached e !! id <> Some ∅;
}.

Lemma set_tokens_add id ids i :
  i ∉ ids -> set_tokens id (ids ∪ {[i]}) = (set_tokens id ids + len id i)%Z.
Proof.
  intros Hi. unfold set_tokens. rewrite (comm_L (∪) ids).
  rewrite elements_union_singleton by done. rewrite fmap_cons, zsum_cons. lia.
Qed.

Lemma set_tokens_remove id ids i :
  i ∈ ids -> set_tokens id (ids ∖ {[i]}) = (set_tokens id ids - len id i)%Z.
Proof.
  intros Hi. pose proof (set_tokens_add id (ids ∖ {[i]}) i ltac:(set_solver)) as H.
  replace (ids ∖ {[i]} ∪ {[i]}) with ids in H; [lia|].
  apply set_eq. intros x. destruct (decide (x = i)); set_solver.
Qed.

Lemma used_tokens_delete c id :
  used_tokens c = (set_tokens id (default ∅ (c !! id)) + used_tokens (delete id c))%Z.
Proof.
  destruct (c !! id) as [ids|] eqn:E; cbn.
  - unfold used_tokens. rewrite (map_fold_delete_L _ _ id ids c); [done| |done]. intros. lia.
  - rewrite delete_id by done. unfold set_tokens. by rewrite elements_empty.
Qed.

Lemma used_tokens_insert c id ids :
  used_tokens (<[id := ids]> c) = (set_tokens id ids + used_tokens (delete id c))%Z.
Proof. rewrite (used_tokens_delete _ id), lookup_insert_eq, delete_insert_eq. done. Qed.

Lemma encoder_tokens_ok r i :
  i < length (mm_positions r) -> known r -> get_num_encoder_tokens r i = Ok (len (request_id r) i).
Proof.
  intros Hi Hk. unfold get_num_encoder_tokens. destruct (lookup_lt_is_Some_2 _ _ Hi) as [p Hp].
  rewrite (proj2 (Nat.ltb_lt _ _) Hi), Hp. cbn. f_equal. by apply Hk.
Qed.

Lemma encoder_tokens_lt r i n : get_num_encoder_tokens r i = Ok n -> i < length (mm_positions r).
Proof. unfold get_num_encoder_tokens. intros H. invert_ok. by apply Nat.ltb_lt. Qed.

Lemma has_cache_iff e r i : has_cache e r i = true <-> i ∈ get_cached_input_ids e r.
Proof.
  unfold has_cache, get_cached_input_ids. destruct (cached e !! request_id r) as [ids|]; cbn.
  - apply bool_decide_eq_true.
  - set_solver.
Qed.

Lemma allocate_ok e r i :
  enc_ok e -> known r -> i < length (mm_positions r) -> (0 <= len (request_id r) i)%Z ->
  has_cache e r i = false ->
  exists e', allocate e r i = Ok e' /\ enc_ok e' /\
    (can_allocate e r i = Ok true -> 0 <= num_free_slots e')%Z /\
    (num_free_slots e' = num_free_slots e - len (request_id r) i)%Z /\ freed e' = freed e /\
    get_cached_input_ids e' r = get_cached_input_ids e r ∪ {[i]} /\
    delete (request_id r) (cached e') = delete (request_id r) (cached e).
Proof.
  intros [H1 H3 H4] Hk Hi Hlen Hhas. unfold can_allocate, allocate.
  rewrite (encoder_tokens_ok r i Hi Hk). cbn.
  assert (Hni : i ∉ get_cached_input_ids e r) by (rewrite <-has_cache_iff; congruence).
  eexists. split; [done|]. split; [split|]; cbn.
  - rewrite used_tokens_insert. fold (get_cached_input_ids e r).
    rewrite set_tokens_add by done. rewrite <-H1, (used_tokens_delete (cached e) (request_id r)).
    unfold get_cached_input_ids. lia.
  - intros id ids j Hj Hin. apply lookup_insert_Some in Hj as [[<- <-]|[Hne Hj]]; [|by eapply H3].
    apply elem_of_union in Hin as [Hin|Hin%elem_of_singleton]; [|by subst].
    destruct (cached e !! request_id r) as [ids'|] eqn:E; [|set_solver]. by eapply H3.
  - intros id Hid. apply lookup_insert_Some in Hid as [[<- Hid]|[Hne Hid]]; [set_solver|by apply (H4 id)].
  - split_and!; [intros [= H%Z.leb_le]; lia|done|done| |by rewrite delete_insert_eq].
    unfold get_cached_input_ids at 1. cbn. by rewrite lookup_insert_eq.
Qed.

Lemma free_encoder_input_ok e r i :
  enc_ok e -> known r -> i < length (mm_positions r) -> has_cache e r i = true ->
  exists e', free_encoder_input e r i = Ok e' /\ enc_ok e' /\
    (num_free_slots e' = num_free_slots e + len (request_id r) i)%Z /\ (num_free_slots e <= num_free_slots e')%Z /\
    freed e' = freed e ++ [(request_id r, i)] /\
    get_cached_input_ids e' r = get_cached_input_ids e r ∖ {[i]} /\
    delete (request_id r) (cached e') = delete (request_id r) (cached e) /\ cache_size e' = cache_size e.
Proof.
  intros [H1 H3 H4] Hk Hi Hhas. unfold free_encoder_input, has_cache, get_cached_input_ids in *.
  destruct (cached e !! request_id r) as [ids|] eqn:E; [|done]. apply bool_decide_eq_true in Hhas.
  rewrite (encoder_tokens_ok r i Hi Hk). cbn -[difference]. eexists. split; [done|].
  assert (Hdel : delete (request_id r) (if bool_decide (ids ∖ {[i]} = ∅) then delete (request_id r) (cached e)
    else <[request_id r := ids ∖ {[i]}]> (cached e)) = delete (request_id r) (cached e)).
  { case_bool_decide; [by rewrite delete_delete_eq|by rewrite delete_insert_eq]. }
  assert (Hids : default ∅ ((if bool_decide (ids ∖ {[i]} = ∅) then delete (request_id r) (cached e)
    else <[request_id r := ids ∖ {[i]}]> (cached e)) !! request_id r) = ids ∖ {[i]}).
  { case_bool_decide as Hb; [rewrite lookup_delete_eq; by symmetry|by rewrite lookup_insert_eq]. }
  split; [split|]; cbn -[difference].
  - rewrite (used_tokens_delete _ (request_id r)), Hids, Hdel, set_tokens_remove by done.
    rewrite <-H1, (used_tokens_delete (cached e) (request_id r)), E. cbn. lia.
  - intros id ids' j Hj Hin. destruct (decide (id = request_id r)) as [->|Hne].
    + rewrite Hj in Hids. cbn in Hids. subst ids'. eapply H3; [done|set_solver].
    + apply (H3 id ids' j); [|done]. rewrite <-Hj. case_bool_decide;
        [by rewrite lookup_delete_ne|by rewrite lookup_insert_ne].
  - intros id. destruct (decide (id = request_id r)) as [->|Hne].
    + case_bool_decide as Hb; [by rewrite lookup_delete_eq|rewrite lookup_insert_eq; intros H; injection H; exact Hb].
    + intros Hid. apply (H4 id). case_bool_decide.
      * by rewrite lookup_delete_ne in Hid.
      * by rewrite lookup_insert_ne in Hid.
  - pose proof (H3 _ _ _ E Hhas). split_and!; try done. lia.
Qed.

Lemma free_loop_ok e r l :
  enc_ok e -> known r -> NoDup l -> (forall i, i ∈ l -> i < length (mm_positions r)) ->
  (forall i, i ∈ l -> has_cache e r i = true) ->
  exists e', foldM (fun e i => free_encoder_input e r i) e l = Ok e' /\ enc_ok e' /\
    freed e' = freed e ++ (pair (request_id r) <$> l) /\
    get_cached_input_ids e' r = get_cached_input_ids e r ∖ list_to_set l /\
    delete (request_id r) (cached e') = delete (request_id r) (cached e) /\ cache_size e' = cache_size e /\ (num_free_slots e <= num_free_slots e')%Z.
Proof.
  intros He Hk Hnd. revert e He. induction Hnd as [|i l Hi Hnd IH]; intros e He Hpos Hhas; cbn -[difference].
  { exists e. split_and!; [done|done|by rewrite app_nil_r| |done|done|lia]. apply set_eq. set_solver. }
  destruct (free_encoder_input_ok e r i) as (e1 & -> & He1 & _ & Hn1 & Hf1 & Hg1 & Hd1 & Hc1);
    [done|done|apply Hpos; by left|apply Hhas; by left|].
  destruct (IH e1 He1) as (e2 & Hr & He2 & Hf2 & Hg2 & Hd2 & Hc2 & Hn2).
  - intros j Hj. apply Hpos. by right.
  - intros j Hj. apply has_cache_iff. rewrite Hg1. specialize (Hhas j ltac:(by right)).
    apply has_cache_iff in Hhas. set_solver.
  - exists e2. cbn. split_and!; [done|done| | |congruence|congruence|lia].
    + rewrite Hf2, Hf1, <-app_assoc. done.
    + rewrite Hg2, Hg1. apply set_eq. set_solver.
Qed.

Context (iter : gset nat -> list nat) (Hiter : forall s, iter s ≡ₚ elements s).

Lemma enc_free_ok e r :
  enc_ok e -> known r -> (forall i, has_cache e r i = true -> i < length (mm_positions r)) ->
  exists e', free iter e r = Ok e' /\ enc_ok e' /\ cached e' = delete (request_id r) (cached e) /\
    freed e' ≡ₚ freed e ++ (pair (request_id r) <$> elements (get_cached_input_ids e r)) /\
    cache_size e' = cache_size e /\ (num_free_slots e <= num_free_slots e')%Z.
Proof using Hiter.
  intros He Hk Hpos. unfold free.
  destruct (free_loop_ok e r (iter (get_cached_input_ids e r))) as (e' & -> & He' & Hf & Hg & Hd & Hc & Hn); [done|done| | | |].
  - rewrite Hiter. apply NoDup_elements.
  - intros i Hi. apply Hpos, has_cache_iff. rewrite Hiter in Hi. by apply elem_of_elements in Hi.
  - intros i Hi. apply has_cache_iff. rewrite Hiter in Hi. by apply elem_of_elements in Hi.
  - exists e'. split_and!; [done|done| |by rewrite Hf, Hiter|done|done].
    rewrite <-Hd. symmetry. apply delete_id.
    assert (Hempty : get_cached_input_ids e' r = ∅).
    { rewrite Hg, Hiter, list_to_set_elements_L. apply set_eq. set_solver. }
    unfold get_cached_input_ids in Hempty. destruct (cached e' !! request_id r) as [ids|] eqn:E; [|done].
    cbn in Hempty. subst. by destruct (eo_nonempty _ He' (request_id r)).
Qed.
End Accounting.

Lemma max_item_spec items :
  match max_item items with
  | None => items = []
  | Some best => best ∈ items /\ Forall (fun x => x.2 <= best.2)%Z items
  end.
Proof.
  destruct items as [|x items]; cbn; [done|].
  induction items as [|y items IH] using rev_ind; cbn.
  { split; [by left|]. by repeat constructor. }
  rewrite foldl_app. cbn. destruct IH as [IH1 IH2].
  set (best := foldl _ x items) in *. destruct (Z.ltb_spec best.2 y.2) as [Hlt|Hge].
  - split; [set_solver|]. rewrite app_comm_cons. apply Forall_app. split; [|repeat constructor; lia].
    eapply Forall_impl; [exact IH2|]. cbn. intros. lia.
  - split; [set_solver|]. rewrite app_comm_cons. apply Forall_app. split; [done|]. repeat constructor. lia.
Qed.

(** ** Properties *)

(** The encoder cache never loses or invents space: free slots and the
    lengths of the cached inputs always add up to the cache size and neither
    side goes negative.  This is kept by [allocate] when [can_allocate] agreed,
    by [free_encoder_input] on a cached input, and by [free], which removes
    exactly the request's entries and reports each of them as freed once. *)
Theorem encoder_cache_accounting len iter e r :
  (forall s, iter s ≡ₚ elements s) ->
  enc_ok len e -> (0 <= num_free_slots e)%Z -> known len r -> (forall i, i < length (mm_positions r) -> (0 <= len (request_id r) i)%Z) ->
  (forall i, has_cache e r i = true -> i < length (mm_positions r)) ->
  (forall i, i < length (mm_positions r) -> has_cache e r i = false -> can_allocate e r i = Ok true ->
     exists e', allocate e r i = Ok e' /\ enc_ok len e' /\ (0 <= num_free_slots e')%Z /\
       forall j, has_cache e' r j = true <-> j = i \/ has_cache e r j = true) /\
  (forall i, has_cache e r i = true ->
     exists e', free_encoder_input e r i = Ok e' /\ enc_ok len e' /\ (0 <= num_free_slots e')%Z /\ freed e' = freed e ++ [(request_id r, i)] /\
       forall j, has_cache e' r j = true <-> j <> i /\ has_cache e r j = true) /\
  (exists e', free iter e r = Ok e' /\ enc_ok len e' /\ (0 <= num_free_slots e')%Z /\ cached e' = delete (request_id r) (cached e) /\
     freed e' ≡ₚ freed e ++ (pair (request_id r) <$> elements (get_cached_input_ids e r))).
Proof.
  intros Hiter He Hfree Hk Hnn Hpos. split; [|split].
  - intros i Hi Hno Hcan. destruct (allocate_ok len e r i) as (e' & Ha & He' & Hcf & _ & _ & Hg & _); [by auto..|].
    exists e'. split; [done|]. split; [done|]. split; [by apply Hcf|]. intros j. rewrite !has_cache_iff, Hg. set_solver.
  - intros i Hhas. destruct (free_encoder_input_ok len e r i) as (e' & Ha & He' & _ & Hn & Hf & Hg & _ & _); [by auto..|].
    exists e'. split_and!; [done|done|lia|done|]. intros j. rewrite !has_cache_iff, Hg. set_solver.
  - destruct (enc_free_ok len iter Hiter e r) as (e' & Ha & He' & Hc & Hf & _ & Hn); [by auto..|].
    exists e'. split_and!; [done|done|lia|done|done].
Qed.

Definition demo_mm : Request :=
  {| request_id := "a"; sampling_params := {| sp_max_tokens := Some 3%Z; guided_decoding := false;
       ignore_eos := false; stop_token_ids := []; prompt_logprobs := None; sp_logprobs := None; sp_sampler := greedy_sampler |};
     eos_token_id := None; lora_request := None; structured_output_request := true;
     status := RUNNING; events := []; stop_reason := None; max_tokens := 3;
     prompt_token_ids := [1; 9; 9; 9; 2; 9; 9]%Z; num_prompt_tokens := 7; output_token_ids := [];
     all_token_ids := [1; 9; 9; 9; 2; 9; 9]%Z; spec_token_ids := []; num_computed_tokens := 0;
     mm_positions := [{| offset := 1; length_ := 3 |}; {| offset := 5; length_ := 2 |}]; mm_inputs := 2;
     mm_hashes := [] |}.

Definition demo_len (id : string) (i : nat) : Z := if i =? 0 then 3%Z else 2%Z.

Lemma demo_known : known demo_len demo_mm.
Proof. intros [|[|i]] p Hp; cbn in Hp; by simplify_eq. Qed.

(** The second input of [demo_mm], two slots, goes into a cache of four. *)
Lemma encoder_cache_accounting_witness :
  exists e', allocate (encoder_init 4) demo_mm 1 = Ok e' /\ num_free_slots e' = 2%Z /\ enc_ok demo_len e'.
Proof.
  assert (He : enc_ok demo_len (encoder_init 4)).
  { split; [reflexivity|intros id ids i H; cbn in H; by rewrite lookup_empty in H|].
    intros id H. cbn in H. by rewrite lookup_empty in H. }
  destruct (encoder_cache_accounting demo_len elements (encoder_init 4) demo_mm) as (Ha & _);
    [done|exact He|cbn; lia|exact demo_known|intros [|i] _; cbn; lia|by intros i H; cbn in H|].
  destruct (Ha 1) as (e' & E & He' & _ & _); [cbn; lia|reflexivity|reflexivity|].
  exists e'. split; [exact E|]. split; [|exact He']. vm_compute in E. injection E as <-. reflexivity.
Defined.

(** The encoder budgets are large enough: for a multi-modal model with its
    modalities enabled, an item of any modality fits into an empty encoder cache
    and into the compute budget of one step, and, when items may not be chunked,
    into the token budget of one step; the configured sizes are only ever raised.
    Otherwise both budgets are zero or the configuration is refused. *)
Theorem encoder_budget_fits mm c items :
  match compute_encoder_budget mm c items with
  | Ok (compute, space) =>
      if mm && negb (bool_decide (items = [])) then
        (max_num_encoder_input_tokens c <= compute)%Z /\ (encoder_cache_size c <= space)%Z /\
        forall name tokens, (name, tokens) ∈ items ->
          (tokens <= compute)%Z /\ (tokens <= num_free_slots (encoder_init space))%Z /\
          (disable_chunked_mm_input c = true -> (tokens <= max_num_batched_tokens c)%Z)
      else compute = 0%Z /\ space = 0%Z
  | Err e => mm = true /\ e = ValueError /\ disable_chunked_mm_input c = true /\
      exists name tokens, (name, tokens) ∈ items /\ (max_num_batched_tokens c < tokens)%Z
  end.
Proof.
  unfold compute_encoder_budget. destruct mm; cbn; [|done].
  unfold compute_encoder_budget_multimodal. pose proof (max_item_spec items) as H.
  destruct (max_item items) as [[name m]|]; cbn in H; [|by subst items].
  destruct H as [Hin Hmax]. rewrite Forall_forall in Hmax.
  destruct (disable_chunked_mm_input c && _) eqn:E; cbn.
  - apply andb_true_iff in E as [E1 E2]. apply Z.ltb_lt in E2. by eauto 10.
  - rewrite bool_decide_false by (intros ->; set_solver). cbn.
    split; [lia|]. split; [lia|]. intros nm t Ht. specialize (Hmax _ Ht). cbn in Hmax.
    split; [lia|]. split; [lia|]. intros Hd. rewrite Hd in E. apply Z.ltb_ge in E. lia.
Qed.
