(* ===== verification/NgramProposer.v ===== *)
(** * The n-gram proposer of speculative decoding

    [vllm/v1/spec_decode/ngram_proposer.py]: the failure table of the
    Knuth-Morris-Pratt search, the search, and [NgramProposer.propose].  The
    loops take fuel; [lps_loop_ok] and [find_loop_ok] show that [2 * n] and
    [2 * len] steps are enough.  Array accesses are checked here, so the theorems
    also say that the compiled code, which does not check, stays in range. *)

From S2P Require Import Prelude.

Section Kmp.
Context (pattern : list Z).

(** The body of the [while] loop of [_kmp_lps_array]. *)
Fixpoint lps_loop (fuel : nat) (i prev_lps : nat) (lps : list nat) : option (result (list nat)) :=
  if i <? length pattern then
  match fuel with
  | 0 => None
  | S fuel =>
      match pattern !! i, pattern !! prev_lps with
      | Some a, Some b =>
          if (a =? b)%Z then lps_loop fuel (i + 1) (prev_lps + 1) (<[i := prev_lps + 1]> lps)
          else if prev_lps =? 0 then lps_loop fuel (i + 1) prev_lps (<[i := 0]> lps)
          else
            match lps !! (prev_lps - 1) with
            | Some p => lps_loop fuel i p lps
            | None => Some (Err IndexError)
            end
      | _, _ => Some (Err IndexError)
      end
  end
  else Some (Ok lps).

Definition kmp_lps_array : option (result (list nat)) :=
  lps_loop (2 * length pattern) 1 0 (replicate (length pattern) 0).

(** The [while] loop of [_find_subarray_kmp]; [stop] is [context_len - n]. *)
Fixpoint find_loop (context : list Z) (n : nat) (k stop : Z) (lps : list nat) (fuel i j : nat) :
  option (result (option (list Z))) :=
  if (Z.of_nat i <? stop)%Z then
  match fuel with
  | 0 => None
  | S fuel =>
      match context !! i, pattern !! j with
      | Some a, Some b =>
          if (a =? b)%Z then
            if j + 1 =? n then Some (Ok (Some (py_slice (Z.of_nat (i + 1)) (Z.of_nat (i + 1) + k) context)))
            else find_loop context n k stop lps fuel (i + 1) (j + 1)
          else if j =? 0 then find_loop context n k stop lps fuel (i + 1) j
          else
            match lps !! (j - 1) with
            | Some j => find_loop context n k stop lps fuel i j
            | None => Some (Err IndexError)
            end
      | _, _ => Some (Err IndexError)
      end
  end
  else Some (Ok None).
End Kmp.

Definition find_subarray_kmp (context : list Z) (n k : Z) : option (result (option (list Z))) :=
  if (n <=? 0)%Z then Some (Err AssertionError)
  else
    let pattern := py_slice_from (- n) context in
    match kmp_lps_array pattern with
    | Some (Ok lps) =>
        find_loop pattern context (Z.to_nat n) k (Z.of_nat (length context) - n) lps
          (2 * length context) 0 0
    | Some (Err e) => Some (Err e)
    | None => None
    end.

Record NgramProposer := { min_n : Z; max_n : Z; num_k : Z; max_model_len : Z }.

(** [for n in range(n, self.min_n - 1, -1)] *)
Fixpoint try_ngrams (context : list Z) (k n : Z) (count : nat) : option (result (option (list Z))) :=
  match count with
  | 0 => Some (Ok None)
  | S count =>
      match find_subarray_kmp context n k with
      | Some (Ok None) => try_ngrams context k (n - 1) count
      | r => r
      end
  end.

Definition propose (self : NgramProposer) (context : list Z) : option (result (option (list Z))) :=
  let k := Z.min (num_k self) (max_model_len self - Z.of_nat (length context)) in
  if (k <=? 0)%Z then Some (Ok None)
  else try_ngrams context k (max_n self) (Z.to_nat (max_n self - min_n self + 1)).

(** [NgramProposer.__init__] runs [propose] on 1024 zeros to trigger the compiler. *)
Definition proposer_init (prompt_lookup_min prompt_lookup_max num_speculative_tokens model_len : Z) :
    option (result NgramProposer) :=
  let self := {| min_n := prompt_lookup_min; max_n := prompt_lookup_max;
                 num_k := num_speculative_tokens; max_model_len := model_len |} in
  match propose self (replicate 1024 0%Z) with
  | Some (Ok _) => Some (Ok self)
  | Some (Err e) => Some (Err e)
  | None => None
  end.

(** ** Borders and occurrences *)

(** A proper border of length [b] of the first [q] tokens. *)
Definition border (p : list Z) (b q : nat) : Prop :=
  b < q /\ forall t, t < b -> p !! t = p !! (q - b + t).

Definition occurs (p text : list Z) (x : nat) : Prop :=
  forall t, t < length p -> text !! (x + t) = p !! t.

(** [lps !! q] is the longest proper border of the first [q + 1] tokens. *)
Definition longest (p : list Z) (l q : nat) : Prop :=
  border p l (q + 1) /\ forall b, border p b (q + 1) -> b <= l.

Lemma border_trans p a b q : border p a b -> border p b q -> border p a q.
Proof.
  intros [H1 H2] [H3 H4]. split; [lia|]. intros t Ht. rewrite H2 by done.
  rewrite H4 by lia. f_equal. lia.
Qed.

Lemma border_inner p a b q : border p a q -> border p b q -> a < b -> border p a b.
Proof.
  intros [H1 H2] [H3 H4] H. split; [done|]. intros t Ht. rewrite H2, (H4 (b - a + t)) by lia. f_equal. lia.
Qed.

Lemma border_step p b q : border p b q -> p !! b = p !! q -> border p (b + 1) (q + 1).
Proof.
  intros [H1 H2] H. split; [lia|]. intros t Ht. destruct (decide (t = b)) as [->|].
  - rewrite H. f_equal. lia.
  - rewrite H2 by lia. f_equal. lia.
Qed.

Lemma border_unstep p b q : border p (b + 1) (q + 1) -> border p b q /\ p !! b = p !! q.
Proof.
  intros [H1 H2]. split.
  - split; [lia|]. intros t Ht. rewrite H2 by lia. f_equal. lia.
  - rewrite (H2 b) by lia. f_equal. lia.
Qed.

Lemma border_0 p q : 0 < q -> border p 0 q.
Proof. split; [done|lia]. Qed.

(** ** The failure table *)

Record lps_inv (p : list Z) (i prev : nat) (lps : list nat) : Prop := {
  li_len : length lps = length p;
  li_prev : border p prev i;
  li_done : forall q l, q < i -> lps !! q = Some l -> longest p l q;
  li_max : forall b, border p b i -> p !! b = p !! i -> i < length p -> b <= prev;
}.

Lemma lps_store p i prev lps v :
  lps_inv p i prev lps -> i < length p -> longest p v i -> lps_inv p (i + 1) v (<[i := v]> lps).
Proof.
  intros [H1 H2 H3 H4] Hi Hv. split.
  - by rewrite length_insert.
  - apply Hv.
  - intros q l Hq Hl. destruct (decide (q = i)) as [->|].
    + rewrite list_lookup_insert_eq in Hl by lia. by injection Hl as <-.
    + rewrite list_lookup_insert_ne in Hl by done. apply H3; [lia|done].
  - intros b Hb _ _. by apply Hv.
Qed.

Lemma lps_loop_ok p fuel i prev lps :
  lps_inv p i prev lps -> 0 < i <= length p -> 2 * (length p - i) + prev <= fuel ->
  exists res, lps_loop p fuel i prev lps = Some (Ok res) /\ length res = length p /\
    forall q l, res !! q = Some l -> longest p l q.
Proof.
  revert i prev lps. induction fuel as [|fuel IH]; intros i prev lps Hinv Hi Hf; cbn [lps_loop];
    destruct (Nat.ltb_spec i (length p)) as [Hlt|Hge].
  - lia.
  - exists lps. destruct Hinv as [H1 _ H3 _]. split_and!; [done|done|]. intros q l Hl. apply H3; [|done].
    apply lookup_lt_Some in Hl. lia.
  - pose proof (li_prev _ _ _ _ Hinv) as Hprev. pose proof (proj1 Hprev) as Hpi.
    destruct (lookup_lt_is_Some_2 p i Hlt) as [a Ha]. rewrite Ha.
    destruct (lookup_lt_is_Some_2 p prev ltac:(lia)) as [b Hb]. rewrite Hb.
    destruct (Z.eqb_spec a b) as [->|Hab].
    + apply IH; [|lia|lia]. apply (lps_store p i prev); [done|done|]. split.
      { apply border_step; [done|congruence]. }
      intros [|c] Hc; [lia|]. replace (S c) with (c + 1) in Hc by lia.
      apply border_unstep in Hc as [Hc1 Hc2]. pose proof (li_max _ _ _ _ Hinv c Hc1 Hc2 Hlt). lia.
    + assert (Hne : forall c, border p c i -> p !! c = p !! i -> c < prev).
      { intros c Hc1 Hc2. pose proof (li_max _ _ _ _ Hinv c Hc1 Hc2 Hlt).
        destruct (decide (c = prev)) as [->|]; [congruence|lia]. }
      destruct (Nat.eqb_spec prev 0) as [->|Hp0].
      * apply IH; [|lia|lia]. apply (lps_store p i 0); [done|done|]. split; [apply border_0; lia|].
        intros [|c] Hc; [lia|]. replace (S c) with (c + 1) in Hc by lia.
        apply border_unstep in Hc as [Hc1 Hc2]. specialize (Hne c Hc1 Hc2). lia.
      * destruct (lookup_lt_is_Some_2 lps (prev - 1)) as [l Hl]; [rewrite (li_len _ _ _ _ Hinv); lia|].
        rewrite Hl. pose proof (li_done _ _ _ _ Hinv (prev - 1) l ltac:(lia) Hl) as [Hl1 Hl2].
        replace (prev - 1 + 1) with prev in * by lia. pose proof (proj1 Hl1) as Hlp.
        apply IH; [|lia|lia]. destruct Hinv as [H1 H2 H3 H4]. split; [done| |done|].
        { by apply (border_trans p l prev). }
        intros c Hc1 Hc2 _. specialize (Hne c Hc1 Hc2). apply Hl2. by apply (border_inner p c prev i).
  - exists lps. destruct Hinv as [H1 _ H3 _]. split_and!; [done|done|]. intros q l Hl. apply H3; [|done].
    apply lookup_lt_Some in Hl. lia.
Qed.

Lemma kmp_lps_array_ok p :
  exists lps, kmp_lps_array p = Some (Ok lps) /\ length lps = length p /\
    forall q l, lps !! q = Some l -> longest p l q.
Proof.
  unfold kmp_lps_array. destruct (decide (p = [])) as [->|Hne].
  { exists []. split_and!; [done|done|]. intros q l Hl. by rewrite lookup_nil in Hl. }
  assert (0 < length p) by (destruct p; [done|cbn; lia]).
  apply lps_loop_ok; [|lia|lia]. split.
  - apply length_replicate.
  - apply border_0. lia.
  - intros q l Hq Hl. apply lookup_replicate in Hl as [-> _]. replace q with 0 by lia.
    split; [apply border_0; lia|]. intros b [Hb _]. lia.
  - intros b [Hb _] _ _. lia.
Qed.

(** ** The search *)

Record find_inv (p text : list Z) (i j : nat) : Prop := {
  fi_j : j <= i /\ j < length p;
  fi_match : forall t, t < j -> text !! (i - j + t) = p !! t;
  fi_first : forall x, occurs p text x -> i - j <= x;
}.

(** After a mismatch at [j] the first occurrence is not at [i - j]; any other
    one that overlaps the matched tokens makes a border of them. *)
Lemma find_shift p text i j l :
  find_inv p text i j -> 0 < j -> text !! i <> p !! j -> longest p l (j - 1) -> find_inv p text i l.
Proof.
  intros [[H1 H1'] H2 H3] Hj Hne [Hl1 Hl2]. replace (j - 1 + 1) with j in * by lia.
  destruct Hl1 as [Hlj Hlb]. split; [lia| |].
  - intros t Ht. rewrite (Hlb t Ht), <- H2 by lia. f_equal. lia.
  - intros x Hx. specialize (H3 x Hx). destruct (decide (x = i - j)) as [->|Hxne].
    { destruct Hne. rewrite <- (Hx j) by lia. f_equal. lia. }
    destruct (decide (i <= x)); [lia|]. assert (border p (i - x) j); [|pose proof (Hl2 (i - x) H); lia].
    split; [lia|]. intros t Ht. rewrite <- (Hx t) by lia. rewrite <- (H2 (j - (i - x) + t)) by lia. f_equal. lia.
Qed.

Lemma find_loop_ok p context k stop lps fuel i j :
  (forall q l, lps !! q = Some l -> longest p l q) -> length lps = length p -> 0 < length p ->
  stop <= length context -> i <= stop -> find_inv p (take stop context) i j ->
  2 * (stop - i) + j <= fuel ->
  exists r, find_loop p context (length p) k (Z.of_nat stop) lps fuel i j = Some (Ok r) /\
    match r with
    | Some out => exists x, occurs p (take stop context) x /\
        (forall y, occurs p (take stop context) y -> x <= y) /\
        out = py_slice (Z.of_nat (x + length p)) (Z.of_nat (x + length p) + k) context
    | None => forall x, ~ occurs p (take stop context) x
    end.
Proof.
  intros Hlps Hll Hp Hs. revert i j. induction fuel as [|fuel IH]; intros i j Hi Hinv Hf; cbn [find_loop];
    (destruct (Z.ltb_spec (Z.of_nat i) (Z.of_nat stop)) as [Hlt|Hge];
     [|exists None; split; [done|]; intros x Hx; pose proof (fi_first _ _ _ _ Hinv x Hx) as Hx1;
       destruct Hinv as [[Hj Hj'] _ _]; pose proof (Hx (length p - 1) ltac:(lia)) as Hx2;
       rewrite lookup_take_ge in Hx2 by lia; symmetry in Hx2; apply lookup_ge_None in Hx2; lia]).
  - lia.
  - pose proof (fi_j _ _ _ _ Hinv) as [Hj Hj'].
    destruct (lookup_lt_is_Some_2 context i ltac:(lia)) as [a Ha]. rewrite Ha.
    destruct (lookup_lt_is_Some_2 p j Hj') as [b Hb]. rewrite Hb.
    assert (Ha' : take stop context !! i = Some a) by (rewrite lookup_take_lt by lia; done).
    destruct (Z.eqb_spec a b) as [->|Hab].
    + assert (Hm : forall t, t < j + 1 -> take stop context !! (i + 1 - (j + 1) + t) = p !! t).
      { intros t Ht. destruct (decide (t = j)) as [->|].
        - rewrite Hb, <- Ha'. f_equal. lia.
        - replace (i + 1 - (j + 1)) with (i - j) by lia. apply (fi_match _ _ _ _ Hinv). lia. }
      destruct (Nat.eqb_spec (j + 1) (length p)) as [Hjp|Hjp].
      * eexists. split; [done|]. exists (i - j). split_and!.
        -- intros t Ht. rewrite <- Hm by lia. f_equal. lia.
        -- apply (fi_first _ _ _ _ Hinv).
        -- f_equal; lia.
      * apply IH; [lia| |lia]. split; [lia|done|]. intros x Hx.
        pose proof (fi_first _ _ _ _ Hinv x Hx). lia.
    + destruct (Nat.eqb_spec j 0) as [->|Hj0].
      * apply IH; [lia| |lia]. split; [lia|lia|]. intros x Hx. pose proof (fi_first _ _ _ _ Hinv x Hx) as Hx1.
        destruct (decide (x = i)) as [->|]; [|lia]. specialize (Hx 0 ltac:(lia)).
        rewrite Nat.add_0_r in Hx. congruence.
      * destruct (lookup_lt_is_Some_2 lps (j - 1)) as [l Hl]; [lia|]. rewrite Hl.
        pose proof (Hlps _ _ Hl) as Hlong. pose proof (proj1 (proj1 Hlong)) as Hlj.
        apply IH; [done| |lia]. eapply (find_shift p _ i j); [done|lia|congruence|done].
Qed.

(** What [_find_subarray_kmp] answers: the tokens that follow the first
    occurrence of the last [n] tokens before those tokens. *)
Definition ngram_answer (context : list Z) (n k : Z) (r : option (list Z)) : Prop :=
  let c := length context in
  match r with
  | Some out => exists x : nat,
      (Z.of_nat x + 2 * n <= Z.of_nat c)%Z /\
      (forall t, t < Z.to_nat n -> context !! (x + t) = context !! (c - Z.to_nat n + t)) /\
      (forall y, (Z.of_nat y + 2 * n <= Z.of_nat c)%Z ->
         (forall t, t < Z.to_nat n -> context !! (y + t) = context !! (c - Z.to_nat n + t)) -> x <= y) /\
      out = take (Z.to_nat k) (drop (x + Z.to_nat n) context)
  | None => forall x : nat, (Z.of_nat x + 2 * n <= Z.of_nat c)%Z ->
      ~ (forall t, t < Z.to_nat n -> context !! (x + t) = context !! (c - Z.to_nat n + t))
  end.

Lemma occurs_suffix context n x :
  0 < n <= length context ->
  (occurs (drop (length context - n) context) (take (length context - n) context) x <->
   x + 2 * n <= length context /\ forall t, t < n -> context !! (x + t) = context !! (length context - n + t)).
Proof.
  intros Hn. unfold occurs. rewrite length_drop. replace (length context - (length context - n)) with n by lia. split.
  - intros H. assert (x + 2 * n <= length context).
    { specialize (H (n - 1) ltac:(lia)). rewrite lookup_drop in H.
      destruct (lookup_lt_is_Some_2 context (length context - n + (n - 1)) ltac:(lia)) as [a Ha].
      rewrite Ha in H. apply lookup_lt_Some in H. rewrite length_take in H. lia. }
    split; [done|]. intros t Ht. specialize (H t Ht). rewrite lookup_drop, lookup_take_lt in H by lia. done.
  - intros [H1 H2] t Ht. rewrite lookup_drop, lookup_take_lt by lia. by apply H2.
Qed.

Lemma py_slice_add {A} (a : nat) (k : Z) (l : list A) :
  (0 <= k)%Z -> a <= length l -> py_slice (Z.of_nat a) (Z.of_nat a + k) l = take (Z.to_nat k) (drop a l).
Proof.
  intros Hk Ha. unfold py_slice, py_bound.
  destruct (Z.ltb_spec (Z.of_nat a) 0), (Z.ltb_spec (Z.of_nat a + k) 0); try lia.
  rewrite Nat2Z.id, (Nat.min_l a) by done.
  destruct (decide (a + Z.to_nat k <= length l)).
  - rewrite Nat.min_l by lia. f_equal. lia.
  - rewrite Nat.min_r by lia. rewrite !take_ge; rewrite ?length_drop; [done|lia..].
Qed.

Lemma find_subarray_kmp_ok context n k :
  (0 < n)%Z -> (0 <= k)%Z ->
  exists r, find_subarray_kmp context n k = Some (Ok r) /\ ngram_answer context n k r.
Proof.
  intros Hn Hk. unfold find_subarray_kmp. destruct (Z.leb_spec n 0); [lia|].
  destruct (kmp_lps_array_ok (py_slice_from (- n) context)) as (lps & -> & Hl & Hlps).
  destruct (decide (Z.of_nat (length context) < n)%Z) as [Hshort|Hlong].
  - exists None. split.
    + destruct (2 * length context); cbn [find_loop];
        (destruct (Z.ltb_spec (Z.of_nat 0) (Z.of_nat (length context) - n)); [lia|done]).
    + intros x Hx. lia.
  - assert (Hp : py_slice_from (- n) context = drop (length context - Z.to_nat n) context).
    { unfold py_slice_from, py_bound. destruct (Z.ltb_spec (- n) 0); [|lia]. f_equal. lia. }
    rewrite Hp in *.
    replace (Z.of_nat (length context) - n)%Z with (Z.of_nat (length context - Z.to_nat n)) by lia.
    assert (Hlen : length (drop (length context - Z.to_nat n) context) = Z.to_nat n) by (rewrite length_drop; lia).
    pose proof (find_loop_ok (drop (length context - Z.to_nat n) context) context k (length context - Z.to_nat n)
      lps (2 * length context) 0 0 Hlps Hl) as H1. rewrite Hlen in H1.
    destruct H1 as (r & Hr & Hspec); [lia|lia|lia| |lia|].
    { split; [lia|lia|intros; lia]. }
    exists r. split; [exact Hr|]. unfold ngram_answer.
    assert (Hocc : forall x, occurs (drop (length context - Z.to_nat n) context) (take (length context - Z.to_nat n) context) x <->
      (Z.of_nat x + 2 * n <= Z.of_nat (length context))%Z /\
      forall t, t < Z.to_nat n -> context !! (x + t) = context !! (length context - Z.to_nat n + t)).
    { intros x. rewrite occurs_suffix by lia. split; intros [? ?]; (split; [lia|done]). }
    destruct r as [out|].
    + destruct Hspec as (x & Hx & Hmin & ->). apply Hocc in Hx as [Hx1 Hx2]. exists x. split_and!; [done|done| |].
      * intros y Hy1 Hy2. apply Hmin, Hocc. done.
      * apply py_slice_add; lia.
    + intros x Hx Hx'. by apply (Hspec x), Hocc.
Qed.

(** ** Properties *)

(** C38: [_find_subarray_kmp] terminates without an access out of range and
    finds the first place, before the last [n] tokens, where those tokens stand;
    it returns up to [k] tokens that follow them there, and [None] exactly when
    there is no such place. *)
Theorem find_subarray_kmp_correct context n k :
  (0 < n)%Z -> (0 <= k)%Z ->
  exists r, find_subarray_kmp context n k = Some (Ok r) /\ ngram_answer context n k r.
Proof. apply find_subarray_kmp_ok. Qed.

Lemma find_subarray_kmp_correct_witness :
  find_subarray_kmp [1; 2; 3; 4; 2; 3]%Z 2 4 = Some (Ok (Some [4; 2; 3]%Z)) /\
  ngram_answer [1; 2; 3; 4; 2; 3]%Z 2 4 (Some [4; 2; 3]%Z).
Proof.
  destruct (find_subarray_kmp_correct [1; 2; 3; 4; 2; 3]%Z 2 4) as (r & Hr & Ha); [lia|lia|].
  assert (r = Some [4; 2; 3]%Z) as ->; [|done]. vm_compute in Hr. by injection Hr as <-.
Defined.

Lemma try_ngrams_ok context k n count :
  (Z.of_nat count <= n)%Z -> (0 <= k)%Z ->
  exists r, try_ngrams context k n count = Some (Ok r) /\
    match r with
    | Some out => exists m, (n - Z.of_nat count < m <= n)%Z /\ ngram_answer context m k (Some out) /\
        forall m', (m < m' <= n)%Z -> ngram_answer context m' k None
    | None => forall m, (n - Z.of_nat count < m <= n)%Z -> ngram_answer context m k None
    end.
Proof.
  revert n. induction count as [|count IH]; intros n Hn Hk; cbn [try_ngrams].
  { exists None. split; [done|]. intros m Hm. lia. }
  destruct (find_subarray_kmp_ok context n k) as (r & -> & Ha); [lia|done|].
  destruct r as [out|].
  - exists (Some out). split; [done|]. exists n. split_and!; [lia|lia|done|]. intros m' Hm'. lia.
  - destruct (IH (n - 1)%Z) as (r & -> & Hr); [lia|done|]. exists r. split; [done|]. destruct r as [out|].
    + destruct Hr as (m & Hm & Hout & Hmax). exists m. split_and!; [lia|lia|done|]. intros m' Hm'.
      destruct (decide (m' = n)) as [->|]; [done|]. apply Hmax. lia.
    + intros m Hm. destruct (decide (m = n)) as [->|]; [done|]. apply Hr. lia.
Qed.

(** [propose] always returns: nothing when the model's length is reached,
    otherwise the continuation of the longest n-gram, between [min_n] and
    [max_n], that occurs earlier in the context; at most [k] tokens, never more
    than the model's length leaves room for, all of them from the context. *)
Theorem propose_correct self context :
  (1 <= min_n self <= max_n self)%Z ->
  exists r, propose self context = Some (Ok r) /\
    let k := Z.min (num_k self) (max_model_len self - Z.of_nat (length context)) in
    match r with
    | Some out =>
        (Z.of_nat (length context) + Z.of_nat (length out) <= max_model_len self)%Z /\
        (0 < Z.of_nat (length out) <= num_k self)%Z /\
        exists n, (min_n self <= n <= max_n self)%Z /\ ngram_answer context n k (Some out) /\
          forall m, (n < m <= max_n self)%Z -> ngram_answer context m k None
    | None => (k <= 0)%Z \/ forall n, (min_n self <= n <= max_n self)%Z -> ngram_answer context n k None
    end.
Proof.
  intros Hn. unfold propose. cbn zeta. set (k := Z.min _ _). destruct (Z.leb_spec k 0) as [Hk|Hk].
  { exists None. split; [done|]. by left. }
  destruct (try_ngrams_ok context k (max_n self) (Z.to_nat (max_n self - min_n self + 1))) as (r & -> & Hr); [lia|lia|].
  exists r. split; [done|]. destruct r as [out|].
  - destruct Hr as (m & Hm & Hout & Hmax).
    pose proof Hout as (x & Hx1 & _ & _ & Heq). apply (f_equal length) in Heq.
    rewrite length_take, length_drop in Heq. split; [lia|]. split; [lia|].
    exists m. split; [lia|]. split; [done|]. intros m' Hm'. apply Hmax. lia.
  - right. intros n Hn'. apply Hr. lia.
Qed.

(** The example of the source's doc string. *)
Lemma propose_correct_witness :
  propose {| min_n := 2; max_n := 3; num_k := 4; max_model_len := 100 |} [1; 2; 3; 4; 2; 3]%Z
  = Some (Ok (Some [4; 2; 3]%Z)) /\
  ngram_answer [1; 2; 3; 4; 2; 3]%Z 3 4 None.
Proof.
  destruct (propose_correct {| min_n := 2; max_n := 3; num_k := 4; max_model_len := 100 |} [1; 2; 3; 4; 2; 3]%Z)
    as (r & Hr & Hspec); [cbn; lia|].
  assert (r = Some [4; 2; 3]%Z) as -> by (vm_compute in Hr; by injection Hr as <-).
  split; [exact Hr|]. destruct Hspec as (_ & _ & n & Hn & Hans & Hmax). cbn in Hn, Hmax.
  assert (n = 2 \/ n = 3)%Z as [->| ->] by lia; [exact (Hmax 3%Z ltac:(cbn; lia))|].
  destruct Hans as (x & Hx1 & Hx2 & _). assert (x = 0) as -> by (cbn in Hx1; lia).
  specialize (Hx2 0 ltac:(lia)). discriminate Hx2.
Defined.
