(* ===== verification/Scheduler.v ===== *)
(** * The scheduler of the vLLM V1 engine

    [vllm/v1/core/sched/scheduler.py] with the records of
    [vllm/v1/core/sched/output.py] and the statistics of
    [vllm/v1/spec_decode/metrics.py].  Request objects live in a [heap]; the
    queues and the dict [requests] hold references to them, as the Python
    attributes do, so that an assignment through one name is seen through all.
    What the scheduler only calls (the KV connector, the grammar bitmask, the
    log-probability arrays) is the class [Env]; the clock and the answers of the
    grammar compiler are arguments of [schedule]. *)

From S2P Require Import Prelude PrefixMetrics FreeBlockQueue Request BlockHash BlockPool.
From S2P Require Import SpecializedManager KVCacheConfig KVCacheManager EncoderCache.
From Stdlib Require Import QArith.
Close Scope Q_scope.

(** ** Data passed to the workers *)

Record NewRequestData := {
  nr_req_id : string;
  nr_prompt_token_ids : list Z;
  nr_mm_inputs : nat;
  nr_mm_hashes : list (option string);
  nr_mm_positions : list PlaceholderRange;
  nr_sampling_params : SamplingParams;
  nr_block_ids : list nat;
  nr_num_computed_tokens : Z;
  nr_lora_request : option Z;
}.

Definition new_request_data (r : Request) (block_ids : list nat) : NewRequestData :=
  {| nr_req_id := request_id r; nr_prompt_token_ids := prompt_token_ids r; nr_mm_inputs := mm_inputs r;
     nr_mm_hashes := mm_hashes r; nr_mm_positions := mm_positions r; nr_sampling_params := sampling_params r;
     nr_block_ids := block_ids; nr_num_computed_tokens := num_computed_tokens r;
     nr_lora_request := lora_request r |}.

Record CachedRequestData := {
  cr_req_id : string;
  resumed_from_preemption : bool;
  new_token_ids : list Z;
  new_block_ids : list nat;
  cr_num_computed_tokens : Z;
}.

Definition cached_request_data (r : Request) (resumed : bool) (toks : list Z) (blocks : list nat) : CachedRequestData :=
  {| cr_req_id := request_id r; resumed_from_preemption := resumed; new_token_ids := toks;
     new_block_ids := blocks; cr_num_computed_tokens := num_computed_tokens r |}.

(** ** Statistics *)

Record SpecDecodingStats := {
  num_spec_tokens : Z;
  num_drafts : Z;
  num_draft_tokens : Z;
  num_accepted_tokens : Z;
  num_accepted_tokens_per_pos : list Z;
}.

Definition spec_stats_new (n : Z) : SpecDecodingStats :=
  {| num_spec_tokens := n; num_drafts := 0; num_draft_tokens := 0; num_accepted_tokens := 0;
     num_accepted_tokens_per_pos := replicate (Z.to_nat n) 0%Z |}.

(** [for i in range(n): l[i] += 1] *)
Fixpoint bump_first (n : nat) (l : list Z) : result (list Z) :=
  match n with
  | 0 => Ok l
  | S n => match l with
           | [] => Err IndexError
           | x :: l => l' ← bump_first n l; Ok ((x + 1)%Z :: l')
           end
  end.

Definition observe_draft (s : SpecDecodingStats) (draft accepted : Z) : result SpecDecodingStats :=
  _ ← py_assert (accepted <=? num_spec_tokens s)%Z;
  per_pos ← bump_first (Z.to_nat accepted) (num_accepted_tokens_per_pos s);
  Ok {| num_spec_tokens := num_spec_tokens s; num_drafts := num_drafts s + 1;
        num_draft_tokens := num_draft_tokens s + draft;
        num_accepted_tokens := num_accepted_tokens s + accepted;
        num_accepted_tokens_per_pos := per_pos |}.

Record SchedulerStats := {
  num_running_reqs : nat;
  num_waiting_reqs : nat;
  gpu_cache_usage : Q;
  stats_prefix_cache : PrefixCacheStats;
  spec_decoding_stats : option SpecDecodingStats;
}.

(** [KVCacheManager.usage], a float in the code. *)
Definition usage (m : KVCacheManager) : Q :=
  (1 - inject_Z (get_num_free_blocks (block_pool m)) / inject_Z (Z.of_nat (num_gpu_blocks (block_pool m))))%Q.

(** ** The outside of the scheduler *)

Class Env := {
  connector_state : Type;
  connector_meta : Type;
  bitmask : Type;
  logprobs_lists : Type;
  logprobs_tensors : Type;
  hash_fn : hash_input -> Z;
  NONE_HASH : Z;
  set_order : gset nat -> list nat;
  logprobs_slice : logprobs_lists -> nat -> nat -> logprobs_lists;
  grammar_bitmask : gmap string Request -> gmap string nat -> nat -> option bitmask;
  get_num_new_matched_tokens : connector_state -> Request -> Z -> Z;
  update_state_after_alloc : connector_state -> Request -> Z -> connector_state;
}.

(** What the interface promises: Python visits every element of a set once; a
    connector reports how many tokens it can load. *)
Class EnvLaws (E : Env) : Prop := {
  set_order_perm : forall s, set_order s ≡ₚ elements s;
  matched_nonneg : forall c r n, (0 <= get_num_new_matched_tokens c r n)%Z;
}.

(** Every reference in use denotes an object; the instance only makes the lookup
    total. *)
#[export] Instance request_inhabited : Inhabited Request := populate
  {| request_id := EmptyString; sampling_params := {| sp_max_tokens := None; guided_decoding := false; ignore_eos := false;
       stop_token_ids := []; prompt_logprobs := None; sp_logprobs := None; sp_sampler := greedy_sampler |};
     eos_token_id := None; lora_request := None; structured_output_request := false; status := WAITING;
     events := []; stop_reason := None; max_tokens := 0; prompt_token_ids := []; num_prompt_tokens := 0;
     output_token_ids := []; all_token_ids := []; spec_token_ids := []; num_computed_tokens := 0;
     mm_positions := []; mm_inputs := 0; mm_hashes := [] |}.

(** The constants that [Scheduler.__init__] stores. *)
Record SchedulerConf := {
  max_num_running_reqs : nat;
  max_num_scheduled_tokens : Z;
  sched_max_model_len : Z;
  long_prefill_token_threshold : Z;
  no_chunked_mm_input : bool;
  max_loras : option nat;            (* [None]: no [lora_config] *)
  sched_log_stats : bool;
  include_finished_set : bool;
  spec_tokens : Z;
  num_lookahead_tokens : Z;
  encoder_input_budget : Z;
}.

Section Scheduler.
Context `{E : Env}.

Record Scheduler := {
  conf : SchedulerConf;
  connector : option connector_state;
  heap : gmap nat Request;
  requests : gmap string nat;
  waiting : list nat;
  running : list nat;
  finished_req_ids : gset string;
  cached_reqs_data : gmap string (list CachedRequestData);
  encoder_cache_manager : EncoderCacheManager;
  kv_cache_manager : KVCacheManager;
}.

Record SchedulerOutput := {
  scheduled_new_reqs : list NewRequestData;
  scheduled_cached_reqs : list CachedRequestData;
  num_scheduled_tokens : gmap string Z;
  total_num_scheduled_tokens : Z;
  scheduled_spec_decode_tokens : gmap string (list Z);
  scheduled_encoder_inputs : gmap string (list nat);
  num_common_prefix_blocks : nat;
  out_finished_req_ids : gset string;
  free_encoder_input_ids : list (string * nat);
  structured_output_request_ids : gmap string nat;
  out_grammar_bitmask : option bitmask;
}.

(** [build_connector_meta] returns the metadata and resets the connector. *)
Context (build_connector_meta : connector_state -> SchedulerOutput -> connector_state * connector_meta).

Definition set_connector v s := {| conf := conf s; connector := v; heap := heap s; requests := requests s;
  waiting := waiting s; running := running s; finished_req_ids := finished_req_ids s;
  cached_reqs_data := cached_reqs_data s; encoder_cache_manager := encoder_cache_manager s;
  kv_cache_manager := kv_cache_manager s |}.
Definition set_heap v s := {| conf := conf s; connector := connector s; heap := v; requests := requests s;
  waiting := waiting s; running := running s; finished_req_ids := finished_req_ids s;
  cached_reqs_data := cached_reqs_data s; encoder_cache_manager := encoder_cache_manager s;
  kv_cache_manager := kv_cache_manager s |}.
Definition set_requests v s := {| conf := conf s; connector := connector s; heap := heap s; requests := v;
  waiting := waiting s; running := running s; finished_req_ids := finished_req_ids s;
  cached_reqs_data := cached_reqs_data s; encoder_cache_manager := encoder_cache_manager s;
  kv_cache_manager := kv_cache_manager s |}.
Definition set_waiting v s := {| conf := conf s; connector := connector s; heap := heap s; requests := requests s;
  waiting := v; running := running s; finished_req_ids := finished_req_ids s;
  cached_reqs_data := cached_reqs_data s; encoder_cache_manager := encoder_cache_manager s;
  kv_cache_manager := kv_cache_manager s |}.
Definition set_running v s := {| conf := conf s; connector := connector s; heap := heap s; requests := requests s;
  waiting := waiting s; running := v; finished_req_ids := finished_req_ids s;
  cached_reqs_data := cached_reqs_data s; encoder_cache_manager := encoder_cache_manager s;
  kv_cache_manager := kv_cache_manager s |}.
Definition set_finished v s := {| conf := conf s; connector := connector s; heap := heap s; requests := requests s;
  waiting := waiting s; running := running s; finished_req_ids := v;
  cached_reqs_data := cached_reqs_data s; encoder_cache_manager := encoder_cache_manager s;
  kv_cache_manager := kv_cache_manager s |}.
Definition set_cached_data v s := {| conf := conf s; connector := connector s; heap := heap s; requests := requests s;
  waiting := waiting s; running := running s; finished_req_ids := finished_req_ids s;
  cached_reqs_data := v; encoder_cache_manager := encoder_cache_manager s;
  kv_cache_manager := kv_cache_manager s |}.
Definition set_enc v s := {| conf := conf s; connector := connector s; heap := heap s; requests := requests s;
  waiting := waiting s; running := running s; finished_req_ids := finished_req_ids s;
  cached_reqs_data := cached_reqs_data s; encoder_cache_manager := v;
  kv_cache_manager := kv_cache_manager s |}.
Definition set_kv v s := {| conf := conf s; connector := connector s; heap := heap s; requests := requests s;
  waiting := waiting s; running := running s; finished_req_ids := finished_req_ids s;
  cached_reqs_data := cached_reqs_data s; encoder_cache_manager := encoder_cache_manager s;
  kv_cache_manager := v |}.

(** The object a reference denotes, and an assignment through it. *)
Definition obj (s : Scheduler) (r : nat) : Request := heap s !!! r.
Definition update (r : nat) (f : Request -> Request) (s : Scheduler) : Scheduler :=
  set_heap (<[r := f (obj s r)]> (heap s)) s.

(** [Scheduler.__init__] after the managers' own arguments are read. *)
Definition scheduler_init {dtype} (conf : SchedulerConf) (connector : option connector_state)
    (num_gpu_blocks : option Z) (encoder_cache_size : Z) (kv_cache_config : KVCacheConfig (dtype := dtype))
    (enable_prefix_caching use_eagle : bool) : result Scheduler :=
  num_gpu_blocks ← of_option AssertionError num_gpu_blocks;
  _ ← py_assert (0 <? num_gpu_blocks)%Z;
  kv ← manager_init kv_cache_config (sched_max_model_len conf) enable_prefix_caching use_eagle (sched_log_stats conf);
  Ok {| conf := conf; connector := connector; heap := ∅; requests := ∅; waiting := []; running := [];
      finished_req_ids := ∅; cached_reqs_data := ∅;
      encoder_cache_manager := encoder_init encoder_cache_size; kv_cache_manager := kv |}.

(** ** Encoder inputs *)

Fixpoint encoder_loop (s : Scheduler) (req : Request) (num_computed_tokens : Z) (ps : list PlaceholderRange)
    (i : nat) (num_new_tokens encoder_budget : Z) (acc : list nat) : result (list nat * Z * Z) :=
  match ps with
  | [] => Ok (acc, num_new_tokens, encoder_budget)
  | p :: ps =>
    let start_pos := offset p in
    let num_encoder_tokens := length_ p in
    if (num_computed_tokens + num_new_tokens <=? start_pos)%Z then Ok (acc, num_new_tokens, encoder_budget)
    else if (start_pos + num_encoder_tokens <=? num_computed_tokens)%Z
    then encoder_loop s req num_computed_tokens ps (i + 1) num_new_tokens encoder_budget acc
    else if has_cache (encoder_cache_manager s) req i
    then encoder_loop s req num_computed_tokens ps (i + 1) num_new_tokens encoder_budget acc
    else if no_chunked_mm_input (conf s) && (num_computed_tokens <? start_pos)%Z
              && (num_computed_tokens + num_new_tokens <? start_pos + num_encoder_tokens)%Z
    then Ok (acc, (start_pos - num_computed_tokens)%Z, encoder_budget)
    else
      can ← can_allocate (encoder_cache_manager s) req i;
      if negb can || (encoder_budget <? num_encoder_tokens)%Z
      then Ok (acc, (if (num_computed_tokens <? start_pos)%Z then start_pos - num_computed_tokens else 0)%Z,
               encoder_budget)
      else encoder_loop s req num_computed_tokens ps (i + 1) num_new_tokens
             (encoder_budget - num_encoder_tokens) (acc ++ [i])
  end.

Definition try_schedule_encoder_inputs (s : Scheduler) (req : Request)
    (num_computed_tokens num_new_tokens encoder_budget : Z) : result (list nat * Z * Z) :=
  if (num_new_tokens =? 0)%Z || negb (has_encoder_inputs req) then Ok ([], num_new_tokens, encoder_budget)
  else
  _ ← py_assert (0 <? length (mm_positions req));
  encoder_loop s req num_computed_tokens (mm_positions req) 0 num_new_tokens encoder_budget [].

(** [for i in encoder_inputs_to_schedule: self.encoder_cache_manager.allocate(request, i)] *)
Definition allocate_inputs (s : Scheduler) (r : nat) (inputs : list nat) : result Scheduler :=
  e ← foldM (fun e i => EncoderCache.allocate e (obj s r) i) (encoder_cache_manager s) inputs;
  Ok (set_enc e s).

(** ** The local variables of [schedule] *)

Record vars := {
  v_new : list nat;
  v_resumed : list nat;
  v_running : list nat;
  v_preempted : list nat;
  v_structured : gmap string nat;
  v_new_blocks : gmap string (list nat);
  v_scheduled : gmap string Z;
  v_budget : Z;
  v_encoder_inputs : gmap string (list nat);
  v_encoder_budget : Z;
  v_spec : gmap string (list Z);
  v_index : nat;
}.

Definition vars_init (c : SchedulerConf) : vars :=
  {| v_new := []; v_resumed := []; v_running := []; v_preempted := []; v_structured := ∅; v_new_blocks := ∅;
   v_scheduled := ∅; v_budget := max_num_scheduled_tokens c; v_encoder_inputs := ∅;
   v_encoder_budget := encoder_input_budget c; v_spec := ∅; v_index := 0 |}.

Definition skip_index (v : vars) : vars :=
  {| v_new := v_new v; v_resumed := v_resumed v; v_running := v_running v; v_preempted := v_preempted v;
   v_structured := v_structured v; v_new_blocks := v_new_blocks v; v_scheduled := v_scheduled v;
   v_budget := v_budget v; v_encoder_inputs := v_encoder_inputs v; v_encoder_budget := v_encoder_budget v;
   v_spec := v_spec v; v_index := v_index v + 1 |}.

Definition add_preempted (p : nat) (v : vars) : vars :=
  {| v_new := v_new v; v_resumed := v_resumed v; v_running := v_running v; v_preempted := v_preempted v ++ [p];
   v_structured := v_structured v; v_new_blocks := v_new_blocks v; v_scheduled := v_scheduled v;
   v_budget := v_budget v; v_encoder_inputs := v_encoder_inputs v; v_encoder_budget := v_encoder_budget v;
   v_spec := v_spec v; v_index := v_index v |}.

(** The cap of the configuration on a long prefill. *)
Definition cap_prefill (c : SchedulerConf) (num_new_tokens : Z) : Z :=
  if (0 <? long_prefill_token_threshold c)%Z && (long_prefill_token_threshold c <? num_new_tokens)%Z
  then long_prefill_token_threshold c else num_new_tokens.

(** ** Running requests *)

(** Preempting the last running request. *)
Definition preempt (now : Z) (s : Scheduler) (p : nat) (rest : list nat) : result Scheduler :=
  kv ← KVCacheManager.free (kv_cache_manager s) (obj s p);
  let s := update p (fun q =>
  let q := set_num_computed_tokens 0 (set_status PREEMPTED q) in
  if sched_log_stats (conf s) then record_event PREEMPTED_EVENT now q else q)
  (set_kv kv (set_running rest s)) in
  Ok (set_waiting (p :: waiting s) s).

(** The [while True] loop; [rev_running] is the running list from its end. *)
Fixpoint preempt_loop (now : Z) (s : Scheduler) (v : vars) (r : nat) (num_new_tokens : Z)
    (rev_running : list nat) : result (Scheduler * vars * option (list nat)) :=
  '(kv, new_blocks) ←
  allocate_slots hash_fn NONE_HASH (kv_cache_manager s) (obj s r) num_new_tokens [] (num_lookahead_tokens (conf s));
  let s := set_kv kv s in
  match new_blocks with
  | Some b => Ok (s, v, Some b)
  | None =>
    match rev_running with
    | [] => Err IndexError
    | p :: rest =>
        s ← preempt now s p (reverse rest);
        let v := add_preempted p v in
        if p =? r then Ok (s, v, None) else preempt_loop now s v r num_new_tokens rest
    end
  end.

(** The spec tokens that fit: the list is trimmed in place and shared. *)
Definition trim_spec (req : Request) (num_new_tokens : Z) : option (list Z) :=
  let n := (num_new_tokens + num_computed_tokens req - num_tokens req)%Z in
  match spec_token_ids req with
  | [] => None
  | l => if (0 <? n)%Z then Some (take (Z.to_nat n) l) else None
  end.

Definition put_if {A} (id : string) (o : option A) (m : gmap string A) : gmap string A :=
  match o with Some x => <[id := x]> m | None => m end.

Definition some_list {A} (l : list A) : option (list A) := match l with [] => None | _ => Some l end.

(** The assignments that schedule a running request. *)
Definition take_running (r : nat) (req : Request) (n : Z) (blocks inputs : list nat) (new_encoder_budget : Z)
    (v : vars) : vars :=
  let id := request_id req in
  {| v_new := v_new v; v_resumed := v_resumed v; v_running := v_running v ++ [r]; v_preempted := v_preempted v;
   v_structured := if use_structured_output req then <[id := v_index v]> (v_structured v) else v_structured v;
   v_new_blocks := <[id := blocks]> (v_new_blocks v);
   v_scheduled := <[id := n]> (v_scheduled v); v_budget := v_budget v - n;
   v_encoder_inputs := put_if id (some_list inputs) (v_encoder_inputs v);
   v_encoder_budget := match inputs with [] => v_encoder_budget v | _ => new_encoder_budget end;
   v_spec := put_if id (trim_spec req n) (v_spec v); v_index := v_index v + 1 |}.

Inductive flow := Continue | Break.

(** One round of the loop over the running requests. *)
Definition running_one (now : Z) (s : Scheduler) (v : vars) (r : nat) : result (Scheduler * vars * flow) :=
  let req := obj s r in
  let num_new_tokens := cap_prefill (conf s) (num_tokens_with_spec req - num_computed_tokens req) in
  let num_new_tokens := Z.min num_new_tokens (v_budget v) in
  let num_new_tokens := Z.min num_new_tokens (sched_max_model_len (conf s) - num_computed_tokens req) in
  '(inputs, num_new_tokens, new_encoder_budget) ←
  (if has_encoder_inputs req
   then try_schedule_encoder_inputs s req (num_computed_tokens req) num_new_tokens (v_encoder_budget v)
   else Ok ([], num_new_tokens, v_encoder_budget v));
  if (num_new_tokens =? 0)%Z then Ok (s, skip_index v, Continue)
  else
  '(s, v, new_blocks) ← preempt_loop now s v r num_new_tokens (reverse (running s));
  match new_blocks with
  | None => Ok (s, v, Break)
  | Some blocks =>
      let req := obj s r in
      let v := take_running r req num_new_tokens blocks inputs new_encoder_budget v in
      let s := match trim_spec req num_new_tokens with
               | Some l => update r (set_spec_token_ids l) s
               | None => s
               end in
      s ← allocate_inputs s r inputs;
      Ok (s, v, Continue)
  end.

(** [None] when the fuel runs out. *)
Fixpoint running_loop (now : Z) (fuel : nat) (s : Scheduler) (v : vars) : option (result (Scheduler * vars)) :=
  match running s !! v_index v with
  | Some r =>
    if (0 <? v_budget v)%Z then
      match fuel with
      | 0 => None
      | S fuel =>
          match running_one now s v r with
          | Ok (s, v, Continue) => running_loop now fuel s v
          | Ok (s, v, Break) => Some (Ok (s, v))
          | Err e => Some (Err e)
          end
      end
    else Some (Ok (s, v))
  | None => Some (Ok (s, v))
  end.

(** ** Waiting requests *)

(** The LoRA ids of the requests scheduled so far. *)
Definition running_loras (s : Scheduler) (v : vars) : result (gset Z) :=
  match max_loras (conf s) with
  | None => Ok ∅
  | Some m =>
    let ids := list_to_set (filter (fun i => (0 < i)%Z) (omap (fun r => lora_request (obj s r)) (v_running v))) in
    _ ← py_assert (size ids <=? m);
    Ok ids
  end.

(** [self.lora_config and request.lora_request and ...]: the request would add
  a LoRA adapter beyond the limit. *)
Definition lora_blocked (s : Scheduler) (req : Request) (loras : gset Z) : bool :=
  match max_loras (conf s), lora_request req with
  | Some m, Some i => (size loras =? m) && bool_decide (i ∉ loras)
  | _, _ => false
  end.

(** The assignments that admit a waiting request. *)
Definition take_waiting (r : nat) (req : Request) (n : Z) (blocks inputs : list nat) (new_encoder_budget : Z)
    (v : vars) : result vars :=
  let id := request_id req in
  '(new, resumed) ←
  (match status req with
   | WAITING => Ok (v_new v ++ [r], v_resumed v)
   | PREEMPTED => Ok (v_new v, v_resumed v ++ [r])
   | _ => Err RuntimeError
   end);
  Ok {| v_new := new; v_resumed := resumed; v_running := v_running v; v_preempted := v_preempted v;
      v_structured := if use_structured_output req then <[id := v_index v]> (v_structured v) else v_structured v;
      v_new_blocks := <[id := blocks]> (v_new_blocks v);
      v_scheduled := <[id := n]> (v_scheduled v); v_budget := v_budget v - n;
      v_encoder_inputs := put_if id (some_list inputs) (v_encoder_inputs v);
      v_encoder_budget := match inputs with [] => v_encoder_budget v | _ => new_encoder_budget end;
      v_spec := v_spec v; v_index := v_index v + 1 |}.

(** The tokens of a waiting request: those computed already, here or at the
  connector, and those to schedule. *)
Definition external_tokens (s : Scheduler) (req : Request) (num_computed_tokens : Z) : Z :=
  match connector s with None => 0%Z | Some c => get_num_new_matched_tokens c req num_computed_tokens end.

(** The admitted request moves from the head of the waiting queue to the running
    list; its status and its counter change. *)
Definition to_running (now : Z) (s : Scheduler) (r : nat) (rest : list nat)
    (num_external_tokens num_computed : Z) : Scheduler :=
  let s := set_connector ((fun c => update_state_after_alloc c (obj s r) num_external_tokens) <$> connector s) s in
  let s := set_running (running s ++ [r]) (set_waiting rest s) in
  let s := if sched_log_stats (conf s) then update r (record_event SCHEDULED now) s else s in
  update r (fun q => set_num_computed_tokens num_computed (set_status RUNNING q)) s.

(** From [get_computed_blocks] to the end of one round; [None] is the [break]. *)
Definition waiting_one (now : Z) (s : Scheduler) (v : vars) (loras : gset Z) (r : nat) (rest : list nat) :
    result (Scheduler * option (vars * gset Z)) :=
  let req := obj s r in
  '(kv, (computed_blocks, num_computed)) ← get_computed_blocks hash_fn NONE_HASH (kv_cache_manager s) req;
  let s := set_kv kv s in
  let num_external_tokens := external_tokens s req num_computed in
  let num_computed := (num_computed + num_external_tokens)%Z in
  let num_new_tokens := Z.min (cap_prefill (conf s) (num_tokens req - num_computed)) (v_budget v) in
  _ ← py_assert (0 <? num_new_tokens)%Z;
  '(inputs, num_new_tokens, new_encoder_budget) ←
  (if has_encoder_inputs req
   then try_schedule_encoder_inputs s req num_computed num_new_tokens (v_encoder_budget v)
   else Ok ([], num_new_tokens, v_encoder_budget v));
  if has_encoder_inputs req && (num_new_tokens =? 0)%Z then Ok (s, None)
  else
  '(kv, new_blocks) ←
    allocate_slots hash_fn NONE_HASH (kv_cache_manager s) req (num_new_tokens + num_external_tokens)
      computed_blocks (num_lookahead_tokens (conf s));
  let s := set_kv kv s in
  match new_blocks with
  | None => Ok (s, None)
  | Some new_blocks =>
      v ← take_waiting r req num_new_tokens (computed_blocks ++ new_blocks) inputs new_encoder_budget v;
      let loras := match max_loras (conf s), lora_request req with
                   | Some _, Some i => loras ∪ {[i]}
                   | _, _ => loras
                   end in
      s ← allocate_inputs (to_running now s r rest num_external_tokens num_computed) r inputs;
      Ok (s, Some (v, loras))
  end.

(** [skipped] is the deque of skipped requests, its head first. *)
Fixpoint waiting_loop (now : Z) (grammar_ready : Request -> bool) (s : Scheduler) (v : vars) (loras : gset Z)
    (queue skipped : list nat) : result (Scheduler * vars * list nat) :=
  match queue with
  | [] => Ok (s, v, skipped)
  | r :: rest =>
    if negb (0 <? v_budget v)%Z || (length (running s) =? max_num_running_reqs (conf s)) then Ok (s, v, skipped)
    else
      let req := obj s r in
      let fsm := bool_decide (status req = WAITING_FOR_FSM) in
      if fsm && negb (structured_output_request req && grammar_ready req)
      then waiting_loop now grammar_ready (set_waiting rest s) v loras rest (r :: skipped)
      else
        let s := if fsm then update r (set_status WAITING) s else s in
        if lora_blocked s (obj s r) loras
        then waiting_loop now grammar_ready (set_waiting rest s) v loras rest (r :: skipped)
        else
          '(s, next) ← waiting_one now s v loras r rest;
          match next with
          | None => Ok (s, v, skipped)
          | Some (v, loras) => waiting_loop now grammar_ready s v loras rest skipped
          end
  end.

Definition schedule_waiting (now : Z) (grammar_ready : Request -> bool) (s : Scheduler) (v : vars) :
    result (Scheduler * vars) :=
  loras ← running_loras s v;
  '(s, v, skipped) ←
  (match v_preempted v with
   | [] => waiting_loop now grammar_ready s v loras (waiting s) []
   | _ => Ok (s, v, [])
   end);
  (* [extendleft] pushes the elements one by one *)
  Ok (set_waiting (reverse skipped ++ waiting s) s, v).

(** ** The output of a step *)

Definition scheduled_total (v : vars) : Z := map_fold (fun _ n acc => (n + acc)%Z) 0%Z (v_scheduled v).

(** The four assertions. *)
Definition check_constraints (s : Scheduler) (v : vars) : result unit :=
  _ ← py_assert (scheduled_total v <=? max_num_scheduled_tokens (conf s))%Z;
  _ ← py_assert (0 <=? v_budget v)%Z;
  _ ← py_assert (length (running s) <=? max_num_running_reqs (conf s));
  py_assert (length (v_new v) + length (v_resumed v) + length (v_running v) <=? length (running s)).

Definition make_cached_request_data (s : Scheduler) (req : Request) (num_scheduled num_scheduled_spec : Z)
    (blocks : list nat) (resumed : bool) : Scheduler * CachedRequestData :=
  let num_computed := num_computed_tokens req in
  let num_regular_tokens := (num_scheduled - num_scheduled_spec)%Z in
  let toks := py_slice num_computed (num_computed + num_regular_tokens) (all_token_ids req) in
  match cached_reqs_data s !! request_id req with
  | Some (d :: ds) =>
    (set_cached_data (<[request_id req := ds]> (cached_reqs_data s)) s,
     {| cr_req_id := cr_req_id d; resumed_from_preemption := resumed; new_token_ids := toks;
        new_block_ids := blocks; cr_num_computed_tokens := num_computed |})
  | _ => (s, cached_request_data req resumed toks blocks)
  end.

(** The two list comprehensions over resumed and running requests. *)
Definition cached_data_list (s : Scheduler) (v : vars) (resumed : bool) (rs : list nat) :
    result (Scheduler * list CachedRequestData) :=
  foldM (fun '(s, ds) r =>
  let req := obj s r in
  let id := request_id req in
  n ← of_option KeyError (v_scheduled v !! id);
  blocks ← of_option KeyError (v_new_blocks v !! id);
  let '(s, d) := make_cached_request_data s req n (Z.of_nat (length (default [] (v_spec v !! id)))) blocks resumed in
  Ok (s, ds ++ [d])) (s, []) rs.

Definition new_data_list (s : Scheduler) (v : vars) : result (list NewRequestData) :=
  mapM_ok (fun r => blocks ← of_option KeyError (v_new_blocks v !! request_id (obj s r));
                  Ok (new_request_data (obj s r) blocks)) (v_new v).

(** [self.requests[req_id].num_computed_tokens += num_scheduled_token] *)
Definition advance (s : Scheduler) (scheduled : list (string * Z)) : result Scheduler :=
  foldM (fun s '(id, n) =>
  r ← of_option KeyError (requests s !! id);
  Ok (update r (fun q => set_num_computed_tokens (num_computed_tokens q + n) q) s)) s scheduled.

Definition common_blocks (s : Scheduler) : result (Scheduler * nat) :=
  match running s with
  | [] => Ok (s, 0)
  | r :: _ =>
    '(kv, n) ← get_num_common_prefix_blocks (kv_cache_manager s) (obj s r) (Z.of_nat (length (running s)));
    Ok (set_kv kv s, n)
  end.

(** From the assertions to the [return]. *)
Definition finish_schedule (s : Scheduler) (v : vars) :
    result (Scheduler * (SchedulerOutput * option connector_meta)) :=
  _ ← check_constraints s v;
  '(s, num_common) ← common_blocks s;
  let bitmask := grammar_bitmask (obj s <$> requests s) (v_structured v) (length (running s)) in
  new_reqs ← new_data_list s v;
  '(s, resumed) ← cached_data_list s v true (v_resumed v);
  '(s, cached) ← cached_data_list s v false (v_running v);
  let '(enc, freed) := get_freed_ids (encoder_cache_manager s) in
  let out := {| scheduled_new_reqs := new_reqs; scheduled_cached_reqs := resumed ++ cached;
              num_scheduled_tokens := v_scheduled v; total_num_scheduled_tokens := scheduled_total v;
              scheduled_spec_decode_tokens := v_spec v; scheduled_encoder_inputs := v_encoder_inputs v;
              num_common_prefix_blocks := num_common; out_finished_req_ids := finished_req_ids s;
              free_encoder_input_ids := freed; structured_output_request_ids := v_structured v;
              out_grammar_bitmask := bitmask |} in
  let built := (fun c => build_connector_meta c out) <$> connector s in
  let s := set_connector (fst <$> built) (set_enc enc s) in
  s ← advance s (map_to_list (v_scheduled v));
  Ok (set_finished ∅ s, (out, snd <$> built)).

Definition schedule (now : Z) (grammar_ready : Request -> bool) (s : Scheduler) :
    option (result (Scheduler * (SchedulerOutput * option connector_meta))) :=
  match running_loop now (length (running s)) s (vars_init (conf s)) with
  | Some (Ok (s, v)) => Some ('(s, v) ← schedule_waiting now grammar_ready s v; finish_schedule s v)
  | Some (Err e) => Some (Err e)
  | None => None
  end.

(** ** Requests come and go *)

Definition free_request (s : Scheduler) (r : nat) : result Scheduler :=
  let req := obj s r in
  let id := request_id req in
  _ ← py_assert (is_finished req);
  kv ← KVCacheManager.free (kv_cache_manager s) req;
  let kv := free_block_hashes kv req in
  enc ← EncoderCache.free set_order (encoder_cache_manager s) req;
  _ ← of_option KeyError (requests s !! id);
  Ok (set_finished (finished_req_ids s ∪ {[id]})
     (set_requests (delete id (requests s))
       (set_cached_data (delete id (cached_reqs_data s)) (set_enc enc (set_kv kv s))))).

(** The caller's object enters the heap at the fresh reference [r]. *)
Definition add_request (now : Z) (s : Scheduler) (r : nat) (req : Request) : Scheduler :=
  let s := set_heap (<[r := req]> (heap s)) s in
  let s := set_requests (<[request_id req := r]> (requests s)) (set_waiting (waiting s ++ [r]) s) in
  if sched_log_stats (conf s) then update r (record_event QUEUED now) s else s.

(** [list.remove]: the first equal element; requests are equal when identical. *)
Fixpoint list_remove_first (r : nat) (l : list nat) : result (list nat) :=
  match l with
  | [] => Err ValueError
  | x :: l => if x =? r then Ok l else l' ← list_remove_first r l; Ok (x :: l')
  end.

Definition finish_one (finished_status : RequestStatus) (s : Scheduler) (id : string) : result Scheduler :=
  match requests s !! id with
  | None => Ok s
  | Some r =>
    s ← (if bool_decide (status (obj s r) = RUNNING)
         then l ← list_remove_first r (running s); Ok (set_running l s)
         else l ← list_remove_first r (waiting s); Ok (set_waiting l s));
    free_request (update r (set_status finished_status) s) r
  end.

(** [ids] is a string as a one-element list, or the set of ids in the order the
  loop visits it. *)
Definition finish_requests (s : Scheduler) (ids : list string) (finished_status : RequestStatus) : result Scheduler :=
  _ ← py_assert (status_is_finished finished_status);
  foldM (finish_one finished_status) s ids.

Definition get_num_unfinished_requests (s : Scheduler) : nat := length (waiting s) + length (running s).
Definition has_finished_requests (s : Scheduler) : bool := 0 <? size (finished_req_ids s).

Definition sched_reset_prefix_cache (s : Scheduler) : result (Scheduler * bool) :=
  '(kv, ok) ← manager_reset_prefix_cache (kv_cache_manager s);
  Ok (set_kv kv s, ok).

Definition make_stats (s : Scheduler) (spec : option SpecDecodingStats) : result (Scheduler * option SchedulerStats) :=
  if negb (sched_log_stats (conf s)) then Ok (s, None)
  else
  let '(kv, stats) := make_prefix_cache_stats (kv_cache_manager s) in
  stats ← of_option AssertionError stats;
  Ok (set_kv kv s,
      Some {| num_running_reqs := length (running s); num_waiting_reqs := length (waiting s);
              gpu_cache_usage := usage kv; stats_prefix_cache := stats; spec_decoding_stats := spec |}).

Definition make_spec_decoding_stats (s : Scheduler) (stats : option SpecDecodingStats) (draft accepted : Z) :
    result (option SpecDecodingStats) :=
  if negb (sched_log_stats (conf s)) then Ok None
  else st ← observe_draft (default (spec_stats_new (spec_tokens (conf s))) stats) draft accepted; Ok (Some st).

(** ** The model runner's output *)

Record ModelRunnerOutput := {
  req_id_to_index : gmap string nat;
  sampled_token_ids : list (list Z);
  out_spec_token_ids : option (list (list Z));
  out_logprobs : option logprobs_lists;
  prompt_logprobs_dict : gmap string (option logprobs_tensors);
}.

Record EngineCoreOutput := {
  o_request_id : string;
  o_new_token_ids : list Z;
  o_finish_reason : option FinishReason;
  o_new_logprobs : option logprobs_lists;
  o_prompt_logprobs : option logprobs_tensors;
  o_stop_reason : option Z;
  o_events : option (list (EngineCoreEventType * Z));
}.

Record EngineCoreOutputs := {
  outputs : list EngineCoreOutput;
  scheduler_stats : option SchedulerStats;
  finished_requests : option (gset string);
}.

(** Rejected draft tokens are taken back. *)
Definition rejected (drafts generated : list Z) : Z :=
  match drafts with
  | [] => 0%Z
  | _ => (Z.of_nat (length drafts) + 1 - Z.of_nat (length generated))%Z
  end.

(** The encoder inputs that the decoder has consumed are freed. *)
Definition free_consumed_inputs (e : EncoderCacheManager) (req : Request) : result EncoderCacheManager :=
  foldM (fun e i =>
  p ← of_option IndexError (mm_positions req !! i);
  if (offset p + length_ p <=? num_computed_tokens req)%Z then free_encoder_input e req i else Ok e)
  e (set_order (get_cached_input_ids e req)).

(** The next draft tokens, if the runner sends any. *)
Definition assign_spec (o : option (list (list Z))) (i : nat) (req : Request) : result Request :=
  match o with
  | None => Ok req
  | Some l => spec ← of_option IndexError (l !! i); Ok (set_spec_token_ids spec req)
  end.

Definition take_drafts (s : Scheduler) (stats : option SpecDecodingStats) (drafts generated : list Z) :
    result (option SpecDecodingStats) :=
  match drafts with
  | [] => Ok stats
  | _ => make_spec_decoding_stats s stats (Z.of_nat (length drafts)) (Z.of_nat (length generated) - 1)
  end.

(** One round of the loop over the running requests; [true]: it stays. *)
Definition update_one (out : SchedulerOutput) (mro : ModelRunnerOutput) (s : Scheduler)
    (stats : option SpecDecodingStats) (r : nat) :
    result (Scheduler * option SpecDecodingStats * option EngineCoreOutput * bool) :=
  let id := request_id (obj s r) in
  if (default 0 (num_scheduled_tokens out !! id) =? 0)%Z then Ok (s, stats, None, true)
  else
  req_index ← of_option KeyError (req_id_to_index mro !! id);
  generated ← of_option IndexError (sampled_token_ids mro !! req_index);
  let drafts := default [] (scheduled_spec_decode_tokens out !! id) in
  let s := update r (fun q => set_num_computed_tokens (num_computed_tokens q - rejected drafts generated) q) s in
  stats ← take_drafts s stats drafts generated;
  enc ← free_consumed_inputs (encoder_cache_manager s) (obj s r);
  let s := set_enc enc s in
  req ← assign_spec (out_spec_token_ids mro) req_index (obj s r);
  '(req, kept, stopped) ← append_until_stop req (sched_max_model_len (conf s)) generated;
  let s := update r (fun _ => req) s in
  s ← (if stopped : bool then free_request s r else Ok s);
  let new_logprobs :=
    match sp_logprobs (sampling_params req) with
    | Some _ => (fun l => logprobs_slice l req_index (req_index + 1)) <$> out_logprobs mro
    | None => None
    end in
  let prompt_logprobs := default None (prompt_logprobs_dict mro !! id) in
  match kept with
  | [] =>
      _ ← py_assert (match prompt_logprobs with None => true | Some _ => false end);
      Ok (s, stats, None, negb stopped)
  | _ =>
      let '(req', events) := take_events req in
      let s := update r (fun _ => req') s in
      Ok (s, stats,
          Some {| o_request_id := id; o_new_token_ids := kept; o_finish_reason := get_finished_reason req;
                  o_new_logprobs := new_logprobs; o_prompt_logprobs := prompt_logprobs;
                  o_stop_reason := stop_reason req; o_events := events |},
          negb stopped)
  end.

Fixpoint update_loop (out : SchedulerOutput) (mro : ModelRunnerOutput) (s : Scheduler)
    (stats : option SpecDecodingStats) (rs new_running : list nat) (outs : list EngineCoreOutput) :
    result (Scheduler * option SpecDecodingStats * list nat * list EngineCoreOutput) :=
  match rs with
  | [] => Ok (s, stats, new_running, outs)
  | r :: rs =>
    '(s, stats, o, stays) ← update_one out mro s stats r;
    update_loop out mro s stats rs (if stays : bool then new_running ++ [r] else new_running) (outs ++ option_list o)
  end.

(** The cached request data goes back to its queue, except for finished requests. *)
Definition return_cached_data (s : Scheduler) (ds : list CachedRequestData) : Scheduler :=
  foldl (fun s d =>
  if bool_decide (cr_req_id d ∈ finished_req_ids s) then s
  else set_cached_data (<[cr_req_id d := default [] (cached_reqs_data s !! cr_req_id d) ++ [d]]> (cached_reqs_data s)) s)
  s ds.

Definition update_from_output (s : Scheduler) (out : SchedulerOutput) (mro : ModelRunnerOutput) :
    result (Scheduler * EngineCoreOutputs) :=
  '(s, stats, new_running, outs) ← update_loop out mro s None (running s) [] [];
  let s := set_running new_running (return_cached_data s (scheduled_cached_reqs out)) in
  '(s, sstats) ← make_stats s stats;
  Ok (s, {| outputs := outs; scheduler_stats := sstats;
          finished_requests := if include_finished_set (conf s)
                               then Some (out_finished_req_ids out ∪ finished_req_ids s) else None |}).

End Scheduler.
