(* ===== verification/SchedulerSpec.v ===== *)
(** * What the scheduler guarantees

    Invariants and theorems of the model of [Scheduler.v]. *)

From S2P Require Import Prelude PrefixMetrics FreeBlockQueue Request BlockHash BlockPool.
From S2P Require Import SpecializedManager KVCacheConfig KVCacheManager EncoderCache Scheduler.

(** ** Objects *)

(** What [schedule] never changes in a request. *)
Record same_static (q q' : Request) : Prop := {
  ss_id : request_id q' = request_id q;
  ss_params : sampling_params q' = sampling_params q;
  ss_lora : lora_request q' = lora_request q;
  ss_output : output_token_ids q' = output_token_ids q;
  ss_prompt : prompt_token_ids q' = prompt_token_ids q;
  ss_all : all_token_ids q' = all_token_ids q;
  ss_max : max_tokens q' = max_tokens q;
  ss_positions : mm_positions q' = mm_positions q;
  ss_inputs : mm_inputs q' = mm_inputs q;
  ss_hashes : mm_hashes q' = mm_hashes q;
}.

#[export] Instance same_static_preorder : PreOrder same_static.
Proof. split; [by split|]. intros q1 q2 q3 [] []. split; congruence. Qed.

Lemma static_num_tokens q q' : same_static q q' -> num_tokens q' = num_tokens q.
Proof. intros H. unfold num_tokens. by rewrite (ss_all _ _ H). Qed.

(** Tokens computed and tokens known: what the scheduler keeps of a request. *)
Definition in_range (c : SchedulerConf) (q : Request) : Prop :=
  (0 <= num_computed_tokens q <= num_tokens_with_spec q)%Z /\
  (num_computed_tokens q <= sched_max_model_len c)%Z /\ (num_tokens q <= sched_max_model_len c)%Z.

Lemma list_filter_iff' {A} (P Q : A -> Prop) `{forall x, Decision (P x)} `{forall x, Decision (Q x)} (l : list A) :
  (forall x, x ∈ l -> P x <-> Q x) -> filter P l = filter Q l.
Proof.
  induction l as [|x l IH]; intros H'; [done|]. rewrite !filter_cons, IH by (intros y Hy; apply H'; by right).
  destruct (decide (P x)) as [Hp|Hp], (decide (Q x)) as [Hq|Hq]; try done.
  - destruct Hq. by apply H'; [left|].
  - destruct Hp. by apply H'; [left|].
Qed.

(** The queue without the requests [adm] that were taken out of it. *)
Definition without (adm queue : list nat) : list nat := filter (fun r => r ∉ adm) queue.

Lemma without_nil queue : without [] queue = queue.
Proof. apply list_filter_all. set_solver. Qed.

Lemma without_keep r adm rest : r ∉ rest -> adm `sublist_of` rest -> without adm (r :: rest) = r :: without adm rest.
Proof.
  intros Hr Hs. unfold without. apply filter_cons_True. intros Hin. apply Hr.
  by apply (elem_of_submseteq adm rest); [|apply sublist_submseteq].
Qed.

Lemma without_take r adm rest : r ∉ rest -> without (r :: adm) (r :: rest) = without adm rest.
Proof.
  intros Hr. unfold without. rewrite filter_cons_False by set_solver. apply list_filter_iff'.
  intros x Hx. split; [set_solver|]. intros Hn [->|?]%elem_of_cons; [done|set_solver].
Qed.

Section Objects.
Context `{E : Env}.

Lemma obj_update s r f r' : obj (update r f s) r' = if decide (r' = r) then f (obj s r) else obj s r'.
Proof.
  unfold obj, update. cbn. destruct (decide (r' = r)) as [->|Hne].
  - apply lookup_total_insert_eq.
  - by apply lookup_total_insert_ne.
Qed.

Lemma obj_update_eq s r f : obj (update r f s) r = f (obj s r).
Proof. rewrite obj_update. by rewrite decide_True. Qed.

Lemma obj_update_ne s r f r' : r' <> r -> obj (update r f s) r' = obj s r'.
Proof. intros H. rewrite obj_update. by rewrite decide_False. Qed.

(** What a part of [schedule] before the output leaves alone. *)
Record frame (s s' : Scheduler) : Prop := {
  fr_conf : conf s' = conf s;
  fr_requests : requests s' = requests s;
  fr_finished : finished_req_ids s' = finished_req_ids s;
  fr_static : forall r, same_static (obj s r) (obj s' r);
}.

#[export] Instance frame_preorder : PreOrder frame.
Proof.
  split; [by split|]. intros s1 s2 s3 [] []. split; try congruence.
  intros r. etransitivity; eauto.
Qed.

Lemma frame_update s r f : (forall q, same_static q (f q)) -> frame s (update r f s).
Proof.
  intros H. split; try done. intros r'. rewrite obj_update. case_decide; [subst; apply H|done].
Qed.

Lemma allocate_inputs_frame s r inputs s' :
  allocate_inputs s r inputs = Ok s' -> exists e, s' = set_enc e s.
Proof. unfold allocate_inputs. intros H. invert_ok. eauto. Qed.

(** ** Live requests *)

Definition live (s : Scheduler) : list nat := waiting s ++ running s.

Record sched_ok (s : Scheduler) : Prop := {
  so_nodup : NoDup (live s);
  so_requests : forall id r, requests s !! id = Some r <-> r ∈ live s /\ request_id (obj s r) = id;
  so_running : forall r, r ∈ running s -> status (obj s r) = RUNNING;
  so_waiting : forall r, r ∈ waiting s -> status (obj s r) ∈ [WAITING; WAITING_FOR_FSM; PREEMPTED];
  so_limit : length (running s) <= max_num_running_reqs (conf s);
  so_range : forall r, r ∈ live s -> in_range (conf s) (obj s r);
}.

Lemma live_id_inj s r r' :
  sched_ok s -> r ∈ live s -> r' ∈ live s -> request_id (obj s r) = request_id (obj s r') -> r = r'.
Proof.
  intros H H1 H2 Heq. assert (requests s !! request_id (obj s r) = Some r) as E1 by by apply (so_requests _ H).
  assert (requests s !! request_id (obj s r') = Some r') as E2 by by apply (so_requests _ H). congruence.
Qed.

(** ** Encoder inputs *)

(** Does the part [computed, computed + n) of the request need the input at [p]? *)
Definition needs (computed n : Z) (p : PlaceholderRange) : Prop :=
  (0 < n /\ offset p < computed + n /\ computed < offset p + length_ p)%Z.

Definition tokens_of (req : Request) (inputs : list nat) : Z :=
  zsum ((fun i => default 0%Z (length_ <$> mm_positions req !! i)) <$> inputs).

(** The inputs chosen from position [from] on, the tokens and the budget left. *)
Record encoder_result (s : Scheduler) (req : Request) (computed : Z) (from : nat) (n budget : Z)
    (inputs : list nat) (n' budget' : Z) : Prop := {
  er_tokens : (0 <= n' <= n)%Z;
  er_used : (budget' = budget - tokens_of req inputs)%Z;
  er_budget : (0 <= budget -> 0 <= budget')%Z;
  er_sorted : StronglySorted lt inputs;
  er_inputs : forall j, j ∈ inputs -> from <= j /\ has_cache (encoder_cache_manager s) req j = false /\
    can_allocate (encoder_cache_manager s) req j = Ok true /\ exists p, mm_positions req !! j = Some p /\ needs computed n p;
  er_complete : StronglySorted (fun p p' => offset p <= offset p')%Z (mm_positions req) ->
    forall j p, from <= j -> mm_positions req !! j = Some p -> needs computed n' p ->
      has_cache (encoder_cache_manager s) req j = true \/ j ∈ inputs;
}.

Lemma encoder_stop s req computed i p n budget n' :
  mm_positions req !! i = Some p -> (0 <= n' <= n)%Z -> (n' = 0 \/ computed + n' <= offset p)%Z ->
  encoder_result s req computed i n budget [] n' budget.
Proof.
  intros Hp Hn Hz. split; [done|unfold tokens_of; cbn; lia|done|constructor|set_solver|].
  intros Hs j p' Hj Hp' (H1 & H2 & _). exfalso. destruct Hz as [->|Hz]; [lia|].
  assert (offset p <= offset p')%Z; [|lia].
  destruct (decide (i = j)) as [->|]; [naive_solver lia|].
  apply (StronglySorted_lookup (fun p p' => offset p <= offset p')%Z (mm_positions req) i j); [done|lia|done|done].
Qed.

Lemma encoder_skip s req computed i p n budget inputs n' budget' :
  mm_positions req !! i = Some p ->
  (offset p + length_ p <= computed)%Z \/ has_cache (encoder_cache_manager s) req i = true ->
  encoder_result s req computed (i + 1) n budget inputs n' budget' ->
  encoder_result s req computed i n budget inputs n' budget'.
Proof.
  intros Hp Hskip [H1 H2 H3 H4 H5 H6]. split; try done.
  - intros j Hj. destruct (H5 j Hj) as (? & ?). split; [lia|done].
  - intros Hs j p' Hj Hp' Hneed. destruct (decide (j = i)) as [->|]; [|apply (H6 Hs j p'); [lia|done|done]].
    destruct Hskip as [Hskip|Hskip]; [|by left]. rewrite Hp in Hp'. injection Hp' as <-. destruct Hneed. lia.
Qed.

Lemma encoder_take s req computed i p n budget inputs n' budget' :
  mm_positions req !! i = Some p -> needs computed n p ->
  has_cache (encoder_cache_manager s) req i = false -> can_allocate (encoder_cache_manager s) req i = Ok true ->
  (length_ p <= budget)%Z ->
  encoder_result s req computed (i + 1) n (budget - length_ p) inputs n' budget' ->
  encoder_result s req computed i n budget (i :: inputs) n' budget'.
Proof.
  intros Hp Hneed Hc Ha Hb [H1 H2 H3 H4 H5 H6]. split; [done| |lia| | |].
  - unfold tokens_of in *. rewrite fmap_cons, zsum_cons, Hp. cbn. lia.
  - constructor; [done|]. apply Forall_forall. intros j Hj. destruct (H5 j Hj). lia.
  - intros j [->|Hj]%elem_of_cons; [split; [done|by eauto]|]. destruct (H5 j Hj) as (? & ?). split; [lia|done].
  - intros Hs j p' Hj Hp' Hneed'. destruct (decide (j = i)) as [->|]; [right; by left|].
    destruct (H6 Hs j p') as [|]; [lia|done|done|by left|right; by right].
Qed.

Lemma encoder_loop_ok s req computed ps i n budget acc inputs n' budget' :
  drop i (mm_positions req) = ps -> (0 < n)%Z ->
  encoder_loop s req computed ps i n budget acc = Ok (inputs, n', budget') ->
  exists new, inputs = acc ++ new /\ encoder_result s req computed i n budget new n' budget'.
Proof.
  revert i n budget acc. induction ps as [|p ps IH]; intros i n budget acc Hps Hn; cbn [encoder_loop].
  { intros [= <- <- <-]. exists []. rewrite app_nil_r. split; [done|].
    split; [lia|unfold tokens_of; cbn; lia|done|constructor|set_solver|].
    intros _ j p Hj Hp _. exfalso. apply lookup_lt_Some in Hp. apply (f_equal length) in Hps.
    rewrite length_drop in Hps. cbn in Hps. lia. }
  assert (Hp : mm_positions req !! i = Some p).
  { rewrite <-(Nat.add_0_r i), <-lookup_drop, Hps. done. }
  assert (Hps' : drop (i + 1) (mm_positions req) = ps).
  { rewrite <-drop_drop, Hps. done. }
  assert (Hstop : forall m, (0 <= m <= n)%Z -> (m = 0 \/ computed + m <= offset p)%Z ->
    Ok (acc, m, budget) = Ok (inputs, n', budget') ->
    exists new, inputs = acc ++ new /\ encoder_result s req computed i n budget new n' budget').
  { intros m Hm Hz [= <- <- <-]. exists []. rewrite app_nil_r. split; [done|]. by apply (encoder_stop _ _ _ _ p). }
  assert (Hnext : (offset p + length_ p <= computed)%Z \/ has_cache (encoder_cache_manager s) req i = true ->
    encoder_loop s req computed ps (i + 1) n budget acc = Ok (inputs, n', budget') ->
    exists new, inputs = acc ++ new /\ encoder_result s req computed i n budget new n' budget').
  { intros Hskip H. destruct (IH (i + 1) n budget acc Hps' Hn H) as (new & -> & Hr). exists new. split; [done|].
    by apply (encoder_skip _ _ _ _ p). }
  destruct (Z.leb_spec (computed + n) (offset p)); [apply Hstop; lia|].
  destruct (Z.leb_spec (offset p + length_ p) computed); [by apply Hnext; left|].
  destruct (has_cache _ req i) eqn:Hcache; [by apply Hnext; right|]. clear Hnext.
  destruct (_ && _ && _) eqn:Hchunk.
  { apply andb_true_iff in Hchunk as [Hchunk _]. apply andb_true_iff in Hchunk as [_ Hchunk].
    apply Z.ltb_lt in Hchunk. apply Hstop; lia. }
  intros H'. apply bind_ok in H' as (can & Hcan & H'). destruct (negb can || _) eqn:Hno.
  { revert H'. destruct (Z.ltb_spec computed (offset p)); apply Hstop; lia. }
  apply orb_false_iff in Hno as [->%negb_false_iff Hbud]. apply Z.ltb_ge in Hbud.
  destruct (IH (i + 1) n (budget - length_ p)%Z (acc ++ [i]) Hps' Hn H') as (new & -> & Hr).
  exists (i :: new). split; [by rewrite <-app_assoc|]. apply (encoder_take _ _ _ _ p); done.
Qed.

Lemma try_encoder_ok s req computed n budget inputs n' budget' :
  (0 <= n)%Z -> has_encoder_inputs req = true ->
  try_schedule_encoder_inputs s req computed n budget = Ok (inputs, n', budget') ->
  encoder_result s req computed 0 n budget inputs n' budget'.
Proof.
  intros Hn Henc. unfold try_schedule_encoder_inputs. rewrite Henc, orb_false_r.
  destruct (Z.eqb_spec n 0) as [->|Hn0].
  - intros [= <- <- <-]. split; [lia|unfold tokens_of; cbn; lia|done|constructor|set_solver|].
    intros _ j p _ _ [H _]. lia.
  - intros H. apply bind_ok in H as (u & _ & H).
    apply encoder_loop_ok in H as (new & -> & Hr); [done|done|lia].
Qed.

(** What both loops do with a request that may have encoder inputs. *)
Definition choose_inputs (s : Scheduler) (req : Request) (computed n budget : Z) : result (list nat * Z * Z) :=
  if has_encoder_inputs req then try_schedule_encoder_inputs s req computed n budget else Ok ([], n, budget).

Lemma choose_inputs_ok s req computed n budget inputs n' budget' :
  (0 <= n)%Z -> choose_inputs s req computed n budget = Ok (inputs, n', budget') ->
  (0 <= n' <= n)%Z /\ (has_encoder_inputs req = false -> n' = n).
Proof.
  intros Hn. unfold choose_inputs. destruct (has_encoder_inputs req) eqn:Henc.
  - intros H. apply try_encoder_ok in H; [|done|done]. split; [apply H|done].
  - intros [= <- <- <-]. lia.
Qed.

(** ** The loops of [schedule] *)

Definition scheduled_of (v : vars) : list nat := v_new v ++ v_resumed v ++ v_running v.

Definition waiting_status (q : Request) : Prop := status q ∈ [WAITING; WAITING_FOR_FSM; PREEMPTED].

Definition advanced (n : Z) (q : Request) : Request := set_num_computed_tokens (num_computed_tokens q + n) q.

(** Counting the scheduled tokens, the request is computed up to its tokens and
    the drafts [d] that go to the workers; up to all of them if there are any. *)
Definition drafts_fit (d : list Z) (n : Z) (q : Request) : Prop :=
  (num_computed_tokens q + n <= num_tokens q + Z.of_nat (length d))%Z /\
  (d <> [] -> num_computed_tokens q + n = num_tokens q + Z.of_nat (length d))%Z.

(** What holds between the rounds of both loops; [s0] is the state at the start
    of the step. *)
Record loop_inv (s0 s : Scheduler) (v : vars) : Prop := {
  lv_frame : frame s0 s;
  lv_total : (scheduled_total v + v_budget v = max_num_scheduled_tokens (conf s0))%Z;
  lv_budget : (0 <= v_budget v)%Z;
  lv_nodup : NoDup (scheduled_of v);
  lv_sched : forall r, r ∈ scheduled_of v -> r ∈ running s;
  lv_dom : forall id, is_Some (v_scheduled v !! id) <-> exists r, r ∈ scheduled_of v /\ request_id (obj s0 r) = id;
  lv_blocks : forall id, is_Some (v_new_blocks v !! id) <-> is_Some (v_scheduled v !! id);
  lv_pos : forall id n, v_scheduled v !! id = Some n -> (1 <= n)%Z;
  lv_after : forall r n, r ∈ scheduled_of v -> v_scheduled v !! request_id (obj s0 r) = Some n ->
    in_range (conf s0) (advanced n (obj s r));
  lv_range : forall r, r ∈ live s0 -> in_range (conf s0) (obj s r);
  lv_running : forall r, r ∈ running s -> r ∈ live s0 /\ status (obj s r) = RUNNING;
  lv_waiting : forall r, r ∈ live s0 -> r ∉ running s -> waiting_status (obj s r);
  lv_kept : forall r, r ∈ running s0 -> r ∈ running s ->
    num_computed_tokens (obj s r) = num_computed_tokens (obj s0 r);
  lv_spec : forall r n, r ∈ scheduled_of v -> v_scheduled v !! request_id (obj s0 r) = Some n ->
    drafts_fit (default [] (v_spec v !! request_id (obj s0 r))) n (obj s r);
  lv_spec_dom : forall id, is_Some (v_spec v !! id) -> is_Some (v_scheduled v !! id);
}.

(** The queues while running requests are scheduled: [k] of them are left, the
    others stand, in their order, at the head of the waiting queue. *)
Record run_queues (s0 s : Scheduler) (v : vars) (k : nat) : Prop := {
  rq_k : v_index v <= k <= length (running s0);
  rq_running : running s = take k (running s0);
  rq_waiting : waiting s = drop k (running s0) ++ waiting s0;
  rq_preempted : v_preempted v = reverse (drop k (running s0));
  rq_sched : forall r, r ∈ v_running v -> r ∈ take (v_index v) (running s0);
  rq_new : v_new v = [] /\ v_resumed v = [];
}.

Lemma scheduled_total_insert v id n m :
  v_scheduled v !! id = None -> v_scheduled m = <[id := n]> (v_scheduled v) ->
  scheduled_total m = (n + scheduled_total v)%Z.
Proof.
  intros Hid Hm. unfold scheduled_total. rewrite Hm.
  rewrite map_fold_insert_L; [done| |done]. intros. lia.
Qed.

Lemma loop_inv_kv s0 s v kv : loop_inv s0 s v -> loop_inv s0 (set_kv kv s) v.
Proof. intros [[] ?]. by split. Qed.

Lemma in_range_static c q q' :
  same_static q q' -> spec_token_ids q' = spec_token_ids q -> num_computed_tokens q' = num_computed_tokens q ->
  in_range c q -> in_range c q'.
Proof.
  intros Hs Hspec Hc. unfold in_range, num_tokens_with_spec, num_tokens.
  by rewrite (ss_all _ _ Hs), Hspec, Hc.
Qed.

Lemma in_range_zero c q q' :
  same_static q q' -> spec_token_ids q' = spec_token_ids q -> num_computed_tokens q' = 0%Z ->
  in_range c q -> in_range c q'.
Proof.
  intros Hs Hspec Hc. unfold in_range, num_tokens_with_spec, num_tokens.
  rewrite (ss_all _ _ Hs), Hspec, Hc. lia.
Qed.

Lemma take_last {A} (l rest : list A) k p :
  reverse (take k l) = p :: rest -> k <= length l ->
  0 < k /\ l !! (k - 1) = Some p /\ reverse rest = take (k - 1) l /\ drop (k - 1) l = p :: drop k l.
Proof.
  intros H Hk. destruct k as [|k]; [done|]. destruct (lookup_lt_is_Some_2 l k ltac:(lia)) as [x Hx].
  rewrite (take_S_r _ _ _ Hx), reverse_app in H. cbn in H. injection H as -> <-.
  rewrite reverse_involutive. cbn. rewrite Nat.sub_0_r. split_and!; [lia|done|done|by apply drop_S].
Qed.

Lemma preempt_obj now s p rest s' :
  preempt now s p rest = Ok s' ->
  frame s s' /\ running s' = rest /\ waiting s' = p :: waiting s /\
  (forall r, r <> p -> obj s' r = obj s r) /\ status (obj s' p) = PREEMPTED /\
  num_computed_tokens (obj s' p) = 0%Z /\ spec_token_ids (obj s' p) = spec_token_ids (obj s p).
Proof.
  unfold preempt. intros H. apply bind_ok in H as (kv & _ & H). cbn zeta in H.
  set (F := fun q => _) in H. set (s1 := update p F _) in H. injection H as <-.
  assert (Hobj : forall r, obj (set_waiting (p :: waiting s1) s1) r = if decide (r = p) then F (obj s p) else obj s r)
    by (intros r; apply (obj_update (set_kv kv (set_running rest s)))).
  split; [split; try done|split_and!; try done].
  - intros r. rewrite Hobj. case_decide; [|done]. subst r F. cbn. by destruct (sched_log_stats (conf s)).
  - intros r Hr. rewrite Hobj. by rewrite decide_False.
  - rewrite Hobj, decide_True by done. subst F. cbn. by destruct (sched_log_stats (conf s)).
  - rewrite Hobj, decide_True by done. subst F. cbn. by destruct (sched_log_stats (conf s)).
  - rewrite Hobj, decide_True by done. subst F. cbn. by destruct (sched_log_stats (conf s)).
Qed.

Lemma not_in_take {A} (l : list A) i j p : NoDup l -> l !! i = Some p -> j <= i -> p ∉ take j l.
Proof.
  intros Hnd Hi Hj Hin. apply list_elem_of_lookup in Hin as [m Hm]. apply lookup_take_Some in Hm as [Hm Hlt].
  assert (m = i) by (by eapply NoDup_lookup). lia.
Qed.

Lemma elem_of_take_le {A} (l : list A) i j x : i <= j -> x ∈ take i l -> x ∈ take j l.
Proof.
  intros Hij Hx. apply list_elem_of_lookup in Hx as [m Hm]. apply lookup_take_Some in Hm as [Hm Hlt].
  apply list_elem_of_lookup. exists m. apply lookup_take_Some. split; [done|lia].
Qed.

Lemma elem_of_take_in {A} (l : list A) i x : x ∈ take i l -> x ∈ l.
Proof. intros Hx. rewrite <-(take_drop i l). apply elem_of_app. by left. Qed.

Lemma running_nodup s : sched_ok s -> NoDup (running s).
Proof. intros H. apply (so_nodup _) in H. by apply NoDup_app in H as (_ & _ & ?). Qed.

Section Step.
Context (s0 : Scheduler) (H0 : sched_ok s0).

(** The fields that [add_preempted] keeps. *)
Lemma loop_inv_preempted s v p : loop_inv s0 s v -> loop_inv s0 s (add_preempted p v).
Proof. intros []. by split. Qed.

Lemma preempt_inv now s v k p rest s' :
  loop_inv s0 s v -> run_queues s0 s v k -> v_index v < k -> reverse (running s) = p :: rest ->
  preempt now s p (reverse rest) = Ok s' ->
  loop_inv s0 s' (add_preempted p v) /\ run_queues s0 s' (add_preempted p v) (k - 1) /\
  running s0 !! (k - 1) = Some p /\ running s' = reverse rest /\ forall r, r <> p -> obj s' r = obj s r.
Proof using H0.
  intros Hi Hq Hlt Hrev Hp. apply preempt_obj in Hp as (Hfr & Hrun & Hwait & Hobj & Hst & Hc & Hspec).
  pose proof Hq as [Hk Hr Hw Hpre Hsch [Hn1 Hn2]]. rewrite Hr in Hrev.
  apply take_last in Hrev as (Hk0 & Hpk & Hrest & Hdrop); [|lia].
  pose proof (running_nodup _ H0) as Hnd.
  assert (Hps : p ∉ scheduled_of v).
  { unfold scheduled_of. rewrite Hn1, Hn2. cbn. intros Hin. apply Hsch in Hin.
    eapply (not_in_take (running s0) (k - 1) (v_index v)); [done|done|lia|done]. }
  assert (Hpl : p ∈ live s0).
  { unfold live. apply elem_of_app. right. by eapply list_elem_of_lookup_2. }
  split_and!; [|split; cbn| | |]; try done.
  - apply loop_inv_preempted. pose proof Hi as [L1 L2 L3 L4 L5 L6 L7 L8 L9 L10 L11 L12 L13 L14 L15]. split; try done.
    + by etransitivity.
    + intros r Hin. rewrite Hrun, Hrest. unfold scheduled_of in Hin. rewrite Hn1, Hn2 in Hin. cbn in Hin.
      apply Hsch in Hin. eapply elem_of_take_le; [|done]. lia.
    + intros r n Hin Hs. rewrite Hobj by (intros ->; done). by apply L9.
    + intros r Hl. destruct (decide (r = p)) as [->|Hne]; [|rewrite Hobj by done; by apply L10].
      apply (in_range_zero _ (obj s p)); [apply Hfr|done|done|by apply L10].
    + intros r Hin. rewrite Hrun, Hrest in Hin.
      assert (r <> p).
      { intros ->. eapply (not_in_take (running s0) (k - 1) (k - 1)); [done|done|lia|done]. }
      rewrite Hobj by done. apply L11. rewrite Hr. eapply elem_of_take_le; [|done]. lia.
    + intros r Hl Hnin. destruct (decide (r = p)) as [->|Hne].
      * unfold waiting_status. rewrite Hst. set_solver.
      * rewrite Hobj by done. apply L12; [done|]. intros Hin. apply Hnin. rewrite Hrun, Hrest. rewrite Hr in Hin.
        apply list_elem_of_lookup in Hin as [m Hm]. apply lookup_take_Some in Hm as [Hm Hml].
        apply list_elem_of_lookup. exists m. apply lookup_take_Some. split; [done|].
        destruct (decide (m = k - 1)) as [->|]; [congruence|lia].
    + intros r Hin0 Hin. rewrite Hrun, Hrest in Hin.
      assert (r <> p).
      { intros ->. eapply (not_in_take (running s0) (k - 1) (k - 1)); [done|done|lia|done]. }
      rewrite Hobj by done. apply L13; [done|]. rewrite Hr. eapply elem_of_take_le; [|done]. lia.
    + intros r n Hin Hs. rewrite Hobj by (intros ->; done). by apply L14.
  - lia.
  - by rewrite Hrun.
  - by rewrite Hwait, Hw, Hdrop.
  - by rewrite Hpre, Hdrop, reverse_cons.
Qed.

Lemma preempt_loop_ok now v n rr s r k s' v' res :
  loop_inv s0 s v -> run_queues s0 s v k -> v_index v < k -> running s0 !! v_index v = Some r ->
  rr = reverse (running s) ->
  preempt_loop now s v r n rr = Ok (s', v', res) ->
  exists k', loop_inv s0 s' v' /\ run_queues s0 s' v' k' /\ v_index v' = v_index v /\
    v_budget v' = v_budget v /\ (k' < k -> k' < length (running s0)) /\
    match res with
    | Some _ => v_index v < k' /\ obj s' r = obj s r
    | None => k' = v_index v
    end.
Proof using H0.
  revert v s k. induction rr as [|p rest IH]; intros v s k Hi Hq Hlt Hr Hrev; cbn [preempt_loop];
    intros H; apply bind_ok in H as ([kv blocks] & _ & H).
  - destruct blocks as [b|]; [|done]. injection H as <- <- <-. exists k.
    split_and!; [by apply loop_inv_kv| |done|done|lia|done|done]. by destruct Hq; split.
  - destruct blocks as [b|].
    { injection H as <- <- <-. exists k. split_and!; [by apply loop_inv_kv| |done|done|lia|done|done].
      by destruct Hq; split. }
    apply bind_ok in H as (s1 & Hp & H).
    destruct (preempt_inv now (set_kv kv s) v k p rest s1) as (Hi1 & Hq1 & Hpk & Hrun1 & Hobj1);
      [by apply loop_inv_kv|by destruct Hq; split|done|done|done|].
    pose proof (rq_k _ _ _ _ Hq) as Hkk.
    destruct (Nat.eqb_spec p r) as [->|Hne].
    + injection H as <- <- <-. exists (k - 1). split_and!; [done|done|done|done|lia|].
      eapply NoDup_lookup; [by apply running_nodup|done|done].
    + assert (Hlt1 : v_index v < k - 1).
      { destruct (decide (v_index v = k - 1)) as [E'|]; [|lia]. rewrite <-E', Hr in Hpk. congruence. }
      destruct (IH (add_preempted p v) s1 (k - 1)) as (k' & H1 & H2 & H3 & H4 & H5 & H6); [done|done|done|done| |done|].
      { by rewrite Hrun1, reverse_involutive. }
      exists k'. split_and!; [done|done|done|done|lia|]. destruct res as [b|]; [|done]. destruct H6 as [H6 H7].
      split; [done|]. by rewrite H7, Hobj1.
Qed.

(** A live request that is not scheduled has no entry. *)
Lemma unscheduled_none s v r :
  loop_inv s0 s v -> r ∈ live s0 -> r ∉ scheduled_of v -> v_scheduled v !! request_id (obj s0 r) = None.
Proof using H0.
  intros Hi Hl Hni. apply eq_None_not_Some. intros Hs. apply (lv_dom _ _ _ Hi) in Hs as (x & Hx & Hxr). destruct Hni.
  assert (x = r) as <-; [|done]. apply (live_id_inj s0); [done| |done|done].
  by apply (lv_running _ _ _ Hi), (lv_sched _ _ _ Hi).
Qed.

(** Both loops schedule a request by the same assignments. *)
Lemma scheduled_inv s v s' v' r n blocks d :
  loop_inv s0 s v -> r ∈ live s0 -> r ∉ scheduled_of v ->
  scheduled_of v' ≡ₚ r :: scheduled_of v ->
  v_scheduled v' = <[request_id (obj s r) := n]> (v_scheduled v) ->
  v_new_blocks v' = <[request_id (obj s r) := blocks]> (v_new_blocks v) ->
  v_budget v' = (v_budget v - n)%Z -> (1 <= n <= v_budget v)%Z ->
  frame s s' -> (forall x, x ∈ running s' <-> x = r \/ x ∈ running s) ->
  (forall x, x <> r -> obj s' x = obj s x) -> status (obj s' r) = RUNNING ->
  in_range (conf s0) (obj s' r) -> in_range (conf s0) (advanced n (obj s' r)) ->
  (r ∈ running s0 -> r ∈ running s /\ num_computed_tokens (obj s' r) = num_computed_tokens (obj s r)) ->
  v_spec v' = put_if (request_id (obj s r)) d (v_spec v) -> drafts_fit (default [] d) n (obj s' r) ->
  loop_inv s0 s' v'.
Proof using H0.
  intros Hi Hl Hni Hperm Hsch Hblk Hbud Hn Hfr Hrun Hobj Hst Hr1 Hr2 Hkept Hspec Hfit.
  pose proof (unscheduled_none s v r Hi Hl Hni) as Hnone.
  destruct Hi as [L1 L2 L3 L4 L5 L6 L7 L8 L9 L10 L11 L12 L13 L14 L15].
  assert (Hid : forall x, request_id (obj s x) = request_id (obj s0 x)) by (intros x; apply (fr_static _ _ L1)).
  rewrite Hid in Hsch, Hblk, Hspec. assert (Hlive : forall x, x ∈ scheduled_of v -> x ∈ live s0) by (intros x Hx; by apply L11, L5).
  split.
  - by etransitivity.
  - rewrite (scheduled_total_insert v (request_id (obj s0 r)) n), Hbud by done. lia.
  - lia.
  - rewrite Hperm. by constructor.
  - intros x. rewrite Hperm. intros [->|Hx]%elem_of_cons; apply Hrun; [by left|right; by apply L5].
  - intros id. rewrite Hsch. destruct (decide (id = request_id (obj s0 r))) as [->|Hne].
    + rewrite lookup_insert_eq. split; [|by eauto]. intros _. exists r. split; [|done]. rewrite Hperm. by left.
    + rewrite lookup_insert_ne by done. rewrite L6. split; intros (x & Hx & Hxid); exists x; (split; [|done]).
      * rewrite Hperm. by right.
      * rewrite Hperm in Hx. apply elem_of_cons in Hx as [->|Hx]; [done|done].
  - intros id. rewrite Hsch, Hblk. destruct (decide (id = request_id (obj s0 r))) as [->|Hne].
    + rewrite !lookup_insert_eq. split; eauto.
    + rewrite !lookup_insert_ne by done. apply L7.
  - intros id m. rewrite Hsch. intros [[<- <-]|[_ Hm]]%lookup_insert_Some; [lia|by eapply L8].
  - intros x m. rewrite Hperm, Hsch. intros [->|Hx]%elem_of_cons Hm.
    + rewrite lookup_insert_eq in Hm. by injection Hm as <-.
    + assert (Hxr : x <> r) by (by intros ->). rewrite Hobj by done. apply L9; [done|].
      assert (Hne : request_id (obj s0 r) <> request_id (obj s0 x)).
      { intros Heq. destruct Hxr. symmetry. apply (live_id_inj s0); [done|done|by apply Hlive|done]. }
      by rewrite lookup_insert_ne in Hm.
  - intros x Hx. destruct (decide (x = r)) as [->|Hne]; [done|]. rewrite Hobj by done. by apply L10.
  - intros x Hx. destruct (decide (x = r)) as [->|Hne]; [done|]. rewrite Hobj by done.
    apply Hrun in Hx as [->|Hx]; [done|by apply L11].
  - intros x Hx Hnx. assert (x <> r) by (intros ->; apply Hnx, Hrun; by left). rewrite Hobj by done. apply L12; [done|].
    intros Hin. apply Hnx, Hrun. by right.
  - intros x Hx0 Hx. destruct (decide (x = r)) as [->|Hne].
    + destruct (Hkept Hx0) as [Hin ->]. by apply L13.
    + rewrite Hobj by done. apply L13; [done|]. by apply Hrun in Hx as [->|Hx].
  - intros x m. rewrite Hperm, Hsch, Hspec. intros [->|Hx]%elem_of_cons Hm.
    + rewrite lookup_insert_eq in Hm. injection Hm as <-. destruct d as [d|]; cbn; [by rewrite lookup_insert_eq|].
      assert (v_spec v !! request_id (obj s0 r) = None) as ->; [|done].
      apply eq_None_not_Some. intros Hs. apply L15 in Hs. rewrite Hnone in Hs. by destruct Hs.
    + assert (Hxr : x <> r) by (by intros ->).
      assert (Hne : request_id (obj s0 r) <> request_id (obj s0 x)).
      { intros Heq. destruct Hxr. symmetry. apply (live_id_inj s0); [done|done|by apply Hlive|done]. }
      rewrite lookup_insert_ne in Hm by done. rewrite Hobj by done.
      replace (put_if _ d (v_spec v) !! request_id (obj s0 x)) with (v_spec v !! request_id (obj s0 x)).
      { by apply L14. }
      destruct d; cbn; [by rewrite lookup_insert_ne|done].
  - intros id. rewrite Hspec, Hsch. destruct (decide (id = request_id (obj s0 r))) as [->|Hne].
    + rewrite lookup_insert_eq. eauto.
    + rewrite lookup_insert_ne by done. intros Hs. apply L15. destruct d; cbn in Hs; [|done].
      by rewrite lookup_insert_ne in Hs.
Qed.

Lemma cap_prefill_range c n : (0 <= n -> 0 <= cap_prefill c n <= n)%Z.
Proof.
  unfold cap_prefill. destruct (Z.ltb_spec 0 (long_prefill_token_threshold c)); cbn; [|lia].
  destruct (Z.ltb_spec (long_prefill_token_threshold c) n); lia.
Qed.

(** Trimming keeps the scheduled tokens within what is known. *)
Lemma trim_spec_range c q n :
  in_range c q -> (0 <= n)%Z -> (num_computed_tokens q + n <= num_tokens_with_spec q)%Z ->
  (num_computed_tokens q + n <= sched_max_model_len c)%Z ->
  let q' := match trim_spec q n with Some l => set_spec_token_ids l q | None => q end in
  same_static q q' /\ num_computed_tokens q' = num_computed_tokens q /\ status q' = status q /\
  in_range c q' /\ in_range c (advanced n q') /\ drafts_fit (default [] (trim_spec q n)) n q'.
Proof.
  unfold drafts_fit, trim_spec, in_range, num_tokens_with_spec, num_tokens. intros (H1 & H2 & H3) Hn Hs HL.
  destruct (spec_token_ids q) as [|t l] eqn:Eq; cbn -[take].
  { cbn [length] in *. split_and!; cbn; rewrite ?Eq; cbn [length]; try lia; done. }
  destruct (Z.ltb_spec 0 (n + num_computed_tokens q - Z.of_nat (length (all_token_ids q)))); cbn -[take];
    rewrite ?length_take; cbn [length] in *; split_and!; rewrite ?Eq; cbn [length]; try done; try lia.
Qed.

Lemma running_one_ok now s v k r s' v' fl :
  loop_inv s0 s v -> run_queues s0 s v k -> running s !! v_index v = Some r -> (0 < v_budget v)%Z ->
  running_one now s v r = Ok (s', v', fl) ->
  exists k', loop_inv s0 s' v' /\ run_queues s0 s' v' k' /\
    match fl with Continue => v_index v' = v_index v + 1 | Break => k' < length (running s0) end.
Proof using H0.
  intros Hi Hq Hr Hbud. pose proof (rq_running _ _ _ _ Hq) as Hrun. rewrite Hrun in Hr.
  apply lookup_take_Some in Hr as [Hr Hlt].
  assert (Hl : r ∈ live s0) by (apply elem_of_app; right; by eapply list_elem_of_lookup_2).
  pose proof (lv_range _ _ _ Hi r Hl) as Hrange. pose proof (fr_conf _ _ (lv_frame _ _ _ Hi)) as Hconf.
  unfold running_one. cbn zeta. set (n := Z.min (Z.min _ _) _).
  fold (choose_inputs s (obj s r) (num_computed_tokens (obj s r)) n (v_encoder_budget v)).
  assert (Hn : (0 <= n <= v_budget v /\ num_computed_tokens (obj s r) + n <= num_tokens_with_spec (obj s r) /\
    num_computed_tokens (obj s r) + n <= sched_max_model_len (conf s0))%Z).
  { destruct Hrange as (H1 & H2 & _). subst n. rewrite Hconf.
    pose proof (cap_prefill_range (conf s0) (num_tokens_with_spec (obj s r) - num_computed_tokens (obj s r)) ltac:(lia)). lia. }
  clearbody n. intros H. apply bind_ok in H as ([[inputs n'] eb] & Hch & H).
  apply choose_inputs_ok in Hch as [Hn' _]; [|lia].
  destruct (Z.eqb_spec n' 0) as [->|Hn0].
  { injection H as <- <- <-. exists k. pose proof (rq_k _ _ _ _ Hq).
    split; [by destruct Hi; split|]. split; [|done]. destruct Hq; split; try done; cbn; [lia|].
    intros x Hx. eapply elem_of_take_le; [|by apply rq_sched0]. lia. }
  apply bind_ok in H as ([[s1 v1] res] & Hpl & H).
  destruct (preempt_loop_ok now v n' _ s r k s1 v1 res Hi Hq Hlt Hr eq_refl Hpl)
    as (k' & Hi1 & Hq1 & Hidx & Hb1 & Hkk & Hres).
  destruct res as [blocks|].
  2: { injection H as <- <- <-. exists k'. subst k'. split_and!; [done|done|]. by eapply lookup_lt_Some. }
  destruct Hres as [Hlt1 Hobj1]. apply bind_ok in H as (s2 & Hal & H). injection H as <- <- <-.
  apply allocate_inputs_frame in Hal as [e ->].
  destruct (trim_spec_range (conf s0) (obj s r) n' Hrange) as (T1 & T2 & T3 & T4 & T5 & T6); [lia|lia|lia|].
  rewrite Hobj1. exists k'.
  set (s2 := match trim_spec _ _ with Some _ => _ | None => _ end).
  assert (Hs2 : forall x, obj s2 x = if decide (x = r) then
      match trim_spec (obj s r) n' with Some l => set_spec_token_ids l (obj s r) | None => obj s r end else obj s1 x).
  { intros x. subst s2. destruct (trim_spec (obj s r) n') as [l|].
    - rewrite obj_update, Hobj1. done.
    - case_decide; [by subst|done]. }
  assert (Hs2' : running s2 = running s1 /\ waiting s2 = waiting s1 /\ frame s1 s2).
  { split_and!; [subst s2; by destruct (trim_spec _ _)..|]. split; [subst s2; by destruct (trim_spec _ _)..|].
    intros x. rewrite Hs2. case_decide; [subst x; by rewrite Hobj1|done]. }
  destruct Hs2' as (Hs2r & Hs2w & Hs2f). clearbody s2.
  pose proof Hq1 as [Q1 Q2 Q3 Q4 Q5 [Q6 Q7]].
  assert (Hni : r ∉ scheduled_of v1).
  { unfold scheduled_of. rewrite Q6, Q7. cbn. intros Hin. apply Q5 in Hin. rewrite Hidx in Hin.
    eapply not_in_take; [by apply running_nodup|exact Hr|done|done]. }
  assert (Hrin : r ∈ running s1).
  { rewrite Q2. apply list_elem_of_lookup. exists (v_index v). by apply lookup_take_Some. }
  split_and!.
  - apply (scheduled_inv s1 v1 _ _ r n' blocks (trim_spec (obj s r) n')); cbn [v_scheduled v_new_blocks v_budget take_running set_enc];
      rewrite ?Hobj1; try done.
    + unfold scheduled_of. cbn. rewrite Q6, Q7. cbn. symmetry. apply Permutation_cons_append.
    + lia.
    + destruct Hs2f; by split.
    + intros x. cbn. rewrite Hs2r. split; [by right|]. intros [->|]; done.
    + intros x Hx. change (obj s2 x = obj s1 x). by rewrite Hs2, decide_False.
    + change (status (obj s2 r) = RUNNING). rewrite Hs2, decide_True, T3 by done. rewrite <-Hobj1.
      by apply (lv_running _ _ _ Hi1).
    + change (in_range (conf s0) (obj s2 r)). by rewrite Hs2, decide_True.
    + change (in_range (conf s0) (advanced n' (obj s2 r))). by rewrite Hs2, decide_True.
    + intros _. split; [done|]. change (num_computed_tokens (obj s2 r) = num_computed_tokens (obj s r)).
      by rewrite Hs2, decide_True.
    + change (drafts_fit (default [] (trim_spec (obj s r) n')) n' (obj s2 r)). by rewrite Hs2, decide_True.
  - split; cbn; try done; [lia|by rewrite Hs2r|by rewrite Hs2w|].
    intros x [Hx|Hx%list_elem_of_singleton]%elem_of_app.
    + eapply elem_of_take_le; [|by apply Q5]. lia.
    + subst x. rewrite Hidx. apply list_elem_of_lookup. exists (v_index v). apply lookup_take_Some. split; [done|lia].
  - cbn. lia.
Qed.

Lemma running_loop_ok now fuel s v k :
  loop_inv s0 s v -> run_queues s0 s v k -> length (running s0) - v_index v <= fuel ->
  exists res, running_loop now fuel s v = Some res /\
    forall s' v', res = Ok (s', v') -> exists k', loop_inv s0 s' v' /\ run_queues s0 s' v' k'.
Proof using H0.
  revert s v k. induction fuel as [|fuel IH]; intros s v k Hi Hq Hf; cbn [running_loop];
    (destruct (running s !! v_index v) as [r|] eqn:Hr;
     [|eexists; split; [done|]; intros s' v' [= <- <-]; by exists k]);
    (destruct (Z.ltb_spec 0 (v_budget v)) as [Hb|Hb];
     [|eexists; split; [done|]; intros s' v' [= <- <-]; by exists k]).
  - exfalso. rewrite (rq_running _ _ _ _ Hq) in Hr. apply lookup_take_Some in Hr as [Hr _].
    apply lookup_lt_Some in Hr. lia.
  - destruct (running_one now s v r) as [[[s1 v1] fl]|e] eqn:E1; [|by eexists].
    destruct (running_one_ok now s v k r s1 v1 fl Hi Hq Hr Hb E1) as (k1 & Hi1 & Hq1 & Hfl). destruct fl.
    + apply (IH s1 v1 k1 Hi1 Hq1). lia.
    + eexists. split; [done|]. intros s' v' [= <- <-]. by exists k1.
Qed.

(** ** Admission *)

Lemma computed_nonneg m r m' bs n : get_computed_blocks hash_fn NONE_HASH m r = Ok (m', (bs, n)) -> (0 <= n)%Z.
Proof.
  unfold get_computed_blocks. destruct (negb _); [intros [= <- <- <-]; done|].
  intros H. apply bind_ok in H as (hs & _ & H). apply bind_ok in H as (m1 & _ & H).
  destruct (bool_decide _); [injection H as <- <- <-; done|].
  apply bind_ok in H as (l & _ & H). apply bind_ok in H as (m2 & _ & H). injection H as <- <- <-. lia.
Qed.

(** A change to a request that stays in the waiting queue. *)
Lemma loop_inv_requeue s v r f q :
  loop_inv s0 s v -> r ∈ live s0 -> r ∉ running s -> (forall q, same_static q (f q)) ->
  spec_token_ids (f (obj s r)) = spec_token_ids (obj s r) ->
  num_computed_tokens (f (obj s r)) = num_computed_tokens (obj s r) -> waiting_status (f (obj s r)) ->
  loop_inv s0 (set_waiting q (update r f s)) v.
Proof.
  intros [L1 L2 L3 L4 L5 L6 L7 L8 L9 L10 L11 L12 L13 L14 L15] Hl Hnr Hf Hsp Hc Hst.
  assert (Hobj : forall x, obj (set_waiting q (update r f s)) x = if decide (x = r) then f (obj s r) else obj s x)
    by (intros x; apply (obj_update s)).
  split; try done.
  - etransitivity; [exact L1|]. etransitivity; [by apply (frame_update s r f)|]. by split.
  - intros x n Hx. rewrite Hobj. case_decide as Hxr; [|by apply L9]. subst x. by destruct Hnr; apply L5.
  - intros x Hx. rewrite Hobj. case_decide; [|by apply L10]. subst x.
    apply (in_range_static _ (obj s r)); [apply Hf|done|done|by apply L10].
  - intros x Hx. rewrite Hobj. case_decide; [by subst x|by apply L11].
  - intros x Hx Hnx. rewrite Hobj. case_decide; [done|by apply L12].
  - intros x Hx0 Hx. rewrite Hobj. case_decide; [by subst x|by apply L13].
  - intros x n Hx. rewrite Hobj. case_decide as Hxr; [|by apply L14]. subst x. by destruct Hnr; apply L5.
Qed.

Lemma loop_inv_queue s v q : loop_inv s0 s v -> loop_inv s0 (set_waiting q s) v.
Proof. intros [[] ?]. by split. Qed.

Lemma take_waiting_ok r q n blocks inputs eb v v' :
  take_waiting r q n blocks inputs eb v = Ok v' ->
  scheduled_of v' ≡ₚ r :: scheduled_of v /\ v_scheduled v' = <[request_id q := n]> (v_scheduled v) /\
  v_new_blocks v' = <[request_id q := blocks]> (v_new_blocks v) /\ v_budget v' = (v_budget v - n)%Z /\
  v_preempted v' = v_preempted v /\ v_spec v' = v_spec v.
Proof.
  unfold take_waiting. intros H. apply bind_ok in H as ([new resumed] & Hst & H). injection H as <-.
  split; [|done]. unfold scheduled_of. cbn.
  destruct (status q); cbn in Hst; try done; injection Hst as <- <-.
  - rewrite <-app_assoc. symmetry. apply Permutation_middle.
  - rewrite <-!app_assoc, !(assoc_L (++) (v_new v)). symmetry. apply Permutation_middle.
Qed.

Context `{!EnvLaws E}.

Lemma external_nonneg s q n : (0 <= external_tokens s q n)%Z.
Proof using EnvLaws0. unfold external_tokens. destruct (connector s); [apply matched_nonneg|done]. Qed.

Lemma to_running_ok now s r rest ext computed :
  let s' := to_running now s r rest ext computed in
  frame s s' /\ running s' = running s ++ [r] /\ waiting s' = rest /\
  (forall x, x <> r -> obj s' x = obj s x) /\ same_static (obj s r) (obj s' r) /\
  status (obj s' r) = RUNNING /\ num_computed_tokens (obj s' r) = computed /\
  spec_token_ids (obj s' r) = spec_token_ids (obj s r).
Proof.
  cbn zeta. unfold to_running. set (s1 := set_running _ _).
  set (s2 := if sched_log_stats _ then _ else _).
  assert (Hobj : forall x, x <> r -> obj s2 x = obj s x).
  { intros x Hx. subst s2. destruct (sched_log_stats _); [by rewrite obj_update_ne|done]. }
  assert (Hr : same_static (obj s r) (obj s2 r) /\ spec_token_ids (obj s2 r) = spec_token_ids (obj s r)).
  { subst s2. destruct (sched_log_stats _); [by rewrite obj_update_eq|done]. }
  assert (Hf : conf s2 = conf s /\ requests s2 = requests s /\ finished_req_ids s2 = finished_req_ids s /\
    running s2 = running s ++ [r] /\ waiting s2 = rest) by (subst s2; by destruct (sched_log_stats _)).
  clearbody s2. destruct Hr as [Hr1 Hr2]. destruct Hf as (F1 & F2 & F3 & F4 & F5).
  split_and!; try done.
  - split; try done. intros x. rewrite obj_update. case_decide; [subst x|by rewrite Hobj].
    etransitivity; [exact Hr1|]. by split.
  - intros x Hx. rewrite obj_update_ne by done. by apply Hobj.
  - rewrite obj_update_eq. etransitivity; [exact Hr1|]. by split.
  - by rewrite obj_update_eq.
  - by rewrite obj_update_eq.
  - by rewrite obj_update_eq.
Qed.

Lemma waiting_one_ok now s v loras r rest s' next :
  loop_inv s0 s v -> r ∈ live s0 -> r ∉ running s0 -> r ∉ running s -> (0 < v_budget v)%Z ->
  waiting_one now s v loras r rest = Ok (s', next) ->
  match next with
  | None => loop_inv s0 s' v /\ running s' = running s /\ waiting s' = waiting s
  | Some (v', _) => loop_inv s0 s' v' /\ running s' = running s ++ [r] /\ waiting s' = rest /\
      v_preempted v' = v_preempted v
  end.
Proof using H0 EnvLaws0.
  intros Hi Hl Hnr0 Hnr Hbud H. unfold waiting_one in H. cbn zeta in H.
  apply bind_ok in H as ([kv [cb nc]] & Hcb & H). apply computed_nonneg in Hcb.
  apply bind_ok in H as (u & Hn & H). apply py_assert_ok, Z.ltb_lt in Hn.
  set (ext := external_tokens _ _ nc) in *. assert (Hext : (0 <= ext)%Z) by apply external_nonneg.
  clearbody ext. cbn [set_kv conf] in Hn, H.
  set (n := Z.min _ _) in *.
  fold (choose_inputs (set_kv kv s) (obj s r) (nc + ext) n (v_encoder_budget v)) in H.
  apply bind_ok in H as ([[inputs n'] eb] & Hch & H). apply choose_inputs_ok in Hch as [Hn' Hsame]; [|lia].
  assert (Hnn : (n <= v_budget v /\ nc + ext + n <= num_tokens (obj s r))%Z).
  { assert (cap_prefill (conf s) (num_tokens (obj s r) - (nc + ext)) <= num_tokens (obj s r) - (nc + ext))%Z; [|lia].
    unfold cap_prefill in *. destruct (_ && _) eqn:Ec; [|lia]. apply andb_true_iff in Ec as [_ Ec%Z.ltb_lt]. lia. }
  destruct (has_encoder_inputs (obj s r) && (n' =? 0)%Z) eqn:Ez.
  { injection H as <- <-. split; [by apply loop_inv_kv|done]. }
  apply bind_ok in H as ([kv' nb] & _ & H).
  destruct nb as [nb|]; [|injection H as <- <-; split; [by do 2 apply loop_inv_kv|done]].
  apply bind_ok in H as (v1 & Hv1 & H). apply bind_ok in H as (s2 & Hal & H). injection H as <- <-.
  apply allocate_inputs_frame in Hal as [e ->]. apply take_waiting_ok in Hv1 as (V1 & V2 & V3 & V4 & V5 & V6).
  assert (Hn1 : (1 <= n')%Z).
  { destruct (has_encoder_inputs (obj s r)); [|rewrite Hsame by done; lia].
    apply Z.eqb_neq in Ez. lia. }
  destruct (to_running_ok now (set_kv kv' (set_kv kv s)) r rest ext (nc + ext)) as (T1 & T2 & T3 & T4 & T5 & T6 & T7 & T8).
  set (s1 := to_running _ _ _ _ _ _) in *. clearbody s1.
  pose proof (lv_range _ _ _ Hi r Hl) as (R1 & R2 & R3). pose proof (static_num_tokens _ _ T5) as Hnt.
  change (obj (set_kv kv' (set_kv kv s)) r) with (obj s r) in *.
  unfold in_range, num_tokens_with_spec in *. unfold num_tokens in *.
  split_and!; [|done|done|done].
  apply (scheduled_inv s v _ _ r n' (cb ++ nb) None); try done.
  - intros Hin. by apply Hnr, (lv_sched _ _ _ Hi).
  - lia.
  - destruct T1; by split.
  - intros x. cbn. rewrite T2. cbn. rewrite elem_of_app, list_elem_of_singleton. tauto.
  - change (obj (set_enc e s1) r) with (obj s1 r). unfold in_range, num_tokens_with_spec, num_tokens. rewrite T7. lia.
  - change (obj (set_enc e s1) r) with (obj s1 r). unfold in_range, num_tokens_with_spec, num_tokens. cbn. rewrite T7. lia.
  - change (obj (set_enc e s1) r) with (obj s1 r). unfold drafts_fit, num_tokens. cbn. rewrite T7. split; [lia|done].
Qed.

(** ** The waiting queue *)

Record waiting_result (s s' : Scheduler) (v v' : vars) (queue skipped skipped' : list nat) (adm : list nat) : Prop := {
  wr_inv : loop_inv s0 s' v';
  wr_running : running s' = running s ++ adm;
  wr_sub : adm `sublist_of` queue;
  wr_queue : reverse skipped' ++ waiting s' = reverse skipped ++ without adm queue;
  wr_limit : length (running s') <= max_num_running_reqs (conf s0);
  wr_preempted : v_preempted v' = v_preempted v;
}.

Lemma waiting_stop s v skipped :
  loop_inv s0 s v -> length (running s) <= max_num_running_reqs (conf s0) ->
  waiting_result s s v v (waiting s) skipped skipped [].
Proof. intros Hi Hl. split; try done; [by rewrite app_nil_r|apply sublist_nil_l|by rewrite without_nil]. Qed.

Lemma waiting_skip s s1 s' v v' r rest skipped skipped' adm :
  running s1 = running s -> r ∉ rest ->
  waiting_result s1 s' v v' rest (r :: skipped) skipped' adm ->
  waiting_result s s' v v' (r :: rest) skipped skipped' adm.
Proof.
  intros Hrun Hr [H1 H2 H3 H4 H5 H6]. split; try done; [by rewrite H2, Hrun|by constructor|].
  rewrite H4, reverse_cons, <-app_assoc. by rewrite without_keep.
Qed.

Lemma waiting_take s s1 s' v v1 v' r rest skipped skipped' adm :
  running s1 = running s ++ [r] -> v_preempted v1 = v_preempted v -> r ∉ rest ->
  waiting_result s1 s' v1 v' rest skipped skipped' adm ->
  waiting_result s s' v v' (r :: rest) skipped skipped' (r :: adm).
Proof.
  intros Hrun Hp Hr [H1 H2 H3 H4 H5 H6]. split; try done.
  - by rewrite H2, Hrun, <-app_assoc.
  - by constructor.
  - by rewrite without_take.
  - congruence.
Qed.

Lemma waiting_loop_ok now ready s v loras queue skipped s' v' skipped' :
  loop_inv s0 s v -> waiting s = queue -> (forall r, r ∈ queue -> r ∈ live s0 /\ r ∉ running s0) -> NoDup (queue ++ running s) ->
  length (running s) <= max_num_running_reqs (conf s0) ->
  waiting_loop now ready s v loras queue skipped = Ok (s', v', skipped') ->
  exists adm, waiting_result s s' v v' queue skipped skipped' adm.
Proof using H0 EnvLaws0.
  revert s v loras skipped. induction queue as [|r rest IH]; intros s v loras skipped Hi Hw Hl Hnd Hlim; cbn [waiting_loop].
  { intros [= <- <- <-]. exists []. pose proof (waiting_stop s v skipped Hi Hlim) as Hres. by rewrite Hw in Hres. }
  pose proof (fr_conf _ _ (lv_frame _ _ _ Hi)) as Hconf. rewrite Hconf.
  destruct (negb (0 <? v_budget v)%Z || (length (running s) =? max_num_running_reqs (conf s0))) eqn:Hstop.
  { intros [= <- <- <-]. exists []. pose proof (waiting_stop s v skipped Hi Hlim) as Hres. by rewrite Hw in Hres. }
  apply orb_false_iff in Hstop as [Hb%negb_false_iff%Z.ltb_lt Hlen%Nat.eqb_neq].
  cbn in Hnd. apply NoDup_cons in Hnd as [Hr Hnd]. rewrite not_elem_of_app in Hr. destruct Hr as [Hr1 Hr2].
  destruct (Hl r ltac:(by left)) as [Hrl Hr0].
  assert (Hl' : forall x, x ∈ rest -> x ∈ live s0 /\ x ∉ running s0) by (intros x Hx; apply Hl; by right).
  assert (Hskip : forall s1, loop_inv s0 s1 v -> running s1 = running s ->
    waiting_loop now ready (set_waiting rest s1) v loras rest (r :: skipped) = Ok (s', v', skipped') ->
    exists adm, waiting_result s s' v v' (r :: rest) skipped skipped' adm).
  { intros s1 Hi1 Hrun1 H. destruct (IH (set_waiting rest s1) v loras (r :: skipped)) as [adm Hres]; try done.
    - by apply loop_inv_queue.
    - cbn. by rewrite Hrun1.
    - cbn. by rewrite Hrun1.
    - exists adm. by apply (waiting_skip s (set_waiting rest s1)). }
  destruct (_ && negb _) eqn:Hfsm; [by apply Hskip|]. clear Hfsm.
  set (s1 := if bool_decide _ then _ else _).
  assert (Hs1 : loop_inv s0 s1 v /\ running s1 = running s /\ waiting s1 = waiting s).
  { subst s1. destruct (bool_decide _); [|done]. split; [|done].
    replace (update r (set_status WAITING) s) with (set_waiting (waiting s) (update r (set_status WAITING) s)) by done.
    apply loop_inv_requeue; try done. unfold waiting_status. cbn. set_solver. }
  clearbody s1. destruct Hs1 as (Hi1 & Hrun1 & Hw1).
  destruct (lora_blocked _ _ _); [by apply Hskip|]. clear Hskip.
  intros H. apply bind_ok in H as ([s2 next] & Hone & H).
  pose proof (waiting_one_ok now s1 v loras r rest s2 next Hi1 Hrl Hr0 ltac:(by rewrite Hrun1) Hb Hone) as Hres.
  destruct next as [[v2 loras2]|].
  - destruct Hres as (Hi2 & Hrun2 & Hw2 & Hp2).
    destruct (IH s2 v2 loras2 skipped) as [adm Hadm]; try done.
    + rewrite Hrun2, Hrun1, app_assoc. apply NoDup_app. split_and!; [done| |apply NoDup_singleton].
      intros x Hx ->%list_elem_of_singleton. by apply elem_of_app in Hx as [Hx|Hx].
    + rewrite Hrun2, Hrun1, length_app. cbn. lia.
    + exists (r :: adm). apply (waiting_take s s2 s' v v2); try done. by rewrite Hrun2, Hrun1.
  - injection H as <- <- <-. destruct Hres as (Hi2 & Hrun2 & Hw2). exists [].
    replace (r :: rest) with (waiting s2) by congruence.
    destruct (waiting_stop s2 v skipped Hi2) as [W1 W2 W3 W4 W5 W6]; [by rewrite Hrun2, Hrun1|].
    split; try done. by rewrite W2, Hrun2, Hrun1.
Qed.

(** ** The end of the step *)

(** How the queues may look after a step: either the last running requests were
    preempted, all to the head of the waiting queue and in their order, or some
    waiting requests were admitted, in the order of the queue. *)
Definition queues_after (s : Scheduler) : Prop :=
  (exists k, k < length (running s0) /\ running s = take k (running s0) /\
     waiting s = drop k (running s0) ++ waiting s0) \/
  (exists adm, adm `sublist_of` waiting s0 /\ running s = running s0 ++ adm /\ waiting s = without adm (waiting s0)).

Lemma vars_init_inv : (0 <= max_num_scheduled_tokens (conf s0))%Z -> loop_inv s0 s0 (vars_init (conf s0)).
Proof using H0.
  intros Hm. destruct H0 as [S1 S2 S3 S4 S5 S6].
  split; cbn [scheduled_of vars_init v_new v_resumed v_running v_scheduled v_new_blocks v_budget app]; try done.
  - constructor.
  - intros r Hr. by apply elem_of_nil in Hr.
  - intros id. rewrite lookup_empty. split; [by intros [? ?]|]. intros (r & Hr & _). by apply elem_of_nil in Hr.
  - intros id. rewrite !lookup_empty. split; intros [? ?]; done.
  - intros r Hr. split; [apply elem_of_app; by right|by apply S3].
  - intros r Hr Hn. apply elem_of_app in Hr as [Hr|Hr]; [by apply S4|done].
  - intros id. cbn. rewrite !lookup_empty. by intros [? ?].
Qed.

Lemma run_queues_init : run_queues s0 s0 (vars_init (conf s0)) (length (running s0)).
Proof.
  split; cbn [vars_init v_index v_preempted v_running v_new v_resumed]; try done.
  - lia.
  - by rewrite take_ge.
  - by rewrite drop_ge.
  - by rewrite drop_ge.
Qed.

Lemma schedule_waiting_ok now ready s v k s' v' :
  loop_inv s0 s v -> run_queues s0 s v k -> schedule_waiting now ready s v = Ok (s', v') ->
  loop_inv s0 s' v' /\ queues_after s' /\ length (running s') <= max_num_running_reqs (conf s0).
Proof using H0 EnvLaws0.
  intros Hi Hq. pose proof Hq as [[_ Hk] Hr Hw Hp _ _]. unfold schedule_waiting. intros H.
  apply bind_ok in H as (loras & _ & H). apply bind_ok in H as ([[s1 v1] sk] & Hl & H). injection H as <- <-.
  pose proof (so_limit _ H0) as Hlim.
  destruct (decide (k = length (running s0))) as [->|Hne].
  - rewrite drop_ge in Hp, Hw by done. rewrite take_ge in Hr by done. cbn in Hw. rewrite Hp in Hl. cbn in Hl.
    pose proof (so_nodup _ H0) as Hnd. pose proof Hnd as (Hnd1 & Hnd2 & Hnd3)%NoDup_app.
    destruct (waiting_loop_ok now ready s v loras (waiting s) [] s1 v1 sk) as [adm [W1 W2 W3 W4 W5 W6]]; [done|done| | | |done|].
    + intros r Hrw. rewrite Hw in Hrw. split; [apply elem_of_app; by left|by apply Hnd2].
    + by rewrite Hw, Hr.
    + by rewrite Hr.
    + split; [by apply loop_inv_queue|]. split; [|done]. right. exists adm. cbn in W4. cbn. rewrite Hw in *.
      split_and!; [done|by rewrite W2, Hr|done].
  - assert (Hne' : v_preempted v <> []).
    { rewrite Hp. intros E'. apply (f_equal length) in E'. rewrite length_reverse, length_drop in E'. cbn in E'. lia. }
    destruct (v_preempted v) as [|p ps] eqn:Evp; [done|]. injection Hl as <- <- <-. cbn.
    split; [by apply loop_inv_queue|]. rewrite Hr. split; [|rewrite length_take; lia].
    left. exists k. cbn. split_and!; [lia|done|done].
Qed.

Lemma check_constraints_ok s v :
  loop_inv s0 s v -> length (running s) <= max_num_running_reqs (conf s0) -> check_constraints s v = Ok tt.
Proof.
  intros Hi Hlim. pose proof Hi as [L1 L2 L3 L4 L5 _ _ _ _ _ _ _ _ _ _].
  unfold check_constraints. rewrite (fr_conf _ _ L1).
  rewrite (proj2 (Z.leb_le _ _)) by lia. cbn. rewrite (proj2 (Z.leb_le _ _)) by lia. cbn.
  rewrite (proj2 (Nat.leb_le _ _) Hlim). cbn.
  assert (length (scheduled_of v) <= length (running s)).
  { apply submseteq_length. by apply NoDup_submseteq. }
  unfold scheduled_of in H. rewrite !length_app in H. rewrite (proj2 (Nat.leb_le _ _)) by lia. done.
Qed.

(** Looking a request up leaves its entry, possibly empty. *)
Definition touched (m m' : KVCacheManager) : Prop :=
  m' = m \/ exists id, m' = set_req_blocks (<[id := blocks_of m id]> (req_to_blocks m)) m.

Lemma common_blocks_ok s v :
  loop_inv s0 s v -> exists kv n, common_blocks s = Ok (set_kv kv s, n) /\ touched (kv_cache_manager s) kv.
Proof.
  intros Hi. unfold common_blocks. destruct (running s) as [|r rs] eqn:Er.
  { exists (kv_cache_manager s), 0. split; [by destruct s|by left]. }
  unfold get_num_common_prefix_blocks. rewrite bool_decide_true.
  { cbn. do 2 eexists. split; [done|]. right. by eexists. }
  apply (lv_running _ _ _ Hi). rewrite Er. by left.
Qed.

(** Every scheduled request has its entries in the dicts of the step. *)
Lemma scheduled_entries s v r :
  loop_inv s0 s v -> r ∈ scheduled_of v ->
  is_Some (v_scheduled v !! request_id (obj s r)) /\ is_Some (v_new_blocks v !! request_id (obj s r)).
Proof.
  intros Hi Hr. pose proof (fr_static _ _ (lv_frame _ _ _ Hi) r) as Hst. rewrite (ss_id _ _ Hst).
  rewrite (lv_blocks _ _ _ Hi). assert (is_Some (v_scheduled v !! request_id (obj s0 r))); [|done].
  apply (lv_dom _ _ _ Hi). by exists r.
Qed.

Lemma new_data_list_ok s v :
  (forall r, r ∈ v_new v -> is_Some (v_new_blocks v !! request_id (obj s r))) ->
  exists l, new_data_list s v = Ok l /\ nr_req_id <$> l = (fun r => request_id (obj s r)) <$> v_new v.
Proof.
  intros Hb. unfold new_data_list.
  rewrite (mapM_ok_total _ (fun r => new_request_data (obj s r) (default [] (v_new_blocks v !! request_id (obj s r))))).
  - eexists. split; [done|]. by rewrite <-list_fmap_compose.
  - intros r Hr. by destruct (Hb r Hr) as [b ->].
Qed.

Lemma cached_data_list_ok s v resumed rs :
  (forall r, r ∈ rs -> is_Some (v_scheduled v !! request_id (obj s r)) /\
                       is_Some (v_new_blocks v !! request_id (obj s r))) ->
  exists c l, cached_data_list s v resumed rs = Ok (set_cached_data c s, l).
Proof.
  unfold cached_data_list. match goal with |- context [foldM ?f _ _] => set (F := f) end.
  generalize (@nil CachedRequestData) as ds. revert s.
  induction rs as [|r rs IH]; intros s ds Hb; cbn [foldM].
  { exists (cached_reqs_data s), ds. by destruct s. }
  destruct (Hb r ltac:(by left)) as [[n En] [b Eb]]. unfold F at 2. cbn [fst snd]. rewrite En, Eb. cbn.
  destruct (make_cached_request_data s (obj s r) n _ b resumed) as [s1 d] eqn:Em.
  assert (exists c, s1 = set_cached_data c s) as [c1 ->].
  { unfold make_cached_request_data in Em. destruct (cached_reqs_data s !! _) as [[|d' ds']|]; injection Em as <- _;
      [exists (cached_reqs_data s); by destruct s|by eexists|exists (cached_reqs_data s); by destruct s]. }
  destruct (IH (set_cached_data c1 s) (ds ++ [d])) as (c & l & Hl).
  { intros x Hx. apply Hb. by right. }
  exists c, l. exact Hl.
Qed.

Lemma advanced_0 q : advanced 0 q = q.
Proof. destruct q. unfold advanced, set_num_computed_tokens. cbn. by rewrite Z.add_0_r. Qed.

Lemma advance_ok s l :
  NoDup l.*1 -> (forall id, id ∈ l.*1 -> is_Some (requests s !! id)) ->
  (forall id r, requests s !! id = Some r -> request_id (obj s r) = id) ->
  exists h, advance s l = Ok (set_heap h s) /\
    forall r id, requests s !! id = Some r ->
      obj (set_heap h s) r = advanced (default 0%Z ((list_to_map l : gmap string Z) !! id)) (obj s r).
Proof.
  revert s. induction l as [|[id n] l IH]; intros s Hnd Hin Hid; cbn [advance foldM].
  { exists (heap s). assert (Hs : set_heap (heap s) s = s) by (by destruct s). rewrite Hs. split; [done|].
    intros r id _. change (list_to_map [] : gmap string Z) with (∅ : gmap string Z).
    rewrite lookup_empty. cbn. by rewrite advanced_0. }
  cbn in Hnd. apply NoDup_cons in Hnd as [Hni Hnd].
  destruct (Hin id ltac:(by left)) as [r0 Hr0]. rewrite Hr0. cbn [of_option mbind result_bind].
  fold (advanced n). set (s1 := update r0 _ s).
  assert (Hobj : forall x, obj s1 x = if decide (x = r0) then advanced n (obj s r0) else obj s x)
    by (intros x; apply obj_update).
  destruct (IH s1) as (h & Ha & Hh); [done| | |].
  - intros id' Hid'. apply Hin. by right.
  - intros id' r Hr. rewrite Hobj. case_decide; [subst r; cbn; by apply Hid|by apply Hid].
  - exists h. split; [exact Ha|]. intros r id' Hr.
    change (obj (set_heap h s) r) with (obj (set_heap h s1) r). rewrite (Hh r id' Hr), Hobj.
    case_decide as Hrr.
    + subst r. assert (id' = id) as -> by (rewrite <-(Hid _ _ Hr); by apply Hid).
      cbn. rewrite lookup_insert_eq. rewrite (proj1 (not_elem_of_list_to_map l id) Hni). cbn. by rewrite advanced_0.
    + cbn. rewrite lookup_insert_ne; [done|]. intros ->. congruence.
Qed.

Context (bcm : connector_state -> SchedulerOutput -> connector_state * connector_meta).

Record finish_result (s s' : Scheduler) (v : vars) (out : SchedulerOutput) : Prop := {
  fs_conf : conf s' = conf s;
  fs_queues : waiting s' = waiting s /\ running s' = running s;
  fs_requests : requests s' = requests s;
  fs_obj : forall r, r ∈ live s0 ->
    obj s' r = advanced (default 0%Z (v_scheduled v !! request_id (obj s0 r))) (obj s r);
  fs_tokens : num_scheduled_tokens out = v_scheduled v /\ total_num_scheduled_tokens out = scheduled_total v;
  fs_finished : out_finished_req_ids out = finished_req_ids s /\ finished_req_ids s' = ∅;
  fs_spec : scheduled_spec_decode_tokens out = v_spec v;
  fs_kv : touched (kv_cache_manager s) (kv_cache_manager s');
  fs_enc : encoder_cache_manager s' = (get_freed_ids (encoder_cache_manager s)).1;
}.

Lemma finish_schedule_ok s v :
  loop_inv s0 s v -> length (running s) <= max_num_running_reqs (conf s0) ->
  exists s' out meta, finish_schedule bcm s v = Ok (s', (out, meta)) /\ finish_result s s' v out.
Proof using H0 EnvLaws0.
  intros Hi Hlim. unfold finish_schedule. rewrite (check_constraints_ok s v Hi Hlim). cbn [mbind result_bind].
  destruct (common_blocks_ok s v Hi) as (kv & nc & -> & Htou). cbn [mbind result_bind].
  set (s1 := set_kv kv s).
  assert (Hent : forall r, r ∈ scheduled_of v -> is_Some (v_scheduled v !! request_id (obj s1 r)) /\
    is_Some (v_new_blocks v !! request_id (obj s1 r))) by (intros r Hr; exact (scheduled_entries s v r Hi Hr)).
  unfold scheduled_of in Hent.
  destruct (new_data_list_ok s1 v) as (nl & -> & _); [intros r Hr; apply Hent; set_solver|]. cbn [mbind result_bind].
  destruct (cached_data_list_ok s1 v true (v_resumed v)) as (c1 & l1 & ->); [intros r Hr; apply Hent; set_solver|].
  cbn [mbind result_bind].
  destruct (cached_data_list_ok (set_cached_data c1 s1) v false (v_running v)) as (c2 & l2 & ->);
    [intros r Hr; apply Hent; set_solver|]. cbn [mbind result_bind].
  destruct (get_freed_ids _) as [enc freed] eqn:Hfreed. set (s2 := set_connector _ _).
  assert (Hobj : forall r, obj s2 r = obj s r) by done.
  assert (Hreq : requests s2 = requests s0) by (apply (fr_requests _ _ (lv_frame _ _ _ Hi))).
  destruct (advance_ok s2 (map_to_list (v_scheduled v))) as (h & -> & Hh).
  - apply NoDup_fst_map_to_list.
  - intros id Hid. apply list_elem_of_fmap in Hid as ([id' n] & -> & Hid). apply elem_of_map_to_list in Hid.
    destruct (proj1 (lv_dom _ _ _ Hi id') ltac:(by eexists)) as (r & Hr & Hrid). rewrite Hreq. exists r.
    apply (so_requests _ H0). split; [|done]. by apply (lv_running _ _ _ Hi), (lv_sched _ _ _ Hi).
  - intros id r Hr. rewrite Hreq in Hr. apply (so_requests _ H0) in Hr as [_ Hr]. rewrite Hobj.
    by rewrite (ss_id _ _ (fr_static _ _ (lv_frame _ _ _ Hi) r)).
  - cbn [mbind result_bind]. do 3 eexists. split; [done|]. split; try done.
    + intros r Hr. rewrite <-Hobj, <-(list_to_map_to_list (v_scheduled v)).
      apply (Hh r). rewrite Hreq. by apply (so_requests _ H0).
    + change (enc = (get_freed_ids (encoder_cache_manager s)).1).
      change (get_freed_ids (encoder_cache_manager s) = (enc, freed)) in Hfreed. by rewrite Hfreed.
Qed.

(** A whole step. *)
Record step_result (s' : Scheduler) (out : SchedulerOutput) : Prop := {
  sr_ok : sched_ok s';
  sr_queues : queues_after s';
  sr_total : (total_num_scheduled_tokens out <= max_num_scheduled_tokens (conf s0))%Z /\
    total_num_scheduled_tokens out = map_fold (fun _ n acc => (n + acc)%Z) 0%Z (num_scheduled_tokens out);
  sr_scheduled : forall id n, num_scheduled_tokens out !! id = Some n ->
    (1 <= n)%Z /\ exists r, r ∈ running s' /\ request_id (obj s' r) = id /\
      (num_computed_tokens (obj s' r) <= num_tokens_with_spec (obj s' r))%Z;
  sr_progress : forall r, r ∈ running s0 -> r ∈ running s' ->
    num_computed_tokens (obj s' r) =
      (num_computed_tokens (obj s0 r) + default 0 (num_scheduled_tokens out !! request_id (obj s0 r)))%Z;
  sr_finished : out_finished_req_ids out = finished_req_ids s0 /\ finished_req_ids s' = ∅;
  sr_drafts : forall r, r ∈ running s' -> is_Some (num_scheduled_tokens out !! request_id (obj s' r)) ->
    drafts_fit (default [] (scheduled_spec_decode_tokens out !! request_id (obj s' r))) 0 (obj s' r);
  sr_conf : conf s' = conf s0;
  sr_requests : requests s' = requests s0;
}.

Lemma queues_perm s : queues_after s -> live s ≡ₚ live s0.
Proof using H0.
  unfold live. intros [(k & Hk & Hr & Hw)|(adm & Hs & Hr & Hw)]; rewrite Hr, Hw.
  - rewrite <-(take_drop k (running s0)) at 3. solve_Permutation.
  - pose proof (so_nodup _ H0) as Hnd. apply NoDup_app in Hnd as (Hnd & _ & _).
    assert (Hp : waiting s0 ≡ₚ adm ++ without adm (waiting s0)).
    { clear -Hs Hnd. induction Hs as [|x l1 l2 Hs IH|x l1 l2 Hs IH].
      - by rewrite without_nil.
      - apply NoDup_cons in Hnd as [Hx Hnd]. rewrite without_take by done. cbn. constructor. by apply IH.
      - apply NoDup_cons in Hnd as [Hx Hnd]. rewrite without_keep by done. etransitivity; [|apply Permutation_middle]. constructor. by apply IH. }
    rewrite Hp at 2. solve_Permutation.
Qed.

Lemma step_result_ok s v s' out :
  loop_inv s0 s v -> queues_after s -> length (running s) <= max_num_running_reqs (conf s0) ->
  finish_result s s' v out -> step_result s' out.
Proof using H0.
  intros Hi Hq Hlim [F1 [F2 F3] F4 F5 [F6 F7] [F8 F9] F10 _ _].
  pose proof Hi as [L1 L2 L3 L4 L5 L6 L7 L8 L9 L10 L11 L12 L13 L14 L15].
  assert (Hq' : queues_after s').
  { unfold queues_after. rewrite F2, F3. exact Hq. }
  pose proof (queues_perm s' Hq') as Hperm.
  assert (Hid : forall r, request_id (obj s r) = request_id (obj s0 r)) by (intros r; apply (fr_static _ _ L1)).
  assert (Hlive : forall r, r ∈ live s' <-> r ∈ live s0) by (intros r; by rewrite Hperm).
  assert (Hrl : forall r, r ∈ running s -> r ∈ live s0) by (intros r Hr; by apply L11).
  assert (Hids : forall r, r ∈ live s0 -> request_id (obj s' r) = request_id (obj s0 r)).
  { intros r Hr. rewrite F5 by done. apply Hid. }
  assert (Hconf : conf s' = conf s0) by (rewrite F1; apply (fr_conf _ _ L1)).
  assert (Hrange : forall r, r ∈ live s0 -> in_range (conf s0) (obj s' r)).
  { intros r Hr. rewrite F5 by done. destruct (v_scheduled v !! _) as [n|] eqn:En; cbn.
    - destruct (proj1 (L6 (request_id (obj s0 r))) ltac:(by eexists)) as (x & Hx & Hxr).
      assert (x = r) as -> by (apply (live_id_inj s0); [done|by apply Hrl, L5|done|done]). by apply L9.
    - rewrite advanced_0. by apply L10. }
  split.
  - split.
    + rewrite Hperm. apply (so_nodup _ H0).
    + intros id r. rewrite F4, (fr_requests _ _ L1), (so_requests _ H0), Hlive.
      split; intros [Hr Hrid]; (split; [done|]); [by rewrite Hids|by rewrite <-Hids].
    + intros r. rewrite F3. intros Hr. rewrite F5 by by apply Hrl. by apply L11.
    + intros r Hr. assert (Hr' : r ∈ live s0) by (apply Hlive, elem_of_app; by left).
      rewrite F5 by done. apply L12; [done|]. rewrite <-F3. intros Hr2.
      assert (Hnd : NoDup (live s')) by (rewrite Hperm; apply (so_nodup _ H0)).
      apply NoDup_app in Hnd as (_ & Hnd & _). by apply (Hnd r).
    + by rewrite F3, Hconf.
    + intros r Hr. rewrite Hconf. by apply Hrange, Hlive.
  - done.
  - rewrite F7, F6. split; [lia|done].
  - intros id n. rewrite F6. intros Hn. split; [by eapply L8|].
    destruct (proj1 (L6 id) ltac:(by eexists)) as (r & Hr & Hrid). exists r. apply L5 in Hr.
    rewrite F3. split; [done|]. split; [rewrite Hids by (by apply Hrl); done|].
    destruct (Hrange r ltac:(by apply Hrl)) as ((_ & H) & _ & _). done.
  - intros r Hr0 Hr. rewrite F3 in Hr. rewrite F5 by (by apply Hrl). rewrite F6. cbn. by rewrite L13.
  - rewrite F8, F9. split; [apply (fr_finished _ _ L1)|done].
  - intros r Hr. rewrite F3 in Hr. pose proof (Hrl r Hr) as Hl. rewrite (Hids r Hl), F6, F10. intros [n Hn].
    destruct (proj1 (L6 (request_id (obj s0 r))) ltac:(by eexists)) as (x & Hx & Hxr).
    assert (x = r) as -> by (apply (live_id_inj s0); [done|by apply Hrl, L5|done|done]).
    destruct (L14 r n Hx Hn) as [D1 D2]. rewrite F5, Hn by done. unfold drafts_fit, num_tokens in *. cbn.
    split; [lia|]. intros Hd. specialize (D2 Hd). lia.
  - done.
  - rewrite F4. apply (fr_requests _ _ L1).
Qed.

Lemma schedule_ok now ready :
  (0 <= max_num_scheduled_tokens (conf s0))%Z ->
  exists res, schedule bcm now ready s0 = Some res /\
    forall s' out meta, res = Ok (s', (out, meta)) -> step_result s' out.
Proof using H0 EnvLaws0.
  intros Hm. unfold schedule.
  destruct (running_loop_ok now (length (running s0)) s0 (vars_init (conf s0)) (length (running s0))
    (vars_init_inv Hm) run_queues_init) as (res & -> & Hres); [cbn; lia|].
  destruct res as [[s v]|e]; [|by eexists]. eexists. split; [done|]. intros s' out meta H.
  destruct (Hres s v eq_refl) as (k & Hi & Hq).
  apply bind_ok in H as ([s1 v1] & Hw & H).
  destruct (schedule_waiting_ok now ready s v k s1 v1 Hi Hq Hw) as (Hi1 & Hq1 & Hlim).
  destruct (finish_schedule_ok s1 v1 Hi1 Hlim) as (s2 & out' & meta' & Hf & Hfr).
  rewrite Hf in H. injection H as <- <- <-. by apply (step_result_ok s1 v1).
Qed.

End Step.
End Objects.
