(* ===== verification/SchedulerLifecycle.v ===== *)
(** * The life of a request in the scheduler

    Adding requests, finishing them, and the model runner's output; the
    invariant of the scheduler over every sequence of these calls, and the
    properties of a step. *)

From S2P Require Import Prelude PrefixMetrics FreeBlockQueue Request BlockHash BlockPool.
From S2P Require Import SpecializedManager KVCacheConfig KVCacheManager KVCacheLink EncoderCache.
From S2P Require Import Scheduler SchedulerSpec.

Section Lifecycle.
Context `{E : Env} `{!EnvLaws E}.

(** ** Adding a request *)

Lemma add_request_ok now s r q :
  sched_ok s -> r ∉ live s -> requests s !! request_id q = None -> waiting_status q -> in_range (conf s) q ->
  let s' := add_request now s r q in
  sched_ok s' /\ waiting s' = waiting s ++ [r] /\ running s' = running s /\ conf s' = conf s /\
  (forall x, x <> r -> obj s' x = obj s x) /\ same_static q (obj s' r) /\
  kv_cache_manager s' = kv_cache_manager s /\ encoder_cache_manager s' = encoder_cache_manager s.
Proof.
  intros H Hr Hid Hst Hrange. cbn zeta. set (s' := add_request now s r q).
  assert (Hobj : forall x, x <> r -> obj s' x = obj s x).
  { intros x Hx. unfold s', add_request. destruct (sched_log_stats _).
    - rewrite obj_update_ne by done. by apply lookup_total_insert_ne.
    - by apply lookup_total_insert_ne. }
  assert (Hq : same_static q (obj s' r) /\ status (obj s' r) = status q /\
    num_computed_tokens (obj s' r) = num_computed_tokens q /\ spec_token_ids (obj s' r) = spec_token_ids q).
  { unfold s', add_request. destruct (sched_log_stats _).
    - rewrite obj_update_eq. unfold obj. cbn. rewrite lookup_total_insert_eq. done.
    - unfold obj. cbn. rewrite lookup_total_insert_eq. done. }
  assert (Hf : waiting s' = waiting s ++ [r] /\ running s' = running s /\ conf s' = conf s /\
    requests s' = <[request_id q := r]> (requests s) /\ kv_cache_manager s' = kv_cache_manager s /\
    encoder_cache_manager s' = encoder_cache_manager s).
  { unfold s', add_request. by destruct (sched_log_stats _). }
  clearbody s'. destruct Hq as (Q1 & Q2 & Q3 & Q4), Hf as (F1 & F2 & F3 & F4 & F5 & F6).
  assert (Hlive : live s' ≡ₚ r :: live s).
  { unfold live. rewrite F1, F2, <-app_assoc. symmetry. apply Permutation_middle. }
  assert (Hne : forall x, x ∈ live s -> x <> r) by (by intros x Hx ->).
  split; [|done]. destruct H as [S1 S2 S3 S4 S5 S6]. split.
  - rewrite Hlive. by constructor.
  - intros id x. rewrite F4, Hlive, elem_of_cons. destruct (decide (id = request_id q)) as [->|Hidne].
    + rewrite lookup_insert_eq. split; [intros [= <-]; split; [by left|by apply Q1]|].
      intros [[->|Hx] Hxid]; [done|]. exfalso. rewrite Hobj in Hxid by by apply Hne.
      assert (requests s !! request_id q = Some x) by (by apply S2). congruence.
    + rewrite lookup_insert_ne by done. rewrite S2. split.
      * intros [Hx Hxid]. split; [by right|]. by rewrite Hobj by by apply Hne.
      * intros [[->|Hx] Hxid]; [by rewrite (ss_id _ _ Q1) in Hxid|]. rewrite Hobj in Hxid by by apply Hne. done.
  - intros x. rewrite F2. intros Hx. rewrite Hobj; [by apply S3|]. apply Hne, elem_of_app. by right.
  - intros x. rewrite F1. intros [Hx|Hx]%elem_of_app.
    + rewrite Hobj; [by apply S4|]. apply Hne, elem_of_app. by left.
    + apply list_elem_of_singleton in Hx as ->. unfold waiting_status in *. by rewrite Q2.
  - by rewrite F2, F3.
  - intros x. rewrite Hlive, F3. intros [->|Hx]%elem_of_cons.
    + by apply (in_range_static _ q).
    + rewrite Hobj by by apply Hne. by apply S6.
Qed.

(** ** Freeing a request *)

Context (len : string -> nat -> Z).

(** The two cache managers are sound and know the inputs of the live requests. *)
Record managers_ok (s : Scheduler) : Prop := {
  mo_kv : exists l, kv_ok (kv_cache_manager s) l;
  mo_enc : enc_ok len (encoder_cache_manager s);
  mo_known : forall r, r ∈ live s -> known len (obj s r) /\
    forall i, has_cache (encoder_cache_manager s) (obj s r) i = true -> i < length (mm_positions (obj s r));
}.

Record freed_result (s s' : Scheduler) (id : string) : Prop := {
  fd_conf : conf s' = conf s;
  fd_heap : heap s' = heap s;
  fd_queues : waiting s' = waiting s /\ running s' = running s;
  fd_requests : requests s' = delete id (requests s);
  fd_finished : finished_req_ids s' = finished_req_ids s ∪ {[id]};
  fd_data : cached_reqs_data s' = delete id (cached_reqs_data s);
  fd_kv : (exists l, kv_ok (kv_cache_manager s') l) /\ blocks_of (kv_cache_manager s') id = [];
  fd_enc : enc_ok len (encoder_cache_manager s') /\
    cached (encoder_cache_manager s') = delete id (cached (encoder_cache_manager s));
  fd_log : log_stats (kv_cache_manager s') = log_stats (kv_cache_manager s) /\
    prefix_cache_stats (kv_cache_manager s') = prefix_cache_stats (kv_cache_manager s);
  fd_frame : kv_frame (kv_cache_manager s) (kv_cache_manager s') id;
  fd_hashes : hashes_of (kv_cache_manager s') id = [];
}.

(** A request id that has nothing in the caches. *)
Definition idle (s : Scheduler) (id : string) : Prop :=
  blocks_of (kv_cache_manager s) id = [] /\ hashes_of (kv_cache_manager s) id = [] /\
  cached (encoder_cache_manager s) !! id = None.

(** The request [r] left the scheduler and the caches. *)
Record gone (s s' : Scheduler) (r : nat) (id : string) : Prop := {
  gn_conf : conf s' = conf s;
  gn_requests : requests s' = delete id (requests s);
  gn_obj : forall x, x <> r -> obj s' x = obj s x;
  gn_kv : exists l, kv_ok (kv_cache_manager s') l;
  gn_enc : enc_ok len (encoder_cache_manager s');
  gn_frame : kv_frame (kv_cache_manager s) (kv_cache_manager s') id;
  gn_cached : delete id (cached (encoder_cache_manager s')) = delete id (cached (encoder_cache_manager s));
  gn_idle : idle s' id;
}.

Lemma free_request_ok s r :
  is_finished (obj s r) = true -> is_Some (requests s !! request_id (obj s r)) ->
  (exists l, kv_ok (kv_cache_manager s) l) -> enc_ok len (encoder_cache_manager s) -> known len (obj s r) ->
  (forall i, has_cache (encoder_cache_manager s) (obj s r) i = true -> i < length (mm_positions (obj s r))) ->
  exists s', free_request s r = Ok s' /\ freed_result s s' (request_id (obj s r)).
Proof using EnvLaws0.
  intros Hfin [r' Hr'] [l Hkv] Henc Hk Hpos. unfold free_request. rewrite Hfin. cbn [py_assert mbind result_bind].
  destruct (KVCacheManager.free_ok _ l (obj s r) Hkv) as (kv & Hfree & Hkv' & Hb & _).
  rewrite Hfree. cbn [mbind result_bind].
  destruct (EncoderCache.enc_free_ok len set_order set_order_perm _ (obj s r) Henc Hk Hpos) as (enc & -> & Henc' & Hc & _).
  cbn [mbind result_bind]. rewrite Hr'. cbn [of_option mbind result_bind]. eexists. split; [done|].
  assert (Hst : log_stats kv = log_stats (kv_cache_manager s) /\
    prefix_cache_stats kv = prefix_cache_stats (kv_cache_manager s)).
  { unfold KVCacheManager.free in Hfree. apply bind_ok in Hfree as (p & _ & Hfree). by injection Hfree as <-. }
  destruct (free_frame _ _ _ Hfree) as ([F1 F2 F3 F4] & _ & _ & _). split; try done.
  - cbn. split; [|done]. eexists. eapply (kv_ok_hashes kv _ _ (request_id (obj s r))); try done.
    intros id' Hne. unfold hashes_of. cbn. by rewrite lookup_delete_ne.
  - split; [by destruct F1|exact F2| |exact F4]. intros id' Hne. cbn. rewrite <-F3 by done. unfold hashes_of. cbn. by rewrite lookup_delete_ne.
  - unfold hashes_of. cbn. by rewrite lookup_delete_eq.
Qed.

(** ** Finishing requests from outside *)

Lemma list_remove_first_ok r l :
  NoDup l -> r ∈ l -> list_remove_first r l = Ok (filter (fun x => x <> r) l).
Proof.
  induction 1 as [|x l Hx Hnd IH]; intros Hr; [by apply elem_of_nil in Hr|]. cbn [list_remove_first].
  destruct (Nat.eqb_spec x r) as [->|Hne].
  - rewrite filter_cons_False by (by intros []). f_equal. symmetry. apply list_filter_all. by intros y Hy ->.
  - apply elem_of_cons in Hr as [->|Hr]; [done|]. rewrite IH by done. cbn [mbind result_bind].
    by rewrite filter_cons_True.
Qed.

Lemma filter_notin r (l : list nat) : r ∉ l -> filter (fun x => x <> r) l = l.
Proof. intros H. apply list_filter_all. by intros x Hx ->. Qed.

Lemma sched_ok_remove s s' r id :
  sched_ok s -> requests s !! id = Some r -> conf s' = conf s ->
  waiting s' = filter (fun x => x <> r) (waiting s) -> running s' = filter (fun x => x <> r) (running s) ->
  requests s' = delete id (requests s) -> (forall x, x <> r -> obj s' x = obj s x) ->
  sched_ok s' /\ (forall x, x ∈ live s' <-> x ∈ live s /\ x <> r).
Proof.
  intros H Hr Hc Hw Hrun Hreq Hobj. pose proof H as [S1 S2 S3 S4 S5 S6].
  assert (Hl : live s' = filter (fun x => x <> r) (live s)) by (unfold live; by rewrite Hw, Hrun, filter_app).
  assert (Hin : forall x, x ∈ live s' <-> x ∈ live s /\ x <> r).
  { intros x. rewrite Hl, list_elem_of_filter. tauto. }
  split; [|done]. split.
  - rewrite Hl. by apply NoDup_filter.
  - intros id' x. rewrite Hreq, Hin. rewrite lookup_delete_Some, S2. split.
    + intros (Hne & Hx & Hid). assert (x <> r) by (intros ->; apply S2 in Hr as [_ Hr]; congruence).
      by rewrite Hobj.
    + intros [[Hx Hxr] Hid]. rewrite Hobj in Hid by done. split; [|done]. intros ->.
      apply Hxr. apply S2 in Hr as [Hr1 Hr2]. apply (live_id_inj s); [done|done|done|congruence].
  - intros x. rewrite Hrun, list_elem_of_filter. intros [Hx1 Hx2]. rewrite Hobj by done. by apply S3.
  - intros x. rewrite Hw, list_elem_of_filter. intros [Hx1 Hx2]. rewrite Hobj by done. by apply S4.
  - rewrite Hrun, Hc. etransitivity; [apply length_filter|done].
  - intros x. rewrite Hin. intros [Hx1 Hx2]. rewrite Hobj, Hc by done. by apply S6.
Qed.

(** The requests of a queue whose id is not [id]. *)
Definition other_ids (s : Scheduler) (id : string) (l : list nat) : list nat :=
  filter (fun r => request_id (obj s r) <> id) l.

Record removed_result (s s' : Scheduler) (id : string) : Prop := {
  fn_ok : sched_ok s';
  fn_managers : managers_ok s';
  fn_running : running s' = other_ids s id (running s);
  fn_waiting : waiting s' = other_ids s id (waiting s);
  fn_requests : requests s' = delete id (requests s);
  fn_finished : finished_req_ids s' =
    if bool_decide (is_Some (requests s !! id)) then finished_req_ids s ∪ {[id]} else finished_req_ids s;
  fn_ids : forall r, request_id (obj s' r) = request_id (obj s r);
  fn_gone : match requests s !! id with Some r => gone s s' r id | None => s' = s end;
}.

Lemma other_ids_eq s id r l :
  sched_ok s -> requests s !! id = Some r -> (forall x, x ∈ l -> x ∈ live s) ->
  filter (fun x => x <> r) l = other_ids s id l.
Proof.
  intros H Hr Hl. apply list_filter_iff'. intros x Hx. apply (so_requests _ H) in Hr as [Hr1 Hr2].
  split; intros Hne Heq; apply Hne; [|by subst x].
  apply (live_id_inj s); [done|by apply Hl|done|congruence].
Qed.

Lemma managers_ok_remove s s' r id :
  sched_ok s -> requests s !! id = Some r -> managers_ok s ->
  (exists l, kv_ok (kv_cache_manager s') l) -> enc_ok len (encoder_cache_manager s') ->
  cached (encoder_cache_manager s') = delete id (cached (encoder_cache_manager s)) ->
  (forall x, x ∈ live s' <-> x ∈ live s /\ x <> r) -> (forall x, x <> r -> obj s' x = obj s x) ->
  managers_ok s'.
Proof.
  intros H Hr [M1 M2 M3] Hkv Henc Hc Hlive Hobj. split; [done|done|]. intros x Hx. apply Hlive in Hx as [Hx Hne].
  rewrite Hobj by done. destruct (M3 x Hx) as [Hk Hpos]. split; [done|]. intros i Hi. apply Hpos.
  unfold has_cache in *. rewrite Hc, lookup_delete_ne in Hi; [done|].
  intros Heq. apply Hne. apply (so_requests _ H) in Hr as [Hr1 Hr2].
  apply (live_id_inj s); [done|done|done|congruence].
Qed.

Lemma finish_one_ok st s id :
  status_is_finished st = true -> sched_ok s -> managers_ok s ->
  exists s', finish_one st s id = Ok s' /\ removed_result s s' id.
Proof using EnvLaws0.
  intros Hst H Hm. unfold finish_one. destruct (requests s !! id) as [r|] eqn:Hr.
  2: { exists s. split; [done|].
    assert (Hno : forall l, (forall x, x ∈ l -> x ∈ live s) -> l = other_ids s id l).
    { intros l Hl. symmetry. apply list_filter_all. intros x Hx Hid.
      assert (requests s !! id = Some x); [|congruence]. apply (so_requests _ H). split; [by apply Hl|done]. }
    split; try done.
    - apply Hno. intros x Hx. apply elem_of_app. by right.
    - apply Hno. intros x Hx. apply elem_of_app. by left.
    - by rewrite delete_id.
    - rewrite bool_decide_false; [done|]. rewrite Hr. by intros [].
    - by rewrite Hr. }
  pose proof (proj1 (so_requests _ H id r) Hr) as [Hl Hid].
  pose proof (so_nodup _ H) as Hnd. apply NoDup_app in Hnd as (Hnw & Hdisj & Hnr).
  set (s1 := if bool_decide _ then _ else _).
  assert (Hs1 : exists s2, s1 = Ok s2 /\ waiting s2 = filter (fun x => x <> r) (waiting s) /\
    running s2 = filter (fun x => x <> r) (running s) /\ heap s2 = heap s /\ conf s2 = conf s /\
    requests s2 = requests s /\ finished_req_ids s2 = finished_req_ids s /\
    kv_cache_manager s2 = kv_cache_manager s /\ encoder_cache_manager s2 = encoder_cache_manager s).
  { subst s1. apply elem_of_app in Hl as [Hl|Hl].
    - rewrite bool_decide_false.
      + rewrite list_remove_first_ok by done. cbn [mbind result_bind]. eexists. split; [done|].
        split_and!; try done. cbn. rewrite filter_notin; [done|]. by apply Hdisj.
      + intros Hrun. pose proof (so_waiting _ H r Hl) as Hw. rewrite Hrun in Hw. clear -Hw. set_solver.
    - rewrite bool_decide_true by by apply (so_running _ H).
      rewrite list_remove_first_ok by done. cbn [mbind result_bind]. eexists. split; [done|].
      split_and!; try done. cbn. rewrite filter_notin; [done|]. intros Hl'. by apply (Hdisj r). }
  clearbody s1. destruct Hs1 as (s2 & -> & W & R & Hh & Hc & Hq & Hf & Hkv & Henc). cbn [mbind result_bind].
  set (s3 := update r (set_status st) s2).
  assert (Hobj2 : forall x, obj s2 x = obj s x) by (intros x; unfold obj; by rewrite Hh).
  assert (Hobj : forall x, obj s3 x = if decide (x = r) then set_status st (obj s r) else obj s x).
  { intros x. unfold s3. by rewrite obj_update, !Hobj2. }
  assert (Hobjr : obj s3 r = set_status st (obj s r)) by (rewrite Hobj; by rewrite decide_True).
  pose proof (mo_known _ Hm r Hl) as [Hk Hpos].
  destruct (free_request_ok s3 r) as (s' & Hfree & [D1 D2 [D3 D4] D5 D6 D7 [D8 Db] [D9 D10] _ Df Dh]).
  { by rewrite Hobjr. }
  { rewrite Hobjr. cbn. rewrite Hid, Hq, Hr. by eexists. }
  { cbn. rewrite Hkv. apply Hm. }
  { cbn. rewrite Henc. apply Hm. }
  { rewrite Hobjr. exact Hk. }
  { rewrite Hobjr. cbn. rewrite Henc. exact Hpos. }
  assert (Hobj' : forall x, obj s' x = obj s3 x) by (intros x; unfold obj; by rewrite D2).
  rewrite Hobjr in *. cbn in D1, D3, D4, D5, D6, D10. rewrite Hid, ?Henc, ?Hq, ?Hf, ?W, ?R, ?Hc in *.
  assert (Hne : forall x, x <> r -> obj s' x = obj s x) by (intros x Hx; rewrite Hobj', Hobj; by rewrite decide_False).
  destruct (sched_ok_remove s s' r id) as [Hok Hlive]; try done.
  exists s'. split; [exact Hfree|]. split; try done.
  - by apply (managers_ok_remove s s' r id).
  - rewrite D4. apply (other_ids_eq s id r); [done|done|]. intros x Hx. apply elem_of_app. by right.
  - rewrite D3. apply (other_ids_eq s id r); [done|done|]. intros x Hx. apply elem_of_app. by left.
  - rewrite D6, bool_decide_true; [done|]. rewrite Hr. by eexists.
  - intros x. rewrite Hobj', Hobj. case_decide; [by subst x|done].
  - rewrite Hr. cbn in Df, Dh, Db. rewrite Hid in Df, Dh, Db. split; try done.
    + by rewrite <-Hkv.
    + by rewrite D10, delete_delete_eq.
    + unfold idle. by rewrite D10, lookup_delete_eq.
Qed.

Lemma finish_requests_ok st s ids :
  status_is_finished st = true -> sched_ok s -> managers_ok s ->
  exists s', finish_requests s ids st = Ok s' /\ sched_ok s' /\ managers_ok s' /\
    running s' = filter (fun r => request_id (obj s r) ∉ ids) (running s) /\
    waiting s' = filter (fun r => request_id (obj s r) ∉ ids) (waiting s) /\
    (forall id, id ∈ finished_req_ids s' <->
       id ∈ finished_req_ids s \/ (id ∈ ids /\ is_Some (requests s !! id))) /\
    (forall id, requests s' !! id = if bool_decide (id ∈ ids) then None else requests s !! id).
Proof using EnvLaws0.
  intros Hst H Hm. unfold finish_requests. rewrite Hst. cbn [py_assert mbind result_bind].
  revert s H Hm. induction ids as [|id ids IH]; intros s H Hm; cbn [foldM].
  { exists s. split_and!; try done.
    - symmetry. apply list_filter_all. intros x _ Hx. by apply elem_of_nil in Hx.
    - symmetry. apply list_filter_all. intros x _ Hx. by apply elem_of_nil in Hx.
    - intros id. split; [by left|]. intros [|[Hid _]]; [done|by apply elem_of_nil in Hid]. }
  destruct (finish_one_ok st s id Hst H Hm) as (s1 & -> & [N1 N2 N3 N4 N5 N6 N7 _]). cbn [mbind result_bind].
  destruct (IH s1 N1 N2) as (s2 & -> & I1 & I2 & I3 & I4 & I5 & I6). exists s2.
  assert (Hf : forall l, filter (fun r => request_id (obj s1 r) ∉ ids) (other_ids s id l) =
    filter (fun r => request_id (obj s r) ∉ id :: ids) l).
  { intros l. unfold other_ids. rewrite list_filter_filter. apply list_filter_iff'. intros x _. rewrite N7.
    rewrite not_elem_of_cons. tauto. }
  split_and!; [done|done|done|by rewrite I3, N3|by rewrite I4, N4| |].
  - intros id'. rewrite I5, N6, N5. destruct (decide (id' = id)) as [->|Hne].
    + rewrite lookup_delete_eq. case_bool_decide as Hs; [set_solver|].
      split; [intros [|[_ [? ?]]]; [by left|done]|]. intros [|[_ ?]]; [by left|done].
    + rewrite lookup_delete_ne by done. rewrite elem_of_cons. case_bool_decide as Hs.
      * rewrite elem_of_union, elem_of_singleton. tauto.
      * tauto.
  - intros id'. rewrite I6, N5. destruct (decide (id' ∈ ids)) as [Hi|Hi].
    + rewrite !bool_decide_true; [done|by right|done].
    + rewrite bool_decide_false by done. destruct (decide (id' = id)) as [->|Hne].
      * rewrite lookup_delete_eq, bool_decide_true; [done|by left].
      * rewrite lookup_delete_ne by done. rewrite bool_decide_false; [done|]. by rewrite elem_of_cons; intros [|].
Qed.

End Lifecycle.
