(* ===== verification/SchedulerUpdate.v ===== *)
(** * The model runner's output in the scheduler

    [Scheduler.update_from_output]: the loop over the running requests keeps the
    invariants of [SchedulerSpec.v] and never raises when the runner's output
    answers what was scheduled ([answers]). *)

From S2P Require Import Prelude PrefixMetrics FreeBlockQueue Request BlockHash BlockPool.
From S2P Require Import SpecializedManager KVCacheConfig KVCacheManager KVCacheLink EncoderCache.
From S2P Require Import Scheduler SchedulerSpec SchedulerLifecycle.

(** ** [check_stop] and the generation loop, once more *)

Lemma check_stop_keeps r L r' b :
  check_stop r L = Ok (r', b) ->
  request_id r' = request_id r /\ mm_positions r' = mm_positions r /\ spec_token_ids r' = spec_token_ids r /\
  num_computed_tokens r' = num_computed_tokens r /\ sampling_params r' = sampling_params r.
Proof.
  unfold check_stop. destruct (_ || _); [by intros [= <- <-]|]. intros H.
  apply bind_ok in H as (t & _ & H).
  destruct (negb _ && _); [by injection H as <- <-|]. destruct (bool_decide _); by injection H as <- <-.
Qed.

Record generation (q q' : Request) (L : Z) (g kept : list Z) (stopped : bool) : Prop := {
  ge_prefix : kept `prefix_of` g;
  ge_nil : kept = [] <-> g = [];
  ge_static : request_id q' = request_id q /\ mm_positions q' = mm_positions q /\
    spec_token_ids q' = spec_token_ids q /\ num_computed_tokens q' = num_computed_tokens q;
  ge_stopped : if stopped then kept <> [] /\ is_finished q' = true /\ is_Some (get_finished_reason q')
    else kept = g /\ status q' = status q /\ num_tokens q' = (num_tokens q + Z.of_nat (length g))%Z /\
         (g <> [] -> num_tokens q' < L)%Z /\ same_static (append_output_token_ids g q) q';
}.

Lemma generation_ok q L g :
  exists q' kept stopped, append_until_stop q L g = Ok (q', kept, stopped) /\ generation q q' L g kept stopped.
Proof.
  destruct (append_until_stop_ok q L g) as (q' & kept & stopped & Hrun & Hp & Hall & Hend).
  exists q', kept, stopped. split; [done|].
  assert (Hnt : forall k, num_tokens (append_output_token_ids k q) = (num_tokens q + Z.of_nat (length k))%Z).
  { intros k. unfold num_tokens. cbn. rewrite length_app. lia. }
  destruct stopped.
  - destruct Hend as [Hne Hc]. pose proof (check_stop_keeps _ _ _ _ Hc) as (K1 & K2 & K3 & K4 & _).
    split; [done| |by split_and!|].
    + split; [done|]. intros ->. by apply prefix_nil_inv in Hp.
    + destruct (check_stop_cases (append_output_token_ids kept q) L) as (r1 & b & Hc' & _ & _ & _ & _ & Ht).
      { cbn. by intros [_ ?]%app_nil. }
      rewrite Hc in Hc'. injection Hc' as <- <-. destruct (Ht eq_refl) as (Hf & _ & _). split; [done|]. split; [done|].
      unfold get_finished_reason. by apply finished_reason_iff.
  - destruct Hend as [-> ->]. split; [done|done|done|]. split_and!; [done|done|apply Hnt| |done].
    intros Hne. pose proof (Hall g ltac:(done) Hne ltac:(done)) as Hc.
    destruct (check_stop_cases (append_output_token_ids g q) L) as (r1 & b & Hc' & _ & _ & _ & Hf & _).
    { cbn. by intros [_ ?]%app_nil. }
    rewrite Hc in Hc'. injection Hc' as <- <-. destruct (Hf eq_refl) as [_ Hcap].
    apply not_capped_prefix_bounds in Hcap. rewrite Hnt. lia.
Qed.

(** ** Statistics of the drafts *)

Lemma bump_first_ok n l : n <= length l -> exists l', bump_first n l = Ok l' /\ length l' = length l.
Proof.
  revert l. induction n as [|n IH]; intros l Hn; cbn; [by eexists|].
  destruct l as [|x l]; cbn in Hn; [lia|]. destruct (IH l) as (l' & -> & Hl); [lia|].
  eexists. split; [done|]. cbn. by rewrite Hl.
Qed.

Definition stats_fit (n : Z) (stats : option SpecDecodingStats) : Prop :=
  match stats with
  | Some st => num_spec_tokens st = n /\ length (num_accepted_tokens_per_pos st) = Z.to_nat n
  | None => True
  end.

Section Update.
Context `{E : Env} `{!EnvLaws E} (len : string -> nat -> Z).

Lemma take_drafts_ok s stats d g :
  stats_fit (spec_tokens (conf s)) stats -> length g <= length d + 1 -> (Z.of_nat (length d) <= spec_tokens (conf s))%Z ->
  exists stats', take_drafts s stats d g = Ok stats' /\ stats_fit (spec_tokens (conf s)) stats'.
Proof.
  intros Hst Hg Hd. unfold take_drafts. destruct d as [|t d]; [by exists stats|].
  unfold make_spec_decoding_stats. destruct (negb _); [by exists None|].
  set (st := default _ stats).
  assert (Hfit : num_spec_tokens st = spec_tokens (conf s) /\
    length (num_accepted_tokens_per_pos st) = Z.to_nat (spec_tokens (conf s))).
  { subst st. destruct stats as [st|]; [done|]. cbn. by rewrite length_replicate. }
  clearbody st. destruct Hfit as [F1 F2]. cbn [length] in *.
  unfold observe_draft. rewrite F1. rewrite (proj2 (Z.leb_le _ _)) by lia. cbn [py_assert mbind result_bind].
  destruct (bump_first_ok (Z.to_nat (Z.of_nat (length g) - 1)) (num_accepted_tokens_per_pos st)) as (l' & -> & Hl); [lia|].
  cbn. eexists. split; [done|]. cbn. split; [done|]. lia.
Qed.

(** ** Consumed encoder inputs *)

Lemma free_consumed_ok e q :
  enc_ok len e -> known len q -> (forall i, has_cache e q i = true -> i < length (mm_positions q)) ->
  exists e', free_consumed_inputs e q = Ok e' /\ enc_ok len e' /\
    (forall i, has_cache e' q i = true -> has_cache e q i = true) /\
    delete (request_id q) (cached e') = delete (request_id q) (cached e).
Proof using EnvLaws0.
  intros He Hk Hpos. unfold free_consumed_inputs.
  assert (Hl : NoDup (set_order (get_cached_input_ids e q)) /\
    forall i, i ∈ set_order (get_cached_input_ids e q) -> has_cache e q i = true).
  { rewrite set_order_perm. split; [apply NoDup_elements|]. intros i Hi. apply has_cache_iff.
    rewrite set_order_perm in Hi. by apply elem_of_elements in Hi. }
  revert Hl. generalize (set_order (get_cached_input_ids e q)) as l. intros l [Hnd Hc].
  revert e He Hpos Hc. induction Hnd as [|i l Hi Hnd IH]; intros e He Hpos Hc; cbn [foldM]; [by exists e|].
  pose proof (Hc i ltac:(by left)) as Hci. pose proof (Hpos i Hci) as Hlt.
  destruct (lookup_lt_is_Some_2 _ _ Hlt) as [p Hp]. rewrite Hp. cbn [of_option mbind result_bind].
  destruct (_ <=? _)%Z.
  - destruct (EncoderCache.free_encoder_input_ok len e q i He Hk Hlt Hci) as (e1 & -> & He1 & _ & _ & _ & Hg & Hd & _).
    cbn [mbind result_bind].
    assert (Hsub : forall j, has_cache e1 q j = true <-> has_cache e q j = true /\ j <> i).
    { intros j. rewrite !has_cache_iff, Hg. set_solver. }
    destruct (IH e1 He1) as (e2 & H1 & H2 & H3 & H4).
    + intros j Hj. apply Hpos. by apply Hsub.
    + intros j Hj. apply Hsub. split; [apply Hc; by right|]. by intros ->.
    + exists e2. split_and!; [done|done| |congruence]. intros j Hj. by apply Hsub, H3.
  - cbn [mbind result_bind]. destruct (IH e He Hpos) as (e2 & H1 & H2 & H3 & H4); [intros j Hj; apply Hc; by right|].
    by exists e2.
Qed.

(** ** One request *)

(** The tokens the runner generated for the request [id]. *)
Definition tokens_for (out : SchedulerOutput) (mro : ModelRunnerOutput) (id : string) : list Z :=
  if (default 0 (num_scheduled_tokens out !! id) =? 0)%Z then []
  else default [] (req_id_to_index mro !! id ≫= fun i => sampled_token_ids mro !! i).

(** The runner answers for a scheduled request: at most one token more than it
    has drafts, at least one if it has any, and the lists are long enough. *)
Definition answers (s : Scheduler) (out : SchedulerOutput) (mro : ModelRunnerOutput) (r : nat) : Prop :=
  let id := request_id (obj s r) in
  let d := default [] (scheduled_spec_decode_tokens out !! id) in
  default 0%Z (num_scheduled_tokens out !! id) <> 0%Z ->
  drafts_fit d 0 (obj s r) /\ (Z.of_nat (length d) <= spec_tokens (conf s))%Z /\
  exists i g, req_id_to_index mro !! id = Some i /\ sampled_token_ids mro !! i = Some g /\
    length g <= length d + 1 /\ (d <> [] -> g <> []) /\
    (forall l, out_spec_token_ids mro = Some l -> is_Some (l !! i)) /\
    (g = [] -> default None (prompt_logprobs_dict mro !! id) = None).

Lemma rejected_range q q' c d g :
  in_range c q -> drafts_fit d 0 q -> (d <> [] -> g <> []) -> length g <= length d + 1 ->
  num_computed_tokens q' = (num_computed_tokens q - rejected d g)%Z ->
  num_tokens q' = (num_tokens q + Z.of_nat (length g))%Z ->
  (g <> [] -> num_tokens q' < sched_max_model_len c)%Z -> in_range c q'.
Proof.
  intros ((H1 & H2) & H3 & H4) [D1 D2] Hg Hlen Hc Hn HL.
  assert (Hnt : (num_tokens q' <= sched_max_model_len c)%Z).
  { destruct g as [|x g]; [cbn in Hn; lia|]. specialize (HL ltac:(done)). lia. }
  assert (Hs : (num_tokens q' <= num_tokens_with_spec q')%Z) by (unfold num_tokens, num_tokens_with_spec; lia).
  unfold in_range. rewrite Hc. destruct d as [|t d]; cbn [rejected length] in *.
  - split_and!; lia.
  - specialize (D2 ltac:(done)). specialize (Hg ltac:(done)). destruct g as [|x g]; [done|].
    specialize (HL ltac:(done)). cbn [length] in *. unfold num_tokens in *.
    assert (0 <= Z.of_nat (length (all_token_ids q)))%Z by lia. split_and!; lia.
Qed.

Lemma sched_ok_change t t' r :
  sched_ok t -> r ∈ running t -> conf t' = conf t -> waiting t' = waiting t -> running t' = running t ->
  requests t' = requests t -> (forall x, x <> r -> obj t' x = obj t x) ->
  request_id (obj t' r) = request_id (obj t r) -> status (obj t' r) = RUNNING -> in_range (conf t) (obj t' r) ->
  sched_ok t'.
Proof.
  intros [S1 S2 S3 S4 S5 S6] Hr Hc Hw Hrun Hreq Hobj Hid Hst Hrange.
  assert (Hl : live t' = live t) by (unfold live; congruence).
  assert (Hids : forall x, request_id (obj t' x) = request_id (obj t x)).
  { intros x. destruct (decide (x = r)) as [->|Hne]; [done|]. by rewrite Hobj. }
  apply NoDup_app in S1 as Hnd. destruct Hnd as (_ & Hdisj & _). split; rewrite ?Hl, ?Hc, ?Hreq, ?Hw, ?Hrun; try done.
  - intros id x. by rewrite S2, Hids.
  - intros x Hx. destruct (decide (x = r)) as [->|Hne]; [done|]. rewrite Hobj by done. by apply S3.
  - intros x Hx. rewrite Hobj; [by apply S4|]. intros ->. by apply (Hdisj r).
  - intros x Hx. destruct (decide (x = r)) as [->|Hne]; [done|]. rewrite Hobj by done. by apply S6.
Qed.

Lemma has_cache_other e e' q id i :
  delete id (cached e') = delete id (cached e) -> request_id q <> id -> has_cache e' q i = has_cache e q i.
Proof.
  intros Hd Hne. unfold has_cache.
  assert (cached e' !! request_id q = cached e !! request_id q) as ->; [|done].
  rewrite <-(lookup_delete_ne (cached e') id), Hd by done. by rewrite lookup_delete_ne.
Qed.

Lemma managers_ok_change t t' r :
  sched_ok t -> managers_ok len t -> r ∈ live t -> live t' = live t ->
  (exists l, kv_ok (kv_cache_manager t') l) -> enc_ok len (encoder_cache_manager t') ->
  delete (request_id (obj t r)) (cached (encoder_cache_manager t')) =
    delete (request_id (obj t r)) (cached (encoder_cache_manager t)) ->
  (forall x, x <> r -> obj t' x = obj t x) ->
  request_id (obj t' r) = request_id (obj t r) -> mm_positions (obj t' r) = mm_positions (obj t r) ->
  (forall i, has_cache (encoder_cache_manager t') (obj t r) i = true ->
             has_cache (encoder_cache_manager t) (obj t r) i = true) ->
  managers_ok len t'.
Proof.
  intros H [M1 M2 M3] Hr Hl Hkv Henc Hd Hobj Hid Hmm Hsub. split; [done|done|]. intros x Hx. rewrite Hl in Hx.
  destruct (M3 x Hx) as [Hk Hpos]. destruct (decide (x = r)) as [->|Hne].
  - unfold known in *. rewrite Hid, Hmm. split; [done|]. intros i Hi. apply Hpos, Hsub.
    unfold has_cache in *. by rewrite Hid in Hi.
  - rewrite Hobj by done. split; [done|]. intros i Hi. apply Hpos. rewrite <-Hi. symmetry.
    eapply has_cache_other; [exact Hd|]. intros Heq. by apply Hne, (live_id_inj t).
Qed.

(** The request [r] got its tokens and runs on. *)
Record stayed (out : SchedulerOutput) (mro : ModelRunnerOutput) (s s' : Scheduler) (r : nat) : Prop := {
  sy_requests : requests s' = requests s;
  sy_kv : kv_cache_manager s' = kv_cache_manager s;
  sy_enc : enc_ok len (encoder_cache_manager s');
  sy_cached : delete (request_id (obj s r)) (cached (encoder_cache_manager s')) =
    delete (request_id (obj s r)) (cached (encoder_cache_manager s));
  sy_has : forall i, has_cache (encoder_cache_manager s') (obj s r) i = true ->
    has_cache (encoder_cache_manager s) (obj s r) i = true;
  sy_static : same_static (append_output_token_ids (tokens_for out mro (request_id (obj s r))) (obj s r)) (obj s' r);
  sy_computed : (default 0%Z (num_scheduled_tokens out !! request_id (obj s r)) <> 0%Z ->
      default [] (scheduled_spec_decode_tokens out !! request_id (obj s r)) = []) ->
    num_computed_tokens (obj s' r) = num_computed_tokens (obj s r);
  sy_spec : out_spec_token_ids mro = None -> spec_token_ids (obj s' r) = spec_token_ids (obj s r);
}.

Record updated (out : SchedulerOutput) (mro : ModelRunnerOutput) (s s' : Scheduler) (r : nat)
    (o : option EngineCoreOutput) (stays : bool) (nr rs : list nat) : Prop := {
  up_ok : sched_ok (set_running (nr ++ (if stays then [r] else []) ++ rs) s');
  up_managers : managers_ok len (set_running (nr ++ (if stays then [r] else []) ++ rs) s');
  up_frame : conf s' = conf s /\ waiting s' = waiting s;
  up_obj : forall x, x <> r -> obj s' x = obj s x;
  up_id : request_id (obj s' r) = request_id (obj s r);
  up_finished : finished_req_ids s' =
    if stays then finished_req_ids s else finished_req_ids s ∪ {[request_id (obj s r)]};
  up_requests : requests s' = if stays then requests s else delete (request_id (obj s r)) (requests s);
  up_log : log_stats (kv_cache_manager s') = log_stats (kv_cache_manager s) /\
    prefix_cache_stats (kv_cache_manager s') = prefix_cache_stats (kv_cache_manager s);
  up_out : match o with
    | Some eo => o_request_id eo = request_id (obj s r) /\ o_new_token_ids eo `prefix_of` tokens_for out mro (request_id (obj s r)) /\
        o_new_token_ids eo <> [] /\ (is_Some (o_finish_reason eo) <-> stays = false) /\
        (stays = true -> o_new_token_ids eo = tokens_for out mro (request_id (obj s r)))
    | None => tokens_for out mro (request_id (obj s r)) = [] /\ stays = true
    end;
  up_case : if stays then stayed out mro s s' r else gone len s s' r (request_id (obj s r));
}.

Lemma stays_ok s s' r nr rs :
  let t := set_running (nr ++ r :: rs) s in
  let t' := set_running (nr ++ r :: rs) s' in
  sched_ok t -> managers_ok len t ->
  conf s' = conf s -> waiting s' = waiting s -> requests s' = requests s -> kv_cache_manager s' = kv_cache_manager s ->
  enc_ok len (encoder_cache_manager s') ->
  delete (request_id (obj s r)) (cached (encoder_cache_manager s')) =
    delete (request_id (obj s r)) (cached (encoder_cache_manager s)) ->
  (forall i, has_cache (encoder_cache_manager s') (obj s r) i = true ->
             has_cache (encoder_cache_manager s) (obj s r) i = true) ->
  (forall x, x <> r -> obj s' x = obj s x) -> request_id (obj s' r) = request_id (obj s r) ->
  mm_positions (obj s' r) = mm_positions (obj s r) -> status (obj s' r) = RUNNING ->
  in_range (conf s) (obj s' r) -> sched_ok t' /\ managers_ok len t'.
Proof.
  intros t t' H Hm Hc Hw Hq Hkv Henc Hd Hsub Hobj Hid Hmm Hst Hrange.
  assert (Hr : r ∈ running t) by (cbn; apply elem_of_app; right; by left).
  assert (Hrl : r ∈ live t) by (apply elem_of_app; by right).
  split.
  - by apply (sched_ok_change t t' r).
  - apply (managers_ok_change t t' r); try done.
    + unfold live. cbn. by rewrite Hw.
    + cbn. rewrite Hkv. apply Hm.
Qed.

Lemma freed_ok s s' r nr rs :
  let t := set_running (nr ++ r :: rs) s in
  let t' := set_running (nr ++ rs) s' in
  sched_ok t -> managers_ok len t ->
  conf s' = conf s -> waiting s' = waiting s -> requests s' = delete (request_id (obj s r)) (requests s) ->
  (exists l, kv_ok (kv_cache_manager s') l) -> enc_ok len (encoder_cache_manager s') ->
  cached (encoder_cache_manager s') = delete (request_id (obj s r)) (cached (encoder_cache_manager s)) ->
  (forall x, x <> r -> obj s' x = obj s x) -> sched_ok t' /\ managers_ok len t'.
Proof.
  intros t t' H Hm Hc Hw Hq Hkv Henc Hd Hobj.
  assert (Hrl : r ∈ live t) by (apply elem_of_app; right; cbn; apply elem_of_app; right; by left).
  assert (Hr : requests t !! request_id (obj t r) = Some r) by by apply (so_requests _ H).
  pose proof (so_nodup _ H) as Hnd. apply NoDup_app in Hnd as (_ & Hdisj & Hnd).
  destruct (sched_ok_remove len t t' r (request_id (obj t r))) as [Hok Hlive]; try done.
  - cbn. rewrite Hw. symmetry. apply list_filter_all. intros x Hx ->. apply (Hdisj r Hx). cbn.
    apply elem_of_app. right. by left.
  - cbn. by rewrite list_filter_one.
  - split; [done|]. by apply (managers_ok_remove len t t' r (request_id (obj t r))).
Qed.

Lemma assign_spec_ok o i q :
  (forall l, o = Some l -> is_Some (l !! i)) ->
  exists q', assign_spec o i q = Ok q' /\ same_static q q' /\ status q' = status q /\
    num_computed_tokens q' = num_computed_tokens q /\ (o = None -> q' = q).
Proof.
  intros H. unfold assign_spec. destruct o as [l|]; [|by exists q].
  destruct (H l eq_refl) as [spec ->]. cbn. by eexists.
Qed.

Lemma take_events_ok q :
  exists q' ev, take_events q = (q', ev) /\ same_static q q' /\ status q' = status q /\
    num_computed_tokens q' = num_computed_tokens q /\ spec_token_ids q' = spec_token_ids q.
Proof. unfold take_events. destruct (events q); by do 2 eexists. Qed.

Lemma append_static g q q' :
  same_static q q' -> same_static (append_output_token_ids g q) (append_output_token_ids g q').
Proof. intros []. split; cbn; congruence. Qed.

(** The object of [r] after the assignments before the stop check. *)
Lemma obj_twice s r f e q x :
  obj (update r (fun _ => q) (set_enc e (update r f s))) x = if decide (x = r) then q else obj s x.
Proof.
  rewrite obj_update. case_decide; [done|].
  change (obj (set_enc e (update r f s)) x) with (obj (update r f s) x). by rewrite obj_update_ne.
Qed.

Lemma update_one_ok out mro s stats r nr rs :
  sched_ok (set_running (nr ++ r :: rs) s) -> managers_ok len (set_running (nr ++ r :: rs) s) ->
  answers s out mro r -> stats_fit (spec_tokens (conf s)) stats ->
  exists s' stats' o stays, update_one out mro s stats r = Ok (s', stats', o, stays) /\
    stats_fit (spec_tokens (conf s)) stats' /\
    updated out mro s s' r o stays nr rs.
Proof using EnvLaws0.
  intros H Hm Hans Hfit. unfold update_one. cbn zeta.
  assert (Htok : forall i g, default 0%Z (num_scheduled_tokens out !! request_id (obj s r)) <> 0%Z ->
    req_id_to_index mro !! request_id (obj s r) = Some i -> sampled_token_ids mro !! i = Some g ->
    tokens_for out mro (request_id (obj s r)) = g).
  { intros i g Hz Hi Hg. unfold tokens_for. rewrite (proj2 (Z.eqb_neq _ _) Hz), Hi. cbn. by rewrite Hg. }
  destruct (Z.eqb_spec (default 0%Z (num_scheduled_tokens out !! request_id (obj s r))) 0) as [Hz|Hz].
  { assert (Hnil : tokens_for out mro (request_id (obj s r)) = []) by (unfold tokens_for; by rewrite Hz).
    exists s, stats, None, true. split; [done|]. split; [done|]. split; try done.
    split; try done; [apply Hm|]. by rewrite Hnil, append_tokens_nil. }
  destruct (Hans Hz) as (Hd & Hdn & i & g & Hi & Hg & Hlen & Hne & Hspec & Hpl).
  specialize (Htok i g Hz Hi Hg). rewrite Hi. cbn [of_option mbind result_bind]. rewrite Hg. cbn [of_option mbind result_bind].
  set (d := default [] (scheduled_spec_decode_tokens out !! request_id (obj s r))) in *.
  set (f := fun q => set_num_computed_tokens _ q). set (s1 := update r f s).
  assert (Hq1 : obj s1 r = f (obj s r)) by apply obj_update_eq.
  destruct (take_drafts_ok s1 stats d g Hfit Hlen Hdn) as (stats' & -> & Hfit'). cbn [mbind result_bind].
  assert (Hrl : r ∈ live (set_running (nr ++ r :: rs) s)).
  { apply elem_of_app. right. cbn. apply elem_of_app. right. by left. }
  destruct (mo_known _ _ Hm r Hrl) as [Hk Hpos].
  destruct (free_consumed_ok (encoder_cache_manager s1) (obj s1 r)) as (enc & -> & Henc & Hsub & Hdel).
  { apply Hm. } { rewrite Hq1. exact Hk. } { rewrite Hq1. exact Hpos. }
  cbn [mbind result_bind]. change (obj (set_enc enc s1) r) with (obj s1 r). rewrite Hq1 in *.
  destruct (assign_spec_ok (out_spec_token_ids mro) i (f (obj s r)) Hspec) as (q2 & -> & A1 & A2 & A3 & A4).
  cbn [mbind result_bind].
  destruct (generation_ok q2 (sched_max_model_len (conf (set_enc enc s1))) g) as (q3 & kept & stopped & -> & [G1 G2 (G3 & G4 & G5 & G6) G7]).
  cbn [mbind result_bind]. set (s3 := update r (fun _ => q3) (set_enc enc s1)).
  assert (Hobj3 : forall x, obj s3 x = if decide (x = r) then q3 else obj s x) by (intros x; apply obj_twice).
  assert (Hid3 : request_id q3 = request_id (obj s r)) by (rewrite G3; apply A1).
  assert (Hmm3 : mm_positions q3 = mm_positions (obj s r)) by (rewrite G4; apply A1).
  destruct (take_events_ok q3) as (q4 & ev & Hev & V1 & V2 & V3 & V4).
  assert (Hobj5 : forall st x, (forall y, obj st y = obj s3 y) ->
    obj (update r (fun _ => q4) st) x = if decide (x = r) then q4 else obj s x).
  { intros st x Hst. rewrite obj_update. case_decide; [done|]. rewrite Hst, Hobj3. by rewrite decide_False. }
  assert (Hothers : forall st, (forall y, obj st y = obj s3 y) -> forall x, x <> r -> obj (update r (fun _ => q4) st) x = obj s x).
  { intros st Hst x Hx. rewrite Hobj5 by done. by rewrite decide_False. }
  assert (Hrq : status (obj s r) = RUNNING).
  { apply (so_running _ H r). cbn. apply elem_of_app. right. by left. }
  destruct stopped.
  - destruct G7 as (Gk & Gf & Gr). destruct kept as [|k0 kept]; [done|].
    assert (Hq3 : obj s3 r = q3) by (rewrite Hobj3; by rewrite decide_True).
    destruct (free_request_ok len s3 r) as (s4 & -> & [D1 D2 [D3 D4] D5 D6 D7 [D8 Db] [D9 D10] D11 Df Dh]).
    { by rewrite Hq3. }
    { rewrite Hq3, Hid3. exists r. by apply (so_requests _ H (request_id (obj s r)) r). }
    { cbn. apply Hm. } { exact Henc. }
    { rewrite Hq3. unfold known. rewrite Hid3, Hmm3. exact Hk. }
    { rewrite Hq3, Hmm3. intros j Hj. apply Hpos, Hsub. cbn in Hj. unfold has_cache in *. cbn. by rewrite Hid3 in Hj. }
    cbn [mbind result_bind]. rewrite Hev. rewrite Hq3, Hid3 in *.
    assert (Hst : forall y, obj s4 y = obj s3 y) by (intros y; unfold obj; by rewrite D2).
    do 4 eexists. split; [reflexivity|]. split; [done|].
    assert (Hfr : sched_ok (set_running (nr ++ rs) (update r (fun _ => q4) s4)) /\
      managers_ok len (set_running (nr ++ rs) (update r (fun _ => q4) s4))).
    { apply (freed_ok s _ r); try done; [|by apply Hothers].
      cbn. rewrite D10. exact Hdel. }
    destruct Hfr as [Hfr1 Hfr2]. split; try done.
    + by apply Hothers.
    + rewrite Hobj5, decide_True by done. by rewrite (ss_id _ _ V1).
    + by rewrite Htok.
    + split; try done; [by apply Hothers|cbn; by rewrite D10, delete_delete_eq|]. unfold idle. cbn. by rewrite D10, lookup_delete_eq.
  - destruct G7 as (-> & Gs & Gn & Gl & Gst). cbn [mbind result_bind].
    assert (Hrange : forall q, num_computed_tokens q = num_computed_tokens q3 -> num_tokens q = num_tokens q3 ->
      in_range (conf s) q).
    { intros q Hqc Hqn. apply (rejected_range (obj s r) q (conf s) d g); try done.
      - by apply (so_range _ H r Hrl).
      - rewrite Hqc, G6, A3. done.
      - rewrite Hqn, Gn, (static_num_tokens _ _ A1). done.
      - rewrite Hqn. exact Gl. }
    assert (Hstay : forall st, (st = s3 \/ st = update r (fun _ => q4) s3) ->
      sched_ok (set_running (nr ++ r :: rs) st) /\ managers_ok len (set_running (nr ++ r :: rs) st) /\
      (forall x, x <> r -> obj st x = obj s x) /\ request_id (obj st r) = request_id (obj s r) /\
      stayed out mro s st r).
    { intros st Hst.
      assert (Hst' : exists q, (forall x, obj st x = if decide (x = r) then q else obj s x) /\
        same_static q3 q /\ status q = status q3 /\ num_computed_tokens q = num_computed_tokens q3 /\
        spec_token_ids q = spec_token_ids q3).
      { destruct Hst as [->| ->]; [by exists q3|]. exists q4. split; [by intros x; apply Hobj5|done]. }
      destruct Hst' as (q & Ho & K1 & K3 & K4 & K6). pose proof (static_num_tokens _ _ K1) as K5.
      pose proof (ss_positions _ _ K1) as K2. pose proof (ss_id _ _ K1) as K0.
      assert (Hor : obj st r = q) by (rewrite Ho; by rewrite decide_True).
      assert (Hox : forall x, x <> r -> obj st x = obj s x) by (intros x Hx; rewrite Ho; by rewrite decide_False).
      assert (Hf : conf st = conf s /\ waiting st = waiting s /\ requests st = requests s /\
        kv_cache_manager st = kv_cache_manager s /\ encoder_cache_manager st = enc) by (destruct Hst as [->| ->]; done).
      destruct Hf as (F1 & F2 & F3 & F4 & F5).
      destruct (stays_ok s st r nr rs H Hm F1 F2 F3 F4) as [R1 R2]; rewrite ?F5, ?Hor; try done; try congruence.
      - rewrite K3, Gs, A2. exact Hrq.
      - by apply Hrange.
      - split_and!; [done|done|done|congruence|].
        split; rewrite ?F3, ?F4, ?F5, ?Hor, ?Htok; try done.
        + etransitivity; [|exact K1]. etransitivity; [|exact Gst]. apply append_static. by etransitivity; [|exact A1].
        + intros Hnil. rewrite K4, G6, A3. cbn. fold d. fold d in Hnil. rewrite (Hnil Hz). cbn. lia.
        + intros Hnone. rewrite K6, G5, A4 by done. done. }
    destruct g as [|g0 g].
    + assert (Hp : default None (prompt_logprobs_dict mro !! request_id (obj s r)) = None) by by apply Hpl.
      rewrite Hp. cbn. do 4 eexists. split; [reflexivity|]. split; [done|].
      destruct (Hstay s3 ltac:(by left)) as (R1 & R2 & R3 & R4 & R5). by split.
    + rewrite Hev. do 4 eexists. split; [reflexivity|]. split; [done|].
      destruct (Hstay (update r (fun _ => q4) s3) ltac:(by right)) as (R1 & R2 & R3 & R4 & R5). split; try done.
      rewrite Htok. split_and!; try done. cbn. unfold get_finished_reason. rewrite Gs, A2. cbn. rewrite Hrq. cbn.
      split; [by intros []|done].
Qed.

(** ** All running requests *)

(** The outcome of the loop over [rs]: [stops] are the requests that finished,
    [new] the outputs made. *)
Record loop_result (s s' : Scheduler) (out : SchedulerOutput) (mro : ModelRunnerOutput) (rs nr nr' stops : list nat)
    (new : list EngineCoreOutput) : Prop := {
  ul_ok : sched_ok (set_running nr' s');
  ul_managers : managers_ok len (set_running nr' s');
  ul_frame : conf s' = conf s /\ waiting s' = waiting s;
  ul_ids : forall x, request_id (obj s' x) = request_id (obj s x);
  ul_log : log_stats (kv_cache_manager s') = log_stats (kv_cache_manager s) /\
    prefix_cache_stats (kv_cache_manager s') = prefix_cache_stats (kv_cache_manager s);
  ul_running : nr' = nr ++ without stops rs;
  ul_stops : forall r, r ∈ stops -> r ∈ rs;
  ul_finished : forall id, id ∈ finished_req_ids s' <->
    id ∈ finished_req_ids s \/ exists r, r ∈ stops /\ request_id (obj s r) = id;
  ul_requests : forall r, r ∈ stops -> requests s' !! request_id (obj s r) = None;
  ul_outputs : o_request_id <$> new =
    (fun r => request_id (obj s r)) <$> filter (fun r => tokens_for out mro (request_id (obj s r)) <> []) rs;
  ul_output : forall o, o ∈ new -> exists r, r ∈ rs /\ o_request_id o = request_id (obj s r) /\
    o_new_token_ids o `prefix_of` tokens_for out mro (request_id (obj s r)) /\ o_new_token_ids o <> [] /\
    (is_Some (o_finish_reason o) <-> r ∈ stops);
}.

Lemma loop_result_cons s s1 s' out mro r rs nr nr' stops new o stays :
  r ∉ rs -> sched_ok (set_running (nr ++ r :: rs) s) ->
  updated out mro s s1 r o stays nr rs ->
  loop_result s1 s' out mro rs (if stays then nr ++ [r] else nr) nr' stops new ->
  loop_result s s' out mro (r :: rs) nr nr' (if stays then stops else r :: stops) (option_list o ++ new).
Proof.
  intros Hr H [U1 U2 [U3 U4] U5 U6 U7 U8 [U9 U10] U11 _] [R1 R2 [R3 R4] R5 [R6 R7] R8 R9 R10 R11 R12 R13].
  assert (Hids : forall x, request_id (obj s1 x) = request_id (obj s x)).
  { intros x. destruct (decide (x = r)) as [->|Hne]; [done|]. by rewrite U5. }
  assert (Hns : r ∉ stops) by (intros Hs; by apply Hr, R9).
  split; try done.
  - split; congruence.
  - intros x. by rewrite R5, Hids.
  - split; congruence.
  - destruct stays.
    + rewrite R8. unfold without. rewrite filter_cons_True by done. by rewrite <-app_assoc.
    + rewrite R8. unfold without. rewrite filter_cons_False by set_solver. f_equal. apply list_filter_iff'.
      intros x Hx. rewrite not_elem_of_cons. split; [|tauto]. intros Hn. split; [by intros ->|done].
  - intros x Hx. destruct stays; [right; by apply R9|]. apply elem_of_cons in Hx as [->|Hx]; [by left|right; by apply R9].
  - intros id. rewrite R10, U7. destruct stays.
    + split; (intros [?|(x & Hx & Hid)]; [by left|right; exists x; split; [done|]]); by rewrite ?Hids in *.
    + rewrite elem_of_union, elem_of_singleton. split.
      * intros [[?|Hid]|(x & Hx & Hid)]; [by left| |]; right; [exists r; by split; [left|]|].
        exists x. rewrite Hids in Hid. split; [by right|done].
      * intros [?|(x & Hx & Hid)]; [by left; left|]. apply elem_of_cons in Hx as [->|Hx]; [left; by right|].
        right. exists x. by rewrite Hids.
  - intros x Hx. destruct stays; [rewrite <-Hids; by apply R11|].
    apply elem_of_cons in Hx as [->|Hx]; [|rewrite <-Hids; by apply R11].
    destruct (requests s' !! request_id (obj s r)) as [y|] eqn:Ey; [|done]. exfalso.
    assert (Hy : y ∈ live (set_running nr' s') /\ request_id (obj s' y) = request_id (obj s r)).
    { by apply (so_requests _ R1 (request_id (obj s r)) y). }
    destruct Hy as [Hy Hyid]. rewrite R5, Hids in Hyid.
    assert (Hyl : y ∈ live (set_running (nr ++ r :: rs) s) /\ y <> r).
    { unfold live in *. cbn in *. rewrite R4, U4, R8 in Hy. pose proof (so_nodup _ H) as Hnd.
      unfold live in Hnd. cbn in Hnd. apply NoDup_app in Hnd as (_ & Hd1 & Hnd).
      apply NoDup_app in Hnd as (_ & Hd2 & _). unfold without in Hy.
      rewrite !elem_of_app, list_elem_of_filter in Hy. rewrite !elem_of_app, elem_of_cons. split; [tauto|].
      intros ->. destruct Hy as [Hy|[Hy|[_ Hy]]]; [|by apply (Hd2 r Hy); left|done].
      apply (Hd1 r Hy). apply elem_of_app. right. by left. }
    destruct Hyl as [Hyl Hne]. apply Hne. apply (live_id_inj (set_running (nr ++ r :: rs) s)); [done|done| |done].
    unfold live. cbn. rewrite !elem_of_app. right. right. by left.
  - rewrite fmap_app, R12, filter_cons.
    assert (Hrest : (fun r => request_id (obj s1 r)) <$> filter (fun r => tokens_for out mro (request_id (obj s1 r)) <> []) rs =
      (fun r => request_id (obj s r)) <$> filter (fun r => tokens_for out mro (request_id (obj s r)) <> []) rs).
    { rewrite (list_filter_iff' _ (fun r => tokens_for out mro (request_id (obj s r)) <> [])) by (intros x _; by rewrite Hids).
      apply list_fmap_ext. intros _ x _. apply Hids. }
    rewrite Hrest. destruct o as [eo|].
    + destruct U11 as (O1 & O2 & O3 & _). rewrite decide_True; [by rewrite fmap_cons, <-O1|].
      intros E'. rewrite E' in O2. by apply prefix_nil_inv in O2.
    + destruct U11 as [O1 _]. rewrite decide_False; [done|]. by intros [].
  - intros eo [He|He]%elem_of_app.
    + destruct o as [eo'|]; [|by apply elem_of_nil in He]. apply list_elem_of_singleton in He as ->.
      destruct U11 as (O1 & O2 & O3 & O4 & O5). exists r. split; [by left|]. split; [done|]. split; [done|]. split; [done|].
      rewrite O4. destruct stays; [split; [done|by intros]|]. split; [by left|done].
    + destruct (R13 eo He) as (x & Hx & X1 & X2 & X3 & X4). exists x. rewrite Hids in *.
      split; [by right|]. split_and!; [done|done|done|]. rewrite X4. destruct stays; [done|].
      rewrite elem_of_cons. split; [by right|]. intros [->|]; [done|done].
Qed.

Lemma update_loop_ok out mro s stats rs nr outs :
  NoDup rs -> sched_ok (set_running (nr ++ rs) s) -> managers_ok len (set_running (nr ++ rs) s) ->
  (forall r, r ∈ rs -> answers s out mro r) -> stats_fit (spec_tokens (conf s)) stats ->
  exists s' stats' nr' stops new, update_loop out mro s stats rs nr outs = Ok (s', stats', nr', outs ++ new) /\
    loop_result s s' out mro rs nr nr' stops new.
Proof using EnvLaws0.
  intros Hnd. revert s stats nr outs. induction Hnd as [|r rs Hr Hnd IH]; intros s stats nr outs H Hm Hans Hfit; cbn [update_loop].
  { exists s, stats, nr, [], []. rewrite app_nil_r in *. split; [done|]. split; try done.
    - by rewrite app_nil_r.
    - intros id. split; [by left|]. intros [|(x & Hx & _)]; [done|by apply elem_of_nil in Hx].
    - intros x Hx. by apply elem_of_nil in Hx.
    - intros o Ho. by apply elem_of_nil in Ho. }
  destruct (update_one_ok out mro s stats r nr rs H Hm) as (s1 & stats1 & o & stays & -> & Hfit1 & Hup);
    [apply Hans; by left|done|]. cbn [mbind result_bind].
  pose proof Hup as [U1 U2 [U3 U4] U5 U6 _ _ _ _ _].
  assert (Hshape : nr ++ (if stays then [r] else []) ++ rs = (if stays then nr ++ [r] else nr) ++ rs)
    by (destruct stays; [by rewrite <-app_assoc|done]).
  rewrite Hshape in U1, U2.
  destruct (IH s1 stats1 (if stays then nr ++ [r] else nr) (outs ++ option_list o) U1 U2)
    as (s' & stats' & nr' & stops & new & Hrun & Hres).
  - intros x Hx. assert (x <> r) by (by intros ->). specialize (Hans x ltac:(by right)).
    unfold answers in *. rewrite U5, U3 by done. exact Hans.
  - by rewrite U3.
  - exists s', stats', nr', (if stays then stops else r :: stops), (option_list o ++ new).
    rewrite app_assoc. split; [exact Hrun|]. by apply (loop_result_cons s s1 s' out mro r rs nr nr' stops new o stays).
Qed.

(** ** The whole call *)

(** The caches' statistics follow the scheduler's switch. *)
Definition stats_on (s : Scheduler) : Prop :=
  log_stats (kv_cache_manager s) = sched_log_stats (conf s) /\
  (sched_log_stats (conf s) = true -> is_Some (prefix_cache_stats (kv_cache_manager s))).

Lemma return_cached_data_frame s ds :
  exists c, return_cached_data s ds = set_cached_data c s.
Proof.
  unfold return_cached_data. revert s. induction ds as [|d ds IH]; intros s; cbn [foldl].
  { exists (cached_reqs_data s). by destruct s. }
  destruct (bool_decide _); [apply IH|].
  destruct (IH (set_cached_data (<[cr_req_id d := default [] (cached_reqs_data s !! cr_req_id d) ++ [d]]> (cached_reqs_data s)) s))
    as [c ->]. by exists c.
Qed.

Lemma make_stats_ok s stats :
  stats_on s -> exists kv st, make_stats s stats = Ok (set_kv kv s, st) /\
    (exists ps, kv = set_stats ps (kv_cache_manager s)) /\ stats_on (set_kv kv s).
Proof.
  intros [H1 H2]. unfold make_stats. destruct (sched_log_stats (conf s)) eqn:El; cbn.
  - unfold make_prefix_cache_stats. rewrite H1. destruct (H2 eq_refl) as [ps ->]. cbn. do 2 eexists. split; [done|].
    split; [by eexists|]. split; cbn; [by rewrite H1|by eexists].
  - exists (kv_cache_manager s), None. split; [by destruct s|]. split; [|split; cbn; [by rewrite El|by rewrite El]].
    exists (prefix_cache_stats (kv_cache_manager s)). by destruct (kv_cache_manager s).
Qed.

Lemma kv_ok_set_stats m l ps : kv_ok m l -> kv_ok (set_stats ps m) l.
Proof. intros []. by split. Qed.

End Update.
