(* ===== verification/SchedulerProperties.v ===== *)
(** * Properties of the scheduler

    The theorems about [Scheduler.v]: a step of [schedule], the choice of encoder
    inputs, the model runner's output, and requests that are finished from
    outside. *)

From S2P Require Import Prelude PrefixMetrics FreeBlockQueue Request BlockHash BlockPool.
From S2P Require Import SpecializedManager KVCacheConfig KVCacheManager EncoderCache Scheduler SchedulerSpec.
From S2P Require Import SchedulerLifecycle SchedulerUpdate.

(** ** A small engine for the witnesses *)

#[local] Instance demo_env : Env := {|
  connector_state := unit; connector_meta := unit; bitmask := unit; logprobs_lists := unit;
  logprobs_tensors := unit; hash_fn := fun _ => 7%Z; NONE_HASH := 0%Z; set_order := elements;
  logprobs_slice := fun l _ _ => l; grammar_bitmask := fun _ _ _ => None;
  get_num_new_matched_tokens := fun _ _ _ => 0%Z; update_state_after_alloc := fun c _ _ => c |}.

#[local] Instance demo_laws : EnvLaws demo_env.
Proof. by split. Qed.

Definition demo_meta : unit -> SchedulerOutput -> unit * unit := fun _ _ => (tt, tt).

Definition demo_conf : SchedulerConf := {|
  max_num_running_reqs := 4; max_num_scheduled_tokens := 12; sched_max_model_len := 64;
  long_prefill_token_threshold := 6; no_chunked_mm_input := false; max_loras := None; sched_log_stats := false;
  include_finished_set := false; spec_tokens := 0; num_lookahead_tokens := 0; encoder_input_budget := 10 |}.

Definition demo_req (id : string) (st : RequestStatus) (toks : list Z) (computed : Z) (ps : list PlaceholderRange) : Request :=
  {| request_id := id; sampling_params := {| sp_max_tokens := Some 3%Z; guided_decoding := false;
       ignore_eos := false; stop_token_ids := [7%Z]; prompt_logprobs := None; sp_logprobs := None; sp_sampler := greedy_sampler |};
     eos_token_id := None; lora_request := None; structured_output_request := true;
     status := st; events := []; stop_reason := None; max_tokens := 3;
     prompt_token_ids := toks; num_prompt_tokens := length toks; output_token_ids := [];
     all_token_ids := toks; spec_token_ids := []; num_computed_tokens := computed;
     mm_positions := ps; mm_inputs := length ps; mm_hashes := (fun _ => Some "h") <$> ps |}.

(** Ten blocks of four tokens, an encoder cache of ten slots. *)
Definition demo_sched (m : KVCacheManager) (h : gmap nat Request) (reqs : gmap string nat) (w r : list nat) : Scheduler :=
  {| conf := demo_conf; connector := None; heap := h; requests := reqs; waiting := w; running := r;
     finished_req_ids := ∅; cached_reqs_data := ∅; encoder_cache_manager := encoder_init 10;
     kv_cache_manager := m |}.

(** One request, waiting or running. *)
Definition demo_waiting (m : KVCacheManager) : Scheduler :=
  demo_sched m {[0 := demo_req "a" WAITING [1; 2; 3; 4; 5]%Z 0 []]} {["a" := 0]} [0] [].
Definition demo_running (m : KVCacheManager) : Scheduler :=
  demo_sched m {[0 := demo_req "a" RUNNING [1; 2; 3; 4; 5]%Z 5 []]} {["a" := 0]} [] [0].

Lemma demo_one_ok s q :
  heap s = {[0 := q]} -> requests s = {["a" := 0]} -> request_id q = "a" -> live s = [0] -> conf s = demo_conf ->
  (running s = [0] -> status q = RUNNING) -> (waiting s = [0] -> status q = WAITING) ->
  in_range demo_conf q -> sched_ok s.
Proof.
  intros Hh Hreq Hid Hl Hc Hrun Hwait Hr.
  assert (Ho : obj s 0 = q) by (unfold obj; rewrite Hh; apply lookup_total_insert_eq).
  assert (Hx : forall x, x ∈ live s -> x = 0) by (intros x; rewrite Hl; by intros ->%list_elem_of_singleton).
  assert (Hcase : (waiting s = [0] /\ running s = []) \/ (waiting s = [] /\ running s = [0])).
  { unfold live in Hl. destruct (waiting s) as [|x [|y w]]; cbn in Hl; [by right|left|done].
    injection Hl as -> ->. done. }
  split.
  - rewrite Hl. apply NoDup_singleton.
  - intros id r. rewrite Hreq. split.
    + intros [<- <-]%lookup_singleton_Some. rewrite Hl, Ho. split; [by left|done].
    + intros [Hr0 Hrid]. apply Hx in Hr0 as ->. rewrite Ho, Hid in Hrid. subst id. apply lookup_singleton_eq.
  - intros r Hr0. assert (r = 0) as -> by (apply Hx, elem_of_app; by right). rewrite Ho.
    destruct Hcase as [[_ E]|[_ E]]; rewrite E in Hr0; [by apply elem_of_nil in Hr0|by apply Hrun].
  - intros r Hr0. assert (r = 0) as -> by (apply Hx, elem_of_app; by left). rewrite Ho.
    destruct Hcase as [[E _]|[E _]]; rewrite E in Hr0; [|by apply elem_of_nil in Hr0]. rewrite Hwait by done. by left.
  - rewrite Hc. destruct Hcase as [[_ ->]|[_ ->]]; cbn; lia.
  - intros r Hr0. apply Hx in Hr0 as ->. by rewrite Ho, Hc.
Qed.

Lemma demo_waiting_ok m : sched_ok (demo_waiting m).
Proof.
  apply (demo_one_ok _ (demo_req "a" WAITING [1; 2; 3; 4; 5]%Z 0 [])); try done.
  all: unfold in_range, num_tokens, num_tokens_with_spec; cbn; lia.
Qed.

Lemma demo_running_ok m : sched_ok (demo_running m).
Proof.
  apply (demo_one_ok _ (demo_req "a" RUNNING [1; 2; 3; 4; 5]%Z 5 [])); try done.
  all: unfold in_range, num_tokens, num_tokens_with_spec; cbn; lia.
Qed.

Lemma demo_managers m l len : kv_ok m l -> managers_ok len (demo_running m).
Proof.
  intros Hm. split.
  - by exists l.
  - split; [reflexivity| |]; intros id; cbn; rewrite lookup_empty; [by intros ? ? [=]|done].
  - intros r Hr. assert (r = 0) as -> by by apply list_elem_of_singleton in Hr. split; [intros i p Hp; by cbn in Hp|].
    intros i Hi. by cbn in Hi.
Qed.

(** The waiting request of the demo is scheduled with its five tokens. *)
Lemma demo_schedule :
  exists m s' out meta, demo_manager 10 100 = Ok m /\ kv_ok m (seq 1 9) /\
    schedule (E := demo_env) demo_meta 0 (fun _ => true) (demo_waiting m) = Some (Ok (s', (out, meta))) /\
    total_num_scheduled_tokens out = 5%Z /\ running s' = [0].
Proof.
  destruct demo_manager_ok as (m & Hm & Hok & _).
  assert (Hrun : match demo_manager 10 100 with
    | Ok m => match schedule (E := demo_env) demo_meta 0 (fun _ => true) (demo_waiting m) with
              | Some (Ok (s', (o, _))) => bool_decide (total_num_scheduled_tokens o = 5%Z) && bool_decide (running s' = [0])
              | _ => false
              end
    | Err _ => false end = true) by (vm_compute; reflexivity).
  rewrite Hm in Hrun. exists m.
  destruct (schedule (E := demo_env) demo_meta 0 (fun _ => true) (demo_waiting m)) as [[[s' [out meta]]|]|]; [|done|done].
  apply andb_true_iff in Hrun as [H1%bool_decide_eq_true H2%bool_decide_eq_true]. by exists s', out, meta.
Qed.

(** ** Scheduling *)

(** C22: A step of [schedule] ends, and when it returns, the scheduler's invariant
    holds again: no request is lost, duplicated or in both queues, statuses agree
    with the queues, at most [max_num_seqs] requests run, and no request is
    computed beyond its tokens or the model's length.  The output's total is the
    sum over the requests and within the token budget; each scheduled request
    runs and gets at least one token; a request that was running and still runs
    advances by exactly its scheduled tokens; the finished ids are handed over
    once. *)
Theorem schedule_correct `{E : Env} `{!EnvLaws E} bcm now ready s :
  sched_ok s -> (0 <= max_num_scheduled_tokens (conf s))%Z ->
  exists res, schedule bcm now ready s = Some res /\
    forall s' out meta, res = Ok (s', (out, meta)) ->
      sched_ok s' /\ live s' ≡ₚ live s /\ requests s' = requests s /\
      (total_num_scheduled_tokens out <= max_num_scheduled_tokens (conf s))%Z /\
      total_num_scheduled_tokens out = map_fold (fun _ n acc => (n + acc)%Z) 0%Z (num_scheduled_tokens out) /\
      (forall id n, num_scheduled_tokens out !! id = Some n ->
         (1 <= n)%Z /\ exists r, r ∈ running s' /\ request_id (obj s' r) = id) /\
      (forall r, r ∈ running s -> r ∈ running s' ->
         num_computed_tokens (obj s' r) =
           (num_computed_tokens (obj s r) + default 0 (num_scheduled_tokens out !! request_id (obj s r)))%Z) /\
      out_finished_req_ids out = finished_req_ids s /\ finished_req_ids s' = ∅.
Proof.
  intros H Hm. destruct (schedule_ok s H bcm now ready Hm) as (res & Hrun & Hres). exists res. split; [done|].
  intros s' out meta ->. destruct (Hres s' out meta eq_refl) as [R1 R2 [R3 R4] R5 R6 [R7 R8] _ R9 R10].
  split_and!; try done; [by apply (queues_perm s H)|].
  intros id n Hn. destruct (R5 id n Hn) as (Hn1 & r & Hr & Hid & _). split; [done|]. by exists r.
Qed.

Lemma schedule_correct_witness :
  exists m s' out meta, demo_manager 10 100 = Ok m /\
    schedule (E := demo_env) demo_meta 0 (fun _ => true) (demo_waiting m) = Some (Ok (s', (out, meta))) /\
    total_num_scheduled_tokens out = 5%Z /\ sched_ok s'.
Proof.
  destruct demo_schedule as (m & s' & out & meta & Hm & _ & Hrun & Ht & _). exists m, s', out, meta.
  destruct (schedule_correct (E := demo_env) demo_meta 0 (fun _ => true) (demo_waiting m) (demo_waiting_ok m)) as (res & Hres & Hall).
  { cbn. lia. }
  rewrite Hrun in Hres. injection Hres as <-. destruct (Hall s' out meta eq_refl) as [Hok _].
  exact (conj Hm (conj Hrun (conj Ht Hok))).
Defined.

(** C32: Queues are served first come, first served.  In a step either some of
    the last running requests are preempted - then they stand, in their order,
    before all waiting requests, and nothing is admitted - or the admitted
    requests join the end of the running list in the order of the waiting queue,
    and those that stay, skipped ones included, keep their order. *)
Theorem schedule_fcfs `{E : Env} `{!EnvLaws E} bcm now ready s s' out meta :
  sched_ok s -> (0 <= max_num_scheduled_tokens (conf s))%Z ->
  schedule bcm now ready s = Some (Ok (s', (out, meta))) ->
  (exists k, k < length (running s) /\ running s' = take k (running s) /\
     waiting s' = drop k (running s) ++ waiting s) \/
  (exists adm, adm `sublist_of` waiting s /\ running s' = running s ++ adm /\
     waiting s' = filter (fun r => r ∉ adm) (waiting s)).
Proof.
  intros H Hm Hrun. destruct (schedule_ok s H bcm now ready Hm) as (res & Hrun' & Hres).
  rewrite Hrun' in Hrun. injection Hrun as ->. apply (sr_queues _ _ _ (Hres s' out meta eq_refl)).
Qed.

Lemma schedule_fcfs_witness :
  exists m s', demo_manager 10 100 = Ok m /\ running s' = [0] /\
    exists adm, adm `sublist_of` [0] /\ running s' = [] ++ adm.
Proof.
  destruct demo_schedule as (m & s' & out & meta & Hm & _ & Hrun & _ & Hr). exists m, s'.
  split; [exact Hm|]. split; [exact Hr|].
  destruct (schedule_fcfs (E := demo_env) demo_meta 0 (fun _ => true) (demo_waiting m) s' out meta (demo_waiting_ok m))
    as [(k & Hk & _)|(adm & Hs & Hr' & _)]; [cbn; lia|exact Hrun| |].
  - exfalso. cbn in Hk. lia.
  - exists adm. exact (conj Hs Hr').
Defined.

(** The assertions at the end of [schedule] never fail and nothing after the
    two loops raises: once the running and the waiting loop are through, the
    token total, the token budget, the number of running requests and the number
    of scheduled ones are within their bounds, all dict accesses find their keys,
    and an output is built. *)
Theorem schedule_assertions_hold `{E : Env} `{!EnvLaws E} bcm now ready s s1 v1 s2 v2 :
  sched_ok s -> (0 <= max_num_scheduled_tokens (conf s))%Z ->
  running_loop now (length (running s)) s (vars_init (conf s)) = Some (Ok (s1, v1)) ->
  schedule_waiting now ready s1 v1 = Ok (s2, v2) ->
  check_constraints s2 v2 = Ok tt /\ is_ok (finish_schedule bcm s2 v2) = true.
Proof.
  intros H Hm Hr Hw.
  destruct (running_loop_ok s H now (length (running s)) s (vars_init (conf s)) (length (running s))
    (vars_init_inv s H Hm) (run_queues_init s)) as (res & Hr' & Hres); [cbn; lia|].
  rewrite Hr in Hr'. injection Hr' as <-. destruct (Hres s1 v1 eq_refl) as (k & Hi & Hq).
  destruct (schedule_waiting_ok s H now ready s1 v1 k s2 v2 Hi Hq Hw) as (Hi2 & _ & Hlim).
  split; [by apply (check_constraints_ok s)|].
  by destruct (finish_schedule_ok s H bcm s2 v2 Hi2 Hlim) as (s' & out & meta & -> & _).
Qed.

Lemma schedule_assertions_hold_witness :
  exists m s2 v2, demo_manager 10 100 = Ok m /\
    schedule_waiting 0 (fun _ => true) (demo_waiting m) (vars_init demo_conf) = Ok (s2, v2) /\
    check_constraints s2 v2 = Ok tt.
Proof.
  destruct demo_schedule as (m & s' & out & meta & Hm & _ & Hrun & _). exists m.
  destruct (schedule_waiting 0 (fun _ => true) (demo_waiting m) (vars_init demo_conf)) as [[s2 v2]|e] eqn:Hw.
  - exists s2, v2. split; [exact Hm|]. split; [reflexivity|].
    apply (schedule_assertions_hold (E := demo_env) demo_meta 0 (fun _ => true) (demo_waiting m) (demo_waiting m) (vars_init demo_conf) s2 v2);
      [apply demo_waiting_ok|cbn; lia|reflexivity|exact Hw].
  - exfalso. unfold schedule in Hrun. cbn [running demo_waiting demo_sched length running_loop lookup list_lookup vars_init v_index conf] in Hrun.
    rewrite Hw in Hrun. discriminate Hrun.
Defined.

(** ** Encoder inputs *)

(** [_try_schedule_encoder_inputs] returns tokens [n'] between 0 and [n] and
    a set of inputs such that every input that the tokens
    [computed, computed + n') need is in the encoder cache already or chosen
    now (the inputs are sorted by position); the chosen inputs are needed, not
    cached, allowed by [can_allocate], in order, and their sizes are taken from
    the budget, which does not become negative. *)
Theorem encoder_inputs_correct `{E : Env} s req computed n budget inputs n' budget' :
  (0 <= n)%Z -> (0 <= budget)%Z -> has_encoder_inputs req = true ->
  StronglySorted (fun p p' => offset p <= offset p')%Z (mm_positions req) ->
  try_schedule_encoder_inputs s req computed n budget = Ok (inputs, n', budget') ->
  (0 <= n' <= n)%Z /\
  (forall i p, mm_positions req !! i = Some p -> needs computed n' p ->
     has_cache (encoder_cache_manager s) req i = true \/ i ∈ inputs) /\
  (forall i, i ∈ inputs -> has_cache (encoder_cache_manager s) req i = false /\
     can_allocate (encoder_cache_manager s) req i = Ok true /\
     exists p, mm_positions req !! i = Some p /\ needs computed n p) /\
  StronglySorted lt inputs /\
  (budget' = budget - zsum ((fun i => default 0%Z (length_ <$> mm_positions req !! i)) <$> inputs))%Z /\
  (0 <= budget')%Z.
Proof.
  intros Hn Hb He Hs H. apply try_encoder_ok in H as [H1 H2 H3 H4 H5 H6]; [|done|done].
  split; [done|]. split; [|split; [|split; [done|split; [done|by apply H3]]]].
  - intros i p Hp Hneed. apply (H6 Hs i p); [lia|done|done].
  - intros i Hi. by destruct (H5 i Hi) as [_ ?].
Qed.

(** Ten tokens with images at 1 and at 5, room for the first image only. *)
Lemma encoder_inputs_correct_witness :
  exists m, demo_manager 10 100 = Ok m /\
    let req := demo_req "a" WAITING (replicate 10 1%Z) 0 [{| offset := 1; length_ := 3 |}; {| offset := 5; length_ := 8 |}] in
    try_schedule_encoder_inputs (E := demo_env) (demo_waiting m) req 0 10 10 = Ok ([0], 5%Z, 7%Z) /\
    (0 <= 5 <= 10)%Z.
Proof.
  destruct demo_manager_ok as (m & Hm & _). exists m. split; [exact Hm|]. cbn zeta.
  set (req := demo_req _ _ _ _ _).
  assert (Hrun : try_schedule_encoder_inputs (E := demo_env) (demo_waiting m) req 0 10 10 = Ok ([0], 5%Z, 7%Z)) by reflexivity.
  split; [exact Hrun|].
  refine (proj1 (encoder_inputs_correct (E := demo_env) (demo_waiting m) req 0 10 10 [0] 5 7 _ _ _ _ Hrun));
    [lia|lia|reflexivity|]. repeat constructor; cbn; lia.
Defined.

(** Two images of eight slots together while a third one of eight is cached: the
    first request is in the middle of its image when the second one comes. *)
Definition demo_overcommit (m : KVCacheManager) : result (@Scheduler demo_env) :=
  let ready := fun _ : Request => true in
  let c := demo_req "c" WAITING (replicate 12 1%Z) 0 [{| offset := 1; length_ := 8 |}] in
  let a := demo_req "a" WAITING (replicate 12 1%Z) 0 [{| offset := 0; length_ := 2 |}; {| offset := 2; length_ := 2 |}] in
  let mro := {| req_id_to_index := {["c" := 0]}; sampled_token_ids := [[]]; out_spec_token_ids := None;
                out_logprobs := None; prompt_logprobs_dict := ∅ |} in
  match schedule (E := demo_env) demo_meta 1 ready (add_request 0 (demo_sched m ∅ ∅ [] []) 0 c) with
  | Some (Ok (s, (out, _))) =>
      '(s, _) ← update_from_output s out mro;
      match schedule demo_meta 2 ready (add_request 1 s 1 a) with
      | Some (Ok (s, _)) => Ok s
      | _ => Err RuntimeError
      end
  | _ => Err RuntimeError
  end.

(** The encoder cache can be overcommitted: [can_allocate] is asked for each
    input with the same free slots, although inputs chosen before it in the same
    call will take some of them.  With an encoder budget equal to the cache size,
    ten, one request whose image of eight slots is still needed, and a second
    request with two images of two slots, a run of [schedule] leaves the cache
    with minus two free slots. *)
Theorem encoder_cache_overcommitted :
  exists m s, demo_manager 10 100 = Ok m /\ demo_overcommit m = Ok s /\
    encoder_input_budget (conf s) = cache_size (encoder_cache_manager s) /\
    num_free_slots (encoder_cache_manager s) = (-2)%Z.
Proof.
  destruct demo_manager_ok as (m & Hm & _). exists m.
  assert (Hrun : match demo_manager 10 100 with
    | Ok m => match demo_overcommit m with
              | Ok s => bool_decide (encoder_input_budget (conf s) = cache_size (encoder_cache_manager s)) &&
                        bool_decide (num_free_slots (encoder_cache_manager s) = (-2)%Z)
              | Err _ => false
              end
    | Err _ => false end = true) by (vm_compute; reflexivity).
  rewrite Hm in Hrun. destruct (demo_overcommit m) as [s|]; [|done]. exists s.
  apply andb_true_iff in Hrun as [H1%bool_decide_eq_true H2%bool_decide_eq_true]. done.
Qed.

(** ** The model runner's output *)



(** ** Requests finished from outside *)

(** [finish_requests] with a finished status does not raise, whatever ids it
    is given, known, unknown or repeated.  The requests with these ids leave
    their queues, the others keep their order; afterwards the scheduler does not
    know the ids, they are reported as finished if they were known, and the
    invariants of the scheduler and of both caches hold. *)
Theorem finish_requests_correct `{E : Env} `{!EnvLaws E} len s ids st :
  status_is_finished st = true -> sched_ok s -> managers_ok len s ->
  exists s', finish_requests s ids st = Ok s' /\ sched_ok s' /\ managers_ok len s' /\
    running s' = filter (fun r => request_id (obj s r) ∉ ids) (running s) /\
    waiting s' = filter (fun r => request_id (obj s r) ∉ ids) (waiting s) /\
    (forall id, id ∈ finished_req_ids s' <->
       id ∈ finished_req_ids s \/ (id ∈ ids /\ is_Some (requests s !! id))) /\
    (forall id, requests s' !! id = if bool_decide (id ∈ ids) then None else requests s !! id).
Proof. intros Hst H Hm. by apply finish_requests_ok. Qed.

Lemma finish_requests_correct_witness :
  exists m s', demo_manager 10 100 = Ok m /\
    finish_requests (E := demo_env) (demo_running m) ["a"; "b"; "a"] FINISHED_ABORTED = Ok s' /\ running s' = [] /\
    sched_ok s'.
Proof.
  destruct demo_manager_ok as (m & Hm & Hok & _).
  destruct (finish_requests_correct (E := demo_env) (fun _ _ => 0%Z) (demo_running m) ["a"; "b"; "a"] FINISHED_ABORTED)
    as (s' & Hrun & Hs & _ & Hr & _); [reflexivity|apply demo_running_ok|by apply (demo_managers m (seq 1 9))|].
  exists m, s'. exact (conj Hm (conj Hrun (conj Hr Hs))).
Defined.
