(* ===== verification/SchedulerSafety.v ===== *)
(** * A step of the scheduler cannot fail

    The invariant [ready] connects the scheduler with its two caches: every
    request the scheduler knows is [linked] to the KV-cache manager, and ids it
    does not know hold nothing.  Under it [schedule] raises nothing, and keeps it,
    for models without drafts, lookahead and LoRA limits. *)

From S2P Require Import Prelude PrefixMetrics FreeBlockQueue Request BlockHash BlockPool.
From S2P Require Import SpecializedManager KVCacheConfig KVCacheManager KVCacheLink EncoderCache.
From S2P Require Import Scheduler SchedulerSpec SchedulerLifecycle SchedulerUpdate.

(** ** Keys depend on what a step does not change *)

Lemma keys_static q q' s e i :
  same_static q q' -> generate_block_hash_extra_keys q' s e i = generate_block_hash_extra_keys q s e i.
Proof.
  intros [H1 H2 H3 H4 H4' H5 H6 H7 H8 H9].
  unfold generate_block_hash_extra_keys, need_extra_keys, gen_mm_extra_hash_keys, gen_lora_extra_hash_keys.
  by rewrite ?H3, ?H7, ?H9.
Qed.

Lemma req_wf_static q q' :
  same_static q q' -> spec_token_ids q' = spec_token_ids q -> req_wf q -> req_wf q'.
Proof.
  intros Hs Hsp [W1 W2 W3 W4]. split.
  - by rewrite (ss_all _ _ Hs).
  - unfold mm_ok. by rewrite (ss_positions _ _ Hs), (ss_hashes _ _ Hs).
  - intros s e. rewrite (keys_static q q' _ _ _ Hs). apply W3.
  - congruence.
Qed.

(** A connector never claims all tokens of a request. *)
Class ConnectorLaws (E : Env) : Prop :=
  matched_below : forall c q n, (n < num_tokens q)%Z -> (get_num_new_matched_tokens c q n < num_tokens q - n)%Z.

Section Safety.
Context `{E : Env} `{!EnvLaws E} `{!ConnectorLaws E} `{!CollisionFree hash_fn NONE_HASH} (len : string -> nat -> Z).

(** ** The invariant *)

Record served (e : EncoderCacheManager) (q : Request) : Prop := {
  sv_wf : req_wf q;
  sv_inputs : mm_inputs q = length (mm_positions q);
  sv_known : known len q;
  sv_lens : forall i, i < length (mm_positions q) -> (0 <= len (request_id q) i)%Z;
  sv_cached : forall i, has_cache e q i = true -> i < length (mm_positions q);
}.

(** The configurations the theorem is about. *)
Record conf_fit (c : SchedulerConf) : Prop := {
  cf_budget : (0 <= max_num_scheduled_tokens c)%Z;
  cf_lookahead : num_lookahead_tokens c = 0%Z;
  cf_loras : max_loras c = None;
  cf_spec : (0 <= spec_tokens c)%Z;
}.

(** [pend]: the tokens scheduled in the current step, not yet counted as
  computed. *)
Record ready (s : Scheduler) (pend : gmap string Z) : Prop := {
  rd_kv : exists l, kv_ok (kv_cache_manager s) l;
  rd_fit : kv_fit (kv_cache_manager s) (sched_max_model_len (conf s));
  rd_conf : conf_fit (conf s);
  rd_stats : stats_on s;
  rd_enc : enc_ok len (encoder_cache_manager s);
  rd_req : forall id r, requests s !! id = Some r ->
    request_id (obj s r) = id /\ served (encoder_cache_manager s) (obj s r) /\
    linked hash_fn NONE_HASH (kv_cache_manager s) (obj s r) (num_computed_tokens (obj s r) + default 0 (pend !! id))%Z;
  rd_waiting : forall id r, requests s !! id = Some r -> r ∉ running s -> blocks_of (kv_cache_manager s) id = [];
  rd_idle : forall id, requests s !! id = None -> idle s id;
}.

Lemma served_static e q q' :
  same_static q q' -> spec_token_ids q' = spec_token_ids q -> served e q -> served e q'.
Proof.
  intros Hs Hsp [S1 S2 S3 S4 S5]. split.
  - by eapply req_wf_static.
  - by rewrite (ss_inputs _ _ Hs), (ss_positions _ _ Hs).
  - unfold known. by rewrite (ss_id _ _ Hs), (ss_positions _ _ Hs).
  - by rewrite (ss_id _ _ Hs), (ss_positions _ _ Hs).
  - unfold has_cache. by rewrite (ss_id _ _ Hs), (ss_positions _ _ Hs).
Qed.

Lemma served_other e e' q id :
  delete id (cached e') = delete id (cached e) -> request_id q <> id -> served e q -> served e' q.
Proof. intros Hd Hne [S1 S2 S3 S4 S5]. split; try done. intros i. rewrite (has_cache_other e e' q id); auto. Qed.

(** A change that concerns one request and its entries only. *)
Record step_of (s s' : Scheduler) (r : nat) (id : string) : Prop := {
  so_conf : conf s' = conf s;
  so_reqs : requests s' = requests s;
  so_objs : forall x, x <> r -> obj s' x = obj s x;
  so_run : forall x, x <> r -> x ∈ running s -> x ∈ running s';
  so_frame : kv_frame (kv_cache_manager s) (kv_cache_manager s') id;
  so_cached : delete id (cached (encoder_cache_manager s')) = delete id (cached (encoder_cache_manager s));
}.

Lemma ready_step s s' pend pend' r id :
  ready s pend -> requests s !! id = Some r -> step_of s s' r id ->
  (forall id', id' <> id -> pend' !! id' = pend !! id') ->
  (exists l, kv_ok (kv_cache_manager s') l) -> enc_ok len (encoder_cache_manager s') ->
  request_id (obj s' r) = id -> served (encoder_cache_manager s') (obj s' r) ->
  linked hash_fn NONE_HASH (kv_cache_manager s') (obj s' r) (num_computed_tokens (obj s' r) + default 0 (pend' !! id))%Z ->
  (r ∉ running s' -> blocks_of (kv_cache_manager s') id = []) ->
  ready s' pend'.
Proof.
  intros [D1 D2 D3 D4 D5 D6 D7 D8] Hr [S1 S2 S3 S4 S5 S6] Hpend Hkv Henc Hid Hsv Hl Hw.
  assert (Hne : forall id' r', requests s !! id' = Some r' -> id' <> id -> r' <> r).
  { intros id' r' Hr' Hne ->. destruct (D6 id' r Hr') as [E' _], (D6 id r Hr) as [E'' _]. congruence. }
  split; rewrite ?S1, ?S2; try done.
  - eapply kv_fit_consts; [apply S5|done].
  - destruct D4 as [D41 D42], (kf_consts _ _ _ S5). split; rewrite S1; [congruence|auto].
  - intros id' r' Hr'. destruct (decide (id' = id)) as [->|Hn].
  + rewrite Hr in Hr'. injection Hr' as <-. done.
  + destruct (D6 id' r' Hr') as (Hid' & Hsv' & Hl'). rewrite S3 by by eapply Hne.
    split; [done|]. split; [eapply served_other; [exact S6|congruence|done]|].
    rewrite Hpend by done. eapply linked_other; [exact S5|congruence|done].
  - intros id' r' Hr' Hnr. destruct (decide (id' = id)) as [->|Hn].
  + rewrite Hr in Hr'. injection Hr' as <-. by apply Hw.
  + rewrite (kf_blocks _ _ _ S5) by done. apply (D7 id' r' Hr'). intros Hin. apply Hnr, S4; [by eapply Hne|done].
  - intros id' Hn'. assert (Hn : id' <> id) by congruence. destruct (D8 id' Hn') as (I1 & I2 & I3).
  split_and!; [by rewrite (kf_blocks _ _ _ S5)|by rewrite (kf_hashes _ _ _ S5)|].
  rewrite <-(lookup_delete_ne (cached (encoder_cache_manager s')) id), S6, lookup_delete_ne by done. done.
Qed.

(** ** Encoder inputs *)

Lemma encoder_loop_total s q computed ps i n budget acc :
  drop i (mm_positions q) = ps -> exists res, encoder_loop s q computed ps i n budget acc = Ok res.
Proof.
  revert i n budget acc. induction ps as [|p ps IH]; intros i n budget acc Hps; cbn [encoder_loop]; [by eexists|].
  assert (Hps' : drop (i + 1) (mm_positions q) = ps) by (rewrite <-drop_drop, Hps; done).
  assert (Hi : i < length (mm_positions q)).
  { destruct (decide (i < length (mm_positions q))); [done|]. rewrite drop_ge in Hps by lia. done. }
  assert (Hcan : exists b, can_allocate (encoder_cache_manager s) q i = Ok b).
  { unfold can_allocate, get_num_encoder_tokens. rewrite (proj2 (Nat.ltb_lt _ _) Hi).
  destruct (lookup_lt_is_Some_2 _ _ Hi) as [p' ->]. by eexists. }
  destruct Hcan as [b ->]. cbn [mbind result_bind].
  repeat match goal with |- context [if ?c then _ else _] => destruct c end; try (by eexists); by apply IH.
Qed.

Lemma choose_inputs_total s q computed n budget :
  mm_inputs q = length (mm_positions q) -> exists res, choose_inputs s q computed n budget = Ok res.
Proof.
  intros Hmm. unfold choose_inputs, try_schedule_encoder_inputs.
  destruct (has_encoder_inputs q) eqn:He; [|by eexists]. rewrite orb_false_r. destruct (n =? 0)%Z; [by eexists|].
  unfold has_encoder_inputs in He. rewrite Hmm in He. rewrite He. cbn [py_assert mbind result_bind].
  by apply encoder_loop_total.
Qed.

(** What is chosen can be allocated, whatever the free space. *)
Definition allocatable (e : EncoderCacheManager) (q : Request) (inputs : list nat) : Prop :=
  NoDup inputs /\ forall j, j ∈ inputs -> has_cache e q j = false /\ j < length (mm_positions q).

Lemma choose_inputs_allocatable s q computed n budget inputs n' eb :
  (0 <= n)%Z -> choose_inputs s q computed n budget = Ok (inputs, n', eb) ->
  allocatable (encoder_cache_manager s) q inputs.
Proof.
  intros Hn. unfold choose_inputs. destruct (has_encoder_inputs q) eqn:He.
  - intros H. apply try_encoder_ok in H; [|done|done]. destruct H as [_ _ _ Hs Hin _]. split.
  + clear -Hs. induction Hs as [|j l Hs IH Hj]; constructor; [|done]. intros Hin.
    rewrite Forall_forall in Hj. specialize (Hj _ Hin). lia.
  + intros j Hj. destruct (Hin j Hj) as (_ & Hc & _ & p & Hp & _). split; [done|]. by apply lookup_lt_Some in Hp.
  - intros [= <- _ _]. split; [constructor|]. intros j Hj. by apply elem_of_nil in Hj.
Qed.

Lemma allocate_all_ok e q inputs :
  enc_ok len e -> served e q -> allocatable e q inputs ->
  exists e', foldM (fun e i => EncoderCache.allocate e q i) e inputs = Ok e' /\ enc_ok len e' /\ served e' q /\
  delete (request_id q) (cached e') = delete (request_id q) (cached e).
Proof.
  intros He Hs [Hnd Hin]. revert e He Hs Hin. induction Hnd as [|i l Hi Hnd IH]; intros e He Hs Hin; cbn [foldM].
  { by exists e. }
  destruct (Hin i ltac:(by left)) as [Hc Hlt]. pose proof Hs as [S1 S2 S3 S4 S5].
  destruct (allocate_ok len e q i He S3 Hlt (S4 i Hlt) Hc) as (e1 & -> & He1 & _ & _ & _ & Hg & Hd). cbn [mbind result_bind].
  assert (Hc1 : forall j, has_cache e1 q j = true <-> has_cache e q j = true \/ j = i).
  { intros j. rewrite !has_cache_iff, Hg, elem_of_union, elem_of_singleton. done. }
  destruct (IH e1 He1) as (e2 & Hrun & He2 & Hs2 & Hd2).
  - split; try done. intros j [Hj| ->]%Hc1; [by apply S5|done].
  - intros j Hj. destruct (Hin j ltac:(by right)) as [Hcj Hlj]. split; [|done].
  apply not_true_iff_false. rewrite Hc1. intros [?|Hji]; [congruence|]. subst j. done.
  - exists e2. split_and!; [done|done|done|congruence].
Qed.

(** ** Running requests *)

Lemma ready_waiting s pend q : ready s pend -> ready (set_waiting q s) pend.
Proof. by intros []. Qed.

(** When no other request runs, no other request holds a block. *)
Lemma alone_running s pend r id :
  ready s pend -> requests s !! id = Some r -> (forall x, x ∈ running s -> x = r) -> alone (kv_cache_manager s) id.
Proof using All.
  intros Hrd Hr Hrun id' Hne. destruct (requests s !! id') as [r'|] eqn:Er; [|by destruct (rd_idle _ _ Hrd id' Er)].
  apply (rd_waiting _ _ Hrd id' r' Er). intros Hin%Hrun. subst r'.
  destruct (rd_req _ _ Hrd id r Hr) as [E1 _], (rd_req _ _ Hrd id' r Er) as [E2 _]. congruence.
Qed.

(** The last running request is preempted. *)
Lemma preempt_ready now s pend p id rest :
  ready s pend -> requests s !! id = Some p -> pend !! id = None ->
  (forall x, x <> p -> x ∈ running s -> x ∈ rest) ->
  exists s', preempt now s p rest = Ok s' /\ ready s' pend /\ kv_consts (kv_cache_manager s) (kv_cache_manager s').
Proof using All.
  intros Hrd Hp Hpend Hrest. pose proof Hrd as [[l Hkv] _ _ _ D5 D6 _ _].
  destruct (D6 id p Hp) as (Hid & Hsv & Hl). rewrite Hpend in Hl. cbn in Hl. rewrite Z.add_0_r in Hl.
  destruct (KVCacheManager.free_ok _ l (obj s p) Hkv) as (kv & Hfree & Hkv' & _). unfold preempt. rewrite Hfree.
  cbn [mbind result_bind]. eexists. split; [done|].
  destruct (free_frame _ _ _ Hfree) as (Hf & Hb & _). rewrite Hid in Hf, Hb. split; [|apply Hf].
  set (F := fun q => _). set (s1 := update p F _).
  assert (Hobj : forall x, obj (set_waiting (p :: waiting s1) s1) x = if decide (x = p) then F (obj s p) else obj s x)
  by (intros x; apply (obj_update (set_kv kv (set_running rest s)))).
  assert (HF : same_static (obj s p) (F (obj s p)) /\ spec_token_ids (F (obj s p)) = spec_token_ids (obj s p) /\
  num_computed_tokens (F (obj s p)) = 0%Z) by (subst F; cbn; by destruct (sched_log_stats _)).
  destruct HF as (HF1 & HF2 & HF3).
  apply (ready_step s _ pend pend p id); try done.
  - split; try done. intros x Hx. by rewrite Hobj, decide_False.
  - by eexists.
  - rewrite Hobj, decide_True by done. by rewrite (ss_id _ _ HF1).
  - rewrite Hobj, decide_True by done. by apply (served_static _ (obj s p)).
  - rewrite Hobj, decide_True, HF3, Hpend by done.
  apply (free_linked _ _ (kv_cache_manager s) (obj s p)); [done|done|apply HF1|apply HF1].
Qed.

(** Allocating for a running request; [None]: no room. *)
Lemma alloc_ready s pend r id n :
  ready s pend -> requests s !! id = Some r -> pend !! id = None -> r ∈ running s ->
  (0 < n)%Z -> (0 <= num_computed_tokens (obj s r))%Z -> (num_computed_tokens (obj s r) + n <= num_tokens (obj s r))%Z ->
  (num_tokens (obj s r) <= sched_max_model_len (conf s))%Z ->
  exists kv res, allocate_slots hash_fn NONE_HASH (kv_cache_manager s) (obj s r) n [] (num_lookahead_tokens (conf s)) = Ok (kv, res) /\
  ready (set_kv kv s) (match res with Some _ => <[id := n]> pend | None => pend end) /\
  kv_consts (kv_cache_manager s) kv /\
  (alone (kv_cache_manager s) id -> roomy (kv_cache_manager s) (sched_max_model_len (conf s)) -> res <> None).
Proof using All.
  intros Hrd Hr Hpend Hrun Hn Hc Hle HL. pose proof Hrd as [[l Hkv] D2 [_ D3 _ _] _ D5 D6 _ _].
  destruct (D6 id r Hr) as (Hid & Hsv & Hl). rewrite Hpend in Hl. cbn in Hl. rewrite Z.add_0_r in Hl. rewrite D3.
  destruct (alloc_linked _ _ _ _ _ (obj s r) n [] Hkv D2 (sv_wf _ _ Hsv) Hl Hn Hc) as (kv & res & l' & Hrun' & Hkv' & Hf & Hres);
  [cbn; lia|done|by left|]. rewrite Hid in Hf.
  exists kv, res. split; [done|]. split; [|split; [apply Hf|]]; cycle 1.
  { intros Ha Hroom ->. revert Hrun'. eapply alloc_room; try done; [apply Hsv|cbn; lia|by left|by rewrite Hid]. }
  assert (Hst : step_of s (set_kv kv s) r id) by done.
  destruct res as [nb|].
  - apply (ready_step s _ pend _ r id); try done.
  + intros id' Hne. by rewrite lookup_insert_ne.
  + by eexists.
  + cbn. rewrite Z.add_0_r in Hres. by rewrite lookup_insert_eq.
  - apply (ready_step s _ pend _ r id); try done.
  + by eexists.
  + cbn. rewrite Hpend. cbn. rewrite Z.add_0_r. apply Hres.
Qed.

Section Step.
Context (s0 : Scheduler) (H0 : sched_ok s0).

Lemma preempt_loop_ready now v n rr s r k id :
  loop_inv s0 s v -> run_queues s0 s v k -> v_index v < k -> running s0 !! v_index v = Some r ->
  rr = reverse (running s) -> ready s (v_scheduled v) -> requests s !! id = Some r -> (0 < n)%Z ->
  (num_computed_tokens (obj s r) + n <= num_tokens (obj s r))%Z ->
  exists s' v' res, preempt_loop now s v r n rr = Ok (s', v', res) /\
  v_scheduled v' = v_scheduled v /\ requests s' = requests s /\ encoder_cache_manager s' = encoder_cache_manager s /\
  ready s' (match res with Some _ => <[id := n]> (v_scheduled v) | None => v_scheduled v end) /\
  (v_index v = 0 -> roomy (kv_cache_manager s) (sched_max_model_len (conf s)) -> res <> None).
Proof using All.
  revert v s k. induction rr as [|p rest IH]; intros v s k Hi Hq Hlt Hr Hrev Hrd Hreq Hn Hle; cbn [preempt_loop].
  { exfalso. apply (f_equal length) in Hrev. rewrite length_reverse, (rq_running _ _ _ _ Hq), length_take in Hrev.
  apply lookup_lt_Some in Hr. cbn in Hrev. lia. }
  pose proof (rq_k _ _ _ _ Hq) as Hkk. pose proof (running_nodup _ H0) as Hnd.
  assert (Hunsch : forall j x, v_index v <= j -> running s0 !! j = Some x ->
  x ∈ live s0 /\ v_scheduled v !! request_id (obj s0 x) = None).
  { intros j x Hj Hx. assert (Hl : x ∈ live s0) by (apply elem_of_app; right; by eapply list_elem_of_lookup_2).
  split; [done|]. apply (unscheduled_none s0 H0 s v x Hi Hl). unfold scheduled_of.
  destruct (rq_new _ _ _ _ Hq) as [-> ->]. cbn. intros Hin. apply (rq_sched _ _ _ _ Hq) in Hin.
  by eapply (not_in_take (running s0) j (v_index v)). }
  assert (Hids : forall x, request_id (obj s x) = request_id (obj s0 x)) by (intros x; apply (fr_static _ _ (lv_frame _ _ _ Hi))).
  assert (Hrin : r ∈ running s).
  { rewrite (rq_running _ _ _ _ Hq). apply list_elem_of_lookup. exists (v_index v). by apply lookup_take_Some. }
  destruct (Hunsch (v_index v) r ltac:(lia) Hr) as [Hl Hnone].
  assert (Hid : request_id (obj s0 r) = id) by (rewrite <-Hids; by apply (rd_req _ _ Hrd)).
  rewrite Hid in Hnone. destruct (lv_range _ _ _ Hi r Hl) as ((R1 & _) & _ & R3).
  rewrite <-(fr_conf _ _ (lv_frame _ _ _ Hi)) in R3.
  destruct (alloc_ready s (v_scheduled v) r id n Hrd Hreq Hnone Hrin Hn R1 Hle R3) as (kv & res & -> & Hrd1 & Hk1 & Hroom).
  cbn [mbind result_bind]. destruct res as [b|].
  { do 3 eexists. split; [done|]. by split_and!. }
  (* the last one goes *)
  pose proof Hrev as Hrev'. rewrite (rq_running _ _ _ _ Hq) in Hrev'. symmetry in Hrev'.
  apply take_last in Hrev' as (Hk0 & Hpk & Hrest & _); [|lia].
  destruct (Hunsch (k - 1) p ltac:(lia) Hpk) as [Hpl Hpn].
  assert (Hpreq : requests (set_kv kv s) !! request_id (obj s0 p) = Some p).
  { cbn. rewrite (fr_requests _ _ (lv_frame _ _ _ Hi)). by apply (so_requests _ H0). }
  destruct (preempt_ready now (set_kv kv s) (v_scheduled v) p _ (reverse rest) Hrd1 Hpreq Hpn) as (s1 & Hp & Hrd2 & Hk2).
  { intros x Hx Hin. cbn in Hin. rewrite <-(reverse_involutive (running s)), <-Hrev, elem_of_reverse in Hin.
  apply elem_of_reverse. by apply elem_of_cons in Hin as [->|]. }
  rewrite Hp. cbn [mbind result_bind].
  assert (Hs1 : requests s1 = requests s /\ encoder_cache_manager s1 = encoder_cache_manager s).
  { unfold preempt in Hp. apply bind_ok in Hp as (kv1 & _ & Hp). by injection Hp as <-. }
  destruct Hs1 as [Hs1 Hs1e].
  destruct (Nat.eqb_spec p r) as [->|Hne].
  { do 3 eexists. split; [done|]. split_and!; try done. intros Hv0 Hr0. destruct (Hroom); [|done|done].
  eapply alone_running; [done|done|]. intros x. rewrite (rq_running _ _ _ _ Hq).
  assert (k - 1 = 0) as Hk1' by (eapply NoDup_lookup; [exact Hnd|exact Hpk|by rewrite <-Hv0]).
  replace k with 1 by lia. rewrite Hv0 in Hr. destruct (running s0) as [|y l]; [done|]. injection Hr as ->. cbn. by intros ->%list_elem_of_singleton. }
  destruct (preempt_inv s0 H0 now (set_kv kv s) v k p rest s1) as (Hi1 & Hq1 & _ & Hrun1 & Hobj1);
  [by apply loop_inv_kv|by destruct Hq; split|done|done|done|].
  assert (Hlt1 : v_index v < k - 1).
  { destruct (decide (v_index v = k - 1)) as [E'|]; [|lia]. rewrite <-E', Hr in Hpk. congruence. }
  destruct (IH (add_preempted p v) s1 (k - 1)) as (s' & v' & res & Hrun & E1 & E2 & E3 & Hrd' & Hroom'); try done.
  - by rewrite Hrun1, reverse_involutive.
  - by rewrite Hs1.
  - by rewrite Hobj1.
  - exists s', v', res. split_and!; [done|done|congruence|congruence|done|]. intros Hv0 Hr0. apply Hroom'; [done|].
  assert (conf s1 = conf s) as -> by (unfold preempt in Hp; apply bind_ok in Hp as (kv1 & _ & Hp); by injection Hp as <-).
  eapply roomy_consts, Hr0. by transitivity kv.
Qed.

Lemma allocate_inputs_ready s pend r id inputs :
  ready s pend -> requests s !! id = Some r -> allocatable (encoder_cache_manager s) (obj s r) inputs ->
  exists s', allocate_inputs s r inputs = Ok s' /\ ready s' pend.
Proof using All.
  intros Hrd Hr Ha. pose proof Hrd as [D1 _ _ _ D5 D6 D7 _]. destruct (D6 id r Hr) as (Hid & Hsv & Hl).
  destruct (allocate_all_ok _ _ _ D5 Hsv Ha) as (e & He & He1 & Hs & Hd). unfold allocate_inputs. rewrite He.
  cbn [mbind result_bind]. eexists. split; [done|].
  rewrite Hid in Hd. apply (ready_step s _ pend pend r id); try done. by apply (D7 id).
Qed.

Lemma cap_prefill_pos c n : (0 < n -> 0 < cap_prefill c n <= n)%Z.
Proof.
  unfold cap_prefill. destruct (Z.ltb_spec 0 (long_prefill_token_threshold c)); cbn; [|lia].
  destruct (Z.ltb_spec (long_prefill_token_threshold c) n); lia.
Qed.

(** The scheduled part of a running request. *)
Lemma running_tokens c q budget :
  in_range c q -> (0 < budget)%Z ->
  let n := Z.min (Z.min (cap_prefill c (num_tokens_with_spec q - num_computed_tokens q)) budget)
         (sched_max_model_len c - num_computed_tokens q) in
  (0 <= n <= budget /\ num_computed_tokens q + n <= num_tokens_with_spec q)%Z.
Proof.
  intros (H1 & H2 & _) Hb. cbn zeta.
  pose proof (cap_prefill_range c (num_tokens_with_spec q - num_computed_tokens q) ltac:(lia)). lia.
Qed.

Lemma running_one_ready now s v k r :
  loop_inv s0 s v -> run_queues s0 s v k -> running s !! v_index v = Some r -> (0 < v_budget v)%Z ->
  ready s (v_scheduled v) ->
  exists s' v' fl, running_one now s v r = Ok (s', v', fl) /\ ready s' (v_scheduled v') /\
  (v_scheduled v <> ∅ -> v_scheduled v' <> ∅) /\
  (v_index v = 0 -> roomy (kv_cache_manager s) (sched_max_model_len (conf s)) -> has_encoder_inputs (obj s r) = false ->
   (num_computed_tokens (obj s r) < num_tokens (obj s r))%Z -> fl = Continue /\ v_scheduled v' <> ∅).
Proof using All.
  intros Hi Hq Hr Hbud Hrd. pose proof Hr as Hr'. rewrite (rq_running _ _ _ _ Hq) in Hr'.
  apply lookup_take_Some in Hr' as [Hr' Hlt].
  assert (Hl : r ∈ live s0) by (apply elem_of_app; right; by eapply list_elem_of_lookup_2).
  pose proof (lv_range _ _ _ Hi r Hl) as Hrange. rewrite <-(fr_conf _ _ (lv_frame _ _ _ Hi)) in Hrange.
  assert (Hreq : requests s !! request_id (obj s0 r) = Some r).
  { rewrite (fr_requests _ _ (lv_frame _ _ _ Hi)). by apply (so_requests _ H0). }
  set (id := request_id (obj s0 r)) in *. destruct (rd_req _ _ Hrd id r Hreq) as (Hid & Hsv & _).
  unfold running_one. cbn zeta. pose proof (running_tokens _ _ _ Hrange Hbud) as Hn. cbn zeta in Hn.
  set (n := Z.min (Z.min _ _) _) in *.
  assert (Hpos : (num_computed_tokens (obj s r) < num_tokens (obj s r) -> 0 < n)%Z).
  { intros Hlt0. pose proof Hrange as (_ & _ & Hmax). unfold num_tokens_with_spec in n. unfold num_tokens in *.
  pose proof (cap_prefill_pos (conf s) (Z.of_nat (length (all_token_ids (obj s r))) + Z.of_nat (length (spec_token_ids (obj s r))) - num_computed_tokens (obj s r)) ltac:(lia)).
  subst n. lia. }
  clearbody n.
  fold (choose_inputs s (obj s r) (num_computed_tokens (obj s r)) n (v_encoder_budget v)).
  destruct (choose_inputs_total s (obj s r) (num_computed_tokens (obj s r)) n (v_encoder_budget v) (sv_inputs _ _ Hsv))
  as ([[inputs n'] eb] & Hch). rewrite Hch. cbn [mbind result_bind].
  pose proof (choose_inputs_ok _ _ _ _ _ _ _ _ (proj1 (proj1 Hn)) Hch) as [Hn' Hall].
  apply choose_inputs_allocatable in Hch; [|lia].
  destruct (Z.eqb_spec n' 0) as [->|Hn0].
  { do 3 eexists. split; [done|]. split; [done|]. split; [done|]. intros _ _ Htext Hhungry. exfalso.
  specialize (Hall Htext). specialize (Hpos Hhungry). lia. }
  pose proof (rw_spec _ (sv_wf _ _ Hsv)) as Hsp.
  assert (Hnt : num_tokens_with_spec (obj s r) = num_tokens (obj s r)).
  { unfold num_tokens_with_spec, num_tokens. rewrite Hsp. cbn. lia. }
  destruct (preempt_loop_ready now v n' _ s r k id Hi Hq Hlt Hr' eq_refl Hrd Hreq) as (s1 & v1 & res & Hrun & E1 & E2 & E3 & Hrd1 & Hroom);
  [lia|lia|].
  destruct (preempt_loop_ok s0 H0 now v n' _ s r k s1 v1 res Hi Hq Hlt Hr' eq_refl Hrun) as (k' & _ & _ & _ & _ & _ & Hres).
  rewrite Hrun. cbn [mbind result_bind]. destruct res as [blocks|]; [|do 3 eexists; split; [done|rewrite E1; split; [done|split; [done|intros Hv0 Hr0; by destruct (Hroom Hv0 Hr0)]]]].
  destruct Hres as [_ Hobj]. rewrite Hobj. unfold trim_spec at 1. rewrite Hsp.
  destruct (allocate_inputs_ready s1 _ r id inputs Hrd1) as (s2 & -> & Hrd2); [by rewrite E2|by rewrite E3, Hobj|].
  cbn [mbind result_bind]. do 3 eexists. split; [done|]. cbn. rewrite Hid, E1. split; [done|]. split; [intros _; apply insert_non_empty|].
  intros _ _ _ _. split; [done|apply insert_non_empty].
Qed.

(** The first running request is text and has tokens left to compute. *)
Definition head_hungry (s : Scheduler) : Prop :=
  exists r, running s !! 0 = Some r /\ has_encoder_inputs (obj s r) = false /\ (num_computed_tokens (obj s r) < num_tokens (obj s r))%Z.

Lemma running_loop_ready now fuel s v k :
  loop_inv s0 s v -> run_queues s0 s v k -> length (running s0) - v_index v <= fuel -> ready s (v_scheduled v) ->
  exists s' v' k', running_loop now fuel s v = Some (Ok (s', v')) /\ loop_inv s0 s' v' /\ run_queues s0 s' v' k' /\
  ready s' (v_scheduled v') /\ (v_scheduled v <> ∅ -> v_scheduled v' <> ∅) /\
  (v_index v = 0 -> (0 < v_budget v)%Z -> roomy (kv_cache_manager s) (sched_max_model_len (conf s)) -> head_hungry s -> v_scheduled v' <> ∅).
Proof using All.
  revert s v k. induction fuel as [|fuel IH]; intros s v k Hi Hq Hf Hrd; cbn [running_loop];
  (destruct (running s !! v_index v) as [r|] eqn:Hr;
   [|exists s, v, k; split_and!; try done; intros Hv0 _ _ (x & Hx & _); rewrite Hv0 in Hr; congruence]);
  (destruct (Z.ltb_spec 0 (v_budget v)) as [Hb|Hb]; [|exists s, v, k; split_and!; try done; lia]).
  - exfalso. rewrite (rq_running _ _ _ _ Hq) in Hr. apply lookup_take_Some in Hr as [Hr _].
  apply lookup_lt_Some in Hr. lia.
  - destruct (running_one_ready now s v k r Hi Hq Hr Hb Hrd) as (s1 & v1 & fl & Hone & Hrd1 & Hmono & Hprog). rewrite Hone.
  destruct (running_one_ok s0 H0 now s v k r s1 v1 fl Hi Hq Hr Hb Hone) as (k1 & Hi1 & Hq1 & Hfl).
  assert (Hhead : v_index v = 0 -> roomy (kv_cache_manager s) (sched_max_model_len (conf s)) -> head_hungry s ->
    fl = Continue /\ v_scheduled v1 <> ∅).
  { intros Hv0 Hroom (x & Hx & Ht & Hh). rewrite Hv0, Hx in Hr. injection Hr as ->. by apply Hprog. }
  destruct fl.
  + destruct (IH s1 v1 k1 Hi1 Hq1) as (s2 & v2 & k2 & ? & ? & ? & ? & Hm & _); [lia|done|].
  exists s2, v2, k2. split_and!; try done; [by intros Hs%Hmono%Hm|]. intros Hv0 _ Hroom Hh. by apply Hm, Hhead.
  + exists s1, v1, k1. split_and!; try done. intros Hv0 _ Hroom Hh. by destruct (Hhead Hv0 Hroom Hh).
Qed.

(** ** Waiting requests *)

Lemma external_below s q n : (0 <= n < num_tokens q)%Z -> (0 <= external_tokens s q n < num_tokens q - n)%Z.
Proof using EnvLaws0 ConnectorLaws0.
  intros Hn. unfold external_tokens. destruct (connector s); [|lia].
  split; [apply matched_nonneg|apply matched_below; lia].
Qed.

(** What is left to schedule is positive, and so is the part taken from it. *)
Lemma chosen_positive s q computed n budget inputs n' eb :
  (0 < n)%Z -> choose_inputs s q computed n budget = Ok (inputs, n', eb) ->
  has_encoder_inputs q && (n' =? 0)%Z = false -> (0 < n' <= n)%Z.
Proof.
  intros Hn Hch Hz. apply choose_inputs_ok in Hch as [Hr Hs]; [|lia].
  destruct (has_encoder_inputs q); [|rewrite Hs by done; lia]. apply Z.eqb_neq in Hz. lia.
Qed.

Lemma stats_logged s : stats_on s ->
  log_stats (kv_cache_manager s) = true -> is_Some (prefix_cache_stats (kv_cache_manager s)).
Proof. intros [E1 E2]. by rewrite E1. Qed.

Lemma waiting_one_ready now s v loras r rest id :
  loop_inv s0 s v -> r ∈ live s0 -> r ∉ running s -> (0 < v_budget v)%Z -> ready s (v_scheduled v) ->
  requests s !! id = Some r -> status (obj s r) = WAITING \/ status (obj s r) = PREEMPTED ->
  exists s' next, waiting_one now s v loras r rest = Ok (s', next) /\
  ready s' (match next with Some (v', _) => v_scheduled v' | None => v_scheduled v end) /\
  (forall v' loras', next = Some (v', loras') -> v_scheduled v' <> ∅) /\
  (alone (kv_cache_manager s) id -> roomy (kv_cache_manager s) (sched_max_model_len (conf s)) ->
   has_encoder_inputs (obj s r) = false -> next <> None).
Proof using All.
  intros Hi Hl Hnr Hbud Hrd Hreq Hst. destruct (rd_req _ _ Hrd id r Hreq) as (Hid & Hsv & Hlk).
  assert (Hpend : v_scheduled v !! id = None).
  { rewrite <-Hid, (ss_id _ _ (fr_static _ _ (lv_frame _ _ _ Hi) r)). apply (unscheduled_none s0 H0 s v r Hi Hl).
  intros Hin. by apply Hnr, (lv_sched _ _ _ Hi). }
  rewrite Hpend in Hlk. cbn in Hlk. rewrite Z.add_0_r in Hlk.
  pose proof (rd_waiting _ _ Hrd id r Hreq Hnr) as Hb.
  destruct (lv_range _ _ _ Hi r Hl) as ((R1 & _) & _ & R3). rewrite <-(fr_conf _ _ (lv_frame _ _ _ Hi)) in R3.
  assert (Hzero : num_computed_tokens (obj s r) = 0%Z).
  { enough (num_computed_tokens (obj s r) <= 0)%Z by lia. eapply linked_empty; [done|by rewrite Hid]. }
  rewrite Hzero in Hlk. destruct (rd_kv _ _ Hrd) as [l Hkv].
  destruct (computed_linked hash_fn NONE_HASH _ l _ (obj s r) Hkv (rd_fit _ _ Hrd) (sv_wf _ _ Hsv) Hlk ltac:(by rewrite Hid)
  (stats_logged s (rd_stats _ _ Hrd))) as (kv1 & new & Hcomp & Hkv1 & Hf1 & Hlk1 & Hb1 & Hnc & Hnew).
  rewrite Hid in Hf1. unfold waiting_one. cbn zeta. rewrite Hcomp. cbn [mbind result_bind]. set (s1 := set_kv kv1 s).
  set (nc := (Z.of_nat (length new) * Z.of_nat (block_size (kv_cache_manager s)))%Z) in *.
  assert (Hrd1 : ready s1 (v_scheduled v)).
  { apply (ready_step s s1 _ _ r id Hrd); try done; [by eexists|by apply (rd_enc _ _ Hrd)| |by rewrite <-Hid].
  change (obj s1 r) with (obj s r). by rewrite Hpend, Hzero. }
  pose proof (external_below s1 (obj s r) nc ltac:(lia)) as Hext. set (ext := external_tokens s1 (obj s r) nc) in *.
  set (n := Z.min _ _).
  assert (Hn : (0 < n /\ n <= v_budget v /\ nc + ext + n <= num_tokens (obj s r))%Z).
  { pose proof (cap_prefill_pos (conf s1) (num_tokens (obj s r) - (nc + ext)) ltac:(lia)). subst n. lia. }
  clearbody n ext. rewrite (proj2 (Z.ltb_lt 0 n)) by lia. cbn [py_assert mbind result_bind].
  fold (choose_inputs s1 (obj s r) (nc + ext) n (v_encoder_budget v)).
  destruct (choose_inputs_total s1 (obj s r) (nc + ext) n (v_encoder_budget v) (sv_inputs _ _ Hsv)) as ([[inputs n'] eb] & Hch).
  rewrite Hch. cbn [mbind result_bind].
  destruct (has_encoder_inputs (obj s r) && (n' =? 0)%Z) eqn:Ez.
  { do 2 eexists. split; [done|]. split; [done|]. split; [done|]. intros _ _ Ht. by rewrite Ht in Ez. }
  pose proof (chosen_positive _ _ _ _ _ _ _ _ (proj1 Hn) Hch Ez) as Hn'.
  apply choose_inputs_allocatable in Hch; [|lia].
  pose proof (kf_consts _ _ _ Hf1) as Hk1.
  assert (Hroom : alone (kv_cache_manager s) id -> roomy (kv_cache_manager s) (sched_max_model_len (conf s)) ->
  forall m', allocate_slots hash_fn NONE_HASH kv1 (obj s r) (n' + ext) new 0 <> Ok (m', None)).
  { intros Ha Hroom m'. apply (alloc_room hash_fn NONE_HASH kv1 l (sched_max_model_len (conf s)) (obj s r) _ new); rewrite ?Hzero; try done; try lia.
  - by apply (rd_fit _ _ Hrd1).
  - apply Hsv.
  - rewrite (kc_size _ _ Hk1). fold nc. lia.
  - intros id' Hne. rewrite Hid in Hne. rewrite (kf_blocks _ _ _ Hf1) by done. by apply Ha.
  - by eapply roomy_consts. }
  destruct (alloc_linked hash_fn NONE_HASH kv1 l _ (obj s r) (n' + ext) new Hkv1 (rd_fit _ _ Hrd1) (sv_wf _ _ Hsv))
  as (kv2 & res & l2 & Hal & Hkv2 & Hf2 & Hlk2); rewrite ?Hzero; try done; try lia.
  { rewrite (kc_size _ _ Hk1). fold nc. lia. }
  rewrite Hid in Hf2.
  change (num_lookahead_tokens (conf s1)) with (num_lookahead_tokens (conf s)). rewrite (cf_lookahead _ (rd_conf _ _ Hrd)).
  change (kv_cache_manager s1) with kv1. rewrite Hal. cbn [mbind result_bind]. rewrite Hzero in Hlk2.
  destruct res as [nb|].
  2: { do 2 eexists. split; [done|]. split; [|split; [done|intros Ha Hr0 _; by destruct (Hroom Ha Hr0 kv2)]]. destruct Hlk2 as [Hlk2 Hlen].
  apply (ready_step s1 _ _ _ r id Hrd1); try done; [by eexists|by apply (rd_enc _ _ Hrd)| |].
  - change (obj (set_kv kv2 s1) r) with (obj s r). by rewrite Hpend, Hzero.
  - intros _. apply nil_length_inv. change (length (blocks_of kv2 id) = 0). rewrite Hid in Hlen, Hb1. by rewrite Hlen, Hb1. }
  rewrite (kc_size _ _ Hk1), Z.add_0_l in Hlk2. fold nc in Hlk2.
  assert (Htw : exists v1, take_waiting r (obj s r) n' (new ++ nb) inputs eb v = Ok v1).
  { unfold take_waiting. destruct Hst as [-> | ->]; by eexists. }
  destruct Htw as [v1 Htw]. rewrite Htw. apply take_waiting_ok in Htw as (_ & V2 & _). cbn [mbind result_bind].
  destruct (to_running_ok now (set_kv kv2 s1) r rest ext (nc + ext)) as (T1 & T2 & T3 & T4 & T5 & T6 & T7 & T8).
  assert (T9 : kv_cache_manager (to_running now (set_kv kv2 s1) r rest ext (nc + ext)) = kv2 /\
  encoder_cache_manager (to_running now (set_kv kv2 s1) r rest ext (nc + ext)) = encoder_cache_manager s).
  { unfold to_running. cbn. by destruct (sched_log_stats _). }
  set (s2 := to_running _ _ _ _ _ _) in *. clearbody s2. change (obj (set_kv kv2 s1) r) with (obj s r) in *.
  destruct T9 as [T9 T10].
  assert (Hrd2 : ready s2 (<[id := n']> (v_scheduled v))).
  { apply (ready_step s1 _ (v_scheduled v) _ r id Hrd1); try done.
  - split; [apply T1|apply T1|intros x Hx; by rewrite T4| | |].
  + intros x _ Hin. rewrite T2. apply elem_of_app. by left.
  + by rewrite T9.
  + by rewrite T10.
  - intros id' Hne. by rewrite lookup_insert_ne.
  - rewrite T9. by eexists.
  - rewrite T10. by apply (rd_enc _ _ Hrd).
  - by rewrite (ss_id _ _ T5).
  - rewrite T10. by apply (served_static _ (obj s r)).
  - rewrite T9, T7, lookup_insert_eq. change (default 0%Z (Some n')) with n'. replace (nc + ext + n')%Z with (nc + (n' + ext))%Z by lia.
  apply (linked_same hash_fn NONE_HASH kv2 kv2 (obj s r)); try done; [apply T5|by rewrite (ss_all _ _ T5)].
  - intros Hn2. destruct Hn2. rewrite T2. apply elem_of_app. right. by left. }
  destruct (allocate_inputs_ready s2 _ r id inputs Hrd2) as (s3 & -> & Hrd3).
  - rewrite (fr_requests _ _ T1). done.
  - rewrite T10. destruct Hch as [Hc1 Hc2]. split; [done|]. intros j Hj. unfold has_cache in *.
  rewrite (ss_id _ _ T5), (ss_positions _ _ T5). by apply Hc2.
  - cbn [mbind result_bind]. do 2 eexists. split; [done|]. cbn. rewrite V2, Hid. split; [done|]. split; [|done].
  intros v' l' [= <- _]. rewrite V2. apply insert_non_empty.
Qed.

(** A waiting request changes status. *)
Lemma requeue_ready s pend r id f :
  ready s pend -> requests s !! id = Some r -> (forall q, same_static q (f q)) ->
  (forall q, spec_token_ids (f q) = spec_token_ids q /\ num_computed_tokens (f q) = num_computed_tokens q) ->
  ready (update r f s) pend.
Proof using All.
  intros Hrd Hr Hf Hf2. destruct (rd_req _ _ Hrd id r Hr) as (Hid & Hsv & Hl).
  apply (ready_step s _ pend pend r id); try done.
  - split; try done. intros x Hx. by rewrite obj_update_ne.
  - apply Hrd.
  - apply (rd_enc _ _ Hrd).
  - rewrite obj_update_eq. by rewrite (ss_id _ _ (Hf _)).
  - rewrite obj_update_eq. apply (served_static _ (obj s r)); [apply Hf|apply Hf2|done].
  - rewrite obj_update_eq, (proj2 (Hf2 _)).
  apply (linked_same hash_fn NONE_HASH (kv_cache_manager s) _ (obj s r)); try done; [apply Hf|by rewrite (ss_all _ _ (Hf _))].
  - by apply (rd_waiting _ _ Hrd id).
Qed.

Lemma waiting_status_cases q :
  waiting_status q -> status q <> WAITING_FOR_FSM -> status q = WAITING \/ status q = PREEMPTED.
Proof. unfold waiting_status. intros Hw Hne. repeat (apply elem_of_cons in Hw as [?|Hw]; [tauto|]). by apply elem_of_nil in Hw. Qed.

(** A waiting text request that does not wait for its grammar. *)
Definition startable (rdy : Request -> bool) (q : Request) : Prop :=
  has_encoder_inputs q = false /\ (status q = WAITING_FOR_FSM -> structured_output_request q && rdy q = true).

(** Nothing runs yet, and the waiting requests up to one that can start are text. *)
Definition queue_startable (rdy : Request -> bool) (s : Scheduler) (queue : list nat) : Prop :=
  running s = [] /\ (forall r, r ∈ queue -> has_encoder_inputs (obj s r) = false) /\ exists r, r ∈ queue /\ startable rdy (obj s r).

Lemma waiting_loop_ready now rdy s v loras queue skipped :
  loop_inv s0 s v -> waiting s = queue -> (forall r, r ∈ queue -> r ∈ live s0 /\ r ∉ running s0) -> NoDup (queue ++ running s) ->
  ready s (v_scheduled v) ->
  exists s' v' skipped', waiting_loop now rdy s v loras queue skipped = Ok (s', v', skipped') /\ ready s' (v_scheduled v') /\
  (v_scheduled v <> ∅ -> v_scheduled v' <> ∅) /\
  ((0 < v_budget v)%Z -> 0 < max_num_running_reqs (conf s) -> roomy (kv_cache_manager s) (sched_max_model_len (conf s)) ->
   queue_startable rdy s queue -> v_scheduled v' <> ∅).
Proof using All.
  revert s v loras skipped. induction queue as [|r rest IH]; intros s v loras skipped Hi Hw Hl Hnd Hrd; cbn [waiting_loop].
  { exists s, v, skipped. split_and!; try done. intros _ _ _ (_ & _ & x & Hx & _). by apply elem_of_nil in Hx. }
  destruct (negb (0 <? v_budget v)%Z || _) eqn:Hstop.
  { exists s, v, skipped. split_and!; try done. intros Hb Hm _ (Hrun & _). rewrite Hrun, (proj2 (Z.ltb_lt _ _) Hb) in Hstop. cbn in Hstop.
  destruct (max_num_running_reqs (conf s)); [lia|done]. }
  apply orb_false_iff in Hstop as [Hb%negb_false_iff%Z.ltb_lt _].
  cbn in Hnd. apply NoDup_cons in Hnd as [Hr Hnd]. rewrite not_elem_of_app in Hr. destruct Hr as [Hr1 Hr2].
  destruct (Hl r ltac:(by left)) as [Hrl Hr0].
  assert (Hl' : forall x, x ∈ rest -> x ∈ live s0 /\ x ∉ running s0) by (intros x Hx; apply Hl; by right).
  destruct (_ && negb _) eqn:Hfsm.
  { destruct (IH (set_waiting rest s) v loras (r :: skipped)) as (s' & v' & sk & Hrun & Hrd' & Hm & Hp);
    [by apply loop_inv_queue|done|done|done|by apply ready_waiting|].
  exists s', v', sk. split_and!; try done. intros Hb0 Hm0 Hroom (Hrun0 & Htext & x & Hx & Hst). apply Hp; try done. split; [done|].
  split; [intros y Hy; apply Htext; by right|]. exists x. split; [|done]. apply elem_of_cons in Hx as [->|]; [|done].
  exfalso. destruct Hst as [_ Hst]. apply andb_true_iff in Hfsm as [Hf%bool_decide_eq_true_1 Hn%negb_true_iff]. rewrite Hst in Hn by done. done. }
  set (s1 := if bool_decide _ then _ else _).
  set (id := request_id (obj s0 r)).
  assert (Hreq : requests s !! id = Some r).
  { rewrite (fr_requests _ _ (lv_frame _ _ _ Hi)). by apply (so_requests _ H0). }
  assert (Hs1 : loop_inv s0 s1 v /\ running s1 = running s /\ waiting s1 = waiting s /\ requests s1 = requests s /\
  ready s1 (v_scheduled v) /\ (status (obj s1 r) = WAITING \/ status (obj s1 r) = PREEMPTED) /\
  kv_cache_manager s1 = kv_cache_manager s /\ conf s1 = conf s /\ has_encoder_inputs (obj s1 r) = has_encoder_inputs (obj s r)).
  { subst s1. case_bool_decide as Hst.
  - split; [|split_and!; try done].
  + replace (update r (set_status WAITING) s) with (set_waiting (waiting s) (update r (set_status WAITING) s)) by done.
    apply loop_inv_requeue; try done. unfold waiting_status. cbn. by left.
  + by apply (requeue_ready s _ r id).
  + rewrite obj_update_eq. by left.
  + by rewrite obj_update_eq.
  - split_and!; try done. apply waiting_status_cases; [|done]. by apply (lv_waiting _ _ _ Hi). }
  clearbody s1. destruct Hs1 as (Hi1 & Hrun1 & Hw1 & Hreq1 & Hrd1 & Hst1 & Hkv1 & Hc1 & He1).
  unfold lora_blocked. rewrite (cf_loras _ (rd_conf _ _ Hrd1)).
  destruct (waiting_one_ready now s1 v loras r rest id Hi1 Hrl ltac:(by rewrite Hrun1) Hb Hrd1) as (s2 & next & Hone & Hrd2 & Hsome & Hroom);
  [by rewrite Hreq1|done|].
  rewrite Hone. cbn [mbind result_bind].
  pose proof (waiting_one_ok s0 H0 now s1 v loras r rest s2 next Hi1 Hrl Hr0 ltac:(by rewrite Hrun1) Hb Hone) as Hres.
  destruct next as [[v2 loras2]|].
  2: { exists s2, v, skipped. split_and!; try done. intros _ _ Hr (Hrun0 & Htext & _). destruct Hroom; [|by rewrite Hkv1, Hc1| |done].
  - apply (alone_running s1 (v_scheduled v) r); [done|by rewrite Hreq1|]. intros x. rewrite Hrun1, Hrun0. by intros ?%elem_of_nil.
  - rewrite He1. apply Htext. by left. }
  destruct Hres as (Hi2 & Hrun2 & Hw2 & _). destruct (IH s2 v2 loras2 skipped) as (s' & v' & sk & Hrun & Hrd' & Hm & _); try done.
  - rewrite Hrun2, Hrun1, app_assoc. apply NoDup_app. split_and!; [done| |apply NoDup_singleton].
  intros x Hx ->%list_elem_of_singleton. by apply elem_of_app in Hx as [Hx|Hx].
  - exists s', v', sk. pose proof (Hm (Hsome _ _ eq_refl)). by split_and!.
Qed.

Lemma schedule_waiting_ready now rdy s v k :
  loop_inv s0 s v -> run_queues s0 s v k -> ready s (v_scheduled v) ->
  exists s' v', schedule_waiting now rdy s v = Ok (s', v') /\ ready s' (v_scheduled v') /\
  (v_scheduled v <> ∅ -> v_scheduled v' <> ∅) /\
  (v_preempted v = [] -> (0 < v_budget v)%Z -> 0 < max_num_running_reqs (conf s) ->
   roomy (kv_cache_manager s) (sched_max_model_len (conf s)) -> queue_startable rdy s (waiting s) -> v_scheduled v' <> ∅).
Proof using All.
  intros Hi Hq Hrd. pose proof Hq as [[_ Hk] Hr Hw Hp _ _]. unfold schedule_waiting, running_loras.
  rewrite (cf_loras _ (rd_conf _ _ Hrd)). cbn [mbind result_bind].
  assert (exists s1 v1 sk, match v_preempted v with
  | [] => waiting_loop now rdy s v ∅ (waiting s) [] | _ => Ok (s, v, []) end = Ok (s1, v1, sk) /\ ready s1 (v_scheduled v1) /\
  (v_scheduled v <> ∅ -> v_scheduled v1 <> ∅) /\
  (v_preempted v = [] -> (0 < v_budget v)%Z -> 0 < max_num_running_reqs (conf s) ->
   roomy (kv_cache_manager s) (sched_max_model_len (conf s)) -> queue_startable rdy s (waiting s) -> v_scheduled v1 <> ∅))
  as (s1 & v1 & sk & -> & Hrd1 & Hm & Hprog).
  { destruct (v_preempted v) as [|p ps] eqn:Ep; [|exists s, v, []; by split_and!].
  assert (k = length (running s0)) as ->.
  { apply (f_equal length) in Hp. rewrite length_reverse, length_drop in Hp. cbn in Hp. lia. }
  rewrite drop_ge in Hw by done. rewrite take_ge in Hr by done. cbn in Hw.
  pose proof (so_nodup _ H0) as Hnd. pose proof Hnd as (_ & Hnd2 & _)%NoDup_app.
  destruct (waiting_loop_ready now rdy s v ∅ (waiting s) []) as (s1 & v1 & sk & ? & ? & ? & ?); [done|done| |by rewrite Hw, Hr|done|].
  - intros r Hrw. rewrite Hw in Hrw. split; [apply elem_of_app; by left|by apply Hnd2].
  - exists s1, v1, sk. by split_and!. }
  cbn [mbind result_bind]. do 2 eexists. split; [done|]. split; [by apply ready_waiting|done].
Qed.

(** ** The whole step *)

Lemma touched_ok m m' l : touched m m' -> kv_ok m l ->
  kv_ok m' l /\ kv_consts m m' /\ (forall id, blocks_of m' id = blocks_of m id) /\
  hashes_of m' = hashes_of m /\ num_cached_block m' = num_cached_block m.
Proof.
  intros [->|[id ->]]; [done|]. intros H.
  assert (Hb : forall id', blocks_of (set_req_blocks (<[id := blocks_of m id]> (req_to_blocks m)) m) id' = blocks_of m id').
  { intros id'. unfold blocks_of. cbn. destruct (decide (id' = id)) as [->|]; [by rewrite lookup_insert_eq|by rewrite lookup_insert_ne]. }
  split; [|by split_and!]. destruct H as [K1 K2 K3 K4 K5 K6 K7]. split; try done.
  - intros id'. rewrite Hb. apply K4.
  - intros i Hi Hn. cbn. rewrite holders_insert. rewrite (K5 i Hi Hn). by rewrite (holders_delete (req_to_blocks m) id).
  - intros Hc id'. rewrite Hb. apply (K7 Hc).
Qed.

Context (bcm : connector_state -> SchedulerOutput -> connector_state * connector_meta).

Lemma finish_ready s v s' out :
  loop_inv s0 s v -> finish_result s0 s s' v out -> ready s (v_scheduled v) -> ready s' ∅.
Proof using H0.
  intros Hi [F1 [F2 F3] F4 F5 _ _ _ F6 F7] [[l D1] D2 D3 D4 D5 D6 D7 D8].
  destruct (touched_ok _ _ l F6 D1) as (T1 & T2 & T3 & T4 & T5).
  assert (Hcached : cached (encoder_cache_manager s') = cached (encoder_cache_manager s)) by by rewrite F7.
  split; rewrite ?F1, ?F4; try done.
  - by eexists.
  - by eapply kv_fit_consts.
  - destruct D4 as [D41 D42], T2. split; rewrite F1; [congruence|auto].
  - rewrite F7. destruct D5 as [E1 E3 E4]. by split.
  - intros id r Hr. destruct (D6 id r Hr) as (Hid & Hsv & Hl).
  assert (Hlive : r ∈ live s0 /\ request_id (obj s0 r) = id).
  { apply (so_requests _ H0). by rewrite <-(fr_requests _ _ (lv_frame _ _ _ Hi)). }
  destruct Hlive as [Hlive Hid0]. rewrite F5, Hid0 by done. split; [done|]. split.
  + assert (Hst : forall n q, same_static q (advanced n q)) by (intros n q; by split).
  apply (served_static _ (obj s r)); [apply Hst|done|]. destruct Hsv as [S1 S2 S3 S4 S5]. split; try done.
  unfold has_cache. by rewrite Hcached.
  + rewrite lookup_empty. change (default 0%Z None) with 0%Z. rewrite Z.add_0_r.
  apply (linked_same hash_fn NONE_HASH (kv_cache_manager s) _ (obj s r)); try done; [by rewrite T4|by rewrite T5].
  - intros id r Hr. rewrite F3, T3. by apply D7.
  - intros id Hid. destruct (D8 id Hid) as (I1 & I2 & I3). unfold idle. by rewrite T3, T4, Hcached.
Qed.

Lemma total_nonneg (m : gmap string Z) :
  (forall id n, m !! id = Some n -> 0 <= n)%Z -> (0 <= map_fold (fun _ n acc => n + acc) 0 m)%Z.
Proof.
  induction m as [|id n m Hid IH] using map_ind; intros Hpos; [by rewrite map_fold_empty|].
  rewrite map_fold_insert_L; [|intros; lia|done]. pose proof (Hpos id n ltac:(apply lookup_insert_eq)).
  assert (0 <= map_fold (fun _ n acc => n + acc) 0 m)%Z; [|lia].
  apply IH. intros id' n' Hl. apply (Hpos id'). rewrite lookup_insert_ne; [done|congruence].
Qed.

Lemma scheduled_total_pos s v : loop_inv s0 s v -> v_scheduled v <> ∅ -> (0 < scheduled_total v)%Z.
Proof.
  intros Hi (id & n & Hn)%map_choose. pose proof (lv_pos _ _ _ Hi) as Hpos. unfold scheduled_total.
  rewrite <-(insert_delete_id (v_scheduled v) id n Hn), map_fold_insert_L; [|intros; lia|apply lookup_delete_eq].
  pose proof (Hpos id n Hn). pose proof (total_nonneg (delete id (v_scheduled v))) as Hd. apply Z.add_pos_nonneg; [lia|]. apply Hd.
  intros id' n' (_ & Hl)%lookup_delete_Some. specialize (Hpos id' n' Hl). lia.
Qed.

(** When a step must do something: there is a budget and a place, the pool holds
the longest request, and the first running request is text with tokens left, or
nothing runs, all wait for text, and one of them can start. *)
Record can_progress (rdy : Request -> bool) (s : Scheduler) : Prop := {
  cp_budget : (0 < max_num_scheduled_tokens (conf s))%Z;
  cp_place : 0 < max_num_running_reqs (conf s);
  cp_room : roomy (kv_cache_manager s) (sched_max_model_len (conf s));
  cp_work : head_hungry s \/ queue_startable rdy s (waiting s);
}.

(** [schedule] returns, the invariants hold again, and the result is that of
[SchedulerSpec]. *)
Lemma schedule_progresses now rdy :
  ready s0 ∅ -> exists s' out meta, schedule bcm now rdy s0 = Some (Ok (s', (out, meta))) /\
  step_result s0 s' out /\ ready s' ∅ /\ (can_progress rdy s0 -> (0 < total_num_scheduled_tokens out)%Z).
Proof using All.
  intros Hrd. pose proof (cf_budget _ (rd_conf _ _ Hrd)) as Hm.
  destruct (running_loop_ready now (length (running s0)) s0 (vars_init (conf s0)) (length (running s0))
  (vars_init_inv s0 H0 Hm) (run_queues_init s0)) as (s & v & k & Hrun & Hi & Hq & Hrd1 & _ & Hp1); [cbn; lia|done|].
  unfold schedule. rewrite Hrun.
  destruct (schedule_waiting_ready now rdy s v k Hi Hq Hrd1) as (s1 & v1 & Hw & Hrd2 & Hp2 & Hp3). rewrite Hw. cbn [mbind result_bind].
  destruct (schedule_waiting_ok s0 H0 now rdy s v k s1 v1 Hi Hq Hw) as (Hi1 & Hq1 & Hlim).
  destruct (finish_schedule_ok s0 H0 bcm s1 v1 Hi1 Hlim) as (s2 & out & meta & Hf & Hfr). rewrite Hf.
  exists s2, out, meta. split; [done|]. split; [by apply (step_result_ok s0 H0 s1 v1)|]. split; [by apply (finish_ready s1 v1 s2 out)|].
  intros [C1 C2 C3 C4]. rewrite (proj2 (fs_tokens _ _ _ _ _ Hfr)). apply (scheduled_total_pos s1 v1 Hi1).
  destruct C4 as [Hh|Hs]; [by apply Hp2, Hp1|]. pose proof Hs as (Hr0 & _).
  rewrite Hr0 in Hrun. cbn in Hrun. unfold running_loop in Hrun. rewrite Hr0 in Hrun. cbn in Hrun. injection Hrun as <- <-. by apply Hp3.
Qed.

Lemma schedule_ready now rdy :
  ready s0 ∅ -> exists s' out meta, schedule bcm now rdy s0 = Some (Ok (s', (out, meta))) /\
  step_result s0 s' out /\ ready s' ∅.
Proof using All.
  intros Hrd. destruct (schedule_progresses now rdy Hrd) as (s' & out & meta & ? & ? & ? & _). by exists s', out, meta.
Qed.
End Step.
End Safety.
