(* ===== verification/SchedulerCalls.v ===== *)
(** * The calls between two steps of the scheduler

    [ready] holds of a new scheduler and is kept by adding requests, finishing
    them, resetting the prefix cache and the model runner's output; so every call
    the engine makes finds the scheduler in a state from which [schedule] returns. *)

From S2P Require Import Prelude PrefixMetrics FreeBlockQueue Request BlockHash BlockPool.
From S2P Require Import SpecializedManager KVCacheConfig KVCacheManager KVCacheLink EncoderCache.
From S2P Require Import Scheduler SchedulerSpec SchedulerLifecycle SchedulerUpdate SchedulerSafety.

Section Calls.
Context `{E : Env} `{!EnvLaws E} `{!ConnectorLaws E} `{!CollisionFree hash_fn NONE_HASH}.

Lemma ready_managers len s : sched_ok s -> ready len s ∅ -> managers_ok len s.
Proof.
  intros H [D1 _ _ _ D5 D6 _ _]. split; [done|done|]. intros r Hr.
  destruct (D6 (request_id (obj s r)) r) as (_ & [S1 S2 S3 S4 S5] & _); [by apply (so_requests _ H)|done].
Qed.

Lemma pend_empty (id : string) : default 0%Z ((∅ : gmap string Z) !! id) = 0%Z.
Proof. by rewrite lookup_empty. Qed.

(** ** A request leaves *)

Lemma ready_gone len s s' r id :
  sched_ok s -> ready len s ∅ -> requests s !! id = Some r -> gone len s s' r id ->
  (forall x, x <> r -> x ∈ running s -> x ∈ running s') -> ready len s' ∅.
Proof.
  intros H [D1 D2 D3 D4 D5 D6 D7 D8] Hr [G1 G2 G3 G4 G5 G6 G7 G8] Hrun.
  assert (Hoth : forall id' x, requests s' !! id' = Some x -> requests s !! id' = Some x /\ id' <> id /\ x <> r).
  { intros id' x. rewrite G2, lookup_delete_Some. intros [Hne Hx]. split; [done|]. split; [done|]. intros ->.
  apply (so_requests _ H) in Hx as [_ Hx], Hr as [_ Hr]. congruence. }
  split; rewrite ?G1; try done.
  - eapply kv_fit_consts; [apply G6|done].
  - destruct D4 as [D41 D42], (kf_consts _ _ _ G6). split; rewrite G1; [congruence|auto].
  - intros id' x Hx. destruct (Hoth id' x Hx) as (Hx' & Hne & Hxr). destruct (D6 id' x Hx') as (Hid & Hsv & Hl).
  rewrite G3 by done. split; [done|]. split; [eapply served_other; [exact G7|congruence|done]|].
  eapply linked_other; [exact G6|congruence|done].
  - intros id' x Hx Hnr. destruct (Hoth id' x Hx) as (Hx' & Hne & Hxr). rewrite (kf_blocks _ _ _ G6) by done.
  apply (D7 id' x Hx'). intros Hin. by apply Hnr, Hrun.
  - intros id' Hn. destruct (decide (id' = id)) as [->|Hne]; [done|].
  rewrite G2, lookup_delete_ne in Hn by done. destruct (D8 id' Hn) as (I1 & I2 & I3).
  split_and!; [by rewrite (kf_blocks _ _ _ G6)|by rewrite (kf_hashes _ _ _ G6)|].
  rewrite <-(lookup_delete_ne (cached (encoder_cache_manager s')) id), G7, lookup_delete_ne by done. done.
Qed.

(** [P] is any property that the removal of a request keeps. *)
Lemma finish_requests_inv len (P : Scheduler -> Prop) s ids st :
  (forall s s1 id r, sched_ok s -> ready len s ∅ -> requests s !! id = Some r -> removed_result len s s1 id -> P s -> P s1) ->
  status_is_finished st = true -> sched_ok s -> ready len s ∅ -> P s ->
  exists s', finish_requests s ids st = Ok s' /\ sched_ok s' /\ ready len s' ∅ /\ conf s' = conf s /\ P s'.
Proof using All.
  intros HP Hst. unfold finish_requests. rewrite Hst. cbn [py_assert mbind result_bind].
  revert s. induction ids as [|id ids IH]; intros s H Hrd Hp; cbn [foldM]; [by exists s|].
  destruct (finish_one_ok len st s id Hst H (ready_managers len s H Hrd)) as (s1 & -> & Hres). pose proof Hres as [N1 N2 N3 N4 N5 N6 N7 N8].
  cbn [mbind result_bind].
  assert (Hs1 : ready len s1 ∅ /\ conf s1 = conf s /\ P s1).
  { destruct (requests s !! id) as [r|] eqn:Hr; [|by subst s1]. split; [|split; [apply N8|by apply (HP s s1 id r)]].
  apply (ready_gone len s s1 r id); try done. intros x Hx Hin. rewrite N3. unfold other_ids.
  apply list_elem_of_filter. split; [|done]. intros Hid. apply Hx. apply (so_requests _ H) in Hr as [Hr1 Hr2].
  apply (live_id_inj s); [done| |done|congruence]. apply elem_of_app. by right. }
  destruct Hs1 as (Hrd1 & Hc1 & Hp1). destruct (IH s1 N1 Hrd1 Hp1) as (s2 & -> & ? & ? & ? & ?). exists s2. split_and!; done || congruence.
Qed.

Lemma finish_requests_ready len s ids st :
  status_is_finished st = true -> sched_ok s -> ready len s ∅ ->
  exists s', finish_requests s ids st = Ok s' /\ sched_ok s' /\ ready len s' ∅ /\ conf s' = conf s.
Proof using All.
  intros Hst H Hrd. destruct (finish_requests_inv len (fun _ => True) s ids st) as (s' & ? & ? & ? & ? & _); try done. by exists s'.
Qed.

(** ** The model runner's output *)

Lemma ready_running len s pend rs :
  ready len s pend -> (forall x, x ∈ running s -> x ∈ rs) -> ready len (set_running rs s) pend.
Proof. intros [D1 D2 D3 D4 D5 D6 D7 D8] Hrs. split; try done. intros id r Hr Hn. apply (D7 id r Hr). auto. Qed.

Lemma served_append len e q q' g :
  same_static (append_output_token_ids g q) q' -> spec_token_ids q' = spec_token_ids q -> served len e q -> served len e q'.
Proof.
  intros Hs Hsp [[W1 W2 W3 W4] S2 S3 S4 S5]. apply (served_static len e (append_output_token_ids g q)); [done|done|].
  split; try done. split; try done. cbn. by intros [? _]%app_eq_nil.
Qed.

Lemma ready_stayed len out mro s s' r :
  ready len s ∅ -> sched_ok s -> r ∈ running s -> stayed len out mro s s' r -> conf s' = conf s -> running s' = running s ->
  (forall x, x <> r -> obj s' x = obj s x) ->
  (default 0%Z (num_scheduled_tokens out !! request_id (obj s r)) <> 0%Z ->
     default [] (scheduled_spec_decode_tokens out !! request_id (obj s r)) = []) -> out_spec_token_ids mro = None ->
  ready len s' ∅.
Proof.
  intros Hrd H Hr [Y1 Y2 Y3 Y4 Y5 Y6 Y7 Y8] Hc Hrun Hobj Hd Hsp. set (id := request_id (obj s r)) in *.
  assert (Hreq : requests s !! id = Some r).
  { apply (so_requests _ H). split; [apply elem_of_app; by right|done]. }
  destruct (rd_req _ _ _ Hrd id r Hreq) as (_ & Hsv & Hl). rewrite lookup_empty in Hl.
  apply (ready_step len s s' ∅ ∅ r id); try done.
  - split; try done; [intros x _; by rewrite Hrun|by rewrite Y2].
  - rewrite Y2. apply Hrd.
  - by rewrite (ss_id _ _ Y6).
  - destruct (served_append len (encoder_cache_manager s) (obj s r) (obj s' r) _ Y6 (Y8 Hsp) Hsv) as [T1 T2 T3 T4 T5].
  split; try done. intros i Hi. apply T5. unfold has_cache in *. rewrite (ss_id _ _ Y6) in *. cbn in *. by apply Y5.
  - rewrite (Y7 Hd), Y2, lookup_empty. apply (linked_same hash_fn NONE_HASH (kv_cache_manager s) _ (obj s r)); try done.
  + by rewrite (ss_id _ _ Y6).
  + rewrite (ss_all _ _ Y6). cbn. rewrite length_app. lia.
  - intros Hn. by rewrite Hrun in Hn.
Qed.

(** The runner sends no drafts: there is nothing to verify. *)
Definition no_drafts (out : SchedulerOutput) (mro : ModelRunnerOutput) (s : Scheduler) : Prop :=
  out_spec_token_ids mro = None /\
  forall r, r ∈ running s -> default 0%Z (num_scheduled_tokens out !! request_id (obj s r)) <> 0%Z ->
    default [] (scheduled_spec_decode_tokens out !! request_id (obj s r)) = [].

(** [P] is any property that each round of the loop keeps; its lists are the
    requests that stay and those that are still to be visited. *)
Definition kept_by_rounds len out mro (P : Scheduler -> list nat -> list nat -> Prop) : Prop :=
  forall s s1 r o stays nr rs, r ∉ rs -> sched_ok (set_running (nr ++ r :: rs) s) -> ready len (set_running (nr ++ r :: rs) s) ∅ ->
    updated len out mro s s1 r o stays nr rs -> P s nr (r :: rs) -> P s1 (if stays then nr ++ [r] else nr) rs.

Lemma update_loop_inv len out mro P s stats rs nr outs :
  kept_by_rounds len out mro P -> NoDup rs -> sched_ok (set_running (nr ++ rs) s) -> ready len (set_running (nr ++ rs) s) ∅ ->
  (forall r, r ∈ rs -> answers s out mro r) -> no_drafts out mro (set_running rs s) ->
  stats_fit (spec_tokens (conf s)) stats -> P s nr rs ->
  exists s' stats' nr' outs', update_loop out mro s stats rs nr outs = Ok (s', stats', nr', outs') /\ conf s' = conf s /\
    sched_ok (set_running nr' s') /\ ready len (set_running nr' s') ∅ /\ P s' nr' [].
Proof using All.
  intros HP Hnd. revert s stats nr outs. induction Hnd as [|r rs Hr Hnd IH]; intros s stats nr outs H Hrd Hans [Hsp Hdr] Hfit Hp;
  cbn [update_loop].
  { exists s, stats, nr, outs. rewrite app_nil_r in *. done. }
  destruct (update_one_ok len out mro s stats r nr rs H (ready_managers len _ H Hrd)) as (s1 & stats1 & o & stays & -> & Hfit1 & Hup);
    [apply Hans; by left|done|]. cbn [mbind result_bind].
  pose proof Hup as [U1 _ [U3 U4] U5 U6 _ _ _ _ U10].
  set (t := set_running (nr ++ r :: rs) s) in *.
  assert (Hin : r ∈ running t) by (cbn; apply elem_of_app; right; by left).
  assert (Hrd1 : ready len (set_running ((if stays then nr ++ [r] else nr) ++ rs) s1) ∅).
  { destruct stays.
    - replace ((nr ++ [r]) ++ rs) with (nr ++ r :: rs) by (by rewrite <-app_assoc).
      apply (ready_stayed len out mro t _ r); try done; [by destruct U10|]. apply Hdr. by left.
    - apply (ready_gone len t _ r (request_id (obj s r))); try done.
      + apply (so_requests _ H). split; [apply elem_of_app; by right|done].
      + by destruct U10.
      + intros x Hx. cbn. rewrite !elem_of_app, elem_of_cons. tauto. }
  assert (Hshape : nr ++ (if stays then [r] else []) ++ rs = (if stays then nr ++ [r] else nr) ++ rs)
    by (destruct stays; [by rewrite <-app_assoc|done]).
  rewrite Hshape in U1.
  destruct (IH s1 stats1 (if stays then nr ++ [r] else nr) (outs ++ option_list o) U1 Hrd1)
    as (s' & stats' & nr' & outs' & Hrun & Hc & H2 & Hrd2 & Hp2).
  - intros x Hx. assert (x <> r) by (by intros ->). specialize (Hans x ltac:(by right)).
    unfold answers in *. rewrite U5, U3 by done. exact Hans.
  - split; [done|]. intros x Hx. cbn in *. assert (x <> r) by (by intros ->).
    change (obj (set_running rs s1) x) with (obj s1 x). rewrite U5 by done. apply Hdr. by right.
  - by rewrite U3.
  - by apply (HP s s1 r o stays nr rs).
  - exists s', stats', nr', outs'. split; [exact Hrun|]. split; [congruence|done].
Qed.

(** New statistics change nothing else. *)
Lemma ready_stats len s ps :
  ready len s ∅ -> stats_on (set_kv (set_stats ps (kv_cache_manager s)) s) ->
  ready len (set_kv (set_stats ps (kv_cache_manager s)) s) ∅.
Proof.
  intros [[l D1] D2 D3 D4 D5 D6 D7 D8] Hst. split; try done; cbn [kv_cache_manager set_kv].
  - exists l. by apply kv_ok_set_stats.
  - by destruct D2.
  - intros id r Hr. destruct (D6 id r Hr) as (? & ? & []). split; [done|]. split; [done|]. by split.
Qed.

(** [update_from_output] keeps the scheduler ready. *)
Lemma update_inv len P s out mro :
  kept_by_rounds len out mro P -> sched_ok s -> ready len s ∅ -> (forall r, r ∈ running s -> answers s out mro r) -> no_drafts out mro s ->
  P s [] (running s) ->
  exists s' res s1 nr c ps, update_from_output s out mro = Ok (s', res) /\ sched_ok s' /\ ready len s' ∅ /\ conf s' = conf s /\
    s' = set_kv (set_stats ps (kv_cache_manager s1)) (set_running nr (set_cached_data c s1)) /\ P s1 nr [].
Proof using All.
  intros HP H Hrd Hans Hnd Hp. unfold update_from_output. assert (Hs : set_running ([] ++ running s) s = s) by (by destruct s).
  destruct (update_loop_inv len out mro P s None (running s) [] []) as (s1 & stats & nr & outs & -> & Hc & H1 & Hrd1 & Hp1); rewrite ?Hs; try done.
  { by apply running_nodup. }
  cbn [mbind result_bind]. destruct (return_cached_data_frame s1 (scheduled_cached_reqs out)) as [c ->].
  set (s2 := set_running nr (set_cached_data c s1)).
  assert (Hrd2 : ready len s2 ∅) by (destruct Hrd1; by split).
  destruct (make_stats_ok s2 stats (rd_stats _ _ _ Hrd2)) as (kv & st & -> & [ps Hkv] & Hst). cbn [mbind result_bind].
  do 2 eexists. exists s1, nr, c, ps. split; [done|]. split; [by destruct H1|]. split; [|split; [done|split; [by rewrite Hkv|done]]].
  rewrite Hkv in Hst |- *. by apply ready_stats.
Qed.

Lemma update_ready len s out mro :
  sched_ok s -> ready len s ∅ -> (forall r, r ∈ running s -> answers s out mro r) -> no_drafts out mro s ->
  exists s' res, update_from_output s out mro = Ok (s', res) /\ sched_ok s' /\ ready len s' ∅ /\ conf s' = conf s.
Proof using All.
  intros H Hrd Hans Hnd. destruct (update_inv len (fun _ _ _ => True) s out mro) as (s' & res & _ & _ & _ & _ & ? & ? & ? & ? & _); try done.
  by exists s', res.
Qed.

(** ** A request arrives *)

(** The sizes of the encoder inputs with those of [q] recorded under its id. *)
Definition with_inputs (len : string -> nat -> Z) (q : Request) (id : string) (i : nat) : Z :=
  if decide (id = request_id q) then default 0%Z (length_ <$> mm_positions q !! i) else len id i.

(** A request the engine may add: what [Request.__init__] and the input
  processor guarantee. *)
Record fresh_request (c : SchedulerConf) (q : Request) : Prop := {
  fq_wf : req_wf q;
  fq_inputs : mm_inputs q = length (mm_positions q);
  fq_sizes : forall p, p ∈ mm_positions q -> (0 <= length_ p)%Z;
  fq_status : status q = WAITING \/ status q = WAITING_FOR_FSM;
  fq_computed : num_computed_tokens q = 0%Z;
  fq_len : (num_tokens q <= sched_max_model_len c)%Z;
}.

Lemma fresh_range c q : fresh_request c q -> in_range c q /\ waiting_status q.
Proof.
  intros [_ _ _ Hs Hc Hl]. split.
  - unfold in_range, num_tokens_with_spec, num_tokens in *. lia.
  - unfold waiting_status. destruct Hs as [-> | ->]; set_solver.
Qed.

Lemma set_tokens_ext len len' id ids : (forall i, i ∈ ids -> len' id i = len id i) -> set_tokens len' id ids = set_tokens len id ids.
Proof.
  intros H. unfold set_tokens. f_equal. apply list_fmap_ext. intros j i Hi. apply H.
  apply elem_of_elements. by eapply list_elem_of_lookup_2.
Qed.

(** The encoder cache only depends on the sizes of the ids it holds. *)
Lemma enc_ok_ext len len' e :
  (forall id i, is_Some (cached e !! id) -> len' id i = len id i) -> enc_ok len e -> enc_ok len' e.
Proof.
  intros H [E1 E2 E3]. split; [|intros id ids i Hids Hi; rewrite H; [by eapply E2|by eexists]|done].
  rewrite <-E1. f_equal. unfold used_tokens. clear E1 E2 E3. revert H. generalize (cached e) as c. intros c.
  induction c as [|id ids c Hid IH] using map_ind; intros H; [done|].
  rewrite !map_fold_insert_L by (try done; intros; lia).
  rewrite IH; [|intros id' i Hs; apply H; destruct (decide (id' = id)) as [->|]; [by rewrite Hid in Hs; destruct Hs|by rewrite lookup_insert_ne]].
  f_equal. apply set_tokens_ext. intros i _. apply H. rewrite lookup_insert_eq. by eexists.
Qed.

Lemma add_request_ready len now s r q :
  sched_ok s -> ready len s ∅ -> r ∉ live s -> requests s !! request_id q = None -> fresh_request (conf s) q ->
  let s' := add_request now s r q in
  sched_ok s' /\ ready (with_inputs len q) s' ∅ /\ conf s' = conf s.
Proof using All.
  intros H Hrd Hr Hid Hq. destruct (fresh_range _ _ Hq) as [Hrange Hst]. cbn zeta.
  destruct (add_request_ok now s r q H Hr Hid Hst Hrange) as (Hok & Hw & Hrun & Hc & Hobj & Hs & Hkv & Henc).
  split; [done|]. split; [|done].
  assert (Hreq : requests (add_request now s r q) = <[request_id q := r]> (requests s) /\
    num_computed_tokens (obj (add_request now s r q) r) = 0%Z /\
    spec_token_ids (obj (add_request now s r q) r) = spec_token_ids q).
  { unfold add_request. destruct (sched_log_stats _); [rewrite obj_update_eq|]; unfold obj; cbn; rewrite lookup_total_insert_eq;
    (split; [done|]; split; [apply Hq|done]). }
  set (s' := add_request now s r q) in *. clearbody s'. destruct Hreq as (Hreq & Hcomp & Hspec).
  destruct Hrd as [D1 D2 D3 D4 D5 D6 D7 D8]. pose proof (D8 _ Hid) as Hidle.
  assert (Hlen : forall id i, id <> request_id q -> with_inputs len q id i = len id i).
  { intros id i Hne. unfold with_inputs. by rewrite decide_False. }
  assert (Hlen' : forall i p, mm_positions q !! i = Some p -> with_inputs len q (request_id q) i = length_ p).
  { intros i p Hp. unfold with_inputs. rewrite decide_True by done. by rewrite Hp. }
  split; rewrite ?Hkv, ?Henc, ?Hc; try done.
  - destruct D4 as [D41 D42]. split; by rewrite Hkv, Hc.
  - apply (enc_ok_ext len); [|done]. intros id i Hs'. apply Hlen. intros ->. destruct Hidle as (_ & _ & Hn). rewrite Hn in Hs'. by destruct Hs'.
  - intros id x Hx. rewrite Hreq in Hx. destruct (decide (id = request_id q)) as [->|Hne].
    + rewrite lookup_insert_eq in Hx. injection Hx as <-. split; [apply Hs|]. split.
      * apply (served_static _ _ q); [done|done|]. destruct Hq as [Q1 Q2 Q3 Q4 Q5 Q6]. split; try done.
        -- intros i p Hp. symmetry. by apply Hlen'.
        -- intros i Hi. destruct (lookup_lt_is_Some_2 _ _ Hi) as [p Hp]. rewrite (Hlen' i p Hp). apply Q3. by eapply list_elem_of_lookup_2.
        -- intros i Hi. unfold has_cache in Hi. destruct Hidle as (_ & _ & Hn). by rewrite Hn in Hi.
      * rewrite Hcomp, pend_empty. destruct Hidle as (I1 & I2 & I3). split; rewrite (ss_id _ _ Hs), ?I1, ?I2; [cbn; lia|done|].
        intros _. split; [apply chained_nil|cbn; lia].
    + rewrite lookup_insert_ne in Hx by done. destruct (D6 id x Hx) as (Hxid & [S1 S2 S3 S4 S5] & Hl).
      assert (x <> r) by (intros ->; by apply Hr, (so_requests _ H id)).
      rewrite Hobj by done. split; [done|]. split; [|done]. split; try done.
      * intros i p Hp. rewrite Hlen by congruence. by apply S3.
      * intros i Hi. rewrite Hlen by congruence. by apply S4.
  - intros id x Hx Hnr. rewrite Hreq in Hx. destruct (decide (id = request_id q)) as [->|Hne]; [apply Hidle|].
    rewrite lookup_insert_ne in Hx by done. apply (D7 id x Hx). by rewrite <-Hrun.
  - intros id Hn. rewrite Hreq in Hn. apply lookup_insert_None in Hn as [Hn Hne]. unfold idle. rewrite Hkv, Henc. by apply D8.
Qed.

(** ** Resetting the prefix cache, and a new scheduler *)

Lemma reset_ready len s :
  sched_ok s -> ready len s ∅ ->
  exists s' b, sched_reset_prefix_cache s = Ok (s', b) /\ sched_ok s' /\ ready len s' ∅ /\ conf s' = conf s.
Proof using All.
  intros H Hrd. pose proof Hrd as [[l D1] D2 D3 D4 D5 D6 D7 D8].
  destruct (manager_reset_ok (kv_cache_manager s) l D1 (stats_logged s D4)) as
    (m & b & Hm & Hok & Hk & Hb & Hh & Hn & _). unfold sched_reset_prefix_cache. rewrite Hm. cbn [mbind result_bind].
  do 2 eexists. split; [done|]. split; [by destruct H|]. split; [|done].
  assert (Hb' : forall id, blocks_of m id = blocks_of (kv_cache_manager s) id /\ hashes_of m id = hashes_of (kv_cache_manager s) id).
  { intros id. unfold blocks_of, hashes_of. by rewrite Hb, Hh. }
  split; try done.
  - by eexists.
  - by eapply kv_fit_consts.
  - destruct D4, Hk. split; cbn; [congruence|auto].
  - intros id r Hr. destruct (D6 id r Hr) as (? & ? & Hl). split; [done|]. split; [done|].
    change (obj (set_kv m s) r) with (obj s r).
    apply (linked_same hash_fn NONE_HASH (kv_cache_manager s) _ (obj s r)); try done; [apply Hb'|apply Hb'|cbn; by rewrite Hn].
  - intros id r Hr Hnr. cbn. rewrite (proj1 (Hb' id)). by apply (D7 id r).
  - intros id Hn'. destruct (D8 id Hn') as (I1 & I2 & I3). unfold idle. cbn. by rewrite (proj1 (Hb' id)), (proj2 (Hb' id)).
Qed.
(** What the configuration must promise: positive blocks, and a sliding window,
  if any, wider than a block and without eagle. *)
Definition suits {dtype} (c : SchedulerConf) (cfg : KVCacheConfig (dtype := dtype)) (use_eagle : bool) : Prop :=
  conf_fit c /\ forall g, kv_cache_groups cfg = [g] ->
    (0 < KVCacheConfig.block_size (attention (kv_cache_spec g)))%Z /\
    match kv_cache_spec g with
    | FullAttentionSpec _ => True
    | SlidingWindowSpec a w => (KVCacheConfig.block_size a < w)%Z /\ use_eagle = false
    end.

Lemma init_fit {dtype} (cfg : KVCacheConfig (dtype := dtype)) L caching eagle stats m :
  manager_init cfg L caching eagle stats = Ok m -> (forall g, kv_cache_groups cfg = [g] ->
    (0 < KVCacheConfig.block_size (attention (kv_cache_spec g)))%Z /\
    match kv_cache_spec g with
    | FullAttentionSpec _ => True
    | SlidingWindowSpec a w => (KVCacheConfig.block_size a < w)%Z /\ eagle = false
    end) -> kv_fit m L /\ exists g, kv_cache_groups cfg = [g] /\ (0 < num_blocks cfg)%Z.
Proof.
  intros Hm Hg. unfold manager_init in Hm. destruct (kv_cache_groups cfg) as [|g [|]]; try done.
  destruct (Hg g eq_refl) as [Hbs Hspec]. rewrite cdiv_ok in Hm by done. cbn [mbind result_bind] in Hm.
  apply bind_ok in Hm as (pool & Hpool & Hm). apply bind_ok in Hm as (sm & Hsm & Hm). injection Hm as <-.
  split.
  - pose proof (proj1 (cdiv_le L _ _ Hbs) (Z.le_refl _)) as HL. split; cbn.
    + rewrite Z2Nat.id by lia. exact HL.
    + unfold get_specialized_manager in Hsm. destruct (kv_cache_spec g) as [a|a w]; [by injection Hsm as <-|].
      invert_ok. cbn in *. lia.
    + unfold get_specialized_manager in Hsm. destruct (kv_cache_spec g) as [a|a w]; [|left; apply Hspec]. right. injection Hsm as <-. by eexists.
  - exists g. split; [done|]. unfold pool_init in Hpool. invert_ok. lia.
Qed.

Lemma init_ready {dtype} len c conn n size (cfg : KVCacheConfig (dtype := dtype)) caching eagle s :
  scheduler_init c conn n size cfg caching eagle = Ok s -> suits c cfg eagle ->
  sched_ok s /\ ready len s ∅ /\ conf s = c /\ running s = [] /\ waiting s = [].
Proof using All.
  intros Hs [Hc Hg]. unfold scheduler_init in Hs. apply bind_ok in Hs as (n' & _ & Hs). apply bind_ok in Hs as (_ & _ & Hs).
  apply bind_ok in Hs as (m & Hm & Hs). injection Hs as <-.
  destruct (init_fit _ _ _ _ _ _ Hm Hg) as [Hfit (g & Eg & Hn)]. destruct (Hg g Eg) as [Hbs _].
  destruct (manager_init_ok cfg g (sched_max_model_len c) caching eagle (sched_log_stats c) Eg Hbs Hn)
    as (m' & Hm' & Hok & _ & _ & Hl & Hst & _ & R1 & R2 & _).
  rewrite Hm in Hm'. injection Hm' as <-. split; [|split; [|done]].
  - split; cbn; try (intros r Hr; by apply elem_of_nil in Hr); [constructor| |lia].
    intros id r. rewrite lookup_empty. split; [done|]. by intros [?%elem_of_nil _].
  - split; cbn; try done.
    + by eexists.
    + split; cbn; [done|]. rewrite Hst. intros ->. by eexists.
    + split; cbn; [unfold used_tokens; rewrite map_fold_empty; lia|..]; intros id; [intros ids i|]; rewrite lookup_empty; done.
    + intros id _. unfold idle, blocks_of, hashes_of. cbn. by rewrite R1, R2, !lookup_empty.
Qed.
End Calls.
