(* ===== verification/SchedulerOutputs.v ===== *)
(** * What a step hands to the worker

    The blocks that the manager gives to requests during [schedule], the ids that
    are sent to the worker, and the blocks that the worker then has: [given] is the
    invariant of the two loops that ties them together, [handed] what the returned
    [SchedulerOutput] says about every request. *)

From S2P Require Import Prelude PrefixMetrics FreeBlockQueue Request BlockHash BlockPool.
From S2P Require Import SpecializedManager KVCacheConfig KVCacheManager KVCacheLink BlockOwners EncoderCache.
From S2P Require Import Scheduler SchedulerSpec SchedulerLifecycle SchedulerUpdate SchedulerSafety.

Section Outputs.
Context `{E : Env} `{!EnvLaws E} `{!ConnectorLaws E} `{!CollisionFree hash_fn NONE_HASH} (len : string -> nat -> Z).

(** The computed tokens of the request with this id. *)
Definition computed_of (s : Scheduler) (id : string) : Z :=
  match requests s !! id with Some r => num_computed_tokens (obj s r) | None => 0%Z end.

Definition kv_blocks (s : Scheduler) (id : string) : list nat := blocks_of (kv_cache_manager s) id.

Section Step.
Context (s0 : Scheduler) (H0 : sched_ok s0).
(** The blocks that the worker has for each request, and the null block. *)
Context (W : string -> list nat) (null : nat).

Implicit Types (s : Scheduler) (v : vars).

Definition id_of (r : nat) : string := request_id (obj s0 r).

(** Between the rounds of both loops: a running request that is not scheduled has
    the blocks the worker knows, one that is scheduled has those and the new ones,
    and one that starts or restarts has exactly the new ones. *)
Record given s v : Prop := {
  gv_null : null_block (block_pool (kv_cache_manager s)) = null;
  gv_owned : owned (sched_max_model_len (conf s)) (kv_cache_manager s) (computed_of s);
  gv_idle : forall r, r ∈ running s -> r ∉ scheduled_of v -> r ∈ running s0 /\ covered null (W (id_of r)) (kv_blocks s (id_of r));
  gv_start : forall r, r ∈ v_new v \/ r ∈ v_resumed v -> v_new_blocks v !! id_of r = Some (kv_blocks s (id_of r));
  gv_more : forall r, r ∈ v_running v -> exists nb, v_new_blocks v !! id_of r = Some nb /\
    covered null (W (id_of r) ++ nb) (kv_blocks s (id_of r));
  gv_new : forall r, r ∈ v_new v -> r ∈ waiting s0 /\ status (obj s0 r) <> PREEMPTED;
  gv_resumed : forall r, r ∈ v_resumed v -> r ∈ waiting s0 /\ status (obj s0 r) = PREEMPTED;
  gv_running : forall r, r ∈ v_running v -> r ∈ running s0;
  gv_status : forall r, r ∈ waiting s0 -> r ∉ running s -> (status (obj s r) = PREEMPTED <-> status (obj s0 r) = PREEMPTED);
  gv_spec : v_spec v = ∅;
  gv_entries : cached_reqs_data s = cached_reqs_data s0;
  gv_consts : kv_consts (kv_cache_manager s0) (kv_cache_manager s);
  gv_out : forall r, r ∈ running s0 -> r ∉ running s -> status (obj s r) = PREEMPTED;
}.

Lemma id_of_inj r x : r ∈ live s0 -> x ∈ live s0 -> x <> r -> id_of x <> id_of r.
Proof using H0. intros Hr Hx Hne Heq. by apply Hne, (live_id_inj s0). Qed.

Lemma id_of_requests s v r : loop_inv s0 s v -> r ∈ live s0 -> requests s !! id_of r = Some r.
Proof using H0. intros Hi Hl. rewrite (fr_requests _ _ (lv_frame _ _ _ Hi)). by apply (so_requests _ H0). Qed.

(** A request stays in its list, or is the new entry of it. *)
Definition others_stay (v v' : vars) (r : nat) : Prop :=
  forall x, x <> r -> (x ∈ v_new v' <-> x ∈ v_new v) /\ (x ∈ v_resumed v' <-> x ∈ v_resumed v) /\ (x ∈ v_running v' <-> x ∈ v_running v).

Lemma others_scheduled v v' r x : others_stay v v' r -> x <> r -> x ∈ scheduled_of v' <-> x ∈ scheduled_of v.
Proof. intros Ho Hx. unfold scheduled_of. rewrite !elem_of_app. destruct (Ho x Hx) as (-> & -> & ->). done. Qed.

(** A change that concerns request [r] only. *)
Record change_of s s' v v' (r : nat) : Prop := {
  ch_conf : conf s' = conf s;
  ch_entries : cached_reqs_data s' = cached_reqs_data s;
  ch_objs : forall x, x <> r -> obj s' x = obj s x;
  ch_run : forall x, x <> r -> x ∈ running s' <-> x ∈ running s;
  ch_kv : kv_frame (kv_cache_manager s) (kv_cache_manager s') (id_of r);
  ch_lists : others_stay v v' r;
  ch_blocks : forall id, id <> id_of r -> v_new_blocks v' !! id = v_new_blocks v !! id;
}.

Lemma given_change s s' v v' r :
  given s v -> loop_inv s0 s' v' -> r ∈ live s0 -> change_of s s' v v' r ->
  owned (sched_max_model_len (conf s)) (kv_cache_manager s') (computed_of s') ->
  (r ∈ running s' -> r ∉ scheduled_of v' -> r ∈ running s0 /\ covered null (W (id_of r)) (kv_blocks s' (id_of r))) ->
  (r ∈ v_new v' \/ r ∈ v_resumed v' -> v_new_blocks v' !! id_of r = Some (kv_blocks s' (id_of r))) ->
  (r ∈ v_running v' -> exists nb, v_new_blocks v' !! id_of r = Some nb /\ covered null (W (id_of r) ++ nb) (kv_blocks s' (id_of r))) ->
  (r ∈ v_new v' -> r ∈ waiting s0 /\ status (obj s0 r) <> PREEMPTED) -> (r ∈ v_resumed v' -> r ∈ waiting s0 /\ status (obj s0 r) = PREEMPTED) ->
  (r ∈ v_running v' -> r ∈ running s0) ->
  (r ∈ waiting s0 -> r ∉ running s' -> (status (obj s' r) = PREEMPTED <-> status (obj s0 r) = PREEMPTED)) ->
  (r ∈ running s0 -> r ∉ running s' -> status (obj s' r) = PREEMPTED) ->
  v_spec v' = ∅ -> given s' v'.
Proof using H0.
  intros [G1 G2 G3 G4 G5 G6 G7 G8 G9 G10 G11 G12 G13] Hi Hl [C1 C0 C2 C3 C4 C5 C6] Ho R1 R2 R3 R4 R5 R6 R7 R9 R8.
  assert (Hlive : forall x, x ∈ running s' -> x ∈ live s0) by (intros x Hx; by apply (lv_running _ _ _ Hi)).
  assert (Hsch : forall x, x ∈ scheduled_of v' -> x ∈ live s0) by (intros x Hx; by apply Hlive, (lv_sched _ _ _ Hi)).
  assert (Hb : forall x, x ∈ live s0 -> x <> r -> kv_blocks s' (id_of x) = kv_blocks s (id_of x) /\ v_new_blocks v' !! id_of x = v_new_blocks v !! id_of x).
  { intros x Hx Hne. pose proof (id_of_inj r x Hl Hx Hne). split; [by apply (kf_blocks _ _ _ C4)|by apply C6]. }
  assert (Hin : forall x, x ∈ v_new v' \/ x ∈ v_resumed v' \/ x ∈ v_running v' -> x ∈ live s0).
  { intros x Hx. apply Hsch. unfold scheduled_of. rewrite !elem_of_app. tauto. }
  split; try done.
  - by rewrite (kc_null _ _ (kf_consts _ _ _ C4)).
  - by rewrite C1.
  - intros x Hx Hn. destruct (decide (x = r)) as [->|Hne]; [by apply R1|]. rewrite (proj1 (Hb x (Hlive x Hx) Hne)).
    apply G3; [by apply C3|]. by rewrite <-(others_scheduled v v' r).
  - intros x Hx. destruct (decide (x = r)) as [->|Hne]; [by apply R2|]. destruct (Hb x ltac:(apply Hin; tauto) Hne) as [-> ->].
    apply G4. destruct (C5 x Hne) as (E1 & E2 & _). tauto.
  - intros x Hx. destruct (decide (x = r)) as [->|Hne]; [by apply R3|]. destruct (Hb x ltac:(apply Hin; tauto) Hne) as [-> ->].
    apply G5. by apply (C5 x Hne).
  - intros x Hx. destruct (decide (x = r)) as [->|Hne]; [by apply R4|]. apply G6. by apply (C5 x Hne).
  - intros x Hx. destruct (decide (x = r)) as [->|Hne]; [by apply R5|]. apply G7. by apply (C5 x Hne).
  - intros x Hx. destruct (decide (x = r)) as [->|Hne]; [by apply R6|]. apply G8. by apply (C5 x Hne).
  - intros x Hx Hn. destruct (decide (x = r)) as [->|Hne]; [by apply R7|]. rewrite C2 by done. apply G9; [done|]. by rewrite <-C3.
  - congruence.
  - etransitivity; [exact G12|apply (kf_consts _ _ _ C4)].
  - intros x Hx Hn. destruct (decide (x = r)) as [->|Hne]; [by apply R9|]. rewrite C2 by done. apply G13; [done|]. by rewrite <-C3.
Qed.

(** ** Running requests *)

Lemma computed_of_at s id r : requests s !! id = Some r -> computed_of s id = num_computed_tokens (obj s r).
Proof. unfold computed_of. by intros ->. Qed.

Lemma computed_of_same s s' id : requests s' = requests s -> (forall x, num_computed_tokens (obj s' x) = num_computed_tokens (obj s x)) ->
  computed_of s id = computed_of s' id.
Proof. intros E1 H. unfold computed_of. rewrite E1. by destruct (requests s !! id). Qed.

(** Only the entry of the changed request is another. *)
Lemma computed_of_other s s' r id id' :
  sched_ok s0 -> requests s = requests s0 -> requests s' = requests s0 -> (forall x, x <> r -> obj s' x = obj s x) -> requests s0 !! id = Some r ->
  id' <> id -> computed_of s' id' = computed_of s id'.
Proof.
  intros H E1 E2 Hobj Hr Hne. unfold computed_of. rewrite E1, E2. destruct (requests s0 !! id') as [x|] eqn:Ex; [|done].
  rewrite Hobj; [done|]. intros ->. apply (so_requests _ H) in Hr as [_ <-], Ex as [_ <-]. done.
Qed.

Lemma alloc_running s pend r id n kv res :
  ready len s pend -> requests s !! id = Some r -> pend !! id = None -> (0 < n)%Z -> (0 <= num_computed_tokens (obj s r))%Z ->
  (num_computed_tokens (obj s r) + n <= num_tokens (obj s r))%Z -> (num_tokens (obj s r) <= sched_max_model_len (conf s))%Z ->
  owned (sched_max_model_len (conf s)) (kv_cache_manager s) (computed_of s) ->
  allocate_slots hash_fn NONE_HASH (kv_cache_manager s) (obj s r) n [] (num_lookahead_tokens (conf s)) = Ok (kv, res) ->
  owned (sched_max_model_len (conf s)) kv (computed_of s) /\ kv_frame (kv_cache_manager s) kv id /\
  exists cur, covered (null_block (block_pool (kv_cache_manager s))) (kv_blocks s id) cur /\
    blocks_of kv id = match res with Some nb => cur ++ nb | None => cur end.
Proof using All.
  intros Hrd Hr Hp Hn Hc Hle HL Ho Hrun. pose proof Hrd as [[l Hkv] D2 [_ D3 _ _] _ D5 D6 _ _].
  destruct (D6 id r Hr) as (Hid & Hsv & Hl). rewrite Hp in Hl. cbn in Hl. rewrite Z.add_0_r in Hl. rewrite D3 in Hrun.
  destruct (allocate_slots_frame _ _ _ _ _ _ _ _ _ Hrun) as [Hf _].
  destruct (alloc_owned hash_fn NONE_HASH _ l _ (obj s r) n [] kv res (computed_of s) (computed_of s) Hkv D2 (sv_wf _ _ _ Hsv) Hl Hn Hc)
    as (Ho' & cur & Hcov & Hb); cbn [length]; rewrite ?Hid, ?(computed_of_at s id r Hr); try done; try lia.
  { by left. }
  { destruct res; lia. }
  rewrite Hid in *. split; [done|]. split; [done|]. exists cur. split; [exact Hcov|]. by destruct res.
Qed.

Lemma running_not_waiting r : r ∈ running s0 -> r ∈ waiting s0 -> False.
Proof using H0. intros H1 H2. pose proof (so_nodup _ H0) as (_ & Hd & _)%NoDup_app. by apply (Hd r). Qed.

(** A failed allocation, and the preemption of the last running request. *)
Lemma given_no_room s v r kv :
  loop_inv s0 s v -> given s v -> ready len s (v_scheduled v) -> r ∈ live s0 -> r ∈ running s0 -> r ∉ scheduled_of v ->
  owned (sched_max_model_len (conf s)) kv (computed_of s) -> kv_frame (kv_cache_manager s) kv (id_of r) ->
  (r ∈ running s -> covered null (kv_blocks s (id_of r)) (blocks_of kv (id_of r))) -> given (set_kv kv s) v.
Proof using H0.
  intros Hi Hg Hrd Hl Hr Hn Ho Hf Hcov. apply (given_change s (set_kv kv s) v v r); try done.
  - by apply loop_inv_kv.
  - intros Hrun _. split; [done|]. eapply covered_trans; [|by apply Hcov]. by apply (gv_idle _ _ Hg).
  - intros Hin. destruct Hn. unfold scheduled_of. rewrite !elem_of_app. tauto.
  - intros Hin. destruct Hn. unfold scheduled_of. rewrite !elem_of_app. tauto.
  - intros Hin. destruct Hn. unfold scheduled_of. rewrite !elem_of_app. tauto.
  - intros Hin. destruct Hn. unfold scheduled_of. rewrite !elem_of_app. tauto.
  - intros Hw. by destruct (running_not_waiting r).
  - by apply (gv_out _ _ Hg).
  - apply (gv_spec _ _ Hg).
Qed.

Lemma given_preempt now s v p rest s' :
  loop_inv s0 s' (add_preempted p v) -> given s v -> requests s = requests s0 -> p ∈ running s0 -> p ∉ scheduled_of v ->
  (0 <= sched_max_model_len (conf s))%Z -> request_id (obj s p) = id_of p -> NoDup (running s) -> (forall x, x ∈ running s <-> x = p \/ x ∈ rest) ->
  p ∉ rest -> preempt now s p rest = Ok s' -> given s' (add_preempted p v).
Proof using H0.
  intros Hi Hg Hreq Hp Hn HL Hid Hnd Hrest Hnr Hpre. pose proof (preempt_obj _ _ _ _ _ Hpre) as (Hfr & Hrun & Hw & Hobj & Hst & Hc & _).
  assert (Hl : p ∈ live s0) by (apply elem_of_app; by right).
  pose proof Hpre as Hpre'. unfold preempt in Hpre'. apply bind_ok in Hpre' as (kv & Hfree & Hpre').
  assert (Hkv : kv_cache_manager s' = kv /\ cached_reqs_data s' = cached_reqs_data s) by (by injection Hpre' as <-). destruct Hkv as [Hkv Hcd]. clear Hpre'.
  destruct (free_frame _ _ _ Hfree) as (Hf & _). rewrite Hid in Hf.
  assert (Hsn : forall x, x ∈ v_new v \/ x ∈ v_resumed v \/ x ∈ v_running v -> x <> p).
  { intros x Hx ->. apply Hn. unfold scheduled_of. rewrite !elem_of_app. tauto. }
  apply (given_change s s' v (add_preempted p v) p); try done; cbn [add_preempted v_new v_resumed v_running v_spec].
  - split; try done.
    + apply (fr_conf _ _ Hfr).
    + intros x Hx. rewrite Hrun, Hrest. tauto.
    + by rewrite Hkv.
  - rewrite Hkv. eapply owned_free; [apply (gv_owned _ _ Hg)|exact Hfree| |done]. rewrite Hid. intros id' Hne.
    apply (computed_of_other s s' p (id_of p) id'); try done; [by rewrite (fr_requests _ _ Hfr)|by apply (so_requests _ H0)].
  - intros Hin. by rewrite Hrun in Hin.
  - intros [Hin|Hin]; exfalso; apply (Hsn p); tauto.
  - intros Hin; exfalso; apply (Hsn p); tauto.
  - intros Hin; exfalso; apply (Hsn p); tauto.
  - intros Hin; exfalso; apply (Hsn p); tauto.
  - intros Hwp. by destruct (running_not_waiting p).
  - apply (gv_spec _ _ Hg).
Qed.

Lemma preempt_loop_given now v n rr s r k s' v' res :
  loop_inv s0 s v -> run_queues s0 s v k -> v_index v < k -> running s0 !! v_index v = Some r ->
  rr = reverse (running s) -> ready len s (v_scheduled v) -> given s v -> (0 < n)%Z ->
  (num_computed_tokens (obj s r) + n <= num_tokens (obj s r))%Z -> preempt_loop now s v r n rr = Ok (s', v', res) ->
  match res with
  | None => given s' v'
  | Some nb => exists s1, s' = set_kv (kv_cache_manager s') s1 /\
      allocate_slots hash_fn NONE_HASH (kv_cache_manager s1) (obj s1 r) n [] (num_lookahead_tokens (conf s1)) = Ok (kv_cache_manager s', Some nb) /\
      given s1 v' /\ ready len s1 (v_scheduled v') /\ loop_inv s0 s1 v'
  end.
Proof using All.
  revert v s k. induction rr as [|p rest IH]; intros v s k Hi Hq Hlt Hr Hrev Hrd Hg Hn Hle Hrun.
  { exfalso. apply (f_equal length) in Hrev. rewrite length_reverse, (rq_running _ _ _ _ Hq), length_take in Hrev.
    apply lookup_lt_Some in Hr. cbn in Hrev. lia. }
  cbn [preempt_loop] in Hrun. pose proof (rq_k _ _ _ _ Hq) as Hkk. pose proof (running_nodup _ H0) as Hnd.
  assert (Hunsch : forall j x, v_index v <= j -> running s0 !! j = Some x ->
    x ∈ running s0 /\ x ∈ live s0 /\ x ∉ scheduled_of v /\ v_scheduled v !! id_of x = None).
  { intros j x Hj Hx. assert (Hxr : x ∈ running s0) by (by eapply list_elem_of_lookup_2).
    assert (Hl : x ∈ live s0) by (apply elem_of_app; by right). assert (Hns : x ∉ scheduled_of v); [|split_and!; try done; by apply (unscheduled_none s0 H0 s v x Hi Hl)].
    unfold scheduled_of. destruct (rq_new _ _ _ _ Hq) as [-> ->]. cbn. intros Hin. apply (rq_sched _ _ _ _ Hq) in Hin.
    by eapply (not_in_take (running s0) j (v_index v)). }
  destruct (Hunsch (v_index v) r ltac:(lia) Hr) as (Hr0 & Hl & Hns & Hnone).
  assert (Hids : forall x, request_id (obj s x) = id_of x) by (intros x; apply (fr_static _ _ (lv_frame _ _ _ Hi))).
  pose proof (id_of_requests s v r Hi Hl) as Hreq.
  destruct (lv_range _ _ _ Hi r Hl) as ((R1 & _) & R2 & R3). rewrite <-(fr_conf _ _ (lv_frame _ _ _ Hi)) in R2, R3.
  assert (Hrin : r ∈ running s).
  { rewrite (rq_running _ _ _ _ Hq). apply list_elem_of_lookup. exists (v_index v). by apply lookup_take_Some. }
  destruct (alloc_ready len s (v_scheduled v) r (id_of r) n Hrd Hreq Hnone Hrin Hn R1 Hle R3) as (kv & res0 & Hal & Hrd1 & _).
  rewrite Hal in Hrun. cbn [mbind result_bind] in Hrun. destruct res0 as [nb|].
  { injection Hrun as <- <- <-. exists s. split_and!; done. }
  destruct (alloc_running s (v_scheduled v) r (id_of r) n kv None Hrd Hreq Hnone Hn R1 Hle R3 (gv_owned _ _ Hg) Hal) as (Ho & Hf & cur & Hcov & Hcur).
  assert (Hg1 : given (set_kv kv s) v).
  { apply (given_no_room s v r kv); try done. intros _. rewrite Hcur. by rewrite (gv_null _ _ Hg) in Hcov. }
  assert (Hi1 : loop_inv s0 (set_kv kv s) v) by (by apply loop_inv_kv).
  assert (Hq1 : run_queues s0 (set_kv kv s) v k) by (by destruct Hq; split).
  pose proof Hrev as Hrev'. rewrite (rq_running _ _ _ _ Hq) in Hrev'. symmetry in Hrev'.
  apply take_last in Hrev' as (Hk0 & Hpk & Hrest & _); [|lia].
  destruct (Hunsch (k - 1) p ltac:(lia) Hpk) as (Hp0 & Hpl & Hpn & Hpnone).
  pose proof (id_of_requests (set_kv kv s) v p Hi1 Hpl) as Hpreq.
  assert (Hrunp : forall x, x ∈ running s <-> x = p \/ x ∈ reverse rest).
  { intros x. rewrite <-(reverse_involutive (running s)), <-Hrev, elem_of_reverse, elem_of_cons, elem_of_reverse. done. }
  destruct (preempt_ready len now (set_kv kv s) (v_scheduled v) p _ (reverse rest) Hrd1 Hpreq Hpnone) as (s1 & Hp & Hrd2 & _).
  { intros x Hx Hin. cbn in Hin. apply Hrunp in Hin. tauto. }
  rewrite Hp in Hrun. cbn [mbind result_bind] in Hrun.
  destruct (preempt_inv s0 H0 now (set_kv kv s) v k p rest s1 Hi1 Hq1 Hlt) as (Hi2 & Hq2 & _ & Hrun1 & Hobj1); [done|done|].
  assert (Hg2 : given s1 (add_preempted p v)).
  { apply (given_preempt now (set_kv kv s) v p (reverse rest)); [done|done|apply (fr_requests _ _ (lv_frame _ _ _ Hi))|done|done|cbn; lia|apply Hids| |exact Hrunp| |exact Hp].
    - cbn. rewrite (rq_running _ _ _ _ Hq). by apply (sublist_NoDup _ (running s0)), sublist_take.
    - rewrite Hrest. eapply (not_in_take (running s0) (k - 1) (k - 1)); [done|done|lia]. }
  destruct (Nat.eqb_spec p r) as [->|Hne]; [by injection Hrun as <- <- <-|].
  assert (Hlt1 : v_index v < k - 1).
  { destruct (decide (v_index v = k - 1)) as [E'|]; [|lia]. rewrite <-E', Hr in Hpk. congruence. }
  apply (IH (add_preempted p v) s1 (k - 1)); try done.
  - by rewrite Hrun1, reverse_involutive.
  - by rewrite Hobj1.
Qed.

(** The round that schedules a running request. *)
Lemma given_scheduled s1 s2 v v2 r n nb kv :
  loop_inv s0 s1 v -> loop_inv s0 s2 v2 -> ready len s1 (v_scheduled v) -> given s1 v -> r ∈ running s0 -> r ∉ scheduled_of v -> r ∈ running s1 ->
  (0 < n)%Z -> (num_computed_tokens (obj s1 r) + n <= num_tokens (obj s1 r))%Z ->
  allocate_slots hash_fn NONE_HASH (kv_cache_manager s1) (obj s1 r) n [] (num_lookahead_tokens (conf s1)) = Ok (kv, Some nb) ->
  kv_cache_manager s2 = kv -> conf s2 = conf s1 -> cached_reqs_data s2 = cached_reqs_data s1 -> running s2 = running s1 -> (forall x, x <> r -> obj s2 x = obj s1 x) ->
  num_computed_tokens (obj s2 r) = num_computed_tokens (obj s1 r) ->
  v_new v2 = v_new v -> v_resumed v2 = v_resumed v -> v_running v2 = v_running v ++ [r] ->
  v_new_blocks v2 = <[id_of r := nb]> (v_new_blocks v) -> v_spec v2 = v_spec v -> given s2 v2.
Proof using All.
  intros Hi Hi2 Hrd Hg Hr0 Hns Hrun Hn Hle Hal E1 E2 E0 E3 Hobj Hc V1 V2 V3 V4 V5.
  assert (Hl : r ∈ live s0) by (apply elem_of_app; by right). pose proof (id_of_requests s1 v r Hi Hl) as Hreq.
  destruct (lv_range _ _ _ Hi r Hl) as ((R1 & _) & R2 & R3). rewrite <-(fr_conf _ _ (lv_frame _ _ _ Hi)) in R2, R3.
  destruct (alloc_running s1 (v_scheduled v) r (id_of r) n kv (Some nb) Hrd Hreq (unscheduled_none s0 H0 s1 v r Hi Hl Hns) Hn R1 Hle R3 (gv_owned _ _ Hg) Hal)
    as (Ho & Hf & cur & Hcov & Hcur). rewrite (gv_null _ _ Hg) in Hcov.
  assert (Hnin : r ∉ v_new v /\ r ∉ v_resumed v /\ r ∉ v_running v) by (unfold scheduled_of in Hns; rewrite !elem_of_app in Hns; tauto).
  assert (Hsch : r ∈ scheduled_of v2) by (unfold scheduled_of; rewrite V3, !elem_of_app, list_elem_of_singleton; tauto).
  apply (given_change s1 s2 v v2 r); try done.
  - split; try done.
    + intros x Hx. by rewrite E3.
    + by rewrite E1.
    + intros x Hx. rewrite V1, V2, V3, elem_of_app, list_elem_of_singleton. tauto.
    + intros id Hid. by rewrite V4, lookup_insert_ne.
  - rewrite E1. eapply owned_mono; [exact Ho|]. intros id. apply Z.eq_le_incl, computed_of_same.
    + by rewrite (fr_requests _ _ (lv_frame _ _ _ Hi)), (fr_requests _ _ (lv_frame _ _ _ Hi2)).
    + intros x. destruct (decide (x = r)) as [->|Hne]; [done|by rewrite Hobj].
  - intros [Hin|Hin]; rewrite ?V1, ?V2 in Hin; tauto.
  - intros _. exists nb. rewrite V4, lookup_insert_eq. split; [done|]. unfold kv_blocks. rewrite E1, Hcur. apply covered_app.
    eapply covered_trans; [by apply (gv_idle _ _ Hg)|exact Hcov].
  - rewrite V1. tauto.
  - rewrite V2. tauto.
  - intros Hw. by destruct (running_not_waiting r).
  - intros _ Hn2. destruct Hn2. by rewrite E3.
  - by rewrite V5, (gv_spec _ _ Hg).
Qed.

Lemma running_one_given now s v k r s' v' fl :
  loop_inv s0 s v -> run_queues s0 s v k -> running s !! v_index v = Some r -> (0 < v_budget v)%Z -> ready len s (v_scheduled v) ->
  given s v -> running_one now s v r = Ok (s', v', fl) -> given s' v'.
Proof using All.
  intros Hi Hq Hr Hbud Hrd Hg Hone. destruct (running_one_ok s0 H0 now s v k r s' v' fl Hi Hq Hr Hbud Hone) as (_ & Hi' & _).
  pose proof Hr as Hr'. rewrite (rq_running _ _ _ _ Hq) in Hr'. apply lookup_take_Some in Hr' as [Hr' Hlt].
  assert (Hr0 : r ∈ running s0) by (by eapply list_elem_of_lookup_2). assert (Hl : r ∈ live s0) by (apply elem_of_app; by right).
  pose proof (lv_range _ _ _ Hi r Hl) as Hrange. rewrite <-(fr_conf _ _ (lv_frame _ _ _ Hi)) in Hrange.
  pose proof (id_of_requests s v r Hi Hl) as Hreq. destruct (rd_req _ _ _ Hrd (id_of r) r Hreq) as (Hid & Hsv & _).
  unfold running_one in Hone. cbn zeta in Hone. pose proof (running_tokens _ _ _ Hrange Hbud) as Hn. cbn zeta in Hn.
  set (n := Z.min (Z.min _ _) _) in *. clearbody n.
  fold (choose_inputs s (obj s r) (num_computed_tokens (obj s r)) n (v_encoder_budget v)) in Hone.
  apply bind_ok in Hone as ([[inputs n'] eb] & Hch & Hone). apply choose_inputs_ok in Hch as [Hn' _]; [|lia].
  destruct (Z.eqb_spec n' 0) as [->|Hn0]; [injection Hone as <- <- <-; by destruct Hg|].
  pose proof (rw_spec _ (sv_wf _ _ _ Hsv)) as Hsp.
  assert (Hnt : num_tokens_with_spec (obj s r) = num_tokens (obj s r)) by (unfold num_tokens_with_spec, num_tokens; rewrite Hsp; cbn; lia).
  apply bind_ok in Hone as ([[s1 v1] res] & Hrun & Hone).
  pose proof (preempt_loop_given now v n' _ s r k s1 v1 res Hi Hq Hlt Hr' eq_refl Hrd Hg ltac:(lia) ltac:(lia) Hrun) as Hres.
  destruct (preempt_loop_ok s0 H0 now v n' _ s r k s1 v1 res Hi Hq Hlt Hr' eq_refl Hrun) as (k' & Hi1 & Hq1 & Hidx & _ & _ & Hobj).
  destruct res as [nb|]; [|by injection Hone as <- <- <-]. destruct Hobj as [Hlt1 Hobj].
  destruct Hres as (s2 & Es & Hal & Hg2 & Hrd2 & Hi2). assert (Hobj2 : obj s2 r = obj s r) by (rewrite Es in Hobj; exact Hobj).
  assert (Hrun2 : running s2 = running s1 /\ conf s1 = conf s2 /\ cached_reqs_data s1 = cached_reqs_data s2 /\ forall x, obj s1 x = obj s2 x) by (by rewrite Es).
  destruct Hrun2 as (Hrun2 & Hcf2 & Hcd2 & Hobjs).
  rewrite Hobj in Hone. unfold trim_spec in Hone at 1. rewrite Hsp in Hone.
  apply bind_ok in Hone as (s3 & Ha & Hone). injection Hone as <- <- <-. apply allocate_inputs_frame in Ha as [e ->].
  pose proof Hq1 as [Q1 Q2 _ _ Q5 [Q6 Q7]].
  apply (given_scheduled s2 _ v1 _ r n' nb (kv_cache_manager s1)); try done; rewrite ?Hobj2; cbn [take_running v_new v_resumed v_running v_new_blocks v_spec]; try done.
  - unfold scheduled_of. rewrite Q6, Q7. cbn. intros Hin. apply Q5 in Hin. rewrite Hidx in Hin.
    eapply not_in_take; [by apply running_nodup|exact Hr'|done|done].
  - rewrite Hrun2, Q2. apply list_elem_of_lookup. exists (v_index v). by apply lookup_take_Some.
  - lia.
  - lia.
  - intros x _. apply Hobjs.
  - change (num_computed_tokens (obj s1 r) = num_computed_tokens (obj s r)). by rewrite Hobj.
  - by rewrite Hid.
  - unfold trim_spec. by rewrite Hsp.
Qed.

Lemma running_loop_given now fuel : forall s v k s' v',
  loop_inv s0 s v -> run_queues s0 s v k -> ready len s (v_scheduled v) -> given s v ->
  running_loop now fuel s v = Some (Ok (s', v')) -> given s' v'.
Proof using All.
  induction fuel as [|fuel IH]; intros s v k s' v' Hi Hq Hrd Hg; cbn [running_loop];
    (destruct (running s !! v_index v) as [r|] eqn:Hr; [|by intros [= <- <-]]);
    (destruct (Z.ltb_spec 0 (v_budget v)) as [Hb|Hb]; [|by intros [= <- <-]]); [done|].
  destruct (running_one_ready len s0 H0 now s v k r Hi Hq Hr Hb Hrd) as (s1 & v1 & fl & Hone & Hrd1 & _). rewrite Hone.
  pose proof (running_one_given now s v k r s1 v1 fl Hi Hq Hr Hb Hrd Hg Hone) as Hg1.
  destruct (running_one_ok s0 H0 now s v k r s1 v1 fl Hi Hq Hr Hb Hone) as (k1 & Hi1 & Hq1 & _).
  destruct fl; [by apply (IH s1 v1 k1)|by intros [= <- <-]].
Qed.

(** ** Waiting requests *)

Lemma given_kv s v kv :
  given s v -> kv_consts (kv_cache_manager s) kv -> (forall id, blocks_of kv id = kv_blocks s id) -> given (set_kv kv s) v.
Proof.
  intros [G1 G2 G3 G4 G5 G6 G7 G8 G9 G10 G11 G12 G13] Hk Hb. split; try done; unfold kv_blocks; cbn.
  - by rewrite (kc_null _ _ Hk).
  - by eapply owned_same.
  - intros r. rewrite Hb. apply G3.
  - intros r. rewrite Hb. apply G4.
  - intros r. rewrite Hb. apply G5.
  - by etransitivity.
Qed.

Lemma frame_blocks m m' id : kv_frame m m' id -> blocks_of m' id = blocks_of m id -> forall id', blocks_of m' id' = blocks_of m id'.
Proof. intros Hf Hid id'. destruct (decide (id' = id)) as [->|Hne]; [done|by apply (kf_blocks _ _ _ Hf)]. Qed.

(** The round that admits a waiting request. *)
Lemma given_admitted s1 s2 v v2 r kv new nb n inputs eb computed :
  loop_inv s0 s1 v -> loop_inv s0 s2 v2 -> given s1 v -> r ∈ waiting s0 -> r ∉ running s1 -> (status (obj s1 r) = PREEMPTED <-> status (obj s0 r) = PREEMPTED) ->
  owned (sched_max_model_len (conf s1)) kv (fun id => if decide (id = id_of r) then computed else computed_of s1 id) ->
  kv_frame (kv_cache_manager s1) kv (id_of r) -> blocks_of kv (id_of r) = new ++ nb ->
  kv_cache_manager s2 = kv -> conf s2 = conf s1 -> cached_reqs_data s2 = cached_reqs_data s1 -> running s2 = running s1 ++ [r] -> (forall x, x <> r -> obj s2 x = obj s1 x) ->
  num_computed_tokens (obj s2 r) = computed ->
  take_waiting r (obj s1 r) n (new ++ nb) inputs eb v = Ok v2 -> given s2 v2.
Proof using H0.
  intros Hi Hi2 Hg Hw Hn Hst Ho Hf Hb E1 E2 E0 E3 Hobj Hc Htk.
  assert (Hl : r ∈ live s0) by (apply elem_of_app; by left).
  assert (Hid : request_id (obj s1 r) = id_of r) by (apply (fr_static _ _ (lv_frame _ _ _ Hi))).
  assert (Hns : r ∉ scheduled_of v) by (intros Hin; by apply Hn, (lv_sched _ _ _ Hi)).
  assert (Hnin : r ∉ v_new v /\ r ∉ v_resumed v /\ r ∉ v_running v) by (unfold scheduled_of in Hns; rewrite !elem_of_app in Hns; tauto).
  assert (Hv : v_running v2 = v_running v /\ v_spec v2 = v_spec v /\ v_new_blocks v2 = <[id_of r := new ++ nb]> (v_new_blocks v) /\
    (status (obj s0 r) <> PREEMPTED /\ v_new v2 = v_new v ++ [r] /\ v_resumed v2 = v_resumed v \/
     status (obj s0 r) = PREEMPTED /\ v_new v2 = v_new v /\ v_resumed v2 = v_resumed v ++ [r])).
  { unfold take_waiting in Htk. rewrite Hid in Htk. destruct (status (obj s1 r)) eqn:Es; cbn in Htk; try done; injection Htk as <-;
      (split; [done|]; split; [done|]; split; [done|]).
    - left. split; [|done]. rewrite <-Hst. done.
    - right. split; [|done]. by rewrite <-Hst. }
  destruct Hv as (V3 & V5 & V4 & V12).
  assert (Hsch : r ∈ scheduled_of v2) by (unfold scheduled_of; destruct V12 as [(_ & -> & _)|(_ & _ & ->)]; rewrite !elem_of_app, list_elem_of_singleton; tauto).
  apply (given_change s1 s2 v v2 r); try done.
  - split; try done.
    + intros x Hx. rewrite E3, elem_of_app, list_elem_of_singleton. tauto.
    + by rewrite E1.
    + intros x Hx. rewrite V3. destruct V12 as [(_ & -> & ->)|(_ & -> & ->)]; rewrite elem_of_app, list_elem_of_singleton; tauto.
    + intros id Hne. by rewrite V4, lookup_insert_ne.
  - rewrite E1. eapply owned_mono; [exact Ho|]. intros id. apply Z.eq_le_incl.
    pose proof (fr_requests _ _ (lv_frame _ _ _ Hi)) as F1. pose proof (fr_requests _ _ (lv_frame _ _ _ Hi2)) as F2.
    destruct (decide (id = id_of r)) as [->|Hne].
    + rewrite (computed_of_at s2 (id_of r) r); [by rewrite Hc|]. rewrite F2. by apply (so_requests _ H0).
    + symmetry. apply (computed_of_other s1 s2 r (id_of r) id); try done. by apply (so_requests _ H0).
  - intros _. rewrite V4, lookup_insert_eq. unfold kv_blocks. by rewrite E1, Hb.
  - rewrite V3. tauto.
  - destruct V12 as [(Hs & _ & _)|(_ & -> & _)]; tauto.
  - destruct V12 as [(_ & _ & ->)|(Hs & _ & _)]; tauto.
  - rewrite V3. tauto.
  - intros _ Hn2. destruct Hn2. rewrite E3. apply elem_of_app. right. by left.
  - intros Hr0. by destruct (running_not_waiting r).
  - by rewrite V5, (gv_spec _ _ Hg).
Qed.

Lemma waiting_one_given now s v loras r rest s' next :
  loop_inv s0 s v -> r ∈ waiting s0 -> r ∉ running s -> (0 < v_budget v)%Z -> ready len s (v_scheduled v) -> given s v ->
  status (obj s r) = WAITING \/ status (obj s r) = PREEMPTED -> (status (obj s r) = PREEMPTED <-> status (obj s0 r) = PREEMPTED) ->
  waiting_one now s v loras r rest = Ok (s', next) -> match next with Some (v', _) => given s' v' | None => given s' v end.
Proof using All.
  intros Hi Hw Hnr Hbud Hrd Hg Hst Hst0 Hone. assert (Hl : r ∈ live s0) by (apply elem_of_app; by left).
  assert (Hnr0 : r ∉ running s0) by (intros ?; by apply (running_not_waiting r)).
  pose proof (waiting_one_ok s0 H0 now s v loras r rest s' next Hi Hl Hnr0 Hnr Hbud Hone) as Hnext.
  pose proof (id_of_requests s v r Hi Hl) as Hreq. set (id := id_of r) in *. destruct (rd_req _ _ _ Hrd id r Hreq) as (Hid & Hsv & Hlk).
  assert (Hpend : v_scheduled v !! id = None).
  { apply (unscheduled_none s0 H0 s v r Hi Hl). intros Hin. by apply Hnr, (lv_sched _ _ _ Hi). }
  rewrite Hpend in Hlk. cbn in Hlk. rewrite Z.add_0_r in Hlk. pose proof (rd_waiting _ _ _ Hrd id r Hreq Hnr) as Hb.
  destruct (lv_range _ _ _ Hi r Hl) as ((R1 & _) & _ & R3). rewrite <-(fr_conf _ _ (lv_frame _ _ _ Hi)) in R3.
  assert (Hzero : num_computed_tokens (obj s r) = 0%Z).
  { enough (num_computed_tokens (obj s r) <= 0)%Z by lia. eapply linked_empty; [done|by rewrite Hid]. }
  rewrite Hzero in Hlk. destruct (rd_kv _ _ _ Hrd) as [l Hkv].
  destruct (computed_linked hash_fn NONE_HASH _ l _ (obj s r) Hkv (rd_fit _ _ _ Hrd) (sv_wf _ _ _ Hsv) Hlk ltac:(by rewrite Hid)
    (stats_logged s (rd_stats _ _ _ Hrd))) as (kv1 & new & Hcomp & Hkv1 & Hf1 & Hlk1 & Hb1 & Hnc & Hnew).
  rewrite Hid in Hf1, Hb1. unfold waiting_one in Hone. cbn zeta in Hone. rewrite Hcomp in Hone. cbn [mbind result_bind] in Hone. set (s1 := set_kv kv1 s) in *.
  set (nc := (Z.of_nat (length new) * Z.of_nat (block_size (kv_cache_manager s)))%Z) in *. pose proof (kf_consts _ _ _ Hf1) as Hk1.
  assert (Hg1 : given s1 v) by (apply given_kv; [done|done|]; apply (frame_blocks _ _ id Hf1); by rewrite Hb1, Hb).
  pose proof (external_below s1 (obj s r) nc ltac:(lia)) as Hext. set (ext := external_tokens s1 (obj s r) nc) in *.
  set (n := Z.min _ _) in *.
  assert (Hn : (n <= v_budget v /\ nc + ext + n <= num_tokens (obj s r))%Z).
  { pose proof (cap_prefill_pos (conf s1) (num_tokens (obj s r) - (nc + ext)) ltac:(lia)). subst n. lia. }
  clearbody n ext. apply bind_ok in Hone as (u & Hpos & Hone). apply py_assert_ok, Z.ltb_lt in Hpos.
  fold (choose_inputs s1 (obj s r) (nc + ext) n (v_encoder_budget v)) in Hone.
  apply bind_ok in Hone as ([[inputs n'] eb] & Hch & Hone).
  destruct (has_encoder_inputs (obj s r) && (n' =? 0)%Z) eqn:Ez; [by injection Hone as <- <-|].
  pose proof (chosen_positive _ _ _ _ _ _ _ _ Hpos Hch Ez) as Hn'. apply bind_ok in Hone as ([kv2 res] & Hal & Hone).
  change (num_lookahead_tokens (conf s1)) with (num_lookahead_tokens (conf s)) in Hal. rewrite (cf_lookahead _ (rd_conf _ _ _ Hrd)) in Hal.
  change (kv_cache_manager s1) with kv1 in Hal.
  assert (Hfit1 : kv_fit kv1 (sched_max_model_len (conf s))) by (eapply kv_fit_consts; [exact Hk1|apply (rd_fit _ _ _ Hrd)]).
  destruct (allocate_slots_frame _ _ _ _ _ _ _ _ _ Hal) as [Hf2 _]. rewrite Hid in Hf2.
  destruct (alloc_owned hash_fn NONE_HASH kv1 l (sched_max_model_len (conf s)) (obj s r) (n' + ext) new kv2 res (computed_of s1)
    (fun id' => if decide (id' = id) then match res with Some _ => nc + ext | None => 0 end else computed_of s1 id')%Z Hkv1 Hfit1 (sv_wf _ _ _ Hsv))
    as (Ho & cur & Hcov & Hcur); rewrite ?Hid, ?Hzero, ?(kc_size _ _ Hk1); fold nc; try done; try lia.
  { rewrite <-Hid. exact Hnew. }
  { apply (gv_owned _ _ Hg1). }
  { by rewrite (computed_of_at s1 id r). }
  { intros id' Hne. by rewrite decide_False. }
  { rewrite decide_True by done. destruct res; [|done]. lia. }
  rewrite Hid, Hb1 in Hcov. rewrite Hid in Hcur. destruct Hcov as [Hcl _]. apply nil_length_inv in Hcl as ->.
  cbn [app] in Hcur. destruct res as [nb|].
  2: { injection Hone as <- <-. apply (given_kv s1 v kv2 Hg1 (kf_consts _ _ _ Hf2)). apply (frame_blocks _ _ id Hf2). by rewrite Hcur, Hb1. }
  apply bind_ok in Hone as (v1 & Htk & Hone). apply bind_ok in Hone as (s3 & Ha & Hone). injection Hone as <- <-.
  apply allocate_inputs_frame in Ha as [e ->]. destruct Hnext as (Hi2 & Hrun2 & _).
  destruct (to_running_ok now (set_kv kv2 s1) r rest ext (nc + ext)) as (T1 & T2 & T3 & T4 & T5 & T6 & T7 & T8).
  assert (T9 : kv_cache_manager (to_running now (set_kv kv2 s1) r rest ext (nc + ext)) = kv2 /\
    cached_reqs_data (to_running now (set_kv kv2 s1) r rest ext (nc + ext)) = cached_reqs_data s1) by (unfold to_running; cbn; by destruct (sched_log_stats _)).
  destruct T9 as [T9 T10].
  set (s2 := to_running _ _ _ _ _ _) in *. clearbody s2.
  apply (given_admitted s1 (set_enc e s2) v v1 r kv2 new nb n' inputs eb (nc + ext)); try done.
  - by apply loop_inv_kv.
  - apply T1.
Qed.

Lemma given_queue s v q : given s v -> given (set_waiting q s) v.
Proof. intros []. by split. Qed.

(** A waiting request changes its status, but not from or to preempted. *)
Lemma given_requeue s v r f q :
  loop_inv s0 s v -> given s v -> r ∈ live s0 -> r ∉ running s -> (forall q, num_computed_tokens (f q) = num_computed_tokens q) ->
  (status (f (obj s r)) = PREEMPTED <-> status (obj s r) = PREEMPTED) -> given (set_waiting q (update r f s)) v.
Proof using H0.
  intros Hi [G1 G2 G3 G4 G5 G6 G7 G8 G9 G10 G11 G12 G13] Hl Hnr Hc Hs. split; try done.
  - eapply owned_mono; [exact G2|]. intros id. apply Z.eq_le_incl, computed_of_same; [done|]. intros x. change (obj (set_waiting q (update r f s)) x) with (obj (update r f s) x).
    rewrite obj_update. case_decide; [subst x; apply Hc|done].
  - intros x Hx Hn. change (obj (set_waiting q (update r f s)) x) with (obj (update r f s) x). rewrite obj_update. case_decide; [subst x; rewrite Hs; by apply G9|by apply G9].
  - intros x Hx Hn. change (obj (set_waiting q (update r f s)) x) with (obj (update r f s) x). rewrite obj_update. case_decide; [subst x; rewrite Hs; by apply G13|by apply G13].
Qed.

Lemma waiting_loop_given now rdy queue : forall s v loras skipped s' v' sk,
  loop_inv s0 s v -> waiting s = queue -> (forall r, r ∈ queue -> r ∈ waiting s0) -> NoDup (queue ++ running s) -> ready len s (v_scheduled v) ->
  given s v -> waiting_loop now rdy s v loras queue skipped = Ok (s', v', sk) -> given s' v'.
Proof using All.
  induction queue as [|r rest IH]; intros s v loras skipped s' v' sk Hi Hw Hq Hnd Hrd Hg; cbn [waiting_loop]; [by intros [= <- <- _]|].
  destruct (negb (0 <? v_budget v)%Z || _) eqn:Hstop; [by intros [= <- <- _]|].
  apply orb_false_iff in Hstop as [Hb%negb_false_iff%Z.ltb_lt _].
  cbn in Hnd. apply NoDup_cons in Hnd as [Hr Hnd]. rewrite not_elem_of_app in Hr. destruct Hr as [Hr1 Hr2].
  pose proof (Hq r ltac:(by left)) as Hrw. assert (Hrl : r ∈ live s0) by (apply elem_of_app; by left).
  assert (Hr0 : r ∉ running s0) by (intros ?; by apply (running_not_waiting r)).
  assert (Hq' : forall x, x ∈ rest -> x ∈ waiting s0) by (intros x Hx; apply Hq; by right).
  pose proof (id_of_requests s v r Hi Hrl) as Hreq.
  destruct (_ && negb _) eqn:Hfsm; [apply IH; try done; [by apply loop_inv_queue|by apply ready_waiting|by apply given_queue]|].
  set (s1 := if bool_decide _ then _ else _).
  assert (Hs1 : loop_inv s0 s1 v /\ running s1 = running s /\ waiting s1 = waiting s /\ requests s1 = requests s /\
    ready len s1 (v_scheduled v) /\ given s1 v /\ (status (obj s1 r) = WAITING \/ status (obj s1 r) = PREEMPTED)).
  { subst s1. case_bool_decide as Hst.
    - replace (update r (set_status WAITING) s) with (set_waiting (waiting s) (update r (set_status WAITING) s)) by done.
      split; [apply loop_inv_requeue; try done; unfold waiting_status; cbn; by left|]. split_and!; try done.
      + apply ready_waiting. by apply (requeue_ready len s0 H0 s _ r (id_of r)).
      + apply given_requeue; try done. cbn. rewrite Hst. done.
      + change (status (obj (update r (set_status WAITING) s) r) = WAITING \/ status (obj (update r (set_status WAITING) s) r) = PREEMPTED). rewrite obj_update_eq. by left.
    - split_and!; try done. apply waiting_status_cases; [|done]. by apply (lv_waiting _ _ _ Hi). }
  clearbody s1. destruct Hs1 as (Hi1 & Hrun1 & Hw1 & Hreq1 & Hrd1 & Hg1 & Hst1). assert (Hnr1 : r ∉ running s1) by (by rewrite Hrun1).
  unfold lora_blocked. rewrite (cf_loras _ (rd_conf _ _ _ Hrd1)).
  destruct (waiting_one_ready len s0 H0 now s1 v loras r rest (id_of r) Hi1 Hrl Hnr1 Hb Hrd1) as (s2 & next & Hone & Hrd2 & _); [by rewrite Hreq1|done|].
  pose proof (waiting_one_ok s0 H0 now s1 v loras r rest s2 next Hi1 Hrl Hr0 Hnr1 Hb Hone) as Hres.
  pose proof (waiting_one_given now s1 v loras r rest s2 next Hi1 Hrw Hnr1 Hb Hrd1 Hg1 Hst1 (gv_status _ _ Hg1 r Hrw Hnr1) Hone) as Hg2.
  rewrite Hone. cbn [mbind result_bind]. destruct next as [[v2 loras2]|]; [|by intros [= <- <- _]].
  destruct Hres as (Hi2 & Hrun2 & Hw2 & _). apply IH; try done.
  rewrite Hrun2, Hrun1, app_assoc. apply NoDup_app. split_and!; [done| |apply NoDup_singleton].
  intros x Hx ->%list_elem_of_singleton. by apply elem_of_app in Hx as [Hx|Hx].
Qed.

Lemma schedule_waiting_given now rdy s v k s' v' :
  loop_inv s0 s v -> run_queues s0 s v k -> ready len s (v_scheduled v) -> given s v -> schedule_waiting now rdy s v = Ok (s', v') -> given s' v'.
Proof using All.
  intros Hi Hq Hrd Hg. pose proof Hq as [[_ Hk] Hr Hw Hp _ _]. unfold schedule_waiting, running_loras.
  rewrite (cf_loras _ (rd_conf _ _ _ Hrd)). cbn [mbind result_bind]. intros H. apply bind_ok in H as ([[s1 v1] sk] & H & Hfin).
  injection Hfin as <- <-. apply given_queue. destruct (v_preempted v) as [|p ps] eqn:Ep; [|by injection H as <- <- _].
  assert (k = length (running s0)) as ->.
  { apply (f_equal length) in Hp. rewrite length_reverse, length_drop in Hp. cbn in Hp. lia. }
  rewrite drop_ge in Hw by done. rewrite take_ge in Hr by done. cbn in Hw.
  eapply (waiting_loop_given now rdy (waiting s)); try done; rewrite Hw; [done|]. rewrite Hr. apply (so_nodup _ H0).
Qed.

(** ** The output *)

(** The queues of unused entries hold entries of their request. *)
Definition entries_ok s : Prop := forall id ds d, cached_reqs_data s !! id = Some ds -> d ∈ ds -> cr_req_id d = id.

Definition cached_entry s v (resumed : bool) (r : nat) (d : CachedRequestData) : Prop :=
  let q := obj s r in
  exists n blocks, v_scheduled v !! request_id q = Some n /\ v_new_blocks v !! request_id q = Some blocks /\
    d = {| cr_req_id := request_id q; resumed_from_preemption := resumed;
           new_token_ids := py_slice (num_computed_tokens q) (num_computed_tokens q + (n - Z.of_nat (length (default [] (v_spec v !! request_id q))))) (all_token_ids q);
           new_block_ids := blocks; cr_num_computed_tokens := num_computed_tokens q |}.

Lemma cached_list_entries v resumed rs : forall s ds s' l, entries_ok s ->
  foldM (fun '(s, ds) r =>
    let req := obj s r in
    let id := request_id req in
    n ← of_option KeyError (v_scheduled v !! id);
    blocks ← of_option KeyError (v_new_blocks v !! id);
    let '(s, d) := make_cached_request_data s req n (Z.of_nat (length (default [] (v_spec v !! id)))) blocks resumed in
    Ok (s, ds ++ [d])) (s, ds) rs = Ok (s', l) ->
  exists c l', s' = set_cached_data c s /\ entries_ok s' /\ l = ds ++ l' /\ Forall2 (cached_entry s v resumed) rs l'.
Proof.
  induction rs as [|r rs IH]; intros s ds s' l Hok; cbn [foldM].
  { intros [= <- <-]. exists (cached_reqs_data s), []. rewrite app_nil_r. split; [by destruct s|]. done. }
  cbn zeta beta iota. intros H. apply bind_ok in H as ([s1 ds1] & H1 & H).
  apply bind_ok in H1 as (n & Hn%of_option_ok & H1). apply bind_ok in H1 as (blocks & Hb%of_option_ok & H1).
  destruct (make_cached_request_data s (obj s r) n _ blocks resumed) as [s2 d] eqn:Em. injection H1 as <- <-.
  assert (Hd : exists c, s2 = set_cached_data c s /\ entries_ok s2 /\ cached_entry s v resumed r d).
  { unfold make_cached_request_data in Em. destruct (cached_reqs_data s !! request_id (obj s r)) as [[|d0 ds0]|] eqn:Ec; injection Em as <- <-.
    - exists (cached_reqs_data s). split; [by destruct s|]. split; [done|]. by exists n, blocks.
    - exists (<[request_id (obj s r) := ds0]> (cached_reqs_data s)). split; [done|]. split.
      + intros id l0 d1. cbn. intros [[<- <-]|[_ Hl]]%lookup_insert_Some Hd1; [|by eapply Hok]. eapply Hok; [exact Ec|by right].
      + exists n, blocks. split; [done|]. split; [done|]. rewrite (Hok _ _ d0 Ec) by left. done.
    - exists (cached_reqs_data s). split; [by destruct s|]. split; [done|]. by exists n, blocks. }
  destruct Hd as (c & -> & Hok2 & Hd). destruct (IH (set_cached_data c s) (ds ++ [d]) s' l Hok2 H) as (c' & l' & -> & Hok' & -> & Hl).
  exists c', (d :: l'). split; [done|]. split; [done|]. split; [by rewrite <-app_assoc|]. by constructor.
Qed.

Lemma new_list_entries s v l : new_data_list s v = Ok l ->
  Forall2 (fun r d => exists blocks, v_new_blocks v !! request_id (obj s r) = Some blocks /\ d = new_request_data (obj s r) blocks) (v_new v) l.
Proof.
  unfold new_data_list. intros H. apply mapM_ok_Forall2 in H. eapply Forall2_impl; [exact H|]. cbn. intros r d Hd.
  apply bind_ok in Hd as (blocks & Hb%of_option_ok & Hd). injection Hd as <-. by exists blocks.
Qed.

Lemma finish_lists bcm s v s' out meta : entries_ok s -> finish_schedule bcm s v = Ok (s', (out, meta)) ->
  exists resumed cont, scheduled_cached_reqs out = resumed ++ cont /\ entries_ok s' /\
    Forall2 (fun r d => exists blocks, v_new_blocks v !! request_id (obj s r) = Some blocks /\ d = new_request_data (obj s r) blocks) (v_new v) (scheduled_new_reqs out) /\
    Forall2 (cached_entry s v true) (v_resumed v) resumed /\ Forall2 (cached_entry s v false) (v_running v) cont.
Proof.
  intros Hok H. unfold finish_schedule in H. apply bind_ok in H as (u & _ & H). apply bind_ok in H as ([s1 nc] & Hcb & H).
  assert (Hs1 : exists kv, s1 = set_kv kv s).
  { unfold common_blocks in Hcb. destruct (running s); [injection Hcb as <- _; exists (kv_cache_manager s); by destruct s|].
    apply bind_ok in Hcb as ([kv n'] & _ & Hcb). injection Hcb as <- _. by exists kv. }
  destruct Hs1 as [kv ->]. apply bind_ok in H as (nl & Hnl & H). apply bind_ok in H as ([s2 l1] & Hl1 & H). apply bind_ok in H as ([s3 l2] & Hl2 & H).
  apply (cached_list_entries v true (v_resumed v) (set_kv kv s) []) in Hl1 as (c1 & r1 & -> & Hok1 & -> & HF1); [|done].
  apply (cached_list_entries v false (v_running v) _ []) in Hl2 as (c2 & r2 & -> & Hok2 & -> & HF2); [|done].
  destruct (get_freed_ids _) as [enc freed]. apply bind_ok in H as (s4 & Ha & H). injection H as <- <- _. cbn [app].
  exists r1, r2. split; [done|]. split; [|split; [by apply new_list_entries in Hnl|done]].
  intros id ds d. change (cached_reqs_data (set_finished ∅ s4)) with (cached_reqs_data s4).
  match type of Ha with advance ?t _ = _ => set (s5 := t) in Ha end.
  assert (cached_reqs_data s4 = cached_reqs_data s5) as ->; [|apply Hok2].
  unfold advance in Ha. clearbody s5. revert Ha. apply (foldM_inv (fun t => cached_reqs_data t = cached_reqs_data s5)); [done|]. intros [id' k] t t' _ Et Hx.
  apply bind_ok in Hx as (y & _ & Hx). by injection Hx as <-.
Qed.

(** ** The whole step *)

Definition handed_ids (out : SchedulerOutput) : list string := (nr_req_id <$> scheduled_new_reqs out) ++ (cr_req_id <$> scheduled_cached_reqs out).

(** The data of a request that starts, with the tokens computed before the step. *)
Definition starts_with s' (out : SchedulerOutput) (d : NewRequestData) (r : nat) (n : Z) : Prop :=
  let q := obj s' r in
  num_scheduled_tokens out !! nr_req_id d = Some n /\ nr_req_id d = request_id q /\ nr_prompt_token_ids d = prompt_token_ids q /\
  nr_sampling_params d = sampling_params q /\ nr_lora_request d = lora_request q /\ nr_num_computed_tokens d = (num_computed_tokens q - n)%Z /\
  nr_block_ids d = kv_blocks s' (request_id q).

(** The data of a request the worker knows. *)
Definition goes_on s' (out : SchedulerOutput) (d : CachedRequestData) (r : nat) (n : Z) : Prop :=
  let q := obj s' r in let c := (num_computed_tokens q - n)%Z in
  num_scheduled_tokens out !! cr_req_id d = Some n /\ cr_req_id d = request_id q /\ cr_num_computed_tokens d = c /\
  new_token_ids d = py_slice c (c + n) (all_token_ids q) /\
  if resumed_from_preemption d
  then r ∈ waiting s0 /\ status (obj s0 r) = PREEMPTED /\ new_block_ids d = kv_blocks s' (request_id q)
  else r ∈ running s0 /\ covered null (W (request_id q) ++ new_block_ids d) (kv_blocks s' (request_id q)).

Record handed s' (out : SchedulerOutput) : Prop := {
  hd_new : forall d, d ∈ scheduled_new_reqs out ->
    exists r n, r ∈ running s' /\ r ∈ waiting s0 /\ status (obj s0 r) <> PREEMPTED /\ starts_with s' out d r n;
  hd_cached : forall d, d ∈ scheduled_cached_reqs out -> exists r n, r ∈ running s' /\ goes_on s' out d r n;
  hd_ids : NoDup (handed_ids out);
  hd_sched : forall id, is_Some (num_scheduled_tokens out !! id) <-> id ∈ handed_ids out;
  hd_counts : forall r n, r ∈ running s' -> num_scheduled_tokens out !! request_id (obj s' r) = Some n -> (1 <= n <= num_computed_tokens (obj s' r))%Z;
  hd_idle : forall r, r ∈ running s' -> num_scheduled_tokens out !! request_id (obj s' r) = None ->
    covered null (W (request_id (obj s' r))) (kv_blocks s' (request_id (obj s' r)));
  hd_static : forall r, r ∈ live s0 -> same_static (obj s0 r) (obj s' r);
  hd_status : forall r, r ∈ waiting s' -> status (obj s' r) = PREEMPTED <-> r ∈ running s0 \/ status (obj s0 r) = PREEMPTED;
  hd_admitted : forall r, r ∈ running s' -> r ∉ running s0 -> is_Some (num_scheduled_tokens out !! request_id (obj s' r));
  hd_null : null_block (block_pool (kv_cache_manager s')) = null;
  hd_consts : kv_consts (kv_cache_manager s0) (kv_cache_manager s');
  hd_owned : owned (sched_max_model_len (conf s')) (kv_cache_manager s') (fun id => computed_of s' id - default 0 (num_scheduled_tokens out !! id))%Z;
  hd_spec : scheduled_spec_decode_tokens out = ∅;
  hd_entries : entries_ok s';
}.

Lemma ids_of_entries {A} (rs : list nat) (ds : list A) (f : A -> string) (P : nat -> A -> Prop) s :
  (forall x, request_id (obj s x) = id_of x) -> (forall r d, P r d -> f d = request_id (obj s r)) -> Forall2 P rs ds -> f <$> ds = id_of <$> rs.
Proof. intros Hid Hf HF. induction HF as [|r d rs ds Hd HF IH]; [done|]. cbn. by rewrite (Hf r d Hd), Hid, IH. Qed.

Lemma elem_Forall2 {A B} (P : A -> B -> Prop) l k y : Forall2 P l k -> y ∈ k -> exists x, x ∈ l /\ P x y.
Proof. intros HF Hy. apply list_elem_of_lookup in Hy as [i Hi]. destruct (Forall2_lookup_r _ _ _ _ _ HF Hi) as (x & Hx & HP). exists x. split; [by eapply list_elem_of_lookup_2|done]. Qed.

Context (bcm : connector_state -> SchedulerOutput -> connector_state * connector_meta).

Lemma given_init : null_block (block_pool (kv_cache_manager s0)) = null ->
  owned (sched_max_model_len (conf s0)) (kv_cache_manager s0) (computed_of s0) ->
  (forall r, r ∈ running s0 -> covered null (W (id_of r)) (kv_blocks s0 (id_of r))) -> given s0 (vars_init (conf s0)).
Proof.
  intros Hn Ho Hc. split; try done; cbn [vars_init v_new v_resumed v_running].
  - intros r Hr _. by split; [|apply Hc].
  - intros r [Hr|Hr]; by apply elem_of_nil in Hr.
  - intros r Hr; by apply elem_of_nil in Hr.
  - intros r Hr; by apply elem_of_nil in Hr.
  - intros r Hr; by apply elem_of_nil in Hr.
  - intros r Hr; by apply elem_of_nil in Hr.
Qed.

Lemma finish_handed s v s' out meta :
  loop_inv s0 s v -> given s v -> ready len s (v_scheduled v) -> entries_ok s -> finish_result s0 s s' v out -> live s' ≡ₚ live s0 ->
  finish_schedule bcm s v = Ok (s', (out, meta)) -> handed s' out.
Proof using H0.
  intros Hi Hg Hrd Hok [F1 [F2 F3] F4 F5 [F6 F7] [F8 F9] F10 F11 _] Hperm Hfin.
  destruct (finish_lists bcm s v s' out meta Hok Hfin) as (resumed & cont & Ec & Hok' & HN & HR & HC).
  pose proof Hi as [L1 L2 L3 L4 L5 L6 L7 L8 L9 L10 L11 L12 L13 L14 L15]. pose proof Hg as [G1 G2 G3 G4 G5 G6 G7 G8 G9 G10 G11 G12 G13].
  destruct (rd_kv _ _ _ Hrd) as [l Hkv]. destruct (touched_ok _ _ l F11 Hkv) as (_ & Hk & Hb & _).
  assert (Hid : forall x, request_id (obj s x) = id_of x) by (intros x; apply (fr_static _ _ L1)).
  assert (Hstat : forall x, x ∈ live s0 -> same_static (obj s x) (obj s' x)) by (intros x Hx; rewrite F5 by done; by split).
  assert (Hid' : forall x, x ∈ live s0 -> request_id (obj s' x) = id_of x) by (intros x Hx; rewrite F5 by done; cbn; apply Hid).
  assert (Hlive : forall x, x ∈ running s -> x ∈ live s0) by (intros x Hx; by apply L11).
  assert (Hsch : forall x, x ∈ scheduled_of v -> x ∈ running s' /\ x ∈ live s0 /\ exists n, v_scheduled v !! id_of x = Some n /\
    num_computed_tokens (obj s' x) = (num_computed_tokens (obj s x) + n)%Z).
  { intros x Hx. pose proof (Hlive x (L5 x Hx)) as Hl. split; [rewrite F3; by apply L5|]. split; [done|].
    destruct (proj2 (L6 (id_of x))) as [n Hn]; [by exists x|]. exists n. split; [done|]. rewrite F5 by done. fold (id_of x). by rewrite Hn. }
  assert (Hkb : forall id, kv_blocks s' id = kv_blocks s id) by (intros id; apply Hb).
  assert (EN : nr_req_id <$> scheduled_new_reqs out = id_of <$> v_new v).
  { eapply (ids_of_entries _ _ _ _ s); [exact Hid| |exact HN]. by intros r d (b & _ & ->). }
  assert (EC : cr_req_id <$> scheduled_cached_reqs out = id_of <$> (v_resumed v ++ v_running v)).
  { rewrite Ec, !fmap_app. f_equal; (eapply (ids_of_entries _ _ _ _ s); [exact Hid| |eassumption]); intros r d (n & b & _ & _ & ->); done. }
  assert (Hids : handed_ids out = id_of <$> scheduled_of v) by (unfold handed_ids, scheduled_of; by rewrite EN, EC, !fmap_app).
  assert (Hspec : forall id, Z.of_nat (length (default [] (v_spec v !! id))) = 0%Z) by (intros id; by rewrite G10, lookup_empty).
  split; try done.
  - intros d Hd. destruct (elem_Forall2 _ _ _ _ HN Hd) as (r & Hr & b & Hb1 & ->). rewrite Hid in Hb1.
    destruct (Hsch r) as (S1 & S2 & n & S3 & S4); [unfold scheduled_of; rewrite !elem_of_app; tauto|]. exists r, n.
    destruct (G6 r Hr) as [G61 G62]. split; [done|]. split; [done|]. split; [done|]. destruct (Hstat r S2) as [T1 T2 T3 T4 T5 T6 T7 T8 T9 T10].
    assert (Eb : b = kv_blocks s (id_of r)) by (rewrite (G4 r (or_introl Hr)) in Hb1; congruence).
    split; cbn; rewrite ?Hid, ?F6; [done|]. rewrite Hkb, T1, T2, T3, T5, S4, Hid, Eb. split_and!; try done. lia.
  - intros d Hd. rewrite Ec in Hd. apply elem_of_app in Hd as [Hd|Hd].
    + destruct (elem_Forall2 _ _ _ _ HR Hd) as (r & Hr & n & b & Hn & Hb1 & ->). rewrite Hid in Hn, Hb1.
      destruct (Hsch r) as (S1 & S2 & n' & S3 & S4); [unfold scheduled_of; rewrite !elem_of_app; tauto|]. rewrite Hn in S3. injection S3 as <-.
      exists r, n. split; [done|]. destruct (Hstat r S2) as [T1 T2 T3 T4 T5 T6 T7 T8 T9 T10].
      assert (Eb : b = kv_blocks s (id_of r)) by (rewrite (G4 r (or_intror Hr)) in Hb1; congruence).
      split; cbn; rewrite ?Hid, ?F6; [done|]. rewrite Hkb, T1, T6, S4, Hid, Eb, Hspec. destruct (G7 r Hr) as [G71 G72].
      replace (num_computed_tokens (obj s r) + n - n)%Z with (num_computed_tokens (obj s r)) by lia. split_and!; try done. f_equal. lia.
    + destruct (elem_Forall2 _ _ _ _ HC Hd) as (r & Hr & n & b & Hn & Hb1 & ->). rewrite Hid in Hn, Hb1.
      destruct (Hsch r) as (S1 & S2 & n' & S3 & S4); [unfold scheduled_of; rewrite !elem_of_app; tauto|]. rewrite Hn in S3. injection S3 as <-.
      exists r, n. split; [done|]. destruct (Hstat r S2) as [T1 T2 T3 T4 T5 T6 T7 T8 T9 T10].
      destruct (G5 r Hr) as (nb & Hnb & Hcov). rewrite Hb1 in Hnb. injection Hnb as <-.
      split; cbn; rewrite ?Hid, ?F6; [done|]. rewrite Hkb, T1, T6, S4, Hid, Hspec.
      replace (num_computed_tokens (obj s r) + n - n)%Z with (num_computed_tokens (obj s r)) by lia. split_and!; try done; [f_equal; lia|by apply G8].
  - rewrite Hids. apply NoDup_fmap_2_strong; [|done]. intros x y Hx Hy Hxy. destruct (decide (x = y)) as [|Hne]; [done|].
    destruct (id_of_inj y x) as []; [by apply Hsch|by apply Hsch|done|done].
  - intros id. rewrite F6, Hids, L6. split; [intros (r & Hr & <-); exact (list_elem_of_fmap_2 id_of _ _ Hr)|]. intros (r & -> & Hr)%list_elem_of_fmap. by exists r.
  - intros r n Hr. rewrite F3 in Hr. rewrite Hid', F6 by (by apply Hlive). intros Hn. split; [by eapply L8|].
    destruct (proj1 (L6 (id_of r)) ltac:(by eexists)) as (x & Hx & Hxr). destruct (Hsch x Hx) as (_ & Hxl & m & Hm & Em).
    assert (x = r) as -> by (apply (live_id_inj s0); [done|done|by apply Hlive|done]). rewrite Hn in Hm. injection Hm as <-. rewrite Em.
    destruct (L10 r Hxl) as ((? & _) & _). lia.
  - intros r Hr. rewrite F3 in Hr. rewrite Hid', F6, Hkb by (by apply Hlive). intros Hn. apply G3; [done|]. intros Hin.
    destruct (Hsch r Hin) as (_ & _ & m & Hm & _). congruence.
  - intros r Hr. etransitivity; [apply (fr_static _ _ L1)|by apply Hstat].
  - intros r Hr. rewrite F2 in Hr. assert (Hrl : r ∈ live s0) by (rewrite <-Hperm; apply elem_of_app; left; by rewrite F2).
    assert (Hnr : r ∉ running s).
    { intros Hrun. assert (Hnd : NoDup (live s')) by (rewrite Hperm; apply (so_nodup _ H0)).
      apply NoDup_app in Hnd as (_ & Hnd & _). apply (Hnd r); [by rewrite F2|by rewrite F3]. }
    assert (Est : status (obj s' r) = status (obj s r)) by (by rewrite F5). rewrite Est.
    apply elem_of_app in Hrl as [Hrw|Hrr]; [|split; [by left|by intros _; apply G13]]. rewrite (G9 r Hrw Hnr).
    split; [by right|]. intros [Hrr|]; [by destruct (running_not_waiting r)|done].
  - intros r Hr Hn0. rewrite F3 in Hr. rewrite Hid', F6 by (by apply Hlive). destruct (decide (r ∈ scheduled_of v)) as [Hin|Hin].
    + destruct (Hsch r Hin) as (_ & _ & n & Hn & _). by eexists.
    + destruct Hn0. by apply G3.
  - by rewrite (kc_null _ _ Hk).
  - etransitivity; [exact G12|exact Hk].
  - rewrite F1. eapply owned_mono; [eapply owned_same; [exact G2|done|done]|]. intros id. apply Z.eq_le_incl. rewrite F6.
    unfold computed_of. rewrite F4. destruct (requests s !! id) as [r|] eqn:Er.
    + assert (Hr : r ∈ live s0 /\ id_of r = id) by (rewrite (fr_requests _ _ L1) in Er; by apply (so_requests _ H0)). destruct Hr as [Hr <-].
      rewrite F5 by done. fold (id_of r). cbn. lia.
    + destruct (v_scheduled v !! id) as [n|] eqn:En; [|done]. destruct (proj1 (L6 id) ltac:(by eexists)) as (x & Hx & Hxr).
      rewrite (fr_requests _ _ L1) in Er. assert (requests s0 !! id = Some x); [|congruence]. apply (so_requests _ H0). destruct (Hsch x Hx) as (_ & Hxl & _). done.
  - by rewrite F10, G10.
Qed.

(** [schedule] hands every request what the worker needs. *)
Lemma schedule_handed now rdy :
  ready len s0 ∅ -> entries_ok s0 -> null_block (block_pool (kv_cache_manager s0)) = null ->
  owned (sched_max_model_len (conf s0)) (kv_cache_manager s0) (computed_of s0) ->
  (forall r, r ∈ running s0 -> covered null (W (id_of r)) (kv_blocks s0 (id_of r))) ->
  exists s' out meta, schedule bcm now rdy s0 = Some (Ok (s', (out, meta))) /\ step_result s0 s' out /\ ready len s' ∅ /\ handed s' out.
Proof using All.
  intros Hrd Hok Hn Ho Hc. pose proof (cf_budget _ (rd_conf _ _ _ Hrd)) as Hm. pose proof (given_init Hn Ho Hc) as Hg0.
  pose proof (vars_init_inv s0 H0 Hm) as Hi0. pose proof (run_queues_init s0) as Hq0.
  destruct (running_loop_ready len s0 H0 now (length (running s0)) s0 (vars_init (conf s0)) _ Hi0 Hq0) as (s & v & k & Hrun & Hi & Hq & Hrd1 & _); [cbn; lia|done|].
  pose proof (running_loop_given now _ _ _ _ _ _ Hi0 Hq0 Hrd Hg0 Hrun) as Hg1. unfold schedule. rewrite Hrun.
  destruct (schedule_waiting_ready len s0 H0 now rdy s v k Hi Hq Hrd1) as (s1 & v1 & Hw & Hrd2 & _). rewrite Hw. cbn [mbind result_bind].
  pose proof (schedule_waiting_given now rdy s v k s1 v1 Hi Hq Hrd1 Hg1 Hw) as Hg2.
  destruct (schedule_waiting_ok s0 H0 now rdy s v k s1 v1 Hi Hq Hw) as (Hi1 & Hq1 & Hlim).
  destruct (finish_schedule_ok s0 H0 bcm s1 v1 Hi1 Hlim) as (s2 & out & meta & Hf & Hfr). rewrite Hf. exists s2, out, meta. split; [done|].
  pose proof (step_result_ok s0 H0 s1 v1 s2 out Hi1 Hq1 Hlim Hfr) as Hs. split; [done|].
  split; [by apply (finish_ready len s0 H0 s1 v1 s2 out)|]. apply (finish_handed s1 v1 s2 out meta); try done.
  - intros id ds d. rewrite (gv_entries _ _ Hg2). apply Hok.
  - apply (queues_perm s0 H0), (sr_queues _ _ _ Hs).
Qed.
End Step.
End Outputs.
