(* ===== verification/Engine.v ===== *)
(** * The engine core

    [EngineCore] of [vllm/v1/engine/core.py] with the queries of
    [vllm/v1/core/sched/interface.py]: the calls through which the outside drives
    the scheduler, [step], and [step_with_batch_queue] for pipeline parallelism.
    The model executor is a parameter: what it answers for a batch. *)

From S2P Require Import Prelude LRU PrefixMetrics FreeBlockQueue Request BlockHash BlockPool.
From S2P Require Import SpecializedManager KVCacheConfig KVCacheManager KVCacheLink MMInputCache EncoderCache.
From S2P Require Import Scheduler SchedulerSpec SchedulerLifecycle SchedulerUpdate SchedulerSafety SchedulerCalls.

(** ** The caches' configuration *)

(** [_initialize_kv_caches]: the executor's answers are arguments. *)
Definition initialize_kv_caches {dtype} `{!EqDecision dtype} (get_dtype_size : dtype -> Z) (c : VllmConfig)
    (kv_cache_specs : list (layers (dtype := dtype))) (available_gpu_memory : list Z) :
    result (Z * KVCacheConfig (dtype := dtype)) :=
  _ ← py_assert (length kv_cache_specs =? length available_gpu_memory);
  cs ← mapM_ok (fun '(l, memory) => get_kv_cache_config get_dtype_size c l memory) (zip kv_cache_specs available_gpu_memory);
  cs ← unify_kv_cache_configs get_dtype_size cs;
  c0 ← of_option IndexError (head cs);
  _ ← py_assert (forallb (fun c => num_blocks c =? num_blocks c0)%Z cs);
  Ok (num_blocks c0, c0).

Section Engine.
Context `{E : Env} {V : Type} `{!BaseLRU V}.
Context (build_connector_meta : connector_state -> SchedulerOutput -> connector_state * connector_meta).
Context {executor : Type}.
Context (execute_model : executor -> SchedulerOutput -> option connector_meta -> executor * ModelRunnerOutput).

(** ** The interface's queries *)

Definition has_unfinished_requests (s : Scheduler) : bool := 0 <? get_num_unfinished_requests s.
Definition has_requests (s : Scheduler) : bool := has_unfinished_requests s || has_finished_requests s.

(** ** State *)

Record EngineCoreRequest := {
  er_request_id : string;
  er_prompt_token_ids : list Z;
  er_mm_inputs : option (list (option V));
  er_mm_hashes : option (list string);
  er_mm_placeholders : option (list PlaceholderRange);
  er_sampling_params : SamplingParams;
  er_eos_token_id : option Z;
  er_lora_request : option Z;
}.

(** A future is the answer the executor will give. *)
Record EngineCore := {
  scheduler : Scheduler;
  model_executor : executor;
  mm_input_cache_server : MirroredProcessingCache (V := V);
  batch_queue_size : nat;
  batch_queue : option (list (ModelRunnerOutput * SchedulerOutput));
}.

Definition set_scheduler (s : Scheduler) (e : EngineCore) : EngineCore :=
  {| scheduler := s; model_executor := model_executor e; mm_input_cache_server := mm_input_cache_server e;
   batch_queue_size := batch_queue_size e; batch_queue := batch_queue e |}.
Definition set_executor (x : executor) (e : EngineCore) : EngineCore :=
  {| scheduler := scheduler e; model_executor := x; mm_input_cache_server := mm_input_cache_server e;
   batch_queue_size := batch_queue_size e; batch_queue := batch_queue e |}.
Definition set_mm_server (m : MirroredProcessingCache) (e : EngineCore) : EngineCore :=
  {| scheduler := scheduler e; model_executor := model_executor e; mm_input_cache_server := m;
   batch_queue_size := batch_queue_size e; batch_queue := batch_queue e |}.
Definition set_batch_queue (q : option (list (ModelRunnerOutput * SchedulerOutput))) (e : EngineCore) : EngineCore :=
  {| scheduler := scheduler e; model_executor := model_executor e; mm_input_cache_server := mm_input_cache_server e;
   batch_queue_size := batch_queue_size e; batch_queue := q |}.

(** [EngineCore.__init__] after the caches' configuration [cfg]. *)
Definition engine_init {dtype} (c : SchedulerConf) (conn : option connector_state) (num_gpu_blocks encoder_cache_size : Z)
    (cfg : KVCacheConfig (dtype := dtype)) (enable_prefix_caching use_eagle : bool) (x : executor)
    (mm : MirroredProcessingCache) (max_concurrent_batches : nat) : result EngineCore :=
  s ← scheduler_init c conn (Some num_gpu_blocks) encoder_cache_size cfg enable_prefix_caching use_eagle;
  Ok {| scheduler := s; model_executor := x; mm_input_cache_server := mm; batch_queue_size := max_concurrent_batches;
      batch_queue := if 1 <? max_concurrent_batches then Some [] else None |}.

(** ** Requests *)

(** A reference that no object has and no queue holds. *)
Definition new_ref (s : Scheduler) : nat := fresh (dom (heap s) ∪ list_to_set (live s) : gset nat).

(** The inputs come through the server's cache when they have hashes. *)
Definition receive_inputs (m : MirroredProcessingCache) (er : EngineCoreRequest) :
    result (MirroredProcessingCache * option (list (option V))) :=
  match er_mm_hashes er with
  | None => Ok (m, er_mm_inputs er)
  | Some hashes =>
      inputs ← of_option AssertionError (er_mm_inputs er);
      let '(m, r) := get_and_update_p1 m inputs hashes in
      inputs ← r; Ok (m, Some inputs)
  end.

Definition to_request (er : EngineCoreRequest) (mm_inputs : option (list (option V))) : result Request :=
  from_engine_core_request (er_request_id er) (er_prompt_token_ids er) (fmap (M := option) length mm_inputs)
    (fmap (M := option) (fmap (M := list) Some) (er_mm_hashes er)) (er_mm_placeholders er) (er_sampling_params er) (er_eos_token_id er) (er_lora_request er).

(** The grammar of a structured request is compiled elsewhere. *)
Definition engine_add_request (now : Z) (e : EngineCore) (er : EngineCoreRequest) : result EngineCore :=
  '(m, inputs) ← receive_inputs (mm_input_cache_server e) er;
  req ← to_request er inputs;
  Ok (set_mm_server m (set_scheduler (add_request now (scheduler e) (new_ref (scheduler e)) req) e)).

Definition abort_requests (e : EngineCore) (request_ids : list string) : result EngineCore :=
  s ← finish_requests (scheduler e) request_ids FINISHED_ABORTED; Ok (set_scheduler s e).

Definition engine_reset_prefix_cache (e : EngineCore) : result EngineCore :=
  '(s, _) ← sched_reset_prefix_cache (scheduler e); Ok (set_scheduler s e).

(** ** Steps *)

(** [None]: [schedule] does not end. *)
Definition step (now : Z) (grammar_ready : Request -> bool) (e : EngineCore) :
    option (result (EngineCore * EngineCoreOutputs)) :=
  if negb (has_requests (scheduler e)) then
    Some ('(s, st) ← make_stats (scheduler e) None;
          Ok (set_scheduler s e, {| outputs := []; scheduler_stats := st; finished_requests := None |}))
  else
    r ← schedule build_connector_meta now grammar_ready (scheduler e);
    Some ('(s, (out, meta)) ← r;
          let '(x, mro) := execute_model (model_executor e) out meta in
          '(s, res) ← update_from_output s out mro;
          Ok (set_executor x (set_scheduler s e), res)).

Definition queue_full (e : EngineCore) (q : list (ModelRunnerOutput * SchedulerOutput)) : bool :=
  batch_queue_size e <=? length q.

(** The oldest batch's answer goes to the scheduler. *)
Definition take_batch (e : EngineCore) (q : list (ModelRunnerOutput * SchedulerOutput)) :
    result (EngineCore * option EngineCoreOutputs) :=
  match q with
  | [] => Ok (e, None)
  | (mro, out) :: q =>
      '(s, res) ← update_from_output (scheduler e) out mro;
      Ok (set_batch_queue (Some q) (set_scheduler s e), Some res)
  end.

Definition step_with_batch_queue (now : Z) (grammar_ready : Request -> bool) (e : EngineCore) :
    option (result (EngineCore * option EngineCoreOutputs)) :=
  match batch_queue e with
  | None => Some (Err AssertionError)
  | Some q =>
      if queue_full e q then Some (take_batch e q)
      else
        r ← schedule build_connector_meta now grammar_ready (scheduler e);
        Some ('(s, (out, meta)) ← r;
              let e := set_scheduler s e in
              if (0 <? total_num_scheduled_tokens out)%Z
              then let '(x, mro) := execute_model (model_executor e) out meta in
                   Ok (set_batch_queue (Some (q ++ [(mro, out)])) (set_executor x e), None)
              else take_batch e q)
  end.

(** ** What the outside may call *)

Inductive engine_call :=
  | AddRequest (now : Z) (er : EngineCoreRequest)
  | AbortRequests (request_ids : list string)
  | ResetPrefixCache
  | Step (now : Z) (grammar_ready : Request -> bool).

Definition do_call (e : EngineCore) (c : engine_call) : option (result EngineCore) :=
  match c with
  | AddRequest now er => Some (engine_add_request now e er)
  | AbortRequests ids => Some (abort_requests e ids)
  | ResetPrefixCache => Some (engine_reset_prefix_cache e)
  | Step now rdy => match step now rdy e with Some r => Some (fst <$> r) | None => None end
  end.

(** A request of the input processor: an id that is not in use, a prompt that is
  not empty and not longer than the model, [max_tokens] set, multi-modal inputs
  with hashes, apart and in order, that the server's cache can restore. *)
Record valid_request (e : EngineCore) (er : EngineCoreRequest) : Prop := {
  vr_id : requests (scheduler e) !! er_request_id er = None;
  vr_prompt : er_prompt_token_ids er <> [];
  vr_len : (Z.of_nat (length (er_prompt_token_ids er)) <= sched_max_model_len (conf (scheduler e)))%Z;
  vr_max : is_Some (sp_max_tokens (er_sampling_params er));
  vr_inputs : default 0 (fmap (M := option) length (er_mm_inputs er)) = length (opt_list (er_mm_placeholders er));
  vr_hashes : length (opt_list (er_mm_placeholders er)) = length (opt_list (er_mm_hashes er));
  vr_sorted : mm_sorted 0 (zip (opt_list (er_mm_placeholders er)) (fmap (M := list) Some (opt_list (er_mm_hashes er))));
  vr_restored : is_ok (receive_inputs (mm_input_cache_server e) er) = true;
}.

Definition valid_call (e : EngineCore) (c : engine_call) : Prop :=
  match c with AddRequest _ er => valid_request e er | _ => True end.

(** The states the engine reaches from [e0] by valid calls. *)
Inductive reachable (e0 : EngineCore) : EngineCore -> Prop :=
  | reach_init : reachable e0 e0
  | reach_call e c e' : reachable e0 e -> valid_call e c -> do_call e c = Some (Ok e') -> reachable e0 e'.

(** ** The invariant *)

(** What the executor promises about a batch: an answer for every scheduled
  request, of at most one token more than it got drafts, and no new drafts. *)
Record runner_answers (out : SchedulerOutput) (mro : ModelRunnerOutput) : Prop := {
  ra_spec : out_spec_token_ids mro = None;
  ra_index : forall id, default 0%Z (num_scheduled_tokens out !! id) <> 0%Z ->
    exists i g, req_id_to_index mro !! id = Some i /\ sampled_token_ids mro !! i = Some g /\
      let d := default [] (scheduled_spec_decode_tokens out !! id) in
      length g <= length d + 1 /\ (d <> [] -> g <> []) /\
      (g = [] -> default None (prompt_logprobs_dict mro !! id) = None);
}.

Context `{!EnvLaws E} `{!ConnectorLaws E} `{!CollisionFree hash_fn NONE_HASH}.
Context (executor_answers : forall x out meta, runner_answers out (execute_model x out meta).2).

Definition engine_ok (c : SchedulerConf) (e : EngineCore) : Prop :=
  conf (scheduler e) = c /\ exists len, sched_ok (scheduler e) /\ ready len (scheduler e) ∅.

Lemma runner_fits len s s' out mro :
  step_result s s' out -> ready len s' ∅ -> runner_answers out mro ->
  (forall r, r ∈ running s' -> answers s' out mro r) /\ no_drafts out mro s'.
Proof.
  intros Hs Hrd [R1 R2]. pose proof (sr_ok _ _ _ Hs) as H.
  assert (Hnil : forall r, r ∈ running s' -> default 0%Z (num_scheduled_tokens out !! request_id (obj s' r)) <> 0%Z ->
    drafts_fit (default [] (scheduled_spec_decode_tokens out !! request_id (obj s' r))) 0 (obj s' r) /\
    default [] (scheduled_spec_decode_tokens out !! request_id (obj s' r)) = []).
  { intros r Hr Hn. assert (Hl : r ∈ live s') by (apply elem_of_app; by right).
    assert (Hd : drafts_fit (default [] (scheduled_spec_decode_tokens out !! request_id (obj s' r))) 0 (obj s' r)).
    { apply (sr_drafts _ _ _ Hs r Hr). destruct (num_scheduled_tokens out !! _); [by eexists|done]. }
    split; [done|]. destruct Hd as [_ Hd].
    destruct (rd_req _ _ _ Hrd (request_id (obj s' r)) r) as (_ & [[_ _ _ Hsp] _ _ _ _] & _); [by apply (so_requests _ H)|].
    pose proof (so_range _ H r Hl) as ((_ & Hc) & _). unfold num_tokens_with_spec, num_tokens in *. rewrite Hsp in Hc. cbn in Hc.
    destruct (default [] _) as [|t d]; [done|]. specialize (Hd ltac:(done)). cbn in Hd. lia. }
  split; [|split; [done|]; intros r Hr Hn; by apply Hnil].
  intros r Hr Hn. cbn zeta. destruct (Hnil r Hr Hn) as [Hd Hnil']. split; [done|].
  split; [rewrite Hnil'; apply (cf_spec _ (rd_conf _ _ _ Hrd))|].
  destruct (R2 _ Hn) as (i & g & Hi & Hg & Hlen & Hne & Hp). exists i, g. split_and!; try done.
  intros l Hl. by rewrite R1 in Hl.
Qed.

Lemma step_ok c now rdy e :
  engine_ok c e -> exists e' res, step now rdy e = Some (Ok (e', res)) /\ engine_ok c e'.
Proof using All.
  intros (Hc & len & H & Hrd). unfold step. destruct (negb (has_requests (scheduler e))).
  - destruct (make_stats_ok (scheduler e) None (rd_stats _ _ _ Hrd)) as (kv & st & -> & [ps ->] & Hst). cbn [mbind result_bind].
    do 2 eexists. split; [done|]. split; [done|]. exists len. split; [by destruct H|by apply ready_stats].
  - destruct (schedule_ready len (scheduler e) H build_connector_meta now rdy Hrd) as (s1 & out & meta & -> & Hs & Hrd1).
    cbn [mbind option_bind result_bind].
    pose proof (executor_answers (model_executor e) out meta) as Ha.
    destruct (execute_model (model_executor e) out meta) as [x mro]. cbn in Ha.
    destruct (runner_fits len _ s1 out mro Hs Hrd1 Ha) as [Hans Hnd].
    destruct (update_ready len s1 out mro (sr_ok _ _ _ Hs) Hrd1 Hans Hnd) as (s2 & res & Hu & H2 & Hrd2 & Hc2).
    rewrite Hu. cbn [mbind result_bind]. do 2 eexists. split; [done|]. split; [cbn; by rewrite Hc2, (sr_conf _ _ _ Hs)|].
    by exists len.
Qed.

(** ** Every call returns *)

Lemma receive_inputs_length m er m' l :
  receive_inputs m er = Ok (m', l) -> fmap (M := option) length l = fmap (M := option) length (er_mm_inputs er).
Proof.
  unfold receive_inputs. destruct (er_mm_hashes er) as [hs|]; [|by intros [= <- <-]].
  intros Hr. apply bind_ok in Hr as (l0 & Hl0 & Hr). apply of_option_ok in Hl0. rewrite Hl0.
  destruct (get_and_update_p1 m l0 hs) as [m1 r] eqn:Ep. apply bind_ok in Hr as (l1 & -> & Hr). injection Hr as <- <-.
  cbn. by rewrite (p1_length _ _ _ _ _ Ep).
Qed.

Lemma to_request_ok e er inputs :
  valid_request e er -> fmap (M := option) length inputs = fmap (M := option) length (er_mm_inputs er) ->
  exists q, to_request er inputs = Ok q /\ request_id q = er_request_id er /\ fresh_request (conf (scheduler e)) q.
Proof.
  intros [V1 V2 V3 [mt V4] V5 V6 V7 V8] Hl. unfold to_request, from_engine_core_request, request_init. rewrite Hl, V4.
  cbn [of_option mbind result_bind]. rewrite V5, Nat.eqb_refl. cbn [py_assert mbind result_bind].
  assert (Hh : opt_list (fmap (M := option) (fmap (M := list) Some) (er_mm_hashes er)) =
    fmap (M := list) Some (opt_list (er_mm_hashes er))) by (by destruct (er_mm_hashes er)).
  rewrite Hh, length_fmap, V6, Nat.eqb_refl, orb_true_r. cbn [py_assert mbind result_bind].
  eexists. split; [done|]. split; [done|].
  match goal with |- fresh_request _ ?q => assert (Hmm : mm_ok q) end.
  { split; cbn; [by rewrite length_fmap|done]. }
  split; try done; cbn.
  - split; try done. by apply mm_ok_keys_total.
  - intros p Hp. enough (forall lo l, mm_sorted lo l -> forall p, p ∈ l.*1 -> (0 <= length_ p)%Z) as Hpos.
    { eapply Hpos; [exact V7|]. rewrite fst_zip; [done|]. rewrite length_fmap. lia. }
    clear. intros lo l. revert lo. induction l as [|[p h] l IH]; intros lo; cbn; [intros _ p' Hp'; by apply elem_of_nil in Hp'|].
    intros ((_ & Hp) & _ & Hs) p' [->|Hp']%elem_of_cons; [lia|by eapply IH].
  - destruct (guided_decoding _); [by right|by left].
Qed.

Lemma call_ok c e call :
  engine_ok c e -> valid_call e call -> exists e', do_call e call = Some (Ok e') /\ engine_ok c e'.
Proof using All.
  intros Hok Hv. destruct call as [now er|ids| |now rdy]; cbn [do_call].
  - destruct Hok as (Hc & len & H & Hrd). pose proof (vr_restored _ _ Hv) as Hr. unfold engine_add_request.
    destruct (receive_inputs (mm_input_cache_server e) er) as [[m inputs]|] eqn:Ei; [|done]. cbn [mbind result_bind].
    destruct (to_request_ok e er inputs Hv (receive_inputs_length _ _ _ _ Ei)) as (q & -> & Hid & Hq). cbn [mbind result_bind].
    eexists. split; [done|].
    destruct (add_request_ready len now (scheduler e) (new_ref (scheduler e)) q H Hrd) as (H1 & H2 & H3).
    + intros Hin. apply (is_fresh (dom (heap (scheduler e)) ∪ list_to_set (live (scheduler e)) : gset nat)).
      apply elem_of_union. right. by apply elem_of_list_to_set.
    + rewrite Hid. apply Hv.
    + done.
    + split; [cbn; by rewrite H3|]. by exists (with_inputs len q).
  - destruct Hok as (Hc & len & H & Hrd). unfold abort_requests.
    destruct (finish_requests_ready len (scheduler e) ids FINISHED_ABORTED eq_refl H Hrd) as (s & -> & H1 & H2 & H3).
    cbn [mbind result_bind]. eexists. split; [done|]. split; [cbn; by rewrite H3|]. by exists len.
  - destruct Hok as (Hc & len & H & Hrd). unfold engine_reset_prefix_cache.
    destruct (reset_ready len (scheduler e) H Hrd) as (s & b & -> & H1 & H2 & H3).
    cbn [mbind result_bind]. eexists. split; [done|]. split; [cbn; by rewrite H3|]. by exists len.
  - destruct (step_ok c now rdy e Hok) as (e' & res & -> & Hok'). by exists e'.
Qed.

Lemma reachable_ok c e0 e : engine_ok c e0 -> reachable e0 e -> engine_ok c e.
Proof using All.
  intros H0 Hr. induction Hr as [|e call e' Hr IH Hv Hc]; [done|].
  destruct (call_ok c e call IH Hv) as (e1 & Hc1 & Hok). rewrite Hc in Hc1. by injection Hc1 as <-.
Qed.

Lemma engine_init_ok {dtype} c conn n size (cfg : KVCacheConfig (dtype := dtype)) caching eagle x mm k e :
  engine_init c conn n size cfg caching eagle x mm k = Ok e -> suits c cfg eagle -> engine_ok c e.
Proof using EnvLaws0 ConnectorLaws0 CollisionFree0.
  unfold engine_init. intros H' Hs. apply bind_ok in H' as (s & Hi & H'). injection H' as <-.
  destruct (init_ready (fun _ _ => 0%Z) _ _ _ _ _ _ _ _ Hi Hs) as (H1 & H2 & H3 & _). split; [done|]. by eexists.
Qed.

End Engine.

(** ** A small engine *)

#[export] Instance engine_env : Env := {|
  connector_state := unit; connector_meta := unit; bitmask := unit; logprobs_lists := unit;
  logprobs_tensors := unit; hash_fn := encode_hash; NONE_HASH := (-1)%Z; set_order := elements;
  logprobs_slice := fun l _ _ => l; grammar_bitmask := fun _ _ _ => None;
  get_num_new_matched_tokens := fun _ _ _ => 0%Z; update_state_after_alloc := fun c _ _ => c |}.

#[export] Instance engine_env_laws : EnvLaws engine_env.
Proof. by split. Qed.

#[export] Instance engine_connector_laws : ConnectorLaws engine_env.
Proof. intros c q n Hn. cbn. lia. Qed.

Definition engine_conf : SchedulerConf := {|
  max_num_running_reqs := 4; max_num_scheduled_tokens := 12; sched_max_model_len := 64;
  long_prefill_token_threshold := 6; no_chunked_mm_input := false; max_loras := None; sched_log_stats := true;
  include_finished_set := false; spec_tokens := 0; num_lookahead_tokens := 0; encoder_input_budget := 10 |}.

Definition engine_cfg (n : Z) : KVCacheConfig (dtype := unit) :=
  {| num_blocks := n; tensors := []; kv_cache_groups :=
      [{| layer_names := []; kv_cache_spec := FullAttentionSpec
          {| KVCacheConfig.block_size := 4; num_kv_heads := 1; head_size := 1; spec_dtype := tt; use_mla := false |} |}] |}.

(** Every scheduled request gets the token 8. *)
Definition eights (x : unit) (out : @SchedulerOutput engine_env) (meta : option unit) :
    unit * @ModelRunnerOutput engine_env :=
  (tt, {| req_id_to_index := (fun _ => 0) <$> num_scheduled_tokens out; sampled_token_ids := [[8%Z]];
          out_spec_token_ids := None; out_logprobs := None; prompt_logprobs_dict := ∅ |}).

Lemma eights_answers x out meta : runner_answers out (eights x out meta).2.
Proof.
  split; [done|]. intros id Hn. exists 0, [8%Z]. cbn. split_and!; try done; [|lia].
  rewrite lookup_fmap. by destruct (num_scheduled_tokens out !! id).
Qed.

Definition engine_meta : unit -> @SchedulerOutput engine_env -> unit * unit := fun _ _ => (tt, tt).

Definition demo_engine (n : Z) : result (EngineCore (E := engine_env) (V := nat) (BaseLRU0 := Sized.sized_lru id 10) (executor := unit)) :=
  engine_init engine_conf None n 10 (engine_cfg n) true false tt empty_mirror 1.

Definition text_request (id : string) (toks : list Z) (max_tokens : Z) : EngineCoreRequest (V := nat) :=
  {| er_request_id := id; er_prompt_token_ids := toks; er_mm_inputs := None; er_mm_hashes := None;
     er_mm_placeholders := None;
     er_sampling_params := {| sp_max_tokens := Some max_tokens; guided_decoding := false; ignore_eos := false;
       stop_token_ids := []; prompt_logprobs := None; sp_logprobs := None; sp_sampler := greedy_sampler |};
     er_eos_token_id := None; er_lora_request := None |}.

Notation demo_call := (do_call (E := engine_env) (V := nat) (BaseLRU0 := Sized.sized_lru id 10) engine_meta eights).

(** ** Properties *)


Lemma demo_suits n : suits engine_conf (engine_cfg n) false.
Proof. split; [by split|]. intros g [= <-]. cbn. split; [lia|done]. Qed.

Lemma text_valid e id toks mt :
  requests (scheduler e) !! id = None -> toks <> [] ->
  (Z.of_nat (length toks) <= sched_max_model_len (conf (scheduler e)))%Z ->
  valid_request (E := engine_env) (V := nat) (BaseLRU0 := Sized.sized_lru Datatypes.id 10) (executor := unit) e (text_request id toks mt).
Proof. intros Hid Hne Hlen. by split. Qed.

Lemma demo_engine_ok :
  exists e0, demo_engine 10 = Ok e0 /\ requests (scheduler e0) = ∅ /\ conf (scheduler e0) = engine_conf.
Proof.
  assert (Hok : is_ok (demo_engine 10) = true) by (vm_compute; reflexivity).
  destruct (demo_engine 10) as [e0|] eqn:E0; [|discriminate Hok]. exists e0. split; [done|].
  unfold demo_engine, engine_init in E0. apply bind_ok in E0 as (s & Hs & E0). injection E0 as <-.
  unfold scheduler_init in Hs. apply bind_ok in Hs as (m & _ & Hs). apply bind_ok in Hs as (u & _ & Hs).
  apply bind_ok in Hs as (kv & _ & Hs). by injection Hs as <-.
Qed.

