(* ===== verification/EngineProgress.v ===== *)
(** * Progress

    When a step of the engine must schedule something, and a configuration that
    passes the memory check although its longest requests wait forever. *)

From S2P Require Import Prelude LRU PrefixMetrics FreeBlockQueue Request BlockHash BlockPool.
From S2P Require Import SpecializedManager KVCacheConfig KVCacheManager KVCacheLink MMInputCache EncoderCache.
From S2P Require Import Scheduler SchedulerSpec SchedulerLifecycle SchedulerUpdate SchedulerSafety SchedulerCalls Engine.

(** C19: In every state that the engine reaches by valid calls, a step schedules at
    least one token, within the budget, whenever there is a budget and a place to
    run, the pool without its null block holds a request of the model's length,
    and either the first running request is text with tokens left to compute, or
    nothing runs, the waiting requests are text and one of them is not waiting for
    its grammar.  Preemption, prefix hits, an external connector and chunked
    prefills included: the scheduler cannot stall on its own. *)
Theorem schedule_makes_progress `{E : Env} {V} `{!BaseLRU V} `{!EnvLaws E} `{!ConnectorLaws E}
    `{!CollisionFree hash_fn NONE_HASH} {dtype executor} bcm
    (execute_model : executor -> SchedulerOutput -> option connector_meta -> executor * ModelRunnerOutput)
    c conn n size (cfg : KVCacheConfig (dtype := dtype)) caching eagle x mm k e0 e now rdy :
  (forall x out meta, runner_answers out (execute_model x out meta).2) ->
  engine_init c conn n size cfg caching eagle x mm k = Ok e0 -> suits c cfg eagle ->
  reachable bcm execute_model e0 e -> can_progress rdy (scheduler e) ->
  exists s out meta, schedule bcm now rdy (scheduler e) = Some (Ok (s, (out, meta))) /\
    (0 < total_num_scheduled_tokens out <= max_num_scheduled_tokens c)%Z /\ sched_ok s.
Proof.
  intros Hx H0 Hs Hr Hc.
  assert (Hok : engine_ok c e0) by by apply (engine_init_ok c conn n size cfg caching eagle x mm k).
  destruct (reachable_ok bcm execute_model Hx c e0 e Hok Hr) as (Hconf & len & H1 & Hrd).
  destruct (schedule_progresses len (scheduler e) H1 bcm now rdy Hrd) as (s & out & meta & Hrun & Hres & _ & Hp).
  exists s, out, meta. split; [done|]. split; [|apply (sr_ok _ _ _ Hres)]. split; [by apply Hp|].
  rewrite <-Hconf. apply (sr_total _ _ _ Hres).
Qed.

(** ** The small engine *)

(** The only request waits, and [can_progress] holds. *)
Definition one_waits (s : Scheduler (E := engine_env)) : bool :=
  (0 <? max_num_scheduled_tokens (conf s))%Z && (0 <? max_num_running_reqs (conf s)) &&
  ((sched_max_model_len (conf s) + Z.of_nat (KVCacheManager.block_size (kv_cache_manager s)) - 1) /
     Z.of_nat (KVCacheManager.block_size (kv_cache_manager s)) <=?
     Z.of_nat (num_gpu_blocks (block_pool (kv_cache_manager s))) - 1)%Z &&
  bool_decide (running s = []) &&
  match waiting s with
  | [r] => negb (has_encoder_inputs (obj s r)) && bool_decide (status (obj s r) = WAITING)
  | _ => false
  end.

Lemma one_waits_progress s rdy : one_waits s = true -> can_progress rdy s.
Proof.
  unfold one_waits. rewrite !andb_true_iff. intros ((((H1 & H2) & H3) & H4) & H5).
  destruct (waiting s) as [|r [|? ?]] eqn:Ew; try done. apply andb_true_iff in H5 as [H5 H6].
  apply Z.ltb_lt in H1. apply Nat.ltb_lt in H2. apply Z.leb_le in H3. apply bool_decide_eq_true_1 in H4, H6. apply negb_true_iff in H5.
  split; [done|done|done|]. right. split; [done|]. split.
  - rewrite Ew. intros x ->%list_elem_of_singleton. done.
  - exists r. rewrite Ew. split; [by left|]. split; [done|]. by rewrite H6.
Qed.

(** The state after the call, when it succeeds. *)
Definition added (n : Z) (er : EngineCoreRequest (V := nat)) :
    result (EngineCore (E := engine_env) (V := nat) (BaseLRU0 := Sized.sized_lru id 10) (executor := unit)) :=
  e ← demo_engine n; engine_add_request 0 e er.

Lemma added_waits : match added 17 (text_request "a" [1; 2; 3; 4; 5]%Z 3) with Ok e => one_waits (scheduler e) | Err _ => false end = true.
Proof. vm_compute. reflexivity. Qed.

Lemma demo_fresh n e : demo_engine n = Ok e -> requests (scheduler e) = ∅ /\ conf (scheduler e) = engine_conf.
Proof.
  unfold demo_engine, engine_init. intros E0. apply bind_ok in E0 as (s & Hs & E0). injection E0 as <-.
  unfold scheduler_init in Hs. apply bind_ok in Hs as (m & _ & Hs). apply bind_ok in Hs as (u & _ & Hs).
  apply bind_ok in Hs as (kv & _ & Hs). by injection Hs as <-.
Qed.

Lemma schedule_makes_progress_witness :
  exists e s out meta, added 17 (text_request "a" [1; 2; 3; 4; 5]%Z 3) = Ok e /\
    schedule engine_meta 1 (fun _ => true) (scheduler e) = Some (Ok (s, (out, meta))) /\ (0 < total_num_scheduled_tokens out)%Z.
Proof.
  pose proof added_waits as Hw. destruct (added 17 _) as [e|] eqn:Ea; [|discriminate Hw].
  unfold added in Ea. apply bind_ok in Ea as (e0 & E0 & Ea). destruct (demo_fresh 17 e0 E0) as [Hr0 Hc0].
  set (add := AddRequest 0 (text_request "a" [1; 2; 3; 4; 5]%Z 3)).
  assert (Hv : valid_call e0 add) by (apply text_valid; rewrite ?Hr0, ?Hc0; [done|done|cbn; lia]).
  assert (Hadd : demo_call e0 add = Some (Ok e)) by (cbn [do_call add]; by rewrite Ea).
  destruct (schedule_makes_progress (E := engine_env) (BaseLRU0 := Sized.sized_lru id 10) engine_meta eights engine_conf None 17 10
    (engine_cfg 17) true false tt empty_mirror 1 e0 e 1 (fun _ => true) eights_answers E0 (demo_suits 17)
    (reach_call _ _ e0 e0 add e (reach_init _ _ e0) Hv Hadd) (one_waits_progress _ _ Hw)) as (s & out & meta & H1 & [H2 _] & _).
  exists e, s, out, meta. split; [reflexivity|]. exact (conj H1 H2).
Defined.

(** ** A request that waits forever *)

Module Starvation.

(** Eight tokens at most, blocks of four, and memory for exactly two blocks. *)
Definition vllm_config : VllmConfig :=
  {| KVCacheConfig.max_model_len := 8; KVCacheConfig.max_num_batched_tokens := 8; num_gpu_blocks_override := None; cache_block_size := 4 |}.
Definition layer : layers (dtype := unit) :=
  [("layer", FullAttentionSpec {| KVCacheConfig.block_size := 4; num_kv_heads := 1; head_size := 1; spec_dtype := tt; use_mla := false |})].
Definition small_conf : SchedulerConf := {|
  max_num_running_reqs := 4; max_num_scheduled_tokens := 8; sched_max_model_len := 8;
  long_prefill_token_threshold := 0; no_chunked_mm_input := false; max_loras := None; sched_log_stats := false;
  include_finished_set := false; spec_tokens := 0; num_lookahead_tokens := 0; encoder_input_budget := 10 |}.

(** The engine after a prompt of seven tokens has arrived. *)
Definition start : result (EngineCore (E := engine_env) (V := nat) (BaseLRU0 := Sized.sized_lru id 10) (executor := unit)) :=
  cfg ← get_kv_cache_config (fun _ => 1%Z) vllm_config layer 16;
  e ← engine_init small_conf None (num_blocks cfg) 10 cfg false false tt empty_mirror 1;
  engine_add_request 0 e (text_request "a" [1; 2; 3; 4; 5; 6; 7]%Z 1).

Notation step_scheduler s := (schedule engine_meta 1 (fun _ => true) s).

(** Nothing is scheduled, the request stays alone in the waiting queue, and the
    free blocks are the same: the next step starts as this one did. *)
Definition idle (s s' : Scheduler) (o : SchedulerOutput) : bool :=
  (total_num_scheduled_tokens o =? 0)%Z && bool_decide (running s' = []) && bool_decide (length (waiting s') = 1) &&
  bool_decide (waiting s' = waiting s) &&
  (get_num_free_blocks (block_pool (kv_cache_manager s')) =? get_num_free_blocks (block_pool (kv_cache_manager s)))%Z.

(** Two steps of the scheduler, from the state that [start] reaches. *)
Definition two_idle_steps : bool :=
  match start with
  | Ok e =>
      match step_scheduler (scheduler e) with
      | Some (Ok (s1, (o1, _))) =>
          match step_scheduler s1 with
          | Some (Ok (s2, (o2, _))) => idle (scheduler e) s1 o1 && idle s1 s2 o2
          | _ => false
          end
      | _ => false
      end
  | Err _ => false
  end.

(** The configuration is accepted - two blocks hold the longest request - but one
    of them is the null block: the first step schedules nothing, and the second
    one, which starts with the same queue and the same free blocks, neither. *)
Lemma full_length_request_starves : two_idle_steps = true.
Proof. vm_compute. reflexivity. Qed.
End Starvation.
