(* ===== verification/StopChecker.v ===== *)
(** * Stop strings

    Model of [StopChecker.check_stop_strings] in
    [vllm/engine/output_processor/stop_checker.py], with Python's [str.find].
    The code searches only the end of the text, where the new characters can
    complete a stop string; the theorem says that nothing is missed. *)

From S2P Require Import Prelude.

(** A [str] is the list of its code points. *)
Notation text := (list Z).

Definition str (s : string) : text := (fun c => Z.of_nat (Ascii.nat_of_ascii c)) <$> String.list_ascii_of_string s.

Definition text_len (t : text) : Z := Z.of_nat (length t).

(** ** [str.find] *)

(** The first position at which [s] begins, counted from [i]; -1 if there is none. *)
Fixpoint find_at (s t : text) (i : Z) : Z :=
  if bool_decide (s `prefix_of` t) then i
  else match t with
  | [] => -1
  | _ :: t' => find_at s t' (i + 1)
  end.

(** [t.find(s, start)]; a negative [start] counts from the end. *)
Definition py_find (t s : text) (start : Z) : Z :=
  let start := if (start <? 0)%Z then Z.max 0 (start + text_len t) else start in
  if (text_len t <? start)%Z then -1 else find_at s (drop (Z.to_nat start) t) start.

(** [s] begins at position [i] of [t]. *)
Definition occurs_at (s t : text) (i : nat) : Prop := i <= length t /\ s `prefix_of` drop i t.
Definition occurs (s t : text) : Prop := exists i, occurs_at s t i.

(** ** [StopChecker.check_stop_strings] *)

(** The loop over the stop strings. *)
Fixpoint stop_loop (output_text : text) (new_char_count : Z) (include_in_output : bool) (stop : list text) : option (text * Z) :=
  match stop with
  | [] => None
  | stop_str :: stop =>
      let stop_string_len := text_len stop_str in
      let stop_index := py_find output_text stop_str (1 - new_char_count - stop_string_len) in
      if (stop_index =? -1)%Z then stop_loop output_text new_char_count include_in_output stop
      else if include_in_output then
        let stop_index := (stop_index + stop_string_len)%Z in
        if (text_len output_text <=? stop_index)%Z then Some (stop_str, -1)%Z else Some (stop_str, stop_index)
      else Some (stop_str, stop_index)
  end.

Definition check_stop_strings (output_text : text) (new_char_count : Z) (stop : list text) (include_in_output : bool) :
    option (text * Z) :=
  if (new_char_count =? 0)%Z || bool_decide (stop = []) then None
  else stop_loop output_text new_char_count include_in_output stop.

(** ** Lemmas *)

Lemma occurs_at_len s t i : occurs_at s t i -> i + length s <= length t.
Proof. intros [Hi [k Hk]]. apply (f_equal length) in Hk. rewrite length_drop, length_app in Hk. lia. Qed.

Lemma occurs_at_drop s t i j : j <= length t -> occurs_at s (drop j t) i <-> occurs_at s t (j + i).
Proof. intros Hj. unfold occurs_at. rewrite length_drop, drop_drop. split; intros [? ?]; split; try done; lia. Qed.

Lemma occurs_at_cons s c t i : occurs_at s t i <-> occurs_at s (c :: t) (S i).
Proof. unfold occurs_at. cbn. split; intros [? ?]; split; try done; lia. Qed.

(** [find_at] finds the first occurrence, or says that there is none. *)
Lemma find_at_spec s t i :
  (exists k, find_at s t i = (i + Z.of_nat k)%Z /\ occurs_at s t k /\ forall j, j < k -> ~ occurs_at s t j) \/
  (find_at s t i = -1 /\ forall j, ~ occurs_at s t j)%Z.
Proof.
  revert i. induction t as [|c t IH]; intros i; cbn; case_bool_decide as Hp.
  - left. exists 0. repeat split; [lia|cbn; lia|done|intros; lia].
  - right. split; [done|]. intros j [Hj Hs]. apply Hp. by rewrite drop_nil in Hs.
  - left. exists 0. repeat split; [lia|cbn; lia|done|intros; lia].
  - destruct (IH (i + 1)%Z) as [(k & -> & Hk & Hf)|[-> Hn]].
    + left. exists (S k). split; [lia|]. split; [by apply occurs_at_cons|].
      intros [|j] Hj; [by intros [_ ?]|]. rewrite <-occurs_at_cons. apply Hf. lia.
    + right. split; [done|]. intros [|j]; [by intros [_ ?]|]. rewrite <-occurs_at_cons. apply Hn.
Qed.

Lemma find_at_here s t i : s `prefix_of` t -> find_at s t i = i.
Proof. intros H. destruct t; cbn; by rewrite bool_decide_eq_true_2. Qed.

(** Where nothing begins in the first [j] positions, the search may start there. *)
Lemma find_at_skip s t i j : j <= length t -> (forall k, k < j -> ~ occurs_at s t k) ->
  find_at s (drop j t) (i + Z.of_nat j) = find_at s t i.
Proof.
  revert t i. induction j as [|j IH]; intros t i Hj Hn; [cbn; by rewrite Z.add_0_r|].
  destruct t as [|c t]; cbn in Hj; [lia|]. cbn [drop find_at].
  rewrite bool_decide_eq_false_2.
  - rewrite <-(IH t (i + 1)%Z) by (try lia; intros k Hk; rewrite (occurs_at_cons s c); apply Hn; lia). f_equal. lia.
  - intros Hp. apply (Hn 0); [lia|]. split; [cbn; lia|done].
Qed.

(** An occurrence that the old text does not have ends in the new one. *)
Lemma occurs_new s old new i : ~ occurs s old -> occurs_at s (old ++ new) i -> length old < i + length s.
Proof.
  intros Hno Hi. destruct (decide (length old < i + length s)) as [|Hle]; [done|]. exfalso. apply Hno.
  exists i. split; [lia|]. destruct Hi as [_ Hp]. rewrite drop_app_le in Hp by lia.
  destruct Hp as [k Hk]. exists (drop (length s) (drop i old)).
  apply (f_equal (take (length s))) in Hk. rewrite take_app_le in Hk by (rewrite length_drop; lia).
  rewrite take_app_length in Hk. by rewrite <-Hk at 1; rewrite take_drop.
Qed.

(** The search from the end is the search through the whole text. *)
Lemma find_new s old new : s <> [] -> new <> [] -> ~ occurs s old ->
  py_find (old ++ new) s (1 - text_len new - text_len s) = find_at s (old ++ new) 0.
Proof.
  intros Hs Hn Hno. unfold py_find, text_len. rewrite length_app.
  assert (1 <= length s) by (destruct s; cbn; [done|lia]). assert (1 <= length new) by (destruct new; cbn; [done|lia]).
  rewrite (proj2 (Z.ltb_lt _ 0)) by lia.
  rewrite (proj2 (Z.ltb_ge _ _)) by lia.
  replace (Z.max 0 _) with (Z.of_nat (length old + 1 - length s)) by lia. rewrite Nat2Z.id.
  rewrite <-(Z.add_0_l (Z.of_nat _)) at 1. apply find_at_skip; [rewrite length_app; lia|].
  intros k Hk Ho. pose proof (occurs_new s old new k Hno Ho). lia.
Qed.

(** What [check_stop_strings] answers: the first stop string of the list that
    occurs, and where the text is cut. *)
Definition stop_found (t : text) (include : bool) (s : text) (cut : Z) : Prop :=
  exists i, occurs_at s t i /\ (forall j, j < i -> ~ occurs_at s t j) /\
    cut = if include then (if decide (i + length s = length t) then (-1)%Z else Z.of_nat (i + length s)) else Z.of_nat i.

Definition first_stop (t : text) (include : bool) (stop : list text) (r : option (text * Z)) : Prop :=
  match r with
  | None => forall s, s ∈ stop -> ~ occurs s t
  | Some (s, cut) => exists l1 l2, stop = l1 ++ s :: l2 /\ (forall s', s' ∈ l1 -> ~ occurs s' t) /\ stop_found t include s cut
  end.

Lemma stop_loop_ok old new include stop : new <> [] ->
  (forall s, s ∈ stop -> s <> [] /\ ~ occurs s old) ->
  first_stop (old ++ new) include stop (stop_loop (old ++ new) (text_len new) include stop).
Proof.
  intros Hn. induction stop as [|s stop IH]; intros Hs; cbn [stop_loop].
  - intros s ?%elem_of_nil. done.
  - destruct (Hs s) as [Hs1 Hs2]; [by left|]. rewrite find_new by done.
    destruct (find_at_spec s (old ++ new) 0) as [(k & -> & Hk & Hf)|[-> Hno]].
    + rewrite (proj2 (Z.eqb_neq _ _)) by lia. pose proof (occurs_at_len _ _ _ Hk) as Hl.
      assert (Hfound : forall cut, cut = (if include then (if decide (k + length s = length (old ++ new)) then (-1)%Z else Z.of_nat (k + length s))
        else Z.of_nat k) -> first_stop (old ++ new) include (s :: stop) (Some (s, cut))).
      { intros cut ->. exists [], stop. split; [done|]. split; [by intros ? ?%elem_of_nil|]. by exists k. }
      unfold text_len. destruct include; [|apply Hfound; lia].
      destruct (Z.leb_spec (Z.of_nat (length (old ++ new))) (0 + Z.of_nat k + Z.of_nat (length s)));
        apply Hfound; case_decide; lia.
    + cbn [Z.eqb Pos.eqb]. assert (IH' := IH (fun s' H => Hs s' (list_elem_of_further _ s _ H))).
      destruct (stop_loop _ _ _ stop) as [[s' cut]|]; cbn in *.
      * destruct IH' as (l1 & l2 & -> & Hl1 & Hf). exists (s :: l1), l2. split; [done|]. split; [|done].
        intros x [->|Hx]%elem_of_cons; [|by apply Hl1]. intros [j Hj]. by apply (Hno j).
      * intros x [->|Hx]%elem_of_cons; [|by apply IH']. intros [j Hj]. by apply (Hno j).
Qed.

Lemma check_stop_strings_ok old new stop include : new <> [] -> (forall s, s ∈ stop -> s <> [] /\ ~ occurs s old) ->
  first_stop (old ++ new) include stop (check_stop_strings (old ++ new) (text_len new) stop include).
Proof.
  intros Hn Hs. unfold check_stop_strings. rewrite (proj2 (Z.eqb_neq _ _)) by (unfold text_len; destruct new; cbn; [done|lia]).
  cbn [orb]. case_bool_decide as E; [subst; intros s ?%elem_of_nil; done|]. by apply stop_loop_ok.
Qed.

(** C33: Searching only the end of the text misses nothing: if none of the stop
    strings, which are not empty, is in the old text, the answer for the text
    with new characters is the one that a search through the whole text gives -
    the first stop string of the list that occurs anywhere, with the position of
    its first occurrence (or its end, if it is to be included; -1 if the text
    ends there) - and the part cut off begins after the old text less the longest
    stop string's length minus one. *)
Theorem check_stop_strings_correct old new stop include : new <> [] -> (forall s, s ∈ stop -> s <> [] /\ ~ occurs s old) ->
  let r := check_stop_strings (old ++ new) (text_len new) stop include in
  first_stop (old ++ new) include stop r /\
  match r with Some (s, cut) => cut = (-1)%Z \/ (text_len old - text_len s < cut)%Z | None => True end.
Proof.
  intros Hn Hs. cbv zeta. pose proof (check_stop_strings_ok old new stop include Hn Hs) as H. split; [done|].
  destruct (check_stop_strings _ _ _ _) as [[s cut]|]; [|done].
  destruct H as (l1 & l2 & -> & _ & i & Hi & _ & ->). destruct (Hs s) as [_ Hno]; [apply elem_of_app; right; by left|].
  pose proof (occurs_new s old new i Hno Hi). unfold text_len. destruct include; [case_decide; [by left|]|]; right; lia.
Qed.

Lemma no_stop_in_hel s : s ∈ [str "lo"; str "x"] -> s <> [] /\ ~ occurs s (str "hel").
Proof.
  intros Hs. split; [set_solver|]. intros [i Hi]. pose proof (occurs_at_len _ _ _ Hi) as Hl. destruct Hi as [_ Hp].
  apply elem_of_cons in Hs as [-> | ->%list_elem_of_singleton].
  - change (length (str "hel")) with 3 in Hl. change (length (str "lo")) with 2 in Hl.
    do 2 (destruct i as [|i]; [destruct Hp as [k Hk]; discriminate Hk|]). lia.
  - change (length (str "hel")) with 3 in Hl. change (length (str "x")) with 1 in Hl.
    do 3 (destruct i as [|i]; [destruct Hp as [k Hk]; discriminate Hk|]). lia.
Qed.

Lemma check_stop_strings_correct_witness :
  check_stop_strings (str "hel" ++ str "lo y") 4 [str "lo"; str "x"] false = Some (str "lo", 3%Z) /\
  first_stop (str "hel" ++ str "lo y") false [str "lo"; str "x"] (Some (str "lo", 3%Z)).
Proof.
  assert (Hn : str "lo y" <> []) by done.
  pose proof (check_stop_strings_correct (str "hel") (str "lo y") [str "lo"; str "x"] false Hn no_stop_in_hel) as [H _].
  split; [vm_compute; reflexivity|exact H].
Defined.
