(* ===== verification/Detokenizer.v ===== *)
(** * Incremental detokenization

    Model of [vllm/v1/engine/detokenizer.py] and of the functions of
    [vllm/transformers_utils/detokenizer_utils.py] that it calls.  A tokenizer of
    the transformers and tokenizers libraries is a parameter with the operations
    of the class [Tokenizer]; the two ways to decode the next token are instances
    of [DecodeNext], and the code they share is written once for both. *)

From S2P Require Import Prelude StopChecker Request.

(** ** Requests as the front end reads them *)

(** [RequestOutputKind] *)
Inductive RequestOutputKind := CUMULATIVE | DELTA | FINAL_ONLY.

#[export] Instance output_kind_eq_dec : EqDecision RequestOutputKind.
Proof. solve_decision. Defined.

#[export] Instance finish_reason_eq_dec : EqDecision FinishReason.
Proof. solve_decision. Defined.

(** The fields of [SamplingParams] that shape the output. *)
Record OutputParams := {
  sp_n : nat;
  seed : option Z;
  stop : list text;
  include_stop_str_in_output : bool;
  detokenize : bool;
  skip_special_tokens : bool;
  spaces_between_special_tokens : bool;
  out_logprobs : option Z;
  out_prompt_logprobs : option Z;
  out_max_tokens : option Z;
  output_kind : RequestOutputKind;
}.

(** An [EngineCoreRequest], without the fields that only the engine core reads. *)
Record FrontRequest := {
  f_request_id : string;
  f_prompt_token_ids : list Z;
  f_params : OutputParams;
  f_arrival_time : Z;
  f_lora_name : option string;
}.

(** ** Tokenizers *)

(** [None] in a list of tokens stands for an id outside the vocabulary.  The last
    four operations are those of a fast tokenizer and of its [DecodeStream]. *)
Class Tokenizer (tokenizer : Type) := {
  convert_ids_to_tokens : tokenizer -> list Z -> bool -> list (option text);
  convert_tokens_to_string : tokenizer -> list (option text) -> result text;
  all_special_tokens : tokenizer -> list text;
  added_vocab : tokenizer -> list text;
  is_fast : tokenizer -> bool;
  tokenizer_len : tokenizer -> Z;
  supports_stream : tokenizer -> bool;
  DecodeStream : Type;
  new_stream : bool -> DecodeStream;
  stream_step : DecodeStream -> tokenizer -> Z -> DecodeStream * option text;
  fast_decode : tokenizer -> list Z -> text;
  added_tokens_decoder : tokenizer -> list (Z * text);
}.

(** The replacement character. *)
Definition replacement : Z := 65533.

(** ** Functions of detokenizer_utils.py *)

Section Utils.
Context `{Tokenizer tokenizer}.
Implicit Types (tk : tokenizer) (toks : list (option text)).

Definition replace_none_with_empty toks : list (option text) := (fun t => Some (default [] t)) <$> toks.

(** [sep.join(l)] *)
Fixpoint join (sep : text) (l : list text) : text :=
  match l with
  | [] => []
  | [t] => t
  | t :: l => t ++ sep ++ join sep l
  end.

Definition in_list (t : option text) (l : list text) : bool := bool_decide (t ∈ Some <$> l).

(** The text of the tokens collected so far, if there are any. *)
Definition flush tk (sub_texts : list text) (current : list (option text)) : result (list text) :=
  match current with
  | [] => Ok sub_texts
  | _ => t ← convert_tokens_to_string tk current; Ok (sub_texts ++ [t])
  end.

Fixpoint added_loop tk (skip : bool) (special added : list text) toks (sub_texts : list text) (current : list (option text)) :
    result (list text) :=
  match toks with
  | [] => flush tk sub_texts current
  | t :: toks =>
      if skip && in_list t special then added_loop tk skip special added toks sub_texts current
      else if in_list t added then
        sub_texts ← flush tk sub_texts current;
        added_loop tk skip special added toks (sub_texts ++ [default [] t]) []
      else added_loop tk skip special added toks sub_texts (current ++ [t])
  end.

Definition convert_tokens_to_string_with_added_encoders tk toks (skip spaces : bool) : result text :=
  sub_texts ← added_loop tk skip (all_special_tokens tk) (added_vocab tk) toks [] [];
  Ok (join (if spaces then [32%Z] else []) sub_texts).

Definition INITIAL_INCREMENTAL_DETOKENIZATION_OFFSET : nat := 5.

(** The tokens of the end of the prompt and the offsets to start with. *)
Definition convert_prompt_ids_to_tokens tk (prompt_ids : list Z) (skip : bool) : list (option text) * nat * nat :=
  let new_tokens := convert_ids_to_tokens tk (py_slice_from (- Z.of_nat INITIAL_INCREMENTAL_DETOKENIZATION_OFFSET - 2) prompt_ids) skip in
  let read_offset := length new_tokens in
  let prefix_offset := read_offset - INITIAL_INCREMENTAL_DETOKENIZATION_OFFSET in
  (replace_none_with_empty new_tokens, prefix_offset, read_offset).

Definition convert_ids_list_to_tokens tk (token_ids : list Z) : list text :=
  default [] <$> convert_ids_to_tokens tk token_ids false.

(** The text of a window of tokens. *)
Definition window_text tk toks (skip spaces : bool) : result text :=
  if is_fast tk || bool_decide (added_vocab tk = []) then convert_tokens_to_string tk toks
  else convert_tokens_to_string_with_added_encoders tk toks skip spaces.

Definition detokenize_incrementally tk (all_input_ids : list Z) (prev_tokens : option (list (option text)))
    (prefix_offset read_offset : nat) (skip spaces : bool) : result (list (option text) * text * nat * nat) :=
  new_token_id ← of_option IndexError (last all_input_ids);
  let '(prev, prefix_offset, read_offset) :=
    match prev_tokens with
    | Some prev => (prev, prefix_offset, read_offset)
    | None => convert_prompt_ids_to_tokens tk (removelast all_input_ids) skip
    end in
  let new_tokens :=
    if (0 <=? new_token_id)%Z && (new_token_id <? tokenizer_len tk)%Z
    then convert_ids_to_tokens tk [new_token_id] skip else [Some []] in
  let output_tokens := prev ++ new_tokens in
  let new_tokens := if prev_tokens then new_tokens else output_tokens in
  prefix_text ← window_text tk (take (read_offset - prefix_offset) (drop prefix_offset output_tokens)) skip spaces;
  new_text ← window_text tk (drop prefix_offset output_tokens) skip spaces;
  if (text_len new_text <=? text_len prefix_text)%Z || bool_decide (last new_text = Some replacement)
  then Ok (new_tokens, [], prefix_offset, read_offset)
  else Ok (new_tokens, drop (length prefix_text) new_text, read_offset, length output_tokens).
End Utils.

(** ** The shared part of the detokenizers *)

(** [decode_next]: the decoder's state, all token ids with the new one at the
    end, and the new one. *)
Class DecodeNext (D : Type) := decode_next : D -> list Z -> Z -> result (D * text).

Record BaseIncrementalDetokenizer (D : Type) := {
  token_ids : list Z;
  d_stop : list text;
  d_include_stop : bool;
  stop_buffer_length : Z;
  last_output_text_offset : Z;
  output_text : text;
  decoder : D;
}.
Arguments token_ids {D} _.
Arguments d_stop {D} _.
Arguments d_include_stop {D} _.
Arguments stop_buffer_length {D} _.
Arguments last_output_text_offset {D} _.
Arguments output_text {D} _.
Arguments decoder {D} _.

Section Base.
Context `{DecodeNext D}.
Implicit Types d : BaseIncrementalDetokenizer D.

Definition set_text t d : BaseIncrementalDetokenizer D := {| token_ids := token_ids d; d_stop := d_stop d; d_include_stop := d_include_stop d;
  stop_buffer_length := stop_buffer_length d; last_output_text_offset := last_output_text_offset d; output_text := t; decoder := decoder d |}.
Definition set_token_ids l d : BaseIncrementalDetokenizer D := {| token_ids := l; d_stop := d_stop d; d_include_stop := d_include_stop d;
  stop_buffer_length := stop_buffer_length d; last_output_text_offset := last_output_text_offset d; output_text := output_text d; decoder := decoder d |}.
Definition set_offset o d : BaseIncrementalDetokenizer D := {| token_ids := token_ids d; d_stop := d_stop d; d_include_stop := d_include_stop d;
  stop_buffer_length := stop_buffer_length d; last_output_text_offset := o; output_text := output_text d; decoder := decoder d |}.
Definition set_decoder x d : BaseIncrementalDetokenizer D := {| token_ids := token_ids d; d_stop := d_stop d; d_include_stop := d_include_stop d;
  stop_buffer_length := stop_buffer_length d; last_output_text_offset := last_output_text_offset d; output_text := output_text d; decoder := x |}.

(** The characters held back: one less than the longest stop string has, if stop
    strings are to be cut off. *)
Definition buffer_length (p : OutputParams) : Z :=
  if bool_decide (stop p = []) || include_stop_str_in_output p then 0
  else foldr Z.max 0%Z (text_len <$> stop p) - 1.

Definition base_init (ids : list Z) (p : OutputParams) (x : D) : BaseIncrementalDetokenizer D :=
  {| token_ids := ids; d_stop := stop p; d_include_stop := include_stop_str_in_output p; stop_buffer_length := buffer_length p;
     last_output_text_offset := 0; output_text := []; decoder := x |}.

(** One round of the loop over the new tokens. *)
Definition append_token d (id : Z) : result (BaseIncrementalDetokenizer D) :=
  let d := set_token_ids (token_ids d ++ [id]) d in
  '(x, t) ← decode_next (decoder d) (token_ids d) id;
  Ok (set_decoder x (set_text (output_text d ++ t) d)).

(** The check for stop strings after the new text. *)
Definition evaluate_stop d (offset_before : Z) : BaseIncrementalDetokenizer D * option text :=
  if bool_decide (d_stop d = []) then (d, None)
  else match check_stop_strings (output_text d) (text_len (output_text d) - offset_before) (d_stop d) (d_include_stop d) with
    | None => (d, None)
    | Some (s, truncate_to) =>
        (if (truncate_to =? -1)%Z then d else set_text (take (Z.to_nat truncate_to) (output_text d)) d, Some s)
    end.

Definition update d (new_token_ids : list Z) (stop_terminated : bool) :
    result (BaseIncrementalDetokenizer D * option text) :=
  match new_token_ids with
  | [] => Ok (d, None)
  | _ =>
      let skip_last := stop_terminated && negb (d_include_stop d) in
      let decoded := if skip_last then removelast new_token_ids else new_token_ids in
      let offset_before := text_len (output_text d) in
      d ← foldM append_token d decoded;
      if stop_terminated then
        Ok (if skip_last then set_token_ids (token_ids d ++ option_list (last new_token_ids)) d else d, None)
      else Ok (evaluate_stop d offset_before)
  end.

Definition get_next_output_text d (finished delta : bool) : BaseIncrementalDetokenizer D * text :=
  let buffer_length := if finished then 0%Z else stop_buffer_length d in
  if negb delta then
    (d, if (buffer_length =? 0)%Z then output_text d else py_slice 0 (- buffer_length) (output_text d))
  else
    let length := (text_len (output_text d) - buffer_length)%Z in
    let last_offset := last_output_text_offset d in
    if (last_offset <? length)%Z
    then (set_offset length d, py_slice last_offset length (output_text d))
    else (d, []).
End Base.

(** ** The fast detokenizer *)

Section Fast.
Context `{Tokenizer tokenizer}.

Record FastDecoder := {
  fast_tokenizer : tokenizer;
  stream : DecodeStream;
  fast_spaces : bool;
  added_token_ids : list (Z * text);
  last_special : bool;
}.

(** A safe place to start: the shortest suffix of four tokens or more that does
    not decode to a replacement character. *)
Fixpoint safe_suffix (tk : tokenizer) (prompt : list Z) (sizes : list nat) : list Z :=
  match sizes with
  | [] => prompt
  | i :: sizes =>
      let suffix := py_slice_from (- Z.of_nat i) prompt in
      if bool_decide (replacement ∈ fast_decode tk suffix) then safe_suffix tk prompt sizes else suffix
  end.

Definition prompt_suffix (tk : tokenizer) (prompt : list Z) : list Z :=
  if 4 <? length prompt then safe_suffix tk prompt (seq 4 (Nat.min (length prompt + 1) 24 - 4)) else prompt.

Definition fast_init (tk : tokenizer) (r : FrontRequest) : FastDecoder :=
  let p := f_params r in
  let primed := foldl (fun s tid => (stream_step s tk tid).1) (new_stream (skip_special_tokens p)) (prompt_suffix tk (f_prompt_token_ids r)) in
  let spaces := skip_special_tokens p || spaces_between_special_tokens p in
  let added := if spaces then [] else added_tokens_decoder tk in
  {| fast_tokenizer := tk; stream := primed; fast_spaces := spaces || bool_decide (added = []); added_token_ids := added; last_special := false |}.

(** [added_token_ids.get(id)] *)
Definition added_get (l : list (Z * text)) (id : Z) : option text := snd ∘ snd <$> list_find (fun kv => kv.1 = id) l.

#[export] Instance fast_decode_next : DecodeNext FastDecoder := fun f _ next_token_id =>
  let '(s, token) := stream_step (stream f) (fast_tokenizer f) next_token_id in
  if fast_spaces f then
    Ok ({| fast_tokenizer := fast_tokenizer f; stream := s; fast_spaces := fast_spaces f; added_token_ids := added_token_ids f;
           last_special := last_special f |}, default [] token)
  else
    let special_token := added_get (added_token_ids f) next_token_id in
    let is_special := bool_decide (is_Some special_token) in
    let token := if is_special && last_special f then special_token else token in
    Ok ({| fast_tokenizer := fast_tokenizer f; stream := s; fast_spaces := fast_spaces f; added_token_ids := added_token_ids f;
           last_special := is_special |}, default [] token).
End Fast.
Arguments FastDecoder tokenizer {_}.

(** ** The slow detokenizer *)

Section Slow.
Context `{Tokenizer tokenizer}.

Record SlowDecoder := {
  slow_tokenizer : tokenizer;
  tokens : list (option text);
  prefix_offset : nat;
  read_offset : nat;
  slow_skip : bool;
  slow_spaces : bool;
}.

Definition slow_init (tk : tokenizer) (r : FrontRequest) : SlowDecoder :=
  let p := f_params r in
  let '(toks, prefix_offset, read_offset) := convert_prompt_ids_to_tokens tk (f_prompt_token_ids r) (skip_special_tokens p) in
  {| slow_tokenizer := tk; tokens := toks; prefix_offset := prefix_offset; read_offset := read_offset;
     slow_skip := skip_special_tokens p; slow_spaces := spaces_between_special_tokens p |}.

#[export] Instance slow_decode_next : DecodeNext SlowDecoder := fun s token_ids _ =>
  '(new_tokens, decoded_text, prefix_offset, read_offset) ←
    detokenize_incrementally (slow_tokenizer s) token_ids (Some (tokens s)) (prefix_offset s) (read_offset s) (slow_skip s) (slow_spaces s);
  Ok ({| slow_tokenizer := slow_tokenizer s; tokens := tokens s ++ new_tokens; prefix_offset := prefix_offset; read_offset := read_offset;
         slow_skip := slow_skip s; slow_spaces := slow_spaces s |}, decoded_text).
End Slow.
Arguments SlowDecoder tokenizer : clear implicits.

(** ** The class and its subclasses *)

Section Classes.
Context `{Tokenizer tokenizer}.

Inductive IncrementalDetokenizer :=
  | NoTokenizer (ids : list Z)
  | FastIncrementalDetokenizer (d : BaseIncrementalDetokenizer (FastDecoder tokenizer))
  | SlowIncrementalDetokenizer (prompt_len : nat) (d : BaseIncrementalDetokenizer (SlowDecoder tokenizer)).

Definition detokenizer_from_new_request (tk : option tokenizer) (r : FrontRequest) : IncrementalDetokenizer :=
  match tk with
  | None => NoTokenizer []
  | Some tk =>
      if supports_stream tk then FastIncrementalDetokenizer (base_init [] (f_params r) (fast_init tk r))
      else SlowIncrementalDetokenizer (length (f_prompt_token_ids r)) (base_init (f_prompt_token_ids r) (f_params r) (slow_init tk r))
  end.

Definition output_token_ids (d : IncrementalDetokenizer) : list Z :=
  match d with
  | NoTokenizer ids => ids
  | FastIncrementalDetokenizer d => token_ids d
  | SlowIncrementalDetokenizer prompt_len d => drop prompt_len (token_ids d)
  end.

Definition detokenizer_update (d : IncrementalDetokenizer) (new_token_ids : list Z) (stop_terminated : bool) :
    result (IncrementalDetokenizer * option text) :=
  match d with
  | NoTokenizer ids => Ok (NoTokenizer (ids ++ new_token_ids), None)
  | FastIncrementalDetokenizer d => '(d, s) ← update d new_token_ids stop_terminated; Ok (FastIncrementalDetokenizer d, s)
  | SlowIncrementalDetokenizer k d => '(d, s) ← update d new_token_ids stop_terminated; Ok (SlowIncrementalDetokenizer k d, s)
  end.

Definition detokenizer_next_text (d : IncrementalDetokenizer) (finished delta : bool) : IncrementalDetokenizer * text :=
  match d with
  | NoTokenizer ids => (NoTokenizer ids, [])
  | FastIncrementalDetokenizer d => let '(d, t) := get_next_output_text d finished delta in (FastIncrementalDetokenizer d, t)
  | SlowIncrementalDetokenizer k d => let '(d, t) := get_next_output_text d finished delta in (SlowIncrementalDetokenizer k d, t)
  end.
End Classes.
Arguments IncrementalDetokenizer tokenizer {_}.

(** ** Streams of chunks

    What the output processor does with one detokenizer: each chunk of new tokens
    with the engine's finish reason, if any, updates the state, and the text to
    show is taken, as a difference or as a whole. *)

Section Stream.
Context `{DecodeNext D}.
Implicit Types d : BaseIncrementalDetokenizer D.

Record chunk := { c_ids : list Z; c_finish : option FinishReason }.

(** [if stop_string:] *)
Definition truthy (t : option text) : bool := match t with Some (_ :: _) => true | _ => false end.

Definition deliver (delta : bool) d (c : chunk) : result (BaseIncrementalDetokenizer D * text * bool) :=
  '(d, stop_string) ← update d (c_ids c) (bool_decide (c_finish c = Some STOP));
  let finished := bool_decide (is_Some (c_finish c)) || truthy stop_string in
  let '(d, t) := get_next_output_text d finished delta in
  Ok (d, t, finished).

(** The texts shown until the request ends. *)
Fixpoint shown_texts (delta : bool) d (cs : list chunk) : result (list text) :=
  match cs with
  | [] => Ok []
  | c :: cs =>
      '(d, t, finished) ← deliver delta d c;
      if finished : bool then Ok [t] else ts ← shown_texts delta d cs; Ok (t :: ts)
  end.

(** The texts on the screen of a reader who appends each difference. *)
Fixpoint appended (screen : text) (ts : list text) : list text :=
  match ts with
  | [] => []
  | t :: ts => (screen ++ t) :: appended (screen ++ t) ts
  end.

(** *** Lemmas *)

(** The parameters that an update leaves alone. *)
Definition same_params d d' : Prop :=
  d_stop d' = d_stop d /\ d_include_stop d' = d_include_stop d /\ stop_buffer_length d' = stop_buffer_length d /\
  last_output_text_offset d' = last_output_text_offset d.

Lemma append_tokens_ok ids d d' : foldM append_token d ids = Ok d' ->
  token_ids d' = token_ids d ++ ids /\ same_params d d' /\ exists new, output_text d' = output_text d ++ new.
Proof.
  revert d. induction ids as [|id ids IH]; intros d; cbn [foldM].
  - intros [= <-]. rewrite app_nil_r. split; [done|]. split; [done|]. exists []. by rewrite app_nil_r.
  - intros E0. apply bind_ok in E0 as (d1 & E1 & E0). unfold append_token in E1. apply bind_ok in E1 as ([x t] & _ & [= <-]).
    apply IH in E0 as (-> & Hp & new & ->). cbn. split; [by rewrite <-app_assoc|]. split; [exact Hp|].
    exists (t ++ new). by rewrite app_assoc.
Qed.

(** Taking the text does not change the offset that an update ignores. *)
Lemma append_token_offset d i o : append_token (set_offset o d) i = set_offset o <$> append_token d i.
Proof.
  unfold append_token. cbn [decoder token_ids set_token_ids set_offset].
  by destruct (decode_next (decoder d) (token_ids d ++ [i]) i) as [[x t]|e].
Qed.

Lemma append_tokens_offset ids d o : foldM append_token (set_offset o d) ids = set_offset o <$> foldM append_token d ids.
Proof.
  revert d. induction ids as [|i ids IH]; intros d; cbn [foldM]; [done|]. rewrite append_token_offset.
  destruct (append_token d i); [apply IH|done].
Qed.

Lemma update_offset d ids st o : update (set_offset o d) ids st = prod_map (set_offset o) id <$> update d ids st.
Proof.
  unfold update. destruct ids as [|x ids]; [done|]. cbn [d_include_stop set_offset]. rewrite append_tokens_offset.
  change (output_text (set_offset o d)) with (output_text d).
  destruct (foldM append_token d _) as [d'|e]; [|done]. cbn -[evaluate_stop]. destruct st; [by destruct (negb _)|].
  unfold evaluate_stop. cbn. case_bool_decide; [done|]. destruct (check_stop_strings _ _ _ _) as [[s c]|]; [|done].
  by destruct (c =? -1)%Z.
Qed.

Definition shown d : text := take (Z.to_nat (last_output_text_offset d)) (output_text d).

(** No stop string is in the text so far, enough is held back, and everything
    else has been shown. *)
Record stream_ok d : Prop := {
  so_stops : forall s, s ∈ d_stop d -> s <> [] /\ ~ occurs s (output_text d);
  so_buffer : (0 <= stop_buffer_length d)%Z;
  so_held : d_include_stop d = false -> forall s, s ∈ d_stop d -> (text_len s <= stop_buffer_length d + 1)%Z;
  so_offset : last_output_text_offset d = Z.max 0 (text_len (output_text d) - stop_buffer_length d);
}.

Lemma max_len_ge (l : list text) s : s ∈ l -> (text_len s <= foldr Z.max 0 (text_len <$> l))%Z.
Proof. induction 1; cbn; lia. Qed.

Lemma base_init_ok ids p (x : D) : (forall s, s ∈ stop p -> s <> []) -> stream_ok (base_init ids p x).
Proof.
  intros Hs. assert (Hb : (0 <= buffer_length p)%Z).
  { unfold buffer_length. case_bool_decide as E; [done|]. cbn [orb]. destruct (include_stop_str_in_output p); [done|].
    destruct (stop p) as [|s l] eqn:El; [done|]. pose proof (max_len_ge (s :: l) s ltac:(by left)).
    assert (s <> []) by (apply Hs; by left). unfold text_len in *. destruct s; [done|]. cbn [length] in *. lia. }
  split; cbn [d_stop output_text stop_buffer_length last_output_text_offset base_init d_include_stop].
  - intros s H'. split; [by apply Hs|]. intros [i Hi]. pose proof (occurs_at_len _ _ _ Hi). cbn in *. specialize (Hs s H'). destruct s; [done|cbn in *; lia].
  - done.
  - intros Hi s H'. unfold buffer_length. rewrite Hi, orb_false_r. rewrite bool_decide_eq_false_2 by (intros E; rewrite E in H'; by apply elem_of_nil in H').
    pose proof (max_len_ge _ _ H'). lia.
  - unfold text_len. cbn [length]. lia.
Qed.

Lemma removelast_snoc {A} (l : list A) : removelast l ++ option_list (last l) = l.
Proof. destruct l as [|x l _] using rev_ind; [done|]. by rewrite removelast_last, last_snoc. Qed.

(** What an update does to the text: it grows, with no stop string in it if the
    request goes on, or it is cut at a stop string, behind what was shown. *)
Inductive updated d d' : bool -> option text -> Prop :=
  | update_grows st new : output_text d' = output_text d ++ new ->
      (st = false -> forall s, s ∈ d_stop d -> ~ occurs s (output_text d')) -> updated d d' st None
  | update_stops full s cut : output_text d `prefix_of` full -> stop_found full (d_include_stop d) s cut ->
      (exists l1 l2, d_stop d = l1 ++ s :: l2 /\ forall s', s' ∈ l1 -> ~ occurs s' full) ->
      output_text d' = (if (cut =? -1)%Z then full else take (Z.to_nat cut) full) ->
      (last_output_text_offset d <= text_len (output_text d'))%Z ->
      updated d d' false (Some s).

Lemma shown_le d : stream_ok d -> (0 <= last_output_text_offset d <= text_len (output_text d))%Z.
Proof. intros Hd. rewrite (so_offset d Hd). pose proof (so_buffer d Hd). unfold text_len. lia. Qed.

Lemma evaluate_stop_ok d d0 new : stream_ok d -> same_params d d0 -> output_text d0 = output_text d ++ new ->
  forall d' s, evaluate_stop d0 (text_len (output_text d)) = (d', s) ->
  token_ids d' = token_ids d0 /\ same_params d d' /\ updated d d' false s.
Proof.
  intros Hd (Hst & Hin & Hbu & Hof) Ht d' s. unfold evaluate_stop. rewrite Hst, Hin, Ht.
  case_bool_decide as Hs.
  { intros [= <- <-]. split; [done|]. split; [done|]. apply (update_grows _ _ _ new); [done|]. intros _ s. rewrite Hs. by intros ?%elem_of_nil. }
  replace (text_len (output_text d ++ new) - text_len (output_text d))%Z with (text_len new) by (unfold text_len; rewrite length_app; lia).
  destruct (decide (new = [])) as [->|Hn].
  { unfold check_stop_strings. cbn [text_len length Z.of_nat Z.eqb orb]. intros [= <- <-]. split; [done|]. split; [done|].
    apply (update_grows _ _ _ []); [done|]. intros _ s Hin'. rewrite Ht, app_nil_r. by apply (so_stops d Hd). }
  pose proof (check_stop_strings_ok (output_text d) new (d_stop d) (d_include_stop d) Hn (so_stops d Hd)) as Hc.
  destruct (check_stop_strings _ _ _ _) as [[s0 cut]|]; cbn [first_stop] in Hc; intros [= <- <-].
  2: { split; [done|]. split; [done|]. apply (update_grows _ _ _ new); [done|]. intros _ s Hin'. rewrite Ht. by apply Hc. }
  destruct Hc as (l1 & l2 & Hl & Hl1 & Hf). split; [by destruct (cut =? -1)%Z|].
  split; [by destruct (cut =? -1)%Z|].
  apply (update_stops _ _ (output_text d ++ new) s0 cut); [by eexists|done|by exists l1, l2|by destruct (cut =? -1)%Z|].
  assert (Hmem : s0 ∈ d_stop d) by (rewrite Hl; apply elem_of_app; right; by left).
  destruct Hf as (i & Hi & _ & Hcut). pose proof (occurs_at_len _ _ _ Hi) as Hlen.
  pose proof (occurs_new _ _ _ _ (proj2 (so_stops d Hd s0 Hmem)) Hi) as Hnew.
  pose proof (shown_le d Hd) as Hsh. pose proof (so_buffer d Hd) as Hb. pose proof (so_offset d Hd) as Ho.
  pose proof (so_held d Hd) as Hh. unfold text_len in *. destruct (d_include_stop d).
  - destruct (decide (i + length s0 = length (output_text d ++ new))) as [He|He]; subst cut; cbn [Z.eqb Pos.eqb].
    + rewrite Ht, length_app. lia.
    + rewrite (proj2 (Z.eqb_neq _ _)) by lia. cbn [output_text set_text]. rewrite Nat2Z.id, length_take. lia.
  - subst cut. rewrite (proj2 (Z.eqb_neq _ _)) by lia. cbn [output_text set_text]. rewrite Nat2Z.id, length_take.
    specialize (Hh eq_refl s0 Hmem). lia.
Qed.

Lemma update_ok d ids st d' s : stream_ok d -> update d ids st = Ok (d', s) ->
  token_ids d' = token_ids d ++ ids /\ same_params d d' /\ updated d d' st s.
Proof.
  intros Hd. destruct ids as [|x ids].
  { intros [= <- <-]. rewrite app_nil_r. split; [done|]. split; [done|]. apply (update_grows _ _ _ []); [by rewrite app_nil_r|].
    intros _ s Hs. by apply (so_stops d Hd). }
  unfold update. set (l := x :: ids). intros E0. apply bind_ok in E0 as (d1 & E1 & E0).
  apply append_tokens_ok in E1 as (Hi & Hp & new & Ht). destruct st; cbn [andb] in *.
  - injection E0 as <- <-. assert (Hg : forall d2, output_text d2 = output_text d1 -> updated d d2 true None).
    { intros d2 Hd2. apply (update_grows _ _ _ new); [by rewrite Hd2|done]. }
    destruct (negb (d_include_stop d)); cbn [token_ids set_token_ids]; (split; [|split; [exact Hp|by apply Hg]]); [|done].
    rewrite Hi, <-app_assoc. f_equal. apply removelast_snoc.
  - rewrite <-Hi. apply evaluate_stop_ok with (new := new); [done|done|done|]. by injection E0.
Qed.

(** *** Taking the text *)

(** The text that a reader of whole texts gets. *)
Definition whole d (fin : bool) : text :=
  take (Z.to_nat (text_len (output_text d) - if fin then 0 else stop_buffer_length d)) (output_text d).

Lemma whole_finished d : whole d true = output_text d.
Proof. unfold whole, text_len. rewrite Z.sub_0_r, Nat2Z.id. by apply take_ge. Qed.

Lemma next_text_whole d fin : (0 <= stop_buffer_length d)%Z -> get_next_output_text d fin false = (d, whole d fin).
Proof.
  intros Hb. unfold get_next_output_text. cbn [negb]. f_equal. destruct fin; cbn [Z.eqb]; [by rewrite whole_finished|].
  unfold whole, text_len. destruct (Z.eqb_spec (stop_buffer_length d) 0) as [->|Hne].
  - rewrite Z.sub_0_r, Nat2Z.id. symmetry. by apply take_ge.
  - unfold py_slice, py_bound. rewrite (proj2 (Z.ltb_lt _ 0)) by lia. cbn [Z.ltb Z.compare Z.to_nat Nat.min drop].
    rewrite Nat.sub_0_r. f_equal. lia.
Qed.

Lemma next_text_delta d fin : (0 <= stop_buffer_length d)%Z -> (0 <= last_output_text_offset d <= text_len (output_text d))%Z ->
  get_next_output_text d fin true =
  (set_offset (Z.max (last_output_text_offset d) (text_len (output_text d) - if fin then 0 else stop_buffer_length d)) d,
   drop (Z.to_nat (last_output_text_offset d)) (whole d fin)).
Proof.
  intros Hb Ho. unfold get_next_output_text, whole. cbn [negb]. set (L := (text_len (output_text d) - if fin then 0 else stop_buffer_length d)%Z).
  assert (HL : (L <= text_len (output_text d))%Z) by (subst L; destruct fin; lia). unfold text_len in *.
  destruct (Z.ltb_spec (last_output_text_offset d) L).
  - f_equal; [f_equal; lia|]. rewrite <-(Z2Nat.id (last_output_text_offset d)) at 1 by lia. rewrite <-(Z2Nat.id L) at 1 by lia.
    rewrite py_slice_nat by lia. by rewrite skipn_firstn_comm.
  - f_equal.
    + rewrite Z.max_l by lia. by destruct d.
    + symmetry. apply drop_ge. rewrite length_take. lia.
Qed.

Lemma shown_then_next d (fin : bool) : (0 <= last_output_text_offset d)%Z ->
  (last_output_text_offset d <= Z.max 0 (text_len (output_text d) - if fin then 0 else stop_buffer_length d))%Z ->
  shown d ++ drop (Z.to_nat (last_output_text_offset d)) (whole d fin) = whole d fin.
Proof.
  intros H0 Ho. unfold shown. rewrite <-(take_drop (Z.to_nat (last_output_text_offset d)) (whole d fin)) at 2. f_equal.
  unfold whole. rewrite take_take. f_equal. lia.
Qed.

(** *** Delivering a chunk *)

Lemma updated_shown d d' st s : stream_ok d -> same_params d d' -> updated d d' st s ->
  shown d' = shown d /\ (last_output_text_offset d' <= text_len (output_text d'))%Z /\
  (s = None -> text_len (output_text d) <= text_len (output_text d'))%Z.
Proof.
  intros Hd (Hst & Hin & Hbu & Hof) Hu. pose proof (shown_le d Hd) as Hle. unfold shown. rewrite Hof.
  destruct Hu as [st new Ht _|full s cut [rest Hfull] _ _ Ht Hcut].
  - rewrite Ht, take_app_le by (unfold text_len in *; lia). unfold text_len in *. rewrite length_app. split; [done|]. lia.
  - assert (Hc : exists k, output_text d' = take k full) by (rewrite Ht; destruct (cut =? -1)%Z; [exists (length full); by rewrite take_ge|by eexists]).
    destruct Hc as [k Hk]. rewrite Hk in Hcut |- *. unfold text_len in Hcut. rewrite length_take in Hcut.
    rewrite take_take, Nat.min_l by lia. rewrite Hfull, take_app_le by (unfold text_len in *; lia).
    unfold text_len. rewrite length_take. split; [done|]. split; [rewrite <-Hfull; lia|done].
Qed.

Lemma updated_ok d d' : stream_ok d -> same_params d d' -> updated d d' false None ->
  forall fin o, o = Z.max 0 (text_len (output_text d') - stop_buffer_length d') -> fin = false -> stream_ok (set_offset o d').
Proof.
  intros Hd (Hst & Hin & Hbu & Hof) Hu fin o -> ->. inversion Hu as [st new Ht Hno|]; subst.
  split; cbn [d_stop output_text stop_buffer_length last_output_text_offset set_offset d_include_stop]; rewrite ?Hst, ?Hin, ?Hbu.
  - intros s Hs. split; [by apply (so_stops d Hd)|]. by apply Hno.
  - by apply so_buffer.
  - by apply so_held.
  - done.
Qed.

Lemma deliver_ok d c o : stream_ok d ->
  match deliver true d c with
  | Err e => deliver false (set_offset o d) c = Err e
  | Ok (d', t, fin) =>
      deliver false (set_offset o d) c = Ok (set_offset o d', shown d ++ t, fin) /\
      (fin = false -> stream_ok d' /\ shown d' = shown d ++ t)
  end.
Proof.
  intros Hd. unfold deliver. rewrite update_offset. destruct (update d (c_ids c) _) as [[d1 s]|e] eqn:E1; [|done]. cbn [mbind result_bind fmap result_fmap prod_map].
  apply update_ok in E1 as (_ & Hp & Hu); [|done]. destruct (updated_shown _ _ _ _ Hd Hp Hu) as (Hs & Hl & Hg).
  set (fin := bool_decide (is_Some (c_finish c)) || truthy s).
  pose proof (so_buffer d Hd) as Hb. pose proof (shown_le d Hd) as H0. pose proof (so_offset d Hd) as Hoff.
  assert (Htr : truthy s = false -> s = None).
  { intros Htr. inversion Hu as [|full s1 cut _ _ (l1 & l2 & Hlst & _) _ _]; subst; [done|]. destruct (so_stops d Hd s1) as [Hne _].
    - rewrite Hlst. apply elem_of_app. right. by left.
    - by destruct s1. }
  destruct Hp as (Hst & Hin & Hbu & Hof) eqn:Hp'.
  assert (Hbound : (last_output_text_offset d1 <= Z.max 0 (text_len (output_text d1) - if fin then 0 else stop_buffer_length d1))%Z).
  { destruct fin eqn:Ef; [lia|]. subst fin. apply orb_false_iff in Ef as [_ Ef]. rewrite (Htr Ef) in *. rewrite Hof, Hbu, Hoff. specialize (Hg eq_refl). lia. }
  rewrite next_text_delta by lia. rewrite next_text_whole by (cbn; lia). cbn [id].
  assert (Hw : shown d ++ drop (Z.to_nat (last_output_text_offset d1)) (whole d1 fin) = whole d1 fin).
  { rewrite <-Hs. apply shown_then_next; lia. }
  rewrite Hw. split; [done|]. intros Ef. subst fin. apply orb_false_iff in Ef as [Ef1 Ef2].
  apply bool_decide_eq_false in Ef1. rewrite (Htr Ef2) in *. destruct (c_finish c) as [r|]; [by destruct Ef1|].
  rewrite (bool_decide_eq_false_2 (is_Some (None : option FinishReason))) in * by done.
  cbn [orb truthy] in *. specialize (Hg eq_refl).
  assert (Heq : Z.max (last_output_text_offset d1) (text_len (output_text d1) - stop_buffer_length d1) =
    Z.max 0 (text_len (output_text d1) - stop_buffer_length d1)) by lia.
  rewrite Heq. split.
  - by apply (updated_ok d d1 Hd Hp Hu false).
  - unfold shown, whole. cbn [last_output_text_offset output_text set_offset]. f_equal. lia.
Qed.

Lemma shown_texts_ok cs d o : stream_ok d ->
  shown_texts false (set_offset o d) cs = appended (shown d) <$> shown_texts true d cs.
Proof.
  revert d o. induction cs as [|c cs IH]; intros d o Hd; [done|]. cbn [shown_texts].
  pose proof (deliver_ok d c o Hd) as Hc. destruct (deliver true d c) as [[[d' t] fin]|e]; [|by rewrite Hc].
  destruct Hc as [-> Hc]. cbn [mbind result_bind]. destruct fin; [done|]. destruct (Hc eq_refl) as [Hd' Hs].
  rewrite (IH d' o Hd'). destruct (shown_texts true d' cs); cbn; by rewrite ?Hs.
Qed.

(** C26: Streaming differences is streaming whole texts: from a new detokenizer,
    whatever decodes the tokens, a reader who appends the differences has on the
    screen after every chunk the text that the reader of whole texts gets, the
    two streams end at the same chunk, and they fail together.  So a text once
    shown is never taken back, although stop strings are cut off when they are
    complete, and nothing stays behind in the buffer when the request ends. *)
Theorem delta_stream_is_cumulative ids p (x : D) cs : (forall s, s ∈ stop p -> s <> []) ->
  shown_texts false (base_init ids p x) cs = appended [] <$> shown_texts true (base_init ids p x) cs.
Proof.
  intros Hs. pose proof (base_init_ok ids p x Hs) as Hd. exact (shown_texts_ok cs _ 0 Hd).
Qed.
End Stream.

(** Every id is a character; the stop string is in the middle. *)
Module Chars.
#[export] Instance char_decoder : DecodeNext unit := fun u _ id => Ok (u, [id]).

Definition params (stops : list text) (include : bool) : OutputParams := {|
  sp_n := 1; seed := None; stop := stops; include_stop_str_in_output := include; detokenize := true; skip_special_tokens := true;
  spaces_between_special_tokens := true; out_logprobs := None; out_prompt_logprobs := None; out_max_tokens := None; output_kind := DELTA |}.

Definition chunks : list chunk :=
  [{| c_ids := str "a fi"; c_finish := None |}; {| c_ids := str "ne e"; c_finish := None |};
   {| c_ids := str "nd of"; c_finish := None |}; {| c_ids := str " it"; c_finish := None |}].
End Chars.
#[local] Existing Instance Chars.char_decoder.

Lemma delta_stream_is_cumulative_witness :
  shown_texts true (base_init [] (Chars.params [str "end"] false) tt) Chars.chunks = Ok [str "a "; str "fine"; str " "] /\
  shown_texts false (base_init [] (Chars.params [str "end"] false) tt) Chars.chunks = Ok [str "a "; str "a fine"; str "a fine "].
Proof.
  assert (Hs : forall s, s ∈ stop (Chars.params [str "end"] false) -> s <> []) by (intros s ->%list_elem_of_singleton; done).
  pose proof (delta_stream_is_cumulative [] (Chars.params [str "end"] false) tt Chars.chunks Hs) as H.
  assert (Ht : shown_texts true (base_init [] (Chars.params [str "end"] false) tt) Chars.chunks = Ok [str "a "; str "fine"; str " "]) by (vm_compute; reflexivity).
  split; [exact Ht|]. rewrite Ht in H. exact H.
Defined.

(** ** The slow detokenizer decodes all tokens

    The tokenizer's side.  [text_of] gives the text of a list of tokens.  How a
    token reads depends on its neighbours (a space is put in or taken out by the
    surrounding ids, a character may need several tokens), so decoding is not
    assumed to be a concatenation: it is only assumed to be local.  A window [w]
    of tokens that [anchors] the text fixes how the tokens after it read, whatever
    finished text comes before the window; what has been decoded to a finished,
    longer text anchors in its turn.  The tokenizer is fast or has no added tokens,
    so that a window is decoded by one call. *)

Definition unfinished (t : text) : Prop := last t = Some replacement.

#[export] Instance unfinished_dec t : Decision (unfinished t).
Proof. unfold unfinished. apply _. Defined.

Class StreamingDecode `{Tokenizer tokenizer} (tk : tokenizer) (text_of : list (option text) -> text)
    (anchors : list (option text) -> Prop) : Prop := {
  decode_total : forall toks, convert_tokens_to_string tk toks = Ok (text_of toks);
  decode_plain : is_fast tk || bool_decide (added_vocab tk = []) = true;
  decode_nil : text_of [] = [];
  decode_window : forall a w n, ~ unfinished (text_of a) -> anchors w ->
    text_of (a ++ w ++ n) = text_of (a ++ w) ++ drop (length (text_of w)) (text_of (w ++ n));
  anchor_finished : forall w, anchors w -> ~ unfinished (text_of w);
  anchor_next : forall w n, anchors w -> ~ unfinished (text_of (w ++ n)) -> length (text_of w) < length (text_of (w ++ n)) -> anchors n;
}.

Lemma unfinished_app t1 t2 : t2 <> [] -> unfinished (t1 ++ t2) <-> unfinished t2.
Proof. intros Hn. unfold unfinished. rewrite last_app. destruct (last t2) eqn:El; [done|]. by apply last_None in El. Qed.

Lemma unfinished_drop k t : k < length t -> unfinished (drop k t) <-> unfinished t.
Proof.
  intros Hk. rewrite <-(take_drop k t) at 2. rewrite unfinished_app; [done|]. intros E%(f_equal length). rewrite length_drop in E. cbn in E. lia.
Qed.

(** The elements of [T] from [i] up to [j]. *)
Definition between {A} (i j : nat) (T : list A) : list A := take (j - i) (drop i T).

Lemma between_app {A} i j (T U : list A) : j <= length T -> between i j (T ++ U) = between i j T.
Proof.
  intros Hj. unfold between. destruct (decide (i <= j)) as [Hi|Hi]; [|by replace (j - i) with 0 by lia].
  rewrite drop_app_le by lia. by rewrite take_app_le by (rewrite length_drop; lia).
Qed.

Lemma between_split {A} i j k (T : list A) : i <= j -> j <= k -> between i k T = between i j T ++ between j k T.
Proof.
  intros Hi Hj. unfold between. replace (drop j T) with (drop (j - i) (drop i T)) by (rewrite drop_drop; f_equal; lia).
  rewrite take_take_drop. f_equal. lia.
Qed.

Lemma between_rest {A} i j (T : list A) : i <= j -> drop i T = between i j T ++ drop j T.
Proof. intros Hi. unfold between. rewrite <-(take_drop (j - i) (drop i T)) at 1. f_equal. rewrite drop_drop. f_equal. lia. Qed.

Lemma between_all {A} i (T : list A) : between i (length T) T = drop i T.
Proof. unfold between. apply take_ge. by rewrite length_drop. Qed.

Section SlowCorrect.
Context `{StreamingDecode tokenizer tk text_of anchors}.
Implicit Types d : BaseIncrementalDetokenizer (SlowDecoder tokenizer).

(** The tokens of an id. *)
Definition tokens_of (skip : bool) (i : Z) : list (option text) :=
  if (0 <=? i)%Z && (i <? tokenizer_len tk)%Z then convert_ids_to_tokens tk [i] skip else [Some []].

(** The last tokens of the prompt, the first window. *)
Definition prompt_tail (start : list (option text)) : list (option text) := drop (length start - INITIAL_INCREMENTAL_DETOKENIZATION_OFFSET) start.

(** What the tokens [n] add to the text after the window [w]. *)
Definition fresh_text (w n : list (option text)) : text := drop (length (text_of w)) (text_of (w ++ n)).

(** [all] is what was generated after the start tokens [start]: the tokens up to
    the read offset decode to the text of the prompt's tail and the output, the
    window is the one from the prefix offset to the read offset, and the tokens
    after it wait for the end of a character. *)
Record slow_ok (skip : bool) (start all : list (option text)) d : Prop := {
  sl_tk : slow_tokenizer (decoder d) = tk;
  sl_skip : slow_skip (decoder d) = skip;
  sl_tokens : tokens (decoder d) = start ++ all;
  sl_prefix : length start - INITIAL_INCREMENTAL_DETOKENIZATION_OFFSET <= prefix_offset (decoder d) <= read_offset (decoder d);
  sl_read : length start <= read_offset (decoder d) <= length (start ++ all);
  sl_window : anchors (between (prefix_offset (decoder d)) (read_offset (decoder d)) (start ++ all));
  sl_before : ~ unfinished (text_of (between (length start - INITIAL_INCREMENTAL_DETOKENIZATION_OFFSET) (prefix_offset (decoder d)) (start ++ all)));
  sl_text : text_of (between (length start - INITIAL_INCREMENTAL_DETOKENIZATION_OFFSET) (read_offset (decoder d)) (start ++ all)) = text_of (prompt_tail start) ++ output_text d;
  sl_done : ~ unfinished (text_of (prompt_tail start) ++ output_text d);
  sl_pending : let wait := fresh_text (between (prefix_offset (decoder d)) (read_offset (decoder d)) (start ++ all)) (drop (read_offset (decoder d)) (start ++ all)) in
    wait = [] \/ unfinished wait;
}.

Lemma window_text_decode toks skip spaces : window_text tk toks skip spaces = Ok (text_of toks).
Proof. unfold window_text. rewrite decode_plain. apply decode_total. Qed.

Lemma waits_iff w n : (text_len (text_of (w ++ n)) <=? text_len (text_of w))%Z || bool_decide (last (text_of (w ++ n)) = Some replacement) =
  bool_decide (fresh_text w n = [] \/ unfinished (fresh_text w n)).
Proof.
  unfold text_len, fresh_text. destruct (decide (length (text_of (w ++ n)) <= length (text_of w))) as [Hl|Hl].
  - rewrite (proj2 (Z.leb_le _ _)) by lia. rewrite drop_ge by done. symmetry. apply bool_decide_eq_true_2. by left.
  - rewrite (proj2 (Z.leb_gt _ _)) by lia. cbn [orb]. apply bool_decide_ext. fold (unfinished (text_of (w ++ n))).
    rewrite unfinished_drop by lia. split; [by right|]. intros [E%(f_equal length)|]; [|done]. rewrite length_drop in E. cbn in E. lia.
Qed.

(** One token more: the text is what it adds after the window. *)
Lemma detokenize_step skip spaces T po ro ids i : po <= ro -> ro <= length T ->
  let all := T ++ tokens_of skip i in let w := between po ro T in let n := drop ro all in
  detokenize_incrementally tk (ids ++ [i]) (Some T) po ro skip spaces =
  Ok (if decide (fresh_text w n = [] \/ unfinished (fresh_text w n))
      then (tokens_of skip i, [], po, ro) else (tokens_of skip i, fresh_text w n, ro, length all)).
Proof.
  intros Hpr Hr all w n. unfold detokenize_incrementally. rewrite last_snoc. cbn [of_option mbind result_bind].
  fold (tokens_of skip i). fold all. rewrite !window_text_decode. cbn [mbind result_bind].
  fold (between po ro all). rewrite (between_rest po ro all) by done. 
  assert (Hw : between po ro all = w) by (unfold all, w; by apply between_app). rewrite Hw. fold n.
  rewrite waits_iff. case_bool_decide; case_decide; tauto || done.
Qed.

Lemma slow_append skip start all d i : slow_ok skip start all d ->
  exists d', append_token d i = Ok d' /\ slow_ok skip start (all ++ tokens_of skip i) d' /\ token_ids d' = token_ids d ++ [i].
Proof.
  intros [Htk Hsk Hto Hpr Hre Hwi Hbe Hte Hdo Hpe]. unfold append_token. cbn [decoder token_ids set_token_ids].
  unfold decode_next at 1, slow_decode_next at 1. rewrite Htk, Hsk, Hto.
  rewrite detokenize_step by lia. cbn [mbind result_bind]. rewrite <-app_assoc.
  set (T := start ++ all ++ tokens_of skip i). set (p0 := length start - INITIAL_INCREMENTAL_DETOKENIZATION_OFFSET) in *.
  set (po := prefix_offset (decoder d)) in *. set (ro := read_offset (decoder d)) in *.
  assert (HT : T = (start ++ all) ++ tokens_of skip i) by apply app_assoc.
  assert (HlT : length T = length (start ++ all) + length (tokens_of skip i)) by (rewrite HT; apply length_app).
  assert (Hlt : forall j k, k <= ro -> between j k T = between j k (start ++ all)) by (intros; rewrite HT; apply between_app; lia).
  set (w := between po ro (start ++ all)) in *. set (n := drop ro T) in *.
  case_decide as Hc; (eexists; split; [reflexivity|]; split; [|done]).
  - split; cbn [decoder set_decoder set_text set_token_ids slow_tokenizer slow_skip tokens prefix_offset read_offset output_text];
      rewrite ?app_nil_r; fold T p0 po ro; rewrite ?Hlt by lia; try done. lia.
  - assert (Hne : length (text_of w) < length (text_of (w ++ n))).
    { destruct (decide (length (text_of w) < length (text_of (w ++ n)))); [done|]. destruct Hc. left. unfold fresh_text. by apply drop_ge, Nat.nlt_ge. }
    assert (Hfin : ~ unfinished (text_of (w ++ n))) by (intros Hu; apply Hc; right; by apply unfinished_drop).
    split; cbn [decoder set_decoder set_text set_token_ids slow_tokenizer slow_skip tokens prefix_offset read_offset output_text];
      fold T p0 po ro; rewrite ?between_all; fold n; try done.
    + lia.
    + rewrite HlT. lia.
    + by apply (anchor_next w).
    + rewrite Hlt by done. by rewrite Hte.
    + rewrite (between_rest p0 ro) by lia. fold n. rewrite (between_split p0 po ro), !Hlt by lia. fold w.
      rewrite <-app_assoc, decode_window by done. fold (fresh_text w n). rewrite app_assoc, <-Hte. f_equal. f_equal.
      symmetry. apply between_split; lia.
    + rewrite app_assoc, unfinished_app by tauto. tauto.
    + left. rewrite (drop_ge T (length T)) by done. unfold fresh_text. rewrite app_nil_r. by apply drop_ge.
Qed.

Lemma slow_append_all skip start ids : forall all d, slow_ok skip start all d ->
  exists d', foldM append_token d ids = Ok d' /\ slow_ok skip start (all ++ (ids ≫= tokens_of skip)) d' /\ token_ids d' = token_ids d ++ ids.
Proof.
  induction ids as [|i ids IH]; intros all d Hd; cbn [foldM mbind list_bind].
  - exists d. by rewrite !app_nil_r.
  - destruct (slow_append skip start all d i Hd) as (d1 & -> & H1 & Ht). cbn [mbind result_bind].
    destruct (IH _ _ H1) as (d2 & E2 & H2 & Ht2). exists d2. rewrite app_assoc. split; [exact E2|]. split; [done|]. by rewrite Ht2, Ht, <-app_assoc.
Qed.

(** The start tokens of a request: those of the end of its prompt. *)
Definition start_tokens (r : FrontRequest) : list (option text) :=
  (convert_prompt_ids_to_tokens tk (f_prompt_token_ids r) (skip_special_tokens (f_params r))).1.1.

Lemma slow_init_ok (r : FrontRequest) : anchors (prompt_tail (start_tokens r)) ->
  slow_ok (skip_special_tokens (f_params r)) (start_tokens r) [] (base_init (f_prompt_token_ids r) (f_params r) (slow_init tk r)).
Proof.
  intros Hw. unfold prompt_tail in Hw. set (start := start_tokens r) in *. set (p := f_params r).
  assert (Hlen : length (convert_ids_to_tokens tk (py_slice_from (- Z.of_nat INITIAL_INCREMENTAL_DETOKENIZATION_OFFSET - 2) (f_prompt_token_ids r)) (skip_special_tokens p)) = length start).
  { unfold start, start_tokens, convert_prompt_ids_to_tokens, replace_none_with_empty. cbn [fst]. by rewrite length_fmap. }
  split; cbn [decoder base_init slow_init convert_prompt_ids_to_tokens slow_tokenizer slow_skip tokens prefix_offset read_offset output_text];
    rewrite ?app_nil_r; fold p; rewrite ?Hlen, ?between_all; try done; try lia.
  - unfold between. rewrite Nat.sub_diag. cbn [take]. rewrite decode_nil. by intros E.
  - by apply anchor_finished.
  - left. rewrite (drop_ge start (length start)) by done. unfold fresh_text. rewrite app_nil_r. by apply drop_ge.
Qed.

(** What an invariant state has decoded, whatever text is before the window. *)
Lemma slow_ok_text skip start all d : slow_ok skip start all d -> anchors (prompt_tail start) ->
  let decoded := take (read_offset (decoder d) - length start) all in
  let rest := drop (read_offset (decoder d) - length start) all in
  exists wait, (wait = [] \/ unfinished wait) /\
    forall before, ~ unfinished (text_of before) ->
      text_of (before ++ prompt_tail start ++ decoded) = text_of (before ++ prompt_tail start) ++ output_text d /\
      text_of (before ++ prompt_tail start ++ decoded ++ rest) = text_of (before ++ prompt_tail start) ++ output_text d ++ wait.
Proof.
  intros [_ _ _ Hpr Hre Hwi Hbe Hte _ Hpe] Ht decoded rest. cbv zeta in Hpe. rewrite length_app in Hre.
  set (p0 := length start - INITIAL_INCREMENTAL_DETOKENIZATION_OFFSET) in *. set (po := prefix_offset (decoder d)) in *.
  set (ro := read_offset (decoder d)) in *. set (w := between po ro (start ++ all)) in *.
  assert (Hrest : drop ro (start ++ all) = rest) by (unfold rest; by rewrite drop_app_ge by lia).
  assert (Hdec : between p0 ro (start ++ all) = prompt_tail start ++ decoded).
  { unfold between, prompt_tail, decoded. fold p0. rewrite drop_app_le, take_app by lia. rewrite take_ge by (rewrite length_drop; lia).
    f_equal. f_equal. rewrite length_drop. unfold p0. lia. }
  rewrite Hrest in Hpe. rewrite Hdec in Hte. eexists. split; [exact Hpe|]. intros before Hb.
  assert (Hall : text_of (prompt_tail start ++ decoded ++ rest) = text_of (prompt_tail start) ++ output_text d ++ fresh_text w rest).
  { rewrite app_assoc, <-Hdec, (between_split p0 po ro), <-app_assoc by lia. fold w. rewrite decode_window by done. fold (fresh_text w rest).
    rewrite app_assoc, <-Hte. do 2 f_equal. rewrite <-Hdec. symmetry. apply between_split; lia. }
  rewrite !decode_window, Hte, Hall, !drop_app_length by done. done.
Qed.

(** C27: The slow detokenizer loses nothing, although it decodes only a window of
    the tokens each time: if decoding is local and the end of the prompt, the
    first window, anchors it, then after any ids it has raised nothing and has
    recorded the ids, and whatever finished text comes before the prompt's end,
    decoding the prompt and all the tokens together gives the prompt's text, then
    the detokenizer's text, then an unfinished character or nothing, which waits
    for the next id. *)
Theorem slow_detokenizer_correct (r : FrontRequest) ids :
  let p := f_params r in
  let prompt := prompt_tail (start_tokens r) in
  anchors prompt ->
  exists d decoded rest wait, foldM append_token (base_init (f_prompt_token_ids r) p (slow_init tk r)) ids = Ok d /\
    token_ids d = f_prompt_token_ids r ++ ids /\
    ids ≫= tokens_of (skip_special_tokens p) = decoded ++ rest /\
    (wait = [] \/ unfinished wait) /\
    forall before, ~ unfinished (text_of before) ->
      text_of (before ++ prompt ++ decoded) = text_of (before ++ prompt) ++ output_text d /\
      text_of (before ++ prompt ++ decoded ++ rest) = text_of (before ++ prompt) ++ output_text d ++ wait.
Proof.
  cbv zeta. intros Hw. destruct (slow_append_all _ _ ids _ _ (slow_init_ok r Hw)) as (d & Hrun & Hok & Hids). cbn [app] in Hok.
  destruct (slow_ok_text _ _ _ _ Hok Hw) as (wait & Hwait & Htext).
  exists d, (take (read_offset (decoder d) - length (start_tokens r)) (ids ≫= tokens_of (skip_special_tokens (f_params r)))),
    (drop (read_offset (decoder d) - length (start_tokens r)) (ids ≫= tokens_of (skip_special_tokens (f_params r)))), wait.
  refine (conj Hrun (conj Hids (conj _ (conj Hwait Htext)))). symmetry. apply take_drop.
Qed.
End SlowCorrect.

(** A tokenizer of two-byte characters: an id up to 255 is a byte, and a character
    is complete with its second byte.  A token list that starts with a space
    loses it, as the tokenizers do that put the space of a word in its token; so
    decoding depends on the tokens before. *)
Module TwoBytes.
Fixpoint pairs (bytes : list Z) : text :=
  match bytes with
  | [] => []
  | [_] => [replacement]
  | a :: b :: bytes => (256 * a + b)%Z :: pairs bytes
  end.

Definition bytes_of (toks : list (option text)) : list Z := mjoin (default [] <$> toks).

Definition strip (t : text) : text := match t with c :: t => if decide (c = 32)%Z then t else c :: t | [] => [] end.

Definition decode_tokens (toks : list (option text)) : text := strip (pairs (bytes_of toks)).

(** Some bytes, and no character is cut at the end. *)
Definition anchored (toks : list (option text)) : Prop := bytes_of toks <> [] /\ ~ unfinished (pairs (bytes_of toks)).

#[export] Instance two_bytes : Tokenizer unit := {|
  convert_ids_to_tokens := fun _ ids _ => (fun i => Some [i]) <$> ids; convert_tokens_to_string := fun _ toks => Ok (decode_tokens toks);
  all_special_tokens := fun _ => []; added_vocab := fun _ => []; is_fast := fun _ => true; tokenizer_len := fun _ => 256%Z;
  supports_stream := fun _ => false; DecodeStream := unit; new_stream := fun _ => tt; stream_step := fun s _ _ => (s, None);
  fast_decode := fun _ _ => []; added_tokens_decoder := fun _ => [] |}.

Lemma bytes_of_app l1 l2 : bytes_of (l1 ++ l2) = bytes_of l1 ++ bytes_of l2.
Proof. unfold bytes_of. by rewrite fmap_app, join_app. Qed.

Lemma pairs_app n l1 l2 : length l1 <= n -> ~ unfinished (pairs l1) -> pairs (l1 ++ l2) = pairs l1 ++ pairs l2.
Proof.
  revert l1. induction n as [|n IH]; intros [|a [|b l1]] Hn Hu; cbn in *; try lia; try done.
  f_equal. apply IH; [lia|]. intros Hx. apply Hu. unfold unfinished in *. by rewrite last_cons, Hx.
Qed.

Lemma pairs_nil l : pairs l = [] <-> l = [].
Proof. by destruct l as [|a [|b l]]. Qed.

(** The space is at the front, the unfinished character at the end. *)
Lemma strip_unfinished t : unfinished (strip t) <-> unfinished t.
Proof.
  destruct t as [|c [|c' t]]; cbn [strip]; [done| |]; case_decide as Hc; try done; subst.
  unfold unfinished. cbn. split; [done|]. intros [=].
Qed.

Lemma strip_app t1 t2 : t1 <> [] -> strip (t1 ++ t2) = strip t1 ++ t2.
Proof. destruct t1; [done|]. intros _. cbn. by case_decide. Qed.

Lemma decode_app toks n : anchored toks -> decode_tokens (toks ++ n) = decode_tokens toks ++ pairs (bytes_of n).
Proof.
  intros [Hn Hu]. unfold decode_tokens. rewrite bytes_of_app, (pairs_app (length (bytes_of toks))) by done.
  by rewrite strip_app by (by rewrite pairs_nil).
Qed.

Lemma anchored_app a w : ~ unfinished (decode_tokens a) -> anchored w -> anchored (a ++ w).
Proof.
  unfold decode_tokens. rewrite strip_unfinished. intros Ha [Hn Hu]. split; rewrite bytes_of_app; [by destruct (bytes_of a)|].
  rewrite (pairs_app (length (bytes_of a))) by done. by rewrite unfinished_app by (by rewrite pairs_nil).
Qed.

#[export] Instance two_bytes_decode : StreamingDecode tt decode_tokens anchored.
Proof.
  split; try done.
  - intros a w n Ha Hw. rewrite app_assoc, (decode_app (a ++ w)), (decode_app w) by (done || by apply anchored_app). by rewrite drop_app_length.
  - intros w [_ Hu]. unfold decode_tokens. by rewrite strip_unfinished.
  - intros w n Hw. rewrite decode_app by done. rewrite length_app. intros Hu Hl.
    assert (Hne : pairs (bytes_of n) <> []) by (intros E; rewrite E in Hl; cbn in Hl; lia).
    split; [by rewrite <-pairs_nil|]. by rewrite unfinished_app in Hu.
Qed.

Definition request : FrontRequest := {| f_request_id := "a"; f_prompt_token_ids := [1; 2]%Z; f_params := Chars.params [] false; f_arrival_time := 0; f_lora_name := None |}.
End TwoBytes.
#[local] Existing Instance TwoBytes.two_bytes.
#[local] Existing Instance TwoBytes.two_bytes_decode.

(** A space, two characters and the first byte of a fourth; decoded without the
    prompt the space would be lost. *)
Lemma slow_detokenizer_correct_witness :
  exists d decoded rest, foldM append_token (base_init [1; 2]%Z (Chars.params [] false) (slow_init tt TwoBytes.request)) [0; 32; 3; 4; 5; 6; 7]%Z = Ok d /\
    output_text d = [32; 772; 1286]%Z /\ [0; 32; 3; 4; 5; 6; 7]%Z ≫= tokens_of (tk := tt) true = decoded ++ rest /\
    TwoBytes.decode_tokens (prompt_tail (start_tokens (tk := tt) TwoBytes.request) ++ decoded) = [258; 32; 772; 1286]%Z.
Proof.
  assert (Hw : TwoBytes.anchored (prompt_tail (start_tokens (tk := tt) TwoBytes.request))) by (split; vm_compute; discriminate).
  destruct (slow_detokenizer_correct (tk := tt) TwoBytes.request [0; 32; 3; 4; 5; 6; 7]%Z Hw) as (d & decoded & rest & wait & Hrun & _ & Hall & _ & Htext).
  exists d, decoded, rest. split; [exact Hrun|].
  assert (Hc : output_text <$> foldM append_token (base_init [1; 2]%Z (Chars.params [] false) (slow_init tt TwoBytes.request)) [0; 32; 3; 4; 5; 6; 7]%Z = Ok [32; 772; 1286]%Z) by (vm_compute; reflexivity).
  change (output_text <$> foldM append_token (base_init (f_prompt_token_ids TwoBytes.request) (f_params TwoBytes.request) (slow_init tt TwoBytes.request)) [0; 32; 3; 4; 5; 6; 7]%Z = Ok [32; 772; 1286]%Z) in Hc.
  rewrite Hrun in Hc. injection Hc as Hc. split; [exact Hc|]. split; [exact Hall|].
  assert (Hn : ~ unfinished (TwoBytes.decode_tokens [])) by (vm_compute; discriminate).
  destruct (Htext [] Hn) as [Ht _]. rewrite Hc in Ht. exact Ht.
Defined.
