(* ===== verification/Logprobs.v ===== *)
(** * Log probabilities of a request

    Model of [vllm/v1/engine/logprobs.py]: the processor that turns the numbers
    of the sampler into one dictionary per position.  The numbers are a parameter
    with zero and addition. *)

From S2P Require Import Prelude StopChecker Detokenizer.

Class LogprobValues := { lp : Type; lp_zero : lp; lp_add : lp -> lp -> lp }.

Section Logprobs.
Context `{LogprobValues} `{Tokenizer tokenizer}.

Record Logprob := { logprob : lp; rank : Z; decoded_token : option text }.

(** [LogprobsLists]: a row per sampled token. *)
Record LogprobsLists := {
  logprob_token_ids : list (list Z);
  logprobs_lst : list (list lp);
  sampled_token_ranks : list Z;
}.

(** [LogprobsTensors] after [tolist]; [t_width] is the second dimension. *)
Record LogprobsTensors := {
  t_token_ids : list (list Z);
  t_logprobs : list (list lp);
  t_ranks : list Z;
  t_width : nat;
}.

Record LogprobsProcessor := {
  lp_tokenizer : option tokenizer;
  logprobs : option (list (gmap Z Logprob));
  prompt_logprobs : option (list (option (gmap Z Logprob)));
  cumulative_logprob : option lp;
  num_logprobs : option Z;
  num_prompt_logprobs : option Z;
}.

Definition logprobs_from_new_request (tk : option tokenizer) (r : FrontRequest) : LogprobsProcessor :=
  let p := f_params r in
  {| lp_tokenizer := tk;
     logprobs := if out_logprobs p then Some [] else None;
     prompt_logprobs := if out_prompt_logprobs p then Some [None] else None;
     cumulative_logprob := if out_logprobs p then Some lp_zero else None;
     num_logprobs := out_logprobs p; num_prompt_logprobs := out_prompt_logprobs p |}.

(** The entries of a position: [zip] stops with the shortest list; the decoded
    tokens are [None] forever without a tokenizer. *)
Fixpoint logprob_entries (ids : list Z) (values : list lp) (ranks : list Z) (decoded : option (list text)) : list (Z * Logprob) :=
  match ids, values, ranks, decoded with
  | i :: ids, v :: values, r :: ranks, None => (i, {| logprob := v; rank := r; decoded_token := None |}) :: logprob_entries ids values ranks None
  | i :: ids, v :: values, r :: ranks, Some (t :: decoded) =>
      (i, {| logprob := v; rank := r; decoded_token := Some t |}) :: logprob_entries ids values ranks (Some decoded)
  | _, _, _, _ => []
  end.

Definition make_logprob_dict (values : list lp) (token_ids : list Z) (decoded : option (list text)) (rank num_logprobs : Z) : gmap Z Logprob :=
  let ranks := rank :: seqZ 1 num_logprobs in
  foldl (fun m e => <[e.1 := e.2]> m) ∅ (logprob_entries token_ids values ranks decoded).

Definition set_sampled (l : list (gmap Z Logprob)) (c : lp) (q : LogprobsProcessor) : LogprobsProcessor :=
  {| lp_tokenizer := lp_tokenizer q; logprobs := Some l; prompt_logprobs := prompt_logprobs q; cumulative_logprob := Some c;
     num_logprobs := num_logprobs q; num_prompt_logprobs := num_prompt_logprobs q |}.

Definition set_prompt_logprobs l (q : LogprobsProcessor) : LogprobsProcessor :=
  {| lp_tokenizer := lp_tokenizer q; logprobs := logprobs q; prompt_logprobs := l; cumulative_logprob := cumulative_logprob q;
     num_logprobs := num_logprobs q; num_prompt_logprobs := num_prompt_logprobs q |}.

(** One row of the sampler: the sampled token comes first. *)
Definition sample_row (q : LogprobsProcessor) (row : Z * list lp * list Z) : result LogprobsProcessor :=
  let '(rank, values, token_ids) := row in
  let decoded := (fun tk => convert_ids_list_to_tokens tk token_ids) <$> lp_tokenizer q in
  sampled ← of_option IndexError (head values);
  l ← of_option TypeError (logprobs q);
  c ← of_option TypeError (cumulative_logprob q);
  k ← of_option TypeError (num_logprobs q);
  Ok (set_sampled (l ++ [make_logprob_dict values token_ids decoded rank k]) (lp_add c sampled) q).

Definition update_sample_logprobs (q : LogprobsProcessor) (ll : LogprobsLists) : result LogprobsProcessor :=
  _ ← py_assert (bool_decide (is_Some (num_logprobs q)));
  _ ← py_assert (bool_decide (is_Some (logprobs q)));
  _ ← py_assert (bool_decide (is_Some (cumulative_logprob q)));
  foldM sample_row q (zip (zip (sampled_token_ranks ll) (logprobs_lst ll)) (logprob_token_ids ll)).

(** One position of the prompt; the decoded tokens are those of all positions. *)
Definition prompt_row (t : LogprobsTensors) (decoded : option (list text)) (k : Z) (l : list (option (gmap Z Logprob))) (pos : nat) :
    result (list (option (gmap Z Logprob))) :=
  let offset := pos * t_width t in
  let offset_end := offset + t_width t in
  let decoded_tokens_for_pos := (fun d => take (offset_end - offset) (drop offset d)) <$> decoded in
  values ← of_option IndexError (t_logprobs t !! pos);
  ids ← of_option IndexError (t_token_ids t !! pos);
  r ← of_option IndexError (t_ranks t !! pos);
  Ok (l ++ [Some (make_logprob_dict values ids decoded_tokens_for_pos r k)]).

Definition update_prompt_logprobs (q : LogprobsProcessor) (t : LogprobsTensors) : result LogprobsProcessor :=
  k ← of_option AssertionError (num_prompt_logprobs q);
  l ← of_option AssertionError (prompt_logprobs q);
  let decoded := (fun tk => convert_ids_list_to_tokens tk (mjoin (t_token_ids t))) <$> lp_tokenizer q in
  l ← foldM (prompt_row t decoded k) l (seq 0 (length (t_logprobs t)));
  Ok (set_prompt_logprobs (Some l) q).

(** All prompt log probabilities at once; then they are forgotten. *)
Definition pop_prompt_logprobs (q : LogprobsProcessor) : LogprobsProcessor * option (list (option (gmap Z Logprob))) :=
  match prompt_logprobs q with
  | Some (_ :: _) => (set_prompt_logprobs (Some []) q, prompt_logprobs q)
  | plp => (q, plp)
  end.

Definition logprobs_update (q : LogprobsProcessor) (new_logprobs : option LogprobsLists) (new_prompt_logprobs : option LogprobsTensors) :
    result LogprobsProcessor :=
  q ← match new_logprobs with Some ll => update_sample_logprobs q ll | None => Ok q end;
  match new_prompt_logprobs with Some t => update_prompt_logprobs q t | None => Ok q end.

(** ** Lemmas *)

(** The tokenizer converts each id on its own. *)
Definition converts_each (tk : tokenizer) : Prop :=
  exists f, forall ids, convert_ids_to_tokens tk ids false = f <$> ids.

Lemma join_slice {A} (rows : list (list A)) w pos row : Forall (fun r => length r = w) rows -> rows !! pos = Some row ->
  take w (drop (pos * w) (mjoin rows)) = row.
Proof.
  intros Hw. revert pos. induction Hw as [|r rows Hr Hw IH]; intros [|pos] Hrow; cbn in *; try done.
  - injection Hrow as ->. by rewrite drop_0, take_app_le, take_ge by lia.
  - rewrite <-Hr at 2. rewrite drop_app_add'; [by apply IH|by rewrite Hr].
Qed.

Record shaped (t : LogprobsTensors) : Prop := {
  sh_ids : length (t_token_ids t) = length (t_logprobs t);
  sh_ranks : length (t_ranks t) = length (t_logprobs t);
  sh_width : Forall (fun r => length r = t_width t) (t_token_ids t);
}.

(** The dictionaries, each decoded from its own row. *)
Definition prompt_dicts (tk : option tokenizer) (k : Z) (t : LogprobsTensors) : list (option (gmap Z Logprob)) :=
  (fun row => Some (make_logprob_dict row.1.1 row.1.2 ((fun tk => convert_ids_list_to_tokens tk row.1.2) <$> tk) row.2 k)) <$>
  zip (zip (t_logprobs t) (t_token_ids t)) (t_ranks t).

Lemma decoded_slice (tk : option tokenizer) (t : LogprobsTensors) pos ids :
  (forall x, tk = Some x -> converts_each x) -> shaped t -> t_token_ids t !! pos = Some ids ->
  (fun d => take (t_width t) (drop (pos * t_width t) d)) <$> ((fun x => convert_ids_list_to_tokens x (mjoin (t_token_ids t))) <$> tk) =
  (fun x => convert_ids_list_to_tokens x ids) <$> tk.
Proof.
  intros Hc Ht Hp. destruct tk as [x|]; [|done]. destruct (Hc x eq_refl) as [f Hf]. cbn. f_equal.
  unfold convert_ids_list_to_tokens. rewrite !Hf, <-!list_fmap_compose, <-fmap_drop, <-fmap_take. f_equal.
  by apply join_slice; [apply (sh_width t Ht)|].
Qed.

Lemma prompt_row_ok (tk : option tokenizer) (t : LogprobsTensors) k l pos : (forall x, tk = Some x -> converts_each x) -> shaped t ->
  pos < length (t_logprobs t) ->
  exists e, prompt_dicts tk k t !! pos = Some e /\
    prompt_row t ((fun x => convert_ids_list_to_tokens x (mjoin (t_token_ids t))) <$> tk) k l pos = Ok (l ++ [e]).
Proof.
  intros Hc Ht Hpos. pose proof (sh_ids t Ht) as H1. pose proof (sh_ranks t Ht) as H2.
  destruct (lookup_lt_is_Some_2 (t_logprobs t) pos) as [v Hv]; [lia|].
  destruct (lookup_lt_is_Some_2 (t_token_ids t) pos) as [ids Hids]; [lia|].
  destruct (lookup_lt_is_Some_2 (t_ranks t) pos) as [r Hr]; [lia|].
  eexists. split.
  - unfold prompt_dicts. rewrite list_lookup_fmap, lookup_zip_with, lookup_zip_with, Hv. cbn. rewrite Hids. cbn. rewrite Hr. cbn. reflexivity.
  - unfold prompt_row. rewrite Hv, Hids, Hr. cbn [of_option mbind result_bind].
    replace (pos * t_width t + t_width t - pos * t_width t) with (t_width t) by lia.
    by rewrite (decoded_slice tk t pos ids Hc Ht Hids).
Qed.

Lemma prompt_rows_ok (tk : option tokenizer) (t : LogprobsTensors) k : (forall x, tk = Some x -> converts_each x) -> shaped t ->
  forall m i l, i + m = length (t_logprobs t) ->
  foldM (prompt_row t ((fun x => convert_ids_list_to_tokens x (mjoin (t_token_ids t))) <$> tk) k) l (seq i m) =
  Ok (l ++ drop i (prompt_dicts tk k t)).
Proof.
  intros Hc Ht. induction m as [|m IH]; intros i l Hi; cbn [seq foldM].
  - rewrite drop_ge; [by rewrite app_nil_r|]. unfold prompt_dicts. rewrite length_fmap, !length_zip_with. lia.
  - destruct (prompt_row_ok tk t k l i Hc Ht) as (e & He & ->); [lia|]. cbn [mbind result_bind].
    rewrite IH by lia. rewrite <-app_assoc. cbn [app]. by rewrite (drop_S _ e i) by done.
Qed.

(** The flattened decoding of prompt tokens is put back in its rows: for
    tensors of one shape and a tokenizer that converts each id on its own, the
    update raises nothing and appends, for each position, the dictionary made from
    that position's own ids, values and rank. *)
Theorem update_prompt_logprobs_correct (q : LogprobsProcessor) (t : LogprobsTensors) k l :
  num_prompt_logprobs q = Some k -> prompt_logprobs q = Some l -> shaped t ->
  (forall x, lp_tokenizer q = Some x -> converts_each x) ->
  update_prompt_logprobs q t = Ok (set_prompt_logprobs (Some (l ++ prompt_dicts (lp_tokenizer q) k t)) q).
Proof.
  intros Hk Hl Ht Hc. unfold update_prompt_logprobs. rewrite Hk, Hl. cbn [of_option mbind result_bind].
  rewrite (prompt_rows_ok (lp_tokenizer q) t k Hc Ht) by lia. by rewrite drop_0.
Qed.

(** One dictionary per sampled token. *)
Lemma update_sample_logprobs_length (q q' : LogprobsProcessor) ll : update_sample_logprobs q ll = Ok q' ->
  exists l l', logprobs q = Some l /\ logprobs q' = Some (l ++ l') /\
    length l' = length (zip (zip (sampled_token_ranks ll) (logprobs_lst ll)) (logprob_token_ids ll)) /\
    prompt_logprobs q' = prompt_logprobs q /\ num_logprobs q' = num_logprobs q /\ num_prompt_logprobs q' = num_prompt_logprobs q.
Proof.
  unfold update_sample_logprobs. intros E0. apply bind_ok in E0 as (_ & _ & E0). apply bind_ok in E0 as (u & Hl & E0). apply bind_ok in E0 as (_ & _ & E0).
  apply py_assert_ok, bool_decide_eq_true in Hl as [l Hl]. exists l. clear u. revert E0. revert Hl. revert l. revert q.
  induction (zip (zip _ _) _) as [|row rows IH]; intros q l Hl E0; revert E0; cbn [foldM].
  - intros [= <-]. exists []. rewrite app_nil_r. by repeat split.
  - intros E0. apply bind_ok in E0 as (q1 & E1 & E0). unfold sample_row in E1. destruct row as [[r v] ids]. rewrite Hl in E1.
    apply bind_ok in E1 as (s & _ & E1). apply bind_ok in E1 as (l1 & El & E1). apply of_option_ok in El. injection El as <-.
    apply bind_ok in E1 as (c & _ & E1). apply bind_ok in E1 as (k & _ & E1). injection E1 as <-.
    assert (IH' := fun l H => IH _ l H E0). destruct (IH' _ eq_refl) as (l' & _ & Hl' & Hlen & Hp & Hn & Hpn). exists (make_logprob_dict v ids ((fun tk => convert_ids_list_to_tokens tk ids) <$> lp_tokenizer q) r k :: l').
    split; [done|]. rewrite Hl', <-app_assoc. cbn [length app]. rewrite Hlen. done.
Qed.
End Logprobs.

(** Two positions, two values each; integers for the numbers. *)
Module PromptDemo.
#[export] Instance z_values : LogprobValues := {| lp := Z; lp_zero := 0%Z; lp_add := Z.add |}.

Definition tensors : LogprobsTensors (H := z_values) := {| t_token_ids := [[7; 8]; [9; 7]]%Z; t_logprobs := [[-1; -2]; [-3; -4]]%Z; t_ranks := [1; 5]%Z; t_width := 2 |}.
Definition processor : LogprobsProcessor (H := z_values) (tokenizer := unit) := {| lp_tokenizer := Some tt; logprobs := None; prompt_logprobs := Some [None];
  cumulative_logprob := None; num_logprobs := None; num_prompt_logprobs := Some 1%Z |}.
End PromptDemo.

Lemma update_prompt_logprobs_correct_witness :
  update_prompt_logprobs (H0 := TwoBytes.two_bytes) PromptDemo.processor PromptDemo.tensors =
  Ok (set_prompt_logprobs (Some ([None] ++ prompt_dicts (H0 := TwoBytes.two_bytes) (Some tt) 1 PromptDemo.tensors)) PromptDemo.processor) /\
  length (prompt_dicts (H0 := TwoBytes.two_bytes) (Some tt) 1 PromptDemo.tensors) = 2.
Proof.
  split; [|reflexivity].
  apply (update_prompt_logprobs_correct (H0 := TwoBytes.two_bytes) PromptDemo.processor PromptDemo.tensors 1 [None]); [reflexivity|reflexivity| |].
  - split; [reflexivity|reflexivity|by repeat constructor].
  - intros x _. exists (fun i => Some [i]). intros ids. reflexivity.
Defined.
