(* ===== verification/RequestStats.v ===== *)
(** * Statistics of the front end

    Model of the classes of [vllm/v1/metrics/stats.py] that the output processor
    updates: per request, per iteration, and per LoRA adapter.  Timestamps are
    integers; subtraction and comparison with zero are all that happens to them. *)

From S2P Require Import Prelude PyDict Request Scheduler.

(** ** Requests *)

Record RequestStateStats := {
  num_generation_tokens : Z;
  arrival_time : Z;
  queued_ts : Z;
  scheduled_ts : Z;
  first_token_ts : Z;
  last_token_ts : Z;
}.

Definition request_stats_init (arrival : Z) : RequestStateStats :=
  {| num_generation_tokens := 0; arrival_time := arrival; queued_ts := 0; scheduled_ts := 0; first_token_ts := 0; last_token_ts := 0 |}.

Definition set_queued t (s : RequestStateStats) := {| num_generation_tokens := num_generation_tokens s; arrival_time := arrival_time s;
  queued_ts := t; scheduled_ts := scheduled_ts s; first_token_ts := first_token_ts s; last_token_ts := last_token_ts s |}.
Definition set_scheduled t (s : RequestStateStats) := {| num_generation_tokens := num_generation_tokens s; arrival_time := arrival_time s;
  queued_ts := queued_ts s; scheduled_ts := t; first_token_ts := first_token_ts s; last_token_ts := last_token_ts s |}.
Definition set_first t (s : RequestStateStats) := {| num_generation_tokens := num_generation_tokens s; arrival_time := arrival_time s;
  queued_ts := queued_ts s; scheduled_ts := scheduled_ts s; first_token_ts := t; last_token_ts := last_token_ts s |}.
Definition set_last t (s : RequestStateStats) := {| num_generation_tokens := num_generation_tokens s; arrival_time := arrival_time s;
  queued_ts := queued_ts s; scheduled_ts := scheduled_ts s; first_token_ts := first_token_ts s; last_token_ts := t |}.
Definition set_generated k (s : RequestStateStats) := {| num_generation_tokens := k; arrival_time := arrival_time s;
  queued_ts := queued_ts s; scheduled_ts := scheduled_ts s; first_token_ts := first_token_ts s; last_token_ts := last_token_ts s |}.

Record FinishedRequestStats := {
  fs_finish_reason : FinishReason;
  e2e_latency : Z;
  fs_num_prompt_tokens : Z;
  fs_num_generation_tokens : Z;
  max_tokens_param : option Z;
  queued_time : Z;
  prefill_time : Z;
  inference_time : Z;
  decode_time : Z;
}.

(** ** Adapters *)

Record LoRAStats := { waiting_requests : gset string; running_requests : gset string }.
Notation LoRARequestStates := (gmap string LoRAStats).

Definition lora_stats_init : LoRAStats := {| waiting_requests := ∅; running_requests := ∅ |}.

(** [get_stats] makes the entry; the reference it returns is the adapter's name. *)
Definition lora_get_stats (l : LoRARequestStates) (lora_name : option string) : LoRARequestStates :=
  match lora_name with
  | None => l
  | Some a => match l !! a with Some _ => l | None => <[a := lora_stats_init]> l end
  end.

Definition lora_update (f : LoRAStats -> result LoRAStats) (l : LoRARequestStates) (lora_name : option string) : result LoRARequestStates :=
  match lora_name with
  | None => Ok l
  | Some a => s ← of_option KeyError (l !! a); s ← f s; Ok (<[a := s]> l)
  end.

Definition lora_add_request (l : LoRARequestStates) (lora_name : option string) (id : string) : result LoRARequestStates :=
  lora_update (fun s => Ok {| waiting_requests := {[id]} ∪ waiting_requests s; running_requests := running_requests s |}) (lora_get_stats l lora_name) lora_name.

(** [set.remove] raises if the element is not there. *)
Definition set_remove (id : string) (s : gset string) : result (gset string) :=
  if decide (id ∈ s) then Ok (s ∖ {[id]}) else Err KeyError.

Definition lora_finish_request (l : LoRARequestStates) (lora_name : option string) (id : string) : result LoRARequestStates :=
  lora_update (fun s => r ← set_remove id (running_requests s); Ok {| waiting_requests := waiting_requests s; running_requests := r |}) l lora_name.

Definition lora_abort_request (l : LoRARequestStates) (lora_name : option string) (id : string) : result LoRARequestStates :=
  lora_update (fun s => Ok {| waiting_requests := waiting_requests s ∖ {[id]}; running_requests := running_requests s ∖ {[id]} |}) l lora_name.

Definition scheduled_request (l : LoRARequestStates) (lora_name : option string) (id : string) : result LoRARequestStates :=
  lora_update (fun s => w ← set_remove id (waiting_requests s); Ok {| waiting_requests := w; running_requests := {[id]} ∪ running_requests s |}) l lora_name.

Definition preempted_request (l : LoRARequestStates) (lora_name : option string) (id : string) : result LoRARequestStates :=
  lora_update (fun s => r ← set_remove id (running_requests s); Ok {| waiting_requests := {[id]} ∪ waiting_requests s; running_requests := r |}) l lora_name.

(** ** An iteration *)

Record IterationStats := {
  iteration_timestamp : Z;
  it_num_generation_tokens : Z;
  it_num_prompt_tokens : Z;
  num_preempted_reqs : Z;
  it_finished_requests : list FinishedRequestStats;
  max_num_generation_tokens_iter : list Z;
  n_params_iter : list Z;
  time_to_first_tokens_iter : list Z;
  time_per_output_tokens_iter : list Z;
  waiting_lora_adapters : gmap string Z;
  running_lora_adapters : gmap string Z;
}.

Definition iteration_init (now : Z) : IterationStats := {| iteration_timestamp := now; it_num_generation_tokens := 0; it_num_prompt_tokens := 0;
  num_preempted_reqs := 0; it_finished_requests := []; max_num_generation_tokens_iter := []; n_params_iter := []; time_to_first_tokens_iter := [];
  time_per_output_tokens_iter := []; waiting_lora_adapters := ∅; running_lora_adapters := ∅ |}.

Definition count_tokens (k p : Z) (ttft tpot : list Z) (it : IterationStats) : IterationStats := {|
  iteration_timestamp := iteration_timestamp it; it_num_generation_tokens := (it_num_generation_tokens it + k)%Z;
  it_num_prompt_tokens := (it_num_prompt_tokens it + p)%Z; num_preempted_reqs := num_preempted_reqs it;
  it_finished_requests := it_finished_requests it; max_num_generation_tokens_iter := max_num_generation_tokens_iter it; n_params_iter := n_params_iter it;
  time_to_first_tokens_iter := time_to_first_tokens_iter it ++ ttft; time_per_output_tokens_iter := time_per_output_tokens_iter it ++ tpot;
  waiting_lora_adapters := waiting_lora_adapters it; running_lora_adapters := running_lora_adapters it |}.

Definition count_preempted (it : IterationStats) : IterationStats := {|
  iteration_timestamp := iteration_timestamp it; it_num_generation_tokens := it_num_generation_tokens it;
  it_num_prompt_tokens := it_num_prompt_tokens it; num_preempted_reqs := (num_preempted_reqs it + 1)%Z;
  it_finished_requests := it_finished_requests it; max_num_generation_tokens_iter := max_num_generation_tokens_iter it; n_params_iter := n_params_iter it;
  time_to_first_tokens_iter := time_to_first_tokens_iter it; time_per_output_tokens_iter := time_per_output_tokens_iter it;
  waiting_lora_adapters := waiting_lora_adapters it; running_lora_adapters := running_lora_adapters it |}.

Definition add_finished f (it : IterationStats) : IterationStats := {|
  iteration_timestamp := iteration_timestamp it; it_num_generation_tokens := it_num_generation_tokens it;
  it_num_prompt_tokens := it_num_prompt_tokens it; num_preempted_reqs := num_preempted_reqs it;
  it_finished_requests := it_finished_requests it ++ [f]; max_num_generation_tokens_iter := max_num_generation_tokens_iter it; n_params_iter := n_params_iter it;
  time_to_first_tokens_iter := time_to_first_tokens_iter it; time_per_output_tokens_iter := time_per_output_tokens_iter it;
  waiting_lora_adapters := waiting_lora_adapters it; running_lora_adapters := running_lora_adapters it |}.

Definition add_sizes (k n : Z) (it : IterationStats) : IterationStats := {|
  iteration_timestamp := iteration_timestamp it; it_num_generation_tokens := it_num_generation_tokens it;
  it_num_prompt_tokens := it_num_prompt_tokens it; num_preempted_reqs := num_preempted_reqs it;
  it_finished_requests := it_finished_requests it; max_num_generation_tokens_iter := max_num_generation_tokens_iter it ++ [k]; n_params_iter := n_params_iter it ++ [n];
  time_to_first_tokens_iter := time_to_first_tokens_iter it; time_per_output_tokens_iter := time_per_output_tokens_iter it;
  waiting_lora_adapters := waiting_lora_adapters it; running_lora_adapters := running_lora_adapters it |}.

Definition set_adapters w r (it : IterationStats) : IterationStats := {|
  iteration_timestamp := iteration_timestamp it; it_num_generation_tokens := it_num_generation_tokens it;
  it_num_prompt_tokens := it_num_prompt_tokens it; num_preempted_reqs := num_preempted_reqs it;
  it_finished_requests := it_finished_requests it; max_num_generation_tokens_iter := max_num_generation_tokens_iter it; n_params_iter := n_params_iter it;
  time_to_first_tokens_iter := time_to_first_tokens_iter it; time_per_output_tokens_iter := time_per_output_tokens_iter it;
  waiting_lora_adapters := w; running_lora_adapters := r |}.

Definition time_since (it : IterationStats) (start : Z) : Z := (iteration_timestamp it - start)%Z.

(** The three records that an output updates together. *)
Definition stats_state : Type := IterationStats * RequestStateStats * LoRARequestStates.

(** One event of the engine core. *)
Definition update_from_event (req_id : string) (lora_name : option string) (s : stats_state) (e : EngineCoreEventType * Z) : result stats_state :=
  let '(it, rs, l) := s in
  match e with
  | (QUEUED, t) =>
      l ← lora_update (fun s => Ok {| waiting_requests := {[req_id]} ∪ waiting_requests s; running_requests := running_requests s |}) l lora_name;
      Ok (it, set_queued t rs, l)
  | (SCHEDULED, t) =>
      let rs := if (scheduled_ts rs =? 0)%Z then set_scheduled t rs else rs in
      l ← scheduled_request l lora_name req_id; Ok (it, rs, l)
  | (PREEMPTED_EVENT, _) =>
      l ← preempted_request l lora_name req_id; Ok (count_preempted it, rs, l)
  end.

Definition update_from_events (req_id : string) (lora_name : option string) (s : stats_state) (events : list (EngineCoreEventType * Z)) : result stats_state :=
  foldM (update_from_event req_id lora_name) s events.

(** [IterationStats.update_from_output] *)
Definition stats_from_output (req_id : string) (num_new : Z) (events : option (list (EngineCoreEventType * Z))) (engine_core_timestamp : Z)
    (is_prefilling : bool) (prompt_len : Z) (lora_name : option string) (s : stats_state) : result stats_state :=
  let '(it, rs, l) := s in
  _ ← py_assert (negb is_prefilling || (0 <? num_new)%Z);
  let it := count_tokens num_new (if is_prefilling then prompt_len else 0)
    (if is_prefilling then [time_since it (arrival_time rs)] else []) [] it in
  let rs := set_generated (num_generation_tokens rs + num_new)%Z rs in
  '(it, rs, l) ← update_from_events req_id lora_name (it, rs, l) (default [] events);
  let it := if is_prefilling then it else count_tokens 0 0 [] [(engine_core_timestamp - last_token_ts rs)%Z] it in
  let rs := if is_prefilling then set_first engine_core_timestamp rs else rs in
  Ok (it, set_last engine_core_timestamp rs, l).

Definition update_from_finished_request (reason : FinishReason) (num_prompt_tokens : Z) (max_tokens : option Z) (rs : RequestStateStats)
    (it : IterationStats) : IterationStats :=
  add_finished {|
    fs_finish_reason := reason;
    e2e_latency := time_since it (arrival_time rs);
    fs_num_prompt_tokens := num_prompt_tokens;
    fs_num_generation_tokens := num_generation_tokens rs;
    max_tokens_param := max_tokens;
    queued_time := (scheduled_ts rs - queued_ts rs)%Z;
    prefill_time := (first_token_ts rs - scheduled_ts rs)%Z;
    inference_time := (last_token_ts rs - scheduled_ts rs)%Z;
    decode_time := (last_token_ts rs - first_token_ts rs)%Z |} it.

(** The adapters that have requests overwrite their counts; the others keep them. *)
Definition update_iteration_stats (l : LoRARequestStates) (it : IterationStats) : IterationStats :=
  let nonempty (f : LoRAStats -> gset string) : gmap string Z :=
    omap (fun s => if decide (f s = ∅) then None else Some (Z.of_nat (size (f s)))) l in
  set_adapters (nonempty waiting_requests ∪ waiting_lora_adapters it) (nonempty running_requests ∪ running_lora_adapters it) it.
