(* ===== verification/RequestOutputs.v ===== *)
(** * Outputs of a request

    Model of [CompletionOutput] and [RequestOutput] in [vllm/outputs.py], of the
    collector that hands them to a consumer
    ([vllm/v1/engine/output_processor.py]), and of the parent of parallel samples
    ([vllm/v1/engine/parallel_sampling.py]).  A [RequestOutput] may hold [None] in
    the place of a completion: the aggregator of a parent starts with that. *)

From S2P Require Import Prelude PyDict StopChecker Request Detokenizer Logprobs RequestStats.
From stdpp Require Import pretty.

Inductive StopReason := StopToken (id : Z) | StopString (s : text).

Definition FINISH_REASON_STRINGS (r : FinishReason) : string :=
  match r with STOP => "stop" | LENGTH => "length" | ABORT => "abort" end.

Section Outputs.
Context `{LogprobValues}.

Record CompletionOutput := {
  co_index : nat;
  co_text : text;
  co_token_ids : list Z;
  co_cumulative_logprob : option lp;
  co_logprobs : option (list (gmap Z Logprob));
  co_finish_reason : option string;
  co_stop_reason : option StopReason;
}.

Definition co_finished (c : CompletionOutput) : bool := bool_decide (is_Some (co_finish_reason c)).

Record RequestOutput := {
  ro_request_id : string;
  ro_prompt : option text;
  ro_prompt_token_ids : list Z;
  ro_prompt_logprobs : option (list (option (gmap Z Logprob)));
  ro_outputs : list (option CompletionOutput);
  ro_finished : bool;
}.

(** ** [RequestOutput.add] *)

(** Merging a completion with the next one of the same index. *)
Definition merge_completion (c next : CompletionOutput) : result CompletionOutput :=
  l ← match co_logprobs next with
      | None | Some [] => Ok (co_logprobs c)
      | Some l => l0 ← of_option AssertionError (co_logprobs c); Ok (Some (l0 ++ l))
      end;
  Ok {| co_index := co_index c; co_text := co_text c ++ co_text next; co_token_ids := co_token_ids c ++ co_token_ids next;
        co_cumulative_logprob := co_cumulative_logprob next; co_logprobs := l; co_finish_reason := co_finish_reason next;
        co_stop_reason := co_stop_reason next |}.

(** The inner loop with its [else]. *)
Fixpoint add_completion (aggregate : bool) (outs : list (option CompletionOutput)) (next : option CompletionOutput) :
    result (list (option CompletionOutput)) :=
  match outs with
  | [] => Ok [next]
  | o :: outs =>
      c ← of_option AttributeError o;
      x ← of_option AttributeError next;
      if co_index c =? co_index x then
        if aggregate then m ← merge_completion c x; Ok (Some m :: outs) else Ok (next :: outs)
      else outs ← add_completion aggregate outs next; Ok (o :: outs)
  end.

Definition ro_add (o next : RequestOutput) (aggregate : bool) : result RequestOutput :=
  outs ← foldM (add_completion aggregate) (ro_outputs o) (ro_outputs next);
  Ok {| ro_request_id := ro_request_id o; ro_prompt := ro_prompt o; ro_prompt_token_ids := ro_prompt_token_ids o;
        ro_prompt_logprobs := ro_prompt_logprobs o; ro_outputs := outs; ro_finished := ro_finished o || ro_finished next |}.

(** ** [RequestOutputCollector] *)

Record RequestOutputCollector := {
  aggregate : bool;
  output : option (RequestOutput + exn);
  ready : bool;
}.

Definition collector_init (kind : RequestOutputKind) : RequestOutputCollector :=
  {| aggregate := bool_decide (kind = DELTA); output := None; ready := false |}.

Definition put (q : RequestOutputCollector) (o : RequestOutput + exn) : result RequestOutputCollector :=
  let replaced := {| aggregate := aggregate q; output := Some o; ready := true |} in
  match output q, o with
  | None, _ | _, inr _ => Ok replaced
  | Some (inl old), inl o => m ← ro_add old o (aggregate q); Ok {| aggregate := aggregate q; output := Some (inl m); ready := ready q |}
  | Some (inr _), inl _ => Ok q
  end.

Definition drained (q : RequestOutputCollector) : RequestOutputCollector := {| aggregate := aggregate q; output := None; ready := false |}.

(** [get_nowait]; the raised exception is part of the answer. *)
Definition get_nowait (q : RequestOutputCollector) : RequestOutputCollector * result (option RequestOutput) :=
  match output q with
  | None => (q, Ok None)
  | Some (inl o) => (drained q, Ok (Some o))
  | Some (inr e) => (drained q, Err e)
  end.

(** [get] resumes when there is an output; until then it waits ([None]). *)
Definition get (q : RequestOutputCollector) : option (RequestOutputCollector * result RequestOutput) :=
  match output q with
  | None => None
  | Some (inl o) => Some (drained q, Ok o)
  | Some (inr e) => Some (drained q, Err e)
  end.

(** ** [ParentRequest] *)

Record ParentRequest := {
  pr_request_id : string;
  pr_sampling_params : OutputParams;
  child_requests : gset string;
  output_aggregator : list (option CompletionOutput);
  max_num_generation_tokens : Z;
  cached_child_sampling_params : option OutputParams;
}.

Definition parent_init (id : string) (p : OutputParams) : ParentRequest :=
  {| pr_request_id := id; pr_sampling_params := p; child_requests := ∅;
     output_aggregator := if bool_decide (output_kind p = FINAL_ONLY) then replicate (sp_n p) None else [];
     max_num_generation_tokens := 0; cached_child_sampling_params := None |}.

Definition set_children c (p : ParentRequest) : ParentRequest :=
  {| pr_request_id := pr_request_id p; pr_sampling_params := pr_sampling_params p; child_requests := c; output_aggregator := output_aggregator p;
     max_num_generation_tokens := max_num_generation_tokens p; cached_child_sampling_params := cached_child_sampling_params p |}.
Definition set_aggregator a (p : ParentRequest) : ParentRequest :=
  {| pr_request_id := pr_request_id p; pr_sampling_params := pr_sampling_params p; child_requests := child_requests p; output_aggregator := a;
     max_num_generation_tokens := max_num_generation_tokens p; cached_child_sampling_params := cached_child_sampling_params p |}.
Definition set_max_generated k (p : ParentRequest) : ParentRequest :=
  {| pr_request_id := pr_request_id p; pr_sampling_params := pr_sampling_params p; child_requests := child_requests p;
     output_aggregator := output_aggregator p; max_num_generation_tokens := k; cached_child_sampling_params := cached_child_sampling_params p |}.
Definition set_cached c (p : ParentRequest) : ParentRequest :=
  {| pr_request_id := pr_request_id p; pr_sampling_params := pr_sampling_params p; child_requests := child_requests p;
     output_aggregator := output_aggregator p; max_num_generation_tokens := max_num_generation_tokens p; cached_child_sampling_params := c |}.

(** The parent's parameters for one sample, with another seed. *)
Definition child_params (p : OutputParams) (s : option Z) : OutputParams :=
  {| sp_n := 1; seed := s; stop := stop p; include_stop_str_in_output := include_stop_str_in_output p; detokenize := detokenize p;
     skip_special_tokens := skip_special_tokens p; spaces_between_special_tokens := spaces_between_special_tokens p;
     out_logprobs := out_logprobs p; out_prompt_logprobs := out_prompt_logprobs p; out_max_tokens := out_max_tokens p; output_kind := output_kind p |}.

Definition get_child_sampling_params (p : ParentRequest) (index : nat) : ParentRequest * OutputParams :=
  match cached_child_sampling_params p with
  | Some c => (p, c)
  | None =>
      match seed (pr_sampling_params p) with
      | None => let c := child_params (pr_sampling_params p) None in (set_cached (Some c) p, c)
      | Some s => (p, child_params (pr_sampling_params p) (Some (s + Z.of_nat index)%Z))
      end
  end.

Definition child_id (index : nat) (id : string) : string := pretty index +:+ "_" +:+ id.

Definition get_child_info (p : ParentRequest) (index : nat) : ParentRequest * string * OutputParams :=
  let child_req_id := child_id index (pr_request_id p) in
  let p := set_children ({[child_req_id]} ∪ child_requests p) p in
  let '(p, c) := get_child_sampling_params p index in
  (p, child_req_id, c).

Definition get_outputs (p : ParentRequest) (child_request_id : string) (completion_output : CompletionOutput) :
    result (ParentRequest * (string * list (option CompletionOutput) * bool)) :=
  p ← (if co_finished completion_output then c ← set_remove child_request_id (child_requests p); Ok (set_children c p) else Ok p);
  '(p, outputs) ←
    (if bool_decide (output_kind (pr_sampling_params p) = FINAL_ONLY) then
       if co_index completion_output <? length (output_aggregator p) then
         let p := set_aggregator (<[co_index completion_output := Some completion_output]> (output_aggregator p)) p in
         Ok (p, if bool_decide (child_requests p = ∅) then output_aggregator p else [])
       else Err IndexError
     else Ok (p, [Some completion_output]));
  Ok (p, (pr_request_id p, outputs, bool_decide (child_requests p = ∅))).

(** [observe_finished_request]: the parent afterwards, and the statistics. *)
Definition observe_finished_request (parent_req : option ParentRequest) (it : IterationStats) (num_generation_tokens : Z) :
    option ParentRequest * IterationStats :=
  match parent_req with
  | None => (None, add_sizes num_generation_tokens 1 it)
  | Some p =>
      let k := Z.max num_generation_tokens (max_num_generation_tokens p) in
      let p := set_max_generated k p in
      (Some p, if bool_decide (child_requests p = ∅) then add_sizes k (Z.of_nat (sp_n (pr_sampling_params p))) it else it)
  end.

(** ** Lemmas: the collector *)

(** An output of the output processor: completions of distinct samples, all with
    log probabilities or all without. *)
Definition output_ok (with_logprobs : bool) (o : RequestOutput) : Prop :=
  exists cs, ro_outputs o = Some <$> cs /\ NoDup (co_index <$> cs) /\ Forall (fun c => is_Some (co_logprobs c) <-> with_logprobs = true) cs.

(** What an output adds to sample [k], in one of the growing fields. *)
Definition at_index {A} (f : CompletionOutput -> list A) (k : nat) (outs : list (option CompletionOutput)) : list A :=
  mjoin ((fun o => match o with Some c => if decide (co_index c = k) then f c else [] | None => [] end) <$> outs).

(** The fields that merging appends. *)
Definition grows {A} (f : CompletionOutput -> list A) : Prop := forall c x m, merge_completion c x = Ok m -> f m = f c ++ f x.

Lemma text_grows : grows co_text.
Proof. intros c x m E0. unfold merge_completion in E0. apply bind_ok in E0 as (l & _ & [= <-]). done. Qed.
Lemma token_ids_grow : grows co_token_ids.
Proof. intros c x m E0. unfold merge_completion in E0. apply bind_ok in E0 as (l & _ & [= <-]). done. Qed.
Lemma logprobs_grow : grows (fun c => default [] (co_logprobs c)).
Proof.
  intros c x m E0. unfold merge_completion in E0. apply bind_ok in E0 as (l & Hl & [= <-]). cbn [co_logprobs].
  destruct (co_logprobs x) as [[|y l0]|]; try (injection Hl as <-; by rewrite app_nil_r).
  apply bind_ok in Hl as (l1 & El & Hl). injection Hl as <-. apply of_option_ok in El. by rewrite El.
Qed.

Lemma merge_total b c x : (is_Some (co_logprobs c) <-> b = true) -> (is_Some (co_logprobs x) <-> b = true) ->
  exists m, merge_completion c x = Ok m /\ co_index m = co_index c /\ (is_Some (co_logprobs m) <-> b = true).
Proof.
  intros Hc Hx. unfold merge_completion. destruct (co_logprobs x) as [[|y l]|] eqn:Ex.
  - by eexists.
  - destruct (co_logprobs c) as [l0|]; [|destruct Hx as [Hx _], Hc as [_ Hc]; destruct (Hc (Hx ltac:(done))); done].
    eexists. split; [reflexivity|]. split; [done|]. cbn. split; [|done]. intros _. by apply Hc.
  - by eexists.
Qed.

Lemma at_index_cons {A} (f : CompletionOutput -> list A) k c outs :
  at_index f k (Some c :: outs) = (if decide (co_index c = k) then f c else []) ++ at_index f k outs.
Proof. done. Qed.

Lemma at_index_none {A} (f : CompletionOutput -> list A) k cs : k ∉ co_index <$> cs -> at_index f k (Some <$> cs) = [].
Proof.
  induction cs as [|c cs IH]; [done|]. rewrite fmap_cons, not_elem_of_cons. intros [Hne Hin]. rewrite fmap_cons, at_index_cons.
  rewrite decide_False by done. by apply IH.
Qed.

(** One completion of the next output. *)
Lemma add_completion_ok b cs x : NoDup (co_index <$> cs) -> Forall (fun c => is_Some (co_logprobs c) <-> b = true) (x :: cs) ->
  exists cs', add_completion true (Some <$> cs) (Some x) = Ok (Some <$> cs') /\ NoDup (co_index <$> cs') /\
    (co_index <$> cs') = (if decide (co_index x ∈ co_index <$> cs) then co_index <$> cs else (co_index <$> cs) ++ [co_index x]) /\
    Forall (fun c => is_Some (co_logprobs c) <-> b = true) cs' /\
    forall A (f : CompletionOutput -> list A) k, grows f ->
      at_index f k (Some <$> cs') = at_index f k (Some <$> cs) ++ (if decide (co_index x = k) then f x else []).
Proof.
  intros Hnd [Hx Hcs]%Forall_cons. induction cs as [|c cs IH]; cbn [add_completion fmap list_fmap].
  - exists [x]. split; [done|]. split; [apply NoDup_singleton|]. split; [rewrite decide_False; [done|apply not_elem_of_nil]|].
    split; [by constructor|]. intros A f k _. cbn. by rewrite app_nil_r.
  - cbn [of_option mbind result_bind]. rewrite fmap_cons, NoDup_cons in Hnd. destruct Hnd as [Hc Hnd].
    apply Forall_cons in Hcs as [Hlc Hcs]. destruct (Nat.eqb_spec (co_index c) (co_index x)) as [Ei|Ei].
    + destruct (merge_total b c x Hlc Hx) as (m & Em & Hi & Hm). rewrite Em. cbn [mbind result_bind]. exists (m :: cs).
      split; [done|]. rewrite !fmap_cons, Hi. split; [by apply NoDup_cons|]. split; [rewrite decide_True; [done|rewrite <-Ei; by left]|].
      split; [by constructor|]. intros A f k Hf. rewrite !at_index_cons, Hi, <-Ei.
      destruct (decide (co_index c = k)) as [<-|]; [|by rewrite app_nil_r].
      rewrite at_index_none by done. rewrite !app_nil_r. by apply Hf.
    + destruct (IH Hnd Hcs) as (cs' & -> & Hnd' & Hi & Hl & Hf). cbn [mbind result_bind]. exists (c :: cs'). split; [done|].
      assert (Hin : co_index c ∉ co_index <$> cs').
      { rewrite Hi. case_decide; [done|]. intros [Hx'|Hx'%list_elem_of_singleton]%elem_of_app; done. }
      rewrite !fmap_cons. split; [by apply NoDup_cons|]. split.
      { rewrite Hi. destruct (decide (co_index x ∈ co_index <$> cs)).
        - rewrite decide_True; [done|by right].
        - rewrite decide_False; [done|]. by intros [|]%elem_of_cons. }
      split; [by constructor|]. intros A f k Hg. rewrite !at_index_cons, Hf by done. by rewrite app_assoc.
Qed.

Lemma ro_add_ok b o next : output_ok b o -> output_ok b next ->
  exists m, ro_add o next true = Ok m /\ output_ok b m /\ ro_finished m = ro_finished o || ro_finished next /\
    forall A (f : CompletionOutput -> list A) k, grows f -> at_index f k (ro_outputs m) = at_index f k (ro_outputs o) ++ at_index f k (ro_outputs next).
Proof.
  intros (cs & Ho & Hnd & Hl) (xs & Hn & _ & Hlx). unfold ro_add. rewrite Hn. clear Hn.
  assert (H1 : exists cs', foldM (add_completion true) (Some <$> cs) (Some <$> xs) = Ok (Some <$> cs') /\ NoDup (co_index <$> cs') /\
    Forall (fun c => is_Some (co_logprobs c) <-> b = true) cs' /\
    forall A (f : CompletionOutput -> list A) k, grows f -> at_index f k (Some <$> cs') = at_index f k (Some <$> cs) ++ at_index f k (Some <$> xs)).
  { clear Ho o. revert cs Hnd Hl. induction xs as [|x xs IH]; intros cs Hnd Hl; cbn [fmap list_fmap foldM].
    - exists cs. repeat split; try done. intros A f k _. by rewrite app_nil_r.
    - apply Forall_cons in Hlx as [Hx Hlx]. destruct (add_completion_ok b cs x Hnd) as (c1 & E1 & Hn1 & _ & Hl1 & Hf1); [by constructor|].
      rewrite E1. cbn [mbind result_bind]. destruct (IH Hlx c1 Hn1 Hl1) as (c2 & -> & Hn2 & Hl2 & Hf2). exists c2.
      repeat split; try done. intros A f k Hg. rewrite Hf2, Hf1 by done. by rewrite <-app_assoc. }
  destruct H1 as (cs' & E1 & Hn1 & Hl1 & Hf1). rewrite Ho, E1. cbn [mbind result_bind]. eexists. split; [reflexivity|].
  split; [by exists cs'|]. split; [done|]. intros A f k Hg. cbn [ro_outputs]. by apply Hf1.
Qed.

(** Puts ([Some]) and gets ([None]) in any order: the outputs that were got. *)
Fixpoint collect (q : RequestOutputCollector) (ops : list (option RequestOutput)) : result (RequestOutputCollector * list RequestOutput) :=
  match ops with
  | [] => Ok (q, [])
  | Some o :: ops => q ← put q (inl o); collect q ops
  | None :: ops =>
      let '(q, r) := get_nowait q in
      o ← r; '(q, got) ← collect q ops; Ok (q, option_list o ++ got)
  end.

Definition puts (ops : list (option RequestOutput)) : list RequestOutput := omap id ops.

Definition pending (q : RequestOutputCollector) : list RequestOutput :=
  match output q with Some (inl o) => [o] | _ => [] end.

Definition field_at {A} (f : CompletionOutput -> list A) (k : nat) (os : list RequestOutput) : list A := mjoin ((fun o => at_index f k (ro_outputs o)) <$> os).

Lemma collect_ok b ops : forall q, aggregate q = true -> Forall (output_ok b) (pending q) -> (forall e, output q <> Some (inr e)) ->
  Forall (output_ok b) (puts ops) ->
  exists q' got, collect q ops = Ok (q', got) /\
    (forall A (f : CompletionOutput -> list A) k, grows f -> field_at f k (got ++ pending q') = field_at f k (pending q ++ puts ops)) /\
    existsb ro_finished (got ++ pending q') = existsb ro_finished (pending q ++ puts ops).
Proof.
  induction ops as [|[o|] ops IH]; intros q Ha Hp He Hops; cbn [collect].
  - exists q, []. split; [done|]. cbn. by rewrite app_nil_r.
  - cbn in Hops. apply Forall_cons in Hops as [Ho Hops]. unfold put. destruct (output q) as [[old|e]|] eqn:Eq.
    + rewrite Ha. unfold pending in *. rewrite Eq in *. apply Forall_cons in Hp as [Hold _].
      destruct (ro_add_ok b old o Hold Ho) as (m & -> & Hm & Hfin & Hf). cbn [mbind result_bind].
      destruct (IH {| aggregate := true; output := Some (inl m); ready := ready q |}) as (q' & got & E1 & Hg & Hb); cbn; [done|by constructor|done|done|].
      exists q', got. split; [exact E1|]. cbn [output] in Hg, Hb. split.
      * intros A f k Hgr. rewrite (Hg A f k Hgr). unfold field_at. cbn. rewrite (Hf A f k Hgr). by rewrite <-app_assoc.
      * rewrite Hb. cbn. rewrite Hfin. by rewrite orb_assoc.
    + by destruct (He e).
    + cbn [mbind result_bind]. destruct (IH {| aggregate := aggregate q; output := Some (inl o); ready := true |}) as (q' & got & E1 & Hg & Hb); cbn; [done|by constructor|done|done|].
      exists q', got. split; [exact E1|]. unfold pending in Hg, Hb |- *. rewrite Eq. cbn [output app] in Hg, Hb |- *. split; [exact Hg|exact Hb].
  - unfold get_nowait. destruct (output q) as [[old|e]|] eqn:Eq.
    + cbn [mbind result_bind]. unfold pending at 1 in Hp. rewrite Eq in Hp.
      destruct (IH (drained q)) as (q' & got & E1 & Hg & Hb); cbn; [done|constructor|done|done|].
      rewrite E1. cbn. exists q', (old :: got). split; [done|]. unfold pending at 2 4. rewrite Eq. cbn [app]. split.
      * intros A f k Hgr. unfold field_at in *. cbn. f_equal. by apply Hg.
      * cbn. f_equal. exact Hb.
    + by destruct (He e).
    + cbn [mbind result_bind]. rewrite <-Eq in He. destruct (IH q Ha Hp He Hops) as (q' & got & E1 & Hg & Hb). rewrite E1. cbn. exists q', got. split; [done|]. split; [exact Hg|exact Hb].
Qed.

(** Merging loses nothing: however the consumer's gets fall between the puts,
    a streaming collector raises nothing, and for every sample the texts, the
    token ids and the log probabilities of what was got, followed by what is
    still in the collector, are those of what was put, in order; a finished
    output is seen exactly if one was put. *)
Theorem collector_keeps_stream b ops : Forall (output_ok b) (puts ops) ->
  exists q got, collect (collector_init DELTA) ops = Ok (q, got) /\
    (forall k, field_at co_text k (got ++ pending q) = field_at co_text k (puts ops) /\
      field_at co_token_ids k (got ++ pending q) = field_at co_token_ids k (puts ops) /\
      field_at (fun c => default [] (co_logprobs c)) k (got ++ pending q) = field_at (fun c => default [] (co_logprobs c)) k (puts ops)) /\
    existsb ro_finished (got ++ pending q) = existsb ro_finished (puts ops).
Proof.
  intros Hops. destruct (collect_ok b ops (collector_init DELTA)) as (q & got & E1 & Hg & Hb); [done|constructor|done|done|].
  exists q, got. split; [done|]. split; [|exact Hb]. intros k.
  split; [by apply Hg, text_grows|]. split; [by apply Hg, token_ids_grow|by apply Hg, logprobs_grow].
Qed.

(** ** Lemmas: parallel samples *)

Lemma append_cancel_r (a b t : string) : a +:+ t = b +:+ t -> a = b.
Proof.
  assert (Hlen : forall a b : string, String.length (a +:+ b) = String.length a + String.length b).
  { intros x y. induction x as [|? x IHx]; [done|]. cbn. by rewrite <-IHx. }
  revert b. induction a as [|x a IH]; intros [|y b] E0; [done| | |].
  - apply (f_equal String.length) in E0. rewrite !Hlen in E0. cbn in E0. lia.
  - apply (f_equal String.length) in E0. rewrite !Hlen in E0. cbn in E0. lia.
  - cbn in E0. injection E0 as -> E0. f_equal. by apply IH.
Qed.

#[export] Instance child_id_inj id : Inj (=) (=) (fun i => child_id i id).
Proof. intros i j E0. unfold child_id in E0. apply append_cancel_r in E0. by apply (inj pretty) in E0. Qed.

Definition child_ids (id : string) (l : list nat) : gset string := list_to_set ((fun i => child_id i id) <$> l).

(** The loop of [add_request] over the samples, as far as the parent goes. *)
Definition register (p : ParentRequest) (k : nat) : ParentRequest := foldl (fun p i => (get_child_info p i).1.1) p (seq 0 k).

(** The samples report in some order. *)
Fixpoint report (p : ParentRequest) (cs : list CompletionOutput) : result (ParentRequest * list (string * list (option CompletionOutput) * bool)) :=
  match cs with
  | [] => Ok (p, [])
  | c :: cs =>
      '(p, a) ← get_outputs p (child_id (co_index c) (pr_request_id p)) c;
      '(p, answers) ← report p cs;
      Ok (p, a :: answers)
  end.

(** [seen] have reported, those with the indices [rest] have not. *)
Record parent_ok (id : string) (pms : OutputParams) (seen : list CompletionOutput) (rest : list nat) (p : ParentRequest) : Prop := {
  po_id : pr_request_id p = id;
  po_params : pr_sampling_params p = pms;
  po_children : child_requests p = child_ids id rest;
  po_length : length (output_aggregator p) = sp_n pms;
  po_seen : forall c, c ∈ seen -> output_aggregator p !! co_index c = Some (Some c);
}.

Lemma get_child_info_ok p i : let '(p', id, pms) := get_child_info p i in
  pr_request_id p' = pr_request_id p /\ pr_sampling_params p' = pr_sampling_params p /\ output_aggregator p' = output_aggregator p /\
  child_requests p' = {[child_id i (pr_request_id p)]} ∪ child_requests p /\ id = child_id i (pr_request_id p).
Proof.
  unfold get_child_info, get_child_sampling_params. cbn. destruct (cached_child_sampling_params p); [done|]. by destruct (seed _).
Qed.

Lemma register_ok id pms k : output_kind pms = FINAL_ONLY -> parent_ok id pms [] (seq 0 k) (register (parent_init id pms) k).
Proof.
  intros Hk. induction k as [|k IH].
  - split; cbn; [done|done|done| |by intros ? ?%elem_of_nil]. rewrite bool_decide_eq_true_2 by done. apply length_replicate.
  - unfold register. rewrite seq_S, foldl_app. cbn [foldl Nat.add]. fold (register (parent_init id pms) k).
    pose proof (get_child_info_ok (register (parent_init id pms) k) k) as Hg.
    destruct (get_child_info _ _) as [[p' cid] c]. destruct Hg as (H1 & H2 & H3 & H4 & _). destruct IH as [I1 I2 I3 I4 _].
    split; cbn [fst]; [by rewrite H1|by rewrite H2| |by rewrite H3|by intros ? ?%elem_of_nil].
    rewrite H4, I3, I1. unfold child_ids. rewrite fmap_app, list_to_set_app_L. cbn. set_solver.
Qed.

Lemma child_ids_pop id i l : i ∉ l -> child_ids id (i :: l) ∖ {[child_id i id]} = child_ids id l.
Proof.
  intros Hi. apply set_eq. intros x. unfold child_ids. rewrite elem_of_difference, !elem_of_list_to_set, elem_of_singleton, fmap_cons, elem_of_cons.
  split; [intros [[->|Hx] Hn]; done|]. intros Hx. split; [by right|]. intros ->. apply list_elem_of_fmap in Hx as (j & E0 & Hj).
  apply (inj (fun i => child_id i id)) in E0. by subst.
Qed.

Lemma child_ids_empty id l : child_ids id l = ∅ <-> l = [].
Proof. destruct l; cbn; [done|]. unfold child_ids. cbn. split; [|done]. intros E0. set_solver. Qed.

(** One sample reports. *)
Lemma get_outputs_ok id pms seen rest p c : output_kind pms = FINAL_ONLY -> parent_ok id pms seen (co_index c :: rest) p ->
  co_finished c = true -> co_index c < sp_n pms -> co_index c ∉ rest -> co_index c ∉ co_index <$> seen ->
  exists p', get_outputs p (child_id (co_index c) (pr_request_id p)) c =
    Ok (p', (id, (if decide (rest = []) then output_aggregator p' else []), bool_decide (rest = []))) /\
    parent_ok id pms (c :: seen) rest p'.
Proof.
  intros Hk [H1 H2 H3 H4 H5] Hf Hi Hr Hs. unfold get_outputs. rewrite Hf, H1, H3.
  assert (Hpop : set_remove (child_id (co_index c) id) (child_ids id (co_index c :: rest)) = Ok (child_ids id rest)).
  { unfold set_remove. rewrite decide_True by (apply elem_of_list_to_set; by left). by rewrite child_ids_pop. }
  rewrite Hpop. cbn [mbind result_bind]. cbn [pr_sampling_params set_children output_aggregator]. rewrite H2, bool_decide_eq_true_2 by done.
  rewrite H4, (proj2 (Nat.ltb_lt _ _)) by done. cbn [mbind result_bind child_requests set_aggregator set_children pr_request_id output_aggregator]. rewrite H1.
  eexists. split.
  - f_equal. f_equal. f_equal; [f_equal|].
    + destruct (decide (rest = [])) as [->|Hne]; [by rewrite bool_decide_eq_true_2|].
      rewrite bool_decide_eq_false_2; [done|]. by rewrite child_ids_empty.
    + apply bool_decide_ext, child_ids_empty.
  - split; cbn [pr_request_id pr_sampling_params child_requests output_aggregator set_children set_aggregator]; [done|done|done|by rewrite length_insert|].
    intros c' [->|Hc']%elem_of_cons.
    + apply list_lookup_insert_eq. by rewrite H4.
    + rewrite list_lookup_insert_ne; [by apply H5|]. intros E0. apply Hs. rewrite E0. apply list_elem_of_fmap. by exists c'.
Qed.

Lemma report_ok id pms cs : output_kind pms = FINAL_ONLY -> forall seen p, parent_ok id pms seen (co_index <$> cs) p -> cs <> [] ->
  Forall (fun c => co_finished c = true /\ co_index c < sp_n pms) cs -> NoDup (co_index <$> (cs ++ seen)) ->
  exists p' outs, report p cs = Ok (p', replicate (pred (length cs)) (id, [], false) ++ [(id, outs, true)]) /\
    length outs = sp_n pms /\ (forall c, c ∈ cs ++ seen -> outs !! co_index c = Some (Some c)) /\ child_requests p' = ∅.
Proof.
  intros Hk. induction cs as [|c cs IH]; [done|]. intros seen p Hp _ [[Hf Hi] Hcs]%Forall_cons Hnd. cbn [report].
  cbn [app] in Hnd. rewrite fmap_cons, NoDup_cons, fmap_app in Hnd. destruct Hnd as [Hn Hnd].
  rewrite fmap_cons in Hp. destruct (get_outputs_ok id pms seen _ p c Hk Hp Hf Hi) as (p1 & -> & Hp1);
    [intros ?; apply Hn, elem_of_app; by left|intros ?; apply Hn, elem_of_app; by right|]. cbn [mbind result_bind].
  destruct (decide (cs = [])) as [->|Hne].
  - cbn [report mbind result_bind fmap list_fmap]. exists p1, (output_aggregator p1). split; [done|]. split; [apply (po_length _ _ _ _ _ Hp1)|].
    split; [intros c' Hc'; by apply (po_seen _ _ _ _ _ Hp1)|]. apply (po_children _ _ _ _ _ Hp1).
  - destruct (IH (c :: seen) p1 Hp1 Hne Hcs) as (p' & outs & -> & Hl & Ho & Hc).
    { rewrite fmap_app, fmap_cons, <-Permutation_middle. apply NoDup_cons. done. }
    exists p', outs. cbn [mbind result_bind]. assert (Hm : (co_index <$> cs) <> []) by (by destruct cs).
    rewrite decide_False, bool_decide_eq_false_2 by done. cbn [length pred]. split.
    + f_equal. f_equal. destruct cs; [done|]. done.
    + split; [done|]. split; [|done]. intros c' Hc'. apply Ho. rewrite <-Permutation_middle. exact Hc'.
Qed.

(** Parallel samples that are not streamed are returned together: when the
    samples of a parent report in any order, the parent raises nothing, holds
    every answer back until the last one, and then returns all of them, each in
    the place of its index, as the only finished output. *)
Theorem parallel_samples_aggregate id pms cs : output_kind pms = FINAL_ONLY -> 0 < sp_n pms ->
  co_index <$> cs ≡ₚ seq 0 (sp_n pms) -> Forall (fun c => co_finished c = true) cs ->
  exists p outs, report (register (parent_init id pms) (sp_n pms)) cs =
    Ok (p, replicate (sp_n pms - 1) (id, [], false) ++ [(id, outs, true)]) /\
    length outs = sp_n pms /\ (forall c, c ∈ cs -> outs !! co_index c = Some (Some c)) /\ child_requests p = ∅.
Proof.
  intros Hk Hn Hperm Hf. assert (Hlen : length cs = sp_n pms) by (rewrite <-(length_fmap co_index), Hperm; apply length_seq).
  assert (Hcs : cs <> []) by (intros ->; cbn in *; lia).
  destruct (report_ok id pms cs Hk [] (register (parent_init id pms) (sp_n pms))) as (p & outs & E1 & Hl & Ho & Hc).
  - pose proof (register_ok id pms (sp_n pms) Hk) as [H1 H2 H3 H4 _]. split; [done|done| |done|by intros ? ?%elem_of_nil].
    rewrite H3. apply set_eq. intros x. unfold child_ids. rewrite !elem_of_list_to_set. by rewrite Hperm.
  - done.
  - apply Forall_forall. intros c Hc. split; [rewrite Forall_forall in Hf; by apply Hf|].
    assert (Hin : co_index c ∈ seq 0 (sp_n pms)) by (rewrite <-Hperm; apply list_elem_of_fmap; by exists c). apply elem_of_seq in Hin. lia.
  - rewrite app_nil_r, Hperm. apply NoDup_seq.
  - exists p, outs. rewrite Hlen in E1. replace (sp_n pms - 1) with (pred (sp_n pms)) by lia. split; [done|]. split; [done|].
    split; [|done]. intros c Hin. apply Ho. by rewrite app_nil_r.
Qed.
End Outputs.

(** ** Concrete runs *)

Module SamplesDemo.
#[local] Existing Instance PromptDemo.z_values.

Definition completion (i : nat) (t : string) (reason : option string) : CompletionOutput :=
  {| co_index := i; co_text := str t; co_token_ids := [Z.of_nat i]; co_cumulative_logprob := None; co_logprobs := None; co_finish_reason := reason; co_stop_reason := None |}.
Definition delta (i : nat) (t : string) : RequestOutput :=
  {| ro_request_id := "a"; ro_prompt := None; ro_prompt_token_ids := [1]%Z; ro_prompt_logprobs := None; ro_outputs := [Some (completion i t None)]; ro_finished := false |}.
Definition ops : list (option RequestOutput) := [Some (delta 0 "a"); Some (delta 1 "x"); Some (delta 0 "b"); None; Some (delta 1 "y")].
Definition params (k : RequestOutputKind) : OutputParams := {| sp_n := 2; seed := Some 7%Z; stop := []; include_stop_str_in_output := false; detokenize := true;
  skip_special_tokens := true; spaces_between_special_tokens := true; out_logprobs := None; out_prompt_logprobs := None; out_max_tokens := None; output_kind := k |}.
Definition samples : list CompletionOutput := [completion 1 "one" (Some "stop"); completion 0 "zero" (Some "length")].

(** If the first sample reports before the second one is registered, which the
    awaits of [AsyncLLM.add_request] allow, the parent takes it for the last one:
    it answers at once, finished, with nothing in the place of the second. *)
Lemma early_sample_finishes :
  let p := (get_child_info (parent_init "a" (params FINAL_ONLY)) 0).1.1 in
  match get_outputs p (child_id 0 "a") (completion 0 "zero" (Some "length")) with
  | Ok (_, (_, outs, finished)) => finished = true /\ outs = [Some (completion 0 "zero" (Some "length")); None]
  | Err _ => False
  end.
Proof. vm_compute. split; reflexivity. Qed.
End SamplesDemo.

Lemma collector_keeps_stream_witness :
  exists q got, collect (H := PromptDemo.z_values) (collector_init DELTA) SamplesDemo.ops = Ok (q, got) /\
    field_at co_text 0 (got ++ pending q) = str "ab" /\ field_at co_text 1 (got ++ pending q) = str "xy".
Proof.
  assert (Hops : Forall (output_ok (H := PromptDemo.z_values) false) (puts SamplesDemo.ops)).
  { repeat (constructor; [eexists [_]; split; [reflexivity|]; split; [apply NoDup_singleton|repeat constructor; [by intros []|done]]|]). constructor. }
  destruct (collector_keeps_stream (H := PromptDemo.z_values) false SamplesDemo.ops Hops) as (q & got & E1 & Hk & _).
  exists q, got. split; [exact E1|]. destruct (Hk 0) as [H0 _], (Hk 1) as [H1 _]. split; [rewrite H0; reflexivity|rewrite H1; reflexivity].
Defined.

Lemma parallel_samples_aggregate_witness :
  exists p outs, report (H := PromptDemo.z_values) (register (parent_init "a" (SamplesDemo.params FINAL_ONLY)) 2) SamplesDemo.samples =
    Ok (p, [("a", [], false); ("a", outs, true)]) /\ outs !! 0 = Some (Some (SamplesDemo.completion 0 "zero" (Some "length"))).
Proof.
  assert (Hp : co_index <$> SamplesDemo.samples ≡ₚ seq 0 (sp_n (SamplesDemo.params FINAL_ONLY))) by (cbn; apply Permutation_swap).
  assert (Hf : Forall (fun c => co_finished c = true) SamplesDemo.samples) by (repeat constructor).
  assert (Hn : 0 < sp_n (SamplesDemo.params FINAL_ONLY)) by (cbn; lia).
  destruct (parallel_samples_aggregate (H := PromptDemo.z_values) "a" (SamplesDemo.params FINAL_ONLY) SamplesDemo.samples eq_refl Hn Hp Hf)
    as (p & outs & E1 & _ & Ho & _).
  exists p, outs. split; [exact E1|]. apply (Ho (SamplesDemo.completion 0 "zero" (Some "length"))). right. left.
Defined.
