(* ===== verification/OutputProcessor.v ===== *)
(** * The output processor

    Model of [RequestState] and [OutputProcessor] in
    [vllm/v1/engine/output_processor.py]: the front end's table of requests, which
    turns the outputs of the engine core into [RequestOutput]s.  Parents and
    collectors are shared between requests, so they live in stores and a request
    holds references. *)

From S2P Require Import Prelude PyDict StopChecker Request Scheduler Detokenizer Logprobs RequestStats RequestOutputs.

(** What [tolist] and the named tuples of the engine's log probabilities give. *)
Class LogprobsView (E : Env) (L : LogprobValues) := {
  lists_view : logprobs_lists -> LogprobsLists;
  tensors_view : logprobs_tensors -> LogprobsTensors;
}.

Section Processor.
Context `{E : Env} `{L : LogprobValues} `{!LogprobsView E L} `{T : Tokenizer tokenizer}.
(** [TokenizerGroup.get_lora_tokenizer] *)
Context (get_lora_tokenizer : option string -> tokenizer).
(** The order in which Python visits a set of ids. *)
Context (list_set : gset string -> list string).

(** ** [RequestState] *)

Record RequestState := {
  rs_request_id : string;
  parent_req : option nat;
  request_index : nat;
  lora_name : option string;
  rs_output_kind : RequestOutputKind;
  rs_prompt : option text;
  rs_prompt_token_ids : list Z;
  logprobs_processor : LogprobsProcessor (tokenizer := tokenizer);
  detokenizer : IncrementalDetokenizer tokenizer;
  rs_max_tokens : option Z;
  is_prefilling : bool;
  queue : option nat;
  stats : option RequestStateStats;
}.

Definition from_new_request (request : FrontRequest) (prompt : option text) (parent : option nat) (index : nat) (q : option nat) (log_stats : bool) : RequestState :=
  let p := f_params request in
  let tk := if detokenize p then Some (get_lora_tokenizer (f_lora_name request)) else None in
  {| rs_request_id := f_request_id request; parent_req := parent; request_index := index; lora_name := f_lora_name request;
     rs_output_kind := output_kind p; rs_prompt := prompt; rs_prompt_token_ids := f_prompt_token_ids request;
     logprobs_processor := logprobs_from_new_request tk request; detokenizer := detokenizer_from_new_request tk request;
     rs_max_tokens := out_max_tokens p; is_prefilling := true; queue := q;
     stats := if log_stats then Some (request_stats_init (f_arrival_time request)) else None |}.

Definition set_processing (lpq : LogprobsProcessor (tokenizer := tokenizer)) (d : IncrementalDetokenizer tokenizer) (s : RequestState) : RequestState :=
  {| rs_request_id := rs_request_id s; parent_req := parent_req s; request_index := request_index s; lora_name := lora_name s;
     rs_output_kind := rs_output_kind s; rs_prompt := rs_prompt s; rs_prompt_token_ids := rs_prompt_token_ids s; logprobs_processor := lpq;
     detokenizer := d; rs_max_tokens := rs_max_tokens s; is_prefilling := is_prefilling s; queue := queue s; stats := stats s |}.

Definition set_prefilling (b : bool) (st : option RequestStateStats) (s : RequestState) : RequestState :=
  {| rs_request_id := rs_request_id s; parent_req := parent_req s; request_index := request_index s; lora_name := lora_name s;
     rs_output_kind := rs_output_kind s; rs_prompt := rs_prompt s; rs_prompt_token_ids := rs_prompt_token_ids s; logprobs_processor := logprobs_processor s;
     detokenizer := detokenizer s; rs_max_tokens := rs_max_tokens s; is_prefilling := b; queue := queue s; stats := st |}.

Definition new_completion_output (s : RequestState) (token_ids : list Z) (finish_reason : option FinishReason) (stop_reason : option StopReason) :
    RequestState * CompletionOutput :=
  let finished := bool_decide (is_Some finish_reason) in
  let delta := bool_decide (rs_output_kind s = DELTA) in
  let '(d, t) := detokenizer_next_text (detokenizer s) finished delta in
  let token_ids := if delta then token_ids else output_token_ids d in
  let lps := logprobs (logprobs_processor s) in
  let lps := match lps with
    | Some (_ :: _ as l) => if delta then Some (py_slice_from (- Z.of_nat (length token_ids)) l) else lps
    | _ => lps
    end in
  (set_processing (logprobs_processor s) d s,
   {| co_index := request_index s; co_text := t; co_token_ids := token_ids; co_cumulative_logprob := cumulative_logprob (logprobs_processor s);
      co_logprobs := lps; co_finish_reason := FINISH_REASON_STRINGS <$> finish_reason; co_stop_reason := if finished then stop_reason else None |}).

Definition new_request_output (s : RequestState) (id : string) (outs : list (option CompletionOutput)) (finished : bool) : RequestState * RequestOutput :=
  let '(q, plp) := if bool_decide (rs_output_kind s = DELTA) then pop_prompt_logprobs (logprobs_processor s)
    else (logprobs_processor s, prompt_logprobs (logprobs_processor s)) in
  (set_processing q (detokenizer s) s,
   {| ro_request_id := id; ro_prompt := rs_prompt s; ro_prompt_token_ids := rs_prompt_token_ids s; ro_prompt_logprobs := plp;
      ro_outputs := outs; ro_finished := finished |}).

(** ** [OutputProcessor] *)

Record OutputProcessor := {
  log_stats : bool;
  request_states : dict RequestState;
  parent_requests : dict nat;
  lora_states : LoRARequestStates;
  parents : gmap nat ParentRequest;              (* the store of parents *)
  collectors : gmap nat RequestOutputCollector;  (* and of collectors *)
}.

Definition op_init (log : bool) : OutputProcessor :=
  {| log_stats := log; request_states := []; parent_requests := []; lora_states := ∅; parents := ∅; collectors := ∅ |}.

Definition set_states v o := {| log_stats := log_stats o; request_states := v; parent_requests := parent_requests o; lora_states := lora_states o;
  parents := parents o; collectors := collectors o |}.
Definition set_parent_requests v o := {| log_stats := log_stats o; request_states := request_states o; parent_requests := v; lora_states := lora_states o;
  parents := parents o; collectors := collectors o |}.
Definition set_lora v o := {| log_stats := log_stats o; request_states := request_states o; parent_requests := parent_requests o; lora_states := v;
  parents := parents o; collectors := collectors o |}.
Definition set_parents v o := {| log_stats := log_stats o; request_states := request_states o; parent_requests := parent_requests o; lora_states := lora_states o;
  parents := v; collectors := collectors o |}.
Definition set_collectors v o := {| log_stats := log_stats o; request_states := request_states o; parent_requests := parent_requests o; lora_states := lora_states o;
  parents := parents o; collectors := v |}.

Definition get_num_unfinished_requests (o : OutputProcessor) : nat := length (request_states o).
Definition op_has_unfinished_requests (o : OutputProcessor) : bool := 0 <? length (request_states o).

(** The object behind a reference. *)
Definition deref {A} (m : gmap nat A) (r : nat) : result A := of_option KeyError (m !! r).

Definition put_queue (o : OutputProcessor) (r : nat) (x : RequestOutput + exn) : result OutputProcessor :=
  q ← deref (collectors o) r;
  q ← put q x;
  Ok (set_collectors (<[r := q]> (collectors o)) o).

Definition propagate_error (o : OutputProcessor) (e : exn) : result OutputProcessor :=
  foldM (fun o (kv : string * RequestState) => r ← of_option AssertionError (queue kv.2); put_queue o r (inr e)) o (request_states o).

Definition op_add_request (o : OutputProcessor) (request : FrontRequest) (prompt : option text) (parent : option nat) (index : nat) (q : option nat) :
    result OutputProcessor :=
  let id := f_request_id request in
  if dict_mem (request_states o) id then Err ValueError
  else
    let s := from_new_request request prompt parent index q (log_stats o) in
    let o := set_states (dict_set id s (request_states o)) o in
    l ← lora_add_request (lora_states o) (lora_name s) id;
    let o := set_lora l o in
    match parent with
    | None => Ok o
    | Some p => pr ← deref (parents o) p; Ok (set_parent_requests (dict_set (pr_request_id pr) p (parent_requests o)) o)
    end.

(** One id of [abort_requests]; an id of a parent aborts its samples by [rec]. *)
Definition abort_one (rec : OutputProcessor -> list string -> option (result (OutputProcessor * list string))) (o : OutputProcessor) (id : string) :
    option (result (OutputProcessor * list string)) :=
  match dict_get (request_states o) id with
  | Some s =>
      let o := set_states (dict_pop id (request_states o)) o in
      Some (l ← lora_abort_request (lora_states o) (lora_name s) id; Ok (set_lora l o, [id]))
  | None =>
      match dict_get (parent_requests o) id with
      | None => Some (Ok (o, []))
      | Some p =>
          let o := set_parent_requests (dict_pop id (parent_requests o)) o in
          match parents o !! p with
          | None => Some (Err KeyError)
          | Some pr =>
              if bool_decide (child_requests pr = ∅) then Some (Ok (o, []))
              else
                let children := list_set (child_requests pr) in
                r ← rec o children;
                Some ('(o, _) ← r; Ok (o, children))
          end
      end
  end.

Fixpoint abort_loop (rec : OutputProcessor -> list string -> option (result (OutputProcessor * list string))) (o : OutputProcessor) (ids aborted : list string) :
    option (result (OutputProcessor * list string)) :=
  match ids with
  | [] => Some (Ok (o, aborted))
  | id :: ids =>
      r ← abort_one rec o id;
      match r with
      | Err e => Some (Err e)
      | Ok (o, l) => abort_loop rec o ids (aborted ++ l)
      end
  end.

(** The recursion pops a parent each time; the fuel counts the parents. *)
Fixpoint op_abort (fuel : nat) (o : OutputProcessor) (ids : list string) : option (result (OutputProcessor * list string)) :=
  match fuel with
  | 0 => None
  | S fuel => abort_loop (op_abort fuel) o ids []
  end.

Definition op_abort_requests (o : OutputProcessor) (ids : list string) : option (result (OutputProcessor * list string)) :=
  op_abort (S (length (parent_requests o))) o ids.

(** ** [make_request_output] *)

Definition make_request_output (o : OutputProcessor) (s : RequestState) (new_token_ids : list Z) (finish_reason : option FinishReason)
    (stop_reason : option StopReason) : result (OutputProcessor * RequestState * option RequestOutput) :=
  let finished := bool_decide (is_Some finish_reason) in
  if negb finished && bool_decide (rs_output_kind s = FINAL_ONLY) then Ok (o, s, None)
  else
    let '(s, completion) := new_completion_output s new_token_ids finish_reason stop_reason in
    match parent_req s with
    | None =>
        let '(s, out) := new_request_output s (rs_request_id s) [Some completion] finished in
        Ok (o, s, Some out)
    | Some p =>
        pr ← deref (parents o) p;
        '(pr, (id, outs, finished)) ← get_outputs pr (rs_request_id s) completion;
        let o := set_parents (<[p := pr]> (parents o)) o in
        if bool_decide (outs = []) then Ok (o, s, None)
        else
          let '(s, out) := new_request_output s id outs finished in
          Ok (o, s, Some out)
    end.

(** ** [process_outputs] *)

Definition update_stats_from_output (o : OutputProcessor) (s : RequestState) (out : EngineCoreOutput) (timestamp : option Z)
    (it : option IterationStats) : result (OutputProcessor * RequestState * option IterationStats) :=
  match it with
  | None => Ok (o, s, None)
  | Some it =>
      let l := lora_get_stats (lora_states o) (lora_name s) in
      t ← of_option AssertionError timestamp;
      rs ← of_option AssertionError (stats s);
      '(it, rs, l) ← stats_from_output (o_request_id out) (Z.of_nat (length (o_new_token_ids out))) (o_events out) t (is_prefilling s)
        (Z.of_nat (length (rs_prompt_token_ids s))) (lora_name s) (it, rs, l);
      Ok (set_lora l o, set_prefilling (is_prefilling s) (Some rs) s, Some it)
  end.

Definition update_stats_from_finished (o : OutputProcessor) (s : RequestState) (reason : FinishReason) (it : option IterationStats) :
    result (OutputProcessor * option IterationStats) :=
  match it with
  | None => Ok (o, None)
  | Some it =>
      rs ← of_option AssertionError (stats s);
      let it := update_from_finished_request reason (Z.of_nat (length (rs_prompt_token_ids s))) (rs_max_tokens s) rs it in
      l ← lora_finish_request (lora_states o) (lora_name s) (rs_request_id s);
      let o := set_lora l o in
      match parent_req s with
      | None => Ok (o, Some (observe_finished_request None it (num_generation_tokens rs)).2)
      | Some p =>
          pr ← deref (parents o) p;
          match observe_finished_request (Some pr) it (num_generation_tokens rs) with
          | (Some pr, it) => Ok (set_parents (<[p := pr]> (parents o)) o, Some it)
          | (None, it) => Ok (o, Some it)
          end
      end
  end.

(** A completed request leaves the tables. *)
Definition free_completed (o : OutputProcessor) (s : RequestState) (id : string) : result OutputProcessor :=
  let o := set_states (dict_pop id (request_states o)) o in
  match parent_req s with
  | None => Ok o
  | Some p =>
      pr ← deref (parents o) p;
      if bool_decide (child_requests pr = ∅) then Ok (set_parent_requests (dict_pop (pr_request_id pr) (parent_requests o)) o) else Ok o
  end.

(** Detokenizing, checking for stop strings and collecting log probabilities:
    the state afterwards, and whether and why the request ends. *)
Definition digest (s : RequestState) (out : EngineCoreOutput) : result (RequestState * option FinishReason * option StopReason) :=
  '(d, stop_string) ← detokenizer_update (detokenizer s) (o_new_token_ids out) (bool_decide (o_finish_reason out = Some STOP));
  let '(finish_reason, stop_reason) :=
    match stop_string with
    | Some (_ :: _ as t) => (Some STOP, Some (StopString t))
    | _ => (o_finish_reason out, StopToken <$> o_stop_reason out)
    end in
  q ← logprobs_update (logprobs_processor s) (lists_view <$> o_new_logprobs out) (tensors_view <$> o_prompt_logprobs out);
  Ok (set_processing q d s, finish_reason, stop_reason).

Definition progress : Type := OutputProcessor * option IterationStats * list RequestOutput * list string.

(** The loop's body. *)
Definition process_output (timestamp : option Z) (a : progress) (out : EngineCoreOutput) : result progress :=
  let '(o, it, request_outputs, reqs_to_abort) := a in
  let id := o_request_id out in
  match dict_get (request_states o) id with
  | None => Ok a
  | Some s =>
      '(o, s, it) ← update_stats_from_output o s out timestamp it;
      let s := set_prefilling false (stats s) s in
      '(s, finish_reason, stop_reason) ← digest s out;
      '(o, s, made) ← make_request_output o s (o_new_token_ids out) finish_reason stop_reason;
      let o := set_states (dict_set id s (request_states o)) o in
      '(o, request_outputs) ←
        match made, queue s with
        | None, _ => Ok (o, request_outputs)
        | Some out, Some r => o ← put_queue o r (inl out); Ok (o, request_outputs)
        | Some out, None => Ok (o, request_outputs ++ [out])
        end;
      match finish_reason with
      | None => Ok (o, it, request_outputs, reqs_to_abort)
      | Some reason =>
          o ← free_completed o s id;
          let reqs_to_abort := if bool_decide (is_Some (o_finish_reason out)) then reqs_to_abort else reqs_to_abort ++ [id] in
          '(o, it) ← update_stats_from_finished o s reason it;
          Ok (o, it, request_outputs, reqs_to_abort)
      end
  end.

Definition process_outputs (o : OutputProcessor) (outs : list EngineCoreOutput) (timestamp : option Z) (it : option IterationStats) : result progress :=
  a ← foldM (process_output timestamp) ((o, it, [], []) : progress) outs;
  let '(o, it, request_outputs, reqs_to_abort) := (a : progress) in
  Ok (o, update_iteration_stats (lora_states o) <$> it, request_outputs, reqs_to_abort).
End Processor.
