(* ===== verification/OutputProcessorSpec.v ===== *)
(** * What the output processor promises

    The invariant of its tables, the parts of [process_outputs] that cannot
    raise, and the theorems. *)

From S2P Require Import Prelude PyDict StopChecker Request Scheduler Detokenizer Logprobs RequestStats RequestOutputs OutputProcessor.

(** The tokenizer turns every list of tokens into a text. *)
Class TotalTokenizer `(T : Tokenizer tokenizer) : Prop :=
  to_string_total : forall tk toks, exists t, convert_tokens_to_string tk toks = Ok t.

(** ** Detokenizers do not raise *)

Section Total.
Context `{T : Tokenizer tokenizer} `{!TotalTokenizer T}.

Lemma flush_total tk sub cur : exists l, flush tk sub cur = Ok l.
Proof. destruct cur as [|t cur]; cbn; [by eexists|]. destruct (to_string_total tk (t :: cur)) as [x ->]. by eexists. Qed.

Lemma added_loop_total tk skip special added toks sub cur : exists l, added_loop tk skip special added toks sub cur = Ok l.
Proof.
  revert sub cur. induction toks as [|t toks IH]; intros sub cur; cbn; [apply flush_total|].
  destruct (skip && in_list t special); [apply IH|]. destruct (in_list t added); [|apply IH].
  destruct (flush_total tk sub cur) as [l ->]. apply IH.
Qed.

Lemma window_text_total tk toks skip spaces : exists t, window_text tk toks skip spaces = Ok t.
Proof.
  unfold window_text. destruct (_ || _); [apply to_string_total|]. unfold convert_tokens_to_string_with_added_encoders.
  destruct (added_loop_total tk skip (all_special_tokens tk) (added_vocab tk) toks [] []) as [l ->]. by eexists.
Qed.

Lemma slow_decode_total (s : SlowDecoder tokenizer) ids i : exists r, decode_next s (ids ++ [i]) i = Ok r.
Proof.
  unfold decode_next, slow_decode_next, detokenize_incrementally. rewrite last_snoc. cbn [of_option mbind result_bind].
  set (toks := if _ && _ then _ else _).
  destruct (window_text_total (slow_tokenizer s) (take (read_offset s - prefix_offset s) (drop (prefix_offset s) (tokens s ++ toks))) (slow_skip s) (slow_spaces s)) as [t1 ->].
  destruct (window_text_total (slow_tokenizer s) (drop (prefix_offset s) (tokens s ++ toks)) (slow_skip s) (slow_spaces s)) as [t2 ->].
  cbn [mbind result_bind]. destruct (_ || _); by eexists.
Qed.

Lemma fast_decode_total (f : FastDecoder tokenizer) ids i : exists r, decode_next f ids i = Ok r.
Proof. unfold decode_next, fast_decode_next. destruct (stream_step _ _ _) as [x t]. destruct (fast_spaces f); by eexists. Qed.

Lemma update_total `{DecodeNext D} (d : BaseIncrementalDetokenizer D) ids st :
  (forall (x : D) ids i, exists r, decode_next x (ids ++ [i]) i = Ok r) -> exists r, update d ids st = Ok r.
Proof.
  intros Hx. assert (Hf : forall ids d, exists d', foldM append_token d ids = Ok d').
  { clear d ids. induction ids as [|i ids IH]; intros d; cbn [foldM]; [by eexists|]. unfold append_token. cbn [decoder token_ids set_token_ids].
    destruct (Hx (decoder d) (token_ids d) i) as [[x t] ->]. cbn [mbind result_bind]. apply IH. }
  unfold update. destruct ids as [|i ids]; [by eexists|]. destruct (Hf (if st && negb (d_include_stop d) then removelast (i :: ids) else i :: ids) d) as [d' ->].
  cbn [mbind result_bind]. destruct st; by eexists.
Qed.

Lemma detokenizer_update_total (d : IncrementalDetokenizer tokenizer) ids st : exists r, detokenizer_update d ids st = Ok r.
Proof.
  destruct d as [l|d|k d]; cbn [detokenizer_update].
  - by eexists.
  - destruct (update_total d ids st) as [[d' s] ->]; [|by eexists]. intros x l i. apply fast_decode_total.
  - destruct (update_total d ids st) as [[d' s] ->]; [|by eexists]. intros x l i. apply slow_decode_total.
Qed.
End Total.

(** ** The processor of log probabilities does not raise *)

Section LogprobsTotal.
Context `{L : LogprobValues} `{T : Tokenizer tokenizer}.
Implicit Types q : LogprobsProcessor (tokenizer := tokenizer).

(** Numbers are collected exactly if they were asked for. *)
Record lpq_ok q : Prop := {
  lq_logprobs : is_Some (logprobs q) <-> is_Some (num_logprobs q);
  lq_cumulative : is_Some (cumulative_logprob q) <-> is_Some (num_logprobs q);
  lq_prompt : is_Some (prompt_logprobs q) <-> is_Some (num_prompt_logprobs q);
}.

Definition same_requests q q' : Prop := num_logprobs q' = num_logprobs q /\ num_prompt_logprobs q' = num_prompt_logprobs q.

(** The engine sends numbers only if they were asked for: a value for each
    sampled token, and prompt tensors of one length. *)
Definition logprobs_fit q (ll : option LogprobsLists) (tt : option LogprobsTensors) : Prop :=
  (forall l, ll = Some l -> is_Some (num_logprobs q) /\ Forall (fun v => v <> []) (logprobs_lst l)) /\
  (forall t, tt = Some t -> is_Some (num_prompt_logprobs q) /\ length (t_token_ids t) = length (t_logprobs t) /\ length (t_ranks t) = length (t_logprobs t)).

Lemma logprobs_init_ok (tk : option tokenizer) r : lpq_ok (logprobs_from_new_request tk r).
Proof. split; cbn; destruct (out_logprobs (f_params r)), (out_prompt_logprobs (f_params r)); try done; split; intros [? [=]]. Qed.

Lemma sample_row_total q r v ids : lpq_ok q -> is_Some (num_logprobs q) -> v <> [] ->
  exists q', sample_row q (r, v, ids) = Ok q' /\ lpq_ok q' /\ same_requests q q'.
Proof.
  intros Hq Hn Hv. destruct v as [|x v]; [done|].
  pose proof (proj2 (lq_logprobs q Hq) Hn) as [l Hl]. pose proof (proj2 (lq_cumulative q Hq) Hn) as [c Hc].
  pose proof Hn as [k Hk]. unfold sample_row. cbn [head]. rewrite Hl, Hc, Hk. cbn [of_option mbind result_bind].
  eexists. split; [reflexivity|]. split; [|done].
  split; cbn [set_sampled logprobs cumulative_logprob prompt_logprobs num_logprobs num_prompt_logprobs]; [by split|by split|apply (lq_prompt q Hq)].
Qed.

Lemma sample_rows_total rows : forall q, lpq_ok q -> is_Some (num_logprobs q) -> Forall (fun row : Z * list lp * list Z => row.1.2 <> []) rows ->
  exists q', foldM sample_row q rows = Ok q' /\ lpq_ok q' /\ same_requests q q'.
Proof.
  induction rows as [|[[r v] ids] rows IH]; intros q Hq Hn Hr; cbn [foldM]; [by exists q|].
  apply Forall_cons in Hr as [Hv Hr]. destruct (sample_row_total q r v ids Hq Hn Hv) as (q1 & -> & H1 & Hs). cbn [mbind result_bind].
  rewrite <-(proj1 Hs) in Hn. destruct (IH q1 H1 Hn Hr) as (q' & E1 & Hq' & Hs'). exists q'. split; [done|]. split; [done|].
  unfold same_requests in *. destruct Hs, Hs'. split; congruence.
Qed.

Lemma prompt_rows_total (t : LogprobsTensors) dec k ps : length (t_token_ids t) = length (t_logprobs t) -> length (t_ranks t) = length (t_logprobs t) ->
  forall l, (forall i, i ∈ ps -> i < length (t_logprobs t)) -> exists l', foldM (prompt_row t dec k) l ps = Ok l'.
Proof.
  intros H1 H2. induction ps as [|i ps IH]; intros l Hps; cbn [foldM]; [by exists l|].
  assert (Hi : i < length (t_logprobs t)) by (apply Hps; by left).
  destruct (lookup_lt_is_Some_2 (t_logprobs t) i Hi) as [v Hv]. destruct (lookup_lt_is_Some_2 (t_token_ids t) i) as [ids Hids]; [lia|].
  destruct (lookup_lt_is_Some_2 (t_ranks t) i) as [r Hr]; [lia|].
  destruct (IH (l ++ [Some (make_logprob_dict v ids ((fun d => take (i * t_width t + t_width t - i * t_width t) (drop (i * t_width t) d)) <$> dec) r k)])) as [l' E1].
  { intros j Hj. apply Hps. by right. }
  exists l'. rewrite <-E1. unfold prompt_row at 2. by rewrite Hv, Hids, Hr.
Qed.

Lemma logprobs_update_total q ll tt : lpq_ok q -> logprobs_fit q ll tt ->
  exists q', logprobs_update q ll tt = Ok q' /\ lpq_ok q' /\ same_requests q q'.
Proof.
  intros Hq [Hl Ht]. unfold logprobs_update.
  assert (H1 : exists q1, (match ll with Some l => update_sample_logprobs q l | None => Ok q end) = Ok q1 /\ lpq_ok q1 /\ same_requests q q1).
  { destruct ll as [l|]; [|by exists q]. destruct (Hl l eq_refl) as [Hn Hv]. unfold update_sample_logprobs.
    rewrite !bool_decide_eq_true_2 by (try done; try apply (lq_logprobs q Hq), Hn; apply (lq_cumulative q Hq), Hn). cbn [py_assert mbind result_bind].
    apply sample_rows_total; [done|done|]. apply Forall_forall. intros [[r v] ids] Hin. cbn. rewrite Forall_forall in Hv. apply Hv.
    apply elem_of_zip_l, elem_of_zip_r in Hin. done. }
  destruct H1 as (q1 & -> & Hq1 & Hs1). cbn [mbind result_bind]. destruct tt as [t|]; [|by exists q1].
  destruct (Ht t eq_refl) as (Hn & Hw1 & Hw2). rewrite <-(proj2 Hs1) in Hn. pose proof (proj2 (lq_prompt q1 Hq1) Hn) as [l0 Hl0]. pose proof Hn as [k Hk].
  unfold update_prompt_logprobs. rewrite Hk, Hl0. cbn [of_option mbind result_bind].
  destruct (prompt_rows_total t ((fun tk => convert_ids_list_to_tokens tk (mjoin (t_token_ids t))) <$> lp_tokenizer q1) k (seq 0 (length (t_logprobs t))) Hw1 Hw2 l0) as [l' ->].
  { intros i Hi. apply elem_of_seq in Hi. lia. }
  cbn [mbind result_bind]. eexists. split; [reflexivity|]. split; [|exact Hs1].
  split; cbn [set_prompt_logprobs logprobs cumulative_logprob prompt_logprobs num_logprobs num_prompt_logprobs]; [apply (lq_logprobs q1 Hq1)|apply (lq_cumulative q1 Hq1)|by split].
Qed.

Lemma pop_prompt_logprobs_ok q : lpq_ok q -> lpq_ok (pop_prompt_logprobs q).1 /\ same_requests q (pop_prompt_logprobs q).1 /\
  logprobs (pop_prompt_logprobs q).1 = logprobs q.
Proof.
  intros Hq. unfold pop_prompt_logprobs. destruct (prompt_logprobs q) as [[|x l]|] eqn:Ep; [done| |done].
  split; [|done]. split; cbn [fst set_prompt_logprobs logprobs cumulative_logprob prompt_logprobs num_logprobs num_prompt_logprobs];
    [apply (lq_logprobs q Hq)|apply (lq_cumulative q Hq)|]. rewrite <-(lq_prompt q Hq), Ep. split; by eexists.
Qed.
End LogprobsTotal.

(** ** The invariant *)

Section Spec.
Context `{E : Env} `{L : LogprobValues} `{!LogprobsView E L} `{T : Tokenizer tokenizer} `{!TotalTokenizer T}.
Implicit Types (o : OutputProcessor (tokenizer := tokenizer)) (s : RequestState (tokenizer := tokenizer)) (out : EngineCoreOutput).

(** Whether the completions of a request carry log probabilities. *)
Definition with_logprobs s : bool := bool_decide (is_Some (num_logprobs (logprobs_processor s))).

Definition flagged (b : bool) (e : option CompletionOutput) : Prop := exists c, e = Some c /\ (is_Some (co_logprobs c) <-> b = true).

(** A parent that collects final outputs still waits for each sample it has no
    output of. *)
Definition aggregator_ok (b : bool) (pr : ParentRequest) : Prop :=
  forall i e, output_aggregator pr !! i = Some e -> match e with Some _ => flagged b e | None => child_id i (pr_request_id pr) ∈ child_requests pr end.

Record parent_fits (b : bool) (id : string) (index : nat) (kind : RequestOutputKind) (pr : ParentRequest) : Prop := {
  pf_child : id ∈ child_requests pr;
  pf_kind : output_kind (pr_sampling_params pr) = kind;
  pf_id : id = child_id index (pr_request_id pr);
  pf_index : kind = FINAL_ONLY -> index < length (output_aggregator pr);
  pf_stream : kind <> FINAL_ONLY -> output_aggregator pr = [];
  pf_aggregator : aggregator_ok b pr;
}.

Definition queue_fits (b : bool) (q : RequestOutputCollector) : Prop :=
  forall x, RequestOutputs.output q = Some (inl x) -> Forall (flagged b) (ro_outputs x).

Record state_ok o (id : string) s : Prop := {
  st_id : rs_request_id s = id;
  st_logprobs : lpq_ok (logprobs_processor s);
  st_parent : forall p, parent_req s = Some p -> exists pr, parents o !! p = Some pr /\ parent_fits (with_logprobs s) id (request_index s) (rs_output_kind s) pr;
  st_queue : forall r, queue s = Some r -> exists q, collectors o !! r = Some q /\ queue_fits (with_logprobs s) q;
  st_lora : forall a, lora_name s = Some a -> is_Some (lora_states o !! a);
}.

Record op_ok o : Prop := {
  op_keys : NoDup (keys (request_states o));
  op_states : forall id s, dict_get (request_states o) id = Some s -> state_ok o id s;
  (** Requests with a common parent or collector agree on log probabilities. *)
  op_share : forall id1 s1 id2 s2, dict_get (request_states o) id1 = Some s1 -> dict_get (request_states o) id2 = Some s2 ->
    (is_Some (queue s1) /\ queue s1 = queue s2) \/ (is_Some (parent_req s1) /\ parent_req s1 = parent_req s2) -> with_logprobs s1 = with_logprobs s2;
  op_parents : forall id p, dict_get (parent_requests o) id = Some p -> is_Some (parents o !! p);
}.

(** What the engine sends for a live request. *)
Definition out_fits s out : Prop :=
  logprobs_fit (logprobs_processor s) (lists_view <$> o_new_logprobs out) (tensors_view <$> o_prompt_logprobs out).

(** ** Digesting an output *)

(** What identifies a request does not change. *)
Record same_request s s' : Prop := {
  sr_id : rs_request_id s' = rs_request_id s;
  sr_parent : parent_req s' = parent_req s;
  sr_index : request_index s' = request_index s;
  sr_kind : rs_output_kind s' = rs_output_kind s;
  sr_queue : queue s' = queue s;
  sr_lora : lora_name s' = lora_name s;
  sr_flag : with_logprobs s' = with_logprobs s;
  sr_stats : is_Some (stats s) -> is_Some (stats s');
}.

Lemma same_request_trans s1 s2 s3 : same_request s1 s2 -> same_request s2 s3 -> same_request s1 s3.
Proof. intros [] []. split; try congruence. by auto. Qed.

Lemma digest_ok s out : lpq_ok (logprobs_processor s) -> out_fits s out ->
  exists s' reason why, digest s out = Ok (s', reason, why) /\ same_request s s' /\ lpq_ok (logprobs_processor s') /\
    (is_Some (o_finish_reason out) -> is_Some reason).
Proof.
  intros Hq Hf. unfold digest. destruct (detokenizer_update_total (detokenizer s) (o_new_token_ids out) (bool_decide (o_finish_reason out = Some STOP))) as [[d st] ->].
  cbn [mbind result_bind]. destruct (logprobs_update_total _ _ _ Hq Hf) as (q & -> & Hq' & Hs1 & Hs2).
  assert (Hsame : same_request s (set_processing q d s)).
  { split; try done. unfold with_logprobs. cbn [logprobs_processor set_processing]. by rewrite Hs1. }
  destruct st as [[|x t]|]; cbn [mbind result_bind]; do 3 eexists; (split; [reflexivity|]; split; [exact Hsame|]; split; [exact Hq'|]; first [done|by eexists]).
Qed.

(** ** Making an output *)

Lemma new_completion_ok s ids reason why : lpq_ok (logprobs_processor s) ->
  let '(s', c) := new_completion_output s ids reason why in
  same_request s s' /\ logprobs_processor s' = logprobs_processor s /\ co_index c = request_index s /\
  (is_Some (co_logprobs c) <-> with_logprobs s = true) /\ co_finished c = bool_decide (is_Some reason).
Proof.
  intros Hq. unfold new_completion_output. destruct (detokenizer_next_text _ _ _) as [d t].
  split; [done|]. split; [done|]. split; [done|]. split.
  - cbn [co_logprobs]. unfold with_logprobs. rewrite bool_decide_eq_true, <-(lq_logprobs _ Hq).
    destruct (logprobs (logprobs_processor s)) as [[|x l]|]; [done| |done]. destruct (bool_decide (rs_output_kind s = DELTA)); split; by eexists.
  - unfold co_finished. cbn [co_finish_reason]. apply bool_decide_ext. by rewrite fmap_is_Some.
Qed.

Lemma new_request_output_ok s id outs fin : lpq_ok (logprobs_processor s) ->
  let '(s', x) := new_request_output s id outs fin in
  same_request s s' /\ lpq_ok (logprobs_processor s') /\ ro_outputs x = outs /\ ro_request_id x = id /\ ro_finished x = fin /\
  detokenizer s' = detokenizer s.
Proof.
  intros Hq. unfold new_request_output. destruct (pop_prompt_logprobs_ok _ Hq) as (H1 & [H2 H3] & _).
  destruct (bool_decide (rs_output_kind s = DELTA)).
  - destruct (pop_prompt_logprobs (logprobs_processor s)) as [q plp]. cbn [fst] in *. split; [|done].
    split; try done. unfold with_logprobs. cbn [logprobs_processor set_processing]. by rewrite H2.
  - done.
Qed.

(** A sample reports to its parent. *)
Lemma get_outputs_fits b id index kind pr c : parent_fits b id index kind pr -> co_index c = index -> flagged b (Some c) ->
  exists pr' outs fin, get_outputs pr id c = Ok (pr', (pr_request_id pr, outs, fin)) /\ Forall (flagged b) outs /\
    forall id2 index2, parent_fits b id2 index2 kind pr -> id2 <> id \/ co_finished c = false -> parent_fits b id2 index2 kind pr'.
Proof.
  intros [Hc Hk Hid Hi Hst Ha] Hci Hfl. unfold get_outputs.
  set (ch := if co_finished c then child_requests pr ∖ {[id]} else child_requests pr).
  assert (H1 : (if co_finished c then c' ← set_remove id (child_requests pr); Ok (set_children c' pr) else Ok pr) = Ok (set_children ch pr)).
  { subst ch. destruct (co_finished c); [|by destruct pr]. unfold set_remove. by rewrite decide_True. }
  rewrite H1. cbn [mbind result_bind pr_sampling_params set_children output_aggregator]. clear H1.
  assert (Hch : forall i, i <> index -> child_id i (pr_request_id pr) ∈ child_requests pr -> child_id i (pr_request_id pr) ∈ ch).
  { intros i Hne Hin. subst ch. destruct (co_finished c); [|done]. apply elem_of_difference. split; [done|]. rewrite elem_of_singleton, Hid.
    intros E0. by apply (inj (fun i => child_id i (pr_request_id pr))) in E0. }
  assert (Hch2 : forall id2, id2 ∈ child_requests pr -> id2 <> id \/ co_finished c = false -> id2 ∈ ch).
  { intros id2 Hin [Hne|Hf]; subst ch; [destruct (co_finished c); [set_solver|done]|by rewrite Hf]. }
  rewrite Hk. destruct (decide (kind = FINAL_ONLY)) as [Hfo|Hnf].
  - rewrite bool_decide_eq_true_2 by done. rewrite Hci, (proj2 (Nat.ltb_lt _ _)) by (by apply Hi). cbn [mbind result_bind].
    set (pr' := set_aggregator _ (set_children ch pr)). assert (Ha' : aggregator_ok b pr').
    { intros i e. cbn [pr' output_aggregator set_aggregator set_children]. destruct (decide (i = index)) as [->|Hne].
      - rewrite list_lookup_insert_eq by (by apply Hi). by intros [= <-].
      - rewrite list_lookup_insert_ne by done. intros He. specialize (Ha i e He). destruct e; [done|]. by apply Hch. }
    do 3 eexists. split; [reflexivity|]. split.
    + change (child_requests pr') with ch in *. case_bool_decide as Hempty; [|constructor]. apply Forall_lookup. intros i e He.
      specialize (Ha' i e He). destruct e as [c'|]; [done|]. exfalso. cbn [pr' child_requests set_aggregator set_children] in Ha'. set_solver.
    + intros id2 index2 [G1 G2 G3 G4 G5 G6] Hor. split; cbn [pr' child_requests set_aggregator set_children pr_sampling_params pr_request_id output_aggregator]; try done.
      * by apply Hch2.
      * intros _. rewrite length_insert. by apply G4.
  - rewrite bool_decide_eq_false_2 by done. cbn [mbind result_bind]. do 3 eexists. split; [reflexivity|]. split; [by constructor|].
    intros id2 index2 [G1 G2 G3 G4 G5 G6] Hor. split; cbn [child_requests set_children pr_sampling_params pr_request_id output_aggregator]; try done.
    + by apply Hch2.
    + intros i e. cbn [output_aggregator set_children]. by rewrite Hst.
Qed.

Definition parents_fit (P : gmap nat ParentRequest) (id : string) s : Prop :=
  forall p, parent_req s = Some p -> exists pr, P !! p = Some pr /\ parent_fits (with_logprobs s) id (request_index s) (rs_output_kind s) pr.

Lemma parents_fit_same P id s s' : same_request s s' -> parents_fit P id s -> parents_fit P id s'.
Proof. intros [] Hf p. rewrite sr_parent0, sr_index0, sr_kind0, sr_flag0. apply Hf. Qed.

Lemma insert_keeps (P : gmap nat ParentRequest) p pr : forall p2, is_Some (P !! p2) -> is_Some (<[p:=pr]> P !! p2).
Proof. intros p2 H2. destruct (decide (p2 = p)) as [->|]; [rewrite lookup_insert_eq; by eexists|by rewrite lookup_insert_ne]. Qed.

(** The request's output, and the other requests of its parent. *)
Lemma make_request_output_ok o id s0 s ids reason why : op_ok o -> dict_get (request_states o) id = Some s0 -> same_request s0 s ->
  lpq_ok (logprobs_processor s) ->
  exists P s' made, make_request_output o s ids reason why = Ok (set_parents P o, s', made) /\ same_request s s' /\ lpq_ok (logprobs_processor s') /\
    (forall x, made = Some x -> Forall (flagged (with_logprobs s)) (ro_outputs x)) /\
    (forall p, is_Some (parents o !! p) -> is_Some (P !! p)) /\
    (forall id2 s2, dict_get (request_states o) id2 = Some s2 -> id2 <> id \/ reason = None -> parents_fit P id2 s2).
Proof.
  intros Ho H0 Hs Hq. unfold make_request_output. pose proof (st_parent _ _ _ (op_states o Ho id s0 H0)) as Hp0.
  destruct (negb _ && _) eqn:Eskip.
  { exists (parents o), s, None. split; [by destruct o|]. split; [done|]. split; [done|]. split; [done|]. split; [done|].
    intros id2 s2 H2 _. exact (st_parent _ _ _ (op_states o Ho id2 s2 H2)). }
  pose proof (new_completion_ok s ids reason why Hq) as Hn. destruct (new_completion_output s ids reason why) as [s1 c].
  destruct Hn as (Hs1 & Hq1 & Hci & Hcl & Hcf). rewrite (sr_parent _ _ Hs1). rewrite <-Hq1 in Hq. clear Hq1.
  destruct (parent_req s) as [p|] eqn:Ep.
  - destruct (Hp0 p) as (pr & Hpr & Hfit); [by rewrite <-(sr_parent _ _ Hs)|].
    rewrite <-(sr_index _ _ Hs), <-(sr_kind _ _ Hs), <-(sr_flag _ _ Hs) in Hfit.
    destruct (get_outputs_fits _ _ _ _ _ c Hfit Hci) as (pr' & outs & fin & Eg & Hfl & Hothers); [by exists c|].
    unfold deref. rewrite Hpr. cbn [of_option mbind result_bind]. rewrite (sr_id _ _ Hs1), (sr_id _ _ Hs), (st_id _ _ _ (op_states o Ho id s0 H0)), Eg.
    cbn [mbind result_bind].
    assert (Hpar : forall id2 s2, dict_get (request_states o) id2 = Some s2 -> id2 <> id \/ reason = None -> parents_fit (<[p:=pr']> (parents o)) id2 s2).
    { intros id2 s2 H2 Hor p2 Hp2. destruct (st_parent _ _ _ (op_states o Ho id2 s2 H2) p2 Hp2) as (pr2 & Hpr2 & Hfit2).
      destruct (decide (p2 = p)) as [->|Hne]; [|exists pr2; by rewrite lookup_insert_ne]. exists pr'. split; [apply lookup_insert_eq|].
      rewrite Hpr in Hpr2. injection Hpr2 as <-.
      assert (Hflag : with_logprobs s2 = with_logprobs s).
      { rewrite (sr_flag _ _ Hs). apply (op_share o Ho id2 s2 id s0 H2 H0). right. rewrite Hp2, <-(sr_parent _ _ Hs), Ep. by split. }
      assert (Hkind : rs_output_kind s2 = rs_output_kind s) by (rewrite <-(pf_kind _ _ _ _ _ Hfit2); apply (pf_kind _ _ _ _ _ Hfit)).
      rewrite Hflag, Hkind in *. apply Hothers; [done|]. destruct Hor as [?| ->]; [by left|right]. rewrite Hcf. by apply bool_decide_eq_false_2; intros []. }
    pose proof (insert_keeps (parents o) p pr') as Hkeep.
    destruct (bool_decide (outs = [])).
    { exists (<[p:=pr']> (parents o)), s1, None. split; [done|]. split; [exact Hs1|]. split; [exact Hq|]. done. }
    pose proof (new_request_output_ok s1 (pr_request_id pr) outs fin Hq) as Hx. destruct (new_request_output _ _ _ _) as [s2 x].
    destruct Hx as (Hs2 & Hq2 & Hox & _). exists (<[p:=pr']> (parents o)), s2, (Some x). split; [done|].
    split; [by eapply same_request_trans|]. split; [done|]. split; [|done]. intros y [= <-]. by rewrite Hox.
  - pose proof (new_request_output_ok s1 (rs_request_id s1) [Some c] (bool_decide (is_Some reason)) Hq) as Hx. destruct (new_request_output _ _ _ _) as [s2 x].
    destruct Hx as (Hs2 & Hq2 & Hox & _). exists (parents o), s2, (Some x). split; [by destruct o|]. split; [by eapply same_request_trans|].
    split; [done|]. split; [intros y [= <-]; rewrite Hox; constructor; [by exists c|constructor]|]. split; [done|].
    intros id2 s3 H2 _. exact (st_parent _ _ _ (op_states o Ho id2 s3 H2)).
Qed.

(** ** Queues and statistics *)

Lemma add_completion_flagged agg b outs e : Forall (flagged b) outs -> flagged b e ->
  exists outs', add_completion agg outs e = Ok outs' /\ Forall (flagged b) outs'.
Proof.
  intros Ho (x & -> & Hx). induction Ho as [|o' outs (c & -> & Hc) Ho IH]; cbn [add_completion].
  - exists [Some x]. split; [done|]. constructor; [by exists x|constructor].
  - cbn [of_option mbind result_bind]. destruct (co_index c =? co_index x).
    + destruct agg; [|eexists; split; [done|]; constructor; [by exists x|done]].
      destruct (merge_total b c x Hc Hx) as (m & -> & _ & Hm). eexists. split; [done|]. constructor; [by exists m|done].
    + destruct IH as (outs' & -> & Ho'). eexists. split; [done|]. constructor; [by exists c|done].
Qed.

Lemma put_fits b q x : queue_fits b q -> Forall (flagged b) (ro_outputs x) -> exists q', put q (inl x) = Ok q' /\ queue_fits b q'.
Proof.
  intros Hq Hx. unfold put. destruct (RequestOutputs.output q) as [[old|e]|] eqn:Eo.
  - assert (H1 : forall outs, Forall (flagged b) outs -> exists outs', foldM (add_completion (aggregate q)) outs (ro_outputs x) = Ok outs' /\ Forall (flagged b) outs').
    { induction Hx as [|e l He Hl IH]; intros outs Ho; cbn [foldM]; [by exists outs|].
      destruct (add_completion_flagged (aggregate q) b outs e Ho He) as (o1 & -> & H1). cbn [mbind result_bind]. by apply IH. }
    destruct (H1 (ro_outputs old) (Hq old Eo)) as (outs' & E1 & Hf). unfold ro_add. rewrite E1. cbn [mbind result_bind].
    eexists. split; [reflexivity|]. intros y. cbn [RequestOutputs.output]. intros [= <-]. done.
  - exists q. split; [done|]. intros y. by rewrite Eo.
  - eexists. split; [reflexivity|]. intros y. cbn [RequestOutputs.output]. by intros [= <-].
Qed.

(** Statistics, if they are kept, of a request without an adapter. *)
Definition stats_fit (it : option IterationStats) (ts : option Z) s out : Prop :=
  is_Some it -> is_Some ts /\ is_Some (stats s) /\ lora_name s = None /\ (is_prefilling s = true -> o_new_token_ids out <> []).

Lemma events_total id evs : forall it rs l, exists it' rs', update_from_events id None (it, rs, l) evs = Ok (it', rs', l).
Proof.
  induction evs as [|[[] t] evs IH]; intros it rs l; unfold update_from_events; cbn; [by do 2 eexists| | |]; apply IH.
Qed.

Lemma stats_from_output_ok o s out ts it : stats_fit it ts s out ->
  exists it' st, update_stats_from_output o s out ts it = Ok (o, (if it then set_prefilling (is_prefilling s) st s else s), it') /\
    (is_Some it <-> is_Some it') /\ (is_Some it -> is_Some st).
Proof.
  unfold update_stats_from_output. destruct it as [it|]; [|by exists None, None]. intros Hf. destruct (Hf ltac:(by eexists)) as ([t ->] & [rs Hrs] & Hl & Hp).
  rewrite Hl, Hrs. cbn [of_option mbind result_bind lora_get_stats]. unfold stats_from_output.
  assert (Hpre : negb (is_prefilling s) || (0 <? Z.of_nat (length (o_new_token_ids out)))%Z = true).
  { destruct (is_prefilling s) eqn:Ep; [|done]. specialize (Hp eq_refl). destruct (o_new_token_ids out); [done|]. cbn. done. }
  rewrite Hpre. cbn [py_assert mbind result_bind].
  match goal with |- context [update_from_events ?a None (?b, ?c, ?d) ?e] => destruct (events_total a e b c d) as (it' & rs' & ->) end.
  cbn [mbind result_bind]. destruct (is_prefilling s); do 2 eexists; (split; [destruct o; reflexivity|]); by split.
Qed.

Lemma parent_fits_max b id index kind pr k : parent_fits b id index kind pr -> parent_fits b id index kind (set_max_generated k pr).
Proof. by intros []. Qed.

Lemma stats_from_finished_ok o s reason it : (is_Some it -> is_Some (stats s) /\ lora_name s = None) ->
  (forall p, parent_req s = Some p -> is_Some (parents o !! p)) ->
  exists P it', update_stats_from_finished o s reason it = Ok (set_parents P o, it') /\ (is_Some it <-> is_Some it') /\
    (forall p, is_Some (parents o !! p) -> is_Some (P !! p)) /\
    forall id2 s2, parents_fit (parents o) id2 s2 -> parents_fit P id2 s2.
Proof.
  intros Hit Hp. unfold update_stats_from_finished. destruct it as [it|].
  2: { exists (parents o), None. by destruct o. }
  destruct (Hit ltac:(by eexists)) as [[rs ->] ->]. cbn [of_option mbind result_bind lora_finish_request lora_update].
  destruct (parent_req s) as [p|]; [|exists (parents o); eexists; split; [by destruct o|]; by split].
  destruct (Hp p eq_refl) as [pr Hpr]. unfold deref. cbn [parents set_lora]. rewrite Hpr. cbn [of_option mbind result_bind observe_finished_request].
  do 2 eexists. split; [by destruct o|]. split; [by split|]. split; [by apply insert_keeps|]. intros id2 s2 Hf p2 Hp2. destruct (Hf p2 Hp2) as (pr2 & Hpr2 & Hfit).
  destruct (decide (p2 = p)) as [->|Hne].
  - exists (set_max_generated (Z.max (num_generation_tokens rs) (max_num_generation_tokens pr)) pr). split; [apply lookup_insert_eq|].
    rewrite Hpr in Hpr2. injection Hpr2 as <-. by apply parent_fits_max.
  - exists pr2. by rewrite lookup_insert_ne.
Qed.

(** ** One output *)

Definition queues_fit (Q : gmap nat RequestOutputCollector) s : Prop :=
  forall r, queue s = Some r -> exists q, Q !! r = Some q /\ queue_fits (with_logprobs s) q.

(** Tables whose requests come from good ones are good. *)
Lemma op_ok_from o o1 : op_ok o -> NoDup (keys (request_states o1)) -> lora_states o1 = lora_states o ->
  (forall id p, dict_get (parent_requests o1) id = Some p -> is_Some (parents o1 !! p)) ->
  (forall id2 s2, dict_get (request_states o1) id2 = Some s2 -> exists s0, dict_get (request_states o) id2 = Some s0 /\ same_request s0 s2 /\
    lpq_ok (logprobs_processor s2) /\ parents_fit (parents o1) id2 s0 /\ queues_fit (collectors o1) s0) -> op_ok o1.
Proof.
  intros Ho Hn Hlo Hpr Hall. split; [done| | |done].
  - intros id s2 H2. destruct (Hall id s2 H2) as (s0 & H0 & Hs & Hq & Hp & Hc). split.
    + rewrite (sr_id _ _ Hs). apply (st_id _ _ _ (op_states o Ho id s0 H0)).
    + done.
    + exact (parents_fit_same _ _ _ _ Hs Hp).
    + intros r. rewrite (sr_queue _ _ Hs), (sr_flag _ _ Hs). apply Hc.
    + intros a. rewrite (sr_lora _ _ Hs), Hlo. apply (st_lora _ _ _ (op_states o Ho id s0 H0)).
  - intros id1 s1 id2 s2 H1 H2 Hor. destruct (Hall id1 s1 H1) as (a1 & G1 & Hs1 & _), (Hall id2 s2 H2) as (a2 & G2 & Hs2 & _).
    rewrite (sr_flag _ _ Hs1), (sr_flag _ _ Hs2). apply (op_share o Ho id1 a1 id2 a2 G1 G2).
    by rewrite (sr_queue _ _ Hs1), (sr_queue _ _ Hs2), (sr_parent _ _ Hs1), (sr_parent _ _ Hs2) in Hor.
Qed.

(** Whether the output ends its request, and why. *)
Definition verdict o out : option FinishReason :=
  match dict_get (request_states o) (o_request_id out) with
  | None => None
  | Some s => match digest s out with Ok (_, reason, _) => reason | Err _ => None end
  end.

(** The requests that the engine does not know to be finished. *)
Definition to_abort o out : list string :=
  if bool_decide (is_Some (verdict o out)) && negb (bool_decide (is_Some (o_finish_reason out))) then [o_request_id out] else [].

Lemma digest_prefilling b st s out : digest (set_prefilling b st s) out =
  (fun r => (set_prefilling b st r.1.1, r.1.2, r.2)) <$> digest s out.
Proof.
  unfold digest. cbn [detokenizer logprobs_processor set_prefilling].
  destruct (detokenizer_update (detokenizer s) (o_new_token_ids out) _) as [[d t]|e]; [|done]. cbn [mbind result_bind].
  destruct t as [[|x t]|]; (destruct (logprobs_update _ _ _) as [q|e]; done).
Qed.

Lemma queue_step o id s0 s made ros : op_ok o -> dict_get (request_states o) id = Some s0 -> same_request s0 s ->
  (forall x, made = Some x -> Forall (flagged (with_logprobs s)) (ro_outputs x)) -> forall o1, collectors o1 = collectors o ->
  exists Q ros', match made, queue s with
    | None, _ => Ok (o1, ros)
    | Some x, Some r => o ← put_queue o1 r (inl x); Ok (o, ros)
    | Some x, None => Ok (o1, ros ++ [x])
    end = Ok (set_collectors Q o1, ros') /\
    forall id2 s2, dict_get (request_states o) id2 = Some s2 -> queues_fit Q s2.
Proof.
  intros Ho H0 Hs Hm o1 Ho1. pose proof (fun id2 s2 H2 => st_queue _ _ _ (op_states o Ho id2 s2 H2)) as Hall.
  destruct made as [x|]; [|exists (collectors o), ros; split; [by rewrite <-Ho1; destruct o1|exact Hall]].
  destruct (queue s) as [r|] eqn:Er; [|exists (collectors o), (ros ++ [x]); split; [by rewrite <-Ho1; destruct o1|exact Hall]].
  assert (Er0 : queue s0 = Some r) by (by rewrite <-(sr_queue _ _ Hs)).
  destruct (Hall id s0 H0 r Er0) as (q & Hq & Hfit). rewrite <-(sr_flag _ _ Hs) in Hfit. destruct (put_fits _ q x Hfit (Hm x eq_refl)) as (q' & Eput & Hq').
  unfold put_queue, deref. rewrite Ho1, Hq. cbn [of_option mbind result_bind]. rewrite Eput. cbn [mbind result_bind].
  exists (<[r := q']> (collectors o)), ros. split; [done|]. intros id2 s2 H2 r2 Hr2. destruct (decide (r2 = r)) as [->|Hne].
  - exists q'. split; [apply lookup_insert_eq|]. rewrite (sr_flag _ _ Hs) in Hq'. rewrite (op_share o Ho id2 s2 id s0 H2 H0); [done|].
    left. rewrite Hr2, Er0. by split.
  - rewrite lookup_insert_ne by done. by apply (Hall id2 s2).
Qed.

Lemma free_completed_ok o s id : (forall p, parent_req s = Some p -> is_Some (parents o !! p)) ->
  exists pr, free_completed o s id = Ok (set_parent_requests pr (set_states (dict_pop id (request_states o)) o)) /\
    forall x p, dict_get pr x = Some p -> dict_get (parent_requests o) x = Some p.
Proof.
  intros Hp. unfold free_completed. destruct (parent_req s) as [p|]; [|by exists (parent_requests o)].
  destruct (Hp p eq_refl) as [pr Hpr]. unfold deref. cbn [parents set_states]. rewrite Hpr. cbn [of_option mbind result_bind].
  case_bool_decide; [|by exists (parent_requests o)]. eexists. split; [reflexivity|]. intros x y. rewrite dict_get_pop. by case_decide.
Qed.

(** The request goes on: its entry is replaced. *)
Lemma entry_kept o id s0 s4 P Q : op_ok o -> (forall p, is_Some (parents o !! p) -> is_Some (P !! p)) -> dict_get (request_states o) id = Some s0 -> same_request s0 s4 -> lpq_ok (logprobs_processor s4) ->
  (forall id2 s2, dict_get (request_states o) id2 = Some s2 -> parents_fit P id2 s2) ->
  (forall id2 s2, dict_get (request_states o) id2 = Some s2 -> queues_fit Q s2) ->
  let o' := set_collectors Q (set_states (dict_set id s4 (request_states o)) (set_parents P o)) in
  op_ok o' /\ keys (request_states o') = keys (request_states o) /\
  forall id2, id2 <> id -> dict_get (request_states o') id2 = dict_get (request_states o) id2.
Proof.
  intros Ho Hkeep H0 Hs Hq HP HQ o'. assert (Hk : keys (request_states o') = keys (request_states o)).
  { unfold o'. cbn [request_states set_states set_parents set_collectors]. rewrite keys_set, decide_True; [done|]. apply dict_get_is_Some. by eexists. }
  assert (Hget : forall id2, dict_get (request_states o') id2 = if decide (id2 = id) then Some s4 else dict_get (request_states o) id2) by (intros; apply dict_get_set).
  split; [|split; [exact Hk|intros id2 Hne; rewrite Hget; by rewrite decide_False]].
  apply (op_ok_from o); [done|rewrite Hk; apply (op_keys o Ho)|done|intros x p Hx; by apply Hkeep, (op_parents o Ho x)|]. intros id2 x. rewrite Hget. case_decide as He.
  - intros [= <-]. subst id2. exists s0. split; [done|]. split; [done|]. split; [done|]. split; [by apply (HP id)|by apply (HQ id)].
  - intros Hx. exists x. split; [done|]. split; [by split|]. split; [apply (st_logprobs _ _ _ (op_states o Ho id2 x Hx))|].
    split; [by apply (HP id2)|by apply (HQ id2)].
Qed.

(** The request ends: its entry is removed. *)
Lemma entry_removed o id s4 P Q P2 pr : op_ok o -> (forall p, is_Some (parents o !! p) -> is_Some (P2 !! p)) ->
  (forall x p, dict_get pr x = Some p -> dict_get (parent_requests o) x = Some p) ->
  (forall id2 s2, dict_get (request_states o) id2 = Some s2 -> id2 <> id -> parents_fit P2 id2 s2) ->
  (forall id2 s2, dict_get (request_states o) id2 = Some s2 -> queues_fit Q s2) -> id ∈ keys (request_states o) ->
  let o1 := set_collectors Q (set_states (dict_set id s4 (request_states o)) (set_parents P o)) in
  let o' := set_parents P2 (set_parent_requests pr (set_states (dict_pop id (request_states o1)) o1)) in
  op_ok o' /\ keys (request_states o') = filter (fun x => x <> id) (keys (request_states o)) /\
  forall id2, id2 <> id -> dict_get (request_states o') id2 = dict_get (request_states o) id2.
Proof.
  intros Ho Hkeep Hsub HP HQ Hin o1 o'. assert (Hk : keys (request_states o') = filter (fun x => x <> id) (keys (request_states o))).
  { unfold o', o1. cbn [request_states set_states set_parents set_collectors set_parent_requests]. by rewrite keys_pop, keys_set, decide_True. }
  assert (Hget : forall id2, dict_get (request_states o') id2 = if decide (id2 = id) then None else dict_get (request_states o) id2).
  { intros id2. unfold o', o1. cbn [request_states set_states set_parents set_collectors set_parent_requests]. rewrite dict_get_pop, dict_get_set.
    by case_decide. }
  split; [|split; [exact Hk|intros id2 Hne; rewrite Hget; by rewrite decide_False]].
  apply (op_ok_from o); [done|rewrite Hk; apply NoDup_filter, (op_keys o Ho)|done|intros x p Hx%Hsub; by apply Hkeep, (op_parents o Ho x)|]. intros id2 x. rewrite Hget. case_decide as He; [done|].
  intros Hx. exists x. split; [done|]. split; [by split|]. split; [apply (st_logprobs _ _ _ (op_states o Ho id2 x Hx))|].
  split; [by apply (HP id2)|by apply (HQ id2)].
Qed.

Lemma process_output_ok ts o it ros ab out : op_ok o ->
  (forall s, dict_get (request_states o) (o_request_id out) = Some s -> out_fits s out /\ stats_fit it ts s out) ->
  exists o' it' ros', process_output ts (o, it, ros, ab) out = Ok (o', it', ros', ab ++ to_abort o out) /\ op_ok o' /\ (is_Some it <-> is_Some it') /\
    keys (request_states o') = (if verdict o out then filter (fun x => x <> o_request_id out) (keys (request_states o)) else keys (request_states o)) /\
    (forall id2, id2 <> o_request_id out -> dict_get (request_states o') id2 = dict_get (request_states o) id2).
Proof.
  intros Ho Hfits. unfold process_output, to_abort, verdict. set (id := o_request_id out).
  destruct (dict_get (request_states o) id) as [s0|] eqn:H0.
  2: { exists o, it, ros. rewrite bool_decide_eq_false_2 by (by intros []). cbn [andb]. rewrite app_nil_r. split; [done|]. split; [done|]. by split. }
  destruct (Hfits s0 H0) as [Hfit Hstats]. destruct (op_states o Ho id s0 H0) as [Hid Hq0 Hp0 Hc0 _].
  destruct (stats_from_output_ok o s0 out ts it Hstats) as (it1 & st & -> & Hit & Hst). cbn [mbind result_bind].
  set (s1 := if it then set_prefilling (is_prefilling s0) st s0 else s0).
  assert (Hs2 : set_prefilling false (stats s1) s1 = set_prefilling false (stats s1) s0) by (subst s1; by destruct it). rewrite Hs2. clear Hs2.
  assert (Hst1 : is_Some it -> is_Some (stats s1) /\ lora_name s0 = None).
  { intros Hsome. split; [|apply (Hstats Hsome)]. subst s1. destruct it; [|by destruct Hsome]. by apply Hst. }
  destruct (digest_ok s0 out Hq0 Hfit) as (s3 & reason & why & Ed & Hs3 & Hq3 & Hreason). rewrite digest_prefilling, Ed. cbn [fmap result_fmap mbind result_bind fst snd].
  set (s2 := set_prefilling false (stats s1) s3).
  assert (Hs02 : same_request s0 s2).
  { destruct Hs3. split; try done. subst s2. cbn [stats set_prefilling]. intros Hsome. subst s1. destruct it; [|done]. cbn. by apply Hst. }
  destruct (make_request_output_ok o id s0 s2 (o_new_token_ids out) reason why Ho H0 Hs02 Hq3) as (P & s4 & made & -> & Hs4 & Hq4 & Hmade & Hkeep & Hpar).
  cbn [mbind result_bind]. pose proof (same_request_trans _ _ _ Hs02 Hs4) as Hs04.
  rewrite <-(sr_flag _ _ Hs4) in Hmade. set (o1 := set_states (dict_set id s4 _) (set_parents P o)).
  destruct (queue_step o id s0 s4 made ros Ho H0 Hs04 Hmade o1 eq_refl) as (Q & ros' & -> & HQ). cbn [mbind result_bind].
  destruct reason as [reason|].
  - assert (Hpex : forall p, parent_req s4 = Some p -> is_Some (P !! p)).
    { intros p Hp. apply Hkeep. rewrite (sr_parent _ _ Hs04) in Hp. destruct (Hp0 p Hp) as (x & -> & _). by eexists. }
    destruct (free_completed_ok (set_collectors Q o1) s4 id Hpex) as (pr & -> & Hsub). cbn [mbind result_bind]. set (o2 := set_parent_requests pr _).
    assert (Hs4st : is_Some it1 -> is_Some (stats s4) /\ lora_name s4 = None).
    { intros Hsome%Hit. destruct (Hst1 Hsome) as [G1 G2]. split; [apply (sr_stats _ _ Hs4); exact G1|]. by rewrite (sr_lora _ _ Hs04). }
    destruct (stats_from_finished_ok o2 s4 reason it1 Hs4st Hpex) as (P2 & it2 & -> & Hit2 & Hkeep2 & Hpar2).
    cbn [mbind result_bind]. do 3 eexists. split.
    { rewrite (bool_decide_eq_true_2 (is_Some (Some reason))) by done. cbn [andb]. destruct (bool_decide (is_Some (o_finish_reason out))); cbn [negb];
        [rewrite app_nil_r|]; reflexivity. }
    assert (Hin : id ∈ keys (request_states o)) by (apply dict_get_is_Some; by eexists).
    destruct (entry_removed o id s4 P Q P2 pr Ho) as (G1 & G2 & G3); [intros p Hp; by apply Hkeep2, Hkeep|exact Hsub| |exact HQ|exact Hin|].
    { intros id2 s5 H2 Hne. apply Hpar2, (Hpar id2 s5 H2). by left. }
    split; [exact G1|]. split; [by rewrite Hit|]. split; [exact G2|exact G3].
  - do 3 eexists. split; [rewrite app_nil_r; reflexivity|].
    destruct (entry_kept o id s0 s4 P Q Ho Hkeep H0 Hs04 Hq4) as (G1 & G2 & G3); [|exact HQ|].
    { intros id2 s5 H2. apply (Hpar id2 s5 H2). by right. }
    split; [exact G1|]. split; [exact Hit|]. split; [exact G2|exact G3].
Qed.

(** ** A batch of outputs *)

(** The ids whose requests end. *)
Definition ended_ids o (outs : list EngineCoreOutput) : list string := o_request_id <$> filter (fun out => is_Some (verdict o out)) outs.

Lemma ended_ids_cons o out outs :
  ended_ids o (out :: outs) = (if verdict o out then [o_request_id out] else []) ++ ended_ids o outs.
Proof.
  unfold ended_ids. rewrite filter_cons. destruct (verdict o out); [by rewrite decide_True|]. rewrite decide_False; [done|by intros []].
Qed.

Lemma filter_out_cons (x : string) (l ks : list string) : filter (fun y => y ∉ l) (filter (fun y => y <> x) ks) = filter (fun y => y ∉ x :: l) ks.
Proof. rewrite list_filter_filter. apply list_filter_iff. intros y. rewrite not_elem_of_cons. tauto. Qed.

Lemma verdict_same o1 o2 out : dict_get (request_states o1) (o_request_id out) = dict_get (request_states o2) (o_request_id out) ->
  verdict o1 out = verdict o2 out /\ to_abort o1 out = to_abort o2 out.
Proof. intros E0. unfold to_abort, verdict. by rewrite E0. Qed.

Lemma batch_ok ts outs : forall o it ros ab, op_ok o -> NoDup (o_request_id <$> outs) ->
  (forall out s, out ∈ outs -> dict_get (request_states o) (o_request_id out) = Some s -> out_fits s out /\ stats_fit it ts s out) ->
  exists o' it' ros', foldM (process_output ts) (o, it, ros, ab) outs = Ok (o', it', ros', ab ++ (outs ≫= to_abort o)) /\ op_ok o' /\
    (is_Some it <-> is_Some it') /\ keys (request_states o') = filter (fun id => id ∉ ended_ids o outs) (keys (request_states o)) /\
    (forall id, id ∉ o_request_id <$> outs -> dict_get (request_states o') id = dict_get (request_states o) id).
Proof.
  induction outs as [|out outs IH]; intros o it ros ab Ho Hnd Hf; cbn [foldM mbind list_bind].
  { exists o, it, ros. rewrite app_nil_r. split; [done|]. split; [done|]. split; [done|]. split; [|done].
    symmetry. apply list_filter_all. intros x _. apply not_elem_of_nil. }
  rewrite fmap_cons, NoDup_cons in Hnd. destruct Hnd as [Hnin Hnd].
  destruct (process_output_ok ts o it ros ab out Ho) as (o1 & it1 & ros1 & -> & Ho1 & Hit1 & Hk1 & Hg1).
  { intros s Hs. apply Hf; [by left|done]. }
  cbn [mbind result_bind].
  assert (Hsame : forall out2, out2 ∈ outs -> dict_get (request_states o1) (o_request_id out2) = dict_get (request_states o) (o_request_id out2)).
  { intros out2 Hin. apply Hg1. intros E0. apply Hnin. rewrite <-E0. apply list_elem_of_fmap. by exists out2. }
  destruct (IH o1 it1 ros1 (ab ++ to_abort o out) Ho1 Hnd) as (o2 & it2 & ros2 & E2 & Ho2 & Hit2 & Hk2 & Hg2).
  { intros out2 s Hin Hs. rewrite Hsame in Hs by done. destruct (Hf out2 s) as [G1 G2]; [by right|done|]. split; [done|].
    unfold stats_fit in *. by rewrite <-Hit1. }
  exists o2, it2, ros2. split.
  { rewrite E2, <-app_assoc. do 3 f_equal. f_equal. clear - Hsame. induction outs as [|x outs IH]; [done|]. cbn.
    rewrite (proj2 (verdict_same o1 o x (Hsame x ltac:(by left)))). f_equal. apply IH. intros out2 Hin. apply Hsame. by right. }
  split; [done|]. split; [by rewrite Hit1|]. split.
  - assert (He : ended_ids o1 outs = ended_ids o outs).
    { clear - Hsame. induction outs as [|x outs IH]; [done|]. rewrite !ended_ids_cons.
      rewrite (proj1 (verdict_same o1 o x (Hsame x ltac:(by left)))). f_equal. apply IH. intros out2 Hin. apply Hsame. by right. }
    rewrite Hk2, He, Hk1, ended_ids_cons. destruct (verdict o out) as [r|]; [apply filter_out_cons|done].
  - intros id Hid. rewrite fmap_cons in Hid. apply not_elem_of_cons in Hid as [Hne Hid]. rewrite Hg2 by done. by apply Hg1.
Qed.

(** C20: A batch from the engine is processed completely: if the tables are
    consistent, the ids of the batch are distinct, and the engine sends log
    probabilities only to requests that asked for them, then nothing is raised -
    stop strings, parallel samples, streaming and shared collectors included.
    Exactly the requests that the engine or a stop string ended leave the table,
    exactly those that the engine does not know to be finished are to be aborted,
    the others are untouched, and the tables stay consistent. *)
Theorem process_outputs_correct o outs ts it : op_ok o -> NoDup (o_request_id <$> outs) ->
  (forall out s, out ∈ outs -> dict_get (request_states o) (o_request_id out) = Some s -> out_fits s out /\ stats_fit it ts s out) ->
  exists o' it' ros, process_outputs o outs ts it = Ok (o', it', ros, outs ≫= to_abort o) /\ op_ok o' /\
    keys (request_states o') = filter (fun id => id ∉ ended_ids o outs) (keys (request_states o)) /\
    (forall id, id ∉ o_request_id <$> outs -> dict_get (request_states o') id = dict_get (request_states o) id).
Proof.
  intros Ho Hnd Hf. destruct (batch_ok ts outs o it [] [] Ho Hnd Hf) as (o' & it' & ros & E1 & Ho' & _ & Hk & Hg).
  unfold process_outputs. rewrite E1. cbn [mbind result_bind]. do 3 eexists. split; [reflexivity|]. by split.
Qed.

(** ** Adding requests *)

Lemma op_init_ok log : op_ok (op_init log).
Proof. split; [constructor|done|done|done]. Qed.

Lemma lora_add_ok l a id : exists l', lora_add_request l a id = Ok l' /\ (forall b, a = Some b -> is_Some (l' !! b)) /\
  (forall b, is_Some (l !! b) -> is_Some (l' !! b)).
Proof.
  unfold lora_add_request, lora_update, lora_get_stats. destruct a as [a|]; [|by exists l].
  destruct (l !! a) as [st|] eqn:Ea.
  - rewrite Ea. cbn [of_option mbind result_bind]. eexists. split; [reflexivity|].
    split; intros b; rewrite lookup_insert_is_Some; [intros [= ->]; by left|]. intros Hb. destruct (decide (a = b)); [by left|by right].
  - rewrite lookup_insert_eq. cbn [of_option mbind result_bind]. eexists. split; [reflexivity|].
    split; intros b; rewrite !lookup_insert_is_Some; [intros [= ->]; by left|]. intros Hb. destruct (decide (a = b)); [by left|right; split; [done|]; by right].
Qed.

Lemma op_add_ok get_tok o r prompt parent index q : let s := from_new_request get_tok r prompt parent index q (log_stats o) in
  op_ok o -> f_request_id r ∉ keys (request_states o) -> parents_fit (parents o) (f_request_id r) s -> queues_fit (collectors o) s ->
  (forall id2 s2, dict_get (request_states o) id2 = Some s2 ->
    (is_Some q /\ q = queue s2) \/ (is_Some parent /\ parent = parent_req s2) -> with_logprobs s = with_logprobs s2) ->
  exists o', op_add_request get_tok o r prompt parent index q = Ok o' /\ op_ok o' /\ keys (request_states o') = keys (request_states o) ++ [f_request_id r] /\
    (forall id2, dict_get (request_states o') id2 = if decide (id2 = f_request_id r) then Some s else dict_get (request_states o) id2) /\
    parents o' = parents o /\ collectors o' = collectors o /\ log_stats o' = log_stats o.
Proof.
  intros s Ho Hnin Hp Hq Hsh. unfold op_add_request. rewrite (bool_decide_eq_false_2 _ Hnin : dict_mem _ _ = false). fold s.
  cbn [lora_states set_states]. destruct (lora_add_ok (lora_states o) (lora_name s) (f_request_id r)) as (l & -> & Hl1 & Hl2). cbn [mbind result_bind].
  set (o1 := set_lora l (set_states (dict_set (f_request_id r) s (request_states o)) o)).
  assert (Hget : forall id2, dict_get (request_states o1) id2 = if decide (id2 = f_request_id r) then Some s else dict_get (request_states o) id2) by (intros; apply dict_get_set).
  assert (Hk : keys (request_states o1) = keys (request_states o) ++ [f_request_id r]).
  { unfold o1. cbn [request_states set_lora set_states]. by rewrite keys_set, decide_False. }
  assert (Hok : forall pr, (forall x p, dict_get pr x = Some p -> is_Some (parents o !! p)) -> op_ok (set_parent_requests pr o1)).
  { intros pr Hpr. split; cbn [request_states set_parent_requests].
    - rewrite Hk. apply NoDup_app. split; [apply (op_keys o Ho)|]. split; [|apply NoDup_singleton]. intros x Hx ->%list_elem_of_singleton. done.
    - intros id2 s2. rewrite Hget. case_decide as He.
      + intros [= <-]. subst id2. split; [done|apply logprobs_init_ok|exact Hp|exact Hq|exact Hl1].
      + intros H2. destruct (op_states o Ho id2 s2 H2) as [G1 G2 G3 G4 G5]. split; [done|done|exact G3|exact G4|]. intros a Ha. by apply Hl2, G5.
    - intros id1 s1 id2 s2. rewrite !Hget. do 2 case_decide; intros E1 E2.
      + by simplify_eq.
      + injection E1 as <-. by apply (Hsh id2).
      + injection E2 as <-. intros Hor. symmetry. apply (Hsh id1 s1 E1). destruct Hor as [[G1 G2]|[G1 G2]]; [left|right]; cbn in *; rewrite <-G2; by split.
      + by apply (op_share o Ho id1 s1 id2 s2).
    - exact Hpr. }
  destruct parent as [p|].
  - destruct (Hp p eq_refl) as (pr & Hpr & _). unfold deref. change (parents o1) with (parents o). rewrite Hpr. cbn [of_option mbind result_bind].
    eexists. split; [reflexivity|]. split; [|done]. apply Hok. intros x p2. rewrite dict_get_set. case_decide; [intros [= <-]; by eexists|apply (op_parents o Ho)].
  - exists o1. split; [done|]. split; [|done]. apply (Hok (parent_requests o1)). apply (op_parents o Ho).
Qed.

(** A request on its own: no parallel samples, no collector. *)
Lemma op_add_alone_ok get_tok o r prompt : op_ok o -> f_request_id r ∉ keys (request_states o) ->
  exists o', op_add_request get_tok o r prompt None 0 None = Ok o' /\ op_ok o' /\ keys (request_states o') = keys (request_states o) ++ [f_request_id r] /\
    (forall id2, dict_get (request_states o') id2 =
      if decide (id2 = f_request_id r) then Some (from_new_request get_tok r prompt None 0 None (log_stats o)) else dict_get (request_states o) id2).
Proof.
  intros Ho Hn. destruct (op_add_ok get_tok o r prompt None 0 None Ho Hn) as (o' & E1 & Ho' & Hk & Hg & _); [done|done| |by exists o'].
  intros id2 s2 _ [[[? [=]] _]|[[? [=]] _]].
Qed.

(** ** Aborting *)

Section Abort.
Context (list_set : gset string -> list string) (list_set_perm : forall ids : gset string, list_set ids ≡ₚ elements ids).

(** What an abort may do: remove entries, and nothing else. *)
Record shrinks o o' : Prop := {
  sh_states : forall id, dict_get (request_states o') id = None \/ dict_get (request_states o') id = dict_get (request_states o) id;
  sh_keys : NoDup (keys (request_states o'));
  sh_parents : forall id, dict_get (parent_requests o') id = None \/ dict_get (parent_requests o') id = dict_get (parent_requests o) id;
  sh_size : length (parent_requests o') <= length (parent_requests o);
  sh_store : parents o' = parents o /\ collectors o' = collectors o;
  sh_loras : forall a, is_Some (lora_states o !! a) -> is_Some (lora_states o' !! a);
}.

Lemma shrinks_ok o o' : op_ok o -> shrinks o o' -> op_ok o'.
Proof.
  intros Ho [H1 H2 H3 _ [H4 H5] H6].
  assert (Hs : forall id s, dict_get (request_states o') id = Some s -> dict_get (request_states o) id = Some s).
  { intros id s Hg. destruct (H1 id) as [E0|E0]; congruence. }
  split; [done| | |].
  - intros id s Hg%Hs. destruct (op_states o Ho id s Hg) as [G1 G2 G3 G4 G5]. split; [done|done|by rewrite H4|by rewrite H5|]. intros a Ha. by apply H6, G5.
  - intros id1 s1 id2 s2 Hg1%Hs Hg2%Hs. by apply (op_share o Ho id1 s1 id2 s2).
  - intros id p Hg. rewrite H4. apply (op_parents o Ho id). destruct (H3 id) as [E0|E0]; congruence.
Qed.

Lemma shrinks_refl o : op_ok o -> shrinks o o.
Proof. intros Ho. split; try done; [by right|apply (op_keys o Ho)|by right]. Qed.

Lemma shrinks_trans o1 o2 o3 : shrinks o1 o2 -> shrinks o2 o3 -> shrinks o1 o3.
Proof.
  intros [A1 _ A3 A4 [A5 A6] A7] [B1 B2 B3 B4 [B5 B6] B7]. split; [|done| |lia|split; congruence|auto].
  - intros id. destruct (B1 id) as [->| ->]; [by left|]. apply A1.
  - intros id. destruct (B3 id) as [->| ->]; [by left|]. apply A3.
Qed.

Lemma lora_abort_ok o s id : (forall a, lora_name s = Some a -> is_Some (lora_states o !! a)) ->
  exists l, lora_abort_request (lora_states o) (lora_name s) id = Ok l /\ forall a, is_Some (lora_states o !! a) -> is_Some (l !! a).
Proof.
  intros Hl. unfold lora_abort_request, lora_update. destruct (lora_name s) as [a|]; [|by eexists].
  destruct (Hl a eq_refl) as [st ->]. cbn [of_option mbind result_bind]. eexists. split; [reflexivity|].
  intros b Hb. rewrite lookup_insert_is_Some. destruct (decide (a = b)); [by left|by right].
Qed.

Lemma dict_pop_length {A} k (d : dict A) : length (dict_pop k d) <= length d /\ (is_Some (dict_get d k) -> length (dict_pop k d) < length d).
Proof.
  induction d as [|[k' v] d [IH1 IH2]]; cbn; [split; [done|by intros []]|]. case_decide; cbn; [split; intros; lia|].
  split; [lia|]. intros Hs%IH2. lia.
Qed.

(** The samples of a parent that leaves the table are gone. *)
Definition samples_gone o o' : Prop := forall id p pr c, dict_get (parent_requests o) id = Some p -> dict_get (parent_requests o') id = None ->
  parents o !! p = Some pr -> c ∈ child_requests pr -> dict_get (request_states o') c = None.

(** The ids are gone, from one table or from the other. *)
Definition all_gone o o' (ids : list string) : Prop := forall id, id ∈ ids ->
  dict_get (request_states o') id = None /\ (dict_get (request_states o) id = None -> dict_get (parent_requests o') id = None).

Definition aborted o o' (ids : list string) : Prop := shrinks o o' /\ samples_gone o o' /\ all_gone o o' ids.

Lemma gone_stays o o' id : shrinks o o' -> dict_get (request_states o) id = None -> dict_get (request_states o') id = None.
Proof. intros Hs H0. destruct (sh_states _ _ Hs id) as [E0|E0]; congruence. Qed.

Lemma parent_gone_stays o o' id : shrinks o o' -> dict_get (parent_requests o) id = None -> dict_get (parent_requests o') id = None.
Proof. intros Hs H0. destruct (sh_parents _ _ Hs id) as [E0|E0]; congruence. Qed.

Lemma samples_gone_refl o : samples_gone o o.
Proof. intros x p pr c E1 E2. congruence. Qed.

Lemma samples_gone_trans o1 o2 o3 : shrinks o1 o2 -> shrinks o2 o3 -> samples_gone o1 o2 -> samples_gone o2 o3 -> samples_gone o1 o3.
Proof.
  intros H1 H2 G1 G2 id p pr c E1 E3 Hpr Hc. destruct (sh_parents _ _ H1 id) as [E2|E2].
  - apply (gone_stays o2); [done|]. by apply (G1 id p pr c).
  - apply (G2 id p pr c); [by rewrite E2|done|by rewrite (proj1 (sh_store _ _ H1))|done].
Qed.

(** A request's own id. *)
Lemma abort_state_ok o id s : op_ok o -> dict_get (request_states o) id = Some s ->
  exists l, lora_abort_request (lora_states o) (lora_name s) id = Ok l /\ aborted o (set_lora l (set_states (dict_pop id (request_states o)) o)) [id].
Proof.
  intros Ho Es. destruct (lora_abort_ok o s id) as (l & El & Hl); [apply (st_lora _ _ _ (op_states o Ho id s Es))|].
  exists l. split; [done|]. split; [|split].
  - split; cbn [request_states parent_requests parents collectors lora_states set_lora set_states]; try done; [| |by right].
    + intros id2. rewrite dict_get_pop. case_decide; [by left|by right].
    + rewrite keys_pop. apply NoDup_filter, (op_keys o Ho).
  - intros x p pr c E1 E2. cbn [parent_requests set_lora set_states] in E2. congruence.
  - intros x ->%list_elem_of_singleton. cbn [request_states set_lora set_states]. rewrite dict_get_pop, decide_True by done.
    split; [done|]. congruence.
Qed.

(** The id of a parent, whose samples have been aborted after it left the table. *)
Lemma abort_parent_ok o id p pr o2 : op_ok o -> dict_get (request_states o) id = None -> dict_get (parent_requests o) id = Some p -> parents o !! p = Some pr ->
  aborted (set_parent_requests (dict_pop id (parent_requests o)) o) o2 (list_set (child_requests pr)) -> aborted o o2 [id].
Proof using list_set_perm.
  intros Ho Es Ep Hpr (Hs2 & Hg2 & Ha2). set (o1 := set_parent_requests _ o) in *.
  assert (Hs1 : shrinks o o1).
  { split; cbn [o1 request_states parent_requests parents collectors lora_states set_parent_requests]; try done; [by right|apply (op_keys o Ho)| |].
    - intros id2. rewrite dict_get_pop. case_decide; [by left|by right].
    - apply dict_pop_length. }
  assert (Hnone : dict_get (parent_requests o1) id = None) by (cbn [o1 parent_requests set_parent_requests]; by rewrite dict_get_pop, decide_True).
  split; [by eapply shrinks_trans|]. split.
  - intros x p2 pr2 c E1 E2 Hpr2 Hc. destruct (decide (x = id)) as [->|Hne].
    + rewrite Ep in E1. injection E1 as <-. rewrite Hpr in Hpr2. injection Hpr2 as <-. apply (Ha2 c). rewrite list_set_perm. by apply elem_of_elements.
    + apply (Hg2 x p2 pr2 c); [|done|done|done]. cbn [o1 parent_requests set_parent_requests]. by rewrite dict_get_pop, decide_False.
  - intros x ->%list_elem_of_singleton. split; [by apply (gone_stays o1)|]. intros _. by apply (parent_gone_stays o1).
Qed.

(** One id, if the recursive call is right for fewer parents. *)
Lemma abort_one_ok rec o id : op_ok o ->
  (forall o1 ids, op_ok o1 -> length (parent_requests o1) < length (parent_requests o) -> exists o2 l, rec o1 ids = Some (Ok (o2, l)) /\ aborted o1 o2 ids) ->
  exists o' l, abort_one list_set rec o id = Some (Ok (o', l)) /\ aborted o o' [id].
Proof using list_set_perm.
  intros Ho Hrec. unfold abort_one. destruct (dict_get (request_states o) id) as [s|] eqn:Es.
  { destruct (abort_state_ok o id s Ho Es) as (l & El & Ha). cbn [lora_states set_states]. rewrite El. cbn [mbind result_bind]. by do 2 eexists. }
  destruct (dict_get (parent_requests o) id) as [p|] eqn:Ep.
  2: { exists o, []. split; [done|]. split; [by apply shrinks_refl|]. split; [apply samples_gone_refl|].
       by intros x ->%list_elem_of_singleton. }
  destruct (op_parents o Ho id p Ep) as [pr Hpr]. cbn [parents set_parent_requests]. rewrite Hpr.
  set (o1 := set_parent_requests (dict_pop id (parent_requests o)) o).
  assert (Ho1 : op_ok o1).
  { destruct Ho as [G1 G2 G3 G4]. split; [done|intros x s Hx; destruct (G2 x s Hx); by split|exact G3|]. intros x q. cbn [o1 parent_requests set_parent_requests].
    rewrite dict_get_pop. case_decide; [done|]. apply G4. }
  case_bool_decide as Hch.
  { exists o1, []. split; [done|]. apply (abort_parent_ok o id p pr o1 Ho Es Ep Hpr). split; [by apply shrinks_refl|].
    split; [apply samples_gone_refl|]. intros x. by rewrite list_set_perm, Hch, elements_empty, elem_of_nil. }
  destruct (Hrec o1 (list_set (child_requests pr)) Ho1) as (o2 & l & E2 & Ha2).
  { cbn [o1 parent_requests set_parent_requests]. apply dict_pop_length. by eexists. }
  rewrite E2. cbn [mbind option_bind result_bind]. do 2 eexists. split; [reflexivity|]. by apply (abort_parent_ok o id p pr o2 Ho Es Ep Hpr).
Qed.

Lemma abort_loop_ok rec n : (forall o1 ids, op_ok o1 -> length (parent_requests o1) < n -> exists o2 l, rec o1 ids = Some (Ok (o2, l)) /\ aborted o1 o2 ids) ->
  forall ids o acc, op_ok o -> length (parent_requests o) <= n -> exists o' l, abort_loop list_set rec o ids acc = Some (Ok (o', l)) /\ aborted o o' ids.
Proof using list_set_perm.
  intros Hrec. induction ids as [|id ids IH]; intros o acc Ho Hn; cbn [abort_loop].
  - exists o, acc. split; [done|]. split; [by apply shrinks_refl|]. split; [apply samples_gone_refl|]. by intros ? ?%elem_of_nil.
  - destruct (abort_one_ok rec o id Ho) as (o1 & l1 & -> & Hs1 & Hg1 & Ha1); [intros o1 l H1 H2; apply Hrec; [done|lia]|]. cbn [mbind option_bind].
    destruct (IH o1 (acc ++ l1) (shrinks_ok _ _ Ho Hs1)) as (o2 & l2 & -> & Hs2 & Hg2 & Ha2); [pose proof (sh_size _ _ Hs1); lia|].
    exists o2, l2. split; [done|]. split; [by eapply shrinks_trans|]. split; [by eapply samples_gone_trans|].
    intros x [->|Hx]%elem_of_cons.
    + destruct (Ha1 id) as [G1 G2]; [by left|]. split; [by apply (gone_stays o1)|]. intros E0. by apply (parent_gone_stays o1), G2.
    + destruct (Ha2 x Hx) as [G1 G2]. split; [done|]. intros E0. apply G2. by apply (gone_stays o).
Qed.

Lemma op_abort_ok fuel : forall o ids, op_ok o -> length (parent_requests o) < fuel ->
  exists o' l, op_abort list_set fuel o ids = Some (Ok (o', l)) /\ aborted o o' ids.
Proof using list_set_perm.
  induction fuel as [|fuel IH]; intros o ids Ho Hf; [lia|]. cbn [op_abort].
  apply (abort_loop_ok (op_abort list_set fuel) fuel); [|done|lia]. intros o1 l Ho1 Hl. by apply IH.
Qed.

(** C37: Aborting ends: whatever the ids are - of requests, of parents, unknown or
    repeated, even samples that bear the id of a parent - the recursion stops
    after at most as many rounds as there are parents, raises nothing, and leaves
    consistent tables: no listed id and no sample of a listed parent is in them,
    and every other request is as it was or was such a sample. *)
Theorem abort_requests_ends o ids : op_ok o ->
  exists o' l, op_abort_requests list_set o ids = Some (Ok (o', l)) /\ op_ok o' /\
    (forall id, id ∈ ids -> dict_get (request_states o') id = None) /\
    (forall id p pr c, id ∈ ids -> dict_get (request_states o) id = None -> dict_get (parent_requests o) id = Some p -> parents o !! p = Some pr ->
      c ∈ child_requests pr -> dict_get (request_states o') c = None) /\
    (forall id, dict_get (request_states o') id = None \/ dict_get (request_states o') id = dict_get (request_states o) id).
Proof using list_set_perm.
  intros Ho. destruct (op_abort_ok (S (length (parent_requests o))) o ids Ho) as (o' & l & E1 & Hs & Hg & Ha); [lia|].
  exists o', l. split; [exact E1|]. split; [by apply (shrinks_ok o)|]. split; [intros id Hid; apply (Ha id Hid)|]. split; [|apply (sh_states _ _ Hs)].
  intros id p pr c Hid E2 E3 Hpr Hc. apply (Hg id p pr c E3); [|done|done]. by apply (Ha id Hid).
Qed.
End Abort.

(** ** Requests do not interfere

    The front end of [LLMEngine] without parallel samples: no request has a
    parent or a collector, and no statistics are kept. *)

Definition alone s : Prop := parent_req s = None /\ queue s = None.
Definition all_alone o : Prop := forall id s, dict_get (request_states o) id = Some s -> alone s.
Definition no_logprobs out : Prop := o_new_logprobs out = None /\ o_prompt_logprobs out = None.

Definition chunk_of out : chunk := {| c_ids := o_new_token_ids out; c_finish := o_finish_reason out |}.

(** The texts that one request gets from its own chunks. *)
Fixpoint request_texts (delta : bool) (d : IncrementalDetokenizer tokenizer) (cs : list chunk) : result (list text) :=
  match cs with
  | [] => Ok []
  | c :: cs =>
      '(d, stop_string) ← detokenizer_update d (c_ids c) (bool_decide (c_finish c = Some STOP));
      let finished := bool_decide (is_Some (c_finish c)) || truthy stop_string in
      let '(d, t) := detokenizer_next_text d finished delta in
      if finished : bool then Ok [t] else ts ← request_texts delta d cs; Ok (t :: ts)
  end.

(** What a client that waits for [id] reads. *)
Definition texts_of (id : string) (ros : list RequestOutput) : list text :=
  (fun x => match ro_outputs x with [Some c] => co_text c | _ => [] end) <$> filter (fun x => ro_request_id x = id) ros.

Definition outputs_of (id : string) (outs : list EngineCoreOutput) : list EngineCoreOutput := filter (fun out => o_request_id out = id) outs.

Fixpoint run_batches o (batches : list (list EngineCoreOutput)) : result (OutputProcessor * list RequestOutput * list string) :=
  match batches with
  | [] => Ok (o, [], [])
  | outs :: batches =>
      a ← process_outputs o outs None None;
      let '(o, _, ros, ab) := (a : progress) in
      '(o, ros', ab') ← run_batches o batches;
      Ok (o, ros ++ ros', ab ++ ab')
  end.

(** One output of one request. *)
Definition reply s out : result (RequestState * option RequestOutput * bool) :=
  '(d, stop_string) ← detokenizer_update (detokenizer s) (o_new_token_ids out) (bool_decide (o_finish_reason out = Some STOP));
  let finished := bool_decide (is_Some (o_finish_reason out)) || truthy stop_string in
  let s := set_processing (logprobs_processor s) d (set_prefilling false (stats s) s) in
  let reason := if truthy stop_string then Some STOP else o_finish_reason out in
  let why := match stop_string with Some (_ :: _ as t) => Some (StopString t) | _ => StopToken <$> o_stop_reason out end in
  if negb finished && bool_decide (rs_output_kind s = FINAL_ONLY) then Ok (s, None, finished)
  else
    let '(s, c) := new_completion_output s (o_new_token_ids out) reason why in
    let '(s, x) := new_request_output s (rs_request_id s) [Some c] finished in
    Ok (s, Some x, finished).

Lemma alone_completion s ids reason why : alone s -> alone (new_completion_output s ids reason why).1.
Proof. unfold new_completion_output. by destruct (detokenizer_next_text _ _ _). Qed.

Lemma alone_output s i outs fin : alone s -> alone (new_request_output s i outs fin).1.
Proof. unfold new_request_output. destruct (bool_decide _); [by destruct (pop_prompt_logprobs _)|done]. Qed.

(** Without a parent the store of parents does not matter. *)
Lemma make_alone o s ids reason why : parent_req s = None -> make_request_output o s ids reason why =
  if negb (bool_decide (is_Some reason)) && bool_decide (rs_output_kind s = FINAL_ONLY) then Ok (o, s, None)
  else let '(s, c) := new_completion_output s ids reason why in
    let '(s, x) := new_request_output s (rs_request_id s) [Some c] (bool_decide (is_Some reason)) in Ok (o, s, Some x).
Proof.
  intros Hp. unfold make_request_output. destruct (_ && _); [done|].
  assert (Hc : parent_req (new_completion_output s ids reason why).1 = None) by (unfold new_completion_output; by destruct (detokenizer_next_text _ _ _)).
  destruct (new_completion_output s ids reason why) as [s2 c]. cbn [fst] in Hc. rewrite Hc. by destruct (new_request_output _ _ _ _).
Qed.

Lemma digest_alone s out : no_logprobs out -> digest s out =
  '(d, t) ← detokenizer_update (detokenizer s) (o_new_token_ids out) (bool_decide (o_finish_reason out = Some STOP));
  Ok (set_processing (logprobs_processor s) d s, if truthy t then Some STOP else o_finish_reason out,
    match t with Some (_ :: _ as x) => Some (StopString x) | _ => StopToken <$> o_stop_reason out end).
Proof.
  intros [H1 H2]. unfold digest. rewrite H1, H2. cbn [fmap option_fmap option_map logprobs_update].
  destruct (detokenizer_update _ _ _) as [[d t]|e]; [|done]. by destruct t as [[|x t]|].
Qed.

(** The request leaves the table with its last output. *)
Definition after_reply o (i : string) s (fin : bool) : OutputProcessor :=
  let table := dict_set i s (request_states o) in set_states (if fin then dict_pop i table else table) o.

Lemma alone_step o ros ab out s : dict_get (request_states o) (o_request_id out) = Some s -> alone s -> no_logprobs out ->
  exists s2 made fin ab', reply s out = Ok (s2, made, fin) /\ alone s2 /\
    process_output None (o, None, ros, ab) out = Ok (after_reply o (o_request_id out) s2 fin, None, ros ++ option_list made, ab').
Proof.
  intros Hs Ha Hl. unfold reply, process_output. rewrite Hs. cbn [update_stats_from_output mbind result_bind]. rewrite digest_prefilling, digest_alone by done.
  destruct (detokenizer_update_total (detokenizer s) (o_new_token_ids out) (bool_decide (o_finish_reason out = Some STOP))) as [[d t] ->].
  cbn [mbind result_bind fmap result_fmap fst snd].
  set (s1 := set_prefilling false (stats s) (set_processing (logprobs_processor s) d s)).
  change (set_processing (logprobs_processor s) d (set_prefilling false (stats s) s)) with s1.
  set (reason := if truthy t then Some STOP else o_finish_reason out).
  assert (Hfin : bool_decide (is_Some (o_finish_reason out)) || truthy t = bool_decide (is_Some reason)).
  { subst reason. destruct (truthy t); [by rewrite orb_true_r|]. by rewrite orb_false_r. }
  rewrite Hfin, make_alone by apply Ha. set (why := match t with Some (_ :: _ as x) => _ | _ => _ end).
  assert (Hend : forall s2 made, alone s2 -> (match made, queue s2 with
      | None, _ => Ok (set_states (dict_set (o_request_id out) s2 (request_states o)) o, ros)
      | Some x, Some r => o ← put_queue (set_states (dict_set (o_request_id out) s2 (request_states o)) o) r (inl x); Ok (o, ros)
      | Some x, None => Ok (set_states (dict_set (o_request_id out) s2 (request_states o)) o, ros ++ [x])
      end) = Ok (set_states (dict_set (o_request_id out) s2 (request_states o)) o, ros ++ option_list made)).
  { intros s2 [x|] [_ E2]; cbn; [by rewrite E2|by rewrite app_nil_r]. }
  assert (Hfree : forall s2 o', alone s2 -> free_completed o' s2 (o_request_id out) = Ok (set_states (dict_pop (o_request_id out) (request_states o')) o')).
  { intros s2 o' [E1 _]. unfold free_completed. by rewrite E1. }
  destruct (negb _ && _).
  - exists s1, None, (bool_decide (is_Some reason)). cbn [mbind result_bind option_list]. rewrite app_nil_r.
    destruct reason as [r|]; cbn [mbind result_bind]; [rewrite (Hfree s1 _ Ha); cbn [mbind result_bind update_stats_from_finished]|]; eexists; by repeat (split; [done|]).
  - pose proof (alone_completion s1 (o_new_token_ids out) reason why Ha) as Hc. destruct (new_completion_output s1 _ _ _) as [s2 c]. cbn [fst] in Hc.
    pose proof (alone_output s2 (rs_request_id s2) [Some c] (bool_decide (is_Some reason)) Hc) as Hx. destruct (new_request_output s2 _ _ _) as [s3 x]. cbn [fst] in Hx.
    exists s3, (Some x), (bool_decide (is_Some reason)). cbn [mbind result_bind]. rewrite (Hend s3 (Some x) Hx). cbn [mbind result_bind].
    destruct reason as [r|]; cbn [mbind result_bind]; [rewrite (Hfree s3 _ Hx); cbn [mbind result_bind update_stats_from_finished]|]; eexists; by repeat (split; [done|]).
Qed.

Lemma texts_of_one i x : texts_of i (option_list (Some x)) =
  if decide (ro_request_id x = i) then [match ro_outputs x with [Some c] => co_text c | _ => [] end] else [].
Proof. unfold texts_of, filter. cbn. by case_decide. Qed.

(** The text of a reply is the one that its chunk gives. *)
Lemma reply_text s out s2 made fin : rs_output_kind s <> FINAL_ONLY -> reply s out = Ok (s2, made, fin) ->
  rs_output_kind s2 = rs_output_kind s /\ rs_request_id s2 = rs_request_id s /\
  exists t, texts_of (rs_request_id s) (option_list made) = [t] /\
    forall cs, request_texts (bool_decide (rs_output_kind s = DELTA)) (detokenizer s) (chunk_of out :: cs) =
      if fin then Ok [t] else ts ← request_texts (bool_decide (rs_output_kind s = DELTA)) (detokenizer s2) cs; Ok (t :: ts).
Proof.
  intros Hk. unfold reply. cbn [request_texts chunk_of c_ids c_finish].
  destruct (detokenizer_update _ _ _) as [[d t]|e]; [|done]. cbn [mbind result_bind rs_output_kind set_processing set_prefilling rs_request_id].
  rewrite (bool_decide_eq_false_2 (rs_output_kind s = FINAL_ONLY)) by done. rewrite andb_false_r.
  set (reason := if truthy t then Some STOP else o_finish_reason out).
  assert (Hfin : bool_decide (is_Some (o_finish_reason out)) || truthy t = bool_decide (is_Some reason)).
  { subst reason. destruct (truthy t); [by rewrite orb_true_r|]. by rewrite orb_false_r. }
  unfold new_completion_output. cbn [detokenizer rs_output_kind set_processing set_prefilling]. rewrite Hfin.
  destruct (detokenizer_next_text d _ _) as [d2 x]. unfold new_request_output. cbn [rs_output_kind set_processing set_prefilling].
  destruct (if bool_decide (rs_output_kind s = DELTA) then _ else _) as [q plp] eqn:Eq. intros [= <- <- <-].
  split; [done|]. split; [done|]. exists x. split; [|done].
  rewrite texts_of_one. cbn [ro_request_id]. by rewrite decide_True.
Qed.

Lemma texts_of_app i l1 l2 : texts_of i (l1 ++ l2) = texts_of i l1 ++ texts_of i l2.
Proof. unfold texts_of. by rewrite filter_app, fmap_app. Qed.

Lemma reply_other s out s2 made fin i : reply s out = Ok (s2, made, fin) -> rs_request_id s <> i -> texts_of i (option_list made) = [].
Proof.
  unfold reply. destruct (detokenizer_update _ _ _) as [[d t]|e]; [|done]. cbn [mbind result_bind]. destruct (_ && _); [by intros [= <- <- <-]|].
  unfold new_completion_output. destruct (detokenizer_next_text _ _ _) as [d2 x]. unfold new_request_output.
  destruct (if _ : bool then _ else _) as [q plp]. intros [= <- <- <-] Hne. rewrite texts_of_one. cbn [ro_request_id]. by rewrite decide_False.
Qed.

Lemma after_reply_get o i s fin j : dict_get (request_states (after_reply o i s fin)) j =
  if decide (j = i) then (if fin then None else Some s) else dict_get (request_states o) j.
Proof.
  unfold after_reply. cbn [request_states set_states]. destruct fin; rewrite ?dict_get_pop, dict_get_set; by case_decide.
Qed.

(** Outputs for requests on their own, one after the other. *)
Lemma alone_run outs : forall o ros ab, op_ok o -> all_alone o -> Forall no_logprobs outs ->
  exists o' ros' ab', foldM (process_output None) (o, None, ros, ab) outs = Ok (o', None, ros ++ ros', ab') /\ op_ok o' /\ all_alone o' /\
    forall i, match dict_get (request_states o) i with
      | None => texts_of i ros' = []
      | Some s => rs_output_kind s <> FINAL_ONLY ->
          request_texts (bool_decide (rs_output_kind s = DELTA)) (detokenizer s) (chunk_of <$> outputs_of i outs) = Ok (texts_of i ros')
      end.
Proof.
  induction outs as [|out outs IH]; intros o ros ab Ho Ha Hl; cbn [foldM].
  { exists o, [], ab. rewrite app_nil_r. split; [done|]. split; [done|]. split; [done|]. intros i. by destruct (dict_get _ i). }
  apply Forall_cons in Hl as [Hl Hls]. set (id := o_request_id out). destruct (dict_get (request_states o) id) as [s|] eqn:Es.
  2: { destruct (IH o ros ab Ho Ha Hls) as (o' & ros' & ab' & E1 & H1 & H2 & H3). exists o', ros', ab'.
       assert (E0 : process_output None (o, None, ros, ab) out = Ok (o, None, ros, ab)) by (unfold process_output; fold id; by rewrite Es). rewrite E0.
       cbn [mbind result_bind]. split; [done|]. split; [done|]. split; [done|]. intros i. specialize (H3 i). destruct (decide (i = id)) as [->|Hne].
       - rewrite Es in H3. by rewrite Es.
       - destruct (dict_get _ i); [|done]. unfold outputs_of. by rewrite filter_cons_False. }
  destruct (alone_step o ros ab out s Es (Ha id s Es) Hl) as (s2 & made & fin & ab2 & Er & Ha2 & Ep).
  assert (Hone : op_ok (after_reply o id s2 fin)).
  { destruct (process_output_ok None o None ros ab out Ho) as (o1 & it1 & ros1 & E1 & Ho1 & _).
    - intros s3 Hs3. split; [|by intros []]. destruct Hl as [G1 G2]. unfold out_fits. rewrite G1, G2. done.
    - fold id in Ep. rewrite Ep in E1. by injection E1 as <-. }
  assert (Halone : all_alone (after_reply o id s2 fin)).
  { intros i x. rewrite after_reply_get. case_decide; [destruct fin; [done|by intros [= <-]]|apply Ha]. }
  destruct (IH _ (ros ++ option_list made) ab2 Hone Halone Hls) as (o' & ros' & ab' & E1 & H1 & H2 & H3).
  exists o', (option_list made ++ ros'), ab'. rewrite Ep. cbn [mbind result_bind]. fold id. rewrite E1, app_assoc. split; [done|]. split; [done|]. split; [done|].
  pose proof (st_id _ _ _ (op_states o Ho id s Es)) as Hid. intros i. specialize (H3 i). rewrite after_reply_get in H3. rewrite texts_of_app.
  destruct (decide (i = id)) as [->|Hne].
  - rewrite Es. intros Hk. destruct (reply_text s out s2 made fin Hk Er) as (Hk2 & _ & t & Ht & Hcs). rewrite Hid in Ht. rewrite Ht.
    unfold outputs_of. rewrite filter_cons_True by done. rewrite fmap_cons, Hcs. destruct fin; [by rewrite H3|].
    rewrite Hk2 in H3. unfold outputs_of in H3. by rewrite H3.
  - rewrite (reply_other s out s2 made fin i Er) by (by rewrite Hid). cbn [app]. destruct (dict_get _ i); [|done].
    unfold outputs_of. rewrite filter_cons_False by done. exact H3.
Qed.

(** The accumulators of the loop only grow. *)
Lemma process_output_acc ts o it ros ab out : process_output ts (o, it, ros, ab) out =
  (fun a : progress => (a.1.1.1, a.1.1.2, ros ++ a.1.2, ab ++ a.2)) <$> process_output ts (o, it, [], []) out.
Proof.
  unfold process_output. destruct (dict_get _ _) as [s|]; [|cbn; by rewrite !app_nil_r].
  destruct (update_stats_from_output _ _ _ _ _) as [[[o1 s1] it1]|e]; [|done]. cbn [mbind result_bind].
  destruct (digest _ _) as [[[s2 reason] why]|e]; [|done]. cbn [mbind result_bind].
  destruct (make_request_output _ _ _ _ _) as [[[o2 s3] made]|e]; [|done]. cbn [mbind result_bind].
  destruct made as [x|]; [destruct (queue s3) as [r|]; [destruct (put_queue _ _ _) as [o3|e]; [|done]|]|]; cbn [mbind result_bind];
    (destruct reason as [reason|]; [|cbn; by rewrite ?app_nil_r]);
    (destruct (free_completed _ _ _) as [o4|e]; [|done]); cbn [mbind result_bind];
    (destruct (update_stats_from_finished _ _ _ _) as [[o5 it5]|e]; [|done]); cbn; rewrite ?app_nil_r; (destruct (bool_decide _); by rewrite ?app_nil_r).
Qed.

Lemma batch_acc ts outs : forall o it ros ab, foldM (process_output ts) (o, it, ros, ab) outs =
  (fun a : progress => (a.1.1.1, a.1.1.2, ros ++ a.1.2, ab ++ a.2)) <$> foldM (process_output ts) (o, it, [], []) outs.
Proof.
  induction outs as [|out outs IH]; intros o it ros ab; cbn [foldM]; [cbn; by rewrite !app_nil_r|].
  rewrite (process_output_acc ts o it ros ab). destruct (process_output ts (o, it, [], []) out) as [[[[o1 it1] ros1] ab1]|e]; [|done]. cbn [fmap result_fmap mbind result_bind fst snd].
  rewrite (IH o1 it1 (ros ++ ros1)), (IH o1 it1 ros1). destruct (foldM _ _ outs) as [[[[o2 it2] ros2] ab2]|e]; [|done]. cbn. by rewrite !app_assoc.
Qed.

Lemma no_stats_batch outs : forall o ros ab a, foldM (process_output None) (o, None, ros, ab) outs = Ok a -> a.1.1.2 = None.
Proof.
  induction outs as [|out outs IH]; intros o ros ab a; cbn [foldM]; [by intros [= <-]|]. intros E0. apply bind_ok in E0 as ([[[o1 it1] ros1] ab1] & E1 & E0).
  assert (it1 = None) as ->; [|by apply IH in E0]. clear E0 IH. unfold process_output in E1. destruct (dict_get _ _) as [s|]; [|by injection E1].
  cbn [update_stats_from_output mbind result_bind] in E1. destruct (digest _ _) as [[[s2 reason] why]|e]; [|done]. cbn [mbind result_bind] in E1.
  apply bind_ok in E1 as ([[o2 s3] made] & _ & E1). apply bind_ok in E1 as ([o3 ros3] & _ & E1). destruct reason; [|by injection E1].
  apply bind_ok in E1 as (o4 & _ & E1). cbn [update_stats_from_finished mbind result_bind] in E1. by injection E1.
Qed.

(** How the outputs are grouped in batches does not matter. *)
Lemma run_batches_join batches : forall o o' ros ab, foldM (process_output None) (o, None, [], []) (mjoin batches) = Ok (o', None, ros, ab) ->
  run_batches o batches = Ok (o', ros, ab).
Proof.
  induction batches as [|outs batches IH]; intros o o' ros ab; cbn [mjoin list_join run_batches]; [by intros [= <- <- <-]|].
  rewrite foldM_app. intros E0. apply bind_ok in E0 as ([[[o1 it1] ros1] ab1] & E1 & E0). pose proof (no_stats_batch _ _ _ _ _ E1) as Hit. cbn in Hit. subst it1.
  unfold process_outputs. rewrite E1. cbn [mbind result_bind fmap option_fmap option_map]. rewrite batch_acc in E0.
  destruct (foldM _ _ (mjoin batches)) as [[[[o2 it2] ros2] ab2]|e] eqn:E2; [|done]. pose proof (no_stats_batch _ _ _ _ _ E2) as Hit. cbn in Hit. subst it2.
  rewrite (IH _ _ _ _ E2). cbn in *. by injection E0 as <- <- <-.
Qed.

(** C21: Requests do not interfere: when the engine's outputs for any number of
    requests arrive in any order and in any batches, nothing is raised, and the
    texts that the client of one request reads, whole or as differences, are
    those that its own tokens give when they are fed to its own detokenizer, up
    to its end. *)
Theorem requests_do_not_interfere o batches id s : op_ok o -> all_alone o -> Forall no_logprobs (mjoin batches) ->
  dict_get (request_states o) id = Some s -> rs_output_kind s <> FINAL_ONLY ->
  exists o' ros ab, run_batches o batches = Ok (o', ros, ab) /\ op_ok o' /\
    request_texts (bool_decide (rs_output_kind s = DELTA)) (detokenizer s) (chunk_of <$> outputs_of id (mjoin batches)) = Ok (texts_of id ros).
Proof.
  intros Ho Ha Hl Hs Hk. destruct (alone_run (mjoin batches) o [] [] Ho Ha Hl) as (o' & ros & ab & E1 & Ho' & _ & H1). cbn [app] in E1.
  exists o', ros, ab. split; [by apply run_batches_join|]. split; [done|]. specialize (H1 id). rewrite Hs in H1. by apply H1.
Qed.

(** With the theorem on streams: a reader of differences and a reader of whole
    texts see the same. *)
Lemma fast_request_texts delta (d : BaseIncrementalDetokenizer (FastDecoder tokenizer)) cs :
  request_texts delta (FastIncrementalDetokenizer d) cs = shown_texts delta d cs.
Proof.
  revert d. induction cs as [|c cs IH]; intros d; [done|]. cbn [request_texts shown_texts detokenizer_update]. unfold deliver.
  destruct (update d (c_ids c) _) as [[d1 t]|e]; [|done]. cbn [mbind result_bind detokenizer_next_text].
  destruct (get_next_output_text d1 _ delta) as [d2 x]. cbn [mbind result_bind]. destruct (_ || _); [done|]. by rewrite IH.
Qed.
End Spec.

(** ** Concrete runs *)

Module OutputDemo.
(** Every id is a character, and the stream decodes it at once. *)
#[export] Instance letters : Tokenizer unit := {|
  convert_ids_to_tokens := fun _ ids _ => (fun i => Some [i]) <$> ids; convert_tokens_to_string := fun _ toks => Ok (mjoin (default [] <$> toks));
  all_special_tokens := fun _ => []; added_vocab := fun _ => []; is_fast := fun _ => true; tokenizer_len := fun _ => 256%Z;
  supports_stream := fun _ => true; DecodeStream := unit; new_stream := fun _ => tt; stream_step := fun s _ i => (s, Some [i]);
  fast_decode := fun _ ids => ids; added_tokens_decoder := fun _ => [] |}.

#[export] Instance letters_total : TotalTokenizer letters.
Proof. intros tk toks. by eexists. Qed.

#[export] Instance out_env : Env := {| connector_state := unit; connector_meta := unit; bitmask := unit; logprobs_lists := unit; logprobs_tensors := unit;
  hash_fn := fun _ => 7%Z; NONE_HASH := 0%Z; set_order := elements; logprobs_slice := fun l _ _ => l; grammar_bitmask := fun _ _ _ => None;
  get_num_new_matched_tokens := fun _ _ _ => 0%Z; update_state_after_alloc := fun c _ _ => c |}.

#[export] Instance out_view : LogprobsView out_env PromptDemo.z_values := {|
  lists_view := fun _ => {| logprob_token_ids := []; logprobs_lst := []; sampled_token_ranks := [] |};
  tensors_view := fun _ => {| t_token_ids := []; t_logprobs := []; t_ranks := []; t_width := 0 |} |}.

Definition request (id : string) (k : RequestOutputKind) : FrontRequest := {| f_request_id := id; f_prompt_token_ids := [1; 2]%Z;
  f_params := {| sp_n := 1; seed := None; stop := [str "end"]; include_stop_str_in_output := false; detokenize := true; skip_special_tokens := true;
    spaces_between_special_tokens := true; out_logprobs := None; out_prompt_logprobs := None; out_max_tokens := None; output_kind := k |};
  f_arrival_time := 0; f_lora_name := None |}.

Definition two_requests : result (OutputProcessor (L := PromptDemo.z_values) (tokenizer := unit)) :=
  o ← op_add_request (fun _ => tt) (op_init false) (request "a" DELTA) None None 0 None;
  op_add_request (fun _ => tt) o (request "b" CUMULATIVE) None None 0 None.

Definition out (id : string) (s : string) (reason : option FinishReason) : EngineCoreOutput :=
  {| o_request_id := id; o_new_token_ids := str s; o_finish_reason := reason; o_new_logprobs := None; o_prompt_logprobs := None; o_stop_reason := None; o_events := None |}.

Lemma two_requests_ok : exists o, two_requests = Ok o /\ op_ok o /\ all_alone o.
Proof.
  destruct (op_add_alone_ok (L := PromptDemo.z_values) (fun _ => tt) (op_init false) (request "a" DELTA) None (op_init_ok false)) as (o1 & E1 & H1 & K1 & G1);
    [apply not_elem_of_nil|].
  destruct (op_add_alone_ok (fun _ => tt) o1 (request "b" CUMULATIVE) None H1) as (o2 & E2 & H2 & _ & G2).
  { rewrite K1. cbn. by intros [?|?%elem_of_nil]%elem_of_cons. }
  exists o2. unfold two_requests. rewrite E1. cbn [mbind result_bind]. split; [exact E2|]. split; [exact H2|].
  intros id s. rewrite G2. case_decide; [by intros [= <-]|]. rewrite G1. case_decide; [by intros [= <-]|]. done.
Qed.

(** The first request meets its stop string, the second goes on. *)
Definition batch : list (EngineCoreOutput (E := out_env)) := [out "a" "the end." None; out "c" "x" None; out "b" "more" None].
Definition batches : list (list (EngineCoreOutput (E := out_env))) := [[out "a" "on" None; out "b" "x" None]; [out "b" "y" None; out "a" "e" None]; [out "a" " end" None]].
End OutputDemo.
#[local] Existing Instances OutputDemo.letters OutputDemo.letters_total OutputDemo.out_env OutputDemo.out_view PromptDemo.z_values.

Lemma process_outputs_correct_witness :
  exists o o' ros, OutputDemo.two_requests = Ok o /\
    process_outputs o OutputDemo.batch None None = Ok (o', None, ros, ["a"]) /\ op_ok o' /\ keys (request_states o') = ["b"].
Proof.
  destruct OutputDemo.two_requests_ok as (o & E0 & Ho & _).
  assert (Hnd : NoDup (o_request_id <$> OutputDemo.batch)) by (apply (bool_decide_eq_true_1 _); vm_compute; reflexivity).
  assert (Hf : forall out s, out ∈ OutputDemo.batch -> dict_get (request_states o) (o_request_id out) = Some s -> out_fits s out /\ stats_fit None None s out).
  { intros out s Hin _. split; [|intros []; discriminate]. unfold OutputDemo.batch in Hin.
    repeat (apply elem_of_cons in Hin as [->|Hin]; [split; discriminate|]). by apply elem_of_nil in Hin. }
  destruct (process_outputs_correct o OutputDemo.batch None None Ho Hnd Hf) as (o' & it' & ros & E1 & Ho' & _).
  remember (OutputDemo.batch ≫= to_abort o) as ab eqn:Eab. clear Eab.
  assert (Hc : (o ← OutputDemo.two_requests; a ← process_outputs o OutputDemo.batch None None; Ok (a.1.1.2, a.2, keys (request_states a.1.1.1))) = Ok (None, ["a"], ["b"])) by (vm_compute; reflexivity).
  rewrite E0 in Hc. cbn [mbind result_bind] in Hc. rewrite E1 in Hc. cbn [mbind result_bind fst snd] in Hc. injection Hc as -> -> Hc3.
  exists o, o', ros. split; [exact E0|]. exact (conj E1 (conj Ho' Hc3)).
Defined.

Lemma abort_requests_ends_witness :
  exists o o' l, OutputDemo.two_requests = Ok o /\ op_abort_requests elements o ["a"; "zzz"] = Some (Ok (o', l)) /\ dict_get (request_states o') "a" = None.
Proof.
  destruct OutputDemo.two_requests_ok as (o & E0 & Ho & _).
  destruct (abort_requests_ends elements (fun _ => reflexivity _) o ["a"; "zzz"] Ho) as (o' & l & E1 & _ & Hgone & _).
  exists o, o', l. split; [exact E0|]. split; [exact E1|]. apply Hgone. left.
Defined.

Lemma requests_do_not_interfere_witness :
  exists o s o' ros ab, OutputDemo.two_requests = Ok o /\ dict_get (request_states o) "a" = Some s /\ run_batches o OutputDemo.batches = Ok (o', ros, ab) /\
    texts_of "a" ros = [[]; str "o"; str "ne "].
Proof.
  destruct OutputDemo.two_requests_ok as (o & E0 & Ho & Ha).
  assert (Hl : Forall no_logprobs (mjoin OutputDemo.batches)) by (repeat constructor).
  assert (Hs : exists s, dict_get (request_states o) "a" = Some s /\ rs_output_kind s = DELTA /\
    request_texts true (detokenizer s) (chunk_of <$> outputs_of "a" (mjoin OutputDemo.batches)) = Ok [[]; str "o"; str "ne "]).
  { unfold OutputDemo.two_requests in E0. cbn [mbind result_bind] in E0. injection E0 as <-. eexists. split; [reflexivity|]. split; [reflexivity|vm_compute; reflexivity]. }
  destruct Hs as (s & Hs & Hk & Ht). assert (Hf : rs_output_kind s <> FINAL_ONLY) by (by rewrite Hk).
  destruct (requests_do_not_interfere o OutputDemo.batches "a" s Ho Ha Hl Hs Hf) as (o' & ros & ab & E1 & _ & H1).
  rewrite Hk in H1. change (bool_decide (DELTA = DELTA)) with true in H1. rewrite Ht in H1. injection H1 as H1.
  exists o, s, o', ros, ab. exact (conj E0 (conj Hs (conj E1 (eq_sym H1)))).
Defined.
