(* ===== verification/Numbers.v ===== *)
(** * Numbers

    Floating-point numbers as exact rationals with -inf, inf and nan as values of
    their own, sums of rationals, and lists of rationals up to [==]. *)

From Stdlib Require Import QArith_base QArith Qminmax Lqa.
From S2P Require Import Prelude.

(** ** Floats *)

Inductive float := NInf | Fin (x : Q) | PInf | NaN.

#[export] Instance float_inhabited : Inhabited float := populate NaN.

Definition fle (x y : float) : bool :=
  match x, y with
  | NaN, _ | _, NaN => false
  | NInf, _ | _, PInf => true
  | Fin x, Fin y => Qle_bool x y
  | _, _ => false
  end.

Definition flt (x y : float) : bool := match x, y with NaN, _ | _, NaN => false | _, _ => negb (fle y x) end.

Definition fadd (x : float) (d : Q) : float := match x with Fin x => Fin (x + d) | x => x end.

Definition fscale (s : Q) (x : float) : float :=
  match x with
  | Fin x => Fin (x * s)
  | NaN => NaN
  | NInf => if Qeq_bool s 0 then NaN else if Qle_bool 0 s then NInf else PInf
  | PInf => if Qeq_bool s 0 then NaN else if Qle_bool 0 s then PInf else NInf
  end.

Definition fdiv (x : float) (t : Q) : float :=
  match x with
  | Fin x => if Qeq_bool t 0 then (if Qeq_bool x 0 then NaN else if Qle_bool 0 x then PInf else NInf) else Fin (x / t)
  | NaN => NaN
  | NInf => if Qle_bool 0 t then NInf else PInf
  | PInf => if Qle_bool 0 t then PInf else NInf
  end.

(** ** Sums *)

#[export] Instance Q_inhabited : Inhabited Q := populate 0%Q.

Fixpoint qsum (l : list Q) : Q := match l with [] => 0%Q | x :: l => (x + qsum l)%Q end.

Lemma qsum_nonneg l : Forall (fun x => 0 <= x)%Q l -> (0 <= qsum l)%Q.
Proof. induction 1 as [|x l Hx Hl IH]; cbn in *; lra. Qed.

Lemma qsum_split c P : (qsum P == qsum (take c P) + qsum (drop c P))%Q.
Proof.
  revert c. induction P as [|x P IH]; intros [|c]; [by cbn..|rewrite take_0, drop_0; cbn; lra|]. change (take (S c) (x :: P)) with (x :: take c P). cbn [qsum skipn drop]. rewrite (IH c). lra.
Qed.

Lemma qsum_insert l d x y : l !! d = Some x -> (qsum (<[d := y]> l) == qsum l - x + y)%Q.
Proof.
  revert d. induction l as [|z l IH]; intros [|d] Hd; try done; cbn in Hd.
  - injection Hd as ->. cbn. lra.
  - change (<[S d := y]> (z :: l)) with (z :: <[d := y]> l). cbn [qsum]. rewrite (IH d Hd). lra.
Qed.


(** ** Lists up to [==] *)

Definition Qeql : relation (list Q) := Forall2 Qeq.
Definition Qeqm : relation (list (list Q)) := Forall2 Qeql.

#[export] Instance Qeql_equivalence : Equivalence Qeql.
Proof. unfold Qeql. split; apply _. Qed.

#[export] Instance Qeqm_equivalence : Equivalence Qeqm.
Proof. unfold Qeqm. split; apply _. Qed.

#[export] Instance qsum_proper : Proper (Qeql ==> Qeq) qsum.
Proof. intros l k H. induction H as [|x y l k Hx Hl IH]; cbn; [done|]. by rewrite Hx, IH. Qed.

Lemma Qeql_lookup l k : Qeql l k <-> length l = length k /\ forall i x y, l !! i = Some x -> k !! i = Some y -> (x == y)%Q.
Proof.
  split.
  - intros H. split; [exact (Forall2_length _ _ _ H)|]. intros i x y Hx Hy. exact (Forall2_lookup_lr _ _ _ _ _ _ H Hx Hy).
  - intros [Hl H]. by apply Forall2_same_length_lookup_2.
Qed.

Lemma Qeql_fmap {A} (f g : A -> Q) l : (forall x, x ∈ l -> (f x == g x)%Q) -> Qeql (f <$> l) (g <$> l).
Proof. intros H. apply Forall2_fmap, Forall_Forall2_diag, Forall_forall, H. Qed.

Lemma Qeqm_fmap {A} (f g : A -> list Q) l : (forall x, x ∈ l -> Qeql (f x) (g x)) -> Qeqm (f <$> l) (g <$> l).
Proof. intros H. apply Forall2_fmap, Forall_Forall2_diag, Forall_forall, H. Qed.

Lemma qsum_app l k : (qsum (l ++ k) == qsum l + qsum k)%Q.
Proof. induction l as [|x l IH]; [cbn; ring|]. change ((x :: l) ++ k) with (x :: (l ++ k)). cbn [qsum]. rewrite IH. ring. Qed.

Lemma qsum_scale_r l c : (qsum ((fun x => x * c) <$> l) == qsum l * c)%Q.
Proof. induction l as [|x l IH]; [cbn; ring|]. rewrite fmap_cons. cbn [qsum]. rewrite IH. ring. Qed.

Lemma qsum_sub_const l c : (qsum ((fun x => x - c) <$> l) == qsum l - inject_Z (Z.of_nat (length l)) * c)%Q.
Proof.
  induction l as [|x l IH]; [cbn; ring|]. rewrite fmap_cons. cbn [qsum length]. rewrite IH, Nat2Z.inj_succ, <-Z.add_1_l, inject_Z_plus. ring.
Qed.

Lemma qsum_fmap_add {A} (f g : A -> Q) l : (qsum ((fun x => f x + g x) <$> l) == qsum (f <$> l) + qsum (g <$> l))%Q.
Proof. induction l as [|x l IH]; [cbn; ring|]. rewrite !fmap_cons. cbn [qsum]. rewrite IH. ring. Qed.

Lemma qsum_mjoin (ll : list (list Q)) : (qsum (mjoin ll) == qsum (qsum <$> ll))%Q.
Proof. induction ll as [|l ll IH]; [done|]. rewrite fmap_cons. cbn [qsum]. rewrite <-IH. apply qsum_app. Qed.

#[export] Instance qsum_perm_proper : Proper (Permutation ==> Qeq) qsum.
Proof. intros l k H. induction H as [|x l k _ IH|x y l|l1 l2 l3 _ IH1 _ IH2]; cbn; [done|by rewrite IH|lra|by rewrite IH1]. Qed.

Lemma Q_of_nat_pos n : (0 < n)%nat -> (0 < inject_Z (Z.of_nat n))%Q.
Proof. intros H. unfold Qlt. cbn. lia. Qed.
