(* ===== verification/NumPy.v ===== *)
(** * The operations of numpy arrays that the workers use

    An array of one dimension is a list, one of two dimensions a list of rows.
    Reading and writing single elements and assigning to a slice of a row, with the
    broadcast of one value.  [np.repeat] and [np.cumsum] are parameters with their
    documented results as laws. *)

From S2P Require Import Prelude.

Section Arrays.
Context {A : Type}.
Implicit Types (l row : list A).

Definition np_get l (i : nat) : result A := of_option IndexError (l !! i).

Definition np_put (i : nat) (x : A) l : result (list A) :=
  if i <? length l then Ok (<[i := x]> l) else Err IndexError.

(** [row[start:stop] = vals]: the lengths agree, or one value fills the slice. *)
Definition np_write (start stop : Z) (vals row : list A) : result (list A) :=
  let a := py_bound (length row) start in
  let w := py_bound (length row) stop - a in
  match vals with
  | [x] => Ok (list_inserts a (replicate w x) row)
  | _ => if length vals =? w then Ok (list_inserts a vals row) else Err ValueError
  end.

(** Every element as often as its count says. *)
Definition repeat_each l (counts : list nat) : list A := mjoin (zip_with (flip replicate) l counts).
End Arrays.

(** [table[i, start:stop] = vals] *)
Definition np_write_row {A} (i : nat) (start stop : Z) (vals : list A) (table : list (list A)) : result (list (list A)) :=
  row ← np_get table i;
  row ← np_write start stop vals row;
  Ok (<[i := row]> table).

Section Laws.
Context {A : Type}.
Implicit Types (l row : list A).

Lemma np_get_ok l i x : np_get l i = Ok x <-> l !! i = Some x.
Proof. apply of_option_ok. Qed.

Lemma np_put_ok i x l : i < length l -> np_put i x l = Ok (<[i := x]> l).
Proof. intros H. unfold np_put. by rewrite (proj2 (Nat.ltb_lt _ _) H). Qed.

Lemma py_bound_nat n i : i <= n -> py_bound n (Z.of_nat i) = i.
Proof. intros H. unfold py_bound. destruct (Z.ltb_spec (Z.of_nat i) 0); [lia|]. rewrite Nat2Z.id. lia. Qed.

(** Writing as many values as the slice has, inside the row. *)
Lemma np_write_ok (start : nat) vals row : start + length vals <= length row ->
  np_write (Z.of_nat start) (Z.of_nat start + Z.of_nat (length vals)) vals row = Ok (list_inserts start vals row).
Proof.
  intros H. unfold np_write. rewrite <-Nat2Z.inj_add, !py_bound_nat by lia.
  replace (start + length vals - start) with (length vals) by lia.
  destruct vals as [|x [|y vals]]; [done|done|]. by rewrite Nat.eqb_refl.
Qed.

Lemma np_write_row_ok i (start : nat) vals table row : table !! i = Some row -> start + length vals <= length row ->
  np_write_row i (Z.of_nat start) (Z.of_nat start + Z.of_nat (length vals)) vals table = Ok (<[i := list_inserts start vals row]> table).
Proof.
  intros E H. unfold np_write_row, np_get. rewrite E. cbn [of_option mbind result_bind]. by rewrite np_write_ok.
Qed.

(** The prefix of a row after a write into it: what is before stays, what is
    written follows. *)
Lemma take_inserts (start : nat) vals row : start + length vals <= length row ->
  take (start + length vals) (list_inserts start vals row) = take start row ++ vals.
Proof.
  intros H. apply list_eq. intros j. destruct (decide (j < start + length vals)) as [Hj|Hj].
  - rewrite lookup_take_lt by done. destruct (decide (j < start)) as [Hs|Hs].
    + rewrite list_lookup_inserts_lt by done. rewrite lookup_app_l by (rewrite length_take; lia). by rewrite lookup_take_lt.
    + rewrite list_lookup_inserts by lia. rewrite lookup_app_r by (rewrite length_take; lia). f_equal. rewrite length_take. lia.
  - rewrite lookup_take_ge by lia. symmetry. apply lookup_ge_None. rewrite length_app, length_take. lia.
Qed.

Lemma take_inserts_before n (start : nat) vals row : n <= start -> take n (list_inserts start vals row) = take n row.
Proof.
  intros H. apply list_eq. intros j. destruct (decide (j < n)).
  - rewrite !lookup_take_lt by done. apply list_lookup_inserts_lt. lia.
  - by rewrite !lookup_take_ge by lia.
Qed.

Lemma repeat_each_cons x l c counts : repeat_each (x :: l) (c :: counts) = replicate c x ++ repeat_each l counts.
Proof. done. Qed.
End Laws.

(** Sums of the first elements, from a start value. *)
Fixpoint cumsum_from (acc : nat) (l : list nat) : list nat :=
  match l with
  | [] => []
  | x :: l => (acc + x) :: cumsum_from (acc + x) l
  end.

Definition cumsum (l : list nat) : list nat := cumsum_from 0 l.

Lemma length_cumsum_from acc l : length (cumsum_from acc l) = length l.
Proof. revert acc. induction l as [|x l IH]; intros acc; cbn; [done|]. by rewrite IH. Qed.

Lemma last_cumsum_from acc l : l <> [] -> last (cumsum_from acc l) = Some (acc + sum_list l).
Proof.
  revert acc. induction l as [|x l IH]; intros acc H; [done|]. destruct l as [|y l].
  - cbn. f_equal. lia.
  - cbn [cumsum_from]. change (last (cumsum_from (acc + x) (y :: l)) = Some (acc + sum_list (x :: y :: l))). rewrite IH by done. f_equal. cbn. lia.
Qed.

Lemma length_cumsum l : length (cumsum l) = length l.
Proof. apply length_cumsum_from. Qed.

Lemma last_cumsum l : l <> [] -> last (cumsum l) = Some (sum_list l).
Proof. apply last_cumsum_from. Qed.

(** The two functions of the library that the runner calls on whole arrays, and
    what their documentation says. *)
Class NumPy := {
  np_repeat : forall {A : Type}, list A -> list nat -> list A;
  np_cumsum : list nat -> list nat;
}.

Class NumPyLaws (NP : NumPy) : Prop := {
  np_repeat_eq : forall {A : Type} (l : list A) counts, length l = length counts -> np_repeat l counts = repeat_each l counts;
  np_cumsum_eq : forall l, np_cumsum l = cumsum l;
}.
