(* ===== verification/BlockTable.v ===== *)
(** * The block table of the worker

    Model of [vllm/v1/worker/block_table.py]: one row of block ids per place of
    the persistent batch, in the memory of the CPU and on the device.  Block ids
    fit in 32 bits. *)

From S2P Require Import Prelude NumPy.

Record BlockTable := {
  bt_max_num_reqs : nat;
  max_num_blocks_per_req : nat;
  block_table : list (list nat);      (* on the device *)
  block_table_np : list (list nat);   (* the memory of [block_table_cpu] *)
  num_blocks_per_row : list nat;
}.

Definition block_table_init (max_num_reqs max_num_blocks_per_req : nat) : BlockTable :=
  let zeros := replicate max_num_reqs (replicate max_num_blocks_per_req 0) in
  {| bt_max_num_reqs := max_num_reqs; max_num_blocks_per_req := max_num_blocks_per_req; block_table := zeros; block_table_np := zeros;
     num_blocks_per_row := replicate max_num_reqs 0 |}.

Definition set_rows rows counts t : BlockTable :=
  {| bt_max_num_reqs := bt_max_num_reqs t; max_num_blocks_per_req := max_num_blocks_per_req t; block_table := block_table t; block_table_np := rows;
     num_blocks_per_row := counts |}.

Definition set_device rows t : BlockTable :=
  {| bt_max_num_reqs := bt_max_num_reqs t; max_num_blocks_per_req := max_num_blocks_per_req t; block_table := rows; block_table_np := block_table_np t;
     num_blocks_per_row := num_blocks_per_row t |}.

Definition append_row (block_ids : list nat) (row_idx : nat) (t : BlockTable) : result BlockTable :=
  match block_ids with
  | [] => Ok t
  | _ =>
      let num_blocks := length block_ids in
      start ← np_get (num_blocks_per_row t) row_idx;
      rows ← np_write_row row_idx (Z.of_nat start) (Z.of_nat start + Z.of_nat num_blocks) block_ids (block_table_np t);
      Ok (set_rows rows (<[row_idx := start + num_blocks]> (num_blocks_per_row t)) t)
  end.

Definition add_row (block_ids : list nat) (row_idx : nat) (t : BlockTable) : result BlockTable :=
  counts ← np_put row_idx 0 (num_blocks_per_row t);
  append_row block_ids row_idx (set_rows (block_table_np t) counts t).

Definition move_row (src tgt : nat) (t : BlockTable) : result BlockTable :=
  num_blocks ← np_get (num_blocks_per_row t) src;
  source ← np_get (block_table_np t) src;
  rows ← np_write_row tgt 0 (Z.of_nat num_blocks) (take num_blocks source) (block_table_np t);
  counts ← np_put tgt num_blocks (num_blocks_per_row t);
  Ok (set_rows rows counts t).

(** Indexing with a list copies the rows, so they can be exchanged at once. *)
Definition swap_row (src tgt : nat) (t : BlockTable) : result BlockTable :=
  num_blocks_src ← np_get (num_blocks_per_row t) src;
  num_blocks_tgt ← np_get (num_blocks_per_row t) tgt;
  row_src ← np_get (block_table_np t) src;
  row_tgt ← np_get (block_table_np t) tgt;
  Ok (set_rows (<[tgt := row_src]> (<[src := row_tgt]> (block_table_np t)))
               (<[tgt := num_blocks_src]> (<[src := num_blocks_tgt]> (num_blocks_per_row t))) t).

(** [commit] copies the first rows to the device. *)
Definition commit (num_reqs : nat) (t : BlockTable) : BlockTable :=
  set_device (take num_reqs (block_table_np t) ++ drop num_reqs (block_table t)) t.

Definition clear (t : BlockTable) : BlockTable :=
  let zero := fmap (M := list) (fun row : list nat => replicate (length row) 0) in
  set_device (zero (block_table t)) (set_rows (zero (block_table_np t)) (num_blocks_per_row t) t).

(** ** The rows as lists of blocks *)

(** The blocks that a row holds. *)
Definition row_blocks (t : BlockTable) (i : nat) : option (list nat) :=
  n ← num_blocks_per_row t !! i; row ← block_table_np t !! i; Some (take n row).

(** The shape that the constructor gives and all operations keep. *)
Record table_ok (t : BlockTable) : Prop := {
  to_rows : length (block_table_np t) = bt_max_num_reqs t;
  to_counts : length (num_blocks_per_row t) = bt_max_num_reqs t;
  to_width : Forall (fun row => length row = max_num_blocks_per_req t) (block_table_np t);
  to_fill : Forall (fun n => n <= max_num_blocks_per_req t) (num_blocks_per_row t);
}.

Definition same_shape (t t' : BlockTable) : Prop :=
  bt_max_num_reqs t' = bt_max_num_reqs t /\ max_num_blocks_per_req t' = max_num_blocks_per_req t /\ block_table t' = block_table t.

Lemma block_table_init_ok n w : table_ok (block_table_init n w).
Proof.
  split; cbn; rewrite ?length_replicate; [done|done| |]; apply Forall_forall; intros x [-> _]%elem_of_replicate; [by rewrite length_replicate|lia].
Qed.

Lemma row_of t i : table_ok t -> i < bt_max_num_reqs t ->
  exists n row, num_blocks_per_row t !! i = Some n /\ block_table_np t !! i = Some row /\ length row = max_num_blocks_per_req t /\
    n <= max_num_blocks_per_req t /\ row_blocks t i = Some (take n row).
Proof.
  intros [H1 H2 H3 H4] Hi. destruct (lookup_lt_is_Some_2 (num_blocks_per_row t) i) as [n En]; [lia|].
  destruct (lookup_lt_is_Some_2 (block_table_np t) i) as [row Er]; [lia|]. exists n, row.
  split; [done|]. split; [done|]. split; [apply (Forall_lookup_1 _ _ _ _ H3 Er)|]. split; [apply (Forall_lookup_1 _ _ _ _ H4 En)|].
  unfold row_blocks. by rewrite En, Er.
Qed.

Lemma set_rows_ok t i row n : table_ok t -> length row = max_num_blocks_per_req t -> n <= max_num_blocks_per_req t ->
  table_ok (set_rows (<[i := row]> (block_table_np t)) (<[i := n]> (num_blocks_per_row t)) t).
Proof. intros [H1 H2 H3 H4] Hr Hn. split; cbn; rewrite ?length_insert; [done|done| |]; by apply Forall_insert. Qed.

Lemma row_blocks_set t i row n j : table_ok t -> i < bt_max_num_reqs t ->
  row_blocks (set_rows (<[i := row]> (block_table_np t)) (<[i := n]> (num_blocks_per_row t)) t) j =
  if decide (j = i) then Some (take n row) else row_blocks t j.
Proof.
  intros [H1 H2 _ _] Hi. unfold row_blocks, set_rows. cbn. destruct (decide (j = i)) as [->|Hj].
  - by rewrite !list_lookup_insert_eq by lia.
  - by rewrite !list_lookup_insert_ne by done.
Qed.

(** What the operations on rows promise: the row in question holds the given
    blocks, the others what they held. *)
Definition row_updated (t t' : BlockTable) (i : nat) (blocks : list nat) : Prop :=
  table_ok t' /\ same_shape t t' /\ forall j, row_blocks t' j = if decide (j = i) then Some blocks else row_blocks t j.

Lemma append_row_ok t i blocks old : table_ok t -> i < bt_max_num_reqs t -> row_blocks t i = Some old ->
  length old + length blocks <= max_num_blocks_per_req t ->
  exists t', append_row blocks i t = Ok t' /\ row_updated t t' i (old ++ blocks).
Proof.
  intros Ht Hi Eo Hl. destruct (row_of t i Ht Hi) as (n & row & En & Er & Hr & Hn & Eb). rewrite Eb in Eo. injection Eo as <-.
  rewrite length_take in Hl. unfold append_row. destruct blocks as [|b bs].
  - exists t. split; [done|]. split; [done|]. split; [done|]. intros j. rewrite app_nil_r. destruct (decide (j = i)) as [->|]; [exact Eb|done].
  - revert Hl. generalize (b :: bs). intros l Hl. unfold np_get. rewrite En. cbn [of_option mbind result_bind].
    rewrite (np_write_row_ok _ _ _ _ row) by (done || lia). cbn [mbind result_bind]. eexists. split; [reflexivity|].
    split; [apply set_rows_ok; [done|by rewrite length_inserts|lia]|]. split; [done|]. intros j. rewrite row_blocks_set by done.
    by rewrite take_inserts by lia.
Qed.

Lemma add_row_ok t i blocks : table_ok t -> i < bt_max_num_reqs t -> length blocks <= max_num_blocks_per_req t ->
  exists t', add_row blocks i t = Ok t' /\ row_updated t t' i blocks.
Proof.
  intros Ht Hi Hl. destruct (row_of t i Ht Hi) as (n & row & En & Er & Hr & _ & _). unfold add_row.
  rewrite np_put_ok by (rewrite (to_counts t Ht); done). cbn [mbind result_bind].
  assert (E0 : set_rows (block_table_np t) (<[i := 0]> (num_blocks_per_row t)) t =
    set_rows (<[i := row]> (block_table_np t)) (<[i := 0]> (num_blocks_per_row t)) t) by (by rewrite (list_insert_id (block_table_np t) i row)).
  rewrite E0. set (t1 := set_rows (<[i := row]> _) _ t).
  assert (Ht1 : table_ok t1) by (apply set_rows_ok; [done|done|lia]).
  destruct (append_row_ok t1 i blocks [] Ht1 Hi) as (t' & E1 & Ht' & Hs & Hg); [|done|].
  { unfold t1. rewrite row_blocks_set by done. by rewrite decide_True. }
  exists t'. split; [exact E1|]. split; [exact Ht'|]. split; [exact Hs|]. intros j. rewrite Hg. cbn [app].
  destruct (decide (j = i)) as [->|Hj]; [done|]. unfold t1. rewrite row_blocks_set by done. by rewrite decide_False.
Qed.

Lemma move_row_ok t src tgt blocks : table_ok t -> src < bt_max_num_reqs t -> tgt < bt_max_num_reqs t -> row_blocks t src = Some blocks ->
  exists t', move_row src tgt t = Ok t' /\ row_updated t t' tgt blocks.
Proof.
  intros Ht Hs Hg Eb. destruct (row_of t src Ht Hs) as (n & row & En & Er & Hr & Hn & Eb'). rewrite Eb' in Eb. injection Eb as <-.
  destruct (row_of t tgt Ht Hg) as (m & row2 & Em & Er2 & Hr2 & _ & _).
  unfold move_row, np_get. rewrite En, Er. cbn [of_option mbind result_bind].
  pose proof (np_write_row_ok tgt 0 (take n row) (block_table_np t) row2 Er2) as E1. rewrite length_take in E1.
  replace (n `min` length row) with n in E1 by lia. change (Z.of_nat 0) with 0%Z in E1. rewrite Z.add_0_l in E1.
  rewrite E1 by lia. cbn [mbind result_bind]. rewrite np_put_ok by (rewrite (to_counts t Ht); done). cbn [mbind result_bind].
  eexists. split; [reflexivity|]. split; [apply set_rows_ok; [done|by rewrite length_inserts|done]|]. split; [done|].
  intros j. rewrite row_blocks_set by done. destruct (decide (j = tgt)); [|done]. f_equal.
  pose proof (take_inserts 0 (take n row) row2) as E2. rewrite length_take in E2. replace (0 + n `min` length row) with n in E2 by lia.
  rewrite E2 by lia. done.
Qed.

Lemma swap_row_ok t src tgt b1 b2 : table_ok t -> src < bt_max_num_reqs t -> tgt < bt_max_num_reqs t -> src <> tgt ->
  row_blocks t src = Some b1 -> row_blocks t tgt = Some b2 ->
  exists t', swap_row src tgt t = Ok t' /\ table_ok t' /\ same_shape t t' /\
    forall j, row_blocks t' j = if decide (j = tgt) then Some b1 else if decide (j = src) then Some b2 else row_blocks t j.
Proof.
  intros Ht Hs Hg Hne E1 E2. destruct (row_of t src Ht Hs) as (n1 & r1 & En1 & Er1 & Hl1 & Hn1 & Eb1). rewrite Eb1 in E1. injection E1 as <-.
  destruct (row_of t tgt Ht Hg) as (n2 & r2 & En2 & Er2 & Hl2 & Hn2 & Eb2). rewrite Eb2 in E2. injection E2 as <-.
  unfold swap_row, np_get. rewrite En1, En2, Er1, Er2. cbn [of_option mbind result_bind].
  eexists. split; [reflexivity|].
  assert (Ht1 := set_rows_ok t src r2 n2 Ht Hl2 Hn2). set (t1 := set_rows _ _ t) in Ht1.
  assert (Ht2 := set_rows_ok t1 tgt r1 n1 Ht1 Hl1 Hn1). split; [exact Ht2|]. split; [done|]. intros j.
  pose proof (row_blocks_set t1 tgt r1 n1 j Ht1 Hg) as E. etransitivity; [exact E|].
  destruct (decide (j = tgt)); [done|]. unfold t1. by rewrite row_blocks_set.
Qed.
