(* ===== verification/InputBatch.v ===== *)
(** * The persistent batch of the worker

    Model of [vllm/v1/worker/gpu_input_batch.py]: the state that the model runner
    keeps from step to step, one place per request in a number of parallel arrays,
    together with sets and dicts that go by request id or by place.

    The arrays have one element per place, so after the checks on [req_ids] an
    index is in range of all of them.  [req_output_token_ids] has references: the
    lists are those of the cached states of the requests, which grow later.  A
    generator is an object of torch and stands for itself by a reference. *)

From Stdlib Require Import QArith_base.
From S2P Require Import Prelude NumPy Request BlockTable.

(** What torch does with a float that is stored in 32 bits, and the contents of
    fresh memory. *)
Class Torch := {
  single : Q -> Q;
  empty_floats : nat -> list Q;
  empty_ints : nat -> list Z;
}.

Class TorchLaws (T : Torch) : Prop := {
  length_empty_floats : forall n, length (empty_floats n) = n;
  length_empty_ints : forall n, length (empty_ints n) = n;
}.

(** ** Cached states *)

Record CachedRequestState := {
  cs_req_id : string;
  cs_prompt_token_ids : list Z;
  cs_mm_inputs : nat;
  cs_mm_positions : list PlaceholderRange;
  cs_sampling_params : SamplingParams;
  cs_generator : option nat;
  cs_block_ids : list nat;
  cs_num_computed_tokens : Z;
  cs_output_token_ids : nat;          (* a reference to a list *)
  cs_lora_request : option Z;         (* its [lora_int_id] *)
}.

(** The lists of output tokens. *)
Notation lists := (gmap nat (list Z)).

Definition output_of (ls : lists) (q : CachedRequestState) : list Z := ls !!! cs_output_token_ids q.
Definition cs_num_prompt_tokens (q : CachedRequestState) : Z := Z.of_nat (length (cs_prompt_token_ids q)).
Definition cs_num_tokens (ls : lists) (q : CachedRequestState) : Z := cs_num_prompt_tokens q + Z.of_nat (length (output_of ls q)).

Definition get_token_id (ls : lists) (q : CachedRequestState) (idx : Z) : result Z :=
  if (idx <? cs_num_prompt_tokens q)%Z then py_index (cs_prompt_token_ids q) idx
  else py_index (output_of ls q) (idx - cs_num_prompt_tokens q).

(** ** Sampling types *)

Definition SAMPLING_EPS : Q := 1 # 100000.

Inductive SamplingType := GREEDY | RANDOM | RANDOM_SEED.

#[export] Instance sampling_type_eq_dec : EqDecision SamplingType.
Proof. solve_decision. Defined.

Definition q_lt (x y : Q) : bool := negb (Qle_bool y x).

Definition sampling_type (p : SamplerParams) : SamplingType :=
  if q_lt (temperature p) SAMPLING_EPS then GREEDY else if sp_seed p then RANDOM_SEED else RANDOM.

(** ** Elements of parallel arrays *)

Section Places.
Context {A : Type}.
Implicit Types (l : list A) (d : gmap nat A).

(** [l[tgt] = l[src]] *)
Definition move (src tgt : nat) l : list A :=
  match l !! src with Some x => <[tgt := x]> l | None => l end.

(** [l[i], l[j] = l[j], l[i]] for elements that are copied, not views. *)
Definition swap (i j : nat) l : list A :=
  match l !! i, l !! j with Some x, Some y => <[j := x]> (<[i := y]> l) | _, _ => l end.

(** The same assignment for rows that are views: the second one reads the row
    that the first has overwritten. *)
Definition swap_views (i j : nat) l : list A := move i j (move j i l).

Definition opt_insert (i : nat) (x : option A) d : gmap nat A := match x with Some x => <[i := x]> d | None => d end.

(** [x = d.pop(src, None)], and [d[tgt] = x] unless it is [None]. *)
Definition move_key (src tgt : nat) d : gmap nat A := opt_insert tgt (d !! src) (delete src d).

(** [swap_dict_values] of [vllm/utils.py]. *)
Definition swap_dict_values (key1 key2 : nat) d : gmap nat A :=
  let v1 := d !! key1 in
  let v2 := d !! key2 in
  let d := match v1 with Some v => <[key2 := v]> d | None => delete key2 d end in
  match v2 with Some v => <[key1 := v]> d | None => delete key1 d end.
End Places.

(** ** The arrays of sampling parameters *)

Section Batch.
Context `{T : Torch} `{NP : NumPy}.

Record Columns := {
  temperature_cpu : list Q;
  top_p_cpu : list Q;
  top_k_cpu : list Z;
  min_p_cpu : list Q;
  frequency_penalties_cpu : list Q;
  presence_penalties_cpu : list Q;
  repetition_penalties_cpu : list Q;
}.

Definition columns_init (n : nat) : Columns :=
  {| temperature_cpu := empty_floats n; top_p_cpu := empty_floats n; top_k_cpu := empty_ints n; min_p_cpu := empty_floats n;
     frequency_penalties_cpu := empty_floats n; presence_penalties_cpu := empty_floats n; repetition_penalties_cpu := empty_floats n |}.

Definition is_greedy (p : SamplerParams) : bool := bool_decide (sampling_type p = GREEDY).
Definition uses_top_k (vocab_size : Z) (p : SamplerParams) : bool := (0 <? top_k p)%Z && (top_k p <? vocab_size)%Z.

Definition columns_put (i : nat) (vocab_size : Z) (p : SamplerParams) (c : Columns) : Columns :=
  {| temperature_cpu := <[i := if is_greedy p then (-1 # 1)%Q else single (temperature p)]> (temperature_cpu c);
     top_p_cpu := <[i := single (top_p p)]> (top_p_cpu c);
     top_k_cpu := <[i := if uses_top_k vocab_size p then top_k p else vocab_size]> (top_k_cpu c);
     min_p_cpu := <[i := single (min_p p)]> (min_p_cpu c);
     frequency_penalties_cpu := <[i := single (frequency_penalty p)]> (frequency_penalties_cpu c);
     presence_penalties_cpu := <[i := single (presence_penalty p)]> (presence_penalties_cpu c);
     repetition_penalties_cpu := <[i := single (repetition_penalty p)]> (repetition_penalties_cpu c) |}.

Definition columns_map (f : forall A : Type, list A -> list A) (c : Columns) : Columns :=
  {| temperature_cpu := f Q (temperature_cpu c); top_p_cpu := f Q (top_p_cpu c); top_k_cpu := f Z (top_k_cpu c); min_p_cpu := f Q (min_p_cpu c);
     frequency_penalties_cpu := f Q (frequency_penalties_cpu c); presence_penalties_cpu := f Q (presence_penalties_cpu c);
     repetition_penalties_cpu := f Q (repetition_penalties_cpu c) |}.

(** ** Numbers of tokens *)

Record Counters := {
  num_tokens : list Z;
  num_tokens_no_spec : list Z;
  b_num_prompt_tokens : list Z;
  num_computed_tokens_cpu : list Z;
}.

Definition counters_map (f : list Z -> list Z) (c : Counters) : Counters :=
  {| num_tokens := f (num_tokens c); num_tokens_no_spec := f (num_tokens_no_spec c); b_num_prompt_tokens := f (b_num_prompt_tokens c);
     num_computed_tokens_cpu := f (num_computed_tokens_cpu c) |}.

Definition counters_put (i : nat) (ls : lists) (q : CachedRequestState) (c : Counters) : Counters :=
  {| num_tokens := <[i := cs_num_tokens ls q]> (num_tokens c); num_tokens_no_spec := <[i := cs_num_tokens ls q]> (num_tokens_no_spec c);
     b_num_prompt_tokens := <[i := cs_num_prompt_tokens q]> (b_num_prompt_tokens c);
     num_computed_tokens_cpu := <[i := cs_num_computed_tokens q]> (num_computed_tokens_cpu c) |}.

(** ** Sets and dicts by request id *)

Record ReqSets := {
  greedy_reqs : gset string;
  random_reqs : gset string;
  top_p_reqs : gset string;
  top_k_reqs : gset string;
  min_p_reqs : gset string;
  frequency_penalties_reqs : gset string;
  presence_penalties_reqs : gset string;
  repetition_penalties_reqs : gset string;
  has_allowed_token_ids : gset string;
  num_logprobs : gmap string Z;
  num_prompt_logprobs : gmap string Z;
  in_progress_prompt_logprobs : gset string;  (* the keys *)
}.

Definition sets_init : ReqSets :=
  {| greedy_reqs := ∅; random_reqs := ∅; top_p_reqs := ∅; top_k_reqs := ∅; min_p_reqs := ∅; frequency_penalties_reqs := ∅;
     presence_penalties_reqs := ∅; repetition_penalties_reqs := ∅; has_allowed_token_ids := ∅; num_logprobs := ∅; num_prompt_logprobs := ∅;
     in_progress_prompt_logprobs := ∅ |}.

(** [if b: s.add(id)] *)
Definition add_if (b : bool) (id : string) (s : gset string) : gset string := if b then {[id]} ∪ s else s.
Definition put_some {A} (id : string) (x : option A) (d : gmap string A) : gmap string A := match x with Some x => <[id := x]> d | None => d end.

Definition uses_top_p (p : SamplerParams) : bool := q_lt (top_p p) 1.
Definition uses_min_p (p : SamplerParams) : bool := q_lt SAMPLING_EPS (min_p p).
Definition uses_frequency (p : SamplerParams) : bool := negb (Qeq_bool (frequency_penalty p) 0).
Definition uses_presence (p : SamplerParams) : bool := negb (Qeq_bool (presence_penalty p) 0).
Definition uses_repetition (p : SamplerParams) : bool := negb (Qeq_bool (repetition_penalty p) 1).
Definition uses_allowed (p : SamplerParams) : bool := bool_decide (allowed_token_ids p <> []).

Definition sets_add (vocab_size : Z) (id : string) (sp : SamplingParams) (s : ReqSets) : ReqSets :=
  let p := sp_sampler sp in
  {| greedy_reqs := add_if (is_greedy p) id (greedy_reqs s);
     random_reqs := add_if (negb (is_greedy p)) id (random_reqs s);
     top_p_reqs := add_if (uses_top_p p) id (top_p_reqs s);
     top_k_reqs := add_if (uses_top_k vocab_size p) id (top_k_reqs s);
     min_p_reqs := add_if (uses_min_p p) id (min_p_reqs s);
     frequency_penalties_reqs := add_if (uses_frequency p) id (frequency_penalties_reqs s);
     presence_penalties_reqs := add_if (uses_presence p) id (presence_penalties_reqs s);
     repetition_penalties_reqs := add_if (uses_repetition p) id (repetition_penalties_reqs s);
     has_allowed_token_ids := add_if (uses_allowed p) id (has_allowed_token_ids s);
     num_logprobs := put_some id (sp_logprobs sp) (num_logprobs s);
     num_prompt_logprobs := put_some id (prompt_logprobs sp) (num_prompt_logprobs s);
     in_progress_prompt_logprobs := in_progress_prompt_logprobs s |}.

Definition sets_discard (id : string) (s : ReqSets) : ReqSets :=
  {| greedy_reqs := greedy_reqs s ∖ {[id]}; random_reqs := random_reqs s ∖ {[id]}; top_p_reqs := top_p_reqs s ∖ {[id]};
     top_k_reqs := top_k_reqs s ∖ {[id]}; min_p_reqs := min_p_reqs s ∖ {[id]}; frequency_penalties_reqs := frequency_penalties_reqs s ∖ {[id]};
     presence_penalties_reqs := presence_penalties_reqs s ∖ {[id]}; repetition_penalties_reqs := repetition_penalties_reqs s ∖ {[id]};
     has_allowed_token_ids := has_allowed_token_ids s ∖ {[id]}; num_logprobs := delete id (num_logprobs s);
     num_prompt_logprobs := delete id (num_prompt_logprobs s); in_progress_prompt_logprobs := in_progress_prompt_logprobs s ∖ {[id]} |}.

(** ** Dicts by place *)

Record IndexDicts := {
  min_tokens : gmap nat (Z * gset Z);
  generators : gmap nat nat;
  bad_words_token_ids : gmap nat (list (list Z));
}.

Definition dicts_map (f : forall A : Type, gmap nat A -> gmap nat A) (d : IndexDicts) : IndexDicts :=
  {| min_tokens := f (Z * gset Z)%type (min_tokens d); generators := f nat (generators d);
     bad_words_token_ids := f (list (list Z)) (bad_words_token_ids d) |}.

(** The entries of a request, if it has any. *)
Definition min_tokens_entry (p : SamplerParams) : option (Z * gset Z) :=
  if (sp_min_tokens p =? 0)%Z then None else Some (sp_min_tokens p, all_stop_token_ids p).
Definition bad_words_entry (p : SamplerParams) : option (list (list Z)) :=
  if bool_decide (sp_bad_words_token_ids p = []) then None else Some (sp_bad_words_token_ids p).

Definition dicts_put (i : nat) (q : CachedRequestState) (d : IndexDicts) : IndexDicts :=
  let p := sp_sampler (cs_sampling_params q) in
  {| min_tokens := opt_insert i (min_tokens_entry p) (min_tokens d);
     generators := opt_insert i (cs_generator q) (generators d);
     bad_words_token_ids := opt_insert i (bad_words_entry p) (bad_words_token_ids d) |}.

(** ** Adapters *)

Record LoRAState := {
  request_lora_mapping : list Z;
  lora_id_to_request_ids : gmap Z (gset string);
  lora_id_to_lora_request : gmap Z Z;
}.

Definition lora_put (i : nat) (id : string) (lora : option Z) (s : LoRAState) : LoRAState :=
  match lora with
  | Some a =>
      {| request_lora_mapping := <[i := a]> (request_lora_mapping s);
         lora_id_to_request_ids := <[a := {[id]} ∪ default ∅ (lora_id_to_request_ids s !! a)]> (lora_id_to_request_ids s);
         lora_id_to_lora_request := <[a := a]> (lora_id_to_lora_request s) |}
  | None =>
      {| request_lora_mapping := <[i := 0%Z]> (request_lora_mapping s); lora_id_to_request_ids := lora_id_to_request_ids s;
         lora_id_to_lora_request := lora_id_to_lora_request s |}
  end.

Definition lora_remove (i : nat) (id : string) (s : LoRAState) : result LoRAState :=
  a ← np_get (request_lora_mapping s) i;
  if (a =? 0)%Z then Ok s
  else
    ids ← of_option (A := gset string) KeyError (lora_id_to_request_ids s !! a);
    let ids := ids ∖ {[id]} in
    let mapping := <[i := 0%Z]> (request_lora_mapping s) in
    if bool_decide (ids = ∅) then
      _ ← of_option KeyError (lora_id_to_lora_request s !! a);
      Ok {| request_lora_mapping := mapping; lora_id_to_request_ids := delete a (lora_id_to_request_ids s);
            lora_id_to_lora_request := delete a (lora_id_to_lora_request s) |}
    else Ok {| request_lora_mapping := mapping; lora_id_to_request_ids := <[a := ids]> (lora_id_to_request_ids s);
               lora_id_to_lora_request := lora_id_to_lora_request s |}.

Definition lora_mapping_map (f : list Z -> list Z) (s : LoRAState) : LoRAState :=
  {| request_lora_mapping := f (request_lora_mapping s); lora_id_to_request_ids := lora_id_to_request_ids s;
     lora_id_to_lora_request := lora_id_to_lora_request s |}.

(** ** Masks of allowed tokens *)

(** [row[t] = False] *)
Definition allow (row : list bool) (t : Z) : result (list bool) :=
  let t := if (t <? 0)%Z then (t + Z.of_nat (length row))%Z else t in
  if (t <? 0)%Z then Err IndexError else np_put (Z.to_nat t) false row.

Definition no_mask (max_num_reqs : nat) (vocab_size : Z) : list (list bool) :=
  replicate max_num_reqs (replicate (Z.to_nat vocab_size) false).

Definition mask_row (vocab_size : Z) (allowed : list Z) : result (list bool) :=
  foldM allow (replicate (Z.to_nat vocab_size) true) allowed.

(** ** The batch *)

(** The tensors on the device that hold sampling parameters. *)
Record Device := {
  d_columns : Columns;
  d_allowed_token_ids_mask : option (list (list bool));
}.

(** [SamplingMetadata]; [None] where the code passes [None]. *)
Record SamplingMetadata := {
  m_temperature : option (list Q);
  m_all_greedy : bool;
  m_all_random : bool;
  m_top_p : option (list Q);
  m_top_k : option (list Z);
  m_min_p : option (list Q);
  m_generators : gmap nat nat;
  m_max_num_logprobs : option Z;
  m_prompt_token_ids : option (list (list Z));
  m_frequency_penalties : list Q;
  m_presence_penalties : list Q;
  m_repetition_penalties : list Q;
  m_output_token_ids : list (option nat);
  m_min_tokens : gmap nat (Z * gset Z);
  m_no_penalties : bool;
  m_logit_bias : list (option (gmap Z Q));
  m_allowed_token_ids_mask : option (list (list bool));
  m_bad_words_token_ids : gmap nat (list (list Z));
}.

Record InputBatch := {
  max_num_reqs : nat;
  max_model_len : nat;
  vocab_size : Z;
  req_ids : list (option string);
  req_id_to_index : gmap string nat;
  token_ids_cpu : list (list Z);
  counters : Counters;
  table : BlockTable;
  columns : Columns;
  sets : ReqSets;
  dicts : IndexDicts;
  lora : LoRAState;
  logit_bias : list (option (gmap Z Q));
  allowed_token_ids_mask_cpu : option (list (list bool));
  req_output_token_ids : list (option nat);
  device : Device;
  sampling_metadata : SamplingMetadata;
}.

Definition num_reqs (b : InputBatch) : nat := size (req_id_to_index b).
Definition all_greedy (b : InputBatch) : bool := bool_decide (random_reqs (sets b) = ∅).
Definition all_random (b : InputBatch) : bool := bool_decide (greedy_reqs (sets b) = ∅).
Definition no_top_p (b : InputBatch) : bool := bool_decide (top_p_reqs (sets b) = ∅).
Definition no_top_k (b : InputBatch) : bool := bool_decide (top_k_reqs (sets b) = ∅).
Definition no_min_p (b : InputBatch) : bool := bool_decide (min_p_reqs (sets b) = ∅).
Definition no_penalties (b : InputBatch) : bool :=
  bool_decide (presence_penalties_reqs (sets b) = ∅) && bool_decide (frequency_penalties_reqs (sets b) = ∅)
  && bool_decide (repetition_penalties_reqs (sets b) = ∅).
Definition max_num_logprobs (b : InputBatch) : option Z :=
  match snd <$> map_to_list (num_logprobs (sets b)) with [] => None | k :: l => Some (foldr Z.max k l) end.
Definition no_prompt_logprob (b : InputBatch) : bool := bool_decide (num_prompt_logprobs (sets b) = ∅).
Definition no_allowed_token_ids (b : InputBatch) : bool := bool_decide (has_allowed_token_ids (sets b) = ∅).

(** ** [add_request] *)

(** Assigning to place [i] of the list of ids, or appending. *)
Definition place {A} (i : nat) (x : A) (l : list (option A)) : result (list (option A)) :=
  if i =? length l then Ok (l ++ [Some x]) else np_put i (Some x) l.

(** The prompt, and behind it the output. *)
Definition write_tokens (i : nat) (ls : lists) (q : CachedRequestState) (rows : list (list Z)) : result (list (list Z)) :=
  let num_prompt_tokens := cs_num_prompt_tokens q in
  rows ← np_write_row i 0 num_prompt_tokens (cs_prompt_token_ids q) rows;
  let start_idx := num_prompt_tokens in
  let end_idx := (start_idx + Z.of_nat (length (output_of ls q)))%Z in
  np_write_row i start_idx end_idx (output_of ls q) rows.

(** The mask on the CPU and on the device, which are made when first needed. *)
Definition put_mask (i : nat) (b : InputBatch) (p : SamplerParams) : result (option (list (list bool)) * Device) :=
  if uses_allowed p then
    let fresh := no_mask (max_num_reqs b) (vocab_size b) in
    let '(m, d) :=
      match allowed_token_ids_mask_cpu b with
      | Some m => (m, device b)
      | None => (fresh, {| d_columns := d_columns (device b); d_allowed_token_ids_mask := Some fresh |})
      end in
    row ← mask_row (vocab_size b) (allowed_token_ids p);
    Ok (Some (<[i := row]> m), d)
  else Ok (allowed_token_ids_mask_cpu b, device b).

Definition add_request (ls : lists) (request : CachedRequestState) (req_index : option nat) (b : InputBatch) : result InputBatch :=
  let i := default (num_reqs b) req_index in
  _ ← py_assert (i <? max_num_reqs b);
  let req_id := cs_req_id request in
  let sp := cs_sampling_params request in
  let p := sp_sampler sp in
  ids ← place i req_id (req_ids b);
  outs ← place i (cs_output_token_ids request) (req_output_token_ids b);
  rows ← write_tokens i ls request (token_ids_cpu b);
  t ← add_row (cs_block_ids request) i (table b);
  '(mask, dev) ← put_mask i b p;
  Ok {| max_num_reqs := max_num_reqs b; max_model_len := max_model_len b; vocab_size := vocab_size b;
        req_ids := ids; req_id_to_index := <[req_id := i]> (req_id_to_index b);
        token_ids_cpu := rows;
        counters := counters_put i ls request (counters b);
        table := t;
        columns := columns_put i (vocab_size b) p (columns b);
        sets := sets_add (vocab_size b) req_id sp (sets b);
        dicts := dicts_put i request (dicts b);
        lora := lora_put i req_id (cs_lora_request request) (lora b);
        logit_bias := match sp_logit_bias p with Some lb => <[i := Some lb]> (logit_bias b) | None => logit_bias b end;
        allowed_token_ids_mask_cpu := mask;
        req_output_token_ids := outs;
        device := dev;
        sampling_metadata := sampling_metadata b |}.

(** ** [remove_request] *)

Definition remove_request (req_id : string) (b : InputBatch) : result (InputBatch * option nat) :=
  match req_id_to_index b !! req_id with
  | None => Ok (b, None)
  | Some i =>
      ids ← np_put i None (req_ids b);
      outs ← np_put i None (req_output_token_ids b);
      l ← lora_remove i req_id (lora b);
      Ok ({| max_num_reqs := max_num_reqs b; max_model_len := max_model_len b; vocab_size := vocab_size b;
             req_ids := ids; req_id_to_index := delete req_id (req_id_to_index b);
             token_ids_cpu := token_ids_cpu b; counters := counters b; table := table b; columns := columns b;
             sets := sets_discard req_id (sets b);
             dicts := dicts_map (fun _ => delete i) (dicts b);
             lora := l;
             logit_bias := <[i := None]> (logit_bias b);
             allowed_token_ids_mask_cpu := alter (fmap (fun _ => false)) i <$> allowed_token_ids_mask_cpu b;
             req_output_token_ids := outs;
             device := device b; sampling_metadata := sampling_metadata b |}, Some i)
  end.

(** ** [swap_states] *)

Definition swap_states (i1 i2 : nat) (b : InputBatch) : result InputBatch :=
  old_id_i1 ← np_get (req_ids b) i1;
  old_id_i2 ← np_get (req_ids b) i2;
  _ ← np_get (req_output_token_ids b) i1;
  _ ← np_get (req_output_token_ids b) i2;
  id1 ← of_option AssertionError old_id_i1;
  id2 ← of_option AssertionError old_id_i2;
  x1 ← of_option KeyError (req_id_to_index b !! id1);
  x2 ← of_option KeyError (req_id_to_index b !! id2);
  t ← swap_row i1 i2 (table b);
  Ok {| max_num_reqs := max_num_reqs b; max_model_len := max_model_len b; vocab_size := vocab_size b;
        req_ids := swap i1 i2 (req_ids b);
        req_id_to_index := <[id2 := x1]> (<[id1 := x2]> (req_id_to_index b));
        token_ids_cpu := swap i1 i2 (token_ids_cpu b);
        counters := counters_map (swap i1 i2) (counters b);
        table := t;
        columns := columns_map (fun A => swap i1 i2) (columns b);
        sets := sets b;
        dicts := dicts_map (fun A => swap_dict_values i1 i2) (dicts b);
        lora := lora_mapping_map (swap i1 i2) (lora b);
        logit_bias := swap i1 i2 (logit_bias b);
        allowed_token_ids_mask_cpu := swap_views i1 i2 <$> allowed_token_ids_mask_cpu b;
        req_output_token_ids := swap i1 i2 (req_output_token_ids b);
        device := device b; sampling_metadata := sampling_metadata b |}.

(** ** [condense] *)

(** The largest index at or below [last] that is not empty; [None]: it is -1. *)
Fixpoint last_occupied (empty_req_indices : list nat) (last : nat) : option nat :=
  if bool_decide (last ∈ empty_req_indices) then match last with 0 => None | S last => last_occupied empty_req_indices last end
  else Some last.

(** One round moves the last request to the smallest empty place. *)
Definition move_states (last_req_index empty_index : nat) (b : InputBatch) : result InputBatch :=
  req_id ← np_get (req_ids b) last_req_index;
  out ← np_get (req_output_token_ids b) last_req_index;
  req_id ← of_option AssertionError req_id;
  ids ← np_put empty_index (Some req_id) (req_ids b);
  outs ← np_put empty_index out (req_output_token_ids b);
  n ← np_get (num_tokens (counters b)) last_req_index;
  row ← np_get (token_ids_cpu b) last_req_index;
  rows ← np_write_row empty_index 0 n (py_slice 0 n row) (token_ids_cpu b);
  t ← move_row last_req_index empty_index (table b);
  Ok {| max_num_reqs := max_num_reqs b; max_model_len := max_model_len b; vocab_size := vocab_size b;
        req_ids := <[last_req_index := None]> ids;
        req_id_to_index := <[req_id := empty_index]> (req_id_to_index b);
        token_ids_cpu := rows;
        counters := counters_map (move last_req_index empty_index) (counters b);
        table := t;
        columns := columns_map (fun A => move last_req_index empty_index) (columns b);
        sets := sets b;
        dicts := dicts_map (fun A => move_key last_req_index empty_index) (dicts b);
        lora := lora_mapping_map (move last_req_index empty_index) (lora b);
        logit_bias := move last_req_index empty_index (logit_bias b);
        allowed_token_ids_mask_cpu := move last_req_index empty_index <$> allowed_token_ids_mask_cpu b;
        req_output_token_ids := <[last_req_index := None]> outs;
        device := device b; sampling_metadata := sampling_metadata b |}.

(** The list is sorted in descending order and loses its last element in each
    round; here it is read from that end. *)
Fixpoint condense_loop (empty_req_indices : list nat) (last_req_index : Z) (b : InputBatch) : result InputBatch :=
  match empty_req_indices with
  | [] => Ok b
  | empty_index :: rest =>
      match (if (last_req_index <? 0)%Z then None else last_occupied empty_req_indices (Z.to_nat last_req_index)) with
      | None => Ok b
      | Some last =>
          if last <=? empty_index then Ok b
          else
            b ← move_states last empty_index b;
            condense_loop rest (Z.of_nat last - 1) b
      end
  end.

(** [del l[num_reqs:]] *)
Definition trim (n : nat) (b : InputBatch) : InputBatch :=
  {| max_num_reqs := max_num_reqs b; max_model_len := max_model_len b; vocab_size := vocab_size b;
     req_ids := take n (req_ids b); req_id_to_index := req_id_to_index b; token_ids_cpu := token_ids_cpu b; counters := counters b;
     table := table b; columns := columns b; sets := sets b; dicts := dicts b; lora := lora b; logit_bias := logit_bias b;
     allowed_token_ids_mask_cpu := allowed_token_ids_mask_cpu b; req_output_token_ids := take n (req_output_token_ids b);
     device := device b; sampling_metadata := sampling_metadata b |}.

Definition condense (empty_req_indices : list nat) (b : InputBatch) : result InputBatch :=
  let n := num_reqs b in
  if n =? 0 then Ok (trim 0 b)
  else
    b ← condense_loop (reverse empty_req_indices) (Z.of_nat (n + length empty_req_indices) - 1) b;
    Ok (trim (num_reqs b) b).

(** ** [_make_sampling_metadata] *)

(** [copy_slice] of [vllm/v1/utils.py]: the target afterwards. *)
Definition copy_slice {A} (from to : list A) (n : nat) : list A := take n from ++ drop n to.

(** The prompts, padded with a token id that does not exist. *)
Definition make_prompt_token_ids_tensor (b : InputBatch) : result (list (list Z)) :=
  let n := num_reqs b in
  let counts := take n (b_num_prompt_tokens (counters b)) in
  max_prompt_len ← match counts with [] => Err ValueError | k :: l => Ok (Z.to_nat (foldr Z.max k l)) end;
  Ok (zip_with (fun row k => take (Z.to_nat k) row ++ replicate (max_prompt_len - Z.to_nat k) (vocab_size b))
    (take max_prompt_len <$> take n (token_ids_cpu b)) counts).

(** The columns on the device after copying those that some request uses. *)
Definition copy_unless {A} (skip : bool) (n : nat) (from to : list A) : list A := if skip then to else copy_slice from to n.

Definition device_columns (b : InputBatch) : Columns :=
  let n := num_reqs b in
  let c := columns b in
  let d := d_columns (device b) in
  {| temperature_cpu := copy_unless (all_greedy b) n (temperature_cpu c) (temperature_cpu d);
     top_p_cpu := copy_unless (no_top_p b) n (top_p_cpu c) (top_p_cpu d);
     top_k_cpu := copy_unless (no_top_k b) n (top_k_cpu c) (top_k_cpu d);
     min_p_cpu := copy_unless (no_min_p b) n (min_p_cpu c) (min_p_cpu d);
     frequency_penalties_cpu := copy_unless (no_penalties b) n (frequency_penalties_cpu c) (frequency_penalties_cpu d);
     presence_penalties_cpu := copy_unless (no_penalties b) n (presence_penalties_cpu c) (presence_penalties_cpu d);
     repetition_penalties_cpu := copy_unless (no_penalties b) n (repetition_penalties_cpu c) (repetition_penalties_cpu d) |}.

Definition device_mask (b : InputBatch) : result (option (list (list bool))) :=
  if no_allowed_token_ids b then Ok (d_allowed_token_ids_mask (device b))
  else
    to ← of_option AssertionError (d_allowed_token_ids_mask (device b));
    from ← of_option TypeError (allowed_token_ids_mask_cpu b);
    Ok (Some (copy_slice from to (num_reqs b))).

(** [x[:n]], or [None]. *)
Definition first_unless {A} (absent : bool) (n : nat) (l : list A) : option (list A) := if absent then None else Some (take n l).

Definition metadata_of (b : InputBatch) (d : Columns) (mask : option (list (list bool))) (prompts : option (list (list Z))) : SamplingMetadata :=
  let n := num_reqs b in
  {| m_temperature := first_unless (all_greedy b) n (temperature_cpu d);
     m_all_greedy := all_greedy b; m_all_random := all_random b;
     m_top_p := first_unless (no_top_p b) n (top_p_cpu d);
     m_top_k := first_unless (no_top_k b) n (top_k_cpu d);
     m_min_p := first_unless (no_min_p b) n (min_p_cpu d);
     m_generators := generators (dicts b);
     m_max_num_logprobs := max_num_logprobs b;
     m_prompt_token_ids := prompts;
     m_frequency_penalties := take n (frequency_penalties_cpu d);
     m_presence_penalties := take n (presence_penalties_cpu d);
     m_repetition_penalties := take n (repetition_penalties_cpu d);
     m_output_token_ids := req_output_token_ids b;
     m_min_tokens := min_tokens (dicts b);
     m_no_penalties := no_penalties b;
     m_logit_bias := take n (logit_bias b);
     m_allowed_token_ids_mask := if no_allowed_token_ids b then None else take n <$> mask;
     m_bad_words_token_ids := bad_words_token_ids (dicts b) |}.

Definition make_sampling_metadata (b : InputBatch) : result (Device * SamplingMetadata) :=
  prompts ← (if no_penalties b then Ok None else rows ← make_prompt_token_ids_tensor b; Ok (Some rows));
  mask ← device_mask b;
  Ok ({| d_columns := device_columns b; d_allowed_token_ids_mask := mask |}, metadata_of b (device_columns b) mask prompts).

Definition set_metadata (d : Device) (m : SamplingMetadata) (b : InputBatch) : InputBatch :=
  {| max_num_reqs := max_num_reqs b; max_model_len := max_model_len b; vocab_size := vocab_size b;
     req_ids := req_ids b; req_id_to_index := req_id_to_index b; token_ids_cpu := token_ids_cpu b; counters := counters b;
     table := table b; columns := columns b; sets := sets b; dicts := dicts b; lora := lora b; logit_bias := logit_bias b;
     allowed_token_ids_mask_cpu := allowed_token_ids_mask_cpu b; req_output_token_ids := req_output_token_ids b;
     device := d; sampling_metadata := m |}.

Definition refresh_sampling_metadata (b : InputBatch) : result InputBatch :=
  '(d, m) ← make_sampling_metadata b;
  Ok (set_metadata d m b).

(** ** The constructor *)

Definition no_metadata : SamplingMetadata :=
  {| m_temperature := None; m_all_greedy := true; m_all_random := true; m_top_p := None; m_top_k := None; m_min_p := None; m_generators := ∅;
     m_max_num_logprobs := None; m_prompt_token_ids := None; m_frequency_penalties := []; m_presence_penalties := []; m_repetition_penalties := [];
     m_output_token_ids := []; m_min_tokens := ∅; m_no_penalties := true; m_logit_bias := []; m_allowed_token_ids_mask := None;
     m_bad_words_token_ids := ∅ |}.

(** The last assignment is [self.sampling_metadata = self._make_sampling_metadata()]. *)
Definition input_batch_init (n len max_num_blocks_per_req : nat) (vocab : Z) : result InputBatch :=
  let zeros := replicate n 0%Z in
  refresh_sampling_metadata
    {| max_num_reqs := n; max_model_len := len; vocab_size := vocab;
       req_ids := []; req_id_to_index := ∅; token_ids_cpu := replicate n (replicate len 0%Z);
       counters := {| num_tokens := zeros; num_tokens_no_spec := zeros; b_num_prompt_tokens := zeros; num_computed_tokens_cpu := zeros |};
       table := block_table_init n max_num_blocks_per_req;
       columns := columns_init n; sets := sets_init;
       dicts := {| min_tokens := ∅; generators := ∅; bad_words_token_ids := ∅ |};
       lora := {| request_lora_mapping := zeros; lora_id_to_request_ids := ∅; lora_id_to_lora_request := ∅ |};
       logit_bias := replicate n None; allowed_token_ids_mask_cpu := None; req_output_token_ids := [];
       device := {| d_columns := columns_init n; d_allowed_token_ids_mask := None |}; sampling_metadata := no_metadata |}.

(** ** [make_lora_inputs] *)

Definition make_lora_inputs (num_scheduled_tokens : list nat) (b : InputBatch) : list Z * list Z * gset Z :=
  let req_lora_mapping := take (num_reqs b) (request_lora_mapping (lora b)) in
  (req_lora_mapping, np_repeat req_lora_mapping num_scheduled_tokens, map_img (SA := gset Z) (lora_id_to_lora_request (lora b))).

(** [is_spec_decode_supported] of [vllm/v1/spec_decode/utils.py] *)
Definition is_spec_decode_supported (req_id : string) (b : InputBatch) : bool :=
  if bool_decide (req_id ∈ min_p_reqs (sets b)) then false
  else if bool_decide (req_id ∈ frequency_penalties_reqs (sets b) \/ req_id ∈ presence_penalties_reqs (sets b)
    \/ req_id ∈ repetition_penalties_reqs (sets b)) then false
  else bool_decide (num_logprobs (sets b) !! req_id = None).
End Batch.
