(* ===== verification/InputBatchSpec.v ===== *)
(** * The persistent batch keeps one request per place

    [batch_ok] says what every place of the batch holds for the request that it
    belongs to, in all the parallel arrays, sets and dicts; each operation of
    [InputBatch.v] keeps it.  Between a removal and the condensation that
    follows, places may be empty. *)

From Stdlib Require Import QArith_base.
From S2P Require Import Prelude NumPy Request BlockTable InputBatch.

(** ** Moving and exchanging elements *)

Section Elements.
Context {A : Type}.
Implicit Types (l : list A) (d : gmap nat A).

Lemma length_move i j l : length (move i j l) = length l.
Proof. unfold move. destruct (l !! i); [apply length_insert|done]. Qed.

Lemma length_swap i j l : length (swap i j l) = length l.
Proof. unfold swap. destruct (l !! i), (l !! j); rewrite ?length_insert; done. Qed.

Lemma lookup_move i j l k : i < length l -> j < length l -> move i j l !! k = if decide (k = j) then l !! i else l !! k.
Proof.
  intros Hi Hj. unfold move. destruct (lookup_lt_is_Some_2 l i Hi) as [x Ex]. rewrite Ex.
  destruct (decide (k = j)) as [->|Hk]; [by rewrite list_lookup_insert_eq|by rewrite list_lookup_insert_ne].
Qed.

Lemma lookup_swap i j l k : i < length l -> j < length l ->
  swap i j l !! k = if decide (k = j) then l !! i else if decide (k = i) then l !! j else l !! k.
Proof.
  intros Hi Hj. unfold swap. destruct (lookup_lt_is_Some_2 l i Hi) as [x Ex], (lookup_lt_is_Some_2 l j Hj) as [y Ey]. rewrite Ex, Ey.
  destruct (decide (k = j)) as [->|Hk]; [rewrite list_lookup_insert_eq; [done|by rewrite length_insert]|].
  rewrite list_lookup_insert_ne by done. destruct (decide (k = i)) as [->|Hk2]; [by rewrite list_lookup_insert_eq|by rewrite list_lookup_insert_ne].
Qed.

Lemma lookup_put i x l k : i < length l -> <[i := x]> l !! k = if decide (k = i) then Some x else l !! k.
Proof.
  intros Hi. destruct (decide (k = i)) as [->|Hk]; [by rewrite list_lookup_insert_eq|by rewrite list_lookup_insert_ne].
Qed.

Lemma lookup_opt_insert i (x : option A) d k : d !! i = None -> opt_insert i x d !! k = if decide (k = i) then x else d !! k.
Proof.
  intros Hd. unfold opt_insert. destruct x as [x|].
  - destruct (decide (k = i)) as [->|Hk]; [apply lookup_insert_eq|by apply lookup_insert_ne].
  - destruct (decide (k = i)) as [->|]; done.
Qed.

Lemma lookup_move_key i j d k : i <> j -> d !! j = None ->
  move_key i j d !! k = if decide (k = j) then d !! i else if decide (k = i) then None else d !! k.
Proof.
  intros Hij Hd. unfold move_key. rewrite lookup_opt_insert by (by rewrite lookup_delete_ne).
  destruct (decide (k = j)); [done|]. destruct (decide (k = i)) as [->|]; [apply lookup_delete_eq|by apply lookup_delete_ne].
Qed.

Lemma lookup_swap_dict i j d k : i <> j ->
  swap_dict_values i j d !! k = if decide (k = j) then d !! i else if decide (k = i) then d !! j else d !! k.
Proof.
  intros Hij. unfold swap_dict_values. destruct (d !! i) as [x|] eqn:Ei, (d !! j) as [y|] eqn:Ej;
    destruct (decide (k = j)) as [->|Hj]; [| | | | | | |];
    try (destruct (decide (k = i)) as [->|Hi]); rewrite ?lookup_insert_eq, ?lookup_delete_eq, ?lookup_insert_ne, ?lookup_delete_ne by done;
    rewrite ?lookup_insert_eq, ?lookup_delete_eq, ?lookup_insert_ne, ?lookup_delete_ne by done; done.
Qed.
End Elements.

(** ** What a place holds *)

Section Spec.
Context `{T : Torch}.

Definition cols_at (c : Columns) (i : nat) :=
  (temperature_cpu c !! i, top_p_cpu c !! i, top_k_cpu c !! i, min_p_cpu c !! i, frequency_penalties_cpu c !! i, presence_penalties_cpu c !! i,
   repetition_penalties_cpu c !! i).

Definition cols_want (vocab : Z) (p : SamplerParams) :=
  (Some (if is_greedy p then (-1 # 1)%Q else single (temperature p)), Some (single (top_p p)), Some (if uses_top_k vocab p then top_k p else vocab),
   Some (single (min_p p)), Some (single (frequency_penalty p)), Some (single (presence_penalty p)), Some (single (repetition_penalty p))).

Record cols_len (n : nat) (c : Columns) : Prop := {
  cl_temperature : length (temperature_cpu c) = n;
  cl_top_p : length (top_p_cpu c) = n;
  cl_top_k : length (top_k_cpu c) = n;
  cl_min_p : length (min_p_cpu c) = n;
  cl_frequency : length (frequency_penalties_cpu c) = n;
  cl_presence : length (presence_penalties_cpu c) = n;
  cl_repetition : length (repetition_penalties_cpu c) = n;
}.

Lemma cols_at_map n (f : forall A, list A -> list A) c i j : cols_len n c -> (forall A (l : list A), length l = n -> f A l !! i = l !! j) ->
  cols_at (columns_map f c) i = cols_at c j.
Proof. intros [] Hf. unfold cols_at, columns_map. cbn. by rewrite !Hf. Qed.

Lemma cols_len_map n (f : forall A, list A -> list A) c : cols_len n c -> (forall A (l : list A), length (f A l) = length l) -> cols_len n (columns_map f c).
Proof. intros [] Hf. split; cbn; by rewrite Hf. Qed.

Lemma cols_put n i vocab p c k : cols_len n c -> i < n ->
  cols_len n (columns_put i vocab p c) /\ cols_at (columns_put i vocab p c) k = if decide (k = i) then cols_want vocab p else cols_at c k.
Proof.
  intros [] Hi. split; [split; cbn; by rewrite length_insert|]. unfold cols_at, columns_put, cols_want. cbn.
  rewrite !lookup_put by lia. by destruct (decide (k = i)).
Qed.

Definition counts_at (c : Counters) (i : nat) := (b_num_prompt_tokens c !! i, num_computed_tokens_cpu c !! i).

Record counts_len (n : nat) (c : Counters) : Prop := {
  cn_tokens : length (num_tokens c) = n;
  cn_no_spec : length (num_tokens_no_spec c) = n;
  cn_prompt : length (b_num_prompt_tokens c) = n;
  cn_computed : length (num_computed_tokens_cpu c) = n;
}.

Definition dicts_at (d : IndexDicts) (i : nat) := (min_tokens d !! i, generators d !! i, bad_words_token_ids d !! i).

Definition dicts_want (q : CachedRequestState) :=
  let p := sp_sampler (cs_sampling_params q) in (min_tokens_entry p, cs_generator q, bad_words_entry p).

Definition dicts_none : option (Z * gset Z) * option nat * option (list (list Z)) := (None, None, None).

Lemma dicts_at_map (f : forall A, gmap nat A -> gmap nat A) d i j : (forall A (m : gmap nat A), f A m !! i = m !! j) -> dicts_at (dicts_map f d) i = dicts_at d j.
Proof. intros Hf. unfold dicts_at, dicts_map. cbn. by rewrite !Hf. Qed.

Lemma dicts_at_put i q d k : dicts_at d i = dicts_none -> dicts_at (dicts_put i q d) k = if decide (k = i) then dicts_want q else dicts_at d k.
Proof.
  intros [= H1 H2 H3]. unfold dicts_at, dicts_put, dicts_want. cbn. rewrite !lookup_opt_insert by done. by destruct (decide (k = i)).
Qed.

Lemma dicts_at_delete i d k : dicts_at (dicts_map (fun _ => delete i) d) k = if decide (k = i) then dicts_none else dicts_at d k.
Proof.
  unfold dicts_at, dicts_map. cbn. destruct (decide (k = i)) as [->|Hk]; [by rewrite !lookup_delete_eq|by rewrite !lookup_delete_ne].
Qed.

Lemma dicts_at_move i j d k : i <> j -> dicts_at d j = dicts_none ->
  dicts_at (dicts_map (fun A => move_key i j) d) k = if decide (k = j) then dicts_at d i else if decide (k = i) then dicts_none else dicts_at d k.
Proof.
  intros Hij [= H1 H2 H3]. unfold dicts_at, dicts_map. cbn. rewrite !lookup_move_key by done. destruct (decide (k = j)); [done|]. by destruct (decide (k = i)).
Qed.

(** ** Sets by request id *)

Definition sets_at (s : ReqSets) (id : string) :=
  (bool_decide (id ∈ greedy_reqs s), bool_decide (id ∈ random_reqs s), bool_decide (id ∈ top_p_reqs s), bool_decide (id ∈ top_k_reqs s),
   bool_decide (id ∈ min_p_reqs s), bool_decide (id ∈ frequency_penalties_reqs s), bool_decide (id ∈ presence_penalties_reqs s),
   bool_decide (id ∈ repetition_penalties_reqs s), bool_decide (id ∈ has_allowed_token_ids s), num_logprobs s !! id, num_prompt_logprobs s !! id).

Definition sets_want (vocab : Z) (sp : SamplingParams) :=
  let p := sp_sampler sp in
  (is_greedy p, negb (is_greedy p), uses_top_p p, uses_top_k vocab p, uses_min_p p, uses_frequency p, uses_presence p, uses_repetition p, uses_allowed p,
   sp_logprobs sp, prompt_logprobs sp).

Definition sets_none : bool * bool * bool * bool * bool * bool * bool * bool * bool * option Z * option Z :=
  (false, false, false, false, false, false, false, false, false, None, None).

Lemma in_add_if b id s k : id ∉ s -> bool_decide (k ∈ add_if b id s) = if decide (k = id) then b else bool_decide (k ∈ s).
Proof.
  intros Hid. unfold add_if. destruct b, (decide (k = id)) as [->|Hk]; [apply bool_decide_eq_true_2; set_solver|apply bool_decide_ext; set_solver|by apply bool_decide_eq_false_2|done].
Qed.

Lemma in_discard id (s : gset string) k : bool_decide (k ∈ s ∖ {[id]}) = if decide (k = id) then false else bool_decide (k ∈ s).
Proof. destruct (decide (k = id)) as [->|Hk]; [apply bool_decide_eq_false_2; set_solver|apply bool_decide_ext; set_solver]. Qed.

Lemma lookup_put_some {A} id (x : option A) d k : d !! id = None -> put_some id x d !! k = if decide (k = id) then x else d !! k.
Proof.
  intros Hd. unfold put_some. destruct x as [x|]; destruct (decide (k = id)) as [->|Hk]; [apply lookup_insert_eq|by apply lookup_insert_ne|done|done].
Qed.

Lemma sets_at_add vocab id sp s k : sets_at s id = sets_none -> sets_at (sets_add vocab id sp s) k = if decide (k = id) then sets_want vocab sp else sets_at s k.
Proof.
  intros [= H1 H2 H3 H4 H5 H6 H7 H8 H9 H10 H11]. unfold sets_at, sets_add, sets_want. cbn.
  rewrite !in_add_if by (by eapply bool_decide_eq_false_1). rewrite !lookup_put_some by done. by destruct (decide (k = id)).
Qed.

Lemma sets_at_discard id s k : sets_at (sets_discard id s) k = if decide (k = id) then sets_none else sets_at s k.
Proof.
  unfold sets_at, sets_discard. cbn. rewrite !in_discard. destruct (decide (k = id)) as [->|Hk]; [by rewrite !lookup_delete_eq|by rewrite !lookup_delete_ne].
Qed.

(** ** The view of a place *)

Record View := {
  v_row : option (list Z);
  v_num_tokens : option Z;
  v_no_spec : option Z;
  v_counts : option Z * option Z;
  v_blocks : option (list nat);
  v_cols : option Q * option Q * option Z * option Q * option Q * option Q * option Q;
  v_dicts : option (Z * gset Z) * option nat * option (list (list Z));
  v_lora : option Z;
  v_bias : option (option (gmap Z Q));
  v_mask : option (list bool);
  v_out : option (option nat);
}.

Definition mask_at (b : InputBatch) (i : nat) : option (list bool) := m ← allowed_token_ids_mask_cpu b; m !! i.

Definition view (b : InputBatch) (i : nat) : View :=
  {| v_row := token_ids_cpu b !! i; v_num_tokens := num_tokens (counters b) !! i; v_no_spec := num_tokens_no_spec (counters b) !! i;
     v_counts := counts_at (counters b) i; v_blocks := row_blocks (table b) i; v_cols := cols_at (columns b) i; v_dicts := dicts_at (dicts b) i;
     v_lora := request_lora_mapping (lora b) !! i; v_bias := logit_bias b !! i; v_mask := mask_at b i; v_out := req_output_token_ids b !! i |}.

Definition tokens_of (ls : lists) (q : CachedRequestState) : list Z := cs_prompt_token_ids q ++ output_of ls q.

Lemma cs_num_tokens_length ls q : cs_num_tokens ls q = Z.of_nat (length (tokens_of ls q)).
Proof. unfold cs_num_tokens, cs_num_prompt_tokens, tokens_of. rewrite length_app. lia. Qed.

(** The tokens in a row: the first [n] are those of the request; behind them
    there may be drafts, up to [k]. *)
Definition row_ok (width : nat) (toks : list Z) (v : View) : Prop :=
  exists row (n k : nat), v_row v = Some row /\ v_no_spec v = Some (Z.of_nat n) /\ v_num_tokens v = Some (Z.of_nat k) /\
    n <= length toks /\ n <= k <= width /\ take n row = take n toks.

Record place_ok (width : nat) (vocab : Z) (ls : lists) (q : CachedRequestState) (v : View) : Prop := {
  po_row : row_ok width (tokens_of ls q) v;
  po_counts : v_counts v = (Some (cs_num_prompt_tokens q), Some (cs_num_computed_tokens q));
  po_blocks : v_blocks v = Some (cs_block_ids q);
  po_cols : v_cols v = cols_want vocab (sp_sampler (cs_sampling_params q));
  po_dicts : v_dicts v = dicts_want q;
  po_lora : v_lora v = Some (default 0%Z (cs_lora_request q));
  po_lora_id : cs_lora_request q <> Some 0%Z;
  po_bias : forall lb, sp_logit_bias (sp_sampler (cs_sampling_params q)) = Some lb -> v_bias v = Some (Some lb);
  po_mask : uses_allowed (sp_sampler (cs_sampling_params q)) = true ->
    exists row, v_mask v = Some row /\ mask_row vocab (allowed_token_ids (sp_sampler (cs_sampling_params q))) = Ok row;
  po_out : v_out v = Some (Some (cs_output_token_ids q));
}.

(** ** The batch *)

Record shape (b : InputBatch) : Prop := {
  sh_rows : length (token_ids_cpu b) = max_num_reqs b;
  sh_width : Forall (fun row => length row = max_model_len b) (token_ids_cpu b);
  sh_counts : counts_len (max_num_reqs b) (counters b);
  sh_cols : cols_len (max_num_reqs b) (columns b);
  sh_lora : length (request_lora_mapping (lora b)) = max_num_reqs b;
  sh_bias : length (logit_bias b) = max_num_reqs b;
  sh_mask : forall m, allowed_token_ids_mask_cpu b = Some m -> length m = max_num_reqs b;
  sh_table : table_ok (table b);
  sh_places : bt_max_num_reqs (table b) = max_num_reqs b;
  sh_outs : length (req_output_token_ids b) = length (req_ids b);
  sh_ids : length (req_ids b) <= max_num_reqs b;
  sh_device : cols_len (max_num_reqs b) (d_columns (device b));
  sh_device_mask : is_Some (allowed_token_ids_mask_cpu b) -> exists m, d_allowed_token_ids_mask (device b) = Some m /\ length m = max_num_reqs b;
}.

Definition same_dims (b b' : InputBatch) : Prop :=
  max_num_reqs b' = max_num_reqs b /\ max_model_len b' = max_model_len b /\ vocab_size b' = vocab_size b /\
  max_num_blocks_per_req (table b') = max_num_blocks_per_req (table b).

Definition holds_id (b : InputBatch) (i : nat) (id : string) : Prop := req_ids b !! i = Some (Some id).

(** The requests in the batch that use adapter [a]. *)
Definition with_lora (reqs : gmap string CachedRequestState) (b : InputBatch) (a : Z) (id : string) : Prop :=
  is_Some (req_id_to_index b !! id) /\ exists q, reqs !! id = Some q /\ cs_lora_request q = Some a.

(** The tables of adapters list the users [P] of each, and only adapters in use. *)
Definition lora_users (l : LoRAState) (P : Z -> string -> Prop) : Prop := forall a,
  match lora_id_to_request_ids l !! a with
  | Some ids => ids <> ∅ /\ (forall id, id ∈ ids <-> P a id) /\ lora_id_to_lora_request l !! a = Some a
  | None => lora_id_to_lora_request l !! a = None /\ forall id, ~ P a id
  end.

Lemma lora_users_ext l P R : (forall a id, P a id <-> R a id) -> lora_users l P -> lora_users l R.
Proof.
  intros H Hl a. specialize (Hl a). destruct (lora_id_to_request_ids l !! a) as [ids|].
  - destruct Hl as (H1 & H2 & H3). split; [done|]. split; [|done]. intros id. by rewrite <-H.
  - destruct Hl as (H1 & H2). split; [done|]. intros id. rewrite <-H. apply H2.
Qed.

Lemma lora_remove_ok l P i id lo : lora_users l P -> request_lora_mapping l !! i = Some (default 0%Z lo) -> lo <> Some 0%Z ->
  (forall a, P a id <-> lo = Some a) ->
  exists l', lora_remove i id l = Ok l' /\ lora_users l' (fun a x => P a x /\ x <> id) /\
    length (request_lora_mapping l') = length (request_lora_mapping l) /\
    forall k, k <> i -> request_lora_mapping l' !! k = request_lora_mapping l !! k.
Proof.
  intros Hl Hm Hz HP. unfold lora_remove, np_get. rewrite Hm. cbn [of_option mbind result_bind].
  destruct lo as [a|]; simpl default; [rewrite (proj2 (Z.eqb_neq _ _)) by congruence|].
  2: { exists l. split; [done|]. split; [|done]. apply (lora_users_ext l P); [|done]. intros a x. split; [|tauto]. intros H. split; [done|].
       intros ->. apply HP in H. done. }
  pose proof (Hl a) as Ha. destruct (lora_id_to_request_ids l !! a) as [ids|] eqn:Ea; [|destruct Ha as [_ Ha]; by destruct (Ha id); apply HP].
  destruct Ha as (_ & Hin & Er). cbn [of_option mbind result_bind].
  assert (Hset : forall x, x ∈ ids ∖ {[id]} <-> P a x /\ x <> id) by (intros x; rewrite <-Hin; set_solver).
  assert (Hother : forall a2, a2 <> a -> forall x, P a2 x <-> P a2 x /\ x <> id).
  { intros a2 Ha2 x. split; [|tauto]. intros H. split; [done|]. intros ->. apply HP in H. congruence. }
  case_bool_decide as E0; [rewrite Er; cbn [of_option mbind result_bind]|]; eexists; (split; [reflexivity|]);
    (split; [|split; [apply length_insert|intros k Hk; by apply list_lookup_insert_ne]]); intros a2; cbn;
    destruct (decide (a2 = a)) as [->|Ha2]; rewrite ?lookup_delete_eq, ?lookup_delete_ne, ?lookup_insert_eq, ?lookup_insert_ne by done.
  - split; [done|]. intros x Hx. apply Hset in Hx. set_solver.
  - specialize (Hl a2). destruct (lora_id_to_request_ids l !! a2) as [ids2|]; [|naive_solver]. destruct Hl as (H1 & H2 & H3).
    split; [done|]. split; [|done]. intros x. rewrite H2. by apply Hother.
  - split; [done|]. split; [apply Hset|done].
  - specialize (Hl a2). destruct (lora_id_to_request_ids l !! a2) as [ids2|]; [|naive_solver]. destruct Hl as (H1 & H2 & H3).
    split; [done|]. split; [|done]. intros x. rewrite H2. by apply Hother.
Qed.

Lemma lora_put_ok l P i id lo : lora_users l P -> (forall a, ~ P a id) ->
  lora_users (lora_put i id lo l) (fun a x => P a x \/ x = id /\ lo = Some a) /\
  request_lora_mapping (lora_put i id lo l) = <[i := default 0%Z lo]> (request_lora_mapping l).
Proof.
  intros Hl Hid. destruct lo as [a|]; [|split; [|done]; apply (lora_users_ext l P); [naive_solver|done]].
  split; [|done]. intros a2. cbn. destruct (decide (a2 = a)) as [->|Ha2].
  - rewrite !lookup_insert_eq. split; [set_solver|]. split; [|done]. intros x. specialize (Hl a).
    destruct (lora_id_to_request_ids l !! a) as [ids|]; cbn.
    + destruct Hl as (_ & H2 & _). rewrite elem_of_union, elem_of_singleton, H2. naive_solver.
    + destruct Hl as (_ & H2). specialize (H2 x). set_solver.
  - rewrite !lookup_insert_ne by done. specialize (Hl a2). destruct (lora_id_to_request_ids l !! a2) as [ids|]; [|naive_solver].
    destruct Hl as (H1 & H2 & H3). split; [done|]. split; [|done]. intros x. rewrite H2. naive_solver.
Qed.

Lemma lora_users_map l P f : lora_users (lora_mapping_map f l) P <-> lora_users l P.
Proof. done. Qed.

Definition wanted_sets (reqs : gmap string CachedRequestState) (b : InputBatch) (id : string) :=
  match req_id_to_index b !! id, reqs !! id with
  | Some _, Some q => sets_want (vocab_size b) (cs_sampling_params q)
  | _, _ => sets_none
  end.

Record batch_ok (ls : lists) (reqs : gmap string CachedRequestState) (b : InputBatch) : Prop := {
  bo_shape : shape b;
  bo_index : forall id i, req_id_to_index b !! id = Some i <-> holds_id b i id;
  bo_places : forall i id, holds_id b i id ->
    exists q, reqs !! id = Some q /\ cs_req_id q = id /\ place_ok (max_model_len b) (vocab_size b) ls q (view b i);
  bo_holes : forall i, (forall id, ~ holds_id b i id) -> dicts_at (dicts b) i = dicts_none;
  bo_sets : forall id, sets_at (sets b) id = wanted_sets reqs b id;
  bo_lora : lora_users (lora b) (with_lora reqs b);
}.

Lemma holds_id_inj ls reqs b i j id : batch_ok ls reqs b -> holds_id b i id -> holds_id b j id -> i = j.
Proof. intros Hb H1%(bo_index _ _ _ Hb) H2%(bo_index _ _ _ Hb). congruence. Qed.

Lemma holds_lt b i id : shape b -> holds_id b i id -> i < max_num_reqs b.
Proof. intros Hs H%lookup_lt_Some. pose proof (sh_ids b Hs). lia. Qed.

(** The number of tokens of a request that are not drafts, as its row has it. *)
Definition count_of (b : InputBatch) (id : string) : option Z := i ← req_id_to_index b !! id; num_tokens_no_spec (counters b) !! i.

Definition same_counts (b b' : InputBatch) : Prop := forall id, count_of b' id = count_of b id.

Definition same_requests (b b' : InputBatch) : Prop := forall id, is_Some (req_id_to_index b' !! id) <-> is_Some (req_id_to_index b !! id).

Lemma counts_moved ls reqs b b' : batch_ok ls reqs b -> batch_ok ls reqs b' -> same_requests b b' ->
  (forall i id, holds_id b' i id -> exists j, holds_id b j id /\ num_tokens_no_spec (counters b') !! i = num_tokens_no_spec (counters b) !! j) -> same_counts b b'.
Proof.
  intros Hb Hb' Hr Hv id. unfold count_of. specialize (Hr id). destruct (req_id_to_index b' !! id) as [i|] eqn:Ei.
  - apply (bo_index _ _ _ Hb') in Ei. destruct (Hv i id Ei) as (j & Hj & En). apply (bo_index _ _ _ Hb) in Hj. by rewrite Hj.
  - destruct (req_id_to_index b !! id); [|done]. destruct Hr as [_ Hr]. destruct Hr; [by eexists|done].
Qed.

(** The ids in the places, without the empty ones. *)
Definition ids_in (b : InputBatch) : list string := omap id (req_ids b).

Lemma elem_ids_in b id : id ∈ ids_in b <-> exists i, holds_id b i id.
Proof.
  unfold ids_in, holds_id. rewrite list_elem_of_omap. setoid_rewrite list_elem_of_lookup. split.
  - intros (x & [i Hi] & E). cbn in E. subst. by exists i.
  - intros [i Hi]. exists (Some id). split; [by exists i|done].
Qed.

Lemma size_index ls reqs b : batch_ok ls reqs b -> num_reqs b = length (ids_in b).
Proof.
  intros Hb. unfold num_reqs. rewrite <-size_dom.
  assert (E : dom (req_id_to_index b) = list_to_set (ids_in b)).
  { apply set_eq. intros id. rewrite elem_of_dom, elem_of_list_to_set, elem_ids_in. split; intros [i Hi]; exists i; by apply (bo_index _ _ _ Hb). }
  rewrite E, size_list_to_set; [done|]. unfold ids_in. assert (Hi : forall i j id, holds_id b i id -> holds_id b j id -> i = j) by (intros; by eapply holds_id_inj).
  revert Hi. unfold holds_id. clear. induction (req_ids b) as [|[x|] l IH]; intros Hi; cbn; [constructor| |].
  - constructor; [|apply IH; intros i j id H1 H2; specialize (Hi (S i) (S j) id H1 H2); lia].
    intros (y & [j Hj]%list_elem_of_lookup & E)%list_elem_of_omap. cbn in E. subst. specialize (Hi 0 (S j) x eq_refl Hj). lia.
  - apply IH. intros i j id H1 H2. specialize (Hi (S i) (S j) id H1 H2). lia.
Qed.

(** [same_view b k]: the place in question holds what place [k] of [b] does. *)
Ltac same_view b k :=
  match goal with |- place_ok _ _ _ _ (view ?b' ?k') => replace (view b' k') with (view b k); [done|symmetry] end.

(** ** Removing *)

Lemma remove_request_ok ls reqs b id i : batch_ok ls reqs b -> req_id_to_index b !! id = Some i ->
  exists b', remove_request id b = Ok (b', Some i) /\ batch_ok ls reqs b' /\ same_dims b b' /\ req_ids b' = <[i := None]> (req_ids b) /\
    req_id_to_index b' = delete id (req_id_to_index b) /\ counters b' = counters b /\
    (allowed_token_ids_mask_cpu b = None -> allowed_token_ids_mask_cpu b' = None).
Proof.
  intros Hb Hi. pose proof Hi as Hh. apply (bo_index _ _ _ Hb) in Hh. destruct (bo_places _ _ _ Hb i id Hh) as (q & Hq & Hqid & Hp).
  pose proof (bo_shape _ _ _ Hb) as Hs. pose proof (holds_lt b i id Hs Hh) as Hlt. pose proof (lookup_lt_Some _ _ _ Hh) as Hlt2.
  destruct (lora_remove_ok (lora b) (with_lora reqs b) i id (cs_lora_request q) (bo_lora _ _ _ Hb) (po_lora _ _ _ _ _ Hp) (po_lora_id _ _ _ _ _ Hp))
    as (l & El & Hl & Hll & Hlk).
  { intros a. unfold with_lora. rewrite Hq, Hi. split; [intros (_ & q2 & [= <-] & ?); done|]. intros ?. split; [by eexists|by exists q]. }
  unfold remove_request. rewrite Hi, (np_put_ok i None (req_ids b)), (np_put_ok i None (req_output_token_ids b)) by (done || by rewrite (sh_outs b Hs)).
  cbn [mbind result_bind].
  rewrite El. cbn [mbind result_bind]. eexists. split; [reflexivity|]. split; [|split; [done|split; [done|split; [done|split; [done|]]]]].
  2: { cbn. by intros ->. }
  assert (Hnew : forall k x, <[i := None]> (req_ids b) !! k = Some (Some x) <-> k <> i /\ holds_id b k x).
  { intros k x. unfold holds_id. destruct (decide (k = i)) as [->|Hk]; [rewrite list_lookup_insert_eq by done; naive_solver|].
    rewrite list_lookup_insert_ne by done. naive_solver. }
  split; cbn.
  - destruct Hs. split; cbn; rewrite ?length_insert; try done; [congruence| |by rewrite fmap_is_Some].
    intros m (m0 & E & ->)%fmap_Some. rewrite length_alter. by apply sh_mask0.
  - intros x k. unfold holds_id. cbn. rewrite Hnew, <-(bo_index _ _ _ Hb), lookup_delete_Some. split; intros [H1 H2]; (split; [|done]).
    + intros ->. apply H1. apply (bo_index _ _ _ Hb) in H2. unfold holds_id in *. congruence.
    + intros ->. congruence.
  - intros k x [Hk Hx]%Hnew. destruct (bo_places _ _ _ Hb k x Hx) as (q2 & Hq2 & Hqid2 & Hp2). exists q2. split; [done|]. split; [done|].
    same_view b k.
    unfold view, mask_at. cbn. rewrite dicts_at_delete, decide_False, Hlk, !list_lookup_insert_ne by done. f_equal.
    destruct (allowed_token_ids_mask_cpu b) as [m|]; cbn; [|done]. by rewrite list_lookup_alter_ne.
  - intros k Hk. rewrite dicts_at_delete. destruct (decide (k = i)); [done|]. apply (bo_holes _ _ _ Hb). intros x Hx. apply (Hk x). unfold holds_id. cbn.
    by apply Hnew.
  - intros x. rewrite sets_at_discard. unfold wanted_sets. cbn. destruct (decide (x = id)) as [->|Hx]; [by rewrite lookup_delete_eq|].
    rewrite lookup_delete_ne by done. apply (bo_sets _ _ _ Hb).
  - eapply lora_users_ext; [|exact Hl]. intros a x. unfold with_lora. cbn. rewrite lookup_delete_is_Some. naive_solver.
Qed.

(** ** Adding *)

(** Place [i] is empty: a hole, or the next one at the end. *)
Definition free_place (b : InputBatch) (i : nat) : Prop := req_ids b !! i = Some None \/ i = length (req_ids b).

Lemma place_spec {A} i (x : A) l : i <= length l -> exists l', place i x l = Ok l' /\ length l' = Nat.max (length l) (S i) /\
  forall k, l' !! k = if decide (k = i) then Some (Some x) else l !! k.
Proof.
  intros Hi. unfold place. destruct (Nat.eqb_spec i (length l)) as [->|Hne].
  - exists (l ++ [Some x]). split; [done|]. split; [rewrite length_app; cbn; lia|]. intros k. destruct (decide (k = length l)) as [->|Hk].
    + by rewrite lookup_app_r, Nat.sub_diag by lia.
    + destruct (decide (k < length l)); [by rewrite lookup_app_l|]. rewrite lookup_app_r by lia. rewrite (lookup_ge_None_2 l) by lia.
      destruct (k - length l) eqn:Ek; [lia|done].
  - rewrite np_put_ok by lia. eexists. split; [reflexivity|]. split; [rewrite length_insert; lia|]. intros k. apply lookup_put. lia.
Qed.

Lemma free_le b i : free_place b i -> i <= length (req_ids b).
Proof. intros [H%lookup_lt_Some| ->]; lia. Qed.

Lemma free_not_held b i id : free_place b i -> ~ holds_id b i id.
Proof. unfold holds_id. intros [H| ->] H2; [congruence|]. apply lookup_lt_Some in H2. lia. Qed.

Lemma write_tokens_ok i ls q rows row : rows !! i = Some row -> length (tokens_of ls q) <= length row ->
  exists row', write_tokens i ls q rows = Ok (<[i := row']> rows) /\ length row' = length row /\ take (length (tokens_of ls q)) row' = tokens_of ls q.
Proof.
  intros Er Hl. unfold tokens_of in *. rewrite length_app in *. set (p := cs_prompt_token_ids q) in *. set (o := output_of ls q) in *.
  unfold write_tokens, cs_num_prompt_tokens. fold p o.
  pose proof (np_write_row_ok i 0 p rows row Er) as E1. change (Z.of_nat 0) with 0%Z in E1. rewrite Z.add_0_l in E1. rewrite E1 by lia. cbn [mbind result_bind].
  set (row1 := list_inserts 0 p row). assert (Hl1 : length row1 = length row) by apply length_inserts.
  rewrite (np_write_row_ok _ _ _ _ row1) by first [lia | by rewrite list_lookup_insert_eq by (by eapply lookup_lt_Some)].
  rewrite list_insert_insert_eq. exists (list_inserts (length p) o row1). split; [done|]. split; [by rewrite length_inserts|].
  rewrite take_inserts by lia. f_equal. unfold row1. pose proof (take_inserts 0 p row) as E2. rewrite Nat.add_0_l in E2. rewrite E2 by lia. done.
Qed.

(** What [add_request] asks of the request. *)
Record fits (ls : lists) (b : InputBatch) (q : CachedRequestState) : Prop := {
  ft_tokens : length (tokens_of ls q) <= max_model_len b;
  ft_blocks : length (cs_block_ids q) <= max_num_blocks_per_req (table b);
  ft_lora : cs_lora_request q <> Some 0%Z;
  ft_mask : exists row, mask_row (vocab_size b) (allowed_token_ids (sp_sampler (cs_sampling_params q))) = Ok row;
}.

Lemma put_mask_ok ls reqs b i p row : batch_ok ls reqs b -> i < max_num_reqs b -> mask_row (vocab_size b) (allowed_token_ids p) = Ok row ->
  exists m d, put_mask i b p = Ok (m, d) /\ (forall m0, m = Some m0 -> length m0 = max_num_reqs b) /\
    d_columns d = d_columns (device b) /\ (is_Some m -> exists m1, d_allowed_token_ids_mask d = Some m1 /\ length m1 = max_num_reqs b) /\
    (uses_allowed p = true -> m ≫= (.!! i) = Some row) /\
    (forall k r, k <> i -> mask_at b k = Some r -> m ≫= (.!! k) = Some r) /\
    (uses_allowed p = false -> m = allowed_token_ids_mask_cpu b /\ d = device b).
Proof.
  intros Hb Hi Hr. pose proof (bo_shape _ _ _ Hb) as Hs. unfold put_mask, mask_at. rewrite Hr. destruct (uses_allowed p).
  2: { do 2 eexists. split; [reflexivity|]. split; [apply (sh_mask b Hs)|]. split; [done|]. split; [apply (sh_device_mask b Hs)|]. done. }
  destruct (allowed_token_ids_mask_cpu b) as [m|] eqn:Em; cbn [mbind result_bind]; do 2 eexists; (split; [reflexivity|]).
  - pose proof (sh_mask b Hs m Em) as Hm. split; [intros m0 [= <-]; by rewrite length_insert|].
    split; [done|]. split; [intros _; apply (sh_device_mask b Hs); by rewrite Em|]. split; [intros _; cbn; apply list_lookup_insert_eq; lia|]. split; [|done]. intros k r Hk H. cbn. by rewrite list_lookup_insert_ne.
  - assert (Hm : length (no_mask (max_num_reqs b) (vocab_size b)) = max_num_reqs b) by apply length_replicate.
    split; [intros m0 [= <-]; by rewrite length_insert|]. split; [done|]. split; [intros _; by eexists|].
    split; [intros _; cbn; apply list_lookup_insert_eq; lia|]. split; [|done]. intros k r Hk H. done.
Qed.

Lemma shape_row b i : shape b -> i < max_num_reqs b -> exists row, token_ids_cpu b !! i = Some row /\ length row = max_model_len b.
Proof.
  intros Hs Hi. destruct (lookup_lt_is_Some_2 (token_ids_cpu b) i) as [row Er]; [by rewrite (sh_rows b Hs)|]. exists row. split; [done|].
  apply (Forall_lookup_1 _ _ _ _ (sh_width b Hs) Er).
Qed.

Lemma batch_add_ok ls reqs b q id idx : let i := default (num_reqs b) idx in
  batch_ok ls reqs b -> reqs !! id = Some q -> cs_req_id q = id -> req_id_to_index b !! id = None -> i < max_num_reqs b -> free_place b i -> fits ls b q ->
  exists b', add_request ls q idx b = Ok b' /\ batch_ok ls reqs b' /\ same_dims b b' /\ req_id_to_index b' = <[id := i]> (req_id_to_index b) /\
    length (req_ids b') = Nat.max (length (req_ids b)) (S i) /\
    (forall k, req_ids b' !! k = if decide (k = i) then Some (Some id) else req_ids b !! k) /\
    (uses_allowed (sp_sampler (cs_sampling_params q)) = false -> allowed_token_ids_mask_cpu b = None -> allowed_token_ids_mask_cpu b' = None) /\
    (forall x, count_of b' x = if decide (x = id) then Some (cs_num_tokens ls q) else count_of b x).
Proof.
  intros i Hb Hq Hqid Hnew Hi Hfree [Hft Hfb Hfl [mrow Hfm]]. pose proof (bo_shape _ _ _ Hb) as Hs.
  destruct (place_spec i id (req_ids b) (free_le b i Hfree)) as (ids & Eids & Hlids & Hids).
  destruct (place_spec i (cs_output_token_ids q) (req_output_token_ids b)) as (outs & Eouts & Hlouts & Houts); [rewrite (sh_outs b Hs); by apply free_le|].
  destruct (shape_row b i Hs Hi) as (row & Er & Hrow).
  destruct (write_tokens_ok i ls q (token_ids_cpu b) row Er) as (row' & Ew & Hrow' & Htake); [by rewrite Hrow|].
  destruct (add_row_ok (table b) i (cs_block_ids q) (sh_table b Hs)) as (t & Et & Ht & (Ht1 & Ht2 & _) & Hrb); [by rewrite (sh_places b Hs)|done|].
  destruct (put_mask_ok ls reqs b i _ mrow Hb Hi Hfm) as (m & d & Em & Hml & Hdc & Hdm & Hmi & Hmk & Hmn).
  assert (Hd0 : dicts_at (dicts b) i = dicts_none) by (apply (bo_holes _ _ _ Hb); intros x; by apply free_not_held).
  assert (Hs0 : sets_at (sets b) id = sets_none) by (rewrite (bo_sets _ _ _ Hb); unfold wanted_sets; by rewrite Hnew).
  destruct (lora_put_ok (lora b) (with_lora reqs b) i id (cs_lora_request q) (bo_lora _ _ _ Hb)) as [Hlu Hlm]; [intros a [[? ?] _]; congruence|].
  unfold add_request. fold i. rewrite (proj2 (Nat.ltb_lt _ _) Hi). cbn [py_assert mbind result_bind]. rewrite Hqid, Eids. cbn [mbind result_bind].
  rewrite Eouts. cbn [mbind result_bind]. rewrite Ew. cbn [mbind result_bind]. rewrite Et. cbn [mbind result_bind]. rewrite Em. cbn [mbind result_bind].
  eexists. split; [reflexivity|]. split; [|split; [done|split; [done|split; [done|split; [done|]]]]].
  2: { cbn. split; [intros Hu Hn; by destruct (Hmn Hu) as [-> _]|]. intros x. unfold count_of. cbn. destruct (decide (x = id)) as [->|Hx].
       - rewrite lookup_insert_eq. cbn. apply list_lookup_insert_eq. destruct (sh_counts b Hs). lia.
       - rewrite lookup_insert_ne by done. destruct (req_id_to_index b !! x) as [k|] eqn:Ek; [|done]. cbn. apply list_lookup_insert_ne. intros <-.
         apply (bo_index _ _ _ Hb) in Ek. by eapply free_not_held. }
  assert (Hholds : forall k x, ids !! k = Some (Some x) <-> (k = i /\ x = id) \/ (k <> i /\ holds_id b k x)).
  { intros k x. rewrite Hids. destruct (decide (k = i)); unfold holds_id; naive_solver. }
  destruct (cols_put (max_num_reqs b) i (vocab_size b) (sp_sampler (cs_sampling_params q)) (columns b) i (sh_cols b Hs) Hi) as [Hcl _].
  destruct (sh_counts b Hs) as [Hc1 Hc2 Hc3 Hc4]. pose proof (sh_rows b Hs) as Hrows.
  split; cbn.
  - destruct Hs. split; cbn; rewrite ?length_insert; try done.
    + apply Forall_insert; [done|]. congruence.
    + split; cbn; by rewrite length_insert.
    + rewrite Hlm. by rewrite length_insert.
    + destruct (sp_logit_bias _); [by rewrite length_insert|done].
    + congruence.
    + rewrite Hlids, Hlouts. congruence.
    + rewrite Hlids. lia.
    + by rewrite Hdc.
  - intros x k. unfold holds_id. cbn. rewrite Hholds. destruct (decide (x = id)) as [->|Hx].
    + rewrite lookup_insert_eq. split; [naive_solver|]. intros [[-> _]|[_ H]]; [done|]. apply (bo_index _ _ _ Hb) in H. congruence.
    + rewrite lookup_insert_ne, (bo_index _ _ _ Hb) by done. split; [|naive_solver]. intros H. right. split; [|done]. intros ->. by eapply free_not_held.
  - intros k x [[-> ->]|[Hk Hx]]%Hholds.
    + exists q. split; [done|]. split; [done|]. split; cbn.
      * exists row', (length (tokens_of ls q)), (length (tokens_of ls q)). cbn. rewrite !lookup_put by lia. rewrite !decide_True by done.
        rewrite cs_num_tokens_length. split_and!; [done|done|done|lia|lia|lia|]. rewrite Htake. symmetry. apply take_ge. lia.
      * unfold counts_at. cbn. rewrite !lookup_put by lia. by rewrite !decide_True.
      * rewrite Hrb. by rewrite decide_True.
      * rewrite (proj2 (cols_put (max_num_reqs b) i _ _ _ _ (sh_cols b Hs) Hi)). by rewrite decide_True.
      * rewrite dicts_at_put by done. by rewrite decide_True.
      * rewrite Hlm. rewrite lookup_put by (by rewrite (sh_lora b Hs)). by rewrite decide_True.
      * done.
      * intros lb ->. apply list_lookup_insert_eq. by rewrite (sh_bias b Hs).
      * intros Hu. exists mrow. split; [|done]. apply (Hmi Hu).
      * rewrite Houts. by rewrite decide_True.
    + destruct (bo_places _ _ _ Hb k x Hx) as (q2 & Hq2 & Hqid2 & Hp2). exists q2. split; [done|]. split; [done|]. cbn.
      assert (Ebias : match sp_logit_bias (sp_sampler (cs_sampling_params q)) with Some lb => <[i := Some lb]> (logit_bias b) | None => logit_bias b end !! k = logit_bias b !! k).
      { destruct (sp_logit_bias _); [by apply list_lookup_insert_ne|done]. }
      destruct Hp2. split; cbn; rewrite ?Hrb, ?dicts_at_put, ?Hlm, ?Houts, ?(proj2 (cols_put (max_num_reqs b) i _ _ _ _ (sh_cols b Hs) Hi)) by done;
        rewrite ?decide_False by done; try done.
      * destruct po_row0 as (r & n & j & H1 & H2 & H3 & H4). exists r, n, j. cbn in *. rewrite !list_lookup_insert_ne by done. done.
      * unfold counts_at in *. cbn in *. rewrite !list_lookup_insert_ne by done. done.
      * rewrite list_lookup_insert_ne by done. done.
      * intros lb Hlb. rewrite Ebias. by apply po_bias0.
      * intros Hu. destruct (po_mask0 Hu) as (r & Hr & Hr2). exists r. split; [|done]. by apply Hmk.
  - intros k Hk. rewrite dicts_at_put by done. rewrite decide_False.
    + apply (bo_holes _ _ _ Hb). intros x Hx. apply (Hk x). unfold holds_id. cbn. apply Hholds. destruct (decide (k = i)) as [->|]; [by destruct (free_not_held b i x)|by right].
    + intros ->. apply (Hk id). unfold holds_id. cbn. apply Hholds. by left.
  - intros x. rewrite sets_at_add by done. unfold wanted_sets. cbn. destruct (decide (x = id)) as [->|Hx]; [by rewrite lookup_insert_eq, Hq|].
    rewrite lookup_insert_ne by done. apply (bo_sets _ _ _ Hb).
  - eapply lora_users_ext; [|exact Hlu]. intros a x. unfold with_lora. cbn. destruct (decide (x = id)) as [->|Hx].
    + rewrite lookup_insert_eq, Hnew, Hq. split; [intros [[[? ?] _]|[_ Ha]]; [done|]; split; [by eexists|by exists q]|]. intros (_ & q3 & [= <-] & Ha). by right.
    + rewrite lookup_insert_ne by done. naive_solver.
Qed.

(** ** Moving a request to an empty place *)

Lemma row_ok_prefix width toks v v' row row' (k : nat) : row_ok width toks v -> v_row v = Some row -> v_num_tokens v = Some (Z.of_nat k) ->
  v_row v' = Some row' -> take k row' = take k row -> v_no_spec v' = v_no_spec v -> v_num_tokens v' = v_num_tokens v -> row_ok width toks v'.
Proof.
  intros (r & n & j & E1 & E2 & E3 & Hn & Hj & Ht) Er Ek Er' Etake E4 E5. rewrite Er in E1. injection E1 as <-. rewrite Ek in E3. injection E3 as E3.
  apply Nat2Z.inj in E3 as <-. exists row', n, k. rewrite E4, E5. split_and!; [done|done|done|lia|lia|lia|].
  rewrite <-Ht. replace n with (n `min` k) by lia. rewrite <-!take_take. by rewrite Etake.
Qed.

Lemma move_lookup n (f : forall A, list A -> list A) i j k : f = (fun A => move i j) -> i < n -> j < n -> forall A (l : list A), length l = n ->
  f A l !! k = l !! (if decide (k = j) then i else k).
Proof. intros -> Hi Hj A l Hl. rewrite lookup_move by lia. by destruct (decide (k = j)). Qed.

Lemma move_tokens b i j (k : nat) row : shape b -> i < max_num_reqs b -> j < max_num_reqs b -> token_ids_cpu b !! i = Some row -> k <= max_model_len b ->
  exists row', np_write_row j 0 (Z.of_nat k) (py_slice 0 (Z.of_nat k) row) (token_ids_cpu b) = Ok (<[j := row']> (token_ids_cpu b)) /\
    length row' = max_model_len b /\ take k row' = take k row.
Proof.
  intros Hs Hi Hj Er Hk. pose proof (Forall_lookup_1 _ _ _ _ (sh_width b Hs) Er) as Hl. cbn in Hl. destruct (shape_row b j Hs Hj) as (row2 & Er2 & Hl2).
  change 0%Z with (Z.of_nat 0). rewrite py_slice_nat by lia. rewrite Nat.sub_0_r, drop_0.
  assert (Hlt : length (take k row) = k) by (rewrite length_take; lia).
  pose proof (np_write_row_ok j 0 (take k row) (token_ids_cpu b) row2 Er2) as E. rewrite Hlt in E. change (Z.of_nat 0) with 0%Z in *. rewrite Z.add_0_l in E.
  rewrite E by lia. eexists. split; [reflexivity|]. split; [by rewrite length_inserts|]. pose proof (take_inserts 0 (take k row) row2) as E2.
  rewrite Hlt, Nat.add_0_l in E2. by rewrite E2 by lia.
Qed.

(** All of a view but the tokens. *)
Definition rest (v : View) := (v_counts v, v_blocks v, v_cols v, v_dicts v, v_lora v, v_bias v, v_mask v, v_out v).

Lemma place_ok_moved width vocab ls q v v' : place_ok width vocab ls q v -> rest v' = rest v ->
  (forall toks, row_ok width toks v -> row_ok width toks v') -> place_ok width vocab ls q v'.
Proof.
  intros [] [= E1 E2 E3 E4 E5 E6 E7 E8] Hrow. split; rewrite ?E1, ?E2, ?E3, ?E4, ?E5, ?E6, ?E7, ?E8; auto.
Qed.

(** If every request of the new batch was in the old one, at whatever place, the
    new one is as good. *)
Lemma batch_moved ls reqs b b' : batch_ok ls reqs b -> shape b' -> same_dims b b' ->
  (forall id i, req_id_to_index b' !! id = Some i <-> holds_id b' i id) ->
  (forall id, is_Some (req_id_to_index b' !! id) <-> is_Some (req_id_to_index b !! id)) ->
  (forall i id, holds_id b' i id -> exists j, holds_id b j id /\ rest (view b' i) = rest (view b j) /\
    forall toks, row_ok (max_model_len b) toks (view b j) -> row_ok (max_model_len b) toks (view b' i)) ->
  (forall i, (forall id, ~ holds_id b' i id) -> dicts_at (dicts b') i = dicts_none) ->
  sets b' = sets b -> lora_id_to_request_ids (lora b') = lora_id_to_request_ids (lora b) ->
  lora_id_to_lora_request (lora b') = lora_id_to_lora_request (lora b) -> batch_ok ls reqs b'.
Proof.
  intros Hb Hs (Hd1 & Hd2 & Hd3 & Hd4) Hi Hdom Hv Hh Hsets Hl1 Hl2. split; [done|done| |done| |].
  - intros i id Hid. destruct (Hv i id Hid) as (j & Hj & Hr & Hrow). destruct (bo_places _ _ _ Hb j id Hj) as (q & Hq & Hqid & Hp).
    exists q. split; [done|]. split; [done|]. rewrite Hd2, Hd3. by eapply place_ok_moved.
  - intros id. rewrite Hsets, (bo_sets _ _ _ Hb). unfold wanted_sets. rewrite Hd3. specialize (Hdom id).
    destruct (req_id_to_index b' !! id), (req_id_to_index b !! id); try done; [by destruct (proj1 Hdom (mk_is_Some _ _ eq_refl))|by destruct (proj2 Hdom (mk_is_Some _ _ eq_refl))].
  - assert (Ha : lora_users (lora b') (with_lora reqs b)) by (intros a; rewrite Hl1, Hl2; apply (bo_lora _ _ _ Hb)).
    eapply lora_users_ext; [|exact Ha]. intros a id. unfold with_lora. by rewrite Hdom.
Qed.

Lemma move_states_view ls reqs b last empty id : batch_ok ls reqs b -> holds_id b last id -> req_ids b !! empty = Some None ->
  exists b', move_states last empty b = Ok b' /\ shape b' /\ same_dims b b' /\ sets b' = sets b /\
    lora_id_to_request_ids (lora b') = lora_id_to_request_ids (lora b) /\ lora_id_to_lora_request (lora b') = lora_id_to_lora_request (lora b) /\
    req_ids b' = <[last := None]> (<[empty := Some id]> (req_ids b)) /\ req_id_to_index b' = <[id := empty]> (req_id_to_index b) /\
    (allowed_token_ids_mask_cpu b = None -> allowed_token_ids_mask_cpu b' = None) /\
    dicts_at (dicts b') last = dicts_none /\
    (forall i, i <> last -> i <> empty -> view b' i = view b i) /\
    rest (view b' empty) = rest (view b last) /\
    v_no_spec (view b' empty) = v_no_spec (view b last) /\
    (forall toks, row_ok (max_model_len b) toks (view b last) -> row_ok (max_model_len b) toks (view b' empty)).
Proof.
  intros Hb Hl He. pose proof (bo_shape _ _ _ Hb) as Hs. pose proof (holds_lt b last id Hs Hl) as Hlt.
  pose proof (lookup_lt_Some _ _ _ He) as Het. pose proof (sh_ids b Hs) as Hids.
  assert (Hne : last <> empty) by (intros ->; unfold holds_id in Hl; congruence).
  destruct (bo_places _ _ _ Hb last id Hl) as (q & Hq & Hqid & Hp).
  destruct (po_row _ _ _ _ _ Hp) as (row & n & k & E1 & E2 & E3 & Hn & Hk & Htake). cbn in E1, E2, E3.
  destruct (move_tokens b last empty k row Hs Hlt) as (row' & Ew & Hrow' & Etake); [lia|done|lia|].
  destruct (move_row_ok (table b) last empty (cs_block_ids q) (sh_table b Hs)) as (t & Et & Ht & (Ht1 & Ht2 & _) & Hrb);
    [by rewrite (sh_places b Hs)|rewrite (sh_places b Hs); lia|apply (po_blocks _ _ _ _ _ Hp)|].
  assert (Hd0 : dicts_at (dicts b) empty = dicts_none) by (apply (bo_holes _ _ _ Hb); intros x Hx; unfold holds_id in Hx; congruence).
  pose proof (po_out _ _ _ _ _ Hp) as Eo. cbn in Eo. pose proof (po_blocks _ _ _ _ _ Hp) as Eb. cbn in Eb.
  unfold move_states, np_get. unfold holds_id in Hl. rewrite Hl, Eo, E3, E1. cbn [of_option mbind result_bind].
  destruct Hs. destruct sh_counts0.
  rewrite (np_put_ok empty _ (req_ids b)), (np_put_ok empty _ (req_output_token_ids b)) by (done || lia). cbn [mbind result_bind].
  rewrite Ew. cbn [mbind result_bind]. rewrite Et. cbn [mbind result_bind]. eexists. split; [reflexivity|].
  split; [|split; [done|]; split; [done|]; split; [done|]; split; [done|]; split; [done|]; split; [done|]; split; [by intros E; cbn; rewrite E|]; cbn;
    rewrite dicts_at_move, decide_False, decide_True by done; split; [done|]; split_and!].
  - split; cbn; rewrite ?length_insert, ?length_move; try done.
    + by apply Forall_insert.
    + split; cbn; by rewrite length_move.
    + by apply cols_len_map; [|intros; apply length_move].
    + intros m (m0 & E & ->)%fmap_Some. rewrite length_move. by apply sh_mask0.
    + congruence.
    + by rewrite fmap_is_Some.
  - intros i Hil Hie. unfold view, counts_at, mask_at. cbn. rewrite Hrb, dicts_at_move, !decide_False by done.
    rewrite (cols_at_map (max_num_reqs b) _ _ i i) by (done || (intros; rewrite lookup_move, decide_False by (done || lia); done)).
    rewrite !lookup_move, !decide_False, !list_lookup_insert_ne by (done || lia). f_equal.
    destruct (allowed_token_ids_mask_cpu b) as [m|]; cbn; [|done]. specialize (sh_mask0 m eq_refl). by rewrite lookup_move, decide_False by (done || lia).
  - unfold rest, view, counts_at, mask_at. cbn. rewrite Hrb, dicts_at_move, !(decide_True (P := empty = empty)) by done.
    rewrite (cols_at_map (max_num_reqs b) _ _ empty last) by (done || (intros; rewrite lookup_move, decide_True by (done || lia); done)).
    rewrite !lookup_move, !decide_True, list_lookup_insert_ne, list_lookup_insert_eq by (done || lia). rewrite Eb, Eo. f_equal. f_equal.
    destruct (allowed_token_ids_mask_cpu b) as [m|]; cbn; [|done]. specialize (sh_mask0 m eq_refl). by rewrite lookup_move, decide_True by (done || lia).
  - cbn. by rewrite lookup_move, decide_True by (done || lia).
  - intros toks Hr. eapply (row_ok_prefix _ _ _ _ row row' k Hr); cbn; [done|done| |done| |].
    + apply list_lookup_insert_eq. lia.
    + rewrite lookup_move, decide_True by (done || lia). done.
    + rewrite lookup_move, decide_True by (done || lia). done.
Qed.

Lemma move_states_ok ls reqs b last empty id : batch_ok ls reqs b -> holds_id b last id -> req_ids b !! empty = Some None ->
  exists b', move_states last empty b = Ok b' /\ batch_ok ls reqs b' /\ same_dims b b' /\
    req_ids b' = <[last := None]> (<[empty := Some id]> (req_ids b)) /\ req_id_to_index b' = <[id := empty]> (req_id_to_index b) /\
    (allowed_token_ids_mask_cpu b = None -> allowed_token_ids_mask_cpu b' = None) /\ same_counts b b'.
Proof.
  intros Hb Hl He. destruct (move_states_view ls reqs b last empty id Hb Hl He)
    as (b' & E & Hs & Hd & Hsets & Hl1 & Hl2 & Eids & Eidx & Em & Hdl & Hv & Hve & Hcv & Hre).
  exists b'. split; [exact E|]. pose proof (lookup_lt_Some _ _ _ He) as Het. pose proof (lookup_lt_Some _ _ _ Hl) as Hlt.
  assert (Hne : last <> empty) by (intros ->; unfold holds_id in Hl; congruence).
  assert (Hholds : forall i x, holds_id b' i x <-> (i = empty /\ x = id) \/ (i <> empty /\ i <> last /\ holds_id b i x)).
  { intros i x. unfold holds_id. rewrite Eids, lookup_put by (by rewrite length_insert). rewrite lookup_put by done.
    destruct (decide (i = last)) as [->|]; [naive_solver|]. destruct (decide (i = empty)); naive_solver. }
  assert (Hsame : same_requests b b').
  { intros x. rewrite Eidx, lookup_insert_is_Some. apply (bo_index _ _ _ Hb) in Hl. destruct (decide (id = x)) as [->|]; [|naive_solver].
    split; [intros _; by eexists|by left]. }
  assert (Hb' : batch_ok ls reqs b'); [eapply (batch_moved ls reqs b b'); try done|].
  - intros x i. rewrite Eidx, Hholds. destruct (decide (x = id)) as [->|Hx].
    + rewrite lookup_insert_eq. split; [naive_solver|]. intros [[-> _]|(_ & Hi & Hh)]; [done|]. by destruct Hi; eapply holds_id_inj.
    + rewrite lookup_insert_ne, (bo_index _ _ _ Hb) by done. split; [|naive_solver]. intros Hh. right. split_and!; [| |done].
      * intros ->. unfold holds_id in Hh. congruence.
      * intros ->. unfold holds_id in *. congruence.
  - intros i x [[-> ->]|(Hi1 & Hi2 & Hh)]%Hholds; [by exists last|]. exists i. rewrite Hv by done. done.
  - intros i Hi. destruct (decide (i = last)) as [->|Hil]; [done|]. destruct (decide (i = empty)) as [->|Hie]; [by destruct (Hi id); apply Hholds; left|].
    pose proof (f_equal v_dicts (Hv i Hil Hie)) as Ed. cbn in Ed. rewrite Ed. apply (bo_holes _ _ _ Hb). intros x Hx. apply (Hi x), Hholds. by right.
  - split; [done|]. split; [done|]. split; [done|]. split; [done|]. split; [done|]. eapply counts_moved; [exact Hb|exact Hb'|exact Hsame|].
    intros i x [[-> ->]|(Hi1 & Hi2 & Hh)]%Hholds; [by exists last|]. exists i. split; [done|]. exact (f_equal v_no_spec (Hv i Hi2 Hi1)).
Qed.

(** ** Condensing *)

(** No place is empty. *)
Definition compact (b : InputBatch) : Prop := req_ids b = Some <$> ids_in b.

Lemma last_occupied_ok empty last : match last_occupied empty last with
  | Some l => l <= last /\ l ∉ empty /\ forall k, l < k <= last -> k ∈ empty
  | None => forall k, k <= last -> k ∈ empty
  end.
Proof.
  induction last as [|last IH]; cbn [last_occupied]; case_bool_decide as H.
  - intros k Hk. by replace k with 0 by lia.
  - split_and!; [lia|done|lia].
  - destruct (last_occupied empty last) as [l|].
    + destruct IH as (H1 & H2 & H3). split_and!; [lia|done|]. intros k Hk. destruct (decide (k = S last)) as [->|]; [done|]. apply H3. lia.
    + intros k Hk. destruct (decide (k = S last)) as [->|]; [done|]. apply IH. lia.
  - split_and!; [lia|done|lia].
Qed.

(** All empty places are behind the others. *)
Definition holes_last {A} (l : list (option A)) : Prop := forall i j x, l !! i = Some None -> l !! j = Some (Some x) -> j < i.

Lemma holes_last_split {A} (l : list (option A)) : holes_last l -> exists k, l = (Some <$> omap id l) ++ replicate k None.
Proof.
  induction l as [|[x|] l IH]; intros Hl.
  - by exists 0.
  - destruct IH as [k IH]; [intros i j y H1 H2; specialize (Hl (S i) (S j) y H1 H2); lia|]. exists k. cbn. by f_equal.
  - exists (S (length l)). assert (omap id l = [] /\ l = replicate (length l) None) as [E1 E2]; [|cbn; rewrite E1; cbn; by f_equal].
    assert (Hno : forall j y, l !! j <> Some (Some y)) by (intros j y Hj; specialize (Hl 0 (S j) y eq_refl Hj); lia).
    clear -Hno. induction l as [|[y|] l IH]; [done|by destruct (Hno 0 y)|]. destruct IH as [E1 E2]; [intros j y; apply (Hno (S j))|].
    split; [exact E1|]. cbn. by f_equal.
Qed.

Lemma omap_Some {A} (l : list A) : omap id (Some <$> l) = l.
Proof. induction l as [|x l IH]; cbn; [done|by rewrite IH]. Qed.

Lemma condense_loop_ok ls reqs empty : forall last b, batch_ok ls reqs b -> StronglySorted lt empty -> (last < Z.of_nat (length (req_ids b)))%Z ->
  (forall i, i < length (req_ids b) -> req_ids b !! i = Some None <-> i ∈ empty \/ (last < Z.of_nat i)%Z) ->
  exists b', condense_loop empty last b = Ok b' /\ batch_ok ls reqs b' /\ same_dims b b' /\ same_requests b b' /\ holes_last (req_ids b') /\
    (allowed_token_ids_mask_cpu b = None -> allowed_token_ids_mask_cpu b' = None) /\ same_counts b b'.
Proof.
  induction empty as [|e rest IH]; intros last b Hb Hsort Hlast Hholes; cbn [condense_loop].
  { exists b. split_and!; try done. intros i j x Hi Hj. pose proof (lookup_lt_Some _ _ _ Hj) as Hlt. pose proof (lookup_lt_Some _ _ _ Hi) as Hlti.
    apply Hholes in Hi as [Hi%elem_of_nil|Hi]; [done| |done]. destruct (decide (last < Z.of_nat j)%Z) as [H|]; [|lia].
    assert (Hjn : req_ids b !! j = Some None) by (apply Hholes; auto). congruence. }
  apply StronglySorted_inv in Hsort as [Hsort He]. rewrite Forall_forall in He.
  assert (Hdone : forall l : Z, (forall i, i < length (req_ids b) -> req_ids b !! i = Some None -> (l < Z.of_nat i)%Z) ->
    (forall i, (l < Z.of_nat i)%Z -> i < length (req_ids b) -> req_ids b !! i = Some None) -> holes_last (req_ids b)).
  { intros l H1 H2 i j x Hi Hj. pose proof (lookup_lt_Some _ _ _ Hj) as Hlt. specialize (H1 i (lookup_lt_Some _ _ _ Hi) Hi).
    destruct (decide (l < Z.of_nat j)%Z) as [H|]; [rewrite (H2 j H Hlt) in Hj; done|lia]. }
  destruct (Z.ltb_spec last 0).
  { exists b. split_and!; try done. apply (Hdone (-1)%Z); [lia|]. intros i Hi Hlt. apply Hholes; [done|]. right. lia. }
  pose proof (last_occupied_ok (e :: rest) (Z.to_nat last)) as Hocc. destruct (last_occupied _ _) as [l|].
  2: { exists b. split_and!; try done. apply (Hdone (-1)%Z); [lia|]. intros i _ Hlt. apply Hholes; [done|].
       destruct (decide (last < Z.of_nat i)%Z); [by right|]. left. apply Hocc. lia. }
  destruct Hocc as (Hl1 & Hl2 & Hl3). destruct (Nat.leb_spec l e) as [Hle|Hgt].
  { exists b. split_and!; try done. apply (Hdone (Z.of_nat l)).
    - intros i Hlt Hi. apply Hholes in Hi as [[->|Hi]%elem_of_cons|Hi]; [|specialize (He i Hi); lia|lia|done].
      assert (e <> l) by (intros ->; apply Hl2; by left). lia.
    - intros i Hi Hlt. apply Hholes; [done|]. destruct (decide (last < Z.of_nat i)%Z); [by right|]. left. apply Hl3. lia. }
  assert (Hll : l < length (req_ids b)) by lia. assert (Hel : e < length (req_ids b)) by lia.
  assert (Hen : req_ids b !! e = Some None) by (apply Hholes; [done|]; left; by left).
  destruct (lookup_lt_is_Some_2 (req_ids b) l Hll) as [[id|] Eid].
  2: { apply Hholes in Eid as [?|?]; [done|lia|done]. }
  destruct (move_states_ok ls reqs b l e id Hb Eid Hen) as (b1 & E1 & Hb1 & Hd1 & Eids & Eidx & Em & Hcnt). rewrite E1. cbn [mbind result_bind].
  assert (Hlen : length (req_ids b1) = length (req_ids b)) by (rewrite Eids; by rewrite !length_insert).
  destruct (IH (Z.of_nat l - 1)%Z b1 Hb1 Hsort) as (b' & E' & Hb' & Hd' & Hr' & Hh' & Em' & Hcnt'); [lia| |].
  - intros i Hi. rewrite Hlen in Hi. rewrite Eids, lookup_put by (by rewrite length_insert). rewrite lookup_put by done.
    destruct (decide (i = l)) as [->|Hil]; [split; [intros _; right; lia|done]|].
    destruct (decide (i = e)) as [->|Hie].
    + split; [done|]. intros [Hi2|?]; [specialize (He e Hi2); lia|lia].
    + rewrite Hholes by done. rewrite elem_of_cons. split; [intros [[->|?]|?]; [done|by left|right; lia]|].
      intros [?|?]; [left; by right|]. destruct (decide (last < Z.of_nat i)%Z); [by right|]. left. apply elem_of_cons, Hl3. lia.
  - exists b'. split; [exact E'|]. split_and!; try done.
    + destruct Hd1 as (D1 & D2 & D3 & D4), Hd' as (D5 & D6 & D7 & D8). split_and!; congruence.
    + intros x. rewrite (Hr' x), Eidx, lookup_insert_is_Some. apply (bo_index _ _ _ Hb) in Eid. destruct (decide (id = x)) as [->|]; [|naive_solver].
      split; [intros _; by eexists|by left].
    + auto.
    + intros x. by rewrite Hcnt', Hcnt.
Qed.

Lemma trim_ok ls reqs b n : batch_ok ls reqs b -> (forall i id, holds_id b i id -> i < n) -> batch_ok ls reqs (trim n b).
Proof.
  intros Hb Hn. assert (Hh : forall i id, holds_id (trim n b) i id <-> holds_id b i id).
  { intros i id. unfold holds_id. cbn. split; [by intros [? _]%lookup_take_Some|]. intros H. apply lookup_take_Some. split; [done|by eapply Hn]. }
  eapply (batch_moved ls reqs b); try done.
  - destruct (bo_shape _ _ _ Hb). split; cbn; try done; rewrite ?length_take; lia.
  - intros id i. cbn. by rewrite Hh, (bo_index _ _ _ Hb).
  - intros i id Hi. exists i. rewrite Hh in Hi. split; [done|]. specialize (Hn i id Hi).
    replace (view (trim n b) i) with (view b i); [done|]. unfold view. cbn. f_equal. by rewrite lookup_take_lt.
  - intros i Hi. cbn. apply (bo_holes _ _ _ Hb). intros id. by rewrite <-Hh.
Qed.

Lemma length_holes {A} (l : list (option A)) (holes : list nat) : NoDup holes -> (forall i, i ∈ holes <-> l !! i = Some None) ->
  length l = length (omap id l) + length holes.
Proof.
  revert holes. induction l as [|x l IH]; intros holes Hnd Hh.
  - destruct holes as [|h holes]; [done|]. assert (H : h ∈ h :: holes) by left. apply Hh in H. done.
  - assert (Hsplit : exists rest, holes ≡ₚ (if x then [] else [0]) ++ (S <$> rest) /\ NoDup rest /\ forall i, i ∈ rest <-> l !! i = Some None).
    { exists (pred <$> filter (fun i => i <> 0) holes).
      assert (Hrest : forall i, i ∈ pred <$> filter (fun i => i <> 0) holes <-> l !! i = Some None).
      { intros i. rewrite list_elem_of_fmap. setoid_rewrite list_elem_of_filter. setoid_rewrite Hh. split.
        - intros ([|j] & -> & ? & Hj); [done|]. done.
        - intros Hi. exists (S i). done. }
      assert (HndR : NoDup (pred <$> filter (fun i => i <> 0) holes)).
      { apply NoDup_fmap_2_strong; [|by apply NoDup_filter]. intros [|i] [|j] [? _]%list_elem_of_filter [? _]%list_elem_of_filter E; cbn in E; congruence. }
      split_and!; [|done|done]. apply NoDup_Permutation; [done| |].
      - assert (HS : NoDup (S <$> (pred <$> filter (fun i => i <> 0) holes))) by (apply NoDup_fmap_2; [apply _|done]).
        destruct x; [done|]. apply NoDup_cons. split; [by intros (? & [=] & _)%list_elem_of_fmap|done].
      - intros [|i]; rewrite Hh, elem_of_app, list_elem_of_fmap.
        + destruct x; cbn; split; [done|intros [?%elem_of_nil|(? & [=] & _)]; done|intros _; left; by left|done].
        + cbn. rewrite <-Hrest. split; [intros Hi; right; by exists i|]. intros [Hi|(j & [= ->] & Hj)]; [|done].
          destruct x; [by apply elem_of_nil in Hi|by apply list_elem_of_singleton in Hi]. }
    destruct Hsplit as (rest & Hp & HndR & Hr). rewrite Hp, length_app, length_fmap. cbn. rewrite (IH rest HndR Hr).
    destruct x; cbn; lia.
Qed.

Lemma condense_ok ls reqs b removed : batch_ok ls reqs b -> StronglySorted lt removed -> (forall i, i ∈ removed <-> req_ids b !! i = Some None) ->
  exists b', condense (reverse removed) b = Ok b' /\ batch_ok ls reqs b' /\ same_dims b b' /\ same_requests b b' /\ compact b' /\
    (allowed_token_ids_mask_cpu b = None -> allowed_token_ids_mask_cpu b' = None) /\ same_counts b b'.
Proof.
  intros Hb Hsort Hrem. unfold condense. rewrite (size_index ls reqs b Hb). destruct (Nat.eqb_spec (length (ids_in b)) 0) as [E0|Hne].
  - exists (trim 0 b). split; [done|]. assert (Hno : forall i id, ~ holds_id b i id).
    { intros i id Hi. assert (H : id ∈ ids_in b) by (apply elem_ids_in; by exists i). destruct (ids_in b); [by apply elem_of_nil in H|done]. }
    split; [apply trim_ok; [done|]; intros i id Hi; by destruct (Hno i id)|]. by split_and!.
  - rewrite reverse_involutive, length_reverse.
    assert (Hlen : length (req_ids b) = length (ids_in b) + length removed).
    { apply length_holes; [|done]. clear -Hsort. induction Hsort as [|x l Hs IH Hx]; constructor; [|done]. rewrite Forall_forall in Hx. intros Hin. specialize (Hx x Hin). lia. }
    destruct (condense_loop_ok ls reqs removed (Z.of_nat (length (ids_in b) + length removed) - 1)%Z b Hb Hsort) as (b1 & E1 & Hb1 & Hd1 & Hr1 & Hh1 & Em1 & Hcnt1); [lia| |].
    { intros i Hi. rewrite Hrem. split; [by left|]. intros [?|?]; [done|lia]. }
    rewrite E1. cbn [mbind result_bind]. exists (trim (num_reqs b1) b1). split; [done|].
    destruct (holes_last_split _ Hh1) as [k Hk]. rewrite (size_index ls reqs b1 Hb1). unfold ids_in.
    set (ids := omap id (req_ids b1)) in *.
    assert (Htake : take (length ids) (req_ids b1) = Some <$> ids) by (rewrite Hk, <-(length_fmap Some ids); apply take_app_length).
    split; [|split_and!; try done].
    + apply trim_ok; [done|]. intros i x Hi. unfold holds_id in Hi. rewrite Hk in Hi. apply lookup_app_Some in Hi as [Hi|[_ Hi]].
      * apply lookup_lt_Some in Hi. by rewrite length_fmap in Hi.
      * by apply lookup_replicate in Hi as [? _].
    + unfold compact, ids_in. cbn. by rewrite Htake, omap_Some.
Qed.

(** ** Exchanging two requests *)

Definition exchanged (i j k : nat) : nat := if decide (k = j) then i else if decide (k = i) then j else k.

Lemma exchanged_swap {A} i j k (l : list A) : i < length l -> j < length l -> swap i j l !! k = l !! exchanged i j k.
Proof. intros Hi Hj. rewrite lookup_swap by done. unfold exchanged. destruct (decide (k = j)); [done|]. by destruct (decide (k = i)). Qed.

Lemma exchanged_involutive i j k : exchanged i j (exchanged i j k) = k.
Proof.
  unfold exchanged. destruct (decide (k = j)) as [->|H1]; [destruct (decide (i = j)) as [->|]; [done|by rewrite decide_True]|].
  destruct (decide (k = i)) as [->|]; [by rewrite decide_True|]. by rewrite !decide_False.
Qed.

Lemma swap_states_ok ls reqs b i1 i2 id1 id2 : batch_ok ls reqs b -> holds_id b i1 id1 -> holds_id b i2 id2 -> i1 <> i2 ->
  allowed_token_ids_mask_cpu b = None ->
  exists b', swap_states i1 i2 b = Ok b' /\ batch_ok ls reqs b' /\ same_dims b b' /\ same_requests b b' /\
    (forall k, req_ids b' !! k = req_ids b !! exchanged i1 i2 k) /\ length (req_ids b') = length (req_ids b) /\ allowed_token_ids_mask_cpu b' = None /\ same_counts b b'.
Proof.
  intros Hb H1 H2 Hne Hm. pose proof (bo_shape _ _ _ Hb) as Hs. pose proof (holds_lt b i1 id1 Hs H1) as Hlt1. pose proof (holds_lt b i2 id2 Hs H2) as Hlt2.
  pose proof (lookup_lt_Some _ _ _ H1) as Hl1. pose proof (lookup_lt_Some _ _ _ H2) as Hl2.
  pose proof H1 as Hi1. apply (bo_index _ _ _ Hb) in Hi1. pose proof H2 as Hi2. apply (bo_index _ _ _ Hb) in Hi2.
  assert (Hid : id1 <> id2) by congruence.
  destruct (bo_places _ _ _ Hb i1 id1 H1) as (q1 & _ & _ & Hp1). destruct (bo_places _ _ _ Hb i2 id2 H2) as (q2 & _ & _ & Hp2).
  pose proof (po_out _ _ _ _ _ Hp1) as Eo1. pose proof (po_out _ _ _ _ _ Hp2) as Eo2. cbn in Eo1, Eo2.
  destruct (swap_row_ok (table b) i1 i2 (cs_block_ids q1) (cs_block_ids q2) (sh_table b Hs)) as (t & Et & Ht & (Ht1 & Ht2 & _) & Hrb);
    [by rewrite (sh_places b Hs)|by rewrite (sh_places b Hs)|done|apply (po_blocks _ _ _ _ _ Hp1)|apply (po_blocks _ _ _ _ _ Hp2)|].
  pose proof (po_blocks _ _ _ _ _ Hp1) as Eb1. pose proof (po_blocks _ _ _ _ _ Hp2) as Eb2. cbn in Eb1, Eb2.
  unfold swap_states, np_get. unfold holds_id in H1, H2. rewrite H1, H2, Eo1, Eo2. cbn [of_option mbind result_bind]. rewrite Hi1, Hi2. cbn [of_option mbind result_bind].
  rewrite Et. cbn [mbind result_bind]. eexists. split; [reflexivity|].
  pose proof (fun A => @exchanged_swap A i1 i2) as Hsw. destruct (sh_counts b Hs).
  match goal with |- batch_ok _ _ ?x /\ _ => set (b' := x) end. assert (Hsame : same_requests b b').
  { intros x. cbn. rewrite !lookup_insert_is_Some'. split; [|tauto]. intros [<-|[<-|?]]; [by eexists..|done]. }
  assert (Hb' : batch_ok ls reqs b'); [subst b'; eapply (batch_moved ls reqs b); try done|].
  - destruct Hs. split; cbn; rewrite ?length_swap; try done.
    + apply Forall_forall. intros row [k Hk]%list_elem_of_lookup. rewrite Hsw in Hk by lia. apply (Forall_lookup_1 _ _ _ _ sh_width0 Hk).
    + split; cbn; by rewrite length_swap.
    + apply cols_len_map; [done|]. intros; apply length_swap.
    + intros m. by rewrite Hm.
    + congruence.
    + by rewrite fmap_is_Some.
  - intros x k. unfold holds_id. cbn. rewrite Hsw by done. unfold exchanged. destruct (decide (x = id2)) as [->|Hx2]; [|rewrite lookup_insert_ne by done;
      destruct (decide (x = id1)) as [->|Hx1]; [rewrite lookup_insert_eq|rewrite lookup_insert_ne, (bo_index _ _ _ Hb) by done]].
    + rewrite lookup_insert_eq. destruct (decide (k = i2)) as [->|Hk2]; [split; intros E; congruence|]. destruct (decide (k = i1)) as [->|Hk1]; [done|].
      split; [congruence|]. intros Hk. by destruct Hk2; eapply holds_id_inj.
    + destruct (decide (k = i2)) as [->|Hk2]; [done|]. destruct (decide (k = i1)) as [->|Hk1]; [split; intros E; congruence|].
      split; [congruence|]. intros Hk. by destruct Hk1; eapply holds_id_inj.
    + unfold holds_id. destruct (decide (k = i2)) as [->|Hk2]; [split; intros E; congruence|]. destruct (decide (k = i1)) as [->|Hk1]; [split; intros E; congruence|done].
  - intros k x Hk. exists (exchanged i1 i2 k). unfold holds_id in *. cbn in Hk. rewrite Hsw in Hk by done. split; [done|].
    assert (Erows : row_blocks t k = row_blocks (table b) (exchanged i1 i2 k)).
    { rewrite Hrb. unfold exchanged. destruct (decide (k = i2)); [done|]. by destruct (decide (k = i1)). }
    assert (Edicts : dicts_at (dicts_map (fun A => swap_dict_values i1 i2) (dicts b)) k = dicts_at (dicts b) (exchanged i1 i2 k)).
    { apply dicts_at_map. intros A m. rewrite lookup_swap_dict by done. unfold exchanged. destruct (decide (k = i2)); [done|]. by destruct (decide (k = i1)). }
    destruct Hs. pose proof (cols_at_map (max_num_reqs b) (fun A => swap i1 i2) (columns b) k (exchanged i1 i2 k) sh_cols0) as Ecols.
    split.
    + unfold rest, view, counts_at, mask_at. cbn. rewrite Hm, Erows, Edicts, Ecols, !Hsw by (lia || (intros; apply Hsw; lia)). done.
    + intros toks (row & n & j & E1 & E2 & E3 & H). exists row, n, j. cbn in *. rewrite !Hsw by lia. done.
  - intros k Hk. cbn. assert (Edicts : dicts_at (dicts_map (fun A => swap_dict_values i1 i2) (dicts b)) k = dicts_at (dicts b) (exchanged i1 i2 k)).
    { apply dicts_at_map. intros A m. rewrite lookup_swap_dict by done. unfold exchanged. destruct (decide (k = i2)); [done|]. by destruct (decide (k = i1)). }
    rewrite Edicts. apply (bo_holes _ _ _ Hb). intros x Hx. apply (Hk x). unfold holds_id in *. cbn. by rewrite Hsw.
  - split; [done|]. split; [done|]. split; [done|]. split; [intros k; by apply Hsw|]. split; [apply length_swap|]. split; [cbn; by rewrite Hm|].
    eapply counts_moved; [exact Hb|exact Hb'|exact Hsame|]. intros k x Hk. exists (exchanged i1 i2 k). unfold holds_id in *. cbn in Hk |- *. rewrite Hsw in Hk by done.
    split; [done|]. rewrite Hsw by lia. done.
Qed.

(** ** Sampling metadata *)

Lemma copy_slice_take {A} (from to : list A) n : n <= length from -> take n (copy_slice from to n) = take n from.
Proof. intros H. unfold copy_slice. rewrite take_app_le by (rewrite length_take; lia). by rewrite take_take, Nat.min_id. Qed.

Lemma copy_slice_again {A} (from to : list A) n : n <= length from -> copy_slice from (copy_slice from to n) n = copy_slice from to n.
Proof. intros H. unfold copy_slice. f_equal. rewrite drop_app_ge by (rewrite length_take; lia). rewrite length_take, Nat.min_l, Nat.sub_diag by lia. done. Qed.

Lemma length_copy_slice {A} (from to : list A) n : n <= length from -> length from = length to -> length (copy_slice from to n) = length to.
Proof. intros H1 H2. unfold copy_slice. rewrite length_app, length_take, length_drop. lia. Qed.

(** What the sampler may rely on for the request at place [i]. *)
Record sampled_as (m : SamplingMetadata) (i : nat) (vocab : Z) (q : CachedRequestState) : Prop := {
  sa_temperature : match m_temperature m with
    | None => m_all_greedy m = true
    | Some l => l !! i = Some (if is_greedy (sp_sampler (cs_sampling_params q)) then (-1 # 1)%Q else single (temperature (sp_sampler (cs_sampling_params q))))
    end;
  sa_all_greedy : m_all_greedy m = true -> is_greedy (sp_sampler (cs_sampling_params q)) = true;
  sa_all_random : m_all_random m = true -> is_greedy (sp_sampler (cs_sampling_params q)) = false;
  sa_top_p : match m_top_p m with
    | None => uses_top_p (sp_sampler (cs_sampling_params q)) = false
    | Some l => l !! i = Some (single (top_p (sp_sampler (cs_sampling_params q))))
    end;
  sa_top_k : match m_top_k m with
    | None => uses_top_k vocab (sp_sampler (cs_sampling_params q)) = false
    | Some l => l !! i = Some (if uses_top_k vocab (sp_sampler (cs_sampling_params q)) then top_k (sp_sampler (cs_sampling_params q)) else vocab)
    end;
  sa_min_p : match m_min_p m with
    | None => uses_min_p (sp_sampler (cs_sampling_params q)) = false
    | Some l => l !! i = Some (single (min_p (sp_sampler (cs_sampling_params q))))
    end;
  sa_penalties : if m_no_penalties m then
      uses_frequency (sp_sampler (cs_sampling_params q)) = false /\ uses_presence (sp_sampler (cs_sampling_params q)) = false /\
      uses_repetition (sp_sampler (cs_sampling_params q)) = false
    else m_frequency_penalties m !! i = Some (single (frequency_penalty (sp_sampler (cs_sampling_params q)))) /\
      m_presence_penalties m !! i = Some (single (presence_penalty (sp_sampler (cs_sampling_params q)))) /\
      m_repetition_penalties m !! i = Some (single (repetition_penalty (sp_sampler (cs_sampling_params q))));
  sa_dicts : (m_min_tokens m !! i, m_generators m !! i, m_bad_words_token_ids m !! i) = dicts_want q;
  sa_output : m_output_token_ids m !! i = Some (Some (cs_output_token_ids q));
  sa_logprobs : forall k, sp_logprobs (cs_sampling_params q) = Some k -> exists k', m_max_num_logprobs m = Some k' /\ (k <= k')%Z;
  sa_bias : forall lb, sp_logit_bias (sp_sampler (cs_sampling_params q)) = Some lb -> m_logit_bias m !! i = Some (Some lb);
  sa_mask : uses_allowed (sp_sampler (cs_sampling_params q)) = true -> exists rows row, m_allowed_token_ids_mask m = Some rows /\ rows !! i = Some row /\
    mask_row vocab (allowed_token_ids (sp_sampler (cs_sampling_params q))) = Ok row;
}.

Lemma sets_of_place ls reqs b i id : batch_ok ls reqs b -> holds_id b i id ->
  exists q, reqs !! id = Some q /\ cs_req_id q = id /\ place_ok (max_model_len b) (vocab_size b) ls q (view b i) /\
    sets_at (sets b) id = sets_want (vocab_size b) (cs_sampling_params q).
Proof.
  intros Hb Hi. destruct (bo_places _ _ _ Hb i id Hi) as (q & Hq & Hqid & Hp). exists q. split_and!; try done.
  rewrite (bo_sets _ _ _ Hb). unfold wanted_sets. apply (bo_index _ _ _ Hb) in Hi. by rewrite Hi, Hq.
Qed.

Lemma empty_set_not (s : gset string) id b : bool_decide (s = ∅) = true -> bool_decide (id ∈ s) = b -> b = false.
Proof. intros ->%bool_decide_eq_true <-. apply bool_decide_eq_false_2. set_solver. Qed.

Lemma max_logprobs_ge b id k : num_logprobs (sets b) !! id = Some k -> exists k', max_num_logprobs b = Some k' /\ (k <= k')%Z.
Proof.
  intros H. unfold max_num_logprobs. assert (Hin : k ∈ snd <$> map_to_list (num_logprobs (sets b))).
  { apply list_elem_of_fmap. exists (id, k). split; [done|]. by apply elem_of_map_to_list. }
  destruct (snd <$> _) as [|x l]; [by apply elem_of_nil in Hin|]. exists (foldr Z.max x l). split; [done|]. clear H.
  revert Hin. induction l as [|y l IH]; intros Hin; cbn; [apply list_elem_of_singleton in Hin as ->; lia|].
  apply elem_of_cons in Hin as [->|[->|Hin]%elem_of_cons]; [| lia |]; (etransitivity; [apply IH|lia]); [left|by right].
Qed.

(** A set that is not empty shows that there are requests. *)
Lemma num_reqs_pos ls reqs b id : batch_ok ls reqs b -> sets_at (sets b) id <> sets_none -> 0 < num_reqs b.
Proof.
  intros Hb H. rewrite (bo_sets _ _ _ Hb) in H. unfold wanted_sets in H. destruct (req_id_to_index b !! id) as [i|] eqn:Ei; [|done].
  unfold num_reqs. assert (req_id_to_index b <> ∅) by (intros E; rewrite E in Ei; done). apply map_size_non_empty_iff in H0. lia.
Qed.

Lemma num_reqs_le ls reqs b : batch_ok ls reqs b -> num_reqs b <= max_num_reqs b.
Proof.
  intros Hb. rewrite (size_index ls reqs b Hb). pose proof (sh_ids b (bo_shape _ _ _ Hb)). unfold ids_in.
  assert (H1 : length (omap id (req_ids b)) <= length (req_ids b)); [|lia].
  clear. induction (req_ids b) as [|[x|] l IH]; cbn; lia.
Qed.

Lemma make_prompt_ok ls reqs b : batch_ok ls reqs b -> no_penalties b = false -> exists rows, make_prompt_token_ids_tensor b = Ok rows.
Proof.
  intros Hb Hn. assert (Hpos : 0 < num_reqs b).
  { unfold no_penalties in Hn. enough (exists id, sets_at (sets b) id <> sets_none) as [id H] by (by apply (num_reqs_pos ls reqs b id)).
    apply andb_false_iff in Hn as [[Hn|Hn]%andb_false_iff|Hn]; apply bool_decide_eq_false in Hn; apply set_choose_L in Hn as [id Hid]; exists id;
      unfold sets_at, sets_none; intros [= H1 H2 H3 H4 H5 H6 H7 H8 H9 H10 H11]; by rewrite bool_decide_eq_true_2 in * by done. }
  unfold make_prompt_token_ids_tensor. pose proof (num_reqs_le ls reqs b Hb). destruct (sh_counts b (bo_shape _ _ _ Hb)).
  destruct (take (num_reqs b) (b_num_prompt_tokens (counters b))) as [|k l] eqn:E; [|by eexists].
  apply (f_equal length) in E. rewrite length_take in E. cbn in E. lia.
Qed.

(** The metadata are those that would be made now, but for the copy of the prompts. *)
Definition meta_ok (b : InputBatch) : Prop := exists prompts mask, device_mask b = Ok mask /\
  device b = {| d_columns := device_columns b; d_allowed_token_ids_mask := mask |} /\ sampling_metadata b = metadata_of b (device_columns b) mask prompts.

Lemma meta_made b : make_sampling_metadata b = Ok (device b, sampling_metadata b) -> meta_ok b.
Proof.
  unfold make_sampling_metadata. intros H. apply bind_ok in H as (p & _ & H). apply bind_ok in H as (mask & Em & H). injection H as Hd Hm. by exists p, mask.
Qed.

(** If a request uses a mask, there is one, on the device too. *)
Lemma mask_exists ls reqs b : batch_ok ls reqs b -> no_allowed_token_ids b = false ->
  exists m dm, allowed_token_ids_mask_cpu b = Some m /\ length m = max_num_reqs b /\ d_allowed_token_ids_mask (device b) = Some dm /\ length dm = max_num_reqs b.
Proof.
  intros Hb E. pose proof (bo_shape _ _ _ Hb) as Hs. apply bool_decide_eq_false in E. apply set_choose_L in E as [id Hid].
  pose proof (bo_sets _ _ _ Hb id) as Hw. unfold wanted_sets in Hw. pose proof (bool_decide_eq_true_2 _ Hid) as Hin.
  destruct (req_id_to_index b !! id) as [i|] eqn:Ei; [|injection Hw as _ _ _ _ _ _ _ _ Hw _ _; congruence].
  apply (bo_index _ _ _ Hb) in Ei. destruct (sets_of_place ls reqs b i id Hb Ei) as (q & _ & _ & Hp & Hq).
  injection Hq as _ _ _ _ _ _ _ _ Hq _ _. rewrite Hin in Hq. symmetry in Hq.
  destruct (po_mask _ _ _ _ _ Hp Hq) as (row & Hrow & _). cbn in Hrow. unfold mask_at in Hrow. destruct (allowed_token_ids_mask_cpu b) as [m|] eqn:Em; [|done].
  destruct (sh_device_mask b Hs) as (dm & Hdm & Hl); [by rewrite Em|]. exists m, dm. split_and!; try done. by apply (sh_mask b Hs).
Qed.

Lemma copy_unless_again {A} skip n (from to : list A) : n <= length from -> copy_unless skip n from (copy_unless skip n from to) = copy_unless skip n from to.
Proof. intros H. unfold copy_unless. destruct skip; [done|by apply copy_slice_again]. Qed.

Lemma length_copy_unless {A} skip n (from to : list A) m : n <= m -> length from = m -> length to = m -> length (copy_unless skip n from to) = m.
Proof. intros H1 H2 H3. unfold copy_unless. destruct skip; [done|]. rewrite length_copy_slice; lia. Qed.

Lemma device_columns_again b d m : cols_len (max_num_reqs b) (columns b) -> num_reqs b <= max_num_reqs b -> d_columns d = device_columns b ->
  device_columns (set_metadata d m b) = device_columns b.
Proof.
  intros [] Hn E. unfold device_columns. cbn. rewrite E. change (num_reqs (set_metadata d m b)) with (num_reqs b).
  unfold device_columns. cbn. f_equal; apply copy_unless_again; lia.
Qed.

Lemma device_columns_len b : shape b -> num_reqs b <= max_num_reqs b -> cols_len (max_num_reqs b) (device_columns b).
Proof. intros Hs Hn. destruct (sh_cols b Hs), (sh_device b Hs). split; cbn; by apply length_copy_unless. Qed.

(** Rebuilding the metadata gives the same again. *)
Lemma make_metadata_ok ls reqs b : batch_ok ls reqs b -> exists d m, make_sampling_metadata b = Ok (d, m) /\ cols_len (max_num_reqs b) (d_columns d) /\
  (is_Some (allowed_token_ids_mask_cpu b) -> exists m1, d_allowed_token_ids_mask d = Some m1 /\ length m1 = max_num_reqs b) /\
  make_sampling_metadata (set_metadata d m b) = Ok (d, m).
Proof.
  intros Hb. pose proof (bo_shape _ _ _ Hb) as Hs. pose proof (num_reqs_le ls reqs b Hb) as Hn.
  assert (Ep : exists p, (if no_penalties b then Ok None else rows ← make_prompt_token_ids_tensor b; Ok (Some rows)) = Ok p).
  { destruct (no_penalties b) eqn:E; [by eexists|]. destruct (make_prompt_ok ls reqs b Hb E) as [rows ->]. by eexists. }
  destruct Ep as [p Ep].
  assert (Em : exists mask, device_mask b = Ok mask /\
    (is_Some (allowed_token_ids_mask_cpu b) -> exists m1, mask = Some m1 /\ length m1 = max_num_reqs b) /\
    forall d m, d_allowed_token_ids_mask d = mask -> device_mask (set_metadata d m b) = Ok mask).
  { unfold device_mask. change (fun d m => no_allowed_token_ids (set_metadata d m b)) with (fun (_ : Device) (_ : SamplingMetadata) => no_allowed_token_ids b).
    destruct (no_allowed_token_ids b) eqn:Ea.
    - eexists. split; [done|]. split; [apply (sh_device_mask b Hs)|]. intros d m E. change (no_allowed_token_ids (set_metadata d m b)) with (no_allowed_token_ids b).
      rewrite Ea. cbn. by rewrite E.
    - destruct (mask_exists ls reqs b Hb Ea) as (cm & dm & E1 & Hl1 & E2 & Hl2). rewrite E1, E2. cbn [of_option mbind result_bind]. eexists. split; [done|].
      split; [intros _; eexists; split; [done|]; rewrite length_copy_slice; lia|]. intros d m E. change (no_allowed_token_ids (set_metadata d m b)) with (no_allowed_token_ids b).
      rewrite Ea. change (device (set_metadata d m b)) with d. change (allowed_token_ids_mask_cpu (set_metadata d m b)) with (allowed_token_ids_mask_cpu b).
      rewrite E, E1. cbn [of_option mbind result_bind]. change (num_reqs (set_metadata d m b)) with (num_reqs b). by rewrite copy_slice_again by lia. }
  destruct Em as (mask & Em & Hml & Hagain). unfold make_sampling_metadata. rewrite Ep. cbn [mbind result_bind]. rewrite Em. cbn [mbind result_bind].
  do 2 eexists. split; [reflexivity|]. split; [by apply device_columns_len|]. split; [exact Hml|].
  set (d := {| d_columns := device_columns b; d_allowed_token_ids_mask := mask |}). set (m := metadata_of _ _ _ _).
  change (make_prompt_token_ids_tensor (set_metadata d m b)) with (make_prompt_token_ids_tensor b).
  change (no_penalties (set_metadata d m b)) with (no_penalties b). rewrite Ep. cbn [mbind result_bind]. rewrite (Hagain d m eq_refl). cbn [mbind result_bind].
  rewrite (device_columns_again b d m (sh_cols b Hs) Hn eq_refl). done.
Qed.

Lemma set_metadata_ok ls reqs b d m : batch_ok ls reqs b -> cols_len (max_num_reqs b) (d_columns d) ->
  (is_Some (allowed_token_ids_mask_cpu b) -> exists m1, d_allowed_token_ids_mask d = Some m1 /\ length m1 = max_num_reqs b) -> batch_ok ls reqs (set_metadata d m b).
Proof.
  intros Hb Hd Hm. eapply (batch_moved ls reqs b); try done.
  - destruct (bo_shape _ _ _ Hb). by split.
  - apply (bo_index _ _ _ Hb).
  - intros i id Hi. by exists i.
  - apply (bo_holes _ _ _ Hb).
Qed.

Lemma refresh_ok ls reqs b : batch_ok ls reqs b -> exists d m, refresh_sampling_metadata b = Ok (set_metadata d m b) /\ batch_ok ls reqs (set_metadata d m b) /\
  meta_ok (set_metadata d m b).
Proof.
  intros Hb. destruct (make_metadata_ok ls reqs b Hb) as (d & m & E & Hd & Hm & Hagain). exists d, m. unfold refresh_sampling_metadata. rewrite E.
  split; [done|]. split; [by apply set_metadata_ok|by apply meta_made].
Qed.

Lemma holds_lt_num ls reqs b i id : batch_ok ls reqs b -> compact b -> holds_id b i id -> i < num_reqs b.
Proof.
  intros Hb Hc Hi. rewrite (size_index ls reqs b Hb). apply lookup_lt_Some in Hi. rewrite Hc, length_fmap in Hi. done.
Qed.

Lemma lookup_first_unless {A} skip n (from to : list A) i x : i < n -> n <= length from -> from !! i = Some x ->
  match first_unless skip n (copy_unless skip n from to) with None => skip = true | Some l => l !! i = Some x end.
Proof.
  intros Hi Hn Hx. unfold first_unless, copy_unless. destruct skip; [done|]. rewrite copy_slice_take by done. by rewrite lookup_take_lt.
Qed.

Lemma lookup_take_copied {A} n (from to : list A) i x : i < n -> n <= length from -> from !! i = Some x -> take n (copy_unless false n from to) !! i = Some x.
Proof. intros Hi Hn Hx. unfold copy_unless. rewrite copy_slice_take by done. by rewrite lookup_take_lt. Qed.

Lemma column_sent {A} skip n (from to : list A) i x (P : Prop) : i < n -> n <= length from -> from !! i = Some x -> (skip = true -> P) ->
  match first_unless skip n (copy_unless skip n from to) with None => P | Some l => l !! i = Some x end.
Proof. intros H1 H2 H3 HP. pose proof (lookup_first_unless skip n from to i x H1 H2 H3) as H. destruct (first_unless _ _ _); auto. Qed.

Lemma metadata_sampled ls reqs b i id : batch_ok ls reqs b -> compact b -> meta_ok b -> holds_id b i id ->
  exists q, reqs !! id = Some q /\ sampled_as (sampling_metadata b) i (vocab_size b) q.
Proof.
  intros Hb Hc Hm Hi. pose proof (bo_shape _ _ _ Hb) as Hs. pose proof (holds_lt_num ls reqs b i id Hb Hc Hi) as Hin. pose proof (num_reqs_le ls reqs b Hb) as Hn.
  destruct (sets_of_place ls reqs b i id Hb Hi) as (q & Hq & Hqid & Hp & Hsets). exists q. split; [done|].
  destruct Hm as (p & mask & Emask & _ & ->). injection Hsets as S1 S2 S3 S4 S5 S6 S7 S8 S9 S10 S11.
  pose proof (po_cols _ _ _ _ _ Hp) as Hcols. injection Hcols as C1 C2 C3 C4 C5 C6 C7. destruct (sh_cols b Hs).
  assert (Hsub : forall (s : gset string) x, bool_decide (id ∈ s) = x -> bool_decide (s = ∅) = true -> x = false) by (intros; by eapply empty_set_not).
  split; cbn.
  - apply column_sent; [lia|lia|done|done].
  - intros H. apply (Hsub _ _ S2) in H. by destruct (is_greedy _).
  - apply (Hsub _ _ S1).
  - apply column_sent; [lia|lia|done|]. apply (Hsub _ _ S3).
  - apply column_sent; [lia|lia|done|]. apply (Hsub _ _ S4).
  - apply column_sent; [lia|lia|done|]. apply (Hsub _ _ S5).
  - destruct (no_penalties b) eqn:E; [|split_and!; apply lookup_take_copied; lia || done].
    unfold no_penalties in E. apply andb_prop in E as [[E1 E2]%andb_prop E3]. split_and!; [by apply (Hsub _ _ S6)|by apply (Hsub _ _ S7)|by apply (Hsub _ _ S8)].
  - apply (po_dicts _ _ _ _ _ Hp).
  - apply (po_out _ _ _ _ _ Hp).
  - intros k Hk. apply (max_logprobs_ge b id). congruence.
  - intros lb Hlb. rewrite lookup_take_lt by lia. by apply (po_bias _ _ _ _ _ Hp).
  - intros Hu. destruct (po_mask _ _ _ _ _ Hp Hu) as (row & Hrow & Er). destruct (no_allowed_token_ids b) eqn:Ea.
    { apply (Hsub _ _ S9) in Ea. congruence. }
    destruct (mask_exists ls reqs b Hb Ea) as (cm & dm & E1 & Hl1 & E2 & Hl2). unfold device_mask in Emask. rewrite Ea, E1, E2 in Emask. cbn in Emask. injection Emask as <-.
    cbn in Hrow. unfold mask_at in Hrow. rewrite E1 in Hrow. cbn in Hrow. exists (take (num_reqs b) (copy_slice cm dm (num_reqs b))), row.
    split; [done|]. rewrite copy_slice_take by lia. by rewrite lookup_take_lt.
Qed.

(** ** The empty batch *)

Lemma input_batch_init_ok `{!TorchLaws T} n len blocks vocab : exists b, input_batch_init n len blocks vocab = Ok b /\ batch_ok ∅ ∅ b /\ compact b /\ meta_ok b /\
  max_num_reqs b = n /\ max_model_len b = len /\ vocab_size b = vocab /\ max_num_blocks_per_req (table b) = blocks /\ allowed_token_ids_mask_cpu b = None /\
  req_ids b = [].
Proof.
  unfold input_batch_init. set (b0 := {| max_num_reqs := n |}). assert (Hb : batch_ok ∅ ∅ b0).
  { split; try done.
    - assert (Hcl : cols_len n (columns_init n)) by (split; apply length_empty_floats || apply length_empty_ints).
      split; cbn; rewrite ?length_replicate; try done; try lia.
      + apply Forall_forall. intros row [-> _]%elem_of_replicate. apply length_replicate.
      + split; cbn; apply length_replicate.
      + apply block_table_init_ok.
    - intros a. cbn. rewrite lookup_empty. split; [by rewrite lookup_empty|]. intros id [[? ?] _]. done. }
  destruct (refresh_ok ∅ ∅ b0 Hb) as (d & m & E & Hok & Hmeta). rewrite E. exists (set_metadata d m b0). split_and!; done.
Qed.
End Spec.
