(* ===== verification/ModelRunner.v ===== *)
(** * The model runner

    Model of the bookkeeping of [GPUModelRunner] in
    [vllm/v1/worker/gpu_model_runner.py]: how a [SchedulerOutput] updates the
    cached states and the persistent batch ([_update_states]), the indices that
    the model's inputs are gathered with ([_prepare_inputs],
    [_calc_spec_decode_metadata]), the encoder's cache, the tokens that are
    returned ([execute_model]), the drafts, and the hook of the attention backends
    that reorders the batch.  The model, the encoder, the sampler and the drafter
    are parameters or not part of it.  M-RoPE positions, the mask [is_embed] of
    placeholder positions and the offset of a generator, which is set back when a
    sampled token is discarded, are left out. *)

From Stdlib Require Import QArith_base.
From S2P Require Import Prelude NumPy Request EncoderCache Scheduler BlockTable InputBatch.

(** Python visits a set in some order. *)
Class SetOrder := { list_set : gset string -> list string }.
Class SetOrderLaws (SO : SetOrder) : Prop := { list_set_perm : forall s, list_set s ≡ₚ elements s }.

Section ModelRunner.
Context `{E : Env} `{T : Torch} `{NP : NumPy} `{SO : SetOrder}.
(** Outputs of the encoder. *)
Context {features : Type}.

Record ModelRunner := {
  block_size : Z;
  max_num_tokens : nat;
  reorders : bool;                  (* the attention backend wants decodes first *)
  mr_requests : gmap string CachedRequestState;
  output_lists : lists;             (* the store of output token lists *)
  next_list : nat;
  generator_seeds : gmap nat Z;     (* the generators made so far *)
  next_generator : nat;
  encoder_cache : gmap string (gmap nat features);
  input_batch : InputBatch;
}.

Definition set_batch b s : ModelRunner :=
  {| block_size := block_size s; max_num_tokens := max_num_tokens s; reorders := reorders s; mr_requests := mr_requests s;
     output_lists := output_lists s; next_list := next_list s; generator_seeds := generator_seeds s; next_generator := next_generator s;
     encoder_cache := encoder_cache s; input_batch := b |}.

Definition set_encoder_cache c s : ModelRunner :=
  {| block_size := block_size s; max_num_tokens := max_num_tokens s; reorders := reorders s; mr_requests := mr_requests s;
     output_lists := output_lists s; next_list := next_list s; generator_seeds := generator_seeds s; next_generator := next_generator s;
     encoder_cache := c; input_batch := input_batch s |}.

Definition set_cached (id : string) (q : CachedRequestState) s : ModelRunner :=
  {| block_size := block_size s; max_num_tokens := max_num_tokens s; reorders := reorders s; mr_requests := <[id := q]> (mr_requests s);
     output_lists := output_lists s; next_list := next_list s; generator_seeds := generator_seeds s; next_generator := next_generator s;
     encoder_cache := encoder_cache s; input_batch := input_batch s |}.

Definition set_output (r : nat) (l : list Z) s : ModelRunner :=
  {| block_size := block_size s; max_num_tokens := max_num_tokens s; reorders := reorders s; mr_requests := mr_requests s;
     output_lists := <[r := l]> (output_lists s); next_list := next_list s; generator_seeds := generator_seeds s; next_generator := next_generator s;
     encoder_cache := encoder_cache s; input_batch := input_batch s |}.

(** What the constructor sets: no requests, and an empty batch whose rows hold as
    many blocks as the longest request needs. *)
Definition model_runner_init (bs : nat) (max_len max_tokens max_reqs : nat) (vocab : Z) (r : bool) : result ModelRunner :=
  max_num_blocks_per_req ← cdiv (Z.of_nat max_len) (Z.of_nat bs);
  b ← input_batch_init max_reqs max_len (Z.to_nat max_num_blocks_per_req) vocab;
  Ok {| block_size := Z.of_nat bs; max_num_tokens := max_tokens; reorders := r; mr_requests := ∅; output_lists := ∅; next_list := 0;
        generator_seeds := ∅; next_generator := 0; encoder_cache := ∅; input_batch := b |}.

(** ** Removing requests *)

Definition forget (id : string) s : ModelRunner :=
  {| block_size := block_size s; max_num_tokens := max_num_tokens s; reorders := reorders s; mr_requests := delete id (mr_requests s);
     output_lists := output_lists s; next_list := next_list s; generator_seeds := generator_seeds s; next_generator := next_generator s;
     encoder_cache := delete id (encoder_cache s); input_batch := input_batch s |}.

(** The batch, and [removed_req_indices]. *)
Definition remove_finished (a : InputBatch * list nat) (id : string) : result (InputBatch * list nat) :=
  '(b, i) ← remove_request id a.1;
  Ok (b, a.2 ++ option_list i).

Definition remove_unscheduled (a : InputBatch * list nat) (id : string) : result (InputBatch * list nat) :=
  '(b, i) ← remove_request id a.1;
  i ← of_option AssertionError i;
  Ok (b, a.2 ++ [i]).

Definition free_encoder_output (c : gmap string (gmap nat features)) (e : string * nat) : gmap string (gmap nat features) :=
  match c !! e.1 with
  | None => c
  | Some outs => let outs := delete e.2 outs in if bool_decide (outs = ∅) then delete e.1 c else <[e.1 := outs]> c
  end.

(** ** New and cached requests *)

(** A generator for a request with a seed. *)
Definition new_generator (p : SamplerParams) s : result (ModelRunner * option nat) :=
  if bool_decide (sampling_type p = RANDOM_SEED) then
    seed ← of_option TypeError (sp_seed p);
    Ok ({| block_size := block_size s; max_num_tokens := max_num_tokens s; reorders := reorders s; mr_requests := mr_requests s;
           output_lists := output_lists s; next_list := next_list s;
           generator_seeds := <[next_generator s := seed]> (generator_seeds s); next_generator := next_generator s + 1;
           encoder_cache := encoder_cache s; input_batch := input_batch s |}, Some (next_generator s))
  else Ok (s, None).

(** A fresh empty list. *)
Definition new_list s : ModelRunner * nat :=
  ({| block_size := block_size s; max_num_tokens := max_num_tokens s; reorders := reorders s; mr_requests := mr_requests s;
      output_lists := <[next_list s := []]> (output_lists s); next_list := next_list s + 1; generator_seeds := generator_seeds s;
      next_generator := next_generator s; encoder_cache := encoder_cache s; input_batch := input_batch s |}, next_list s).

Definition new_cached_state (d : NewRequestData) (g : option nat) (r : nat) : CachedRequestState :=
  {| cs_req_id := nr_req_id d; cs_prompt_token_ids := nr_prompt_token_ids d; cs_mm_inputs := nr_mm_inputs d; cs_mm_positions := nr_mm_positions d;
     cs_sampling_params := nr_sampling_params d; cs_generator := g; cs_block_ids := nr_block_ids d;
     cs_num_computed_tokens := nr_num_computed_tokens d; cs_output_token_ids := r; cs_lora_request := nr_lora_request d |}.

Definition add_new s (d : NewRequestData) : result ModelRunner :=
  '(s, g) ← new_generator (sp_sampler (nr_sampling_params d)) s;
  let '(s, r) := new_list s in
  Ok (set_cached (nr_req_id d) (new_cached_state d g r) s).

(** The tokens sampled in the last step, if the cached state lacks them. *)
Definition extend_output (out : list Z) (num_new_tokens : Z) (new_token_ids : list Z) : result (list Z) :=
  if (num_new_tokens =? 1)%Z then x ← of_option IndexError (last new_token_ids); Ok (out ++ [x])
  else if (0 <? num_new_tokens)%Z then Ok (out ++ py_slice_from (- num_new_tokens) new_token_ids)
  else Ok out.

Definition set_progress (computed : Z) (blocks : list nat) (q : CachedRequestState) : CachedRequestState :=
  {| cs_req_id := cs_req_id q; cs_prompt_token_ids := cs_prompt_token_ids q; cs_mm_inputs := cs_mm_inputs q; cs_mm_positions := cs_mm_positions q;
     cs_sampling_params := cs_sampling_params q; cs_generator := cs_generator q; cs_block_ids := blocks; cs_num_computed_tokens := computed;
     cs_output_token_ids := cs_output_token_ids q; cs_lora_request := cs_lora_request q |}.

(** The row of a request that stays in the batch. *)
Definition update_row (i : nat) (d : CachedRequestData) (spec_token_ids : list Z) (b : InputBatch) : result InputBatch :=
  computed ← np_put i (cr_num_computed_tokens d) (num_computed_tokens_cpu (counters b));
  t ← append_row (new_block_ids d) i (table b);
  let start_token_index := cr_num_computed_tokens d in
  let end_token_index := (cr_num_computed_tokens d + Z.of_nat (length (new_token_ids d)))%Z in
  rows ← np_write_row i start_token_index end_token_index (new_token_ids d) (token_ids_cpu b);
  no_spec ← np_put i end_token_index (num_tokens_no_spec (counters b));
  '(rows, end_token_index) ←
    (if bool_decide (spec_token_ids = []) then Ok (rows, end_token_index)
     else
       let start_index := end_token_index in
       let end_token_index := (end_token_index + Z.of_nat (length spec_token_ids))%Z in
       rows ← np_write_row i start_index end_token_index spec_token_ids rows;
       Ok (rows, end_token_index));
  n ← np_put i end_token_index (InputBatch.num_tokens (counters b));
  Ok {| max_num_reqs := max_num_reqs b; max_model_len := max_model_len b; vocab_size := vocab_size b;
        req_ids := req_ids b; InputBatch.req_id_to_index := InputBatch.req_id_to_index b; token_ids_cpu := rows;
        counters := {| InputBatch.num_tokens := n; num_tokens_no_spec := no_spec; b_num_prompt_tokens := b_num_prompt_tokens (counters b);
                       num_computed_tokens_cpu := computed |};
        table := t; columns := columns b; sets := sets b; dicts := dicts b; lora := lora b; logit_bias := logit_bias b;
        allowed_token_ids_mask_cpu := allowed_token_ids_mask_cpu b; req_output_token_ids := req_output_token_ids b;
        device := device b; sampling_metadata := sampling_metadata b |}.

(** One of [scheduled_cached_reqs]; the second component is [req_ids_to_add]. *)
Definition update_cached (spec : gmap string (list Z)) (a : ModelRunner * list string) (d : CachedRequestData) : result (ModelRunner * list string) :=
  let '(s, req_ids_to_add) := a in
  let id := cr_req_id d in
  q ← of_option KeyError (mr_requests s !! id);
  let num_new_tokens := (cr_num_computed_tokens d + Z.of_nat (length (new_token_ids d)) - cs_num_tokens (output_lists s) q)%Z in
  out ← extend_output (output_of (output_lists s) q) num_new_tokens (new_token_ids d);
  let s := set_output (cs_output_token_ids q) out s in
  let blocks := if resumed_from_preemption d then new_block_ids d else cs_block_ids q ++ new_block_ids d in
  let s := set_cached id (set_progress (cr_num_computed_tokens d) blocks q) s in
  match InputBatch.req_id_to_index (input_batch s) !! id with
  | None => Ok (s, req_ids_to_add ++ [id])
  | Some i =>
      b ← update_row i d (default [] (spec !! id)) (input_batch s);
      Ok (set_batch b s, req_ids_to_add)
  end.

(** ** Filling the places *)

(** The places, sorted in descending order, are taken from the end; here they
    are read from there. *)
Fixpoint fill_places s (req_ids_to_add : list string) (removed_req_indices : list nat) : result (ModelRunner * list nat) :=
  match req_ids_to_add with
  | [] => Ok (s, removed_req_indices)
  | id :: ids =>
      q ← of_option KeyError (mr_requests s !! id);
      b ← add_request (output_lists s) q (head removed_req_indices) (input_batch s);
      fill_places (set_batch b s) ids (tail removed_req_indices)
  end.

(** ** Reordering *)

(** The places of the requests with one scheduled token, and of the others. *)
Definition decodes_and_prefills (scheduled : gmap string Z) (ids : list (option string)) : result (list nat * list nat) :=
  tokens ← mapM_ok (fun id => id ← of_option KeyError id; of_option KeyError (scheduled !! id)) ids;
  let places := seq 0 (length tokens) in
  Ok ((filter (fun p => p.2 = 1%Z) (zip places tokens)).*1, (filter (fun p => p.2 <> 1%Z) (zip places tokens)).*1).

Fixpoint swap_loop (num_decodes : nat) (pairs : list (nat * nat)) (b : InputBatch) (modified_batch : bool) : result (InputBatch * bool) :=
  match pairs with
  | [] => Ok (b, modified_batch)
  | (prefill, decode_idx) :: pairs =>
      if decode_idx <? num_decodes then Ok (b, modified_batch)
      else b ← swap_states prefill decode_idx b; swap_loop num_decodes pairs b true
  end.

(** [reorder_batch] of the backends that treat decodes apart; the others return
    [False]. *)
Definition reorder_batch (reorders : bool) (scheduled : gmap string Z) (b : InputBatch) : result (InputBatch * bool) :=
  if reorders then
    '(decodes, prefills) ← decodes_and_prefills scheduled (req_ids b);
    swap_loop (length decodes) (zip prefills (reverse decodes)) b false
  else Ok (b, false).

(** ** [_update_states] *)

(** Its last part: the batch gets the requests to add, is condensed and reordered,
    and the sampling metadata follow. *)
Definition place_requests s (req_ids_to_add : list string) (removed_req_indices : list nat) (scheduled : gmap string Z) : result ModelRunner :=
  let batch_changed := bool_decide (removed_req_indices <> []) || bool_decide (req_ids_to_add <> []) in
  '(s, removed_req_indices) ← fill_places s req_ids_to_add (sort_nat removed_req_indices);
  b ← (if bool_decide (removed_req_indices = []) then Ok (input_batch s) else condense (reverse removed_req_indices) (input_batch s));
  '(b, batch_reordered) ← reorder_batch (reorders s) scheduled b;
  b ← (if batch_changed || batch_reordered then refresh_sampling_metadata b else Ok b);
  Ok (set_batch b s).

Definition update_states s (so : SchedulerOutput) : result ModelRunner :=
  let finished := list_set (out_finished_req_ids so) in
  let s := foldl (fun s id => forget id s) s finished in
  '(b, removed) ← foldM remove_finished (input_batch s, []) finished;
  let s := set_encoder_cache (foldl free_encoder_output (encoder_cache s) (free_encoder_input_ids so)) s in
  let unscheduled := list_set (dom (InputBatch.req_id_to_index b) ∖ dom (num_scheduled_tokens so)) in
  '(b, removed) ← foldM remove_unscheduled (b, removed) unscheduled;
  let s := set_batch b s in
  s ← foldM add_new s (scheduled_new_reqs so);
  let req_ids_to_add := nr_req_id <$> scheduled_new_reqs so in
  '(s, req_ids_to_add) ← foldM (update_cached (scheduled_spec_decode_tokens so)) (s, req_ids_to_add) (scheduled_cached_reqs so);
  place_requests s req_ids_to_add removed (num_scheduled_tokens so).

(** ** [_prepare_inputs] *)

(** Elementwise arithmetic on arrays of the same length. *)
Definition np_zip {A B C} (f : A -> B -> C) (l : list A) (k : list B) : result (list C) :=
  if length l =? length k then Ok (zip_with f l k) else Err ValueError.

(** [x[indices]] for indices that are not negative. *)
Definition np_take {A} (l : list A) (indices : list Z) : result (list A) :=
  mapM_ok (fun i => if (i <? 0)%Z then Err IndexError else np_get l (Z.to_nat i)) indices.

Record SpecDecodeMetadata := {
  draft_token_ids : list Z;
  sd_num_draft_tokens : list nat;
  cu_num_draft_tokens : list nat;
  target_logits_indices : list Z;
  bonus_logits_indices : list Z;
  sd_logits_indices : list Z;
}.

(** The numbers 0, 1, ... within each group, by the offsets of the groups. *)
Definition batched_arange (counts : list nat) (cu : list nat) (total : nat) : result (list Z) :=
  let offsets := np_repeat (zip_with (fun c n => Z.of_nat c - Z.of_nat n)%Z cu counts) counts in
  np_zip Z.sub (Z.of_nat <$> seq 0 total) offsets.

Definition calc_spec_decode_metadata (input_ids : list Z) (num_draft_tokens : list nat) (cu_num_scheduled_tokens : list nat) : result SpecDecodeMetadata :=
  let num_sampled_tokens := S <$> num_draft_tokens in
  let cu_num_sampled_tokens := np_cumsum num_sampled_tokens in
  total_num_sampled_tokens ← of_option IndexError (last cu_num_sampled_tokens);
  arange ← batched_arange num_sampled_tokens cu_num_sampled_tokens total_num_sampled_tokens;
  first ← np_zip (fun c n => Z.of_nat c - Z.of_nat n)%Z cu_num_scheduled_tokens num_sampled_tokens;
  logits_indices ← np_zip Z.add (np_repeat first num_sampled_tokens) arange;
  let bonus_logits_indices := (fun c => Z.of_nat c - 1)%Z <$> cu_num_sampled_tokens in
  let cu_num_draft_tokens := np_cumsum num_draft_tokens in
  total_num_draft_tokens ← of_option IndexError (last cu_num_draft_tokens);
  arange ← batched_arange num_draft_tokens cu_num_draft_tokens total_num_draft_tokens;
  first ← np_zip (fun c n => Z.of_nat c - Z.of_nat n)%Z cu_num_sampled_tokens num_sampled_tokens;
  target_logits_indices ← np_zip Z.add (np_repeat first num_draft_tokens) arange;
  candidates ← np_take input_ids logits_indices;
  draft_token_ids ← np_take candidates (Z.add 1 <$> target_logits_indices);
  Ok {| draft_token_ids := draft_token_ids; sd_num_draft_tokens := num_draft_tokens; cu_num_draft_tokens := cu_num_draft_tokens;
        target_logits_indices := target_logits_indices; bonus_logits_indices := bonus_logits_indices; sd_logits_indices := logits_indices |}.

(** What the model gets; the first four have an element per scheduled token. *)
Record Inputs := {
  in_req_indices : list nat;
  in_positions : list Z;
  in_input_ids : list Z;
  in_slot_mapping : list Z;
  in_query_start_loc : list nat;
  in_seq_lens : list Z;
  in_max_query_len : Z;
  in_logits_indices : list Z;
  in_spec_decode_metadata : option SpecDecodeMetadata;
}.

Definition prepare_inputs s (so : SchedulerOutput) : result (ModelRunner * Inputs) :=
  let b := input_batch s in
  let total := Z.to_nat (total_num_scheduled_tokens so) in
  _ ← py_assert (0 <? total_num_scheduled_tokens so)%Z;
  let n := num_reqs b in
  _ ← py_assert (0 <? n);
  let t := commit n (table b) in
  tokens ← mapM_ok (fun id => id ← of_option KeyError id; of_option KeyError (num_scheduled_tokens so !! id)) (req_ids b);
  let counts := Z.to_nat <$> tokens in
  let req_indices := np_repeat (seq 0 n) counts in
  let cu_num_tokens := np_cumsum counts in
  arange ← batched_arange counts cu_num_tokens total;
  (* the outputs are written to the first elements of buffers *)
  _ ← (if total <=? max_num_tokens s then Ok tt else Err ValueError);
  computed ← np_take (num_computed_tokens_cpu (counters b)) (Z.of_nat <$> req_indices);
  positions ← np_zip Z.add computed arange;
  token_indices ← np_zip (fun p r => p + Z.of_nat r * Z.of_nat (max_model_len b))%Z positions req_indices;
  input_ids ← np_take (mjoin (token_ids_cpu b)) token_indices;
  block_table_indices ← np_zip (fun r p => Z.of_nat r * Z.of_nat (max_num_blocks_per_req (table b)) + p / block_size s)%Z req_indices positions;
  block_numbers ← np_take (mjoin (block_table_np (table b))) block_table_indices;
  slot_mapping ← np_zip (fun k p => Z.of_nat k * block_size s + p mod block_size s)%Z block_numbers positions;
  seq_lens ← np_zip (fun c k => c + k)%Z (take n (num_computed_tokens_cpu (counters b))) tokens;
  spec ←
    (if bool_decide (scheduled_spec_decode_tokens so = ∅) then Ok None
     else
       _ ← mapM_ok (fun e => of_option KeyError (InputBatch.req_id_to_index b !! e.1)) (map_to_list (scheduled_spec_decode_tokens so));
       let num_draft_tokens := (fun id => length (default [] (id ≫= fun id : string => scheduled_spec_decode_tokens so !! id))) <$> req_ids b in
       Some <$> calc_spec_decode_metadata input_ids num_draft_tokens cu_num_tokens);
  let logits_indices := match spec with Some m => sd_logits_indices m | None => (fun c => Z.of_nat c - 1)%Z <$> cu_num_tokens end in
  Ok (set_batch {| max_num_reqs := max_num_reqs b; max_model_len := max_model_len b; vocab_size := vocab_size b;
        req_ids := req_ids b; InputBatch.req_id_to_index := InputBatch.req_id_to_index b; token_ids_cpu := token_ids_cpu b;
        counters := counters b; table := t; columns := columns b; sets := sets b; dicts := dicts b; lora := lora b; logit_bias := logit_bias b;
        allowed_token_ids_mask_cpu := allowed_token_ids_mask_cpu b; req_output_token_ids := req_output_token_ids b;
        device := device b; sampling_metadata := sampling_metadata b |} s,
      {| in_req_indices := req_indices; in_positions := positions; in_input_ids := input_ids; in_slot_mapping := slot_mapping;
         in_query_start_loc := 0 :: cu_num_tokens; in_seq_lens := seq_lens; in_max_query_len := foldr Z.max 0%Z tokens;
         in_logits_indices := logits_indices; in_spec_decode_metadata := spec |}).

(** The length of the prefix that cascade attention treats once; [use_cascade] is
    the backend's answer. *)
Definition compute_cascade_attn_prefix_len (use_cascade : Z -> bool) s (num_reqs : nat) (num_common_prefix_blocks : Z) : result Z :=
  let common_prefix_len := (num_common_prefix_blocks * block_size s)%Z in
  if (common_prefix_len =? 0)%Z then Ok 0%Z
  else
    least ← match take num_reqs (num_computed_tokens_cpu (counters (input_batch s))) with
            | [] => Err ValueError
            | c :: l => Ok (foldr Z.min c l)
            end;
    let common_prefix_len := Z.min common_prefix_len least in
    q ← py_floordiv common_prefix_len (block_size s);
    let common_prefix_len := (q * block_size s)%Z in
    Ok (if use_cascade common_prefix_len then common_prefix_len else 0%Z).

(** ** Encoder outputs *)

(** The inputs to encode of a request, and of all: request and number of the input. *)
Definition encoder_job s (e : string * list nat) : result (list (string * nat)) :=
  q ← of_option KeyError (mr_requests s !! e.1);
  mapM_ok (fun i : nat => if (i <? cs_mm_inputs q) && (i <? length (cs_mm_positions q)) then Ok (e.1, i) else Err IndexError) e.2.

Definition encoder_jobs (inputs : list (string * list nat)) s : result (list (string * nat)) :=
  jobs ← mapM_ok (encoder_job s) inputs;
  Ok (concat jobs).

Definition cache_output (c : gmap string (gmap nat features)) (e : string * nat * features) : gmap string (gmap nat features) :=
  let '(id, i, f) := e in <[id := <[i := f]> (default ∅ (c !! id))]> c.

(** [encode] runs the encoder on the inputs of all jobs.  Grouping by modality
    keeps the order. *)
Definition execute_mm_encoder (encode : list (string * nat) -> list features) (inputs : list (string * list nat)) s : result ModelRunner :=
  if bool_decide (inputs = []) then Ok s
  else
    jobs ← encoder_jobs inputs s;
    Ok (set_encoder_cache (foldl cache_output (encoder_cache s) (zip jobs (encode jobs))) s).

(** The part of an input's features that a request needs in this step: the
    features with the first and the last place. *)
Fixpoint gather_request (id : string) (cache : gmap string (gmap nat features)) (computed scheduled : Z) (i : nat) (positions : list PlaceholderRange) :
    result (list (features * Z * Z)) :=
  match positions with
  | [] => Ok []
  | p :: positions =>
      if (computed + scheduled <=? offset p)%Z then Ok []
      else if (offset p + length_ p <=? computed)%Z then gather_request id cache computed scheduled (S i) positions
      else
        let start_idx := Z.max (computed - offset p) 0 in
        let end_idx := Z.min (computed - offset p + scheduled) (length_ p) in
        _ ← py_assert (start_idx <? end_idx)%Z;
        outs ← of_option AssertionError (cache !! id);
        f ← of_option AssertionError (outs !! i);
        rest ← gather_request id cache computed scheduled (S i) positions;
        Ok ((f, start_idx, end_idx) :: rest)
  end.

Definition gather_one s (so : SchedulerOutput) (id : option string) : result (list (features * Z * Z)) :=
  id ← of_option KeyError id;
  scheduled ← of_option KeyError (num_scheduled_tokens so !! id);
  q ← of_option KeyError (mr_requests s !! id);
  gather_request id (encoder_cache s) (cs_num_computed_tokens q) scheduled 0 (cs_mm_positions q).

Definition gather_mm_embeddings s (so : SchedulerOutput) : result (list (features * Z * Z)) :=
  parts ← mapM_ok (gather_one s so) (req_ids (input_batch s));
  Ok (concat parts).

(** ** The sampled tokens *)

(** The places of requests whose prompt is not yet complete. *)
Definition partial_prefill s (so : SchedulerOutput) (id : option string) : result bool :=
  id ← of_option KeyError id;
  q ← of_option KeyError (mr_requests s !! id);
  scheduled ← of_option KeyError (num_scheduled_tokens so !! id);
  Ok (cs_num_computed_tokens q + scheduled <? cs_num_tokens (output_lists s) q)%Z.

Definition PLACEHOLDER_TOKEN_ID : Z := -1.

(** [parse_output] of [vllm/v1/sample/rejection_sampler.py] *)
Definition parse_output (vocab : Z) (rows : list (list Z)) : list (list Z) :=
  filter (fun t => t <> PLACEHOLDER_TOKEN_ID /\ (t < vocab)%Z) <$> rows.

(** From the sampler's rows to the tokens that are returned. *)
Definition valid_sampled_tokens s (so : SchedulerOutput) (sampled_token_ids : list (list Z)) : result (list (list Z)) :=
  discard ← mapM_ok (partial_prefill s so) (req_ids (input_batch s));
  let max_gen_len := match sampled_token_ids with [] => 1 | row :: _ => length row end in
  let valid := if max_gen_len =? 1 then sampled_token_ids else parse_output (vocab_size (input_batch s)) sampled_token_ids in
  _ ← (if length discard <=? length valid then Ok tt else Err IndexError);
  Ok (zip_with (fun (d : bool) row => if d then [] else row) discard valid ++ drop (length discard) valid).

(** [generate_draft_token_ids]: [propose] is the drafter. *)
Definition draft_one (propose : list Z -> result (option (list Z))) (b : InputBatch) (i : nat) (sampled_ids : list Z) : result (InputBatch * list Z) :=
  match sampled_ids with
  | [] => Ok (b, [])
  | _ =>
      id ← np_get (req_ids b) i;
      id ← of_option KeyError id;
      if negb (is_spec_decode_supported id b) then Ok (b, [])
      else
        start_idx ← np_get (num_tokens_no_spec (counters b)) i;
        let end_idx := (start_idx + Z.of_nat (length sampled_ids))%Z in
        if (Z.of_nat (max_model_len b) <=? end_idx)%Z then Ok (b, [])
        else
          rows ← np_write_row i start_idx end_idx sampled_ids (token_ids_cpu b);
          row ← np_get rows i;
          drafts ← propose (py_slice 0 end_idx row);
          Ok ({| max_num_reqs := max_num_reqs b; max_model_len := max_model_len b; vocab_size := vocab_size b;
                 req_ids := req_ids b; InputBatch.req_id_to_index := InputBatch.req_id_to_index b; token_ids_cpu := rows;
                 counters := counters b; table := table b; columns := columns b; sets := sets b; dicts := dicts b; lora := lora b;
                 logit_bias := logit_bias b; allowed_token_ids_mask_cpu := allowed_token_ids_mask_cpu b;
                 req_output_token_ids := req_output_token_ids b; device := device b; sampling_metadata := sampling_metadata b |},
              default [] drafts)
  end.

Fixpoint generate_draft_token_ids (propose : list Z -> result (option (list Z))) (i : nat) (sampled : list (list Z)) (b : InputBatch) :
    result (InputBatch * list (list Z)) :=
  match sampled with
  | [] => Ok (b, [])
  | ids :: sampled =>
      '(b, drafts) ← draft_one propose b i ids;
      '(b, rest) ← generate_draft_token_ids propose (S i) sampled b;
      Ok (b, drafts :: rest)
  end.
End ModelRunner.
