(* ===== verification/ModelRunnerSpec.v ===== *)
(** * The worker mirrors the scheduler

    [runner_ok] relates the cached states of the model runner to the rows of its
    persistent batch.  [update_states] keeps it for every output that fits, and
    afterwards the batch has exactly the scheduled requests, each with the tokens,
    blocks and parameters that the scheduler meant. *)

From Stdlib Require Import QArith_base.
From S2P Require Import Prelude NumPy Request EncoderCache Scheduler BlockTable InputBatch InputBatchSpec ModelRunner.

Section Spec.
Context `{E : Env} `{T : Torch} `{SO : SetOrder} `{!SetOrderLaws SO}.
Context {features : Type}.
Implicit Types (s : ModelRunner (features := features)) (b : InputBatch).

(** ** Frames *)

(** The batch only depends on the requests that are in it. *)
Lemma batch_frame ls reqs ls' reqs' b : batch_ok ls reqs b ->
  (forall id, is_Some (InputBatch.req_id_to_index b !! id) -> reqs' !! id = reqs !! id) ->
  (forall id q, is_Some (InputBatch.req_id_to_index b !! id) -> reqs !! id = Some q -> output_of ls' q = output_of ls q) ->
  batch_ok ls' reqs' b.
Proof.
  intros Hb Hr Ho. split; try apply Hb.
  - intros i id Hi. destruct (bo_places _ _ _ Hb i id Hi) as (q & Hq & Hqid & Hp). pose proof Hi as Hx. apply (bo_index _ _ _ Hb) in Hx.
    exists q. rewrite (Hr id) by (by eexists). split; [done|]. split; [done|]. destruct Hp. split; try done.
    unfold tokens_of in *. rewrite (Ho id) by (done || by eexists). done.
  - intros id. rewrite (bo_sets _ _ _ Hb). unfold wanted_sets. destruct (InputBatch.req_id_to_index b !! id) as [i|] eqn:Ei; [|done]. by rewrite (Hr id) by (by rewrite Ei).
  - eapply lora_users_ext; [|apply (bo_lora _ _ _ Hb)]. intros a id. unfold with_lora. split; intros (H1 & q & Hq & Ha); (split; [done|]); exists q;
      [by rewrite Hr|by rewrite <-Hr].
Qed.

(** ** The row of a request that stays *)

Lemma update_row_row b i (d : CachedRequestData) spec (c : nat) toks' row n : shape b -> i < max_num_reqs b -> token_ids_cpu b !! i = Some row ->
  cr_num_computed_tokens d = Z.of_nat c -> c <= n -> take n row = take n toks' -> c + length (new_token_ids d) <= length toks' ->
  take (c + length (new_token_ids d)) toks' = take c toks' ++ new_token_ids d -> c + length (new_token_ids d) + length spec <= max_model_len b ->
  let end_token_index := (cr_num_computed_tokens d + Z.of_nat (length (new_token_ids d)))%Z in
  exists row1 row2 (k : nat), np_write_row i (cr_num_computed_tokens d) end_token_index (new_token_ids d) (token_ids_cpu b) = Ok (<[i := row1]> (token_ids_cpu b)) /\
    (if bool_decide (spec = []) then Ok (<[i := row1]> (token_ids_cpu b), end_token_index)
     else
       let start_index := end_token_index in
       let end_token_index := (end_token_index + Z.of_nat (length spec))%Z in
       rows ← np_write_row i start_index end_token_index spec (<[i := row1]> (token_ids_cpu b));
       Ok (rows, end_token_index)) = Ok (<[i := row2]> (token_ids_cpu b), Z.of_nat k) /\
    length row2 = max_model_len b /\ c + length (new_token_ids d) <= k <= max_model_len b /\
    take (c + length (new_token_ids d)) row2 = take (c + length (new_token_ids d)) toks'.
Proof.
  intros Hs Hi Er Ec Hcn Hpre Hlen Hnew Hfit endi. pose proof (Forall_lookup_1 _ _ _ _ (sh_width b Hs) Er) as Hw. cbn in Hw. subst endi. rewrite Ec.
  set (new := new_token_ids d) in *. rewrite (np_write_row_ok i c new _ row) by (done || lia).
  set (row1 := list_inserts c new row). assert (Hl1 : length row1 = max_model_len b) by (unfold row1; by rewrite length_inserts).
  assert (Ht1 : take (c + length new) row1 = take (c + length new) toks').
  { unfold row1. rewrite take_inserts by lia. rewrite Hnew. f_equal. replace c with (c `min` n) by lia. rewrite <-!take_take. by rewrite Hpre. }
  exists row1. case_bool_decide as Esp.
  - exists row1, (c + length new). rewrite <-Nat2Z.inj_add. subst spec. cbn in Hfit. split_and!; try done; lia.
  - assert (Hlt : i < length (token_ids_cpu b)) by (by eapply lookup_lt_Some). cbv zeta. rewrite <-!Nat2Z.inj_add.
    pose proof (np_write_row_ok i (c + length new) spec (<[i := row1]> (token_ids_cpu b)) row1) as E2. rewrite <-Nat2Z.inj_add in E2.
    rewrite E2 by (by rewrite ?list_lookup_insert_eq || lia). cbn [mbind result_bind]. rewrite list_insert_insert_eq.
    exists (list_inserts (c + length new) spec row1), (c + length new + length spec). split_and!; try done; try lia.
    + by rewrite length_inserts.
    + by rewrite take_inserts_before.
Qed.

(** What stays the same in the batch. *)
Definition same_places b b' : Prop :=
  same_dims b b' /\ req_ids b' = req_ids b /\ InputBatch.req_id_to_index b' = InputBatch.req_id_to_index b /\ columns b' = columns b /\ sets b' = sets b /\
  dicts b' = dicts b /\ logit_bias b' = logit_bias b /\ allowed_token_ids_mask_cpu b' = allowed_token_ids_mask_cpu b /\
  req_output_token_ids b' = req_output_token_ids b /\ device b' = device b /\ sampling_metadata b' = sampling_metadata b.

Lemma update_row_ok ls reqs ls' b i id q d spec (c : nat) : batch_ok ls reqs b -> holds_id b i id -> reqs !! id = Some q ->
  let q' := set_progress (cr_num_computed_tokens d) (cs_block_ids q ++ new_block_ids d) q in
  let toks' := tokens_of ls' q' in
  cr_num_computed_tokens d = Z.of_nat c -> (exists n : nat, num_tokens_no_spec (counters b) !! i = Some (Z.of_nat n) /\ c <= n) ->
  tokens_of ls q `prefix_of` toks' -> c + length (new_token_ids d) <= length toks' ->
  take (c + length (new_token_ids d)) toks' = take c toks' ++ new_token_ids d -> c + length (new_token_ids d) + length spec <= max_model_len b ->
  length (cs_block_ids q ++ new_block_ids d) <= max_num_blocks_per_req (table b) ->
  (forall id2 q2, id2 <> id -> is_Some (InputBatch.req_id_to_index b !! id2) -> reqs !! id2 = Some q2 -> output_of ls' q2 = output_of ls q2) ->
  exists b', update_row i d spec b = Ok b' /\ batch_ok ls' (<[id := q']> reqs) b' /\ same_places b b' /\
    (forall j, j <> i -> num_tokens_no_spec (counters b') !! j = num_tokens_no_spec (counters b) !! j) /\
    num_tokens_no_spec (counters b') !! i = Some (Z.of_nat (c + length (new_token_ids d))).
Proof.
  intros Hb Hi Hq q' toks' Ec (n0 & En0 & Hcn) Hpre Hlen Hnew Hfit Hblk Hother. pose proof (bo_shape _ _ _ Hb) as Hs. pose proof (holds_lt b i id Hs Hi) as Hlt.
  destruct (bo_places _ _ _ Hb i id Hi) as (q0 & Hq0 & Hqid & Hp). rewrite Hq in Hq0. injection Hq0 as <-.
  destruct (po_row _ _ _ _ _ Hp) as (row & n & k0 & E1 & E2 & E3 & Hn & Hk0 & Htake). cbn in E1, E2, E3. rewrite En0 in E2. injection E2 as E2. apply Nat2Z.inj in E2 as ->.
  destruct (update_row_row b i d spec c toks' row n Hs Hlt E1 Ec Hcn) as (row1 & row2 & k & Ew & Ew2 & Hl2 & Hk & Ht2); [|done|done|done|].
  { rewrite Htake. destruct Hpre as [x ->]. by rewrite take_app_le. }
  pose proof (po_blocks _ _ _ _ _ Hp) as Eb. cbn in Eb.
  destruct (append_row_ok (table b) i (new_block_ids d) (cs_block_ids q) (sh_table b Hs)) as (t & Et & Ht & (Ht1 & Ht3 & _) & Hrb);
    [by rewrite (sh_places b Hs)|done|by rewrite length_app in Hblk|].
  destruct (sh_counts b Hs) as [Hc1 Hc2 Hc3 Hc4]. pose proof (sh_rows b Hs) as Hrows.
  cbv zeta in Ew, Ew2. unfold update_row. rewrite np_put_ok by lia. cbn [mbind result_bind]. rewrite Et. cbn [mbind result_bind]. rewrite Ew. cbn [mbind result_bind].
  rewrite np_put_ok by lia. cbn [mbind result_bind]. rewrite Ew2. cbn [mbind result_bind]. rewrite np_put_ok by lia. cbn [mbind result_bind].
  eexists. split; [reflexivity|]. split; [|split; [by split_and!|]].
  2: { cbn. split; [intros j Hj; by apply list_lookup_insert_ne|]. rewrite list_lookup_insert_eq by lia. f_equal. lia. }
  split; cbn.
  - destruct Hs. split; cbn; rewrite ?length_insert; try done; try congruence.
    + by apply Forall_insert.
    + split; cbn; by rewrite ?length_insert.
  - apply (bo_index _ _ _ Hb).
  - intros j x Hx. destruct (decide (j = i)) as [->|Hj].
    + assert (x = id) as -> by (unfold holds_id in *; cbn in Hx; congruence). exists q'. rewrite lookup_insert_eq. split; [done|]. split; [done|].
      destruct Hp. split; cbn; try done.
      * exists row2, (c + length (new_token_ids d)), k. cbn. rewrite !list_lookup_insert_eq by lia. rewrite Ec. split_and!; try done; try lia. f_equal. lia.
      * unfold counts_at in *. cbn in *. rewrite list_lookup_insert_eq by lia. injection po_counts as -> _. done.
      * rewrite Hrb. by rewrite decide_True.
    + assert (Hne : x <> id) by (intros ->; destruct Hj; by eapply holds_id_inj).
      destruct (bo_places _ _ _ Hb j x Hx) as (q2 & Hq2 & Hqid2 & Hp2). exists q2. rewrite lookup_insert_ne by done. split; [done|]. split; [done|].
      assert (Etoks : tokens_of ls' q2 = tokens_of ls q2).
      { unfold tokens_of. rewrite (Hother x q2); [done|done| |done]. apply (bo_index _ _ _ Hb) in Hx. by eexists. }
      destruct Hp2. split; cbn; try done.
      * rewrite Etoks. destruct po_row as (r & m & k2 & F1 & F2 & F3 & F4). exists r, m, k2. cbn in *. rewrite !list_lookup_insert_ne by done. done.
      * unfold counts_at in *. cbn in *. by rewrite list_lookup_insert_ne.
      * rewrite Hrb. by rewrite decide_False.
  - apply (bo_holes _ _ _ Hb).
  - intros x. rewrite (bo_sets _ _ _ Hb). unfold wanted_sets. cbn. destruct (InputBatch.req_id_to_index b !! x); [|done].
    destruct (decide (x = id)) as [->|Hx]; [by rewrite Hq, lookup_insert_eq|by rewrite lookup_insert_ne].
  - eapply lora_users_ext; [|apply (bo_lora _ _ _ Hb)]. intros a x. unfold with_lora. cbn. destruct (decide (x = id)) as [->|Hx]; [|by rewrite lookup_insert_ne].
    rewrite lookup_insert_eq, Hq. split; intros (H1 & q3 & [= <-] & Ha); (split; [done|]); by eexists.
Qed.

(** ** Removing requests *)

(** [removed] lists the empty places. *)
Definition holes_are b (removed : list nat) : Prop := NoDup removed /\ forall i, i ∈ removed <-> req_ids b !! i = Some None.

(** [b'] is [b] without the requests of [ids]. *)
Definition without b (ids : list string) b' : Prop :=
  same_dims b b' /\ (forall id i, InputBatch.req_id_to_index b' !! id = Some i <-> InputBatch.req_id_to_index b !! id = Some i /\ id ∉ ids) /\
  counters b' = counters b /\ (allowed_token_ids_mask_cpu b = None -> allowed_token_ids_mask_cpu b' = None).

Lemma remove_finished_eq b removed id : remove_finished (b, removed) id = '(b, i) ← remove_request id b; Ok (b, removed ++ option_list i).
Proof. done. Qed.

Lemma remove_unscheduled_eq b removed id :
  remove_unscheduled (b, removed) id = '(b, i) ← remove_request id b; i ← of_option AssertionError i; Ok (b, removed ++ [i]).
Proof. done. Qed.

Lemma remove_finished_ok ls reqs ids : forall b removed, batch_ok ls reqs b -> holes_are b removed ->
  exists b' removed', foldM remove_finished (b, removed) ids = Ok (b', removed') /\ batch_ok ls reqs b' /\ holes_are b' removed' /\ without b ids b' /\
    (removed' = [] -> b' = b).
Proof.
  induction ids as [|id ids IH]; intros b removed Hb Hh; cbn [foldM].
  - exists b, removed. split; [done|]. split; [done|]. split; [done|]. split; [|done]. split; [done|]. split; [|done].
    intros x i. split; [intros H; split; [done|apply not_elem_of_nil]|by intros [? _]].
  - rewrite remove_finished_eq. destruct (InputBatch.req_id_to_index b !! id) as [i|] eqn:Ei.
    + destruct (remove_request_ok ls reqs b id i Hb Ei) as (b1 & E1 & Hb1 & (D1 & D2 & D3 & D4) & Eids & Eidx & Ec & Em). rewrite E1. cbn [mbind result_bind option_list].
      pose proof Ei as Hh0. apply (bo_index _ _ _ Hb) in Hh0. destruct Hh as [Hnd Hin].
      destruct (IH b1 (removed ++ [i]) Hb1) as (b' & removed' & E' & Hb' & Hh' & ((D5 & D6 & D7 & D8) & Hi' & Ec' & Em') & Hnil).
      { split.
        - apply NoDup_app. split; [done|]. split; [|apply NoDup_singleton]. intros j Hj ->%list_elem_of_singleton. apply Hin in Hj. unfold holds_id in Hh0. congruence.
        - intros j. rewrite elem_of_app, list_elem_of_singleton, Hin, Eids. pose proof (lookup_lt_Some _ _ _ Hh0) as Hlt.
          destruct (decide (j = i)) as [->|Hj]; [rewrite list_lookup_insert_eq by done; naive_solver|rewrite list_lookup_insert_ne by done; naive_solver]. }
      exists b', removed'. split; [exact E'|]. split; [done|]. split; [done|]. split.
      * split; [split_and!; congruence|]. split; [|split; [congruence|auto]]. intros x j. rewrite Hi', Eidx, lookup_delete_Some, not_elem_of_cons. naive_solver.
      * intros ->. assert (Hbad : i ∈ ([] : list nat)); [|by apply elem_of_nil in Hbad].
        apply (foldM_inv (fun a : InputBatch * list nat => i ∈ a.2) remove_finished (b1, removed ++ [i]) ids (b', [])); [cbn; apply elem_of_app; right; by left| |exact E'].
        intros x [b2 r2] [b3 r3] _ Hi2 H. unfold remove_finished in H. apply bind_ok in H as ([b4 o] & _ & H). injection H as <- <-. cbn in *. apply elem_of_app. by left.
    + unfold remove_request. rewrite Ei. cbn [mbind result_bind option_list]. rewrite app_nil_r.
      destruct (IH b removed Hb Hh) as (b' & removed' & E' & Hb' & Hh' & (Hd & Hi' & Ec' & Em') & Hnil). exists b', removed'.
      split; [exact E'|]. split; [done|]. split; [done|]. split; [|done]. split; [done|]. split; [|done].
      intros x j. rewrite Hi', not_elem_of_cons. split; [intros [H1 H2]; split_and!; [done|congruence|done]|naive_solver].
Qed.

Lemma remove_unscheduled_finished ids : forall a, NoDup ids -> (forall id, id ∈ ids -> is_Some (InputBatch.req_id_to_index a.1 !! id)) ->
  foldM remove_unscheduled a ids = foldM remove_finished a ids.
Proof.
  induction ids as [|id ids IH]; intros [b removed] Hnd Hin; [done|]. apply NoDup_cons in Hnd as [Hid Hnd]. cbn [foldM]. rewrite remove_unscheduled_eq, remove_finished_eq.
  destruct (Hin id) as [i Ei]; [by left|]. cbn in Ei. destruct (remove_request id b) as [[b1 o]|e] eqn:E1; cbn [mbind result_bind]; [|done].
  assert (o = Some i /\ forall x, x <> id -> is_Some (InputBatch.req_id_to_index b !! x) -> is_Some (InputBatch.req_id_to_index b1 !! x)) as [-> Hother].
  { unfold remove_request in E1. rewrite Ei in E1. do 3 (apply bind_ok in E1 as (? & _ & E1)). injection E1 as <- <-. split; [done|]. intros y Hy. cbn. by rewrite lookup_delete_ne. }
  cbn [of_option mbind result_bind option_list]. apply IH; [done|]. intros x Hx. cbn. apply Hother; [by intros ->|]. apply (Hin x). by right.
Qed.

(** ** Cached states *)

Record states_ok s : Prop := {
  st_batch : batch_ok (output_lists s) (mr_requests s) (input_batch s);
  st_id : forall id q, mr_requests s !! id = Some q -> cs_req_id q = id;
  st_ref : forall id q, mr_requests s !! id = Some q -> cs_output_token_ids q < next_list s;
  st_inj : forall id1 id2 q1 q2, mr_requests s !! id1 = Some q1 -> mr_requests s !! id2 = Some q2 -> cs_output_token_ids q1 = cs_output_token_ids q2 -> id1 = id2;
  st_fits : forall id q, mr_requests s !! id = Some q -> fits (output_lists s) (input_batch s) q;
}.

(** A cached state with its output tokens. *)
Definition known s (id : string) : option (CachedRequestState * list Z) := (fun q => (q, output_of (output_lists s) q)) <$> mr_requests s !! id.

Lemma known_Some s id q out : known s id = Some (q, out) <-> mr_requests s !! id = Some q /\ out = output_of (output_lists s) q.
Proof. unfold known. rewrite fmap_Some. naive_solver. Qed.

Lemma fits_same ls ls' b b' q : fits ls b q -> output_of ls' q = output_of ls q -> same_dims b b' -> fits ls' b' q.
Proof. intros [H1 H2 H3 H4] Ho (D1 & D2 & D3 & D4). unfold tokens_of in *. split; unfold tokens_of; rewrite ?Ho, ?D2, ?D3, ?D4; done. Qed.

(** What the settings of a runner are. *)
Definition same_settings s s' : Prop := block_size s' = block_size s /\ max_num_tokens s' = max_num_tokens s /\ reorders s' = reorders s.

Lemma set_batch_ok s b : states_ok s -> batch_ok (output_lists s) (mr_requests s) b -> same_dims (input_batch s) b -> states_ok (set_batch b s).
Proof. intros [] Hb Hd. split; cbn; try done. intros id q Hq. eapply fits_same; [by eapply st_fits0|done|done]. Qed.

(** ** New requests *)

Definition is_new (d : NewRequestData) (q : CachedRequestState) : Prop :=
  cs_req_id q = nr_req_id d /\ cs_prompt_token_ids q = nr_prompt_token_ids d /\ cs_mm_inputs q = nr_mm_inputs d /\ cs_mm_positions q = nr_mm_positions d /\
  cs_sampling_params q = nr_sampling_params d /\ cs_block_ids q = nr_block_ids d /\ cs_num_computed_tokens q = nr_num_computed_tokens d /\
  cs_lora_request q = nr_lora_request d /\
  (is_Some (cs_generator q) <-> sampling_type (sp_sampler (nr_sampling_params d)) = RANDOM_SEED).

Record new_fits b (d : NewRequestData) : Prop := {
  nf_prompt : length (nr_prompt_token_ids d) <= max_model_len b;
  nf_blocks : length (nr_block_ids d) <= max_num_blocks_per_req (table b);
  nf_lora : nr_lora_request d <> Some 0%Z;
  nf_mask : exists row, mask_row (vocab_size b) (allowed_token_ids (sp_sampler (nr_sampling_params d))) = Ok row;
}.

Lemma new_generator_ok p s : exists s' g, new_generator p s = Ok (s', g) /\ (is_Some g <-> sampling_type p = RANDOM_SEED) /\
  mr_requests s' = mr_requests s /\ output_lists s' = output_lists s /\ next_list s' = next_list s /\ input_batch s' = input_batch s /\
  encoder_cache s' = encoder_cache s /\ same_settings s s'.
Proof.
  unfold new_generator. case_bool_decide as Ep; [|do 2 eexists; split; [done|]; split_and!; done || (split; [by intros [? ?]|done])].
  assert (Hseed : is_Some (sp_seed p)).
  { unfold sampling_type in Ep. destruct (q_lt _ _); [done|]. destruct (sp_seed p); [by eexists|done]. }
  destruct Hseed as [x ->]. cbn [of_option mbind result_bind]. do 2 eexists. split; [reflexivity|]. split_and!; try done.
Qed.

Lemma add_new_ok s d : states_ok s -> InputBatch.req_id_to_index (input_batch s) !! nr_req_id d = None -> new_fits (input_batch s) d ->
  exists s' q, add_new s d = Ok s' /\ states_ok s' /\ input_batch s' = input_batch s /\ encoder_cache s' = encoder_cache s /\ same_settings s s' /\ is_new d q /\
    forall id, known s' id = if decide (id = nr_req_id d) then Some (q, []) else known s id.
Proof.
  intros [Hb Hid Href Hinj Hfit] Hnew [Hf1 Hf2 Hf3 Hf4].
  destruct (new_generator_ok (sp_sampler (nr_sampling_params d)) s) as (s1 & g & E1 & Hg & R1 & R2 & R3 & R4 & R5 & R6).
  unfold add_new. rewrite E1. cbn [mbind result_bind new_list]. eexists. exists (new_cached_state d g (next_list s1)). split; [reflexivity|].
  assert (Hfresh : forall id q, mr_requests s !! id = Some q -> cs_output_token_ids q <> next_list s) by (intros id q Hq; specialize (Href id q Hq); lia).
  assert (Ho : forall id q, mr_requests s !! id = Some q -> output_of (<[next_list s := []]> (output_lists s)) q = output_of (output_lists s) q).
  { intros id q Hq. unfold output_of. by rewrite lookup_total_insert_ne by exact (not_eq_sym (Hfresh id q Hq)). }
  split; [|split; [exact R4|]; split; [exact R5|]; split; [exact R6|]; split; [by repeat (split; [reflexivity|])|]].
  - split; cbn; rewrite ?R1, ?R2, ?R3, ?R4.
    + eapply batch_frame; [exact Hb| |].
      * intros id [i Hi]. rewrite lookup_insert_ne; [done|]. intros <-. congruence.
      * intros id q _ Hq. by eapply Ho.
    + intros id q [[<- <-]|[_ Hq]]%lookup_insert_Some; [done|by apply Hid].
    + intros id q [[<- <-]|[_ Hq]]%lookup_insert_Some; cbn; [lia|]. specialize (Href id q Hq). lia.
    + intros id1 id2 q1 q2 [[<- <-]|[Hn1 Hq1]]%lookup_insert_Some [[<- <-]|[Hn2 Hq2]]%lookup_insert_Some; cbn; [done| | |by eapply Hinj].
      * intros Ex. by destruct (Hfresh id2 q2 Hq2).
      * intros Ex. by destruct (Hfresh id1 q1 Hq1).
    + intros id q [[<- <-]|[_ Hq]]%lookup_insert_Some; [|eapply fits_same; [by eapply Hfit|by eapply Ho|done]].
      split; cbn; try done. unfold tokens_of, output_of. cbn. rewrite lookup_total_insert_eq, app_nil_r. done.
  - intros id. unfold known. cbn. rewrite R1, R2, R3. destruct (decide (id = nr_req_id d)) as [->|Hne].
    + rewrite lookup_insert_eq. cbn. unfold output_of. cbn. by rewrite lookup_total_insert_eq.
    + rewrite lookup_insert_ne by done. destruct (mr_requests s !! id) as [q|] eqn:Eq; [|done]. cbn. by rewrite (Ho id q Eq).
Qed.

(** ** Requests that go on *)

(** The tokens of the request beyond the [c]-th are the first new ones, or the
    other way around. *)
Definition agrees (c : nat) (toks new : list Z) : Prop := c <= length toks /\ (drop c toks `prefix_of` new \/ new `prefix_of` drop c toks).

(** The new tokens that the cached state lacks. *)
Definition lacking (c : nat) (toks new : list Z) : list Z := drop (length toks - c) new.

Lemma py_slice_from_neg {A} (k : nat) (l : list A) : 0 < k <= length l -> py_slice_from (- Z.of_nat k) l = drop (length l - k) l.
Proof.
  intros Hk. unfold py_slice_from, py_bound. rewrite (proj2 (Z.ltb_lt _ _)) by lia. f_equal. lia.
Qed.

Lemma extend_output_ok out new toks (c : nat) : c <= length toks ->
  extend_output out (Z.of_nat c + Z.of_nat (length new) - Z.of_nat (length toks)) new = Ok (out ++ lacking c toks new).
Proof.
  intros Hc. unfold extend_output, lacking. destruct (Z.eqb_spec (Z.of_nat c + Z.of_nat (length new) - Z.of_nat (length toks)) 1) as [Ez|Ez].
  - assert (Hl : length new = S (length toks - c)) by lia. destruct new as [|x new _] using rev_ind; [done|]. rewrite last_snoc. cbn [of_option mbind result_bind].
    rewrite length_app in Hl. cbn in Hl. rewrite drop_app_ge by lia. by replace (length toks - c - length new) with 0 by lia.
  - destruct (Z.ltb_spec 0 (Z.of_nat c + Z.of_nat (length new) - Z.of_nat (length toks))) as [H|H].
    + replace (- (Z.of_nat c + Z.of_nat (length new) - Z.of_nat (length toks)))%Z with (- Z.of_nat (length new - (length toks - c)))%Z by lia.
      rewrite py_slice_from_neg by lia. do 3 f_equal. lia.
    + by rewrite drop_ge, app_nil_r by lia.
Qed.

Lemma lacking_ok c toks new : agrees c toks new ->
  let toks' := toks ++ lacking c toks new in
  length toks' = Nat.max (length toks) (c + length new) /\ take (c + length new) toks' = take c toks' ++ new.
Proof.
  intros [Hc Ha] toks'. subst toks'. unfold lacking. split; [rewrite length_app, length_drop; lia|].
  rewrite (take_app_le toks _ c) by lia. transitivity (take (c + length new) (take c toks ++ (drop c toks ++ drop (length toks - c) new))).
  { by rewrite app_assoc, take_drop. }
  assert (Hl : length (take c toks) = c) by (rewrite length_take; lia).
  rewrite take_app_ge by lia. rewrite Hl. replace (c + length new - c) with (length new) by lia. f_equal.
  assert (Hd : length toks - c = length (drop c toks)) by (by rewrite length_drop). rewrite Hd. destruct Ha as [[x ->]|[x Ex]].
  - rewrite drop_app_length. apply take_ge. done.
  - rewrite Ex. rewrite <-app_assoc. apply take_app_length.
Qed.

(** A cached state and its output after a step. *)
Definition after_step (d : CachedRequestData) (k : CachedRequestState * list Z) : CachedRequestState * list Z :=
  let '(q, out) := k in
  let blocks := if resumed_from_preemption d then new_block_ids d else cs_block_ids q ++ new_block_ids d in
  (set_progress (cr_num_computed_tokens d) blocks q,
   out ++ lacking (Z.to_nat (cr_num_computed_tokens d)) (cs_prompt_token_ids q ++ out) (new_token_ids d)).

(** What the scheduler's data about a request have to do with the cached state
    and, if the request is in the batch, with its row. *)
Record cached_fits (spec : gmap string (list Z)) (b : InputBatch) (k : option (CachedRequestState * list Z)) (d : CachedRequestData) : Prop := {
  cf_state : exists q out, k = Some (q, out) /\
    agrees (Z.to_nat (cr_num_computed_tokens d)) (cs_prompt_token_ids q ++ out) (new_token_ids d) /\
    length (after_step d (q, out)).1.(cs_block_ids) <= max_num_blocks_per_req (table b);
  cf_computed : (0 <= cr_num_computed_tokens d)%Z;
  cf_tokens : Z.to_nat (cr_num_computed_tokens d) + length (new_token_ids d) + length (default [] (spec !! cr_req_id d)) <= max_model_len b;
  cf_row : forall i, InputBatch.req_id_to_index b !! cr_req_id d = Some i -> resumed_from_preemption d = false /\
    exists n : nat, num_tokens_no_spec (counters b) !! i = Some (Z.of_nat n) /\ Z.to_nat (cr_num_computed_tokens d) <= n;
}.

Lemma cached_fits_frame spec b b' k d : cached_fits spec b k d -> same_dims b b' ->
  (forall i, InputBatch.req_id_to_index b' !! cr_req_id d = Some i -> InputBatch.req_id_to_index b !! cr_req_id d = Some i /\
    num_tokens_no_spec (counters b') !! i = num_tokens_no_spec (counters b) !! i) -> cached_fits spec b' k d.
Proof.
  intros [H1 H2 H3 H4] (D1 & D2 & D3 & D4) Hi. split; [by rewrite D4|done|by rewrite D2|]. intros i Ei. apply Hi in Ei as [Ei ->]. by apply H4.
Qed.

(** What a step for request [id] leaves alone. *)
Definition others_same s s' (id : string) : Prop :=
  same_settings s s' /\ encoder_cache s' = encoder_cache s /\ same_places (input_batch s) (input_batch s') /\
  (forall id2, id2 <> id -> known s' id2 = known s id2) /\
  (forall id2 i, id2 <> id -> InputBatch.req_id_to_index (input_batch s) !! id2 = Some i ->
    num_tokens_no_spec (counters (input_batch s')) !! i = num_tokens_no_spec (counters (input_batch s)) !! i).

Lemma known_set_progress s id q out q' : states_ok s -> mr_requests s !! id = Some q -> cs_output_token_ids q' = cs_output_token_ids q ->
  let s' := set_cached id q' (set_output (cs_output_token_ids q) out s) in
  (forall id2 q2, id2 <> id -> mr_requests s !! id2 = Some q2 -> output_of (output_lists s') q2 = output_of (output_lists s) q2) /\
  forall id2, known s' id2 = if decide (id2 = id) then Some (q', out) else known s id2.
Proof.
  intros Hs Hq Er s'. assert (Ho : forall id2 q2, id2 <> id -> mr_requests s !! id2 = Some q2 -> output_of (output_lists s') q2 = output_of (output_lists s) q2).
  { intros id2 q2 Hne Hq2. unfold s', output_of. cbn. rewrite lookup_total_insert_ne; [done|]. intros Ex. destruct Hne. by eapply (st_inj s Hs). }
  split; [exact Ho|]. intros id2. unfold known. cbn. destruct (decide (id2 = id)) as [->|Hne].
  - rewrite lookup_insert_eq. cbn. unfold output_of. cbn. by rewrite Er, lookup_total_insert_eq.
  - rewrite lookup_insert_ne by done. destruct (mr_requests s !! id2) as [q2|] eqn:E2; [|done]. cbn. do 2 f_equal. by apply (Ho id2).
Qed.

Lemma states_after s id q out q' b : states_ok s -> mr_requests s !! id = Some q -> cs_output_token_ids q' = cs_output_token_ids q -> cs_req_id q' = id ->
  let s' := set_cached id q' (set_output (cs_output_token_ids q) out s) in
  batch_ok (output_lists s') (mr_requests s') b -> same_dims (input_batch s) b -> fits (output_lists s') b q' -> states_ok (set_batch b s').
Proof.
  intros Hs Hq Er Eid s' Hb Hd Hf. destruct (known_set_progress s id q out q' Hs Hq Er) as [Ho _]. split; cbn.
  - exact Hb.
  - intros id2 q2 [[<- <-]|[_ Hq2]]%lookup_insert_Some; [done|by apply (st_id s Hs)].
  - intros id2 q2 [[<- <-]|[_ Hq2]]%lookup_insert_Some; [rewrite Er; by apply (st_ref s Hs id)|by apply (st_ref s Hs id2)].
  - intros id1 id2 q1 q2 [[<- <-]|[Hn1 Hq1]]%lookup_insert_Some [[<- <-]|[Hn2 Hq2]]%lookup_insert_Some Ex; rewrite ?Er in Ex; [done|..]; by eapply (st_inj s Hs).
  - intros id2 q2 [[<- <-]|[Hne Hq2]]%lookup_insert_Some; [done|]. eapply fits_same; [by apply (st_fits s Hs id2)|by apply (Ho id2)|done].
Qed.

(** The ids of the requests that are not in the batch. *)
Definition absent b (ids : list string) : list string := filter (fun id => InputBatch.req_id_to_index b !! id = None) ids.

Lemma others_same_no_batch s id q out q' : states_ok s -> mr_requests s !! id = Some q -> cs_output_token_ids q' = cs_output_token_ids q ->
  others_same s (set_cached id q' (set_output (cs_output_token_ids q) out s)) id.
Proof.
  intros Hs Hq Er. destruct (known_set_progress s id q out q' Hs Hq Er) as [_ Hk]. split; [done|]. split; [done|]. split; [done|]. split; [|done].
  intros id2 Hne. rewrite Hk. by rewrite decide_False.
Qed.

Lemma update_cached_ok spec s add d : states_ok s -> cached_fits spec (input_batch s) (known s (cr_req_id d)) d ->
  exists s', update_cached spec (s, add) d = Ok (s', add ++ absent (input_batch s) [cr_req_id d]) /\ states_ok s' /\ others_same s s' (cr_req_id d) /\
    known s' (cr_req_id d) = after_step d <$> known s (cr_req_id d) /\
    (is_Some (InputBatch.req_id_to_index (input_batch s) !! cr_req_id d) ->
      count_of (input_batch s') (cr_req_id d) = Some (cr_num_computed_tokens d + Z.of_nat (length (new_token_ids d)))%Z).
Proof.
  intros Hs [(q & out & Hk & Ha & Hblk) Hc0 Hfit Hrow]. rewrite Hk. apply known_Some in Hk as [Hq Eout]. set (id := cr_req_id d) in *. rewrite Eout in *. clear out Eout.
  set (c := Z.to_nat (cr_num_computed_tokens d)) in *. assert (Ec : cr_num_computed_tokens d = Z.of_nat c) by lia.
  set (out := output_of (output_lists s) q) in *. set (new := new_token_ids d) in *. set (x := lacking c (cs_prompt_token_ids q ++ out) new).
  destruct (lacking_ok c _ new Ha) as [Hlen Htake]. fold x in Hlen, Htake.
  cbn [after_step fst] in Hblk. fold c out new x in Hblk. unfold update_cached. fold id. rewrite Hq. cbn [of_option mbind result_bind].
  rewrite cs_num_tokens_length. unfold tokens_of. fold out new. rewrite Ec, extend_output_ok by apply Ha. fold x. cbn [mbind result_bind].
  set (blocks := if resumed_from_preemption d then _ else _) in *. set (q' := set_progress (Z.of_nat c) blocks q).
  assert (Er : cs_output_token_ids q' = cs_output_token_ids q) by done. set (s1 := set_cached id q' _).
  destruct (known_set_progress s id q (out ++ x) q' Hs Hq Er) as [Ho Hk']. fold s1 in Ho, Hk'. pose proof (st_fits s Hs id q Hq) as [F1 F2 F3 F4].
  assert (Eo' : output_of (output_lists s1) q' = out ++ x) by (unfold output_of; cbn; by rewrite lookup_total_insert_eq).
  assert (Et : tokens_of (output_lists s1) q' = (cs_prompt_token_ids q ++ out) ++ x) by (unfold tokens_of; rewrite Eo'; apply app_assoc).
  assert (Hf : forall b, same_dims (input_batch s) b -> fits (output_lists s1) b q').
  { intros b (D1 & D2 & D3 & D4). split.
    - rewrite Et, Hlen, D2. unfold tokens_of in F1. fold out in F1. lia.
    - rewrite D4. exact Hblk.
    - exact F3.
    - by rewrite D3. }
  assert (Eid : cs_req_id q' = id) by exact (st_id s Hs id q Hq).
  change (input_batch s1) with (input_batch s). unfold absent. cbn [filter list_filter].
  destruct (InputBatch.req_id_to_index (input_batch s) !! id) as [i|] eqn:Ei.
  - destruct (Hrow i eq_refl) as (Hres & n & En & Hcn). assert (Eb : blocks = cs_block_ids q ++ new_block_ids d) by (unfold blocks; by rewrite Hres).
    assert (Eq' : set_progress (cr_num_computed_tokens d) (cs_block_ids q ++ new_block_ids d) q = q') by (unfold q'; by rewrite Eb, Ec).
    pose proof Ei as Hi. apply (bo_index _ _ _ (st_batch s Hs)) in Hi.
    destruct (update_row_ok (output_lists s) (mr_requests s) (output_lists s1) (input_batch s) i id q d (default [] (spec !! id)) c (st_batch s Hs) Hi Hq Ec)
      as (b' & E1 & Hb' & Hsame & Hcnt & Hcnti); [| | | |done|by rewrite <-Eb| |].
    + by exists n.
    + rewrite Eq', Et. by apply prefix_app_r.
    + rewrite Eq', Et, Hlen. fold new. lia.
    + rewrite Eq', Et. exact Htake.
    + intros id2 q2 Hne _ Hq2. by apply (Ho id2).
    + rewrite E1. cbn [mbind result_bind]. rewrite decide_False by done. rewrite app_nil_r. exists (set_batch b' s1). split; [done|].
      assert (Hd : same_dims (input_batch s) b') by apply Hsame.
      split; [apply (states_after s id q (out ++ x) q' b' Hs Hq Er Eid); [by rewrite Eq' in Hb'|exact Hd|by apply Hf]|]. split.
      * split; [done|]. split; [done|]. split; [exact Hsame|]. split; [intros id2 Hne; etransitivity; [apply Hk'|by rewrite decide_False]|].
        intros id2 j Hne Ej. apply Hcnt. intros ->. destruct Hne. eapply (inj Some). apply (bo_index _ _ _ (st_batch s Hs)) in Ej. unfold holds_id in *. congruence.
      * split.
        -- change (known (set_batch b' s1) id) with (known s1 id). rewrite Hk', decide_True by done. cbn. fold c out new x. unfold q'. by rewrite Ec, Eb, Hres.
        -- intros _. unfold count_of. cbn. destruct Hsame as (_ & _ & -> & _). rewrite Ei. cbn. rewrite Hcnti. f_equal. fold new. lia.
  - rewrite decide_True by done. exists s1. split; [done|]. split; [|split].
    + apply (states_after s id q (out ++ x) q' (input_batch s) Hs Hq Er Eid); [|done|by apply Hf].
      eapply batch_frame; [apply (st_batch s Hs)| |].
      * intros id2 [j Hj]. cbn. rewrite lookup_insert_ne; [done|]. intros <-. congruence.
      * intros id2 q2 [j Hj] Hq2. apply (Ho id2); [|done]. intros ->. congruence.
    + by apply others_same_no_batch.
    + split; [|by intros [? ?]]. rewrite Hk', decide_True by done. cbn. fold c out new x. by rewrite Ec.
Qed.

Lemma same_settings_trans s1 s2 s3 : same_settings s1 s2 -> same_settings s2 s3 -> same_settings s1 s3.
Proof. intros (? & ? & ?) (? & ? & ?). split_and!; congruence. Qed.

Lemma same_dims_trans b1 b2 b3 : same_dims b1 b2 -> same_dims b2 b3 -> same_dims b1 b3.
Proof. intros (? & ? & ? & ?) (? & ? & ? & ?). split_and!; congruence. Qed.

Lemma same_places_refl b : same_places b b.
Proof. done. Qed.

Lemma same_places_trans b1 b2 b3 : same_places b1 b2 -> same_places b2 b3 -> same_places b1 b3.
Proof.
  intros (D & H1 & H2 & H3 & H4 & H5 & H6 & H7 & H8 & H9 & H10) (D' & ? & ? & ? & ? & ? & ? & ? & ? & ? & ?).
  split; [by eapply same_dims_trans|]. split_and!; congruence.
Qed.

Lemma absent_app b l k : absent b (l ++ k) = absent b l ++ absent b k.
Proof. apply filter_app. Qed.

Lemma absent_same b b' l : InputBatch.req_id_to_index b' = InputBatch.req_id_to_index b -> absent b' l = absent b l.
Proof. intros Ei. unfold absent. by rewrite Ei. Qed.

Lemma update_all_ok spec ds : forall s add, states_ok s -> NoDup (cr_req_id <$> ds) ->
  (forall d, d ∈ ds -> cached_fits spec (input_batch s) (known s (cr_req_id d)) d) ->
  exists s', foldM (update_cached spec) (s, add) ds = Ok (s', add ++ absent (input_batch s) (cr_req_id <$> ds)) /\ states_ok s' /\
    same_settings s s' /\ encoder_cache s' = encoder_cache s /\ same_places (input_batch s) (input_batch s') /\
    (forall id, id ∉ cr_req_id <$> ds -> known s' id = known s id /\ count_of (input_batch s') id = count_of (input_batch s) id) /\
    forall d, d ∈ ds -> known s' (cr_req_id d) = after_step d <$> known s (cr_req_id d) /\
      (is_Some (InputBatch.req_id_to_index (input_batch s) !! cr_req_id d) ->
        count_of (input_batch s') (cr_req_id d) = Some (cr_num_computed_tokens d + Z.of_nat (length (new_token_ids d)))%Z).
Proof.
  induction ds as [|d ds IH]; intros s add Hs Hnd Hf; cbn [foldM fmap list_fmap].
  - exists s. cbn. rewrite app_nil_r. split_and!; try done. intros d Hd. by apply elem_of_nil in Hd.
  - cbn [fmap list_fmap] in Hnd. apply NoDup_cons in Hnd as [Hd Hnd].
    destruct (update_cached_ok spec s add d Hs) as (s1 & E1 & Hs1 & (Hset & Henc & Hsame & Hother & Hcnt) & Hk & Hki); [apply Hf; by left|].
    rewrite E1. cbn [mbind result_bind]. pose proof Hsame as (Hdims & _ & Hidx & _).
    destruct (IH s1 (add ++ absent (input_batch s) [cr_req_id d]) Hs1 Hnd) as (s' & E' & Hs' & Hset' & Henc' & Hsame' & Hother' & Hk').
    { intros d2 Hd2. assert (Hne : cr_req_id d2 <> cr_req_id d) by (intros Ex; apply Hd; rewrite <-Ex; by apply list_elem_of_fmap_2).
      rewrite Hother by done. eapply cached_fits_frame; [apply Hf; by right|done|]. rewrite Hidx. intros i Hi. split; [done|by apply (Hcnt (cr_req_id d2))]. }
    exists s'. split; [|split; [done|split; [by eapply same_settings_trans|split; [congruence|split; [by eapply same_places_trans|split]]]]].
    + rewrite E', (absent_same (input_batch s) (input_batch s1)) by done. by rewrite <-app_assoc, <-absent_app.
    + intros id [Hne Hnin]%not_elem_of_cons. destruct (Hother' id Hnin) as [-> ->]. split; [by apply Hother|]. unfold count_of. rewrite Hidx.
      destruct (InputBatch.req_id_to_index (input_batch s) !! id) eqn:Ei; [|done]. by apply (Hcnt id).
    + intros d2 [->|Hd2]%elem_of_cons; [by destruct (Hother' _ Hd) as [-> ->]|]. destruct (Hk' d2 Hd2) as [-> Hc2]. rewrite Hother; [by rewrite Hidx in Hc2|].
      intros Ex. apply Hd. rewrite <-Ex. by apply list_elem_of_fmap_2.
Qed.

Lemma add_all_ok ds : forall s, states_ok s -> NoDup (nr_req_id <$> ds) ->
  (forall d, d ∈ ds -> InputBatch.req_id_to_index (input_batch s) !! nr_req_id d = None /\ new_fits (input_batch s) d) ->
  exists s', foldM add_new s ds = Ok s' /\ states_ok s' /\ same_settings s s' /\ encoder_cache s' = encoder_cache s /\ input_batch s' = input_batch s /\
    (forall id, id ∉ nr_req_id <$> ds -> known s' id = known s id) /\
    forall d, d ∈ ds -> exists q, known s' (nr_req_id d) = Some (q, []) /\ is_new d q.
Proof.
  induction ds as [|d ds IH]; intros s Hs Hnd Hf; cbn [foldM fmap list_fmap].
  - exists s. split_and!; try done. intros d Hd. by apply elem_of_nil in Hd.
  - cbn [fmap list_fmap] in Hnd. apply NoDup_cons in Hnd as [Hd Hnd]. destruct (Hf d) as [Hi Hfit]; [by left|].
    destruct (add_new_ok s d Hs Hi Hfit) as (s1 & q & E1 & Hs1 & Eb & Henc & Hset & Hq & Hk). rewrite E1. cbn [mbind result_bind].
    destruct (IH s1 Hs1 Hnd) as (s' & E' & Hs' & Hset' & Henc' & Eb' & Hother' & Hk'); [intros d2 Hd2; rewrite Eb; apply Hf; by right|].
    exists s'. split; [done|]. split; [done|]. split; [by eapply same_settings_trans|]. split; [congruence|]. split; [congruence|]. split.
    + intros id [Hne Hnin]%not_elem_of_cons. rewrite Hother', Hk by done. by rewrite decide_False.
    + intros d2 [->|Hd2]%elem_of_cons; [|by apply Hk']. exists q. split; [|done]. rewrite Hother', Hk by done. by rewrite decide_True.
Qed.

(** ** Filling the places *)

Definition sorted_holes b (removed : list nat) : Prop := StronglySorted lt removed /\ forall i, i ∈ removed <-> req_ids b !! i = Some None.

Lemma sorted_lt_NoDup (l : list nat) : StronglySorted lt l -> NoDup l.
Proof. induction 1 as [|x l Hs IH Hx]; constructor; [|done]. rewrite Forall_forall in Hx. intros Hin. specialize (Hx x Hin). lia. Qed.

Lemma no_holes_length ls reqs b : batch_ok ls reqs b -> sorted_holes b [] -> num_reqs b = length (req_ids b).
Proof.
  intros Hb [_ Hh]. rewrite (size_index ls reqs b Hb). unfold ids_in. rewrite (length_holes (req_ids b) []); [cbn; lia|constructor|done].
Qed.

Lemma no_holes_compact ls reqs b : batch_ok ls reqs b -> sorted_holes b [] -> compact b.
Proof.
  intros Hb [_ Hh]. unfold compact, ids_in. clear Hb. induction (req_ids b) as [|[x|] l IH]; cbn; [done| |].
  - f_equal. apply IH. intros i. rewrite <-(Hh (S i)). split; intros H; by apply elem_of_nil in H.
  - exfalso. assert (H : 0 ∈ ([] : list nat)) by (by apply Hh). by apply elem_of_nil in H.
Qed.

(** The place that is taken next, and what remains. *)
Lemma next_place ls reqs b removed : batch_ok ls reqs b -> sorted_holes b removed -> num_reqs b < max_num_reqs b ->
  let i := default (num_reqs b) (head removed) in
  free_place b i /\ i < max_num_reqs b /\ forall b' id, (forall k, req_ids b' !! k = if decide (k = i) then Some (Some id) else req_ids b !! k) ->
    sorted_holes b' (tail removed).
Proof.
  intros Hb Hh Hlt i. destruct removed as [|h removed]; cbn in i.
  - pose proof (no_holes_length ls reqs b Hb Hh) as El. split; [right; unfold i; lia|]. split; [unfold i; lia|]. intros b' id Hids. split; [constructor|].
    intros k. rewrite Hids. destruct Hh as [_ Hh]. cbn. destruct (decide (k = i)) as [->|]; [|apply Hh]. split; [intros H; by apply elem_of_nil in H|done].
  - destruct Hh as [Hs Hh]. pose proof (StronglySorted_inv Hs) as [Hs' Hmin]. assert (Hi : req_ids b !! h = Some None) by (apply Hh; by left).
    split; [by left|]. split; [apply lookup_lt_Some in Hi; pose proof (sh_ids b (bo_shape _ _ _ Hb)); unfold i; lia|].
    intros b' id Hids. split; [done|]. intros k. rewrite Hids. cbn. rewrite Forall_forall in Hmin. unfold i. destruct (decide (k = h)) as [->|Hk].
    + split; [|done]. intros H. specialize (Hmin h H). lia.
    + rewrite <-Hh, elem_of_cons. naive_solver.
Qed.

Lemma set_batch_twice b b' s : set_batch b' (set_batch b s) = set_batch b' s.
Proof. done. Qed.

(** Whether a cached state restricts its tokens. *)
Definition restricted (q : CachedRequestState) : bool := uses_allowed (sp_sampler (cs_sampling_params q)).

Lemma fill_places_ok ids : forall s removed, states_ok s -> NoDup ids ->
  (forall id, id ∈ ids -> is_Some (mr_requests s !! id) /\ InputBatch.req_id_to_index (input_batch s) !! id = None) ->
  sorted_holes (input_batch s) removed -> num_reqs (input_batch s) + length ids <= max_num_reqs (input_batch s) ->
  exists b' rest, fill_places s ids removed = Ok (set_batch b' s, rest) /\ batch_ok (output_lists s) (mr_requests s) b' /\ same_dims (input_batch s) b' /\
    sorted_holes b' rest /\
    (forall id, is_Some (InputBatch.req_id_to_index b' !! id) <-> is_Some (InputBatch.req_id_to_index (input_batch s) !! id) \/ id ∈ ids) /\
    ((forall id q, mr_requests s !! id = Some q -> restricted q = false) -> allowed_token_ids_mask_cpu (input_batch s) = None ->
      allowed_token_ids_mask_cpu b' = None) /\ (ids = [] -> b' = input_batch s /\ rest = removed) /\
    forall x, count_of b' x = if decide (x ∈ ids) then cs_num_tokens (output_lists s) <$> mr_requests s !! x else count_of (input_batch s) x.
Proof.
  induction ids as [|id ids IH]; intros s removed Hs Hnd Hin Hh Hcap; cbn [fill_places].
  - exists (input_batch s), removed. split; [by destruct s|]. split; [apply (st_batch s Hs)|]. split; [done|]. split; [done|]. split; [|split; [done|split; [done|]]].
    + intros id. split; [by left|intros [?|H]; [done|by apply elem_of_nil in H]].
    + intros x. by rewrite decide_False by apply not_elem_of_nil.
  - apply NoDup_cons in Hnd as [Hid Hnd]. destruct (Hin id) as [[q Hq] Hnew]; [by left|]. rewrite Hq. cbn [of_option mbind result_bind]. cbn [length] in Hcap.
    destruct (next_place (output_lists s) (mr_requests s) (input_batch s) removed (st_batch s Hs) Hh) as (Hfree & Hlt & Hnext); [lia|].
    destruct (batch_add_ok (output_lists s) (mr_requests s) (input_batch s) q id (head removed) (st_batch s Hs) Hq (st_id s Hs id q Hq) Hnew Hlt Hfree (st_fits s Hs id q Hq))
      as (b1 & E1 & Hb1 & Hd1 & Eidx & _ & Eids & Em & Hcnt). rewrite E1. cbn [mbind result_bind].
    assert (Hs1 : states_ok (set_batch b1 s)) by (by apply set_batch_ok).
    assert (En : num_reqs b1 = S (num_reqs (input_batch s))) by (unfold num_reqs; rewrite Eidx; by rewrite map_size_insert_None).
    destruct (IH (set_batch b1 s) (tail removed) Hs1 Hnd) as (b' & rest & E' & Hb' & Hd' & Hh' & Hdom & Em' & _ & Hcnt').
    + intros x Hx. cbn. rewrite Eidx, lookup_insert_ne by (by intros ->). apply Hin. by right.
    + by apply (Hnext b1 id).
    + cbn. rewrite En. pose proof Hd1 as (-> & _). lia.
    + exists b', rest. split; [exact E'|]. split; [done|]. split; [by eapply same_dims_trans|]. split; [done|]. split; [|split; [|split; [done|]]].
      * intros x. rewrite Hdom. cbn. rewrite Eidx, elem_of_cons. destruct (decide (x = id)) as [->|Hx].
        -- rewrite lookup_insert_eq. split; [by auto|intros _; left; by eexists].
        -- rewrite lookup_insert_ne by done. naive_solver.
      * intros Hr Hm. apply Em'; [done|]. apply Em; [by apply (Hr id)|done].
      * intros x. rewrite Hcnt'. cbn. rewrite Hcnt. destruct (decide (x ∈ ids)) as [Hx|Hx]; [by rewrite decide_True by (by right)|].
        destruct (decide (x = id)) as [->|Hne]; [by rewrite decide_True, Hq by left|]. by rewrite decide_False by (by rewrite not_elem_of_cons).
Qed.

(** ** Decodes first *)

(** The exchanges of [swap_loop] on any list. *)
Fixpoint swaps {A} (num_decodes : nat) (pairs : list (nat * nat)) (l : list A) : list A :=
  match pairs with
  | [] => l
  | (prefill, decode_idx) :: pairs => if decode_idx <? num_decodes then l else swaps num_decodes pairs (swap prefill decode_idx l)
  end.

Lemma swap_perm {A} i j (l : list A) : i < length l -> j < length l -> swap i j l ≡ₚ l.
Proof.
  intros Hi Hj. apply Permutation_inj. split; [apply length_swap|]. exists (exchanged i j). split; [|intros k; by apply exchanged_swap].
  intros x y Ex. rewrite <-(exchanged_involutive i j x), <-(exchanged_involutive i j y). by rewrite Ex.
Qed.

Section DecodesFirst.
Context {A : Type} (P : A -> bool).
Implicit Types l : list A.

Definition count l : nat := length (filter (fun x => P x = true) l).

Lemma decodes_perm l k : l ≡ₚ k -> count l = count k.
Proof. intros H. unfold count. by rewrite H. Qed.

Lemma count_le l : count l <= length l.
Proof. apply length_filter. Qed.

Lemma count_full l : length l <= count l -> forall i x, l !! i = Some x -> P x = true.
Proof.
  unfold count. induction l as [|y l IH]; intros Hl i x Hi; [done|]. revert Hl. rewrite filter_cons. pose proof (count_le l) as Hc. unfold count in Hc.
  case_decide as Hy; cbn; intros Hl; [|lia]. destruct i as [|i]; cbn in Hi; [congruence|]. apply (IH ltac:(lia) i x Hi).
Qed.

Lemma count_zero l : count l = 0 -> forall i x, l !! i = Some x -> P x = false.
Proof.
  unfold count. intros H i x Hi. apply length_zero_iff_nil in H. destruct (P x) eqn:Ex; [|done].
  assert (Hin : x ∈ filter (fun x => P x = true) l) by (apply list_elem_of_filter; split; [done|by eapply list_elem_of_lookup_2]). rewrite H in Hin. by apply elem_of_nil in Hin.
Qed.

Lemma count_missing l : count l < length l -> exists i x, l !! i = Some x /\ P x = false.
Proof.
  unfold count. induction l as [|y l IH]; cbn [length]; [lia|]. rewrite filter_cons. case_decide as Hy; cbn [length]; intros Hl.
  - destruct IH as (i & x & Hi & Hx); [lia|]. by exists (S i), x.
  - exists 0, y. split; [done|]. by destruct (P y).
Qed.

Lemma count_split n l : count l = count (take n l) + count (drop n l).
Proof. unfold count. by rewrite <-length_app, <-filter_app, take_drop. Qed.

(** If there are as many as there are places in front, then there is one behind
    exactly when a place in front has another. *)
Lemma misplaced l : (exists i x, i < count l /\ l !! i = Some x /\ P x = false) \/ (forall i x, l !! i = Some x -> P x = true <-> i < count l).
Proof.
  pose proof (count_split (count l) l) as Hs. pose proof (count_le l) as Hle. destruct (decide (count (drop (count l) l) = 0)) as [Hz|Hz].
  - right. intros i x Hi. split; intros H.
    + destruct (decide (i < count l)) as [|Hge]; [done|]. rewrite (count_zero _ Hz (i - count l) x) in H; [done|]. rewrite lookup_drop. rewrite <-Hi. f_equal. lia.
    + eapply (count_full (take (count l) l)); [rewrite length_take; lia|]. by rewrite lookup_take_lt.
  - left. destruct (count_missing (take (count l) l)) as (i & x & Hi & Ex); [rewrite length_take; lia|]. apply lookup_take_Some in Hi as [Hi Hlt]. by exists i, x.
Qed.
(** The places of [ps] and [ds] are of the right kind, and none that has to be
    exchanged is missing. *)
Record to_swap (n : nat) (ps ds : list nat) l : Prop := {
  ts_ps : forall i, i ∈ ps -> exists x, l !! i = Some x /\ P x = false;
  ts_ds : forall i, i ∈ ds -> exists x, l !! i = Some x /\ P x = true;
  ts_front : forall i x, i < n -> l !! i = Some x -> P x = false -> i ∈ ps;
  ts_back : forall i x, n <= i -> l !! i = Some x -> P x = true -> i ∈ ds;
}.

Lemma to_swap_next n p ps d ds l : to_swap n (p :: ps) (d :: ds) l -> p < n -> n <= d -> p ∉ ps -> d ∉ ds -> to_swap n ps ds (swap p d l).
Proof.
  intros [H1 H2 H3 H4] Hp Hd Hps Hds. destruct (H1 p) as (x & Hx & Px); [by left|]. destruct (H2 d) as (y & Hy & Py); [by left|].
  pose proof (lookup_lt_Some _ _ _ Hx) as Lx. pose proof (lookup_lt_Some _ _ _ Hy) as Ly.
  split; intros i; setoid_rewrite (lookup_swap p d l i Lx Ly).
  - intros Hi. destruct (H1 i) as (z & Hz & Pz); [by right|]. rewrite decide_False by (intros ->; congruence). rewrite decide_False by (by intros ->). by exists z.
  - intros Hi. destruct (H2 i) as (z & Hz & Pz); [by right|]. rewrite decide_False by (by intros ->). rewrite decide_False by (intros ->; congruence). by exists z.
  - intros z Hi. rewrite decide_False by lia. destruct (decide (i = p)) as [->|Hne]; [intros ? ?; congruence|]. intros Hz Pz.
    destruct (elem_of_cons ps i p) as [[->|H] _]; [by eapply H3|done|done].
  - intros z Hi. destruct (decide (i = d)) as [->|Hne]; [intros ? ?; congruence|]. rewrite decide_False by lia. intros Hz Pz.
    destruct (elem_of_cons ds i d) as [[->|H] _]; [by eapply H4|done|done].
Qed.

Lemma swaps_ok ps : forall ds l, StronglySorted lt ps -> StronglySorted gt ds -> to_swap (count l) ps ds l ->
  let l' := swaps (count l) (zip ps ds) l in
  l' ≡ₚ l /\ forall i x, l' !! i = Some x -> P x = true <-> i < count l.
Proof.
  induction ps as [|p ps IH]; intros ds l Hps Hds Hts; cbn [zip zip_with swaps].
  - split; [done|]. destruct (misplaced l) as [(i & x & Hi & Hx & Px)|H]; [|done]. apply (ts_front _ _ _ _ Hts i x Hi Hx) in Px. by apply elem_of_nil in Px.
  - assert (Hback : (forall i x, count l <= i -> l !! i = Some x -> P x = false) -> forall i x, l !! i = Some x -> P x = true <-> i < count l).
    { intros Hno. destruct (misplaced l) as [(i & x & Hi & Hx & Px)|H]; [|done]. exfalso.
      pose proof (count_split (count l) l) as Hs. assert (count (take (count l) l) = count l) as Hfull.
      { assert (count (drop (count l) l) = 0); [|lia]. unfold count at 1. apply length_zero_iff_nil. apply elem_of_nil_inv. intros y [Py Hy]%list_elem_of_filter.
        apply list_elem_of_lookup in Hy as [k Hk]. rewrite lookup_drop in Hk. rewrite (Hno (count l + k) y) in Py; [done|lia|done]. }
      rewrite (count_full (take (count l) l) ltac:(rewrite length_take; pose proof (count_le l); lia) i x) in Px; [done|by rewrite lookup_take_lt]. }
    destruct ds as [|d ds]; cbn [swaps].
    { split; [done|]. apply Hback. intros i x Hi Hx. destruct (P x) eqn:Px; [|done]. apply (ts_back _ _ _ _ Hts i x Hi Hx) in Px. by apply elem_of_nil in Px. }
    apply StronglySorted_inv in Hps as [Hps Hmin]. apply StronglySorted_inv in Hds as [Hds Hmax]. rewrite Forall_forall in Hmin, Hmax.
    destruct (Nat.ltb_spec d (count l)) as [Hd|Hd].
    { split; [done|]. apply Hback. intros i x Hi Hx. destruct (P x) eqn:Px; [|done]. apply (ts_back _ _ _ _ Hts i x Hi Hx) in Px as [->|Px]%elem_of_cons; [lia|].
      specialize (Hmax i Px). lia. }
    destruct (ts_ps _ _ _ _ Hts p) as (x & Hx & Px); [by left|]. destruct (ts_ds _ _ _ _ Hts d) as (y & Hy & Py); [by left|].
    assert (Hp : p < count l).
    { destruct (misplaced l) as [(i & z & Hi & Hz & Pz)|H]; [|by apply (H d y Hy) in Py; lia].
      apply (ts_front _ _ _ _ Hts i z Hi Hz) in Pz as [->|Pz]%elem_of_cons; [done|]. specialize (Hmin i Pz). lia. }
    assert (Hperm : swap p d l ≡ₚ l) by (apply swap_perm; by eapply lookup_lt_Some).
    rewrite <-(decodes_perm _ _ Hperm). destruct (IH ds (swap p d l) Hps Hds) as [E2 H2]; [|by split; [rewrite E2|]].
    rewrite (decodes_perm _ _ Hperm). apply to_swap_next; [done|done|done| |]; [intros Hin; specialize (Hmin p Hin)|intros Hin; specialize (Hmax d Hin)]; lia.
Qed.
End DecodesFirst.

Lemma sorted_reverse (l : list nat) : StronglySorted lt l -> StronglySorted gt (reverse l).
Proof.
  induction 1 as [|x l Hs IH Hx]; [constructor|]. rewrite reverse_cons. apply StronglySorted_app. split; [|split; [done|repeat constructor]].
  intros y z Hy Hz. apply list_elem_of_singleton in Hz as ->. rewrite Forall_forall in Hx. rewrite elem_of_reverse in Hy. specialize (Hx y Hy). lia.
Qed.

(** The places with the property, in order. *)
Lemma places_spec (P : Z -> Prop) `{!forall t, Decision (P t)} toks : forall k,
  let l := (filter (fun p : nat * Z => P p.2) (zip (seq k (length toks)) toks)).*1 in
  StronglySorted lt l /\ forall i, i ∈ l <-> exists t, k <= i /\ toks !! (i - k) = Some t /\ P t.
Proof.
  induction toks as [|t toks IH]; intros k; cbn [length seq zip zip_with].
  - split; [constructor|]. intros i. split; [intros Hn; by apply elem_of_nil in Hn|by intros (? & ? & ? & ?)].
  - destruct (IH (S k)) as [Hs Hin]. rewrite filter_cons. cbn [snd]. assert (Hrest : forall i, S k <= i -> (t :: toks) !! (i - k) = toks !! (i - S k)).
    { intros i Hi. by replace (i - k) with (S (i - S k)) by lia. }
    assert (Hex : forall i, (exists x, k <= i /\ (t :: toks) !! (i - k) = Some x /\ P x) <-> (i = k /\ P t) \/ exists x, S k <= i /\ toks !! (i - S k) = Some x /\ P x).
    { intros i. split.
      - intros (x & Hi & Hx & Px). destruct (decide (i = k)) as [->|]; [left; rewrite Nat.sub_diag in Hx; cbn in Hx; split; congruence|]. right. exists x. rewrite <-Hrest by lia. split_and!; done || lia.
      - intros [[-> Px]|(x & Hi & Hx & Px)]; [exists t; by rewrite Nat.sub_diag|]. exists x. rewrite Hrest by done. split_and!; done || lia. }
    setoid_rewrite Hex. case_decide as Pt; cbn.
    + split; [constructor; [done|]; apply Forall_forall; intros i Hi; apply Hin in Hi as (_ & Hi & _); lia|]. intros i. rewrite elem_of_cons, Hin. naive_solver.
    + split; [done|]. intros i. rewrite Hin. naive_solver.
Qed.

Lemma swap_loop_ok ls reqs n pairs : forall b m, batch_ok ls reqs b -> compact b -> allowed_token_ids_mask_cpu b = None ->
  (forall p d, (p, d) ∈ pairs -> p < length (req_ids b) /\ d < length (req_ids b) /\ p <> d) ->
  exists b' m', swap_loop n pairs b m = Ok (b', m') /\ batch_ok ls reqs b' /\ compact b' /\ same_dims b b' /\ same_requests b b' /\
    allowed_token_ids_mask_cpu b' = None /\ req_ids b' = swaps n pairs (req_ids b) /\ (m' = false -> b' = b) /\ same_counts b b' /\
    (m = true -> m' = true).
Proof.
  induction pairs as [|[p d] pairs IH]; intros b m Hb Hc Hm Hin; cbn [swap_loop swaps].
  - exists b, m. by split_and!.
  - destruct (Nat.ltb_spec d n) as [Hd|Hd]; [exists b, m; by split_and!|]. destruct (Hin p d) as (Lp & Ld & Hne); [by left|].
    assert (Hfull : forall i, i < length (req_ids b) -> exists id, holds_id b i id).
    { intros i Hi. unfold holds_id. rewrite Hc in Hi |- *. rewrite length_fmap in Hi. apply lookup_lt_is_Some_2 in Hi as [id Hid]. exists id. by rewrite list_lookup_fmap, Hid. }
    destruct (Hfull p Lp) as [id1 H1], (Hfull d Ld) as [id2 H2].
    destruct (swap_states_ok ls reqs b p d id1 id2 Hb H1 H2 Hne Hm) as (b1 & E1 & Hb1 & Hd1 & Hr1 & Eids & El & Em1 & Hcnt1). rewrite E1. cbn [mbind result_bind].
    assert (Eids1 : req_ids b1 = swap p d (req_ids b)) by (apply list_eq; intros k; by rewrite Eids, exchanged_swap).
    assert (Hc1 : compact b1).
    { apply (no_holes_compact ls reqs b1 Hb1). split; [constructor|]. intros i. split; [intros H; by apply elem_of_nil in H|]. rewrite Eids. intros H. exfalso.
      pose proof (lookup_lt_Some _ _ _ H) as Hlt. destruct (Hfull _ Hlt) as [x Hx]. unfold holds_id in Hx. congruence. }
    destruct (IH b1 true Hb1 Hc1 Em1) as (b' & m' & E' & Hb' & Hc' & Hd' & Hr' & Em' & Eids' & _ & Hcnt' & Htrue).
    { rewrite El. intros x y Hxy. apply Hin. by right. }
    exists b', m'. split; [exact E'|]. split; [done|]. split; [done|]. split; [by eapply same_dims_trans|]. split; [intros x; by rewrite (Hr' x), (Hr1 x)|].
    split; [done|]. split; [by rewrite Eids', Eids1|]. rewrite Htrue by done. split; [done|]. split; [|done]. intros x. by rewrite (Hcnt' x), (Hcnt1 x).
Qed.

Definition is_decode (scheduled : gmap string Z) (o : option string) : bool :=
  match o with Some id => bool_decide (scheduled !! id = Some 1%Z) | None => false end.

(** Where the first [n] places are the decodes. *)
Definition decodes_first (scheduled : gmap string Z) b : Prop :=
  exists n : nat, forall i id, holds_id b i id -> scheduled !! id = Some 1%Z <-> i < n.

Lemma decodes_and_prefills_ok (scheduled : gmap string Z) (ids : list (option string)) : (forall o, o ∈ ids -> exists id, o = Some id /\ is_Some (scheduled !! id)) ->
  exists decodes prefills, decodes_and_prefills scheduled ids = Ok (decodes, prefills) /\ length decodes = count (is_decode scheduled) ids /\
    StronglySorted lt decodes /\ StronglySorted lt prefills /\
    (forall i, i ∈ decodes <-> exists o, ids !! i = Some o /\ is_decode scheduled o = true) /\
    (forall i, i ∈ prefills <-> exists o, ids !! i = Some o /\ is_decode scheduled o = false).
Proof.
  intros Hall. unfold decodes_and_prefills.
  set (f := fun o : option string => match o with Some id => default 0%Z (scheduled !! id) | None => 0%Z end).
  rewrite (mapM_ok_total _ f).
  2: { intros o Ho. destruct (Hall o Ho) as (id & -> & t & Et). cbn. by rewrite Et. }
  cbn [mbind result_bind]. do 2 eexists. split; [reflexivity|].
  assert (Hf : forall o, o ∈ ids -> is_decode scheduled o = true <-> f o = 1%Z).
  { intros o Ho. destruct (Hall o Ho) as (id & -> & t & Et). cbn. rewrite bool_decide_eq_true, Et. cbn. split; congruence. }
  assert (Hl : forall i o, ids !! i = Some o -> o ∈ ids) by (intros; by eapply list_elem_of_lookup_2).
  destruct (places_spec (fun t => t = 1%Z) (f <$> ids) 0) as [S1 I1]. destruct (places_spec (fun t => t <> 1%Z) (f <$> ids) 0) as [S2 I2].
  split; [|split; [exact S1|split; [exact S2|split]]].
  - clear -Hf. rewrite length_fmap. generalize 0. revert Hf. unfold count. induction ids as [|o ids IH]; intros Hf k; [done|]. cbn [fmap list_fmap length seq zip zip_with]. rewrite !filter_cons. cbn [snd].
    pose proof (Hf o ltac:(by left)) as Ho. specialize (IH ltac:(intros x Hx; apply Hf; by right) (S k)).
    case_decide as H1; case_decide as H2; cbn; rewrite ?IH; tauto || done.
  - intros i. rewrite I1. rewrite Nat.sub_0_r. setoid_rewrite list_lookup_fmap. split.
    + intros (t & _ & Et & Pt). apply fmap_Some in Et as (o & Eo & ->). exists o. split; [done|]. apply Hf; [by eapply Hl|done].
    + intros (o & Eo & Po). exists (f o). split; [lia|]. rewrite Eo. split; [done|]. apply Hf; [by eapply Hl|done].
  - intros i. rewrite I2. rewrite Nat.sub_0_r. setoid_rewrite list_lookup_fmap. split.
    + intros (t & _ & Et & Pt). apply fmap_Some in Et as (o & Eo & ->). exists o. split; [done|]. destruct (is_decode scheduled o) eqn:Ed; [|done].
      apply Hf in Ed; [done|by eapply Hl].
    + intros (o & Eo & Po). exists (f o). split; [lia|]. rewrite Eo. split; [done|]. intros Ef. apply Hf in Ef; [congruence|by eapply Hl].
Qed.

Lemma reorder_batch_ok ls reqs (r : bool) (scheduled : gmap string Z) b : batch_ok ls reqs b -> compact b -> (r = true -> allowed_token_ids_mask_cpu b = None) ->
  (forall id, is_Some (InputBatch.req_id_to_index b !! id) -> is_Some (scheduled !! id)) ->
  exists b' m, reorder_batch r scheduled b = Ok (b', m) /\ batch_ok ls reqs b' /\ compact b' /\ same_dims b b' /\ same_requests b b' /\
    (r = true -> allowed_token_ids_mask_cpu b' = None) /\ (m = false -> b' = b) /\ same_counts b b' /\
    (r = true -> decodes_first scheduled b').
Proof.
  intros Hb Hc Hm Hall. unfold reorder_batch. destruct r; [|exists b, false; by split_and!].
  destruct (decodes_and_prefills_ok scheduled (req_ids b)) as (ds & ps & Edp & Hcount & Sd & Sp & Id & Ip).
  { intros o Ho. rewrite Hc in Ho. apply list_elem_of_fmap in Ho as (id & -> & Hid). exists id. split; [done|]. apply Hall. apply elem_ids_in in Hid as [i Hi].
    exists i. by apply (bo_index _ _ _ Hb). }
  rewrite Edp. cbn [mbind result_bind]. rewrite Hcount.
  assert (Hts : to_swap (is_decode scheduled) (count (is_decode scheduled) (req_ids b)) ps (reverse ds) (req_ids b)).
  { split; intros i; rewrite ?elem_of_reverse; try apply Ip; try apply Id; intros x Hi Hx Px; rewrite ?elem_of_reverse; [apply Ip|apply Id]; by exists x. }
  destruct (swaps_ok (is_decode scheduled) ps (reverse ds) (req_ids b) Sp (sorted_reverse ds Sd) Hts) as [_ Hord].
  destruct (swap_loop_ok ls reqs (count (is_decode scheduled) (req_ids b)) (zip ps (reverse ds)) b false Hb Hc (Hm eq_refl))
    as (b' & m' & E' & Hb' & Hc' & Hd' & Hr' & Em' & Eids & Hsame & Hcnt & _).
  { intros p d Hpd. apply elem_of_zip_l in Hpd as Hp. apply elem_of_zip_r in Hpd as Hd. rewrite elem_of_reverse in Hd. apply Ip in Hp as (x & Hx & Px). apply Id in Hd as (y & Hy & Py).
    split; [by eapply lookup_lt_Some|]. split; [by eapply lookup_lt_Some|]. intros ->. congruence. }
  exists b', m'. split; [exact E'|]. split_and!; try done. intros _. exists (count (is_decode scheduled) (req_ids b)). intros i id Hi. unfold holds_id in Hi. rewrite Eids in Hi.
  rewrite <-(Hord i _ Hi). cbn. by rewrite bool_decide_eq_true.
Qed.

End Spec.
