(* ===== verification/ModelRunnerProperties.v ===== *)
(** * The model runner carries out the scheduler's output

    [runner_ok] is the invariant between steps; [step_fits] says what the runner
    relies on in a [SchedulerOutput].  [update_states_ok] combines the steps of
    [ModelRunnerSpec.v]. *)

From Stdlib Require Import QArith_base.
From S2P Require Import Prelude NumPy Request EncoderCache Scheduler BlockTable InputBatch InputBatchSpec ModelRunner ModelRunnerSpec.

Section Properties.
Context `{E : Env} `{T : Torch} `{SO : SetOrder} `{!SetOrderLaws SO}.
Context {features : Type}.
Implicit Types (s : ModelRunner (features := features)) (b : InputBatch).

(** ** Finished requests *)

Lemma forget_all ids : forall s, let s' := foldl (fun s id => forget id s) s ids in
  same_settings s s' /\ input_batch s' = input_batch s /\ output_lists s' = output_lists s /\ next_list s' = next_list s /\
  (forall id, mr_requests s' !! id = if decide (id ∈ ids) then None else mr_requests s !! id) /\
  (forall id, encoder_cache s' !! id = if decide (id ∈ ids) then None else encoder_cache s !! id).
Proof.
  induction ids as [|x ids IH]; intros s; cbn [foldl].
  - split_and!; try done; intros id; rewrite decide_False; try done; apply not_elem_of_nil.
  - destruct (IH (forget x s)) as (H1 & -> & -> & -> & H5 & H6). split; [done|]. split_and!; try done; intros id; rewrite ?H5, ?H6; cbn;
      (destruct (decide (id ∈ ids)) as [Hin|Hin]; [rewrite decide_True by (by right); done|]);
      (destruct (decide (id = x)) as [->|Hne]; [rewrite lookup_delete_eq, decide_True by left; done|]);
      rewrite lookup_delete_ne by done; rewrite decide_False by (by rewrite not_elem_of_cons); done.
Qed.

(** The output of input [i] of request [id], if it is cached. *)
Definition cached_output (c : gmap string (gmap nat features)) (id : string) (i : nat) : option features := m ← c !! id; m !! i.

Lemma free_encoder_output_ok c e id i : cached_output (free_encoder_output c e) id i = if decide (e = (id, i)) then None else cached_output c id i.
Proof.
  destruct e as [x j]. unfold cached_output, free_encoder_output. cbn. destruct (c !! x) as [m|] eqn:Ex.
  2: { case_decide as Ed; [|done]. injection Ed as -> ->. by rewrite Ex. }
  case_bool_decide as Em.
  - destruct (decide (id = x)) as [->|Hne].
    + rewrite lookup_delete_eq. cbn. rewrite Ex. cbn. case_decide as Ed; [done|]. assert (Hij : i <> j) by congruence.
      assert (H : delete j m !! i = m !! i) by (by rewrite lookup_delete_ne). rewrite <-H, Em. done.
    + rewrite lookup_delete_ne by done. rewrite decide_False by congruence. done.
  - destruct (decide (id = x)) as [->|Hne].
    + rewrite lookup_insert_eq. cbn. rewrite Ex. cbn. destruct (decide (i = j)) as [->|Hij].
      * rewrite lookup_delete_eq. by rewrite decide_True.
      * rewrite lookup_delete_ne by done. rewrite decide_False by congruence. done.
    + rewrite lookup_insert_ne by done. rewrite decide_False by congruence. done.
Qed.

Lemma free_encoder_outputs_ok l : forall c id i,
  cached_output (foldl free_encoder_output c l) id i = if decide ((id, i) ∈ l) then None else cached_output c id i.
Proof.
  induction l as [|e l IH]; intros c id i; cbn [foldl].
  - rewrite decide_False by apply not_elem_of_nil. done.
  - rewrite IH, free_encoder_output_ok. destruct (decide ((id, i) ∈ l)) as [Hin|Hin]; [rewrite decide_True by (by right); done|].
    destruct (decide (e = (id, i))) as [->|Hne]; [rewrite decide_True by left; done|]. rewrite decide_False; [done|]. rewrite not_elem_of_cons. naive_solver.
Qed.

(** ** The invariant, and what a step needs *)

Record runner_ok s : Prop := {
  ro_states : states_ok s;
  ro_compact : compact (input_batch s);
  ro_meta : meta_ok (input_batch s);
  ro_masks : reorders s = true -> allowed_token_ids_mask_cpu (input_batch s) = None /\ forall id q, mr_requests s !! id = Some q -> restricted q = false;
}.

Definition scheduled_ids (so : SchedulerOutput) : list string := (nr_req_id <$> scheduled_new_reqs so) ++ (cr_req_id <$> scheduled_cached_reqs so).

Record step_fits s (so : SchedulerOutput) : Prop := {
  sf_nodup : NoDup (scheduled_ids so);
  sf_scheduled : forall id, is_Some (num_scheduled_tokens so !! id) <-> id ∈ scheduled_ids so;
  sf_size : length (scheduled_ids so) <= max_num_reqs (input_batch s);
  sf_new : forall d, d ∈ scheduled_new_reqs so -> new_fits (input_batch s) d /\
    (InputBatch.req_id_to_index (input_batch s) !! nr_req_id d = None \/ nr_req_id d ∈ out_finished_req_ids so) /\
    (reorders s = true -> uses_allowed (sp_sampler (nr_sampling_params d)) = false);
  sf_cached : forall d, d ∈ scheduled_cached_reqs so -> cr_req_id d ∉ out_finished_req_ids so /\
    cached_fits (scheduled_spec_decode_tokens so) (input_batch s) (known s (cr_req_id d)) d;
}.

(** ** Removal *)

Lemma elem_list_set (x : string) (X : gset string) : x ∈ list_set X <-> x ∈ X.
Proof. rewrite (list_set_perm X). apply elem_of_elements. Qed.

Lemma NoDup_list_set (X : gset string) : NoDup (list_set X).
Proof. rewrite (list_set_perm X). apply NoDup_elements. Qed.

Lemma without_trans b1 b2 b3 l1 l2 : without b1 l1 b2 -> without b2 l2 b3 -> without b1 (l1 ++ l2) b3.
Proof.
  intros (D1 & I1 & C1 & M1) (D2 & I2 & C2 & M2). split; [by eapply same_dims_trans|]. split; [|split; [congruence|auto]].
  intros id i. rewrite I2, I1, not_elem_of_app. naive_solver.
Qed.

(** Both kinds of removal together. *)
Lemma remove_all_ok ls reqs b (finished scheduled : gset string) : batch_ok ls reqs b -> compact b ->
  exists b1 removed1 b2 removed, foldM remove_finished (b, []) (list_set finished) = Ok (b1, removed1) /\
    foldM remove_unscheduled (b1, removed1) (list_set (dom (InputBatch.req_id_to_index b1) ∖ scheduled)) = Ok (b2, removed) /\
    batch_ok ls reqs b2 /\ holes_are b2 removed /\ same_dims b b2 /\ counters b2 = counters b /\
    (allowed_token_ids_mask_cpu b = None -> allowed_token_ids_mask_cpu b2 = None) /\ (removed = [] -> b2 = b) /\
    forall id i, InputBatch.req_id_to_index b2 !! id = Some i <-> InputBatch.req_id_to_index b !! id = Some i /\ id ∉ finished /\ id ∈ scheduled.
Proof.
  intros Hb Hc. assert (Hh : holes_are b []).
  { split; [constructor|]. intros i. split; [intros H; by apply elem_of_nil in H|]. rewrite Hc. intros H. apply list_lookup_fmap_Some in H as (x & ? & _). done. }
  destruct (remove_finished_ok ls reqs (list_set finished) b [] Hb Hh) as (b1 & r1 & E1 & Hb1 & Hh1 & W1 & N1).
  destruct (remove_finished_ok ls reqs (list_set (dom (InputBatch.req_id_to_index b1) ∖ scheduled)) b1 r1 Hb1 Hh1) as (b2 & r2 & E2 & Hb2 & Hh2 & W2 & N2).
  exists b1, r1, b2, r2. split; [done|]. split.
  { rewrite remove_unscheduled_finished; [done|apply NoDup_list_set|]. intros id Hid. apply elem_list_set in Hid. apply elem_of_difference in Hid as [Hid _]. by apply elem_of_dom in Hid. }
  destruct (without_trans _ _ _ _ _ W1 W2) as (D & I & C & M). split; [done|]. split; [done|]. split; [done|]. split; [done|]. split; [done|]. split.
  - intros ->. rewrite N2 by done. rewrite N1; [done|]. destruct r1 as [|i r1]; [done|]. rewrite (N2 eq_refl) in Hh2. destruct Hh1 as [_ Hh1], Hh2 as [_ Hh2].
    assert (H : i ∈ ([] : list nat)); [|by apply elem_of_nil in H]. apply Hh2, Hh1. by left.
  - intros id i. rewrite I, not_elem_of_app, !elem_list_set. split.
    + intros (H1 & H2 & H3). split; [done|]. split; [done|]. destruct (decide (id ∈ scheduled)) as [|Hn]; [done|]. destruct H3. apply elem_of_difference. split; [|done].
      apply elem_of_dom. destruct W1 as (_ & I1 & _). exists i. apply I1. by rewrite elem_list_set.
    + intros (H1 & H2 & H3). split; [done|]. split; [done|]. rewrite elem_of_difference. naive_solver.
Qed.

(** The runner after the removals. *)
Definition after_removal s (finished : list string) (freed : list (string * nat)) b :=
  let s := foldl (fun s id => forget id s) s finished in
  set_batch b (set_encoder_cache (foldl free_encoder_output (encoder_cache s) freed) s).

Lemma after_removal_ok s (finished : gset string) freed b : states_ok s -> batch_ok (output_lists s) (mr_requests s) b -> same_dims (input_batch s) b ->
  (forall id, is_Some (InputBatch.req_id_to_index b !! id) -> id ∉ finished) ->
  let s' := after_removal s (list_set finished) freed b in
  states_ok s' /\ same_settings s s' /\ (forall id, known s' id = if decide (id ∈ finished) then None else known s id) /\
  (forall id i, cached_output (encoder_cache s') id i = if decide (id ∈ finished \/ (id, i) ∈ freed) then None else cached_output (encoder_cache s) id i).
Proof.
  intros Hs Hb Hd Hin s'. destruct (forget_all (list_set finished) s) as (H1 & H2 & H3 & H4 & H5 & H6).
  assert (Hr : forall id, mr_requests s' !! id = if decide (id ∈ finished) then None else mr_requests s !! id).
  { intros id. cbn. rewrite H5. destruct (decide (id ∈ finished)) as [Hf|Hf]; [rewrite decide_True by (by apply elem_list_set); done|].
    rewrite decide_False by (by rewrite elem_list_set). done. }
  assert (Hsub : forall id q, mr_requests s' !! id = Some q -> mr_requests s !! id = Some q) by (intros id q; rewrite Hr; by destruct (decide _)).
  assert (Ho : output_lists s' = output_lists s) by done. split; [|split; [exact H1|split]].
  - split; rewrite ?Ho.
    + eapply batch_frame; [exact Hb| |done]. intros id Hi. rewrite Hr. rewrite decide_False; [done|by apply Hin].
    + intros id q Hq%Hsub. by apply (st_id s Hs).
    + intros id q Hq%Hsub. change (next_list s') with (next_list (foldl (fun s id => forget id s) s (list_set finished))). rewrite H4. by apply (st_ref s Hs id).
    + intros id1 id2 q1 q2 Hq1%Hsub Hq2%Hsub. by apply (st_inj s Hs).
    + intros id q Hq%Hsub. eapply fits_same; [by apply (st_fits s Hs id)|done|done].
  - intros id. unfold known. rewrite Hr, Ho. by destruct (decide _).
  - intros id i. unfold s', after_removal. cbn. rewrite free_encoder_outputs_ok. unfold cached_output. rewrite H6.
    destruct (decide ((id, i) ∈ freed)) as [Hf|Hf]; [rewrite decide_True by (by right); done|].
    destruct (decide (id ∈ finished)) as [Hx|Hx].
    + rewrite !decide_True by first [by left | by apply elem_list_set]. done.
    + rewrite !decide_False by (rewrite ?elem_list_set; naive_solver). done.
Qed.

(** ** The cached states after a step *)

(** New requests have their data and no output, running ones have made progress,
    finished ones are gone, and the others are as before. *)
Record states_updated s (so : SchedulerOutput) s' : Prop := {
  su_new : forall d, d ∈ scheduled_new_reqs so -> exists q, known s' (nr_req_id d) = Some (q, []) /\ is_new d q;
  su_cached : forall d, d ∈ scheduled_cached_reqs so -> known s' (cr_req_id d) = after_step d <$> known s (cr_req_id d);
  su_other : forall id, id ∉ scheduled_ids so -> known s' id = if decide (id ∈ out_finished_req_ids so) then None else known s id;
}.

Lemma updated_restricted s so s' : step_fits s so -> runner_ok s -> states_updated s so s' -> reorders s = true ->
  forall id q, mr_requests s' !! id = Some q -> restricted q = false.
Proof.
  intros Hf Hr [H1 H2 H3] Hre id q Hq. destruct (ro_masks s Hr Hre) as [_ Hm]. assert (Hk : known s' id = Some (q, output_of (output_lists s') q)) by (by apply known_Some).
  destruct (decide (id ∈ nr_req_id <$> scheduled_new_reqs so)) as [Hn|Hn].
  { apply list_elem_of_fmap in Hn as (d & -> & Hd). destruct (H1 d Hd) as (q' & Eq & (_ & _ & _ & _ & Esp & _)). rewrite Hk in Eq. injection Eq as -> _.
    unfold restricted. rewrite Esp. by apply (sf_new s so Hf d Hd). }
  destruct (decide (id ∈ cr_req_id <$> scheduled_cached_reqs so)) as [Hc|Hc].
  { apply list_elem_of_fmap in Hc as (d & -> & Hd). rewrite (H2 d Hd) in Hk. apply fmap_Some in Hk as ([q0 o0] & Ek & Eq). injection Eq as -> _.
    apply known_Some in Ek as [Ek _]. exact (Hm (cr_req_id d) q0 Ek). }
  rewrite H3 in Hk by (unfold scheduled_ids; rewrite not_elem_of_app; done). destruct (decide _); [done|]. apply known_Some in Hk as [Hk _]. by apply (Hm id).
Qed.

Lemma absent_all b l : (forall id, id ∈ l -> InputBatch.req_id_to_index b !! id = None) -> absent b l = l.
Proof.
  unfold absent. induction l as [|x l IH]; intros H; [done|]. rewrite filter_cons_True by (apply H; by left). f_equal. apply IH. intros id Hid. apply H. by right.
Qed.

(** The steps that update the cached states. *)
Lemma states_step_ok s so b : runner_ok s -> step_fits s so -> batch_ok (output_lists s) (mr_requests s) b -> same_dims (input_batch s) b ->
  counters b = counters (input_batch s) ->
  (forall id i, InputBatch.req_id_to_index b !! id = Some i <->
    InputBatch.req_id_to_index (input_batch s) !! id = Some i /\ id ∉ out_finished_req_ids so /\ id ∈ dom (num_scheduled_tokens so)) ->
  exists s1 s2, foldM add_new (after_removal s (list_set (out_finished_req_ids so)) (free_encoder_input_ids so) b) (scheduled_new_reqs so) = Ok s1 /\
    foldM (update_cached (scheduled_spec_decode_tokens so)) (s1, nr_req_id <$> scheduled_new_reqs so) (scheduled_cached_reqs so) = Ok (s2, absent b (scheduled_ids so)) /\
    states_ok s2 /\ same_settings s s2 /\ same_places b (input_batch s2) /\ states_updated s so s2 /\
    (forall d, d ∈ scheduled_cached_reqs so -> is_Some (InputBatch.req_id_to_index b !! cr_req_id d) ->
      count_of (input_batch s2) (cr_req_id d) = Some (cr_num_computed_tokens d + Z.of_nat (length (new_token_ids d)))%Z) /\
    forall id i, cached_output (encoder_cache s2) id i =
      if decide (id ∈ out_finished_req_ids so \/ (id, i) ∈ free_encoder_input_ids so) then None else cached_output (encoder_cache s) id i.
Proof.
  intros Hr Hf Hb Hd Hcnt Hidx. pose proof (sf_nodup s so Hf) as (Hndn & Hdisj & Hndc)%NoDup_app.
  destruct (after_removal_ok s (out_finished_req_ids so) (free_encoder_input_ids so) b (ro_states s Hr) Hb Hd) as (Hs0 & Hset0 & Hk0 & Henc0).
  { intros id [i Hi]. by apply Hidx in Hi as (_ & ? & _). }
  set (s0 := after_removal s _ _ b) in *. change b with (input_batch s0) in Hidx, Hcnt, Hd, Hb. change (absent b) with (absent (input_batch s0)).
  assert (Hnew : forall d, d ∈ scheduled_new_reqs so -> InputBatch.req_id_to_index (input_batch s0) !! nr_req_id d = None /\ new_fits (input_batch s0) d).
  { intros d Hd1. destruct (sf_new s so Hf d Hd1) as ([F1 F2 F3 F4] & Hin & _). split.
    - apply eq_None_not_Some. intros [i Hi]. apply Hidx in Hi as (Hi & Hnf & _). destruct Hin; [congruence|done].
    - destruct Hd as (D1 & D2 & D3 & D4). split; rewrite ?D2, ?D3, ?D4; done. }
  destruct (add_all_ok (scheduled_new_reqs so) s0 Hs0 Hndn Hnew) as (s1 & E1 & Hs1 & Hset1 & Henc1 & Eb1 & Hother1 & Hk1).
  assert (Hnot : forall d, d ∈ scheduled_cached_reqs so -> cr_req_id d ∉ nr_req_id <$> scheduled_new_reqs so).
  { intros d Hd1 Hin. apply (Hdisj _ Hin). by apply list_elem_of_fmap_2. }
  assert (Hsame : forall d, d ∈ scheduled_cached_reqs so -> known s1 (cr_req_id d) = known s (cr_req_id d)).
  { intros d Hd1. rewrite Hother1, Hk0 by (by apply Hnot). rewrite decide_False; [done|]. by apply (sf_cached s so Hf d Hd1). }
  destruct (update_all_ok (scheduled_spec_decode_tokens so) (scheduled_cached_reqs so) s1 (nr_req_id <$> scheduled_new_reqs so) Hs1 Hndc)
    as (s2 & E2 & Hs2 & Hset2 & Henc2 & Hsp2 & Hother2 & Hk2).
  { intros d Hd1. rewrite Hsame, Eb1 by done. eapply cached_fits_frame; [by apply (sf_cached s so Hf d Hd1)|done|]. intros i Hi. apply Hidx in Hi as (Hi & _). by rewrite Hcnt. }
  exists s1, s2. split; [exact E1|]. split.
  { rewrite E2, Eb1. unfold scheduled_ids. rewrite absent_app. rewrite (absent_all _ (nr_req_id <$> scheduled_new_reqs so)); [done|].
    intros id (d & -> & Hd1)%list_elem_of_fmap. by apply Hnew. }
  split; [done|]. split; [eapply same_settings_trans; [exact Hset0|]; by eapply same_settings_trans|]. split; [change (same_places (input_batch s0) (input_batch s2)); by rewrite <-Eb1|]. split; [|split].
  - split.
    + intros d Hd1. destruct (Hk1 d Hd1) as (q & Eq & Hq). exists q. split; [|done]. rewrite (proj1 (Hother2 (nr_req_id d) (Hdisj _ (list_elem_of_fmap_2 _ _ _ Hd1)))). done.
    + intros d Hd1. by rewrite (proj1 (Hk2 d Hd1)), Hsame.
    + intros id [Hn Hc]%not_elem_of_app. rewrite (proj1 (Hother2 id Hc)), Hother1, Hk0 by done. done.
  - intros d Hd1 Hi. apply (Hk2 d Hd1). by rewrite Eb1.
  - intros id i. rewrite Henc2, Henc1. apply Henc0.
Qed.

(** ** The batch after a step *)

Lemma sort_sorted_holes b removed : holes_are b removed -> sorted_holes b (sort_nat removed).
Proof.
  intros [Hnd Hin]. split; [|intros i; by rewrite <-Hin, sort_nat_perm].
  assert (Hn : NoDup (sort_nat removed)) by (by rewrite sort_nat_perm). pose proof (sort_nat_sorted removed) as Hs. revert Hn Hs. generalize (sort_nat removed). clear.
  induction l as [|x l IH]; intros Hn Hs; [constructor|]. apply NoDup_cons in Hn as [Hx Hn]. apply StronglySorted_inv in Hs as [Hs Hle].
  constructor; [by apply IH|]. rewrite Forall_forall in *. intros y Hy. specialize (Hle y Hy). assert (x <> y) by (by intros ->). lia.
Qed.

(** But for the copy of the prompts, the metadata do not depend on the tokens. *)
Lemma meta_ok_same b b' : same_places b b' -> meta_ok b -> meta_ok b'.
Proof.
  intros ((D1 & D2 & D3 & D4) & H1 & H2 & H3 & H4 & H5 & H6 & H7 & H8 & H9 & H10) (p & mask & E1 & E2 & E3). exists p, mask.
  assert (Enum : num_reqs b' = num_reqs b) by (unfold num_reqs; by rewrite H2).
  assert (Em : device_mask b' = device_mask b) by (unfold device_mask, no_allowed_token_ids; by rewrite H4, H7, H9, Enum).
  assert (Ec : device_columns b' = device_columns b) by (unfold device_columns, all_greedy, no_top_p, no_top_k, no_min_p, no_penalties; rewrite H3, H4, H9, Enum; done).
  rewrite Em, Ec, H9, H10. split; [done|]. split; [done|]. rewrite E3.
  unfold metadata_of, all_greedy, all_random, no_top_p, no_top_k, no_min_p, max_num_logprobs, no_allowed_token_ids, no_penalties. rewrite H4, H5, H6, H8, Enum. done.
Qed.

Lemma place_requests_ok s ids removed (scheduled : gmap string Z) : states_ok s -> holes_are (input_batch s) removed -> NoDup ids ->
  (forall id, id ∈ ids -> is_Some (mr_requests s !! id) /\ InputBatch.req_id_to_index (input_batch s) !! id = None) ->
  num_reqs (input_batch s) + length ids <= max_num_reqs (input_batch s) ->
  (reorders s = true -> allowed_token_ids_mask_cpu (input_batch s) = None /\ forall id q, mr_requests s !! id = Some q -> restricted q = false) ->
  (forall id, is_Some (InputBatch.req_id_to_index (input_batch s) !! id) \/ id ∈ ids -> is_Some (scheduled !! id)) ->
  (removed = [] -> meta_ok (input_batch s)) ->
  exists b', place_requests s ids removed scheduled = Ok (set_batch b' s) /\ runner_ok (set_batch b' s) /\ same_dims (input_batch s) b' /\
    (forall id, is_Some (InputBatch.req_id_to_index b' !! id) <-> is_Some (InputBatch.req_id_to_index (input_batch s) !! id) \/ id ∈ ids) /\
    (reorders s = true -> decodes_first scheduled b') /\
    forall x, count_of b' x = if decide (x ∈ ids) then cs_num_tokens (output_lists s) <$> mr_requests s !! x else count_of (input_batch s) x.
Proof.
  intros Hs Hh Hnd Hin Hcap Hmask Hsched Hmeta. unfold place_requests.
  destruct (fill_places_ok ids s (sort_nat removed) Hs Hnd Hin (sort_sorted_holes _ _ Hh) Hcap) as (b1 & rest & E1 & Hb1 & Hd1 & Hh1 & Hdom1 & Em1 & Enil & Hcnt1).
  rewrite E1. cbn [mbind result_bind]. change (input_batch (set_batch b1 s)) with b1. change (reorders (set_batch b1 s)) with (reorders s).
  assert (Hcond : exists b2, (if bool_decide (rest = []) then Ok b1 else condense (reverse rest) b1) = Ok b2 /\ batch_ok (output_lists s) (mr_requests s) b2 /\
    same_dims b1 b2 /\ same_requests b1 b2 /\ compact b2 /\ (allowed_token_ids_mask_cpu b1 = None -> allowed_token_ids_mask_cpu b2 = None) /\ (rest = [] -> b2 = b1) /\ same_counts b1 b2).
  { case_bool_decide as Er.
    - exists b1. split_and!; try done. eapply no_holes_compact; [done|]. by rewrite <-Er.
    - destruct Hh1 as [Hsort Hholes]. destruct (condense_ok (output_lists s) (mr_requests s) b1 rest Hb1 Hsort Hholes) as (b2 & E2 & ?). exists b2.
      split; [exact E2|]. naive_solver. }
  destruct Hcond as (b2 & E2 & Hb2 & Hd2 & Hr2 & Hc2 & Em2 & Eb2 & Hcnt2). rewrite E2. cbn [mbind result_bind].
  destruct (reorder_batch_ok (output_lists s) (mr_requests s) (reorders s) scheduled b2 Hb2 Hc2) as (b3 & m & E3 & Hb3 & Hc3 & Hd3 & Hr3 & Em3 & Eb3 & Hcnt3 & Hdec).
  { intros Hre. destruct (Hmask Hre) as [Hm1 Hm2]. by apply Em2, Em1. }
  { intros id Hid. apply Hsched. by apply Hdom1, Hr2. }
  rewrite E3. cbn [mbind result_bind]. set (changed := bool_decide (removed <> []) || bool_decide (ids <> [])).
  assert (Hfin : exists b4, (if changed || m then refresh_sampling_metadata b3 else Ok b3) = Ok b4 /\ batch_ok (output_lists s) (mr_requests s) b4 /\ same_dims b3 b4 /\
    req_ids b4 = req_ids b3 /\ InputBatch.req_id_to_index b4 = InputBatch.req_id_to_index b3 /\ allowed_token_ids_mask_cpu b4 = allowed_token_ids_mask_cpu b3 /\ same_counts b3 b4 /\
    (changed || m = true -> meta_ok b4) /\ (changed || m = false -> b4 = b3)).
  { destruct (changed || m); [|exists b3; by split_and!]. destruct (refresh_ok (output_lists s) (mr_requests s) b3 Hb3) as (d & md & E4 & Hb4 & Hm4).
    exists (set_metadata d md b3). split_and!; done. }
  destruct Hfin as (b4 & E4 & Hb4 & Hd4 & Eids4 & Eidx4 & Em4 & Hcnt4 & Hmeta4 & Eb4). rewrite E4. cbn [mbind result_bind]. exists b4.
  assert (Hd : same_dims (input_batch s) b4) by (do 3 (eapply same_dims_trans; [eassumption|]); done).
  split; [done|]. split; [|split; [done|split; [|split]]].
  - split.
    + by apply set_batch_ok.
    + change (compact b4). unfold compact, ids_in in *. by rewrite Eids4.
    + change (meta_ok b4). destruct (changed || m) eqn:Ec; [by apply Hmeta4|]. apply orb_false_iff in Ec as [Ec ->].
      unfold changed in Ec. apply orb_false_iff in Ec as [Ec1 Ec2]. apply bool_decide_eq_false in Ec1, Ec2.
      assert (removed = []) as -> by (by destruct removed; [|destruct Ec1]). assert (ids = []) as -> by (by destruct ids; [|destruct Ec2]).
      destruct (Enil eq_refl) as [-> ->]. rewrite Eb4, Eb3, Eb2 in * by done. by apply Hmeta.
    + change (reorders s = true -> allowed_token_ids_mask_cpu b4 = None /\ forall id q, mr_requests s !! id = Some q -> restricted q = false).
      intros Hre. rewrite Em4. split; [by apply Em3|by apply Hmask].
  - intros id. rewrite Eidx4, (Hr3 id), (Hr2 id). apply Hdom1.
  - intros Hre. destruct (Hdec Hre) as [n Hn]. exists n. intros i id. unfold holds_id. rewrite Eids4. apply Hn.
  - intros x. by rewrite (Hcnt4 x), (Hcnt3 x), (Hcnt2 x), Hcnt1.
Qed.

Lemma elem_absent b l id : id ∈ absent b l <-> InputBatch.req_id_to_index b !! id = None /\ id ∈ l.
Proof. unfold absent. by rewrite list_elem_of_filter. Qed.

(** The requests in the batch and those to add are all among [l]. *)
Lemma absent_size b l : NoDup l -> (forall id, is_Some (InputBatch.req_id_to_index b !! id) -> id ∈ l) -> num_reqs b + length (absent b l) <= length l.
Proof.
  intros Hnd Hin. unfold num_reqs. rewrite <-size_dom. unfold size, set_size. cbn. rewrite <-length_app. apply submseteq_length, NoDup_submseteq.
  - apply NoDup_app. split; [apply NoDup_elements|]. split; [|by apply NoDup_filter]. intros x Hx%elem_of_elements%elem_of_dom Ha%elem_absent. destruct Ha as [Ha _]. rewrite Ha in Hx. by destruct Hx.
  - intros x [Hx%elem_of_elements%elem_of_dom|Ha%elem_absent]%elem_of_app; [by apply Hin|by apply Ha].
Qed.

Lemma scheduled_known s so s' : step_fits s so -> states_updated s so s' -> forall id, id ∈ scheduled_ids so -> is_Some (mr_requests s' !! id).
Proof.
  intros Hf [H1 H2 _] id [(d & -> & Hd)%list_elem_of_fmap|(d & -> & Hd)%list_elem_of_fmap]%elem_of_app.
  - destruct (H1 d Hd) as (q & Hq & _). apply known_Some in Hq as [Hq _]. by eexists.
  - destruct (sf_cached s so Hf d Hd) as (_ & [(q & out & Hk & _) _ _ _]). specialize (H2 d Hd). rewrite Hk in H2. apply known_Some in H2 as [Hq _]. by eexists.
Qed.

(** What [_update_states] does. *)
Record step_done s (so : SchedulerOutput) s' : Prop := {
  sd_ok : runner_ok s';
  sd_settings : same_settings s s' /\ same_dims (input_batch s) (input_batch s');
  sd_states : states_updated s so s';
  sd_batch : forall id, is_Some (InputBatch.req_id_to_index (input_batch s') !! id) <-> id ∈ scheduled_ids so;
  sd_order : reorders s = true -> decodes_first (num_scheduled_tokens so) (input_batch s');
  sd_running : forall d, d ∈ scheduled_cached_reqs so -> is_Some (InputBatch.req_id_to_index (input_batch s) !! cr_req_id d) ->
    count_of (input_batch s') (cr_req_id d) = Some (cr_num_computed_tokens d + Z.of_nat (length (new_token_ids d)))%Z;
  sd_added : forall id, id ∈ scheduled_ids so -> InputBatch.req_id_to_index (input_batch s) !! id = None \/ id ∈ out_finished_req_ids so ->
    count_of (input_batch s') id = cs_num_tokens (output_lists s') <$> mr_requests s' !! id;
  sd_encoder : forall id i, cached_output (encoder_cache s') id i =
    if decide (id ∈ out_finished_req_ids so \/ (id, i) ∈ free_encoder_input_ids so) then None else cached_output (encoder_cache s) id i;
}.

Lemma update_states_ok s so : runner_ok s -> step_fits s so -> exists s', update_states s so = Ok s' /\ step_done s so s'.
Proof.
  intros Hr Hf. destruct (forget_all (list_set (out_finished_req_ids so)) s) as (_ & Eb & _).
  destruct (remove_all_ok (output_lists s) (mr_requests s) (input_batch s) (out_finished_req_ids so) (dom (num_scheduled_tokens so)) (st_batch s (ro_states s Hr)) (ro_compact s Hr))
    as (b1 & r1 & b2 & removed & E1 & E2 & Hb2 & Hh2 & Hd2 & Ec2 & Em2 & Enil & Hidx).
  destruct (states_step_ok s so b2 Hr Hf Hb2 Hd2 Ec2 Hidx) as (s1 & s2 & E3 & E4 & Hs2 & Hset & Hsp & Hup & Hrun & Henc).
  unfold update_states. rewrite Eb, E1. cbn [mbind result_bind]. rewrite E2. cbn [mbind result_bind].
  pose proof Hsp as (Hdims & Eids & Eidx & _ & _ & _ & _ & Emask & _). assert (Hre : reorders s2 = reorders s) by apply Hset.
  assert (Hdom : forall id, is_Some (InputBatch.req_id_to_index (input_batch s2) !! id) -> id ∈ scheduled_ids so).
  { intros id [i Hi]. rewrite Eidx in Hi. apply Hidx in Hi as (_ & _ & Hi). apply (sf_scheduled s so Hf). by apply elem_of_dom. }
  rewrite <-(absent_same b2 (input_batch s2)) in E4 by done.
  destruct (place_requests_ok s2 (absent (input_batch s2) (scheduled_ids so)) removed (num_scheduled_tokens so) Hs2) as (b' & E5 & Hr' & Hd' & Hdom' & Hdec & Hcnt).
  - destruct Hh2 as [H1 H2]. split; [done|]. by rewrite Eids.
  - apply NoDup_filter, (sf_nodup s so Hf).
  - intros id [Ha Hin]%elem_absent. split; [|done]. by apply (scheduled_known s so s2).
  - destruct Hdims as (-> & _), Hd2 as (-> & _). etransitivity; [apply absent_size; [apply (sf_nodup s so Hf)|exact Hdom]|apply (sf_size s so Hf)].
  - rewrite Hre. intros Ht. split; [rewrite Emask; apply Em2; by apply (ro_masks s Hr)|by eapply updated_restricted].
  - intros id H. apply (sf_scheduled s so Hf). destruct H as [H|H]; [by apply Hdom|apply elem_absent in H; apply H].
  - intros ->. rewrite (Enil eq_refl) in Hsp. eapply meta_ok_same; [exact Hsp|apply (ro_meta s Hr)].
  - exists (set_batch b' s2). split.
    + unfold after_removal in E3. cbv zeta in E3 |- *. rewrite E3. cbn [mbind result_bind]. rewrite E4. cbn [mbind result_bind]. exact E5.
    + split; [done|split; [done|by do 2 (eapply same_dims_trans; [eassumption|])]|by destruct Hup; split| |by rewrite <-Hre| | |done].
      * intros id. cbn. rewrite Hdom', elem_absent. split; [intros [?|[_ ?]]; [by apply Hdom|done]|]. intros Hin.
        destruct (InputBatch.req_id_to_index (input_batch s2) !! id) eqn:Ex; [left; by eexists|by right].
      * intros d Hd1 [i Hi]. assert (Hi2 : InputBatch.req_id_to_index b2 !! cr_req_id d = Some i).
        { apply Hidx. split; [done|]. split; [by apply (sf_cached s so Hf d Hd1)|]. apply elem_of_dom, (sf_scheduled s so Hf), elem_of_app. right. by apply list_elem_of_fmap_2. }
        cbn. rewrite Hcnt, decide_False; [apply Hrun; [done|by eexists]|]. intros [Ha _]%elem_absent. rewrite Eidx in Ha. congruence.
      * intros id Hin Hno. cbn. rewrite Hcnt, decide_True; [done|]. apply elem_absent. split; [|done]. rewrite Eidx. apply eq_None_not_Some. intros [i Hi].
        apply Hidx in Hi as (Hi & Hnf & _). destruct Hno; [congruence|done].
Qed.
End Properties.
