(* ===== verification/ModelRunnerInputs.v ===== *)
(** * The inputs of the model

    The vectorised index arithmetic of [_prepare_inputs] computes, request by
    request, the tokens at the scheduled positions, the slots of the KV cache that
    belong to these positions, and the places of the logits; that of
    [_calc_spec_decode_metadata] finds the logits of every draft. *)

From Stdlib Require Import QArith_base.
From S2P Require Import Prelude NumPy Request EncoderCache Scheduler BlockTable InputBatch InputBatchSpec ModelRunner ModelRunnerSpec ModelRunnerProperties.

(** ** Arrays made of one piece per request *)

Lemma mjoin_cons {A} (l : list A) ls : mjoin (l :: ls) = l ++ mjoin ls.
Proof. done. Qed.

Section Pieces.
Context `{NP : NumPy} `{!NumPyLaws NP} {X : Type}.
Implicit Types L : list X.

Lemma mjoin_fmap_cons {A} (g : X -> list A) x L : mjoin (g <$> (x :: L)) = g x ++ mjoin (g <$> L).
Proof. done. Qed.

Lemma np_zip_ok {A B C} (f : A -> B -> C) l k : length l = length k -> np_zip f l k = Ok (zip_with f l k).
Proof. intros H. unfold np_zip. by rewrite H, Nat.eqb_refl. Qed.

Lemma zip_with_pieces {A B C} (f : A -> B -> C) (g : X -> list A) (h : X -> list B) L : (forall x, x ∈ L -> length (g x) = length (h x)) ->
  length (mjoin (g <$> L)) = length (mjoin (h <$> L)) /\
  zip_with f (mjoin (g <$> L)) (mjoin (h <$> L)) = mjoin ((fun x => zip_with f (g x) (h x)) <$> L).
Proof.
  induction L as [|x L IH]; intros H; [done|]. rewrite !mjoin_fmap_cons. destruct IH as [IH1 IH2]; [intros y Hy; apply H; by right|].
  assert (Hx : length (g x) = length (h x)) by (apply H; by left). rewrite !length_app. split; [lia|]. by rewrite zip_with_app, IH2.
Qed.

Lemma np_zip_pieces {A B C} (f : A -> B -> C) (g : X -> list A) (h : X -> list B) L : (forall x, x ∈ L -> length (g x) = length (h x)) ->
  np_zip f (mjoin (g <$> L)) (mjoin (h <$> L)) = Ok (mjoin ((fun x => zip_with f (g x) (h x)) <$> L)).
Proof. intros H. destruct (zip_with_pieces f g h L H) as [Hl He]. by rewrite np_zip_ok, He. Qed.

Lemma np_repeat_pieces {A} (a : X -> A) (k : X -> nat) L : np_repeat (a <$> L) (k <$> L) = mjoin ((fun x => replicate (k x) (a x)) <$> L).
Proof. rewrite np_repeat_eq by (by rewrite !length_fmap). induction L as [|x L IH]; [done|]. rewrite !fmap_cons, repeat_each_cons, mjoin_cons. by rewrite IH. Qed.

Lemma np_take_ok {A} (l : list A) indices xs : Forall2 (fun i x => (0 <= i)%Z /\ l !! Z.to_nat i = Some x) indices xs -> np_take l indices = Ok xs.
Proof.
  intros H. apply mapM_ok_Forall2. eapply Forall2_impl; [exact H|]. intros i x [Hi Hx]. cbn. rewrite (proj2 (Z.ltb_ge _ _)) by done. unfold np_get. by rewrite Hx.
Qed.

Lemma Forall2_pieces {A B} (R : A -> B -> Prop) (g : X -> list A) (h : X -> list B) L : (forall x, x ∈ L -> Forall2 R (g x) (h x)) ->
  Forall2 R (mjoin (g <$> L)) (mjoin (h <$> L)).
Proof.
  induction L as [|x L IH]; intros H; [constructor|]. rewrite !mjoin_fmap_cons. apply Forall2_app; [apply H; by left|]. apply IH. intros y Hy. apply H. by right.
Qed.

Lemma mjoin_pieces_ext {A} (g h : X -> list A) L : (forall x, x ∈ L -> g x = h x) -> mjoin (g <$> L) = mjoin (h <$> L).
Proof. induction L as [|x L IH]; intros H; [done|]. rewrite !mjoin_fmap_cons, (H x) by left. f_equal. apply IH. intros y Hy. apply H. by right. Qed.

Lemma fmap_pieces {A B} (f : A -> B) (g : X -> list A) L : f <$> mjoin (g <$> L) = mjoin ((fun x => f <$> g x) <$> L).
Proof. induction L as [|x L IH]; [done|]. rewrite !mjoin_fmap_cons, fmap_app. by rewrite IH. Qed.

Lemma length_pieces {A} (g : X -> list A) L : length (mjoin (g <$> L)) = sum_list ((fun x => length (g x)) <$> L).
Proof. induction L as [|x L IH]; [done|]. rewrite mjoin_fmap_cons, length_app, IH. done. Qed.
End Pieces.

(** The numbers within the pieces. *)
Lemma arange_from acc counts :
  length (repeat_each (zip_with (fun c n => Z.of_nat c - Z.of_nat n)%Z (cumsum_from acc counts) counts) counts) = sum_list counts /\
  zip_with Z.sub (Z.of_nat <$> seq acc (sum_list counts)) (repeat_each (zip_with (fun c n => Z.of_nat c - Z.of_nat n)%Z (cumsum_from acc counts) counts) counts) =
    mjoin ((fun k => Z.of_nat <$> seq 0 k) <$> counts).
Proof.
  revert acc. induction counts as [|k counts IH]; intros acc; [done|]. destruct (IH (acc + k)) as [IH1 IH2].
  change (repeat_each (zip_with (fun c n => Z.of_nat c - Z.of_nat n)%Z (cumsum_from acc (k :: counts)) (k :: counts)) (k :: counts))
    with (replicate k (Z.of_nat (acc + k) - Z.of_nat k)%Z ++
      repeat_each (zip_with (fun c n => Z.of_nat c - Z.of_nat n)%Z (cumsum_from (acc + k) counts) counts) counts).
  change (sum_list (k :: counts)) with (k + sum_list counts). rewrite length_app, length_replicate, IH1. split; [done|].
  rewrite seq_app, fmap_app, zip_with_app by (by rewrite length_fmap, length_seq, length_replicate). rewrite IH2, mjoin_fmap_cons. f_equal.
  apply list_eq. intros j. rewrite lookup_zip_with, !list_lookup_fmap. destruct (decide (j < k)) as [Hj|Hj].
  - rewrite !lookup_seq_lt, lookup_replicate_2 by done. cbn. f_equal. lia.
  - rewrite !lookup_seq_ge by lia. done.
Qed.

Lemma batched_arange_ok `{NP : NumPy} `{!NumPyLaws NP} counts total : total = sum_list counts ->
  batched_arange counts (cumsum counts) total = Ok (mjoin ((fun k => Z.of_nat <$> seq 0 k) <$> counts)).
Proof.
  intros ->. unfold batched_arange. rewrite np_repeat_eq by (rewrite length_zip_with, length_cumsum; lia). destruct (arange_from 0 counts) as [H1 H2].
  unfold cumsum. rewrite np_zip_ok; [by rewrite H2|]. by rewrite length_fmap, length_seq, H1.
Qed.

(** Rows of the same width, flattened. *)
Lemma lookup_flat {A} (width : nat) (rows : list (list A)) r p row : Forall (fun row => length row = width) rows -> rows !! r = Some row -> p < width ->
  mjoin rows !! (r * width + p) = row !! p.
Proof.
  intros Hw. revert r. induction Hw as [|x rows Hx Hw IH]; intros r Hr Hp; [done|]. cbn. destruct r as [|r]; cbn in Hr.
  - injection Hr as ->. cbn. rewrite lookup_app_l by lia. done.
  - rewrite lookup_app_r by lia. rewrite <-(IH r) by done. f_equal. lia.
Qed.

(** ** Indices relative to the ends of the pieces *)

Section Offsets.
Context {X : Type}.
Implicit Types (L : list X) (w a r : X -> nat).

(** For every piece, of width [w], the [r] indices from its [a]-th last on. *)
Definition from_ends_acc (acc : nat) w a r L : list Z :=
  zip_with Z.add (repeat_each (zip_with (fun c n => Z.of_nat c - Z.of_nat n)%Z (cumsum_from acc (w <$> L)) (a <$> L)) (r <$> L))
    (mjoin ((fun k => Z.of_nat <$> seq 0 k) <$> (r <$> L))).

Definition from_ends w a r L : list Z := from_ends_acc 0 w a r L.

Lemma from_ends_cons acc w a r x L : from_ends_acc acc w a r (x :: L) =
  ((fun t => Z.of_nat (acc + w x) - Z.of_nat (a x) + Z.of_nat t)%Z <$> seq 0 (r x)) ++ from_ends_acc (acc + w x) w a r L.
Proof.
  unfold from_ends_acc. rewrite !fmap_cons. cbn [cumsum_from zip_with]. rewrite repeat_each_cons, mjoin_cons.
  rewrite zip_with_app by (by rewrite length_replicate, length_fmap, length_seq). f_equal. rewrite zip_with_replicate_l by (by rewrite length_fmap, length_seq).
  by rewrite <-list_fmap_compose.
Qed.

Lemma length_offsets acc w a r L :
  length (repeat_each (zip_with (fun c n => Z.of_nat c - Z.of_nat n)%Z (cumsum_from acc (w <$> L)) (a <$> L)) (r <$> L)) =
  length (mjoin ((fun k => Z.of_nat <$> seq 0 k) <$> (r <$> L))).
Proof.
  revert acc. induction L as [|x L IH]; intros acc; [done|]. rewrite !fmap_cons. cbn [cumsum_from zip_with]. rewrite repeat_each_cons, mjoin_cons.
  rewrite !length_app, IH, length_replicate, length_fmap, length_seq. done.
Qed.

Lemma from_ends_spec {A} (g : X -> list A) w a r (e : nat) L : forall pre, (forall x, x ∈ L -> length (g x) = w x /\ a x <= w x /\ r x + e <= a x) ->
  Forall2 (fun i y => (0 <= Z.of_nat e + i)%Z /\ (pre ++ mjoin (g <$> L)) !! Z.to_nat (Z.of_nat e + i) = Some y)
    (from_ends_acc (length pre) w a r L) (mjoin ((fun x => take (r x) (drop (w x - a x + e) (g x))) <$> L)).
Proof.
  induction L as [|x L IH]; intros pre H; [constructor|]. rewrite from_ends_cons, mjoin_fmap_cons. destruct (H x) as (Hw & Ha & Hr); [by left|]. apply Forall2_app.
  - rewrite Forall2_fmap_l. apply Forall2_same_length_lookup_2; [rewrite length_seq, length_take, length_drop; lia|].
    intros t p y Ht Hy. apply lookup_seq in Ht as [-> Ht]. apply lookup_take_Some in Hy as [Hy _]. rewrite lookup_drop in Hy. split; [lia|].
    rewrite lookup_app_r by lia. pose proof (lookup_lt_Some _ _ _ Hy) as Hlt. rewrite lookup_app_l by lia. rewrite <-Hy. f_equal. lia.
  - rewrite <-Hw, <-length_app. eapply Forall2_impl; [apply (IH (pre ++ g x)); intros y Hy; apply H; by right|].
    intros i y. by rewrite <-app_assoc.
Qed.

Lemma np_take_from_ends {A} (g : X -> list A) w a r (e : nat) L : (forall x, x ∈ L -> length (g x) = w x /\ a x <= w x /\ r x + e <= a x) ->
  np_take (mjoin (g <$> L)) (Z.add (Z.of_nat e) <$> from_ends w a r L) = Ok (mjoin ((fun x => take (r x) (drop (w x - a x + e) (g x))) <$> L)).
Proof. intros H. apply np_take_ok. rewrite Forall2_fmap_l. apply (from_ends_spec g w a r e L [] H). Qed.

Lemma add_zero (l : list Z) : Z.add (Z.of_nat 0) <$> l = l.
Proof. induction l as [|x l IH]; [done|]. rewrite fmap_cons, IH. done. Qed.

(** The last index of every piece. *)
Lemma last_indices acc w L : (fun c => Z.of_nat c - 1)%Z <$> cumsum_from acc (w <$> L) = from_ends_acc acc w (fun _ => 1) (fun _ => 1) L.
Proof. revert acc. induction L as [|x L IH]; intros acc; [done|]. rewrite from_ends_cons, !fmap_cons. cbn [cumsum_from]. rewrite fmap_cons, IH. cbn. f_equal. lia. Qed.
End Offsets.

(** ** [_calc_spec_decode_metadata] *)

Section Drafts.
Context `{NP : NumPy} `{!NumPyLaws NP} {X : Type} (toks : X -> list Z) (drafts : X -> nat) (L : list X).
Hypothesis Hne : L <> [].
Hypothesis Hlen : forall x, x ∈ L -> drafts x < length (toks x).

Let sampled x := S (drafts x).

Lemma calc_spec_decode_metadata_ok : exists m,
  calc_spec_decode_metadata (mjoin (toks <$> L)) (drafts <$> L) (cumsum ((fun x => length (toks x)) <$> L)) = Ok m /\
  sd_logits_indices m = from_ends (fun x => length (toks x)) sampled sampled L /\
  target_logits_indices m = from_ends sampled sampled drafts L /\
  bonus_logits_indices m = from_ends sampled (fun _ => 1) (fun _ => 1) L /\
  draft_token_ids m = mjoin ((fun x => drop (length (toks x) - drafts x) (toks x)) <$> L) /\
  sd_num_draft_tokens m = drafts <$> L /\ cu_num_draft_tokens m = cumsum (drafts <$> L).
Proof.
  unfold calc_spec_decode_metadata. assert (Es : S <$> (drafts <$> L) = sampled <$> L) by (by rewrite <-list_fmap_compose). rewrite Es, !np_cumsum_eq.
  assert (Hnil : forall f : X -> nat, f <$> L <> []) by (intros f; by destruct L).
  rewrite last_cumsum by done. cbn [of_option mbind result_bind]. rewrite batched_arange_ok by done. cbn [mbind result_bind].
  rewrite np_zip_ok by (by rewrite length_cumsum, !length_fmap). cbn [mbind result_bind].
  rewrite np_repeat_eq by (rewrite length_zip_with, length_cumsum, !length_fmap; lia). rewrite np_zip_ok by apply length_offsets. cbn [mbind result_bind].
  rewrite last_cumsum by done. cbn [of_option mbind result_bind]. rewrite batched_arange_ok by done. cbn [mbind result_bind].
  rewrite np_zip_ok by (by rewrite length_cumsum, !length_fmap). cbn [mbind result_bind].
  rewrite np_repeat_eq by (rewrite length_zip_with, length_cumsum, !length_fmap; lia). rewrite np_zip_ok by apply length_offsets. cbn [mbind result_bind].
  change (zip_with Z.add (repeat_each _ (sampled <$> L)) _) with (from_ends (fun x => length (toks x)) sampled sampled L).
  change (zip_with Z.add (repeat_each _ (drafts <$> L)) _) with (from_ends sampled sampled drafts L).
  pose proof (np_take_from_ends toks (fun x => length (toks x)) sampled sampled 0 L) as E1. rewrite add_zero in E1. rewrite E1.
  2: { intros x Hx. specialize (Hlen x Hx). unfold sampled. lia. }
  cbn [mbind result_bind]. change 1%Z with (Z.of_nat 1). rewrite np_take_from_ends.
  2: { intros x Hx. specialize (Hlen x Hx). rewrite length_take, length_drop. unfold sampled. lia. }
  cbn [mbind result_bind]. eexists. split; [reflexivity|]. cbn. split_and!; try done; [by apply last_indices|].
  apply mjoin_pieces_ext. intros x Hx. specialize (Hlen x Hx). unfold sampled. rewrite Nat.sub_diag. cbn [Nat.add].
  rewrite (take_ge (drop _ (toks x))) by (rewrite length_drop; lia). rewrite drop_drop. rewrite take_ge by (rewrite length_drop; lia). f_equal. lia.
Qed.
End Drafts.

(** What the indices select. *)
Lemma spec_metadata_ok `{NP : NumPy} `{!NumPyLaws NP} {X A} (toks : X -> list Z) (drafts : X -> nat) (rows : X -> list A) (L : list X) : L <> [] ->
  (forall x, x ∈ L -> drafts x < length (toks x) /\ length (rows x) = S (drafts x)) ->
  exists m, calc_spec_decode_metadata (mjoin (toks <$> L)) (drafts <$> L) (cumsum ((fun x => length (toks x)) <$> L)) = Ok m /\
    np_take (mjoin (toks <$> L)) (sd_logits_indices m) = Ok (mjoin ((fun x => drop (length (toks x) - S (drafts x)) (toks x)) <$> L)) /\
    np_take (mjoin (rows <$> L)) (target_logits_indices m) = Ok (mjoin ((fun x => take (drafts x) (rows x)) <$> L)) /\
    np_take (mjoin (rows <$> L)) (bonus_logits_indices m) = Ok (mjoin ((fun x => drop (drafts x) (rows x)) <$> L)) /\
    draft_token_ids m = mjoin ((fun x => drop (length (toks x) - drafts x) (toks x)) <$> L) /\
    sd_num_draft_tokens m = drafts <$> L /\ cu_num_draft_tokens m = cumsum (drafts <$> L).
Proof.
  intros Hne H. destruct (calc_spec_decode_metadata_ok toks drafts L Hne) as (m & E1 & E0 & E2 & E3 & E4 & E5); [intros x Hx; by apply H|].
  exists m. split; [exact E1|]. rewrite E0, E2, E3. rewrite <-(add_zero (from_ends (fun x => length (toks x)) _ _ _)), <-(add_zero (from_ends _ _ drafts _)),
    <-(add_zero (from_ends _ (fun _ => 1) _ _)). rewrite !np_take_from_ends by (intros x Hx; destruct (H x Hx); lia).
  split; [|split; [|split; [|split; [exact E4|exact E5]]]]; f_equal; apply mjoin_pieces_ext; intros x Hx; destruct (H x Hx) as [H1 H2]; rewrite Nat.add_0_r.
  - apply take_ge. rewrite length_drop. lia.
  - by rewrite Nat.sub_diag.
  - rewrite take_ge by (rewrite length_drop; lia). f_equal. lia.
Qed.

Section Inputs.
Context `{E : Env} `{T : Torch} `{NP : NumPy} `{!NumPyLaws NP} `{SO : SetOrder} `{!SetOrderLaws SO}.
Context {features : Type}.
Implicit Types (s : ModelRunner (features := features)) (b : InputBatch).

(** ** The part of a request *)

Record Part := {
  pt_index : nat;
  pt_count : nat;
  pt_computed : nat;
  pt_row : list Z;
  pt_block_row : list nat;
}.

Implicit Types (L : list Part) (x : Part).

Definition pt_positions x : list nat := seq (pt_computed x) (pt_count x).

Lemma length_positions x : length (Z.of_nat <$> pt_positions x) = pt_count x.
Proof. unfold pt_positions. by rewrite length_fmap, length_seq. Qed.

Definition pt_tokens x : list Z := take (pt_count x) (drop (pt_computed x) (pt_row x)).
Definition pt_slot (bs : nat) x (p : nat) : Z := Z.of_nat (default 0 (pt_block_row x !! (p / bs)) * bs + p mod bs).

Record part_ok b (bs : nat) (i : nat) x : Prop := {
  pk_index : pt_index x = i;
  pk_computed : num_computed_tokens_cpu (counters b) !! i = Some (Z.of_nat (pt_computed x));
  pk_row : token_ids_cpu b !! i = Some (pt_row x);
  pk_block_row : block_table_np (table b) !! i = Some (pt_block_row x);
  pk_tokens : pt_computed x + pt_count x <= max_model_len b;
  pk_blocks : pt_computed x + pt_count x <= max_num_blocks_per_req (table b) * bs;
}.

(** The parts of all requests of the batch. *)
Definition parts_ok b bs L : Prop := length L = num_reqs b /\ forall i x, L !! i = Some x -> part_ok b bs i x.

Lemma parts_elem b bs L x : parts_ok b bs L -> x ∈ L -> part_ok b bs (pt_index x) x.
Proof. intros [_ H] [i Hi]%list_elem_of_lookup. pose proof (H i x Hi) as Hp. by rewrite (pk_index _ _ _ _ Hp). Qed.

Lemma parts_indices b bs L : parts_ok b bs L -> seq 0 (num_reqs b) = pt_index <$> L.
Proof.
  intros [Hl H]. rewrite <-Hl. apply list_eq. intros i. rewrite list_lookup_fmap. destruct (L !! i) as [x|] eqn:Ex; cbn.
  - rewrite (pk_index _ _ _ _ (H i x Ex)). apply lookup_seq_lt. by eapply lookup_lt_Some.
  - apply lookup_seq_ge. by apply lookup_ge_None.
Qed.

Definition req_indices_of L : list nat := mjoin ((fun x => replicate (pt_count x) (pt_index x)) <$> L).
Definition positions_of L : list Z := mjoin ((fun x => Z.of_nat <$> pt_positions x) <$> L).

Lemma parts_positions b bs L : parts_ok b bs L ->
  exists computed, np_take (num_computed_tokens_cpu (counters b)) (Z.of_nat <$> req_indices_of L) = Ok computed /\
    np_zip Z.add computed (mjoin ((fun k => Z.of_nat <$> seq 0 k) <$> (pt_count <$> L))) = Ok (positions_of L).
Proof.
  intros HL. exists (mjoin ((fun x => replicate (pt_count x) (Z.of_nat (pt_computed x))) <$> L)). split.
  - unfold req_indices_of. rewrite fmap_pieces. apply np_take_ok, Forall2_pieces. intros x Hx. rewrite fmap_replicate. apply Forall2_replicate.
    split; [lia|]. rewrite Nat2Z.id. apply (pk_computed _ _ _ _ (parts_elem b bs L x HL Hx)).
  - rewrite <-list_fmap_compose. unfold compose. rewrite np_zip_pieces by (intros x _; by rewrite length_replicate, length_fmap, length_seq). f_equal. apply mjoin_pieces_ext.
    intros x _. unfold compose. rewrite zip_with_replicate_l by (by rewrite length_fmap, length_seq). unfold pt_positions. apply list_eq. intros j. rewrite !list_lookup_fmap.
    destruct (decide (j < pt_count x)); [rewrite !lookup_seq_lt by done; cbn; f_equal; lia|by rewrite !lookup_seq_ge by lia].
Qed.

Lemma take_drop_lookup {A} (c k : nat) (row : list A) : c + k <= length row -> Forall2 (fun p y => row !! p = Some y) (seq c k) (take k (drop c row)).
Proof.
  revert c. induction k as [|k IH]; intros c Hl; [constructor|]. destruct (lookup_lt_is_Some_2 row c) as [y Ey]; [lia|]. cbn [seq]. rewrite (drop_S row y c Ey). cbn [take].
  constructor; [done|]. apply IH. lia.
Qed.

Lemma parts_tokens b bs L : parts_ok b bs L -> Forall (fun row => length row = max_model_len b) (token_ids_cpu b) ->
  exists indices, np_zip (fun p r => p + Z.of_nat r * Z.of_nat (max_model_len b))%Z (positions_of L) (req_indices_of L) = Ok indices /\
    np_take (mjoin (token_ids_cpu b)) indices = Ok (mjoin (pt_tokens <$> L)).
Proof.
  intros HL Hw. eexists. split; [apply np_zip_pieces; intros x _; by rewrite length_positions, length_replicate|].
  apply np_take_ok, Forall2_pieces. intros x Hx. destruct (parts_elem b bs L x HL Hx) as [_ _ Hrow _ Ht _].
  rewrite zip_with_replicate_r by (by rewrite length_positions). unfold pt_positions, pt_tokens. rewrite Forall2_fmap_l, Forall2_fmap_l.
  pose proof (Forall_lookup_1 _ _ _ _ Hw Hrow) as Hlen. cbn in Hlen.
  eapply Forall2_impl; [apply take_drop_lookup; lia|]. intros p y Hy. cbn. split; [lia|]. pose proof (lookup_lt_Some _ _ _ Hy) as Hp.
  rewrite <-Hy, <-(lookup_flat (max_model_len b) (token_ids_cpu b) (pt_index x) p (pt_row x)) by (done || lia). f_equal. lia.
Qed.

Lemma parts_slots b bs L : parts_ok b bs L -> table_ok (table b) -> 0 < bs ->
  exists indices numbers, np_zip (fun r p => Z.of_nat r * Z.of_nat (max_num_blocks_per_req (table b)) + p / Z.of_nat bs)%Z (req_indices_of L) (positions_of L) = Ok indices /\
    np_take (mjoin (block_table_np (table b))) indices = Ok numbers /\
    np_zip (fun k p => Z.of_nat k * Z.of_nat bs + p mod Z.of_nat bs)%Z numbers (positions_of L) = Ok (mjoin ((fun x => pt_slot bs x <$> pt_positions x) <$> L)).
Proof.
  intros HL Ht Hbs. do 2 eexists. split; [apply np_zip_pieces; intros x _; by rewrite length_positions, length_replicate|].
  split; [apply np_take_ok, (Forall2_pieces _ _ (fun x => (fun p => default 0 (pt_block_row x !! (p / bs))) <$> pt_positions x))|].
  - intros x Hx. destruct (parts_elem b bs L x HL Hx) as [_ _ _ Hrow _ Hb].
    rewrite zip_with_replicate_l by (by rewrite length_positions). unfold pt_positions. rewrite Forall2_fmap_l, Forall2_fmap_l, Forall2_fmap_r.
    pose proof (Forall_lookup_1 _ _ _ _ (to_width _ Ht) Hrow) as Hlen. cbn in Hlen.
    apply Forall_Forall2_diag, Forall_forall. intros p [Hp1 Hp2]%elem_of_seq. cbn. rewrite <-Nat2Z.inj_div. split; [lia|].
    assert (Hq : p / bs < max_num_blocks_per_req (table b)) by (apply Nat.Div0.div_lt_upper_bound; lia).
    destruct (lookup_lt_is_Some_2 (pt_block_row x) (p / bs)) as [k Ek]; [lia|]. rewrite Ek. cbn.
    rewrite <-Ek, <-(lookup_flat _ (block_table_np (table b)) (pt_index x) (p / bs) (pt_block_row x) (to_width _ Ht) Hrow) by lia. f_equal. lia.
  - unfold positions_of. rewrite np_zip_pieces by (intros x _; by rewrite !length_fmap). f_equal. apply mjoin_pieces_ext. intros x _.
    apply list_eq. intros j. rewrite lookup_zip_with, !list_lookup_fmap. destruct (pt_positions x !! j) as [p|]; [|done]. cbn. f_equal. unfold pt_slot.
    rewrite <-Nat2Z.inj_mod. lia.
Qed.

(** ** [_prepare_inputs] without drafts *)

Definition inputs_of (bs : nat) L : Inputs :=
  {| in_req_indices := req_indices_of L; in_positions := positions_of L; in_input_ids := mjoin (pt_tokens <$> L);
     in_slot_mapping := mjoin ((fun x => pt_slot bs x <$> pt_positions x) <$> L);
     in_query_start_loc := 0 :: cumsum (pt_count <$> L);
     in_seq_lens := (fun x => Z.of_nat (pt_computed x + pt_count x)) <$> L;
     in_max_query_len := foldr Z.max 0%Z ((fun x => Z.of_nat (pt_count x)) <$> L);
     in_logits_indices := (fun c => Z.of_nat c - 1)%Z <$> cumsum (pt_count <$> L);
     in_spec_decode_metadata := None |}.

Lemma parts_seq_lens b bs L : parts_ok b bs L -> num_reqs b <= length (num_computed_tokens_cpu (counters b)) ->
  np_zip (fun c k => c + k)%Z (take (num_reqs b) (num_computed_tokens_cpu (counters b))) ((fun x => Z.of_nat (pt_count x)) <$> L) =
    Ok ((fun x => Z.of_nat (pt_computed x + pt_count x)) <$> L).
Proof.
  intros [Hl H] Hn. rewrite np_zip_ok by (rewrite length_take, length_fmap; lia). f_equal. apply list_eq. intros i. rewrite lookup_zip_with, !list_lookup_fmap.
  destruct (L !! i) as [x|] eqn:Ex; cbn.
  - rewrite lookup_take_lt by (rewrite <-Hl; by eapply lookup_lt_Some). rewrite (pk_computed _ _ _ _ (H i x Ex)). cbn. f_equal. lia.
  - rewrite lookup_take_ge; [done|]. rewrite <-Hl. by apply lookup_ge_None.
Qed.

Lemma prepare_inputs_parts s so (bs : nat) L : let b := input_batch s in
  shape b -> parts_ok b bs L -> 0 < num_reqs b <= max_num_reqs b -> block_size s = Z.of_nat bs -> 0 < bs ->
  mapM_ok (fun id => id ← of_option KeyError id; of_option KeyError (num_scheduled_tokens so !! id)) (req_ids b) = Ok ((fun x => Z.of_nat (pt_count x)) <$> L) ->
  total_num_scheduled_tokens so = Z.of_nat (sum_list (pt_count <$> L)) -> 0 < sum_list (pt_count <$> L) <= max_num_tokens s ->
  scheduled_spec_decode_tokens so = ∅ ->
  exists s', prepare_inputs s so = Ok (s', inputs_of bs L) /\ mr_requests s' = mr_requests s /\ req_ids (input_batch s') = req_ids b /\
    table (input_batch s') = commit (num_reqs b) (table b).
Proof.
  intros b Hs HL Hn Ebs Hbs Etoks Etotal Hsum Espec. unfold prepare_inputs. fold b. rewrite Etotal, Nat2Z.id. rewrite (proj2 (Z.ltb_lt _ _)) by lia.
  rewrite (proj2 (Nat.ltb_lt _ _)) by lia. cbn [py_assert mbind result_bind]. rewrite Etoks. cbn [mbind result_bind].
  assert (Ecounts : Z.to_nat <$> ((fun x => Z.of_nat (pt_count x)) <$> L) = pt_count <$> L).
  { rewrite <-list_fmap_compose. apply list_fmap_ext. intros i x _. unfold compose. apply Nat2Z.id. }
  rewrite Ecounts, np_cumsum_eq, (parts_indices b bs L HL), np_repeat_pieces, batched_arange_ok by done. cbn [mbind result_bind]. fold (req_indices_of L).
  rewrite (proj2 (Nat.leb_le _ _)) by lia. cbn [mbind result_bind].
  destruct (parts_positions b bs L HL) as (computed & E1 & E2). rewrite E1. cbn [mbind result_bind]. rewrite E2. cbn [mbind result_bind].
  destruct (parts_tokens b bs L HL (sh_width b Hs)) as (i1 & E3 & E4). rewrite E3. cbn [mbind result_bind]. rewrite E4. cbn [mbind result_bind].
  destruct (parts_slots b bs L HL (sh_table b Hs) Hbs) as (i2 & numbers & E5 & E6 & E7). rewrite Ebs, E5. cbn [mbind result_bind]. rewrite E6. cbn [mbind result_bind].
  rewrite E7. cbn [mbind result_bind]. rewrite (parts_seq_lens b bs L HL) by (rewrite (cn_computed _ _ (sh_counts b Hs)); lia). cbn [mbind result_bind].
  rewrite Espec, bool_decide_eq_true_2 by done. cbn [mbind result_bind].
  eexists. split; [reflexivity|]. by split_and!.
Qed.

(** ** The same, by requests *)

(** The requests in the order of the batch. *)
Definition in_batch s : list CachedRequestState := omap (fun id => mr_requests s !! id) (ids_in (input_batch s)).

Definition computed (q : CachedRequestState) : nat := Z.to_nat (cs_num_computed_tokens q).
Definition scheduled (so : SchedulerOutput) (q : CachedRequestState) : nat := Z.to_nat (default 0%Z (num_scheduled_tokens so !! cs_req_id q)).

(** What the model should see of a request: the tokens from the first that is not
    computed, and where their keys and values go. *)
Definition step_positions so q : list nat := seq (computed q) (scheduled so q).
Definition step_tokens s so q : list Z := take (scheduled so q) (drop (computed q) (tokens_of (output_lists s) q)).
Definition step_slot (bs : nat) q (p : nat) : Z := Z.of_nat (default 0 (cs_block_ids q !! (p / bs)) * bs + p mod bs).

Record inputs_fit s so (bs : nat) : Prop := {
  if_size : block_size s = Z.of_nat bs /\ 0 < bs;
  if_requests : forall id q, is_Some (InputBatch.req_id_to_index (input_batch s) !! id) -> mr_requests s !! id = Some q ->
    exists k n : nat, num_scheduled_tokens so !! id = Some (Z.of_nat k) /\ (0 <= cs_num_computed_tokens q)%Z /\
      count_of (input_batch s) id = Some (Z.of_nat n) /\ computed q + k <= n /\ computed q + k <= length (cs_block_ids q) * bs;
  if_total : total_num_scheduled_tokens so = Z.of_nat (sum_list (scheduled so <$> in_batch s)) /\
    0 < sum_list (scheduled so <$> in_batch s) <= max_num_tokens s;
  if_drafts : scheduled_spec_decode_tokens so = ∅;
}.

Lemma lookup_omap_total {A B} (f : A -> option B) (l : list A) : (forall y, y ∈ l -> is_Some (f y)) -> forall i, omap f l !! i = l !! i ≫= f.
Proof.
  induction l as [|w l IH]; intros H i; [done|]. destruct (H w) as [y Ey]; [by left|]. cbn. rewrite Ey. destruct i as [|i]; cbn; [done|]. apply IH. intros z Hz. apply H. by right.
Qed.

Lemma in_batch_lookup s i : runner_ok s -> in_batch s !! i = ids_in (input_batch s) !! i ≫= (fun id => mr_requests s !! id).
Proof.
  intros Hr. apply lookup_omap_total. intros id [j Hj]%elem_ids_in. destruct (bo_places _ _ _ (st_batch s (ro_states s Hr)) j id Hj) as (q & Hq & _). by eexists.
Qed.

Lemma compact_holds b i id : compact b -> holds_id b i id <-> ids_in b !! i = Some id.
Proof. intros Hc. unfold holds_id. rewrite Hc, list_lookup_fmap. destruct (ids_in b !! i); cbn; split; congruence. Qed.

Lemma in_batch_ok s i q : runner_ok s -> in_batch s !! i = Some q <-> exists id, holds_id (input_batch s) i id /\ mr_requests s !! id = Some q.
Proof.
  intros Hr. rewrite in_batch_lookup by done. setoid_rewrite (compact_holds _ _ _ (ro_compact s Hr)). destruct (ids_in (input_batch s) !! i) as [id|]; cbn; [|naive_solver].
  split; [intros H; by exists id|]. by intros (? & [= <-] & ?).
Qed.

Lemma length_in_batch s : runner_ok s -> length (in_batch s) = num_reqs (input_batch s).
Proof.
  intros Hr. rewrite (size_index _ _ _ (st_batch s (ro_states s Hr))). apply Nat.le_antisymm.
  - apply lookup_ge_None. rewrite in_batch_lookup by done. by rewrite lookup_ge_None_2.
  - destruct (decide (length (ids_in (input_batch s)) <= length (in_batch s))) as [|H]; [done|]. exfalso.
    assert (Hn : in_batch s !! length (in_batch s) = None) by (by apply lookup_ge_None). rewrite in_batch_lookup in Hn by done.
    destruct (lookup_lt_is_Some_2 (ids_in (input_batch s)) (length (in_batch s))) as [id Hid]; [lia|]. rewrite Hid in Hn. cbn in Hn.
    apply (compact_holds _ _ _ (ro_compact s Hr)) in Hid. destruct (bo_places _ _ _ (st_batch s (ro_states s Hr)) _ _ Hid) as (q & Hq & _). congruence.
Qed.

(** The part of a request, read off its place. *)
Definition part_at s so (i : nat) (q : CachedRequestState) : Part :=
  {| pt_index := i; pt_count := scheduled so q; pt_computed := computed q; pt_row := default [] (token_ids_cpu (input_batch s) !! i);
     pt_block_row := default [] (block_table_np (table (input_batch s)) !! i) |}.

(** What the place of a request holds, in the terms above. *)
Lemma place_part s so bs i q : runner_ok s -> inputs_fit s so bs -> in_batch s !! i = Some q ->
  part_ok (input_batch s) bs i (part_at s so i q) /\ num_scheduled_tokens so !! cs_req_id q = Some (Z.of_nat (scheduled so q)) /\
  pt_tokens (part_at s so i q) = step_tokens s so q /\ (forall p, p < computed q + scheduled so q -> pt_slot bs (part_at s so i q) p = step_slot bs q p) /\
  row_blocks (table (input_batch s)) i = Some (cs_block_ids q) /\ req_ids (input_batch s) !! i = Some (Some (cs_req_id q)).
Proof.
  intros Hr Hf Hi. apply in_batch_ok in Hi as (id & Hi & Hq); [|done]. pose proof (st_batch s (ro_states s Hr)) as Hb. pose proof (bo_shape _ _ _ Hb) as Hs.
  destruct (bo_places _ _ _ Hb i id Hi) as (q0 & Hq0 & Eid & Hp). rewrite Hq in Hq0. injection Hq0 as <-. subst id. pose proof Hi as Hidx. apply (bo_index _ _ _ Hb) in Hidx.
  destruct (if_requests s so bs Hf (cs_req_id q) q) as (k & n & Ek & Hc & En & Hkn & Hkb); [by eexists|done|].
  assert (Esch : scheduled so q = k) by (unfold scheduled; rewrite Ek; cbn; lia). destruct (if_size s so bs Hf) as [_ Hbs].
  destruct (po_row _ _ _ _ _ Hp) as (row & n' & m & E1 & E2 & _ & Hn & Hm & Ht). cbn in E1, E2.
  assert (n' = n) as -> by (unfold count_of in En; rewrite Hidx in En; cbn in En; rewrite E2 in En; injection En; lia).
  pose proof (po_blocks _ _ _ _ _ Hp) as Eb. cbn in Eb. pose proof (po_counts _ _ _ _ _ Hp) as Ecnt. cbn in Ecnt. injection Ecnt as _ Ecnt.
  destruct (row_of (table (input_batch s)) i (sh_table _ Hs)) as (nb & brow & F1 & F2 & F3 & F4 & F5); [rewrite (sh_places _ Hs); by eapply holds_lt|].
  rewrite Eb in F5. injection F5 as F5. assert (Hlb : length (cs_block_ids q) = nb) by (rewrite F5, length_take; lia).
  split; [|split; [by rewrite Esch|split; [|split; [|split; [done|done]]]]].
  - split; cbn; rewrite ?Esch; [done| |by rewrite E1|by rewrite F2|lia|nia]. rewrite Ecnt. f_equal. unfold computed. lia.
  - unfold pt_tokens, step_tokens. cbn. rewrite Esch, E1. cbn. rewrite !take_drop_commute. f_equal. replace (computed q + k) with ((computed q + k) `min` n) by lia.
    rewrite <-!take_take. by rewrite Ht.
  - intros p Hlt. unfold pt_slot, step_slot. cbn. rewrite F2, F5. cbn. rewrite lookup_take_lt; [done|]. rewrite Esch in Hlt. apply Nat.Div0.div_lt_upper_bound. nia.
Qed.

(** The inputs, request by request. *)
Record inputs_are s so (bs : nat) s' (inp : Inputs) : Prop := {
  ia_positions : in_positions inp = mjoin ((fun q => Z.of_nat <$> step_positions so q) <$> in_batch s);
  ia_tokens : in_input_ids inp = mjoin (step_tokens s so <$> in_batch s);
  ia_slots : in_slot_mapping inp = mjoin ((fun q => step_slot bs q <$> step_positions so q) <$> in_batch s);
  ia_starts : in_query_start_loc inp = 0 :: cumsum (scheduled so <$> in_batch s);
  ia_seq_lens : in_seq_lens inp = (fun q => Z.of_nat (computed q + scheduled so q)) <$> in_batch s;
  ia_logits : in_logits_indices inp = (fun c => Z.of_nat c - 1)%Z <$> cumsum (scheduled so <$> in_batch s);
  ia_blocks : forall i q, in_batch s !! i = Some q -> exists row, block_table (table (input_batch s')) !! i = Some row /\ cs_block_ids q `prefix_of` row;
}.

(** Functions on parts that only depend on the request. *)
Lemma parts_fmap {A} s so (f : Part -> A) (g : CachedRequestState -> A) : (forall i q, in_batch s !! i = Some q -> f (part_at s so i q) = g q) ->
  f <$> imap (part_at s so) (in_batch s) = g <$> in_batch s.
Proof.
  intros H. apply list_eq. intros i. rewrite !list_lookup_fmap, list_lookup_imap. destruct (in_batch s !! i) as [q|] eqn:Eq; cbn; [|done]. by rewrite H.
Qed.

Lemma prepare_inputs_ok s so bs : runner_ok s -> inputs_fit s so bs -> exists s' inp, prepare_inputs s so = Ok (s', inp) /\ inputs_are s so bs s' inp.
Proof.
  intros Hr Hf. pose proof (st_batch s (ro_states s Hr)) as Hb. pose proof (bo_shape _ _ _ Hb) as Hs. destruct (if_size s so bs Hf) as [Ebs Hbs].
  set (L := imap (part_at s so) (in_batch s)).
  assert (Hpart : forall i x, L !! i = Some x -> exists q, in_batch s !! i = Some q /\ x = part_at s so i q).
  { intros i x Hx. unfold L in Hx. rewrite list_lookup_imap in Hx. apply fmap_Some in Hx as (q & Hq & ->). by exists q. }
  assert (HL : parts_ok (input_batch s) bs L).
  { split; [unfold L; rewrite length_imap; by apply length_in_batch|]. intros i x Hx. apply Hpart in Hx as (q & Hq & ->). by apply place_part. }
  assert (Ecnt : pt_count <$> L = scheduled so <$> in_batch s) by (by apply parts_fmap).
  destruct (if_total s so bs Hf) as [Etot Hsum].
  assert (Hpos : 0 < num_reqs (input_batch s)).
  { rewrite <-length_in_batch by done. destruct (in_batch s); [cbn in Hsum; lia|cbn; lia]. }
  assert (Hn : num_reqs (input_batch s) <= max_num_reqs (input_batch s)) by (by eapply num_reqs_le).
  destruct (prepare_inputs_parts s so bs L Hs HL (conj Hpos Hn) Ebs Hbs) as (s' & E1 & _ & _ & Et).
  - apply mapM_ok_Forall2. apply Forall2_same_length_lookup_2.
    { rewrite length_fmap. unfold L. rewrite length_imap, length_in_batch, (size_index _ _ _ Hb) by done. rewrite (ro_compact s Hr) at 1. apply length_fmap. }
    intros i o t Ho Ht. rewrite list_lookup_fmap in Ht. apply fmap_Some in Ht as (x & Hx & ->). apply Hpart in Hx as (q & Hq & ->).
    destruct (place_part s so bs i q Hr Hf Hq) as (_ & Esch & _ & _ & _ & Eid). rewrite Eid in Ho. injection Ho as <-. cbn. by rewrite Esch.
  - by rewrite Ecnt.
  - by rewrite Ecnt.
  - apply (if_drafts s so bs Hf).
  - exists s', (inputs_of bs L). split; [exact E1|]. split; cbn; rewrite ?Ecnt; try done.
    + unfold positions_of, L. f_equal. by apply parts_fmap.
    + unfold L. f_equal. apply parts_fmap. intros i q Hq. by apply (place_part s so bs i q Hr Hf).
    + unfold L. f_equal. apply parts_fmap. intros i q Hq. apply list_fmap_ext. intros j p Hp. apply (place_part s so bs i q Hr Hf Hq).
      apply list_elem_of_lookup_2, elem_of_seq in Hp as [_ Hp]. cbn in Hp. lia.
    + unfold L. by apply parts_fmap.
    + intros i q Hq. destruct (place_part s so bs i q Hr Hf Hq) as (_ & _ & _ & _ & Eb & _). rewrite Et. cbn.
      pose proof (lookup_lt_Some _ _ _ Hq) as Hlt. rewrite length_in_batch in Hlt by done.
      destruct (row_of (table (input_batch s)) i (sh_table _ Hs)) as (nb & brow & F1 & F2 & F3 & F4 & F5); [rewrite (sh_places _ Hs); lia|].
      exists brow. rewrite lookup_app_l by (rewrite length_take, (to_rows _ (sh_table _ Hs)), (sh_places _ Hs); lia). rewrite lookup_take_lt by done. split; [done|].
      rewrite Eb in F5. injection F5 as ->. apply prefix_take.
Qed.

(** ** A whole step *)

(** The number of tokens to compute for a request, by its id. *)
Definition scheduled_for (so : SchedulerOutput) (id : string) : nat := Z.to_nat (default 0%Z (num_scheduled_tokens so !! id)).

(** What the scheduler promises about the tokens and the blocks of a step without
    drafts. *)
Record step_runs s so (bs : nat) : Prop := {
  sr_size : block_size s = Z.of_nat bs /\ 0 < bs;
  sr_counts : forall id, id ∈ scheduled_ids so -> num_scheduled_tokens so !! id = Some (Z.of_nat (scheduled_for so id));
  sr_new : forall d, d ∈ scheduled_new_reqs so -> (0 <= nr_num_computed_tokens d)%Z /\
    Z.to_nat (nr_num_computed_tokens d) + scheduled_for so (nr_req_id d) <= length (nr_prompt_token_ids d) /\
    Z.to_nat (nr_num_computed_tokens d) + scheduled_for so (nr_req_id d) <= length (nr_block_ids d) * bs;
  sr_cached : forall d, d ∈ scheduled_cached_reqs so -> scheduled_for so (cr_req_id d) <= length (new_token_ids d) /\
    forall q out, after_step d <$> known s (cr_req_id d) = Some (q, out) ->
      Z.to_nat (cr_num_computed_tokens d) + scheduled_for so (cr_req_id d) <= length (cs_block_ids q) * bs;
  sr_total : total_num_scheduled_tokens so = Z.of_nat (sum_list (scheduled_for so <$> scheduled_ids so)) /\
    0 < sum_list (scheduled_for so <$> scheduled_ids so) <= max_num_tokens s;
  sr_drafts : scheduled_spec_decode_tokens so = ∅;
}.

Lemma ids_in_perm s so s' : step_fits s so -> step_done s so s' -> ids_in (input_batch s') ≡ₚ scheduled_ids so.
Proof.
  intros Hf Hd. pose proof (st_batch s' (ro_states s' (sd_ok _ _ _ Hd))) as Hb. apply NoDup_Permutation; [|apply (sf_nodup s so Hf)|].
  - apply NoDup_alt. intros i j id Hi Hj. apply (compact_holds _ _ _ (ro_compact s' (sd_ok _ _ _ Hd))) in Hi, Hj. by eapply holds_id_inj.
  - intros id. rewrite elem_ids_in, <-(sd_batch _ _ _ Hd id). split; intros [i Hi]; exists i; by apply (bo_index _ _ _ Hb).
Qed.

Lemma in_batch_ids s : runner_ok s -> cs_req_id <$> in_batch s = ids_in (input_batch s).
Proof.
  intros Hr. apply list_eq. intros i. rewrite list_lookup_fmap, in_batch_lookup by done. destruct (ids_in (input_batch s) !! i) as [id|] eqn:Ei; [|done]. cbn.
  apply (compact_holds _ _ _ (ro_compact s Hr)) in Ei. destruct (bo_places _ _ _ (st_batch s (ro_states s Hr)) _ _ Ei) as (q & -> & Hid & _). cbn. by rewrite Hid.
Qed.

Lemma step_inputs_fit s so bs s' : step_fits s so -> step_runs s so bs -> step_done s so s' -> inputs_fit s' so bs.
Proof.
  intros Hf [Hsize Hcounts Hnew Hcached [Htot Hsum] Hdrafts] Hd. destruct (sd_settings _ _ _ Hd) as ((B1 & B2 & B3) & _).
  assert (Esum : sum_list (scheduled so <$> in_batch s') = sum_list (scheduled_for so <$> scheduled_ids so)).
  { rewrite <-(ids_in_perm s so s' Hf Hd), <-(in_batch_ids s' (sd_ok _ _ _ Hd)), <-list_fmap_compose. done. }
  split; [by rewrite B1| |by rewrite Esum, B2|done].
  intros id q Hin Hq. apply (sd_batch _ _ _ Hd) in Hin as Hid. exists (scheduled_for so id).
  assert (Hk : known s' id = Some (q, output_of (output_lists s') q)) by (by apply known_Some).
  assert (Hcnt : num_scheduled_tokens so !! id = Some (Z.of_nat (scheduled_for so id))) by (by apply Hcounts).
  unfold scheduled_ids in Hid. apply elem_of_app in Hid as [Hid|Hid]; apply list_elem_of_fmap in Hid as (d & -> & Hd1).
  - destruct (su_new _ _ _ (sd_states _ _ _ Hd) d Hd1) as (q' & Ek & Hq'). rewrite Hk in Ek. injection Ek as -> Eout. destruct Hq' as (_ & Ep & _ & _ & _ & Eb & Ec & _).
    destruct (Hnew d Hd1) as (H1 & H2 & H3). exists (length (nr_prompt_token_ids d)). unfold computed. rewrite Ec, Eb. split; [done|]. split; [done|]. split; [|done].
    rewrite (sd_added _ _ _ Hd); [|unfold scheduled_ids; apply elem_of_app; left; by apply list_elem_of_fmap_2|by apply (sf_new s so Hf d Hd1)].
    rewrite Hq. cbn. unfold cs_num_tokens, cs_num_prompt_tokens. rewrite Eout, Ep. cbn. f_equal. lia.
  - pose proof (su_cached _ _ _ (sd_states _ _ _ Hd) d Hd1) as Ek. rewrite Hk in Ek. symmetry in Ek. destruct (Hcached d Hd1) as [H1 H2]. specialize (H2 _ _ Ek).
    destruct (sf_cached s so Hf d Hd1) as (Hnf & [(q0 & out0 & Eq0 & Hag & _) H0 _ _]). rewrite Eq0 in Ek. cbn in Ek. injection Ek as Eq Eout.
    assert (Ec : cs_num_computed_tokens q = cr_num_computed_tokens d) by (by rewrite <-Eq). unfold computed. rewrite Ec.
    destruct (InputBatch.req_id_to_index (input_batch s) !! cr_req_id d) as [i|] eqn:Ei.
    + exists (Z.to_nat (cr_num_computed_tokens d) + length (new_token_ids d)). split; [done|]. split; [done|]. split; [|split; [lia|done]].
      rewrite (sd_running _ _ _ Hd d Hd1) by (by eexists). f_equal. lia.
    + exists (length (tokens_of (output_lists s') q)). split; [done|]. split; [done|]. split; [|split; [|done]].
      * rewrite (sd_added _ _ _ Hd); [|unfold scheduled_ids; apply elem_of_app; right; by apply list_elem_of_fmap_2|by left]. rewrite Hq. cbn. by rewrite cs_num_tokens_length.
      * unfold tokens_of. rewrite <-Eout, <-Eq. cbn. rewrite app_assoc. rewrite (proj1 (lacking_ok _ _ _ Hag)). lia.
Qed.

Lemma step_inputs_ok s so bs : runner_ok s -> step_fits s so -> step_runs s so bs ->
  exists s1 s2 inp, update_states s so = Ok s1 /\ prepare_inputs s1 so = Ok (s2, inp) /\ step_done s so s1 /\ inputs_are s1 so bs s2 inp.
Proof.
  intros Hr Hf Hrun. destruct (update_states_ok s so Hr Hf) as (s1 & E1 & Hd). pose proof (step_inputs_fit s so bs s1 Hf Hrun Hd) as Hfit.
  destruct (prepare_inputs_ok s1 so bs (sd_ok _ _ _ Hd) Hfit) as (s2 & inp & E2 & Hin). by exists s1, s2, inp.
Qed.
End Inputs.
