(* ===== verification/ModelRunnerExecute.v ===== *)
(** * A whole step of the model runner

    [execute_model] of [vllm/v1/worker/gpu_model_runner.py] with
    [_get_prompt_logprobs_dict]: the steps of [ModelRunner.v] in their order.  What
    the devices compute - the forward pass, the sampler, log probabilities, the
    encoder - are parameters, as are the drafter and whether the model takes
    multi-modal inputs.  The transfer of KV caches, the padding of the inputs, the
    EAGLE drafter and the ranks of a pipeline other than the last are left out. *)

From Stdlib Require Import QArith_base.
From S2P Require Import Prelude NumPy Request EncoderCache Scheduler BlockTable InputBatch InputBatchSpec.
From S2P Require Import ModelRunner ModelRunnerSpec ModelRunnerProperties ModelRunnerInputs.

(** What a step gets from the devices. *)
Record SamplerOutput `{E : Env} := {
  so_sampled_token_ids : list (list Z);
  so_logprobs : option logprobs_lists;
}.

Class Device `{E : Env} (features : Type) := {
  is_multimodal_model : bool;
  encode : list (string * nat) -> list features;
  (** the drafter, when speculative decoding is on *)
  drafter : option (list Z -> result (option (list Z)));
  (** forward pass and sampler; the sampler's metadata are the batch's *)
  run_model : ModelRunner (features := features) -> Inputs -> list (features * Z * Z) -> option bitmask -> SamplerOutput;
  prompt_tensors : ModelRunner (features := features) -> string -> logprobs_tensors;
}.

(** The sampler draws one token per request where there are no drafts; the model
    is for text, and nothing is drafted. *)
Class TextDevice `{E : Env} {features : Type} (D : Device features) : Prop := {
  text_only : is_multimodal_model = false;
  no_drafter : drafter = None;
  samples_one : forall s inp embeds mask, in_spec_decode_metadata inp = None ->
    length (so_sampled_token_ids (run_model s inp embeds mask)) = length (in_logits_indices inp) /\
    Forall (fun row => length row = 1) (so_sampled_token_ids (run_model s inp embeds mask));
}.

Section Execute.
Context `{E : Env} `{T : Torch} `{NP : NumPy} `{SO : SetOrder}.
Context {features : Type} `{D : !Device features}.
Implicit Types (s : ModelRunner (features := features)) (b : InputBatch).

Definition EMPTY_MODEL_RUNNER_OUTPUT : ModelRunnerOutput :=
  {| Scheduler.req_id_to_index := ∅; sampled_token_ids := []; out_spec_token_ids := None; out_logprobs := None; prompt_logprobs_dict := ∅ |}.

Definition set_batch_sets (x : ReqSets) (b : InputBatch) : InputBatch :=
  {| max_num_reqs := max_num_reqs b; max_model_len := max_model_len b; vocab_size := vocab_size b;
     req_ids := req_ids b; InputBatch.req_id_to_index := InputBatch.req_id_to_index b; token_ids_cpu := token_ids_cpu b;
     counters := counters b; table := table b; columns := columns b; sets := x; dicts := dicts b; lora := lora b; logit_bias := logit_bias b;
     allowed_token_ids_mask_cpu := allowed_token_ids_mask_cpu b; req_output_token_ids := req_output_token_ids b;
     device := device b; sampling_metadata := sampling_metadata b |}.

Definition set_prompt_logprobs (wanted : gmap string Z) (in_progress : gset string) (x : ReqSets) : ReqSets :=
  {| greedy_reqs := greedy_reqs x; random_reqs := random_reqs x; top_p_reqs := top_p_reqs x; top_k_reqs := top_k_reqs x; min_p_reqs := min_p_reqs x;
     frequency_penalties_reqs := frequency_penalties_reqs x; presence_penalties_reqs := presence_penalties_reqs x;
     repetition_penalties_reqs := repetition_penalties_reqs x; has_allowed_token_ids := has_allowed_token_ids x;
     num_logprobs := num_logprobs x; num_prompt_logprobs := wanted; in_progress_prompt_logprobs := in_progress |}.

(** One request of the loop: the keys in progress, and the ids whose prompt is
    complete. *)
Definition prompt_logprobs_one s (so : SchedulerOutput) (a : gset string * list string) (id : string) : result (gset string * list string) :=
  let '(in_progress, completed) := a in
  num_tokens ← of_option KeyError (num_scheduled_tokens so !! id);
  request ← of_option KeyError (mr_requests s !! id);
  let num_prompt_tokens := cs_num_prompt_tokens request in
  _ ← (if bool_decide (id ∈ in_progress) then Ok tt else if (num_prompt_tokens =? 0)%Z then Err RuntimeError else Ok tt);
  let in_progress := in_progress ∪ {[id]} in
  let start_tok := (cs_num_computed_tokens request + 1)%Z in
  let num_remaining_tokens := (num_prompt_tokens - start_tok)%Z in
  let '(num_logits, completed) :=
    if (num_tokens <=? num_remaining_tokens)%Z then (num_tokens, completed) else (num_remaining_tokens, completed ++ [id]) in
  _ ← (if (num_logits <=? 0)%Z then Ok 0 else of_option KeyError (InputBatch.req_id_to_index (input_batch s) !! id));
  Ok (in_progress, completed).

(** [_get_prompt_logprobs_dict] *)
Definition get_prompt_logprobs_dict s (so : SchedulerOutput) : result (ModelRunner * gmap string (option logprobs_tensors)) :=
  let b := input_batch s in
  let wanted := num_prompt_logprobs (sets b) in
  if bool_decide (wanted = ∅) then Ok (s, ∅)
  else
    '(in_progress, completed) ← foldM (prompt_logprobs_one s so) (in_progress_prompt_logprobs (sets b), []) (map_to_list wanted).*1;
    let drop_all {A} (m : gmap string A) := foldl (fun m id => delete id m) m completed in
    Ok (set_batch (set_batch_sets (set_prompt_logprobs (drop_all wanted) (in_progress ∖ list_to_set completed) (sets b)) b) s,
        list_to_map ((fun id => (id, Some (prompt_tensors s id))) <$> completed)).

Definition execute_model s (so : SchedulerOutput) : result (ModelRunner * ModelRunnerOutput) :=
  s ← update_states s so;
  if (total_num_scheduled_tokens so =? 0)%Z then Ok (s, EMPTY_MODEL_RUNNER_OUTPUT)
  else
    '(s, inp) ← prepare_inputs s so;
    '(s, embeds) ←
      (if is_multimodal_model then
         s ← execute_mm_encoder encode (map_to_list (scheduled_encoder_inputs so)) s;
         embeds ← gather_mm_embeddings s so;
         Ok (s, embeds)
       else Ok (s, []));
    let o := run_model s inp embeds (out_grammar_bitmask so) in
    '(s, prompt_logprobs) ← get_prompt_logprobs_dict s so;
    valid ← valid_sampled_tokens s so (so_sampled_token_ids o);
    '(s, drafts) ←
      (match drafter with
       | None => Ok (s, None)
       | Some propose =>
           '(b, drafts) ← generate_draft_token_ids propose 0 valid (input_batch s);
           Ok (set_batch b s, Some drafts)
       end);
    Ok (s, {| Scheduler.req_id_to_index := InputBatch.req_id_to_index (input_batch s); sampled_token_ids := valid;
              out_spec_token_ids := drafts; out_logprobs := so_logprobs o; prompt_logprobs_dict := prompt_logprobs |}).

(** ** What a step returns *)

Context `{!TorchLaws T} `{!NumPyLaws NP} `{!SetOrderLaws SO} `{!TextDevice D}.

(** [s'] is [s], but for what is on the device. *)
Record same_runner s s' : Prop := {
  sn_ok : runner_ok s -> runner_ok s';
  sn_settings : same_settings s s' /\ same_dims (input_batch s) (input_batch s');
  sn_known : forall id, known s' id = known s id;
  sn_requests : mr_requests s' = mr_requests s;
  sn_index : InputBatch.req_id_to_index (input_batch s') = InputBatch.req_id_to_index (input_batch s);
  sn_ids : req_ids (input_batch s') = req_ids (input_batch s);
  sn_count : forall id, count_of (input_batch s') id = count_of (input_batch s) id;
  sn_sets : sets (input_batch s') = sets (input_batch s);
  sn_outputs : output_lists s' = output_lists s;
}.

Definition set_batch_table (t : BlockTable) (b : InputBatch) : InputBatch :=
  {| max_num_reqs := max_num_reqs b; max_model_len := max_model_len b; vocab_size := vocab_size b;
     req_ids := req_ids b; InputBatch.req_id_to_index := InputBatch.req_id_to_index b; token_ids_cpu := token_ids_cpu b;
     counters := counters b; table := t; columns := columns b; sets := sets b; dicts := dicts b; lora := lora b; logit_bias := logit_bias b;
     allowed_token_ids_mask_cpu := allowed_token_ids_mask_cpu b; req_output_token_ids := req_output_token_ids b;
     device := device b; sampling_metadata := sampling_metadata b |}.

Lemma same_runner_committed s n : same_runner s (set_batch (set_batch_table (commit n (table (input_batch s))) (input_batch s)) s).
Proof.
  split; try done. intros [Hs Hc Hm Hk]. split; [|done| |done].
  - apply set_batch_ok; [done| |done]. destruct (st_batch s Hs) as [[] H2 H3 H4 H5 H6]. split; try done. split; try done. by destruct sh_table.
  - destruct Hm as (p & mask & E1 & E2 & E3). by exists p, mask.
Qed.

Lemma prepare_inputs_frame s so s' inp : prepare_inputs s so = Ok (s', inp) -> scheduled_spec_decode_tokens so = ∅ ->
  same_runner s s' /\ in_spec_decode_metadata inp = None.
Proof.
  unfold prepare_inputs. cbv zeta. intros H Hsp. do 13 (apply bind_ok in H as (? & _ & H)). apply bind_ok in H as (spec & Es & H).
  rewrite bool_decide_true in Es by done. injection Es as <-. injection H as <- <-. split; [|done]. apply same_runner_committed.
Qed.

(** Nobody asked for the log probabilities of a prompt. *)
Definition no_prompt_logprobs s : Prop := forall id q, mr_requests s !! id = Some q -> prompt_logprobs (cs_sampling_params q) = None.

Lemma no_prompt_logprobs_set s : runner_ok s -> no_prompt_logprobs s -> num_prompt_logprobs (sets (input_batch s)) = ∅.
Proof.
  intros Hr Hn. apply map_empty. intros id. pose proof (f_equal snd (bo_sets _ _ _ (st_batch s (ro_states s Hr)) id)) as Hs.
  unfold wanted_sets in Hs. cbn in Hs. destruct (InputBatch.req_id_to_index (input_batch s) !! id) as [i|]; [|exact Hs].
  destruct (mr_requests s !! id) as [q|] eqn:Eq; [|exact Hs]. cbn in Hs. by rewrite (Hn id q Eq) in Hs.
Qed.

(** The row of a request: nothing while its known tokens are not all computed,
    one token afterwards. *)
Definition answered s (so : SchedulerOutput) (id : string) (row : list Z) : Prop :=
  exists q out, known s id = Some (q, out) /\
    if (cs_num_computed_tokens q + default 0 (num_scheduled_tokens so !! id) <? Z.of_nat (length (cs_prompt_token_ids q ++ out)))%Z
    then row = [] else exists t, row = [t].

Lemma mapM_ok_exists {A B} (f : A -> result B) l : (forall x, x ∈ l -> exists y, f x = Ok y) -> exists k, mapM_ok f l = Ok k.
Proof.
  intros H. enough (exists k, Forall2 (fun x y => f x = Ok y) l k) as [k Hk] by (exists k; by apply mapM_ok_Forall2).
  induction l as [|x l IH]; [exists []; constructor|]. destruct (H x ltac:(by left)) as [y Hy].
  destruct IH as [k Hk]; [intros z Hz; apply H; by right|]. exists (y :: k). by constructor.
Qed.

Lemma valid_tokens_rows s so rows : runner_ok s -> length rows = num_reqs (input_batch s) -> Forall (fun row => length row = 1) rows ->
  (forall id, is_Some (InputBatch.req_id_to_index (input_batch s) !! id) -> is_Some (num_scheduled_tokens so !! id)) ->
  exists valid, valid_sampled_tokens s so rows = Ok valid /\
    forall id i, InputBatch.req_id_to_index (input_batch s) !! id = Some i -> exists row, valid !! i = Some row /\ answered s so id row.
Proof.
  intros Hr Hlen Hone Hsched. pose proof (st_batch s (ro_states s Hr)) as Hb. unfold valid_sampled_tokens.
  assert (Hn : num_reqs (input_batch s) = length (req_ids (input_batch s))).
  { rewrite (size_index _ _ _ Hb), (ro_compact s Hr) at 1. by rewrite length_fmap. }
  assert (Hdis : exists discard, mapM_ok (partial_prefill s so) (req_ids (input_batch s)) = Ok discard).
  { apply mapM_ok_exists. intros o Ho. rewrite (ro_compact s Hr) in Ho. apply list_elem_of_fmap in Ho as (id & -> & Hid).
    apply list_elem_of_lookup in Hid as [i Hi]. apply (compact_holds _ _ _ (ro_compact s Hr)) in Hi.
    destruct (bo_places _ _ _ Hb i id Hi) as (q & Hq & _). apply (bo_index _ _ _ Hb) in Hi. destruct (Hsched id) as [n Hs]; [by eexists|].
    unfold partial_prefill. cbn [of_option mbind result_bind]. rewrite Hq. cbn [of_option mbind result_bind]. rewrite Hs. by eexists. }
  destruct Hdis as [discard Ed]. rewrite Ed. cbn [mbind result_bind]. apply mapM_ok_Forall2 in Ed. pose proof (Forall2_length _ _ _ Ed) as Hld.
  assert (Hgen : match rows with [] => 1 | row :: _ => length row end = 1) by (destruct Hone; done). rewrite Hgen. cbn [Nat.eqb].
  rewrite (proj2 (Nat.leb_le _ _)) by lia. cbn [mbind result_bind]. rewrite drop_ge, app_nil_r by lia. eexists. split; [done|].
  intros id i Hi. apply (bo_index _ _ _ Hb) in Hi as Hh. destruct (bo_places _ _ _ Hb i id Hh) as (q & Hq & _).
  destruct (Forall2_lookup_l _ _ _ _ _ Ed Hh) as (d & Hd & Hp). destruct (Hsched id) as [n Hs]; [by eexists|].
  destruct (lookup_lt_is_Some_2 rows i) as [row Erow]; [apply lookup_lt_Some in Hh; lia|].
  exists (if d then [] else row). split; [by rewrite lookup_zip_with, Hd; cbn; rewrite Erow|].
  exists q, (output_of (output_lists s) q). split; [by apply known_Some|]. unfold partial_prefill in Hp. cbn [of_option mbind result_bind] in Hp.
  rewrite Hq in Hp. cbn [of_option mbind result_bind] in Hp. rewrite Hs in Hp. cbn [of_option mbind result_bind] in Hp. injection Hp as <-.
  rewrite Hs, cs_num_tokens_length. change (default 0%Z (Some n)) with n. unfold tokens_of.
  assert (Hl : exists t, row = [t]).
  { pose proof (Forall_lookup_1 _ _ _ _ Hone Erow) as Hl. destruct row as [|t [|? ?]]; try done. by exists t. }
  match goal with |- if ?c then _ else _ => by destruct c end.
Qed.

(** What a step of a text model without drafts returns, and leaves behind. *)
Record executed s (so : SchedulerOutput) s1 s' (mro : ModelRunnerOutput) : Prop := {
  ex_done : step_done s so s1;
  ex_same : same_runner s1 s';
  ex_drafts : out_spec_token_ids mro = None;
  ex_prompt : prompt_logprobs_dict mro = ∅;
  ex_index : Scheduler.req_id_to_index mro = InputBatch.req_id_to_index (input_batch s') \/ total_num_scheduled_tokens so = 0%Z;
  ex_rows : forall id, id ∈ scheduled_ids so -> total_num_scheduled_tokens so <> 0%Z ->
    exists i row, Scheduler.req_id_to_index mro !! id = Some i /\ sampled_token_ids mro !! i = Some row /\ answered s' so id row;
}.

Lemma same_runner_refl s : same_runner s s.
Proof. by split. Qed.

Lemma execute_idle s so : runner_ok s -> step_fits s so -> total_num_scheduled_tokens so = 0%Z ->
  exists s1 mro, execute_model s so = Ok (s1, mro) /\ executed s so s1 s1 mro.
Proof.
  intros Hr Hf Ht. destruct (update_states_ok s so Hr Hf) as (s1 & E1 & Hd). unfold execute_model. rewrite E1. cbn [mbind result_bind].
  rewrite Ht. cbn [Z.eqb]. do 2 eexists. split; [done|]. split; try done; [by right].
Qed.

Lemma execute_runs s so bs : runner_ok s -> step_fits s so -> step_runs s so bs ->
  (forall s1, step_done s so s1 -> no_prompt_logprobs s1) ->
  exists s1 s2 s' inp mro, execute_model s so = Ok (s', mro) /\ executed s so s1 s' mro /\ update_states s so = Ok s1 /\
    prepare_inputs s1 so = Ok (s2, inp) /\ inputs_are s1 so bs s2 inp.
Proof.
  intros Hr Hf Hrun Hlp. destruct (step_inputs_ok s so bs Hr Hf Hrun) as (s1 & s2 & inp & E1 & E2 & Hd & Hin).
  destruct (prepare_inputs_frame s1 so s2 inp E2 (sr_drafts _ _ _ Hrun)) as [Hsame Hspec]. specialize (Hlp s1 Hd).
  pose proof (sd_ok _ _ _ Hd) as Hr1. pose proof (sn_ok _ _ Hsame Hr1) as Hr2. destruct (sr_total _ _ _ Hrun) as [Htot Hpos].
  assert (Hsched : forall id, is_Some (InputBatch.req_id_to_index (input_batch s2) !! id) -> is_Some (num_scheduled_tokens so !! id)).
  { intros id. rewrite (sn_index _ _ Hsame), (sd_batch _ _ _ Hd id). apply (sf_scheduled _ _ Hf). }
  destruct (samples_one (TextDevice := TextDevice0) s2 inp [] (out_grammar_bitmask so) Hspec) as [Hlen Hone].
  set (rows := so_sampled_token_ids (run_model s2 inp [] (out_grammar_bitmask so))) in *.
  assert (Hrows : length rows = num_reqs (input_batch s2)).
  { rewrite Hlen, (ia_logits _ _ _ _ _ Hin), length_fmap, length_cumsum, length_fmap, (length_in_batch s1 Hr1).
    unfold num_reqs. by rewrite (sn_index _ _ Hsame). }
  destruct (valid_tokens_rows s2 so rows Hr2 Hrows Hone Hsched) as (valid & Ev & Hvalid).
  assert (Hlp2 : get_prompt_logprobs_dict s2 so = Ok (s2, ∅)).
  { unfold get_prompt_logprobs_dict. rewrite bool_decide_true; [done|]. apply no_prompt_logprobs_set; [done|]. intros id q. rewrite (sn_requests _ _ Hsame). apply Hlp. }
  exists s1, s2, s2, inp. eexists. split.
  { unfold execute_model. rewrite E1. cbn [mbind result_bind]. rewrite (proj2 (Z.eqb_neq _ _)) by lia. rewrite E2. cbn [mbind result_bind].
    rewrite text_only. cbn [mbind result_bind]. rewrite Hlp2. cbn [mbind result_bind]. fold rows. rewrite Ev. cbn [mbind result_bind].
    rewrite no_drafter. cbn [mbind result_bind]. reflexivity. }
  split; [|done]. split; try done; cbn; [by left|]. intros id Hid _. apply (sd_batch _ _ _ Hd) in Hid as [i Hi]. rewrite <-(sn_index _ _ Hsame) in Hi.
  destruct (Hvalid id i Hi) as (row & Erow & Ha). by exists i, row.
Qed.
End Execute.
