(* ===== verification/ModelRunnerTheorems.v ===== *)
(** * Theorems about the model runner

    A step updates the cached states as the scheduler means it, keeps one place
    per scheduled request, hands every request's parameters to the sampler, and
    gathers exactly the tokens and slots of the scheduled positions.  At the end,
    concrete runs where the batch does not do what it seems to mean. *)

From Stdlib Require Import QArith_base.
From S2P Require Import Prelude NumPy Request EncoderCache Scheduler BlockTable InputBatch InputBatchSpec ModelRunner ModelRunnerSpec ModelRunnerProperties ModelRunnerInputs.

Section Theorems.
Context `{E : Env} `{T : Torch} `{!TorchLaws T} `{NP : NumPy} `{!NumPyLaws NP} `{SO : SetOrder} `{!SetOrderLaws SO}.
Context {features : Type}.
Implicit Types (s : ModelRunner (features := features)).

(** A new runner satisfies the invariant. *)
Lemma model_runner_init_ok (bs max_len max_tokens max_reqs : nat) vocab r : 0 < bs ->
  exists s, model_runner_init bs max_len max_tokens max_reqs vocab r = Ok s /\ runner_ok s /\ max_num_reqs (input_batch s) = max_reqs /\
    block_size s = Z.of_nat bs /\ max_num_tokens s = max_tokens /\ (forall id, known s id = None) /\ req_ids (input_batch s) = [].
Proof.
  intros Hbs. unfold model_runner_init. rewrite cdiv_ok by lia. cbn [mbind result_bind].
  destruct (input_batch_init_ok max_reqs max_len (Z.to_nat ((Z.of_nat max_len + Z.of_nat bs - 1) / Z.of_nat bs)) vocab)
    as (b & E1 & Hb & Hc & Hm & H1 & H2 & H3 & H4 & H5 & H6). rewrite E1. cbn [mbind result_bind].
  eexists. split; [reflexivity|]. split; [|split_and!; try done; intros id; apply lookup_empty].
  split; cbn; [split; cbn; try done; intros; by rewrite lookup_empty in *|done|done|done].
Qed.

(** [_update_states] succeeds on every scheduler output that fits the state of
    the runner, keeps the runner's invariant (one place per request; every array,
    set and dict agrees with the request that has the place), and does what the
    output says: new requests start without output, running ones have the new
    tokens, blocks and progress, finished ones are gone; the batch then has exactly
    the scheduled requests, decodes first if the backend wants that, and the encoder
    outputs to free are freed. *)
Theorem update_states_correct s so : runner_ok s -> step_fits s so -> exists s', update_states s so = Ok s' /\ step_done s so s'.
Proof. apply update_states_ok. Qed.

(** C6: After [_update_states], [_prepare_inputs] gathers for every scheduled request
    exactly the tokens at its scheduled positions, in the order of the batch, the
    slots of the request's own blocks at these positions, the sequence lengths, and
    the place of the last logits; the block table on the device starts with the
    blocks of every request. *)
Theorem step_inputs_correct s so bs : runner_ok s -> step_fits s so -> step_runs s so bs ->
  exists s1 s2 inp, update_states s so = Ok s1 /\ prepare_inputs s1 so = Ok (s2, inp) /\ step_done s so s1 /\ inputs_are s1 so bs s2 inp.
Proof. apply step_inputs_ok. Qed.

(** After [_update_states], whether or not the sampling metadata were rebuilt,
    the sampler finds at the place of every request of the batch the parameters of
    this request; what is left out because no request uses it is not used by the
    request. *)
Theorem sampling_metadata_correct s so : runner_ok s -> step_fits s so -> exists s', update_states s so = Ok s' /\
  forall i id, holds_id (input_batch s') i id -> exists q, mr_requests s' !! id = Some q /\
    sampled_as (sampling_metadata (input_batch s')) i (vocab_size (input_batch s')) q.
Proof.
  intros Hr Hf. destruct (update_states_ok s so Hr Hf) as (s' & E1 & Hd). exists s'. split; [done|]. intros i id Hi. destruct (sd_ok _ _ _ Hd) as [Hst Hc Hm _].
  exact (metadata_sampled _ _ _ _ _ (st_batch s' Hst) Hc Hm Hi).
Qed.

Lemma foldr_min_le c l x : x ∈ c :: l -> (foldr Z.min c l <= x)%Z.
Proof.
  revert x. induction l as [|y l IH]; intros x Hx; cbn; [apply list_elem_of_singleton in Hx as ->; lia|].
  apply elem_of_cons in Hx as [->|[->|Hx]%elem_of_cons]; [|lia|]; (etransitivity; [apply Z.le_min_r|apply IH]); [by left|by right].
Qed.

(** The common prefix of cascade attention consists of whole blocks that all
    requests share and have computed. *)
Lemma cascade_prefix_ok use_cascade s n blocks p (bs : Z) : block_size s = bs -> (0 < bs)%Z ->
  compute_cascade_attn_prefix_len use_cascade s n blocks = Ok p -> (0 <= blocks)%Z -> p = 0%Z \/
  (use_cascade p = true /\ (p mod bs = 0)%Z /\ (p <= blocks * bs)%Z /\ forall c, c ∈ take n (num_computed_tokens_cpu (counters (input_batch s))) -> (p <= c)%Z).
Proof.
  intros Ebs Hbs H Hblocks. unfold compute_cascade_attn_prefix_len in H. rewrite Ebs in H. destruct (Z.eqb_spec (blocks * bs) 0) as [|Hne]; [left; by injection H|].
  apply bind_ok in H as (least & El & H). rewrite py_floordiv_ok in H by lia. cbn [mbind result_bind] in H. destruct (use_cascade _) eqn:Eu; [|left; by injection H].
  injection H as <-. right. split; [done|]. pose proof (Z.mul_div_le (Z.min (blocks * bs) least) bs Hbs). split; [by apply Z_mod_mult|]. split; [lia|].
  intros c Hc. destruct (take n _) as [|x l]; [done|]. injection El as <-. pose proof (foldr_min_le x l c Hc). lia.
Qed.

(** Nothing is returned for a request whose prompt is not complete. *)
Lemma valid_tokens_ok s so rows out : valid_sampled_tokens s so rows = Ok out -> length (req_ids (input_batch s)) = length rows ->
  length out = length rows /\ forall i id, req_ids (input_batch s) !! i = Some (Some id) -> partial_prefill s so (Some id) = Ok true -> out !! i = Some [].
Proof.
  intros H Hl. unfold valid_sampled_tokens in H. apply bind_ok in H as (discard & Ed & H). apply mapM_ok_Forall2 in Ed. pose proof (Forall2_length _ _ _ Ed) as Hd.
  set (valid := if _ =? 1 then rows else _) in H. assert (Hv : length valid = length rows) by (unfold valid, parse_output; destruct (_ =? 1); by rewrite ?length_fmap).
  rewrite (proj2 (Nat.leb_le _ _)) in H by lia. cbn [mbind result_bind] in H. rewrite drop_ge, app_nil_r in H by lia. injection H as <-.
  split; [rewrite length_zip_with; lia|]. intros i id Hi Hp. destruct (Forall2_lookup_l _ _ _ _ _ Ed Hi) as (d & Hd2 & Hpd). rewrite Hp in Hpd. injection Hpd as <-.
  rewrite lookup_zip_with, Hd2. cbn. destruct (lookup_lt_is_Some_2 valid i) as [v Ev]; [apply lookup_lt_Some in Hi; lia|]. by rewrite Ev.
Qed.
End Theorems.

(** The metadata for draft tokens: of every request, the logits of its last
    [drafts + 1] tokens are taken; among these, the target logits are all but the
    last and the bonus logits the last; and the draft ids are the request's last
    [drafts] tokens. *)
Theorem calc_spec_decode_metadata_correct `{NP : NumPy} `{!NumPyLaws NP} {X A} (toks : X -> list Z) (drafts : X -> nat) (rows : X -> list A) (L : list X) : L <> [] ->
  (forall x, x ∈ L -> drafts x < length (toks x) /\ length (rows x) = S (drafts x)) ->
  exists m, calc_spec_decode_metadata (mjoin (toks <$> L)) (drafts <$> L) (cumsum ((fun x => length (toks x)) <$> L)) = Ok m /\
    np_take (mjoin (toks <$> L)) (sd_logits_indices m) = Ok (mjoin ((fun x => drop (length (toks x) - S (drafts x)) (toks x)) <$> L)) /\
    np_take (mjoin (rows <$> L)) (target_logits_indices m) = Ok (mjoin ((fun x => take (drafts x) (rows x)) <$> L)) /\
    np_take (mjoin (rows <$> L)) (bonus_logits_indices m) = Ok (mjoin ((fun x => drop (drafts x) (rows x)) <$> L)) /\
    draft_token_ids m = mjoin ((fun x => drop (length (toks x) - drafts x) (toks x)) <$> L).
Proof.
  intros Hne H. destruct (spec_metadata_ok toks drafts rows L Hne H) as (m & E1 & E2 & E3 & E4 & E5 & _). by exists m.
Qed.

(** ** A runner for the witnesses *)

#[local] Instance demo_env : Env := {|
  connector_state := unit; connector_meta := unit; bitmask := unit; logprobs_lists := unit;
  logprobs_tensors := unit; hash_fn := fun _ => 7%Z; NONE_HASH := 0%Z; set_order := elements;
  logprobs_slice := fun l _ _ => l; grammar_bitmask := fun _ _ _ => None;
  get_num_new_matched_tokens := fun _ _ _ => 0%Z; update_state_after_alloc := fun c _ _ => c |}.

#[local] Instance demo_torch : Torch := {| single := fun x => x; empty_floats := fun n => replicate n 0%Q; empty_ints := fun n => replicate n 0%Z |}.

#[local] Instance demo_torch_laws : TorchLaws demo_torch.
Proof. split; intros; apply length_replicate. Qed.

#[local] Instance demo_numpy : NumPy := {| np_repeat := fun A => repeat_each; np_cumsum := cumsum |}.

#[local] Instance demo_numpy_laws : NumPyLaws demo_numpy.
Proof. by split. Qed.

#[local] Instance demo_order : SetOrder := {| list_set := elements |}.

#[local] Instance demo_order_laws : SetOrderLaws demo_order.
Proof. by split. Qed.

(** The value of a computation that succeeds. *)
Definition run {A : Type} (x : result A) : match x return Type with Ok _ => A | Err _ => unit end := match x with Ok a => a | Err _ => tt end.

(** Two places, blocks of two tokens, requests of at most eight tokens. *)
Definition demo_runner : ModelRunner (features := nat) := run (model_runner_init 2 8 16 2 100 true).

Definition demo_params (lb : option (gmap Z Q)) : SamplingParams :=
  {| sp_max_tokens := None; guided_decoding := false; ignore_eos := false; stop_token_ids := []; prompt_logprobs := None; sp_logprobs := None;
     sp_sampler := {| temperature := 1; top_p := 1; top_k := 5; min_p := 0; frequency_penalty := 0; presence_penalty := 0;
       repetition_penalty := 1; sp_min_tokens := 0; sp_seed := Some 3%Z; all_stop_token_ids := ∅; sp_logit_bias := lb;
       allowed_token_ids := []; sp_bad_words_token_ids := [] |} |}.

Definition demo_new (id : string) (prompt : list Z) (blocks : list nat) (p : SamplingParams) : NewRequestData :=
  {| nr_req_id := id; nr_prompt_token_ids := prompt; nr_mm_inputs := 0; nr_mm_hashes := []; nr_mm_positions := []; nr_sampling_params := p;
     nr_block_ids := blocks; nr_num_computed_tokens := 0; nr_lora_request := None |}.

Definition demo_step (new : list NewRequestData) (cached : list CachedRequestData) (tokens : gmap string Z) (total : Z) (finished : gset string) : SchedulerOutput :=
  {| scheduled_new_reqs := new; scheduled_cached_reqs := cached; num_scheduled_tokens := tokens; total_num_scheduled_tokens := total;
     scheduled_spec_decode_tokens := ∅; scheduled_encoder_inputs := ∅; num_common_prefix_blocks := 0; out_finished_req_ids := finished;
     free_encoder_input_ids := []; structured_output_request_ids := ∅; out_grammar_bitmask := None |}.

(** Two new requests. *)
Definition demo_first : SchedulerOutput :=
  demo_step [demo_new "a" [5; 6; 7]%Z [1; 2] (demo_params None); demo_new "b" [8; 9]%Z [3] (demo_params None)] [] {["a" := 3%Z; "b" := 2%Z]} 5 ∅.

(** One of them is finished, the other goes on with a sampled token, and a third
    arrives. *)
Definition demo_second : SchedulerOutput :=
  demo_step [demo_new "c" [4; 4]%Z [3] (demo_params None)]
    [{| cr_req_id := "b"; resumed_from_preemption := false; new_token_ids := [11]%Z; new_block_ids := [4]; cr_num_computed_tokens := 2 |}]
    {["b" := 1%Z; "c" := 2%Z]} 3 {["a"]}.

Definition demo_runner1 : ModelRunner (features := nat) := run (update_states demo_runner demo_first).

Lemma Ok_eq {A} (a b : A) : Ok a = Ok b -> a = b.
Proof. by intros [= ->]. Qed.

Lemma demo_runner_eq : model_runner_init 2 8 16 2 100 true = Ok demo_runner.
Proof. by vm_compute. Qed.

Lemma demo_runner1_eq : update_states demo_runner demo_first = Ok demo_runner1.
Proof. by vm_compute. Qed.

Lemma demo_runner_ok : runner_ok demo_runner.
Proof. destruct (model_runner_init_ok (features := nat) 2 8 16 2 100 true ltac:(lia)) as (s & E1 & Hs & _). rewrite demo_runner_eq in E1. by injection E1 as ->. Qed.

Lemma scheduled_dom (so : SchedulerOutput) : dom (num_scheduled_tokens so) = list_to_set (C := gset string) (scheduled_ids so) ->
  forall id, is_Some (num_scheduled_tokens so !! id) <-> id ∈ scheduled_ids so.
Proof. intros H id. by rewrite <-elem_of_dom, H, elem_of_list_to_set. Qed.

Lemma demo_first_fits : step_fits demo_runner demo_first.
Proof.
  split.
  - by apply (bool_decide_unpack _); vm_compute.
  - by apply scheduled_dom.
  - vm_compute. lia.
  - intros d [->|[->|?%elem_of_nil]%elem_of_cons]%elem_of_cons; [| |done]; (split; [split; vm_compute; [lia|lia|done|by eexists]|split; [by left|done]]).
  - intros d ?%elem_of_nil. done.
Qed.

Lemma demo_runner1_ok : runner_ok demo_runner1.
Proof.
  destruct (update_states_ok demo_runner demo_first demo_runner_ok demo_first_fits) as (s & E1 & Hd). rewrite demo_runner1_eq in E1. apply Ok_eq in E1 as <-. apply Hd.
Qed.

Lemma demo_second_fits : step_fits demo_runner1 demo_second.
Proof.
  split.
  - by apply (bool_decide_unpack _); vm_compute.
  - by apply scheduled_dom.
  - vm_compute. lia.
  - intros d [->|?%elem_of_nil]%elem_of_cons; [|done]. split; [split; vm_compute; [lia|lia|done|by eexists]|]. split; [by left|done].
  - intros d [->|?%elem_of_nil]%elem_of_cons; [|done]. split; [by apply (bool_decide_unpack _); vm_compute|]. split.
    + do 2 eexists. split; [vm_compute; reflexivity|]. split; [split; [vm_compute; lia|left; exists [11]%Z; reflexivity]|vm_compute; lia].
    + vm_compute. done.
    + vm_compute. lia.
    + intros i Hi. vm_compute in Hi. injection Hi as <-. split; [done|]. exists 2. split; [done|vm_compute; lia].
Qed.

Lemma update_states_correct_witness : exists s', update_states demo_runner1 demo_second = Ok s' /\ step_done demo_runner1 demo_second s' /\
  known s' "a" = None /\ req_ids (input_batch s') = [Some "b"; Some "c"].
Proof.
  destruct (update_states_correct demo_runner1 demo_second demo_runner1_ok demo_second_fits) as (s' & E1 & Hd). exists s'. split; [exact E1|]. split; [exact Hd|].
  vm_compute in E1. apply Ok_eq in E1 as <-. split; vm_compute; reflexivity.
Defined.

Lemma sampling_metadata_correct_witness : exists s', update_states demo_runner1 demo_second = Ok s' /\
  exists q, mr_requests s' !! "c" = Some q /\ sampled_as (sampling_metadata (input_batch s')) 1 100 q.
Proof.
  destruct (sampling_metadata_correct demo_runner1 demo_second demo_runner1_ok demo_second_fits) as (s' & E1 & Hs). exists s'. split; [exact E1|].
  vm_compute in E1. apply Ok_eq in E1 as <-. exact (Hs 1 "c" eq_refl).
Defined.

Lemma demo_second_runs : step_runs demo_runner1 demo_second 2.
Proof.
  split.
  - split; [done|lia].
  - intros id [->|[->|?%elem_of_nil]%elem_of_cons]%elem_of_cons; done.
  - intros d [->|?%elem_of_nil]%elem_of_cons; [|done]. split; [done|vm_compute; lia].
  - intros d [->|?%elem_of_nil]%elem_of_cons; [|done]. split; [vm_compute; lia|]. intros q out Hq. vm_compute in Hq. injection Hq as <- <-. vm_compute. lia.
  - split; [done|vm_compute; lia].
  - done.
Qed.

(** The model gets the new token of one request and the prompt of the other. *)
Lemma step_inputs_correct_witness : exists s1 s2 inp, update_states demo_runner1 demo_second = Ok s1 /\ prepare_inputs s1 demo_second = Ok (s2, inp) /\
  inputs_are s1 demo_second 2 s2 inp /\ in_input_ids inp = [11; 4; 4]%Z /\ in_slot_mapping inp = [8; 6; 7]%Z.
Proof.
  destruct (step_inputs_correct demo_runner1 demo_second 2 demo_runner1_ok demo_second_fits demo_second_runs) as (s1 & s2 & inp & E1 & E2 & _ & H).
  exists s1, s2, inp. split; [exact E1|]. split; [exact E2|]. split; [exact H|]. vm_compute in E1. apply Ok_eq in E1 as <-. vm_compute in E2. injection E2 as _ <-. done.
Defined.

Lemma calc_spec_decode_metadata_correct_witness : exists m, calc_spec_decode_metadata [1; 2; 3; 105; 7; 8]%Z [3; 0] [4; 6] = Ok m /\
  draft_token_ids m = [2; 3; 105]%Z /\ np_take [10; 20; 30; 40; 50]%Z (bonus_logits_indices m) = Ok [40; 50]%Z.
Proof.
  destruct (calc_spec_decode_metadata_correct (fun x : list Z * nat * list Z => x.1.1) (fun x => x.1.2) (fun x => x.2)
    [([1; 2; 3; 105]%Z, 3, [10; 20; 30; 40]%Z); ([7; 8]%Z, 0, [50]%Z)]) as (m & E1 & _ & _ & E2 & E3); [done| |by exists m].
  intros x [->|[->|?%elem_of_nil]%elem_of_cons]%elem_of_cons; cbn; [lia|lia|done].
Defined.

(** ** Runs where the batch keeps too much or too little *)

Definition demo_start (r : bool) : result (ModelRunner (features := nat)) := model_runner_init 2 8 16 2 100 r.

Definition demo_steps (r : bool) (steps : list SchedulerOutput) : result (ModelRunner (features := nat)) := s ← demo_start r; foldM update_states s steps.

Definition demo_go (id : string) (computed : Z) (toks : list Z) : CachedRequestData :=
  {| cr_req_id := id; resumed_from_preemption := false; new_token_ids := toks; new_block_ids := []; cr_num_computed_tokens := computed |}.

Definition demo_bias : gmap Z Q := {[7%Z := 1%Q]}.

(** A request with a logit bias moves to an earlier place; the next request at its
    old place, which has none, is sampled with the bias that was left there. *)
Lemma logit_bias_inherited : exists s q,
  demo_steps false
    [demo_step [demo_new "a" [5]%Z [1] (demo_params None); demo_new "b" [8]%Z [2] (demo_params (Some demo_bias))] [] {["a" := 1%Z; "b" := 1%Z]} 2 ∅;
     demo_step [] [demo_go "b" 1 [9]%Z] {["b" := 1%Z]} 1 {["a"]};
     demo_step [demo_new "c" [4]%Z [3] (demo_params None)] [demo_go "b" 2 [9]%Z] {["b" := 1%Z; "c" := 1%Z]} 2 ∅] = Ok s /\
  req_ids (input_batch s) = [Some "b"; Some "c"] /\ mr_requests s !! "c" = Some q /\
  sp_logit_bias (sp_sampler (cs_sampling_params q)) = None /\ m_logit_bias (sampling_metadata (input_batch s)) = [Some demo_bias; Some demo_bias].
Proof. do 2 eexists. split; [vm_compute; reflexivity|]. split; [vm_compute; reflexivity|]. split; [vm_compute; reflexivity|]. split; vm_compute; reflexivity. Qed.

Definition demo_allowed (l : list Z) : SamplingParams :=
  {| sp_max_tokens := None; guided_decoding := false; ignore_eos := false; stop_token_ids := []; prompt_logprobs := None; sp_logprobs := None;
     sp_sampler := {| temperature := 1; top_p := 1; top_k := -1; min_p := 0; frequency_penalty := (1 # 2); presence_penalty := 0;
       repetition_penalty := 1; sp_min_tokens := 0; sp_seed := None; all_stop_token_ids := ∅; sp_logit_bias := None;
       allowed_token_ids := l; sp_bad_words_token_ids := [] |} |}.

(** Reordering exchanges the requests, but leaves both places with the same mask of
    allowed tokens. *)
Lemma swapped_masks_agree : exists s m,
  demo_steps true
    [demo_step [demo_new "a" [5; 6]%Z [1] (demo_allowed [1]%Z); demo_new "b" [8]%Z [2] (demo_allowed [2]%Z)] [] {["a" := 2%Z; "b" := 1%Z]} 3 ∅] = Ok s /\
  req_ids (input_batch s) = [Some "b"; Some "a"] /\ m_allowed_token_ids_mask (sampling_metadata (input_batch s)) = Some [m; m] /\
  mask_row 100 [2]%Z = Ok m /\ mask_row 100 [1]%Z <> Ok m.
Proof.
  do 2 eexists. split; [vm_compute; reflexivity|]. split; [vm_compute; reflexivity|]. split; [vm_compute; reflexivity|]. split; [vm_compute; reflexivity|].
  vm_compute. done.
Qed.

(** A request that moves while its prompt is processed in chunks loses the rest of
    the prompt, and its penalties are computed from what the place held before. *)
Lemma moved_prompt_truncated : exists s,
  demo_steps false
    [demo_step [demo_new "a" [5; 5; 5; 5]%Z [1; 2] (demo_allowed []); demo_new "b" [1; 2; 3; 4]%Z [3; 4] (demo_allowed [])] [] {["a" := 4%Z; "b" := 1%Z]} 5 ∅;
     demo_step [] [demo_go "a" 4 [5]%Z; demo_go "b" 1 [2]%Z] {["a" := 1%Z; "b" := 1%Z]} 2 ∅;
     demo_step [] [demo_go "b" 2 [3]%Z] {["b" := 1%Z]} 1 {["a"]}] = Ok s /\
  (cs_prompt_token_ids <$> mr_requests s !! "b") = Some [1; 2; 3; 4]%Z /\
  m_prompt_token_ids (sampling_metadata (input_batch s)) = Some [[1; 2; 3; 5]%Z].
Proof. eexists. split; [vm_compute; reflexivity|]. split; vm_compute; reflexivity. Qed.
