(* ===== verification/Sampler.v ===== *)
(** * The sampler

    [Sampler] of [vllm/v1/sample/sampler.py] with the operations of [sample/ops]
    and the penalties of [model_executor/layers/utils.py]: what is done to the
    logits of a step, row by row, before the next tokens are drawn, and the draw.
    Numbers are exact; -inf, inf and nan are values of their own. *)

From Stdlib Require Import QArith_base Qminmax.
From S2P Require Import Prelude Numbers NumPy Request Scheduler BlockTable InputBatch.

Notation tensor := (list (list float)).

(** What torch computes on a row, and the numbers of the random generators: those of
    the default one for a whole tensor, and those of a request's own.  Memory that
    is not initialised has arbitrary numbers. *)
Class TorchRows := {
  row_argmax : list float -> nat;
  row_softmax : list float -> list Q;
  row_log_softmax : list float -> list float;
  row_sort : list float -> list (float * nat);
  row_topk : list float -> nat -> list (float * nat);
  empty_rows : nat -> nat -> list (list Q);
  exponential : nat -> nat -> list (list Q);
  exponential_ : nat -> nat -> list Q;
}.

Section Sampler.
Context `{TR : TorchRows}.

(** ** Masks *)

Definition update_row (i : nat) (f : list float -> result (list float)) (t : tensor) : result tensor :=
  row ← np_get t i;
  row ← f row;
  Ok (<[i := row]> t).

Definition masked_fill_row (mask : list bool) (row : list float) : list float := zip_with (fun (m : bool) x => if m then NInf else x) mask row.

(** [apply_allowed_token_ids] *)
Definition apply_allowed_token_ids (md : SamplingMetadata) (logits : tensor) : result tensor :=
  match m_allowed_token_ids_mask md with
  | None => Ok logits
  | Some mask =>
      if bool_decide (length <$> mask = length <$> logits) then Ok (zip_with masked_fill_row mask logits) else Err RuntimeError
  end.

(** An index into a row, from the end if it is negative. *)
Definition row_index (row : list float) (i : Z) : result nat :=
  let i := if (i <? 0)%Z then (i + Z.of_nat (length row))%Z else i in
  if (0 <=? i)%Z && (i <? Z.of_nat (length row))%Z then Ok (Z.to_nat i) else Err IndexError.

Definition fill_at (i : Z) (row : list float) : result (list float) := j ← row_index row i; Ok (<[j := NInf]> row).

(** One bad word of [_apply_bad_words_single_batch] *)
Definition apply_bad_word (past : list Z) (row : list float) (bad_word_ids : list Z) : result (list float) :=
  if length past + 1 <? length bad_word_ids then Ok row
  else
    let prefix_length := (Z.of_nat (length bad_word_ids) - 1)%Z in
    last_token_id ← of_option IndexError (last bad_word_ids);
    let actual_prefix := if (0 <? prefix_length)%Z then py_slice_from (- prefix_length) past else [] in
    let expected_prefix := py_slice 0 prefix_length bad_word_ids in
    _ ← py_assert (length actual_prefix =? length expected_prefix);
    if bool_decide (actual_prefix = expected_prefix) then fill_at last_token_id row else Ok row.

Definition apply_bad_words (bad : gmap nat (list (list Z))) (past : list (list Z)) (logits : tensor) : result tensor :=
  foldM (fun t '(i, words) => update_row i (fun row => p ← np_get past i; foldM (apply_bad_word p) row words) t) logits (map_to_list bad).

(** ** Biases *)

Definition add_bias (vocab_size : nat) (row : list float) (b : Z * Q) : result (list float) :=
  let '(token_id, bias) := b in
  if (token_id <? 0)%Z || (Z.of_nat vocab_size <=? token_id)%Z then Err ValueError
  else
    x ← np_get row (Z.to_nat token_id);
    Ok (<[Z.to_nat token_id := fadd x bias]> row).

Definition apply_logits_bias (vocab_size : nat) (bias : list (option (gmap Z Q))) (logits : tensor) : result tensor :=
  foldM (fun t '(i, lb) =>
    match lb with
    | Some lb => if bool_decide (lb = ∅) then Ok t else update_row i (fun row => foldM (add_bias vocab_size) row (map_to_list lb)) t
    | None => Ok t
    end) logits (imap pair bias).

(** ** Penalties *)

(** The places that [apply_min_token_penalties] collects. *)
Definition min_token_places (past : list (list Z)) (min_tokens : gmap nat (Z * gset Z)) : result (list (nat * Z)) :=
  foldM (fun l '(index, (min_token, stop_token_ids)) =>
    p ← np_get past index;
    Ok (if (Z.of_nat (length p) <? min_token)%Z then l ++ (pair index <$> elements stop_token_ids) else l)) [] (map_to_list min_tokens).

Definition apply_min_token_penalties (past : list (list Z)) (min_tokens : gmap nat (Z * gset Z)) (logits : tensor) : result tensor :=
  places ← min_token_places past min_tokens;
  foldM (fun t '(i, token) => update_row i (fill_at token) t) logits places.

(** [get_token_bin_counts_and_mask]: a column more than the vocabulary takes the
    padding. *)
Definition bin_counts (vocab_size : nat) (tokens : list Z) : result (list nat) :=
  if forallb (fun t => (0 <=? t)%Z && (t <=? Z.of_nat vocab_size)%Z) tokens
  then Ok ((fun j => length (filter (fun t => t = Z.of_nat j) tokens)) <$> seq 0 vocab_size)
  else Err RuntimeError.

(** [_convert_to_tensors] *)
Definition pad_rows (pad : Z) (rows : list (list Z)) : list (list Z) :=
  (fun row => row ++ replicate (max_list (length <$> rows) - length row) pad) <$> rows.

(** One number of [apply_penalties]; 1 / 0 is inf. *)
Definition penalize (presence frequency repetition : Q) (in_prompt : bool) (count : nat) (x : float) : float :=
  let seen := negb (count =? 0) in
  let penalty := if in_prompt || seen then repetition else 1%Q in
  let scaled := if flt (Fin 0) x then (if Qeq_bool penalty 0 then PInf else fscale (1 / penalty) x) else fscale penalty x in
  fadd (fadd scaled (- (frequency * inject_Z (Z.of_nat count)))) (- (presence * (if seen then 1 else 0))).

Definition penalize_row (vocab_size : nat) (presence frequency repetition : Q) (prompt output : list Z) (row : list float) : result (list float) :=
  prompt_counts ← bin_counts vocab_size prompt;
  output_counts ← bin_counts vocab_size output;
  Ok (zip_with (fun x '(p, c) => penalize presence frequency repetition (negb (p =? 0)) c x) row (zip prompt_counts output_counts)).

(** The arrays have a row or a number for every row of logits. *)
Fixpoint penalize_rows (vocab_size : nat) (presence frequency repetition : list Q) (prompts outputs : list (list Z)) (t : tensor) : result tensor :=
  match t, presence, frequency, repetition, prompts, outputs with
  | row :: t, a :: presence, b :: frequency, c :: repetition, p :: prompts, o :: outputs =>
      row ← penalize_row vocab_size a b c p o row;
      t ← penalize_rows vocab_size presence frequency repetition prompts outputs t;
      Ok (row :: t)
  | [], [], [], [], [], [] => Ok []
  | _, _, _, _, _, _ => Err RuntimeError
  end.

Definition apply_all_penalties (vocab_size : nat) (prompts : list (list Z)) (md : SamplingMetadata) (past : list (list Z)) (logits : tensor) : result tensor :=
  penalize_rows vocab_size (m_presence_penalties md) (m_frequency_penalties md) (m_repetition_penalties md) prompts (pad_rows (Z.of_nat vocab_size) past) logits.

Definition apply_penalties (vocab_size : nat) (md : SamplingMetadata) (past : list (list Z)) (logits : tensor) : result tensor :=
  logits ← (if bool_decide (m_min_tokens md = ∅) then Ok logits else apply_min_token_penalties past (m_min_tokens md) logits);
  if m_no_penalties md then Ok logits
  else
    prompts ← of_option AssertionError (m_prompt_token_ids md);
    apply_all_penalties vocab_size prompts md past logits.

(** What [forward] does to the logits before it draws. *)
Definition prepare_logits (vocab_size : nat) (md : SamplingMetadata) (past : list (list Z)) (logits : tensor) : result tensor :=
  logits ← apply_allowed_token_ids md logits;
  logits ← (if bool_decide (m_bad_words_token_ids md = ∅) then Ok logits else apply_bad_words (m_bad_words_token_ids md) past logits);
  logits ← apply_logits_bias vocab_size (m_logit_bias md) logits;
  apply_penalties vocab_size md past logits.

(** ** The draw *)

Definition apply_temperature (temp : list Q) (logits : tensor) : result tensor :=
  if length temp =? length logits then Ok (zip_with (fun row t => (fun x => fdiv x t) <$> row) logits temp) else Err RuntimeError.

Definition min_p_row (min_p : Q) (row : list float) : list float :=
  let probs := row_softmax row in
  let threshold := (min_p * foldr Qmax 0 probs)%Q in
  zip_with (fun x p => if Qle_bool threshold p then x else NInf) row probs.

(** [apply_min_p]; the largest probability is not negative. *)
Definition apply_min_p (min_p : list Q) (logits : tensor) : result tensor :=
  if length min_p =? length logits then Ok (zip_with min_p_row min_p logits) else Err RuntimeError.

Definition fill_below (threshold : float) (row : list float) : list float := (fun x => if flt x threshold then NInf else x) <$> row.

Definition gather {A} (l : list A) (i : Z) : result A := if (i <? 0)%Z then Err RuntimeError else of_option RuntimeError (l !! Z.to_nat i).

Definition top_k_only_row (vocab_size : nat) (max_top_k : Z) (k : Z) (row : list float) : result (list float) :=
  let no_top_k := (k =? Z.of_nat vocab_size)%Z in
  value ← gather ((row_topk row (Z.to_nat max_top_k)).*1) ((if no_top_k then 1 else k) - 1);
  Ok (fill_below (if no_top_k then NInf else value) row).

Fixpoint per_row {A B} (f : A -> list float -> result B) (ps : list A) (t : tensor) : result (list B) :=
  match ps, t with
  | p :: ps, row :: t => row ← f p row; rows ← per_row f ps t; Ok (row :: rows)
  | [], [] => Ok []
  | _, _ => Err RuntimeError
  end.

Definition apply_top_k_only (vocab_size : nat) (k : list Z) (logits : tensor) : result tensor :=
  let ks := (fun k => if (k =? Z.of_nat vocab_size)%Z then 1%Z else k) <$> k in
  max_top_k ← (match ks with [] => Err RuntimeError | k :: ks => Ok (foldr Z.max k ks) end);
  _ ← (if (0 <=? max_top_k)%Z && (max_top_k <=? Z.of_nat vocab_size)%Z then Ok tt else Err RuntimeError);
  per_row (top_k_only_row vocab_size max_top_k) k logits.

Definition top_k_sorted (vocab_size : nat) (k : option Z) (sorted : list float) : result (list float) :=
  match k with
  | None => Ok sorted
  | Some k => value ← gather sorted (Z.of_nat vocab_size - k); Ok (fill_below value sorted)
  end.

Fixpoint sums_from (acc : Q) (l : list Q) : list Q := match l with [] => [] | x :: l => (acc + x)%Q :: sums_from (acc + x) l end.

(** The mask of a row in ascending order; the largest is never masked. *)
Definition top_p_mask (p : Q) (sorted : list float) : list bool :=
  let mask := (fun s => Qle_bool s (1 - p)) <$> sums_from 0 (row_softmax sorted) in
  <[length mask - 1 := false]> mask.

Definition scatter (index : list nat) (src : list float) : list float := foldl (fun row '(i, x) => <[i := x]> row) src (zip index src).

Definition top_k_top_p_row (vocab_size : nat) (k : option Z) (p : Q) (row : list float) : result (list float) :=
  let '(logits_sort, logits_idx) := ((row_sort row).*1, (row_sort row).*2) in
  logits_sort ← top_k_sorted vocab_size k logits_sort;
  let logits_sort := masked_fill_row (top_p_mask p logits_sort) logits_sort in
  Ok (scatter logits_idx logits_sort).

Definition apply_top_k_top_p (vocab_size : nat) (k : option (list Z)) (p : option (list Q)) (logits : tensor) : result tensor :=
  match p, k with
  | None, None => Ok logits
  | None, Some k => apply_top_k_only vocab_size k logits
  | Some p, None => per_row (fun p => top_k_top_p_row vocab_size None p) p logits
  | Some p, Some k =>
      if length k =? length p then per_row (fun '(k, p) => top_k_top_p_row vocab_size (Some k) p) (zip k p) logits else Err RuntimeError
  end.

(** [apply_top_k_top_p_tpu] on one row: the probabilities are sorted once, before the
    top-k mask. *)
Definition tpu_top_k (vocab_size : nat) (k : Z) (probs probs_sort : list Q) (row : list float) : result (list float) :=
  cutoff ← gather probs_sort (Z.of_nat vocab_size - k);
  if (k =? Z.of_nat vocab_size)%Z then Ok row else Ok (zip_with (fun x p => if Qle_bool cutoff p then x else NInf) row probs).

Definition tpu_top_p (top_p : Q) (probs probs_sort : list Q) (row : list float) : result (list float) :=
  let mask := (fun s => Qle_bool s (1 - top_p)) <$> sums_from 0 probs_sort in
  let mask := <[length mask - 1 := false]> mask in
  cutoff ← gather probs_sort (Z.of_nat (length (filter (fun b : bool => b = true) mask)));
  Ok (zip_with (fun x p => if Qle_bool cutoff p then x else NInf) row probs).

Definition tpu_row (vocab_size : nat) (k : option Z) (p : option Q) (row : list float) : result (list float) :=
  let probs := row_softmax row in
  let probs_sort := (fun i => default 0%Q (probs !! i)) <$> (row_sort (Fin <$> probs)).*2 in
  row ← (match k with Some k => tpu_top_k vocab_size k probs probs_sort row | None => Ok row end);
  match p with Some p => tpu_top_p p probs probs_sort row | None => Ok row end.

Definition apply_top_k_top_p_tpu (vocab_size : nat) (k : option (list Z)) (p : option (list Q)) (logits : tensor) : result tensor :=
  let column {A} (o : option (list A)) : list (option A) := match o with Some l => Some <$> l | None => replicate (length logits) None end in
  if length (column k) =? length (column p) then per_row (fun '(k, p) => tpu_row vocab_size k p) (zip (column k) (column p)) logits else Err RuntimeError.

(** The rows of requests with a generator of their own are overwritten. *)
Definition sampling_noise (n vocab_size : nat) (generators : gmap nat nat) : result (list (list Q)) :=
  foldM (fun q '(i, g) => np_put i (exponential_ g vocab_size) q)
    (if size generators =? n then empty_rows n vocab_size else exponential n vocab_size) (map_to_list generators).

Definition random_sample (vocab_size : nat) (probs : list (list Q)) (generators : gmap nat nat) : result (list nat) :=
  q ← sampling_noise (length probs) vocab_size generators;
  Ok (zip_with (fun p q => row_argmax (zip_with (fun x e => fdiv (Fin x) e) p q)) probs q).

(** [TopKTopPSampler.forward_native] *)
Definition forward_native (vocab_size : nat) (logits : tensor) (generators : gmap nat nat) (k : option (list Z)) (p : option (list Q)) : result (list nat) :=
  logits ← apply_top_k_top_p vocab_size k p logits;
  random_sample vocab_size (row_softmax <$> logits) generators.

(** [TopKTopPSampler.forward_tpu] *)
Definition forward_tpu (vocab_size : nat) (logits : tensor) (generators : gmap nat nat) (k : option (list Z)) (p : option (list Q)) : result (list nat) :=
  logits ← apply_top_k_top_p_tpu vocab_size k p logits;
  random_sample vocab_size (row_softmax <$> logits) generators.

Definition greedy_sample (logits : tensor) : list nat := row_argmax <$> logits.

(** [Sampler.sample] *)
Definition sample (vocab_size : nat) (md : SamplingMetadata) (logits : tensor) : result (list nat) :=
  _ ← py_assert (negb (m_all_greedy md && m_all_random md));
  if m_all_greedy md then Ok (greedy_sample logits)
  else
    temperature ← of_option AssertionError (m_temperature md);
    scaled ← apply_temperature temperature logits;
    scaled ← (match m_min_p md with None => Ok scaled | Some min_p => apply_min_p min_p scaled end);
    random_sampled ← forward_native vocab_size scaled (m_generators md) (m_top_k md) (m_top_p md);
    if m_all_random md then Ok random_sampled
    else Ok (zip_with (fun t '(g, r) => if Qle_bool SAMPLING_EPS t then r else g) temperature (zip (greedy_sample logits) random_sampled)).

Record LogprobsRows := {
  lr_indices : list (list nat);
  lr_logprobs : tensor;
  lr_ranks : list nat;
}.

(** One row of [gather_logprobs]: the token, then the best ones; the rank counts the
    tokens that are at least as likely. *)
Definition gather_row (num_logprobs : nat) (row : list float) (token : nat) : result (list nat * list float * nat) :=
  x ← gather row (Z.of_nat token);
  let best := row_topk row num_logprobs in
  Ok (token :: best.*2, x :: best.*1, length (filter (fun y => fle x y = true) row)).

Definition gather_logprobs (vocab_size : nat) (logprobs : tensor) (num_logprobs : Z) (token_ids : list nat) : result LogprobsRows :=
  _ ← (if (0 <=? num_logprobs)%Z && (num_logprobs <=? Z.of_nat vocab_size)%Z then Ok tt else Err RuntimeError);
  rows ← per_row (fun token row => gather_row (Z.to_nat num_logprobs) row token) token_ids logprobs;
  Ok {| lr_indices := (fun x => x.1.1) <$> rows; lr_logprobs := (fun x => x.1.2) <$> rows; lr_ranks := snd <$> rows |}.

(** [Sampler.forward]: the tokens, in rows of one, and the log probabilities of the
    logits as the model gave them. *)
Definition forward (vocab_size : nat) (md : SamplingMetadata) (past : list (list Z)) (logits : tensor) : result (list (list nat) * option LogprobsRows) :=
  let raw_logprobs := row_log_softmax <$> logits in
  prepared ← prepare_logits vocab_size md past logits;
  sampled ← sample vocab_size md prepared;
  logprobs ← (match m_max_num_logprobs md with
    | None => Ok None
    | Some n => l ← gather_logprobs vocab_size raw_logprobs n sampled; Ok (Some l)
    end);
  Ok ((fun t => [t]) <$> sampled, logprobs).
End Sampler.
