(* ===== verification/SamplerSpec.v ===== *)
(** * What the sampler does to the logits

    Every step before the draw works cell by cell: it forbids some tokens of a row,
    adds a bias, or scales by penalties.  [prepared] says what becomes of a cell. *)

From Stdlib Require Import QArith_base Qminmax.
From S2P Require Import Prelude Numbers NumPy Request Scheduler BlockTable InputBatch Sampler.

(** ** Rows and cells *)

(** The cells that [C] chooses are forbidden. *)
Definition mask_cols (C : nat -> bool) (row : list float) : list float := imap (fun j x => if C j then NInf else x) row.

Lemma length_mask C row : length (mask_cols C row) = length row.
Proof. apply length_imap. Qed.

Lemma mask_ext C D row : (forall j, j < length row -> C j = D j) -> mask_cols C row = mask_cols D row.
Proof. intros H. apply imap_ext. intros j x Hx. rewrite H; [done|]. by eapply lookup_lt_Some. Qed.

Lemma mask_twice C D row : mask_cols C (mask_cols D row) = mask_cols (fun j => D j || C j) row.
Proof. apply list_eq. intros j. unfold mask_cols. rewrite !list_lookup_imap. destruct (row !! j); [|done]. cbn. by destruct (D j), (C j). Qed.

Lemma mask_none row : mask_cols (fun _ => false) row = row.
Proof. apply list_eq. intros j. unfold mask_cols. rewrite list_lookup_imap. by destruct (row !! j). Qed.

Lemma masked_fill_cols m row : length m = length row -> masked_fill_row m row = mask_cols (fun j => default false (m !! j)) row.
Proof.
  intros Hl. apply list_eq. intros j. unfold masked_fill_row, mask_cols. rewrite lookup_zip_with, list_lookup_imap.
  destruct (row !! j) as [x|] eqn:Ex; cbn; [|by destruct (m !! j)].
  destruct (lookup_lt_is_Some_2 m j) as [b Eb]; [apply lookup_lt_Some in Ex; lia|]. by rewrite Eb.
Qed.

Lemma row_index_ok row j : (0 <= j < Z.of_nat (length row))%Z -> row_index row j = Ok (Z.to_nat j).
Proof.
  intros H. unfold row_index. destruct (Z.ltb_spec j 0); [lia|]. rewrite (proj2 (Z.leb_le _ _)), (proj2 (Z.ltb_lt _ _)) by lia. done.
Qed.

Lemma fill_at_ok row j : (0 <= j < Z.of_nat (length row))%Z -> fill_at j row = Ok (mask_cols (fun i => Z.of_nat i =? j)%Z row).
Proof.
  intros H. unfold fill_at. rewrite row_index_ok by done. cbn. f_equal. apply list_eq. intros i. unfold mask_cols. rewrite list_lookup_imap.
  destruct (decide (i = Z.to_nat j)) as [->|Hne].
  - rewrite list_lookup_insert_eq by lia. destruct (lookup_lt_is_Some_2 row (Z.to_nat j)) as [x ->]; [lia|]. cbn. by rewrite (proj2 (Z.eqb_eq _ _)) by lia.
  - rewrite list_lookup_insert_ne by done. destruct (row !! i); [|done]. cbn. by rewrite (proj2 (Z.eqb_neq _ _)) by lia.
Qed.

(** ** Loops over the rows *)

Lemma update_tensor_row_ok i f (t : tensor) row row' : t !! i = Some row -> f row = Ok row' -> update_row i f t = Ok (<[i := row']> t).
Proof. intros H1 H2. unfold update_row. rewrite (proj2 (np_get_ok _ _ _) H1). cbn. by rewrite H2. Qed.

Section Rows.
Context {V : Type}.
Implicit Types (t : tensor) (L : list (nat * V)).

Definition row_of L (f : nat -> V -> list float -> list float) (i : nat) (row : list float) : list float :=
  match list_find (fun x => x.1 = i) L with Some (_, (_, v)) => f i v row | None => row end.

Lemma row_of_cons i v L f j row : NoDup (i :: L.*1) -> row_of ((i, v) :: L) f j row = row_of L f j (if decide (i = j) then f i v row else row).
Proof.
  intros [Hi _]%NoDup_cons. unfold row_of. cbn. case_decide as E; [|by destruct (list_find _ L) as [[? [? ?]]|]]. subst j.
  destruct (list_find (fun x => x.1 = i) L) as [[k [i' w]]|] eqn:Ef; [|done].
  apply list_find_Some in Ef as (Hk & Hi' & _). cbn in Hi'. subst i'. destruct Hi. apply list_elem_of_fmap. exists (i, w). split; [done|by eapply list_elem_of_lookup_2].
Qed.

Lemma update_rows_ok (f : nat -> V -> list float -> result (list float)) (g : nat -> V -> list float -> list float) width L : forall t, NoDup L.*1 ->
  Forall (fun row => length row = width) t ->
  (forall i v row, (i, v) ∈ L -> length row = width -> i < length t -> f i v row = Ok (g i v row) /\ length (g i v row) = width) ->
  (forall i v, (i, v) ∈ L -> i < length t) ->
  foldM (fun t '(i, v) => update_row i (f i v) t) t L = Ok (imap (row_of L g) t).
Proof.
  induction L as [|[i v] L IH]; intros t Hnd Hw Hf Hi; cbn [foldM].
  - f_equal. apply list_eq. intros j. rewrite list_lookup_imap. by destruct (t !! j).
  - destruct (lookup_lt_is_Some_2 t i) as [row Erow]; [apply (Hi i v); by left|]. pose proof (Forall_lookup_1 _ _ _ _ Hw Erow) as Hl.
    destruct (Hf i v row) as [Ef El]; [by left|done|by eapply lookup_lt_Some|]. rewrite (update_tensor_row_ok i (f i v) t row _ Erow Ef). cbn [mbind result_bind]. pose proof Hnd as Hnd'. apply NoDup_cons in Hnd' as [_ Hnd'].
    rewrite IH; [|done|by apply Forall_insert| |].
    + f_equal. apply list_eq. intros j. rewrite !list_lookup_imap. destruct (decide (i = j)) as [<-|Hne].
      * rewrite list_lookup_insert_eq by (by eapply lookup_lt_Some). rewrite Erow. cbn. f_equal. rewrite row_of_cons by done. by rewrite decide_True.
      * rewrite list_lookup_insert_ne by done. destruct (t !! j); [|done]. cbn. f_equal. rewrite row_of_cons by done. by rewrite decide_False.
    + intros i' v' row' Hin. rewrite length_insert. apply Hf. by right.
    + intros i' v' Hin. rewrite length_insert. apply (Hi i' v'). by right.
Qed.
End Rows.

Lemma row_of_map {V} (m : gmap nat V) f i row : row_of (map_to_list m) f i row = match m !! i with Some v => f i v row | None => row end.
Proof.
  unfold row_of. destruct (list_find _ _) as [[k [i' v]]|] eqn:Ef.
  - apply list_find_Some in Ef as (Hk & Hi' & _). cbn in Hi'. subst i'. apply list_elem_of_lookup_2, elem_of_map_to_list in Hk. by rewrite Hk.
  - apply list_find_None in Ef. destruct (m !! i) as [v|] eqn:Em; [|done]. apply elem_of_map_to_list in Em. rewrite Forall_forall in Ef. by destruct (Ef _ Em).
Qed.

(** ** Bad words *)

(** Token [j] would complete the word. *)
Definition completes (past w : list Z) (j : nat) : bool := bool_decide (w <> [] /\ w `suffix_of` past ++ [Z.of_nat j]).

Lemma suffix_drop {A} (l p : list A) : l `suffix_of` p <-> length l <= length p /\ drop (length p - length l) p = l.
Proof.
  split.
  - intros [k ->]. rewrite length_app. split; [lia|]. by rewrite drop_app_length' by lia.
  - intros [_ H]. exists (take (length p - length l) p). transitivity (take (length p - length l) p ++ drop (length p - length l) p); [by rewrite take_drop|by rewrite H].
Qed.

Lemma suffix_snoc_inv {A} (l p : list A) x y : l ++ [x] `suffix_of` p ++ [y] <-> l `suffix_of` p /\ x = y.
Proof.
  split.
  - intros [k H]. rewrite app_assoc in H. apply app_inj_tail in H as [-> ->]. split; [by exists k|done].
  - intros [[k ->] ->]. exists k. by rewrite app_assoc.
Qed.

Lemma apply_bad_word_ok past row w : w <> [] -> (forall t, last w = Some t -> (0 <= t < Z.of_nat (length row))%Z) ->
  apply_bad_word past row w = Ok (mask_cols (completes past w) row).
Proof.
  intros Hw Ht. destruct (exists_last Hw) as (l & x & ->). specialize (Ht x (last_snoc _ _)). unfold apply_bad_word, completes. rewrite length_app. cbn [length].
  destruct (Nat.ltb_spec (length past + 1) (length l + 1)) as [Hlt|Hge].
  - f_equal. rewrite <-(mask_none row) at 1. apply mask_ext. intros j _. symmetry. apply bool_decide_eq_false_2. intros [_ [Hs _]%suffix_snoc_inv].
    apply suffix_length in Hs. lia.
  - replace (Z.of_nat (length l + 1) - 1)%Z with (Z.of_nat (length l)) by lia. rewrite last_snoc. cbn [of_option mbind result_bind].
    assert (Ea : (if (0 <? Z.of_nat (length l))%Z then py_slice_from (- Z.of_nat (length l)) past else []) = drop (length past - length l) past).
    { destruct (Z.ltb_spec 0 (Z.of_nat (length l))) as [Hp|Hp].
      - unfold py_slice_from, py_bound. rewrite (proj2 (Z.ltb_lt _ _)) by lia. f_equal. lia.
      - destruct l; [|cbn in Hp; lia]. cbn. by rewrite Nat.sub_0_r, drop_all. }
    rewrite Ea. change 0%Z with (Z.of_nat 0). rewrite py_slice_nat by (rewrite length_app; lia). rewrite Nat.sub_0_r, drop_0, take_app_length.
    rewrite length_drop. replace (length past - (length past - length l) =? length l) with true by (symmetry; apply Nat.eqb_eq; lia). cbn [py_assert mbind result_bind].
    case_bool_decide as Hd.
    + rewrite fill_at_ok by done. f_equal. apply mask_ext. intros j _. symmetry. apply eq_true_iff_eq. rewrite bool_decide_eq_true, Z.eqb_eq, suffix_snoc_inv.
      rewrite suffix_drop. split; [by intros [_ [_ ->]]|]. intros <-. split; [done|]. split; [|done]. split; [lia|done].
    + f_equal. rewrite <-(mask_none row) at 1. apply mask_ext. intros j _. symmetry. apply bool_decide_eq_false_2. intros [_ [[_ Hs]%suffix_drop _]%suffix_snoc_inv]. done.
Qed.

Lemma apply_bad_words_row_ok past ws : forall row, (forall w, w ∈ ws -> w <> [] /\ forall t, last w = Some t -> (0 <= t < Z.of_nat (length row))%Z) ->
  foldM (apply_bad_word past) row ws = Ok (mask_cols (fun j => existsb (fun w => completes past w j) ws) row).
Proof.
  induction ws as [|w ws IH]; intros row H; cbn [foldM]; [by rewrite mask_none|]. destruct (H w) as [Hw Ht]; [by left|].
  rewrite apply_bad_word_ok by done. cbn [mbind result_bind]. rewrite IH; [by rewrite mask_twice|]. rewrite length_mask. intros w' Hw'. apply H. by right.
Qed.

(** ** Biases *)

Definition bias_of (lb : gmap Z Q) (j : nat) (x : float) : float := match lb !! Z.of_nat j with Some b => fadd x b | None => x end.

Lemma add_bias_ok vocab row t b x : length row = vocab -> (0 <= t < Z.of_nat vocab)%Z -> row !! Z.to_nat t = Some x ->
  add_bias vocab row (t, b) = Ok (<[Z.to_nat t := fadd x b]> row).
Proof.
  intros Hl Ht Ex. unfold add_bias. rewrite (proj2 (Z.ltb_ge _ _)), (proj2 (Z.leb_gt _ _)) by lia. cbn [orb]. by rewrite (proj2 (np_get_ok _ _ _) Ex).
Qed.

Lemma add_biases_ok vocab lb : forall row, length row = vocab -> (forall t b, lb !! t = Some b -> (0 <= t < Z.of_nat vocab)%Z) ->
  foldM (add_bias vocab) row (map_to_list lb) = Ok (imap (bias_of lb) row).
Proof.
  induction lb as [|t b lb Ht Hf IH] using map_first_key_ind; intros row Hl Hk.
  - rewrite map_to_list_empty. cbn. f_equal. apply list_eq. intros j. rewrite list_lookup_imap. destruct (row !! j); [|done]. cbn. unfold bias_of. by rewrite lookup_empty.
  - rewrite map_to_list_insert_first_key by done. cbn [foldM]. pose proof (Hk t b ltac:(by rewrite lookup_insert_eq)) as H0.
    destruct (lookup_lt_is_Some_2 row (Z.to_nat t)) as [x Ex]; [lia|]. rewrite (add_bias_ok vocab row t b x) by done. cbn [mbind result_bind].
    rewrite IH; [|by rewrite length_insert|intros t' b' Hb; apply (Hk t' b'); rewrite lookup_insert_ne; [done|]; intros ->; congruence].
    f_equal. apply list_eq. intros j. rewrite !list_lookup_imap. unfold bias_of. destruct (decide (j = Z.to_nat t)) as [->|Hne].
    + rewrite list_lookup_insert_eq by lia. rewrite Ex. cbn. rewrite Z2Nat.id by lia. by rewrite Ht, lookup_insert_eq.
    + rewrite list_lookup_insert_ne by done. destruct (row !! j); [|done]. cbn. rewrite lookup_insert_ne by lia. done.
Qed.

(** ** Stop tokens *)

Lemma fill_stop_places_ok width places : forall t, Forall (fun row => length row = width) t ->
  (forall i k, (i, k) ∈ places -> i < length t /\ (0 <= k < Z.of_nat width)%Z) ->
  foldM (fun t '(i, token) => update_row i (fill_at token) t) t places =
    Ok (imap (fun i row => mask_cols (fun j => bool_decide ((i, Z.of_nat j) ∈ places)) row) t).
Proof.
  induction places as [|[i k] places IH]; intros t Hw H; cbn [foldM].
  - f_equal. apply list_eq. intros j. rewrite list_lookup_imap. destruct (t !! j); [|done]. cbn. f_equal. symmetry. rewrite <-(mask_none l) at 2. apply mask_ext. done.
  - destruct (H i k) as [Hi Hk]; [by left|]. destruct (lookup_lt_is_Some_2 t i Hi) as [row Erow]. pose proof (Forall_lookup_1 _ _ _ _ Hw Erow) as Hl. cbn in Hl.
    rewrite (update_tensor_row_ok i (fill_at k) t row _ Erow (fill_at_ok row k ltac:(lia))). cbn [mbind result_bind].
    rewrite IH; [|apply Forall_insert; [done|by rewrite length_mask]|intros i' k' Hin; rewrite length_insert; apply H; by right].
    f_equal. apply list_eq. intros j. rewrite !list_lookup_imap. destruct (decide (j = i)) as [->|Hne].
    + rewrite list_lookup_insert_eq by done. rewrite Erow. cbn. f_equal. rewrite mask_twice. apply mask_ext. intros c _. apply eq_true_iff_eq.
      rewrite orb_true_iff, !bool_decide_eq_true, Z.eqb_eq, elem_of_cons. split; [intros [<-|?]; [by left|by right]|intros [[= <-]|?]; [by left|by right]].
    + rewrite list_lookup_insert_ne by done. destruct (t !! j); [|done]. cbn. f_equal. apply mask_ext. intros c _. apply bool_decide_ext. rewrite elem_of_cons.
      split; [by right|]. intros [[= -> _]|?]; done.
Qed.

Lemma min_token_places_ok past m : (forall i v, m !! i = Some v -> i < length past) ->
  exists places, min_token_places past m = Ok places /\
    forall i k, (i, k) ∈ places <-> exists n stops p, m !! i = Some (n, stops) /\ past !! i = Some p /\ (Z.of_nat (length p) < n)%Z /\ k ∈ stops.
Proof.
  intros Hm. unfold min_token_places.
  enough (forall L acc, (forall i v, (i, v) ∈ L -> i < length past) ->
    exists places, foldM (fun l '(index, (min_token, stop_token_ids)) => p ← np_get past index;
      Ok (if (Z.of_nat (length p) <? min_token)%Z then l ++ (pair index <$> elements stop_token_ids) else l)) acc L = Ok places /\
    forall i k, (i, k) ∈ places <-> (i, k) ∈ acc \/ exists n stops p, (i, (n, stops)) ∈ L /\ past !! i = Some p /\ (Z.of_nat (length p) < n)%Z /\ k ∈ (stops : gset Z)) as H.
  { destruct (H (map_to_list m) []) as (places & E1 & Hp).
    - intros i v Hin%elem_of_map_to_list. by eapply Hm.
    - exists places. split; [exact E1|]. intros i k. rewrite Hp. setoid_rewrite elem_of_map_to_list. split; [intros [Hn|?]; [by apply elem_of_nil in Hn|done]|by right]. }
  clear m Hm. induction L as [|[i [n stops]] L IH]; intros acc Hi; cbn [foldM].
  - exists acc. split; [done|]. intros i k. split; [by left|]. intros [|(n & stops & p & Hn & _)]; [done|]. by apply elem_of_nil in Hn.
  - destruct (lookup_lt_is_Some_2 past i) as [p Ep]; [apply (Hi i (n, stops)); by left|]. rewrite (proj2 (np_get_ok _ _ _) Ep). cbn [mbind result_bind].
    destruct (IH (if (Z.of_nat (length p) <? n)%Z then acc ++ (pair i <$> elements stops) else acc)) as (places & E1 & Hp); [intros; eapply Hi; by right|].
    exists places. split; [exact E1|]. intros i' k. rewrite Hp. setoid_rewrite elem_of_cons. destruct (Z.ltb_spec (Z.of_nat (length p)) n) as [Hlt|Hge].
    + rewrite elem_of_app, list_elem_of_fmap. setoid_rewrite elem_of_elements. split.
      * intros [[?|(y & [= -> ->] & Hy)]|(n' & s' & p' & ? & ?)]; [by left|right; exists n, stops, p; split; [by left|done]|right; exists n', s', p'; split; [by right|done]].
      * intros [?|(n' & s' & p' & [[= -> -> ->]|?] & Ep' & Hl & Hk)]; [by left; left|left; right; by exists k|right; by exists n', s', p'].
    + split.
      * intros [?|(n' & s' & p' & ? & ?)]; [by left|right; exists n', s', p'; split; [by right|done]].
      * intros [?|(n' & s' & p' & [[= -> -> ->]|?] & Ep' & Hl & Hk)]; [by left|rewrite Ep in Ep'; injection Ep' as <-; lia|right; by exists n', s', p'].
Qed.

(** ** Penalties *)

Definition occurrences (l : list Z) (j : nat) : nat := length (filter (fun t => t = Z.of_nat j) l).

Lemma bin_counts_ok vocab l : Forall (fun t => 0 <= t <= Z.of_nat vocab)%Z l -> bin_counts vocab l = Ok (occurrences l <$> seq 0 vocab).
Proof.
  intros H. unfold bin_counts. replace (forallb _ l) with true; [done|]. symmetry. apply forallb_forall. intros t Ht%list_elem_of_In.
  rewrite Forall_forall in H. specialize (H t Ht). rewrite (proj2 (Z.leb_le _ _)), (proj2 (Z.leb_le _ _)) by lia. done.
Qed.

Lemma occurrences_pad l k vocab j : j < vocab -> occurrences (l ++ replicate k (Z.of_nat vocab)) j = occurrences l j.
Proof.
  intros Hj. unfold occurrences. rewrite filter_app, length_app. replace (filter _ (replicate k _)) with ([] : list Z); [cbn; lia|].
  symmetry. induction k as [|k IH]; [done|]. cbn [replicate]. by rewrite filter_cons_False by lia.
Qed.

Lemma penalize_row_ok vocab a b c prompt output row : length row = vocab -> Forall (fun t => 0 <= t <= Z.of_nat vocab)%Z prompt ->
  Forall (fun t => 0 <= t <= Z.of_nat vocab)%Z output ->
  penalize_row vocab a b c prompt output row = Ok (imap (fun j => penalize a b c (negb (occurrences prompt j =? 0)) (occurrences output j)) row).
Proof.
  intros Hl Hp Ho. unfold penalize_row. rewrite !bin_counts_ok by done. cbn. f_equal. apply list_eq. intros j.
  rewrite lookup_zip_with, list_lookup_imap. destruct (row !! j) as [x|] eqn:Ex; [|done]. pose proof (lookup_lt_Some _ _ _ Ex) as Hj. cbn.
  rewrite lookup_zip_with, !list_lookup_fmap, lookup_seq_lt by lia. done.
Qed.

Definition num_at (l : list Q) (i : nat) : Q := default 0%Q (l !! i).

Lemma penalize_rows_ok vocab t : forall pres freq rep prompts outputs, Forall (fun row => length row = vocab) t ->
  length pres = length t -> length freq = length t -> length rep = length t -> length prompts = length t -> length outputs = length t ->
  Forall (Forall (fun t => 0 <= t <= Z.of_nat vocab)%Z) prompts -> Forall (Forall (fun t => 0 <= t <= Z.of_nat vocab)%Z) outputs ->
  penalize_rows vocab pres freq rep prompts outputs t =
    Ok (imap (fun i => imap (fun j => penalize (num_at pres i) (num_at freq i) (num_at rep i) (negb (occurrences (prompts !!! i) j =? 0)) (occurrences (outputs !!! i) j))) t).
Proof.
  induction t as [|row t IH]; intros [|a pres] [|b freq] [|c rep] [|p prompts] [|o outputs] Hw H1 H2 H3 H4 H5 Hp Ho; try done.
  apply Forall_cons in Hw as [Hl Hw], Hp as [Hp Hps], Ho as [Ho Hos]. cbn [penalize_rows]. rewrite penalize_row_ok by done. cbn [mbind result_bind].
  rewrite IH by (done || (cbn in *; lia)). done.
Qed.

Lemma le_max_list l x : x ∈ l -> x <= max_list l.
Proof. induction l as [|y l IH]; [by intros ?%elem_of_nil|]. intros [->|Hx]%elem_of_cons; cbn; [lia|]. specialize (IH Hx). lia. Qed.

Lemma pad_rows_at pad rows i row : rows !! i = Some row -> exists k, pad_rows pad rows !! i = Some (row ++ replicate k pad).
Proof. intros H. unfold pad_rows. rewrite list_lookup_fmap, H. by eexists. Qed.

(** ** The prepared logits *)

Definition forbidden (md : SamplingMetadata) (past : list (list Z)) (i j : nat) : bool :=
  default false (m ← m_allowed_token_ids_mask md; row ← m !! i; row !! j)
  || match m_bad_words_token_ids md !! i with Some ws => existsb (fun w => completes (past !!! i) w j) ws | None => false end
  || match m_min_tokens md !! i with
     | Some (n, stops) => bool_decide (Z.of_nat (length (past !!! i)) < n)%Z && bool_decide (Z.of_nat j ∈ stops)
     | None => false
     end.

Definition biased (md : SamplingMetadata) (i j : nat) (x : float) : float :=
  match m_logit_bias md !! i with Some (Some lb) => bias_of lb j x | _ => x end.

Definition penalized (md : SamplingMetadata) (past : list (list Z)) (i j : nat) (x : float) : float :=
  if m_no_penalties md then x
  else penalize (num_at (m_presence_penalties md) i) (num_at (m_frequency_penalties md) i) (num_at (m_repetition_penalties md) i)
    (negb (occurrences (default [] (m_prompt_token_ids md) !!! i) j =? 0)) (occurrences (past !!! i) j) x.

Definition prepared (md : SamplingMetadata) (past : list (list Z)) (i j : nat) (x : float) : float :=
  if forbidden md past i j then NInf else penalized md past i j (biased md i j x).

(** Metadata and outputs for [n] requests. *)
Record metadata_fits (vocab n : nat) (md : SamplingMetadata) (past : list (list Z)) : Prop := {
  mf_past : length past = n;
  mf_mask : forall mask, m_allowed_token_ids_mask md = Some mask -> length mask = n /\ Forall (fun row => length row = vocab) mask;
  mf_bad : forall i ws w, m_bad_words_token_ids md !! i = Some ws -> i < n /\ (w ∈ ws -> w <> [] /\ forall t, last w = Some t -> (0 <= t < Z.of_nat vocab)%Z);
  mf_bias : length (m_logit_bias md) <= n;
  mf_bias_keys : forall i lb t b, m_logit_bias md !! i = Some (Some lb) -> lb !! t = Some b -> (0 <= t < Z.of_nat vocab)%Z;
  mf_min : forall i m stops k, m_min_tokens md !! i = Some (m, stops) -> i < n /\ (k ∈ stops -> (0 <= k < Z.of_nat vocab)%Z);
  mf_penalties : m_no_penalties md = false -> exists prompts, m_prompt_token_ids md = Some prompts /\ length prompts = n /\
    Forall (Forall (fun t => 0 <= t <= Z.of_nat vocab)%Z) prompts /\ Forall (Forall (fun t => 0 <= t <= Z.of_nat vocab)%Z) past /\
    length (m_presence_penalties md) = n /\ length (m_frequency_penalties md) = n /\ length (m_repetition_penalties md) = n /\
    Forall (fun x => 0 < x)%Q (m_repetition_penalties md);
}.

Definition shaped_tensor (vocab n : nat) (t : tensor) : Prop := length t = n /\ Forall (fun row => length row = vocab) t.

(** With a positive repetition penalty a logit stays one. *)
Lemma penalize_logit a b c p k x : (0 < c)%Q -> penalize a b c p k NInf = NInf /\ exists r, penalize a b c p k (Fin x) = Fin r.
Proof.
  intros Hc. unfold penalize. set (s := if p || negb (k =? 0) then c else 1%Q). assert (Hs : (0 < s)%Q) by (unfold s; destruct (p || _); [done|reflexivity]).
  assert (E0 : Qeq_bool s 0 = false) by (apply not_true_iff_false; rewrite Qeq_bool_iff; intros E; rewrite E in Hs; by apply Qlt_irrefl in Hs).
  assert (E1 : Qle_bool 0 s = true) by (by apply Qle_bool_iff, Qlt_le_weak). split.
  - cbn [flt fle negb]. unfold fscale. by rewrite E0, E1.
  - cbv zeta. rewrite E0. destruct (flt (Fin 0) (Fin x)); by eexists.
Qed.

Section Prepare.
Context `{TR : TorchRows} (vocab n : nat) (md : SamplingMetadata) (past : list (list Z)) (Hf : metadata_fits vocab n md past).

Lemma imap_shaped (f : nat -> nat -> float -> float) t : shaped_tensor vocab n t -> shaped_tensor vocab n (imap (fun i => imap (f i)) t).
Proof.
  intros [Hl Hw]. split; [by rewrite length_imap|]. apply Forall_forall. intros row (i & r & -> & Hr)%elem_of_lookup_imap. rewrite length_imap. by apply (Forall_lookup_1 _ _ _ _ Hw Hr).
Qed.

Lemma mask_shaped (C : nat -> nat -> bool) t : shaped_tensor vocab n t -> shaped_tensor vocab n (imap (fun i => mask_cols (C i)) t).
Proof. apply (imap_shaped (fun i j x => if C i j then NInf else x)). Qed.

Lemma imap_rows_ext (f g : nat -> list float -> list float) (t : tensor) : (forall i row, t !! i = Some row -> f i row = g i row) -> imap f t = imap g t.
Proof. intros H. apply list_eq. intros i. rewrite !list_lookup_imap. destruct (t !! i) eqn:E; [|done]. cbn. f_equal. by apply H. Qed.

Lemma imap_id (t : tensor) : imap (fun i row => row) t = t.
Proof. apply list_eq. intros i. rewrite list_lookup_imap. by destruct (t !! i). Qed.

Lemma allowed_ok t : shaped_tensor vocab n t ->
  apply_allowed_token_ids md t = Ok (imap (fun i => mask_cols (fun j => default false (m ← m_allowed_token_ids_mask md; row ← m !! i; row !! j))) t).
Proof using Hf.
  intros [Hl Hw]. unfold apply_allowed_token_ids. destruct (m_allowed_token_ids_mask md) as [mask|] eqn:Em.
  - destruct (mf_mask _ _ _ _ Hf mask Em) as [Hml Hmw]. rewrite bool_decide_true.
    + f_equal. apply list_eq. intros i. rewrite lookup_zip_with, list_lookup_imap. destruct (t !! i) as [row|] eqn:Er; [|by destruct (mask !! i)].
      destruct (lookup_lt_is_Some_2 mask i) as [m Emi]; [apply lookup_lt_Some in Er; lia|]. rewrite Emi. cbn. f_equal.
      rewrite Emi. apply masked_fill_cols. rewrite (Forall_lookup_1 _ _ _ _ Hmw Emi), (Forall_lookup_1 _ _ _ _ Hw Er). done.
    + apply list_eq. intros i. rewrite !list_lookup_fmap. destruct (decide (i < n)) as [Hi|Hi].
      * destruct (lookup_lt_is_Some_2 mask i) as [m Emi]; [lia|]. destruct (lookup_lt_is_Some_2 t i) as [r Er]; [lia|]. rewrite Emi, Er. cbn. f_equal.
        rewrite (Forall_lookup_1 _ _ _ _ Hmw Emi), (Forall_lookup_1 _ _ _ _ Hw Er). done.
      * rewrite !lookup_ge_None_2 by lia. done.
  - f_equal. rewrite <-(imap_id t) at 1. apply imap_rows_ext. intros i row _. cbn. by rewrite mask_none.
Qed.

Lemma bad_words_ok t : shaped_tensor vocab n t ->
  (if bool_decide (m_bad_words_token_ids md = ∅) then Ok t else apply_bad_words (m_bad_words_token_ids md) past t) =
  Ok (imap (fun i => mask_cols (fun j => match m_bad_words_token_ids md !! i with Some ws => existsb (fun w => completes (past !!! i) w j) ws | None => false end)) t).
Proof using Hf.
  intros [Hl Hw]. case_bool_decide as He.
  - f_equal. rewrite <-(imap_id t) at 1. apply imap_rows_ext. intros i row _. rewrite He. rewrite <-(mask_none row) at 1. apply mask_ext. intros j _. by rewrite lookup_empty.
  - unfold apply_bad_words. rewrite (update_rows_ok _ (fun i ws => mask_cols (fun j => existsb (fun w => completes (past !!! i) w j) ws)) vocab).
    + f_equal. apply imap_rows_ext. intros i row _. rewrite row_of_map. destruct (m_bad_words_token_ids md !! i); [done|]. by rewrite mask_none.
    + apply NoDup_fst_map_to_list.
    + done.
    + intros i ws row Hin%elem_of_map_to_list Hr Hi. split; [|by rewrite length_mask]. destruct (lookup_lt_is_Some_2 past i) as [p Ep]; [rewrite (mf_past _ _ _ _ Hf); lia|].
      rewrite (proj2 (np_get_ok _ _ _) Ep). cbn [mbind result_bind]. rewrite (list_lookup_total_correct _ _ _ Ep). apply apply_bad_words_row_ok.
      intros w Hwd. rewrite Hr. by apply (mf_bad _ _ _ _ Hf i ws w Hin).
    + intros i ws Hin%elem_of_map_to_list. rewrite Hl. by apply (mf_bad _ _ _ _ Hf i ws [] Hin).
Qed.

Lemma imap_pair_nodup {A} (l : list A) : NoDup (imap pair l).*1.
Proof.
  apply NoDup_alt. intros i j k Hi Hj. rewrite list_lookup_fmap, list_lookup_imap in Hi, Hj.
  destruct (l !! i); [|done]. destruct (l !! j); [|done]. cbn in *. congruence.
Qed.

Lemma elem_of_imap_pair {A} (l : list A) i v : (i, v) ∈ imap pair l <-> l !! i = Some v.
Proof.
  rewrite list_elem_of_lookup. setoid_rewrite list_lookup_imap. split.
  - intros [j Hj]. destruct (l !! j) eqn:E; [|done]. cbn in Hj. congruence.
  - intros H. exists i. by rewrite H.
Qed.

Lemma row_of_pairs {V} (l : list V) f i row : row_of (imap pair l) f i row = match l !! i with Some v => f i v row | None => row end.
Proof.
  unfold row_of. destruct (list_find _ _) as [[k [i' v]]|] eqn:Ef.
  - apply list_find_Some in Ef as (Hk & Hi' & _). cbn in Hi'. subst i'. apply list_elem_of_lookup_2, elem_of_imap_pair in Hk. by rewrite Hk.
  - apply list_find_None in Ef. destruct (l !! i) as [v|] eqn:Em; [|done]. apply elem_of_imap_pair in Em. rewrite Forall_forall in Ef. by destruct (Ef _ Em).
Qed.

Lemma bias_ok t : shaped_tensor vocab n t -> apply_logits_bias vocab (m_logit_bias md) t = Ok (imap (fun i => imap (biased md i)) t).
Proof using Hf.
  intros [Hl Hw]. unfold apply_logits_bias.
  assert (Hone : forall lb row, (lb : gmap Z Q) = ∅ -> imap (bias_of lb) row = row).
  { intros lb row ->. apply list_eq. intros j. rewrite list_lookup_imap. destruct (row !! j); [|done]. cbn. unfold bias_of. by rewrite lookup_empty. }
  set (f := fun (i : nat) (lb : option (gmap Z Q)) row => match lb with Some lb => foldM (add_bias vocab) row (map_to_list lb) | None => Ok row end).
  assert (Hfold : forall L t, (forall i lb, (i, lb) ∈ L -> i < length t) -> foldM (fun t '(i, lb) => match lb with
      | Some lb => if bool_decide (lb = ∅) then Ok t else update_row i (fun row => foldM (add_bias vocab) row (map_to_list lb)) t | None => Ok t end) t L =
      foldM (fun t '(i, lb) => update_row i (f i lb) t) t L).
  { clear t Hl Hw. induction L as [|[i lb] L IH]; intros t Hi; [done|]. cbn [foldM]. destruct (lookup_lt_is_Some_2 t i) as [row Er]; [apply (Hi i lb); by left|].
    assert (E : match lb with Some lb => if bool_decide (lb = ∅) then Ok t else update_row i (fun row => foldM (add_bias vocab) row (map_to_list lb)) t | None => Ok t end =
      update_row i (f i lb) t).
    { destruct lb as [lb|].
      - case_bool_decide as He; [|done]. symmetry. unfold update_row. rewrite (proj2 (np_get_ok _ _ _) Er). cbn. subst lb. rewrite map_to_list_empty. cbn. by rewrite list_insert_id.
      - symmetry. rewrite (update_tensor_row_ok i _ t row row Er); [by rewrite list_insert_id|done]. }
    rewrite E. destruct (update_row i (f i lb) t) as [t'|] eqn:Eu; [|done]. cbn [mbind result_bind]. apply IH. intros i' lb' Hin.
    unfold update_row in Eu. apply bind_ok in Eu as (r1 & _ & Eu). apply bind_ok in Eu as (r2 & _ & Eu). injection Eu as <-. rewrite length_insert. apply (Hi i' lb'). by right. }
  assert (Hin : forall i lb, (i, lb) ∈ imap pair (m_logit_bias md) -> i < length t).
  { intros i lb Hi%elem_of_imap_pair%lookup_lt_Some. pose proof (mf_bias _ _ _ _ Hf). lia. }
  rewrite Hfold by done. rewrite (update_rows_ok f (fun i lb => imap (fun j x => match lb with Some lb => bias_of lb j x | None => x end)) vocab); try done.
  - f_equal. apply imap_rows_ext. intros i row _. rewrite row_of_pairs. unfold biased. destruct (m_logit_bias md !! i) as [[lb|]|]; [done|done|].
    apply list_eq. intros j. rewrite list_lookup_imap. by destruct (row !! j).
  - apply imap_pair_nodup.
  - intros i lb row Hi%elem_of_imap_pair Hr _. split; [|by rewrite length_imap]. unfold f. destruct lb as [lb|].
    + apply add_biases_ok; [done|]. intros k b Hk. by apply (mf_bias_keys _ _ _ _ Hf i lb k b).
    + f_equal. apply list_eq. intros j. rewrite list_lookup_imap. by destruct (row !! j).
Qed.

Lemma min_tokens_ok t : shaped_tensor vocab n t ->
  (if bool_decide (m_min_tokens md = ∅) then Ok t else apply_min_token_penalties past (m_min_tokens md) t) =
  Ok (imap (fun i => mask_cols (fun j => match m_min_tokens md !! i with
     | Some (m, stops) => bool_decide (Z.of_nat (length (past !!! i)) < m)%Z && bool_decide (Z.of_nat j ∈ stops) | None => false end)) t).
Proof using Hf.
  intros [Hl Hw]. case_bool_decide as He.
  - f_equal. rewrite <-(imap_id t) at 1. apply imap_rows_ext. intros i row _. rewrite He. rewrite <-(mask_none row) at 1. apply mask_ext. intros j _. by rewrite lookup_empty.
  - unfold apply_min_token_penalties. destruct (min_token_places_ok past (m_min_tokens md)) as (places & -> & Hp).
    { intros i [m stops] Hi. rewrite (mf_past _ _ _ _ Hf). by apply (mf_min _ _ _ _ Hf i m stops 0%Z Hi). }
    cbn [mbind result_bind]. rewrite (fill_stop_places_ok vocab); [|done|].
    + f_equal. apply imap_rows_ext. intros i row _. apply mask_ext. intros j _. apply eq_true_iff_eq. rewrite bool_decide_eq_true, Hp.
      destruct (m_min_tokens md !! i) as [[m stops]|] eqn:Em; [|split; [intros (? & ? & ? & ? & _); congruence|done]].
      rewrite andb_true_iff, !bool_decide_eq_true. split.
      * intros (m' & s' & p & [= <- <-] & Ep & Hlt & Hk). by rewrite (list_lookup_total_correct _ _ _ Ep).
      * intros [Hlt Hk]. destruct (lookup_lt_is_Some_2 past i) as [p Ep]; [rewrite (mf_past _ _ _ _ Hf); by apply (mf_min _ _ _ _ Hf i m stops 0%Z Em)|].
        rewrite (list_lookup_total_correct _ _ _ Ep) in Hlt. by exists m, stops, p.
    + intros i k (m & stops & p & Hi & _ & _ & Hk)%Hp. destruct (mf_min _ _ _ _ Hf i m stops k Hi) as [? Hr]. split; [lia|by apply Hr].
Qed.

Lemma penalties_ok t : shaped_tensor vocab n t ->
  (if m_no_penalties md then Ok t
   else prompts ← of_option AssertionError (m_prompt_token_ids md); apply_all_penalties vocab prompts md past t) = Ok (imap (fun i => imap (penalized md past i)) t).
Proof using Hf.
  intros [Hl Hw]. unfold penalized. destruct (m_no_penalties md) eqn:En.
  - f_equal. rewrite <-(imap_id t) at 1. apply imap_rows_ext. intros i row _. apply list_eq. intros j. rewrite list_lookup_imap. by destruct (row !! j).
  - destruct (mf_penalties _ _ _ _ Hf En) as (prompts & Ep & P1 & P2 & P3 & P4 & P5 & P6 & _). rewrite Ep. cbn [of_option mbind result_bind default from_option Datatypes.id].
    pose proof (mf_past _ _ _ _ Hf) as P0. unfold apply_all_penalties. rewrite penalize_rows_ok; try done; try lia.
    + f_equal. apply imap_rows_ext. intros i row Hr. destruct (lookup_lt_is_Some_2 past i) as [p Epi]; [apply lookup_lt_Some in Hr; lia|].
      destruct (pad_rows_at (Z.of_nat vocab) past i p Epi) as [k Ek]. rewrite (list_lookup_total_correct _ _ _ Ek), (list_lookup_total_correct _ _ _ Epi).
      apply list_eq. intros j. rewrite !list_lookup_imap. destruct (row !! j) as [x|] eqn:Ex; [|done]. cbn. rewrite occurrences_pad; [done|].
      apply lookup_lt_Some in Ex. by rewrite (Forall_lookup_1 _ _ _ _ Hw Hr) in Ex.
    + unfold pad_rows. rewrite length_fmap. lia.
    + unfold pad_rows. apply Forall_fmap, (Forall_impl _ _ _ P3). intros row Hrow. cbn. apply Forall_app. split; [done|]. apply Forall_replicate. lia.
Qed.

Lemma penalized_NInf i j : i < n -> penalized md past i j NInf = NInf.
Proof using Hf.
  intros Hi. unfold penalized. destruct (m_no_penalties md) eqn:En; [done|]. destruct (mf_penalties _ _ _ _ Hf En) as (_ & _ & _ & _ & _ & _ & _ & Hl & Hpos).
  apply (penalize_logit _ _ _ _ _ 0). unfold num_at. destruct (lookup_lt_is_Some_2 (m_repetition_penalties md) i) as [c Ec]; [lia|]. rewrite Ec. by apply (Forall_lookup_1 _ _ _ _ Hpos Ec).
Qed.

Lemma penalized_finite i j x : i < n -> exists r, penalized md past i j (Fin x) = Fin r.
Proof using Hf.
  intros Hi. unfold penalized. destruct (m_no_penalties md) eqn:En; [by eexists|]. destruct (mf_penalties _ _ _ _ Hf En) as (_ & _ & _ & _ & _ & _ & _ & Hl & Hpos).
  apply penalize_logit. unfold num_at. destruct (lookup_lt_is_Some_2 (m_repetition_penalties md) i) as [c Ec]; [lia|]. rewrite Ec. by apply (Forall_lookup_1 _ _ _ _ Hpos Ec).
Qed.

Lemma biased_NInf i j : biased md i j NInf = NInf.
Proof. unfold biased, bias_of. destruct (m_logit_bias md !! i) as [[lb|]|]; [|done..]. by destruct (lb !! _). Qed.

Lemma prepare_logits_ok t : shaped_tensor vocab n t -> prepare_logits vocab md past t = Ok (imap (fun i => imap (prepared md past i)) t).
Proof using Hf.
  intros Ht. unfold prepare_logits. rewrite allowed_ok by done. cbn [mbind result_bind]. pose proof (mask_shaped (fun i j => default false (m ← m_allowed_token_ids_mask md; row ← m !! i; row !! j)) t Ht) as H1.
  rewrite bad_words_ok by exact H1. cbn [mbind result_bind]. eassert (H2 : shaped_tensor vocab n _) by (eapply mask_shaped, H1).
  rewrite bias_ok by exact H2. cbn [mbind result_bind]. pose proof (imap_shaped (biased md) _ H2) as H3. unfold apply_penalties.
  rewrite min_tokens_ok by exact H3. cbn [mbind result_bind]. eassert (H4 : shaped_tensor vocab n _) by (eapply mask_shaped, H3).
  rewrite penalties_ok by exact H4. f_equal. apply list_eq. intros i. rewrite !list_lookup_imap. destruct (t !! i) as [row|] eqn:Er; [|done]. cbn. f_equal.
  apply list_eq. intros j. unfold mask_cols. rewrite !list_lookup_imap. destruct (row !! j) as [x|] eqn:Ex; [|done]. cbn. f_equal. unfold prepared, forbidden.
  assert (Hi : i < n) by (apply lookup_lt_Some in Er; destruct Ht; lia).
  generalize (default false (m ← m_allowed_token_ids_mask md; row ← m !! i; row !! j)) as b1.
  generalize (match m_bad_words_token_ids md !! i with Some ws => existsb (fun w => completes (past !!! i) w j) ws | None => false end) as b2.
  generalize (match m_min_tokens md !! i with
     | Some (m, stops) => bool_decide (Z.of_nat (length (past !!! i)) < m)%Z && bool_decide (Z.of_nat j ∈ stops) | None => false end) as b3.
  intros [] [] []; cbn [orb]; by rewrite ?biased_NInf, ?penalized_NInf.
Qed.
End Prepare.
