(* ===== verification/SamplerTheorems.v ===== *)
(** * Theorems about the sampler

    The filters keep what they promise - the [k] best tokens, the smallest set of
    best tokens with probability [p] - and a token that is drawn is never one that
    the request forbids. *)

From Stdlib Require Import QArith_base QArith Qminmax Lqa.
From S2P Require Import Prelude Numbers NumPy Request Scheduler BlockTable InputBatch Sampler SamplerSpec.

(** What the documentation of torch says of a row. *)
Definition no_nan (row : list float) : Prop := NaN ∉ row.

(** Logits: finite or -inf, and not all -inf. *)
Record proper (row : list float) : Prop := {
  pr_logit : forall x, x ∈ row -> x = NInf \/ exists q, x = Fin q;
  pr_some : exists j q, row !! j = Some (Fin q);
}.

Class TorchRowsLaws (TR : TorchRows) : Prop := {
  argmax_ok : forall row, row <> [] -> no_nan row -> exists x, row !! row_argmax row = Some x /\ forall y, y ∈ row -> fle y x = true;
  length_softmax : forall row, length (row_softmax row) = length row;
  softmax_pos : forall row i x p, proper row -> row !! i = Some x -> row_softmax row !! i = Some p -> (0 <= p)%Q /\ (p == 0 <-> x = NInf)%Q;
  softmax_sum : forall row, proper row -> (qsum (row_softmax row) == 1)%Q;
  sort_all : forall row, (row_sort row).*2 ≡ₚ seq 0 (length row);
  sort_values : forall row v i, (v, i) ∈ row_sort row -> row !! i = Some v;
  sort_ascends : forall row i j v w, no_nan row -> i <= j -> (row_sort row).*1 !! i = Some v -> (row_sort row).*1 !! j = Some w -> fle v w = true;
  topk_length : forall row k, k <= length row -> length (row_topk row k) = k;
  topk_distinct : forall row k, NoDup (row_topk row k).*2;
  topk_values : forall row k v i, (v, i) ∈ row_topk row k -> row !! i = Some v;
  topk_descends : forall row k i j v w, no_nan row -> i <= j -> (row_topk row k).*1 !! i = Some v -> (row_topk row k).*1 !! j = Some w -> fle w v = true;
  topk_best : forall row k i x v, no_nan row -> row !! i = Some x -> i ∉ (row_topk row k).*2 -> v ∈ (row_topk row k).*1 -> fle x v = true;
  length_log_softmax : forall row, length (row_log_softmax row) = length row;
  log_softmax_no_nan : forall row, proper row -> no_nan (row_log_softmax row);
  noise_shape : forall n v, length (exponential n v) = n /\ Forall (fun row => length row = v /\ Forall (fun x => 0 < x)%Q row) (exponential n v);
  own_noise_shape : forall g v, length (exponential_ g v) = v /\ Forall (fun x => 0 < x)%Q (exponential_ g v);
  memory_shape : forall n v, length (empty_rows n v) = n;
}.

(** ** The order of floats *)

Lemma fle_trans x y z : fle x y = true -> fle y z = true -> fle x z = true.
Proof. destruct x, y, z; try done. cbn. rewrite !Qle_bool_iff. apply Qle_trans. Qed.

Lemma fle_refl x : x <> NaN -> fle x x = true.
Proof. destruct x; try done. intros _. apply Qle_bool_iff, Qle_refl. Qed.

Lemma fle_total x y : x <> NaN -> y <> NaN -> fle x y = true \/ fle y x = true.
Proof. destruct x, y; auto. intros _ _. cbn. rewrite !Qle_bool_iff. destruct (Qlt_le_dec x0 x) as [H|H]; [right; by apply Qlt_le_weak|by left]. Qed.

Lemma flt_fle x y : x <> NaN -> y <> NaN -> flt x y = negb (fle y x).
Proof. by destruct x, y. Qed.

Lemma flt_irrefl x : flt x x = false.
Proof. destruct x; try done. cbn. by rewrite (proj2 (Qle_bool_iff _ _)) by apply Qle_refl. Qed.

(** ** The best [k] tokens *)

(** How many tokens of the row are better. *)
Definition better (row : list float) (x : float) : nat := length (filter (fun y => flt x y = true) row).

(** The value that [k] tokens reach, but not [k] tokens exceed. *)
Definition kth_best (row : list float) (k : nat) (v : float) : Prop :=
  better row v < k /\ k <= length (filter (fun y => fle v y = true) row).

Lemma filter_none {A} (P : A -> Prop) `{!forall x, Decision (P x)} l : (forall x, x ∈ l -> ~ P x) -> filter P l = [].
Proof.
  induction l as [|x l IH]; intros Hl; [done|]. rewrite filter_cons_False by (apply Hl; by left). apply IH. intros y Hy. apply Hl. by right.
Qed.

Lemma length_filter_le {A} (P Q : A -> Prop) `{!forall x, Decision (P x)} `{!forall x, Decision (Q x)} l :
  (forall x, x ∈ l -> P x -> Q x) -> length (filter P l) <= length (filter Q l).
Proof.
  induction l as [|x l IH]; intros Hl; [done|]. assert (IH' : length (filter P l) <= length (filter Q l)) by (apply IH; intros y Hy; apply Hl; by right).
  rewrite !filter_cons. destruct (decide (P x)) as [Hp|]; [rewrite decide_True by (apply Hl; [by left|done]); cbn; lia|].
  destruct (decide (Q x)); cbn; lia.
Qed.

Lemma below_kth row k v x : no_nan row -> x ∈ row -> v ∈ row -> kth_best row k v -> flt x v = (k <=? better row x).
Proof.
  intros Hn Hx Hv [H1 H2]. assert (Hnx : forall y, y ∈ row -> y <> NaN) by (by intros y Hy ->). rewrite flt_fle by auto. symmetry.
  destruct (fle v x) eqn:Ev; cbn [negb].
  - apply Nat.leb_gt. eapply Nat.le_lt_trans; [|exact H1]. apply length_filter_le. intros y Hy Hlt. rewrite flt_fle in * by auto.
    apply negb_true_iff in Hlt. apply negb_true_iff. destruct (fle y v) eqn:E; [|done]. by rewrite (fle_trans y v x) in Hlt.
  - apply Nat.leb_le. etransitivity; [exact H2|]. apply length_filter_le. intros y Hy Hle. rewrite flt_fle by auto. apply negb_true_iff.
    destruct (fle y x) eqn:E; [|done]. by rewrite (fle_trans v y x) in Ev.
Qed.

Lemma indexed_perm row (idx : list (float * nat)) : idx.*2 ≡ₚ seq 0 (length row) ->
  (forall v i, (v, i) ∈ idx -> row !! i = Some v) -> idx.*1 ≡ₚ row.
Proof.
  intros Hp Hv. assert (E1 : idx.*1 = (fun i => row !!! i) <$> idx.*2).
  { rewrite <-list_fmap_compose. apply list_fmap_ext. intros k [v i] Hk%list_elem_of_lookup_2. cbn. symmetry. apply list_lookup_total_correct. by apply Hv. }
  rewrite E1, Hp. enough (E2 : (fun i => row !!! i) <$> seq 0 (length row) = row) by (by rewrite E2). apply list_eq. intros k. rewrite list_lookup_fmap. destruct (row !! k) as [x|] eqn:Ek.
  - rewrite lookup_seq_lt by (by eapply lookup_lt_Some). cbn. f_equal. by apply list_lookup_total_correct.
  - rewrite lookup_ge_None_2; [done|]. rewrite length_seq. by apply lookup_ge_None_1.
Qed.

(** The places of the values that satisfy [P]. *)
Definition places (P : float -> bool) (row : list float) : list nat := (filter (fun x : float * nat => P x.1 = true) (zip row (seq 0 (length row)))).*2.

Lemma length_places P row : length (places P row) = length (filter (fun x => P x = true) row).
Proof.
  unfold places. rewrite length_fmap. generalize (seq 0 (length row)), (length_seq (length row) 0). induction row as [|x row IH]; intros [|i l] Hl; try done. cbn [zip zip_with].
  rewrite !filter_cons. cbn [fst]. destruct (decide (P x = true)); cbn; rewrite IH by (cbn in Hl; lia); done.
Qed.

Lemma elem_of_places P row i : i ∈ places P row <-> exists x, row !! i = Some x /\ P x = true.
Proof.
  unfold places. rewrite list_elem_of_fmap. split.
  - intros ([x j] & -> & [Hx Hin]%list_elem_of_filter). exists x. split; [|done]. apply list_elem_of_lookup in Hin as [k Hk].
    rewrite lookup_zip_with in Hk. destruct (row !! k) as [y|] eqn:Ey; [|done]. cbn in Hk. rewrite lookup_seq_lt in Hk by (by eapply lookup_lt_Some).
    cbn in Hk. by injection Hk as <- <-.
  - intros (x & Hx & Hp). exists (x, i). split; [done|]. apply list_elem_of_filter. split; [done|]. apply list_elem_of_lookup. exists i.
    rewrite lookup_zip_with, Hx. cbn. by rewrite lookup_seq_lt by (by eapply lookup_lt_Some).
Qed.

Lemma nodup_places P row : NoDup (places P row).
Proof.
  assert (H : places P row `sublist_of` seq 0 (length row)).
  { unfold places. etransitivity; [apply fmap_sublist, sublist_filter|]. rewrite snd_zip by (by rewrite length_seq). done. }
  eapply sublist_NoDup; [|exact H]. apply NoDup_seq.
Qed.

Lemma count_at_least P (row : list float) idx : NoDup idx -> (forall i, i ∈ idx -> exists x, row !! i = Some x /\ P x = true) -> length idx <= length (filter (fun x => P x = true) row).
Proof. intros Hn H. rewrite <-length_places. apply submseteq_length, NoDup_submseteq; [done|]. intros i Hi. by apply elem_of_places, H. Qed.

Lemma count_at_most P (row : list float) idx : (forall i x, row !! i = Some x -> P x = true -> i ∈ idx) -> length (filter (fun x => P x = true) row) <= length idx.
Proof.
  intros H. rewrite <-length_places. apply submseteq_length, NoDup_submseteq; [apply nodup_places|]. intros i (x & Hx & Hp)%elem_of_places. by apply (H i x).
Qed.

Section Theorems.
Context `{TR : TorchRows} `{!TorchRowsLaws TR}.

Lemma sort_perm row : (row_sort row).*1 ≡ₚ row.
Proof. apply indexed_perm; [apply sort_all|apply sort_values]. Qed.

Lemma length_sort row : length (row_sort row) = length row.
Proof. rewrite <-(length_fmap snd), sort_all. by rewrite length_seq. Qed.

(** In the sorted row: [k] places from the end. *)
Lemma sorted_kth row (k : nat) v : no_nan row -> 1 <= k <= length row -> (row_sort row).*1 !! (length row - k) = Some v -> kth_best row k v.
Proof.
  intros Hn Hk Hv. set (s := (row_sort row).*1) in *. assert (Hs : length s = length row) by (unfold s; by rewrite length_fmap, length_sort).
  assert (Hnn : forall y, y ∈ s -> y <> NaN) by (intros y Hy ->; unfold s in Hy; by rewrite sort_perm in Hy).
  rewrite <-(take_drop (length row - k) s) in Hv.
  assert (Hlow : forall y, y ∈ take (S (length row - k)) s -> fle y v = true).
  { intros y (j & Hj)%list_elem_of_lookup. apply lookup_take_Some in Hj as [Hj Hlt]. rewrite take_drop in Hv. eapply (sort_ascends row j (length row - k)); [done|lia|exact Hj|exact Hv]. }
  assert (Hhigh : forall y, y ∈ drop (length row - k) s -> fle v y = true).
  { intros y (j & Hj)%list_elem_of_lookup. rewrite lookup_drop in Hj. rewrite take_drop in Hv. eapply (sort_ascends row (length row - k)); [done| |exact Hv|exact Hj]. lia. }
  rewrite take_drop in Hv. assert (Hvs : v ∈ s) by (by eapply list_elem_of_lookup_2).
  split.
  - unfold better. rewrite <-(sort_perm row). fold s. rewrite <-(take_drop (S (length row - k)) s), filter_app, length_app.
    assert (E0 : filter (fun y => flt v y = true) (take (S (length row - k)) s) = []).
    { apply filter_none. intros y Hy Hlt. assert (y ∈ s) by (rewrite <-(take_drop (S (length row - k)) s); apply elem_of_app; by left). rewrite flt_fle in Hlt by auto. by rewrite Hlow in Hlt. }
    rewrite E0. cbn [length]. eapply Nat.le_lt_trans; [apply length_filter|]. rewrite length_drop. lia.
  - rewrite <-(sort_perm row). fold s. rewrite <-(take_drop (length row - k) s) at 1. rewrite filter_app, length_app.
    rewrite (list_filter_all _ (drop _ s)) by done. rewrite length_drop. lia.
Qed.

(** Among the best [m]: the [k]-th. *)
Lemma topk_kth row (m k : nat) v : no_nan row -> 1 <= k <= m -> m <= length row -> (row_topk row m).*1 !! (k - 1) = Some v -> kth_best row k v.
Proof.
  intros Hn Hk Hm Hv. set (T := row_topk row m) in *. pose proof (topk_length row m Hm) as HT. fold T in HT. pose proof (topk_distinct row m) as Hd. fold T in Hd.
  assert (Hnn : forall y, y ∈ row -> y <> NaN) by (by intros y Hy ->).
  assert (Hrow : forall j x i, T !! j = Some (x, i) -> row !! i = Some x) by (intros j x i Hj; apply (topk_values row m); by eapply list_elem_of_lookup_2).
  assert (Hvr : v <> NaN).
  { rewrite list_lookup_fmap in Hv. destruct (T !! (k - 1)) as [[x i]|] eqn:E; [|done]. cbn in Hv. injection Hv as ->. eapply Hnn, list_elem_of_lookup_2, Hrow, E. }
  split.
  - unfold better. eapply Nat.le_lt_trans; [apply (count_at_most _ _ (take (k - 1) T.*2))|rewrite length_take, length_fmap; lia].
    intros i x Hx Hlt. rewrite flt_fle in Hlt by (eauto using list_elem_of_lookup_2). apply negb_true_iff in Hlt. destruct (decide (i ∈ T.*2)) as [Hi|Hi].
    + apply list_elem_of_lookup in Hi as [j Hj]. destruct (decide (j < k - 1)) as [Hlt'|Hge]; [apply list_elem_of_lookup; exists j; by rewrite lookup_take_lt|].
      pose proof Hj as Hj'. rewrite list_lookup_fmap in Hj'. destruct (T !! j) as [[y i']|] eqn:E; [|done]. cbn in Hj'. injection Hj' as ->.
      rewrite (Hrow j y i E) in Hx. injection Hx as <-. rewrite (topk_descends row m (k - 1) j v y Hn) in Hlt; [done|lia|exact Hv|].
      fold T. by rewrite list_lookup_fmap, E.
    + by rewrite (topk_best row m i x v Hn Hx Hi) in Hlt by (by eapply list_elem_of_lookup_2).
  - assert (E : length (take k T).*2 = k) by (rewrite length_fmap, length_take; lia). rewrite <-E at 1. apply count_at_least.
    + eapply sublist_NoDup; [exact Hd|]. apply fmap_sublist, sublist_take.
    + intros i ([y i'] & -> & (j & Hj)%list_elem_of_lookup)%list_elem_of_fmap. apply lookup_take_Some in Hj as [Hj Hlt]. exists y. split; [by eapply Hrow|].
      eapply (topk_descends row m j (k - 1)); [done|lia| |exact Hv]. fold T. by rewrite list_lookup_fmap, Hj.
Qed.

(** [k] tokens are kept. *)
Definition top_k_masked (k : nat) (row : list float) (j : nat) : bool := k <=? better row (row !!! j).

Definition top_k_row (k : nat) (row : list float) : list float := mask_cols (top_k_masked k row) row.

Lemma fill_below_kth row k v : no_nan row -> v ∈ row -> kth_best row k v -> fill_below v row = top_k_row k row.
Proof.
  intros Hn Hv Hk. apply list_eq. intros j. unfold fill_below, top_k_row, mask_cols. rewrite list_lookup_fmap, list_lookup_imap.
  destruct (row !! j) as [x|] eqn:Ex; [|done]. cbn. unfold top_k_masked. rewrite (list_lookup_total_correct _ _ _ Ex).
  by rewrite <-(below_kth row k v x Hn) by (done || by eapply list_elem_of_lookup_2).
Qed.

Lemma better_lt row x : no_nan row -> x ∈ row -> better row x < length row.
Proof.
  intros Hn Hx. unfold better. apply list_elem_of_split in Hx as (l1 & l2 & ->). rewrite filter_app, filter_cons_False by (by rewrite flt_irrefl).
  pose proof (length_filter (fun y => flt x y = true) l1). pose proof (length_filter (fun y => flt x y = true) l2). rewrite !length_app. cbn. lia.
Qed.

Lemma top_k_all row : no_nan row -> top_k_row (length row) row = row.
Proof.
  intros Hn. unfold top_k_row. rewrite <-(mask_none row) at 4. apply mask_ext. intros j Hj. apply Nat.leb_gt, better_lt; [done|].
  destruct (lookup_lt_is_Some_2 row j Hj) as [x Ex]. rewrite (list_lookup_total_correct _ _ _ Ex). by eapply list_elem_of_lookup_2.
Qed.

Lemma fill_below_NInf row : no_nan row -> fill_below NInf row = row.
Proof. intros Hn. unfold fill_below. rewrite <-(list_fmap_id row) at 2. apply list_fmap_ext. intros i x Hx. by destruct x. Qed.

(** One row of [apply_top_k_only]. *)
Lemma top_k_only_row_ok vocab (m : Z) (k : nat) row : no_nan row -> length row = vocab -> 1 <= k <= vocab -> (1 <= m <= Z.of_nat vocab)%Z ->
  (k = vocab \/ Z.of_nat k <= m)%Z -> top_k_only_row vocab m (Z.of_nat k) row = Ok (top_k_row k row).
Proof.
  intros Hn Hl Hk Hm Hkm. unfold top_k_only_row, gather. destruct (Z.eqb_spec (Z.of_nat k) (Z.of_nat vocab)) as [E|Hne].
  - rewrite (proj2 (Z.ltb_ge _ _)) by lia. destruct (lookup_lt_is_Some_2 (row_topk row (Z.to_nat m)).*1 (Z.to_nat (1 - 1))) as [v Ev].
    { rewrite length_fmap, topk_length by lia. lia. }
    rewrite Ev. cbn. rewrite fill_below_NInf by done. replace k with (length row) by lia. by rewrite top_k_all.
  - rewrite (proj2 (Z.ltb_ge _ _)) by lia. destruct (lookup_lt_is_Some_2 (row_topk row (Z.to_nat m)).*1 (Z.to_nat (Z.of_nat k - 1))) as [v Ev].
    { rewrite length_fmap, topk_length by lia. lia. }
    rewrite Ev. cbn. f_equal. replace (Z.to_nat (Z.of_nat k - 1)) with (k - 1) in Ev by lia. apply fill_below_kth; [done| |apply (topk_kth row (Z.to_nat m)); [done|lia|lia|exact Ev]].
    rewrite list_lookup_fmap in Ev. destruct (row_topk row (Z.to_nat m) !! (k - 1)) as [[x i]|] eqn:E; [|done]. cbn in Ev. injection Ev as ->.
    eapply list_elem_of_lookup_2, (topk_values row (Z.to_nat m)), list_elem_of_lookup_2, E.
Qed.

(** ** The nucleus *)

(** Of values in ascending order the first [c] are left out: together they have at
    most probability [1 - p], and with the next one more. *)
Definition nucleus (p : Q) (P : list Q) (c : nat) : Prop :=
  (qsum (take c P) <= 1 - p)%Q /\ (S c = length P \/ (1 - p < qsum (take (S c) P))%Q).

Lemma qsum_take_S P c : Forall (fun x => 0 <= x)%Q P -> (qsum (take c P) <= qsum (take (S c) P))%Q.
Proof.
  intros H. revert c. induction H as [|x P Hx HP IH]; intros c; [by destruct c|]. cbn in Hx. destruct c as [|c]; cbn; [rewrite take_0; cbn; lra|]. specialize (IH c). cbn in IH. lra.
Qed.

Lemma none_below t P : forall acc, Forall (fun x => 0 <= x)%Q P -> (t < acc)%Q -> (fun s => Qle_bool s t) <$> sums_from acc P = replicate (length P) false.
Proof.
  induction P as [|x P IH]; intros acc HP Hlt; [done|]. apply Forall_cons in HP as [Hx HP]. cbn. rewrite IH by (done || lra). f_equal.
  apply not_true_iff_false. rewrite Qle_bool_iff. lra.
Qed.

Lemma cut_exists t P : forall acc, Forall (fun x => 0 <= x)%Q P -> exists c, c <= length P /\
  (fun s => Qle_bool s t) <$> sums_from acc P = replicate c true ++ replicate (length P - c) false /\
  (c = 0%nat \/ acc + qsum (take c P) <= t)%Q /\ (c = length P \/ (t < acc + qsum (take (S c) P))%Q).
Proof.
  induction P as [|x P IH]; intros acc HP; [by exists 0; repeat split; left|]. apply Forall_cons in HP as [Hx HP]. cbn [sums_from length fmap list_fmap].
  destruct (Qle_bool (acc + x) t) eqn:E.
  - apply Qle_bool_iff in E. destruct (IH (acc + x)%Q HP) as (c & Hc & Em & H1 & H2). exists (S c). split; [lia|]. split; [cbn; by rewrite Em|]. split.
    + right. cbn. destruct H1 as [->|H1]; [rewrite take_0; cbn; lra|lra].
    + destruct H2 as [->|H2]; [by left|right]. change (take (S (S c)) (x :: P)) with (x :: take (S c) P). cbn [qsum]. lra.
  - apply not_true_iff_false in E. rewrite Qle_bool_iff in E. exists 0. split; [lia|]. split.
    + cbn. f_equal. apply none_below; [done|lra].
    + split; [by left|]. right. change (take 1 (x :: P)) with (x :: take 0 P). rewrite take_0. cbn. lra.
Qed.

Lemma length_sums acc P : length (sums_from acc P) = length P.
Proof. revert acc. induction P as [|x P IH]; intros acc; cbn; [done|]. by rewrite IH. Qed.

Lemma top_p_mask_ok p s : s <> [] -> (p <= 1)%Q -> Forall (fun x => 0 <= x)%Q (row_softmax s) -> exists c, c < length s /\
  top_p_mask p s = replicate c true ++ replicate (length s - c) false /\ nucleus p (row_softmax s) c.
Proof.
  intros Hs Hp HP. unfold top_p_mask. rewrite length_fmap, length_sums, length_softmax. set (P := row_softmax s) in *. assert (Hn : length P = length s) by apply length_softmax.
  assert (Hpos : 0 < length s) by (destruct s; [done|cbn; lia]). destruct (cut_exists (1 - p) P 0 HP) as (c & Hc & Em & H1 & H2). rewrite Em, Hn.
  assert (Hzero : forall k, (k = 0%nat \/ 0 + qsum (take k P) <= 1 - p)%Q -> (qsum (take k P) <= 1 - p)%Q) by (intros k [->|H]; [rewrite take_0; cbn; lra|lra]).
  destruct (decide (c = length s)) as [->|Hlt].
  - exists (length s - 1). split; [lia|]. split.
    + rewrite Nat.sub_diag, app_nil_r. replace (replicate (length s) true) with (replicate (length s - 1) true ++ [true]).
      * rewrite insert_app_r_alt by (rewrite length_replicate; lia). rewrite length_replicate, Nat.sub_diag. by replace (length s - (length s - 1)) with 1 by lia.
      * change [true] with (replicate 1 true). rewrite <-replicate_add. f_equal. lia.
    + split; [|left; lia]. eapply Qle_trans; [by apply (qsum_take_S P (length s - 1))|]. replace (S (length s - 1)) with (length s) by lia. by apply Hzero.
  - exists c. split; [lia|]. split.
    + rewrite insert_app_r_alt by (rewrite length_replicate; lia). rewrite length_replicate. f_equal.
      rewrite list_insert_id; [done|]. apply lookup_replicate. split; [done|lia].
    + split; [by apply Hzero|]. right. destruct H2 as [H2|H2]; [lia|lra].
Qed.

(** *** Back in the order of the vocabulary *)

Lemma inserts_at {A} (L : list (nat * A)) : forall acc, NoDup L.*1 -> (forall i x, (i, x) ∈ L -> i < length acc) -> forall i x, (i, x) ∈ L ->
  foldl (fun row '(i, x) => <[i := x]> row) acc L !! i = Some x.
Proof.
  induction L as [|[k y] L IH] using rev_ind; intros acc Hn Hi i x Hx; [by apply elem_of_nil in Hx|]. rewrite foldl_app. cbn [foldl].
  assert (Hlen : forall L' acc', length (foldl (fun (row : list A) '(i, x) => <[i := x]> row) acc' L') = length acc').
  { clear. induction L' as [|[k y] L' IH]; intros acc; [done|]. cbn. by rewrite IH, length_insert. }
  rewrite fmap_app in Hn. apply NoDup_app in Hn as (Hn & Hd & _). apply elem_of_app in Hx as [Hx|Hx].
  - rewrite list_lookup_insert_ne.
    + apply IH; [done| |done]. intros i' x' Hin. apply (Hi i' x'). apply elem_of_app. by left.
    + intros ->. apply (Hd i); [apply list_elem_of_fmap; by exists (i, x)|]. by left.
  - apply list_elem_of_singleton in Hx. injection Hx as -> ->. rewrite list_lookup_insert_eq; [done|]. rewrite Hlen. apply (Hi k y). apply elem_of_app. right. by left.
Qed.

Lemma scatter_at index src a i x : NoDup index -> length index = length src -> (forall i, i ∈ index -> i < length src) ->
  index !! a = Some i -> src !! a = Some x -> scatter index src !! i = Some x.
Proof.
  intros Hn Hl Hi Ha Hx. unfold scatter. apply inserts_at.
  - by rewrite fst_zip by lia.
  - intros i' x' Hin. apply Hi. apply (list_elem_of_fmap_2 fst) in Hin as Hin'. rewrite fst_zip in Hin' by lia. exact Hin'.
  - apply list_elem_of_lookup. exists a. rewrite lookup_zip_with, Ha. cbn. by rewrite Hx.
Qed.

Lemma length_scatter index src : length (scatter index src) = length src.
Proof.
  unfold scatter. generalize (zip index src). intros L. revert src. induction L as [|[k y] L IH]; intros acc; [done|]. cbn. by rewrite IH, length_insert.
Qed.

(** The order of a row: its tokens, from the least likely to the most. *)
Definition ascending (row : list float) (order : list nat) : Prop :=
  order ≡ₚ seq 0 (length row) /\ forall a b i j, a <= b -> order !! a = Some i -> order !! b = Some j -> fle (row !!! i) (row !!! j) = true.

Lemma sort_order row : no_nan row -> ascending row (row_sort row).*2 /\ (row_sort row).*1 = (fun i => row !!! i) <$> (row_sort row).*2.
Proof.
  intros Hn. assert (Hv : (row_sort row).*1 = (fun i => row !!! i) <$> (row_sort row).*2).
  { rewrite <-list_fmap_compose. apply list_fmap_ext. intros k [v i] Hk%list_elem_of_lookup_2. cbn. symmetry. by apply list_lookup_total_correct, sort_values. }
  split; [|done]. split; [apply sort_all|]. intros a b i j Hab Ha Hb. eapply (sort_ascends row a b); [done|done|..]; rewrite Hv, list_lookup_fmap, ?Ha, ?Hb; done.
Qed.

Definition masked_row (k : option nat) (row : list float) : list float := match k with Some k => top_k_row k row | None => row end.

Lemma row_lookup (row : list float) i : i < length row -> row !! i = Some (row !!! i).
Proof. intros Hi. destruct (lookup_lt_is_Some_2 row i Hi) as [x Ex]. by rewrite (list_lookup_total_correct _ _ _ Ex). Qed.

Lemma top_k_sorted_ok vocab k row : no_nan row -> length row = vocab -> (forall n, k = Some n -> 1 <= n <= vocab) ->
  top_k_sorted vocab (Z.of_nat <$> k) (row_sort row).*1 = Ok ((fun i => masked_row k row !!! i) <$> (row_sort row).*2).
Proof.
  intros Hn Hl Hk. destruct (sort_order row Hn) as [[Hp _] Hs]. unfold top_k_sorted. destruct k as [k|]; cbn [fmap option_fmap option_map masked_row]; [|by rewrite Hs].
  specialize (Hk k eq_refl). unfold gather. rewrite (proj2 (Z.ltb_ge _ _)) by lia. replace (Z.to_nat (Z.of_nat vocab - Z.of_nat k)) with (length row - k) by lia.
  destruct (lookup_lt_is_Some_2 (row_sort row).*1 (length row - k)) as [v Ev]; [rewrite length_fmap, length_sort; lia|]. rewrite Ev. cbn [of_option mbind result_bind].
  assert (Hv : v ∈ row) by (rewrite <-(sort_perm row); by eapply list_elem_of_lookup_2).
  assert (Hkth : kth_best row k v) by (by apply sorted_kth; [done|lia|]). f_equal. rewrite <-(fill_below_kth row k v Hn Hv Hkth). rewrite Hs. unfold fill_below.
  rewrite <-list_fmap_compose. apply list_fmap_ext. intros a i Hi%list_elem_of_lookup_2. cbn. rewrite Hp, elem_of_seq in Hi. symmetry. apply list_lookup_total_correct.
  rewrite list_lookup_fmap, row_lookup by lia. done.
Qed.

(** One row of the sorting filter: what is left of the best [k] tokens is a
    nucleus of them. *)
Lemma top_k_top_p_row_ok vocab k p row : no_nan row -> length row = vocab -> 0 < vocab -> (forall n, k = Some n -> 1 <= n <= vocab) -> (p <= 1)%Q ->
  Forall (fun x => 0 <= x)%Q (row_softmax ((fun i => masked_row k row !!! i) <$> (row_sort row).*2)) ->
  exists order c, ascending row order /\ c < vocab /\ nucleus p (row_softmax ((fun i => masked_row k row !!! i) <$> order)) c /\
    top_k_top_p_row vocab (Z.of_nat <$> k) p row = Ok (mask_cols (fun j => bool_decide (j ∈ take c order)) (masked_row k row)).
Proof.
  intros Hn Hl Hv Hk Hp HP. destruct (sort_order row Hn) as [Hasc Hs]. set (order := (row_sort row).*2) in *. set (s := (fun i => masked_row k row !!! i) <$> order) in *.
  destruct Hasc as [Hperm Hle]. assert (Hlo : length order = vocab) by (rewrite Hperm, length_seq; done). assert (Hls : length s = vocab) by (unfold s; by rewrite length_fmap).
  destruct (top_p_mask_ok p s) as (c & Hc & Em & Hnu); [intros Hnil; rewrite Hnil in Hls; cbn in Hls; lia|done|done|]. rewrite Hls in Hc, Em.
  exists order, c. split; [by split|]. split; [done|]. split; [done|]. unfold top_k_top_p_row. rewrite (top_k_sorted_ok vocab k row Hn Hl Hk). fold order s. cbn [mbind result_bind].
  rewrite Em. f_equal. assert (Hnd : NoDup order) by (rewrite Hperm; apply NoDup_seq).
  assert (Hlm : length (masked_row k row) = vocab) by (destruct k; [by unfold masked_row, top_k_row; rewrite length_mask|done]).
  apply list_eq. intros j. unfold mask_cols at 1. rewrite list_lookup_imap. destruct (decide (j < vocab)) as [Hj|Hj].
  2: { rewrite (lookup_ge_None_2 (masked_row k row)) by lia. cbn. apply lookup_ge_None_2. rewrite length_scatter. unfold masked_fill_row. rewrite length_zip_with. lia. }
  rewrite (row_lookup (masked_row k row)) by lia. cbn. assert (Hin : j ∈ order) by (rewrite Hperm; apply elem_of_seq; lia). apply list_elem_of_lookup in Hin as [a Ha].
  assert (Ha' : a < vocab) by (apply lookup_lt_Some in Ha; lia).
  rewrite (scatter_at order _ a j (if bool_decide (j ∈ take c order) then NInf else masked_row k row !!! j)); try done.
  - rewrite Hlo. unfold masked_fill_row. rewrite length_zip_with, length_app, !length_replicate. lia.
  - intros i Hi. unfold masked_fill_row. rewrite length_zip_with, length_app, !length_replicate. rewrite Hperm, elem_of_seq in Hi. lia.
  - unfold masked_fill_row. rewrite lookup_zip_with. assert (Es : s !! a = Some (masked_row k row !!! j)) by (unfold s; by rewrite list_lookup_fmap, Ha).
    rewrite Es. case_bool_decide as Hb.
    + apply list_elem_of_lookup in Hb as [b Hb]. apply lookup_take_Some in Hb as [Hb Hbc]. assert (a = b) as -> by (by eapply NoDup_lookup).
      rewrite lookup_app_l by (by rewrite length_replicate). by rewrite lookup_replicate_2.
    + assert (Hac : c <= a). { apply Nat.nlt_ge. intros Hlt. apply Hb, list_elem_of_lookup. exists a. by rewrite lookup_take_lt. }
      rewrite lookup_app_r, length_replicate by (by rewrite length_replicate). by rewrite lookup_replicate_2 by lia.
Qed.

(** ** Proper rows stay proper *)

Lemma proper_no_nan row : proper row -> no_nan row.
Proof. intros [H _] Hin. destruct (H _ Hin) as [|[q ?]]; done. Qed.

Lemma proper_mask C row j q : proper row -> row !! j = Some (Fin q) -> C j = false -> proper (mask_cols C row).
Proof.
  intros [H _] Hj HC. split.
  - intros x (i & y & -> & Hy)%elem_of_lookup_imap. destruct (C i); [by left|]. eapply H, list_elem_of_lookup_2, Hy.
  - exists j, q. unfold mask_cols. rewrite list_lookup_imap, Hj. cbn. by rewrite HC.
Qed.

Lemma mask_finite C (row : list float) j q : mask_cols C row !! j = Some (Fin q) -> row !! j = Some (Fin q) /\ C j = false.
Proof. unfold mask_cols. rewrite list_lookup_imap. destruct (row !! j) as [x|]; [|done]. cbn. by destruct (C j); intros [= ->]. Qed.

(** The best token of a row. *)
Lemma best_exists row : proper row -> exists j q, row !! j = Some (Fin q) /\ better row (Fin q) = 0 /\ forall y, y ∈ row -> fle y (Fin q) = true.
Proof.
  intros Hp. pose proof (proper_no_nan row Hp) as Hn. destruct Hp as [H (i & r & Hi)].
  destruct (argmax_ok row) as (x & Hx & Hmax); [by intros ->|done|]. exists (row_argmax row).
  assert (Hfin : exists q, x = Fin q).
  { destruct (H x) as [->|[q ->]]; [by eapply list_elem_of_lookup_2| |by exists q]. by pose proof (Hmax (Fin r) ltac:(by eapply list_elem_of_lookup_2)) as Hr. }
  destruct Hfin as [q ->]. exists q. split; [done|]. split; [|done]. unfold better. rewrite filter_none; [done|]. intros y Hy Hlt.
  assert (Hny : y <> NaN) by (by intros ->). rewrite flt_fle in Hlt by done. by rewrite Hmax in Hlt.
Qed.

Lemma proper_masked k row : proper row -> (forall n, k = Some n -> 1 <= n) -> proper (masked_row k row).
Proof.
  intros Hp Hk. destruct k as [k|]; [|done]. specialize (Hk k eq_refl). destruct (best_exists row Hp) as (j & q & Hj & Hb & _).
  apply (proper_mask _ row j q); [done|done|]. unfold top_k_masked. rewrite (list_lookup_total_correct _ _ _ Hj), Hb. by apply Nat.leb_gt.
Qed.

Lemma proper_order row order : proper row -> order ≡ₚ seq 0 (length row) -> proper ((fun i => row !!! i) <$> order).
Proof.
  intros [H (j & q & Hj)] Hp. split.
  - intros x (i & -> & Hi)%list_elem_of_fmap. rewrite Hp, elem_of_seq in Hi. eapply H, list_elem_of_lookup_2, row_lookup. lia.
  - assert (Hin : j ∈ order) by (rewrite Hp; apply elem_of_seq; apply lookup_lt_Some in Hj; lia). apply list_elem_of_lookup in Hin as [a Ha].
    exists a, q. rewrite list_lookup_fmap, Ha. cbn. f_equal. by apply list_lookup_total_correct.
Qed.

Lemma softmax_nonneg row : proper row -> Forall (fun x => 0 <= x)%Q (row_softmax row).
Proof.
  intros Hp. apply Forall_forall. intros p (i & Hi)%list_elem_of_lookup. assert (Hl : i < length row) by (rewrite <-length_softmax; by eapply lookup_lt_Some).
  by apply (softmax_pos row i (row !!! i) p Hp); [apply row_lookup|].
Qed.

(** ** The filters *)

(** The tokens that are kept have together at least probability [p], and the least
    likely of them is needed for that, or it is the only one. *)
Definition nucleus_kept (p : Q) (P : list Q) (c : nat) : Prop := (p <= qsum (drop c P))%Q /\ (S c = length P \/ (qsum (drop (S c) P) < p)%Q).

Lemma nucleus_mass p P c : (qsum P == 1)%Q -> nucleus p P c -> nucleus_kept p P c.
Proof.
  intros H1 [H2 H3]. pose proof (qsum_split c P). pose proof (qsum_split (S c) P). split; [lra|]. destruct H3 as [H3|H3]; [by left|right; lra].
Qed.

(** What the filters make of a row. *)
Definition filter_row (k : option nat) (p : option Q) (row row' : list float) : Prop :=
  match p with
  | None => row' = masked_row k row
  | Some p => exists order c, ascending row order /\ c < length row /\ nucleus_kept p (row_softmax ((fun i => masked_row k row !!! i) <$> order)) c /\
      row' = mask_cols (fun j => bool_decide (j ∈ take c order)) (masked_row k row)
  end.

Lemma per_row_ok {A B} (f : A -> list float -> result B) ps t : length ps = length t ->
  (forall p row, p ∈ ps -> row ∈ t -> exists b, f p row = Ok b) ->
  exists l, per_row f ps t = Ok l /\ length l = length t /\ forall i p row, ps !! i = Some p -> t !! i = Some row -> exists b, l !! i = Some b /\ f p row = Ok b.
Proof.
  revert t. induction ps as [|p ps IH]; intros [|row t] Hl H; try done; [by exists []|]. destruct (H p row) as [b Hb]; [by left..|].
  destruct (IH t) as (l & E1 & E2 & E3); [cbn in Hl; lia|intros; apply H; by right|]. exists (b :: l). cbn [per_row]. rewrite Hb. cbn [mbind result_bind]. rewrite E1.
  split; [done|]. split; [cbn; lia|]. intros [|i] p' row' Hp Hr; [cbn in *; injection Hp as <-; injection Hr as <-; by exists b|by apply E3].
Qed.

Lemma gather_ok {A} (l : list A) i : (0 <= i < Z.of_nat (length l))%Z -> exists x, gather l i = Ok x.
Proof.
  intros H. unfold gather. rewrite (proj2 (Z.ltb_ge _ _)) by lia. destruct (lookup_lt_is_Some_2 l (Z.to_nat i)) as [x ->]; [lia|]. by exists x.
Qed.

Lemma fill_below_length v row : length (fill_below v row) = length row.
Proof. apply length_fmap. Qed.

Lemma top_k_only_row_total vocab (m : Z) (k : nat) row : length row = vocab -> 1 <= k <= vocab -> (1 <= m <= Z.of_nat vocab)%Z -> (k = vocab \/ Z.of_nat k <= m)%Z ->
  exists row', top_k_only_row vocab m (Z.of_nat k) row = Ok row' /\ length row' = vocab /\ (proper row -> row' = top_k_row k row).
Proof.
  intros Hl Hk Hm Hkm. assert (exists row', top_k_only_row vocab m (Z.of_nat k) row = Ok row' /\ length row' = vocab) as (row' & E1 & E2).
  { unfold top_k_only_row. destruct (gather_ok (row_topk row (Z.to_nat m)).*1 ((if (Z.of_nat k =? Z.of_nat vocab)%Z then 1 else Z.of_nat k) - 1)) as [v ->].
    - rewrite length_fmap, topk_length by lia. destruct (Z.eqb_spec (Z.of_nat k) (Z.of_nat vocab)); lia.
    - cbn. eexists. split; [done|]. by rewrite fill_below_length. }
  exists row'. split; [done|]. split; [done|]. intros Hp. rewrite (top_k_only_row_ok vocab m k row) in E1; try done; [by injection E1|by apply proper_no_nan].
Qed.

Lemma top_k_top_p_row_total vocab k p row : length row = vocab -> 0 < vocab -> (forall n, k = Some n -> 1 <= n <= vocab) -> (p <= 1)%Q ->
  exists row', top_k_top_p_row vocab (Z.of_nat <$> k) p row = Ok row' /\ length row' = vocab /\ (proper row -> filter_row k (Some p) row row').
Proof.
  intros Hl Hv Hk Hp. assert (exists row', top_k_top_p_row vocab (Z.of_nat <$> k) p row = Ok row' /\ length row' = vocab) as (row' & E1 & E2).
  { assert (exists s, top_k_sorted vocab (Z.of_nat <$> k) (row_sort row).*1 = Ok s /\ length s = vocab) as (s & Es & Els).
    { unfold top_k_sorted. destruct k as [k|]; cbn [fmap option_fmap option_map]; [|eexists; split; [done|by rewrite length_fmap, length_sort]]. specialize (Hk k eq_refl).
      destruct (gather_ok (row_sort row).*1 (Z.of_nat vocab - Z.of_nat k)) as [v ->]; [rewrite length_fmap, length_sort; lia|]. eexists. split; [done|].
      by rewrite fill_below_length, length_fmap, length_sort. }
    unfold top_k_top_p_row. rewrite Es. cbn. eexists. split; [done|]. rewrite length_scatter. unfold masked_fill_row, top_p_mask.
    rewrite length_zip_with, length_insert, !length_fmap, length_sums, length_softmax. lia. }
  exists row'. split; [done|]. split; [done|]. intros Hpr. assert (Hk1 : forall n, k = Some n -> 1 <= n) by (intros n Hn; by apply Hk).
  assert (Hlm : length (masked_row k row) = length row) by (destruct k; [by unfold masked_row, top_k_row; rewrite length_mask|done]).
  assert (Hprop : forall order, order ≡ₚ seq 0 (length row) -> proper ((fun i => masked_row k row !!! i) <$> order)).
  { intros order Ho. apply proper_order; [by apply proper_masked|by rewrite Hlm]. }
  destruct (top_k_top_p_row_ok vocab k p row) as (order & c & Ha & Hc & Hnu & E); try done; [by apply proper_no_nan|apply softmax_nonneg, Hprop, sort_all|].
  rewrite E in E1. injection E1 as <-. exists order, c. split; [done|]. split; [lia|]. split; [|done]. apply nucleus_mass; [|done]. apply softmax_sum, Hprop, Ha.
Qed.

Definition at_row {A} (o : option (list A)) (i : nat) : option A := match o with Some l => l !! i | None => None end.

Record filters_fit (vocab n : nat) (k : option (list nat)) (p : option (list Q)) : Prop := {
  ff_k : forall l, k = Some l -> length l = n /\ Forall (fun k => 1 <= k <= vocab) l;
  ff_p : forall l, p = Some l -> length l = n /\ Forall (fun p => 0 < p <= 1)%Q l;
}.

Lemma foldr_max_le c l x : x ∈ c :: l -> (x <= foldr Z.max c l)%Z.
Proof.
  revert x. induction l as [|y l IH]; intros x Hx; cbn; [apply list_elem_of_singleton in Hx as ->; lia|].
  apply elem_of_cons in Hx as [->|[->|Hx]%elem_of_cons]; [|lia|]; (etransitivity; [apply IH|apply Z.le_max_r]); [by left|by right].
Qed.

Lemma foldr_max_in c l : foldr Z.max c l ∈ c :: l.
Proof.
  induction l as [|y l IH]; cbn; [by left|]. destruct (Z.max_spec y (foldr Z.max c l)) as [[_ ->]|[_ ->]]; [|by right; left].
  apply elem_of_cons in IH as [IH|IH]; [rewrite IH; by left|by right; right].
Qed.

(** The filters, request by request. *)
Lemma apply_top_k_top_p_ok vocab n k p t : 0 < vocab -> 0 < n -> shaped_tensor vocab n t -> filters_fit vocab n k p ->
  exists t', apply_top_k_top_p vocab (fmap (M := option) (fmap (M := list) Z.of_nat) k) p t = Ok t' /\ length t' = n /\
    forall i row, t !! i = Some row -> exists row', t' !! i = Some row' /\ length row' = vocab /\
      (proper row -> filter_row (at_row k i) (at_row p i) row row').
Proof.
  intros Hv Hn [Hl Hw] [Hk Hp]. assert (Hlen : forall i row, t !! i = Some row -> length row = vocab) by (intros i row Hi; apply (Forall_lookup_1 _ _ _ _ Hw Hi)).
  assert (Hlen' : forall row, row ∈ t -> length row = vocab) by (intros row (i & Hi)%list_elem_of_lookup; by eapply Hlen).
  destruct p as [ps|].
  - destruct (Hp ps eq_refl) as [Hpl Hps]. rewrite Forall_forall in Hps. destruct k as [ks|]; cbn [apply_top_k_top_p fmap option_fmap option_map].
    + destruct (Hk ks eq_refl) as [Hkl Hks]. rewrite Forall_forall in Hks. rewrite length_fmap, Hkl, Hpl, Nat.eqb_refl.
      destruct (per_row_ok (fun '(k, p) => top_k_top_p_row vocab (Some k) p) (zip (Z.of_nat <$> ks) ps) t) as (t' & E1 & E2 & E3).
      { rewrite length_zip_with, length_fmap. lia. }
      { intros [k p] row Hin Hrow. apply elem_of_zip_l in Hin as Hink. apply elem_of_zip_r in Hin. apply list_elem_of_fmap in Hink as (k' & -> & Hk').
        destruct (top_k_top_p_row_total vocab (Some k') p row) as (r & Er & _); [by apply Hlen'|done|intros ? [= <-]; by apply Hks|by apply Hps|]. by exists r. }
      exists t'. split; [done|]. split; [lia|]. intros i row Hi. destruct (lookup_lt_is_Some_2 ks i) as [k Ek]; [apply lookup_lt_Some in Hi; lia|].
      destruct (lookup_lt_is_Some_2 ps i) as [p Ep]; [apply lookup_lt_Some in Hi; lia|].
      destruct (E3 i (Z.of_nat k, p) row) as (r & Er & Ef); [rewrite lookup_zip_with, list_lookup_fmap, Ek; cbn; by rewrite Ep|done|]. cbn [at_row]. rewrite Ek, Ep.
      destruct (top_k_top_p_row_total vocab (Some k) p row) as (r' & Er' & H1 & H2); [by eapply Hlen|done|intros ? [= <-]; eapply Hks, list_elem_of_lookup_2, Ek|eapply Hps, list_elem_of_lookup_2, Ep|].
      change (Z.of_nat <$> Some k) with (Some (Z.of_nat k)) in Er'. rewrite Er' in Ef. injection Ef as <-. by exists r'.
    + destruct (per_row_ok (fun p => top_k_top_p_row vocab None p) ps t) as (t' & E1 & E2 & E3); [lia| |].
      { intros p row Hin Hrow. destruct (top_k_top_p_row_total vocab None p row) as (r & Er & _); [by apply Hlen'|done|done|by apply Hps|]. by exists r. }
      exists t'. split; [done|]. split; [lia|]. intros i row Hi. destruct (lookup_lt_is_Some_2 ps i) as [p Ep]; [apply lookup_lt_Some in Hi; lia|].
      destruct (E3 i p row Ep Hi) as (r & Er & Ef). cbn [at_row]. rewrite Ep.
      destruct (top_k_top_p_row_total vocab None p row) as (r' & Er' & H1 & H2); [by eapply Hlen|done|done|eapply Hps, list_elem_of_lookup_2, Ep|].
      change (Z.of_nat <$> None) with (@None Z) in Er'. rewrite Er' in Ef. injection Ef as <-. by exists r'.
  - destruct k as [ks|]; cbn [apply_top_k_top_p fmap option_fmap option_map].
    + destruct (Hk ks eq_refl) as [Hkl Hks]. rewrite Forall_forall in Hks. unfold apply_top_k_only.
      set (g := fun k => if (k =? Z.of_nat vocab)%Z then 1%Z else k). destruct ks as [|k0 ks]; [cbn in Hkl; lia|]. cbn [fmap list_fmap].
      change ((fix list_fmap (A B : Type) (f : A -> B) (l : list A) := match l with [] => [] | x :: l => f x :: list_fmap A B f l end) nat Z Z.of_nat ks) with (Z.of_nat <$> ks).
      set (m := foldr Z.max (g (Z.of_nat k0)) (g <$> (Z.of_nat <$> ks))).
      assert (Hg : forall k, k ∈ k0 :: ks -> (1 <= g (Z.of_nat k) <= Z.of_nat vocab)%Z).
      { intros k Hin. specialize (Hks k Hin). unfold g. destruct (Z.eqb_spec (Z.of_nat k) (Z.of_nat vocab)); lia. }
      assert (Hm : (1 <= m <= Z.of_nat vocab)%Z).
      { unfold m. pose proof (foldr_max_in (g (Z.of_nat k0)) (g <$> (Z.of_nat <$> ks))) as Hin. apply elem_of_cons in Hin as [->|Hin]; [apply Hg; by left|].
        apply list_elem_of_fmap in Hin as (y & -> & (k & -> & Hk')%list_elem_of_fmap). apply Hg. by right. }
      assert (Hle : forall k, k ∈ k0 :: ks -> k = vocab \/ (Z.of_nat k <= m)%Z).
      { intros k Hin. destruct (decide (k = vocab)) as [|Hne]; [by left|right]. transitivity (g (Z.of_nat k)); [unfold g; rewrite (proj2 (Z.eqb_neq _ _)) by lia; lia|].
        apply foldr_max_le. apply elem_of_cons in Hin as [->|Hin]; [by left|right]. apply list_elem_of_fmap. exists (Z.of_nat k). split; [done|]. apply list_elem_of_fmap. by exists k. }
      cbn [mbind result_bind]. rewrite (proj2 (Z.leb_le 0 m)), (proj2 (Z.leb_le m _)) by lia. cbn [andb mbind result_bind].
      change (Z.of_nat k0 :: (Z.of_nat <$> ks)) with (Z.of_nat <$> (k0 :: ks)).
      assert (Htot : forall k row, k ∈ k0 :: ks -> row ∈ t -> exists row', top_k_only_row vocab m (Z.of_nat k) row = Ok row' /\ length row' = vocab /\ (proper row -> row' = top_k_row k row)).
      { intros k row Hin Hrow. apply top_k_only_row_total; [by apply Hlen'|by apply Hks|done|]. destruct (Hle k Hin) as [->|?]; [by left|by right]. }
      destruct (per_row_ok (top_k_only_row vocab m) (Z.of_nat <$> (k0 :: ks)) t) as (t' & E1 & E2 & E3).
      { rewrite length_fmap. lia. }
      { intros p row (k & -> & Hin)%list_elem_of_fmap Hrow. destruct (Htot k row Hin Hrow) as (r & Er & _). by exists r. }
      exists t'. split; [done|]. split; [lia|]. intros i row Hi. destruct (lookup_lt_is_Some_2 (k0 :: ks) i) as [k Ek]; [apply lookup_lt_Some in Hi; lia|].
      destruct (E3 i (Z.of_nat k) row) as (r & Er & Ef); [by rewrite list_lookup_fmap, Ek|done|].
      destruct (Htot k row) as (r' & Er' & H1 & H2); [by eapply list_elem_of_lookup_2|by eapply list_elem_of_lookup_2|]. rewrite Er' in Ef. injection Ef as <-.
      exists r'. split; [done|]. split; [done|]. intros Hpr. cbn [at_row]. rewrite Ek. by apply H2.
    + exists t. split; [done|]. split; [done|]. intros i row Hi. exists row. split; [done|]. split; [by eapply Hlen|done].
Qed.

(** ** Minimum probability *)

Definition min_p_masked (m : Q) (row : list float) (j : nat) : bool :=
  match row_softmax row !! j with Some p => negb (Qle_bool (m * foldr Qmax 0%Q (row_softmax row)) p) | None => false end.

Lemma min_p_row_mask m row : min_p_row m row = mask_cols (min_p_masked m row) row.
Proof.
  apply list_eq. intros j. unfold min_p_row, mask_cols, min_p_masked. rewrite lookup_zip_with, list_lookup_imap. destruct (row !! j) as [x|] eqn:Ex; [|done]. cbn.
  destruct (lookup_lt_is_Some_2 (row_softmax row) j) as [p Ep]; [rewrite length_softmax; by eapply lookup_lt_Some|]. rewrite Ep. cbn. by destruct (Qle_bool _ p).
Qed.

Lemma max_reached l : l <> [] -> Forall (fun x => 0 <= x)%Q l -> exists x, x ∈ l /\ (foldr Qmax 0 l <= x)%Q.
Proof.
  induction l as [|x l IH]; intros Hn Hl; [done|]. apply Forall_cons in Hl as [Hx Hl]. cbn. destruct (decide (l = [])) as [->|Hne].
  - exists x. split; [by left|]. cbn. apply Q.max_lub; lra.
  - destruct (IH Hne Hl) as (y & Hy & Hle). destruct (Qlt_le_dec x y) as [H|H].
    + exists y. split; [by right|]. apply Q.max_lub; lra.
    + exists x. split; [by left|]. apply Q.max_lub; lra.
Qed.

Lemma proper_min_p m row : proper row -> (0 <= m <= 1)%Q -> proper (min_p_row m row).
Proof.
  intros Hp Hm. rewrite min_p_row_mask. pose proof (softmax_nonneg row Hp) as Hnn. pose proof (softmax_sum row Hp) as Hsum.
  destruct (max_reached (row_softmax row)) as (p & (j & Hj)%list_elem_of_lookup & Hmax); [intros E; rewrite E in Hsum; cbn in Hsum; lra|done|].
  assert (Hjl : j < length row) by (rewrite <-length_softmax; by eapply lookup_lt_Some).
  assert (Hm0 : (0 <= foldr Qmax 0 (row_softmax row))%Q).
  { clear -Hnn. induction Hnn as [|x l Hx Hl IH]; cbn; [lra|]. eapply Qle_trans; [exact IH|apply Q.le_max_r]. }
  assert (Hpos : ~ (p == 0)%Q).
  { intros Hz. assert (Hall : forall l, Forall (fun x => 0 <= x)%Q l -> (foldr Qmax 0 l <= 0 -> qsum l == 0)%Q).
    { clear. induction 1 as [|x l Hx Hl IH]; cbn; [lra|]. intros Hle. pose proof (Q.le_max_l x (foldr Qmax 0%Q l)). pose proof (Q.le_max_r x (foldr Qmax 0%Q l)).
      cbn in Hx. rewrite IH by lra. lra. }
    rewrite (Hall _ Hnn) in Hsum by lra. lra. }
  destruct (softmax_pos row j _ p Hp (row_lookup row j Hjl) Hj) as [Hp0 Hiff]. destruct Hp as [H1 H2].
  destruct (H1 (row !!! j)) as [E|[q E]]; [by eapply list_elem_of_lookup_2, row_lookup|by destruct Hpos; apply Hiff|].
  apply (proper_mask _ row j q); [by split|by rewrite row_lookup, E|]. unfold min_p_masked. rewrite Hj. apply negb_false_iff, Qle_bool_iff.
  eapply Qle_trans; [|exact Hmax]. assert (H : (0 <= (1 - m) * foldr Qmax 0 (row_softmax row))%Q) by (apply Qmult_le_0_compat; lra). lra.
Qed.

(** ** The draw *)

Lemma noise_puts vocab L : forall q0, (forall i g, (i, g) ∈ L -> i < length q0) ->
  exists q, foldM (fun q '(i, g) => np_put i (exponential_ g vocab) q) q0 L = Ok q /\ length q = length q0 /\
    forall i row, q !! i = Some row -> (exists g, row = exponential_ g vocab) \/ (i ∉ L.*1 /\ q0 !! i = Some row).
Proof.
  induction L as [|[i g] L IH]; intros q0 Hi; cbn [foldM].
  - exists q0. split; [done|]. split; [done|]. intros i row Hr. right. split; [by intros ?%elem_of_nil|done].
  - rewrite np_put_ok by (apply (Hi i g); by left). cbn [mbind result_bind].
    destruct (IH (<[i := exponential_ g vocab]> q0)) as (q & E1 & E2 & E3); [intros; rewrite length_insert; eapply Hi; by right|].
    exists q. split; [done|]. split; [by rewrite E2, length_insert|]. intros j row Hr. destruct (E3 j row Hr) as [?|[Hn Hq]]; [by left|].
    destruct (decide (j = i)) as [->|Hne].
    + rewrite list_lookup_insert_eq in Hq by (apply (Hi i g); by left). injection Hq as <-. left. by exists g.
    + right. rewrite list_lookup_insert_ne in Hq by done. split; [|done]. cbn. by intros [?|?]%elem_of_cons.
Qed.

Lemma sampling_noise_ok n vocab generators : (forall i g, generators !! i = Some g -> i < n) ->
  exists q, sampling_noise n vocab generators = Ok q /\ length q = n /\ forall i row, q !! i = Some row -> length row = vocab /\ Forall (fun x => 0 < x)%Q row.
Proof.
  intros Hg. unfold sampling_noise. set (q0 := if size generators =? n then _ else _). assert (Hq0 : length q0 = n) by (unfold q0; destruct (_ =? _); [apply memory_shape|apply noise_shape]).
  destruct (noise_puts vocab (map_to_list generators) q0) as (q & E1 & E2 & E3); [intros i g Hin%elem_of_map_to_list; rewrite Hq0; by eapply Hg|].
  exists q. split; [done|]. split; [lia|]. intros i row Hr. destruct (E3 i row Hr) as [[g ->]|[Hn Hq]]; [apply own_noise_shape|].
  unfold q0 in Hq. destruct (Nat.eqb_spec (size generators) n) as [Hs|Hs].
  - destruct Hn. assert (Hi : i ∈ dom generators).
    { assert (Heq : dom generators = (set_seq 0 n : gset nat)).
      { apply set_eq. enough (H : dom generators ≡ (set_seq 0 n : gset nat)) by (intros x; apply H). apply set_subseteq_size_equiv.
        - intros x [g Hx]%elem_of_dom. apply elem_of_set_seq. specialize (Hg x g Hx). lia.
        - by rewrite size_dom, Hs, size_set_seq. }
      rewrite Heq. apply elem_of_set_seq. apply lookup_lt_Some in Hr. lia. }
    apply elem_of_dom in Hi as [g Hi]. apply list_elem_of_fmap. exists (i, g). split; [done|]. by apply elem_of_map_to_list.
  - pose proof (proj2 (noise_shape n vocab)) as Hshape. exact (Forall_lookup_1 _ _ _ _ Hshape Hq).
Qed.

Lemma Qdiv_pos_iff p e : (0 < e)%Q -> (0 < p / e)%Q <-> (0 < p)%Q.
Proof.
  intros He. split; intros H.
  - assert (E : (p == p / e * e)%Q) by (field; lra). rewrite E. by apply Qmult_lt_0_compat.
  - apply Qlt_shift_div_l; [done|]. lra.
Qed.

(** A token drawn from a proper row has a logit. *)
Lemma draw_finite row e : proper row -> length e = length row -> Forall (fun x => 0 < x)%Q e ->
  exists q, row !! row_argmax (zip_with (fun x e => fdiv (Fin x) e) (row_softmax row) e) = Some (Fin q).
Proof.
  intros Hp Hl He. set (P := row_softmax row). assert (HP : length P = length row) by apply length_softmax. pose proof He as He'. rewrite Forall_forall in He'.
  assert (Hdiv : forall x y, y ∈ e -> fdiv (Fin x) y = Fin (x / y)).
  { intros x y Hy. specialize (He' y Hy). cbn in He'. unfold fdiv. replace (Qeq_bool y 0) with false; [done|]. symmetry. apply not_true_iff_false. rewrite Qeq_bool_iff. lra. }
  destruct Hp as [H1 (j & r & Hj)]. assert (Hp : proper row) by (split; [done|by exists j, r]).
  assert (Hz : zip_with (fun x e => fdiv (Fin x) e) P e = zip_with (fun x e => Fin (x / e)) P e).
  { apply list_eq. intros i. rewrite !lookup_zip_with. destruct (P !! i), (e !! i) eqn:Ee; try done. cbn. f_equal. by eapply Hdiv, list_elem_of_lookup_2. }
  rewrite Hz. set (z := zip_with _ P e). assert (Hzl : length z = length row) by (unfold z; rewrite length_zip_with; lia).
  pose proof (lookup_lt_Some _ _ _ Hj) as Hjl.
  destruct (argmax_ok z) as (x & Hx & Hmax); [intros E; rewrite E in Hzl; cbn in Hzl; lia|by intros (p & y & Ey & _ & _)%elem_of_zip_with|].
  unfold z in Hx. rewrite lookup_zip_with in Hx. fold z in Hx. destruct (P !! row_argmax z) as [p|] eqn:Ep; [|done]. destruct (e !! row_argmax z) as [ee|] eqn:Ee; [|done]. cbn in Hx. injection Hx as <-.
  destruct (lookup_lt_is_Some_2 P j) as [pj Epj]; [lia|]. destruct (lookup_lt_is_Some_2 e j) as [ej Eej]; [lia|].
  assert (Hmj : (pj / ej <= p / ee)%Q).
  { apply Qle_bool_iff. apply (Hmax (Fin (pj / ej))). apply list_elem_of_lookup. exists j. unfold z. rewrite lookup_zip_with, Epj. cbn. by rewrite Eej. }
  assert (He1 : (0 < ee)%Q) by (eapply He', list_elem_of_lookup_2, Ee). assert (He2 : (0 < ej)%Q) by (eapply He', list_elem_of_lookup_2, Eej).
  assert (Hpj : (0 < pj)%Q). { destruct (softmax_pos row j _ pj Hp Hj Epj) as [Hge Hiff]. destruct (Qlt_le_dec 0 pj) as [|Hle]; [done|]. assert (E : (pj == 0)%Q) by lra. by apply Hiff in E. }
  assert (Hp0 : (0 < p)%Q) by (apply (Qdiv_pos_iff p ee He1); apply (Qdiv_pos_iff pj ej He2) in Hpj; lra).
  assert (Hil : row_argmax z < length row) by (rewrite <-HP; by eapply lookup_lt_Some). pose proof (row_lookup row _ Hil) as Hrow. rewrite Hrow.
  destruct (softmax_pos row _ _ p Hp Hrow Ep) as [_ Hiff]. destruct (H1 (row !!! row_argmax z)) as [E|[q ->]]; [by eapply list_elem_of_lookup_2| |by exists q].
  apply Hiff in E. lra.
Qed.

(** ** The sampled tokens *)

Record draws_fit (vocab n : nat) (md : SamplingMetadata) : Prop := {
  dr_both : m_all_greedy md && m_all_random md = false;
  dr_temperature : m_all_greedy md = false -> exists temps, m_temperature md = Some temps /\ length temps = n /\
    (m_all_random md = true -> Forall (fun t => SAMPLING_EPS <= t)%Q temps);
  dr_min_p : forall l, m_min_p md = Some l -> length l = n /\ Forall (fun m => 0 <= m <= 1)%Q l;
  dr_filters : exists k, m_top_k md = fmap (M := option) (fmap (M := list) Z.of_nat) k /\ filters_fit vocab n k (m_top_p md);
  dr_generators : forall i g, m_generators md !! i = Some g -> i < n;
  dr_logprobs : forall k, m_max_num_logprobs md = Some k -> (0 <= k <= Z.of_nat vocab)%Z;
}.

(** Greedy sampling takes a best token; random sampling one that passes all
    filters. *)
Definition greedy_token (row : list float) (t : nat) : Prop := exists q, row !! t = Some (Fin q) /\ forall y, y ∈ row -> fle y (Fin q) = true.

Definition scaled_row (md : SamplingMetadata) (i : nat) (temp : Q) (row : list float) : list float :=
  let scaled := (fun x => fdiv x temp) <$> row in
  match at_row (m_min_p md) i with Some m => min_p_row m scaled | None => scaled end.

Definition random_token (md : SamplingMetadata) (i : nat) (temp : Q) (row : list float) (t : nat) : Prop :=
  exists row' q, filter_row (fmap Z.to_nat (at_row (m_top_k md) i)) (at_row (m_top_p md) i) (scaled_row md i temp row) row' /\ row' !! t = Some (Fin q).

Definition drawn (md : SamplingMetadata) (i : nat) (row : list float) (t : nat) : Prop :=
  if m_all_greedy md then greedy_token row t
  else exists temp, at_row (m_temperature md) i = Some temp /\
    if Qle_bool SAMPLING_EPS temp then random_token md i temp row t else greedy_token row t.

Lemma greedy_drawn row : proper row -> greedy_token row (row_argmax row).
Proof.
  intros Hp. pose proof (proper_no_nan row Hp) as Hn. destruct Hp as [H (i & r & Hi)]. destruct (argmax_ok row) as (x & Hx & Hmax); [by intros ->|done|].
  destruct (H x) as [->|[q ->]]; [by eapply list_elem_of_lookup_2| |by exists q]. by pose proof (Hmax (Fin r) ltac:(by eapply list_elem_of_lookup_2)).
Qed.

Lemma proper_scaled row temp : proper row -> (0 < temp)%Q -> proper ((fun x => fdiv x temp) <$> row).
Proof.
  intros [H (j & q & Hj)] Ht. assert (E0 : Qeq_bool temp 0 = false) by (apply not_true_iff_false; rewrite Qeq_bool_iff; lra).
  assert (E1 : Qle_bool 0 temp = true) by (apply Qle_bool_iff; lra). split.
  - intros x (y & -> & Hy)%list_elem_of_fmap. destruct (H y Hy) as [->|[r ->]]; cbn; rewrite ?E0, ?E1; [by left|right; by eexists].
  - exists j, (q / temp)%Q. rewrite list_lookup_fmap, Hj. cbn. by rewrite E0.
Qed.

Lemma proper_scaled_row vocab n md i temp row : draws_fit vocab n md -> proper row -> (0 < temp)%Q -> proper (scaled_row md i temp row).
Proof.
  intros Hd Hp Ht. unfold scaled_row, at_row. pose proof (proper_scaled row temp Hp Ht) as Hs. destruct (m_min_p md) as [l|] eqn:El; [|done].
  destruct (l !! i) as [m|] eqn:Em; [|done]. apply proper_min_p; [done|]. destruct (dr_min_p _ _ _ Hd l El) as [_ Hl]. exact (Forall_lookup_1 _ _ _ _ Hl Em).
Qed.

Lemma filter_proper vocab n k p i row row' : filters_fit vocab n k p -> proper row -> filter_row (at_row k i) (at_row p i) row row' -> proper row'.
Proof.
  intros [Hk Hp] Hpr Hf. assert (Hk1 : forall m, at_row k i = Some m -> 1 <= m).
  { intros m Hm. destruct k as [l|]; [|done]. destruct (Hk l eq_refl) as [_ Hl]. destruct (Forall_lookup_1 _ _ _ _ Hl Hm). done. }
  pose proof (proper_masked _ row Hpr Hk1) as Hm. unfold filter_row in Hf. destruct (at_row p i) as [pi|] eqn:Ep; [|by subst row'].
  destruct Hf as (order & c & [Hperm Hasc] & Hc & [Hmass _] & ->). assert (Hpi : (0 < pi)%Q).
  { destruct p as [l|]; [|done]. destruct (Hp l eq_refl) as [_ Hl]. by destruct (Forall_lookup_1 _ _ _ _ Hl Ep). }
  assert (Hlm : length (masked_row (at_row k i) row) = length row) by (destruct (at_row k i); [by unfold masked_row, top_k_row; rewrite length_mask|done]).
  set (rk := masked_row (at_row k i) row) in *. assert (Hpo : proper ((fun j => rk !!! j) <$> order)) by (apply proper_order; [done|by rewrite Hlm]).
  assert (Hex : exists a j q, c <= a /\ order !! a = Some j /\ rk !! j = Some (Fin q)).
  { set (P := row_softmax ((fun j => rk !!! j) <$> order)) in *. assert (HPl : length P = length order) by (unfold P; by rewrite length_softmax, length_fmap).
    pose proof (softmax_nonneg _ Hpo) as Hnn. fold P in Hnn.
    assert (Hpos : exists a x, drop c P !! a = Some x /\ (0 < x)%Q).
    { clear -Hmass Hpi Hnn. assert (Hs : (0 < qsum (drop c P))%Q) by lra. assert (Hnn' : Forall (fun x => 0 <= x)%Q (drop c P)) by (by apply Forall_drop). clear -Hs Hnn'.
      induction Hnn' as [|x l Hx Hl IH]; cbn in Hs; [lra|]. destruct (Qlt_le_dec 0 x) as [|Hle]; [by exists 0, x|]. destruct IH as (a & y & Ha & Hy); [lra|]. by exists (S a), y. }
    destruct Hpos as (a & x & Ha & Hx). rewrite lookup_drop in Ha. destruct (lookup_lt_is_Some_2 order (c + a)) as [j Hj]; [rewrite <-HPl; by eapply lookup_lt_Some|].
    assert (Hjl : j < length rk). { rewrite Hlm. apply list_elem_of_lookup_2 in Hj. rewrite Hperm, elem_of_seq in Hj. lia. }
    assert (Hcell : ((fun j => rk !!! j) <$> order) !! (c + a) = Some (rk !!! j)) by (by rewrite list_lookup_fmap, Hj).
    destruct (softmax_pos _ _ _ x Hpo Hcell Ha) as [_ Hiff]. destruct Hm as [Hfin _].
    destruct (Hfin (rk !!! j)) as [E|[q E]]; [by eapply list_elem_of_lookup_2, row_lookup|apply Hiff in E; lra|].
    exists (c + a), j, q. split; [lia|]. split; [done|]. by rewrite row_lookup, E. }
  destruct Hex as (a & j & q & Hca & Hj & Hq). apply (proper_mask _ rk j q); [done|done|]. apply bool_decide_eq_false_2. intros (b & Hb)%list_elem_of_lookup.
  apply lookup_take_Some in Hb as [Hb Hbc]. assert (a = b) by (eapply NoDup_lookup; [|exact Hj|exact Hb]; rewrite Hperm; apply NoDup_seq). lia.
Qed.

Lemma random_sample_ok n vocab probs generators : length probs = n -> Forall (fun P => length P = vocab) probs -> (forall i g, generators !! i = Some g -> i < n) ->
  exists r, random_sample vocab probs generators = Ok r /\ length r = n /\ forall i P, probs !! i = Some P ->
    exists e, length e = vocab /\ Forall (fun x => 0 < x)%Q e /\ r !! i = Some (row_argmax (zip_with (fun x e => fdiv (Fin x) e) P e)).
Proof.
  intros Hl HP Hg. unfold random_sample. rewrite Hl. destruct (sampling_noise_ok n vocab generators Hg) as (q & -> & Hql & Hq). cbn [mbind result_bind].
  eexists. split; [done|]. split; [rewrite length_zip_with; lia|]. intros i P Hi. destruct (lookup_lt_is_Some_2 q i) as [e Ee]; [apply lookup_lt_Some in Hi; lia|].
  exists e. destruct (Hq i e Ee). split; [done|]. split; [done|]. by rewrite lookup_zip_with, Hi; cbn; rewrite Ee.
Qed.

Lemma greedy_at i (t : tensor) row : t !! i = Some row -> greedy_sample t !! i = Some (row_argmax row).
Proof. intros Hi. unfold greedy_sample. by rewrite list_lookup_fmap, Hi. Qed.

(** The rows that the filters get. *)
Lemma scaled_ok vocab n md temps t : draws_fit vocab n md -> shaped_tensor vocab n t -> length temps = n ->
  exists t', (scaled ← apply_temperature temps t; match m_min_p md with None => Ok scaled | Some min_p => apply_min_p min_p scaled end) = Ok t' /\
    shaped_tensor vocab n t' /\ forall i row temp, t !! i = Some row -> temps !! i = Some temp -> t' !! i = Some (scaled_row md i temp row).
Proof.
  intros Hd [Hl Hw] Ht. unfold apply_temperature. rewrite (proj2 (Nat.eqb_eq _ _)) by lia. cbn [mbind result_bind]. set (s := zip_with _ t temps).
  assert (Hsl : length s = n) by (unfold s; rewrite length_zip_with; lia).
  assert (Hs : forall i row temp, t !! i = Some row -> temps !! i = Some temp -> s !! i = Some ((fun x => fdiv x temp) <$> row)) by (intros i row temp H1 H2; unfold s; by rewrite lookup_zip_with, H1; cbn; rewrite H2).
  assert (Hsw : Forall (fun row => length row = vocab) s).
  { apply Forall_forall. intros r (row & temp & -> & Hrow & _)%elem_of_zip_with. rewrite length_fmap. rewrite Forall_forall in Hw. by apply Hw. }
  unfold scaled_row, at_row. destruct (m_min_p md) as [l|] eqn:El; [|exists s; split; [done|split; [done|exact Hs]]].
  destruct (dr_min_p _ _ _ Hd l El) as [Hll _]. unfold apply_min_p. rewrite (proj2 (Nat.eqb_eq _ _)) by lia. eexists. split; [done|]. split.
  - split; [rewrite length_zip_with; lia|]. apply Forall_forall. intros r (m & row & -> & _ & Hrow)%elem_of_zip_with. rewrite Forall_forall in Hsw.
    rewrite min_p_row_mask, length_mask. by apply Hsw.
  - intros i row temp H1 H2. destruct (lookup_lt_is_Some_2 l i) as [m Em]; [apply lookup_lt_Some in H1; lia|]. rewrite lookup_zip_with, Em. cbn. by rewrite (Hs i row temp).
Qed.

Lemma sample_ok vocab n md t : 0 < vocab -> 0 < n -> shaped_tensor vocab n t -> draws_fit vocab n md ->
  exists sampled, sample vocab md t = Ok sampled /\ length sampled = n /\
    forall i row x, t !! i = Some row -> sampled !! i = Some x -> proper row -> drawn md i row x.
Proof.
  intros Hv Hn [Hl Hw] Hd. unfold sample, drawn. rewrite (dr_both _ _ _ Hd). cbn [negb py_assert mbind result_bind]. destruct (m_all_greedy md) eqn:Eg.
  - eexists. split; [done|]. split; [by unfold greedy_sample; rewrite length_fmap|]. intros i row x Hi Hx Hp. rewrite (greedy_at i t row Hi) in Hx. injection Hx as <-. by apply greedy_drawn.
  - destruct (dr_temperature _ _ _ Hd Eg) as (temps & Et & Htl & Hrand). rewrite Et. cbn [of_option mbind result_bind].
    destruct (scaled_ok vocab n md temps t Hd (conj Hl Hw) Htl) as (s & Es & Hs & Hrows).
    destruct (dr_filters _ _ _ Hd) as (k & Ek & Hfit). destruct (apply_top_k_top_p_ok vocab n k (m_top_p md) s Hv Hn Hs Hfit) as (f & Ef & Hfl & Hf).
    destruct (random_sample_ok n vocab (row_softmax <$> f) (m_generators md)) as (r & Er & Hrl & Hr).
    { by rewrite length_fmap. }
    { apply Forall_fmap, Forall_forall. intros row (i & Hi)%list_elem_of_lookup. cbn. rewrite length_softmax. destruct Hs as [Hsl _].
      destruct (lookup_lt_is_Some_2 s i) as [srow Esr]; [apply lookup_lt_Some in Hi; lia|]. destruct (Hf i srow Esr) as (row' & Hi' & Hlen & _). congruence. }
    { apply (dr_generators _ _ _ Hd). }
    assert (Hdraw : forall i row temp x, t !! i = Some row -> temps !! i = Some temp -> r !! i = Some x -> proper row -> (0 < temp)%Q -> random_token md i temp row x).
    { intros i row temp x Hi Htemp Hx Hp Hpos. pose proof (Hrows i row temp Hi Htemp) as Hsi. destruct (Hf i _ Hsi) as (row' & Hi' & Hlen & Hfilter).
      pose proof (proper_scaled_row vocab n md i temp row Hd Hp Hpos) as Hps. specialize (Hfilter Hps). pose proof (filter_proper vocab n k _ i _ row' Hfit Hps Hfilter) as Hpr.
      destruct (Hr i (row_softmax row')) as (e & He1 & He2 & Hxi); [by rewrite list_lookup_fmap, Hi'|]. rewrite Hx in Hxi. injection Hxi as ->.
      destruct (draw_finite row' e Hpr) as [q Hq]; [by rewrite He1, Hlen|done|]. exists row', q. split; [|done].
      replace (fmap Z.to_nat (at_row (m_top_k md) i)) with (at_row k i); [done|]. rewrite Ek. unfold at_row. destruct k as [ks|]; [|done]. cbn.
      rewrite list_lookup_fmap. destruct (ks !! i); [|done]. cbn. by rewrite Nat2Z.id. }
    assert (Eall : (scaled ← apply_temperature temps t; scaled ← (match m_min_p md with None => Ok scaled | Some min_p => apply_min_p min_p scaled end);
      random_sampled ← forward_native vocab scaled (m_generators md) (m_top_k md) (m_top_p md);
      if m_all_random md then Ok random_sampled
      else Ok (zip_with (fun t '(g, r) => if Qle_bool SAMPLING_EPS t then r else g) temps (zip (greedy_sample t) random_sampled))) =
      Ok (if m_all_random md then r else zip_with (fun t '(g, r) => if Qle_bool SAMPLING_EPS t then r else g) temps (zip (greedy_sample t) r))).
    { destruct (apply_temperature temps t) as [sc|]; [|done]. cbn [mbind result_bind] in Es |- *. rewrite Es. cbn [mbind result_bind]. unfold forward_native. rewrite Ek, Ef. cbn [mbind result_bind].
      rewrite Er. cbn [mbind result_bind]. by destruct (m_all_random md). }
    rewrite Eall. eexists. split; [done|]. assert (Hgl : length (greedy_sample t) = n) by (unfold greedy_sample; by rewrite length_fmap).
    split; [destruct (m_all_random md); [done|rewrite !length_zip_with; lia]|]. intros i row x Hi Hx Hp.
    destruct (lookup_lt_is_Some_2 temps i) as [temp Etemp]; [apply lookup_lt_Some in Hi; lia|]. exists temp. cbn [at_row]. split; [done|].
    assert (Heps : Qle_bool SAMPLING_EPS temp = true -> (0 < temp)%Q) by (rewrite Qle_bool_iff; unfold SAMPLING_EPS; lra).
    destruct (m_all_random md) eqn:Ear.
    + specialize (Hrand eq_refl). pose proof (Forall_lookup_1 _ _ _ _ Hrand Etemp) as Hte. cbn in Hte. apply Qle_bool_iff in Hte. rewrite Hte. apply Hdraw; auto.
    + rewrite lookup_zip_with, Etemp in Hx. cbn in Hx. rewrite lookup_zip_with, (greedy_at i t row Hi) in Hx. cbn in Hx.
      destruct (lookup_lt_is_Some_2 r i) as [y Ey]; [apply lookup_lt_Some in Hi; lia|]. rewrite Ey in Hx. cbn in Hx. injection Hx as <-.
      destruct (Qle_bool SAMPLING_EPS temp) eqn:Ee; [apply Hdraw; auto|by apply greedy_drawn].
Qed.

(** A drawn token has a logit in its row. *)
Lemma masked_row_finite k row j q : masked_row k row !! j = Some (Fin q) -> row !! j = Some (Fin q).
Proof. destruct k; [|done]. by intros [? _]%mask_finite. Qed.

Lemma filter_finite k p row row' j q : filter_row k p row row' -> row' !! j = Some (Fin q) -> row !! j = Some (Fin q).
Proof.
  destruct p as [p|]; cbn; [|intros ->; apply masked_row_finite]. intros (order & c & _ & _ & _ & ->) [H _]%mask_finite. by eapply masked_row_finite.
Qed.

Lemma drawn_finite md i row t : drawn md i row t -> proper row -> exists q, row !! t = Some (Fin q).
Proof.
  unfold drawn. intros H Hp. assert (Hg : greedy_token row t -> exists q, row !! t = Some (Fin q)) by (intros (q & ? & _); by exists q).
  destruct (m_all_greedy md); [by apply Hg|]. destruct H as (temp & _ & H). destruct (Qle_bool SAMPLING_EPS temp) eqn:Et; [|by apply Hg].
  destruct H as (row' & q & Hf & Hq). pose proof (filter_finite _ _ _ _ _ _ Hf Hq) as Hs. unfold scaled_row in Hs.
  assert (Hsc : exists r, ((fun x => fdiv x temp) <$> row) !! t = Some (Fin r)).
  { destruct (at_row (m_min_p md) i) as [m|]; [|by exists q]. rewrite min_p_row_mask in Hs. apply mask_finite in Hs as [Hs _]. by exists q. }
  destruct Hsc as [r Hr]. rewrite list_lookup_fmap in Hr. destruct (row !! t) as [x|] eqn:Ex; [|done]. cbn in Hr. destruct Hp as [Hall _].
  destruct (Hall x) as [->|[y ->]]; [by eapply list_elem_of_lookup_2| |by exists y]. cbn in Hr. by destruct (Qle_bool 0 temp).
Qed.

Lemma biased_finite md i j q : exists r, biased md i j (Fin q) = Fin r.
Proof. unfold biased, bias_of. destruct (m_logit_bias md !! i) as [[lb|]|]; [destruct (lb !! _)|..]; by eexists. Qed.

Lemma prepared_finite vocab n md past i j q : metadata_fits vocab n md past -> i < n -> forbidden md past i j = false -> exists r, prepared md past i j (Fin q) = Fin r.
Proof. intros Hm Hi Hf. unfold prepared. rewrite Hf. destruct (biased_finite md i j q) as [b ->]. by eapply penalized_finite. Qed.

Lemma prepared_proper vocab n md past i row : metadata_fits vocab n md past -> i < n -> (forall x, x ∈ row -> x = NInf \/ exists q, x = Fin q) ->
  (exists j q, row !! j = Some (Fin q) /\ forbidden md past i j = false) -> proper (imap (prepared md past i) row).
Proof.
  intros Hm Hi Hall (j & q & Hj & Hf). split.
  - intros x (k & y & -> & Hy)%elem_of_lookup_imap. unfold prepared. destruct (forbidden md past i k); [by left|].
    destruct (Hall y) as [->|[r ->]]; [by eapply list_elem_of_lookup_2|left; rewrite biased_NInf; by eapply penalized_NInf|right].
    destruct (biased_finite md i k r) as [b ->]. by eapply penalized_finite.
  - destruct (prepared_finite vocab n md past i j q Hm Hi Hf) as [r Hr]. exists j, r. rewrite list_lookup_imap, Hj. cbn. by rewrite Hr.
Qed.

(** The log probabilities [l] that are returned for request [i]: of its token [t] and
    then of the [k] best tokens, best first, with the values that [row] has for
    them; and the rank of the token, how many are at least as likely. *)
Record reported (k : nat) (row : list float) (t : nat) (l : LogprobsRows) (i : nat) : Prop := {
  rp_values : exists best values, lr_indices l !! i = Some (t :: best) /\ lr_logprobs l !! i = Some values /\
    length best = k /\ NoDup best /\ Forall2 (fun j v => row !! j = Some v) (t :: best) values /\
    (forall a b j j', a <= b -> best !! a = Some j -> best !! b = Some j' -> fle (row !!! j') (row !!! j) = true) /\
    (forall j j', j < length row -> j ∉ best -> j' ∈ best -> fle (row !!! j) (row !!! j') = true);
  rp_rank : exists x, row !! t = Some x /\ lr_ranks l !! i = Some (length (filter (fun y => fle x y = true) row));
}.

(** The rows of the result belong to the [n] tokens. *)
Definition logprobs_shaped (n : nat) (l : LogprobsRows) : Prop := length (lr_indices l) = n /\ length (lr_logprobs l) = n /\ length (lr_ranks l) = n.

Lemma topk_at row k a j : (row_topk row k).*2 !! a = Some j -> exists v, (row_topk row k).*1 !! a = Some v /\ row !! j = Some v.
Proof.
  rewrite !list_lookup_fmap. destruct (row_topk row k !! a) as [[v j']|] eqn:E; [|done]. cbn. intros [= ->]. exists v. split; [done|].
  by eapply topk_values, list_elem_of_lookup_2.
Qed.

Lemma gather_row_reported k row t r l i : no_nan row -> k <= length row -> gather_row k row t = Ok r ->
  lr_indices l !! i = Some r.1.1 -> lr_logprobs l !! i = Some r.1.2 -> lr_ranks l !! i = Some r.2 -> reported k row t l i.
Proof.
  intros Hn Hk Er Hi Hv Hr. unfold gather_row in Er. apply bind_ok in Er as (x & Ex & Er). injection Er as <-. cbn [fst snd] in *.
  assert (Hx : row !! t = Some x).
  { unfold gather in Ex. rewrite (proj2 (Z.ltb_ge _ _)), Nat2Z.id in Ex by lia. destruct (row !! t); cbn in Ex; congruence. }
  split; [|by exists x]. exists (row_topk row k).*2, (x :: (row_topk row k).*1). split; [done|]. split; [done|].
  assert (Ht : forall a j, (row_topk row k).*2 !! a = Some j -> (row_topk row k).*1 !! a = Some (row !!! j)).
  { intros a j (v & Ha & Hj)%topk_at. by rewrite (list_lookup_total_correct _ _ _ Hj). }
  split; [by rewrite length_fmap, topk_length|]. split; [apply topk_distinct|]. split; [|split].
  - constructor; [done|]. apply Forall2_same_length_lookup. rewrite !length_fmap. split; [done|]. intros a j v (v' & Ha & Hj)%topk_at Hv'. congruence.
  - intros a b j j' Hab Ha%Ht Hb%Ht. by eapply (topk_descends row k a b).
  - intros j j' Hj Hnot (b & Hb%Ht)%list_elem_of_lookup. destruct (lookup_lt_is_Some_2 row j Hj) as [y Hy].
    rewrite (list_lookup_total_correct _ _ _ Hy). eapply (topk_best row k j); [done..|]. by eapply list_elem_of_lookup_2.
Qed.

Lemma gather_logprobs_ok vocab n k (lp : tensor) tokens : length lp = n -> Forall (fun row => length row = vocab) lp -> length tokens = n -> k <= vocab ->
  Forall (fun t => t < vocab) tokens -> exists l, gather_logprobs vocab lp (Z.of_nat k) tokens = Ok l /\ logprobs_shaped n l /\
    forall i t row, tokens !! i = Some t -> lp !! i = Some row -> no_nan row -> reported k row t l i.
Proof.
  intros Hl Hw Ht Hk Hb. unfold gather_logprobs. rewrite !(proj2 (Z.leb_le _ _)), Nat2Z.id by lia. cbn [andb mbind result_bind]. rewrite Forall_forall in Hw. rewrite Forall_forall in Hb.
  assert (Hone : forall t row, t ∈ tokens -> row ∈ lp -> exists x, gather row (Z.of_nat t) = Ok x).
  { intros t row Hin Hrow. apply gather_ok. rewrite (Hw row Hrow). specialize (Hb t Hin). cbn in Hb. lia. }
  destruct (per_row_ok (fun token row => gather_row k row token) tokens lp) as (rows & E1 & E2 & E3); [lia| |].
  { intros t row Hin Hrow. destruct (Hone t row Hin Hrow) as [x Ex]. unfold gather_row. rewrite Ex. by eexists. }
  rewrite E1. eexists. split; [done|]. split; [unfold logprobs_shaped; cbn; rewrite !length_fmap; lia|]. intros i t row Hi Er Hn.
  destruct (E3 i t row Hi Er) as (r & Hri & Hr). assert (Hlen : length row = vocab) by (by eapply Hw, list_elem_of_lookup_2).
  eapply gather_row_reported; [done|by rewrite Hlen|exact Hr|..]; cbn; by rewrite list_lookup_fmap, Hri.
Qed.

(** Everything that [forward] does. *)
Lemma forward_ok vocab n md past logits : 0 < vocab -> 0 < n -> metadata_fits vocab n md past -> draws_fit vocab n md -> shaped_tensor vocab n logits ->
  (forall i row, logits !! i = Some row -> (forall x, x ∈ row -> x = NInf \/ exists q, x = Fin q) /\ exists j q, row !! j = Some (Fin q) /\ forbidden md past i j = false) ->
  exists tokens lp, forward vocab md past logits = Ok ((fun t => [t]) <$> tokens, lp) /\ length tokens = n /\
    (forall i row t, logits !! i = Some row -> tokens !! i = Some t ->
      forbidden md past i t = false /\ (exists q, row !! t = Some (Fin q)) /\ drawn md i (imap (prepared md past i) row) t) /\
    match m_max_num_logprobs md with
    | None => lp = None
    | Some k => exists l, lp = Some l /\ logprobs_shaped n l /\
        forall i row t, logits !! i = Some row -> tokens !! i = Some t -> reported (Z.to_nat k) (row_log_softmax row) t l i
    end.
Proof.
  intros Hv Hn Hm Hd Ht Hrows. unfold forward. rewrite (prepare_logits_ok vocab n md past Hm logits Ht). cbn [mbind result_bind].
  destruct (sample_ok vocab n md (imap (fun i => imap (prepared md past i)) logits) Hv Hn (imap_shaped vocab n (prepared md past) logits Ht) Hd) as (tokens & Es & Hl & Hdraw).
  rewrite Es. cbn [mbind result_bind].
  assert (Htok : forall i row t, logits !! i = Some row -> tokens !! i = Some t ->
    forbidden md past i t = false /\ (exists q, row !! t = Some (Fin q)) /\ drawn md i (imap (prepared md past i) row) t).
  { intros i row t Hi Hti. destruct (Hrows i row Hi) as [Hall Hsome]. assert (Hin : i < n) by (apply lookup_lt_Some in Hi; destruct Ht; lia).
    pose proof (prepared_proper vocab n md past i row Hm Hin Hall Hsome) as Hp.
    pose proof (Hdraw i (imap (prepared md past i) row) t ltac:(by rewrite list_lookup_imap, Hi) Hti Hp) as Hdr. destruct (drawn_finite _ _ _ _ Hdr Hp) as [q Hq].
    rewrite list_lookup_imap in Hq. destruct (row !! t) as [x|] eqn:Ex; [|done]. cbn in Hq. injection Hq as Hq.
    unfold prepared in Hq. destruct (forbidden md past i t); [done|]. split; [done|]. split; [|done].
    destruct (Hall x) as [->|[r ->]]; [by eapply list_elem_of_lookup_2| |by exists r]. rewrite biased_NInf in Hq. by rewrite (penalized_NInf vocab n md past Hm i t Hin) in Hq. }
  destruct (m_max_num_logprobs md) as [k|] eqn:Ek.
  - destruct (gather_logprobs_ok vocab n (Z.to_nat k) (row_log_softmax <$> logits) tokens) as (l & El & Hsh & Hbest).
    + destruct Ht. by rewrite length_fmap.
    + destruct Ht as [_ Hw]. apply Forall_fmap, (Forall_impl _ _ _ Hw). intros row Hr. cbn. by rewrite length_log_softmax.
    + done.
    + destruct (dr_logprobs _ _ _ Hd k Ek). lia.
    + apply Forall_forall. intros t (i & Hi)%list_elem_of_lookup. destruct Ht as [Htl Hw]. destruct (lookup_lt_is_Some_2 logits i) as [row Er]; [apply lookup_lt_Some in Hi; lia|].
      destruct (Htok i row t Er Hi) as (_ & (q & Hq) & _). apply lookup_lt_Some in Hq. by rewrite (Forall_lookup_1 _ _ _ _ Hw Er) in Hq.
    + rewrite Z2Nat.id in El by (by destruct (dr_logprobs _ _ _ Hd k Ek)). rewrite El. cbn [mbind result_bind]. exists tokens, (Some l). split; [done|]. split; [done|]. split; [done|]. exists l. split; [done|]. split; [done|].
      intros i row t Hi Hti. apply Hbest; [done|by rewrite list_lookup_fmap, Hi|]. apply log_softmax_no_nan. destruct (Hrows i row Hi) as [Hall (j & q & Hj & _)]. by split; [|exists j, q].
  - exists tokens, None. split; [done|]. split; [done|]. by split.
Qed.

(** C7: The sampler.  For metadata and logits of the right shapes, in which every
    request has a token with a logit that is not forbidden, [forward] returns one
    token per request.  It is never one that the request's allowed tokens, bad words
    or stop tokens before [min_tokens] forbid; it is drawn from the logits with the
    bias and the penalties of the request: greedily a best one, otherwise one that
    is among the [top_k] best, in the nucleus of [top_p] and above [min_p].  The log
    probabilities, if wanted, are those of the logits as the model gave them,
    before bias, penalties and filters: of the token itself and then of the wanted
    number of best tokens, best first, and with its rank the number of tokens that
    are at least as likely. *)
Theorem sampler_forward_correct vocab n md past logits : 0 < vocab -> 0 < n -> metadata_fits vocab n md past -> draws_fit vocab n md -> shaped_tensor vocab n logits ->
  (forall i row, logits !! i = Some row -> (forall x, x ∈ row -> x = NInf \/ exists q, x = Fin q) /\ exists j q, row !! j = Some (Fin q) /\ forbidden md past i j = false) ->
  exists tokens lp, forward vocab md past logits = Ok ((fun t => [t]) <$> tokens, lp) /\ length tokens = n /\
    (forall i row t, logits !! i = Some row -> tokens !! i = Some t ->
      forbidden md past i t = false /\ (exists q, row !! t = Some (Fin q)) /\ drawn md i (imap (prepared md past i) row) t) /\
    match m_max_num_logprobs md with
    | None => lp = None
    | Some k => exists l, lp = Some l /\ logprobs_shaped n l /\
        forall i row t, logits !! i = Some row -> tokens !! i = Some t -> reported (Z.to_nat k) (row_log_softmax row) t l i
    end.
Proof. apply forward_ok. Qed.

(** C18: The filters of random sampling.  For logits that are not all -inf,
    [apply_top_k_top_p] keeps of every request the [top_k] best tokens and their
    ties, and of these, in an order from the least likely to the most, the smallest
    final part that has at least probability [top_p]; the logits of the others
    become -inf, and the logits that are kept do not change. *)
Theorem top_k_top_p_correct vocab n k p t : 0 < vocab -> 0 < n -> shaped_tensor vocab n t -> filters_fit vocab n k p -> Forall proper t ->
  exists t', apply_top_k_top_p vocab (fmap (M := option) (fmap (M := list) Z.of_nat) k) p t = Ok t' /\ length t' = n /\
    forall i row, t !! i = Some row -> exists row', t' !! i = Some row' /\ filter_row (at_row k i) (at_row p i) row row'.
Proof.
  intros Hv Hn Ht Hf Hp. destruct (apply_top_k_top_p_ok vocab n k p t Hv Hn Ht Hf) as (t' & E1 & E2 & E3). exists t'. split; [done|]. split; [done|].
  intros i row Hi. destruct (E3 i row Hi) as (row' & Hi' & _ & Hrow). exists row'. split; [done|]. apply Hrow. exact (Forall_lookup_1 _ _ _ _ Hp Hi).
Qed.
End Theorems.
