(* ===== verification/SamplerModel.v ===== *)
(** * A sampler to run

    Functions on rows that satisfy what [SamplerTheorems.v] says of torch: the
    softmax has weights [1 + x] and [1 / (1 - x)] in place of the exponential, the
    noise is constant.  Runs with them are the witnesses. *)

From Stdlib Require Import QArith_base QArith Qminmax Lqa.
From S2P Require Import Prelude Numbers NumPy Request Scheduler BlockTable InputBatch Sampler SamplerSpec SamplerTheorems.

(** ** A total order of floats *)

Definition rank (x : float) : nat := match x with NInf => 0 | Fin _ => 1 | PInf => 2 | NaN => 3 end.

Definition below (x y : float) : Prop := match x, y with Fin x, Fin y => (x <= y)%Q | _, _ => rank x <= rank y end.

#[local] Instance below_dec x y : Decision (below x y).
Proof. destruct x, y; cbn; try apply _. destruct (Qlt_le_dec x0 x) as [H|H]; [right; lra|by left]. Defined.

Lemma below_fle x y : x <> NaN -> y <> NaN -> below x y <-> fle x y = true.
Proof. destruct x, y; cbn; rewrite ?Qle_bool_iff; try done; try lia. Qed.

#[local] Instance below_total : Total below.
Proof. intros x y. destruct x, y; cbn; try lia. destruct (Qlt_le_dec x x0); [left|right]; lra. Qed.

#[local] Instance below_trans : Transitive below.
Proof. intros x y z. destruct x, y, z; cbn; try lia. intros; lra. Qed.

(** ** Sorting *)

Definition by_value (a b : float * nat) : Prop := below a.1 b.1.

#[local] Instance by_value_dec a b : Decision (by_value a b) := below_dec a.1 b.1.
#[local] Instance by_value_total : Total by_value.
Proof. intros a b. apply below_total. Qed.
#[local] Instance by_value_trans : Transitive by_value.
Proof. intros a b c. apply below_trans. Qed.

Definition indexed (row : list float) : list (float * nat) := zip row (seq 0 (length row)).

Definition model_sort (row : list float) : list (float * nat) := merge_sort by_value (indexed row).

Lemma indexed_at row v i : (v, i) ∈ indexed row <-> row !! i = Some v.
Proof.
  unfold indexed. rewrite list_elem_of_lookup. setoid_rewrite lookup_zip_with. split.
  - intros (k & Hk). destruct (row !! k) as [x|] eqn:Ex; [|done]. cbn in Hk. rewrite lookup_seq_lt in Hk by (by eapply lookup_lt_Some). cbn in Hk. by injection Hk as <- <-.
  - intros Hi. exists i. rewrite Hi. cbn. by rewrite lookup_seq_lt by (by eapply lookup_lt_Some).
Qed.

Lemma model_sort_perm row : model_sort row ≡ₚ indexed row.
Proof. apply merge_sort_Permutation. Qed.

Lemma indexed_snd row : (indexed row).*2 = seq 0 (length row).
Proof. unfold indexed. apply snd_zip. by rewrite length_seq. Qed.

Lemma model_sort_at row v i : (v, i) ∈ model_sort row -> row !! i = Some v.
Proof. rewrite model_sort_perm. apply indexed_at. Qed.

Lemma strongly_sorted_at {A} (R : A -> A -> Prop) l i j x y : StronglySorted R l -> i < j -> l !! i = Some x -> l !! j = Some y -> R x y.
Proof.
  intros Hs. revert i j. induction Hs as [|z l Hs IH Hz]; intros i j Hij Hi Hj; [done|]. destruct j as [|j]; [lia|]. destruct i as [|i]; cbn in *.
  - injection Hi as ->. by apply (Forall_lookup_1 _ _ _ _ Hz Hj).
  - apply (IH i j); [lia|done|done].
Qed.

Lemma model_sort_ascends row i j v w : no_nan row -> i <= j -> (model_sort row).*1 !! i = Some v -> (model_sort row).*1 !! j = Some w -> fle v w = true.
Proof.
  intros Hn Hij Hi Hj. assert (Hnn : forall k x, (model_sort row).*1 !! k = Some x -> x <> NaN).
  { intros k x Hk ->. apply list_elem_of_lookup_2, list_elem_of_fmap in Hk as ([x m] & Ex & Hx). cbn in Ex. subst x. apply model_sort_at in Hx. by apply Hn, (list_elem_of_lookup_2 _ m). }
  destruct (decide (i = j)) as [->|Hne]; [rewrite Hi in Hj; injection Hj as <-; apply fle_refl; by eapply Hnn|].
  apply below_fle; [by eapply Hnn..|]. rewrite list_lookup_fmap in Hi, Hj. destruct (model_sort row !! i) as [[x a]|] eqn:E1; [|done]. destruct (model_sort row !! j) as [[y b]|] eqn:E2; [|done].
  cbn in Hi, Hj. injection Hi as ->. injection Hj as ->.
  pose proof (strongly_sorted_at by_value (model_sort row) i j _ _ (StronglySorted_merge_sort by_value _) ltac:(lia) E1 E2) as H. exact H.
Qed.

Definition model_topk (row : list float) (k : nat) : list (float * nat) := take k (reverse (model_sort row)).

Lemma length_model_sort row : length (model_sort row) = length row.
Proof. rewrite model_sort_perm. unfold indexed. rewrite length_zip_with, length_seq. lia. Qed.

Lemma model_topk_at row k i x : (model_topk row k) !! i = Some x -> i < k /\ model_sort row !! (length row - S i) = Some x /\ i < length row.
Proof.
  unfold model_topk. intros [H Hk]%lookup_take_Some. pose proof (lookup_lt_Some _ _ _ H) as Hl. rewrite length_reverse, length_model_sort in Hl.
  rewrite reverse_lookup in H by (by rewrite length_model_sort). rewrite length_model_sort in H. done.
Qed.

(** ** Softmax *)

Definition weight (x : float) : Q := match x with Fin x => if Qle_bool 0 x then (1 + x)%Q else (1 / (1 - x))%Q | _ => 0%Q end.

Lemma weight_pos x : (0 < weight (Fin x))%Q.
Proof.
  cbn. destruct (Qle_bool 0 x) eqn:E; [apply Qle_bool_iff in E; lra|]. apply not_true_iff_false in E. rewrite Qle_bool_iff in E.
  apply Qlt_shift_div_l; lra.
Qed.

Lemma weight_nonneg x : (0 <= weight x)%Q.
Proof. destruct x; try (cbn; lra). apply Qlt_le_weak, weight_pos. Qed.

Definition model_softmax (row : list float) : list Q := (fun x => weight x / qsum (weight <$> row))%Q <$> row.

Lemma qsum_weights row : proper row -> (0 < qsum (weight <$> row))%Q.
Proof.
  intros [_ (j & q & Hj)]. assert (Hnn : forall l, (0 <= qsum (weight <$> l))%Q) by (induction l as [|x l IH]; [cbn; lra|]; rewrite fmap_cons; cbn [qsum]; pose proof (weight_nonneg x); lra).
  revert j Hj. induction row as [|x row IH]; intros [|j] Hj; try done; rewrite fmap_cons; cbn [qsum].
  - injection Hj as ->. pose proof (weight_pos q). specialize (Hnn row). lra.
  - specialize (IH j Hj). pose proof (weight_nonneg x). lra.
Qed.

Lemma qsum_scale (l : list float) s : ~ (s == 0)%Q -> (qsum ((fun x => weight x / s)%Q <$> l) == qsum (weight <$> l) / s)%Q.
Proof.
  intros Hs. induction l as [|x l IH]; [cbn; field; done|]. rewrite !fmap_cons. cbn [qsum]. rewrite IH. field. done.
Qed.

Lemma model_softmax_pos row i x p : proper row -> row !! i = Some x -> model_softmax row !! i = Some p -> (0 <= p)%Q /\ (p == 0 <-> x = NInf)%Q.
Proof.
  intros Hp Hi Hpi. pose proof (qsum_weights row Hp) as Hs. unfold model_softmax in Hpi. rewrite list_lookup_fmap, Hi in Hpi. cbn in Hpi. injection Hpi as <-.
  assert (Hsp : forall a, (0 < a)%Q -> (0 < a / qsum (weight <$> row))%Q) by (intros a Ha; apply Qlt_shift_div_l; lra).
  destruct Hp as [Hall _]. destruct (Hall x) as [->|[q ->]]; [by eapply list_elem_of_lookup_2|..].
  - assert (E : (weight NInf / qsum (weight <$> row) == 0)%Q) by (cbn; field; lra). rewrite E. split; [lra|]. split; [done|]. intros _. reflexivity.
  - pose proof (Hsp _ (weight_pos q)) as H. split; [by apply Qlt_le_weak|]. split; [intros E; rewrite E in H; by apply Qlt_irrefl in H|done].
Qed.

(** ** The largest *)

Fixpoint argmax_from (best : float) (at_ i : nat) (l : list float) : nat :=
  match l with
  | [] => at_
  | x :: l => if fle x best then argmax_from best at_ (S i) l else argmax_from x i (S i) l
  end.

Definition model_argmax (row : list float) : nat := match row with [] => 0 | x :: l => argmax_from x 0 1 l end.

Lemma argmax_from_ok l : forall best at_ i row, no_nan row -> row !! at_ = Some best -> drop i row = l -> (forall y, y ∈ take i row -> fle y best = true) ->
  exists x, row !! argmax_from best at_ i l = Some x /\ forall y, y ∈ row -> fle y x = true.
Proof.
  induction l as [|x l IH]; intros best at_ i row Hn Hat Hd Hb; cbn [argmax_from].
  - exists best. split; [done|]. intros y Hy. apply Hb. rewrite take_ge; [done|]. pose proof (f_equal length Hd) as Hl. rewrite length_drop in Hl. cbn in Hl. lia.
  - assert (Hi : row !! i = Some x) by (pose proof (lookup_drop row i 0) as H; rewrite Hd, Nat.add_0_r in H; by rewrite <-H).
    assert (Hd' : drop (S i) row = l) by (replace (S i) with (i + 1) by lia; by rewrite <-drop_drop, Hd). assert (Hnb : forall y, y ∈ row -> y <> NaN) by (by intros y Hy ->).
    assert (Hbn : best <> NaN) by (eapply Hnb, list_elem_of_lookup_2, Hat). assert (Hxn : x <> NaN) by (eapply Hnb, list_elem_of_lookup_2, Hi).
    destruct (fle x best) eqn:E.
    + apply IH; try done. intros y Hy. rewrite (take_S_r _ _ _ Hi) in Hy. apply elem_of_app in Hy as [Hy|Hy]; [by apply Hb|]. by apply list_elem_of_singleton in Hy as ->.
    + apply IH; try done. intros y Hy. rewrite (take_S_r _ _ _ Hi) in Hy. apply elem_of_app in Hy as [Hy|Hy].
      * eapply fle_trans; [by apply Hb|]. destruct (fle_total x best Hxn Hbn) as [|]; [congruence|done].
      * apply list_elem_of_singleton in Hy as ->. by apply fle_refl.
Qed.

(** ** The instance *)

#[export] Instance model_rows : TorchRows := {|
  row_argmax := model_argmax; row_softmax := model_softmax; row_log_softmax := fun row => row; row_sort := model_sort; row_topk := model_topk;
  empty_rows := fun n v => replicate n (replicate v 1%Q); exponential := fun n v => replicate n (replicate v 1%Q); exponential_ := fun _ v => replicate v 1%Q |}.

#[export] Instance model_rows_laws : TorchRowsLaws model_rows.
Proof.
  assert (Hones : forall v, length (replicate v 1%Q) = v /\ Forall (fun x => 0 < x)%Q (replicate v 1%Q)) by (intros v; split; [apply length_replicate|by apply Forall_replicate]).
  assert (Hnd : forall row, NoDup (model_sort row).*2) by (intros row; rewrite model_sort_perm, indexed_snd; apply NoDup_seq).
  split; cbn; try done.
  - intros [|x row] Hne Hn; [done|]. apply argmax_from_ok; try done. intros y Hy. apply list_elem_of_singleton in Hy as ->. apply fle_refl. intros ->. apply Hn. by left.
  - intros row. apply length_fmap.
  - apply model_softmax_pos.
  - intros row Hp. pose proof (qsum_weights row Hp) as Hs. unfold model_softmax. rewrite qsum_scale by lra. field. lra.
  - intros row. rewrite model_sort_perm. by rewrite indexed_snd.
  - apply model_sort_at.
  - apply model_sort_ascends.
  - intros row k Hk. unfold model_topk. rewrite length_take, length_reverse, length_model_sort. lia.
  - intros row k. eapply sublist_NoDup; [|apply fmap_sublist, sublist_take]. rewrite reverse_Permutation. apply Hnd.
  - intros row k v i Hin. unfold model_topk in Hin. apply model_sort_at. rewrite <-elem_of_reverse. rewrite <-(take_drop k). apply elem_of_app. by left.
  - intros row k i j v w Hn Hij Hi Hj. rewrite list_lookup_fmap in Hi, Hj. destruct (model_topk row k !! i) as [x|] eqn:E1; [|done]. destruct (model_topk row k !! j) as [y|] eqn:E2; [|done].
    apply model_topk_at in E1 as (_ & E1 & H1), E2 as (_ & E2 & H2). cbn in Hi, Hj. injection Hi as <-. injection Hj as <-.
    apply (model_sort_ascends row (length row - S j) (length row - S i)); [done|lia|..]; by rewrite list_lookup_fmap, ?E1, ?E2.
  - intros row k i x v Hn Hi Hnot Hv. apply list_elem_of_fmap in Hv as ([v' m] & -> & (a & Ha)%list_elem_of_lookup). apply model_topk_at in Ha as (Hak & Ha & Hal).
    assert (Hs : (x, i) ∈ model_sort row) by (rewrite model_sort_perm; by apply indexed_at). apply list_elem_of_lookup in Hs as [b Hb].
    pose proof (lookup_lt_Some _ _ _ Hb) as Hbl. rewrite length_model_sort in Hbl.
    apply (model_sort_ascends row b (length row - S a)); [done| |by rewrite list_lookup_fmap, Hb|by rewrite list_lookup_fmap, Ha].
    apply Nat.nlt_ge. intros Hlt. apply Hnot. apply list_elem_of_fmap. exists (x, i). split; [done|]. apply list_elem_of_lookup. exists (length row - S b).
    unfold model_topk. rewrite lookup_take_lt by lia. rewrite reverse_lookup by (rewrite length_model_sort; lia). rewrite length_model_sort.
    replace (length row - S (length row - S b)) with b by lia. done.
  - intros row [Hall _] Hin. by destruct (Hall NaN Hin) as [|[? ?]].
  - intros n v. split; [apply length_replicate|]. by apply Forall_replicate.
  - intros n v. apply length_replicate.
Qed.

(** The TPU variant takes the nucleus of the whole distribution, not of the best
    [k] tokens: here it keeps two tokens, and the other filter one. *)
Lemma tpu_filters_differ : apply_top_k_top_p 4 (Some [2]%Z) (Some [(1 # 2)%Q]) [[Fin 3; Fin 2; Fin 1; Fin 0]] = Ok [[Fin 3; NInf; NInf; NInf]] /\
  apply_top_k_top_p_tpu 4 (Some [2]%Z) (Some [(1 # 2)%Q]) [[Fin 3; Fin 2; Fin 1; Fin 0]] = Ok [[Fin 3; Fin 2; NInf; NInf]].
Proof. by split; vm_compute. Qed.
