(* ===== verification/SamplerRequests.v ===== *)
(** * The sampler on the batch

    The metadata of a runner's batch, given to the sampler: the tokens that it
    returns respect what each request of the batch allows. *)

From Stdlib Require Import QArith_base QArith Lqa.
From S2P Require Import Prelude Numbers NumPy Request EncoderCache Scheduler BlockTable InputBatch InputBatchSpec.
From S2P Require Import ModelRunner ModelRunnerSpec ModelRunnerProperties ModelRunnerInputs ModelRunnerTheorems Sampler SamplerSpec SamplerTheorems SamplerModel.

(** A mask leaves exactly the allowed tokens. *)
Lemma mask_row_allowed vocab allowed row (t : nat) : mask_row vocab allowed = Ok row -> row !! t = Some false ->
  exists a, a ∈ allowed /\ Z.of_nat t = (if (a <? 0)%Z then a + Z.of_nat (Z.to_nat vocab) else a)%Z.
Proof.
  unfold mask_row. assert (H : forall l (r0 r1 : list bool), foldM allow r0 l = Ok r1 -> r1 !! t = Some false -> r0 !! t = Some false \/
    exists a, a ∈ l /\ Z.of_nat t = (if (a <? 0)%Z then a + Z.of_nat (length r0) else a)%Z).
  { induction l as [|a l IH]; intros r0 r1 Hf Ht; cbn [foldM] in Hf; [injection Hf as <-; by left|]. apply bind_ok in Hf as (r & Ha & Hf).
    unfold allow in Ha. cbv zeta in Ha. destruct (Z.ltb_spec (if (a <? 0)%Z then a + Z.of_nat (length r0) else a)%Z 0) as [|Hge]; [done|].
    unfold np_put in Ha. destruct (_ <? _); [|done]. injection Ha as <-. apply IH in Hf as [Hr|(a' & Ha' & E)]; [|by rewrite length_insert in E; right; exists a'; split; [by right|] |done].
    destruct (decide (t = Z.to_nat (if (a <? 0)%Z then a + Z.of_nat (length r0) else a))) as [->|Hne].
    - right. exists a. split; [by left|]. lia.
    - rewrite list_lookup_insert_ne in Hr by done. by left. }
  intros Hm Ht. destruct (H _ _ _ Hm Ht) as [Hr|(a & Ha & E)]; [by apply lookup_replicate in Hr as [? _]|]. rewrite length_replicate in E. by exists a.
Qed.

Section Requests.
Context `{E : Env} `{T : Torch} `{!TorchLaws T} `{NP : NumPy} `{!NumPyLaws NP} `{SO : SetOrder} `{!SetOrderLaws SO} `{TR : TorchRows} `{!TorchRowsLaws TR}.
Context {features : Type}.

(** A random token for the request: it passes the filters that the request uses,
    on the logits at the request's temperature. *)
Definition random_for (vocab : Z) (p : SamplerParams) (row : list float) (t : nat) : Prop :=
  exists k top m row' q, (uses_top_k vocab p = true -> k = Some (Z.to_nat (top_k p))) /\ (uses_top_p p = true -> top = Some (single (top_p p))) /\
    (uses_min_p p = true -> m = Some (single (min_p p))) /\
    filter_row k top (let scaled := (fun x => fdiv x (single (temperature p))) <$> row in match m with Some m => min_p_row m scaled | None => scaled end) row' /\
    row' !! t = Some (Fin q).

(** What a request wants of its next token, by its parameters, its output so far and
    the logits with bias and penalties. *)
Record respects (vocab : Z) (p : SamplerParams) (out : list Z) (row : list float) (t : nat) : Prop := {
  re_allowed : allowed_token_ids p <> [] -> exists a, a ∈ allowed_token_ids p /\ Z.of_nat t = (if (a <? 0)%Z then a + Z.of_nat (Z.to_nat vocab) else a)%Z;
  re_bad_words : forall w, w ∈ sp_bad_words_token_ids p -> w <> [] -> ~ w `suffix_of` out ++ [Z.of_nat t];
  re_min_tokens : (Z.of_nat (length out) < sp_min_tokens p)%Z -> Z.of_nat t ∉ all_stop_token_ids p;
  re_greedy : is_greedy p = true -> greedy_token row t;
  re_random : is_greedy p = false -> (SAMPLING_EPS <= single (temperature p))%Q -> random_for vocab p row t;
}.

(** The output tokens that the metadata refer to. *)
Definition past_of (ls : lists) (md : SamplingMetadata) : list (list Z) := (fun o => default [] (fmap (M := option) (fun r => ls !!! r) o)) <$> m_output_token_ids md.

Lemma past_at ls md i vocab q : sampled_as md i vocab q -> past_of ls md !!! i = output_of ls q.
Proof. intros Hs. apply list_lookup_total_correct. unfold past_of. by rewrite list_lookup_fmap, (sa_output _ _ _ _ Hs). Qed.

Lemma forbidden_respects ls md i vocab q t : sampled_as md i vocab q -> forbidden md (past_of ls md) i t = false ->
  (forall rows row, m_allowed_token_ids_mask md = Some rows -> rows !! i = Some row -> t < length row) ->
  let p := sp_sampler (cs_sampling_params q) in
  (allowed_token_ids p <> [] -> exists a, a ∈ allowed_token_ids p /\ Z.of_nat t = (if (a <? 0)%Z then a + Z.of_nat (Z.to_nat vocab) else a)%Z) /\
  (forall w, w ∈ sp_bad_words_token_ids p -> w <> [] -> ~ w `suffix_of` output_of ls q ++ [Z.of_nat t]) /\
  ((Z.of_nat (length (output_of ls q)) < sp_min_tokens p)%Z -> Z.of_nat t ∉ all_stop_token_ids p).
Proof.
  intros Hs Hf Hw p. unfold forbidden in Hf. rewrite (past_at _ _ _ _ _ Hs) in Hf. apply orb_false_iff in Hf as [[Hm Hb]%orb_false_iff Hmin].
  pose proof (sa_dicts _ _ _ _ Hs) as Hd. unfold dicts_want in Hd. fold p in Hd. injection Hd as D1 _ D3. split; [|split].
  - intros Ha. destruct (sa_mask _ _ _ _ Hs) as (rows & row & Er & Ei & Em); [by apply bool_decide_eq_true|]. rewrite Er in Hm. cbn in Hm. rewrite Ei in Hm. cbn in Hm.
    destruct (lookup_lt_is_Some_2 row t) as [b Eb]; [by eapply Hw|]. rewrite Eb in Hm. cbn in Hm. subst b. by apply (mask_row_allowed vocab _ row).
  - intros w Hin Hne Hsuf. rewrite D3 in Hb. unfold bad_words_entry in Hb. rewrite bool_decide_false in Hb by (intros Hn; rewrite Hn in Hin; by apply elem_of_nil in Hin).
    apply not_true_iff_false in Hb. apply Hb, existsb_exists. exists w. split; [by apply list_elem_of_In|]. by apply bool_decide_eq_true.
  - intros Hlt Hin. rewrite D1 in Hmin. unfold min_tokens_entry in Hmin. destruct (sp_min_tokens p =? 0)%Z eqn:E0; [apply Z.eqb_eq in E0; lia|].
    rewrite !bool_decide_true in Hmin by done. done.
Qed.

Lemma drawn_respects md i vocab q row t : sampled_as md i vocab q -> drawn md i row t -> let p := sp_sampler (cs_sampling_params q) in
  (is_greedy p = true -> greedy_token row t) /\ (is_greedy p = false -> (SAMPLING_EPS <= single (temperature p))%Q -> random_for vocab p row t).
Proof.
  intros Hs Hd p. pose proof (sa_temperature _ _ _ _ Hs) as Ht. fold p in Ht. unfold drawn in Hd. destruct (m_all_greedy md) eqn:Eg.
  - split; [done|]. pose proof (sa_all_greedy _ _ _ _ Hs Eg) as Hg. fold p in Hg. by rewrite Hg.
  - destruct (m_temperature md) as [l|] eqn:El; [|congruence]. destruct Hd as (temp & Etemp & Hd). cbn [at_row] in Etemp. rewrite Ht in Etemp. injection Etemp as <-.
    destruct (is_greedy p) eqn:Ep; (split; [|done || intros _ Heps]); [done|done|]. apply Qle_bool_iff in Heps. rewrite Heps in Hd. destruct Hd as (row' & x & Hf & Hx).
    exists (fmap Z.to_nat (at_row (m_top_k md) i)), (at_row (m_top_p md) i), (at_row (m_min_p md) i), row', x.
    pose proof (sa_top_k _ _ _ _ Hs) as Hk. pose proof (sa_top_p _ _ _ _ Hs) as Hp. pose proof (sa_min_p _ _ _ _ Hs) as Hm. fold p in Hk, Hp, Hm. unfold at_row in *.
    split; [|split; [|split; [|split; [exact Hf|exact Hx]]]]; intros Hu.
    + destruct (m_top_k md); [|congruence]. by rewrite Hk, Hu.
    + destruct (m_top_p md); [done|congruence].
    + destruct (m_min_p md); [done|congruence].
Qed.

(** C3: A step of the runner, and the sampler on its metadata.  For logits of the
    right shape, [forward] returns a token for every request of the batch, and it is
    one that the request may have: one of its allowed tokens, no end of a bad word,
    no stop token before [min_tokens]; a best one if the request is greedy, else one
    that passes the request's own [top_k], [top_p] and [min_p]. *)
Theorem sampled_tokens_respect_requests (s : ModelRunner (features := features)) so : runner_ok s -> step_fits s so -> exists s', update_states s so = Ok s' /\
  let md := sampling_metadata (input_batch s') in
  let past := past_of (output_lists s') md in
  let n := num_reqs (input_batch s') in
  let vocab := vocab_size (input_batch s') in
  forall logits, (0 < vocab)%Z -> 0 < n -> metadata_fits (Z.to_nat vocab) n md past -> draws_fit (Z.to_nat vocab) n md -> shaped_tensor (Z.to_nat vocab) n logits ->
    (forall i row, logits !! i = Some row -> (forall x, x ∈ row -> x = NInf \/ exists q, x = Fin q) /\ exists j q, row !! j = Some (Fin q) /\ forbidden md past i j = false) ->
    exists tokens lp, forward (Z.to_nat vocab) md past logits = Ok ((fun t => [t]) <$> tokens, lp) /\ length tokens = n /\
      forall i id, holds_id (input_batch s') i id -> exists q row t, mr_requests s' !! id = Some q /\ logits !! i = Some row /\ tokens !! i = Some t /\
        respects vocab (sp_sampler (cs_sampling_params q)) (output_of (output_lists s') q) (imap (prepared md past i) row) t.
Proof.
  intros Hr Hf. destruct (update_states_ok s so Hr Hf) as (s' & E1 & Hd). exists s'. split; [done|]. intros md past n vocab logits Hv Hn Hm Hdr Hl Hrows.
  destruct (sd_ok _ _ _ Hd) as [Hst Hc Hmeta _]. pose proof (st_batch s' Hst) as Hb.
  destruct (forward_ok (Z.to_nat vocab) n md past logits ltac:(lia) Hn Hm Hdr Hl Hrows) as (tokens & lp & Ef & Hlen & Htok & _). exists tokens, lp. split; [done|]. split; [done|].
  intros i id Hi. destruct (metadata_sampled _ _ _ _ _ Hb Hc Hmeta Hi) as (q & Hq & Hs). fold md vocab in Hs. pose proof (holds_lt_num _ _ _ _ _ Hb Hc Hi) as Hin. fold n in Hin.
  destruct Hl as [Hll Hlw]. destruct (lookup_lt_is_Some_2 logits i) as [row Erow]; [lia|]. destruct (lookup_lt_is_Some_2 tokens i) as [t Et]; [lia|].
  destruct (Htok i row t Erow Et) as (Hforb & (x & Hx) & Hdrawn). exists q, row, t. split; [done|]. split; [done|]. split; [done|].
  destruct (forbidden_respects (output_lists s') md i vocab q t Hs Hforb) as (H1 & H2 & H3).
  { intros rows mrow Er Emr. destruct (mf_mask _ _ _ _ Hm rows Er) as [_ Hw]. rewrite (Forall_lookup_1 _ _ _ _ Hw Emr).
    apply lookup_lt_Some in Hx. by rewrite (Forall_lookup_1 _ _ _ _ Hlw Erow) in Hx. }
  destruct (drawn_respects md i vocab q _ t Hs Hdrawn) as [H4 H5]. by split.
Qed.
End Requests.

(** ** Runs *)

Module SamplerDemo.
#[local] Existing Instances demo_env demo_torch demo_torch_laws demo_numpy demo_numpy_laws demo_order demo_order_laws.

(** Four tokens.  One request is greedy, must not repeat token 2 and may not stop
    with token 0 yet; the other draws from the best two of its three tokens. *)
Definition params (temp : Q) (k min : Z) (stops : gset Z) (allowed : list Z) (bad : list (list Z)) : SamplingParams :=
  {| sp_max_tokens := None; guided_decoding := false; ignore_eos := false; stop_token_ids := []; prompt_logprobs := None; sp_logprobs := Some 1%Z;
     sp_sampler := {| temperature := temp; top_p := 9 # 10; top_k := k; min_p := 0; frequency_penalty := 0; presence_penalty := 0;
       repetition_penalty := 1; sp_min_tokens := min; sp_seed := None; all_stop_token_ids := stops; sp_logit_bias := None;
       allowed_token_ids := allowed; sp_bad_words_token_ids := bad |} |}.

Definition start : ModelRunner (features := nat) := run (model_runner_init 2 8 16 2 4 false).

Definition both : SchedulerOutput :=
  demo_step [demo_new "a" [1; 2]%Z [1] (params 0 (-1)%Z 2 {[0%Z]} [] [[2%Z]; [3; 3]%Z]); demo_new "b" [3]%Z [2] (params 1 2 0 ∅ [0; 1; 2]%Z [])] []
    {["a" := 2%Z; "b" := 1%Z]} 3 ∅.

Definition ready : ModelRunner (features := nat) := run (update_states start both).

Definition md : SamplingMetadata := sampling_metadata (input_batch ready).

Definition outs : list (list Z) := past_of (output_lists ready) md.

Definition logits : tensor := [[Fin 9; Fin 1; Fin 8; Fin 3]; [Fin 3; Fin 2; Fin 1; Fin 9]].

Lemma start_ok : runner_ok start.
Proof.
  destruct (model_runner_init_ok (features := nat) 2 8 16 2 4 false ltac:(lia)) as (s & E1 & Hs & _).
  assert (E : model_runner_init (features := nat) 2 8 16 2 4 false = Ok start) by (by vm_compute). rewrite E in E1. by apply Ok_eq in E1 as <-.
Qed.

Lemma both_fits : step_fits start both.
Proof.
  split.
  - by apply (bool_decide_unpack _); vm_compute.
  - by apply scheduled_dom.
  - vm_compute. lia.
  - intros d [->|[->|?%elem_of_nil]%elem_of_cons]%elem_of_cons; [| |done].
    + split; [split; [vm_compute; lia|vm_compute; lia|done|by exists (replicate 4 true)]|]. split; [by left|done].
    + split; [split; [vm_compute; lia|vm_compute; lia|done|by exists [false; false; false; true]]|]. split; [by left|done].
  - intros d ?%elem_of_nil. done.
Qed.

Lemma ready_eq : update_states start both = Ok ready.
Proof. by vm_compute. Qed.

Lemma logits_shaped : shaped_tensor 4 2 logits.
Proof. split; [done|by repeat constructor]. Qed.

Lemma md_fits : metadata_fits 4 2 md outs.
Proof.
  assert (E1 : m_bad_words_token_ids md = {[0 := [[2%Z]; [3%Z; 3%Z]]]}) by (by vm_compute). assert (E2 : m_min_tokens md = {[0 := (2%Z, {[0%Z]})]}) by (by vm_compute).
  assert (E3 : m_allowed_token_ids_mask md = Some [[false; false; false; false]; [false; false; false; true]]) by (by vm_compute).
  assert (E4 : m_logit_bias md = [None; None]) by (by vm_compute). split.
  - by vm_compute.
  - rewrite E3. intros mask [= <-]. split; [done|by repeat constructor].
  - rewrite E1. intros i ws w [<- <-]%lookup_singleton_Some. split; [lia|]. clear; intros [->|[->|?%elem_of_nil]%elem_of_cons]%elem_of_cons; [| |done]; (split; [done|]); intros t [= <-]; lia.
  - rewrite E4. cbn. lia.
  - rewrite E4. intros [|[|i]] lb t b Hi; done.
  - rewrite E2. intros i m stops k [<- [= <- <-]]%lookup_singleton_Some. split; [lia|]. intros ->%elem_of_singleton. lia.
  - assert (E5 : m_no_penalties md = true) by (by vm_compute). by rewrite E5.
Qed.

Lemma md_draws : draws_fit 4 2 md.
Proof.
  assert (E1 : m_temperature md = Some [(-1 # 1)%Q; 1%Q]) by (vm_compute; reflexivity).
  assert (E2 : m_generators md = ∅) by (vm_compute; reflexivity).
  assert (E3 : m_top_k md = Some (Z.of_nat <$> [4; 2]) /\ m_top_p md = Some [(9 # 10)%Q; (9 # 10)%Q]) by (vm_compute; split; reflexivity).
  assert (E4 : m_min_p md = None /\ m_max_num_logprobs md = Some 1%Z) by (vm_compute; split; reflexivity). assert (E5 : m_all_greedy md = false /\ m_all_random md = false) by (vm_compute; split; reflexivity).
  destruct E3 as [E3 E3']. destruct E4 as [E4 E4']. destruct E5 as [E5 E5']. revert E1 E2 E3 E3' E4 E4' E5 E5'. generalize md. intros m E1 E2 E3 E3' E4 E4' E5 E5'. split.
  - by rewrite E5.
  - intros _. exists [(-1 # 1)%Q; 1%Q]. rewrite E5'. done.
  - by rewrite E4.
  - exists (Some [4; 2]). split; [exact E3|]. rewrite E3'. split; intros l [= <-]; (split; [done|]); repeat constructor; lra || lia.
  - intros i g. rewrite E2. by rewrite lookup_empty.
  - rewrite E4'. intros k [= <-]. lia.
Qed.

Lemma logits_open i row : logits !! i = Some row ->
  (forall x, x ∈ row -> x = NInf \/ exists q, x = Fin q) /\ exists j q, row !! j = Some (Fin q) /\ forbidden md outs i j = false.
Proof.
  intros Hi. assert (Hfin : forall l, forallb (fun x => match x with Fin _ => true | _ => false end) l = true -> forall x, x ∈ l -> x = NInf \/ exists q, x = Fin q).
  { intros l Hl x Hx. apply list_elem_of_In in Hx. rewrite forallb_forall in Hl. specialize (Hl x Hx). destruct x; try done. right. by eexists. }
  destruct i as [|[|i]]; [injection Hi as <-|injection Hi as <-|done]; (split; [by apply Hfin|]).
  - exists 1, 1%Q. split; [done|by vm_compute].
  - exists 0, 3%Q. split; [done|by vm_compute].
Qed.
End SamplerDemo.
Import SamplerDemo.
#[local] Existing Instances demo_env demo_torch demo_torch_laws demo_numpy demo_numpy_laws demo_order demo_order_laws.

(** Token 0 may not be drawn for the first request, but its log probability, the
    best, is reported. *)
Lemma sampler_forward_correct_witness : exists tokens l, forward 4 md outs logits = Ok ((fun t => [t]) <$> tokens, Some l) /\ tokens = [3; 0] /\
  drawn md 1 (imap (prepared md outs 1) [Fin 3; Fin 2; Fin 1; Fin 9]) 0 /\
  reported 1 [Fin 9; Fin 1; Fin 8; Fin 3] 3 l 0 /\ lr_indices l = [[3; 0]; [0; 3]] /\ lr_ranks l = [3; 2].
Proof.
  destruct (sampler_forward_correct 4 2 md outs logits ltac:(lia) ltac:(lia) md_fits md_draws logits_shaped logits_open) as (tokens & lp & Ef & _ & Ht & Hlp).
  assert (Ek : m_max_num_logprobs md = Some 1%Z) by (vm_compute; reflexivity). rewrite Ek in Hlp. destruct Hlp as (l & -> & _ & Hrep).
  assert (Et : match forward 4 md outs logits with Ok (t, Some l) => Some (t, lr_indices l, lr_ranks l) | _ => None end = Some ([[3]; [0]], [[3; 0]; [0; 3]], [3; 2])) by (by vm_compute).
  rewrite Ef in Et. injection Et as Et El Er.
  assert (E : tokens = [3; 0]) by (destruct tokens as [|a [|b [|c tokens]]]; cbn in Et; congruence).
  exists tokens, l. split; [exact Ef|]. split; [exact E|]. split; [apply (Ht 1 _ 0); [done|by rewrite E]|].
  split; [|split; [exact El|exact Er]]. change [Fin 9; Fin 1; Fin 8; Fin 3] with (row_log_softmax [Fin 9; Fin 1; Fin 8; Fin 3]).
  apply (Hrep 0 _ 3); [done|by rewrite E].
Defined.

Lemma top_k_top_p_correct_witness : exists t', apply_top_k_top_p 4 (Some [4; 2]%Z) (Some [(1 # 2)%Q; (9 # 10)%Q]) logits = Ok t' /\
  t' = [[Fin 9; NInf; Fin 8; NInf]; [Fin 3; NInf; NInf; Fin 9]] /\ filter_row (Some 4) (Some (1 # 2)%Q) [Fin 9; Fin 1; Fin 8; Fin 3] (t' !!! 0).
Proof.
  destruct (top_k_top_p_correct 4 2 (Some [4; 2]) (Some [(1 # 2)%Q; (9 # 10)%Q]) logits) as (t' & E1 & _ & Hrow); [lia|lia|exact logits_shaped| | |].
  - split; intros l [= <-]; (split; [done|]); repeat constructor; lra || lia.
  - apply Forall_cons. split; [|apply Forall_cons; split; [|apply Forall_nil_2]]; split.
    + exact (proj1 (logits_open 0 _ eq_refl)).
    + by exists 0, 9%Q.
    + exact (proj1 (logits_open 1 _ eq_refl)).
    + by exists 0, 3%Q.
  - exists t'. split; [exact E1|]. assert (E : t' = [[Fin 9; NInf; Fin 8; NInf]; [Fin 3; NInf; NInf; Fin 9]]).
    { assert (E2 : apply_top_k_top_p 4 (fmap (M := option) (fmap (M := list) Z.of_nat) (Some [4; 2])) (Some [(1 # 2)%Q; (9 # 10)%Q]) logits = Ok [[Fin 9; NInf; Fin 8; NInf]; [Fin 3; NInf; NInf; Fin 9]]) by (by vm_compute).
      rewrite E2 in E1. by apply Ok_eq in E1. }
    split; [exact E|]. destruct (Hrow 0 _ eq_refl) as (row' & Hr & Hf). rewrite E in Hr |- *. injection Hr as <-. exact Hf.
Defined.

Lemma sampled_tokens_respect_requests_witness : exists s' q tokens lp, update_states start both = Ok s' /\ mr_requests s' !! "b" = Some q /\
  forward 4 md outs logits = Ok ((fun t => [t]) <$> tokens, lp) /\ tokens = [3; 0] /\
  respects 4 (sp_sampler (cs_sampling_params q)) (output_of (output_lists s') q) (imap (prepared md outs 1) [Fin 3; Fin 2; Fin 1; Fin 9]) 0.
Proof.
  destruct (sampled_tokens_respect_requests start both start_ok both_fits) as (s' & E1 & H). pose proof ready_eq as E2. rewrite E1 in E2. apply Ok_eq in E2. subst s'.
  assert (En : num_reqs (input_batch ready) = 2 /\ vocab_size (input_batch ready) = 4%Z) by (vm_compute; split; reflexivity). destruct En as [En Ev].
  cbv zeta in H. rewrite En, Ev in H. fold md in H. fold outs in H. change (Z.to_nat 4) with 4 in H.
  destruct (H logits ltac:(lia) ltac:(lia) md_fits md_draws logits_shaped logits_open) as (tokens & lp & Ef & _ & Hi).
  assert (Et : match forward 4 md outs logits with Ok (l, _) => l | Err _ => [] end = [[3]; [0]]) by (vm_compute; reflexivity).
  rewrite Ef in Et.
  assert (E : tokens = [3; 0]) by (destruct tokens as [|a [|b [|c tokens]]]; cbn in Et; congruence).
  assert (Hid : holds_id (input_batch ready) 1 "b") by (vm_compute; reflexivity). destruct (Hi 1 "b" Hid) as (q & row & t & Hq & Hrow & Ht & Hresp).
  exists ready, q, tokens, lp. split; [exact E1|]. split; [exact Hq|]. split; [exact Ef|]. split; [exact E|].
  rewrite E in Ht. injection Ht as <-. injection Hrow as <-. exact Hresp.
Defined.
