(* ===== verification/RejectionSampler.v ===== *)
(** * The rejection sampler

    [vllm/v1/sample/rejection_sampler.py]: the tokens that a target model accepts
    of a draft.  The Triton kernels run over flat arrays, one program per request
    or per request and position; the programs of a launch run one after the other,
    in any order. *)

From Stdlib Require Import QArith_base.
From S2P Require Import Prelude Numbers NumPy Request EncoderCache Scheduler BlockTable InputBatch ModelRunner Sampler.

Definition GREEDY_TEMPERATURE : Q := -1 # 1.
Definition MAX_SPEC_LEN : nat := 32.

(** [SpecDecodeMetadata.max_spec_len] *)
Definition max_spec_len (m : SpecDecodeMetadata) : nat := max_list (sd_num_draft_tokens m).

(** What is called of torch's generators and of Triton. *)
Class Kernels := {
  next_power_of_2 : nat -> nat;
  tl_argmax : list float -> nat;
  rand : nat -> list Q;
  uniform_ : nat -> nat -> list Q;
  recovery_exponential : nat -> nat -> list (list Q);
  recovery_exponential_ : nat -> nat -> list Q;
  grid : nat -> list nat;
  grid2 : nat -> nat -> list (nat * nat);
}.

Section RejectionSampler.
Context `{T : Torch} `{TR : TorchRows} `{K : Kernels}.

(** ** Memory *)

(** [tl.load] and [tl.store] at an address computed from a token id. *)
Definition tl_load {A} (buf : list A) (i : Z) : result A :=
  if (i <? 0)%Z then Err IndexError else np_get buf (Z.to_nat i).

Definition tl_store {A} (i : Z) (x : A) (buf : list A) : result (list A) :=
  if (i <? 0)%Z then Err IndexError else np_put (Z.to_nat i) x buf.

(** A block of a row; the places behind the row are masked. *)
Definition load_row {A} (buf : list A) (row vocab_size : nat) : list A := take vocab_size (drop (row * vocab_size) buf).

(** The first lines of every kernel: where the tokens of the request start, and how
    many there are. *)
Definition program_range (cu : list nat) (req_idx : nat) : result (nat * nat) :=
  start_idx ← (if req_idx =? 0 then Ok 0 else np_get cu (req_idx - 1));
  end_idx ← np_get cu req_idx;
  Ok (start_idx, end_idx - start_idx).

(** ** The kernels *)

(** The loop of both sampling kernels: [choose] gives the token at a position and
    whether the draft is rejected there. *)
Definition sample_pos (choose : nat -> result (Z * bool)) (row : nat) (a : list Z * bool) (pos : nat) : result (list Z * bool) :=
  let '(out, rejected) := a in
  if rejected : bool then Ok (out, true)
  else
    '(token_id, rejected) ← choose pos;
    out ← np_put (row + pos) token_id out;
    Ok (out, rejected).

Definition sample_row (choose : nat -> result (Z * bool)) (row num_draft_tokens : nat) (bonus : result Z) (out : list Z) : result (list Z) :=
  '(out, rejected) ← foldM (sample_pos choose row) (out, false) (seq 0 num_draft_tokens);
  if rejected : bool then Ok out
  else
    bonus_token_id ← bonus;
    np_put (row + num_draft_tokens) bonus_token_id out.

Definition greedy_choice (draft_token_ids target_argmax : list Z) (start_idx pos : nat) : result (Z * bool) :=
  draft_token_id ← np_get draft_token_ids (start_idx + pos);
  target_argmax_id ← np_get target_argmax (start_idx + pos);
  Ok (target_argmax_id, negb (draft_token_id =? target_argmax_id)%Z).

Definition rejection_greedy_sample_kernel (cu : list nat) (draft_token_ids target_argmax bonus_token_ids : list Z) (is_greedy : option (list bool))
    (max_spec_len : nat) (out : list Z) (req_idx : nat) : result (list Z) :=
  greedy ← (match is_greedy with None => Ok true | Some l => np_get l req_idx end);
  if negb greedy then Ok out
  else
    '(start_idx, n) ← program_range cu req_idx;
    sample_row (greedy_choice draft_token_ids target_argmax start_idx) (req_idx * (max_spec_len + 1)) n (np_get bonus_token_ids req_idx) out.

Definition accepts_draft (draft_prob : Q) (target_prob : float) (uniform_prob : Q) : bool :=
  negb (Qle_bool draft_prob 0) && fle (Fin uniform_prob) (fdiv target_prob draft_prob).

Definition random_choice (draft_token_ids : list Z) (draft_probs : option (list Q)) (target_probs : list float) (recovered_token_ids : list Z) (uniform_probs : list Q)
    (vocab_size start_idx pos : nat) : result (Z * bool) :=
  draft_token_id ← np_get draft_token_ids (start_idx + pos);
  let i := (Z.of_nat ((start_idx + pos) * vocab_size) + draft_token_id)%Z in
  draft_prob ← (match draft_probs with None => Ok 1%Q | Some p => tl_load p i end);
  target_prob ← tl_load target_probs i;
  uniform_prob ← np_get uniform_probs (start_idx + pos);
  if accepts_draft draft_prob target_prob uniform_prob then Ok (draft_token_id, false)
  else
    token_id ← np_get recovered_token_ids (start_idx + pos);
    Ok (token_id, true).

Definition rejection_random_sample_kernel (cu : list nat) (draft_token_ids : list Z) (draft_probs : option (list Q)) (target_probs : list float)
    (bonus_token_ids recovered_token_ids : list Z) (uniform_probs : list Q) (is_greedy : list bool) (max_spec_len vocab_size : nat)
    (out : list Z) (req_idx : nat) : result (list Z) :=
  greedy ← np_get is_greedy req_idx;
  if (greedy : bool) then Ok out
  else
    '(start_idx, n) ← program_range cu req_idx;
    sample_row (random_choice draft_token_ids draft_probs target_probs recovered_token_ids uniform_probs vocab_size start_idx)
      (req_idx * (max_spec_len + 1)) n (np_get bonus_token_ids req_idx) out.

(** A block of [MAX_NUM_TOKENS] stores, masked behind the request's tokens. *)
Definition expand_kernel {A} (input : list A) (cu : list nat) (replace : A -> A) (max_num_tokens : nat) (out : list A) (req_idx : nat) : result (list A) :=
  '(start_idx, num_tokens) ← program_range cu req_idx;
  src_val ← np_get input req_idx;
  foldM (fun out offset => if offset <? num_tokens then np_put (start_idx + offset) (replace src_val) out else Ok out) out (seq 0 max_num_tokens).

(** Of the padding the quotient is zero: 0 divided by -inf. *)
Definition recovered_id (prob : list float) (q : list Q) (vocab_size : nat) : Z :=
  Z.of_nat (tl_argmax (zip_with fdiv prob q ++ replicate (next_power_of_2 vocab_size - vocab_size) (Fin 0))).

(** What the target gives a token beyond the draft. *)
Definition beyond_draft (target_prob : float) (draft_prob : Q) : float :=
  let d := fadd target_prob (- draft_prob) in if fle (Fin 0) d then d else Fin 0.

(** Without draft probabilities the draft token's own probability is put to zero
    in the target's memory, and put back afterwards. *)
Definition sample_recovered_tokens_kernel (cu : list nat) (draft_token_ids : list Z) (draft_probs : option (list Q)) (q : list (list Q)) (vocab_size : nat)
    (m : list Z * list float) (program : nat * nat) : result (list Z * list float) :=
  let '(out, target_probs) := m in
  let '(req_idx, pos) := program in
  '(start_idx, n) ← program_range cu req_idx;
  if n <=? pos then Ok m
  else
    noise ← np_get q req_idx;
    match draft_probs with
    | None =>
        draft_token_id ← np_get draft_token_ids (start_idx + pos);
        let i := (Z.of_nat ((start_idx + pos) * vocab_size) + draft_token_id)%Z in
        orig_prob ← tl_load target_probs i;
        target_probs ← tl_store i (Fin 0) target_probs;
        out ← np_put (start_idx + pos) (recovered_id (load_row target_probs (start_idx + pos) vocab_size) noise vocab_size) out;
        target_probs ← tl_store i orig_prob target_probs;
        Ok (out, target_probs)
    | Some p =>
        let prob := zip_with beyond_draft (load_row target_probs (start_idx + pos) vocab_size) (load_row p (start_idx + pos) vocab_size) in
        out ← np_put (start_idx + pos) (recovered_id prob noise vocab_size) out;
        Ok (out, target_probs)
    end.

(** ** The functions that launch them *)

Definition expand_batch_to_tokens {A} (x : list A) (cu : list nat) (expanded_x : list A) (replace : A -> A) : result (list A) :=
  _ ← py_assert (length cu =? length x);
  foldM (expand_kernel x cu replace MAX_SPEC_LEN) expanded_x (grid (length x)).

(** One request: its own generator overwrites its numbers. *)
Definition uniform_step (generators : gmap nat nat) (a : list Q * nat) (x : nat * nat) : list Q * nat :=
  let '(probs, start_idx) := a in
  let '(req_idx, n) := x in
  if n =? 0 then a
  else (match generators !! req_idx with None => probs | Some g => list_inserts start_idx (uniform_ g n) probs end, start_idx + n).

Definition generate_uniform_probs (num_tokens : nat) (num_draft_tokens : list nat) (generators : gmap nat nat) : list Q :=
  (foldl (uniform_step generators) (rand num_tokens, 0) (imap pair num_draft_tokens)).1.

Definition noise_step (num_draft_tokens : list nat) (vocab_size : nat) (q : list (list Q)) (x : nat * nat) : result (list (list Q)) :=
  let '(i, g) := x in
  n ← np_get num_draft_tokens i;
  if 0 <? n then np_put i (recovery_exponential_ g vocab_size) q else Ok q.

Definition sample_recovered_tokens (max_spec_len : nat) (num_draft_tokens cu : list nat) (draft_token_ids : list Z) (draft_probs : option (list Q))
    (target_probs : list float) (vocab_size : nat) (generators : gmap nat nat) : result (list Z * list float) :=
  let batch_size := length num_draft_tokens in
  q ← foldM (noise_step num_draft_tokens vocab_size) (recovery_exponential batch_size vocab_size) (map_to_list generators);
  foldM (sample_recovered_tokens_kernel cu draft_token_ids draft_probs q vocab_size)
    (empty_ints (length draft_token_ids), target_probs) (grid2 batch_size max_spec_len).

(** The rows of the answer, each of [max_spec_len + 1] tokens. *)
Definition rows_of (batch_size width : nat) (out : list Z) : list (list Z) := (fun i => take width (drop (i * width) out)) <$> seq 0 batch_size.

(** A batch that is at once all greedy and all random would give the last kernel no
    [is_greedy] to load from. *)
Definition rejection_sample (draft_token_ids : list Z) (num_draft_tokens : list nat) (max_spec_len : nat) (cu : list nat) (draft_probs : option (list (list Q)))
    (target_probs : tensor) (vocab_size : nat) (bonus_token_ids : list Z) (md : SamplingMetadata) : result (list (list Z)) :=
  let batch_size := length num_draft_tokens in
  let num_tokens := length draft_token_ids in
  let draft_probs := fmap (M := option) (fun p => mjoin p) draft_probs in
  _ ← py_assert (length target_probs =? num_tokens);
  let out := replicate (batch_size * (max_spec_len + 1)) PLACEHOLDER_TOKEN_ID in
  is_greedy ← (if m_all_greedy md then Ok None
    else t ← of_option TypeError (m_temperature md); Ok (Some (fmap (M := list) (fun x => Qeq_bool x GREEDY_TEMPERATURE) t)));
  out ← (if m_all_random md then Ok out
    else foldM (rejection_greedy_sample_kernel cu draft_token_ids (fmap (M := list) (fun row => Z.of_nat (row_argmax row)) target_probs) bonus_token_ids is_greedy max_spec_len) out (grid batch_size));
  match is_greedy with
  | None => if m_all_random md then Err TypeError else Ok (rows_of batch_size (max_spec_len + 1) out)
  | Some is_greedy =>
      let uniform_probs := generate_uniform_probs num_tokens num_draft_tokens (m_generators md) in
      '(recovered, target_probs) ← sample_recovered_tokens max_spec_len num_draft_tokens cu draft_token_ids draft_probs (mjoin target_probs) vocab_size (m_generators md);
      out ← foldM (rejection_random_sample_kernel cu draft_token_ids draft_probs target_probs bonus_token_ids recovered uniform_probs is_greedy max_spec_len vocab_size)
        out (grid batch_size);
      Ok (rows_of batch_size (max_spec_len + 1) out)
  end.

(** The logits, if all requests are greedy, else probabilities. *)
Definition compute_probs (vocab_size : nat) (logits : tensor) (cu : list nat) (md : SamplingMetadata) : result tensor :=
  if m_all_greedy md then Ok logits
  else
    let num_tokens := length logits in
    t ← of_option AttributeError (m_temperature md);
    temperature ← expand_batch_to_tokens t cu (empty_floats num_tokens) (fun x => if Qeq_bool x GREEDY_TEMPERATURE then 1%Q else x);
    logits ← apply_temperature temperature logits;
    top_k ← (match m_top_k md with None => Ok None | Some k => l ← expand_batch_to_tokens k cu (empty_ints num_tokens) Datatypes.id; Ok (Some l) end);
    top_p ← (match m_top_p md with None => Ok None | Some p => l ← expand_batch_to_tokens p cu (empty_floats num_tokens) Datatypes.id; Ok (Some l) end);
    logits ← apply_top_k_top_p vocab_size top_k top_p logits;
    Ok (fmap (M := list) (fun row => fmap (M := list) Fin (row_softmax row)) logits).

(** [RejectionSampler.forward] *)
Definition rejection_forward (m : SpecDecodeMetadata) (draft_probs : option (list (list Q))) (target_logits : tensor) (vocab_size : nat)
    (bonus_token_ids : list Z) (md : SamplingMetadata) : result (list (list Z)) :=
  _ ← py_assert (max_spec_len m <=? MAX_SPEC_LEN);
  target_probs ← compute_probs vocab_size target_logits (cu_num_draft_tokens m) md;
  rejection_sample (draft_token_ids m) (sd_num_draft_tokens m) (max_spec_len m) (cu_num_draft_tokens m) draft_probs target_probs vocab_size bonus_token_ids md.

(** [execute_model], from the logits to the sampled tokens *)
Definition sample_tokens (vocab_size : nat) (md : SamplingMetadata) (past : list (list Z)) (spec : option SpecDecodeMetadata) (logits : tensor) :
    result (list (list Z) * option LogprobsRows) :=
  match spec with
  | None =>
      '(sampled, logprobs) ← forward vocab_size md past logits;
      Ok (fmap (M := list) (fmap (M := list) Z.of_nat) sampled, logprobs)
  | Some m =>
      bonus_logits ← np_take logits (bonus_logits_indices m);
      '(bonus, logprobs) ← forward vocab_size md past bonus_logits;
      target_logits ← np_take logits (target_logits_indices m);
      out ← rejection_forward m None target_logits vocab_size (mjoin (fmap (M := list) (fmap (M := list) Z.of_nat) bonus)) md;
      Ok (out, logprobs)
  end.
End RejectionSampler.
