(* ===== verification/RejectionSpec.v ===== *)
(** * What the kernels of the rejection sampler compute

    Programs that write segments of their own may run in any order; what every
    program of the rejection sampler writes. *)

From Stdlib Require Import QArith_base QArith Lqa.
From S2P Require Import Prelude Numbers NumPy Request EncoderCache Scheduler BlockTable InputBatch ModelRunner ModelRunnerInputs Sampler SamplerSpec SamplerTheorems RejectionSampler.

(** ** Programs that write segments of their own *)

Section Launch.
Context {I A : Type} (off : I -> nat) (vals : I -> list A).

Definition apart (order : list I) : Prop :=
  forall i j, i ∈ order -> j ∈ order -> i <> j -> off i + length (vals i) <= off j \/ off j + length (vals j) <= off i.

(** After all programs, every segment has its values, and the rest is as before. *)
Lemma launch_ok (f : list A -> I -> result (list A)) order : forall out, NoDup order -> apart order ->
  (forall i out', i ∈ order -> length out' = length out -> f out' i = Ok (list_inserts (off i) (vals i) out')) ->
  (forall i, i ∈ order -> vals i <> [] -> off i + length (vals i) <= length out) ->
  exists out', foldM f out order = Ok out' /\ length out' = length out /\
    (forall i p x, i ∈ order -> vals i !! p = Some x -> out' !! (off i + p) = Some x) /\
    (forall k, (forall i, i ∈ order -> k < off i \/ off i + length (vals i) <= k) -> out' !! k = out !! k).
Proof.
  induction order as [|i order IH]; intros out Hn Ha Hf Hl; cbn [foldM].
  - exists out. split; [done|]. split; [done|]. split; [by intros i p x ?%elem_of_nil|done].
  - apply NoDup_cons in Hn as [Hi Hn]. rewrite (Hf i out) by (done || by left). cbn [mbind result_bind].
    destruct (IH (list_inserts (off i) (vals i) out)) as (out' & E1 & E2 & E3 & E4).
    + done.
    + intros a b Ha' Hb'. apply Ha; by right.
    + intros j out' Hj Ho. rewrite length_inserts in Ho. apply Hf; [by right|done].
    + intros j Hj Hne. rewrite length_inserts. apply Hl; [by right|done].
    + rewrite length_inserts in E2. exists out'. split; [done|]. split; [done|]. split.
      * intros j p x [->|Hj]%elem_of_cons Hx; [|by apply E3]. pose proof (lookup_lt_Some _ _ _ Hx) as Hp. rewrite E4.
        -- rewrite list_lookup_inserts; [by replace (off i + p - off i) with p by lia|lia|].
           assert (Hne : vals i <> []) by (by intros E; rewrite E in Hp; cbn in Hp; lia). specialize (Hl i ltac:(by left) Hne). lia.
        -- intros j Hj. assert (Hij : i <> j) by (by intros ->). destruct (Ha i j) as [H|H]; [by left|by right|done|lia|lia].
      * intros k Hk. rewrite E4 by (intros j Hj; apply Hk; by right). destruct (Hk i ltac:(by left)) as [H|H]; [by apply list_lookup_inserts_lt|by apply list_lookup_inserts_ge].
Qed.
End Launch.

(** ** The parts of a flat array *)

Definition start (ns : list nat) (i : nat) : nat := sum_list (take i ns).

Lemma start_S ns i n : ns !! i = Some n -> start ns (S i) = start ns i + n.
Proof.
  unfold start. revert i. induction ns as [|m ns IH]; intros [|i] Hi; try done; cbn in Hi.
  - injection Hi as ->. rewrite take_0. cbn. rewrite take_0. cbn. lia.
  - specialize (IH i Hi). change (take (S (S i)) (m :: ns)) with (m :: take (S i) ns). change (take (S i) (m :: ns)) with (m :: take i ns).
    change (sum_list (m :: take (S i) ns)) with (m + sum_list (take (S i) ns)). change (sum_list (m :: take i ns)) with (m + sum_list (take i ns)). lia.
Qed.

Lemma start_le ns i j : i <= j -> start ns i <= start ns j.
Proof.
  intros H. induction H as [|j H IH]; [done|]. etransitivity; [exact IH|]. destruct (ns !! j) as [n|] eqn:E; [rewrite (start_S _ _ _ E); lia|].
  unfold start. apply lookup_ge_None in E. by rewrite !take_ge by lia.
Qed.

Lemma start_apart ns i j n : ns !! i = Some n -> i < j -> start ns i + n <= start ns j.
Proof. intros Hi Hij. rewrite <-(start_S ns i n Hi). apply start_le. lia. Qed.

Lemma start_end ns i n : ns !! i = Some n -> start ns i + n <= sum_list ns.
Proof.
  intros Hi. rewrite <-(start_S ns i n Hi). etransitivity; [apply (start_le ns (S i) (S i + length ns)); lia|]. unfold start. by rewrite take_ge by lia.
Qed.

Lemma cumsum_from_at acc ns i n : ns !! i = Some n -> cumsum_from acc ns !! i = Some (acc + start ns (S i)).
Proof.
  revert acc i. induction ns as [|m ns IH]; intros acc [|i] Hi; try done; cbn in Hi |- *.
  - injection Hi as ->. f_equal. unfold start. cbn. rewrite take_0. cbn. lia.
  - rewrite (IH _ _ Hi). f_equal. unfold start. change (take (S (S i)) (m :: ns)) with (m :: take (S i) ns). change (sum_list (m :: take (S i) ns)) with (m + sum_list (take (S i) ns)). lia.
Qed.

Lemma program_range_ok ns i n : ns !! i = Some n -> program_range (cumsum ns) i = Ok (start ns i, n).
Proof.
  intros Hi. unfold program_range, cumsum. assert (E : np_get (cumsum_from 0 ns) i = Ok (start ns i + n)) by (apply np_get_ok; rewrite (cumsum_from_at 0 ns i n Hi), (start_S ns i n Hi); done).
  rewrite E. destruct i as [|i]; cbn [Nat.eqb].
  - cbn [mbind result_bind]. f_equal. unfold start. rewrite take_0. cbn. f_equal. lia.
  - destruct (lookup_lt_is_Some_2 ns i) as [m Em]; [apply lookup_lt_Some in Hi; lia|].
    assert (E' : np_get (cumsum_from 0 ns) (S i - 1) = Ok (start ns (S i))) by (apply np_get_ok; replace (S i - 1) with i by lia; by rewrite (cumsum_from_at 0 ns i m Em)).
    rewrite E'. cbn [mbind result_bind]. f_equal. f_equal. lia.
Qed.

Lemma sum_lengths {A} (ls : list (list A)) : length (mjoin ls) = sum_list (length <$> ls).
Proof. induction ls as [|l ls IH]; [done|]. rewrite mjoin_cons, length_app, IH. done. Qed.

Lemma flat_at {A} (ls : list (list A)) i p l : ls !! i = Some l -> p < length l -> mjoin ls !! (start (length <$> ls) i + p) = l !! p.
Proof.
  revert i. induction ls as [|x ls IH]; intros [|i] Hi Hp; try done; cbn in Hi; rewrite mjoin_cons.
  - injection Hi as ->. unfold start. rewrite take_0. by rewrite lookup_app_l by (cbn; lia).
  - unfold start. rewrite fmap_cons. change (take (S i) (length x :: (length <$> ls))) with (length x :: take i (length <$> ls)).
    change (sum_list (length x :: ?l)) with (length x + sum_list l). rewrite lookup_app_r by lia. rewrite <-(IH i) by done. f_equal. unfold start. lia.
Qed.

Lemma flat_split {A} (ls : list (list A)) k : k < length (mjoin ls) -> exists i l p, ls !! i = Some l /\ p < length l /\ k = start (length <$> ls) i + p.
Proof.
  revert k. induction ls as [|x ls IH]; intros k Hk; [cbn in Hk; lia|]. rewrite mjoin_cons, length_app in Hk. destruct (decide (k < length x)) as [H|H].
  - exists 0, x, k. split; [done|]. split; [done|]. unfold start. rewrite take_0. done.
  - destruct (IH (k - length x)) as (i & l & p & H1 & H2 & H3); [lia|]. exists (S i), l, p. split; [done|]. split; [done|]. unfold start in *. rewrite fmap_cons.
    change (take (S i) (length x :: (length <$> ls))) with (length x :: take i (length <$> ls)). change (sum_list (length x :: ?l)) with (length x + sum_list l). lia.
Qed.

(** *** Rows of one width *)

Lemma load_row_flat {A} width (rows : list (list A)) r row : Forall (fun row => length row = width) rows -> rows !! r = Some row -> load_row (mjoin rows) r width = row.
Proof.
  intros Hw Hr. pose proof (Forall_lookup_1 _ _ _ _ Hw Hr) as Hl. cbn in Hl. apply list_eq. intros p. unfold load_row. destruct (decide (p < width)) as [Hp|Hp].
  - rewrite lookup_take_lt by done. rewrite lookup_drop. by apply (lookup_flat width).
  - rewrite lookup_take_ge by lia. symmetry. apply lookup_ge_None. lia.
Qed.

Lemma flat_insert {A} width (rows : list (list A)) r p row x : Forall (fun row => length row = width) rows -> rows !! r = Some row -> p < width ->
  <[r * width + p := x]> (mjoin rows) = mjoin (<[r := <[p := x]> row]> rows).
Proof.
  intros Hw. revert r. induction Hw as [|y rows Hy Hw IH]; intros [|r] Hr Hp; try done; cbn in Hr; rewrite mjoin_cons.
  - injection Hr as ->. cbn [list_insert insert]. rewrite mjoin_cons. by rewrite insert_app_l by lia.
  - change (<[S r := <[p := x]> row]> (y :: rows)) with (y :: <[r := <[p := x]> row]> rows). rewrite mjoin_cons, <-(IH r) by done.
    replace (S r * width + p) with (length y + (r * width + p)) by lia. by rewrite insert_app_r.
Qed.

Lemma flat_length {A} width (rows : list (list A)) : Forall (fun row => length row = width) rows -> length (mjoin rows) = length rows * width.
Proof. intros H. induction H as [|x rows Hx Hw IH]; [done|]. rewrite mjoin_cons, length_app, IH. cbn. lia. Qed.

Lemma rows_of_ok batch width (out : list Z) i : i < batch -> rows_of batch width out !! i = Some (take width (drop (i * width) out)).
Proof. intros H. unfold rows_of. by rewrite list_lookup_fmap, lookup_seq_lt. Qed.

(** ** One request *)

(** The drafts of a request, the logits after each draft but the last, and the token
    that follows if all are accepted. *)
Record Speculation := {
  sc_drafts : list nat;
  sc_logits : tensor;
  sc_bonus : nat;
}.

Definition counts (L : list Speculation) : list nat := (fun r => length (sc_drafts r)) <$> L.

Definition draft_tokens (L : list Speculation) : list Z := mjoin ((fun r => fmap (M := list) Z.of_nat (sc_drafts r)) <$> L).

Lemma counts_at L i r : L !! i = Some r -> counts L !! i = Some (length (sc_drafts r)).
Proof. intros Hi. unfold counts. by rewrite list_lookup_fmap, Hi. Qed.

Lemma counts_length L : length (counts L) = length L.
Proof. apply length_fmap. Qed.

Lemma draft_at L i r p d : L !! i = Some r -> sc_drafts r !! p = Some d -> draft_tokens L !! (start (counts L) i + p) = Some (Z.of_nat d).
Proof.
  intros Hi Hp. unfold draft_tokens. set (ls := _ <$> L). assert (Els : length <$> ls = counts L).
  { unfold ls, counts. rewrite <-list_fmap_compose. apply list_fmap_ext. intros k x _. cbn. apply length_fmap. }
  rewrite <-Els. rewrite (flat_at ls i p (fmap (M := list) Z.of_nat (sc_drafts r))).
  - by rewrite list_lookup_fmap, Hp.
  - unfold ls. by rewrite list_lookup_fmap, Hi.
  - rewrite length_fmap. by eapply lookup_lt_Some.
Qed.

Lemma draft_tokens_length L : length (draft_tokens L) = sum_list (counts L).
Proof.
  unfold draft_tokens. rewrite sum_lengths. f_equal. unfold counts. rewrite <-list_fmap_compose. apply list_fmap_ext. intros k x _. cbn. apply length_fmap.
Qed.

(** Tokens are taken over up to the first rejection; the bonus token comes after
    the last one. *)
Fixpoint verdict (steps : list (Z * bool)) (bonus : Z) : list Z :=
  match steps with
  | [] => [bonus]
  | (t, rejected) :: steps => t :: (if rejected : bool then [] else verdict steps bonus)
  end.

Lemma verdict_length steps bonus : 1 <= length (verdict steps bonus) <= S (length steps).
Proof. induction steps as [|[t []] steps IH]; cbn in *; lia. Qed.

Lemma rejected_stays choose row l out : foldM (sample_pos choose row) (out, true) l = Ok (out, true).
Proof. induction l as [|p l IH]; [done|]. cbn [foldM sample_pos]. exact IH. Qed.

Lemma sample_row_from choose row steps bonus : forall k out, (forall p s, steps !! p = Some s -> choose (k + p) = Ok s) -> row + k + length steps < length out ->
  ('(out, rejected) ← foldM (sample_pos choose row) (out, false) (seq k (length steps));
   if rejected : bool then Ok out else np_put (row + (k + length steps)) bonus out) = Ok (list_inserts (row + k) (verdict steps bonus) out).
Proof.
  induction steps as [|[t r] steps IH]; intros k out Hc Hl.
  - cbn [foldM seq length mbind result_bind verdict]. rewrite np_put_ok by (cbn in Hl; lia). cbn. by rewrite Nat.add_0_r.
  - cbn [length seq foldM sample_pos]. assert (E0 : choose k = Ok (t, r)) by (rewrite <-(Nat.add_0_r k); by apply (Hc 0)). rewrite E0. cbn [mbind result_bind].
    rewrite np_put_ok by (cbn in Hl; lia). cbn [mbind result_bind verdict]. destruct r.
    + rewrite rejected_stays. cbn. done.
    + assert (Hc' : forall p s, steps !! p = Some s -> choose (S k + p) = Ok s) by (intros p s Hp; replace (S k + p) with (k + S p) by lia; by apply Hc).
      specialize (IH (S k) (<[row + k := t]> out) Hc' ltac:(rewrite length_insert; cbn in Hl; lia)).
      replace (row + (k + S (length steps))) with (row + (S k + length steps)) by lia. rewrite IH. cbn [list_inserts]. replace (row + S k) with (S (row + k)) by lia.
      f_equal. symmetry. apply list_insert_inserts_lt. lia.
Qed.

Lemma sample_row_ok choose row steps bonus out : (forall p s, steps !! p = Some s -> choose p = Ok s) -> row + length steps < length out ->
  sample_row choose row (length steps) (Ok bonus) out = Ok (list_inserts row (verdict steps bonus) out).
Proof.
  intros Hc Hl. pose proof (sample_row_from choose row steps bonus 0 out Hc ltac:(lia)) as H. rewrite Nat.add_0_r in H. rewrite <-H. unfold sample_row.
  destruct (foldM _ _ _) as [[o []]|]; done.
Qed.

(** ** [expand_batch_to_tokens] *)

Section Kernels.
Context `{T : Torch} `{!TorchLaws T} `{TR : TorchRows} `{!TorchRowsLaws TR} `{K : Kernels}.

(** What the documentation of torch and Triton says: every program of a grid runs
    once; uniform numbers are at least 0 and less than 1, exponential ones
    positive; [tl.argmax] is the place of a largest element. *)
Class KernelsLaws : Prop := {
  grid_all : forall n, grid n ≡ₚ seq 0 n;
  grid2_all : forall n m, grid2 n m ≡ₚ seq 0 n ≫= (fun i => pair i <$> seq 0 m);
  rand_shape : forall n, length (rand n) = n /\ Forall (fun u => 0 <= u < 1)%Q (rand n);
  uniform_shape : forall g n, length (uniform_ g n) = n /\ Forall (fun u => 0 <= u < 1)%Q (uniform_ g n);
  recovery_shape : forall n v, length (recovery_exponential n v) = n /\ Forall (fun row => length row = v /\ Forall (fun x => 0 < x)%Q row) (recovery_exponential n v);
  own_recovery_shape : forall g v, length (recovery_exponential_ g v) = v /\ Forall (fun x => 0 < x)%Q (recovery_exponential_ g v);
  tl_argmax_ok : forall row, row <> [] -> no_nan row -> exists x, row !! tl_argmax row = Some x /\ forall y, y ∈ row -> fle y x = true;
}.
Context {HK : KernelsLaws}.

Lemma elem_of_grid2 n m i p : (i, p) ∈ grid2 n m <-> i < n /\ p < m.
Proof.
  rewrite grid2_all, list_elem_of_bind. split.
  - intros (j & Hin & Hj%elem_of_seq). apply list_elem_of_fmap in Hin as (k & [= -> ->] & Hk%elem_of_seq). lia.
  - intros [Hi Hp]. exists i. split; [|apply elem_of_seq; lia]. apply list_elem_of_fmap. exists p. split; [done|]. apply elem_of_seq. lia.
Qed.

Lemma grid2_nodup n m : NoDup (grid2 n m).
Proof.
  rewrite grid2_all. apply NoDup_bind; [|intros i _; apply NoDup_fmap_2; [by intros a b [= ->]|apply NoDup_seq]|apply NoDup_seq].
  intros i j [a b] _ _ Hi Hj. apply list_elem_of_fmap in Hi as (k & [= -> ->] & _), Hj as (k' & [= -> _] & _). done.
Qed.

Lemma masked_stores {A} (s n : nat) (v : A) m : forall k out, s + n <= length out ->
  foldM (fun out offset => if offset <? n then np_put (s + offset) v out else Ok out) out (seq k m) = Ok (list_inserts (s + k) (replicate (min (n - k) m) v) out).
Proof.
  induction m as [|m IH]; intros k out Hl; cbn [seq foldM]; [by rewrite Nat.min_0_r|]. destruct (Nat.ltb_spec k n) as [Hk|Hk].
  - rewrite np_put_ok by lia. cbn [mbind result_bind]. rewrite IH by (by rewrite length_insert). f_equal. replace (min (n - k) (S m)) with (S (min (n - S k) m)) by lia.
    cbn [replicate list_inserts]. replace (s + S k) with (S (s + k)) by lia. symmetry. apply list_insert_inserts_lt. lia.
  - cbn [mbind result_bind]. rewrite IH by done. replace (min (n - S k) m) with 0 by lia. by replace (min (n - k) (S m)) with 0 by lia.
Qed.

Lemma expand_ok {A} (x : list A) ns expanded replace : length x = length ns -> Forall (fun n => n <= MAX_SPEC_LEN) ns -> length expanded = sum_list ns ->
  expand_batch_to_tokens x (cumsum ns) expanded replace = Ok (mjoin (zip_with (fun n v => replicate n (replace v)) ns x)).
Proof.
  intros Hx Hn He. unfold expand_batch_to_tokens. rewrite length_cumsum, Hx, Nat.eqb_refl. cbn [py_assert mbind result_bind].
  set (ls := zip_with (fun n v => replicate n (replace v)) ns x). assert (Els : length <$> ls = ns).
  { unfold ls. apply list_eq. intros i. rewrite list_lookup_fmap, lookup_zip_with. destruct (ns !! i) as [n|] eqn:En; [|done]. cbn.
    destruct (lookup_lt_is_Some_2 x i) as [v Ev]; [apply lookup_lt_Some in En; lia|]. rewrite Ev. cbn. by rewrite length_replicate. }
  assert (Hseg : forall i, i ∈ grid (length ns) -> exists n v, ns !! i = Some n /\ x !! i = Some v /\ ls !! i = Some (replicate n (replace v))).
  { intros i Hi. rewrite grid_all, elem_of_seq in Hi. destruct (lookup_lt_is_Some_2 ns i) as [n En]; [lia|]. destruct (lookup_lt_is_Some_2 x i) as [v Ev]; [lia|].
    exists n, v. split; [done|]. split; [done|]. unfold ls. by rewrite lookup_zip_with, En; cbn; rewrite Ev. }
  destruct (launch_ok (start ns) (fun i => ls !!! i) (expand_kernel x (cumsum ns) replace MAX_SPEC_LEN) (grid (length ns)) expanded) as (out & E1 & E2 & E3 & _).
  - rewrite grid_all. apply NoDup_seq.
  - intros i j Hi Hj Hij. destruct (Hseg i Hi) as (n & v & En & _ & El). destruct (Hseg j Hj) as (m & w & Em & _ & El').
    rewrite (list_lookup_total_correct _ _ _ El), (list_lookup_total_correct _ _ _ El'), !length_replicate.
    destruct (decide (i < j)) as [Hlt|Hlt]; [left; by apply start_apart|right; apply start_apart; [done|lia]].
  - intros i out' Hi Ho. destruct (Hseg i Hi) as (n & v & En & Ev & El). unfold expand_kernel. rewrite (program_range_ok ns i n En). cbn [mbind result_bind].
    rewrite (proj2 (np_get_ok _ _ _) Ev). cbn [mbind result_bind]. pose proof (start_end ns i n En). rewrite masked_stores by lia. rewrite Nat.add_0_r.
    rewrite (list_lookup_total_correct _ _ _ El). pose proof (Forall_lookup_1 _ _ _ _ Hn En) as Hm. cbn in Hm. by replace (min (n - 0) MAX_SPEC_LEN) with n by lia.
  - intros i Hi _. destruct (Hseg i Hi) as (n & v & En & _ & El). rewrite (list_lookup_total_correct _ _ _ El), length_replicate. pose proof (start_end ns i n En). lia.
  - rewrite E1. f_equal. apply list_eq. intros k. destruct (decide (k < length (mjoin ls))) as [Hk|Hk].
    + destruct (flat_split ls k Hk) as (i & l & p & Hi & Hp & ->). rewrite (flat_at ls i p l Hi Hp), Els. destruct (lookup_lt_is_Some_2 l p Hp) as [y Hy]. rewrite Hy. apply (E3 i p y).
      * rewrite grid_all. apply elem_of_seq. apply lookup_lt_Some in Hi. rewrite <-Els, length_fmap. lia.
      * by rewrite (list_lookup_total_correct _ _ _ Hi).
    + rewrite sum_lengths, Els in Hk. rewrite !lookup_ge_None_2; [done|rewrite sum_lengths, Els; lia|lia].
Qed.

Lemma expanded_at {A B} (f : A -> B) (x : list A) ns i p n v : ns !! i = Some n -> x !! i = Some v -> p < n -> length x = length ns ->
  mjoin (zip_with (fun n v => replicate n (f v)) ns x) !! (start ns i + p) = Some (f v).
Proof.
  intros Hn Hv Hp Hl. set (ls := zip_with _ ns x). assert (Els : length <$> ls = ns).
  { unfold ls. apply list_eq. intros j. rewrite list_lookup_fmap, lookup_zip_with. destruct (ns !! j) as [m|] eqn:Em; [|done]. cbn.
    destruct (lookup_lt_is_Some_2 x j) as [w Ew]; [apply lookup_lt_Some in Em; lia|]. rewrite Ew. cbn. by rewrite length_replicate. }
  assert (El : ls !! i = Some (replicate n (f v))) by (unfold ls; by rewrite lookup_zip_with, Hn; cbn; rewrite Hv).
  rewrite <-Els. rewrite (flat_at ls i p _ El) by (by rewrite length_replicate). by apply lookup_replicate_2.
Qed.

Lemma repeated_at {A} (x : list A) ns i p n v : ns !! i = Some n -> x !! i = Some v -> p < n -> length x = length ns ->
  mjoin (zip_with (fun n v => replicate n v) ns x) !! (start ns i + p) = Some v.
Proof. exact (expanded_at Datatypes.id x ns i p n v). Qed.

Lemma expanded_length {A B} (f : A -> B) (x : list A) ns : length x = length ns -> length (mjoin (zip_with (fun n v => replicate n (f v)) ns x)) = sum_list ns.
Proof.
  revert x. induction ns as [|n ns IH]; intros [|v x] Hl; try done. cbn [zip_with]. rewrite mjoin_cons, length_app, length_replicate, IH by (cbn in Hl; lia). done.
Qed.

(** ** The numbers *)

Lemma Forall_inserts {A} (P : A -> Prop) i (l out : list A) : Forall P l -> Forall P out -> Forall P (list_inserts i l out).
Proof. intros Hl. revert i. induction Hl as [|x l Hx Hl IH]; intros i Ho; [done|]. cbn. apply Forall_insert; [by apply IH|done]. Qed.

Lemma uniform_step_ok (P : Q -> Prop) generators ns : (forall g n, Forall P (uniform_ g n)) ->
  forall a probs, length probs = start (a ++ ns) (length a) + sum_list ns -> Forall P probs ->
  let r := (foldl (uniform_step generators) (probs, start (a ++ ns) (length a)) (imap (fun i n => (length a + i, n)) ns)).1 in
  length r = length probs /\ Forall P r /\ (forall k, k < start (a ++ ns) (length a) -> r !! k = probs !! k) /\
  (forall i n g p, ns !! i = Some n -> generators !! (length a + i) = Some g -> p < n -> r !! (start (a ++ ns) (length a + i) + p) = uniform_ g n !! p).
Proof.
  intros HP. induction ns as [|n ns IH]; intros a probs Hl Hp; [by repeat split|]. cbn [imap foldl]. rewrite Nat.add_0_r.
  assert (Hn : (a ++ n :: ns) !! length a = Some n) by (by rewrite list_lookup_middle).
  assert (Ea : (a ++ [n]) ++ ns = a ++ n :: ns) by (by rewrite <-app_assoc). assert (Eal : length (a ++ [n]) = S (length a)) by (rewrite length_app; cbn; lia).
  set (s := start (a ++ n :: ns) (length a)) in *. assert (ES : start (a ++ n :: ns) (S (length a)) = s + n) by (by apply start_S).
  set (probs' := match generators !! length a with None => probs | Some g => list_inserts s (uniform_ g n) probs end).
  assert (E1 : uniform_step generators (probs, s) (length a, n) = (if n =? 0 then probs else probs', s + n)).
  { unfold uniform_step. destruct (Nat.eqb_spec n 0) as [->|]; [by rewrite Nat.add_0_r|done]. }
  rewrite E1. set (p1 := if n =? 0 then probs else probs') in *. change (sum_list (n :: ns)) with (n + sum_list ns) in Hl.
  assert (Hl1 : length p1 = length probs) by (unfold p1, probs'; destruct (n =? 0); [done|]; destruct (generators !! length a); [apply length_inserts|done]).
  assert (Hp1 : Forall P p1).
  { unfold p1, probs'. destruct (n =? 0); [done|]. destruct (generators !! length a) as [g|]; [|done]. by apply Forall_inserts. }
  assert (Hsame : forall k, k < s -> p1 !! k = probs !! k).
  { intros k Hk. unfold p1, probs'. destruct (n =? 0); [done|]. destruct (generators !! length a); [by apply list_lookup_inserts_lt|done]. }
  specialize (IH (a ++ [n]) p1). rewrite Ea, Eal, ES in IH. destruct IH as (I1 & I2 & I3 & I4); [lia|done|].
  assert (Eim : imap (fun i n0 => (S (length a) + i, n0)) ns = imap (((fun i n0 => (length a + i, n0)) : nat -> nat -> nat * nat) ∘ S) ns) by (apply imap_ext; intros i x _; cbn; f_equal; lia).
  rewrite Eim in I1, I2, I3, I4. split; [etransitivity; [exact I1|exact Hl1]|]. split; [exact I2|]. split.
  - intros k Hk. rewrite I3 by lia. by apply Hsame.
  - intros [|i] m g p Hi Hg Hpm; cbn in Hi.
    + injection Hi as ->. rewrite Nat.add_0_r in Hg |- *. fold s. rewrite I3 by lia. unfold p1, probs'. destruct (Nat.eqb_spec m 0) as [->|_]; [lia|]. rewrite Hg.
      destruct (uniform_shape g m) as [Hu _]. rewrite list_lookup_inserts by lia. f_equal. lia.
    + replace (length a + S i) with (S (length a) + i) in Hg |- * by lia. by apply I4.
Qed.

Lemma uniform_probs_ok ns generators : let us := generate_uniform_probs (sum_list ns) ns generators in
  length us = sum_list ns /\ (forall P, (forall n, Forall P (rand n)) -> (forall g n, Forall P (uniform_ g n)) -> Forall P us) /\
  forall i n g p, ns !! i = Some n -> generators !! i = Some g -> p < n -> us !! (start ns i + p) = uniform_ g n !! p.
Proof.
  destruct (rand_shape (sum_list ns)) as [Hl _]. assert (E0 : start ns 0 = 0) by (unfold start; by rewrite take_0). cbv zeta. unfold generate_uniform_probs.
  assert (Hlen : length (rand (sum_list ns)) = start ([] ++ ns) (length (@nil nat)) + sum_list ns) by (change (length (rand (sum_list ns)) = start ns 0 + sum_list ns); lia).
  split; [|split].
  - destruct (uniform_step_ok (fun _ => True) generators ns (fun g n => Forall_true _ _ (fun _ => I)) [] _ Hlen (Forall_true _ _ (fun _ => I))) as (H1 & _). cbn [length app] in H1. rewrite E0 in H1. etransitivity; [exact H1|done].
  - intros P P1 P2. destruct (uniform_step_ok P generators ns P2 [] _ Hlen (P1 _)) as (_ & H2 & _). cbn [length app] in H2. by rewrite E0 in H2.
  - destruct (uniform_step_ok (fun _ => True) generators ns (fun g n => Forall_true _ _ (fun _ => I)) [] _ Hlen (Forall_true _ _ (fun _ => I))) as (_ & _ & _ & H4). cbn [length app] in H4. by rewrite E0 in H4.
Qed.

Lemma noise_ok ns vocab (generators : gmap nat nat) : (forall i g, generators !! i = Some g -> i < length ns) ->
  exists q, foldM (noise_step ns vocab) (recovery_exponential (length ns) vocab) (map_to_list generators) = Ok q /\ length q = length ns /\
    Forall (fun row => length row = vocab /\ Forall (fun x => 0 < x)%Q row) q.
Proof.
  intros Hg. enough (Hall : forall L q0, (forall i g, (i, g) ∈ L -> i < length ns) -> length q0 = length ns -> Forall (fun row => length row = vocab /\ Forall (fun x => 0 < x)%Q row) q0 ->
    exists q, foldM (noise_step ns vocab) q0 L = Ok q /\ length q = length ns /\ Forall (fun row => length row = vocab /\ Forall (fun x => 0 < x)%Q row) q).
  { destruct (recovery_shape (length ns) vocab) as [H1 H2]. apply Hall; [|done|done]. intros i g Hin%elem_of_map_to_list. by eapply Hg. }
  induction L as [|[i g] L IH]; intros q0 Hi Hl Hq; cbn [foldM]; [by exists q0|]. destruct (lookup_lt_is_Some_2 ns i) as [n En]; [apply (Hi i g); by left|].
  assert (Estep : noise_step ns vocab q0 (i, g) = if 0 <? n then np_put i (recovery_exponential_ g vocab) q0 else Ok q0) by (unfold noise_step; by rewrite (proj2 (np_get_ok _ _ _) En)).
  rewrite Estep. assert (Hi' : forall i g, (i, g) ∈ L -> i < length ns) by (intros i' g' Hin; apply (Hi i' g'); by right).
  destruct (0 <? n); [|by apply IH]; cbn [mbind result_bind]. rewrite np_put_ok by (rewrite Hl; apply (Hi i g); by left). cbn [mbind result_bind]. apply IH; [done|by rewrite length_insert|].
  apply Forall_insert; [done|]. apply own_recovery_shape.
Qed.

(** ** [sample_recovered_tokens] *)

Lemma load_at {A} (buf : list A) (k d : nat) : tl_load buf (Z.of_nat k + Z.of_nat d) = np_get buf (k + d).
Proof. unfold tl_load. rewrite (proj2 (Z.ltb_ge _ _)) by lia. f_equal. lia. Qed.

Lemma store_at {A} (buf : list A) (k d : nat) x : tl_store (Z.of_nat k + Z.of_nat d) x buf = np_put (k + d) x buf.
Proof. unfold tl_store. rewrite (proj2 (Z.ltb_ge _ _)) by lia. f_equal. lia. Qed.

Section Recovery.
Context (L : list Speculation) (vocab : nat) (W : tensor) (q : list (list Q)).
Hypothesis (HW : Forall (fun row => length row = vocab) W).

(** The token that takes the place of draft [d]. *)
Definition recovered (row : list float) (noise : list Q) (d : nat) : Z := recovered_id (<[d := Fin 0]> row) noise vocab.

Lemma recovery_program out i r p d row noise : L !! i = Some r -> sc_drafts r !! p = Some d -> d < vocab -> W !! (start (counts L) i + p) = Some row -> q !! i = Some noise ->
  sample_recovered_tokens_kernel (cumsum (counts L)) (draft_tokens L) None q vocab (out, mjoin W) (i, p) =
    (out ← np_put (start (counts L) i + p) (recovered row noise d) out; Ok (out, mjoin W)).
Proof using HW.
  intros Hi Hp Hd Hrow Hnoise. unfold sample_recovered_tokens_kernel. rewrite (program_range_ok _ i _ (counts_at L i r Hi)). cbn [mbind result_bind].
  pose proof (lookup_lt_Some _ _ _ Hp) as Hpl. rewrite (proj2 (Nat.leb_gt _ _)) by done. rewrite (proj2 (np_get_ok _ _ _) Hnoise). cbn [mbind result_bind].
  rewrite (proj2 (np_get_ok _ _ _) (draft_at L i r p d Hi Hp)). cbn [mbind result_bind]. set (k := start (counts L) i + p) in *.
  pose proof (Forall_lookup_1 _ _ _ _ HW Hrow) as Hrl. cbn in Hrl. destruct (lookup_lt_is_Some_2 row d) as [x Hx]; [lia|].
  assert (Hflat : mjoin W !! (k * vocab + d) = Some x) by (by rewrite (lookup_flat vocab W k d row)). pose proof (lookup_lt_Some _ _ _ Hflat) as Hfl.
  rewrite load_at, (proj2 (np_get_ok _ _ _) Hflat). cbn [mbind result_bind]. rewrite store_at, np_put_ok by done. cbn [mbind result_bind].
  rewrite (flat_insert vocab W k d row (Fin 0) HW Hrow Hd).
  assert (HW' : Forall (fun row => length row = vocab) (<[k := <[d := Fin 0]> row]> W)) by (apply Forall_insert; [done|by rewrite length_insert]).
  rewrite (load_row_flat vocab _ k (<[d := Fin 0]> row) HW') by (apply list_lookup_insert_eq; by eapply lookup_lt_Some). fold (recovered row noise d).
  destruct (np_put _ _ out) as [out'|]; [|done]. cbn [mbind result_bind]. rewrite store_at, np_put_ok.
  - cbn [mbind result_bind]. f_equal. f_equal. rewrite <-(flat_insert vocab W k d row (Fin 0) HW Hrow Hd). rewrite list_insert_insert_eq. by apply list_insert_id.
  - rewrite (flat_length vocab) by done. rewrite length_insert. pose proof (flat_length vocab W HW) as Hfw. rewrite Hfw in Hfl. exact Hfl.
Qed.

Lemma idle_program m i r p : L !! i = Some r -> length (sc_drafts r) <= p -> sample_recovered_tokens_kernel (cumsum (counts L)) (draft_tokens L) None q vocab m (i, p) = Ok m.
Proof.
  intros Hi Hp. destruct m as [out tp]. unfold sample_recovered_tokens_kernel. rewrite (program_range_ok _ i _ (counts_at L i r Hi)). cbn [mbind result_bind].
  by rewrite (proj2 (Nat.leb_le _ _)).
Qed.

(** All programs together, on tokens of the vocabulary. *)
Lemma recovery_launch out0 mx : length W = sum_list (counts L) -> length q = length L -> Forall (fun r => length (sc_drafts r) <= mx /\ Forall (fun d => d < vocab) (sc_drafts r)) L ->
  length out0 = sum_list (counts L) ->
  exists out, foldM (sample_recovered_tokens_kernel (cumsum (counts L)) (draft_tokens L) None q vocab) (out0, mjoin W) (grid2 (length L) mx) = Ok (out, mjoin W) /\
    length out = sum_list (counts L) /\
    forall i r p d row noise, L !! i = Some r -> sc_drafts r !! p = Some d -> W !! (start (counts L) i + p) = Some row -> q !! i = Some noise ->
      out !! (start (counts L) i + p) = Some (recovered row noise d).
Proof using HW HK.
  intros HWl Hq HL Ho. pose proof HL as HL'. rewrite Forall_forall in HL'.
  set (off := fun '(i, p) => start (counts L) i + p : nat).
  set (vals := fun '(i, p) => match L !! i with Some r => match sc_drafts r !! p with Some d => [recovered (W !!! (start (counts L) i + p)) (q !!! i) d] | None => [] end | None => [] end).
  assert (Hin : forall i p, (i, p) ∈ grid2 (length L) mx -> exists r, L !! i = Some r).
  { intros i p Hip. apply elem_of_grid2 in Hip as [Hi _]. apply lookup_lt_is_Some_2. lia. }
  assert (Hval : forall i p r, L !! i = Some r -> p < length (sc_drafts r) -> exists d, sc_drafts r !! p = Some d /\ d < vocab /\
    W !! (start (counts L) i + p) = Some (W !!! (start (counts L) i + p)) /\ q !! i = Some (q !!! i) /\ start (counts L) i + p < sum_list (counts L)).
  { intros i p r Hi Hp. destruct (lookup_lt_is_Some_2 (sc_drafts r) p Hp) as [d Hd]. exists d. destruct (HL' r) as [_ Hds]; [by eapply list_elem_of_lookup_2|].
    pose proof (start_end _ _ _ (counts_at L i r Hi)) as Hend. pose proof (Forall_lookup_1 _ _ _ _ Hds Hd) as Hdv. split; [done|]. split; [exact Hdv|].
    split; [apply list_lookup_lookup_total_lt; lia|]. split; [apply list_lookup_lookup_total_lt; rewrite Hq; by eapply lookup_lt_Some|lia]. }
  assert (Hnil : forall i p r, L !! i = Some r -> length (sc_drafts r) <= p -> vals (i, p) = []).
  { intros i p r Hi Hp. unfold vals. rewrite Hi. by rewrite lookup_ge_None_2. }
  assert (Hone : forall i p r, L !! i = Some r -> p < length (sc_drafts r) -> length (vals (i, p)) = 1).
  { intros i p r Hi Hp. unfold vals. rewrite Hi. destruct (lookup_lt_is_Some_2 (sc_drafts r) p Hp) as [d ->]. done. }
  assert (Hlen : forall i p r, L !! i = Some r -> length (vals (i, p)) = if decide (p < length (sc_drafts r)) then 1 else 0).
  { intros i p r Hi. case_decide; [by apply (Hone i p r)|]. by rewrite (Hnil i p r Hi) by lia. }
  assert (Hfold : forall order out, (forall ip, ip ∈ order -> ip ∈ grid2 (length L) mx) -> length out = sum_list (counts L) ->
    foldM (sample_recovered_tokens_kernel (cumsum (counts L)) (draft_tokens L) None q vocab) (out, mjoin W) order =
      (out ← foldM (fun out ip => Ok (list_inserts (off ip) (vals ip) out)) out order; Ok (out, mjoin W))).
  { induction order as [|[i p] order IH]; intros out Hord Hol; cbn [foldM]; [done|]. destruct (Hin i p) as [r Hi]; [apply Hord; by left|].
    destruct (decide (p < length (sc_drafts r))) as [Hp|Hp].
    - destruct (Hval i p r Hi Hp) as (d & Hd & Hdv & Hrow & Hnoise & Hb). rewrite (recovery_program out i r p d _ _ Hi Hd Hdv Hrow Hnoise).
      rewrite np_put_ok by lia. cbn [mbind result_bind]. assert (E1 : vals (i, p) = [recovered (W !!! (start (counts L) i + p)) (q !!! i) d]) by (unfold vals; by rewrite Hi, Hd).
      rewrite E1. cbn [off list_inserts]. apply IH; [intros ip Hip; apply Hord; by right|by rewrite length_insert].
    - rewrite (idle_program _ i r p Hi) by lia. cbn [mbind result_bind]. rewrite (Hnil i p r Hi) by lia. cbn [list_inserts].
      apply IH; [intros ip Hip; apply Hord; by right|done]. }
  rewrite Hfold by done.
  destruct (launch_ok off vals (fun out ip => Ok (list_inserts (off ip) (vals ip) out)) (grid2 (length L) mx) out0) as (out & E1 & E2 & E3 & _).
  - apply grid2_nodup.
  - intros [i p] [j p'] Hi Hj Hij. destruct (Hin i p Hi) as [r Er]. destruct (Hin j p' Hj) as [r' Er'].
    rewrite (Hlen i p r Er), (Hlen j p' r' Er'). change (off (i, p)) with (start (counts L) i + p). change (off (j, p')) with (start (counts L) j + p').
    destruct (decide (p < length (sc_drafts r))) as [Hp|Hp], (decide (p' < length (sc_drafts r'))) as [Hp'|Hp']; try lia.
    destruct (decide (i = j)) as [->|Hne]; [assert (p <> p') by (intros ->; done); lia|].
    destruct (decide (i < j)) as [Hlt|Hlt]; [pose proof (start_apart _ i j _ (counts_at L i r Er) Hlt)|pose proof (start_apart _ j i _ (counts_at L j r' Er') ltac:(lia))]; lia.
  - done.
  - intros [i p] Hip Hne. destruct (Hin i p Hip) as [r Hi]. destruct (decide (p < length (sc_drafts r))) as [Hp|Hp]; [|by rewrite (Hnil i p r Hi) in Hne by lia].
    rewrite (Hone i p r Hi Hp). destruct (Hval i p r Hi Hp) as (d & _ & _ & _ & _ & Hb). cbn [off]. lia.
  - rewrite E1. cbn [mbind result_bind]. exists out. split; [done|]. split; [lia|]. intros i r p d row noise Hi Hd Hrow Hnoise.
    replace (start (counts L) i + p) with (off (i, p) + 0) by (cbn; lia). apply E3.
    + apply elem_of_grid2. pose proof (lookup_lt_Some _ _ _ Hi). destruct (HL' r) as [Hmx _]; [by eapply list_elem_of_lookup_2|]. apply lookup_lt_Some in Hd. lia.
    + unfold vals. rewrite Hi, Hd. cbn. by rewrite (list_lookup_total_correct _ _ _ Hrow), (list_lookup_total_correct _ _ _ Hnoise).
Qed.
End Recovery.

(** ** [compute_probs] *)

(** The temperature of greedy requests is replaced. *)
Definition own_temperature (t : Q) : Q := if Qeq_bool t GREEDY_TEMPERATURE then 1%Q else t.

Lemma own_temperature_pos t : (t == GREEDY_TEMPERATURE \/ 0 < t)%Q -> (0 < own_temperature t)%Q.
Proof. unfold own_temperature. intros [H1|H1]; [apply Qeq_bool_iff in H1; by rewrite H1|]. destruct (Qeq_bool _ _); [done|exact H1]. Qed.

(** The logits of a request fit its drafts. *)
Definition logits_fit (vocab : nat) (r : Speculation) : Prop :=
  length (sc_drafts r) <= MAX_SPEC_LEN /\ Forall (fun d => d < vocab) (sc_drafts r) /\ length (sc_logits r) = length (sc_drafts r) /\
  Forall (fun row => length row = vocab /\ proper row) (sc_logits r).

Lemma counts_logits vocab L : Forall (logits_fit vocab) L -> length <$> (sc_logits <$> L) = counts L.
Proof.
  intros HL. unfold counts. rewrite <-list_fmap_compose. apply list_fmap_ext. intros i r Hr. cbn. by destruct (Forall_lookup_1 _ _ _ _ HL Hr) as (_ & _ & Hl & _).
Qed.

Lemma logits_at vocab L i r p row : Forall (logits_fit vocab) L -> L !! i = Some r -> sc_logits r !! p = Some row -> mjoin (sc_logits <$> L) !! (start (counts L) i + p) = Some row.
Proof.
  intros HL Hi Hp. rewrite <-(counts_logits vocab L HL). rewrite (flat_at (sc_logits <$> L) i p (sc_logits r)); [done|by rewrite list_lookup_fmap, Hi|by eapply lookup_lt_Some].
Qed.

Lemma logits_rows vocab L : Forall (logits_fit vocab) L -> Forall (fun row => length row = vocab /\ proper row) (mjoin (sc_logits <$> L)).
Proof.
  intros HL. apply Forall_forall. intros row Hrow. apply list_elem_of_join in Hrow as (rows & Hrow & (r & -> & Hr)%list_elem_of_fmap). rewrite Forall_forall in HL.
  destruct (HL r Hr) as (_ & _ & _ & H4). rewrite Forall_forall in H4. by apply H4.
Qed.

(** A column of the batch, with an entry for every token. *)
Lemma expanded_column {A B} (g : A -> B) (c : option (list A)) ns (P : B -> Prop) (l : list B) (x : list A) : c = Some x -> Forall (fun a => P (g a)) x -> length x = length ns ->
  l = mjoin (zip_with (fun n v => replicate n (g v)) ns x) -> length l = sum_list ns /\ Forall P l.
Proof.
  intros _ HP Hl ->. split; [by apply expanded_length|]. apply Forall_forall. intros y Hy. apply list_elem_of_join in Hy as (rep & Hy & Hrep).
  apply elem_of_zip_with in Hrep as (n & v & -> & _ & Hv). apply elem_of_replicate in Hy as [-> _]. rewrite Forall_forall in HP. by apply HP.
Qed.

Lemma fmap_expanded {A B} (f : A -> B) ns (x : list A) : fmap (M := list) f (mjoin (zip_with (fun n v => replicate n v) ns x)) = mjoin (zip_with (fun n v => replicate n v) ns (f <$> x)).
Proof.
  revert x. induction ns as [|n ns IH]; intros [|v x]; try done. cbn [zip_with fmap list_fmap]. rewrite !mjoin_cons, fmap_app, fmap_replicate. f_equal. apply IH.
Qed.

Lemma compute_probs_ok L vocab md temps k : m_all_greedy md = false -> m_temperature md = Some temps -> length temps = length L ->
  Forall (fun t => t == GREEDY_TEMPERATURE \/ 0 < t)%Q temps -> m_top_k md = fmap (M := option) (fmap (M := list) Z.of_nat) k -> filters_fit vocab (length L) k (m_top_p md) ->
  0 < vocab -> 0 < sum_list (counts L) -> Forall (logits_fit vocab) L ->
  exists F, compute_probs vocab (mjoin (sc_logits <$> L)) (cumsum (counts L)) md = Ok (fmap (M := list) (fun row => fmap (M := list) Fin (row_softmax row)) F) /\
    length F = sum_list (counts L) /\
    forall i r p row temp, L !! i = Some r -> sc_logits r !! p = Some row -> temps !! i = Some temp ->
      exists row', F !! (start (counts L) i + p) = Some row' /\ length row' = vocab /\ proper row' /\
        filter_row (at_row k i) (at_row (m_top_p md) i) ((fun x => fdiv x (own_temperature temp)) <$> row) row'.
Proof using TorchLaws0 TorchRowsLaws0 HK.
  intros Eg Et Htl Htp Ek [Hk Hp] Hv Hn HL. set (ns := counts L) in *. set (R := mjoin (sc_logits <$> L)).
  assert (HRl : length R = sum_list ns) by (unfold R; by rewrite sum_lengths, (counts_logits vocab L HL)). pose proof (logits_rows vocab L HL) as HR. fold R in HR.
  assert (Hns : Forall (fun n => n <= MAX_SPEC_LEN) ns) by (apply Forall_fmap, (Forall_impl _ _ _ HL); by intros r (H1 & _)). assert (Hnl : length ns = length L) by apply counts_length.
  unfold compute_probs. rewrite Eg, Et. cbn [of_option mbind result_bind]. fold own_temperature. rewrite HRl.
  rewrite (expand_ok temps ns _ own_temperature) by (done || lia || apply length_empty_floats). cbn [mbind result_bind]. set (te := mjoin (zip_with _ ns temps)).
  assert (Hte : length te = sum_list ns) by (apply expanded_length; lia). unfold apply_temperature. rewrite Hte, HRl, Nat.eqb_refl. cbn [mbind result_bind].
  set (S0 := zip_with (fun row t => (fun x => fdiv x t) <$> row) R te). assert (HSl : length S0 = sum_list ns) by (unfold S0; rewrite length_zip_with; lia).
  assert (Hat : forall i r p row temp, L !! i = Some r -> sc_logits r !! p = Some row -> temps !! i = Some temp ->
    S0 !! (start ns i + p) = Some ((fun x => fdiv x (own_temperature temp)) <$> row) /\ p < length (sc_drafts r)).
  { intros i r p row temp Hi Hpr Hti. destruct (Forall_lookup_1 _ _ _ _ HL Hi) as (_ & _ & Hll & _). assert (Hpl : p < length (sc_drafts r)) by (apply lookup_lt_Some in Hpr; lia).
    split; [|done]. unfold S0. rewrite lookup_zip_with. pose proof (logits_at vocab L i r p row HL Hi Hpr) as HR0. fold ns R in HR0. rewrite HR0. cbn. unfold te.
    by rewrite (expanded_at own_temperature temps ns i p _ temp (counts_at L i r Hi) Hti Hpl ltac:(lia)). }
  assert (HSw : shaped_tensor vocab (sum_list ns) S0).
  { split; [done|]. apply Forall_forall. intros y (row & t & -> & Hrow & _)%elem_of_zip_with. rewrite length_fmap. rewrite Forall_forall in HR. by apply HR. }
  set (k' := fmap (M := option) (fun l => mjoin (zip_with (fun n v => replicate n v) ns l)) k). set (p' := fmap (M := option) (fun l => mjoin (zip_with (fun n v => replicate n v) ns l)) (m_top_p md)).
  assert (Ek' : (match m_top_k md with None => Ok None | Some k => l ← expand_batch_to_tokens k (cumsum ns) (empty_ints (sum_list ns)) Datatypes.id; Ok (Some l) end) =
    Ok (fmap (M := option) (fmap (M := list) Z.of_nat) k')).
  { rewrite Ek. unfold k'. destruct k as [kl|]; [|done]. destruct (Hk kl eq_refl) as [Hkl _]. change (fmap (M := option) (fmap (M := list) Z.of_nat) (Some kl)) with (Some (fmap (M := list) Z.of_nat kl)).
    cbn [fmap option_fmap option_map]. rewrite expand_ok by (rewrite ?length_fmap; lia || apply length_empty_ints || done). cbn [mbind result_bind]. f_equal. f_equal. symmetry. apply fmap_expanded. }
  assert (Ep' : (match m_top_p md with None => Ok None | Some p => l ← expand_batch_to_tokens p (cumsum ns) (empty_floats (sum_list ns)) Datatypes.id; Ok (Some l) end) = Ok p').
  { unfold p'. destruct (m_top_p md) as [pl|] eqn:Epl; [|done]. destruct (Hp pl eq_refl) as [Hpl _]. rewrite expand_ok by (lia || apply length_empty_floats || done). done. }
  rewrite Ek', Ep'. cbn [mbind result_bind].
  assert (Hfit : filters_fit vocab (sum_list ns) k' p').
  { unfold k', p'. split; intros l Hl.
    - destruct k as [kl|]; [|done]. destruct (Hk kl eq_refl) as [Hkl HkF]. injection Hl as <-. apply (expanded_column Datatypes.id (Some kl) ns (fun k => 1 <= k <= vocab) _ kl); [done|exact HkF|lia|done].
    - destruct (m_top_p md) as [pl|]; [|done]. destruct (Hp pl eq_refl) as [Hpl HpF]. injection Hl as <-. apply (expanded_column Datatypes.id (Some pl) ns (fun p => 0 < p <= 1)%Q _ pl); [done|exact HpF|lia|done]. }
  destruct (apply_top_k_top_p_ok vocab (sum_list ns) k' p' S0 Hv Hn HSw Hfit) as (F & EF & HFl & HF). rewrite EF. cbn [mbind result_bind]. exists F. split; [done|]. split; [done|].
  intros i r p row temp Hi Hpr Hti. destruct (Hat i r p row temp Hi Hpr Hti) as [Hsi Hpl]. destruct (HF _ _ Hsi) as (row' & HFi & Hlen & Hfr).
  destruct (Forall_lookup_1 _ _ _ _ HL Hi) as (_ & _ & _ & Hrows). destruct (Forall_lookup_1 _ _ _ _ Hrows Hpr) as [_ Hproper].
  pose proof (proper_scaled row (own_temperature temp) Hproper (own_temperature_pos temp (Forall_lookup_1 _ _ _ _ Htp Hti))) as Hps. specialize (Hfr Hps).
  assert (Hkat : at_row k' (start ns i + p) = at_row k i).
  { unfold k', at_row. destruct k as [kl|]; [|done]. cbn. destruct (Hk kl eq_refl) as [Hkl _]. destruct (lookup_lt_is_Some_2 kl i) as [x Ex]; [rewrite Hkl; by eapply lookup_lt_Some|].
    rewrite Ex. by rewrite (repeated_at kl ns i p _ x (counts_at L i r Hi) Ex Hpl ltac:(lia)). }
  assert (Hpat : at_row p' (start ns i + p) = at_row (m_top_p md) i).
  { unfold p', at_row. destruct (m_top_p md) as [pl|]; [|done]. cbn. destruct (Hp pl eq_refl) as [Hpl' _]. destruct (lookup_lt_is_Some_2 pl i) as [x Ex]; [rewrite Hpl'; by eapply lookup_lt_Some|].
    rewrite Ex. by rewrite (repeated_at pl ns i p _ x (counts_at L i r Hi) Ex Hpl ltac:(lia)). }
  exists row'. split; [done|]. split; [done|]. pose proof Hfr as Hfr'. rewrite Hkat, Hpat in Hfr'. split; [|exact Hfr'].
  by apply (filter_proper vocab (sum_list ns) k' p' (start ns i + p) _ row' Hfit Hps).
Qed.
End Kernels.
