(* ===== verification/RejectionTheorems.v ===== *)
(** * Theorems about the rejection sampler

    What the rejection sampler returns for every request, in terms of the request's
    own drafts, logits and numbers; with greedy requests speculative decoding gives
    the tokens of decoding without drafts, and with random ones no token that the
    request's filters exclude. *)

From Stdlib Require Import QArith_base QArith Lqa.
From S2P Require Import Prelude Numbers NumPy Request EncoderCache Scheduler BlockTable InputBatch ModelRunner ModelRunnerInputs Sampler SamplerSpec SamplerTheorems RejectionSampler RejectionSpec.

Section Theorems.
Context `{T : Torch} `{!TorchLaws T} `{TR : TorchRows} `{!TorchRowsLaws TR} `{K : Kernels} {HK : KernelsLaws}.

(** ** One launch over the rows *)

Lemma take_drop_row {A} (out : list A) i w : load_row out i w = take w (drop (i * w) out).
Proof. done. Qed.

Lemma launch_rows (kernel : list Z -> nat -> result (list Z)) (vals : nat -> list Z) n w out : length out = n * w -> (forall i, i < n -> length (vals i) <= w) ->
  (forall i out', i < n -> length out' = length out -> kernel out' i = Ok (list_inserts (i * w) (vals i) out')) ->
  exists out', foldM kernel out (grid n) = Ok out' /\ length out' = length out /\
    forall i, i < n -> load_row out' i w = vals i ++ drop (length (vals i)) (load_row out i w).
Proof using HK.
  intros Hl Hw Hk. assert (Hg : forall i, i ∈ grid n <-> i < n) by (intros i; rewrite grid_all, elem_of_seq; lia).
  assert (Hseg : forall i j, i < j -> S i * w <= j * w) by (intros i j Hij; apply Nat.mul_le_mono_r; lia).
  destruct (launch_ok (fun i => i * w) vals kernel (grid n) out) as (out' & E1 & E2 & E3 & E4).
  - rewrite grid_all. apply NoDup_seq.
  - intros i j Hi Hj Hij. apply Hg in Hi, Hj. pose proof (Hw i Hi). pose proof (Hw j Hj). destruct (decide (i < j)) as [Hlt|Hlt]; [pose proof (Hseg i j Hlt)|pose proof (Hseg j i ltac:(lia))]; lia.
  - intros i o Hi Ho. apply Hk; [by apply Hg|done].
  - intros i Hi _. apply Hg in Hi. pose proof (Hw i Hi). pose proof (Nat.mul_le_mono_r (S i) n w ltac:(lia)). lia.
  - exists out'. split; [done|]. split; [done|]. intros i Hi. apply list_eq. intros p. pose proof (Hw i Hi) as Hwi.
    pose proof (Nat.mul_le_mono_r (S i) n w ltac:(lia)) as Hin. assert (Hrow : forall o : list Z, length o = n * w -> length (load_row o i w) = w).
    { intros o Ho. unfold load_row. rewrite length_take, length_drop. lia. }
    assert (Hcell : forall o : list Z, p < w -> load_row o i w !! p = o !! (i * w + p)) by (intros o Hp; unfold load_row; rewrite lookup_take_lt by done; apply lookup_drop).
    destruct (decide (p < w)) as [Hp|Hp].
    + rewrite (Hcell out' Hp). destruct (decide (p < length (vals i))) as [Hv|Hv].
      * rewrite lookup_app_l by done. destruct (lookup_lt_is_Some_2 (vals i) p Hv) as [x Hx]. rewrite Hx. apply (E3 i p x); [by apply Hg|done].
      * rewrite lookup_app_r by lia. rewrite lookup_drop. replace (length (vals i) + (p - length (vals i))) with p by lia. rewrite (Hcell out Hp). apply E4.
        intros j Hj%Hg. pose proof (Hw j Hj). destruct (decide (i = j)) as [->|Hij]; [lia|]. destruct (decide (i < j)) as [Hlt|Hlt]; [pose proof (Hseg i j Hlt)|pose proof (Hseg j i ltac:(lia))]; lia.
    + rewrite !lookup_ge_None_2; [done|rewrite length_app, length_drop, Hrow by done; lia|rewrite Hrow by lia; lia].
Qed.

(** ** The steps of a request *)

Definition greedy_steps (drafts : list nat) (target : tensor) : list (Z * bool) :=
  zip_with (fun d row => (Z.of_nat (row_argmax row), negb (Z.of_nat d =? Z.of_nat (row_argmax row))%Z)) drafts target.

Definition random_step (vocab : nat) (noise : list Q) (d : nat) (row : list float) (u : Q) : Z * bool :=
  if accepts_draft 1 (row !!! d) u then (Z.of_nat d, false) else (recovered vocab row noise d, true).

Definition random_steps (vocab : nat) (noise : list Q) (drafts : list nat) (target : tensor) (us : list Q) : list (Z * bool) :=
  zip_with (fun d '(row, u) => random_step vocab noise d row u) drafts (zip target us).

(** The part of a flat array that belongs to request [i]. *)
Definition part {A} (l : list A) (ns : list nat) (i n : nat) : list A := take n (drop (start ns i) l).

Lemma part_at {A} (l : list A) ns i n p : p < n -> part l ns i n !! p = l !! (start ns i + p).
Proof. intros Hp. unfold part. rewrite lookup_take_lt by done. apply lookup_drop. Qed.

Lemma part_length {A} (l : list A) ns i n : ns !! i = Some n -> length l = sum_list ns -> length (part l ns i n) = n.
Proof. intros Hi Hl. unfold part. rewrite length_take, length_drop. pose proof (start_end ns i n Hi). lia. Qed.

Section Batch.
Context (L : list Speculation) (vocab : nat) (W : tensor).
Hypothesis HW : Forall (fun row => length row = vocab) W.
Hypothesis HWl : length W = sum_list (counts L).
Hypothesis HL : Forall (fun r => Forall (fun d => d < vocab) (sc_drafts r)) L.

Notation ns := (counts L).
Definition bonuses : list Z := (fun r => Z.of_nat (sc_bonus r)) <$> L.

Lemma bonus_at i r : L !! i = Some r -> np_get bonuses i = Ok (Z.of_nat (sc_bonus r)).
Proof. intros Hi. apply np_get_ok. unfold bonuses. by rewrite list_lookup_fmap, Hi. Qed.

Lemma greedy_program i r w out flags : L !! i = Some r -> (match flags with None => Ok true | Some l => np_get l i end) = Ok true ->
  length (sc_drafts r) < w -> i * w + w <= length out ->
  rejection_greedy_sample_kernel (cumsum ns) (draft_tokens L) (fmap (M := list) (fun row => Z.of_nat (row_argmax row)) W) bonuses flags (w - 1) out i =
    Ok (list_inserts (i * w) (verdict (greedy_steps (sc_drafts r) (part W ns i (length (sc_drafts r)))) (Z.of_nat (sc_bonus r))) out).
Proof using HWl.
  intros Hi Hf Hw Ho. unfold rejection_greedy_sample_kernel. rewrite Hf. cbn [mbind result_bind negb]. rewrite (program_range_ok _ i _ (counts_at L i r Hi)). cbn [mbind result_bind].
  rewrite (bonus_at i r Hi). replace (w - 1 + 1) with w by lia. set (steps := greedy_steps _ _). pose proof (part_length W ns i _ (counts_at L i r Hi) HWl) as Hpl.
  assert (Hsl : length steps = length (sc_drafts r)) by (unfold steps, greedy_steps; rewrite length_zip_with; lia). rewrite <-Hsl.
  apply sample_row_ok; [|lia]. intros p s Hs. unfold steps, greedy_steps in Hs. rewrite lookup_zip_with in Hs. destruct (sc_drafts r !! p) as [d|] eqn:Ed; [|done].
  cbn in Hs. pose proof (lookup_lt_Some _ _ _ Ed) as Hp. rewrite part_at in Hs by done. destruct (W !! (start ns i + p)) as [row|] eqn:Er; [|done]. cbn in Hs. injection Hs as <-.
  unfold greedy_choice. rewrite (proj2 (np_get_ok _ _ _) (draft_at L i r p d Hi Ed)). cbn [mbind result_bind].
  assert (Ea : np_get (fmap (M := list) (fun row => Z.of_nat (row_argmax row)) W) (start ns i + p) = Ok (Z.of_nat (row_argmax row))) by (apply np_get_ok; by rewrite list_lookup_fmap, Er).
  by rewrite Ea.
Qed.

Lemma random_program i r w out (flags : list bool) rec us noise : L !! i = Some r -> flags !! i = Some false -> length (sc_drafts r) < w -> i * w + w <= length out ->
  length us = sum_list ns -> (forall p d row, sc_drafts r !! p = Some d -> W !! (start ns i + p) = Some row -> rec !! (start ns i + p) = Some (recovered vocab row noise d)) ->
  rejection_random_sample_kernel (cumsum ns) (draft_tokens L) None (mjoin W) bonuses rec us flags (w - 1) vocab out i =
    Ok (list_inserts (i * w) (verdict (random_steps vocab noise (sc_drafts r) (part W ns i (length (sc_drafts r))) (part us ns i (length (sc_drafts r)))) (Z.of_nat (sc_bonus r))) out).
Proof using HW HWl HL.
  intros Hi Hf Hw Ho Hus Hrec. unfold rejection_random_sample_kernel. rewrite (proj2 (np_get_ok _ _ _) Hf). cbn [mbind result_bind]. rewrite (program_range_ok _ i _ (counts_at L i r Hi)). cbn [mbind result_bind].
  rewrite (bonus_at i r Hi). replace (w - 1 + 1) with w by lia. set (steps := random_steps _ _ _ _ _). pose proof (part_length W ns i _ (counts_at L i r Hi) HWl) as Hpl.
  pose proof (part_length us ns i _ (counts_at L i r Hi) Hus) as Hul. assert (Hsl : length steps = length (sc_drafts r)) by (unfold steps, random_steps; rewrite !length_zip_with; lia). rewrite <-Hsl.
  apply sample_row_ok; [|lia]. intros p s Hs. unfold steps, random_steps in Hs. rewrite lookup_zip_with in Hs. destruct (sc_drafts r !! p) as [d|] eqn:Ed; [|done]. cbn in Hs.
  pose proof (lookup_lt_Some _ _ _ Ed) as Hp. rewrite lookup_zip_with, !part_at in Hs by done. destruct (W !! (start ns i + p)) as [row|] eqn:Er; [|done]. cbn in Hs.
  destruct (us !! (start ns i + p)) as [u|] eqn:Eu; [|done]. cbn in Hs. injection Hs as <-.
  pose proof (Forall_lookup_1 _ _ _ _ HL Hi) as Hd. pose proof (Forall_lookup_1 _ _ _ _ Hd Ed) as Hdv. cbn in Hdv. pose proof (Forall_lookup_1 _ _ _ _ HW Er) as Hrl. cbn in Hrl.
  unfold random_choice. rewrite (proj2 (np_get_ok _ _ _) (draft_at L i r p d Hi Ed)). cbn [mbind result_bind].
  assert (Ex : np_get (mjoin W) ((start ns i + p) * vocab + d) = Ok (row !!! d)) by (apply np_get_ok; rewrite (lookup_flat vocab W _ d row HW Er Hdv); apply list_lookup_lookup_total_lt; lia).
  rewrite load_at, Ex. cbn [mbind result_bind]. rewrite (proj2 (np_get_ok _ _ _) Eu). cbn [mbind result_bind]. unfold random_step. destruct (accepts_draft 1 (row !!! d) u); [done|].
  by rewrite (proj2 (np_get_ok _ _ _) (Hrec p d row Ed Er)).
Qed.
End Batch.

(** ** The whole batch *)

Definition greedy_at (md : SamplingMetadata) (i : nat) : bool :=
  m_all_greedy md || match at_row (m_temperature md) i with Some t => Qeq_bool t GREEDY_TEMPERATURE | None => false end.

Definition row_result (w : nat) (toks : list Z) : list Z := toks ++ replicate (w - length toks) PLACEHOLDER_TOKEN_ID.

(** What the metadata say of the temperatures. *)
Record temperatures_fit (n : nat) (md : SamplingMetadata) : Prop := {
  tf_both : m_all_greedy md && m_all_random md = false;
  tf_temperature : m_all_greedy md = false -> exists temps, m_temperature md = Some temps /\ length temps = n /\ Forall (fun t => t == GREEDY_TEMPERATURE \/ 0 < t)%Q temps;
  tf_all_random : forall i, m_all_random md = true -> greedy_at md i = false;
  tf_generators : forall i g, m_generators md !! i = Some g -> i < n;
}.

(** The random numbers of a request: its own if it has a generator. *)
Definition numbers_fit (vocab : nat) (md : SamplingMetadata) (i n : nat) (us noise : list Q) : Prop :=
  length us = n /\ Forall (fun u => 0 <= u < 1)%Q us /\ length noise = vocab /\ Forall (fun x => 0 < x)%Q noise /\
  (forall P : Q -> Prop, (forall n, Forall P (rand n)) -> (forall g n, Forall P (uniform_ g n)) -> Forall P us) /\
  forall g, m_generators md !! i = Some g -> us = uniform_ g n.

Lemma load_replicate {A} (x : A) n w i : i < n -> load_row (replicate (n * w) x) i w = replicate w x.
Proof.
  intros Hi. unfold load_row. rewrite drop_replicate, take_replicate. f_equal. pose proof (Nat.mul_le_mono_r (S i) n w ltac:(lia)). lia.
Qed.

Lemma drop_placeholders w (toks : list Z) : drop (length toks) (replicate w PLACEHOLDER_TOKEN_ID) = replicate (w - length toks) PLACEHOLDER_TOKEN_ID.
Proof. apply drop_replicate. Qed.

Lemma max_list_ge (l : list nat) x : x ∈ l -> x <= max_list l.
Proof. induction l as [|y l IH]; intros Hx; [by apply elem_of_nil in Hx|]. apply elem_of_cons in Hx as [->|Hx]; cbn; [lia|]. specialize (IH Hx). cbn in IH. lia. Qed.

Section Sample.
Context (L : list Speculation) (vocab : nat) (W : tensor) (md : SamplingMetadata).
Hypothesis HW : Forall (fun row => length row = vocab) W.
Hypothesis HWl : length W = sum_list (counts L).
Hypothesis HL : Forall (fun r => Forall (fun d => d < vocab) (sc_drafts r)) L.
Hypothesis Htf : temperatures_fit (length L) md.

Notation ns := (counts L).
Notation w := (S (max_list ns)).

Lemma few_drafts i r : L !! i = Some r -> length (sc_drafts r) < w.
Proof using. clear HWl. intros Hi. pose proof (max_list_ge ns (length (sc_drafts r))) as H1. enough (length (sc_drafts r) <= max_list ns) by lia. apply H1. by eapply list_elem_of_lookup_2, counts_at. Qed.

Lemma row_fits i r (out : list Z) : L !! i = Some r -> length out = length L * w -> i * w + w <= length out.
Proof using. clear HWl. intros Hi ->. apply lookup_lt_Some in Hi. pose proof (Nat.mul_le_mono_r (S i) (length L) w ltac:(lia)). lia. Qed.

Definition greedy_row (i : nat) : list Z :=
  match L !! i with
  | Some r => if greedy_at md i then verdict (greedy_steps (sc_drafts r) (part W ns i (length (sc_drafts r)))) (Z.of_nat (sc_bonus r)) else []
  | None => []
  end.

Definition random_row (q : list (list Q)) (us : list Q) (i : nat) : list Z :=
  match L !! i with
  | Some r => if greedy_at md i then []
      else verdict (random_steps vocab (q !!! i) (sc_drafts r) (part W ns i (length (sc_drafts r))) (part us ns i (length (sc_drafts r)))) (Z.of_nat (sc_bonus r))
  | None => []
  end.

Lemma greedy_row_fits i : length (greedy_row i) <= w.
Proof using.
  clear HWl.
  unfold greedy_row. destruct (L !! i) as [r|] eqn:Hi; [|cbn; lia]. destruct (greedy_at md i); [|cbn; lia]. etransitivity; [apply verdict_length|].
  pose proof (few_drafts i r Hi). unfold greedy_steps. rewrite length_zip_with. lia.
Qed.

Lemma random_row_fits q us i : length (random_row q us i) <= w.
Proof using.
  clear HWl.
  unfold random_row. destruct (L !! i) as [r|] eqn:Hi; [|cbn; lia]. destruct (greedy_at md i); [cbn; lia|]. etransitivity; [apply verdict_length|].
  pose proof (few_drafts i r Hi). unfold random_steps. rewrite length_zip_with. lia.
Qed.

Definition flags : option (list bool) := if m_all_greedy md then None else Some (fmap (M := list) (fun x => Qeq_bool x GREEDY_TEMPERATURE) (default [] (m_temperature md))).

Lemma flags_at i : i < length L -> (match flags with None => Ok true | Some l => np_get l i end) = Ok (greedy_at md i).
Proof using Htf.
  clear HWl. intros Hi. unfold flags, greedy_at. destruct (m_all_greedy md) eqn:Eg; [done|]. destruct (tf_temperature _ _ Htf Eg) as (temps & Et & Hl & _). rewrite Et. cbn [default from_option Datatypes.id orb at_row].
  destruct (lookup_lt_is_Some_2 temps i) as [t Eti]; [lia|]. rewrite Eti. apply np_get_ok. by rewrite list_lookup_fmap, Eti.
Qed.

Lemma greedy_launch out : length out = length L * w ->
  exists out', foldM (rejection_greedy_sample_kernel (cumsum ns) (draft_tokens L) (fmap (M := list) (fun row => Z.of_nat (row_argmax row)) W) (bonuses L) flags (max_list ns)) out (grid (length L)) = Ok out' /\
    length out' = length out /\ forall i, i < length L -> load_row out' i w = greedy_row i ++ drop (length (greedy_row i)) (load_row out i w).
Proof using HWl HK Htf.
  intros Ho. apply launch_rows; [done|intros i _; apply greedy_row_fits|]. intros i out' Hi Ho'. destruct (lookup_lt_is_Some_2 L i Hi) as [r Er]. unfold greedy_row. rewrite Er.
  pose proof (flags_at i Hi) as Hf. destruct (greedy_at md i).
  - pose proof (greedy_program L W HWl i r w out' flags Er Hf (few_drafts i r Er) (row_fits i r out' Er ltac:(lia))) as H1. by replace (w - 1) with (max_list ns) in H1 by lia.
  - unfold rejection_greedy_sample_kernel. by rewrite Hf.
Qed.

Lemma random_launch q us out : length out = length L * w -> m_all_greedy md = false -> length us = sum_list ns -> length q = length L ->
  forall rec, (forall i r p d row noise, L !! i = Some r -> sc_drafts r !! p = Some d -> W !! (start ns i + p) = Some row -> q !! i = Some noise ->
    rec !! (start ns i + p) = Some (recovered vocab row noise d)) ->
  exists out', foldM (rejection_random_sample_kernel (cumsum ns) (draft_tokens L) None (mjoin W) (bonuses L) rec us (default [] flags) (max_list ns) vocab) out (grid (length L)) = Ok out' /\
    length out' = length out /\ forall i, i < length L -> load_row out' i w = random_row q us i ++ drop (length (random_row q us i)) (load_row out i w).
Proof using HW HWl HL HK Htf.
  intros Ho Eg Hus Hq rec Hrec. apply launch_rows; [done|intros i _; apply random_row_fits|]. intros i out' Hi Ho'. destruct (lookup_lt_is_Some_2 L i Hi) as [r Er]. unfold random_row. rewrite Er.
  pose proof (flags_at i Hi) as Hf. unfold flags in Hf |- *. rewrite Eg in Hf |- *. cbn [default from_option Datatypes.id]. destruct (greedy_at md i).
  - unfold rejection_random_sample_kernel. by rewrite Hf.
  - apply np_get_ok in Hf. destruct (lookup_lt_is_Some_2 q i) as [noise En]; [lia|].
    pose proof (random_program L vocab W HW HWl HL i r w out' _ rec us noise Er Hf (few_drafts i r Er) (row_fits i r out' Er ltac:(lia)) Hus (fun p d row H1 H2 => Hrec i r p d row noise Er H1 H2 En)) as H1.
    replace (w - 1) with (max_list ns) in H1 by lia. by rewrite (list_lookup_total_correct _ _ _ En).
Qed.

(** Greedy requests have the row of the first launch, random ones that of the
    second. *)
Definition request_row (us noise : list Q) (i : nat) (r : Speculation) : list Z :=
  verdict (if greedy_at md i then greedy_steps (sc_drafts r) (part W ns i (length (sc_drafts r)))
    else random_steps vocab noise (sc_drafts r) (part W ns i (length (sc_drafts r))) us) (Z.of_nat (sc_bonus r)).

Lemma rejection_sample_ok : exists rows, rejection_sample (draft_tokens L) ns (max_list ns) (cumsum ns) None W vocab (bonuses L) md = Ok rows /\ length rows = length L /\
  forall i r, L !! i = Some r -> exists us noise, numbers_fit vocab md i (length (sc_drafts r)) us noise /\ rows !! i = Some (row_result w (request_row us noise i r)).
Proof using TorchLaws0 HW HWl HL HK Htf.
  destruct (uniform_probs_ok ns (m_generators md)) as (Hul & Hup & Hug). set (us := generate_uniform_probs (sum_list ns) ns (m_generators md)) in *.
  assert (Hgen : forall i g, m_generators md !! i = Some g -> i < length ns) by (intros i g Hg; rewrite counts_length; by eapply (tf_generators _ _ Htf)).
  destruct (noise_ok ns vocab (m_generators md) Hgen) as (q & Eq & Hql & Hqp). rewrite counts_length in Hql.
  assert (Hnums : forall i r, L !! i = Some r -> numbers_fit vocab md i (length (sc_drafts r)) (part us ns i (length (sc_drafts r))) (q !!! i)).
  { intros i r Hi. pose proof (counts_at L i r Hi) as Hc. destruct (lookup_lt_is_Some_2 q i) as [noise En]; [rewrite Hql; by eapply lookup_lt_Some|].
    rewrite (list_lookup_total_correct _ _ _ En). destruct (Forall_lookup_1 _ _ _ _ Hqp En) as [Hn1 Hn2]. pose proof (part_length us ns i _ Hc Hul) as Hpl.
    assert (Hpart : forall P : Q -> Prop, (forall n, Forall P (rand n)) -> (forall g n, Forall P (uniform_ g n)) -> Forall P (part us ns i (length (sc_drafts r)))) by (intros P P1 P2; apply Forall_take, Forall_drop; by apply Hup).
    split; [done|]. split; [apply Hpart; intros; [apply rand_shape|apply uniform_shape]|]. split; [done|]. split; [done|]. split; [exact Hpart|]. intros g Hg. apply list_eq. intros p. destruct (uniform_shape g (length (sc_drafts r))) as [Hgl _].
    destruct (decide (p < length (sc_drafts r))) as [Hp|Hp]; [rewrite part_at by done; by apply (Hug i _ g p Hc Hg)|rewrite !lookup_ge_None_2; done || lia]. }
  set (out0 := replicate (length L * w) PLACEHOLDER_TOKEN_ID). assert (H0 : length out0 = length L * w) by apply length_replicate.
  assert (Hfirst : exists out1, (if m_all_random md then Ok out0 else foldM (rejection_greedy_sample_kernel (cumsum ns) (draft_tokens L)
      (fmap (M := list) (fun row => Z.of_nat (row_argmax row)) W) (bonuses L) flags (max_list ns)) out0 (grid (length L))) = Ok out1 /\
    length out1 = length L * w /\ forall i, i < length L -> load_row out1 i w = row_result w (greedy_row i)).
  { assert (Hload : forall i, i < length L -> load_row out0 i w = replicate w PLACEHOLDER_TOKEN_ID) by (intros i Hi; by apply load_replicate). destruct (m_all_random md) eqn:Ear.
    - exists out0. split; [done|]. split; [done|]. intros i Hi. rewrite (Hload i Hi). unfold greedy_row. rewrite (tf_all_random _ _ Htf i Ear). destruct (L !! i); unfold row_result; cbn [app length]; by rewrite Nat.sub_0_r.
    - destruct (greedy_launch out0 H0) as (out1 & E1 & E2 & E3). exists out1. split; [exact E1|]. split; [lia|]. intros i Hi. rewrite (E3 i Hi), (Hload i Hi). by rewrite drop_placeholders. }
  destruct Hfirst as (out1 & E1 & Hl1 & Hr1). unfold rejection_sample. rewrite (draft_tokens_length L), HWl, Nat.eqb_refl. cbn [py_assert mbind result_bind]. rewrite counts_length, Nat.add_1_r. fold out0.
  assert (Efl : (if m_all_greedy md then Ok None else t ← of_option TypeError (m_temperature md); Ok (Some (fmap (M := list) (fun x => Qeq_bool x GREEDY_TEMPERATURE) t))) = Ok flags).
  { unfold flags. destruct (m_all_greedy md) eqn:Eg; [done|]. by destruct (tf_temperature _ _ Htf Eg) as (temps & -> & _). }
  rewrite Efl. cbn [mbind result_bind]. rewrite E1. cbn [mbind result_bind].
  assert (Hrows : forall out i, i < length L -> rows_of (length L) w out !! i = Some (load_row out i w)) by (intros out i Hi; by apply rows_of_ok).
  destruct (m_all_greedy md) eqn:Eg.
  - unfold flags at 1. rewrite Eg. pose proof (tf_both _ _ Htf) as Hboth. rewrite Eg in Hboth. cbn [andb] in Hboth. rewrite Hboth. eexists. split; [done|]. split; [unfold rows_of; by rewrite length_fmap, length_seq|]. intros i r Hi. exists (part us ns i (length (sc_drafts r))), (q !!! i).
    split; [by apply Hnums|]. pose proof (lookup_lt_Some _ _ _ Hi) as Hil. rewrite (Hrows out1 i Hil), (Hr1 i Hil). unfold greedy_row, request_row. rewrite Hi. unfold greedy_at. by rewrite Eg.
  - assert (Ef : flags = Some (default [] flags)) by (unfold flags; by rewrite Eg). rewrite Ef. unfold sample_recovered_tokens. rewrite counts_length. rewrite counts_length in Eq. rewrite Eq. cbn [mbind result_bind fmap option_fmap option_map].
    assert (HL' : Forall (fun r => length (sc_drafts r) <= max_list ns /\ Forall (fun d => d < vocab) (sc_drafts r)) L).
    { apply Forall_lookup. intros i r Hi. pose proof (few_drafts i r Hi). split; [lia|]. exact (Forall_lookup_1 _ _ _ _ HL Hi). }
    destruct (recovery_launch L vocab W q HW (empty_ints (length (draft_tokens L))) (max_list ns) HWl Hql HL') as (rec & Erec & Hrl & Hrec); [by rewrite length_empty_ints, draft_tokens_length|].
    rewrite Erec. cbn [mbind result_bind]. fold us.
    destruct (random_launch q us out1 Hl1 Eg Hul Hql rec Hrec) as (out2 & E2 & Hl2 & Hr2). rewrite E2. cbn [mbind result_bind]. eexists. split; [done|].
    split; [unfold rows_of; by rewrite length_fmap, length_seq|]. intros i r Hi. exists (part us ns i (length (sc_drafts r))), (q !!! i).
    split; [by apply Hnums|]. pose proof (lookup_lt_Some _ _ _ Hi) as Hil. rewrite (Hrows out2 i Hil), (Hr2 i Hil), (Hr1 i Hil). f_equal. unfold random_row, greedy_row, request_row. rewrite Hi.
    destruct (greedy_at md i); [done|]. unfold row_result at 1. cbn [app length]. by rewrite Nat.sub_0_r, drop_placeholders.
Qed.
End Sample.

(** ** [forward] *)

Record speculation_fits (vocab : nat) (md : SamplingMetadata) (L : list Speculation) : Prop := {
  sp_vocab : 0 < vocab;
  sp_some : 0 < sum_list (counts L);
  sp_logits : Forall (logits_fit vocab) L;
  sp_bonus : Forall (fun r => sc_bonus r < vocab) L;
  sp_temperatures : temperatures_fit (length L) md;
  sp_filters : m_all_greedy md = false -> exists k, m_top_k md = fmap (M := option) (fmap (M := list) Z.of_nat) k /\ filters_fit vocab (length L) k (m_top_p md);
}.

(** The metadata that [_calc_spec_decode_metadata] makes. *)
Definition describes (m : SpecDecodeMetadata) (L : list Speculation) : Prop :=
  draft_token_ids m = draft_tokens L /\ sd_num_draft_tokens m = counts L /\ cu_num_draft_tokens m = cumsum (counts L).

(** The logits of a request at its temperature, through its filters. *)
Definition filtered (md : SamplingMetadata) (i : nat) (row row' : list float) : Prop :=
  exists temp, at_row (m_temperature md) i = Some temp /\
    filter_row (fmap Z.to_nat (at_row (m_top_k md) i)) (at_row (m_top_p md) i) ((fun x => fdiv x (own_temperature temp)) <$> row) row'.

(** The rows that the drafts of a request are judged by: the logits themselves, if
    the whole batch is greedy, else the probabilities of its filtered logits. *)
Definition judges (vocab : nat) (md : SamplingMetadata) (i : nat) (r : Speculation) (W : tensor) : Prop :=
  length W = length (sc_drafts r) /\ forall p row, sc_logits r !! p = Some row ->
    if m_all_greedy md then W !! p = Some row
    else exists row', filtered md i row row' /\ length row' = vocab /\ proper row' /\ W !! p = Some (Fin <$> row_softmax row').

Definition steps_of (vocab : nat) (md : SamplingMetadata) (i : nat) (r : Speculation) (W : tensor) (us noise : list Q) : list (Z * bool) :=
  if greedy_at md i then greedy_steps (sc_drafts r) W else random_steps vocab noise (sc_drafts r) W us.

Lemma judges_part vocab md L F i r : length F = sum_list (counts L) -> Forall (logits_fit vocab) L -> L !! i = Some r ->
  (forall p row, sc_logits r !! p = Some row -> if m_all_greedy md then F !! (start (counts L) i + p) = Some row
    else exists row', filtered md i row row' /\ length row' = vocab /\ proper row' /\ F !! (start (counts L) i + p) = Some (Fin <$> row_softmax row')) ->
  judges vocab md i r (part F (counts L) i (length (sc_drafts r))).
Proof using.
  intros Hl HL Hi HF. destruct (Forall_lookup_1 _ _ _ _ HL Hi) as (_ & _ & Hll & _). split; [by apply part_length; [apply counts_at|]|].
  intros p row Hp. rewrite part_at by (apply lookup_lt_Some in Hp; lia). by apply HF.
Qed.

Lemma rejection_forward_ok vocab md L m : describes m L -> speculation_fits vocab md L ->
  exists rows, rejection_forward m None (mjoin (sc_logits <$> L)) vocab (bonuses L) md = Ok rows /\ length rows = length L /\
    forall i r, L !! i = Some r -> exists W us noise, judges vocab md i r W /\ numbers_fit vocab md i (length (sc_drafts r)) us noise /\
      rows !! i = Some (row_result (S (max_list (counts L))) (verdict (steps_of vocab md i r W us noise) (Z.of_nat (sc_bonus r)))).
Proof using TorchLaws0 TorchRowsLaws0 HK.
  intros (Em1 & Em2 & Em3) [Hv Hs HL _ Htf Hfilters]. unfold rejection_forward, max_spec_len. rewrite Em1, Em2, Em3.
  assert (Hmax : max_list (counts L) <= MAX_SPEC_LEN).
  { assert (Hall : forall l, Forall (fun n => n <= MAX_SPEC_LEN) l -> max_list l <= MAX_SPEC_LEN) by (induction 1; cbn in *; lia). apply Hall, Forall_fmap, (Forall_impl _ _ _ HL). by intros r (H1 & _). }
  rewrite (proj2 (Nat.leb_le _ _) Hmax). cbn [py_assert mbind result_bind].
  assert (HLd : Forall (fun r => Forall (fun d => d < vocab) (sc_drafts r)) L) by (apply (Forall_impl _ _ _ HL); by intros r (_ & H2 & _)).
  assert (Htarget : exists F, compute_probs vocab (mjoin (sc_logits <$> L)) (cumsum (counts L)) md = Ok F /\ length F = sum_list (counts L) /\ Forall (fun row => length row = vocab) F /\
    forall i r, L !! i = Some r -> judges vocab md i r (part F (counts L) i (length (sc_drafts r)))).
  { assert (Hcounts : length (mjoin (sc_logits <$> L)) = sum_list (counts L)) by (by rewrite sum_lengths, (counts_logits vocab L HL)). destruct (m_all_greedy md) eqn:Eg.
    - exists (mjoin (sc_logits <$> L)). unfold compute_probs. rewrite Eg. split; [done|]. split; [exact Hcounts|]. split; [apply (Forall_impl _ _ _ (logits_rows vocab L HL)); by intros row [? _]|].
      intros i r Hi. apply (judges_part vocab); [exact Hcounts|exact HL|exact Hi|]. intros p row Hp. rewrite Eg. by apply (logits_at vocab L i r p row HL Hi).
    - destruct (tf_temperature _ _ Htf Eg) as (temps & Et & Htl & Htp). destruct (Hfilters eq_refl) as (k & Ek & Hk). destruct (compute_probs_ok L vocab md temps k Eg Et Htl Htp Ek Hk Hv Hs HL) as (F & EF & HFl & HF).
      eexists. split; [exact EF|]. split; [by rewrite length_fmap|]. split.
      + apply Forall_fmap, Forall_lookup. intros j row' Hj. cbn. rewrite length_fmap, length_softmax. assert (Hjl : j < length (mjoin (sc_logits <$> L))) by (rewrite Hcounts, <-HFl; by eapply lookup_lt_Some).
        destruct (flat_split _ j Hjl) as (i & l & p & Hi & Hp & ->). rewrite list_lookup_fmap in Hi. destruct (L !! i) as [r|] eqn:Er; [|done]. cbn in Hi. injection Hi as <-.
        destruct (lookup_lt_is_Some_2 (sc_logits r) p Hp) as [row Hrow]. destruct (lookup_lt_is_Some_2 temps i) as [temp Etemp]; [apply lookup_lt_Some in Er; lia|].
        destruct (HF i r p row temp Er Hrow Etemp) as (row2 & H2 & Hlen & _). rewrite (counts_logits vocab L HL) in Hj. congruence.
      + intros i r Hi. apply (judges_part vocab); [by rewrite length_fmap|exact HL|exact Hi|]. intros p row Hp. rewrite Eg.
        destruct (lookup_lt_is_Some_2 temps i) as [temp Etemp]; [apply lookup_lt_Some in Hi; lia|]. destruct (HF i r p row temp Hi Hp Etemp) as (row' & H2 & Hlen & Hprop & Hfr).
        exists row'. split; [|split; [done|split; [done|by rewrite list_lookup_fmap, H2]]]. exists temp. rewrite Et. split; [done|].
        replace (fmap Z.to_nat (at_row (m_top_k md) i)) with (at_row k i); [exact Hfr|]. rewrite Ek. unfold at_row. destruct k as [ks|]; [|done]. cbn.
        rewrite list_lookup_fmap. destruct (ks !! i); [|done]. cbn. by rewrite Nat2Z.id. }
  destruct Htarget as (F & EF & HFl & HFw & HF). rewrite EF. cbn [mbind result_bind].
  destruct (rejection_sample_ok L vocab F md HFw HFl HLd Htf) as (rows & Erows & Hrl & Hrows). exists rows. split; [exact Erows|]. split; [exact Hrl|].
  intros i r Hi. destruct (Hrows i r Hi) as (us & noise & Hn & Hrow). eexists _, us, noise. split; [by apply HF|]. split; [exact Hn|]. exact Hrow.
Qed.

(** ** Which tokens can come out *)

Lemma qsum_pos_exists l : Forall (fun x => 0 <= x)%Q l -> (0 < qsum l)%Q -> exists j x, l !! j = Some x /\ (0 < x)%Q.
Proof using.
  induction 1 as [|x l Hx Hl IH]; cbn; intros Hs; [lra|]. destruct (Qlt_le_dec 0 x) as [|Hle]; [by exists 0, x|]. destruct IH as (j & y & Hj & Hy); [lra|]. by exists (S j), y.
Qed.

Lemma Qdiv_one x : (x / 1 == x)%Q.
Proof using. field. Qed.

Lemma fdiv_pos x e : (0 < e)%Q -> fdiv (Fin x) e = Fin (x / e).
Proof using. intros He. unfold fdiv. replace (Qeq_bool e 0) with false; [done|]. symmetry. apply not_true_iff_false. rewrite Qeq_bool_iff. lra. Qed.

Lemma accepts_iff p u : accepts_draft 1 (Fin p) u = true <-> (u <= p)%Q.
Proof using.
  unfold accepts_draft. change (negb (Qle_bool 1 0)) with true. cbn [andb]. rewrite fdiv_pos by lra. cbn [fle]. rewrite Qle_bool_iff. rewrite Qdiv_one. done.
Qed.

(** The race between the weights: the winner is a largest quotient, and has a
    positive weight. *)
Lemma race_winner vocab (w : list Q) (noise : list Q) : length w = vocab -> length noise = vocab -> Forall (fun x => 0 <= x)%Q w -> Forall (fun x => 0 < x)%Q noise -> (0 < qsum w)%Q ->
  exists x wx ex, recovered_id (Fin <$> w) noise vocab = Z.of_nat x /\ w !! x = Some wx /\ (0 < wx)%Q /\ noise !! x = Some ex /\
    forall j wj ej, w !! j = Some wj -> noise !! j = Some ej -> (wj / ej <= wx / ex)%Q.
Proof using HK.
  intros Hw Hn Hpos Hnp Hs. destruct (qsum_pos_exists w Hpos Hs) as (j & wj & Hj & Hwj). rewrite Forall_forall in Hnp.
  destruct (lookup_lt_is_Some_2 noise j) as [ej Hej]; [apply lookup_lt_Some in Hj; lia|]. assert (Hejp : (0 < ej)%Q) by (apply Hnp; by eapply list_elem_of_lookup_2).
  unfold recovered_id. set (pad := replicate _ (Fin 0)). set (z := zip_with fdiv (Fin <$> w) noise ++ pad).
  assert (Hzip : forall a x e, w !! a = Some x -> noise !! a = Some e -> z !! a = Some (Fin (x / e))).
  { intros a x e Ha He. unfold z. rewrite lookup_app_l by (rewrite length_zip_with, length_fmap; apply lookup_lt_Some in Ha; lia). rewrite lookup_zip_with, list_lookup_fmap, Ha. cbn. rewrite He. cbn [option_bind mbind fmap option_fmap option_map].
    f_equal. apply fdiv_pos. apply Hnp. by eapply list_elem_of_lookup_2. }
  assert (Hall : forall a y, z !! a = Some y -> (exists x e, w !! a = Some x /\ noise !! a = Some e /\ y = Fin (x / e)) \/ y = Fin 0).
  { intros a y Ha. destruct (decide (a < vocab)) as [Hav|Hav].
    - left. destruct (lookup_lt_is_Some_2 w a) as [x Ex]; [lia|]. destruct (lookup_lt_is_Some_2 noise a) as [e Ee]; [lia|]. exists x, e. rewrite (Hzip a x e Ex Ee) in Ha. by injection Ha as <-.
    - right. unfold z in Ha. rewrite lookup_app_r in Ha by (rewrite length_zip_with, length_fmap; lia). by apply lookup_replicate in Ha as [-> _]. }
  destruct (tl_argmax_ok z) as (x & Hx & Hmax).
  - intros E0. pose proof (Hzip j wj ej Hj Hej) as Hz. by rewrite E0 in Hz.
  - intros (a & Ha)%list_elem_of_lookup. destruct (Hall a NaN Ha) as [(? & ? & _ & _ & ?)|?]; done.
  - assert (Hbig : exists y, x = Fin y /\ (0 < y)%Q).
    { pose proof (Hmax _ (list_elem_of_lookup_2 _ _ _ (Hzip j wj ej Hj Hej))) as Hle. assert (Hjp : (0 < wj / ej)%Q) by (by apply Qdiv_pos_iff).
      destruct (Hall _ x Hx) as [(a & e & _ & _ & ->)| ->]; cbn [fle] in Hle; apply Qle_bool_iff in Hle; [eexists; split; [done|lra]|lra]. }
    destruct Hbig as (y & -> & Hy). destruct (Hall _ _ Hx) as [(a & e & Ha & He & [= ->])|[= ->]]; [|lra]. exists (tl_argmax z), a, e. split; [done|]. split; [done|].
    split; [apply (Qdiv_pos_iff a e); [apply Hnp; by eapply list_elem_of_lookup_2|done]|]. split; [done|]. intros j' wj' ej' Hj' Hej'.
    pose proof (Hmax _ (list_elem_of_lookup_2 _ _ _ (Hzip j' wj' ej' Hj' Hej'))) as Hle. cbn [fle] in Hle. by apply Qle_bool_iff in Hle.
Qed.

Lemma prob_finite row' x p : proper row' -> row_softmax row' !! x = Some p -> (0 < p)%Q -> exists q, row' !! x = Some (Fin q).
Proof using TorchRowsLaws0.
  intros Hp Hx Hpos. assert (Hl : x < length row') by (rewrite <-length_softmax; by eapply lookup_lt_Some). pose proof (row_lookup row' x Hl) as Hrow.
  destruct (softmax_pos row' x _ p Hp Hrow Hx) as [_ Hiff]. destruct Hp as [Hall _]. destruct (Hall (row' !!! x)) as [E0|[q E0]]; [by eapply list_elem_of_lookup_2| |exists q; by rewrite Hrow, E0].
  apply Hiff in E0. lra.
Qed.

(** A step of a random request: a recovered token is not the draft, and unless the
    number drawn is zero the token has a logit that passed the filters. *)
Lemma random_step_ok vocab row' d u noise : length row' = vocab -> proper row' -> d < vocab -> (0 <= u < 1)%Q -> length noise = vocab -> Forall (fun x => 0 < x)%Q noise ->
  let s := random_step vocab noise d (Fin <$> row_softmax row') u in
  exists x, s.1 = Z.of_nat x /\ x < vocab /\ (s.2 = true <-> x <> d) /\ ((0 < u)%Q -> exists q, row' !! x = Some (Fin q)).
Proof using TorchRowsLaws0 HK.
  intros Hl Hp Hd Hu Hn Hnp. set (P := row_softmax row'). assert (HPl : length P = vocab) by (unfold P; by rewrite length_softmax). destruct (lookup_lt_is_Some_2 P d) as [pd Ed]; [lia|].
  assert (Edt : (Fin <$> P) !!! d = Fin pd) by (apply list_lookup_total_correct; by rewrite list_lookup_fmap, Ed). unfold random_step. rewrite Edt. destruct (accepts_draft 1 (Fin pd) u) eqn:Ea.
  - apply accepts_iff in Ea. exists d. split; [done|]. split; [done|]. split; [by split|]. intros Hpos. apply (prob_finite row' d pd Hp Ed). lra.
  - assert (Hlt : (pd < u)%Q) by (destruct (Qlt_le_dec pd u) as [|Hle]; [done|]; apply accepts_iff in Hle; congruence).
    assert (Hsum : (qsum (<[d := 0%Q]> P) == 1 - pd)%Q) by (rewrite (qsum_insert P d pd 0%Q Ed); unfold P; rewrite (softmax_sum row' Hp); lra).
    assert (Hins : <[d := Fin 0]> (Fin <$> P) = Fin <$> <[d := 0%Q]> P) by (by rewrite list_fmap_insert).
    destruct (race_winner vocab (<[d := 0%Q]> P) noise) as (x & wx & ex & Ex & Hx & Hwx & _); [by rewrite length_insert|done|apply Forall_insert; [by apply softmax_nonneg|cbn; lra]|done|lra|].
    cbn [fst snd]. unfold recovered. rewrite Hins. assert (Hne : x <> d) by (intros ->; rewrite list_lookup_insert_eq in Hx by lia; injection Hx as <-; lra).
    rewrite list_lookup_insert_ne in Hx by done. destruct (prob_finite row' x wx Hp Hx Hwx) as [q Hq]. exists x. split; [done|]. split; [apply lookup_lt_Some in Hq; lia|]. split; [by split|]. by exists q.
Qed.

(** A step of a greedy request. *)
Lemma greedy_prob_ok row' : proper row' -> exists q, row' !! row_argmax (Fin <$> row_softmax row') = Some (Fin q).
Proof using TorchRowsLaws0.
  intros Hp. set (P := row_softmax row'). pose proof (softmax_sum row' Hp) as Hsum. fold P in Hsum. destruct (qsum_pos_exists P) as (j & pj & Hj & Hpj); [by apply softmax_nonneg|lra|].
  destruct (argmax_ok (Fin <$> P)) as (x & Hx & Hmax); [by intros E0%fmap_nil_inv; rewrite E0 in Hj|by intros (y & Ey & _)%list_elem_of_fmap|].
  rewrite list_lookup_fmap in Hx. destruct (P !! row_argmax (Fin <$> P)) as [px|] eqn:Ex; [|done]. cbn in Hx. injection Hx as <-.
  assert (Hle : fle (Fin pj) (Fin px) = true) by (apply Hmax, list_elem_of_fmap; exists pj; split; [done|by eapply list_elem_of_lookup_2]). cbn in Hle. apply Qle_bool_iff in Hle.
  apply (prob_finite row' _ px Hp Ex). lra.
Qed.

(** ** The tokens of a request *)

Lemma verdict_at steps bonus p t : verdict steps bonus !! p = Some t ->
  (p = length steps /\ t = bonus) \/ exists r, steps !! p = Some (t, r) /\ (r = true <-> S p = length (verdict steps bonus)).
Proof using.
  revert p. induction steps as [|[t0 r0] steps IH]; intros p Hp; cbn in Hp.
  - destruct p; [|done]. injection Hp as <-. by left.
  - destruct p as [|p]; cbn in Hp.
    + injection Hp as ->. right. exists r0. split; [done|]. cbn. destruct r0; [done|]. pose proof (verdict_length steps bonus). split; [done|lia].
    + destruct r0; [done|]. destruct (IH p Hp) as [[-> ->]|(r & Hr & Hiff)]; [by left|right]. exists r. split; [done|]. rewrite Hiff. cbn. lia.
Qed.

(** Every step takes over a token of the vocabulary; a rejected draft is not the
    token. *)
Definition steps_valid (vocab : nat) (drafts : list nat) (steps : list (Z * bool)) : Prop :=
  length steps = length drafts /\ forall p s d, steps !! p = Some s -> drafts !! p = Some d -> exists x, s.1 = Z.of_nat x /\ x < vocab /\ (s.2 = true <-> x <> d).

Lemma parse_row vocab drafts steps bonus w : steps_valid vocab drafts steps -> bonus < vocab ->
  filter (fun t => t <> PLACEHOLDER_TOKEN_ID /\ (t < Z.of_nat vocab)%Z) (row_result w (verdict steps (Z.of_nat bonus))) = verdict steps (Z.of_nat bonus).
Proof using.
  intros [Hl Hs] Hb. unfold row_result. rewrite filter_app. rewrite (list_filter_all _ (verdict _ _)).
  - rewrite (filter_none _ (replicate _ _)); [by rewrite app_nil_r|]. intros t [-> _]%elem_of_replicate [Hne _]. done.
  - intros t (p & Hp)%list_elem_of_lookup. assert (Hv : exists x, t = Z.of_nat x /\ x < vocab); [|destruct Hv as (x & -> & Hx); unfold PLACEHOLDER_TOKEN_ID; lia].
    destruct (verdict_at _ _ _ _ Hp) as [[_ ->]|(r & Hr & _)]; [by exists bonus|]. destruct (lookup_lt_is_Some_2 drafts p) as [d Ed]; [rewrite <-Hl; by eapply lookup_lt_Some|].
    destruct (Hs p (t, r) d Hr Ed) as (x & Ex & Hx & _). by exists x.
Qed.

(** The token may follow by the request's own logits. *)
Definition possible (md : SamplingMetadata) (i : nat) (row : list float) (x : nat) : Prop :=
  if m_all_greedy md then greedy_token row x else exists row' q, filtered md i row row' /\ row' !! x = Some (Fin q).

Lemma steps_ok vocab md i r W us noise : 0 < vocab -> logits_fit vocab r -> judges vocab md i r W -> numbers_fit vocab md i (length (sc_drafts r)) us noise ->
  steps_valid vocab (sc_drafts r) (steps_of vocab md i r W us noise) /\
  (Forall (fun u => 0 < u)%Q us -> forall p s, steps_of vocab md i r W us noise !! p = Some s -> exists x row, s.1 = Z.of_nat x /\ sc_logits r !! p = Some row /\ possible md i row x).
Proof using TorchRowsLaws0 HK.
  intros Hv (_ & Hd & Hll & Hrows) [HWl HW] (Hul & Hup & Hnl & Hnp & _).
  assert (Hlen : length (steps_of vocab md i r W us noise) = length (sc_drafts r)) by (unfold steps_of, greedy_steps, random_steps; destruct (greedy_at md i); rewrite !length_zip_with; lia).
  assert (Hstep : forall p s d, steps_of vocab md i r W us noise !! p = Some s -> sc_drafts r !! p = Some d -> exists x row, s.1 = Z.of_nat x /\ x < vocab /\ (s.2 = true <-> x <> d) /\
    sc_logits r !! p = Some row /\ (Forall (fun u => 0 < u)%Q us -> possible md i row x)).
  { intros p s d Hs Ed. pose proof (lookup_lt_Some _ _ _ Ed) as Hpl. destruct (lookup_lt_is_Some_2 (sc_logits r) p) as [row Erow]; [lia|].
    destruct (Forall_lookup_1 _ _ _ _ Hrows Erow) as [Hrl Hrp]. pose proof (Forall_lookup_1 _ _ _ _ Hd Ed) as Hdv. cbn in Hdv. specialize (HW p row Erow). unfold steps_of in Hs. unfold possible.
    destruct (m_all_greedy md) eqn:Eg.
    - unfold greedy_at, greedy_steps in Hs. rewrite Eg in Hs. cbn [orb] in Hs. rewrite lookup_zip_with, Ed in Hs. cbn in Hs. rewrite HW in Hs. cbn in Hs. injection Hs as <-.
      exists (row_argmax row), row. pose proof (greedy_drawn row Hrp) as Hgt. split; [done|]. split; [destruct Hgt as (q & Hq & _); apply lookup_lt_Some in Hq; lia|]. split; [|by split].
      cbn [snd]. rewrite negb_true_iff, Z.eqb_neq. lia.
    - destruct HW as (row' & Hf & Hl' & Hp' & HWp). destruct (greedy_at md i).
      + unfold greedy_steps in Hs. rewrite lookup_zip_with, Ed in Hs. cbn in Hs. rewrite HWp in Hs. cbn in Hs. injection Hs as <-. destruct (greedy_prob_ok row' Hp') as [q Hq].
        eexists _, row. split; [done|]. split; [apply lookup_lt_Some in Hq; lia|]. split; [|split; [done|intros _; by exists row', q]]. cbn [snd]. rewrite negb_true_iff, Z.eqb_neq. lia.
      + unfold random_steps in Hs. rewrite lookup_zip_with, Ed in Hs. cbn in Hs. rewrite lookup_zip_with, HWp in Hs. cbn in Hs. destruct (us !! p) as [u|] eqn:Eu; [|done]. cbn in Hs. injection Hs as <-.
        pose proof (Forall_lookup_1 _ _ _ _ Hup Eu) as Hu. cbn in Hu. destruct (random_step_ok vocab row' d u noise Hl' Hp' Hdv Hu Hnl Hnp) as (x & Ex & Hx & Hiff & Hpos).
        exists x, row. split; [done|]. split; [done|]. split; [done|]. split; [done|]. intros Hall. pose proof (Forall_lookup_1 _ _ _ _ Hall Eu) as Hu0. destruct (Hpos Hu0) as [q Hq]. by exists row', q. }
  split.
  - split; [done|]. intros p s d Hs Ed. destruct (Hstep p s d Hs Ed) as (x & row & H1 & H2 & H3 & _). by exists x.
  - intros Hall p s Hs. destruct (lookup_lt_is_Some_2 (sc_drafts r) p) as [d Ed]; [rewrite <-Hlen; by eapply lookup_lt_Some|].
    destruct (Hstep p s d Hs Ed) as (x & row & H1 & _ & _ & H4 & H5). exists x, row. split; [done|]. split; [done|]. by apply H5.
Qed.

(** [forward] and [parse_output]. *)
Lemma rejection_tokens_ok vocab md L m : describes m L -> speculation_fits vocab md L ->
  exists rows, rejection_forward m None (mjoin (sc_logits <$> L)) vocab (bonuses L) md = Ok rows /\ length rows = length L /\
    forall i r, L !! i = Some r -> exists W us noise, judges vocab md i r W /\ numbers_fit vocab md i (length (sc_drafts r)) us noise /\
      parse_output (Z.of_nat vocab) rows !! i = Some (verdict (steps_of vocab md i r W us noise) (Z.of_nat (sc_bonus r))).
Proof using TorchLaws0 TorchRowsLaws0 HK.
  intros Hm Hf. destruct (rejection_forward_ok vocab md L m Hm Hf) as (rows & E1 & Hl & Hrows). exists rows. split; [done|]. split; [done|]. intros i r Hi.
  destruct (Hrows i r Hi) as (W & us & noise & HW & Hn & Hrow). exists W, us, noise. split; [done|]. split; [done|]. unfold parse_output. rewrite list_lookup_fmap, Hrow. cbn. f_equal.
  destruct Hf as [Hv _ HL HB _ _]. apply (parse_row vocab (sc_drafts r)); [|exact (Forall_lookup_1 _ _ _ _ HB Hi)].
  by apply (steps_ok vocab md i r W us noise Hv (Forall_lookup_1 _ _ _ _ HL Hi) HW Hn).
Qed.
End Theorems.
