(* ===== verification/SpeculativeDecoding.v ===== *)
(** * Speculative decoding

    A step with drafts, from the logits to the tokens: greedy requests get the
    tokens that decoding without drafts would give them, a random request a token
    with the target's probability, and no token that its filters exclude. *)

From Stdlib Require Import QArith_base QArith Lqa.
From S2P Require Import Prelude Numbers NumPy Request EncoderCache Scheduler BlockTable InputBatch ModelRunner ModelRunnerInputs Sampler SamplerSpec SamplerTheorems RejectionSampler RejectionSpec RejectionTheorems.

(** ** Greedy decoding *)

Section Greedy.
Context `{TR : TorchRows} (next : list Z -> list float).

(** [n] tokens one after the other, each a best one after those before. *)
Fixpoint greedy_decode (ctx : list Z) (n : nat) : list Z :=
  match n with
  | 0 => []
  | S n => let t := Z.of_nat (row_argmax (next ctx)) in t :: greedy_decode (ctx ++ [t]) n
  end.

(** The logits after each of the drafts. *)
Definition logits_along (ctx : list Z) (drafts : list nat) : tensor := (fun p => next (ctx ++ (Z.of_nat <$> take p drafts))) <$> seq 0 (S (length drafts)).

Lemma logits_along_cons ctx d drafts : logits_along ctx (d :: drafts) = next ctx :: logits_along (ctx ++ [Z.of_nat d]) drafts.
Proof.
  unfold logits_along. cbn [length seq fmap list_fmap]. f_equal; [by rewrite app_nil_r|]. f_equal; [by rewrite app_nil_r|]. change (seq 2 (length drafts)) with (seq (S 1) (length drafts)).
  rewrite <-!fmap_S_seq, <-!list_fmap_compose. apply list_fmap_ext. intros i p _. cbn. by rewrite <-app_assoc.
Qed.

Lemma greedy_verdict_cons d drafts row rows b : verdict (greedy_steps (d :: drafts) (row :: rows)) b =
  Z.of_nat (row_argmax row) :: (if (Z.of_nat d =? Z.of_nat (row_argmax row))%Z then verdict (greedy_steps drafts rows) b else []).
Proof. unfold greedy_steps. cbn [zip_with verdict]. by destruct (_ =? _)%Z. Qed.

(** The verdict on the drafts is greedy decoding: it goes on as long as the drafts
    are what greedy decoding gives, and one token further. *)
Definition follows_greedy (ctx : list Z) (drafts : list nat) (toks : list Z) : Prop :=
  toks = greedy_decode ctx (length toks) /\ 1 <= length toks <= S (length drafts) /\ take (length toks - 1) toks = take (length toks - 1) (Z.of_nat <$> drafts) /\
  (length toks = S (length drafts) \/ toks !! (length toks - 1) <> (Z.of_nat <$> drafts) !! (length toks - 1)).

Lemma verdict_greedy drafts : forall ctx,
  follows_greedy ctx drafts (verdict (greedy_steps drafts (take (length drafts) (logits_along ctx drafts))) (Z.of_nat (row_argmax (next (ctx ++ (Z.of_nat <$> drafts)))))).
Proof.
  induction drafts as [|d drafts IH]; intros ctx.
  - unfold follows_greedy. cbn. rewrite app_nil_r. split; [done|]. split; [lia|]. split; [done|by left].
  - rewrite logits_along_cons. change (length (d :: drafts)) with (S (length drafts)). cbn [take]. rewrite greedy_verdict_cons. set (t := Z.of_nat (row_argmax (next ctx))).
    destruct (Z.eqb_spec (Z.of_nat d) t) as [Ed|Hne].
    + specialize (IH (ctx ++ [Z.of_nat d])). assert (Eb : ctx ++ (Z.of_nat <$> d :: drafts) = (ctx ++ [Z.of_nat d]) ++ (Z.of_nat <$> drafts)) by (by rewrite <-app_assoc).
      rewrite Eb. revert IH. generalize (verdict (greedy_steps drafts (take (length drafts) (logits_along (ctx ++ [Z.of_nat d]) drafts))) (Z.of_nat (row_argmax (next ((ctx ++ [Z.of_nat d]) ++ (Z.of_nat <$> drafts)))))).
      intros toks (I1 & I2 & I3 & I4). unfold follows_greedy. change (length (t :: toks)) with (S (length toks)). replace (S (length toks) - 1) with (length toks) by lia. split; [|split; [|split]].
      * cbn [greedy_decode]. fold t. rewrite <-Ed. f_equal. exact I1.
      * cbn [length]. lia.
      * destruct (length toks) as [|n] eqn:En; [lia|]. replace (S n - 1) with n in I3 by lia. cbn [take fmap list_fmap]. f_equal; [done|exact I3].
      * destruct I4 as [->|I4]; [by left|right]. destruct (length toks) as [|n] eqn:En; [lia|]. replace (S n - 1) with n in I4 by lia. exact I4.
    + unfold follows_greedy. cbn. fold t. split; [done|]. split; [lia|]. split; [done|]. right. intros E0. injection E0 as E0. done.
Qed.
End Greedy.

(** ** A step of greedy requests *)

Record Guess := {
  gs_context : list Z;        (* the tokens whose logits come first, up to the last one sampled *)
  gs_tokens : list Z;         (* the scheduled tokens of the step *)
  gs_drafts : list nat;
}.

(** Greedy requests without masks, biases and penalties. *)
Record plain (md : SamplingMetadata) : Prop := {
  pl_greedy : m_all_greedy md = true /\ m_all_random md = false;
  pl_mask : m_allowed_token_ids_mask md = None;
  pl_bad : m_bad_words_token_ids md = ∅;
  pl_bias : Forall (fun b => b = None) (m_logit_bias md);
  pl_min : m_min_tokens md = ∅;
  pl_penalties : m_no_penalties md = true;
}.

Section Step.
Context `{T : Torch} `{!TorchLaws T} `{TR : TorchRows} `{!TorchRowsLaws TR} `{K : Kernels} {HK : KernelsLaws} `{NP : NumPy} `{!NumPyLaws NP}.
Context (vocab : nat) (next : list Z -> list float) (md : SamplingMetadata) (past : list (list Z)).

Lemma no_bias (bias : list (option (gmap Z Q))) t : Forall (fun b => b = None) bias -> apply_logits_bias vocab bias t = Ok t.
Proof using.
  intros H. unfold apply_logits_bias. enough (Hk : forall f : nat -> nat, foldM (fun t '(i, lb) => match lb with
      | Some lb => if bool_decide (lb = ∅) then Ok t else update_row i (fun row => foldM (add_bias vocab) row (map_to_list lb)) t | None => Ok t end) t
      (imap (fun i b => (f i, b)) bias) = Ok t) by exact (Hk (fun i => i)).
  induction H as [|b bias -> H IH]; intros f; cbn [imap foldM]; [done|]. cbn [mbind result_bind]. apply (IH (f ∘ S)).
Qed.

Lemma prepare_plain t : plain md -> prepare_logits vocab md past t = Ok t.
Proof using.
  intros [_ P1 P2 P3 P4 P5]. unfold prepare_logits, apply_allowed_token_ids, apply_penalties. rewrite P1, P2, P4, P5, !bool_decide_true by done. cbn [mbind result_bind].
  by rewrite (no_bias _ t P3).
Qed.

Lemma forward_plain t : plain md -> Forall (fun row => length row = vocab /\ proper row) t -> (forall k, m_max_num_logprobs md = Some k -> (0 <= k <= Z.of_nat vocab)%Z) ->
  exists lp, forward vocab md past t = Ok ((fun t => [t]) <$> greedy_sample t, lp).
Proof using TorchRowsLaws0.
  intros Hp Ht Hk. unfold forward. rewrite prepare_plain by done. cbn [mbind result_bind]. unfold sample. destruct (pl_greedy _ Hp) as [E1 E2]. rewrite E1, E2. cbn [andb negb py_assert mbind result_bind].
  destruct (m_max_num_logprobs md) as [k|] eqn:Ek; [|by exists None]. specialize (Hk k eq_refl).
  destruct (gather_logprobs_ok vocab (length t) (Z.to_nat k) (row_log_softmax <$> t) (greedy_sample t)) as (l & El & _).
  - by rewrite length_fmap.
  - apply Forall_fmap, (Forall_impl _ _ _ Ht). intros row [Hl _]. cbn. by rewrite length_log_softmax.
  - unfold greedy_sample. by rewrite length_fmap.
  - lia.
  - unfold greedy_sample. apply Forall_fmap, (Forall_impl _ _ _ Ht). intros row [Hl Hr]. cbn. destruct (greedy_drawn row Hr) as (q & Hq & _). apply lookup_lt_Some in Hq. lia.
  - rewrite Z2Nat.id in El by lia. rewrite El. cbn [mbind result_bind]. by exists (Some l).
Qed.

(** The rows that the model gives for the scheduled tokens of a request. *)
Definition guess_rows (x : Guess) : tensor := logits_along next (gs_context x) (gs_drafts x).

Definition guess_bonus (x : Guess) : nat := row_argmax (next (gs_context x ++ (Z.of_nat <$> gs_drafts x))).

Definition speculation_of (x : Guess) : Speculation :=
  {| sc_drafts := gs_drafts x; sc_logits := take (length (gs_drafts x)) (guess_rows x); sc_bonus := guess_bonus x |}.

Lemma guess_rows_length x : length (guess_rows x) = S (length (gs_drafts x)).
Proof using. unfold guess_rows, logits_along. by rewrite length_fmap, length_seq. Qed.

Lemma guess_last x : drop (length (gs_drafts x)) (guess_rows x) = [next (gs_context x ++ (Z.of_nat <$> gs_drafts x))].
Proof using.
  unfold guess_rows, logits_along. rewrite seq_S, fmap_app, drop_app_length' by (by rewrite length_fmap, length_seq). cbn. by rewrite take_ge by lia.
Qed.

Definition model_fits : Prop := forall ctx, length (next ctx) = vocab /\ proper (next ctx).

Definition guess_fits (x : Guess) : Prop :=
  length (gs_drafts x) <= MAX_SPEC_LEN /\ Forall (fun d => d < vocab) (gs_drafts x) /\ exists pre, pre <> [] /\ gs_tokens x = pre ++ (Z.of_nat <$> gs_drafts x).

Lemma guess_logits_fit x : model_fits -> guess_fits x -> logits_fit vocab (speculation_of x).
Proof using.
  intros Hm (H1 & H2 & _). split; [exact H1|]. split; [exact H2|]. cbn [speculation_of sc_logits sc_drafts]. split; [rewrite length_take, guess_rows_length; lia|].
  apply Forall_take. unfold guess_rows, logits_along. apply Forall_fmap, Forall_forall. intros p _. apply Hm.
Qed.

Lemma guess_bonus_lt x : model_fits -> guess_bonus x < vocab.
Proof using TorchRowsLaws0.
  intros Hm. destruct (Hm (gs_context x ++ (Z.of_nat <$> gs_drafts x))) as [Hl Hp]. destruct (greedy_drawn _ Hp) as (q & Hq & _). apply lookup_lt_Some in Hq. unfold guess_bonus. lia.
Qed.

(** The step: the metadata, the sampler for the bonus tokens, the rejection sampler
    for the drafts, and what is read from its answer. *)
Lemma greedy_step_ok L : 0 < vocab -> model_fits -> plain md -> (forall k, m_max_num_logprobs md = Some k -> (0 <= k <= Z.of_nat vocab)%Z) ->
  (forall i g, m_generators md !! i = Some g -> i < length L) -> Forall guess_fits L -> (exists x, x ∈ L /\ gs_drafts x <> []) ->
  exists m rows lp, calc_spec_decode_metadata (mjoin (gs_tokens <$> L)) ((fun x => length (gs_drafts x)) <$> L) (cumsum ((fun x => length (gs_tokens x)) <$> L)) = Ok m /\
    sample_tokens vocab md past (Some m) (mjoin (guess_rows <$> L)) = Ok (rows, lp) /\ length rows = length L /\
    forall i x, L !! i = Some x -> exists toks, parse_output (Z.of_nat vocab) rows !! i = Some toks /\ follows_greedy next (gs_context x) (gs_drafts x) toks.
Proof using TorchLaws0 TorchRowsLaws0 HK NumPyLaws0.
  intros Hv Hm Hp Hk Hg HL (x0 & Hx0 & Hd0). pose proof HL as HL'. rewrite Forall_forall in HL'. assert (Hne : L <> []) by (intros ->; by apply elem_of_nil in Hx0).
  destruct (spec_metadata_ok gs_tokens (fun x => length (gs_drafts x)) guess_rows L Hne) as (m & E1 & _ & E2 & E3 & E4 & E5 & E6).
  { intros x Hx. split; [|apply guess_rows_length]. destruct (HL' x Hx) as (_ & _ & pre & Hpre & ->). rewrite length_app, length_fmap. destruct pre; [done|cbn; lia]. }
  set (S0 := speculation_of <$> L). assert (Ec : counts S0 = (fun x => length (gs_drafts x)) <$> L) by (unfold counts, S0; by rewrite <-list_fmap_compose).
  assert (Hdesc : describes m S0).
  { split; [|by rewrite Ec]. rewrite E4. unfold draft_tokens, S0. rewrite <-list_fmap_compose. apply mjoin_pieces_ext. intros x Hx. destruct (HL' x Hx) as (_ & _ & pre & _ & ->). cbn.
    rewrite length_app, length_fmap. by rewrite drop_app_length' by lia. }
  assert (Hfits : speculation_fits vocab md S0).
  { destruct (pl_greedy _ Hp) as [G1 G2]. split; [done| | | | |congruence].
    - rewrite Ec. clear -Hx0 Hd0. induction L as [|y L IH]; [by apply elem_of_nil in Hx0|]. rewrite fmap_cons. change (sum_list (?a :: ?l)) with (a + sum_list l).
      apply elem_of_cons in Hx0 as [->|Hx0]; [destruct (gs_drafts y); [done|cbn; lia]|]. specialize (IH Hx0). lia.
    - apply Forall_fmap, (Forall_impl _ _ _ HL). intros x Hx. by apply guess_logits_fit.
    - apply Forall_fmap, (Forall_impl _ _ _ HL). intros x _. by apply guess_bonus_lt.
    - split; [by rewrite G1, G2|congruence|congruence|]. unfold S0. rewrite length_fmap. exact Hg. }
  destruct (rejection_tokens_ok vocab md S0 m Hdesc Hfits) as (rows & Erows & Hrl & Hrows).
  assert (Elast : mjoin ((fun x => drop (length (gs_drafts x)) (guess_rows x)) <$> L) = (fun x => next (gs_context x ++ (Z.of_nat <$> gs_drafts x))) <$> L).
  { clear. induction L as [|x L IH]; [done|]. rewrite fmap_cons, mjoin_cons, guess_last, IH. done. }
  destruct (forward_plain ((fun x => next (gs_context x ++ (Z.of_nat <$> gs_drafts x))) <$> L) Hp) as (lp & Elp).
  { apply Forall_fmap, Forall_forall. intros x _. apply Hm. }
  { exact Hk. }
  assert (Ebonus : mjoin (fmap (M := list) (fmap (M := list) Z.of_nat) ((fun t => [t]) <$> greedy_sample ((fun x => next (gs_context x ++ (Z.of_nat <$> gs_drafts x))) <$> L))) = bonuses S0).
  { unfold bonuses, S0, greedy_sample. clear. induction L as [|x L IH]; [done|]. rewrite !fmap_cons, mjoin_cons, IH. done. }
  assert (Etarget : mjoin ((fun x => take (length (gs_drafts x)) (guess_rows x)) <$> L) = mjoin (sc_logits <$> S0)) by (unfold S0; by rewrite <-list_fmap_compose).
  exists m, rows, lp. split; [exact E1|]. split; [|split].
  - unfold sample_tokens. rewrite E3. cbn [mbind result_bind]. rewrite Elast, Elp. cbn [mbind result_bind]. rewrite E2. cbn [mbind result_bind]. rewrite Etarget, Ebonus, Erows. done.
  - rewrite Hrl. unfold S0. apply length_fmap.
  - intros i x Hi. destruct (Hrows i (speculation_of x)) as (W & us & noise & [HWl HW] & _ & Hrow); [unfold S0; by rewrite list_lookup_fmap, Hi|].
    eexists. split; [exact Hrow|]. unfold steps_of, greedy_at. destruct (pl_greedy _ Hp) as [G1 _]. rewrite G1 in HW |- *. cbn [orb].
    assert (EW : W = take (length (gs_drafts x)) (guess_rows x)).
    { apply list_eq. intros p. cbn [speculation_of sc_logits sc_drafts] in HW, HWl. destruct (decide (p < length (gs_drafts x))) as [Hpl|Hpl].
      - destruct (lookup_lt_is_Some_2 (take (length (gs_drafts x)) (guess_rows x)) p) as [row Er]; [rewrite length_take, guess_rows_length; lia|]. rewrite Er. by apply HW.
      - rewrite !lookup_ge_None_2; [done|rewrite length_take, guess_rows_length; lia|lia]. }
    rewrite EW. apply verdict_greedy.
Qed.
End Step.

(** ** The law of a random token *)

(** How often an event happens in a list of equally likely outcomes. *)
Definition freq {O : Type} (event : O -> bool) (outcomes : list O) : Q :=
  (inject_Z (Z.of_nat (length (filter (fun o => event o = true) outcomes))) / inject_Z (Z.of_nat (length outcomes)))%Q.

Lemma freq_ext {O} (f g : O -> bool) l : (forall o, o ∈ l -> f o = g o) -> freq f l = freq g l.
Proof.
  intros H. unfold freq. do 3 f_equal. induction l as [|o l IH]; [done|]. assert (IH' : length (filter (fun o => f o = true) l) = length (filter (fun o => g o = true) l)) by (apply IH; intros o' Ho; apply H; by right).
  rewrite !filter_cons, (H o) by (by left). destruct (decide (g o = true)); cbn; by rewrite IH'.
Qed.

Lemma freq_not {O} (f : O -> bool) l : l <> [] -> (freq (fun o => negb (f o)) l == 1 - freq f l)%Q.
Proof.
  intros Hl. assert (Hn : (0 < inject_Z (Z.of_nat (length l)))%Q) by (destruct l; [done|]; unfold Qlt; cbn; lia).
  assert (Hsum : length (filter (fun o => negb (f o) = true) l) + length (filter (fun o => f o = true) l) = length l).
  { clear. induction l as [|o l IH]; [done|]. rewrite !filter_cons. destruct (f o); cbn [negb]; cbn [length]; repeat case_decide; cbn [length]; done || lia. }
  assert (HsumQ : (inject_Z (Z.of_nat (length (filter (fun o => negb (f o) = true) l))) + inject_Z (Z.of_nat (length (filter (fun o => f o = true) l))) == inject_Z (Z.of_nat (length l)))%Q).
  { rewrite <-inject_Z_plus, <-Nat2Z.inj_add, Hsum. done. }
  unfold freq. set (a := inject_Z (Z.of_nat (length (filter (fun o => negb (f o) = true) l)))) in *. set (b := inject_Z (Z.of_nat (length (filter (fun o => f o = true) l)))) in *.
  set (n := inject_Z (Z.of_nat (length l))) in *. rewrite <-HsumQ. rewrite <-HsumQ in Hn. field. lra.
Qed.

(** In the race of weights [w] against exponential numbers [e], [x] wins. *)
Definition wins (w e : list Q) (x : nat) : bool :=
  forallb (fun y => (y =? x) || negb (Qle_bool (w !!! x / e !!! x) (w !!! y / e !!! y))) (seq 0 (length w)).

Section Law.
Context `{TR : TorchRows} `{!TorchRowsLaws TR} `{K : Kernels} {HK : KernelsLaws}.
Context (vocab : nat) (row' : list float) (d : nat).
Hypothesis Hl : length row' = vocab.
Hypothesis Hp : proper row'.
Hypothesis Hd : d < vocab.

Notation P := (row_softmax row').

(** The weights of the tokens other than the draft. *)
Definition others : list Q := <[d := 0%Q]> P.

Lemma draft_prob_at : P !! d = Some (P !!! d).
Proof using Hl Hd TorchRowsLaws0. apply list_lookup_lookup_total_lt. rewrite length_softmax. lia. Qed.

Lemma others_sum : (qsum others == 1 - P !!! d)%Q.
Proof using Hl Hd Hp TorchRowsLaws0. unfold others. rewrite (qsum_insert P d _ 0%Q draft_prob_at), (softmax_sum row' Hp). lra. Qed.

Lemma others_nonneg : Forall (fun x => 0 <= x)%Q others.
Proof using Hp TorchRowsLaws0. apply Forall_insert; [by apply softmax_nonneg|cbn; lra]. Qed.

Lemma others_at x px : x <> d -> P !! x = Some px -> others !!! x = px.
Proof using. intros Hne Hx. apply list_lookup_total_correct. unfold others. by rewrite list_lookup_insert_ne. Qed.

Lemma recovered_others e : recovered vocab (Fin <$> P) e d = recovered_id (Fin <$> others) e vocab.
Proof using. unfold recovered, others. by rewrite list_fmap_insert. Qed.

Lemma winner_recovered e x : length e = vocab -> Forall (fun x => 0 < x)%Q e -> (0 < qsum others)%Q -> x < vocab -> wins others e x = true ->
  recovered vocab (Fin <$> P) e d = Z.of_nat x.
Proof using Hl Hp Hd HK TorchRowsLaws0.
  intros He Hep Hs Hx Hw. assert (Hol : length others = vocab) by (unfold others; by rewrite length_insert, length_softmax).
  destruct (race_winner vocab others e Hol He others_nonneg Hep Hs) as (y & wy & ey & Ey & Hy & _ & Hey & Hmax). rewrite recovered_others, Ey. f_equal.
  destruct (decide (y = x)) as [|Hne]; [done|]. unfold wins in Hw. rewrite forallb_forall in Hw. specialize (Hw y). rewrite orb_true_iff, negb_true_iff, Nat.eqb_eq in Hw.
  destruct Hw as [Hw|Hw]; [apply in_seq; apply lookup_lt_Some in Hy; lia|done|]. apply not_true_iff_false in Hw. rewrite Qle_bool_iff in Hw. exfalso. apply Hw.
  rewrite (list_lookup_total_correct _ _ _ Hy), (list_lookup_total_correct _ _ _ Hey).
  apply (Hmax x); apply list_lookup_lookup_total_lt; lia.
Qed.

Definition accepted (o : Q * list Q) : bool := Qle_bool o.1 (P !!! d).

(** The token that comes out. *)
Definition token_is (x : nat) (o : Q * list Q) : bool := ((random_step vocab o.2 d (Fin <$> P) o.1).1 =? Z.of_nat x)%Z.

Lemma step_accepted o : random_step vocab o.2 d (Fin <$> P) o.1 = if accepted o then (Z.of_nat d, false) else (recovered vocab (Fin <$> P) o.2 d, true).
Proof using Hl Hd TorchRowsLaws0.
  unfold random_step, accepted. assert (E0 : (Fin <$> P) !!! d = Fin (P !!! d)) by (apply list_lookup_total_correct; by rewrite list_lookup_fmap, draft_prob_at).
  rewrite E0. assert (E1 : accepts_draft 1 (Fin (P !!! d)) o.1 = Qle_bool o.1 (P !!! d)) by (apply eq_true_iff_eq; by rewrite accepts_iff, Qle_bool_iff). by rewrite E1.
Qed.

Record numbers_law (outcomes : list (Q * list Q)) : Prop := {
  nl_some : outcomes <> [];
  nl_numbers : forall o, o ∈ outcomes -> (0 <= o.1 < 1)%Q /\ length o.2 = vocab /\ Forall (fun x => 0 < x)%Q o.2;
  (** the first number is uniform, *)
  nl_uniform : (freq accepted outcomes == P !!! d)%Q;
  (** the others decide a race that a token wins in proportion to its weight,
      independently of the first; there are no ties *)
  nl_race : forall x, x < vocab -> x <> d ->
    (freq (fun o => negb (accepted o) && wins others o.2 x) outcomes == freq (fun o => negb (accepted o)) outcomes * (others !!! x / qsum others))%Q;
  nl_winner : forall o, o ∈ outcomes -> accepted o = false -> exists x, x < vocab /\ wins others o.2 x = true;
}.

Lemma token_law outcomes x px : numbers_law outcomes -> P !! x = Some px -> (freq (token_is x) outcomes == px)%Q.
Proof using Hl Hp Hd HK TorchRowsLaws0.
  intros [Hne Hnum Hu Hr Hw] Hx. pose proof (lookup_lt_Some _ _ _ Hx) as Hxl. rewrite length_softmax, Hl in Hxl. pose proof others_sum as Hsum.
  assert (Hpos : forall o, o ∈ outcomes -> accepted o = false -> (0 < qsum others)%Q).
  { intros o Ho Ha. destruct (Hnum o Ho) as (Ho1 & _). unfold accepted in Ha. apply not_true_iff_false in Ha. rewrite Qle_bool_iff in Ha. lra. }
  destruct (decide (x = d)) as [->|Hxd].
  - rewrite (freq_ext (token_is d) accepted).
    + rewrite Hu. by rewrite (list_lookup_total_correct _ _ _ Hx).
    + intros o Ho. unfold token_is. rewrite step_accepted. destruct (accepted o) eqn:Ea; [by rewrite Z.eqb_refl|]. cbn [fst]. apply Z.eqb_neq.
      destruct (Hnum o Ho) as (_ & Ho2 & Ho3). assert (Hol : length others = vocab) by (unfold others; by rewrite length_insert, length_softmax).
      destruct (race_winner vocab others o.2 Hol Ho2 others_nonneg Ho3 (Hpos o Ho Ea)) as (y & wy & ey & Ey & Hy & Hwy & _). rewrite recovered_others, Ey. intros Eyd%Nat2Z.inj. subst y.
      unfold others in Hy. rewrite list_lookup_insert_eq in Hy by (rewrite length_softmax; lia). injection Hy as <-. lra.
  - rewrite (freq_ext (token_is x) (fun o => negb (accepted o) && wins others o.2 x)).
    + rewrite (Hr x Hxl Hxd), (freq_not accepted outcomes Hne), Hu, (others_at x px Hxd Hx), Hsum. destruct (Qlt_le_dec 0 (1 - P !!! d)) as [Hlt|Hle]; [field; lra|].
      assert (Hpx : (0 <= px <= 1 - P !!! d)%Q).
      { rewrite <-Hsum. rewrite <-(others_at x px Hxd Hx). pose proof others_nonneg as Hnn. assert (Hox : others !! x = Some (others !!! x)) by (apply list_lookup_lookup_total_lt; unfold others; rewrite length_insert, length_softmax; lia).
        split; [exact (Forall_lookup_1 _ _ _ _ Hnn Hox)|]. revert Hox. generalize (others !!! x). clear -Hnn. revert x. induction Hnn as [|y l Hy Hnn IH]; intros [|x] z Hz; try done; cbn in Hz |- *.
        - injection Hz as ->. pose proof (qsum_nonneg l Hnn). lra.
        - specialize (IH x z Hz). cbn in Hy. lra. }
      assert (E0 : (1 - P !!! d == 0)%Q) by lra. rewrite E0. assert (E1 : (px == 0)%Q) by lra. rewrite E1. reflexivity.
    + intros o Ho. unfold token_is. rewrite step_accepted. destruct (accepted o) eqn:Ea; cbn [fst negb andb]; [apply Z.eqb_neq; lia|]. destruct (Hnum o Ho) as (_ & Ho2 & Ho3).
      destruct (Hw o Ho Ea) as (y & Hyl & Hy). pose proof (winner_recovered o.2 y Ho2 Ho3 (Hpos o Ho Ea) Hyl Hy) as Ey. rewrite Ey. destruct (decide (y = x)) as [->|Hyx]; [by rewrite Hy, Z.eqb_refl|].
      rewrite (proj2 (Z.eqb_neq _ _)) by lia. symmetry. apply not_true_iff_false. intros Hwx. pose proof (winner_recovered o.2 x Ho2 Ho3 (Hpos o Ho Ea) Hxl Hwx). lia.
Qed.
End Law.

(** ** Theorems *)

Section Theorems.
Context `{T : Torch} `{!TorchLaws T} `{TR : TorchRows} `{!TorchRowsLaws TR} `{K : Kernels} {HK : KernelsLaws} `{NP : NumPy} `{!NumPyLaws NP}.

(** C8: The rejection sampler.  Whatever order the programs of its kernels run in,
    [forward] returns, and [parse_output] reads for every request the verdict on its
    own drafts: up to the first rejection the tokens of its steps, and the bonus
    token if nothing is rejected.  A greedy step takes the best token of the row and
    rejects another draft; a random step compares the draft's probability, after the
    request's own temperature and filters, with the request's number, and a rejected
    draft is replaced by the winner among the other tokens. *)
Theorem rejection_sampler_correct vocab md L m : describes m L -> speculation_fits vocab md L ->
  exists rows, rejection_forward m None (mjoin (sc_logits <$> L)) vocab (bonuses L) md = Ok rows /\ length rows = length L /\
    forall i r, L !! i = Some r -> exists W us noise, judges vocab md i r W /\ numbers_fit vocab md i (length (sc_drafts r)) us noise /\
      parse_output (Z.of_nat vocab) rows !! i = Some (verdict (steps_of vocab md i r W us noise) (Z.of_nat (sc_bonus r))).
Proof. apply rejection_tokens_ok. Qed.

(** C9: Speculative decoding is safe.  When no uniform number is zero, every token
    that a step with drafts returns, up to the bonus token, is one that the logits at
    its place allow: a best one if the batch is greedy, else one that passes the
    request's [top_k] and [top_p] at its temperature. *)
Theorem speculative_tokens_pass_filters vocab md L m : describes m L -> speculation_fits vocab md L ->
  (forall n, Forall (fun u => 0 < u)%Q (rand n)) -> (forall g n, Forall (fun u => 0 < u)%Q (uniform_ g n)) ->
  exists rows, rejection_forward m None (mjoin (sc_logits <$> L)) vocab (bonuses L) md = Ok rows /\
    forall i r, L !! i = Some r -> exists toks, parse_output (Z.of_nat vocab) rows !! i = Some toks /\ 1 <= length toks <= S (length (sc_drafts r)) /\
      take (length toks - 1) toks = take (length toks - 1) (Z.of_nat <$> sc_drafts r) /\
      forall p t, toks !! p = Some t -> p < length (sc_drafts r) -> exists x row, t = Z.of_nat x /\ sc_logits r !! p = Some row /\ possible md i row x.
Proof.
  intros Hm Hf P1 P2. destruct (rejection_tokens_ok vocab md L m Hm Hf) as (rows & E1 & _ & Hrows). exists rows. split; [done|]. intros i r Hi.
  destruct (Hrows i r Hi) as (W & us & noise & HW & Hn & Hrow). eexists. split; [exact Hrow|]. destruct Hf as [Hv _ HL _ _ _].
  destruct (steps_ok vocab md i r W us noise Hv (Forall_lookup_1 _ _ _ _ HL Hi) HW Hn) as [[Hsl Hsv] Hposs]. set (steps := steps_of _ _ _ _ _ _ _) in *.
  pose proof (verdict_length steps (Z.of_nat (sc_bonus r))) as Hvl. split; [lia|]. split.
  - apply list_eq. intros p. destruct (decide (p < length (verdict steps (Z.of_nat (sc_bonus r))) - 1)) as [Hp|Hp]; [|by rewrite !lookup_take_ge by lia]. rewrite !lookup_take_lt by done.
    destruct (lookup_lt_is_Some_2 (verdict steps (Z.of_nat (sc_bonus r))) p) as [t Et]; [lia|]. rewrite Et. destruct (verdict_at _ _ _ _ Et) as [[-> _]|(rej & Es & Hiff)]; [lia|].
    destruct (lookup_lt_is_Some_2 (sc_drafts r) p) as [d Ed]; [rewrite <-Hsl; by eapply lookup_lt_Some|]. rewrite list_lookup_fmap, Ed. cbn. destruct (Hsv p (t, rej) d Es Ed) as (x & Ex & _ & Hx). cbn in Ex, Hx.
    destruct (decide (x = d)) as [->|Hne]; [by f_equal|]. apply Hx, Hiff in Hne. lia.
  - intros p t Ht Hp. destruct (verdict_at _ _ _ _ Ht) as [[-> _]|(rej & Es & _)]; [lia|]. destruct Hn as (_ & _ & _ & _ & Hall & _). exact (Hposs (Hall _ P1 P2) p (t, rej) Es).
Qed.

(** C4: Greedy speculative decoding is greedy decoding, for plain metadata: all
    requests are greedy, without allowed-token masks, bad words, logit bias,
    [min_tokens] and penalties, and for a model whose logits are finite or -inf and
    never all -inf.  In a step with drafts, at most [MAX_SPEC_LEN] for a
    request and all of them tokens of the vocabulary, the metadata, the sampler for
    the bonus tokens, the rejection sampler and [parse_output] together give every
    request the next tokens that decoding one token at a time would give it: the
    drafts that are these tokens, and one token more.  The rejection sampler does not
    look at masks and the like: see [drafts_escape_masks]. *)
Theorem greedy_speculation_is_greedy_decoding vocab next md past L : 0 < vocab -> model_fits vocab next -> plain md ->
  (forall k, m_max_num_logprobs md = Some k -> (0 <= k <= Z.of_nat vocab)%Z) -> (forall i g, m_generators md !! i = Some g -> i < length L) ->
  Forall (guess_fits vocab) L -> (exists x, x ∈ L /\ gs_drafts x <> []) ->
  exists m rows lp, calc_spec_decode_metadata (mjoin (gs_tokens <$> L)) ((fun x => length (gs_drafts x)) <$> L) (cumsum ((fun x => length (gs_tokens x)) <$> L)) = Ok m /\
    sample_tokens vocab md past (Some m) (mjoin (guess_rows next <$> L)) = Ok (rows, lp) /\ length rows = length L /\
    forall i x, L !! i = Some x -> exists toks, parse_output (Z.of_nat vocab) rows !! i = Some toks /\ follows_greedy next (gs_context x) (gs_drafts x) toks.
Proof. apply greedy_step_ok. Qed.

(** C5: Speculative decoding does not change the distribution.  If the uniform number
    and the race are as documented, the token of a random step has every value
    exactly as often as the target's probability of it, whatever the draft is. *)
Theorem speculative_token_law vocab row' d outcomes : length row' = vocab -> proper row' -> d < vocab -> numbers_law vocab row' d outcomes ->
  forall x px, row_softmax row' !! x = Some px -> (freq (token_is vocab row' d x) outcomes == px)%Q.
Proof. intros Hl Hp Hd Hn x px. by apply token_law. Qed.

(** A number that is zero accepts a draft that the filters exclude. *)
Lemma zero_number_accepts_excluded_token vocab noise d row : row !!! d = Fin 0 -> random_step vocab noise d row 0 = (Z.of_nat d, false).
Proof. intros Hd. unfold random_step. rewrite Hd. by rewrite (proj2 (accepts_iff 0 0)) by lra. Qed.
End Theorems.
