(* ===== verification/SpeculativeRuns.v ===== *)
(** * Runs of speculative decoding

    Kernels that satisfy what [RejectionSpec.v] says of torch and Triton, and runs
    with them. *)

From Stdlib Require Import QArith_base QArith Lqa.
From S2P Require Import Prelude Numbers NumPy Request EncoderCache Scheduler BlockTable InputBatch ModelRunner ModelRunnerInputs ModelRunnerTheorems Sampler SamplerSpec SamplerTheorems SamplerModel SamplerRequests.
From S2P Require Import RejectionSampler RejectionSpec RejectionTheorems SpeculativeDecoding.

(** The programs of a grid run from the last to the first. *)
#[export] Instance model_kernels : Kernels := {|
  next_power_of_2 := fun n => 2 ^ Nat.log2_up n; tl_argmax := model_argmax; rand := fun n => replicate n (1 # 2)%Q; uniform_ := fun _ n => replicate n (3 # 4)%Q;
  recovery_exponential := fun n v => replicate n (replicate v 1%Q); recovery_exponential_ := fun _ v => replicate v 1%Q;
  grid := fun n => reverse (seq 0 n); grid2 := fun n m => reverse (seq 0 n ≫= (fun i => pair i <$> seq 0 m)) |}.

#[export] Instance model_kernels_laws : KernelsLaws.
Proof.
  assert (Hones : forall v, length (replicate v 1%Q) = v /\ Forall (fun x => 0 < x)%Q (replicate v 1%Q)) by (intros v; split; [apply length_replicate|by apply Forall_replicate]).
  split; cbn.
  - intros n. apply reverse_Permutation.
  - intros n m. apply reverse_Permutation.
  - intros n. split; [apply length_replicate|]. by apply Forall_replicate.
  - intros _ n. split; [apply length_replicate|]. by apply Forall_replicate.
  - intros n v. split; [apply length_replicate|]. by apply Forall_replicate.
  - intros _ v. apply Hones.
  - exact (@argmax_ok model_rows model_rows_laws).
Qed.

#[export] Instance Speculation_inhabited : Inhabited Speculation := populate {| sc_drafts := []; sc_logits := []; sc_bonus := 0 |}.
#[export] Instance Guess_inhabited : Inhabited Guess := populate {| gs_context := []; gs_tokens := []; gs_drafts := [] |}.

Module SpeculationDemo.
#[local] Existing Instances demo_torch demo_torch_laws demo_numpy demo_numpy_laws.

(** A greedy request and a random one that keeps its best two tokens, of four. *)
Definition batch_md : SamplingMetadata :=
  {| m_temperature := Some [(-1 # 1)%Q; 1%Q]; m_all_greedy := false; m_all_random := false; m_top_p := None; m_top_k := Some [4; 2]%Z; m_min_p := None; m_generators := {[1 := 7]};
     m_max_num_logprobs := None; m_prompt_token_ids := None; m_frequency_penalties := []; m_presence_penalties := []; m_repetition_penalties := []; m_output_token_ids := [];
     m_min_tokens := ∅; m_no_penalties := true; m_logit_bias := [None; None]; m_allowed_token_ids_mask := None; m_bad_words_token_ids := ∅ |}.

Definition guesses : list Speculation :=
  [{| sc_drafts := [2; 1]; sc_logits := [[Fin 0; Fin 1; Fin 9; Fin 0]; [Fin 7; Fin 1; Fin 2; Fin 0]]; sc_bonus := 3 |};
   {| sc_drafts := [0; 1; 2]; sc_logits := [[Fin 8; Fin 1; Fin 0; Fin 0]; [Fin 1; Fin 2; Fin 4; Fin 1]; [Fin 9; Fin 9; Fin 9; Fin 0]]; sc_bonus := 1 |}].

Definition guesses_md : SpecDecodeMetadata :=
  {| draft_token_ids := [2; 1; 0; 1; 2]%Z; sd_num_draft_tokens := [2; 3]; cu_num_draft_tokens := [2; 5]; target_logits_indices := [0; 1; 3; 4; 5]%Z;
     bonus_logits_indices := [2; 6]%Z; sd_logits_indices := [0; 1; 2; 3; 4; 5; 6]%Z |}.

Definition answer : result (list (list Z)) := rejection_forward guesses_md None (mjoin (sc_logits <$> guesses)) 4 (bonuses guesses) batch_md.

Lemma finite_proper row : row <> [] -> forallb (fun x => match x with Fin _ => true | _ => false end) row = true -> proper row.
Proof.
  intros Hne Hall. rewrite forallb_forall in Hall. split.
  - intros x Hx. right. specialize (Hall x). destruct x; try (apply list_elem_of_In, Hall in Hx; done). by eexists.
  - destruct row as [|x row]; [done|]. specialize (Hall x ltac:(by left)). destruct x as [|q| |]; try done. by exists 0, q.
Qed.

Lemma guesses_described : describes guesses_md guesses.
Proof. by vm_compute. Qed.

Lemma guesses_fit : speculation_fits 4 batch_md guesses.
Proof.
  assert (Hrow : forall row, length row = 4 -> forallb (fun x => match x with Fin _ => true | _ => false end) row = true -> length row = 4 /\ proper row).
  { intros row Hl Hr. split; [done|]. apply finite_proper; [by intros ->|done]. }
  split.
  - lia.
  - vm_compute. lia.
  - repeat (apply Forall_cons; split; [|try apply Forall_nil_2]); (split; [vm_compute; lia|split; [repeat constructor; lia|split; [done|]]]); repeat (apply Forall_cons; split; [by apply Hrow|]); apply Forall_nil_2.
  - repeat constructor; cbn; lia.
  - split; [done| |done|].
    + intros _. exists [(-1 # 1)%Q; 1%Q]. split; [done|]. split; [done|]. apply Forall_cons; split; [by left|]. apply Forall_cons; split; [right; lra|apply Forall_nil_2].
    + intros i g Hg. change (({[1 := 7]} : gmap nat nat) !! i = Some g) in Hg. apply lookup_singleton_Some in Hg as [<- _]. cbn. lia.
  - intros _. exists (Some [4; 2]). split; [done|]. split; intros l [= <-]. split; [done|]. repeat constructor; lia.
Qed.

(** Four tokens in a circle: after [t] comes [t + 1]. *)
Definition next_in_circle (ctx : list Z) : list float :=
  (fun j => if (Z.of_nat j =? (default 0 (last ctx) + 1) mod 4)%Z then Fin 5 else Fin 0) <$> seq 0 4.

Definition greedy_md : SamplingMetadata :=
  {| m_temperature := None; m_all_greedy := true; m_all_random := false; m_top_p := None; m_top_k := None; m_min_p := None; m_generators := ∅;
     m_max_num_logprobs := Some 1%Z; m_prompt_token_ids := None; m_frequency_penalties := []; m_presence_penalties := []; m_repetition_penalties := []; m_output_token_ids := [];
     m_min_tokens := ∅; m_no_penalties := true; m_logit_bias := [None; None]; m_allowed_token_ids_mask := None; m_bad_words_token_ids := ∅ |}.

(** The drafts of the first request are right at first, those of the second to the
    end. *)
Definition circle_guesses : list Guess :=
  [{| gs_context := [5; 1]%Z; gs_tokens := [1; 2; 3; 3]%Z; gs_drafts := [2; 3; 3] |}; {| gs_context := [3]%Z; gs_tokens := [3; 0]%Z; gs_drafts := [0] |}].

Lemma circle_model : model_fits 4 next_in_circle.
Proof.
  intros ctx. split; [done|]. apply finite_proper; [done|]. unfold next_in_circle. cbn. by repeat case_match.
Qed.

Lemma greedy_plain : plain greedy_md.
Proof. split; try done. by repeat constructor. Qed.

Lemma circle_fits : Forall (guess_fits 4) circle_guesses.
Proof.
  repeat (apply Forall_cons; split; [|try apply Forall_nil_2]); (split; [vm_compute; lia|split; [repeat constructor; lia|]]); [by exists [1%Z]|by exists [3%Z]].
Qed.

(** Half of the uniform numbers accept the draft; of the others each token wins one
    race. *)
Definition law_row : list float := [Fin 1; Fin 0; Fin 0].

Definition law_outcomes : list (Q * list Q) :=
  [((1 # 4)%Q, [1; 1; 2]%Q); ((3 # 4)%Q, [1; 1; 2]%Q); ((1 # 4)%Q, [1; 2; 1]%Q); ((3 # 4)%Q, [1; 2; 1]%Q)].

Lemma law_numbers : numbers_law 3 law_row 0 law_outcomes.
Proof.
  split.
  - done.
  - intros o Ho. repeat (apply elem_of_cons in Ho as [->|Ho]; [split; [cbn; lra|split; [done|repeat constructor; cbn; lra]]|]). by apply elem_of_nil in Ho.
  - by vm_compute.
  - intros [|[|[|x]]] Hx Hne; try (by vm_compute); lia.
  - intros o Ho. repeat (apply elem_of_cons in Ho as [->|Ho]; [|]); try by apply elem_of_nil in Ho.
    all: intros Ha; try (by vm_compute in Ha).
    + exists 1. split; [lia|by vm_compute].
    + exists 2. split; [lia|by vm_compute].
Qed.
End SpeculationDemo.
Import SpeculationDemo.
#[local] Existing Instances demo_torch demo_torch_laws demo_numpy demo_numpy_laws.

Lemma rejection_sampler_correct_witness : exists rows, answer = Ok rows /\ parse_output 4 rows = [[2; 0]; [0; 2]]%Z /\
  exists W us noise, judges 4 batch_md 1 (guesses !!! 1) W /\ us = [3 # 4; 3 # 4; 3 # 4]%Q /\ verdict (steps_of 4 batch_md 1 (guesses !!! 1) W us noise) 1 = [0; 2]%Z.
Proof.
  destruct (rejection_sampler_correct 4 batch_md guesses guesses_md guesses_described guesses_fit) as (rows & E1 & _ & Hrows). exists rows. split; [exact E1|].
  assert (E2 : answer = Ok [[2; 0; -1; -1]; [0; 2; -1; -1]]%Z) by (vm_compute; reflexivity). assert (E3 : rows = [[2; 0; -1; -1]; [0; 2; -1; -1]]%Z) by (unfold answer in E2; rewrite E1 in E2; by apply Ok_eq in E2).
  subst rows. split; [reflexivity|]. destruct (Hrows 1 _ eq_refl) as (W & us & noise & HW & (_ & _ & _ & _ & _ & Hown) & Hrow). exists W, us, noise. split; [exact HW|].
  split; [by apply (Hown 7)|]. change (Some [0; 2]%Z = Some (verdict (steps_of 4 batch_md 1 (guesses !!! 1) W us noise) 1)) in Hrow. generalize dependent (verdict (steps_of 4 batch_md 1 (guesses !!! 1) W us noise) 1). intros v Hv. by injection Hv.
Defined.

Lemma speculative_tokens_pass_filters_witness : exists rows, answer = Ok rows /\ exists x row, 0%Z = Z.of_nat x /\ sc_logits (guesses !!! 0) !! 1 = Some row /\ possible batch_md 0 row x.
Proof.
  destruct (speculative_tokens_pass_filters 4 batch_md guesses guesses_md guesses_described guesses_fit) as (rows & E1 & Hrows).
  - intros n. cbn. by apply Forall_replicate.
  - intros g n. cbn. by apply Forall_replicate.
  - exists rows. split; [exact E1|]. assert (E2 : answer = Ok [[2; 0; -1; -1]; [0; 2; -1; -1]]%Z) by (vm_compute; reflexivity).
    assert (E3 : rows = [[2; 0; -1; -1]; [0; 2; -1; -1]]%Z) by (unfold answer in E2; rewrite E1 in E2; by apply Ok_eq in E2). subst rows.
    destruct (Hrows 0 _ eq_refl) as (toks & Et & _ & _ & Hposs). change (Some [2; 0]%Z = Some toks) in Et. injection Et as <-. apply (Hposs 1 0%Z); [done|cbn; lia].
Defined.

Lemma greedy_speculation_is_greedy_decoding_witness : exists m rows lp,
  sample_tokens 4 greedy_md [[]; []] (Some m) (mjoin (guess_rows next_in_circle <$> circle_guesses)) = Ok (rows, lp) /\ parse_output 4 rows = [[2; 3; 0]; [0; 1]]%Z /\
  follows_greedy next_in_circle [5; 1]%Z [2; 3; 3] [2; 3; 0]%Z.
Proof.
  destruct (greedy_speculation_is_greedy_decoding 4 next_in_circle greedy_md [[]; []] circle_guesses) as (m & rows & lp & Em & Es & _ & Hrows).
  - lia.
  - exact circle_model.
  - exact greedy_plain.
  - intros k [= <-]. lia.
  - intros i g Hg. change ((∅ : gmap nat nat) !! i = Some g) in Hg. by rewrite lookup_empty in Hg.
  - exact circle_fits.
  - exists (circle_guesses !!! 0). split; [by left|done].
  - exists m, rows, lp. split; [exact Es|].
    assert (Ev : match calc_spec_decode_metadata (mjoin (gs_tokens <$> circle_guesses)) ((fun x => length (gs_drafts x)) <$> circle_guesses) (cumsum ((fun x => length (gs_tokens x)) <$> circle_guesses)) with
      | Ok m => match sample_tokens 4 greedy_md [[]; []] (Some m) (mjoin (guess_rows next_in_circle <$> circle_guesses)) with Ok (rows, _) => rows | Err _ => [] end
      | Err _ => [] end = [[2; 3; 0; -1]; [0; 1; -1; -1]]%Z) by (vm_compute; reflexivity).
    rewrite Em, Es in Ev. subst rows. split; [reflexivity|]. destruct (Hrows 0 _ eq_refl) as (toks & Et & Hg). change (Some [2; 3; 0]%Z = Some toks) in Et. injection Et as <-. exact Hg.
Defined.

Lemma speculative_token_law_witness : (freq (token_is 3 law_row 0 2) law_outcomes == 1 # 4)%Q /\ length (filter (fun o => token_is 3 law_row 0 2 o = true) law_outcomes) = 1.
Proof.
  split; [|by vm_compute]. apply (speculative_token_law 3 law_row 0 law_outcomes); [done| |lia|exact law_numbers|].
  - by apply finite_proper.
  - reflexivity.
Defined.

(** ** What the rejection sampler does not see *)

(** The allowed tokens, the bad words, the biases and the minimal length of a request
    do not reach the judgement of its drafts. *)
Definition with_masks (mask : option (list (list bool))) (words : gmap nat (list (list Z))) (bias : list (option (gmap Z Q))) (least : gmap nat (Z * gset Z)) (md : SamplingMetadata) : SamplingMetadata :=
  {| m_temperature := m_temperature md; m_all_greedy := m_all_greedy md; m_all_random := m_all_random md; m_top_p := m_top_p md; m_top_k := m_top_k md; m_min_p := m_min_p md; m_generators := m_generators md;
     m_max_num_logprobs := m_max_num_logprobs md; m_prompt_token_ids := m_prompt_token_ids md; m_frequency_penalties := m_frequency_penalties md; m_presence_penalties := m_presence_penalties md;
     m_repetition_penalties := m_repetition_penalties md; m_output_token_ids := m_output_token_ids md; m_min_tokens := least; m_no_penalties := m_no_penalties md; m_logit_bias := bias;
     m_allowed_token_ids_mask := mask; m_bad_words_token_ids := words |}.

Lemma drafts_escape_masks :
  (forall m draft_probs logits vocab bonus md mask words bias least, rejection_forward m draft_probs logits vocab bonus (with_masks mask words bias least md) = rejection_forward m draft_probs logits vocab bonus md) /\
  exists md, rejection_forward guesses_md None (mjoin (sc_logits <$> guesses)) 4 (bonuses guesses) md = Ok [[2; 0; -1; -1]; [0; 2; -1; -1]]%Z /\ forbidden md [[]; []] 0 2 = true.
Proof.
  split; [done|]. exists (with_masks (Some [[false; false; true; false]; [false; false; false; false]]) ∅ [None; None] ∅ batch_md). split; [vm_compute; reflexivity|by vm_compute].
Qed.
