(* ===== verification/TorchFunctional.v ===== *)
(** * Masked statistics and group statistics

    The functions of [verl/utils/torch_functional.py] and
    [verl/utils/groupwise.py] that the advantage estimators and the losses of verl
    share.  A tensor is a list of rows of exact rationals; a mask has the numbers 0
    and 1 in its places. *)

From Stdlib Require Import QArith_base QArith Qminmax.
From S2P Require Import Prelude PyDict Numbers NumPy.

Notation matrix := (list (list Q)).

(** What is called of torch and numpy: elementary functions, the numbers that
    [np.unique] gives to labels, and the reading of labels as integers. *)
Class TorchMath := {
  sqrt_ : Q -> Q;
  rsqrt : Q -> Q;
  exp_ : Q -> Q;
  log_ : Q -> Q;
  sigmoid : Q -> Q;
  unique_inverse : list string -> list nat;
  astype_int64 : list string -> option (list Z);
}.

Definition Q_of_nat (n : nat) : Q := inject_Z (Z.of_nat n).
Definition Qgt_bool (x y : Q) : bool := negb (Qle_bool x y).
Definition Q_of_bool (b : bool) : Q := if b then 1%Q else 0%Q.

(** [x.float()] of a condition on two tensors, and [zip_with] on matrices. *)
Definition mzip {A B C} (f : A -> B -> C) : list (list A) -> list (list B) -> list (list C) := zip_with (zip_with f).

(** [torch.clamp], [torch.max] and [torch.min] *)
Definition clamp (lo hi x : Q) : Q := Qmin (Qmax x lo) hi.
Definition clip_by_value (x lo hi : Q) : Q := Qmax (Qmin x hi) lo.

(** [tensor.sum(dim=-1)] and [unsqueeze(-1) * mask] *)
Definition sum_rows (t : matrix) : list Q := qsum <$> t.
Definition broadcast (scores : list Q) (mask : matrix) : matrix := zip_with (fun s row => (fun m => s * m)%Q <$> row) scores mask.

Section TorchFunctional.
Context `{TM : TorchMath}.

(** ** Masked statistics *)

(** [masked_sum]: a value outside the mask is replaced before it is multiplied. *)
Definition masked_row_sum (values mask : list Q) : Q := qsum (zip_with (fun v m => (if Qeq_bool m 0 then 0 else v) * m)%Q values mask).
Definition masked_sum (values mask : matrix) : Q := qsum (zip_with masked_row_sum values mask).

Definition tiny : Q := 1 # 100000000.

Definition masked_mean (values mask : matrix) : Q := (masked_sum values mask / (qsum (sum_rows mask) + tiny))%Q.

(** [masked_mean] with [axis=-1] *)
Definition masked_row_mean (values mask : list Q) : Q := (masked_row_sum values mask / (qsum mask + tiny))%Q.

Definition masked_var (values mask : matrix) : result Q :=
  let mean := masked_mean values mask in
  let centered := fmap (M := list) (fmap (M := list) (fun v => v - mean)%Q) values in
  let variance := masked_mean (fmap (M := list) (fmap (M := list) (fun v => v * v)%Q) centered) mask in
  let mask_sum := qsum (sum_rows mask) in
  if Qeq_bool mask_sum 0 then Err ValueError
  else if Qeq_bool mask_sum 1 then Err ValueError
  else Ok (variance * (mask_sum / (mask_sum - 1)))%Q.

Definition masked_whiten (values mask : matrix) : result matrix :=
  let mean := masked_mean values mask in
  var ← masked_var values mask;
  Ok (fmap (M := list) (fmap (M := list) (fun v => (v - mean) * rsqrt (var + tiny))%Q) values).

(** [get_response_mask]: the tokens up to the first end of sentence. *)
Fixpoint response_mask_row (eos_token : list Z) (seen : nat) (row : list Z) : list Z :=
  match row with
  | [] => []
  | t :: row =>
      let eos := if bool_decide (t ∈ eos_token) then 1 else 0 in
      let seen' := seen + eos in
      (if seen' - eos =? 0 then 1%Z else 0%Z) :: response_mask_row eos_token seen' row
  end.

Definition get_response_mask (response_id : list (list Z)) (eos_token : list Z) : list (list Z) := response_mask_row eos_token 0 <$> response_id.

(** ** Statistics of groups *)

Definition mean (l : list Q) : Q := (qsum l / Q_of_nat (length l))%Q.

(** [torch.std], with Bessel's correction *)
Definition std (l : list Q) : Q := sqrt_ (qsum ((fun x => (x - mean l) * (x - mean l))%Q <$> l) / (Q_of_nat (length l) - 1)).

(** [as_torch_index] of an array of strings: integers if they can be read as such,
    else their numbers among the sorted labels. *)
Definition as_torch_index (index : list string) : list Z :=
  match astype_int64 index with
  | Some l => l
  | None => Z.of_nat <$> unique_inverse index
  end.

(** [index_add_] on zeros *)
Definition index_add (n : nat) (gidx : list Z) (src : list Q) : result (list Q) :=
  foldM (fun acc '(g, x) => if (g <? 0)%Z then Err IndexError else a ← np_get acc (Z.to_nat g); Ok (<[Z.to_nat g := a + x]> acc)%Q)
    (replicate n 0%Q) (zip gidx src).

(** [tensor[gidx]] *)
Definition gather_groups {A} (t : list A) (gidx : list Z) : result (list A) := mapM_ok (py_index t) gidx.

Definition clamp_min (x lo : Q) : Q := Qmax x lo.

Definition group_mean_std (scores : list Q) (gidx : list Z) (eps : Q) : result (list Q * list Q * list Q) :=
  if negb (length scores =? length gidx) then Err ValueError
  else
    let G := match gidx with [] => 0%Z | g :: gs => (foldr Z.max g gs + 1)%Z end in
    if (G =? 0)%Z then Ok ([], [], [])
    else if (G <? 0)%Z then Err RuntimeError
    else
      count ← index_add (Z.to_nat G) gidx (replicate (length scores) 1%Q);
      s1 ← index_add (Z.to_nat G) gidx scores;
      let mean := zip_with (fun s c => s / clamp_min c 1)%Q s1 count in
      means ← gather_groups mean gidx;
      let centered := zip_with Qminus scores means in
      var_num ← index_add (Z.to_nat G) gidx (fmap (M := list) (fun x => x * x)%Q centered);
      let var := zip_with (fun v c => v / clamp_min (c - 1) 1)%Q var_num count in
      let std := (fun v => sqrt_ (clamp_min v eps)) <$> var in
      let single := (fun c => Qle_bool c 1) <$> count in
      Ok (zip_with (fun (s : bool) m => if s then 0%Q else m) single mean, zip_with (fun (s : bool) d => if s then 1%Q else d) single std, count).
End TorchFunctional.
