(* ===== verification/Advantages.v ===== *)
(** * Advantage estimators

    The estimators of [verl/trainer/ppo/core_algos.py]: from the rewards of the
    tokens of a batch to the advantages that weight the policy gradient.  Where the
    code works on a column of the batch at a time the model works on a row. *)

From Stdlib Require Import QArith_base QArith Qminmax.
From S2P Require Import Prelude PyDict Numbers NumPy TorchFunctional.

Section Advantages.
Context `{TM : TorchMath}.

(** ** Generalized advantage estimation *)

(** One iteration of the loop, from the last token to the first. *)
Definition gae_step (gamma lam : Q) (x : Q * Q * Q) (acc : Q * Q * list Q) : Q * Q * list Q :=
  let '(reward, value, mask) := x in
  let '(nextvalues, lastgaelam, advantages) := acc in
  let delta := (reward + gamma * nextvalues - value)%Q in
  let lastgaelam_ := (delta + gamma * lam * lastgaelam)%Q in
  let nextvalues := (value * mask + (1 - mask) * nextvalues)%Q in
  let lastgaelam := (lastgaelam_ * mask + (1 - mask) * lastgaelam)%Q in
  (nextvalues, lastgaelam, lastgaelam :: advantages).

Definition gae_row (gamma lam : Q) (rewards values mask : list Q) : list Q :=
  (foldr (gae_step gamma lam) (0%Q, 0%Q, []) (zip (zip rewards values) mask)).2.

Definition gae_rows (gamma lam : Q) (rewards values mask : matrix) : matrix :=
  zip_with (fun rv m => gae_row gamma lam rv.1 rv.2 m) (zip rewards values) mask.

Definition compute_gae_advantage_return (token_level_rewards values response_mask : matrix) (gamma lam : Q) : result (matrix * matrix) :=
  let advantages := gae_rows gamma lam token_level_rewards values response_mask in
  let returns := mzip Qplus advantages values in
  advantages ← masked_whiten advantages response_mask;
  Ok (advantages, returns).

(** ** Groups of responses to one prompt *)

(** [id2score[index[i]].append(scores[i])], for a [defaultdict(list)].  What is
    appended are views of [scores]; after [scores] is overwritten only their number is
    used. *)
Definition append_to {A} (d : dict (list A)) (x : string * A) : dict (list A) := dict_set x.1 (default [] (dict_get d x.1) ++ [x.2]) d.

Definition collect {A} (index : list string) (l : list A) : result (dict (list A)) :=
  foldM (fun d '(i, x) => id ← np_get index i; Ok (append_to d (id, x))) [] (imap pair l).

(** A loop over the groups that gives each a value. *)
Definition for_groups {A B} (f : A -> result B) (d : dict A) : result (dict B) :=
  mapM_ok (fun x => b ← f x.2; Ok (x.1, b)) d.

Definition get_group {A} (d : dict A) (index : list string) (i : nat) : result A :=
  id ← np_get index i; of_option KeyError (dict_get d id).

Definition group_mean (scores : list Q) : result Q :=
  match scores with [] => Err ValueError | [_] => Ok 0%Q | _ => Ok (mean scores) end.

Definition group_stats (scores : list Q) : result (Q * Q) :=
  match scores with [] => Err ValueError | [_] => Ok (0%Q, 1%Q) | _ => Ok (mean scores, std scores) end.

(** [scores[i] = f(scores[i], ...)] for every response. *)
Definition map_scores {A B} (f : A -> nat -> result B) (scores : list A) : result (list B) := mapM_ok (fun x => f x.2 x.1) (imap pair scores).

Definition compute_grpo_outcome_advantage (token_level_rewards response_mask : matrix) (index : list string) (epsilon : Q) (norm_adv_by_std_in_grpo : bool) :
    result (matrix * matrix) :=
  let scores := sum_rows token_level_rewards in
  id2score ← collect index scores;
  id2stats ← for_groups group_stats id2score;
  scores ← map_scores (fun s i => '(mean, std) ← get_group id2stats index i;
    Ok (if norm_adv_by_std_in_grpo then (s - mean) / (std + epsilon) else s - mean)%Q) scores;
  let scores := broadcast scores response_mask in
  Ok (scores, scores).

Definition compute_grpo_vectorized_outcome_advantage (token_level_rewards response_mask : matrix) (index : list string) (epsilon : Q) (norm_adv_by_std_in_grpo : bool) :
    result (matrix * matrix) :=
  let scores := sum_rows token_level_rewards in
  let g := as_torch_index index in
  '(mean_g, std_g, _) ← group_mean_std scores g 0;
  means ← gather_groups mean_g g;
  stds ← gather_groups std_g g;
  let scalars := if norm_adv_by_std_in_grpo then zip_with (fun a d => a / (d + epsilon))%Q (zip_with Qminus scores means) stds else zip_with Qminus scores means in
  let advantages := broadcast scalars response_mask in
  Ok (advantages, advantages).

(** ** Several rewards *)

(** The reward of a response, put on its last token; an empty response has index -1. *)
Definition place_reward (width : nat) (valid_response_length : Z) (rm_score : Q) : result (list Q) :=
  let i := if (valid_response_length <? 0)%Z then (valid_response_length + Z.of_nat width)%Z else valid_response_length in
  if (i <? 0)%Z then Err IndexError else np_put (Z.to_nat i) rm_score (replicate width 0%Q).

Record GDPOBatch := {
  prompt_length : nat;
  attention_mask : list (list Z);
  gdpo_reward_keys : list string;
  gdpo_reward_weights : option (list Q);
  reward_scores : dict (list Q);
}.

Definition gdpo_score (b : GDPOBatch) (response_mask : matrix) (key : string) : result matrix :=
  rm_score ← of_option AssertionError (dict_get (reward_scores b) key);
  let valid_response_length := (fun row => zsum (drop (prompt_length b) row) - 1)%Z <$> attention_mask b in
  mapM_ok (fun x => place_reward (length x.1) x.2.1 x.2.2) (zip response_mask (zip valid_response_length rm_score)).

Definition gdpo_scores (batch : option GDPOBatch) (token_level_rewards response_mask : matrix) : result (list matrix * option (list Q)) :=
  match batch with
  | None => Ok ([token_level_rewards], None)
  | Some b =>
      _ ← py_assert (negb (length (gdpo_reward_keys b) =? 0));
      l ← mapM_ok (gdpo_score b response_mask) (gdpo_reward_keys b);
      Ok (l, gdpo_reward_weights b)
  end.

Definition add_weighted (acc : option matrix) (w : Q) (t : matrix) : option matrix :=
  let wt := fmap (M := list) (fmap (M := list) (Qmult w)) t in
  Some (match acc with None => wt | Some a => mzip Qplus a wt end).

Definition compute_gdpo_outcome_advantage (batch : option GDPOBatch) (token_level_rewards response_mask : matrix) (index : list string) (epsilon : Q)
    (norm_adv_by_std_in_grpo : bool) : result (matrix * matrix) :=
  '(score_list, reward_weights) ← gdpo_scores batch token_level_rewards response_mask;
  let weights := default (replicate (length score_list) 1%Q) reward_weights in
  new_advantage ← foldM (fun acc '(i, scores) =>
    '(normalized_score, _) ← compute_grpo_outcome_advantage scores response_mask index epsilon norm_adv_by_std_in_grpo;
    w ← np_get weights i;
    Ok (add_weighted acc w normalized_score)) None (imap pair score_list);
  new_advantage ← of_option TypeError new_advantage;
  whitened ← masked_whiten new_advantage response_mask;
  let advantages := mzip Qmult whitened response_mask in
  Ok (advantages, advantages).

(** ** The best response of a group *)

(** [torch.topk(rewards, 2)]: the places of the two largest values. *)
Fixpoint argmax_from (best : nat) (x : Q) (i : nat) (l : list Q) : nat * Q :=
  match l with
  | [] => (best, x)
  | y :: l => if Qgt_bool y x then argmax_from i y (S i) l else argmax_from best x (S i) l
  end.
Definition top2 (l : list Q) : option ((nat * Q) * Q) :=
  match l with
  | [] => None
  | x :: k =>
      let best := argmax_from 0 x 1 k in
      match delete best.1 l with
      | [] => None
      | y :: k => Some (best, (argmax_from 0 y 1 k).2)
      end
  end.

Definition passk_advantage (norm_adv_by_std_in_grpo : bool) (epsilon : Q) (rewards : list Q) : result (nat * Q) :=
  match top2 rewards with
  | None => Err ValueError
  | Some (best, second) =>
      let advantage := (best.2 - second)%Q in
      Ok (best.1, if norm_adv_by_std_in_grpo then advantage / (std rewards + epsilon) else advantage)%Q
  end.

Definition compute_grpo_passk_outcome_advantage (token_level_rewards response_mask : matrix) (index : list string) (epsilon : Q) (norm_adv_by_std_in_grpo : bool) :
    result (matrix * matrix) :=
  let scores := sum_rows token_level_rewards in
  id2scores ← collect index scores;
  id2indices ← collect index (seq 0 (length scores));
  advantages ← foldM (fun advantages '(idx, rewards) =>
    '(k, advantage) ← passk_advantage norm_adv_by_std_in_grpo epsilon rewards;
    indices ← of_option KeyError (dict_get id2indices idx);
    i_max ← np_get indices k;
    np_put i_max advantage advantages) (replicate (length scores) 0%Q) id2scores;
  let advantages := broadcast advantages response_mask in
  Ok (advantages, advantages).

(** ** Group means as baselines *)

Definition compute_reinforce_plus_plus_baseline_outcome_advantage (token_level_rewards response_mask : matrix) (index : list string) : result (matrix * matrix) :=
  let scores := sum_rows token_level_rewards in
  id2score ← collect index scores;
  id2mean ← for_groups group_mean id2score;
  scores ← map_scores (fun s i => m ← get_group id2mean index i; Ok (s - m)%Q) scores;
  let scores := broadcast scores response_mask in
  whitened ← masked_whiten scores response_mask;
  let scores := mzip Qmult whitened response_mask in
  Ok (scores, scores).

Definition compute_rloo_outcome_advantage (token_level_rewards response_mask : matrix) (index : list string) : result (matrix * matrix) :=
  let scores := sum_rows token_level_rewards in
  id2score ← collect index scores;
  id2mean ← for_groups group_mean id2score;
  scores ← map_scores (fun s i =>
    group ← get_group id2score index i;
    let response_num := Q_of_nat (length group) in
    if 1 <? length group then m ← get_group id2mean index i; Ok (s * response_num / (response_num - 1) - m * response_num / (response_num - 1))%Q
    else Ok s) scores;
  let scores := broadcast scores response_mask in
  Ok (scores, scores).

(** [torch.bincount] *)
Definition bincount (weights : list Q) (inv : list nat) : list Q :=
  foldl (fun acc '(g, w) => alter (Qplus w) g acc) (replicate (S (max_list inv)) 0%Q) (zip inv weights).

Definition compute_rloo_vectorized_outcome_advantage (token_level_rewards response_mask : matrix) (index : list string) : result (matrix * matrix) :=
  let scores := sum_rows token_level_rewards in
  let inv := unique_inverse index in
  c ← mapM_ok (np_get (bincount (replicate (length inv) 1%Q) inv)) inv;
  sums ← mapM_ok (np_get (bincount scores inv)) inv;
  let adv := zip_with (fun cs b => (cs.1 * cs.2 - b) / clamp_min (cs.1 - 1) 1 * Q_of_bool (Qgt_bool cs.1 1))%Q (zip c scores) sums in
  let adv := broadcast adv response_mask in
  Ok (adv, adv).

Definition group_opo (scores lens : list Q) : result float :=
  match scores with
  | [] => Err ValueError
  | [_] => Ok (Fin 0)
  | _ => Ok (fdiv (Fin (qsum (zip_with Qmult lens scores))) (qsum lens))
  end.

(** The baseline is a quotient that may be nan. *)
Definition compute_opo_outcome_advantage (token_level_rewards response_mask : matrix) (index : list string) : result (list (list float)) :=
  let scores := sum_rows token_level_rewards in
  id2score ← collect index scores;
  id2len ← collect index (sum_rows response_mask);
  id2bsl ← mapM_ok (fun x => lens ← of_option KeyError (dict_get id2len x.1); b ← group_opo x.2 lens; Ok (x.1, b)) id2score;
  scores ← map_scores (fun s i => b ← get_group id2bsl index i; Ok (fadd (fscale (-1) b) s)) scores;
  Ok (zip_with (fun s row => (fun m => fscale m s) <$> row) scores response_mask).

Definition count_nonzero (l : list Q) : Q := Q_of_nat (length (filter (fun x => Qeq_bool x 0 = false) l)).

Definition compute_gpg_outcome_advantage (token_level_rewards response_mask : matrix) (index : list string) (f_norm : Q) : result (list (list float)) :=
  let scores := sum_rows token_level_rewards in
  let alpha := (Q_of_nat (length scores) / clamp_min (count_nonzero scores) 1)%Q in
  id2score ← collect index scores;
  id2stats ← for_groups group_stats id2score;
  scores ← map_scores (fun s i => '(mean, _) ← get_group id2stats index i; Ok (fdiv (Fin (alpha * (s - mean))%Q) f_norm)) scores;
  Ok (zip_with (fun s row => (fun m => fscale m s) <$> row) scores response_mask).

(** ** Returns *)

(** [flip], [cumsum], [flip]: the sums of the rests of a row *)
Definition reverse_cumsum (row : list Q) : list Q := foldr (fun x acc => (x + default 0 (head acc))%Q :: acc) [] row.

Definition compute_remax_outcome_advantage (token_level_rewards response_mask : matrix) (reward_baselines : list Q) : matrix * matrix :=
  let returns := reverse_cumsum <$> mzip Qmult token_level_rewards response_mask in
  let advantages := mzip Qminus returns (broadcast reward_baselines response_mask) in
  (advantages, returns).

(** The loop of REINFORCE++, from the last token to the first. *)
Definition rfpp_step (gamma : Q) (x : Q * Q) (acc : Q * list Q) : Q * list Q :=
  let '(reward, mask) := x in
  let '(running_return, returns) := acc in
  let running_return := (reward + gamma * running_return)%Q in
  ((running_return * mask)%Q, running_return :: returns).

Definition rfpp_row (gamma : Q) (rewards mask : list Q) : list Q := (foldr (rfpp_step gamma) (0%Q, []) (zip rewards mask)).2.

Definition compute_reinforce_plus_plus_outcome_advantage (token_level_rewards response_mask : matrix) (gamma : Q) : result (matrix * matrix) :=
  let returns := zip_with (rfpp_row gamma) token_level_rewards response_mask in
  advantages ← masked_whiten returns response_mask;
  Ok (mzip Qmult advantages response_mask, returns).
End Advantages.
