(* ===== verification/AdvantageGroups.v ===== *)
(** * Groups of responses

    What the loops of the group-relative estimators compute: the scores of a group
    in the order of the batch, and for every response the value of its group. *)

From Stdlib Require Import QArith_base QArith Qminmax Lqa.
From S2P Require Import Prelude PyDict Numbers NumPy TorchFunctional Advantages.

(** The elements whose label is [id], in the order of the batch. *)
Definition members {K A} `{EqDecision K} (index : list K) (l : list A) (id : K) : list A := (filter (fun x => x.1 = id) (zip index l)).*2.

Lemma members_elem {K A} `{EqDecision K} (index : list K) (l : list A) id x : x ∈ members index l id <-> exists i, index !! i = Some id /\ l !! i = Some x.
Proof.
  unfold members. rewrite list_elem_of_fmap. split.
  - intros ([id' y] & -> & [Hid Hy]%list_elem_of_filter). cbn in Hid. subst id'. apply list_elem_of_lookup in Hy as [i Hi]. exists i. by apply lookup_zip_Some in Hi.
  - intros (i & Hi & Hx). exists (id, x). split; [done|]. apply list_elem_of_filter. split; [done|]. apply list_elem_of_lookup. exists i. by apply lookup_zip_Some.
Qed.

Lemma members_cons {K A} `{EqDecision K} (k : K) index (x : A) l id : members (k :: index) (x :: l) id = if decide (k = id) then x :: members index l id else members index l id.
Proof. unfold members. cbn [zip zip_with]. rewrite filter_cons. cbn [fst]. by destruct (decide (k = id)). Qed.

Lemma members_nil_r {K A} `{EqDecision K} (index : list K) id : members (A := A) index [] id = [].
Proof. unfold members. by rewrite zip_with_nil_r. Qed.

(** A loop that treats the elements of a group alike. *)
Lemma members_imap {K A B} `{EqDecision K} (index : list K) (l : list A) id (h : nat -> A -> B) (k : A -> B) :
  (forall i x, index !! i = Some id -> l !! i = Some x -> h i x = k x) -> members index (imap h l) id = k <$> members index l id.
Proof.
  revert l h. induction index as [|id' index IH]; intros l h Hh; [done|]. destruct l as [|x l]; [done|]. rewrite imap_cons, !members_cons. rewrite (IH l (h ∘ S)) by (intros i y; apply (Hh (S i))).
  destruct (decide (id' = id)) as [->|]; [|done]. rewrite fmap_cons. f_equal. by apply (Hh 0).
Qed.

(** Other names for the same groups. *)
Lemma members_relabel {K L A} `{EqDecision K} `{EqDecision L} (index : list K) (labels : list L) (l : list A) k z : length index = length labels ->
  (forall i a b, index !! i = Some a -> labels !! i = Some b -> (a = k <-> b = z)) -> members index l k = members labels l z.
Proof.
  revert labels l. induction index as [|a index IH]; intros [|b labels] l Hl Hiff; try done. destruct l as [|x l]; [done|]. rewrite !members_cons, (IH labels l).
  - specialize (Hiff 0 a b eq_refl eq_refl). destruct (decide (a = k)), (decide (b = z)); tauto.
  - cbn in Hl. lia.
  - intros i a' b' Ha Hb. apply (Hiff (S i) a' b' Ha Hb).
Qed.

(** ** Collecting *)

Lemma collect_from {A} (pre index : list string) (l : list A) d : length l <= length index ->
  foldM (fun d '(i, x) => id ← np_get (pre ++ index) i; Ok (append_to d (id, x))) d (imap (fun i => pair (length pre + i)) l) = Ok (foldl append_to d (zip index l)).
Proof.
  revert pre index d. induction l as [|x l IH]; intros pre index d Hl; [by destruct index|]. destruct index as [|id index]; [cbn in Hl; lia|]. rewrite imap_cons. cbn [foldM zip zip_with foldl].
  assert (Hget : np_get (pre ++ id :: index) (length pre + 0) = Ok id) by (apply np_get_ok; rewrite lookup_app_r, Nat.add_0_r, Nat.sub_diag by lia; done).
  rewrite Hget. cbn [mbind result_bind].
  specialize (IH (pre ++ [id]) index (append_to d (id, x)) ltac:(cbn in Hl; lia)). rewrite <-app_assoc in IH. cbn [app] in IH. rewrite <-IH. f_equal. apply imap_ext. intros i y _. cbn. f_equal. rewrite length_app. cbn. lia.
Qed.

Lemma collect_groups_ok {A} index (l : list A) : length l <= length index -> collect index l = Ok (foldl append_to [] (zip index l)).
Proof. apply (collect_from []). Qed.

Lemma append_to_get {A} (zs : list (string * A)) d id : dict_get (foldl append_to d zs) id =
  match (filter (fun x => x.1 = id) zs).*2 with [] => dict_get d id | m => Some (default [] (dict_get d id) ++ m) end.
Proof.
  revert d. induction zs as [|[k x] zs IH]; intros d; [done|]. cbn [foldl]. rewrite IH, filter_cons. unfold append_to. cbn [fst snd]. rewrite dict_get_set.
  destruct (decide (k = id)) as [->|Hne].
  - rewrite decide_True by done. rewrite fmap_cons. cbn [snd default from_option Datatypes.id]. destruct ((filter (fun x0 => x0.1 = id) zs).*2) as [|y m]; [done|]. by rewrite <-app_assoc.
  - by rewrite decide_False by done.
Qed.

Lemma append_to_nodup {A} (zs : list (string * A)) d : NoDup (keys d) -> NoDup (keys (foldl append_to d zs)).
Proof. revert d. induction zs as [|x zs IH]; intros d Hd; [done|]. apply IH. by apply keys_set_nodup. Qed.

(** The dictionary of a batch. *)
Definition groups {A} (index : list string) (l : list A) : dict (list A) := foldl append_to [] (zip index l).

Lemma groups_get {A} index (l : list A) id : dict_get (groups index l) id = match members index l id with [] => None | m => Some m end.
Proof. unfold groups, members. rewrite append_to_get. by destruct (_.*2). Qed.

Lemma groups_nodup {A} index (l : list A) : NoDup (keys (groups index l)).
Proof. apply append_to_nodup, NoDup_nil_2. Qed.

Lemma groups_elem {A} index (l : list A) id m : (id, m) ∈ groups index l -> m = members index l id /\ m <> [].
Proof. intros H. apply (dict_get_in _ _ _ (groups_nodup index l)) in H. rewrite groups_get in H. by destruct (members index l id); simplify_eq. Qed.

(** ** Values of groups *)

Lemma for_groups_ok {A B} (f : A -> result B) (g : A -> B) (d : dict A) : (forall id x, (id, x) ∈ d -> f x = Ok (g x)) -> for_groups f d = Ok (prod_map Datatypes.id g <$> d).
Proof.
  intros H. unfold for_groups. induction d as [|[id x] d IH]; [done|]. cbn [mapM_ok fst snd]. rewrite (H id x) by (by left). cbn [mbind result_bind].
  rewrite IH; [done|]. intros id' x' H'. apply (H id' x'). by right.
Qed.

Lemma dict_get_map {A B} (g : A -> B) (d : dict A) id : dict_get (prod_map Datatypes.id g <$> d) id = g <$> dict_get d id.
Proof. induction d as [|[k x] d IH]; [done|]. cbn. by destruct (decide (k = id)). Qed.

(** A response finds the value of its own group. *)
Lemma get_group_ok {A B} (f : list A -> result B) (g : list A -> B) index (l : list A) i id x : (forall m, m <> [] -> f m = Ok (g m)) ->
  index !! i = Some id -> l !! i = Some x ->
  exists d, for_groups f (groups index l) = Ok d /\ get_group d index i = Ok (g (members index l id)).
Proof.
  intros Hf Hi Hx. eexists. split; [apply (for_groups_ok f g); intros id' m [_ Hm]%groups_elem; by apply Hf|]. unfold get_group, np_get. rewrite Hi. cbn [of_option mbind result_bind].
  rewrite dict_get_map, groups_get. destruct (members index l id) as [|y m] eqn:Em; [|done]. exfalso. assert (Hin : x ∈ members index l id) by (apply members_elem; by exists i). rewrite Em in Hin. by apply elem_of_nil in Hin.
Qed.

Lemma map_scores_ok {A B} (f : A -> nat -> result B) (g : nat -> A -> B) l : (forall i x, l !! i = Some x -> f x i = Ok (g i x)) -> map_scores f l = Ok (imap g l).
Proof.
  intros H. unfold map_scores. assert (Hoff : forall k off, (forall i x, k !! i = Some x -> f x (off + i) = Ok (g (off + i) x)) -> mapM_ok (fun x => f x.2 x.1) (imap (fun i => pair (off + i)) k) = Ok (imap (fun i => g (off + i)) k)).
  { clear. induction k as [|x k IH]; intros off Hk; [done|]. rewrite !imap_cons. cbn [mapM_ok fst snd]. rewrite (Hk 0 x eq_refl). cbn [mbind result_bind].
    assert (E1 : imap ((fun i => pair (off + i)) ∘ S) k = imap (fun i => pair (S off + i)) k) by (apply imap_ext; intros i y _; cbn; f_equal; lia). rewrite E1, (IH (S off)).
    - cbn [mbind result_bind]. do 2 f_equal. apply imap_ext. intros i y _. cbn. f_equal. lia.
    - intros i y Hy. replace (S off + i) with (off + S i) by lia. by apply Hk. }
  exact (Hoff l 0 H).
Qed.

(** The whole loop of an estimator that gives each response a value of its group. *)
Lemma group_loop_ok {A B C D} (f : list A -> result B) (g : list A -> B) (F : A -> B -> result C) (h : A -> B -> C) (k : list C -> result D) index (l : list A) :
  length l <= length index -> (forall m, m <> [] -> f m = Ok (g m)) -> (forall s b, F s b = Ok (h s b)) ->
  (d ← collect index l; v ← for_groups f d; r ← map_scores (fun s i => b ← get_group v index i; F s b) l; k r)
  = k (imap (fun i s => h s (g (members index l (index !!! i)))) l).
Proof.
  intros Hl Hf HF. rewrite (collect_groups_ok _ _ Hl). fold (groups index l). cbn [mbind result_bind].
  assert (Hv : for_groups f (groups index l) = Ok (prod_map Datatypes.id g <$> groups index l)) by (apply for_groups_ok; intros id m [_ Hm]%groups_elem; by apply Hf).
  rewrite Hv. cbn [mbind result_bind]. rewrite (map_scores_ok _ (fun i s => h s (g (members index l (index !!! i))))); [done|].
  intros i x Hx. destruct (lookup_lt_is_Some_2 index i) as [id Hi]; [apply lookup_lt_Some in Hx; lia|].
  destruct (get_group_ok f g index l i id x Hf Hi Hx) as (d & Hd & Hg). rewrite Hv in Hd. injection Hd as <-. rewrite Hg. cbn [mbind result_bind]. rewrite HF. do 3 f_equal. by rewrite (list_lookup_total_correct _ _ _ Hi).
Qed.
