(* ===== verification/GroupAdvantages.v ===== *)
(** * The group-relative estimators

    GRPO and RLOO: what a response gets is relative to the other responses to its
    prompt, and the vectorized versions compute the same. *)

From Stdlib Require Import QArith_base QArith Qminmax Lqa.
From S2P Require Import Prelude PyDict Numbers NumPy TorchFunctional Advantages AdvantageGroups.

(** What the documentation says of the functions of torch and numpy. *)
Class TorchMathLaws (TM : TorchMath) : Prop := {
  sqrt_nonneg : forall x, (0 <= x -> 0 <= sqrt_ x)%Q;
  sqrt_proper : Proper (Qeq ==> Qeq) sqrt_;
  rsqrt_pos : forall x, (0 < x -> 0 < rsqrt x)%Q;
  exp_proper : Proper (Qeq ==> Qeq) exp_;
  exp_zero : (exp_ 0 == 1)%Q;
  exp_above : forall x, (0 < exp_ x /\ 1 + x <= exp_ x)%Q;
  inverse_length : forall index, length (unique_inverse index) = length index;
  inverse_eq : forall index i j a b x y, index !! i = Some a -> index !! j = Some b -> unique_inverse index !! i = Some x -> unique_inverse index !! j = Some y ->
    (x = y <-> a = b);
}.
#[export] Existing Instance sqrt_proper.
#[export] Existing Instance exp_proper.

Section Groups.
Context `{TM : TorchMath} `{!TorchMathLaws TM}.

(** ** The statistics of a group *)

Definition stats (g : list Q) : Q * Q := match g with [_] => (0%Q, 1%Q) | _ => (mean g, std g) end.

Lemma group_stats_ok g : g <> [] -> group_stats g = Ok (stats g).
Proof using. by destruct g as [|x [|y g]]. Qed.

Lemma sum_of_squares_nonneg (f : Q -> Q) l : (0 <= qsum ((fun x => f x * f x) <$> l))%Q.
Proof using. apply qsum_nonneg, Forall_fmap, Forall_forall. intros x _. cbn. nra. Qed.

Lemma Q_of_nat_S n : (Q_of_nat (S n) == Q_of_nat n + 1)%Q.
Proof using. unfold Q_of_nat. rewrite Nat2Z.inj_succ, <-Z.add_1_r, inject_Z_plus. done. Qed.

Lemma Q_of_nat_ge n k : k <= n -> (Q_of_nat k <= Q_of_nat n)%Q.
Proof using. intros H. unfold Q_of_nat. rewrite <-Zle_Qle. lia. Qed.

Lemma mean_sum g : g <> [] -> (Q_of_nat (length g) * mean g == qsum g)%Q.
Proof using. intros Hg. unfold mean. field. intros E0. pose proof (Q_of_nat_pos (length g)) as Hp. unfold Q_of_nat in E0. rewrite E0 in Hp. destruct g; [done|]. specialize (Hp ltac:(cbn; lia)). by apply Qlt_irrefl in Hp. Qed.

Lemma std_nonneg g : 2 <= length g -> (0 <= std g)%Q.
Proof using TorchMathLaws0.
  intros Hg. apply sqrt_nonneg. apply Qle_shift_div_l; [pose proof (Q_of_nat_ge _ 2 Hg) as H; change (Q_of_nat 2) with 2%Q in H; lra|]. rewrite Qmult_0_l. apply (sum_of_squares_nonneg (fun x => x - mean g)%Q).
Qed.

(** ** GRPO *)

Definition grpo_scalar (norm : bool) (epsilon : Q) (g : list Q) (s : Q) : Q :=
  if norm then ((s - (stats g).1) / ((stats g).2 + epsilon))%Q else (s - (stats g).1)%Q.

Lemma grpo_ok rewards mask index epsilon norm : length rewards <= length index ->
  let S := sum_rows rewards in
  let A := broadcast (imap (fun i s => grpo_scalar norm epsilon (members index S (index !!! i)) s) S) mask in
  compute_grpo_outcome_advantage rewards mask index epsilon norm = Ok (A, A).
Proof using.
  intros Hl S A. unfold compute_grpo_outcome_advantage. fold S.
  apply (group_loop_ok group_stats stats (fun s '(mean, std) => Ok (if norm then (s - mean) / (std + epsilon) else s - mean)%Q) (fun s b => if norm then (s - b.1) / (b.2 + epsilon) else s - b.1)%Q
    (fun l => Ok (broadcast l mask, broadcast l mask))); [unfold S, sum_rows; by rewrite length_fmap|apply group_stats_ok|by intros s [m d]].
Qed.

(** A response alone in its group. *)
Lemma grpo_scalar_cases norm epsilon g s : g <> [] ->
  if 1 <? length g then grpo_scalar norm epsilon g s = (if norm then (s - mean g) / (std g + epsilon) else s - mean g)%Q
  else (grpo_scalar norm epsilon g s == if norm then s / (1 + epsilon) else s)%Q.
Proof using.
  destruct g as [|x [|y g]]; [done| |by destruct norm]. intros _. cbn [length]. cbn [Nat.ltb Nat.leb]. unfold grpo_scalar. cbn [stats fst snd].
  destruct norm; unfold Qminus; by rewrite Qplus_0_r.
Qed.

Lemma scale_pos norm epsilon g : (0 < epsilon)%Q -> 2 <= length g -> exists c, (0 < c)%Q /\ forall s, (grpo_scalar norm epsilon g s == (s - mean g) * c)%Q.
Proof using TorchMathLaws0.
  intros He Hg. pose proof (std_nonneg g Hg) as Hs. destruct g as [|x [|y g]]; try (cbn in Hg; lia). unfold grpo_scalar. cbn [stats fst snd]. destruct norm.
  - exists (/ (std (x :: y :: g) + epsilon))%Q. split; [apply Qinv_lt_0_compat; lra|]. by intros s.
  - exists 1%Q. split; [lra|]. intros s. ring.
Qed.

Lemma scalars_sum_zero norm epsilon g : (0 < epsilon)%Q -> 2 <= length g -> (qsum (grpo_scalar norm epsilon g <$> g) == 0)%Q.
Proof using TorchMathLaws0.
  intros He Hg. destruct (scale_pos norm epsilon g He Hg) as (c & _ & Hc). rewrite (qsum_proper _ ((fun x => x * c)%Q <$> ((fun x => x - mean g)%Q <$> g))).
  - rewrite qsum_scale_r, qsum_sub_const. pose proof (mean_sum g ltac:(intros ->; cbn in Hg; lia)) as Hm. unfold Q_of_nat in Hm. rewrite Hm. ring.
  - rewrite <-list_fmap_compose. apply Qeql_fmap. intros x _. apply Hc.
Qed.

Lemma scalars_order norm epsilon g s s' : (0 < epsilon)%Q -> 2 <= length g -> (grpo_scalar norm epsilon g s < grpo_scalar norm epsilon g s' <-> s < s')%Q.
Proof using TorchMathLaws0. intros He Hg. destruct (scale_pos norm epsilon g He Hg) as (c & Hc & Hs). rewrite !Hs, Qmult_lt_r by done. split; lra. Qed.

(** ** The vectorized version *)

Lemma index_add_from gidx src acc : Forall (fun g => 0 <= g < Z.of_nat (length acc))%Z gidx -> length src = length gidx ->
  exists acc', foldM (fun acc '(g, x) => if (g <? 0)%Z then Err IndexError else a ← np_get acc (Z.to_nat g); Ok (<[Z.to_nat g := a + x]> acc)%Q) acc (zip gidx src) = Ok acc' /\
    length acc' = length acc /\ forall g a, acc !! g = Some a -> exists a', acc' !! g = Some a' /\ (a' == a + qsum (members gidx src (Z.of_nat g)))%Q.
Proof using.
  revert src acc. induction gidx as [|z gidx IH]; intros src acc Hall Hl.
  - exists acc. split; [done|]. split; [done|]. intros g a Ha. exists a. split; [done|]. unfold members. cbn. ring.
  - destruct src as [|x src]; [done|]. apply Forall_cons in Hall as [Hz Hall]. cbn [foldM zip zip_with]. rewrite (proj2 (Z.ltb_ge _ _)) by lia.
    destruct (lookup_lt_is_Some_2 acc (Z.to_nat z)) as [b Hb]; [lia|]. rewrite (proj2 (np_get_ok _ _ _) Hb). cbn [mbind result_bind].
    destruct (IH src (<[Z.to_nat z := (b + x)%Q]> acc)) as (acc' & E1 & Hl' & Hat); [by rewrite length_insert|cbn in Hl; lia|]. exists acc'. split; [exact E1|]. split; [by rewrite Hl', length_insert|].
    intros g a Ha. rewrite members_cons. destruct (decide (z = Z.of_nat g)) as [->|Hne].
    + rewrite Nat2Z.id in *. rewrite Ha in Hb. injection Hb as <-. destruct (Hat g (a + x)%Q) as (a' & Ha' & Hsum); [by apply list_lookup_insert_eq; eapply lookup_lt_Some|]. exists a'. split; [done|]. cbn [qsum]. rewrite Hsum. ring.
    + destruct (Hat g a) as (a' & Ha' & Hsum); [rewrite list_lookup_insert_ne by lia; done|]. by exists a'.
Qed.

Lemma index_add_ok n gidx src : Forall (fun g => 0 <= g < Z.of_nat n)%Z gidx -> length src = length gidx ->
  exists acc, index_add n gidx src = Ok acc /\ length acc = n /\ forall g, g < n -> exists a, acc !! g = Some a /\ (a == qsum (members gidx src (Z.of_nat g)))%Q.
Proof using.
  intros Hall Hl. destruct (index_add_from gidx src (replicate n 0%Q)) as (acc & E & Hn & Hat); [by rewrite length_replicate|done|]. rewrite length_replicate in Hn.
  exists acc. split; [exact E|]. split; [done|]. intros g Hg. destruct (Hat g 0%Q) as (a & Ha & Hs); [by apply lookup_replicate_2|]. exists a. split; [done|]. rewrite Hs. ring.
Qed.

Lemma gather_groups_ok {A} (t : list A) gidx (f : nat -> A) : Forall (fun g => 0 <= g < Z.of_nat (length t))%Z gidx -> (forall g, g < length t -> t !! g = Some (f g)) ->
  gather_groups t gidx = Ok ((fun g => f (Z.to_nat g)) <$> gidx).
Proof using.
  intros Hall Hf. apply mapM_ok_total. intros g Hg. rewrite Forall_forall in Hall. specialize (Hall g Hg).
  rewrite <-(Z2Nat.id g) at 1 by lia. rewrite py_index_nat, (Hf (Z.to_nat g)) by lia. done.
Qed.

Lemma members_zip {A B C} (h : A -> B -> C) (k : Z -> B) (gidx : list Z) (l : list A) z : members gidx (zip_with h l (k <$> gidx)) z = (fun x => h x (k z)) <$> members gidx l z.
Proof using.
  revert l. induction gidx as [|z' gidx IH]; intros [|x l]; try done. rewrite fmap_cons. cbn [zip_with]. rewrite !members_cons, IH. by destruct (decide (z' = z)) as [->|].
Qed.

Lemma members_fmap {A B} (f : A -> B) (gidx : list Z) l z : members gidx (f <$> l) z = f <$> members gidx l z.
Proof using. revert l. induction gidx as [|z' gidx IH]; intros [|x l]; try done. rewrite fmap_cons, !members_cons, IH. by destruct (decide (z' = z)). Qed.

Lemma members_ones (gidx : list Z) (l : list Q) z : length l = length gidx -> (qsum (members gidx (replicate (length l) 1%Q) z) == Q_of_nat (length (members gidx l z)))%Q.
Proof using.
  revert l. induction gidx as [|z' gidx IH]; intros [|x l] Hl; try done. cbn [length replicate]. rewrite !members_cons. destruct (decide (z' = z)); cbn [qsum length]; [rewrite Q_of_nat_S|]; rewrite (IH l) by (cbn in Hl; lia); lra.
Qed.

Lemma members_some (gidx : list Z) (l : list Q) z : length l = length gidx -> z ∈ gidx -> members gidx l z <> [].
Proof using.
  intros Hl Hz Hn. apply list_elem_of_lookup in Hz as [i Hi]. destruct (lookup_lt_is_Some_2 l i) as [x Hx]; [apply lookup_lt_Some in Hi; lia|].
  assert (Hin : x ∈ members gidx l z) by (apply members_elem; by exists i). rewrite Hn in Hin. by apply elem_of_nil in Hin.
Qed.

Lemma Qmax_l_eq x y : (y <= x)%Q -> (Qmax x y == x)%Q.
Proof using. apply Q.max_l. Qed.

Lemma count_one n : n <> 0 -> Qle_bool (Q_of_nat n) 1 = (n =? 1).
Proof using.
  intros Hn. apply eq_true_iff_eq. rewrite Qle_bool_iff, Nat.eqb_eq. unfold Q_of_nat. change 1%Q with (inject_Z 1). rewrite <-Zle_Qle. lia.
Qed.

#[export] Instance Qle_bool_proper : Proper (Qeq ==> Qeq ==> eq) Qle_bool.
Proof using. intros x x' Hx y y' Hy. apply eq_true_iff_eq. by rewrite !Qle_bool_iff, Hx, Hy. Qed.

Lemma variance_ok g m v c : 2 <= length g -> (m == mean g)%Q -> (v == qsum ((fun x => (x - m) * (x - m))%Q <$> g))%Q -> (c == Q_of_nat (length g))%Q ->
  (sqrt_ (clamp_min (v / clamp_min (c - 1) 1) 0) == std g)%Q.
Proof using TorchMathLaws0.
  intros Hg Hm Hv Hc. unfold std, clamp_min. apply sqrt_proper. pose proof (Q_of_nat_ge _ 2 Hg) as H2. change (Q_of_nat 2) with 2%Q in H2.
  assert (E1 : (Qmax (c - 1) 1 == Q_of_nat (length g) - 1)%Q) by (rewrite Q.max_l; lra). rewrite E1.
  assert (E2 : (v == qsum ((fun x => (x - mean g) * (x - mean g))%Q <$> g))%Q) by (rewrite Hv; apply qsum_proper, Qeql_fmap; intros x _; by rewrite Hm).
  rewrite E2. apply Qmax_l_eq. apply Qle_shift_div_l; [lra|]. rewrite Qmult_0_l. apply (sum_of_squares_nonneg (fun x => x - mean g)%Q).
Qed.

(** The statistics of every group that has a member. *)
Lemma group_mean_std_ok scores gidx : gidx <> [] -> Forall (fun g => 0 <= g)%Z gidx -> length scores = length gidx ->
  exists means stds count, group_mean_std scores gidx 0 = Ok (means, stds, count) /\ length means = length stds /\ Forall (fun g => 0 <= g < Z.of_nat (length means))%Z gidx /\
    forall z, z ∈ gidx -> (means !!! Z.to_nat z == (stats (members gidx scores z)).1)%Q /\ (stds !!! Z.to_nat z == (stats (members gidx scores z)).2)%Q.
Proof using TorchMathLaws0.
  intros Hne Hpos Hl. unfold group_mean_std. rewrite Hl, Nat.eqb_refl. cbn [negb]. destruct gidx as [|z0 gs] eqn:Eg; [done|]. rewrite <-Eg in *. clear Hne.
  set (G := (foldr Z.max z0 gs + 1)%Z). assert (Hmax : forall z, z ∈ gidx -> (z < G)%Z).
  { rewrite Eg. unfold G. clear. intros z [->|Hz]%elem_of_cons; [induction gs; cbn; lia|]. induction Hz; cbn; lia. }
  assert (Hrange : Forall (fun g => 0 <= g < Z.of_nat (Z.to_nat G))%Z gidx).
  { apply Forall_forall. intros z Hz. rewrite Forall_forall in Hpos. specialize (Hpos z Hz). specialize (Hmax z Hz). lia. }
  assert (HG : (0 < G)%Z) by (rewrite Forall_forall in Hpos; assert (Hz0 : z0 ∈ gidx) by (rewrite Eg; by left); specialize (Hpos z0 Hz0); specialize (Hmax z0 Hz0); lia).
  rewrite (proj2 (Z.eqb_neq _ _)), (proj2 (Z.ltb_ge _ _)) by lia. set (n := Z.to_nat G) in *.
  destruct (index_add_ok n gidx (replicate (length scores) 1%Q) Hrange) as (count & Ec & Hcl & Hc); [by rewrite length_replicate|].
  destruct (index_add_ok n gidx scores Hrange Hl) as (s1 & Es & Hsl & Hs). rewrite Hl in Ec. rewrite Ec. cbn [mbind result_bind]. rewrite Es. cbn [mbind result_bind].
  set (mean0 := zip_with (fun s c => s / clamp_min c 1)%Q s1 count). assert (Hm0l : length mean0 = n) by (unfold mean0; rewrite length_zip_with; lia).
  rewrite (gather_groups_ok mean0 gidx (fun g => mean0 !!! g)); [|by rewrite Hm0l|intros g Hg; by apply list_lookup_lookup_total_lt]. cbn [mbind result_bind].
  set (sq := (fun x => x * x)%Q <$> zip_with Qminus scores ((fun g => mean0 !!! Z.to_nat g) <$> gidx)).
  destruct (index_add_ok n gidx sq Hrange) as (var_num & Ev & Hvl & Hv); [unfold sq; rewrite length_fmap, length_zip_with, length_fmap; lia|]. rewrite Ev. cbn [mbind result_bind].
  eexists _, _, _. split; [done|]. split; [rewrite !length_zip_with, !length_fmap, length_zip_with; lia|]. split; [by rewrite length_zip_with, length_fmap, Hcl, Hm0l, Nat.min_id|].
  intros z Hz. assert (Hzr : (0 <= z)%Z /\ Z.to_nat z < n) by (rewrite Forall_forall in Hrange; specialize (Hrange z Hz); lia). destruct Hzr as [Hz0 Hzn].
  destruct (Hc _ Hzn) as (c & Hca & Hcv). destruct (Hs _ Hzn) as (s & Hsa & Hsv). destruct (Hv _ Hzn) as (v & Hva & Hvv). rewrite Z2Nat.id in Hcv, Hsv, Hvv by done.
  rewrite (members_ones _ _ _ Hl) in Hcv. unfold sq in Hvv. rewrite members_fmap, (members_zip Qminus (fun g => mean0 !!! Z.to_nat g)), <-list_fmap_compose in Hvv.
  pose proof (members_some gidx scores z Hl Hz) as Hsome. set (g := members gidx scores z) in *.
  assert (Hm0 : mean0 !! Z.to_nat z = Some (s / clamp_min c 1)%Q) by (unfold mean0; by rewrite lookup_zip_with, Hsa, Hca).
  assert (Hsingle : Qle_bool c 1 = (length g =? 1)) by (rewrite Hcv; apply count_one; by destruct g).
  assert (Hmean : (s / clamp_min c 1 == mean g)%Q).
  { unfold mean, clamp_min. rewrite Hsv, Hcv. rewrite Qmax_l_eq; [done|]. change 1%Q with (Q_of_nat 1). apply Q_of_nat_ge. destruct g; [done|cbn; lia]. }
  rewrite (list_lookup_total_correct _ _ _ Hm0) in Hvv.
  split.
  - erewrite list_lookup_total_correct; [|rewrite lookup_zip_with, list_lookup_fmap, Hca, Hm0; done]. rewrite Hsingle. destruct g as [|x [|y g']]; [done..|]. cbn [length Nat.eqb stats fst]. exact Hmean.
  - erewrite list_lookup_total_correct; [|rewrite lookup_zip_with, !list_lookup_fmap, lookup_zip_with, Hca, Hva; done]. rewrite Hsingle. destruct g as [|x [|y g']] eqn:Eg'; [done..|]. cbn [length Nat.eqb stats snd].
    rewrite <-Eg' in *. apply (variance_ok g (s / clamp_min c 1) v c); [rewrite Eg'; cbn; lia|exact Hmean|exact Hvv|exact Hcv].
Qed.

Lemma broadcast_proper s s' mask : Qeql s s' -> Qeqm (broadcast s mask) (broadcast s' mask).
Proof using.
  intros H. revert mask. induction H as [|x y s s' Hx Hs IH]; intros [|row mask]; try done; cbn; constructor; [|apply IH]. apply Qeql_fmap. intros m _. by rewrite Hx.
Qed.

Lemma imap_Qeql (f g : nat -> Q -> Q) l : (forall i x, l !! i = Some x -> (f i x == g i x)%Q) -> Qeql (imap f l) (imap g l).
Proof using.
  intros H. apply Qeql_lookup. split; [by rewrite !length_imap|]. intros i x y. rewrite !list_lookup_imap. destruct (l !! i) as [z|] eqn:Ez; [|done]. intros [= <-] [= <-]. by apply H.
Qed.

Lemma zip_with_imap {A B C} (f : A -> B -> C) (g : nat -> A -> B) l : zip_with f l (imap g l) = imap (fun i x => f x (g i x)) l.
Proof using. revert g. induction l as [|x l IH]; intros g; [done|]. rewrite !imap_cons. cbn [zip_with]. f_equal. apply IH. Qed.

Lemma fmap_as_imap {A B C} `{Inhabited A} (k : list A) (l : list B) (f : A -> C) : length k = length l -> f <$> k = imap (fun i _ => f (k !!! i)) l.
Proof using.
  revert l. induction k as [|x k IH]; intros [|y l] Hl; try done. rewrite fmap_cons, imap_cons. f_equal. apply IH. by injection Hl.
Qed.

Lemma members_inverse {A} index (l : list A) i id : index !! i = Some id -> members index l id = members (unique_inverse index) l (unique_inverse index !!! i).
Proof using TorchMathLaws0.
  intros Hi. destruct (lookup_lt_is_Some_2 (unique_inverse index) i) as [z Hz]; [rewrite inverse_length; by eapply lookup_lt_Some|].
  apply members_relabel; [by rewrite inverse_length|]. intros j a b Ha Hb. rewrite (list_lookup_total_correct _ _ _ Hz). pose proof (inverse_eq index j i a id b z Ha Hi Hb Hz). tauto.
Qed.

Lemma members_of_nat {A} (inv : list nat) (l : list A) n : members (Z.of_nat <$> inv) l (Z.of_nat n) = members inv l n.
Proof using.
  symmetry. apply members_relabel; [by rewrite length_fmap|]. intros j a b Ha Hb. rewrite list_lookup_fmap, Ha in Hb. injection Hb as <-. lia.
Qed.

Lemma grpo_scalar_proper (norm : bool) epsilon g m d s : (m == (stats g).1)%Q -> (d == (stats g).2)%Q -> ((if norm then (s - m) / (d + epsilon) else s - m) == grpo_scalar norm epsilon g s)%Q.
Proof using. intros Hm Hd. unfold grpo_scalar. destruct norm; by rewrite Hm, ?Hd. Qed.

Lemma grpo_vectorized_ok rewards mask index epsilon norm : length rewards = length index -> astype_int64 index = None ->
  let S := sum_rows rewards in
  exists A, compute_grpo_vectorized_outcome_advantage rewards mask index epsilon norm = Ok (A, A) /\
    Qeqm A (broadcast (imap (fun i s => grpo_scalar norm epsilon (members index S (index !!! i)) s) S) mask).
Proof using TorchMathLaws0.
  intros Hl Ha S. assert (HSl : length S = length index) by (unfold S, sum_rows; by rewrite length_fmap). unfold compute_grpo_vectorized_outcome_advantage, as_torch_index. fold S. rewrite Ha.
  set (gidx := Z.of_nat <$> unique_inverse index). assert (Hg : length gidx = length index) by (unfold gidx; by rewrite length_fmap, inverse_length).
  destruct (decide (index = [])) as [->|Hne].
  { destruct S; [|done]. destruct gidx; [|done]. cbn [group_mean_std length Nat.eqb negb mbind result_bind Z.eqb gather_groups mapM_ok zip_with]. eexists. split; [by destruct norm|]. destruct norm; reflexivity. }
  destruct (group_mean_std_ok S gidx) as (means & stds & count & E1 & Hms & Hrange & Hstats); [by intros ->; destruct index|apply Forall_fmap, Forall_forall; intros x _; cbn; lia|lia|].
  rewrite E1. cbn [mbind result_bind]. rewrite (gather_groups_ok means gidx (fun g => means !!! g)); [|done|intros; by apply list_lookup_lookup_total_lt]. cbn [mbind result_bind].
  rewrite (gather_groups_ok stds gidx (fun g => stds !!! g)); [|by rewrite <-Hms|intros; by apply list_lookup_lookup_total_lt]. cbn [mbind result_bind]. eexists. split; [done|]. apply broadcast_proper.
  assert (Hz : forall i x, S !! i = Some x -> exists z, gidx !! i = Some z /\ z ∈ gidx /\ members gidx S z = members index S (index !!! i)).
  { intros i x Hx. destruct (lookup_lt_is_Some_2 index i) as [id Hi]; [apply lookup_lt_Some in Hx; lia|]. rewrite (list_lookup_total_correct _ _ _ Hi), (members_inverse index S i id Hi).
    destruct (lookup_lt_is_Some_2 (unique_inverse index) i) as [n Hn]; [rewrite inverse_length; apply lookup_lt_Some in Hi; lia|]. rewrite (list_lookup_total_correct _ _ _ Hn).
    assert (Hgi : gidx !! i = Some (Z.of_nat n)) by (unfold gidx; by rewrite list_lookup_fmap, Hn). exists (Z.of_nat n). split; [done|]. split; [by eapply list_elem_of_lookup_2|]. apply members_of_nat. }
  rewrite !(fmap_as_imap gidx S) by lia. rewrite (zip_with_imap Qminus).
  assert (Hfin : forall i x, S !! i = Some x -> ((if norm then (x - means !!! Z.to_nat (gidx !!! i)) / (stds !!! Z.to_nat (gidx !!! i) + epsilon) else x - means !!! Z.to_nat (gidx !!! i))
      == grpo_scalar norm epsilon (members index S (index !!! i)) x)%Q).
  { intros i x Hx. destruct (Hz i x Hx) as (z & Hzi & Hin & Hmem). rewrite (list_lookup_total_correct _ _ _ Hzi). destruct (Hstats z Hin) as [H1 H2]. rewrite Hmem in H1, H2. by apply grpo_scalar_proper. }
  destruct norm; [|by apply imap_Qeql].
  apply Qeql_lookup. split; [by rewrite length_zip_with, !length_imap, Nat.min_id|]. intros i x y. rewrite lookup_zip_with, !list_lookup_imap. destruct (S !! i) as [s|] eqn:Es; [|done]. cbn. intros [= <-] [= <-]. by apply Hfin.
Qed.

(** ** RLOO *)

Definition rloo_scalar (g : list Q) (s : Q) : Q :=
  let n := Q_of_nat (length g) in
  if 1 <? length g then (s * n / (n - 1) - mean g * n / (n - 1))%Q else s.

Lemma rloo_ok rewards mask index : length rewards <= length index ->
  let S := sum_rows rewards in
  let A := broadcast (imap (fun i s => rloo_scalar (members index S (index !!! i)) s) S) mask in
  compute_rloo_outcome_advantage rewards mask index = Ok (A, A).
Proof using TM.
  intros Hl S A. unfold compute_rloo_outcome_advantage. fold S. assert (HSl : length S <= length index) by (unfold S, sum_rows; by rewrite length_fmap).
  rewrite (collect_groups_ok _ _ HSl). fold (groups index S). cbn [mbind result_bind].
  assert (Hm : forall m, m <> [] -> group_mean m = Ok (stats m).1) by (by intros [|x [|y m]]).
  assert (Hv : for_groups group_mean (groups index S) = Ok (prod_map Datatypes.id (fun g => (stats g).1) <$> groups index S)) by (apply for_groups_ok; intros id m [_ Hne]%groups_elem; by apply Hm).
  rewrite Hv. cbn [mbind result_bind]. rewrite (map_scores_ok _ (fun i s => rloo_scalar (members index S (index !!! i)) s)); [done|].
  intros i x Hx. destruct (lookup_lt_is_Some_2 index i) as [id Hi]; [apply lookup_lt_Some in Hx; lia|]. rewrite (list_lookup_total_correct _ _ _ Hi).
  destruct (get_group_ok group_mean (fun g => (stats g).1) index S i id x Hm Hi Hx) as (d & Hd & Hg). rewrite Hv in Hd. injection Hd as <-.
  assert (Hgrp : get_group (groups index S) index i = Ok (members index S id)).
  { unfold get_group. rewrite (proj2 (np_get_ok _ _ _) Hi). cbn [mbind result_bind]. rewrite groups_get. destruct (members index S id) as [|y m] eqn:Em; [|done].
    exfalso. assert (Hin : x ∈ members index S id) by (apply members_elem; by exists i). rewrite Em in Hin. by apply elem_of_nil in Hin. }
  rewrite Hgrp. cbn [mbind result_bind]. rewrite Hg. cbn [mbind result_bind]. unfold rloo_scalar. destruct (members index S id) as [|y [|z m]]; done.
Qed.

Lemma group_size_Q (g : list Q) : 2 <= length g -> (2 <= Q_of_nat (length g))%Q.
Proof using. intros Hg. exact (Q_of_nat_ge _ 2 Hg). Qed.

(** The mean of the other responses is the baseline. *)
Lemma rloo_leave_one_out g s : 2 <= length g -> (rloo_scalar g s == s - (qsum g - s) / (Q_of_nat (length g) - 1))%Q.
Proof using.
  intros Hg. pose proof (group_size_Q g Hg) as H2. unfold rloo_scalar. rewrite (proj2 (Nat.ltb_lt _ _)) by lia. pose proof (mean_sum g ltac:(intros ->; cbn in Hg; lia)) as Hm. rewrite <-Hm. field. lra.
Qed.

Lemma rloo_sum_zero g : 2 <= length g -> (qsum (rloo_scalar g <$> g) == 0)%Q.
Proof using.
  intros Hg. pose proof (group_size_Q g Hg) as H2. set (n := Q_of_nat (length g)) in *. pose proof (mean_sum g ltac:(intros ->; cbn in Hg; lia)) as Hm. fold n in Hm.
  rewrite (qsum_proper _ ((fun x => x * (n / (n - 1)))%Q <$> ((fun x => x - mean g)%Q <$> g))).
  - rewrite qsum_scale_r, qsum_sub_const. unfold Q_of_nat in n. fold n. rewrite Hm. ring.
  - rewrite <-list_fmap_compose. apply Qeql_fmap. intros x _. unfold rloo_scalar. rewrite (proj2 (Nat.ltb_lt _ _)) by lia. fold n. cbn. field. lra.
Qed.

Lemma bincount_from (w : list Q) (inv : list nat) acc : length w = length inv -> Forall (fun g => g < length acc) inv ->
  length (foldl (fun acc '(g, w) => alter (Qplus w) g acc) acc (zip inv w)) = length acc /\
  forall g a, acc !! g = Some a -> exists b, foldl (fun acc '(g, w) => alter (Qplus w) g acc) acc (zip inv w) !! g = Some b /\ (b == a + qsum (members inv w g))%Q.
Proof using.
  revert w acc. induction inv as [|z inv IH]; intros [|x w] acc Hl Hall; try done.
  - split; [done|]. intros g a Ha. exists a. split; [done|]. unfold members. cbn. ring.
  - apply Forall_cons in Hall as [Hz Hall]. cbn [zip zip_with foldl]. destruct (IH w (alter (Qplus x) z acc)) as [Hl' Hat]; [cbn in Hl; lia|by rewrite length_alter|]. rewrite length_alter in Hl'. split; [done|].
    intros g a Ha. rewrite members_cons. destruct (decide (z = g)) as [->|Hne].
    + destruct (Hat g (x + a)%Q) as (b & Hb & Hsum); [by rewrite list_lookup_alter_eq, Ha|]. exists b. split; [done|]. cbn [qsum]. rewrite Hsum. ring.
    + apply Hat. by rewrite list_lookup_alter_ne.
Qed.

Lemma bincount_ok (w : list Q) inv : length w = length inv -> exists f, mapM_ok (np_get (bincount w inv)) inv = Ok (f <$> inv) /\ forall g, g ∈ inv -> (f g == qsum (members inv w g))%Q.
Proof using.
  intros Hl. assert (Hmax : Forall (fun g => g < length (replicate (S (max_list inv)) 0%Q)) inv).
  { rewrite length_replicate. apply Forall_forall. intros g Hg. pose proof (max_list_elem_of_le g inv Hg). lia. }
  destruct (bincount_from w inv (replicate (S (max_list inv)) 0%Q) Hl Hmax) as [Hbl Hat]. fold (bincount w inv) in Hbl, Hat. rewrite length_replicate in Hbl. rewrite Forall_forall in Hmax.
  exists (fun g => bincount w inv !!! g). split.
  - apply mapM_ok_total. intros g Hg. apply np_get_ok, list_lookup_lookup_total_lt. specialize (Hmax g Hg). rewrite length_replicate in Hmax. lia.
  - intros g Hg. destruct (Hat g 0%Q) as (b & Hb & Hs); [apply lookup_replicate_2; specialize (Hmax g Hg); by rewrite length_replicate in Hmax|]. rewrite (list_lookup_total_correct _ _ _ Hb), Hs. ring.
Qed.

#[local] Arguments rloo_scalar : simpl never.

(** A response without a group gets nothing here, its score in the loop. *)
Lemma rloo_vectorized_ok rewards mask index : length rewards = length index ->
  let S := sum_rows rewards in
  exists A, compute_rloo_vectorized_outcome_advantage rewards mask index = Ok (A, A) /\
    Qeqm A (broadcast (imap (fun i s => let g := members index S (index !!! i) in if 1 <? length g then rloo_scalar g s else 0%Q) S) mask).
Proof using TorchMathLaws0.
  intros Hl S. assert (HSl : length S = length index) by (unfold S, sum_rows; by rewrite length_fmap). unfold compute_rloo_vectorized_outcome_advantage. fold S. set (inv := unique_inverse index).
  assert (Hinv : length inv = length index) by apply inverse_length.
  destruct (bincount_ok (replicate (length inv) 1%Q) inv) as (c & Ec & Hc); [by rewrite length_replicate|]. destruct (bincount_ok S inv) as (b & Eb & Hb); [lia|].
  rewrite Ec. cbn [mbind result_bind]. rewrite Eb. cbn [mbind result_bind]. eexists. split; [done|]. apply broadcast_proper. rewrite !(fmap_as_imap inv S) by lia.
  apply Qeql_lookup. split; [rewrite !length_zip_with, !length_imap; lia|]. intros i x y. rewrite !lookup_zip_with, !list_lookup_imap. destruct (S !! i) as [s|] eqn:Es; [|done]. cbn [fmap option_fmap option_map mbind option_bind fst snd]. intros [= <-] [= <-].
  destruct (lookup_lt_is_Some_2 index i) as [id Hi]; [apply lookup_lt_Some in Es; lia|]. rewrite (list_lookup_total_correct _ _ _ Hi). rewrite (members_inverse index S i id Hi). fold inv.
  destruct (lookup_lt_is_Some_2 inv i) as [n Hn]; [apply lookup_lt_Some in Hi; lia|]. rewrite (list_lookup_total_correct _ _ _ Hn). assert (Hin : n ∈ inv) by (by eapply list_elem_of_lookup_2). specialize (Hc n Hin). specialize (Hb n Hin).
  assert (Hcount : (c n == Q_of_nat (length (members inv S n)))%Q).
  { rewrite Hc, <-!members_of_nat. replace (length inv) with (length S) by lia. apply members_ones. rewrite length_fmap. lia. }
  set (g := members inv S n) in *. cbn [fst snd]. destruct (Nat.ltb_spec 1 (length g)) as [Hg|Hg].
  - pose proof (group_size_Q g Hg) as H2. rewrite (rloo_leave_one_out g s Hg), Hb. unfold clamp_min. rewrite (Q.max_l (c n - 1) 1) by (rewrite Hcount; lra).
    assert (Ht : Qgt_bool (c n) 1 = true) by (unfold Qgt_bool; apply negb_true_iff, not_true_iff_false; rewrite Qle_bool_iff, Hcount; lra). rewrite Ht. cbn [Q_of_bool]. rewrite Hcount. field. lra.
  - assert (Ht : Qgt_bool (c n) 1 = false).
    { unfold Qgt_bool. apply negb_false_iff. rewrite Qle_bool_iff, Hcount. change 1%Q with (Q_of_nat 1). by apply Q_of_nat_ge. }
    rewrite Ht. cbn [Q_of_bool]. ring.
Qed.
End Groups.
