(* ===== verification/AdvantageReturns.v ===== *)
(** * Generalized advantage estimation and returns

    The loop of [compute_gae_advantage_return] steps over the tokens that are not the
    model's own: on these it repeats what it has.  What it computes for the model's
    tokens is the textbook estimate for the trajectory without the others. *)

From Stdlib Require Import QArith_base QArith Qminmax Qpower Qfield Lqa.
From S2P Require Import Prelude PyDict Numbers NumPy TorchFunctional Advantages AdvantageGroups GroupAdvantages.

(** The elements that the mask keeps. *)
Fixpoint keep {A} (mask : list Q) (l : list A) : list A :=
  match mask, l with
  | m :: mask, x :: l => if Qeq_bool m 0 then keep mask l else x :: keep mask l
  | _, _ => []
  end.

Definition binary (mask : list Q) : Prop := Forall (fun m => m = 0%Q \/ m = 1%Q) mask.

(** ** The textbook *)

(** Temporal-difference errors and their discounted sums, for a trajectory of rewards
    and values; after the end the value is 0. *)
Definition td_error (gamma : Q) (tr : list (Q * Q)) (k : nat) : Q :=
  ((tr !!! k).1 + gamma * default 0 (snd <$> tr !! S k) - (tr !!! k).2)%Q.

Definition gae_at (gamma lam : Q) (tr : list (Q * Q)) (k : nat) : Q :=
  qsum ((fun l => (gamma * lam) ^ Z.of_nat l * td_error gamma tr (k + l))%Q <$> seq 0 (length tr - k)).

(** The sum of the discounted rewards from [k] on. *)
Definition discounted (gamma : Q) (rewards : list Q) (k : nat) : Q :=
  qsum ((fun l => gamma ^ Z.of_nat l * rewards !!! (k + l)%nat)%Q <$> seq 0 (length rewards - k)).

Lemma Qpower_S x n : (x ^ Z.of_nat (S n) == x * x ^ Z.of_nat n)%Q.
Proof. rewrite Nat2Z.inj_succ. unfold Z.succ. destruct n as [|n]; [symmetry; apply Qmult_1_r|]. rewrite Qpower_plus'; [|lia]. change (x ^ 1)%Q with x. apply Qmult_comm. Qed.

(** A sum of discounted terms, by its first term. *)
Lemma discounted_sum x (f : nat -> Q) n : (qsum ((fun l => x ^ Z.of_nat l * f l)%Q <$> seq 0 (S n)) == f 0%nat + x * qsum ((fun l => x ^ Z.of_nat l * f (S l))%Q <$> seq 0 n))%Q.
Proof.
  rewrite <-cons_seq, fmap_cons, <-fmap_S_seq, <-list_fmap_compose. cbn [qsum]. rewrite <-(Qmult_1_l (f 0)) at 2. apply Qplus_comp; [reflexivity|].
  rewrite Qmult_comm, <-qsum_scale_r, <-list_fmap_compose. apply qsum_proper, Qeql_fmap. intros l _. cbn [compose]. rewrite Qpower_S. ring.
Qed.

Section GAE.
Context (gamma lam : Q).

Fixpoint gae_rec (tr : list (Q * Q)) : list Q :=
  match tr with
  | [] => []
  | (r, v) :: tr => (r + gamma * default 0 (snd <$> head tr) - v + gamma * lam * default 0 (head (gae_rec tr)))%Q :: gae_rec tr
  end.

Lemma gae_at_cons r v tr : (gae_at gamma lam ((r, v) :: tr) 0 == r + gamma * default 0 (snd <$> head tr) - v + gamma * lam * default 0 (head (gae_at gamma lam tr <$> seq 0 (length tr))))%Q.
Proof.
  unfold gae_at at 1. rewrite Nat.sub_0_r. cbn [length]. rewrite (discounted_sum _ (fun l => td_error gamma ((r, v) :: tr) (0 + l))). apply Qplus_comp; [by destruct tr|].
  destruct tr as [|p tr]; [cbn; ring|]. apply Qmult_comp; [done|]. reflexivity.
Qed.

Lemma gae_at_S r v tr k : gae_at gamma lam ((r, v) :: tr) (S k) = gae_at gamma lam tr k.
Proof. done. Qed.

Lemma gae_rec_ok tr : Qeql (gae_rec tr) (gae_at gamma lam tr <$> seq 0 (length tr)).
Proof.
  induction tr as [|[r v] tr IH]; [constructor|]. cbn [gae_rec length]. rewrite <-cons_seq, fmap_cons, <-fmap_S_seq, <-list_fmap_compose. constructor; [|exact IH].
  rewrite gae_at_cons. apply Qplus_comp; [done|]. apply Qmult_comp; [done|]. destruct IH; done.
Qed.

(** What the loop carries from one token to the one before. *)
Lemma gae_loop_ok rewards values mask : binary mask -> length rewards = length mask -> length values = length mask ->
  let '(nextvalues, lastgaelam, advantages) := foldr (gae_step gamma lam) (0%Q, 0%Q, []) (zip (zip rewards values) mask) in
  let tr := keep mask (zip rewards values) in
  (nextvalues == default 0 (snd <$> head tr))%Q /\ (lastgaelam == default 0 (head (gae_rec tr)))%Q /\ length advantages = length mask /\ Qeql (keep mask advantages) (gae_rec tr).
Proof.
  intros Hm. revert rewards values. induction Hm as [|m mask Hm1 Hm IH]; intros [|r rewards] [|v values] Hr Hv; try done. cbn [zip zip_with foldr].
  specialize (IH rewards values ltac:(cbn in Hr; lia) ltac:(cbn in Hv; lia)). destruct (foldr _ _ _) as [[nv lg] advs]. destruct IH as (IH1 & IH2 & IH3 & IH4). cbn [gae_step].
  destruct Hm1 as [->| ->].
  - change (Qeq_bool 0 0) with true. cbn [keep]. change (Qeq_bool 0 0) with true. cbn [length]. split; [rewrite <-IH1; ring|]. split; [rewrite <-IH2; ring|]. by split; [f_equal|].
  - cbn [keep]. change (Qeq_bool 1 0) with false. cbn [gae_rec head fmap option_fmap option_map snd default from_option Datatypes.id length]. split; [ring|]. split; [rewrite <-IH1, <-IH2; ring|]. split; [by f_equal|].
    constructor; [rewrite <-IH1, <-IH2; ring|done].
Qed.

Lemma gae_row_ok rewards values mask : binary mask -> length rewards = length mask -> length values = length mask ->
  let tr := keep mask (zip rewards values) in
  length (gae_row gamma lam rewards values mask) = length mask /\ Qeql (keep mask (gae_row gamma lam rewards values mask)) (gae_at gamma lam tr <$> seq 0 (length tr)).
Proof.
  intros Hm Hr Hv tr. pose proof (gae_loop_ok rewards values mask Hm Hr Hv) as H. unfold gae_row. destruct (foldr _ _ _) as [[nv lg] advs]. destruct H as (_ & _ & Hl & Hk). split; [done|]. cbn [snd]. etransitivity; [exact Hk|]. apply gae_rec_ok.
Qed.
End GAE.

(** ** Whitening *)

Lemma binary_sum mask : Forall binary mask -> exists n, (qsum (sum_rows mask) == Q_of_nat n)%Q.
Proof.
  assert (Hrow : forall row, binary row -> exists n, (qsum row == Q_of_nat n)%Q).
  { induction 1 as [|m row [->| ->] _ [n IH]]; [by exists 0|exists n|exists (S n)]; cbn [qsum]; rewrite IH, ?Q_of_nat_S; lra. }
  induction 1 as [|row mask Hr _ [n IH]]; [by exists 0|]. destruct (Hrow row Hr) as [k Hk]. exists (k + n). unfold sum_rows. rewrite fmap_cons. cbn [qsum]. fold (sum_rows mask). rewrite Hk, IH.
  unfold Q_of_nat. by rewrite Nat2Z.inj_add, inject_Z_plus.
Qed.

Lemma masked_sum_nonneg values mask : Forall binary mask -> Forall (Forall (fun v => 0 <= v)%Q) values -> (0 <= masked_sum values mask)%Q.
Proof.
  intros Hm Hv. apply qsum_nonneg. revert values Hv. induction Hm as [|mr mask Hmr _ IH]; intros values Hv; [rewrite zip_with_nil_r; constructor|]. destruct Hv as [|vr values Hvr Hv]; [constructor|]. cbn. constructor; [|by apply IH].
  unfold masked_row_sum. apply qsum_nonneg. revert vr Hvr. induction Hmr as [|m mr Hm1 _ IHr]; intros vr Hvr; [rewrite zip_with_nil_r; constructor|]. destruct Hvr as [|v vr Hv1 Hvr]; [constructor|]. cbn. constructor; [|by apply IHr].
  destruct Hm1 as [->| ->]; [rewrite Qmult_0_r; lra|]. change (Qeq_bool 1 0) with false. by rewrite Qmult_1_r.
Qed.

Definition whitened (values mask : matrix) (c : Q) : matrix := fmap (M := list) (fmap (M := list) (fun v => (v - masked_mean values mask) * c)%Q) values.

Definition few_tokens (mask : matrix) : bool := Qeq_bool (qsum (sum_rows mask)) 0 || Qeq_bool (qsum (sum_rows mask)) 1.

(** Nothing but a shift and a positive factor. *)
Lemma masked_whiten_ok `{TM : TorchMath} `{!TorchMathLaws TM} values mask : Forall binary mask ->
  if few_tokens mask then masked_whiten values mask = Err ValueError
  else exists c, (0 < c)%Q /\ masked_whiten values mask = Ok (whitened values mask c).
Proof.
  intros Hm. destruct (binary_sum mask Hm) as [n Hn]. unfold few_tokens, masked_whiten, masked_var. destruct (Qeq_bool _ 0) eqn:E0; [done|]. destruct (Qeq_bool _ 1) eqn:E1; [done|]. cbn [orb mbind result_bind].
  eexists. split; [|done]. apply rsqrt_pos. rewrite Hn. apply Qeq_bool_neq in E0, E1. rewrite Hn in E0, E1.
  assert (H2 : (2 <= Q_of_nat n)%Q). { destruct n as [|[|n]]; [by destruct E0|by destruct E1|]. apply (Q_of_nat_ge _ 2). lia. }
  assert (Hmean : forall v, Forall (Forall (fun v => 0 <= v)%Q) v -> (0 <= masked_mean v mask)%Q).
  { intros v Hv. unfold masked_mean. apply Qle_shift_div_l; [rewrite Hn; unfold tiny; lra|]. rewrite Qmult_0_l. by apply masked_sum_nonneg. }
  assert (Hsq : (0 <= masked_mean (fmap (M := list) (fmap (M := list) (fun v => v * v)%Q) (fmap (M := list) (fmap (M := list) (fun v => v - masked_mean values mask)%Q) values)) mask)%Q).
  { apply Hmean, Forall_fmap, Forall_forall. intros row _. cbn. apply Forall_fmap, Forall_forall. intros x _. cbn. nra. }
  assert (Hfac : (0 <= Q_of_nat n / (Q_of_nat n - 1))%Q) by (apply Qle_shift_div_l; lra). unfold tiny.
  pose proof (Qmult_le_0_compat _ _ Hsq Hfac). lra.
Qed.

(** ** Discounted returns *)

Lemma rfpp_padding gamma rewards k : length rewards = k -> ((foldr (rfpp_step gamma) (0%Q, []) (zip rewards (replicate k 0%Q))).1 == 0)%Q.
Proof.
  intros <-. induction rewards as [|r rewards IH]; [done|]. cbn [length replicate zip zip_with foldr]. destruct (foldr _ _ _) as [run rets]. cbn [rfpp_step fst]. ring.
Qed.

Lemma rfpp_row_ok gamma rewards n k : length rewards = n + k ->
  let row := rfpp_row gamma rewards (replicate n 1%Q ++ replicate k 0%Q) in
  length row = n + k /\ Qeql (take n row) (discounted gamma (take n rewards) <$> seq 0 n).
Proof.
  intros Hl. unfold rfpp_row. cbv zeta.
  assert (H : let res := foldr (rfpp_step gamma) (0%Q, []) (zip rewards (replicate n 1%Q ++ replicate k 0%Q)) in
    (res.1 == if n is S _ then discounted gamma (take n rewards) 0 else 0)%Q /\ length res.2 = n + k /\ Qeql (take n res.2) (discounted gamma (take n rewards) <$> seq 0 n)).
  { revert rewards Hl. induction n as [|n IH]; intros rewards Hl.
    - cbn [replicate app]. split; [by apply rfpp_padding|]. split; [|constructor]. cbn in Hl. subst k. induction rewards as [|r rewards IH]; [done|]. cbn [length replicate zip zip_with foldr]. destruct (foldr _ _ _) as [run rets]. cbn in *. by f_equal.
    - destruct rewards as [|r rewards]; [done|]. cbn [replicate app zip zip_with foldr]. specialize (IH rewards ltac:(cbn in Hl; lia)). cbv zeta in IH. destruct (foldr _ _ _) as [run rets]. cbn [fst snd] in IH. destruct IH as (IH1 & IH2 & IH3).
      assert (Hfirst : (r + gamma * run == discounted gamma (r :: take n rewards) 0)%Q).
      { unfold discounted. cbn [length]. rewrite Nat.sub_0_r, (discounted_sum gamma (fun l => (r :: take n rewards) !!! (0 + l)%nat)). apply Qplus_comp; [done|]. apply Qmult_comp; [done|]. rewrite IH1. destruct n; [done|]. unfold discounted. by rewrite Nat.sub_0_r. }
      cbn [rfpp_step fst snd length]. change (take (S n) (r :: rewards)) with (r :: take n rewards). split; [rewrite Hfirst; ring|]. split; [lia|]. change (take (S n) ((r + gamma * run)%Q :: rets)) with ((r + gamma * run)%Q :: take n rets).
      rewrite <-cons_seq, fmap_cons, <-fmap_S_seq, <-list_fmap_compose. constructor; [exact Hfirst|exact IH3]. }
  destruct H as (_ & H2 & H3). by split.
Qed.

Lemma reverse_cumsum_ok l k : k < length l -> exists x, reverse_cumsum l !! k = Some x /\ (x == qsum (drop k l))%Q.
Proof.
  revert k. induction l as [|x l IH]; intros k Hk; [cbn in Hk; lia|]. unfold reverse_cumsum in *. cbn [foldr]. destruct k as [|k].
  - eexists. split; [done|]. rewrite drop_0. cbn [qsum]. apply Qplus_comp; [done|]. destruct l as [|y l]; [done|]. destruct (IH 0 ltac:(cbn; lia)) as (z & Hz & Ez). rewrite drop_0 in Ez. destruct (foldr _ _ _); [done|]. injection Hz as ->. exact Ez.
  - cbn in Hk. by apply IH; lia.
Qed.
