(* ===== verification/PolicyLoss.v ===== *)
(** * Losses

    The losses of [verl/trainer/ppo/core_algos.py]: what a token contributes, and how
    a batch that is spread over ranks is aggregated; the KL penalty and its
    controllers, and [apply_kl_penalty] of [verl/trainer/ppo/ray_trainer.py]. *)

From Stdlib Require Import QArith_base QArith Qminmax Qabs Ascii.
From S2P Require Import Prelude PyDict Numbers NumPy TorchFunctional.

Section PolicyLoss.
Context `{TM : TorchMath}.

(** ** Aggregation *)

(** The keyword arguments of [agg_loss] that the trainer sets for a whole batch. *)
Record BatchInfo := {
  dp_size : nat;
  batch_num_tokens : option Q;
  global_batch_size : option Q;
  loss_scale_factor : option Q;
}.

(** The value for the whole batch, or that of this rank if there is no other. *)
Definition global_count (info : BatchInfo) (given : option Q) (own : Q) : result Q :=
  match given with
  | Some n => Ok n
  | None => if 1 <? dp_size info then Err ValueError else Ok own
  end.

Definition row_loss (loss mask : list Q) : Q := qsum (zip_with Qmult loss mask).

Definition seq_mean (info : BatchInfo) (seq_losses counts : list Q) : result float :=
  let seq_mask := (fun n => Q_of_bool (Qgt_bool n 0)) <$> counts in
  size ← global_count info (global_batch_size info) (qsum seq_mask);
  Ok (fscale (Q_of_nat (dp_size info)) (fdiv (Fin (masked_row_sum seq_losses seq_mask)) size)).

Definition agg_loss (loss_mat loss_mask : matrix) (loss_agg_mode : string) (info : BatchInfo) : result float :=
  if bool_decide (loss_agg_mode = "token-mean"%string) then
    n ← global_count info (batch_num_tokens info) (qsum (sum_rows loss_mask));
    Ok (fscale (Q_of_nat (dp_size info)) (fdiv (Fin (masked_sum loss_mat loss_mask)) n))
  else if bool_decide (loss_agg_mode = "seq-mean-token-sum"%string \/ loss_agg_mode = "seq-mean-token-sum-norm"%string) then
    loss ← seq_mean info (zip_with row_loss loss_mat loss_mask) (sum_rows loss_mask);
    if bool_decide (loss_agg_mode = "seq-mean-token-sum-norm"%string) then
      let horizon := Q_of_nat (default 0 (length <$> head loss_mask)) in
      Ok (fdiv loss (default horizon (loss_scale_factor info)))
    else Ok loss
  else if bool_decide (loss_agg_mode = "seq-mean-token-mean"%string) then
    seq_mean info (zip_with (fun l m => row_loss l m / (qsum m + tiny))%Q loss_mat loss_mask) (sum_rows loss_mask)
  else Err ValueError.

(** ** Policy losses *)

Record ActorConfig := {
  clip_ratio : Q;
  clip_ratio_low : option Q;
  clip_ratio_high : option Q;
  clip_ratio_c : option Q;
  tau_pos : Q;
  tau_neg : Q;
  global_batch_info : BatchInfo;
}.

Definition cliprange_low (c : ActorConfig) : Q := default (clip_ratio c) (clip_ratio_low c).
Definition cliprange_high (c : ActorConfig) : Q := default (clip_ratio c) (clip_ratio_high c).

Record PolicyMetrics := { pg_clipfrac : Q; ppo_kl : Q; pg_clipfrac_lower : Q }.

(** [negative_approx_kl], clamped for stability *)
Definition approx_kl (log_prob old_log_prob : matrix) : matrix := mzip (fun l o => clamp (-20) 20 (l - o)) log_prob old_log_prob.

Definition negate : matrix -> matrix := fmap (M := list) (fmap (M := list) Qopp).

Definition with_weights (weights : option matrix) (losses : matrix) : matrix := default losses (fmap (M := option) (mzip Qmult losses) weights).

(** One token: the clipped losses, and the second clip for a negative advantage. *)
Definition pg_loss1 (advantage ratio : Q) : Q := (- advantage * ratio)%Q.
Definition pg_loss2 (c : ActorConfig) (advantage ratio : Q) : Q := (- advantage * clamp (1 - cliprange_low c) (1 + cliprange_high c) ratio)%Q.
Definition clip_pg_loss1 (c : ActorConfig) (advantage ratio : Q) : Q := Qmax (pg_loss1 advantage ratio) (pg_loss2 c advantage ratio).
Definition pg_loss3 (clip_c advantage : Q) : Q := (- advantage * clip_c)%Q.
Definition vanilla_token (c : ActorConfig) (clip_c advantage ratio : Q) : Q :=
  if Qgt_bool 0 advantage then Qmin (pg_loss3 clip_c advantage) (clip_pg_loss1 c advantage ratio) else clip_pg_loss1 c advantage ratio.

Definition compute_policy_loss_vanilla (old_log_prob log_prob advantages response_mask : matrix) (loss_agg_mode : string) (c : ActorConfig) (weights : option matrix) :
    result (float * PolicyMetrics) :=
  let clip_c := default 3%Q (clip_ratio_c c) in
  _ ← py_assert (Qgt_bool clip_c 1);
  let kl := approx_kl log_prob old_log_prob in
  let ratio := fmap (M := list) (fmap (M := list) exp_) kl in
  let losses := with_weights weights (mzip (vanilla_token c clip_c) advantages ratio) in
  loss ← agg_loss losses response_mask loss_agg_mode (global_batch_info c);
  Ok (loss, {| pg_clipfrac := masked_mean (mzip (fun a r => Q_of_bool (Qgt_bool (pg_loss2 c a r) (pg_loss1 a r))) advantages ratio) response_mask;
               ppo_kl := masked_mean (negate kl) response_mask;
               pg_clipfrac_lower := masked_mean (mzip (fun a r => (Q_of_bool (Qgt_bool (clip_pg_loss1 c a r) (pg_loss3 clip_c a)) * Q_of_bool (Qgt_bool 0 a))%Q) advantages ratio) response_mask |}).

(** GSPO: one ratio for a sequence. *)
Definition seq_kl (log_prob old_log_prob mask : list Q) : Q := (row_loss (zip_with Qminus log_prob old_log_prob) mask / clamp_min (qsum mask) 1)%Q.
Definition gspo_ratio (kl_seq log_prob : Q) : Q := exp_ (Qmin (log_prob - log_prob + kl_seq) 10).

Definition compute_policy_loss_gspo (old_log_prob log_prob advantages response_mask : matrix) (c : ActorConfig) (weights : option matrix) : result (float * PolicyMetrics) :=
  let kl_seq := zip_with (fun lo m => seq_kl lo.1 lo.2 m) (zip log_prob old_log_prob) response_mask in
  let ratio := zip_with (fun s row => gspo_ratio s <$> row) kl_seq log_prob in
  let losses := with_weights weights (mzip (clip_pg_loss1 c) advantages ratio) in
  loss ← agg_loss losses response_mask "seq-mean-token-mean" (global_batch_info c);
  Ok (loss, {| pg_clipfrac := masked_mean (mzip (fun a r => Q_of_bool (Qgt_bool (pg_loss2 c a r) (pg_loss1 a r))) advantages ratio) response_mask;
               ppo_kl := masked_mean (negate (mzip Qminus log_prob old_log_prob)) response_mask; pg_clipfrac_lower := 0 |}).

(** DPPO: tokens outside the trust region contribute nothing. *)
Definition dppo_loss (c : ActorConfig) (valid : matrix) (old_log_prob log_prob advantages response_mask : matrix) (loss_agg_mode : string) (weights : option matrix) :
    result (float * PolicyMetrics) :=
  let kl := approx_kl log_prob old_log_prob in
  let ratio := fmap (M := list) (fmap (M := list) exp_) kl in
  let clip_c := default 20%Q (clip_ratio_c c) in
  let truncated := fmap (M := list) (fmap (M := list) (fun r => Qmin r clip_c)) ratio in
  let losses := with_weights weights (mzip Qmult (mzip Qmult (mzip (fun a r => - a * r)%Q advantages truncated) log_prob) valid) in
  loss ← agg_loss losses response_mask loss_agg_mode (global_batch_info c);
  Ok (loss, {| pg_clipfrac := masked_mean (fmap (M := list) (fmap (M := list) (fun v => 1 - v)%Q) valid) response_mask; ppo_kl := masked_mean (negate kl) response_mask;
               pg_clipfrac_lower := masked_mean (mzip (fun r v => Q_of_bool (Qgt_bool r clip_c) * v)%Q ratio valid) response_mask |}).

Definition tv_valid (c : ActorConfig) (advantage diff : Q) : Q :=
  Q_of_bool (if Qgt_bool advantage 0 then Qle_bool diff (cliprange_high c) else Qle_bool (- cliprange_low c) diff).

Definition compute_policy_loss_dppo_tv (old_log_prob log_prob advantages response_mask : matrix) (loss_agg_mode : string) (c : ActorConfig) (weights : option matrix) : result (float * PolicyMetrics) :=
  let diff := mzip (fun l o => exp_ l - exp_ o)%Q log_prob old_log_prob in
  dppo_loss c (mzip (tv_valid c) advantages diff) old_log_prob log_prob advantages response_mask loss_agg_mode weights.

Definition binary_kl (log_prob old_log_prob : Q) : Q :=
  let prob := exp_ log_prob in
  let old_prob := exp_ old_log_prob in
  (old_prob * (old_log_prob - log_prob) + (1 - old_prob) * log_ ((1 - old_prob + tiny) / (1 - prob + tiny)))%Q.

Definition kl_valid (c : ActorConfig) (advantage : Q) (lp : Q * Q) : Q :=
  let '(l, o) := lp in
  Q_of_bool (if Qgt_bool advantage 0 then Qle_bool (binary_kl l o) (cliprange_high c) || Qle_bool (exp_ l) (exp_ o)
    else Qle_bool (binary_kl l o) (cliprange_low c) || Qle_bool (exp_ o) (exp_ l)).

Definition compute_policy_loss_dppo_kl (old_log_prob log_prob advantages response_mask : matrix) (loss_agg_mode : string) (c : ActorConfig) (weights : option matrix) : result (float * PolicyMetrics) :=
  dppo_loss c (mzip (kl_valid c) advantages (mzip pair log_prob old_log_prob)) old_log_prob log_prob advantages response_mask loss_agg_mode weights.

(** SAPO: a smooth gate instead of a clip. *)
Definition sapo_token (c : ActorConfig) (advantage ratio : Q) : Q :=
  let tau := if Qgt_bool advantage 0 then tau_pos c else tau_neg c in
  (- (sigmoid (tau * (ratio - 1)) * (4 / tau)) * advantage)%Q.

Definition compute_policy_loss_sapo (old_log_prob log_prob advantages response_mask : matrix) (c : ActorConfig) (weights : option matrix) : result (float * PolicyMetrics) :=
  let kl := approx_kl log_prob old_log_prob in
  let losses := with_weights weights (mzip (sapo_token c) advantages (fmap (M := list) (fmap (M := list) exp_) kl)) in
  loss ← agg_loss losses response_mask "seq-mean-token-mean" (global_batch_info c);
  Ok (loss, {| pg_clipfrac := 0; ppo_kl := masked_mean (negate kl) response_mask; pg_clipfrac_lower := 0 |}).

Definition compute_policy_loss_gpg (log_prob advantages response_mask : matrix) (loss_agg_mode : string) (c : ActorConfig) (weights : option matrix) : result float :=
  agg_loss (with_weights weights (mzip (fun l a => - l * a)%Q log_prob advantages)) response_mask loss_agg_mode (global_batch_info c).

(** CISPO: the ratio is a constant weight of the log probability. *)
Definition compute_policy_loss_cispo (old_log_prob log_prob advantages response_mask : matrix) (loss_agg_mode : string) (c : ActorConfig) (weights : option matrix) : result (float * PolicyMetrics) :=
  let kl := approx_kl log_prob old_log_prob in
  let ratio := fmap (M := list) (fmap (M := list) exp_) kl in
  let clipped := fmap (M := list) (fmap (M := list) (clamp (1 - cliprange_low c) (1 + cliprange_high c))) ratio in
  let losses := with_weights weights (mzip Qmult (mzip (fun r a => - r * a)%Q clipped advantages) log_prob) in
  loss ← agg_loss losses response_mask loss_agg_mode (global_batch_info c);
  Ok (loss, {| pg_clipfrac := masked_mean (mzip (fun r k => Q_of_bool (negb (Qeq_bool r k))) ratio clipped) response_mask;
               ppo_kl := masked_mean (negate kl) response_mask; pg_clipfrac_lower := 0 |}).

(** GMPO: the geometric mean of the clipped ratios of a sequence. *)
Definition sgn (x : Q) : Q := if Qgt_bool x 0 then 1%Q else if Qgt_bool 0 x then (-1)%Q else 0%Q.
Definition kl_min (c : ActorConfig) (advantage kl : Q) : Q :=
  (sgn advantage * Qmin (sgn advantage * kl) (sgn advantage * clamp (- cliprange_low c) (cliprange_high c) kl))%Q.

Definition geo_mean_row (c : ActorConfig) (kl advantages mask : list Q) : Q :=
  let ratio := exp_ (row_loss (zip_with (kl_min c) advantages kl) mask / (qsum mask + tiny))%Q in
  let advantage := (row_loss advantages mask / (qsum mask + tiny))%Q in
  (- advantage * ratio)%Q.

Definition seq_is_weight (weights mask : list Q) : Q :=
  exp_ (row_loss ((fun w => log_ (w + (1 # 10000000000)))%Q <$> weights) mask / (qsum mask + tiny))%Q.

Definition compute_policy_loss_geo_mean (old_log_prob log_prob advantages response_mask : matrix) (c : ActorConfig) (weights : option matrix) : float * PolicyMetrics :=
  let kl := mzip Qminus log_prob old_log_prob in
  let losses := zip_with (fun ka m => geo_mean_row c ka.1 ka.2 m) (zip kl advantages) response_mask in
  let losses := match weights with None => losses | Some w => zip_with Qmult losses (zip_with seq_is_weight w response_mask) end in
  let clipped sign := mzip (fun k a => Q_of_bool (negb (Qeq_bool k (clamp (- cliprange_low c) (cliprange_high c) k)) && sign a)) kl advantages in
  (fdiv (Fin (qsum losses)) (Q_of_nat (length losses)),
   {| pg_clipfrac := masked_mean (clipped (fun a => Qgt_bool a 0)) response_mask; ppo_kl := masked_mean (negate kl) response_mask;
      pg_clipfrac_lower := masked_mean (clipped (fun a => Qgt_bool 0 a)) response_mask |}).

(** ** The value loss *)

Definition vf_loss1 (vpred ret : Q) : Q := ((vpred - ret) * (vpred - ret))%Q.
Definition vf_loss2 (cliprange_value vpred ret value : Q) : Q := let p := clip_by_value vpred (value - cliprange_value) (value + cliprange_value) in ((p - ret) * (p - ret))%Q.

Definition compute_value_loss (vpreds returns values response_mask : matrix) (cliprange_value : Q) (loss_agg_mode : string) : result (float * Q) :=
  let losses1 := mzip vf_loss1 vpreds returns in
  let losses2 := mzip (fun pr v => vf_loss2 cliprange_value pr.1 pr.2 v) (mzip pair vpreds returns) values in
  loss ← agg_loss (mzip Qmax losses1 losses2) response_mask loss_agg_mode {| dp_size := 1; batch_num_tokens := None; global_batch_size := None; loss_scale_factor := None |};
  Ok (fscale (1 # 2) loss, masked_mean (mzip (fun l2 l1 => Q_of_bool (Qgt_bool l2 l1)) losses2 losses1) response_mask).

(** ** The KL penalty *)

Definition k3 (logprob ref_logprob : Q) : Q :=
  let kl := clamp (-20) 20 (ref_logprob - logprob) in
  clamp (-10) 10 (exp_ kl - kl - 1).

Definition kl_penalty_forward (logprob ref_logprob : Q) (kl_penalty : string) : result Q :=
  if bool_decide (kl_penalty = "kl" \/ kl_penalty = "k1")%string then Ok (logprob - ref_logprob)%Q
  else if bool_decide (kl_penalty = "abs")%string then Ok (Qabs (logprob - ref_logprob))
  else if bool_decide (kl_penalty = "mse" \/ kl_penalty = "k2")%string then Ok ((1 # 2) * ((logprob - ref_logprob) * (logprob - ref_logprob)))%Q
  else if bool_decide (kl_penalty = "low_var_kl" \/ kl_penalty = "k3")%string then Ok (k3 logprob ref_logprob)
  else Err NotImplementedError.

(** [kl_penalty[:-1] if kl_penalty.endswith("+")] *)
Fixpoint strip_plus (s : string) : string * bool :=
  match s with
  | EmptyString => (EmptyString, false)
  | String c EmptyString => if bool_decide (c = "+"%char) then (EmptyString, true) else (s, false)
  | String c s => let '(s, plus) := strip_plus s in (String c s, plus)
  end.

(** With a plus the gradient is that of another estimate: the value is the same. *)
Definition kl_penalty_token (logprob ref_logprob : Q) (kl_penalty : string) : result Q :=
  let '(base, plus) := strip_plus kl_penalty in
  forward_score ← kl_penalty_forward logprob ref_logprob base;
  if negb plus || bool_decide (kl_penalty = "mse" \/ kl_penalty = "k2")%string then Ok forward_score
  else let backward_score := ((1 # 2) * ((logprob - ref_logprob) * (logprob - ref_logprob)))%Q in Ok (backward_score - backward_score + forward_score)%Q.

Definition kl_penalty_rows (logprob ref_logprob : matrix) (kl_penalty : string) : result matrix :=
  mapM_ok (fun rows => mapM_ok (fun lr => kl_penalty_token lr.1 lr.2 kl_penalty) (zip rows.1 rows.2)) (zip logprob ref_logprob).

Definition compute_rewards (token_level_scores old_log_prob ref_log_prob : matrix) (kl_ratio : Q) : matrix :=
  mzip (fun s k => s - k * kl_ratio)%Q token_level_scores (mzip Qminus old_log_prob ref_log_prob).

(** ** Controllers of the KL coefficient *)

Inductive KLController :=
  | AdaptiveKLController (value target horizon : Q)
  | FixedKLController (value : Q).

Definition kl_value (k : KLController) : Q := match k with AdaptiveKLController v _ _ => v | FixedKLController v => v end.

(** The horizon is positive: [get_kl_controller] asserts it. *)
Definition kl_update (current_kl : Q) (n_steps : nat) (k : KLController) : result KLController :=
  match k with
  | FixedKLController v => Ok (FixedKLController v)
  | AdaptiveKLController value target horizon =>
      if Qeq_bool target 0 then Err ZeroDivisionError
      else
        let proportional_error := clamp (- (1 # 5)) (1 # 5) (current_kl / target - 1) in
        Ok (AdaptiveKLController (value * (1 + proportional_error * Q_of_nat n_steps / horizon)) target horizon)
  end.

Record KLConfig := { kl_type : string; kl_coef : Q; target_kl : Q; kl_horizon : Q }.

Definition get_kl_controller (c : KLConfig) : result KLController :=
  if bool_decide (kl_type c = "fixed"%string) then Ok (FixedKLController (kl_coef c))
  else if bool_decide (kl_type c = "adaptive"%string) then
    _ ← py_assert (Qgt_bool (kl_horizon c) 0);
    Ok (AdaptiveKLController (kl_coef c) (target_kl c) (kl_horizon c))
  else Err NotImplementedError.

(** [apply_kl_penalty] of the trainer: the rewards, the KL of the batch, and the
    controller after its update. *)
Definition apply_kl_penalty (token_level_scores old_log_probs ref_log_prob response_mask : matrix) (k : KLController) (kl_penalty : string) :
    result (matrix * Q * KLController) :=
  kld ← kl_penalty_rows old_log_probs ref_log_prob kl_penalty;
  let kld := mzip Qmult kld response_mask in
  let beta := kl_value k in
  let token_level_rewards := mzip (fun s d => s - beta * d)%Q token_level_scores kld in
  let current_kl := mean (zip_with masked_row_mean kld response_mask) in
  k ← kl_update current_kl (length response_mask) k;
  Ok (token_level_rewards, current_kl, k).
End PolicyLoss.
