(* ===== verification/PolicyLossTheorems.v ===== *)
(** * Theorems about the losses

    The loss of a batch does not depend on how it is spread over ranks; the clipped
    loss is the textbook one; the KL estimate and its controller stay in bounds. *)

From Stdlib Require Import QArith_base QArith Qminmax Qabs Lqa.
From S2P Require Import Prelude PyDict Numbers NumPy TorchFunctional Advantages AdvantageGroups GroupAdvantages PolicyLoss.

(** ** Aggregation *)

Inductive agg_mode := TokenMean | SeqSum | SeqSumNorm | SeqMean.
Definition mode_name (a : agg_mode) : string :=
  match a with TokenMean => "token-mean" | SeqSum => "seq-mean-token-sum" | SeqSumNorm => "seq-mean-token-sum-norm" | SeqMean => "seq-mean-token-mean" end.

(** What a sequence adds to the numerator, and the denominator. *)
Definition agg_row (a : agg_mode) (l m : list Q) : Q :=
  let h := Q_of_bool (Qgt_bool (qsum m) 0) in
  match a with
  | TokenMean => masked_row_sum l m
  | SeqMean => ((if Qeq_bool h 0 then 0 else row_loss l m / (qsum m + tiny)) * h)%Q
  | _ => ((if Qeq_bool h 0 then 0 else row_loss l m) * h)%Q
  end.

Definition agg_den (a : agg_mode) (N B s : Q) : Q := match a with TokenMean => N | SeqSumNorm => (B * s)%Q | _ => B end.

Lemma masked_rows (g : list Q -> list Q -> Q) (k : list Q -> Q) l m :
  masked_row_sum (zip_with g l m) (k <$> m) = qsum (zip_with (fun a b => (if Qeq_bool (k b) 0 then 0 else g a b) * k b)%Q l m).
Proof. unfold masked_row_sum. f_equal. revert m. induction l as [|a l IH]; intros [|b m]; try done. cbn. f_equal. apply IH. Qed.

Definition spread (dp : nat) (N B : Q) (scale : option Q) : BatchInfo :=
  {| dp_size := dp; batch_num_tokens := Some N; global_batch_size := Some B; loss_scale_factor := scale |}.

(** The factor of [seq-mean-token-sum-norm]: given, or the width of the batch. *)
Definition scaled_by (s : Q) (mask : matrix) (scale : option Q) : Prop := scale = Some s \/ scale = None /\ exists row, head mask = Some row /\ Q_of_nat (length row) = s.

Lemma fdiv_fin x t : ~ (t == 0)%Q -> fdiv (Fin x) t = Fin (x / t).
Proof. intros Ht. cbn. destruct (Qeq_bool t 0) eqn:E0; [by apply Qeq_bool_eq in E0|done]. Qed.

Lemma agg_loss_ok a l m dp N B s scale : ~ (N == 0)%Q -> ~ (B == 0)%Q -> ~ (s == 0)%Q -> scaled_by s m scale ->
  exists x, agg_loss l m (mode_name a) (spread dp N B scale) = Ok (Fin x) /\ (x == qsum (zip_with (agg_row a) l m) / agg_den a N B s * Q_of_nat dp)%Q.
Proof.
  intros HN HB Hs Hscale.
  assert (Hseq : forall g, seq_mean (spread dp N B scale) (zip_with g l m) (sum_rows m) =
    Ok (Fin (qsum (zip_with (fun a b => (if Qeq_bool (Q_of_bool (Qgt_bool (qsum b) 0)) 0 then 0 else g a b) * Q_of_bool (Qgt_bool (qsum b) 0))%Q l m) / B * Q_of_nat dp))).
  { intros g. unfold seq_mean, sum_rows. cbn [spread global_batch_size global_count mbind result_bind dp_size]. rewrite <-list_fmap_compose.
    change ((fun n => Q_of_bool (Qgt_bool n 0)) ∘ qsum) with (fun b => Q_of_bool (Qgt_bool (qsum b) 0)). by rewrite masked_rows, fdiv_fin. }
  destruct a; unfold agg_loss.
  - change (mode_name TokenMean) with "token-mean"%string. rewrite bool_decide_eq_true_2 by done. cbn [spread batch_num_tokens global_count mbind result_bind dp_size]. rewrite fdiv_fin by done. by eexists.
  - rewrite bool_decide_eq_false_2 by done. rewrite bool_decide_eq_true_2 by (by left). rewrite Hseq. cbn [mbind result_bind]. rewrite bool_decide_eq_false_2 by done. by eexists.
  - rewrite bool_decide_eq_false_2 by done. rewrite bool_decide_eq_true_2 by (by right). rewrite Hseq. cbn [mbind result_bind]. rewrite bool_decide_eq_true_2 by done. cbn [spread loss_scale_factor].
    assert (Ed : default (Q_of_nat (default 0 (length <$> head m))) scale = s) by (destruct Hscale as [->|(-> & row & -> & <-)]; done). rewrite Ed, fdiv_fin by done. eexists. split; [done|]. cbn [agg_den].
    match goal with |- (?X / _ * _ / _ == _)%Q => change (qsum (zip_with (agg_row SeqSumNorm) l m)) with X; generalize X end. intros X. field. done.
  - rewrite bool_decide_eq_false_2 by done. rewrite bool_decide_eq_false_2 by (by intros [? | ?]). rewrite bool_decide_eq_true_2 by done. rewrite Hseq. by eexists.
Qed.

Lemma agg_row_app a (shards : list (matrix * matrix)) : Forall (fun sh => length sh.1 = length sh.2) shards ->
  (qsum (zip_with (agg_row a) (mjoin shards.*1) (mjoin shards.*2)) == qsum ((fun sh => qsum (zip_with (agg_row a) sh.1 sh.2)) <$> shards))%Q.
Proof.
  induction 1 as [|[l m] shards Hl _ IH]; [done|]. rewrite !fmap_cons. cbn [fst snd mjoin list_join concat qsum] in *. change (mjoin (l :: ?k)) with (l ++ mjoin k) in *. rewrite zip_with_app by done. rewrite qsum_app. by rewrite <-IH.
Qed.

Lemma mean_scaled {A} (f : A -> Q) (xs : list Q) (l : list A) d : l <> [] -> length xs = length l -> (forall i x y, xs !! i = Some x -> l !! i = Some y -> x == f y / d * Q_of_nat (length l))%Q ->
  (mean xs == qsum (f <$> l) / d)%Q.
Proof.
  intros Hne Hl Hx. unfold mean. rewrite Hl. set (n := Q_of_nat (length l)) in *. assert (Hn : ~ (n == 0)%Q).
  { intros E0. pose proof (Q_of_nat_pos (length l) ltac:(destruct l; [done|cbn; lia])) as H. unfold n, Q_of_nat in E0. rewrite E0 in H. by apply Qlt_irrefl in H. }
  assert (Hs : (qsum xs == qsum (f <$> l) * (/ d * n))%Q).
  { rewrite <-qsum_scale_r. apply qsum_proper. rewrite <-list_fmap_compose. apply Qeql_lookup. split; [by rewrite length_fmap|]. intros i x y Hi. rewrite list_lookup_fmap. destruct (l !! i) as [z|] eqn:Ez; [|done]. intros [= <-].
    rewrite (Hx i x z Hi Ez). cbn. unfold Qdiv. ring. }
  rewrite Hs. unfold Qdiv. rewrite <-Qmult_assoc, <-Qmult_assoc, Qmult_inv_r by done. ring.
Qed.

(** The mean over the ranks is the loss of the whole batch. *)
Lemma spread_mean a (shards : list (matrix * matrix)) N B s scale : shards <> [] -> Forall (fun sh => length sh.1 = length sh.2) shards ->
  ~ (N == 0)%Q -> ~ (B == 0)%Q -> ~ (s == 0)%Q -> Forall (fun sh => scaled_by s sh.2 scale) shards ->
  exists xs x, mapM_ok (fun sh => agg_loss sh.1 sh.2 (mode_name a) (spread (length shards) N B scale)) shards = Ok (Fin <$> xs) /\
    agg_loss (mjoin shards.*1) (mjoin shards.*2) (mode_name a) (spread 1 N B scale) = Ok (Fin x) /\ (mean xs == x)%Q.
Proof.
  intros Hne Hlen HN HB Hs Hscale. set (f := fun sh : matrix * matrix => qsum (zip_with (agg_row a) sh.1 sh.2)).
  assert (Hall : exists xs, mapM_ok (fun sh => agg_loss sh.1 sh.2 (mode_name a) (spread (length shards) N B scale)) shards = Ok (Fin <$> xs) /\
    length xs = length shards /\ forall i x y, xs !! i = Some x -> shards !! i = Some y -> (x == f y / agg_den a N B s * Q_of_nat (length shards))%Q).
  { clear Hne Hlen. generalize (length shards) at 1 3 as dp. intros dp. induction Hscale as [|[l m] shards Hsc _ IH]; [by exists []|]. destruct IH as (xs & E1 & Hl & Hx).
    destruct (agg_loss_ok a l m dp N B s scale HN HB Hs Hsc) as (x & E2 & Ex). exists (x :: xs). cbn [mapM_ok fst snd]. rewrite E2. cbn [mbind result_bind]. rewrite E1. split; [done|]. split; [cbn; by f_equal|].
    intros [|i] y z Hy Hz; cbn in Hy, Hz; [by simplify_eq|]. by apply (Hx i). }
  destruct Hall as (xs & E1 & Hl & Hx). assert (Hwhole : scaled_by s (mjoin shards.*2) scale).
  { destruct shards as [|[l m] shards]; [done|]. inversion Hscale as [|? ? [->|(-> & row & Hrow & Hw)] _]; [by left|right]. split; [done|]. exists row. split; [|done]. cbn in Hrow |- *. by destruct m. }
  destruct (agg_loss_ok a (mjoin shards.*1) (mjoin shards.*2) 1 N B s scale HN HB Hs Hwhole) as (x & E2 & Ex). exists xs, x. split; [exact E1|]. split; [exact E2|].
  rewrite Ex, (agg_row_app a shards Hlen), (mean_scaled f xs shards (agg_den a N B s) Hne Hl Hx). change (Q_of_nat 1) with 1%Q. by rewrite Qmult_1_r.
Qed.

(** ** The clipped loss of a token *)

Lemma clamp_between lo hi x : (lo <= hi)%Q -> (lo <= clamp lo hi x <= hi)%Q.
Proof. intros H. unfold clamp. split; [apply Q.min_glb; [apply Q.le_max_r|done]|apply Q.le_min_r]. Qed.

Lemma clamp_id lo hi x : (lo <= x <= hi)%Q -> (clamp lo hi x == x)%Q.
Proof. intros [H1 H2]. unfold clamp. rewrite (Q.max_l x lo) by done. by apply Q.min_l. Qed.

#[export] Instance Qgt_bool_proper : Proper (Qeq ==> Qeq ==> eq) Qgt_bool.
Proof. intros x x' Hx y y' Hy. unfold Qgt_bool. f_equal. apply eq_true_iff_eq. by rewrite !Qle_bool_iff, Hx, Hy. Qed.

Lemma Qgt_bool_iff x y : Qgt_bool x y = true <-> (y < x)%Q.
Proof. unfold Qgt_bool. rewrite negb_true_iff, <-not_true_iff_false, Qle_bool_iff. split; [apply Qnot_le_lt|apply Qlt_not_le]. Qed.

(** Maxima and minima of products with a number that is not negative. *)
Lemma Qmax_mult a x y : (0 <= a)%Q -> (Qmax (a * x) (a * y) == a * Qmax x y)%Q.
Proof. intros Ha. destruct (Qlt_le_dec x y) as [H|H]; [rewrite !Q.max_r|rewrite !Q.max_l]; try nra; try done. Qed.
Lemma Qmin_mult a x y : (0 <= a)%Q -> (Qmin (a * x) (a * y) == a * Qmin x y)%Q.
Proof. intros Ha. destruct (Qlt_le_dec x y) as [H|H]; [rewrite !Q.min_l|rewrite !Q.min_r]; try nra; try done. Qed.
Lemma Qmax_mult_neg a x y : (a <= 0)%Q -> (Qmax (a * x) (a * y) == a * Qmin x y)%Q.
Proof. intros Ha. destruct (Qlt_le_dec x y) as [H|H]; [rewrite Q.max_l, Q.min_l|rewrite Q.max_r, Q.min_r]; try nra; try done. Qed.

Lemma min_clamp lo hi x : (lo <= hi)%Q -> (Qmin x (clamp lo hi x) == Qmin x hi)%Q.
Proof.
  intros H. unfold clamp. destruct (Qlt_le_dec x lo) as [H1|H1].
  - rewrite (Q.max_r x lo) by lra. rewrite (Q.min_l lo hi), !Q.min_l by lra. done.
  - rewrite (Q.max_l x lo) by done. rewrite Q.min_assoc, Q.min_id. done.
Qed.

Lemma max_clamp lo hi x : (lo <= hi)%Q -> (Qmax x (clamp lo hi x) == Qmax x lo)%Q.
Proof.
  intros H. unfold clamp. destruct (Qlt_le_dec x lo) as [H1|H1].
  - rewrite (Q.max_r x lo) by lra. rewrite (Q.min_l lo hi) by done. by rewrite Q.max_r by lra.
  - rewrite !(Q.max_l x lo) by done. apply Q.max_l, Q.le_min_l.
Qed.

Definition clip_fits (c : ActorConfig) : Prop := (1 - cliprange_low c <= 1 + cliprange_high c)%Q.

Lemma clip_pg_loss1_ok c a r : clip_fits c -> (clip_pg_loss1 c a r == if Qgt_bool 0 a then - a * Qmax r (1 - cliprange_low c) else - a * Qmin r (1 + cliprange_high c))%Q.
Proof.
  intros Hc. unfold clip_pg_loss1, pg_loss1, pg_loss2. destruct (Qgt_bool 0 a) eqn:Ea.
  - apply Qgt_bool_iff in Ea. rewrite Qmax_mult by lra. by rewrite max_clamp.
  - assert (Ha : (0 <= a)%Q) by (apply Qnot_lt_le; intros H; apply Qgt_bool_iff in H; congruence). rewrite Qmax_mult_neg by lra. by rewrite min_clamp.
Qed.

Lemma vanilla_token_ok c clip_c a r : clip_fits c ->
  (vanilla_token c clip_c a r == if Qgt_bool 0 a then - a * Qmin clip_c (Qmax r (1 - cliprange_low c)) else - a * Qmin r (1 + cliprange_high c))%Q.
Proof.
  intros Hc. unfold vanilla_token. pose proof (clip_pg_loss1_ok c a r Hc) as H. destruct (Qgt_bool 0 a) eqn:Ea; [|exact H]. rewrite H. unfold pg_loss3. apply Qgt_bool_iff in Ea. by rewrite Qmin_mult by lra.
Qed.

(** ** The KL penalty *)

Section KL.
Context `{TM : TorchMath} `{!TorchMathLaws TM}.

Lemma k3_bounds l r : (0 <= k3 l r <= 10)%Q.
Proof using TorchMathLaws0.
  unfold k3. set (kl := clamp (-20) 20 (r - l)). pose proof (exp_above kl) as [_ H]. pose proof (clamp_between (-10) 10 (exp_ kl - kl - 1) ltac:(lra)) as [_ H2]. split; [|exact H2].
  unfold clamp. apply Q.min_glb; [|lra]. eapply Qle_trans; [|apply Q.le_max_l]. lra.
Qed.

Lemma k3_same l r : (l == r)%Q -> (k3 l r == 0)%Q.
Proof using TorchMathLaws0.
  intros H. unfold k3. cbv zeta. set (z := clamp (-20) 20 (r - l)). assert (Hz : (z == 0)%Q) by (unfold z; rewrite clamp_id; lra).
  assert (E1 : (exp_ z - z - 1 == 0)%Q) by (rewrite (exp_proper _ _ Hz), exp_zero, Hz; ring). rewrite clamp_id; lra.
Qed.

Definition is_k1 (name : string) : Prop := name = "kl"%string \/ name = "k1"%string.

Lemma kl_forward_ok l r name v : kl_penalty_forward l r name = Ok v -> (~ is_k1 name -> (0 <= v)%Q) /\ ((l == r)%Q -> (v == 0)%Q).
Proof using TorchMathLaws0.
  assert (Hd : forall x : Q, (forall P : Prop, (P -> (0 <= x)%Q) -> ((l == r)%Q -> (x == 0)%Q) -> Ok x = Ok v -> (P -> (0 <= v)%Q) /\ ((l == r)%Q -> (v == 0)%Q))) by (intros x P H1 H2 [= <-]; done).
  unfold kl_penalty_forward, is_k1. case_bool_decide as E1; [|case_bool_decide as E2; [|case_bool_decide as E3; [|case_bool_decide as E4; [|done]]]]; apply Hd.
  - tauto.
  - intros E. lra.
  - intros _. apply Qabs_nonneg.
  - intros E. assert (E0 : (l - r == 0)%Q) by lra. by rewrite E0.
  - intros _. generalize (l - r)%Q. intros x. apply Qmult_le_0_compat; [lra|nra].
  - intros E. rewrite E. ring.
  - intros _. apply k3_bounds.
  - apply k3_same.
Qed.

Lemma strip_plus_app s : strip_plus (s +:+ "+") = (s, true).
Proof using.
  induction s as [|c s IH]; [done|]. destruct s as [|d s]; [done|]. transitivity (let '(t, plus) := strip_plus (String d s +:+ "+") in (String c t, plus)); [done|by rewrite IH].
Qed.

(** A plus changes the gradient, not the value. *)
Lemma kl_plus_ok l r name v : kl_penalty_forward l r name = Ok v -> exists v', kl_penalty_token l r (name +:+ "+") = Ok v' /\ (v' == v)%Q.
Proof using.
  intros H. unfold kl_penalty_token. rewrite strip_plus_app, H. cbn [mbind result_bind]. case_match; eexists; split; try done. ring.
Qed.

(** ** The controller *)

Lemma kl_update_ok cur n v target horizon : (0 < target)%Q -> (0 < horizon)%Q -> (0 <= v)%Q ->
  exists v', kl_update cur n (AdaptiveKLController v target horizon) = Ok (AdaptiveKLController v' target horizon) /\
    (v * (1 - Q_of_nat n / (5 * horizon)) <= v' <= v * (1 + Q_of_nat n / (5 * horizon)))%Q /\ ((target <= cur)%Q -> (v <= v')%Q) /\ ((cur <= target)%Q -> (v' <= v)%Q).
Proof using.
  intros Ht Hh Hv. unfold kl_update. destruct (Qeq_bool target 0) eqn:E0; [apply Qeq_bool_eq in E0; lra|]. eexists. split; [done|].
  set (e := clamp (- (1 # 5)) (1 # 5) (cur / target - 1)). pose proof (clamp_between (- (1 # 5)) (1 # 5) (cur / target - 1) ltac:(lra)) as He. fold e in He.
  assert (Hn : (0 <= Q_of_nat n)%Q) by (change 0%Q with (Q_of_nat 0); apply Q_of_nat_ge; lia). set (k := (Q_of_nat n / horizon)%Q).
  assert (Hk : (0 <= k)%Q) by (apply Qle_shift_div_l; [done|]; rewrite Qmult_0_l; done).
  assert (E1 : (e * Q_of_nat n / horizon == e * k)%Q) by (unfold k; field; lra). assert (E2 : (Q_of_nat n / (5 * horizon) == (1 # 5) * k)%Q) by (unfold k; field; lra). rewrite E1, E2.
  assert (H1 : (- (1 # 5) * k <= e * k <= (1 # 5) * k)%Q) by (split; apply Qmult_le_compat_r; tauto).
  assert (Hsign : ((target <= cur -> 0 <= e) /\ (cur <= target -> e <= 0))%Q).
  { unfold e, clamp. split; intros H.
    - apply Q.min_glb; [|lra]. eapply Qle_trans; [|apply Q.le_max_l]. assert (1 <= cur / target)%Q by (apply Qle_shift_div_l; lra). lra.
    - eapply Qle_trans; [apply Q.le_min_l|]. apply Q.max_lub; [|lra]. assert (cur / target <= 1)%Q by (apply Qle_shift_div_r; lra). lra. }
  destruct Hsign as [Hup Hdown]. split; [split; rewrite (Qmult_comm v), (Qmult_comm v); apply Qmult_le_compat_r; lra|]. split; intros H.
  - specialize (Hup H). pose proof (Qmult_le_0_compat _ _ Hup Hk). rewrite <-(Qmult_1_r v) at 1. rewrite (Qmult_comm v), (Qmult_comm v). apply Qmult_le_compat_r; lra.
  - specialize (Hdown H). assert (e * k <= 0)%Q by nra. rewrite <-(Qmult_1_r v) at 2. rewrite (Qmult_comm v), (Qmult_comm v). apply Qmult_le_compat_r; lra.
Qed.
End KL.
