(* ===== verification/TrainingTheorems.v ===== *)
(** * Advantages and losses

    The theorems about the estimators and the losses of verl, numbers with which
    they apply, and what the model shows where two versions differ. *)

From Stdlib Require Import QArith_base QArith Qminmax Lqa.
From S2P Require Import Prelude PyDict Numbers NumPy TorchFunctional Advantages AdvantageGroups GroupAdvantages AdvantageReturns PolicyLoss PolicyLossTheorems.

Section Theorems.
Context `{TM : TorchMath} `{!TorchMathLaws TM}.

(** The rows of two tensors have the same lengths. *)
Definition same_shape (s t : matrix) : Prop := Forall2 (fun a b => length a = length b) s t.

(** C10: Generalized advantage estimation.  On the model's own tokens the loop computes
    the discounted sums of the temporal-difference errors of the trajectory without
    the other tokens, whatever lies between; the returns are these estimates plus the
    values, and the advantages are shifted and scaled by a positive factor.  A batch
    with fewer than two tokens is an error. *)
Theorem gae_correct gamma lam rewards values mask : Forall binary mask -> same_shape rewards mask -> same_shape values mask ->
  let a := gae_rows gamma lam rewards values mask in
  (forall i r v m, rewards !! i = Some r -> values !! i = Some v -> mask !! i = Some m -> exists row, a !! i = Some row /\ length row = length m /\
    let tr := keep m (zip r v) in Qeql (keep m row) (gae_at gamma lam tr <$> seq 0 (length tr))) /\
  if few_tokens mask then compute_gae_advantage_return rewards values mask gamma lam = Err ValueError
  else exists c, (0 < c)%Q /\ compute_gae_advantage_return rewards values mask gamma lam = Ok (whitened a mask c, mzip Qplus a values).
Proof.
  intros Hm Hr Hv a. split.
  - intros i r v m Hri Hvi Hmi. exists (gae_row gamma lam r v m). split; [|apply (gae_row_ok gamma lam r v m)].
    + unfold a, gae_rows. by rewrite !lookup_zip_with, Hri, Hvi, Hmi.
    + exact (Forall_lookup_1 _ _ _ _ Hm Hmi).
    + exact (Forall2_lookup_lr _ _ _ _ _ _ Hr Hri Hmi).
    + exact (Forall2_lookup_lr _ _ _ _ _ _ Hv Hvi Hmi).
  - pose proof (masked_whiten_ok a mask Hm) as H. unfold compute_gae_advantage_return. fold a. destruct (few_tokens mask); [by rewrite H|]. destruct H as (c & Hc & ->). by exists c.
Qed.

(** C12: GRPO.  Every response has one advantage.  In a group of two or more it is the
    distance of its score from the mean of the group, divided by the deviation of
    the group plus epsilon if wanted; these advantages sum to zero and are ordered
    as the scores.  For a response that is alone in its group the code takes mean 0
    and deviation 1, so its advantage is its score, divided by 1 plus epsilon if
    wanted. *)
Theorem grpo_correct rewards mask index epsilon norm : length rewards <= length index -> (0 < epsilon)%Q ->
  let S := sum_rows rewards in
  exists a, compute_grpo_outcome_advantage rewards mask index epsilon norm = Ok (broadcast a mask, broadcast a mask) /\ length a = length rewards /\
    (forall i id s x, index !! i = Some id -> S !! i = Some s -> a !! i = Some x -> let g := members index S id in
      if 1 <? length g then x = (if norm then (s - mean g) / (std g + epsilon) else s - mean g)%Q
      else (x == if norm then s / (1 + epsilon) else s)%Q) /\
    forall id, 2 <= length (members index S id) -> (qsum (members index a id) == 0)%Q /\
      forall i j s t x y, index !! i = Some id -> index !! j = Some id -> S !! i = Some s -> S !! j = Some t -> a !! i = Some x -> a !! j = Some y -> (x < y <-> s < t)%Q.
Proof.
  intros Hl He S. eexists. split; [by apply grpo_ok|]. fold S. split; [unfold S, sum_rows; by rewrite length_imap, length_fmap|].
  assert (Hat : forall i id s x, index !! i = Some id -> S !! i = Some s -> imap (fun i s => grpo_scalar norm epsilon (members index S (index !!! i)) s) S !! i = Some x -> x = grpo_scalar norm epsilon (members index S id) s).
  { intros i id s x Hi Hs. rewrite list_lookup_imap, Hs. cbn. rewrite (list_lookup_total_correct _ _ _ Hi). by intros [= <-]. }
  split; [|intros id Hg; split].
  - intros i id s x Hi Hs Hx. rewrite (Hat i id s x Hi Hs Hx). apply grpo_scalar_cases. intros E.
    assert (Hin : s ∈ members index S id) by (apply members_elem; by exists i). rewrite E in Hin. by apply elem_of_nil in Hin.
  - rewrite (members_imap index S id _ (grpo_scalar norm epsilon (members index S id))); [by apply scalars_sum_zero|]. intros i x Hi _. by rewrite (list_lookup_total_correct _ _ _ Hi).
  - intros i j s t x y Hi Hj Hs Ht Hx Hy. rewrite (Hat i id s x Hi Hs Hx), (Hat j id t y Hj Ht Hy). by apply scalars_order.
Qed.

(** C15: RLOO.  In a group of two or more the advantage of a response is its score less
    the mean score of the others, and the advantages sum to zero; alone it keeps its
    score. *)
Theorem rloo_correct rewards mask index : length rewards <= length index ->
  let S := sum_rows rewards in
  exists a, compute_rloo_outcome_advantage rewards mask index = Ok (broadcast a mask, broadcast a mask) /\ length a = length rewards /\
    (forall i id s x, index !! i = Some id -> S !! i = Some s -> a !! i = Some x -> let g := members index S id in
      if 1 <? length g then (x == s - (qsum g - s) / (Q_of_nat (length g) - 1))%Q else x = s) /\
    forall id, 2 <= length (members index S id) -> (qsum (members index a id) == 0)%Q.
Proof.
  intros Hl S. eexists. split; [by apply rloo_ok|]. fold S. split; [unfold S, sum_rows; by rewrite length_imap, length_fmap|]. split.
  - intros i id s x Hi Hs. rewrite list_lookup_imap, Hs. cbn [fmap option_fmap option_map]. rewrite (list_lookup_total_correct _ _ _ Hi). intros [= <-]. cbv zeta. destruct (Nat.ltb_spec 1 (length (members index S id))) as [Hg|Hg]; [by apply rloo_leave_one_out|].
    unfold rloo_scalar. by rewrite (proj2 (Nat.ltb_ge _ _) Hg).
  - intros id Hg. rewrite (members_imap index S id _ (rloo_scalar (members index S id))); [by apply rloo_sum_zero|]. intros i x Hi _. by rewrite (list_lookup_total_correct _ _ _ Hi).
Qed.

(** C13: The vectorized estimators.  For labels that are not numbers, vectorized GRPO
    gives the advantages of the loop, and vectorized RLOO those of the loop if no
    group has a single response. *)
Theorem vectorized_estimators_agree rewards mask index epsilon norm : length rewards = length index -> astype_int64 index = None ->
  (exists A B, compute_grpo_outcome_advantage rewards mask index epsilon norm = Ok (A, A) /\ compute_grpo_vectorized_outcome_advantage rewards mask index epsilon norm = Ok (B, B) /\ Qeqm B A) /\
  exists A B, compute_rloo_outcome_advantage rewards mask index = Ok (A, A) /\ compute_rloo_vectorized_outcome_advantage rewards mask index = Ok (B, B) /\
    ((forall id, id ∈ index -> length (members index (sum_rows rewards) id) <> 1) -> Qeqm B A).
Proof.
  intros Hl Ha. split.
  - destruct (grpo_vectorized_ok rewards mask index epsilon norm Hl Ha) as (B & EB & HB). eexists _, B. split; [apply grpo_ok; lia|]. by split.
  - destruct (rloo_vectorized_ok rewards mask index Hl) as (B & EB & HB). eexists _, B. split; [apply rloo_ok; lia|]. split; [done|]. intros Hg. etransitivity; [exact HB|]. apply broadcast_proper, imap_Qeql.
    intros i s Hs. destruct (lookup_lt_is_Some_2 index i) as [id Hi]; [apply lookup_lt_Some in Hs; unfold sum_rows in Hs; rewrite length_fmap in Hs; lia|]. rewrite (list_lookup_total_correct _ _ _ Hi). cbv zeta.
    destruct (Nat.ltb_spec 1 (length (members index (sum_rows rewards) id))) as [|Hle]; [done|]. exfalso. apply (Hg id); [by eapply list_elem_of_lookup_2|].
    assert (Hin : s ∈ members index (sum_rows rewards) id) by (apply members_elem; by exists i). destruct (members index (sum_rows rewards) id); [by apply elem_of_nil in Hin|cbn in *; lia].
Qed.

(** C11: The loss of a batch does not depend on how it is spread.  In every mode the
    mean over the ranks of [agg_loss], each called with the counts of the whole
    batch, is [agg_loss] of the whole batch; without these counts more than one rank
    is an error. *)
Theorem agg_loss_is_parallel a (shards : list (matrix * matrix)) N B s scale : shards <> [] -> Forall (fun sh => length sh.1 = length sh.2) shards ->
  ~ (N == 0)%Q -> ~ (B == 0)%Q -> ~ (s == 0)%Q -> Forall (fun sh => scaled_by s sh.2 scale) shards ->
  (exists xs x, mapM_ok (fun sh => agg_loss sh.1 sh.2 (mode_name a) (spread (length shards) N B scale)) shards = Ok (Fin <$> xs) /\
    agg_loss (mjoin shards.*1) (mjoin shards.*2) (mode_name a) (spread 1 N B scale) = Ok (Fin x) /\ (mean xs == x)%Q) /\
  forall sh, 1 < length shards -> agg_loss sh.1 sh.2 (mode_name a) {| dp_size := length shards; batch_num_tokens := None; global_batch_size := None; loss_scale_factor := scale |} = Err ValueError.
Proof.
  intros Hne Hlen HN HB Hs Hscale. split; [by apply (spread_mean a shards N B s scale)|]. intros sh Hd. unfold agg_loss, seq_mean, global_count. cbn [dp_size batch_num_tokens global_batch_size].
  rewrite (proj2 (Nat.ltb_lt _ _) Hd). by destruct a.
Qed.

(** C14: The clipped policy loss.  A token with a positive advantage contributes the
    advantage times the ratio up to the upper clip, one with a negative advantage
    times the ratio from the lower clip to the second clip; so no token is rewarded
    beyond the upper clip or punished beyond the second.  A second clip of at most 1
    is an error. *)
Theorem clipped_loss_correct old_log_prob log_prob advantages mask mode c weights : clip_fits c ->
  let clip_c := default 3%Q (clip_ratio_c c) in
  let ratio := fmap (M := list) (fmap (M := list) exp_) (approx_kl log_prob old_log_prob) in
  let losses := mzip (vanilla_token c clip_c) advantages ratio in
  if Qle_bool clip_c 1 then compute_policy_loss_vanilla old_log_prob log_prob advantages mask mode c weights = Err AssertionError
  else (r ← compute_policy_loss_vanilla old_log_prob log_prob advantages mask mode c weights; Ok r.1) = agg_loss (with_weights weights losses) mask mode (global_batch_info c) /\
    forall i t row x a r, losses !! i = Some row -> row !! t = Some x -> (advantages !!! i) !! t = Some a -> (ratio !!! i) !! t = Some r ->
      ((0 <= a -> x == - a * Qmin r (1 + cliprange_high c) /\ - a * (1 + cliprange_high c) <= x) /\
       (a < 0 -> x == - a * Qmin clip_c (Qmax r (1 - cliprange_low c)) /\ x <= - a * clip_c))%Q.
Proof.
  intros Hc clip_c ratio losses. unfold compute_policy_loss_vanilla. cbv zeta. fold clip_c.
  assert (Eg : Qgt_bool clip_c 1 = negb (Qle_bool clip_c 1)) by done. rewrite Eg. destruct (Qle_bool clip_c 1); [done|]. cbn [negb py_assert mbind result_bind]. fold ratio losses. split; [by destruct (agg_loss _ _ _ _)|].
  intros i t row x a r Hrow Hx Ha Hr. unfold losses, mzip in Hrow. apply lookup_zip_with_Some in Hrow as (arow & rrow & -> & Hai & Hri). rewrite (list_lookup_total_correct _ _ _ Hai) in Ha. rewrite (list_lookup_total_correct _ _ _ Hri) in Hr.
  apply lookup_zip_with_Some in Hx as (a' & r' & -> & Ha' & Hr'). assert (a' = a) by congruence. assert (r' = r) by congruence. subst a' r'. clear Ha' Hr'. pose proof (vanilla_token_ok c clip_c a r Hc) as H. split; intros Hsign.
  - assert (Ef : Qgt_bool 0 a = false) by (apply not_true_iff_false; rewrite Qgt_bool_iff; lra). rewrite Ef in H. split; [exact H|]. rewrite H. pose proof (Q.le_min_r r (1 + cliprange_high c)). nra.
  - rewrite (proj2 (Qgt_bool_iff 0 a) Hsign) in H. split; [exact H|]. rewrite H. pose proof (Q.le_min_l clip_c (Qmax r (1 - cliprange_low c))). nra.
Qed.
End Theorems.
