(* ===== verification/TrainingRuns.v ===== *)
(** * Runs of the estimators

    Functions that satisfy what [GroupAdvantages.v] says of torch and numpy, runs with
    them, and batches on which two estimators differ. *)

From Stdlib Require Import QArith_base QArith Qminmax Lqa.
From S2P Require Import Prelude PyDict Numbers NumPy TorchFunctional Advantages AdvantageGroups GroupAdvantages AdvantageReturns PolicyLoss PolicyLossTheorems TrainingTheorems.

(** Labels are numbered by the place where they come first. *)
#[export] Instance model_math : TorchMath := {|
  sqrt_ := fun x => x; rsqrt := Qinv; exp_ := fun x => if Qle_bool 0 x then (1 + x)%Q else (/ (1 - x))%Q; log_ := fun x => (x - 1)%Q; sigmoid := fun _ => (1 # 2)%Q;
  unique_inverse := fun index => (fun id => default 0 (fst <$> list_find (eq id) index)) <$> index; astype_int64 := fun _ => None |}.

#[export] Instance model_math_laws : TorchMathLaws model_math.
Proof.
  split; cbn [sqrt_ rsqrt exp_ unique_inverse model_math].
  - done.
  - by intros x y.
  - intros x. apply Qinv_lt_0_compat.
  - intros x y Hxy. destruct (Qle_bool 0 x) eqn:E1; rewrite Hxy in E1; rewrite E1; by rewrite Hxy.
  - done.
  - intros x. destruct (Qle_bool 0 x) eqn:E1; [apply Qle_bool_iff in E1; lra|]. apply not_true_iff_false in E1. rewrite Qle_bool_iff in E1. assert (Hx : (0 < 1 - x)%Q) by lra.
    split; [by apply Qinv_lt_0_compat|]. apply (Qmult_le_r _ _ (1 - x) Hx). rewrite (Qmult_comm (/ (1 - x))), Qmult_inv_r by lra. nra.
  - intros index. apply length_fmap.
  - intros index i j a b x y Ha Hb. rewrite !list_lookup_fmap, Ha, Hb. cbn. intros [= <-] [= <-]. split; [|by intros ->].
    destruct (list_find_elem_of (eq a) index a) as [[m c] Hm]; [by eapply list_elem_of_lookup_2|done|]. destruct (list_find_elem_of (eq b) index b) as [[n d] Hn]; [by eapply list_elem_of_lookup_2|done|].
    rewrite Hm, Hn. cbn. intros ->. apply list_find_Some in Hm as (Hm & -> & _), Hn as (Hn & -> & _). congruence.
Qed.

Module TrainingDemo.
(** A response with a tool's tokens in the middle. *)
Definition rewards : matrix := [[0; 0; 1]%Q].
Definition values : matrix := [[1; 7; 3]%Q].
Definition mask : matrix := [[1; 0; 1]%Q].

Lemma mask_binary : Forall binary mask.
Proof. repeat constructor; (by left) || (by right). Qed.

(** Three responses to a prompt, and one to another. *)
Definition index : list string := ["p"; "q"; "p"; "p"]%string.
Definition scores : matrix := [[0; 1]; [1; 4]; [0; 3]; [1; 1]]%Q.
Definition all_tokens : matrix := [[1; 1]; [1; 1]; [1; 0]; [1; 1]]%Q.

Definition actor : ActorConfig := {| clip_ratio := (1 # 5)%Q; clip_ratio_low := None; clip_ratio_high := Some (3 # 10)%Q; clip_ratio_c := None; tau_pos := 1%Q; tau_neg := 1%Q;
  global_batch_info := {| dp_size := 1; batch_num_tokens := None; global_batch_size := None; loss_scale_factor := None |} |}.
End TrainingDemo.
Import TrainingDemo.

Lemma gae_correct_witness : exists row, gae_rows (1 # 2) 1 rewards values mask !! 0 = Some row /\ Qeql (keep [1; 0; 1]%Q row) [- (1 # 2); -2]%Q.
Proof.
  destruct (gae_correct (1 # 2) 1 rewards values mask) as [H _]; [exact mask_binary|by repeat constructor|by repeat constructor|].
  destruct (H 0 [0; 0; 1]%Q [1; 7; 3]%Q [1; 0; 1]%Q eq_refl eq_refl eq_refl) as (row & E1 & _ & Hrow). exists row. split; [exact E1|]. etransitivity; [exact Hrow|]. repeat constructor.
Defined.

(** A group of three sums to zero; the response alone in its group keeps its score. *)
Lemma grpo_correct_witness : exists a, compute_grpo_outcome_advantage scores all_tokens index (1 # 10) false = Ok (broadcast a all_tokens, broadcast a all_tokens) /\
  (qsum (members index a "p"%string) == 0)%Q /\ forall x, a !! 1 = Some x -> (x == 5)%Q.
Proof.
  destruct (grpo_correct scores all_tokens index (1 # 10) false) as (a & Ea & _ & Hat & Hg); [cbn; lia|lra|]. exists a. split; [exact Ea|].
  split; [apply (Hg "p"%string); vm_compute; lia|].
  intros x Hx. pose proof (Hat 1 "q"%string (1 + (4 + 0))%Q x eq_refl eq_refl Hx) as H. etransitivity; [exact H|]. reflexivity.
Defined.

Lemma rloo_correct_witness : exists a, compute_rloo_outcome_advantage scores all_tokens index = Ok (broadcast a all_tokens, broadcast a all_tokens) /\
  forall x, a !! 0 = Some x -> (x == 1 - (6 - 1) / 2)%Q.
Proof.
  destruct (rloo_correct scores all_tokens index) as (a & Ea & _ & Hat & _); [cbn; lia|]. exists a. split; [exact Ea|]. intros x Hx. pose proof (Hat 0 "p"%string (0 + (1 + 0))%Q x eq_refl eq_refl Hx) as H.
  etransitivity; [exact H|]. reflexivity.
Defined.

Lemma vectorized_estimators_agree_witness : exists A B, compute_grpo_outcome_advantage scores all_tokens index (1 # 10) true = Ok (A, A) /\
  compute_grpo_vectorized_outcome_advantage scores all_tokens index (1 # 10) true = Ok (B, B) /\ Qeqm B A.
Proof. apply (vectorized_estimators_agree scores all_tokens index (1 # 10) true); reflexivity. Defined.

Lemma agg_loss_is_parallel_witness : exists xs x,
  mapM_ok (fun sh => agg_loss sh.1 sh.2 (mode_name SeqSumNorm) (spread 2 4 2 None)) [([[1; 2]], [[1; 1]]); ([[3; 5]], [[1; 1]])]%Q = Ok (Fin <$> xs) /\
  agg_loss [[1; 2]; [3; 5]]%Q [[1; 1]; [1; 1]]%Q (mode_name SeqSumNorm) (spread 1 4 2 None) = Ok (Fin x) /\ (mean xs == x)%Q.
Proof.
  apply (agg_loss_is_parallel SeqSumNorm [([[1; 2]], [[1; 1]]); ([[3; 5]], [[1; 1]])]%Q 4 2 (Q_of_nat 2) None); try done.
  - by repeat constructor.
  - repeat (apply Forall_cons; split; [right; split; [done|by eexists]|]). apply Forall_nil_2.
Defined.

Lemma clipped_loss_correct_witness : clip_fits actor /\
  let ratio := fmap (M := list) (fmap (M := list) exp_) (approx_kl [[0; 1]]%Q [[0; 0]]%Q) in
  forall x, mzip (vanilla_token actor 3) [[1; 1]]%Q ratio !! 0 ≫= (.!! 1) = Some x -> (x == -1 * (1 + (3 # 10)))%Q.
Proof.
  assert (Hc : clip_fits actor) by (unfold clip_fits; cbn; lra). split; [exact Hc|]. pose proof (clipped_loss_correct [[0; 0]]%Q [[0; 1]]%Q [[1; 1]]%Q [[1; 1]]%Q "token-mean" actor None Hc) as H.
  cbv zeta in H |- *. change (Qle_bool (default 3%Q (clip_ratio_c actor)) 1) with false in H. destruct H as [_ H]. intros x Hx.
  destruct (mzip (vanilla_token actor 3) [[1; 1]]%Q (fmap (M := list) (fmap (M := list) exp_) (approx_kl [[0; 1]]%Q [[0; 0]]%Q)) !! 0) as [row|] eqn:Er; [|done]. cbn [mbind option_bind] in Hx.
  destruct (H 0 1 row x 1%Q (exp_ (clamp (-20) 20 (1 - 0)))%Q Er Hx eq_refl eq_refl) as [H1 _]. destruct (H1 ltac:(lra)) as [H2 _]. etransitivity; [exact H2|]. reflexivity.
Defined.

(** ** Differences *)

(** A response that is alone in its group keeps its score in [rloo], and gets nothing
    in [rloo_vectorized]. *)
Lemma rloo_versions_differ : exists A B, compute_rloo_outcome_advantage [[3]]%Q [[1]]%Q ["p"]%string = Ok (A, A) /\ compute_rloo_vectorized_outcome_advantage [[3]]%Q [[1]]%Q ["p"]%string = Ok (B, B) /\
  Qeqm A [[3]]%Q /\ Qeqm B [[0]]%Q.
Proof. eexists _, _. split; [vm_compute; reflexivity|]. split; [vm_compute; reflexivity|]. split; repeat constructor. Qed.

(** A tool's tokens in the middle of a response cut the return of REINFORCE++: the
    tokens before them get nothing of the reward behind.  The advantage estimation of
    GAE goes on across them. *)
Lemma reinforce_plus_plus_forgets : Qeql (keep [1; 0; 1]%Q (rfpp_row 1 [0; 0; 1]%Q [1; 0; 1]%Q)) [0; 1]%Q /\ Qeql (keep [1; 0; 1]%Q (gae_row 1 1 [0; 0; 1]%Q [0; 0; 0]%Q [1; 0; 1]%Q)) [1; 1]%Q.
Proof. split; repeat constructor. Qed.
