(* ===== verification/WorkerSync.v ===== *)
(** * The scheduler and its worker

    [synced] relates the state of the scheduler with that of a model runner: what
    the runner has cached of every request, which requests its batch holds, and
    whose blocks they are.  Here it is kept by the calls that do not involve the
    runner; [WorkerStep.v] shows that a step keeps it. *)

From Stdlib Require Import QArith_base.
From S2P Require Import Prelude PrefixMetrics FreeBlockQueue Request BlockHash BlockPool.
From S2P Require Import SpecializedManager KVCacheConfig KVCacheManager KVCacheLink BlockOwners EncoderCache.
From S2P Require Import Scheduler SchedulerSpec SchedulerLifecycle SchedulerUpdate SchedulerSafety SchedulerCalls SchedulerOutputs.
From S2P Require Import NumPy BlockTable InputBatch InputBatchSpec ModelRunner ModelRunnerSpec ModelRunnerProperties.

Section Sync.
Context `{E : Env} `{T : Torch} {features : Type}.
Implicit Types (s : Scheduler) (w : ModelRunner (features := features)) (q : Request) (pend : gmap string Z).

Notation pool_null s := (null_block (block_pool (kv_cache_manager s))).
Notation kv_block_size s := (KVCacheManager.block_size (kv_cache_manager s)).

(** ** The relation *)

Definition runner_known w (id : string) : option (CachedRequestState * list Z) := ModelRunnerSpec.known w id.

(** The blocks the runner has for a request. *)
Definition blocks_at w (id : string) : list nat := match runner_known w id with Some (cs, _) => cs_block_ids cs | None => [] end.

Record sizes_agree s w : Prop := {
  sz_reqs : max_num_running_reqs (conf s) <= max_num_reqs (input_batch w);
  sz_len : sched_max_model_len (conf s) = Z.of_nat (max_model_len (input_batch w));
  sz_tokens : (max_num_scheduled_tokens (conf s) <= Z.of_nat (max_num_tokens w))%Z;
  sz_block : ModelRunner.block_size w = Z.of_nat (kv_block_size s) /\ 0 < kv_block_size s;
  sz_table : Z.of_nat (max_num_blocks_per_req (table (input_batch w))) =
    ((sched_max_model_len (conf s) + Z.of_nat (kv_block_size s) - 1) / Z.of_nat (kv_block_size s))%Z;
}.

(** A request that the runner can serve: its tokens are its prompt and its output,
    the mask of its allowed tokens can be made and is not one that reordering
    exchanges, and nobody asks for log probabilities of its prompt. *)
Record servable w q : Prop := {
  sa_all : all_token_ids q = prompt_token_ids q ++ output_token_ids q;
  sa_lora : lora_request q <> Some 0%Z;
  sa_allowed : exists row, mask_row (vocab_size (input_batch w)) (allowed_token_ids (sp_sampler (sampling_params q))) = Ok row;
  sa_reorder : reorders w = true -> uses_allowed (sp_sampler (sampling_params q)) = false;
  sa_logprobs : prompt_logprobs (sampling_params q) = None;
}.

(** The runner has the request with all its output tokens, but perhaps the last. *)
Definition knows w q : Prop := exists cs out, runner_known w (request_id q) = Some (cs, out) /\ cs_prompt_token_ids cs = prompt_token_ids q /\
  out `prefix_of` output_token_ids q /\ length (output_token_ids q) <= length out + 1.

(** While the runner's answer about [n] tokens is outstanding: they are the next
    ones it has, and where they reach the last token it has them all. *)
Definition expects w (n : Z) q : Prop := exists cs out, runner_known w (request_id q) = Some (cs, out) /\ cs_prompt_token_ids cs = prompt_token_ids q /\
  (cs_num_computed_tokens cs + n = num_computed_tokens q)%Z /\
  ((Z.of_nat (length (prompt_token_ids q ++ out)) <= num_computed_tokens q)%Z -> output_token_ids q = out).

(** [answered]: the running requests with no outstanding answer; [awaiting]: the
    others, for which [pend] tokens were scheduled. *)
Record synced pend (answered awaiting : list nat) s w : Prop := {
  sy_runner : runner_ok w;
  sy_sizes : sizes_agree s w;
  sy_servable : forall r, r ∈ waiting s ++ answered ++ awaiting -> servable w (obj s r);
  sy_running : forall r, r ∈ answered ++ awaiting -> request_id (obj s r) ∉ finished_req_ids s /\ knows w (obj s r) /\
    covered (pool_null s) (blocks_at w (request_id (obj s r))) (kv_blocks s (request_id (obj s r)));
  sy_awaiting : forall r n, r ∈ awaiting -> pend !! request_id (obj s r) = Some n -> (1 <= n)%Z /\ expects w n (obj s r);
  sy_waiting : forall r, r ∈ waiting s ->
    if bool_decide (status (obj s r) = PREEMPTED) then request_id (obj s r) ∉ finished_req_ids s /\ knows w (obj s r)
    else output_token_ids (obj s r) = [];
  sy_batch : forall id, is_Some (InputBatch.req_id_to_index (input_batch w) !! id) -> id ∈ finished_req_ids s \/
    exists r n, r ∈ answered ++ awaiting /\ request_id (obj s r) = id /\ count_of (input_batch w) id = Some n /\ (num_computed_tokens (obj s r) <= n)%Z;
  sy_cached : forall id, is_Some (runner_known w id) -> id ∈ finished_req_ids s \/
    exists r, request_id (obj s r) = id /\ (r ∈ answered ++ awaiting \/ r ∈ waiting s /\ status (obj s r) = PREEMPTED);
  sy_logprobs : forall id cs out, runner_known w id = Some (cs, out) -> prompt_logprobs (cs_sampling_params cs) = None;
  sy_owned : owned (sched_max_model_len (conf s)) (kv_cache_manager s) (computed_of s);
}.

(** Between two steps. *)
Record in_sync s w : Prop := {
  is_synced : synced ∅ (running s) [] s w;
  is_entries : entries_ok s;
}.

(** ** Changes of the scheduler *)

Lemma sizes_frame s s' w : sizes_agree s w -> conf s' = conf s -> kv_consts (kv_cache_manager s) (kv_cache_manager s') -> sizes_agree s' w.
Proof. intros [] Hc Hk. split; rewrite ?Hc, ?(kc_size _ _ Hk); done. Qed.

Lemma servable_static w q q' g : same_static (append_output_token_ids g q) q' -> servable w q -> servable w q'.
Proof.
  intros [] []. cbn in *. split; rewrite ?ss_params, ?ss_lora; try done. by rewrite ss_all, ss_prompt, ss_output, sa_all0, app_assoc.
Qed.

Lemma knows_static w q q' : same_static q q' -> knows w q -> knows w q'.
Proof. intros [] (cs & out & H). exists cs, out. by rewrite ss_id, ss_prompt, ss_output. Qed.

(** What a call may do to the scheduler so that nothing changes for the runner:
    requests that are not [r] keep what matters here, blocks keep their owners. *)
Record sched_change s s' (r : option nat) : Prop := {
  sg_conf : conf s' = conf s;
  sg_consts : kv_consts (kv_cache_manager s) (kv_cache_manager s');
  sg_obj : forall x, Some x <> r -> same_static (obj s x) (obj s' x) /\ num_computed_tokens (obj s' x) = num_computed_tokens (obj s x) /\
    status (obj s' x) = status (obj s x);
  sg_blocks : forall x, Some x <> r -> x ∈ live s -> kv_blocks s' (request_id (obj s x)) = kv_blocks s (request_id (obj s x));
  sg_owned : owned (sched_max_model_len (conf s')) (kv_cache_manager s') (computed_of s');
}.

(** Request [r] leaves. *)
Lemma synced_leave pend a b a' b' s s' w r :
  synced pend a b s w -> sched_change s s' (Some r) ->
  (forall x, x ∈ waiting s' <-> x ∈ waiting s /\ x <> r) -> (forall x, x ∈ a' <-> x ∈ a /\ x <> r) -> (forall x, x ∈ b' <-> x ∈ b /\ x <> r) ->
  (forall x, x ∈ a ++ b -> x ∈ live s) ->
  finished_req_ids s' = finished_req_ids s ∪ {[request_id (obj s r)]} ->
  (forall x, x ∈ live s -> x <> r -> request_id (obj s x) <> request_id (obj s r)) ->
  synced pend a' b' s' w.
Proof.
  intros [Y1 Y2 Y3 Y4 Y5 Y6 Y7 Y8 Y9 Y10] [G1 G2 G3 G4 G5] Hw Ha Hb Hlive Hfin Hids.
  assert (Hab : forall x, x ∈ a' ++ b' <-> x ∈ a ++ b /\ x <> r) by (intros x; rewrite !elem_of_app, Ha, Hb; tauto).
  assert (Hst : forall x, x <> r -> same_static (obj s x) (obj s' x) /\ num_computed_tokens (obj s' x) = num_computed_tokens (obj s x) /\
    status (obj s' x) = status (obj s x)) by (intros x Hx; apply G3; congruence).
  assert (Hid : forall x, x <> r -> request_id (obj s' x) = request_id (obj s x)) by (intros x Hx; by apply (Hst x Hx)).
  assert (Hnf : forall x, x ∈ live s -> x <> r -> request_id (obj s x) ∉ finished_req_ids s -> request_id (obj s x) ∉ finished_req_ids s').
  { intros x Hx Hne Hn. rewrite Hfin, not_elem_of_union, elem_of_singleton. split; [done|by apply Hids]. }
  assert (Hwl : forall x, x ∈ waiting s -> x ∈ live s) by (intros x Hx; apply elem_of_app; by left).
  split; try done.
  - by eapply sizes_frame.
  - intros x Hx. assert (Hx' : x ∈ waiting s ++ a ++ b /\ x <> r) by (rewrite elem_of_app, Hw, Hab in Hx; rewrite elem_of_app; tauto).
    destruct Hx' as [Hx' Hne]. apply (servable_static w (obj s x) _ []); [rewrite append_tokens_nil; by apply Hst|by apply Y3].
  - intros x [Hx Hne]%Hab. destruct (Y4 x Hx) as (H1 & H2 & H3). rewrite (Hid x Hne). split; [by apply Hnf; auto|].
    split; [eapply knows_static; [by apply Hst|done]|]. rewrite G4 by (auto || congruence). by rewrite (kc_null _ _ G2).
  - intros x n Hx Hp. apply Hb in Hx as [Hx Hne]. rewrite (Hid x Hne) in Hp. destruct (Y5 x n Hx Hp) as (Hn & cs & out & H1 & H2 & H3 & H4).
    destruct (Hst x Hne) as (St & Ec & _). split; [done|]. exists cs, out.
    by rewrite (ss_id _ _ St), (ss_prompt _ _ St), (ss_output _ _ St), Ec.
  - intros x Hx. apply Hw in Hx as [Hx Hne]. specialize (Y6 x Hx). destruct (Hst x Hne) as (St & _ & ->). rewrite (Hid x Hne).
    case_bool_decide; [|by rewrite (ss_output _ _ St)]. destruct Y6 as [H1 H2]. split; [by apply Hnf; auto|by eapply knows_static].
  - intros id Hi. rewrite Hfin. destruct (decide (id = request_id (obj s r))) as [->|Hne]; [left; set_solver|].
    destruct (Y7 id Hi) as [Hf|(x & n & Hx & Hxid & Hn & Hle)]; [left; set_solver|]. right. exists x, n.
    assert (x <> r) by (intros ->; congruence). rewrite Hab, (Hid x), (proj1 (proj2 (Hst x ltac:(done)))) by done. done.
  - intros id Hi. rewrite Hfin. destruct (decide (id = request_id (obj s r))) as [->|Hne]; [left; set_solver|].
    destruct (Y8 id Hi) as [Hf|(x & Hxid & Hx)]; [left; set_solver|]. right. exists x.
    assert (x <> r) by (intros ->; congruence). rewrite Hab, Hw, (Hid x), (proj2 (proj2 (Hst x ltac:(done)))) by done. tauto.
Qed.

(** ** Requests leave *)

Context `{!EnvLaws E} `{!ConnectorLaws E} `{!CollisionFree hash_fn NONE_HASH}.
Context (len : string -> nat -> Z).

Lemma owned_gone L m m' id done done' :
  owned L m done -> kv_frame m m' id -> blocks_of m' id = [] -> (forall id', id' <> id -> done' id' = done id') -> (0 <= L)%Z -> owned L m' done'.
Proof.
  intros Ho Hf Hb Hd HL. apply (owned_frame L m m' id done done' Ho Hf Hd); rewrite ?Hb.
  - cbn [length]. destruct (decide (KVCacheManager.block_size m = 0)) as [->|]; [by rewrite Zdiv_0_r|]. apply Z.div_pos; lia.
  - intros j b [Hj _]. by rewrite Hb in Hj.
Qed.

Lemma gone_change s s' r id :
  sched_ok s -> requests s !! id = Some r -> gone len s s' r id -> (0 <= sched_max_model_len (conf s))%Z ->
  owned (sched_max_model_len (conf s)) (kv_cache_manager s) (computed_of s) -> sched_change s s' (Some r).
Proof.
  intros H Hr [G1 G2 G3 G4 G5 G6 G7 (I1 & I2 & I3)] HL Ho. pose proof Hr as [Hl Hid]%(so_requests _ H). split; try done.
  - apply G6.
  - intros x Hx. rewrite G3 by congruence. done.
  - intros x Hx Hxl. apply (kf_blocks _ _ _ G6). intros Heq. destruct Hx. f_equal. apply (live_id_inj s); [done|done|done|congruence].
  - rewrite G1. apply (owned_gone _ _ _ id _ _ Ho G6 I1); [|done]. intros id' Hne. unfold computed_of. rewrite G2, lookup_delete_ne by done.
    destruct (requests s !! id') as [x|] eqn:Ex; [|done]. rewrite G3; [done|]. intros ->. apply (so_requests _ H) in Ex as [_ Ex]. congruence.
Qed.

Lemma live_len s : sched_ok s -> ready len s ∅ -> live s <> [] -> (0 <= sched_max_model_len (conf s))%Z.
Proof.
  intros H Hrd Hne. destruct (live s) as [|r l] eqn:El; [done|]. destruct (so_range _ H r) as ((? & _) & ? & _); [rewrite El; by left|]. lia.
Qed.

Lemma elem_other_ids s id r l x : sched_ok s -> requests s !! id = Some r -> (forall y, y ∈ l -> y ∈ live s) ->
  x ∈ other_ids s id l <-> x ∈ l /\ x <> r.
Proof. intros H Hr Hl. rewrite <-(other_ids_eq s id r l H Hr Hl), list_elem_of_filter. tauto. Qed.

Lemma synced_removed s s1 id r w : sched_ok s -> ready len s ∅ -> requests s !! id = Some r -> removed_result len s s1 id ->
  synced ∅ (running s) [] s w -> synced ∅ (running s1) [] s1 w.
Proof.
  intros H Hrd Hr [N1 N2 N3 N4 N5 N6 N7 N8] Hy. rewrite Hr in N8. pose proof Hr as [Hl Hid]%(so_requests _ H).
  rewrite bool_decide_true in N6 by (rewrite Hr; by eexists). rewrite <-Hid in N6.
  apply (synced_leave ∅ (running s) [] (running s1) [] s s1 w r); try done.
  - apply (gone_change s s1 r id); try done; [|apply (sy_owned _ _ _ _ _ Hy)]. apply live_len; [done|done|]. by intros Hn; rewrite Hn in Hl; apply elem_of_nil in Hl.
  - intros x. rewrite N4. apply (elem_other_ids s id r); [done|done|]. intros y Hy'. apply elem_of_app. by left.
  - intros x. rewrite N3. apply (elem_other_ids s id r); [done|done|]. intros y Hy'. apply elem_of_app. by right.
  - intros x. rewrite elem_of_nil. tauto.
  - intros x Hx. rewrite app_nil_r in Hx. apply elem_of_app. by right.
  - intros x Hx Hne Heq. by apply Hne, (live_id_inj s).
Qed.

(** *** The queues of cached request data *)

Lemma entries_delete s s' id : entries_ok s -> cached_reqs_data s' = delete id (cached_reqs_data s) -> entries_ok s'.
Proof. intros He Hc id' ds d. rewrite Hc. intros [_ Hl]%lookup_delete_Some. by apply He. Qed.

Lemma free_request_entries s r s' : free_request s r = Ok s' -> entries_ok s -> entries_ok s'.
Proof.
  unfold free_request. intros H He. do 4 (apply bind_ok in H as (? & _ & H)). injection H as <-. by eapply entries_delete.
Qed.

Lemma finish_one_entries st s id s' : finish_one st s id = Ok s' -> entries_ok s -> entries_ok s'.
Proof.
  unfold finish_one. destruct (requests s !! id) as [r|]; [|by intros [= <-]]. intros H He. apply bind_ok in H as (s1 & H1 & H).
  eapply free_request_entries; [exact H|]. intros id' ds d. change (cached_reqs_data (update r (set_status st) s1)) with (cached_reqs_data s1).
  case_bool_decide; apply bind_ok in H1 as (l & _ & H1); injection H1 as <-; apply He.
Qed.

Lemma update_one_entries out mro s stats r s' stats' o stays : update_one out mro s stats r = Ok (s', stats', o, stays) -> entries_ok s -> entries_ok s'.
Proof.
  unfold update_one. destruct (_ =? 0)%Z; [by intros [= <- _ _ _]|]. intros H He. do 5 (apply bind_ok in H as (? & _ & H)).
  apply bind_ok in H as ([[q kept] stopped] & _ & H). apply bind_ok in H as (s1 & H1 & H).
  assert (He1 : entries_ok s1) by (destruct stopped; [eapply free_request_entries; [exact H1|exact He]|injection H1 as <-; exact He]).
  destruct kept; [apply bind_ok in H as (? & _ & H); by injection H as <- _ _ _|]. destruct (take_events q). by injection H as <- _ _ _.
Qed.

Lemma update_loop_entries out mro rs : forall s stats nr outs s' stats' nr' outs',
  update_loop out mro s stats rs nr outs = Ok (s', stats', nr', outs') -> entries_ok s -> entries_ok s'.
Proof.
  induction rs as [|r rs IH]; intros s stats nr outs s' stats' nr' outs'; cbn [update_loop]; [by intros [= <- _ _ _]|].
  intros H He. apply bind_ok in H as ([[[s1 st1] o] stays] & H1 & H). eapply IH; [exact H|]. by eapply update_one_entries.
Qed.

Lemma return_cached_data_entries ds : forall s, entries_ok s -> entries_ok (return_cached_data s ds).
Proof.
  unfold return_cached_data. induction ds as [|d ds IH]; intros s He; cbn [foldl]; [done|]. apply IH. case_bool_decide; [done|].
  intros id l x. cbn. intros [[<- <-]|[_ Hl]]%lookup_insert_Some Hx; [|by apply (He id l)].
  apply elem_of_app in Hx as [Hx|Hx]; [|by apply list_elem_of_singleton in Hx as ->].
  destruct (cached_reqs_data s !! cr_req_id d) as [l|] eqn:El; cbn in Hx; [by eapply He|by apply elem_of_nil in Hx].
Qed.

Lemma update_entries s out mro s' res : update_from_output s out mro = Ok (s', res) -> entries_ok s -> entries_ok s'.
Proof.
  unfold update_from_output. intros H He. apply bind_ok in H as ([[[s1 st1] nr] outs] & H1 & H). apply bind_ok in H as ([s2 st2] & H2 & H). injection H as <- _.
  apply update_loop_entries in H1; [|done]. pose proof (return_cached_data_entries (scheduled_cached_reqs out) s1 H1) as H3.
  unfold make_stats in H2. destruct (negb _); [by injection H2 as <- _|]. destruct (make_prefix_cache_stats _) as [kv st].
  apply bind_ok in H2 as (? & _ & H2). by injection H2 as <- _.
Qed.

(** ** The calls *)

(** [finish_requests] *)
Lemma finish_in_sync s ids st w : status_is_finished st = true -> sched_ok s -> ready len s ∅ -> in_sync s w ->
  exists s', finish_requests s ids st = Ok s' /\ sched_ok s' /\ ready len s' ∅ /\ conf s' = conf s /\ in_sync s' w.
Proof.
  intros Hst H Hrd [Hy He].
  destruct (finish_requests_inv len (fun s => synced ∅ (running s) [] s w) s ids st) as (s' & Hf & ? & ? & ? & ?); try done.
  { intros s1 s2 id r H1 Hrd1 Hr Hres Hy1. by apply (synced_removed s1 s2 id r). }
  exists s'. split_and!; try done. split; [done|]. unfold finish_requests in Hf. apply bind_ok in Hf as (? & _ & Hf).
  revert Hf. apply (foldM_inv entries_ok); [done|]. intros id s1 s2 _ He1 Hf. by eapply finish_one_entries.
Qed.

(** [reset_prefix_cache] *)
Lemma reset_in_sync s w : sched_ok s -> ready len s ∅ -> in_sync s w ->
  exists s' b, sched_reset_prefix_cache s = Ok (s', b) /\ sched_ok s' /\ ready len s' ∅ /\ conf s' = conf s /\ in_sync s' w.
Proof.
  intros H Hrd [[Y1 Y2 Y3 Y4 Y5 Y6 Y7 Y8 Y9 Y10] He].
  destruct (reset_ready len s H Hrd) as (s' & b & Hs & H' & Hrd' & Hc). exists s', b. split_and!; try done.
  destruct (rd_kv _ _ _ Hrd) as [l Hkv].
  destruct (manager_reset_ok (kv_cache_manager s) l Hkv (stats_logged s (rd_stats _ _ _ Hrd))) as (m & b' & Hm & _ & Hk & Hb & _ & _ & _).
  unfold sched_reset_prefix_cache in Hs. rewrite Hm in Hs. injection Hs as <- _.
  assert (Hb' : forall id, blocks_of m id = kv_blocks s id) by (intros id; unfold kv_blocks, blocks_of; by rewrite Hb).
  split; [|done]. split; try done.
  - by eapply sizes_frame.
  - intros r Hr. destruct (Y4 r Hr) as (? & ? & ?). split_and!; try done. unfold kv_blocks. cbn. rewrite Hb'. by rewrite (kc_null _ _ Hk).
  - cbn. eapply owned_same; [exact Y10|done|done].
Qed.

(** [add_request] *)
Lemma add_in_sync now s r q w : sched_ok s -> ready len s ∅ -> r ∉ live s -> requests s !! request_id q = None -> fresh_request (conf s) q ->
  servable w q -> output_token_ids q = [] -> in_sync s w -> in_sync (Scheduler.add_request now s r q) w.
Proof.
  intros H Hrd Hr Hid Hq Hsv Hout [[Y1 Y2 Y3 Y4 Y5 Y6 Y7 Y8 Y9 Y10] He]. destruct (fresh_range _ _ Hq) as [Hrange Hst].
  destruct (add_request_ok now s r q H Hr Hid Hst Hrange) as (Hok & Hw & Hrun & Hc & Hobj & Hs & Hkv & Henc).
  assert (Hrest : status (obj (Scheduler.add_request now s r q) r) = status q /\ finished_req_ids (Scheduler.add_request now s r q) = finished_req_ids s /\
    cached_reqs_data (Scheduler.add_request now s r q) = cached_reqs_data s /\ requests (Scheduler.add_request now s r q) = <[request_id q := r]> (requests s) /\
    num_computed_tokens (obj (Scheduler.add_request now s r q) r) = num_computed_tokens q).
  { unfold Scheduler.add_request. destruct (sched_log_stats _); [rewrite obj_update_eq|]; unfold obj; cbn; by rewrite lookup_total_insert_eq. }
  set (s' := Scheduler.add_request now s r q) in *. clearbody s'. destruct Hrest as (R1 & R2 & R3 & R4 & R5).
  assert (Hne : forall x, x ∈ live s -> x <> r) by (intros x Hx ->; done).
  assert (Hrl : forall x, x ∈ running s -> x ∈ live s) by (intros x Hx; apply elem_of_app; by right).
  assert (Hwl : forall x, x ∈ waiting s -> x ∈ live s) by (intros x Hx; apply elem_of_app; by left).
  assert (Hobjl : forall x, x ∈ running s ++ [] -> obj s' x = obj s x) by (intros x Hx; rewrite app_nil_r in Hx; apply Hobj; auto).
  split; [|intros id ds d; rewrite R3; apply He]. rewrite Hrun. split; rewrite ?R2; try done.
  - destruct Y2. split; rewrite ?Hc, ?Hkv; done.
  - intros x Hx. rewrite Hw, <-app_assoc, !elem_of_app in Hx. destruct Hx as [Hx|[Hx|Hx]].
    + rewrite Hobj by auto. apply Y3. apply elem_of_app. by left.
    + apply list_elem_of_singleton in Hx as ->. apply (servable_static w q _ []); [by rewrite append_tokens_nil|done].
    + rewrite Hobjl by (by apply elem_of_app). apply Y3. apply elem_of_app. right. by apply elem_of_app.
  - intros x Hx. rewrite (Hobjl x Hx). unfold kv_blocks. rewrite Hkv. by apply Y4.
  - intros x Hx. rewrite Hw in Hx. apply elem_of_app in Hx as [Hx|Hx]; [rewrite Hobj by auto; by apply Y6|].
    apply list_elem_of_singleton in Hx as ->. rewrite R1, (ss_output _ _ Hs), bool_decide_false; [done|].
    destruct (fq_status _ _ Hq) as [-> | ->]; done.
  - intros id Hi. destruct (Y7 id Hi) as [|(x & n & Hx & Hrest)]; [by left|right; exists x, n]. by rewrite (Hobjl x Hx).
  - intros id Hi. destruct (Y8 id Hi) as [|(x & Hx & Hor)]; [by left|right; exists x].
    destruct Hor as [Hx2|[Hx2 Hp]]; [rewrite (Hobjl x Hx2); tauto|]. rewrite Hobj by auto. split; [done|right]. rewrite Hw. split; [by apply elem_of_app; left|done].
  - rewrite Hc, Hkv. eapply owned_mono; [exact Y10|]. intros id. unfold computed_of. rewrite R4.
    destruct (decide (id = request_id q)) as [->|Hn]; [rewrite lookup_insert_eq, Hid, R5, (fq_computed _ _ Hq); done|].
    rewrite lookup_insert_ne by done. destruct (requests s !! id) as [x|] eqn:Ex; [|done]. rewrite Hobj; [done|].
    apply Hne. by apply (so_requests _ H) in Ex as [? _].
Qed.
End Sync.
