(* ===== verification/WorkerStep.v ===== *)
(** * A step of scheduler and worker

    What [schedule] hands to a runner that is in sync with it fits the runner
    ([handed_fits], [handed_runs]); after the runner has executed it and the
    scheduler has taken its answer, both are in sync again. *)

From Stdlib Require Import QArith_base.
From S2P Require Import Prelude PrefixMetrics FreeBlockQueue Request BlockHash BlockPool.
From S2P Require Import SpecializedManager KVCacheConfig KVCacheManager KVCacheLink BlockOwners EncoderCache.
From S2P Require Import Scheduler SchedulerSpec SchedulerLifecycle SchedulerUpdate SchedulerSafety SchedulerCalls SchedulerOutputs.
From S2P Require Import NumPy BlockTable InputBatch InputBatchSpec ModelRunner ModelRunnerSpec ModelRunnerProperties ModelRunnerInputs ModelRunnerExecute WorkerSync.

Section Step.
Context `{E : Env} `{!EnvLaws E} `{T : Torch} {features : Type}.
Context (len : string -> nat -> Z) (s0 s' : Scheduler) (w : ModelRunner (features := features)) (out : SchedulerOutput).
Context (H0 : sched_ok s0) (Hy : in_sync s0 w) (Hs : step_result s0 s' out) (Hrd : ready len s' ∅).

Notation null := (null_block (block_pool (kv_cache_manager s0))).
Notation bs := (KVCacheManager.block_size (kv_cache_manager s0)).

Context (Hh : handed s0 (blocks_at w) null s' out).

(** ** The scheduler after the step *)

Lemma step_live r : r ∈ live s' <-> r ∈ live s0.
Proof using H0 Hs. by rewrite (queues_perm s0 H0 s' (sr_queues _ _ _ Hs)). Qed.

Lemma step_static r : r ∈ running s' -> same_static (obj s0 r) (obj s' r).
Proof using H0 Hs Hh. intros Hr. apply (hd_static _ _ _ _ _ Hh), step_live, elem_of_app. by right. Qed.

Lemma step_running_live r : r ∈ running s' -> r ∈ live s0.
Proof using H0 Hs. intros Hr. apply step_live, elem_of_app. by right. Qed.

Lemma step_block_size : KVCacheManager.block_size (kv_cache_manager s') = bs.
Proof using Hh. apply (kc_size _ _ (hd_consts _ _ _ _ _ Hh)). Qed.

(** The blocks of a running request hold its computed tokens, and the row of the
    block table holds its blocks. *)
Lemma step_covered r : r ∈ running s' ->
  (num_computed_tokens (obj s' r) <= Z.of_nat (length (kv_blocks s' (request_id (obj s' r)))) * Z.of_nat bs)%Z.
Proof using H0 Hs Hh Hrd.
  intros Hr. destruct (rd_req _ _ _ Hrd (request_id (obj s' r)) r) as (_ & _ & [Hc _ _]).
  { apply (so_requests _ (sr_ok _ _ _ Hs)). split; [apply elem_of_app; by right|done]. }
  rewrite lookup_empty, step_block_size in Hc. cbn in Hc. unfold kv_blocks. lia.
Qed.

Lemma step_width id : length (kv_blocks s' id) <= max_num_blocks_per_req (table (input_batch w)).
Proof using Hs Hy Hh.
  pose proof (ow_len _ _ _ (hd_owned _ _ _ _ _ Hh) id) as Hl. rewrite (sr_conf _ _ _ Hs), step_block_size in Hl.
  rewrite <-(sz_table _ _ (sy_sizes _ _ _ _ _ (is_synced _ _ Hy))) in Hl. unfold kv_blocks. lia.
Qed.

Lemma step_tokens_fit r : r ∈ running s' ->
  (0 <= num_computed_tokens (obj s' r) <= Request.num_tokens (obj s' r))%Z /\
  (Request.num_tokens (obj s' r) <= Z.of_nat (max_model_len (input_batch w)))%Z.
Proof using H0 Hs Hy Hrd.
  intros Hr. destruct (so_range _ (sr_ok _ _ _ Hs) r) as ((H1 & H2) & _ & H3); [apply elem_of_app; by right|].
  rewrite (sr_conf _ _ _ Hs), (sz_len _ _ (sy_sizes _ _ _ _ _ (is_synced _ _ Hy))) in H3. split; [|done]. split; [done|].
  destruct (rd_req _ _ _ Hrd (request_id (obj s' r)) r) as (_ & Hsv & _).
  { apply (so_requests _ (sr_ok _ _ _ Hs)). split; [apply elem_of_app; by right|done]. }
  pose proof (rw_spec _ (sv_wf _ _ _ Hsv)) as Hsp. unfold num_tokens_with_spec, Request.num_tokens in *. rewrite Hsp in H2. cbn in H2. lia.
Qed.

Lemma step_servable r : r ∈ running s' -> servable w (obj s' r).
Proof using H0 Hs Hy Hh.
  intros Hr. apply (servable_static w (obj s0 r) _ []); [rewrite append_tokens_nil; by apply step_static|].
  apply (sy_servable _ _ _ _ _ (is_synced _ _ Hy)). rewrite app_nil_r. by apply step_running_live.
Qed.

Lemma batch_not_waiting r : r ∈ waiting s0 -> is_Some (InputBatch.req_id_to_index (input_batch w) !! request_id (obj s0 r)) ->
  request_id (obj s0 r) ∈ finished_req_ids s0.
Proof using H0 Hy.
  intros Hw Hb. destruct (sy_batch _ _ _ _ _ (is_synced _ _ Hy) _ Hb) as [|(x & n & Hx & Hid & _)]; [done|]. rewrite app_nil_r in Hx.
  assert (x = r) as -> by (apply (live_id_inj s0); [done|apply elem_of_app; by right|apply elem_of_app; by left|done]).
  by destruct (running_not_waiting s0 H0 r).
Qed.

(** A cached request: the runner has all its tokens but perhaps the last. *)
Lemma step_knows r : r ∈ running s' -> r ∈ running s0 \/ (r ∈ waiting s0 /\ status (obj s0 r) = PREEMPTED) ->
  knows w (obj s' r) /\ request_id (obj s' r) ∉ finished_req_ids s0.
Proof using H0 Hs Hy Hh.
  intros Hr Hor. pose proof (step_static r Hr) as Hst. rewrite (ss_id _ _ Hst). destruct Hor as [Hr0|[Hw Hp]].
  - destruct (sy_running _ _ _ _ _ (is_synced _ _ Hy) r) as (Hf & Hk & _); [by rewrite app_nil_r|]. split; [by eapply knows_static|done].
  - pose proof (sy_waiting _ _ _ _ _ (is_synced _ _ Hy) r Hw) as H1. rewrite bool_decide_true in H1 by done. destruct H1 as [Hf Hk].
    split; [by eapply knows_static|done].
Qed.

Lemma goes_on_source d r n : goes_on s0 (blocks_at w) null s' out d r n -> r ∈ running s0 \/ (r ∈ waiting s0 /\ status (obj s0 r) = PREEMPTED).
Proof. intros (_ & _ & _ & _ & H). destruct (resumed_from_preemption d); [right|left]; tauto. Qed.

Lemma goes_on_tokens d r n : r ∈ running s' -> goes_on s0 (blocks_at w) null s' out d r n ->
  (0 <= cr_num_computed_tokens d)%Z /\ (1 <= n)%Z /\ (cr_num_computed_tokens d + n = num_computed_tokens (obj s' r))%Z /\
  new_token_ids d = take (Z.to_nat n) (drop (Z.to_nat (cr_num_computed_tokens d)) (all_token_ids (obj s' r))) /\
  length (new_token_ids d) = Z.to_nat n.
Proof using H0 Hs Hy Hh Hrd.
  intros Hr (Hn & Hid & Hc & Htok & _). rewrite Hid in Hn. destruct (hd_counts _ _ _ _ _ Hh r n Hr Hn) as [Hn1 Hn2].
  destruct (step_tokens_fit r Hr) as [[H1 H2] H3]. rewrite Hc. split; [lia|]. split; [done|]. split; [lia|].
  assert (Es : new_token_ids d = take (Z.to_nat n) (drop (Z.to_nat (num_computed_tokens (obj s' r) - n)) (all_token_ids (obj s' r)))).
  { rewrite Htok. set (c := (num_computed_tokens (obj s' r) - n)%Z) in *. pose proof (py_slice_nat (Z.to_nat c) (Z.to_nat (c + n)) (all_token_ids (obj s' r))) as Ep.
    rewrite !Z2Nat.id in Ep by lia. rewrite Ep by (unfold Request.num_tokens in *; lia). f_equal. lia. }
  split; [exact Es|]. rewrite Es, length_take, length_drop. unfold Request.num_tokens in *. lia.
Qed.

Lemma prefix_drop_take {A} (a l : list A) c n : a `prefix_of` l -> drop c a `prefix_of` take n (drop c l) \/ take n (drop c l) `prefix_of` drop c a.
Proof.
  intros [x ->]. destruct (decide (length (drop c a) <= n)) as [Hl|Hl].
  - left. destruct (decide (c <= length a)) as [Hc|Hc].
    + rewrite drop_app_le by done. exists (take (n - length (drop c a)) x). by rewrite take_app_ge.
    + rewrite drop_ge by lia. apply prefix_nil.
  - right. rewrite length_drop in Hl. rewrite drop_app_le by lia. rewrite take_app_le by (rewrite length_drop; lia). apply prefix_take.
Qed.

(** What the runner has and what it gets are parts of the same tokens. *)
Lemma goes_on_agrees d r n cs o : r ∈ running s' -> goes_on s0 (blocks_at w) null s' out d r n ->
  runner_known w (cr_req_id d) = Some (cs, o) -> agrees (Z.to_nat (cr_num_computed_tokens d)) (cs_prompt_token_ids cs ++ o) (new_token_ids d) /\
  cs_prompt_token_ids cs = prompt_token_ids (obj s' r) /\ o `prefix_of` output_token_ids (obj s' r) /\
  length (output_token_ids (obj s' r)) <= length o + 1.
Proof using H0 Hs Hy Hh Hrd.
  intros Hr Hg Hk. destruct (goes_on_tokens d r n Hr Hg) as (Hc & Hn & Hcn & Htok & Hlen). pose proof Hg as (_ & Hid & _).
  destruct (step_knows r Hr (goes_on_source d r n Hg)) as [(cs' & o' & Hk' & Hp & Ho & Hl) _]. rewrite <-Hid, Hk in Hk'. injection Hk' as <- <-.
  split; [|done]. destruct (step_tokens_fit r Hr) as [[_ Hle] _]. unfold Request.num_tokens in Hle. rewrite (sa_all _ _ (step_servable r Hr)) in Hle, Htok.
  rewrite length_app in Hle. split.
  - rewrite Hp, length_app. lia.
  - rewrite Htok, Hp. apply prefix_drop_take. by apply prefix_app.
Qed.

(** ** The output fits the runner *)

Lemma handed_scheduled : scheduled_ids out = handed_ids out.
Proof. done. Qed.

Lemma scheduled_running id : id ∈ scheduled_ids out -> exists r n, r ∈ running s' /\ request_id (obj s' r) = id /\ num_scheduled_tokens out !! id = Some n.
Proof using Hh.
  intros [(d & -> & Hd)%list_elem_of_fmap|(d & -> & Hd)%list_elem_of_fmap]%elem_of_app.
  - destruct (hd_new _ _ _ _ _ Hh d Hd) as (r & n & Hr & _ & _ & Hn & Hid & _). by exists r, n.
  - destruct (hd_cached _ _ _ _ _ Hh d Hd) as (r & n & Hr & Hn & Hid & _). by exists r, n.
Qed.

Lemma scheduled_few : length (scheduled_ids out) <= max_num_reqs (input_batch w).
Proof using Hs Hy Hh.
  etransitivity; [|etransitivity; [apply (so_limit _ (sr_ok _ _ _ Hs))|rewrite (sr_conf _ _ _ Hs); apply (sz_reqs _ _ (sy_sizes _ _ _ _ _ (is_synced _ _ Hy)))]].
  rewrite <-(length_fmap (fun r => request_id (obj s' r)) (running s')). apply submseteq_length, NoDup_submseteq; [apply (hd_ids _ _ _ _ _ Hh)|].
  intros id Hid. destruct (scheduled_running id Hid) as (r & n & Hr & <- & _). apply list_elem_of_fmap. by exists r.
Qed.

Lemma handed_new_fits d : d ∈ scheduled_new_reqs out -> new_fits (input_batch w) d /\
  (InputBatch.req_id_to_index (input_batch w) !! nr_req_id d = None \/ nr_req_id d ∈ out_finished_req_ids out) /\
  (reorders w = true -> uses_allowed (sp_sampler (nr_sampling_params d)) = false).
Proof using H0 Hs Hy Hh Hrd.
  intros Hd. destruct (hd_new _ _ _ _ _ Hh d Hd) as (r & n & Hr & Hw & Hp & Hn & Hid & Hpr & Hsp & Hlo & Hc & Hb).
  destruct (step_servable r Hr) as [A1 A2 A3 A4 A5]. destruct (step_tokens_fit r Hr) as [_ Hle]. unfold Request.num_tokens in Hle. rewrite A1, length_app in Hle.
  rewrite Hsp. split; [|split; [|exact A4]].
  - split; rewrite ?Hpr, ?Hb, ?Hlo, ?Hsp; [lia|apply step_width|done|done].
  - rewrite (proj1 (sr_finished _ _ _ Hs)), Hid, (ss_id _ _ (step_static r Hr)).
    destruct (InputBatch.req_id_to_index (input_batch w) !! request_id (obj s0 r)) eqn:Ei; [right|by left]. apply batch_not_waiting; [done|by eexists].
Qed.

Lemma handed_cached_fits d : d ∈ scheduled_cached_reqs out -> cr_req_id d ∉ out_finished_req_ids out /\
  cached_fits (scheduled_spec_decode_tokens out) (input_batch w) (runner_known w (cr_req_id d)) d.
Proof using H0 Hs Hy Hh Hrd.
  intros Hd. destruct (hd_cached _ _ _ _ _ Hh d Hd) as (r & n & Hr & Hg). destruct (goes_on_tokens d r n Hr Hg) as (Hc & Hn & Hcn & Htok & Hlen).
  destruct (step_knows r Hr (goes_on_source d r n Hg)) as [(cs & o & Hk & _) Hnf]. destruct (step_tokens_fit r Hr) as [[_ Hle] HL].
  pose proof Hg as (_ & Hid & Hcd & _ & Hcase). rewrite Hid, (proj1 (sr_finished _ _ _ Hs)). split; [done|].
  destruct (goes_on_agrees d r n cs o Hr Hg ltac:(by rewrite Hid)) as (Hag & _). split.
  - exists cs, o. split; [done|]. split; [done|]. cbn [after_step fst cs_block_ids set_progress]. pose proof (step_width (request_id (obj s' r))) as Hwd.
    destruct (resumed_from_preemption d); [destruct Hcase as (_ & _ & ->); done|]. destruct Hcase as [_ [Hl _]].
    unfold blocks_at in Hl. rewrite Hk in Hl. lia.
  - done.
  - rewrite (hd_spec _ _ _ _ _ Hh), lookup_empty. cbn [default length]. lia.
  - intros i Hi. rewrite Hid in Hi. pose proof (step_static r Hr) as Hst. rewrite (ss_id _ _ Hst) in *.
    assert (Hb : is_Some (InputBatch.req_id_to_index (input_batch w) !! request_id (obj s0 r))) by (by eexists).
    destruct (resumed_from_preemption d) eqn:Er.
    { destruct Hcase as (Hw & _). by destruct (Hnf (batch_not_waiting r Hw Hb)). }
    split; [done|]. destruct Hcase as [Hr0 _].
    destruct (sy_batch _ _ _ _ _ (is_synced _ _ Hy) _ Hb) as [|(x & m & Hx & Hxid & Hm & Hle2)]; [done|]. rewrite app_nil_r in Hx.
    assert (x = r) as -> by (apply (live_id_inj s0); [done|apply elem_of_app; by right|apply elem_of_app; by right|done]).
    pose proof (sr_progress _ _ _ Hs r Hr0 Hr) as Hprog. destruct Hg as (Hsn & _). rewrite Hid in Hsn. rewrite Hsn in Hprog. cbn in Hprog.
    exists (Z.to_nat m). unfold count_of in Hm. rewrite Hi in Hm. cbn in Hm. rewrite Hm. destruct (so_range _ H0 r) as ((? & _) & _); [apply elem_of_app; by right|].
    split; [f_equal|]; lia.
Qed.

Lemma handed_fits : step_fits w out.
Proof using H0 Hs Hy Hh Hrd.
  split; [apply (hd_ids _ _ _ _ _ Hh)|apply (hd_sched _ _ _ _ _ Hh)|exact scheduled_few|exact handed_new_fits|exact handed_cached_fits].
Qed.

(** The total is the sum over any list of the scheduled ids. *)
Lemma sum_scheduled (m : gmap string Z) : (forall id n, m !! id = Some n -> (0 <= n)%Z) -> forall ids, NoDup ids ->
  (forall id, is_Some (m !! id) <-> id ∈ ids) ->
  map_fold (fun _ n acc => (n + acc)%Z) 0%Z m = Z.of_nat (sum_list ((fun id => Z.to_nat (default 0%Z (m !! id))) <$> ids)).
Proof.
  induction m as [|id n m Hid IH] using map_ind; intros Hpos ids Hnd Hin.
  - destruct ids as [|id ids]; [done|]. destruct (proj2 (Hin id)) as [? Hx]; [by left|]. by rewrite lookup_empty in Hx.
  - rewrite map_fold_insert_L by (done || intros; lia).
    destruct (proj1 (list_elem_of_lookup ids id)) as [i Hi]; [apply Hin; rewrite lookup_insert_eq; by eexists|].
    pose proof (delete_Permutation ids i id Hi) as Hp. assert (Hnd' := Hnd). rewrite Hp in Hnd'. apply NoDup_cons in Hnd' as [Hn1 Hn2].
    rewrite (IH) with (ids := delete i ids).
    + rewrite Hp at 2. cbn. rewrite lookup_insert_eq. cbn [default]. rewrite Nat2Z.inj_add, Z2Nat.id by (apply (Hpos id); by rewrite lookup_insert_eq).
      do 3 f_equal. apply list_fmap_ext. intros j x Hx. rewrite lookup_insert_ne; [done|]. intros ->. apply Hn1. by eapply list_elem_of_lookup_2.
    + intros id' k Hk. apply (Hpos id'). rewrite lookup_insert_ne; [done|]. intros ->. congruence.
    + done.
    + intros id'. assert (Hx : id' ∈ ids <-> id' = id \/ id' ∈ delete i ids) by (rewrite Hp at 1; by rewrite elem_of_cons).
      destruct (decide (id' = id)) as [->|Hne]; [rewrite Hid; split; [by intros []|done]|].
      specialize (Hin id'). rewrite lookup_insert_ne in Hin by done. rewrite Hin, Hx. tauto.
Qed.

Lemma handed_counts id n : num_scheduled_tokens out !! id = Some n -> (1 <= n)%Z /\ scheduled_for out id = Z.to_nat n.
Proof using Hs. intros Hn. split; [by apply (sr_scheduled _ _ _ Hs id)|]. unfold scheduled_for. by rewrite Hn. Qed.

Lemma handed_new_runs d : d ∈ scheduled_new_reqs out -> (0 <= nr_num_computed_tokens d)%Z /\
  Z.to_nat (nr_num_computed_tokens d) + scheduled_for out (nr_req_id d) <= length (nr_prompt_token_ids d) /\
  Z.to_nat (nr_num_computed_tokens d) + scheduled_for out (nr_req_id d) <= length (nr_block_ids d) * bs.
Proof using H0 Hs Hy Hh Hrd.
  intros Hd. destruct (hd_new _ _ _ _ _ Hh d Hd) as (r & n & Hr & Hw & Hp & Hn & Hid & Hpr & _ & _ & Hc & Hb).
  destruct (handed_counts _ _ Hn) as [Hn1 ->]. rewrite Hid in Hn. destruct (hd_counts _ _ _ _ _ Hh r n Hr Hn) as [_ Hn2].
  destruct (step_tokens_fit r Hr) as [[_ Hle] _]. pose proof (sy_waiting _ _ _ _ _ (is_synced _ _ Hy) r Hw) as Ho. rewrite bool_decide_false in Ho by done.
  unfold Request.num_tokens in Hle. rewrite (sa_all _ _ (step_servable r Hr)), (ss_output _ _ (step_static r Hr)), Ho, app_nil_r in Hle.
  pose proof (step_covered r Hr). rewrite Hc, Hpr, Hb. lia.
Qed.

Lemma handed_cached_runs d : d ∈ scheduled_cached_reqs out -> scheduled_for out (cr_req_id d) <= length (new_token_ids d) /\
  forall q o, after_step d <$> runner_known w (cr_req_id d) = Some (q, o) ->
    Z.to_nat (cr_num_computed_tokens d) + scheduled_for out (cr_req_id d) <= length (cs_block_ids q) * bs.
Proof using H0 Hs Hy Hh Hrd.
  intros Hd. destruct (hd_cached _ _ _ _ _ Hh d Hd) as (r & n & Hr & Hg). destruct (goes_on_tokens d r n Hr Hg) as (Hc & Hn & Hcn & Htok & Hlen).
  pose proof Hg as (Hsn & Hid & Hcd & _ & Hcase). destruct (handed_counts _ _ Hsn) as [_ ->]. split; [lia|].
  intros q o Hq. apply fmap_Some in Hq as ([cs o'] & Hk & Eq). injection Eq as -> ->. cbn [cs_block_ids set_progress]. pose proof (step_covered r Hr) as Hcov.
  assert (Hl : length (if resumed_from_preemption d then new_block_ids d else cs_block_ids cs ++ new_block_ids d) = length (kv_blocks s' (request_id (obj s' r)))).
  { destruct (resumed_from_preemption d); [by destruct Hcase as (_ & _ & ->)|]. destruct Hcase as [_ [Hl _]]. unfold blocks_at in Hl. rewrite <-Hid, Hk in Hl. by rewrite Hid in Hl. }
  rewrite Hl. lia.
Qed.

Lemma handed_total : total_num_scheduled_tokens out = Z.of_nat (sum_list (scheduled_for out <$> scheduled_ids out)).
Proof using Hs Hh.
  rewrite (proj2 (SchedulerSpec.sr_total _ _ _ Hs)). apply sum_scheduled; [|apply (hd_ids _ _ _ _ _ Hh)|apply (hd_sched _ _ _ _ _ Hh)].
  intros id n Hn. destruct (handed_counts id n Hn). lia.
Qed.

Lemma handed_total_pos id n : num_scheduled_tokens out !! id = Some n -> total_num_scheduled_tokens out <> 0%Z.
Proof using Hs Hh.
  intros Hn. destruct (handed_counts id n Hn) as [Hn1 Hf]. assert (Hid : id ∈ scheduled_ids out) by (apply (hd_sched _ _ _ _ _ Hh); by eexists).
  rewrite handed_total. enough (scheduled_for out id <= sum_list (scheduled_for out <$> scheduled_ids out)) by lia. clear -Hid.
  induction (scheduled_ids out) as [|x l IH]; [by apply elem_of_nil in Hid|]. cbn. apply elem_of_cons in Hid as [->|Hid]; [lia|]. specialize (IH Hid). cbn in IH. lia.
Qed.

Lemma handed_runs : total_num_scheduled_tokens out <> 0%Z -> step_runs w out bs.
Proof using H0 Hs Hy Hh Hrd.
  intros Ht. destruct (SchedulerSpec.sr_total _ _ _ Hs) as [Hle _]. pose proof (is_synced _ _ Hy) as Hsy. pose proof handed_total as Hsum.
  split.
  - apply (sz_block _ _ (sy_sizes _ _ _ _ _ Hsy)).
  - intros id Hid. apply (hd_sched _ _ _ _ _ Hh) in Hid as [n Hn]. destruct (handed_counts id n Hn) as [H1 ->]. rewrite Hn. f_equal. lia.
  - exact handed_new_runs.
  - exact handed_cached_runs.
  - split; [exact Hsum|]. pose proof (sz_tokens _ _ (sy_sizes _ _ _ _ _ Hsy)). lia.
  - apply (hd_spec _ _ _ _ _ Hh).
Qed.

(** Nobody asks for log probabilities of a prompt. *)
Lemma updated_logprobs w1 id cs o : step_done w out w1 -> runner_known w1 id = Some (cs, o) -> prompt_logprobs (cs_sampling_params cs) = None.
Proof using H0 Hs Hy Hh.
  intros Hd Hk. destruct (sd_states _ _ _ Hd) as [U1 U2 U3]. unfold runner_known in Hk.
  destruct (decide (id ∈ scheduled_ids out)) as [[(d & -> & Hi)%list_elem_of_fmap|(d & -> & Hi)%list_elem_of_fmap]%elem_of_app|Hid].
  - destruct (U1 d Hi) as (q & Eq & (_ & _ & _ & _ & Esp & _)). rewrite Hk in Eq. injection Eq as -> _. rewrite Esp.
    destruct (hd_new _ _ _ _ _ Hh d Hi) as (r & n & Hr & _ & _ & _ & _ & _ & -> & _). apply (sa_logprobs _ _ (step_servable r Hr)).
  - rewrite (U2 d Hi) in Hk. apply fmap_Some in Hk as ([q0 o0] & Ek & Eq). injection Eq as -> _.
    by apply (sy_logprobs _ _ _ _ _ (is_synced _ _ Hy) (cr_req_id d) q0 o0).
  - rewrite (U3 id Hid) in Hk. destruct (decide _); [done|]. by apply (sy_logprobs _ _ _ _ _ (is_synced _ _ Hy) id cs o).
Qed.

(** ** After the runner's step *)

Context `{NP : NumPy} `{SO : SetOrder} `{D : !Device features}.
Context (w1 w' : ModelRunner (features := features)) (mro : ModelRunnerOutput) (Hex : executed w out w1 w' mro).

(** No chunk of a prefill ends among the output tokens: a request that was
    preempted gets its output tokens back in one piece. *)
Definition whole_prefills : Prop := forall r n, r ∈ running s' -> num_scheduled_tokens out !! request_id (obj s' r) = Some n ->
  (num_computed_tokens (obj s' r) < Request.num_tokens (obj s' r))%Z -> (num_computed_tokens (obj s' r) < Z.of_nat (length (prompt_token_ids (obj s' r))))%Z.

Context (Hwhole : whole_prefills).

Lemma after_same : same_settings w w' /\ same_dims (input_batch w) (input_batch w').
Proof using Hex.
  destruct (sd_settings _ _ _ (ex_done _ _ _ _ _ Hex)) as [A1 A2], (sn_settings _ _ (ex_same _ _ _ _ _ Hex)) as [B1 B2].
  split; [by eapply same_settings_trans|by eapply same_dims_trans].
Qed.

Lemma after_known id : runner_known w' id = runner_known w1 id.
Proof using Hex. apply (sn_known _ _ (ex_same _ _ _ _ _ Hex)). Qed.

(** A request and what the runner has of it after the step; the answer about the
    scheduled tokens, if any, is still to come. *)
Definition up_to_date (r : nat) (cs : CachedRequestState) (o : list Z) : Prop := let q := obj s' r in
  cs_prompt_token_ids cs = prompt_token_ids q /\ o `prefix_of` output_token_ids q /\ length (output_token_ids q) <= length o + 1 /\
  covered null (cs_block_ids cs) (kv_blocks s' (request_id q)) /\ prompt_logprobs (cs_sampling_params cs) = None.

Definition computing (r : nat) (n : Z) (cs : CachedRequestState) (o : list Z) : Prop := let q := obj s' r in
  (cs_num_computed_tokens cs + n = num_computed_tokens q)%Z /\ (num_computed_tokens q <= Z.of_nat (length (prompt_token_ids q ++ o)))%Z /\
  ((Z.of_nat (length (prompt_token_ids q ++ o)) <= num_computed_tokens q)%Z -> output_token_ids q = o).

Lemma after_new d : d ∈ scheduled_new_reqs out -> exists r n cs, r ∈ running s' /\ nr_req_id d = request_id (obj s' r) /\
  num_scheduled_tokens out !! nr_req_id d = Some n /\ (1 <= n)%Z /\ runner_known w' (nr_req_id d) = Some (cs, []) /\ up_to_date r cs [] /\ computing r n cs [].
Proof using All.
  intros Hd. destruct (hd_new _ _ _ _ _ Hh d Hd) as (r & n & Hr & Hw & Hp & Hn & Hid & Hpr & Hsp & _ & Hc & Hb).
  destruct (handed_counts _ _ Hn) as [Hn1 _]. pose proof (sy_waiting _ _ _ _ _ (is_synced _ _ Hy) r Hw) as Ho. rewrite bool_decide_false in Ho by done.
  rewrite <-(ss_output _ _ (step_static r Hr)) in Ho. destruct (step_tokens_fit r Hr) as [[_ Hle] _]. pose proof (step_servable r Hr) as [A1 _ _ _ A5].
  unfold Request.num_tokens in Hle. rewrite A1 in Hle.
  destruct (su_new _ _ _ (sd_states _ _ _ (ex_done _ _ _ _ _ Hex)) d Hd) as (cs & Hk & _ & I2 & _ & _ & I5 & I6 & I7 & _).
  exists r, n, cs. split; [done|]. split; [done|]. split; [done|]. split; [done|]. split; [by rewrite after_known|]. unfold up_to_date, computing.
  rewrite Ho, I2, I5, I6, I7, Hpr, Hsp, Hb, app_nil_r in *. split; [|split; [lia|split; [exact Hle|done]]].
  split; [done|]. split; [by exists []|]. split; [cbn; lia|]. split; [apply covered_refl|exact A5].
Qed.

(** The tokens the runner has after a step are again a part of the request's. *)
Lemma lacking_prefix {A} (toks l new : list A) c n : toks `prefix_of` l -> c <= length toks -> new = take n (drop c l) ->
  toks ++ drop (length toks - c) new `prefix_of` l.
Proof.
  intros [x ->] Hc ->. apply prefix_app. rewrite skipn_firstn_comm, drop_drop. replace (c + (length toks - c)) with (length toks) by lia.
  rewrite drop_app_length. apply prefix_take.
Qed.

Lemma after_cached d : d ∈ scheduled_cached_reqs out -> exists r n cs o, r ∈ running s' /\ cr_req_id d = request_id (obj s' r) /\
  num_scheduled_tokens out !! cr_req_id d = Some n /\ (1 <= n)%Z /\ runner_known w' (cr_req_id d) = Some (cs, o) /\ up_to_date r cs o /\ computing r n cs o /\
  (cr_num_computed_tokens d + Z.of_nat (length (new_token_ids d)))%Z = num_computed_tokens (obj s' r).
Proof using All.
  intros Hd. destruct (hd_cached _ _ _ _ _ Hh d Hd) as (r & n & Hr & Hg). destruct (goes_on_tokens d r n Hr Hg) as (Hc & Hn & Hcn & Htok & Hlen).
  pose proof Hg as (Hsn & Hid & Hcd & _ & Hcase). destruct (step_knows r Hr (goes_on_source d r n Hg)) as [(cs & o & Hk & _) Hnf]. rewrite <-Hid in Hk.
  destruct (goes_on_agrees d r n cs o Hr Hg Hk) as (Hag & Hp & Ho & Hl). pose proof (step_servable r Hr) as [A1 _ _ _ A5].
  pose proof (su_cached _ _ _ (sd_states _ _ _ (ex_done _ _ _ _ _ Hex)) d Hd) as Ek.
  change (ModelRunnerSpec.known w (cr_req_id d)) with (runner_known w (cr_req_id d)) in Ek. rewrite Hk in Ek. cbn [fmap option_fmap option_map after_step] in Ek.
  set (c := Z.to_nat (cr_num_computed_tokens d)) in *. set (x := lacking c (cs_prompt_token_ids cs ++ o) (new_token_ids d)) in *.
  destruct (lacking_ok c _ _ Hag) as [Hlen' _]. fold x in Hlen'.
  assert (Hpre : (cs_prompt_token_ids cs ++ o) ++ x `prefix_of` all_token_ids (obj s' r)).
  { apply (lacking_prefix _ _ _ c (Z.to_nat n)); [|apply Hag|exact Htok]. rewrite Hp, A1. by apply prefix_app. }
  assert (Hox : o ++ x `prefix_of` output_token_ids (obj s' r)).
  { rewrite A1, Hp, <-app_assoc in Hpre. by apply prefix_app_inv in Hpre. }
  exists r, n. do 2 eexists. split; [done|]. split; [done|]. split; [done|]. split; [done|]. split; [rewrite after_known; exact Ek|].
  rewrite Hp, <-app_assoc, length_app in Hlen'. destruct (step_tokens_fit r Hr) as [[_ Hle] _]. split; [|split; [|lia]].
  - unfold up_to_date. cbn [cs_prompt_token_ids set_progress cs_block_ids cs_sampling_params]. split; [done|]. split; [done|]. split; [rewrite length_app; lia|]. split.
    + destruct (resumed_from_preemption d); [destruct Hcase as (_ & _ & ->); apply covered_refl|]. destruct Hcase as [_ Hcov].
      unfold blocks_at in Hcov. rewrite <-Hid, Hk in Hcov. by rewrite <-Hid.
    + by apply (sy_logprobs _ _ _ _ _ (is_synced _ _ Hy) (cr_req_id d) cs o).
  - unfold computing. cbn [cs_num_computed_tokens set_progress]. split; [done|]. rewrite length_app. split; [lia|]. intros Hfull.
    assert (Hall : (Request.num_tokens (obj s' r) <= num_computed_tokens (obj s' r))%Z).
    { apply Z.nlt_ge. intros Hlt. rewrite Hid in Hsn. specialize (Hwhole r n Hr Hsn Hlt). lia. }
    unfold Request.num_tokens in *. rewrite A1, length_app in Hall, Hle. destruct Hox as [y Ey]. pose proof (f_equal length Ey) as Hy'. rewrite (length_app _ y) in Hy'.
    destruct y; [by rewrite app_nil_r in Ey|]. cbn in Hy'. lia.
Qed.

Lemma after_scheduled id : id ∈ scheduled_ids out -> exists r n cs o, r ∈ running s' /\ id = request_id (obj s' r) /\
  num_scheduled_tokens out !! id = Some n /\ (1 <= n)%Z /\ runner_known w' id = Some (cs, o) /\ up_to_date r cs o /\ computing r n cs o.
Proof using All.
  intros [(d & -> & Hd)%list_elem_of_fmap|(d & -> & Hd)%list_elem_of_fmap]%elem_of_app.
  - destruct (after_new d Hd) as (r & n & cs & H). by exists r, n, cs, [].
  - destruct (after_cached d Hd) as (r & n & cs & o & ? & ? & ? & ? & ? & ? & ? & _). by exists r, n, cs, o.
Qed.

Lemma after_other id : id ∉ scheduled_ids out -> runner_known w' id = if decide (id ∈ finished_req_ids s0) then None else runner_known w id.
Proof using Hex Hs.
  intros Hid. rewrite after_known. unfold runner_known. rewrite (su_other _ _ _ (sd_states _ _ _ (ex_done _ _ _ _ _ Hex)) id Hid).
  by rewrite (proj1 (sr_finished _ _ _ Hs)).
Qed.

(** A request that runs without being scheduled ran before, and nothing changed. *)
Lemma after_idle r : r ∈ running s' -> num_scheduled_tokens out !! request_id (obj s' r) = None ->
  exists cs o, runner_known w' (request_id (obj s' r)) = Some (cs, o) /\ up_to_date r cs o.
Proof using All.
  intros Hr Hn. pose proof (step_static r Hr) as Hst. assert (Hns : request_id (obj s' r) ∉ scheduled_ids out).
  { intros Hid. apply (hd_sched _ _ _ _ _ Hh) in Hid as [? ?]. congruence. }
  destruct (decide (r ∈ running s0)) as [Hr0|Hr0].
  2: { destruct (hd_admitted _ _ _ _ _ Hh r Hr Hr0) as [? ?]. congruence. }
  destruct (step_knows r Hr (or_introl Hr0)) as [(cs & o & Hk & Hp & Ho & Hl) Hnf].
  exists cs, o. rewrite after_other, decide_False by done. split; [done|]. split; [done|]. split; [done|]. split; [done|]. split.
  - pose proof (hd_idle _ _ _ _ _ Hh r Hr Hn) as Hcov. unfold blocks_at in Hcov. by rewrite Hk in Hcov.
  - by apply (sy_logprobs _ _ _ _ _ (is_synced _ _ Hy) (request_id (obj s' r)) cs o).
Qed.

Lemma waiting_not_scheduled r : r ∈ waiting s' -> request_id (obj s' r) ∉ scheduled_ids out.
Proof using Hs Hh.
  intros Hr Hid. destruct (scheduled_running _ Hid) as (x & n & Hx & Hxid & _). pose proof (sr_ok _ _ _ Hs) as H.
  assert (x = r) as -> by (apply (live_id_inj s'); [done|apply elem_of_app; by right|apply elem_of_app; by left|done]). by destruct (running_not_waiting s' H r).
Qed.

(** Where a waiting request comes from. *)
Lemma waiting_source r : r ∈ waiting s' -> same_static (obj s0 r) (obj s' r) /\
  if bool_decide (status (obj s' r) = PREEMPTED) then r ∈ running s0 \/ (r ∈ waiting s0 /\ status (obj s0 r) = PREEMPTED)
  else r ∈ waiting s0 /\ status (obj s0 r) <> PREEMPTED.
Proof using H0 Hs Hh.
  intros Hr. assert (Hl : r ∈ live s0) by (apply step_live, elem_of_app; by left). split; [by apply (hd_static _ _ _ _ _ Hh)|].
  pose proof (hd_status _ _ _ _ _ Hh r Hr) as Hst. apply elem_of_app in Hl as [Hw|Hr0].
  - case_bool_decide as Hb; [apply Hst in Hb as [?|?]; [by left|by right]|]. split; [done|]. intros Hp. apply Hb, Hst. by right.
  - rewrite bool_decide_true by (apply Hst; by left). by left.
Qed.

Lemma after_waiting r : r ∈ waiting s' ->
  if bool_decide (status (obj s' r) = PREEMPTED) then request_id (obj s' r) ∉ finished_req_ids s' /\ knows w' (obj s' r) else output_token_ids (obj s' r) = [].
Proof using All.
  intros Hr. destruct (waiting_source r Hr) as [Hst Hsrc]. pose proof (is_synced _ _ Hy) as Hsy. case_bool_decide as Hb.
  - rewrite (proj2 (sr_finished _ _ _ Hs)). split; [set_solver|].
    assert (Hk : request_id (obj s0 r) ∉ finished_req_ids s0 /\ knows w (obj s0 r)).
    { destruct Hsrc as [Hr0|[Hw Hp]].
      - destruct (sy_running _ _ _ _ _ Hsy r) as (? & ? & _); [by rewrite app_nil_r|done].
      - pose proof (sy_waiting _ _ _ _ _ Hsy r Hw) as H1. by rewrite bool_decide_true in H1. }
    destruct Hk as [Hnf Hk]. destruct (knows_static w _ _ Hst Hk) as (cs & o & Hko & H1). exists cs, o. split; [|done].
    rewrite after_other, decide_False; [done|by rewrite (ss_id _ _ Hst)|by apply waiting_not_scheduled].
  - destruct Hsrc as [Hw Hp]. pose proof (sy_waiting _ _ _ _ _ Hsy r Hw) as H1. rewrite bool_decide_false in H1 by done. by rewrite (ss_output _ _ Hst).
Qed.

(** The rows of the batch have the tokens up to the computed ones. *)
Lemma after_batch id : is_Some (InputBatch.req_id_to_index (input_batch w') !! id) ->
  exists r n, r ∈ running s' /\ request_id (obj s' r) = id /\ count_of (input_batch w') id = Some n /\ (num_computed_tokens (obj s' r) <= n)%Z.
Proof using All.
  rewrite (sn_index _ _ (ex_same _ _ _ _ _ Hex)), (sn_count _ _ (ex_same _ _ _ _ _ Hex)). pose proof (ex_done _ _ _ _ _ Hex) as Hd. intros Hid. apply (sd_batch _ _ _ Hd) in Hid.
  destruct (after_scheduled id Hid) as (r & n & cs & o & Hr & Eid & Hsn & Hn & Hk & (U1 & _) & (_ & C2 & _)). exists r.
  assert (Hadded : InputBatch.req_id_to_index (input_batch w) !! id = None \/ id ∈ out_finished_req_ids out ->
    exists n, r ∈ running s' /\ request_id (obj s' r) = id /\ count_of (input_batch w1) id = Some n /\ (num_computed_tokens (obj s' r) <= n)%Z).
  { intros Hor. rewrite after_known in Hk. apply known_Some in Hk as [Hq Eo]. rewrite (sd_added _ _ _ Hd id Hid Hor), Hq. eexists. split; [done|]. split; [done|]. split; [done|].
    rewrite cs_num_tokens_length. unfold tokens_of. by rewrite U1, <-Eo. }
  apply elem_of_app in Hid as Hid'. destruct Hid' as [Hid'|Hid']; apply list_elem_of_fmap in Hid' as (d & Ed & Hd1).
  - apply Hadded. rewrite Ed. by apply (handed_new_fits d).
  - destruct (InputBatch.req_id_to_index (input_batch w) !! id) as [i|] eqn:Ei; [|apply Hadded; by left].
    destruct (after_cached d Hd1) as (r2 & _ & _ & _ & Hr2 & Eid2 & _ & _ & _ & _ & _ & Hcnt).
    assert (r2 = r) as -> by (apply (live_id_inj s'); [apply (sr_ok _ _ _ Hs)|apply elem_of_app; by right|apply elem_of_app; by right|congruence]).
    eexists. split; [done|]. split; [done|]. split; [rewrite Ed; apply (sd_running _ _ _ Hd d Hd1); rewrite <-Ed, Ei; by eexists|]. lia.
Qed.

(** Nothing is cached for a request that is gone. *)
Lemma after_cached_states id : is_Some (runner_known w' id) ->
  exists r, request_id (obj s' r) = id /\ (r ∈ running s' \/ r ∈ waiting s' /\ status (obj s' r) = PREEMPTED).
Proof using All.
  intros Hk. destruct (decide (id ∈ scheduled_ids out)) as [Hid|Hid].
  - destruct (scheduled_running id Hid) as (r & n & Hr & Eid & _). exists r. split; [done|by left].
  - rewrite after_other in Hk by done. destruct (decide _) as [|Hnf]; [by destruct Hk|].
    destruct (sy_cached _ _ _ _ _ (is_synced _ _ Hy) id Hk) as [|(r & Eid & Hor)]; [done|]. rewrite app_nil_r in Hor.
    assert (Hl : r ∈ live s0) by (apply elem_of_app; destruct Hor as [|[? _]]; [by right|by left]).
    exists r. rewrite (ss_id _ _ (hd_static _ _ _ _ _ Hh r Hl)). split; [done|]. apply step_live, elem_of_app in Hl as [Hw|Hr]; [right|by left].
    split; [done|]. apply (hd_status _ _ _ _ _ Hh r Hw). destruct Hor as [|[_ ?]]; [by left|by right].
Qed.

Lemma after_logprobs id cs o : runner_known w' id = Some (cs, o) -> prompt_logprobs (cs_sampling_params cs) = None.
Proof using H0 Hs Hy Hh Hex. rewrite after_known. by apply updated_logprobs, (ex_done _ _ _ _ _ Hex). Qed.

(** The state of both while the scheduler waits for the answer. *)
Lemma after_synced : runner_ok w -> synced (num_scheduled_tokens out) [] (running s') s' w'.
Proof using All.
  intros Hr0. pose proof (is_synced _ _ Hy) as Hsy. destruct after_same as [(B1 & B2 & B3) (D1 & D2 & D3 & D4)]. pose proof (proj2 (sr_finished _ _ _ Hs)) as Hf.
  split; rewrite ?Hf; cbn [app].
  - apply (sn_ok _ _ (ex_same _ _ _ _ _ Hex)), (sd_ok _ _ _ (ex_done _ _ _ _ _ Hex)).
  - destruct (sizes_frame s0 s' w (sy_sizes _ _ _ _ _ Hsy) (sr_conf _ _ _ Hs) (hd_consts _ _ _ _ _ Hh)). split; rewrite ?B1, ?B2, ?D1, ?D2, ?D4; done.
  - intros r Hr. assert (Hl : r ∈ live s0) by (by apply step_live). destruct (servable_static w (obj s0 r) (obj s' r) []) as [A1 A2 A3 A4 A5].
    + rewrite append_tokens_nil. by apply (hd_static _ _ _ _ _ Hh).
    + apply (sy_servable _ _ _ _ _ Hsy). by rewrite app_nil_r.
    + split; rewrite ?B3, ?D3; done.
  - intros r Hr. split; [set_solver|].
    assert (exists cs o, runner_known w' (request_id (obj s' r)) = Some (cs, o) /\ up_to_date r cs o) as (cs & o & Hk & U1 & U2 & U3 & U4 & _).
    { destruct (num_scheduled_tokens out !! request_id (obj s' r)) as [n|] eqn:En; [|by apply after_idle].
      destruct (after_scheduled (request_id (obj s' r))) as (x & m & cs & o & Hx & Eid & _ & _ & Hk & Hu & _); [apply (hd_sched _ _ _ _ _ Hh); by eexists|].
      assert (x = r) as -> by (apply (live_id_inj s'); [apply (sr_ok _ _ _ Hs)|apply elem_of_app; by right|apply elem_of_app; by right|done]). by exists cs, o. }
    split; [by exists cs, o|]. unfold blocks_at. rewrite Hk. by rewrite (hd_null _ _ _ _ _ Hh).
  - intros r n Hr Hn. destruct (after_scheduled (request_id (obj s' r))) as (x & m & cs & o & Hx & Eid & Hm & Hm1 & Hk & (U1 & _) & (C1 & C2 & C3)); [apply (hd_sched _ _ _ _ _ Hh); by eexists|].
    assert (x = r) as -> by (apply (live_id_inj s'); [apply (sr_ok _ _ _ Hs)|apply elem_of_app; by right|apply elem_of_app; by right|done]).
    rewrite Hn in Hm. injection Hm as <-. split; [done|]. by exists cs, o.
  - intros r Hr. rewrite <-Hf. by apply after_waiting.
  - intros id Hid. right. by apply after_batch.
  - intros id Hid. right. by apply after_cached_states.
  - exact after_logprobs.
  - eapply owned_mono; [apply (hd_owned _ _ _ _ _ Hh)|]. intros id. cbv beta.
    destruct (num_scheduled_tokens out !! id) as [n|] eqn:En; unfold default, from_option, Datatypes.id; [|lia].
    destruct (handed_counts id n En). lia.
Qed.

(** ** What the model computes *)

Lemma batch_request q : runner_ok w1 -> q ∈ in_batch w1 -> exists r n, r ∈ running s' /\ cs_req_id q = request_id (obj s' r) /\
  num_scheduled_tokens out !! cs_req_id q = Some n /\ (1 <= n)%Z /\ up_to_date r q (output_of (output_lists w1) q) /\ computing r n q (output_of (output_lists w1) q).
Proof using All.
  intros Hr1 Hq. apply list_elem_of_lookup in Hq as [i Hi]. apply in_batch_ok in Hi as (id & Hi & Hq); [|done].
  pose proof (st_id w1 (ro_states w1 Hr1) id q Hq) as Eid. apply (bo_index _ _ _ (st_batch w1 (ro_states w1 Hr1))) in Hi.
  destruct (after_scheduled id) as (r & n & cs & o & Hr & Er & Hn & Hn1 & Hk & Hu & Hc); [apply (sd_batch _ _ _ (ex_done _ _ _ _ _ Hex)); by eexists|].
  rewrite after_known in Hk. apply known_Some in Hk as [Hcs ->]. rewrite Hq in Hcs. injection Hcs as <-. exists r, n. rewrite Eid. done.
Qed.

(** The tokens of the scheduled positions, as the scheduler has them. *)
Definition scheduled_tokens (r : nat) (n : Z) : list Z :=
  take (Z.to_nat n) (drop (Z.to_nat (num_computed_tokens (obj s' r) - n)) (all_token_ids (obj s' r))).

Lemma batch_tokens q r n : r ∈ running s' -> num_scheduled_tokens out !! cs_req_id q = Some n -> (1 <= n)%Z -> (0 <= cs_num_computed_tokens q)%Z ->
  up_to_date r q (output_of (output_lists w1) q) -> computing r n q (output_of (output_lists w1) q) -> step_tokens w1 out q = scheduled_tokens r n.
Proof using H0 Hs Hy Hh Hrd.
  intros Hr Hn Hn1 Hc (U1 & U2 & _) (C1 & C2 & _). unfold step_tokens, scheduled_tokens, ModelRunnerInputs.scheduled, computed, tokens_of. rewrite Hn.
  change (default 0%Z (Some n)) with n. rewrite (sa_all _ _ (step_servable r Hr)), U1. destruct U2 as [x ->]. rewrite app_assoc. rewrite length_app in C2.
  replace (num_computed_tokens (obj s' r) - n)%Z with (cs_num_computed_tokens q) by lia.
  rewrite (drop_app_le (_ ++ _) x) by (rewrite length_app; lia). rewrite take_app_le; [done|]. rewrite length_drop, length_app. lia.
Qed.

Lemma batch_slot q r n p : r ∈ running s' -> cs_req_id q = request_id (obj s' r) -> num_scheduled_tokens out !! cs_req_id q = Some n -> (1 <= n)%Z ->
  up_to_date r q (output_of (output_lists w1) q) -> computing r n q (output_of (output_lists w1) q) -> 0 < bs -> (0 <= cs_num_computed_tokens q)%Z ->
  p ∈ step_positions out q -> exists b, b <> null /\ step_slot bs q p = Z.of_nat (b * bs + p mod bs) /\
    writable (kv_cache_manager s') (computed_of s' (cs_req_id q) - default 0 (num_scheduled_tokens out !! cs_req_id q))%Z (cs_req_id q) (p / bs) b.
Proof using H0 Hs Hy Hh Hrd.
  intros Hr Hid Hn Hn1 (U1 & U2 & U3 & U4 & _) (C1 & C2 & _) Hbs Hc0 Hp. unfold step_positions, ModelRunnerInputs.scheduled, computed in Hp. rewrite Hn in Hp.
  change (default 0%Z (Some n)) with n in Hp. apply elem_of_seq in Hp as [Hp1 Hp2]. pose proof (step_covered r Hr) as Hcov. rewrite <-Hid in U4, Hcov.
  assert (Hlt : p / bs < length (kv_blocks s' (cs_req_id q))) by (apply Nat.Div0.div_lt_upper_bound; nia).
  destruct (lookup_lt_is_Some_2 _ _ Hlt) as [b Hb]. rewrite Hn. change (default 0%Z (Some n)) with n.
  assert (Hw : writable (kv_cache_manager s') (computed_of s' (cs_req_id q) - n)%Z (cs_req_id q) (p / bs) b).
  { split; [exact Hb|]. rewrite step_block_size. rewrite (computed_of_at s' (cs_req_id q) r).
    - rewrite Nat2Z.inj_div. apply Z.div_le_mono; lia.
    - rewrite Hid. apply (so_requests _ (sr_ok _ _ _ Hs)). split; [apply elem_of_app; by right|done]. }
  assert (Hnn : b <> null).
  { intros ->. apply (ow_null _ _ _ (hd_owned _ _ _ _ _ Hh) (cs_req_id q) (p / bs)). rewrite (hd_null _ _ _ _ _ Hh), Hn. exact Hw. }
  exists b. split; [done|]. split; [|exact Hw]. unfold step_slot. rewrite (proj2 U4 _ _ Hb Hnn). done.
Qed.

Lemma mjoin_fmap_bind {A B} (f : A -> list B) l : mjoin (f <$> l) = l ≫= f.
Proof. induction l as [|x l IH]; [done|]. cbn. by rewrite <-IH. Qed.

(** The slots of a step: no two scheduled positions share one, and none lies in the
    null block. *)
Lemma batch_slots inp w2 : runner_ok w1 -> 0 < bs -> inputs_are w1 out bs w2 inp ->
  NoDup (in_slot_mapping inp) /\ forall x, x ∈ in_slot_mapping inp -> (x / Z.of_nat bs)%Z <> Z.of_nat null.
Proof using All.
  intros Hr1 Hbs Hin. rewrite (ia_slots _ _ _ _ _ Hin).
  assert (Hslot : forall q p, q ∈ in_batch w1 -> p ∈ step_positions out q -> exists b, b <> null /\ step_slot bs q p = Z.of_nat (b * bs + p mod bs) /\
    writable (kv_cache_manager s') (computed_of s' (cs_req_id q) - default 0 (num_scheduled_tokens out !! cs_req_id q))%Z (cs_req_id q) (p / bs) b).
  { intros q p Hq Hp. destruct (batch_request q Hr1 Hq) as (r & n & Hr & Hid & Hn & Hn1 & Hu & Hc). apply (batch_slot q r n p); try done.
    apply list_elem_of_lookup in Hq as [i Hi]. apply in_batch_ok in Hi as (id & Hi & Hq); [|done].
    destruct Hc as (C1 & C2 & _). rewrite Hid in Hn. destruct (hd_counts _ _ _ _ _ Hh r n Hr Hn). lia. }
  assert (Hdiv : forall b p, (b * bs + p mod bs) / bs = b).
  { intros b p. rewrite Nat.add_comm, Nat.div_add, Nat.div_small by (lia || apply Nat.mod_upper_bound; lia). lia. }
  pose proof (hd_owned _ _ _ _ _ Hh) as [_ Hone _]. destruct (rd_kv _ _ _ Hrd) as [l Hkv].
  rewrite mjoin_fmap_bind. split.
  - apply NoDup_bind.
    + intros q1 q2 y Hq1 Hq2 (p1 & -> & Hp1)%list_elem_of_fmap (p2 & E2 & Hp2)%list_elem_of_fmap.
      destruct (Hslot q1 p1 Hq1 Hp1) as (b1 & _ & S1 & W1), (Hslot q2 p2 Hq2 Hp2) as (b2 & _ & S2 & W2). rewrite S1, S2 in E2. apply Nat2Z.inj in E2.
      assert (b1 = b2) as -> by (rewrite <-(Hdiv b1 p1), <-(Hdiv b2 p2); by f_equal).
      pose proof (Hone _ _ _ _ _ W1 W2) as Eid. apply list_elem_of_lookup in Hq1 as [i1 H1], Hq2 as [i2 H2]. apply in_batch_ok in H1 as (id1 & _ & H1), H2 as (id2 & _ & H2); [|done..].
      pose proof (st_id w1 (ro_states w1 Hr1) _ _ H1). pose proof (st_id w1 (ro_states w1 Hr1) _ _ H2). congruence.
    + intros q Hq. apply NoDup_fmap_2_strong; [|apply NoDup_seq]. intros p1 p2 Hp1 Hp2 E2.
      destruct (Hslot q p1 Hq Hp1) as (b1 & N1 & S1 & W1), (Hslot q p2 Hq Hp2) as (b2 & _ & S2 & W2). rewrite S1, S2 in E2. apply Nat2Z.inj in E2.
      assert (b1 = b2) as -> by (rewrite <-(Hdiv b1 p1), <-(Hdiv b2 p2); by f_equal).
      assert (Ed : p1 / bs = p2 / bs).
      { destruct W1 as [W1 _], W2 as [W2 _]. eapply (shape_inj _ _ _ _ b2 (kv_shape _ _ Hkv (cs_req_id q))); [done|done|]. by rewrite (hd_null _ _ _ _ _ Hh). }
      rewrite (Nat.div_mod_eq p1 bs), (Nat.div_mod_eq p2 bs), Ed. lia.
    + apply (NoDup_fmap_1 cs_req_id). rewrite in_batch_ids by done. apply NoDup_alt. intros i j id Hi Hj.
      apply (compact_holds _ _ _ (ro_compact w1 Hr1)) in Hi, Hj. by eapply holds_id_inj; [apply (st_batch w1 (ro_states w1 Hr1))| |].
  - intros x (q & (p & -> & Hp)%list_elem_of_fmap & Hq)%list_elem_of_bind. destruct (Hslot q p Hq Hp) as (b & Hb & -> & _).
    rewrite <-Nat2Z.inj_div, Hdiv. lia.
Qed.
End Step.

(** ** The answer *)

Section Answer.
Context `{E : Env} `{!EnvLaws E} `{!ConnectorLaws E} `{!CollisionFree hash_fn NONE_HASH} `{T : Torch} {features : Type}.
Context (len : string -> nat -> Z) (w : ModelRunner (features := features)) (out : SchedulerOutput) (mro : ModelRunnerOutput).
(** The runner answers for all scheduled requests, and there are no drafts. *)
Context (Hrows : forall id n, num_scheduled_tokens out !! id = Some n -> answered w out id (tokens_for out mro id)).
Context (Hspec : scheduled_spec_decode_tokens out = ∅).

Notation pend := (num_scheduled_tokens out).

(** After its answer the runner lacks at most the token it has just sampled. *)
Lemma knows_answer q q' : same_static (append_output_token_ids (tokens_for out mro (request_id q)) q) q' -> knows w q ->
  (forall n, pend !! request_id q = Some n -> (1 <= n)%Z /\ expects w n q) -> knows w q'.
Proof using Hrows.
  intros Hst Hk He. destruct (pend !! request_id q) as [n|] eqn:En.
  2: { apply (knows_static w q); [|done]. unfold tokens_for in Hst. rewrite En in Hst. cbn in Hst. by rewrite append_tokens_nil in Hst. }
  destruct (He n eq_refl) as (Hn & cs & o & Hko & Hp & Hc & Hall). pose proof (Hrows _ _ En) as (cs' & o' & Hko' & Hrow).
  change (ModelRunnerSpec.known w (request_id q)) with (runner_known w (request_id q)) in Hko'. rewrite Hko in Hko'. injection Hko' as <- <-.
  rewrite En in Hrow. change (default 0%Z (Some n)) with n in Hrow. rewrite Hc, Hp in Hrow.
  destruct (Z.ltb_spec (num_computed_tokens q) (Z.of_nat (length (prompt_token_ids q ++ o)))) as [Hlt|Hge].
  - apply (knows_static w q); [|done]. rewrite Hrow in Hst. by rewrite append_tokens_nil in Hst.
  - destruct Hrow as [t Hrow]. rewrite Hrow in Hst. exists cs, o. rewrite (ss_id _ _ Hst), (ss_prompt _ _ Hst), (ss_output _ _ Hst). cbn.
    rewrite (Hall Hge). split; [done|]. split; [done|]. split; [by apply prefix_app_r|]. rewrite length_app. cbn. lia.
Qed.

(** The request that was answered for stays. *)
Lemma synced_stay s s1 r nr rs : sched_ok (set_running (nr ++ r :: rs) s) -> r ∉ rs -> conf s1 = conf s -> waiting s1 = waiting s ->
  (forall x, x <> r -> obj s1 x = obj s x) -> finished_req_ids s1 = finished_req_ids s -> stayed len out mro s s1 r ->
  synced pend nr (r :: rs) s w -> synced pend (nr ++ [r]) rs s1 w.
Proof using Hrows Hspec.
  intros H Hr Hc Hw Hobj Hf [V1 V2 _ _ _ V6 V7 _] [Y1 Y2 Y3 Y4 Y5 Y6 Y7 Y8 Y9 Y10].
  assert (Hshape : forall x, x ∈ (nr ++ [r]) ++ rs <-> x ∈ nr ++ r :: rs) by (intros x; by rewrite <-app_assoc).
  assert (Hnw : forall x, x ∈ waiting s -> x <> r).
  { intros x Hx ->. pose proof (so_nodup _ H) as (_ & Hd & _)%NoDup_app. apply (Hd r Hx). cbn. apply elem_of_app. right. by left. }
  specialize (V7 ltac:(by rewrite Hspec, lookup_empty)).
  assert (Hid : forall x, request_id (obj s1 x) = request_id (obj s x)).
  { intros x. destruct (decide (x = r)) as [->|Hne]; [apply (ss_id _ _ V6)|by rewrite Hobj]. }
  assert (Hcomp : forall x, num_computed_tokens (obj s1 x) = num_computed_tokens (obj s x)).
  { intros x. destruct (decide (x = r)) as [->|Hne]; [done|by rewrite Hobj]. }
  split; rewrite ?Hf; try done.
  - destruct Y2. split; rewrite ?Hc, ?V2; done.
  - intros x Hx. assert (Hx' : x ∈ waiting s ++ nr ++ r :: rs) by (rewrite elem_of_app, Hw, Hshape in Hx; by rewrite elem_of_app).
    destruct (decide (x = r)) as [->|Hne]; [by apply (servable_static w (obj s r) _ _ V6), Y3|rewrite Hobj by done; by apply Y3].
  - intros x Hx%Hshape. destruct (Y4 x Hx) as (H1 & H2 & H3). rewrite Hid. unfold kv_blocks. rewrite V2. split; [done|]. split; [|done].
    destruct (decide (x = r)) as [->|Hne]; [|by rewrite Hobj]. apply (knows_answer (obj s r)); [done|done|]. intros n. apply Y5. by left.
  - intros x n Hx Hn. rewrite Hid in Hn. assert (x <> r) by (by intros ->). rewrite Hobj by done. apply Y5; [by right|done].
  - intros x Hx. rewrite Hw in Hx. rewrite Hobj by (by apply Hnw). by apply Y6.
  - intros id Hi. destruct (Y7 id Hi) as [|(x & n & Hx & Hrest)]; [by left|right; exists x, n]. by rewrite Hshape, Hid, Hcomp.
  - intros id Hi. destruct (Y8 id Hi) as [|(x & Hx & Hor)]; [by left|right; exists x]. rewrite Hshape, Hid, Hw. split; [done|].
    destruct Hor as [|[Hx2 Hp]]; [by left|right]. by rewrite Hobj by (by apply Hnw).
  - rewrite Hc, V2. eapply owned_mono; [exact Y10|]. intros id. unfold computed_of. rewrite V1. destruct (requests s !! id); [by rewrite Hcomp|done].
Qed.

Lemma synced_kept : kept_by_rounds len out mro (fun s nr rs => synced pend nr rs s w).
Proof using Hrows Hspec EnvLaws0.
  intros s s1 r o stays nr rs Hr H Hrd [U1 _ [U3 U4] U5 U6 U7 U8 _ _ U10] Hy. set (t := set_running (nr ++ r :: rs) s) in *.
  destruct stays; [by apply (synced_stay s s1 r nr rs)|].
  assert (Hin : forall x, x ∈ nr ++ r :: rs -> x ∈ live t) by (intros x Hx; apply elem_of_app; by right).
  assert (Hrl : r ∈ live t) by (apply Hin, elem_of_app; right; by left).
  assert (Hyt : synced pend nr (r :: rs) t w) by (destruct Hy as [? ? ? ? ? ? ? ? ? ?]; split; try assumption; by apply (sizes_frame s t w)).
  assert (Hg : gone len t s1 r (request_id (obj t r))) by (destruct U10 as [? ? ? ? ? ? ? ?]; split; assumption).
  pose proof (so_nodup _ H) as Hnd. apply NoDup_app in Hnd as (_ & Hd & Hnd). cbn in Hd, Hnd. apply NoDup_app in Hnd as (_ & Hd2 & _).
  apply (synced_leave pend nr (r :: rs) nr rs t s1 w r); try done.
  - apply (gone_change len t s1 r (request_id (obj t r))); try done; [by apply (so_requests _ H)| |apply (sy_owned _ _ _ _ _ Hyt)].
    apply (live_len len t); [done|done|]. intros Hn. rewrite Hn in Hrl. by apply elem_of_nil in Hrl.
  - intros x. rewrite U4. split; [|intros [Hx _]; exact Hx]. intros Hx. split; [exact Hx|]. intros ->. apply (Hd r Hx). apply elem_of_app. right. by left.
  - intros x. split; [|by intros [? _]]. intros Hx. split; [done|]. intros ->. apply (Hd2 r Hx). by left.
  - intros x. rewrite elem_of_cons. split; [|by intros [[?|?] ?]]. intros Hx. split; [by right|]. by intros ->.
  - intros x Hx Hne Heq. by apply Hne, (live_id_inj t).
Qed.

Lemma runner_answers_fit s : sched_ok s -> (0 <= spec_tokens (conf s))%Z -> out_spec_token_ids mro = None -> prompt_logprobs_dict mro = ∅ ->
  (forall r, r ∈ running s -> (num_computed_tokens (obj s r) <= Request.num_tokens (obj s r))%Z) ->
  (forall id n, pend !! id = Some n -> exists i row, Scheduler.req_id_to_index mro !! id = Some i /\ sampled_token_ids mro !! i = Some row /\ length row <= 1) ->
  (forall r, r ∈ running s -> answers s out mro r) /\ no_drafts out mro s.
Proof using Hspec.
  intros H Hst Hd Hp Hle Hi. split; [|split; [done|]; intros r Hr _; by rewrite Hspec, lookup_empty].
  intros r Hr Hn. cbn zeta. rewrite Hspec, lookup_empty. cbn [default length]. specialize (Hle r Hr). split; [|split; [exact Hst|]].
  - unfold drafts_fit. cbn. split; [|done]. unfold default, from_option. cbn. lia.
  - destruct (pend !! request_id (obj s r)) as [n|] eqn:En; [|done]. destruct (Hi _ _ En) as (i & row & E1 & E2 & E3).
    exists i, row. split_and!; try done; [by rewrite Hd|]. by rewrite Hp, lookup_empty.
Qed.
End Answer.
