(* ===== verification/System.v ===== *)
(** * Engine core and worker together

    [EngineCore] of [Engine.v] with a [GPUModelRunner] of [ModelRunner.v] as its
    executor.  From the start both are in sync and stay so: no call fails, neither
    in the scheduler nor in the worker, the model computes on the tokens that the
    scheduler means, and no two of them are written to the same place.  At the end,
    a run in which a preempted request gets a token twice. *)

From Stdlib Require Import QArith_base.
From S2P Require Import Prelude LRU PrefixMetrics FreeBlockQueue Request BlockHash BlockPool.
From S2P Require Import SpecializedManager KVCacheConfig KVCacheManager KVCacheLink BlockOwners MMInputCache EncoderCache.
From S2P Require Import Scheduler SchedulerSpec SchedulerLifecycle SchedulerUpdate SchedulerSafety SchedulerCalls SchedulerOutputs Engine.
From S2P Require Import NumPy BlockTable InputBatch InputBatchSpec ModelRunner ModelRunnerSpec ModelRunnerProperties ModelRunnerInputs ModelRunnerExecute ModelRunnerTheorems.
From S2P Require Import WorkerSync WorkerStep.

Section System.
Context `{E : Env} {V : Type} `{!BaseLRU V} `{T : Torch} `{NP : NumPy} `{SO : SetOrder} {features : Type} `{D : !Device features}.

(** The executor: an exception of the runner goes through to the caller, after
    which nothing is executed any more. *)
Definition run_worker (x : result (ModelRunner (features := features))) (out : SchedulerOutput) (meta : option connector_meta) :
    result ModelRunner * ModelRunnerOutput :=
  match w ← x; execute_model w out with
  | Ok (w, mro) => (Ok w, mro)
  | Err e => (Err e, EMPTY_MODEL_RUNNER_OUTPUT)
  end.

(** What the model computes on in a step: for every scheduled request [r], by its
    number [n] of tokens, its next tokens at their positions; every token has a
    slot of its own, and none in the null block. *)
Definition computes (s' : Scheduler) (w : ModelRunner (features := features)) (out : SchedulerOutput) : Prop :=
  exists w1 w2 inp rs, update_states w out = Ok w1 /\ prepare_inputs w1 out = Ok (w2, inp) /\
    NoDup rs.*1 /\ (forall r n, (r, n) ∈ rs <-> r ∈ running s' /\ num_scheduled_tokens out !! request_id (obj s' r) = Some n) /\
    in_input_ids inp = mjoin ((fun x => scheduled_tokens s' x.1 x.2) <$> rs) /\
    in_positions inp = mjoin ((fun x => seqZ (num_computed_tokens (obj s' x.1) - x.2) x.2) <$> rs) /\
    NoDup (in_slot_mapping inp) /\
    forall x, x ∈ in_slot_mapping inp -> (x / Z.of_nat (KVCacheManager.block_size (kv_cache_manager s')))%Z <> Z.of_nat (null_block (block_pool (kv_cache_manager s'))).

Context `{!EnvLaws E} `{!ConnectorLaws E} `{!CollisionFree hash_fn NONE_HASH} `{!TorchLaws T} `{!NumPyLaws NP} `{!SetOrderLaws SO} `{!TextDevice D}.
Context (build_connector_meta : connector_state -> SchedulerOutput -> connector_state * connector_meta).

(** ** One step *)

Lemma fmap_seq_Z c (n : Z) : (0 <= c)%Z -> (0 <= n)%Z -> Z.of_nat <$> seq (Z.to_nat c) (Z.to_nat n) = seqZ c n.
Proof.
  intros Hc Hn. unfold seqZ. rewrite <-(Nat.add_0_r (Z.to_nat c)), <-fmap_add_seq, <-list_fmap_compose. apply list_fmap_ext. intros i x _. cbn. lia.
Qed.

Lemma inputs_computed len s s' w out w1 w' mro w2 inp :
  sched_ok s -> in_sync s w -> step_result s s' out -> ready len s' ∅ -> handed s (blocks_at w) (null_block (block_pool (kv_cache_manager s))) s' out ->
  executed w out w1 w' mro -> whole_prefills s' out -> update_states w out = Ok w1 -> prepare_inputs w1 out = Ok (w2, inp) ->
  inputs_are w1 out (KVCacheManager.block_size (kv_cache_manager s)) w2 inp -> computes s' w out.
Proof.
  intros H Hy Hs Hrd Hh Hex Hwhole E1 E2 Hin. pose proof (sd_ok _ _ _ (ex_done _ _ _ _ _ Hex)) as Hr1.
  pose proof (handed_fits len s s' w out H Hy Hs Hrd Hh) as Hf.
  destruct (sz_block _ _ (sy_sizes _ _ _ _ _ (is_synced _ _ Hy))) as [_ Hbs].
  destruct (batch_slots len s s' w out H Hy Hs Hrd Hh w1 w' mro Hex Hwhole inp w2 Hr1 Hbs Hin) as [Hnd Hnull].
  set (src := fun q => (default 0 (requests s' !! cs_req_id q), default 0%Z (num_scheduled_tokens out !! cs_req_id q))).
  assert (Hsrc : forall q, q ∈ in_batch w1 -> exists r n, src q = (r, n) /\ r ∈ running s' /\ cs_req_id q = request_id (obj s' r) /\
    num_scheduled_tokens out !! request_id (obj s' r) = Some n /\ step_tokens w1 out q = scheduled_tokens s' r n /\
    Z.of_nat <$> step_positions out q = seqZ (num_computed_tokens (obj s' r) - n) n).
  { intros q Hq. destruct (batch_request len s s' w out H Hy Hs Hrd Hh w1 w' mro Hex Hwhole q Hr1 Hq) as (r & n & Hr & Hid & Hn & Hn1 & Hu & Hc).
    assert (Hreq : requests s' !! cs_req_id q = Some r).
    { rewrite Hid. apply (so_requests _ (sr_ok _ _ _ Hs)). split; [apply elem_of_app; by right|done]. }
    pose proof Hn as Hn'. rewrite Hid in Hn'. destruct (hd_counts _ _ _ _ _ Hh r n Hr Hn') as [_ Hle]. pose proof Hc as (C1 & _).
    exists r, n. unfold src. rewrite Hreq, Hn. split; [done|]. split; [done|]. split; [done|]. split; [done|]. split.
    - apply (batch_tokens len s s' w out H Hy Hs Hrd Hh w1 q r n); try done. lia.
    - unfold step_positions, ModelRunnerInputs.scheduled, computed. rewrite Hn. change (default 0%Z (Some n)) with n.
      replace (num_computed_tokens (obj s' r) - n)%Z with (cs_num_computed_tokens q) by lia. apply fmap_seq_Z; lia. }
  assert (Hids : NoDup (cs_req_id <$> in_batch w1)).
  { rewrite (in_batch_ids w1 Hr1), (ids_in_perm w out w1 Hf (ex_done _ _ _ _ _ Hex)). apply (sf_nodup _ _ Hf). }
  exists w1, w2, inp, (src <$> in_batch w1). split; [done|]. split; [done|]. split; [|split; [|split; [|split; [|split]]]].
  - rewrite <-list_fmap_compose. apply NoDup_fmap_2_strong; [|by apply (NoDup_fmap_1 cs_req_id)]. intros q1 q2 Hq1 Hq2 Eq. change ((src q1).1 = (src q2).1) in Eq.
    destruct (Hsrc q1 Hq1) as (r1 & n1 & S1 & _ & I1 & _), (Hsrc q2 Hq2) as (r2 & n2 & S2 & _ & I2 & _). rewrite S1, S2 in Eq. cbn in Eq. subst r2.
    apply list_elem_of_lookup in Hq1 as [i Hi], Hq2 as [j Hj].
    assert (i = j) as -> by (eapply (NoDup_lookup _ i j (cs_req_id q1) Hids); rewrite list_lookup_fmap, ?Hi, ?Hj; cbn; congruence). congruence.
  - intros r n. rewrite list_elem_of_fmap. split.
    + intros (q & Eq & Hq). destruct (Hsrc q Hq) as (r1 & n1 & S1 & Hr & _ & Hn & _). rewrite S1 in Eq. by injection Eq as -> ->.
    + intros [Hr Hn]. assert (Hid : request_id (obj s' r) ∈ cs_req_id <$> in_batch w1).
      { rewrite (in_batch_ids w1 Hr1), (ids_in_perm w out w1 Hf (ex_done _ _ _ _ _ Hex)). apply (sf_scheduled _ _ Hf). by eexists. }
      apply list_elem_of_fmap in Hid as (q & Eid & Hq). exists q. split; [|done]. destruct (Hsrc q Hq) as (r1 & n1 & -> & Hr1' & I1 & Hn1 & _).
      assert (r1 = r) as -> by (apply (live_id_inj s'); [apply (sr_ok _ _ _ Hs)|apply elem_of_app; by right|apply elem_of_app; by right|congruence]). congruence.
  - rewrite (ia_tokens _ _ _ _ _ Hin), <-list_fmap_compose. f_equal. apply list_fmap_ext. intros i q Hq%list_elem_of_lookup_2.
    change (step_tokens w1 out q = scheduled_tokens s' (src q).1 (src q).2). destruct (Hsrc q Hq) as (r & n & -> & _ & _ & _ & Et & _). exact Et.
  - rewrite (ia_positions _ _ _ _ _ Hin), <-list_fmap_compose. f_equal. apply list_fmap_ext. intros i q Hq%list_elem_of_lookup_2.
    change (Z.of_nat <$> step_positions out q = seqZ (num_computed_tokens (obj s' (src q).1) - (src q).2) (src q).2).
    destruct (Hsrc q Hq) as (r & n & -> & _ & _ & _ & _ & Et). exact Et.
  - exact Hnd.
  - by rewrite (kc_size _ _ (hd_consts _ _ _ _ _ Hh)), (hd_null _ _ _ _ _ Hh).
Qed.

(** Statistics, the running queue and the queues of cached data do not matter to
    the runner. *)
Lemma synced_same pend a b s s' (w : ModelRunner (features := features)) : synced pend a b s w -> conf s' = conf s -> waiting s' = waiting s -> heap s' = heap s -> requests s' = requests s ->
  finished_req_ids s' = finished_req_ids s -> (exists ps, kv_cache_manager s' = set_stats ps (kv_cache_manager s)) -> synced pend a b s' w.
Proof.
  intros [Y1 Y2 Y3 Y4 Y5 Y6 Y7 Y8 Y9 Y10] Hc Hw Hheap Hreq Hf [ps Hkv].
  assert (Hobj : forall x, obj s' x = obj s x) by (intros x; unfold obj; by rewrite Hheap).
  split; rewrite ?Hf, ?Hw; try done.
  - destruct Y2. split; rewrite ?Hc, ?Hkv; done.
  - intros r. rewrite Hobj. apply Y3.
  - intros r Hr. unfold kv_blocks. rewrite Hobj, Hkv. by apply Y4.
  - intros r n. rewrite Hobj. apply Y5.
  - intros r. rewrite Hobj. apply Y6.
  - intros id Hi. setoid_rewrite Hobj. by apply Y7.
  - intros id Hi. setoid_rewrite Hobj. by apply Y8.
  - rewrite Hc, Hkv. destruct Y10 as [O1 O2 O3].
    assert (Hcomp : forall id, computed_of s' id = computed_of s id) by (intros id; unfold computed_of; rewrite Hreq; destruct (requests s !! id); by rewrite ?Hobj).
    split; [intros id j; rewrite Hcomp; apply O1|intros id1 id2 j1 j2 b'; rewrite !Hcomp; apply O2|exact O3].
Qed.

Lemma entries_same s s' : entries_ok s -> cached_reqs_data s' = cached_reqs_data s -> entries_ok s'.
Proof. intros He Hc id ds d. rewrite Hc. apply He. Qed.

(** What the runner sends back, request by request. *)
Lemma executed_rows len s s' (w : ModelRunner (features := features)) out w1 w' mro :
  sched_ok s -> in_sync s w -> step_result s s' out -> ready len s' ∅ -> handed s (blocks_at w) (null_block (block_pool (kv_cache_manager s))) s' out ->
  executed w out w1 w' mro -> forall id n, num_scheduled_tokens out !! id = Some n ->
  exists i row, Scheduler.req_id_to_index mro !! id = Some i /\ sampled_token_ids mro !! i = Some row /\ length row <= 1 /\
    tokens_for out mro id = row /\ answered w' out id row.
Proof.
  intros H Hy Hs Hrd Hh Hex id n Hn. destruct (handed_counts s s' out Hs id n Hn) as [Hn1 _].
  assert (Hid : id ∈ scheduled_ids out) by (apply (hd_sched _ _ _ _ _ Hh); by eexists).
  pose proof (handed_total_pos s s' w out Hs Hh id n Hn) as Ht.
  destruct (ex_rows _ _ _ _ _ Hex id Hid Ht) as (i & row & E1 & E2 & Ha). exists i, row. split; [done|]. split; [done|]. split; [|split; [|done]].
  - destruct Ha as (q & o & _ & Hrow). destruct (_ <? _)%Z; [rewrite Hrow; cbn; lia|]. destruct Hrow as [t ->]. cbn. lia.
  - unfold tokens_for. rewrite Hn. change (default 0%Z (Some n)) with n. rewrite (proj2 (Z.eqb_neq _ _)) by lia. rewrite E1. cbn. by rewrite E2.
Qed.

(** [schedule], the runner's step and [update_from_output], from states in sync. *)
Lemma step_in_sync len s (w : ModelRunner (features := features)) now rdy : sched_ok s -> ready len s ∅ -> in_sync s w ->
  exists s' out meta, schedule build_connector_meta now rdy s = Some (Ok (s', (out, meta))) /\ (whole_prefills s' out ->
    exists w' mro s2 res, execute_model w out = Ok (w', mro) /\ update_from_output s' out mro = Ok (s2, res) /\
      sched_ok s2 /\ ready len s2 ∅ /\ conf s2 = conf s /\ in_sync s2 w' /\ (total_num_scheduled_tokens out <> 0%Z -> computes s' w out)).
Proof.
  intros H Hrd [Hy He]. pose proof (conj Hy He) as Hsync. apply (fun x => Build_in_sync s w (proj1 x) (proj2 x)) in Hsync.
  destruct (schedule_handed len s H (blocks_at w) (null_block (block_pool (kv_cache_manager s))) build_connector_meta now rdy Hrd He eq_refl (sy_owned _ _ _ _ _ Hy))
    as (s' & out & meta & Esch & Hs & Hrd' & Hh).
  { intros r Hr. apply (sy_running _ _ _ _ _ Hy r). by rewrite app_nil_r. }
  exists s', out, meta. split; [exact Esch|]. intros Hwhole.
  pose proof (handed_fits len s s' w out H Hsync Hs Hrd' Hh) as Hf. pose proof (sy_runner _ _ _ _ _ Hy) as Hr.
  assert (Hexec : exists w1 w' mro, execute_model w out = Ok (w', mro) /\ executed w out w1 w' mro /\ (total_num_scheduled_tokens out <> 0%Z -> computes s' w out)).
  { destruct (decide (total_num_scheduled_tokens out = 0%Z)) as [Ht|Ht].
    - destruct (execute_idle w out Hr Hf Ht) as (w1 & mro & Eex & Hex). by exists w1, w1, mro.
    - destruct (execute_runs w out _ Hr Hf (handed_runs len s s' w out H Hsync Hs Hrd' Hh Ht)) as (w1 & w2 & w' & inp & mro & Eex & Hex & E1 & E2 & Hin).
      { intros w1 Hd id q Hq. apply (updated_logprobs s s' w out H Hsync Hs Hh w1 id q (output_of (output_lists w1) q) Hd). by apply known_Some. }
      exists w1, w', mro. split; [exact Eex|]. split; [exact Hex|]. intros _. by apply (inputs_computed len s s' w out w1 w' mro w2 inp). }
  destruct Hexec as (w1 & w' & mro & Eex & Hex & Hcomp). exists w', mro.
  pose proof (after_synced len s s' w out H Hsync Hs Hrd' Hh w1 w' mro Hex Hwhole Hr) as Hy'.
  pose proof (executed_rows len s s' w out w1 w' mro H Hsync Hs Hrd' Hh Hex) as Hrows.
  destruct (runner_answers_fit out mro (hd_spec _ _ _ _ _ Hh) s' (sr_ok _ _ _ Hs) (cf_spec _ (rd_conf _ _ _ Hrd')) (ex_drafts _ _ _ _ _ Hex) (ex_prompt _ _ _ _ _ Hex))
    as [Hans Hnd].
  { intros r Hrr. by destruct (step_tokens_fit len s s' w out H Hsync Hs Hrd' r Hrr) as [[_ ?] _]. }
  { intros id n Hn. destruct (Hrows id n Hn) as (i & row & ? & ? & ? & _). by exists i, row. }
  destruct (update_inv len (fun s nr rs => synced (num_scheduled_tokens out) nr rs s w') s' out mro) as (s2 & res & s1 & nr & c & ps & Eup & H2 & Hrd2 & Hc2 & Es2 & Hy1); try done.
  { apply synced_kept; [|apply (hd_spec _ _ _ _ _ Hh)]. intros id n Hn. destruct (Hrows id n Hn) as (i & row & _ & _ & _ & -> & ?). done. }
  { apply (sr_ok _ _ _ Hs). }
  exists s2, res. split; [done|]. split; [done|]. split; [done|]. split; [done|]. split; [by rewrite Hc2, (sr_conf _ _ _ Hs)|]. split; [|done].
  split; [|eapply update_entries; [exact Eup|apply (hd_entries _ _ _ _ _ Hh)]].
  assert (Hy2 : synced (num_scheduled_tokens out) nr [] s2 w') by (apply (synced_same _ _ _ s1); [done|by rewrite Es2..|by exists ps; rewrite Es2]).
  assert (Hrun : running s2 = nr) by (by rewrite Es2). rewrite Hrun. destruct Hy2 as [Z1 Z2 Z3 Z4 _ Z6 Z7 Z8 Z9 Z10]. split; done.
Qed.

(** ** The engine with its runner *)

Notation engine := (EngineCore (V := V) (executor := result (ModelRunner (features := features)))).
Implicit Types e : engine.

Definition system_ok (c : SchedulerConf) e : Prop := conf (scheduler e) = c /\ exists len w,
  sched_ok (scheduler e) /\ ready len (scheduler e) ∅ /\ model_executor e = Ok w /\ in_sync (scheduler e) w.

(** A request the runner can serve. *)
Record accepts (w : ModelRunner (features := features)) (er : EngineCoreRequest (V := V)) : Prop := {
  ac_lora : er_lora_request er <> Some 0%Z;
  ac_allowed : exists row, mask_row (vocab_size (input_batch w)) (allowed_token_ids (sp_sampler (er_sampling_params er))) = Ok row;
  ac_reorder : reorders w = true -> uses_allowed (sp_sampler (er_sampling_params er)) = false;
  ac_logprobs : prompt_logprobs (er_sampling_params er) = None;
}.

(** Calls after which both stay in sync: a preempted request gets its output back
    in one piece. *)
Definition good_call e (c : engine_call) : Prop := valid_call e c /\
  match c with
  | AddRequest _ er => forall w, model_executor e = Ok w -> accepts w er
  | Step now rdy => forall s' out meta, schedule build_connector_meta now rdy (scheduler e) = Some (Ok (s', (out, meta))) -> whole_prefills s' out
  | _ => True
  end.

Notation system_call := (do_call build_connector_meta run_worker).

Inductive runs_to (e0 : engine) : engine -> Prop :=
  | run_start : runs_to e0 e0
  | run_call e c e' : runs_to e0 e -> good_call e c -> system_call e c = Some (Ok e') -> runs_to e0 e'.

(** A request keeps what it was made from. *)
Lemma to_request_serves e er inputs q w : to_request er inputs = Ok q -> accepts w er -> servable w q /\ output_token_ids q = [].
Proof.
  unfold to_request, from_engine_core_request, request_init. intros H [A1 A2 A3 A4]. do 3 (apply bind_ok in H as (? & _ & H)). injection H as <-.
  split; [|done]. split; cbn; try done. by rewrite app_nil_r.
Qed.

Lemma new_ref_fresh e : new_ref (scheduler e) ∉ live (scheduler e).
Proof.
  intros Hin. apply (is_fresh (dom (heap (scheduler e)) ∪ list_to_set (live (scheduler e)) : gset nat)).
  apply elem_of_union. right. by apply elem_of_list_to_set.
Qed.

Lemma add_stays c now er e : system_ok c e -> good_call e (AddRequest now er) -> exists e', engine_add_request now e er = Ok e' /\ system_ok c e'.
Proof using EnvLaws0 ConnectorLaws0 CollisionFree0.
  intros (Hc & len & w & H & Hrd & Ew & Hy) [Hv Ha]. cbn in Hv. specialize (Ha w Ew). pose proof (vr_restored _ _ Hv) as Hr. unfold engine_add_request.
  destruct (receive_inputs (mm_input_cache_server e) er) as [[m inputs]|] eqn:Ei; [|done]. cbn [mbind result_bind].
  destruct (to_request_ok e er inputs Hv (receive_inputs_length _ _ _ _ Ei)) as (q & Eq & Hid & Hq). rewrite Eq. cbn [mbind result_bind].
  destruct (to_request_serves e er inputs q w Eq Ha) as [Hsv Ho]. eexists. split; [done|].
  assert (Hn : requests (scheduler e) !! request_id q = None) by (rewrite Hid; apply Hv).
  destruct (add_request_ready len now (scheduler e) (new_ref (scheduler e)) q H Hrd (new_ref_fresh e) Hn Hq) as (H1 & H2 & H3).
  split; [cbn; by rewrite H3|]. exists (with_inputs len q), w. split; [done|]. split; [done|]. split; [done|]. cbn.
  apply (add_in_sync len); try done. apply new_ref_fresh.
Qed.

Lemma step_stays c now rdy e : system_ok c e -> good_call e (Step now rdy) -> exists e' res, step build_connector_meta run_worker now rdy e = Some (Ok (e', res)) /\ system_ok c e'.
Proof using All.
  intros (Hc & len & w & H & Hrd & Ew & Hy) [_ Hwhole]. unfold step. destruct (negb (has_requests (scheduler e))).
  - destruct (make_stats_ok (scheduler e) None (rd_stats _ _ _ Hrd)) as (kv & st & -> & Hps & Hst). cbn [mbind result_bind].
    do 2 eexists. split; [done|]. split; [done|]. exists len, w. destruct Hps as [ps ->]. split; [by destruct H|]. split; [by apply ready_stats|]. split; [done|].
    destruct Hy as [Hy He]. split; [|done]. cbn. eapply synced_same; [exact Hy|done..|by exists ps].
  - destruct (step_in_sync len (scheduler e) w now rdy H Hrd Hy) as (s' & out & meta & Es & Hs). specialize (Hs (Hwhole s' out meta Es)).
    destruct Hs as (w' & mro & s2 & res & Ex & Eu & H2 & Hrd2 & Hc2 & Hy2 & _). rewrite Es. cbn [mbind option_bind result_bind].
    unfold run_worker. rewrite Ew. cbn [mbind result_bind]. rewrite Ex. rewrite Eu. cbn [mbind result_bind]. do 2 eexists. split; [done|].
    split; [cbn; by rewrite Hc2|]. by exists len, w'.
Qed.

Lemma call_stays c e call : system_ok c e -> good_call e call -> exists e', system_call e call = Some (Ok e') /\ system_ok c e'.
Proof using All.
  intros Hok Hg. destruct call as [now er|ids| |now rdy]; cbn [do_call].
  - destruct (add_stays c now er e Hok Hg) as (e' & -> & ?). by exists e'.
  - destruct Hok as (Hc & len & w & H & Hrd & Ew & Hy). unfold abort_requests.
    destruct (finish_in_sync len (scheduler e) ids FINISHED_ABORTED w eq_refl H Hrd Hy) as (s & -> & H1 & H2 & H3 & H4).
    cbn [mbind result_bind]. eexists. split; [done|]. split; [cbn; by rewrite H3|]. by exists len, w.
  - destruct Hok as (Hc & len & w & H & Hrd & Ew & Hy). unfold engine_reset_prefix_cache.
    destruct (reset_in_sync len (scheduler e) w H Hrd Hy) as (s & b & -> & H1 & H2 & H3 & H4).
    cbn [mbind result_bind]. eexists. split; [done|]. split; [cbn; by rewrite H3|]. by exists len, w.
  - destruct (step_stays c now rdy e Hok Hg) as (e' & res & -> & ?). by exists e'.
Qed.

Lemma runs_stay c e0 e : system_ok c e0 -> runs_to e0 e -> system_ok c e.
Proof using All.
  intros H0 Hr. induction Hr as [|e call e' Hr IH Hg Hc]; [done|].
  destruct (call_stays c e call IH Hg) as (e1 & Hc1 & Hok). rewrite Hc in Hc1. by injection Hc1 as <-.
Qed.

(** ** The start *)

(** What a runner is made for: the configuration of the scheduler and of its cache. *)
Record made_for {dtype} (c : SchedulerConf) (cfg : KVCacheConfig (dtype := dtype)) (bs max_len max_tokens max_reqs : nat) : Prop := {
  mf_block : forall g, kv_cache_groups cfg = [g] -> KVCacheConfig.block_size (attention (kv_cache_spec g)) = Z.of_nat bs;
  mf_len : sched_max_model_len c = Z.of_nat max_len;
  mf_tokens : (max_num_scheduled_tokens c <= Z.of_nat max_tokens)%Z;
  mf_reqs : max_num_running_reqs c <= max_reqs;
}.

Lemma init_in_sync {dtype} c conn n size (cfg : KVCacheConfig (dtype := dtype)) caching eagle mm k e0 bs max_len max_tokens max_reqs vocab r (w0 : ModelRunner (features := features)) :
  suits c cfg eagle -> made_for c cfg bs max_len max_tokens max_reqs -> model_runner_init bs max_len max_tokens max_reqs vocab r = Ok w0 ->
  engine_init c conn n size cfg caching eagle (Ok w0) mm k = Ok e0 -> system_ok c e0.
Proof using EnvLaws0 ConnectorLaws0 CollisionFree0 TorchLaws0.
  intros Hsuits [M1 M2 M3 M4] Ew E0. unfold engine_init in E0. apply bind_ok in E0 as (s & Ei & E0). injection E0 as <-.
  destruct (init_ready (fun _ _ => 0%Z) _ _ _ _ _ _ _ _ Ei Hsuits) as (H & Hrd & Hconf & Erun & Ewait). split; [done|]. exists (fun _ _ => 0%Z), w0. cbn.
  split; [done|]. split; [done|]. split; [done|]. unfold scheduler_init in Ei. apply bind_ok in Ei as (n' & _ & Ei). apply bind_ok in Ei as (_ & _ & Ei).
  apply bind_ok in Ei as (m & Em & Ei). injection Ei as <-. destruct Hsuits as [_ Hg]. destruct (init_fit _ _ _ _ _ _ Em Hg) as [_ (g & Eg & Hn)].
  destruct (Hg g Eg) as [Hbs _]. rewrite (M1 g Eg) in Hbs.
  destruct (manager_init_ok cfg g (sched_max_model_len c) caching eagle (sched_log_stats c) Eg ltac:(rewrite (M1 g Eg); done) Hn)
    as (m' & Em' & _ & _ & _ & _ & _ & Ebs & Eblocks & _). rewrite Em in Em'. injection Em' as <-. rewrite (M1 g Eg), Nat2Z.id in Ebs.
  unfold model_runner_init in Ew. rewrite cdiv_ok in Ew by lia. cbn [mbind result_bind] in Ew.
  destruct (model_runner_init_ok (features := features) bs max_len max_tokens max_reqs vocab r ltac:(lia)) as (w1 & Ew1 & Hw & _ & _ & _ & Hk & Hids).
  unfold model_runner_init in Ew1. rewrite cdiv_ok in Ew1 by lia. cbn [mbind result_bind] in Ew1. rewrite Ew in Ew1. injection Ew1 as <-.
  destruct (input_batch_init_ok max_reqs max_len (Z.to_nat ((Z.of_nat max_len + Z.of_nat bs - 1) / Z.of_nat bs)) vocab)
    as (b & Eb & Hb & _ & _ & B1 & B2 & B3 & B4 & B5 & B6). rewrite Eb in Ew. injection Ew as <-.
  assert (Hnb : forall id, blocks_of m id = []) by (intros id; unfold blocks_of; by rewrite Eblocks, lookup_empty).
  split; [|by intros id ds d; cbn; rewrite lookup_empty]. cbn. split; cbn; try (intros x Hx; by apply elem_of_nil in Hx).
  - exact Hw.
  - split; cbn; rewrite ?B1, ?B2, ?B4, ?Ebs, ?M2, ?Z2Nat.id; try done; try lia. apply Z.div_pos; lia.
  - intros x y Hx. by apply elem_of_nil in Hx.
  - intros id [i Hi]. apply (bo_index _ _ _ Hb) in Hi. destruct (bo_places _ _ _ Hb i id Hi) as (x & Hx & _). by rewrite lookup_empty in Hx.
  - intros id [x Hx]. unfold runner_known, ModelRunnerSpec.known in Hx. cbn in Hx. by rewrite lookup_empty in Hx.
  - intros id cs o Hx. unfold runner_known, ModelRunnerSpec.known in Hx. cbn in Hx. by rewrite lookup_empty in Hx.
  - split; unfold writable; setoid_rewrite Hnb; [by intros id j [? _]|by intros id1 id2 j1 j2 b1 [? _]|].
    intros id. cbn. apply Z.div_pos; lia.
Qed.

(** ** Properties *)

(** C1: Engine core and worker stay in sync through good calls.  They start with a new
    scheduler and a new model runner for text, made for the same configuration.  A
    good call adds a request that the runner can serve and that wants no prompt log
    probabilities, aborts any ids, resets the prefix cache, or is a step in which no
    chunk of a prefill ends among a request's output tokens ([whole_prefills]), so
    that a preempted request gets its output back in one piece.  After any sequence
    of good calls every further good call returns, no exception is raised in the
    scheduler or in the runner, and afterwards the runner again knows every running
    and preempted request with its prompt, its output but perhaps the last token,
    and its blocks, and caches nothing for requests that are gone.  Other steps may
    fail or repeat a token: [preempted_request_fails_assertion] and
    [preempted_request_repeats_token]. *)
Theorem engine_and_worker_in_sync {dtype} c conn n size (cfg : KVCacheConfig (dtype := dtype)) caching eagle mm k e0 e
    bs max_len max_tokens max_reqs vocab r w0 call :
  suits c cfg eagle -> made_for c cfg bs max_len max_tokens max_reqs -> model_runner_init bs max_len max_tokens max_reqs vocab r = Ok w0 ->
  engine_init c conn n size cfg caching eagle (Ok w0) mm k = Ok e0 -> runs_to e0 e -> good_call e call ->
  exists e' w', system_call e call = Some (Ok e') /\ model_executor e' = Ok w' /\ in_sync (scheduler e') w' /\ sched_ok (scheduler e').
Proof using All.
  intros Hsuits Hmade Ew E0 Hr Hg. assert (Hok : system_ok c e) by (eapply runs_stay; [by eapply init_in_sync|done]).
  destruct (call_stays c e call Hok Hg) as (e' & Hc & _ & len & w' & H & _ & Ew' & Hy). by exists e', w'.
Qed.

(** C2: What the model computes on.  After any sequence of good calls, in a step that
    schedules something and in which again no chunk of a prefill ends among a
    request's output tokens ([whole_prefills]), the runner gathers, for every request that the scheduler scheduled, exactly that request's next
    tokens, as many as were scheduled, at the positions from the request's computed
    tokens on; every token has a KV-cache slot of its own, shared with no other
    token of this or another request, and none lies in the null block. *)
Theorem model_computes_scheduled_tokens {dtype} c conn n size (cfg : KVCacheConfig (dtype := dtype)) caching eagle mm k e0 e
    bs max_len max_tokens max_reqs vocab r w0 w now rdy s' out meta :
  suits c cfg eagle -> made_for c cfg bs max_len max_tokens max_reqs -> model_runner_init bs max_len max_tokens max_reqs vocab r = Ok w0 ->
  engine_init c conn n size cfg caching eagle (Ok w0) mm k = Ok e0 -> runs_to e0 e -> model_executor e = Ok w ->
  schedule build_connector_meta now rdy (scheduler e) = Some (Ok (s', (out, meta))) -> whole_prefills s' out -> total_num_scheduled_tokens out <> 0%Z ->
  computes s' w out.
Proof using All.
  intros Hsuits Hmade Ew E0 Hr Hw Es Hwhole Ht. assert (Hok : system_ok c e) by (eapply runs_stay; [by eapply init_in_sync|done]).
  destruct Hok as (_ & len & w1 & H & Hrd & Ew1 & Hy). rewrite Hw in Ew1. injection Ew1 as <-.
  destruct (step_in_sync len (scheduler e) w now rdy H Hrd Hy) as (s1 & out1 & meta1 & Es1 & Hs). rewrite Es in Es1. injection Es1 as <- <- <-.
  by destruct (Hs Hwhole) as (w' & mro & s2 & res & _ & _ & _ & _ & _ & _ & Hc); apply Hc.
Qed.
End System.

(** ** A small system *)

#[local] Existing Instances demo_torch demo_torch_laws demo_numpy demo_numpy_laws demo_order demo_order_laws.

(** A model that samples after the token at position [p] the token [20 + p]. *)
#[export] Instance demo_device : Device (E := engine_env) nat := {|
  is_multimodal_model := false; encode := fun _ => []; drafter := None;
  run_model := fun _ inp _ _ => {| so_sampled_token_ids := (fun i => [20 + default 0 (in_positions inp !! Z.to_nat i)]%Z) <$> in_logits_indices inp; so_logprobs := None |};
  prompt_tensors := fun _ _ => tt |}.

#[export] Instance demo_device_text : TextDevice (E := engine_env) demo_device.
Proof. split; [done|done|]. intros s inp embeds mask _. cbn. rewrite length_fmap. split; [done|]. apply Forall_fmap, Forall_true. done. Qed.

Notation demo_system := (EngineCore (E := engine_env) (V := nat) (BaseLRU0 := Sized.sized_lru Datatypes.id 10) (executor := result (ModelRunner (features := nat)))).
Notation demo_run := (do_call (E := engine_env) (V := nat) (BaseLRU0 := Sized.sized_lru Datatypes.id 10) engine_meta (run_worker (E := engine_env) (features := nat))).

Definition demo_worker (bs max_len max_reqs : nat) : result (ModelRunner (features := nat)) := model_runner_init bs max_len 16 max_reqs 100 false.

Definition demo_both (blocks : Z) (caching : bool) : result demo_system :=
  w ← demo_worker 4 64 4; engine_init engine_conf None blocks 10 (engine_cfg blocks) caching false (Ok w) empty_mirror 1.

Definition whole_b `{E : Env} (s : Scheduler) (out : SchedulerOutput) : bool :=
  forallb (fun r => let q := obj s r in
    bool_decide (num_computed_tokens q < Request.num_tokens q -> num_computed_tokens q < Z.of_nat (length (prompt_token_ids q)))%Z) (running s).

Lemma whole_b_ok `{E : Env} (s : Scheduler) out : whole_b s out = true -> whole_prefills s out.
Proof. intros H r n Hr _. unfold whole_b in H. apply Is_true_true, forallb_True in H. rewrite Forall_forall in H. by apply (bool_decide_unpack _ (H r Hr)). Qed.

Fixpoint demo_calls (e : demo_system) (cs : list (engine_call (V := nat))) : option (result demo_system) :=
  match cs with [] => Some (Ok e) | c :: cs => match demo_run e c with Some (Ok e) => demo_calls e cs | x => x end end.

Definition demo_add (id : string) (toks : list Z) (max_tokens : Z) : engine_call (V := nat) := AddRequest 0 (text_request id toks max_tokens).
Definition demo_tick : engine_call (V := nat) := Step 1 (fun _ => true).

(** The system after calls that succeed. *)
Definition system_after (blocks : Z) (caching : bool) (cs : list engine_call) : option demo_system :=
  match demo_both blocks caching with
  | Ok e => match demo_calls e cs with Some (Ok e) => Some e | _ => None end
  | Err _ => None
  end.

Definition demo_requests (e : demo_system) : list (string * RequestStatus * list Z) :=
  (fun r => let q := obj (scheduler e) r in (request_id q, status q, all_token_ids q)) <$> running (scheduler e) ++ waiting (scheduler e).

Lemma demo_made : made_for engine_conf (engine_cfg 10) 4 64 16 4.
Proof. split; [by intros g [= <-]|done|done|cbn; lia]. Qed.

Definition demo_w0 : ModelRunner (features := nat) := ModelRunnerTheorems.run (demo_worker 4 64 4).
Lemma demo_w0_eq : demo_worker 4 64 4 = Ok demo_w0.
Proof. by vm_compute. Qed.

Definition demo_e0 : demo_system := ModelRunnerTheorems.run (engine_init engine_conf None 10 10 (engine_cfg 10) true false (Ok demo_w0) empty_mirror 1).
Lemma demo_e0_eq : engine_init engine_conf None 10 10 (engine_cfg 10) true false (Ok demo_w0) empty_mirror 1 = Ok demo_e0.
Proof. by vm_compute. Qed.

Lemma demo_add_good id toks mt : toks <> [] -> (length toks <= 64)%nat -> good_call (E := engine_env) (BaseLRU0 := Sized.sized_lru Datatypes.id 10) engine_meta demo_e0 (demo_add id toks mt).
Proof.
  intros Hne Hlen. split.
  - split; try done. replace (sched_max_model_len (conf (scheduler demo_e0))) with 64%Z by (by vm_compute). cbn. lia.
  - intros w Ew. split; try done. by eexists.
Qed.

Definition demo_e1 : demo_system := match demo_run demo_e0 (demo_add "a" [1; 2; 3; 4; 5]%Z 3) with Some (Ok e) => e | _ => demo_e0 end.

Lemma demo_e1_eq : demo_run demo_e0 (demo_add "a" [1; 2; 3; 4; 5]%Z 3) = Some (Ok demo_e1).
Proof.
  assert (H : match demo_run demo_e0 (demo_add "a" [1; 2; 3; 4; 5]%Z 3) with Some (Ok _) => true | _ => false end = true) by by vm_compute.
  unfold demo_e1. by destruct (demo_run _ _) as [[]|].
Qed.

Definition demo_schedule (e : demo_system) : option (result (Scheduler * (SchedulerOutput * option unit))) := schedule engine_meta 1 (fun _ => true) (scheduler e).

Lemma demo_whole (e : demo_system) : match demo_schedule e with Some (Ok (s', (out, _))) => whole_b s' out | _ => true end = true ->
  good_call (E := engine_env) (BaseLRU0 := Sized.sized_lru Datatypes.id 10) engine_meta e demo_tick.
Proof. intros H. split; [done|]. intros s' out meta Es. apply whole_b_ok. unfold demo_schedule in H. by rewrite Es in H. Qed.

Lemma demo_e2_requests : match demo_run demo_e1 demo_tick with Some (Ok e) => demo_requests e | _ => [] end = [("a", RUNNING, [1; 2; 3; 4; 5; 24]%Z)].
Proof. by vm_compute. Qed.

(** A request of five tokens, and the first step. *)
Lemma engine_and_worker_in_sync_witness : exists e' w', demo_run demo_e1 demo_tick = Some (Ok e') /\ model_executor e' = Ok w' /\ in_sync (scheduler e') w' /\
  demo_requests e' = [("a", RUNNING, [1; 2; 3; 4; 5; 24]%Z)].
Proof.
  assert (Hg : good_call (E := engine_env) (BaseLRU0 := Sized.sized_lru Datatypes.id 10) engine_meta demo_e0 (demo_add "a" [1; 2; 3; 4; 5]%Z 3)) by (apply demo_add_good; [done|cbn; lia]).
  destruct (engine_and_worker_in_sync (E := engine_env) (BaseLRU0 := Sized.sized_lru Datatypes.id 10) engine_meta engine_conf None 10 10 (engine_cfg 10) true false empty_mirror 1
    demo_e0 demo_e1 4 64 16 4 100 false demo_w0 demo_tick (demo_suits 10) demo_made demo_w0_eq demo_e0_eq (run_call _ _ _ _ _ (run_start _ _) Hg demo_e1_eq)) as (e' & w' & Hc & Ew & Hy & _).
  { apply demo_whole. by vm_compute. }
  exists e', w'. split; [exact Hc|]. split; [exact Ew|]. split; [exact Hy|]. pose proof demo_e2_requests as He. by rewrite Hc in He.
Defined.

Lemma demo_e1_schedule : match demo_schedule demo_e1 with Some (Ok (s', (out, _))) => whole_b s' out && (total_num_scheduled_tokens out =? 5)%Z | _ => false end = true.
Proof. by vm_compute. Qed.

Lemma demo_e1_executor : is_ok (model_executor demo_e1) = true.
Proof. by vm_compute. Qed.

Lemma model_computes_scheduled_tokens_witness : exists w s' out meta, model_executor demo_e1 = Ok w /\
  demo_schedule demo_e1 = Some (Ok (s', (out, meta))) /\ total_num_scheduled_tokens out = 5%Z /\ computes s' w out.
Proof.
  assert (Hg : good_call (E := engine_env) (BaseLRU0 := Sized.sized_lru Datatypes.id 10) engine_meta demo_e0 (demo_add "a" [1; 2; 3; 4; 5]%Z 3)) by (apply demo_add_good; [done|cbn; lia]).
  pose proof demo_e1_schedule as Hs. pose proof demo_e1_executor as Hw. destruct (demo_schedule demo_e1) as [[[s' [out meta]]|]|] eqn:Es; [|done..].
  destruct (model_executor demo_e1) as [w|] eqn:Ew; [|done]. apply andb_true_iff in Hs as [Hs Ht%Z.eqb_eq]. exists w, s', out, meta. split; [done|]. split; [done|]. split; [done|].
  apply (model_computes_scheduled_tokens (E := engine_env) (BaseLRU0 := Sized.sized_lru Datatypes.id 10) engine_meta engine_conf None 10 10 (engine_cfg 10) true false empty_mirror 1
    demo_e0 demo_e1 4 64 16 4 100 false demo_w0 w 1 (fun _ => true) s' out meta (demo_suits 10) demo_made demo_w0_eq demo_e0_eq (run_call _ _ _ _ _ (run_start _ _) Hg demo_e1_eq) Ew Es);
    [by apply whole_b_ok|by rewrite Ht].
Defined.

(** ** Runs in which a preempted request comes back in pieces *)

Definition demo_load (max_a : Z) : list (engine_call (V := nat)) := [demo_add "a" [1; 2; 3; 4; 5]%Z max_a; demo_add "b" [11; 12; 13; 14; 15]%Z 30].

(** Request [b] has thirteen tokens when it is preempted, of which the runner has
    twelve.  Back in chunks of six tokens, the second chunk ends where the runner's
    tokens end: the runner samples the thirteenth token once more, and the
    scheduler appends it. *)
Lemma preempted_request_repeats_token :
  (demo_requests <$> system_after 7 false (demo_load 10 ++ replicate 9 demo_tick)) =
    Some [("a", RUNNING, [1; 2; 3; 4; 5; 24; 25; 26; 27; 28; 29; 30; 31; 32]%Z); ("b", PREEMPTED, [11; 12; 13; 14; 15; 24; 25; 26; 27; 28; 29; 30; 31]%Z)] /\
  (demo_requests <$> system_after 7 false (demo_load 10 ++ replicate 11 demo_tick)) =
    Some [("b", RUNNING, [11; 12; 13; 14; 15; 24; 25; 26; 27; 28; 29; 30; 31; 31]%Z)].
Proof. split; by vm_compute. Qed.

Definition demo_logprobs (id : string) (toks : list Z) (max_tokens : Z) : engine_call (V := nat) :=
  AddRequest 0 {| er_request_id := id; er_prompt_token_ids := toks; er_mm_inputs := None; er_mm_hashes := None; er_mm_placeholders := None;
    er_sampling_params := {| sp_max_tokens := Some max_tokens; guided_decoding := false; ignore_eos := false; stop_token_ids := [];
      prompt_logprobs := Some 1%Z; sp_logprobs := None; sp_sampler := greedy_sampler |}; er_eos_token_id := None; er_lora_request := None |}.

(** With log probabilities of the prompt wanted, the first chunk already stops the
    engine: the runner returns them once more, but no token with them. *)
Lemma preempted_request_fails_assertion :
  exists e, system_after 7 false (demo_add "a" [1; 2; 3; 4; 5]%Z 10 :: demo_logprobs "b" [11; 12; 13; 14; 15]%Z 30 :: replicate 9 demo_tick) = Some e /\
    demo_requests e = [("a", RUNNING, [1; 2; 3; 4; 5; 24; 25; 26; 27; 28; 29; 30; 31; 32]%Z); ("b", PREEMPTED, [11; 12; 13; 14; 15; 24; 25; 26; 27; 28; 29; 30; 31]%Z)] /\
    demo_run e demo_tick = Some (Err AssertionError).
Proof.
  assert (H : match system_after 7 false (demo_add "a" [1; 2; 3; 4; 5]%Z 10 :: demo_logprobs "b" [11; 12; 13; 14; 15]%Z 30 :: replicate 9 demo_tick) with
    | Some e => (demo_requests e, demo_run e demo_tick) | None => ([], None) end =
    ([("a", RUNNING, [1; 2; 3; 4; 5; 24; 25; 26; 27; 28; 29; 30; 31; 32]%Z); ("b", PREEMPTED, [11; 12; 13; 14; 15; 24; 25; 26; 27; 28; 29; 30; 31]%Z)],
     Some (Err AssertionError))) by by vm_compute.
  destruct (system_after _ _ _) as [e|]; [|done]. injection H as H1 H2. by exists e.
Qed.
